(* ===== verification/_CoqProject ===== *)
-Q . S2P
Prelude.v
Bits.v
Bytes.v
Febitvec.v
IntVec.v
Mem.v
RankSpec.v
RankSimple.v
RankSe256.v
RankIl256.v
RankSe512.v
RankFew.v
GoldHash.v
GoldHashInv.v
GoldHashProps.v
RankVec.v
Louds.v
LoudsInv.v
LoudsBuild.v
LoudsQuery.v
LoudsAccept.v
LoudsMmap.v
LoudsProps.v
CircularQueue.v
ConcQueue.v
ConcQueueProps.v
SerialStep.v
SerialStepProps.v
Pipeline.v
PipelineInv.v
PipelineSteps.v
PipelineLive.v
PipelineProps.v
VarInt.v
VarIntProps.v
MemStream.v
MemStreamProps.v
FreqHist.v
FreqHistProps.v
Rans.v
RansStep.v
RansTable.v
RansCoder.v
RansProps.v
RansCorrect.v
Dfa.v
SmallMap.v
Hopcroft.v
HopcroftList.v
SplitterMap.v
HopcroftSplit.v
HopcroftRefine.v
HopcroftLoop.v
HopcroftStart.v
HopcroftMoves.v
HopcroftCollapse.v
HopcroftProps.v
MemPool.v
MemPoolInv.v
MemPoolHuge.v
MemPoolLinks.v
MemPoolOps.v
MemPoolTake.v
MemPoolAlloc.v
MemPoolProps.v
DenseDfa.v
DenseBits.v
DenseMoves.v
DensePool.v
DenseOps.v
DenseInv.v
DenseSteps.v
DenseFreq.v
DenseBuild.v
DenseFill.v
DenseSpec.v
DenseRefine.v
DenseProps.v
