(* ===== verification/Prelude.v ===== *)
(** * A verification library for the succinct core of topling-ark

    The library models the core under [src/src/terark] that the tries and the
    blob stores are built on: bit manipulation, the bit vector [febitvec], packed
    integer vectors, the rank/select structures of [succinct/], the hash table
    [gold_hash_tab], and the LOUDS automaton of [fsa/] as the client of the
    rank/select classes and of the packed vectors; and the thread pipeline that
    the builders run in, with its queues; and the variable-length integers and memory
    streams of [io/] that everything is saved with.

    ** Files and what they model

    - [Prelude]: this file.  The outcome type [res] with its notation [let*], the
      loops [for_] and [loop] with their invariant rules, machine words, and the
      specification vocabulary: [rank], [is_select], [is_run], [is_revrun].
    - [Bits]: [bitmanip.hpp] and [succinct/rank_select_inline_slow.hpp]:
      population count, single bits, [bits_range_set0/1], [UintSelect1].
    - [Bytes]: byte-addressed memory, unaligned 64-bit accesses and [memcpy].
    - [Febitvec]: [bitmap.hpp] and [bitmap.cpp]: the growable bit vector.
    - [Mem]: 32-bit, 8-bit and 64-bit fields in an array of 64-bit words.
    - [RankSpec]: the type class [RankSelect] (the operations every rank/select
      class has), its laws [rs_laws], and the parts the classes share: binary
      search and scan over lines, the select caches, the select inside a line.
    - [RankSimple]: [rank_select_simple.*] (ranks every 256 bits in an array
      behind the bits) and the constant vectors of [rank_select_simple.hpp].
    - [RankSe256]: [rank_select_se_256.*] (two-level ranks in a separate cache).
    - [RankIl256]: [rank_select_il_256.*] (ranks interleaved with the bits, both
      the class and its [_41] variant with four select slots per 256 zeros).
    - [RankSe512]: [rank_select_se_512.*] with 32-bit caches (seven 9-bit ranks
      packed in a word per 512 bits).
    - [RankFew]: [rank_select_few.*] (sorted positions of the rare bit in layers)
      and its builder.
    - [IntVec]: [int_vector.*]: vectors of integers in the fewest bits, with
      appending and binary search, and the vector of distances from a minimum.
    - [GoldHash]: [gold_hash_map.hpp] with [node_layout.hpp] and [hash_common.*]:
      the table [gold_hash_tab], every operation; [GoldHashInv]: its invariant, the
      abstract slot table, the operations against it; [GoldHashProps]: properties.
    - [RankVec]: the interface a client uses of a rank/select class as a growable
      bit vector, with its laws and three instances.
    - [Louds]: [fsa/louds_dfa.*], [fsa/fast_search_byte.hpp], [fsa/ppi/accept.hpp]:
      the automaton, its builder, queries and [accept], over the class [RankVec]
      and a source automaton [Au].  [LoudsInv]: the invariants of the builder's
      loops, over the list of nodes made so far; [LoudsBuild]: what the built
      object holds ([image]); [LoudsQuery]: the queries on it; [LoudsAccept]:
      [accept] decides the language of what it simulates; [LoudsMmap]: saving,
      mapping, copying; [LoudsProps]: the properties, and a sample.

    - [CircularQueue]: [circular_queue.hpp]: the ring, every operation, against
      lists.  [ConcQueue]: [util/concurrent_queue.hpp] as a monitor over any container
      (class [Container] with its laws, two instances), and threads that call it;
      [ConcQueueProps]: what holds under every interleaving.
    - [SerialStep]: [run_serial_step_fast] and [run_serial_step_slow] of
      [thread/pipeline.cpp], over the heap functions of the standard library (a class
      with their contract); [SerialStepProps]: their order.
    - [Pipeline]: the rest of [thread/pipeline.cpp] in thread mode: a step relation on
      what the threads and the caller share (flag, counters, queues) and on where each
      thread is ([pc]).  [PipelineInv]: the invariant; [PipelineSteps]: every step
      keeps it and does not raise a measure; [PipelineLive]: a step that lowers the
      measure can always be reached; [PipelineProps]: the theorems and samples.
    - [VarInt]: [io/var_int.hpp], [io/var_int.cpp], [io/var_int_inline.hpp]: integers in
      as many bytes as they need, in both formats, signed and unsigned, forwards and
      backwards; [VarIntProps]: their bytes as lists of digits.
    - [MemStream]: [io/MemStream.hpp], [io/MemStream.cpp], [io/var_int_io.hpp]: [MemIO]
      and [AutoGrownMemIO] with the integers and strings they read and write;
      [MemStreamProps]: streams against lists of bytes.

    - [FreqHist]: [freq_hist] of [entropy/entropy_base.*]: counting bytes and scaling the
      counts; [FreqHistProps]: that both are right.
    - [Rans]: [encoder] and [decoder] of [entropy/rans_encoding.*] with their tables;
      [RansStep]: one symbol on one stream; [RansTable]: the table; [RansCoder]: a round
      of symbols on all streams and the ends of the streams; [RansProps]: a whole record;
      [RansCorrect]: the theorems, from the counts on.

    - [Dfa]: what the templates of [fsa/] ask of an automaton they read (a record) and of
      one they build (class [MutDfa] with laws), words and languages.  [SmallMap]:
      [smallmap.hpp].
    - [Hopcroft]: [fsa/hopcroft.hpp] and [fsa/ppi/dfa_hopcroft.hpp]: minimisation by
      partition refinement.  [HopcroftList]: the cyclic lists of the blocks;
      [SplitterMap]: the splitters as an association list; [HopcroftSplit]: dividing a
      block; [HopcroftRefine]: one splitter, and what the waiting set covers;
      [HopcroftLoop]: the loop; [HopcroftStart]: the first partition; [HopcroftMoves]:
      the moves backwards; [HopcroftCollapse]: the automaton of the blocks;
      [HopcroftProps]: the theorems and samples.

    - [MemPool]: [mempool_lock_none.hpp]: blocks cut from one array, with the free ones in
      lists and a skip list inside it.  [MemPoolInv]: which block each word belongs to;
      [MemPoolHuge]: walking the skip list; [MemPoolLinks]: changing its pointers;
      [MemPoolOps]: giving back; [MemPoolTake], [MemPoolAlloc]: taking and resizing;
      [MemPoolProps]: callers against a heap of separate blocks.

    - [DenseDfa]: [fsa/dense_dfa.hpp] with [static_bitmap] of [bitmap.hpp]: automata whose
      states hold two bitmaps, two shared targets and a block of targets in the pool.
      [DenseBits]: bitmaps and counting bits; [DenseMoves]: the moves of one state;
      [DensePool]: its block in the pool; [DenseOps], [DenseInv], [DenseSteps]: what
      adding and deleting moves does to a state, and the invariant; [DenseFreq]: the two
      most frequent targets; [DenseBuild]: new and copied states; [DenseFill]: all moves
      at once; [DenseSpec]: the contract, over maps; [DenseRefine]: every operation
      against it; [DenseProps]: the theorem, samples and deviations.

    ** State and operations

    An object is a [Record] with the fields of the class; memory the class owns
    is the list of its words (of its bytes in [RankFew]), and a pointer into it is
    an index, [None] when null.  An operation is one [Definition] that takes the
    object and returns the new one in [res]: [Ok], a C++ exception ([Throw]),
    undefined behaviour ([UB]: an access outside the memory, a failed [assert], a
    shift that is too wide) or [Fuel].  Memory that [realloc] or an uninitialised
    array leaves behind is an argument, a function [junk], so every theorem holds
    whatever it contains.  64-bit words are [Z] in [0, 2^64); operations that can
    wrap say so with [u64], [shl64], [not64]; sizes and indices are [Z] where the
    code does not wrap them.  Where a class has both an intrinsic and a portable
    branch, the portable branch is modelled.

    ** How the parts interact

    [Febitvec] edits words with [Bits].  The rank/select classes hold a [febitvec]
    (or lines of words), write their caches through [Mem], search them with
    [RankSpec] and finish inside a word with [Bits.UintSelect1].  Each class is an
    instance of [RankSelect], and the theorem about its [build_cache] (its
    builder, for [RankFew]) discharges [rs_laws] for the bits of the vector.
    A client of rank and select needs only [rs_laws].  [RankVec] adds the editing
    operations; [Louds] is written and proved against [RankVecLaws] alone, so its
    theorems hold for the three classes [GenLoudsDFA] is instantiated with.
    [Louds] also uses [IntVec] for cross edges and cache, and [Febitvec] directly.
    [GoldHash] stands alone: keys, hash function and equality are parameters.
    [ConcQueue] is written against [Container], which [CircularQueue] implements; a
    call is a step of the monitor, and threads interleave between the steps.
    [Pipeline] holds such queues (of any [ContainerLaws]) and calls [push_back] and
    [pop_front] on them; a stage with [ple_keep] runs [recv_fast] and [flush_fast] of
    [SerialStep], whose invariant [progress] is part of the pipeline's.
    [MemStream] calls the readers and writers of [VarInt]: the slow readers take a
    [readByte] of any stream, which [MemStream] supplies.

    The frequencies that [FreqHist] gives are what the tables of [Rans] are made from
    ([histogram] in [RansTable] is the contract between them).

    [Hopcroft] reads a [Dfa] and builds a value of any [MutDfa]; its theorems need the
    laws of that class only.  Its constructor with a hash takes the number of buckets
    from [GoldHash.next_prime], its splitters are kept in a [SmallMap].

    [MemPool] stands alone; the C library's [rand_r] is a parameter of its operations.
    [DenseDfa] keeps the targets of its states in a [MemPool]; its proofs use what
    [MemPoolAlloc] says of one call, given the blocks of all states as the live ones.

    ** What the theorems show

    - Memory: [mempool_refines_heap] (callers of the pool see separate blocks that keep
      what was written), [mempool_blocks_apart], [mempool_well_formed] (every operation
      keeps the invariant), [mempool_accounts] (no byte is lost, and what [frag_size]
      counts), [mempool_best_fit]; [mempool_split_counts] where the counters are wrong.
    - Automata: [dense_dfa_refines] (any sequence of operations on an automaton with
      bitmaps does what it does on maps, and keeps the invariant: blocks apart, counters
      right); [dense_add_move_wrong_old], [dense_set_move_same_aborts],
      [dense_more_than_one_wrong], [dense_hash_by_history], [dense_del_state_asserts]
      where the code deviates.
    - Minimisation: [hopcroft_graph_minimize] and [hopcroft_trie_minimize] (termination,
      no undefined behaviour, one state per class of states that behave alike),
      [hopcroft_fewest_states] and [hopcroft_same_language] (the result is the smallest
      automaton, for the behaviour and for the language).
    - Refinement: any sequence of editing operations whose preconditions hold
      runs without undefined behaviour and computes the list-of-bits
      specification ([exec_refines] for [febitvec], [il_exec_refines]); sequences
      of operations of the hash table compute the abstract slot table
      ([gold_exec_refines], and [gold_reachable_safe], [gold_map_laws]); the LOUDS
      automaton accepts the language of its source and answers every query like
      it ([louds_accept_correct], [louds_queries_correct]).
    - Construction: [build_cache] keeps the bits, and [rank0], [rank1], [select0],
      [select1] and the totals are right at every argument
      ([simple_build_cache_correct], [se_build_cache_correct],
      [il_build_cache_correct], [s512_build_cache_correct],
      [const_vectors_correct], [few_build_correct]).
    - Equivalence: the unchecked fast paths return what the checked functions
      return ([se_fast_select_agrees], [il_fast_select_agrees],
      [s512_fast_select_agrees]); the bit tricks are the plain definitions
      ([fast_popcount64_correct], [UintSelect1_correct], [bits_range_set_correct]).
    - Round trips: [risk_mmap_from] on the memory of a built object gives the
      object back (one theorem per class); [set_uint] and [get_uint]; packed
      vectors ([zip_build_roundtrip]); [gold_dio_roundtrip]; the file of a LOUDS
      automaton ([louds_mmap_roundtrip]); variable-length integers ([var_int_roundtrip], with
      their sizes in [var_int_sizes]; backwards [reverse_get_correct]) and sequences
      of values in a memory stream ([memory_stream_roundtrip]).
    - Ends of buffers: [mem_io_ends], and [tail_readers_wrong] where the integers
      whose first byte tells the length are read wrongly.
    - Entropy coding: [rans_roundtrip] (any record, any number of streams), from
      [rans_step_inverse] (the division by a product is exact, states keep their bounds,
      the steps are inverse) and [rans_table_roundtrip]; [freq_hist_correct] and the whole
      chain [rans_records_roundtrip]; on other input the decoder reads outside
      ([rans_header_outside]).
    - Search and iteration: [uint_search_correct], [gold_iterate_correct].
    - Run lengths: the functions that skip whole words return the length of the
      maximal run ([seq_len_correct], [il_seq_len_refines], [few_seq_len_correct]).
    - Hints: every hint is safe for the rank queries of [rank_select_few]
      ([few_rank_hint_correct]).
    - Behaviour that deviates from what the code means to do, as closed or
      universally quantified facts: [make_padded_bit0], [simple_copy_loses_ranks],
      [zero_seq_len_counts_padding], [il_asserts_fail], [il_41_mmap_wrong_select1],
      [il_resize_keeps_tail], [il_pop_back_stale_count], [few_hint_wrong], and the
      second part of [s512_mmap_roundtrip] about the copy constructor;
      [push_back_spec], [zip_min_upper_bound_wrong], [gold_dio_save_deleted],
      [gold_keepid_gc_ub], [gold_shrink_keeps_nodes]; [louds_mapped_states],
      [louds_cache_not_saved], [louds_dead_leaf_accepts].

    - Concurrency: [circular_queue_refines] (sequences of operations of the ring
      compute those of a list), [concurrent_queue_fifo] (order and conservation under
      every interleaving), [concurrent_queue_live] (no wake-up is lost when calls move
      one element) and [batch_and_predicate_lose_wakeups] (where it fails);
      [serial_step_in_order], [serial_steps_agree] (tasks leave in serial order, in both versions);
      for pipelines of any stages, threads and schedule [pipeline_delivers] (each task
      passes all stages once, in order where promised), [pipeline_can_end] (no state
      is stuck), [pipeline_steps_defined] (no assertion fails), given that [stop] comes
      after all threads have begun, and [early_stop_loses_tasks] (what happens if not).

    ** Fuel and bounds

    A [for] loop runs [for_], whose number of turns is computed from its bounds.
    Every other loop is [loop fuel body]; its fuel is an expression of the size
    of what is searched or of the number of turns left (the length of the range
    for a binary search, the number of lines for a scan, the number of entries of
    a layer, the number of nodes plus one for a hash chain, the number of edges
    plus two for the levels of the LOUDS builder), and the rule [loop_inv] asks for a measure below the fuel that
    decreases, so each theorem that states [Ok] also states termination.  Bounds
    on sizes are hypotheses: below [2^32] bits for the classes with 32-bit caches
    (their constructors check it), fewer than [2^30] targets in the pool of an automaton
    with bitmaps (an operation adds at most as many as there are characters), below [2^56] for [rank_select_few], fewer than
    [2^31] nodes in a hash table, [2 T + 2 < 2^32] louds bits for an automaton
    of [T] edges, and fewer than [2^31] states and [2^32] moves in an automaton that is
    minimised (a step takes a block from the waiting set, and each division of a block
    puts one there, so there are no more steps than states); requests of less than [2^32] bytes in
    all for a memory pool (a level of its skip list has no more nodes than the array has
    words).

    ** Conditions of the theorems

    Where a theorem holds under a condition that a caller could miss, it is this:
    [exec_refines]: [shrink_to_fit] is called on vectors with bits only (on an empty one
    it leaves a block of no bytes, the flag [m_hollow], on which the next call fails an
    assertion: [shrink_to_fit_twice]).  [il_build_cache_correct]: the lines are those the
    size needs, and the checked rank also wants a size that is not a multiple of 256.
    [il_exec_refines]: [resize] only shrinks.  [few_build_correct]: there is a pivot.
    [louds_mmap_roundtrip]: no cache is built; the copy is the one of the vector class,
    where that is defined ([rv_copy], [rv_can_copy] of [RankVec]).
    [circular_queue_refines]: [pop_upper] right behind the last element passes, as in the
    code ([pop_upper_behind]).  [serial_steps_agree]: the slow version is given a function
    to hand items to.  [hopcroft_graph_minimize], [hopcroft_trie_minimize]: no hash (the
    default), or one that depends on the characters alone.  [var_int_roundtrip],
    [memory_stream_roundtrip]: bytes that can be read behind integers whose first byte
    tells the length.  [rans_roundtrip]: records shorter than 73^N for N streams.

    ** Not modelled

    Intrinsics (BMI2, AVX512, SSE4.2) and MSVC branches; transfer of ownership
    (moves, swap, destructors, [risk_release_ownership]); the
    64-bit instantiation of [rank_select_se_512]; the mixed rank/select classes;
    of [gold_hash_tab] the variants with a hash cache, sorting and the fast
    serialisation; big-endian machines, [MinMemIO], formatted output and the streams
    over files and sockets; of the LOUDS automaton the nested tries for zpaths and the
    matching templates other than [accept]; of the pipeline the fiber and mixed
    modes, generating stages, batches, logging, and functions that throw (memory is
    sequentially consistent, and a timed wait ends when the queue is empty).  Of the
    entropy coders the products in double precision and [std::partial_sort] are
    parameters; the coders of order 1 and 2 and the Huffman coder are not modelled.  Of
    the minimisation the constructors for several roots are not modelled, of the memory
    pool blocks aligned at more than four bytes, copies and the serialisation; of the
    automata with bitmaps zipped paths, [compact] and the file format.  The
    other automata, the blob stores,
    I/O and tools of the repository are not modelled.  In order of
    interest for an extension: the Huffman coder, the rANS coders with context, the
    mixed classes, nested LOUDS tries. *)
From stdpp Require Export base tactics numbers list option.
Open Scope Z_scope.

(** ** Outcomes of C++ code

    A C++ function either returns, throws, or has undefined behaviour (an
    out-of-range memory access or a failed [assert]).  [Fuel] is the outcome of
    a loop that was not given enough fuel; the theorems show it never occurs. *)

Inductive exn := runtime_error | invalid_argument | out_of_range | logic_error | bad_alloc | terark_die | EndOfFileException | OutOfSpaceException | length_error.

Inductive res (A : Type) := Ok (a : A) | Throw (e : exn) | UB | Fuel.
Arguments Ok {A} a.
Arguments Throw {A} e.
Arguments UB {A}.
Arguments Fuel {A}.

Definition rbind {A B} (m : res A) (k : A -> res B) : res B :=
  match m with Ok a => k a | Throw e => Throw e | UB => UB | Fuel => Fuel end.

Declare Scope res_scope.
Delimit Scope res_scope with res.
Notation "'let*' p := m 'in' k" := (rbind m (fun p => k))
  (at level 10, p pattern, m at level 200, k at level 200) : res_scope.
Open Scope res_scope.

(** [assert(c)] of a debug build; a violated one is undefined behaviour. *)
Definition assert_ (c : bool) : res unit := if c then Ok tt else UB.

(** ** Memory accesses: arrays are lists, an access outside is undefined. *)

Definition rd {A} (l : list A) (i : Z) : res A :=
  if decide (0 <= i) then match l !! Z.to_nat i with Some x => Ok x | None => UB end else UB.

Definition wr {A} (l : list A) (i : Z) (x : A) : res (list A) :=
  if decide (0 <= i < Z.of_nat (length l)) then Ok (<[Z.to_nat i := x]> l) else UB.

(** ** Loops *)

Fixpoint for_loop {S} (n : nat) (i : Z) (body : Z -> S -> res S) (s : S) : res S :=
  match n with
  | O => Ok s
  | Datatypes.S n' => let* s' := body i s in for_loop n' (i + 1) body s'
  end.

(** [for (i = a; i < b; ++i) body] *)
Definition for_ {S} (a b : Z) (body : Z -> S -> res S) (s : S) : res S :=
  for_loop (Z.to_nat (b - a)) a body s.

(** A loop whose body either continues ([inl]) or leaves ([inr]). *)
Fixpoint loop {S R} (fuel : nat) (body : S -> res (S + R)) (s : S) : res R :=
  match fuel with
  | O => Fuel
  | Datatypes.S n => let* r := body s in match r with inl s' => loop n body s' | inr x => Ok x end
  end.

(** ** Machine words *)

Definition u8 (z : Z) : Z := z mod 2 ^ 8.
Definition u32 (z : Z) : Z := z mod 2 ^ 32.
Definition u64 (z : Z) : Z := z mod 2 ^ 64.
(** [~w], [w << n] on [uint64_t]. *)
Definition not64 (w : Z) : Z := Z.land (Z.lnot w) (Z.ones 64).
Definition shl64 (w n : Z) : Z := u64 (Z.shiftl w n).
Definition word64 (w : Z) : Prop := 0 <= w < 2 ^ 64.

Lemma u64_small z : 0 <= z < 2 ^ 64 -> u64 z = z.
Proof. apply Z.mod_small. Qed.

Lemma u32_small z : 0 <= z < 2 ^ 32 -> u32 z = z.
Proof. apply Z.mod_small. Qed.

(** The sum of a list. *)
Definition zsum (l : list Z) : Z := foldr Z.add 0 l.

Lemma zsum_cons a l : zsum (a :: l) = a + zsum l.
Proof. done. Qed.

Lemma zsum_app l l' : zsum (l ++ l') = zsum l + zsum l'.
Proof. induction l as [|a l IH]; [done|]. cbn [app]. rewrite !zsum_cons. lia. Qed.

Lemma zsum_nonneg l : Forall (fun v => 0 <= v) l -> 0 <= zsum l.
Proof. induction 1; [done|]. rewrite zsum_cons. lia. Qed.

(** ** Counting: [cnt f s n] is the number of [i] in [s, s+n) with [f i]. *)

Fixpoint cnt (f : Z -> bool) (s : Z) (n : nat) : Z :=
  match n with O => 0 | S n' => Z.b2z (f s) + cnt f (s + 1) n' end.

(** Number of ones before [p]. *)
Definition rank (f : Z -> bool) (p : Z) : Z := cnt f 0 (Z.to_nat p).

(** [p] is the position of the one with rank [r] (counted from zero). *)
Definition is_select (f : Z -> bool) (r p : Z) : Prop :=
  0 <= p /\ f p = true /\ rank f p = r.

(** [n] is the length of the run of [v]'s that starts at [s], cut at [e]. *)
Definition is_run (f : Z -> bool) (v : bool) (s e n : Z) : Prop :=
  0 <= n /\ s + n <= e /\ (forall i, s <= i < s + n -> f i = v) /\ (s + n < e -> f (s + n) = negb v).

(** [n] is the length of the run of [v]'s that ends (exclusively) at [e]. *)
Definition is_revrun (f : Z -> bool) (v : bool) (e n : Z) : Prop :=
  0 <= n <= e /\ (forall i, e - n <= i < e -> f i = v) /\ (0 < e - n -> f (e - n - 1) = negb v).

(** ** The bit at index [i] of an array of 64-bit words *)

Definition word_at (ws : list Z) (j : Z) : Z := nth (Z.to_nat j) ws 0.
Definition bit_at (ws : list Z) (i : Z) : bool := Z.testbit (word_at ws (i / 64)) (i mod 64).

(** * Lemmas *)

(** ** Arithmetic helpers *)

Lemma div64_lt i n : 0 <= i < 64 * n -> 0 <= i / 64 < n.
Proof. intros. split; [apply Z.div_pos|apply Z.div_lt_upper_bound]; lia. Qed.

Lemma mod64_range i : 0 <= i mod 64 < 64.
Proof. apply Z.mod_pos_bound; lia. Qed.

Lemma div_add_mul a b c : 0 < b -> (a + b * c) / b = a / b + c.
Proof. intros. replace (a + b * c) with (a + c * b) by ring. apply Z.div_add; lia. Qed.

Lemma mod_add_mul a b c : (a + b * c) mod b = a mod b.
Proof. replace (a + b * c) with (a + c * b) by ring. apply Z_mod_plus_full. Qed.

(** ** Array accesses *)

Lemma rd_ok {A} (l : list A) i x : 0 <= i -> l !! Z.to_nat i = Some x -> rd l i = Ok x.
Proof. intros Hi Hx. unfold rd. rewrite decide_True by done. by rewrite Hx. Qed.

Lemma rd_word ws i : 0 <= i < Z.of_nat (length ws) -> rd ws i = Ok (word_at ws i).
Proof.
  intros Hi. apply rd_ok; [lia|]. unfold word_at.
  destruct (lookup_lt_is_Some_2 ws (Z.to_nat i)) as [x Hx]; [lia|].
  rewrite Hx. f_equal. symmetry. by apply nth_lookup_Some.
Qed.

Lemma rd_Ok_inv {A} (l : list A) i x : rd l i = Ok x -> 0 <= i /\ l !! Z.to_nat i = Some x.
Proof.
  unfold rd. case_decide; [|done]. destruct (l !! Z.to_nat i) eqn:E; [|done].
  intros [= ->]. done.
Qed.

Lemma insert_rd {A} (l : list A) i a j : 0 <= i < Z.of_nat (length l) -> 0 <= j -> rd (<[Z.to_nat i := a]> l) j = if j =? i then Ok a else rd l j.
Proof.
  intros Hi Hj. unfold rd. rewrite !decide_True by done. destruct (Z.eqb_spec j i) as [->|Hne]; [by rewrite list_lookup_insert_eq by lia|by rewrite list_lookup_insert_ne by lia].
Qed.

Lemma rd_range {A} (l : list A) i a : rd l i = Ok a -> 0 <= i < Z.of_nat (length l).
Proof. intros Hr. apply rd_Ok_inv in Hr as [Hi Hl]. apply lookup_lt_Some in Hl. lia. Qed.

Lemma wr_ok {A} (l : list A) i x :
  0 <= i < Z.of_nat (length l) -> wr l i x = Ok (<[Z.to_nat i := x]> l).
Proof. intros. unfold wr. by rewrite decide_True. Qed.

Lemma word_at_insert ws i j x : 0 <= i < Z.of_nat (length ws) -> 0 <= j ->
  word_at (<[Z.to_nat i := x]> ws) j = if decide (j = i) then x else word_at ws j.
Proof.
  intros Hi Hj. unfold word_at. rewrite !nth_lookup.
  case_decide as E.
  - subst. rewrite list_lookup_insert_eq by lia. done.
  - rewrite list_lookup_insert_ne by lia. done.
Qed.

Lemma word_at_app_l ws vs j : 0 <= j < Z.of_nat (length ws) -> word_at (ws ++ vs) j = word_at ws j.
Proof. intros. unfold word_at. apply app_nth1. lia. Qed.

Lemma word_at_app_r ws vs j : Z.of_nat (length ws) <= j ->
  word_at (ws ++ vs) j = word_at vs (j - Z.of_nat (length ws)).
Proof. intros. unfold word_at. rewrite app_nth2 by lia. f_equal. lia. Qed.

Lemma word_at_take ws n j : 0 <= j < Z.of_nat n -> word_at (take n ws) j = word_at ws j.
Proof.
  intros. unfold word_at. rewrite !nth_lookup, lookup_take_lt by lia. done.
Qed.

Lemma word_at_word64 ws j : Forall word64 ws -> word64 (word_at ws j).
Proof.
  intros H. unfold word_at. rewrite nth_lookup.
  destruct (ws !! Z.to_nat j) eqn:E; simpl; [|done || (unfold word64; lia)].
  rewrite Forall_lookup in H. eauto.
Qed.

(** ** Rules for loops *)

Lemma for_loop_inv {S} (I : Z -> S -> Prop) (body : Z -> S -> res S) n i s :
  I i s ->
  (forall k t, i <= k < i + Z.of_nat n -> I k t -> exists t', body k t = Ok t' /\ I (k + 1) t') ->
  exists s', for_loop n i body s = Ok s' /\ I (i + Z.of_nat n) s'.
Proof.
  revert i s. induction n as [|n IH]; intros i s H0 Hstep; cbn [for_loop].
  - exists s. rewrite Z.add_0_r. done.
  - destruct (Hstep i s) as (t & E & Ht); [lia|done|]. rewrite E. cbn [rbind].
    destruct (IH (i + 1) t Ht) as (s' & E' & Hs').
    { intros k u Hk Hu. apply Hstep; [lia|done]. }
    exists s'. split; [done|]. by replace (i + Z.of_nat (Datatypes.S n)) with (i + 1 + Z.of_nat n) by lia.
Qed.

Lemma for_inv {S} (I : Z -> S -> Prop) (body : Z -> S -> res S) a b s :
  a <= b -> I a s ->
  (forall k t, a <= k < b -> I k t -> exists t', body k t = Ok t' /\ I (k + 1) t') ->
  exists s', for_ a b body s = Ok s' /\ I b s'.
Proof.
  intros Hab H0 Hstep. unfold for_.
  destruct (for_loop_inv I body (Z.to_nat (b - a)) a s H0) as (s' & E & Hs').
  { intros k t Hk. apply Hstep. lia. }
  exists s'. split; [done|]. by replace b with (a + Z.of_nat (Z.to_nat (b - a))) by lia.
Qed.

Lemma loop_inv {S R} (I : S -> Prop) (m : S -> Z) (Q : R -> Prop) (body : S -> res (S + R)) fuel s :
  I s -> m s < Z.of_nat fuel ->
  (forall t, I t -> 0 <= m t /\
     ((exists t', body t = Ok (inl t') /\ I t' /\ m t' < m t) \/
      (exists r, body t = Ok (inr r) /\ Q r))) ->
  exists r, loop fuel body s = Ok r /\ Q r.
Proof.
  revert s. induction fuel as [|n IH]; intros s Hs Hm Hstep.
  - destruct (Hstep s Hs). lia.
  - cbn [loop]. destruct (Hstep s Hs) as (H0 & [(t & E & Ht & Hlt)|(r & E & Hr)]); rewrite E; cbn [rbind].
    + apply IH; [done|lia|done].
    + eauto.
Qed.

(** ** Bits of machine words *)

Create HintDb word64.

Lemma testbit_u64 z i : 0 <= i -> Z.testbit (u64 z) i = (i <? 64) && Z.testbit z i.
Proof. intros. unfold u64. apply Z.testbit_mod_pow2; lia. Qed.

Lemma testbit_not64 w i : 0 <= i -> Z.testbit (not64 w) i = (i <? 64) && negb (Z.testbit w i).
Proof.
  intros. unfold not64. rewrite Z.land_spec, Z.lnot_spec, Z.testbit_ones_nonneg by lia.
  apply andb_comm.
Qed.

Lemma testbit_shl64 w n i : 0 <= i -> 0 <= n ->
  Z.testbit (shl64 w n) i = (i <? 64) && (n <=? i) && Z.testbit w (i - n).
Proof.
  intros. unfold shl64. rewrite testbit_u64, Z.shiftl_spec by lia.
  destruct (Z.leb_spec n i); [by rewrite andb_true_r|].
  rewrite (Z.testbit_neg_r w) by lia. by rewrite !andb_false_r.
Qed.

Lemma testbit_shr w n i : 0 <= i -> Z.testbit (Z.shiftr w n) i = Z.testbit w (i + n).
Proof. intros. by apply Z.shiftr_spec. Qed.

Lemma testbit_high w i n : 0 <= w < 2 ^ n -> 0 <= n <= i -> Z.testbit w i = false.
Proof.
  intros Hw Hi. destruct (decide (w = 0)) as [->|]; [apply Z.bits_0|].
  apply Z.bits_above_log2; [lia|]. apply Z.lt_le_trans with n; [|lia].
  apply Z.log2_lt_pow2; lia.
Qed.

Lemma testbit_word64_high w i : word64 w -> 64 <= i -> Z.testbit w i = false.
Proof. intros. apply (testbit_high w i 64); [done|lia]. Qed.

Lemma word64_bits w : 0 <= w -> (forall i, 64 <= i -> Z.testbit w i = false) -> word64 w.
Proof.
  intros H0 H. split; [done|]. destruct (Z.eq_dec w 0) as [->|Hn]; [lia|].
  apply Z.log2_lt_pow2; [lia|]. destruct (Z.lt_ge_cases (Z.log2 w) 64) as [|Hge]; [done|].
  specialize (H _ Hge). rewrite Z.bit_log2 in H by lia. done.
Qed.

Lemma word64_eq v w : word64 v -> word64 w ->
  (forall i, 0 <= i < 64 -> Z.testbit v i = Z.testbit w i) -> v = w.
Proof.
  intros Hv Hw H. apply Z.bits_inj'. intros i Hi.
  destruct (Z.lt_ge_cases i 64); [by apply H|]. by rewrite !testbit_word64_high.
Qed.

Lemma word64_zero v : word64 v -> (forall i, 0 <= i < 64 -> Z.testbit v i = false) -> v = 0.
Proof. intros Hv H. apply word64_eq; [done|unfold word64; lia|]. intros. rewrite Z.bits_0. auto. Qed.

Lemma word64_u64 z : word64 (u64 z).
Proof. apply Z.mod_pos_bound. lia. Qed.

Lemma word64_not64 w : word64 (not64 w).
Proof. unfold word64, not64. rewrite Z.land_ones by lia. apply Z.mod_pos_bound. lia. Qed.

Lemma word64_shl64 w n : word64 (shl64 w n).
Proof. apply word64_u64. Qed.

Lemma word64_land v w : word64 v -> 0 <= w -> word64 (Z.land v w).
Proof.
  intros Hv Hw. apply word64_bits; [apply Z.land_nonneg; left; apply Hv|].
  intros i Hi. by rewrite Z.land_spec, testbit_word64_high.
Qed.

Lemma word64_lor v w : word64 v -> word64 w -> word64 (Z.lor v w).
Proof.
  intros Hv Hw. apply word64_bits; [apply Z.lor_nonneg; split; [apply Hv|apply Hw]|].
  intros i Hi. by rewrite Z.lor_spec, !testbit_word64_high.
Qed.

Lemma word64_lxor v w : word64 v -> word64 w -> word64 (Z.lxor v w).
Proof.
  intros Hv Hw. apply word64_bits.
  { apply Z.lxor_nonneg. destruct Hv, Hw. lia. }
  intros i Hi. by rewrite Z.lxor_spec, !testbit_word64_high.
Qed.

Lemma word64_shr w n : word64 w -> 0 <= n -> word64 (Z.shiftr w n).
Proof.
  intros Hw Hn. apply word64_bits; [apply Z.shiftr_nonneg, Hw|].
  intros i Hi. rewrite testbit_shr by lia. apply testbit_word64_high; [done|lia].
Qed.

Lemma word64_ones n : 0 <= n <= 64 -> word64 (Z.ones n).
Proof.
  intros. apply word64_bits; [rewrite Z.ones_equiv; lia|].
  intros i Hi. rewrite Z.testbit_ones_nonneg by lia. lia.
Qed.

Lemma shr_zero w n : word64 w -> 64 <= n -> Z.shiftr w n = 0.
Proof.
  intros Hw Hn. apply word64_zero; [apply word64_shr; [done|lia]|].
  intros. rewrite testbit_shr by lia. apply testbit_word64_high; [done|lia].
Qed.

Lemma land_shl1_testbit w n : 0 <= n -> (negb (Z.land w (Z.shiftl 1 n) =? 0)) = Z.testbit w n.
Proof.
  intros Hn. destruct (Z.testbit w n) eqn:E.
  - destruct (Z.eqb_spec (Z.land w (Z.shiftl 1 n)) 0) as [H|]; [|done].
    apply (f_equal (fun z => Z.testbit z n)) in H.
    rewrite Z.land_spec, E, Z.shiftl_spec, Z.sub_diag, Z.bits_0 in H by lia. done.
  - apply negb_false_iff, Z.eqb_eq, Z.bits_inj'. intros i Hi.
    rewrite Z.land_spec, Z.bits_0, Z.shiftl_spec by lia.
    destruct (decide (i = n)) as [->|Hne]; [by rewrite E|].
    destruct (decide (i < n)); [rewrite (Z.testbit_neg_r 1) by lia; apply andb_false_r|].
    replace (Z.testbit 1 (i - n)) with false; [apply andb_false_r|].
    symmetry. apply (testbit_high 1 (i - n) 1); lia.
Qed.

Lemma lor_above a b n : 0 <= a < 2 ^ n -> 0 <= n -> Z.lor a (Z.shiftl b n) = a + b * 2 ^ n.
Proof.
  intros Ha Hn. rewrite <- Z.shiftl_mul_pow2 by done. pose proof (Z.add_lor_land a (Z.shiftl b n)) as E.
  assert (Z.land a (Z.shiftl b n) = 0) as E0; [|lia]. apply Z.bits_inj'. intros i Hi. rewrite Z.land_spec, Z.bits_0, Z.shiftl_spec by done.
  destruct (Z.lt_ge_cases i n); [rewrite (Z.testbit_neg_r b) by lia; by rewrite andb_false_r|]. by rewrite (testbit_high a i n) by lia.
Qed.

#[export] Hint Resolve word64_u64 word64_not64 word64_shl64 word64_land word64_lor word64_lxor
  word64_shr word64_ones word_at_word64 mod64_range : word64.

(** ** Counting *)

Lemma cnt_bounds f s n : 0 <= cnt f s n <= Z.of_nat n.
Proof.
  revert s. induction n as [|n IH]; intros s; cbn [cnt]; [lia|].
  specialize (IH (s + 1)). destruct (f s); simpl Z.b2z; lia.
Qed.

Lemma cnt_app f s n m : cnt f s (n + m) = cnt f s n + cnt f (s + Z.of_nat n) m.
Proof.
  revert s. induction n as [|n IH]; intros s; cbn [cnt Nat.add].
  { rewrite Z.add_0_l, Z.add_0_r. done. }
  rewrite IH. replace (s + 1 + Z.of_nat n) with (s + Z.of_nat (S n)) by lia. lia.
Qed.

Lemma cnt_ext f g s t n : (forall i, 0 <= i < Z.of_nat n -> f (s + i) = g (t + i)) ->
  cnt f s n = cnt g t n.
Proof.
  revert s t. induction n as [|n IH]; intros s t H; cbn [cnt]; [done|].
  f_equal.
  - f_equal. specialize (H 0). rewrite !Z.add_0_r in H. apply H. lia.
  - apply IH. intros i Hi. replace (s + 1 + i) with (s + (i + 1)) by lia.
    replace (t + 1 + i) with (t + (i + 1)) by lia. apply H. lia.
Qed.

Lemma cnt_negb f s n : cnt (fun i => negb (f i)) s n = Z.of_nat n - cnt f s n.
Proof.
  revert s. induction n as [|n IH]; intros s; cbn [cnt]; [done|].
  rewrite IH. destruct (f s); simpl Z.b2z; simpl negb; lia.
Qed.

Lemma cnt_false f s n : (forall i, s <= i < s + Z.of_nat n -> f i = false) -> cnt f s n = 0.
Proof.
  revert s. induction n as [|n IH]; intros s H; cbn [cnt]; [done|].
  rewrite H by lia. rewrite IH; [done|]. intros. apply H. lia.
Qed.

Lemma cnt_true f s n : (forall i, s <= i < s + Z.of_nat n -> f i = true) -> cnt f s n = Z.of_nat n.
Proof.
  revert s. induction n as [|n IH]; intros s H; cbn [cnt]; [done|].
  rewrite H by lia. rewrite IH; [simpl Z.b2z; lia|]. intros. apply H. lia.
Qed.

Lemma cnt_0_false f s n i : cnt f s n = 0 -> s <= i < s + Z.of_nat n -> f i = false.
Proof.
  revert s. induction n as [|n IH]; intros s H Hi; cbn [cnt] in H; [lia|].
  pose proof (cnt_bounds f (s + 1) n). destruct (f s) eqn:E; simpl Z.b2z in H; [lia|].
  destruct (decide (i = s)) as [->|]; [done|]. apply (IH (s + 1)); lia.
Qed.

Lemma rank_0 f : rank f 0 = 0.
Proof. done. Qed.

Lemma rank_add f a b : 0 <= a -> 0 <= b -> rank f (a + b) = rank f a + cnt f a (Z.to_nat b).
Proof.
  intros. unfold rank. rewrite Z2Nat.inj_add by lia. rewrite cnt_app. f_equal. f_equal. lia.
Qed.

Lemma rank_succ f a : 0 <= a -> rank f (a + 1) = rank f a + Z.b2z (f a).
Proof. intros. rewrite rank_add by lia. change (Z.to_nat 1) with 1%nat. cbn [cnt]. lia. Qed.

Lemma rank_bounds f p : 0 <= p -> 0 <= rank f p <= p.
Proof. intros. unfold rank. pose proof (cnt_bounds f 0 (Z.to_nat p)). lia. Qed.

Lemma rank_mono f p q : 0 <= p <= q -> rank f p <= rank f q.
Proof.
  intros. replace q with (p + (q - p)) by lia. rewrite rank_add by lia.
  pose proof (cnt_bounds f p (Z.to_nat (q - p))). lia.
Qed.

Lemma rank_step f p q : 0 <= p <= q -> rank f q - rank f p <= q - p.
Proof.
  intros. replace q with (p + (q - p)) at 1 by lia. rewrite rank_add by lia.
  pose proof (cnt_bounds f p (Z.to_nat (q - p))). lia.
Qed.

Lemma rank_ext f g p : (forall i, 0 <= i < p -> f i = g i) -> rank f p = rank g p.
Proof. intros H. unfold rank. apply cnt_ext. intros i Hi. apply H. lia. Qed.

Lemma rank_negb f p : 0 <= p -> rank (fun i => negb (f i)) p = p - rank f p.
Proof. intros. unfold rank. rewrite cnt_negb. lia. Qed.

(** A select position is unique, and it is below [n] iff the rank is below
    the number of ones before [n]. *)
Lemma is_select_unique f r p q : is_select f r p -> is_select f r q -> p = q.
Proof.
  intros (Hp & Ep & Rp) (Hq & Eq & Rq).
  destruct (Z.lt_trichotomy p q) as [L|[L|L]]; [|done|]; exfalso.
  - pose proof (rank_mono f (p + 1) q). rewrite rank_succ, Ep in H by lia. simpl Z.b2z in H. lia.
  - pose proof (rank_mono f (q + 1) p). rewrite rank_succ, Eq in H by lia. simpl Z.b2z in H. lia.
Qed.

Lemma is_select_lt f r p n : is_select f r p -> 0 <= n -> r < rank f n -> p < n.
Proof.
  intros (Hp & Ep & Rp) Hn H. destruct (Z.lt_ge_cases p n) as [|L]; [done|].
  pose proof (rank_mono f n p). lia.
Qed.

Lemma is_select_rank_lt f r p n : is_select f r p -> p < n -> r < rank f n.
Proof.
  intros (Hp & Ep & Rp) H. pose proof (rank_mono f (p + 1) n) as M.
  rewrite rank_succ, Ep in M by lia. simpl Z.b2z in M. lia.
Qed.

(** Select inside a window [s, s+...): the local answer shifts to a global one. *)
Lemma is_select_shift f g s r p : 0 <= s -> 0 <= p ->
  (forall i, 0 <= i <= p -> g i = f (s + i)) ->
  is_select g r p -> is_select f (rank f s + r) (s + p).
Proof.
  intros Hs Hp Hg (H0 & E & R). repeat split; [lia| |].
  - rewrite <- Hg by lia. done.
  - rewrite rank_add by lia. f_equal. rewrite <- R. unfold rank. symmetry. apply cnt_ext.
    intros i Hi. rewrite Z.add_0_l. apply Hg. lia.
Qed.

Lemma is_select_ext f g r p : (forall i, 0 <= i <= p -> f i = g i) ->
  is_select f r p -> is_select g r p.
Proof.
  intros H (H0 & E & R). repeat split; [done| |].
  - rewrite <- H by lia. done.
  - rewrite <- R. symmetry. apply rank_ext. intros. apply H. lia.
Qed.

(** Every rank below the total is selected somewhere. *)
Lemma is_select_exists f r n : 0 <= n -> 0 <= r < rank f n -> exists p, is_select f r p /\ p < n.
Proof.
  intros Hn. revert r. pattern n. apply natlike_ind; [|clear n Hn; intros n Hn IH r Hr|done].
  { intros r Hr. rewrite rank_0 in Hr. lia. }
  unfold Z.succ in *. rewrite rank_succ in Hr by done.
  destruct (Z.lt_ge_cases r (rank f n)) as [L|L].
  - destruct (IH r) as (p & Hp & ?); [lia|]. exists p. split; [done|lia].
  - destruct (f n) eqn:E; simpl Z.b2z in Hr; [|lia].
    exists n. repeat split; [lia|done|lia|lia].
Qed.
