(* ===== verification/Bits.v ===== *)
(** * Word-level bit manipulation

    [src/src/terark/bitmanip.hpp] and the portable [UintSelect1] of
    [src/src/terark/succinct/rank_select_inline_slow.hpp], for 64-bit words.
    The compiler builtins ([__builtin_popcountl], [__builtin_ctzl],
    [__builtin_clzl]) are defined by what the compiler documents; the SWAR
    fallback [fast_popcount64] is translated and proved equal to them. *)
From S2P Require Import Prelude.

(** ** Builtins *)

Definition fast_popcount (w : Z) : Z := cnt (Z.testbit w) 0 64.

Fixpoint ctz_from (n : nat) (i w : Z) : Z :=
  match n with O => i | S n' => if Z.testbit w i then i else ctz_from n' (i + 1) w end.

Fixpoint clz_from (n : nat) (i w : Z) : Z :=
  match n with O => i | S n' => if Z.testbit w (63 - i) then i else clz_from n' (i + 1) w end.

Definition fast_ctz (w : Z) : res Z := if w =? 0 then UB else Ok (ctz_from 64 0 w).
Definition fast_clz (w : Z) : res Z := if w =? 0 then UB else Ok (clz_from 64 0 w).

(** The fallback for compilers without a popcount builtin. *)
Definition fast_popcount64 (v : Z) : Z :=
  let v := u64 (v - Z.land (Z.shiftr v 1) 0x5555555555555555) in
  let v := u64 (Z.land v 0x3333333333333333 + Z.land (Z.shiftr v 2) 0x3333333333333333) in
  let v := Z.land (u64 (v + Z.shiftr v 4)) 0x0F0F0F0F0F0F0F0F in
  Z.shiftr (u64 (v * 0x0101010101010101)) 56.

(** Ones among the lowest [n] bits, [n < 64]. *)
Definition fast_popcount_trail (x n : Z) : Z :=
  fast_popcount (Z.land x (not64 (shl64 (Z.ones 64) n))).

(** ** Single bits of a word array *)

Definition terark_bit_test (a : list Z) (i : Z) : res bool :=
  let* w := rd a (i / 64) in Ok (negb (Z.land w (shl64 1 (i mod 64)) =? 0)).

Definition terark_bit_set0 (a : list Z) (i : Z) : res (list Z) :=
  let* w := rd a (i / 64) in wr a (i / 64) (Z.land w (not64 (shl64 1 (i mod 64)))).

Definition terark_bit_set1 (a : list Z) (i : Z) : res (list Z) :=
  let* w := rd a (i / 64) in wr a (i / 64) (Z.lor w (shl64 1 (i mod 64))).

Definition terark_bit_set_val (a : list Z) (i : Z) (val : bool) : res (list Z) :=
  if val then terark_bit_set1 a i else terark_bit_set0 a i.

(** ** Bit ranges *)

(** [data[j] = f(data[j])] *)
Definition upd (data : list Z) (j : Z) (f : Z -> Z) : res (list Z) :=
  let* w := rd data j in wr data j (f w).

(** [Uint(-1) << n] and [Uint(-2) << n] *)
Definition m1_shl (n : Z) : Z := shl64 (Z.ones 64) n.
Definition m2_shl (n : Z) : Z := shl64 (Z.ones 64 - 1) n.

Definition bits_range_set0 (data : list Z) (i k : Z) : res (list Z) :=
  if i =? k then Ok data else
  let j := i / 64 in
  if j =? (k - 1) / 64 then
    upd data j (fun w => Z.land w (Z.lor (not64 (m1_shl (i mod 64))) (m2_shl ((k - 1) mod 64))))
  else
    let* (data, j) :=
      if negb (i mod 64 =? 0) then
        let* data := upd data j (fun w => Z.land w (not64 (m1_shl (i mod 64)))) in Ok (data, j + 1)
      else Ok (data, j) in
    let* data := for_ j (k / 64) (fun j data => wr data j 0) data in
    let j := Z.max j (k / 64) in
    if negb (k mod 64 =? 0) then upd data j (fun w => Z.land w (m1_shl (k mod 64))) else Ok data.

Definition bits_range_set1 (data : list Z) (i k : Z) : res (list Z) :=
  if i =? k then Ok data else
  let j := i / 64 in
  if j =? (k - 1) / 64 then
    upd data j (fun w => Z.lor w (Z.land (m1_shl (i mod 64)) (not64 (m2_shl ((k - 1) mod 64)))))
  else
    let* (data, j) :=
      if negb (i mod 64 =? 0) then
        let* data := upd data j (fun w => Z.lor w (m1_shl (i mod 64))) in Ok (data, j + 1)
      else Ok (data, j) in
    let* data := for_ j (k / 64) (fun j data => wr data j (Z.ones 64)) data in
    let j := Z.max j (k / 64) in
    if negb (k mod 64 =? 0) then upd data j (fun w => Z.lor w (not64 (m1_shl (k mod 64)))) else Ok data.

Definition bits_range_set (data : list Z) (i k : Z) (val : bool) : res (list Z) :=
  if val then bits_range_set1 data i k else bits_range_set0 data i k.

(** ** Select inside a word *)

(** [if (r >= t) { s += w; r -= t; }] *)
Definition sel_step (w t : Z) (sr : Z * Z) : Z * Z :=
  let '(s, r) := sr in if t <=? r then (s + w, r - t) else (s, r).

Definition UintSelect1 (x r : Z) : res Z :=
  let* _ := assert_ (negb (x =? 0)) in
  let* _ := assert_ (r <? fast_popcount x) in
  let a := u64 (x - Z.land (Z.shiftr x 1) 0x5555555555555555) in
  let b := u64 (Z.land a 0x3333333333333333 + Z.land (Z.shiftr a 2) 0x3333333333333333) in
  let c := Z.land (u64 (b + Z.shiftr b 4)) 0x0F0F0F0F0F0F0F0F in
  let d := Z.land (u64 (c + Z.shiftr c 8)) 0x00FF00FF00FF00FF in
  let t := Z.land (u64 (Z.shiftr d 16 + d)) 255 in
  let '(s, r) := sel_step 32 t (0, r) in
  let '(s, r) := sel_step 16 (Z.land (Z.shiftr d s) 0xFF) (s, r) in
  let '(s, r) := sel_step 8 (Z.land (Z.shiftr c s) 0xF) (s, r) in
  let '(s, r) := sel_step 4 (Z.land (Z.shiftr b s) 0x7) (s, r) in
  let '(s, r) := sel_step 2 (Z.land (Z.shiftr a s) 0x3) (s, r) in
  Ok (if Z.land (Z.shiftr x s) 0x1 <=? r then s + 1 else s).

(** * Packed fields

    [pack w n g] is the word whose [k]-th [w]-bit field is [g k]. *)

Fixpoint pack (w : Z) (n : nat) (g : nat -> Z) : Z :=
  match n with O => 0 | S n' => g O + 2 ^ w * pack w n' (fun k => g (S k)) end.

Definition fits (w : Z) (g : nat -> Z) : Prop := forall k, 0 <= g k < 2 ^ w.

Lemma pack_ext w n g h : (forall k, (k < n)%nat -> g k = h k) -> pack w n g = pack w n h.
Proof.
  revert g h. induction n as [|n IH]; intros g h H; cbn [pack]; [done|].
  rewrite (H O) by lia. rewrite (IH (fun k => g (S k)) (fun k => h (S k))); [done|].
  intros k Hk. apply H. lia.
Qed.

Lemma pack_add w n g h : pack w n g + pack w n h = pack w n (fun k => g k + h k).
Proof.
  revert g h. induction n as [|n IH]; intros g h; cbn [pack]; [done|].
  rewrite <- IH. ring.
Qed.

Lemma pack_sub w n g h : pack w n g - pack w n h = pack w n (fun k => g k - h k).
Proof.
  revert g h. induction n as [|n IH]; intros g h; cbn [pack]; [done|].
  rewrite <- IH. ring.
Qed.

Lemma pack_range w n g : 0 <= w -> fits w g -> 0 <= pack w n g < 2 ^ (w * Z.of_nat n).
Proof.
  intros Hw. revert g. induction n as [|n IH]; intros g Hg; cbn [pack].
  - rewrite Z.mul_0_r. lia.
  - replace (w * Z.of_nat (S n)) with (w + w * Z.of_nat n) by lia.
    rewrite Z.pow_add_r by lia. specialize (IH (fun k => g (S k)) (fun k => Hg (S k))).
    specialize (Hg O). nia.
Qed.

Lemma pack_word64 w n g : 0 <= w -> w * Z.of_nat n = 64 -> fits w g -> word64 (pack w n g).
Proof. intros Hw Hn Hg. unfold word64. rewrite <- Hn. by apply pack_range. Qed.

Lemma shiftr_low w d a : 0 <= w -> 0 <= d < 2 ^ w -> Z.shiftr (d + 2 ^ w * a) w = a.
Proof.
  intros Hw Hd. rewrite Z.shiftr_div_pow2 by done.
  rewrite div_add_mul by lia. rewrite Z.div_small by done. lia.
Qed.

Lemma pack_shift1 w n g : 0 <= w -> 0 <= g O < 2 ^ w -> g (S n) = 0 ->
  Z.shiftr (pack w (S n) g) w = pack w (S n) (fun k => g (S k)).
Proof.
  intros Hw H0 Hn. cbn [pack]. rewrite shiftr_low by done. clear H0.
  revert g Hn. induction n as [|n IH]; intros g Hn; cbn [pack]; [rewrite Hn; ring|].
  rewrite <- (IH (fun k => g (S k))) by done. cbn [pack]. ring.
Qed.

Lemma pack_field w n g k : 0 <= w -> fits w g -> (k < n)%nat ->
  exists q, Z.shiftr (pack w n g) (w * Z.of_nat k) = g k + 2 ^ w * q.
Proof.
  intros Hw. revert g k. induction n as [|n IH]; intros g k Hg Hk; [lia|].
  destruct k as [|k].
  - rewrite Z.mul_0_r, Z.shiftr_0_r. cbn [pack]. eauto.
  - replace (w * Z.of_nat (S k)) with (w + w * Z.of_nat k) by lia.
    rewrite <- Z.shiftr_shiftr by lia. cbn [pack]. rewrite shiftr_low by auto.
    destruct (IH (fun k => g (S k)) k) as [q Hq]; [intros j; apply Hg|lia|]. eauto.
Qed.

(** Reading the low [v] bits of a field that only uses [v] bits. *)
Lemma pack_read w n g k v : 0 <= v <= w -> fits w g -> (k < n)%nat -> g k < 2 ^ v ->
  Z.land (Z.shiftr (pack w n g) (w * Z.of_nat k)) (Z.ones v) = g k.
Proof.
  intros Hv Hg Hk Hlt. destruct (pack_field w n g k) as [q ->]; [lia|done|done|].
  rewrite Z.land_ones by lia. replace w with (v + (w - v)) by lia.
  rewrite Z.pow_add_r, <- Z.mul_assoc, mod_add_mul by lia.
  apply Z.mod_small. split; [apply Hg|done].
Qed.

Lemma testbit_split w d a i : 0 <= w -> 0 <= d < 2 ^ w -> 0 <= i ->
  Z.testbit (d + 2 ^ w * a) i = if i <? w then Z.testbit d i else Z.testbit a (i - w).
Proof.
  intros Hw Hd Hi. destruct (Z.ltb_spec i w).
  - rewrite <- (Z.mod_pow2_bits_low _ w i) by lia. rewrite mod_add_mul, Z.mod_small by done. done.
  - pose proof (shiftr_low w d a Hw Hd) as E. rewrite <- E at 2.
    rewrite Z.shiftr_spec by lia. f_equal. lia.
Qed.

Lemma land_range w d e : 0 <= w -> 0 <= d < 2 ^ w -> 0 <= e -> 0 <= Z.land d e < 2 ^ w.
Proof.
  intros Hw Hd He. split; [apply Z.land_nonneg; lia|].
  rewrite <- (Z.mod_small d (2 ^ w)), <- Z.land_ones, <- Z.land_assoc by done.
  rewrite (Z.land_comm (Z.ones w)), Z.land_assoc, Z.land_ones by done.
  apply Z.mod_pos_bound. lia.
Qed.

Lemma land_split w d e a b : 0 <= w -> 0 <= d < 2 ^ w -> 0 <= e < 2 ^ w ->
  Z.land (d + 2 ^ w * a) (e + 2 ^ w * b) = Z.land d e + 2 ^ w * Z.land a b.
Proof.
  intros Hw Hd He. apply Z.bits_inj'. intros i Hi.
  rewrite Z.land_spec, !testbit_split by (done || (apply land_range; [done|done|apply He])).
  destruct (i <? w); by rewrite Z.land_spec.
Qed.

Lemma pack_land w n g m : 0 <= w -> fits w g -> fits w m ->
  Z.land (pack w n g) (pack w n m) = pack w n (fun k => Z.land (g k) (m k)).
Proof.
  intros Hw. revert g m. induction n as [|n IH]; intros g m Hg Hm; cbn [pack]; [done|].
  rewrite land_split by auto. rewrite IH; [done|intros k; apply Hg|intros k; apply Hm].
Qed.

Definition evens (x : Z) (k : nat) : Z := if Nat.even k then x else 0.

Lemma pack_land_evens w n g : 0 <= w -> fits w g ->
  Z.land (pack w n g) (pack w n (evens (Z.ones w))) = pack w n (fun k => evens (g k) k).
Proof.
  intros Hw Hg. rewrite pack_land; [|done|done|].
  - apply pack_ext. intros k _. unfold evens. destruct (Nat.even k); [|apply Z.land_0_r].
    rewrite Z.land_ones by done. apply Z.mod_small, Hg.
  - intros k. unfold evens. rewrite Z.ones_equiv. destruct (Nat.even k); lia.
Qed.

Lemma pack_merge w n g : 0 <= w ->
  pack w (2 * n) (fun k => evens (g k) k) = pack (2 * w) n (fun k => g (2 * k)%nat).
Proof.
  intros Hw. revert g. induction n as [|n IH]; intros g; [done|].
  replace (2 * S n)%nat with (S (S (2 * n))) by lia.
  change (g O + 2 ^ w * (0 + 2 ^ w * pack w (2 * n) (fun k => evens (g (S (S k))) k)) =
    g O + 2 ^ (2 * w) * pack (2 * w) n (fun k => g (2 * S k)%nat)).
  rewrite (IH (fun k => g (S (S k)))).
  rewrite (pack_ext (2 * w) n (fun k => g (2 * S k)%nat) (fun k => g (S (S (2 * k))))).
  - replace (2 * w) with (w + w) at 2 by lia. rewrite Z.pow_add_r by done. ring.
  - intros k _. f_equal. lia.
Qed.

Lemma pack_merge_pairs w n g : 0 <= w ->
  pack w (2 * n) g = pack (2 * w) n (fun k => g (2 * k)%nat + 2 ^ w * g (S (2 * k))).
Proof.
  intros Hw. revert g. induction n as [|n IH]; intros g; [done|].
  replace (2 * S n)%nat with (S (S (2 * n))) by lia.
  change (g O + 2 ^ w * (g (S O) + 2 ^ w * pack w (2 * n) (fun k => g (S (S k)))) =
    (g O + 2 ^ w * g (S O)) +
    2 ^ (2 * w) * pack (2 * w) n (fun k => g (2 * S k)%nat + 2 ^ w * g (S (2 * S k)))).
  rewrite (IH (fun k => g (S (S k)))).
  rewrite (pack_ext (2 * w) n (fun k => g (2 * S k)%nat + 2 ^ w * g (S (2 * S k)))
    (fun k => g (S (S (2 * k))) + 2 ^ w * g (S (S (S (2 * k)))))).
  - replace (2 * w) with (w + w) at 2 by lia. rewrite Z.pow_add_r by done. ring.
  - intros k _. replace (2 * S k)%nat with (S (S (2 * k))) by lia. done.
Qed.

(** ** Neighbouring fields are added in parallel: the two SWAR idioms *)

Lemma pack_shift w n g : 0 <= w -> fits w g -> g n = 0 ->
  Z.shiftr (pack w n g) w = pack w n (fun k => g (S k)).
Proof. intros Hw Hg Hn. destruct n; [apply Z.shiftr_0_l|]. by apply pack_shift1. Qed.

Lemma swar_mask_add w n g : 0 <= w -> fits w g -> g (2 * n)%nat = 0 ->
  let M := pack w (2 * n) (evens (Z.ones w)) in
  Z.land (pack w (2 * n) g) M + Z.land (Z.shiftr (pack w (2 * n) g) w) M =
  pack (2 * w) n (fun k => g (2 * k)%nat + g (S (2 * k))).
Proof.
  intros Hw Hg Hn M. rewrite pack_shift by done. subst M.
  rewrite !pack_land_evens by (try done; intros k; apply Hg).
  rewrite pack_add. rewrite <- (pack_merge w n (fun k => g k + g (S k))) by done.
  apply pack_ext. intros k _. unfold evens. destruct (Nat.even k); lia.
Qed.

Lemma swar_add_mask w n g : 0 <= w -> fits w g -> fits w (fun k => g k + g (S k)) ->
  g (2 * n)%nat = 0 ->
  Z.land (pack w (2 * n) g + Z.shiftr (pack w (2 * n) g) w) (pack w (2 * n) (evens (Z.ones w))) =
  pack (2 * w) n (fun k => g (2 * k)%nat + g (S (2 * k))).
Proof.
  intros Hw Hg Hs Hn. rewrite pack_shift, pack_add, pack_land_evens by done.
  apply (pack_merge w n (fun k => g k + g (S k))). done.
Qed.

(** ** Field counts of a word *)

(** Ones in the [k]-th group of [w] bits of [x]. *)
Definition cf (x : Z) (w : nat) (k : nat) : Z := cnt (Z.testbit x) (Z.of_nat (w * k)) w.

Lemma cf_range x w k : 0 <= cf x w k <= Z.of_nat w.
Proof. apply cnt_bounds. Qed.

Lemma cf_double x w k : cf x w (2 * k) + cf x w (S (2 * k)) = cf x (2 * w) k.
Proof.
  unfold cf. replace (2 * w)%nat with (w + w)%nat by lia. rewrite cnt_app. f_equal; f_equal; lia.
Qed.

Lemma cf_high x w k : word64 x -> (64 <= w * k)%nat -> cf x w k = 0.
Proof.
  intros Hx Hk. apply cnt_false. intros i Hi. apply testbit_word64_high; [done|lia].
Qed.

Lemma cf_fits x w v : Z.of_nat w < 2 ^ v -> fits v (cf x w).
Proof. intros H k. pose proof (cf_range x w k). lia. Qed.

Lemma cf_read x v w n k : 0 <= v <= Z.of_nat w -> Z.of_nat w < 2 ^ v -> (k < n)%nat ->
  Z.land (Z.shiftr (pack (Z.of_nat w) n (cf x w)) (Z.of_nat (w * k))) (Z.ones v) = cf x w k.
Proof.
  intros Hv Hw Hk. replace (Z.of_nat (w * k)) with (Z.of_nat w * Z.of_nat k) by lia.
  assert (Hle : 2 ^ v <= 2 ^ Z.of_nat w) by (apply Z.pow_le_mono_r; lia).
  apply pack_read; [done|apply cf_fits; lia|done|]. pose proof (cf_range x w k). lia.
Qed.

Lemma pack_bits x : word64 x -> x = pack 1 64 (cf x 1).
Proof.
  intros Hx. assert (G : forall n y k, (forall i, Z.of_nat n <= i -> Z.testbit y i = false) -> 0 <= y ->
    (forall i, 0 <= i -> Z.testbit y i = Z.testbit x (Z.of_nat k + i)) ->
    y = pack 1 n (fun j => cf x 1 (k + j))).
  { induction n as [|n IH]; intros y k Hhi H0 Hy; cbn [pack].
    - apply Z.bits_inj'. intros i Hi. rewrite Z.bits_0. apply Hhi. lia.
    - rewrite (pack_ext 1 n (fun j => cf x 1 (k + S j)) (fun j => cf x 1 (S k + j)))
        by (intros j _; f_equal; lia).
      rewrite <- (IH (Z.div2 y) (S k)).
      + unfold cf. cbn [cnt]. replace (Z.of_nat (1 * (k + 0))) with (Z.of_nat k + 0) by lia.
        rewrite <- Hy, Z.add_0_r, Z.bit0_odd by lia. rewrite (Z.div2_odd y) at 1. change (2 ^ 1) with 2. lia.
      + intros i Hi. rewrite Z.div2_spec, Z.shiftr_spec by lia. apply Hhi. lia.
      + apply Z.div2_nonneg. done.
      + intros i Hi. rewrite Z.div2_spec, Z.shiftr_spec, Hy by lia. f_equal. lia. }
  rewrite (G 64%nat x 0%nat) at 1; [done| |apply Hx|done].
  intros i Hi. apply testbit_word64_high; [done|lia].
Qed.

(** The four words [a], [b], [c], [d] that the SWAR code computes. *)
Lemma swar_a x : word64 x ->
  u64 (x - Z.land (Z.shiftr x 1) 0x5555555555555555) = pack 2 32 (cf x 2).
Proof.
  intros Hx. assert (F1 : fits 1 (cf x 1)) by (apply cf_fits; lia).
  assert (H64 : cf x 1 64 = 0) by (apply cf_high; [done|lia]).
  assert (F1' : fits 1 (fun k => cf x 1 (S k))) by (intros k; apply F1).
  enough (x - Z.land (Z.shiftr x 1) 0x5555555555555555 = pack 2 32 (cf x 2)) as ->.
  { apply u64_small, pack_word64; [lia|lia|apply cf_fits; lia]. }
  change 0x5555555555555555 with (pack 1 (2 * 32) (evens (Z.ones 1))).
  rewrite (pack_bits x Hx) at 1 2.
  rewrite pack_shift, (pack_land_evens 1 (2 * 32)), pack_sub by (done || lia).
  rewrite (pack_merge_pairs 1 32) by lia. apply pack_ext. intros k _.
  change (cf x 2 k) with (cf x (2 * 1) k). rewrite <- cf_double.
  unfold evens. rewrite Nat.even_even, Nat.even_succ, Nat.odd_even. lia.
Qed.

Lemma swar_b x : word64 x ->
  let a := pack 2 32 (cf x 2) in
  u64 (Z.land a 0x3333333333333333 + Z.land (Z.shiftr a 2) 0x3333333333333333) = pack 4 16 (cf x 4).
Proof.
  intros Hx a. subst a. change 0x3333333333333333 with (pack 2 (2 * 16) (evens (Z.ones 2))).
  change 32%nat with (2 * 16)%nat.
  rewrite swar_mask_add by (first [lia | apply cf_fits; lia | apply cf_high; [done|lia]]).
  rewrite (pack_ext _ _ _ (cf x 4)) by (intros k _; apply (cf_double x 2)).
  apply u64_small, pack_word64; [lia|lia|apply cf_fits; lia].
Qed.

Lemma swar_c x : word64 x ->
  let b := pack 4 16 (cf x 4) in
  Z.land (u64 (b + Z.shiftr b 4)) 0x0F0F0F0F0F0F0F0F = pack 8 8 (cf x 8).
Proof.
  intros Hx b. subst b. assert (F : fits 4 (cf x 4)) by (apply cf_fits; lia).
  assert (H16 : cf x 4 16 = 0) by (apply cf_high; [done|lia]).
  assert (Fs : fits 4 (fun k => cf x 4 k + cf x 4 (S k))).
  { intros k. pose proof (cf_range x 4 k). pose proof (cf_range x 4 (S k)). lia. }
  rewrite u64_small.
  2: { rewrite pack_shift, pack_add by (done || lia). apply pack_word64; [lia|lia|done]. }
  change 0x0F0F0F0F0F0F0F0F with (pack 4 (2 * 8) (evens (Z.ones 4))).
  change 16%nat with (2 * 8)%nat. rewrite swar_add_mask by (done || lia).
  apply pack_ext. intros k _. apply (cf_double x 4).
Qed.

Lemma swar_d x : word64 x ->
  let c := pack 8 8 (cf x 8) in
  Z.land (u64 (c + Z.shiftr c 8)) 0x00FF00FF00FF00FF = pack 16 4 (cf x 16).
Proof.
  intros Hx c. subst c. assert (F : fits 8 (cf x 8)) by (apply cf_fits; lia).
  assert (H16 : cf x 8 8 = 0) by (apply cf_high; [done|lia]).
  assert (Fs : fits 8 (fun k => cf x 8 k + cf x 8 (S k))).
  { intros k. pose proof (cf_range x 8 k). pose proof (cf_range x 8 (S k)). lia. }
  rewrite u64_small.
  2: { rewrite pack_shift, pack_add by (done || lia). apply pack_word64; [lia|lia|done]. }
  change 0x00FF00FF00FF00FF with (pack 8 (2 * 4) (evens (Z.ones 8))).
  change 8%nat with (2 * 4)%nat at 1 2. rewrite swar_add_mask by (done || lia).
  apply pack_ext. intros k _. apply (cf_double x 8).
Qed.

Lemma swar_lo32 x : word64 x ->
  let d := pack 16 4 (cf x 16) in
  Z.land (u64 (Z.shiftr d 16 + d)) 255 = cnt (Z.testbit x) 0 32.
Proof.
  intros Hx d. subst d. assert (F : fits 16 (cf x 16)) by (apply cf_fits; lia).
  assert (H4 : cf x 16 4 = 0) by (apply cf_high; [done|lia]).
  assert (Fs : fits 16 (fun k => cf x 16 (S k) + cf x 16 k)).
  { intros k. pose proof (cf_range x 16 k). pose proof (cf_range x 16 (S k)). lia. }
  rewrite pack_shift, pack_add by (done || lia).
  rewrite u64_small by (apply pack_word64; [lia|lia|done]).
  pose proof (pack_read 16 4 (fun k => cf x 16 (S k) + cf x 16 k) 0 8) as R.
  rewrite Z.mul_0_r, Z.shiftr_0_r in R. change (Z.ones 8) with 255 in R.
  rewrite R by (done || lia || (pose proof (cf_range x 16 0); pose proof (cf_range x 16 1); lia)).
  rewrite Z.add_comm. apply (cf_double x 16 0).
Qed.

(** ** Popcount *)

Lemma fast_popcount_range w : 0 <= fast_popcount w <= 64.
Proof. apply (cnt_bounds _ _ 64). Qed.

(** the SWAR popcount, with its wrap-around multiplication, counts the ones
    of every 64-bit word, as the builtin does. *)
Theorem fast_popcount64_correct v : word64 v -> fast_popcount64 v = fast_popcount v.
Proof.
  intros Hv. unfold fast_popcount64. rewrite swar_a, swar_b, swar_c by done.
  assert (E : fast_popcount v = cf v 8 0 + cf v 8 1 + cf v 8 2 + cf v 8 3 +
                                cf v 8 4 + cf v 8 5 + cf v 8 6 + cf v 8 7).
  { unfold fast_popcount, cf. rewrite <- !(cnt_app _ 0). done. }
  rewrite E. cbn [pack]. pose proof (cf_range v 8) as R.
  pose proof (R 0%nat). pose proof (R 1%nat). pose proof (R 2%nat). pose proof (R 3%nat).
  pose proof (R 4%nat). pose proof (R 5%nat). pose proof (R 6%nat). pose proof (R 7%nat).
  revert H H0 H1 H2 H3 H4 H5 H6.
  generalize (cf v 8 0) (cf v 8 1) (cf v 8 2) (cf v 8 3) (cf v 8 4) (cf v 8 5) (cf v 8 6) (cf v 8 7).
  intros c0 c1 c2 c3 c4 c5 c6 c7 H0 H1 H2 H3 H4 H5 H6 H7. clear R E.
  set (s1 := c0 + c1). set (s2 := s1 + c2). set (s3 := s2 + c3). set (s4 := s3 + c4).
  set (s5 := s4 + c5). set (s6 := s5 + c6). set (s7 := s6 + c7).
  set (hi := s7 - c0 + 2 ^ 8 * (s7 - s1) + 2 ^ 16 * (s7 - s2) + 2 ^ 24 * (s7 - s3) +
             2 ^ 32 * (s7 - s4) + 2 ^ 40 * (s7 - s5) + 2 ^ 48 * (s7 - s6)).
  set (lo := c0 + 2 ^ 8 * s1 + 2 ^ 16 * s2 + 2 ^ 24 * s3 + 2 ^ 32 * s4 + 2 ^ 40 * s5 + 2 ^ 48 * s6).
  match goal with |- Z.shiftr (u64 ?z) _ = _ =>
    replace z with ((lo + 2 ^ 56 * s7) + 2 ^ 64 * hi) by (subst lo hi s7 s6 s5 s4 s3 s2 s1; ring) end.
  assert (0 <= lo < 2 ^ 56) by (subst lo s6 s5 s4 s3 s2 s1; lia).
  assert (0 <= s7 <= 64) by (subst s7 s6 s5 s4 s3 s2 s1; lia).
  unfold u64. rewrite mod_add_mul, Z.mod_small by lia. rewrite shiftr_low by lia.
  subst s7 s6 s5 s4 s3 s2 s1. lia.
Qed.

Lemma fast_popcount_trail_spec x n : word64 x -> 0 <= n < 64 ->
  fast_popcount_trail x n = cnt (Z.testbit x) 0 (Z.to_nat n).
Proof.
  intros Hx Hn. unfold fast_popcount_trail, fast_popcount.
  replace 64%nat with (Z.to_nat n + Z.to_nat (64 - n))%nat by lia. rewrite cnt_app.
  rewrite (cnt_false _ (0 + _)).
  - rewrite Z.add_0_r. apply cnt_ext. intros i Hi. rewrite Z.land_spec, testbit_not64, testbit_shl64 by lia.
    destruct (Z.ltb_spec (0 + i) 64), (Z.leb_spec n (0 + i)); try lia. by rewrite andb_true_r.
  - intros i Hi. rewrite Z.land_spec, testbit_not64, testbit_shl64, Z.testbit_ones_nonneg by lia.
    destruct (Z.ltb_spec i 64), (Z.leb_spec n i), (Z.ltb_spec (i - n) 64); lia.
Qed.

(** Ones before position [p] of a word array: whole words, then a trail. *)
Lemma cnt_word ws j m : 0 <= j -> (m <= 64)%nat ->
  cnt (bit_at ws) (64 * j) m = cnt (Z.testbit (word_at ws j)) 0 m.
Proof.
  intros Hj Hm. apply cnt_ext. intros i Hi. unfold bit_at.
  replace (64 * j + i) with (i + 64 * j) by lia. rewrite div_add_mul, mod_add_mul by lia.
  rewrite Z.div_small, Z.mod_small, !Z.add_0_l by lia. done.
Qed.

Lemma rank_word ws j r : 0 <= j -> 0 <= r <= 64 ->
  rank (bit_at ws) (64 * j + r) =
  rank (bit_at ws) (64 * j) + cnt (Z.testbit (word_at ws j)) 0 (Z.to_nat r).
Proof. intros. rewrite rank_add, cnt_word by lia. done. Qed.

Lemma rank_words ws j : 0 <= j ->
  rank (bit_at ws) (64 * (j + 1)) = rank (bit_at ws) (64 * j) + fast_popcount (word_at ws j).
Proof. intros. replace (64 * (j + 1)) with (64 * j + 64) by lia. by rewrite rank_word by lia. Qed.

Lemma rank_trail ws p : 0 <= p -> Forall word64 ws ->
  rank (bit_at ws) p = rank (bit_at ws) (64 * (p / 64)) + fast_popcount_trail (word_at ws (p / 64)) (p mod 64).
Proof.
  intros Hp Hw. rewrite fast_popcount_trail_spec by auto with word64.
  rewrite <- rank_word; [f_equal; apply Z.div_mod; lia|apply Z.div_pos; lia|].
  pose proof (mod64_range p). lia.
Qed.

(** ** Trailing and leading zeros *)

Lemma ctz_from_spec n i w : (exists j, i <= j < i + Z.of_nat n /\ Z.testbit w j = true) ->
  let c := ctz_from n i w in
  i <= c < i + Z.of_nat n /\ Z.testbit w c = true /\ (forall j, i <= j < c -> Z.testbit w j = false).
Proof.
  revert i. induction n as [|n IH]; intros i (j & Hj & E); cbn [ctz_from]; [lia|].
  destruct (Z.testbit w i) eqn:Ei; [repeat split; try done; lia|].
  destruct (IH (i + 1)) as (H1 & H2 & H3).
  { exists j. split; [|done]. destruct (decide (j = i)); [congruence|lia]. }
  split; [lia|]. split; [done|]. intros k Hk.
  destruct (decide (k = i)) as [->|]; [done|]. apply H3. lia.
Qed.

Lemma clz_from_spec n i w : (exists j, i <= j < i + Z.of_nat n /\ Z.testbit w (63 - j) = true) ->
  let c := clz_from n i w in
  i <= c < i + Z.of_nat n /\ Z.testbit w (63 - c) = true /\
  (forall j, i <= j < c -> Z.testbit w (63 - j) = false).
Proof.
  revert i. induction n as [|n IH]; intros i (j & Hj & E); cbn [clz_from]; [lia|].
  destruct (Z.testbit w (63 - i)) eqn:Ei; [repeat split; try done; lia|].
  destruct (IH (i + 1)) as (H1 & H2 & H3).
  { exists j. split; [|done]. destruct (decide (j = i)); [congruence|lia]. }
  split; [lia|]. split; [done|]. intros k Hk.
  destruct (decide (k = i)) as [->|]; [done|]. apply H3. lia.
Qed.

Lemma word64_nonzero_bit w : word64 w -> w <> 0 -> exists j, 0 <= j < 64 /\ Z.testbit w j = true.
Proof.
  intros Hw Hn. exists (Z.log2 w). split; [|apply Z.bit_log2; destruct Hw; lia].
  split; [apply Z.log2_nonneg|]. apply Z.log2_lt_pow2; destruct Hw; lia.
Qed.

Lemma fast_ctz_spec w : word64 w -> w <> 0 -> exists c,
  fast_ctz w = Ok c /\ 0 <= c < 64 /\ Z.testbit w c = true /\
  (forall j, 0 <= j < c -> Z.testbit w j = false).
Proof.
  intros Hw Hn. unfold fast_ctz. destruct (Z.eqb_spec w 0); [done|].
  exists (ctz_from 64 0 w). split; [done|]. apply (ctz_from_spec 64 0).
  destruct (word64_nonzero_bit w Hw Hn) as (j & ? & ?). exists j. split; [lia|done].
Qed.

Lemma fast_clz_spec w : word64 w -> w <> 0 -> exists c,
  fast_clz w = Ok c /\ 0 <= c < 64 /\ Z.testbit w (63 - c) = true /\
  (forall j, 0 <= j < c -> Z.testbit w (63 - j) = false).
Proof.
  intros Hw Hn. unfold fast_clz. destruct (Z.eqb_spec w 0); [done|].
  exists (clz_from 64 0 w). split; [done|]. apply (clz_from_spec 64 0).
  destruct (word64_nonzero_bit w Hw Hn) as (j & ? & ?). exists (63 - j).
  replace (63 - (63 - j)) with j by lia. split; [lia|done].
Qed.

(** ** Select inside a word *)

Lemma sel_step_spec f w t s r r0 : 0 < w -> t = cnt f s (Z.to_nat w) -> 0 <= s ->
  0 <= r < cnt f s (Z.to_nat (2 * w)) -> rank f s + r = r0 ->
  exists s' r', sel_step w t (s, r) = (s', r') /\ (s' = s \/ s' = s + w) /\
    0 <= r' < cnt f s' (Z.to_nat w) /\ rank f s' + r' = r0.
Proof.
  intros Hw -> Hs Hr Hr0. cbn [sel_step].
  replace (Z.to_nat (2 * w)) with (Z.to_nat w + Z.to_nat w)%nat in Hr by lia.
  rewrite cnt_app in Hr. replace (s + Z.of_nat (Z.to_nat w)) with (s + w) in Hr by lia.
  destruct (Z.leb_spec (cnt f s (Z.to_nat w)) r).
  - eexists _, _. split; [done|]. rewrite rank_add by lia. split; [auto|]. split; lia.
  - eexists _, _. split; [done|]. split; [auto|]. split; lia.
Qed.

(** One level of the search: the counter of [w] bits at [s] decides the half. *)
Lemma sel_level_ok x w v n s r r0 :
  (0 < w)%nat -> 0 <= v <= Z.of_nat w -> Z.of_nat w < 2 ^ v -> (w * n = 64)%nat -> Nat.even n = true ->
  (2 * Z.of_nat w | s) -> 0 <= s < 64 ->
  0 <= r < cnt (Z.testbit x) s (2 * w) -> rank (Z.testbit x) s + r = r0 ->
  exists s' r',
    sel_step (Z.of_nat w) (Z.land (Z.shiftr (pack (Z.of_nat w) n (cf x w)) s) (Z.ones v)) (s, r) = (s', r') /\
    (Z.of_nat w | s') /\ 0 <= s' < 64 /\
    0 <= r' < cnt (Z.testbit x) s' w /\ rank (Z.testbit x) s' + r' = r0.
Proof.
  intros Hw Hv Hlt Hn [m Hm]%Nat.even_spec [q Hq] Hs Hr Hr0.
  assert (R : Z.land (Z.shiftr (pack (Z.of_nat w) n (cf x w)) s) (Z.ones v) = cnt (Z.testbit x) s w).
  { pose proof (cf_read x v w n (Z.to_nat (2 * q)) Hv Hlt) as R. unfold cf in R at 2.
    replace (Z.of_nat (w * Z.to_nat (2 * q))) with s in R by nia. apply R. nia. }
  rewrite R.
  destruct (sel_step_spec (Z.testbit x) (Z.of_nat w) (cnt (Z.testbit x) s w) s r r0)
    as (s' & r' & E & D & A & B); [lia|by rewrite Nat2Z.id|lia| |done|].
  { replace (Z.to_nat (2 * Z.of_nat w)) with (2 * w)%nat by lia. done. }
  rewrite Nat2Z.id in A. exists s', r'. split; [done|].
  destruct D as [-> | ->].
  - split; [exists (2 * q); lia|]. done.
  - split; [exists (2 * q + 1); lia|]. split; [|done].
    assert (q < Z.of_nat m) by nia. nia.
Qed.

Ltac sel_level x w v n s r :=
  match goal with
  | D : (_ | ?s0), S : 0 <= ?s0 < 64, A : 0 <= ?r0 < _, B : rank _ ?s0 + ?r0 = _ |- _ =>
    let E := fresh "E" in let D' := fresh "D" in let S' := fresh "S" in
    let A' := fresh "A" in let B' := fresh "B" in
    destruct (sel_level_ok x w v n s0 r0 _ ltac:(lia) ltac:(lia) ltac:(lia) ltac:(lia) eq_refl D S A B)
      as (s & r & E & D' & S' & A' & B'); clear D S A B;
    match type of E with sel_step ?a (Z.land (Z.shiftr (pack _ ?m ?g) ?c) ?d) ?e = _ =>
      let a' := eval vm_compute in a in let d' := eval vm_compute in d in
      change (sel_step a' (Z.land (Z.shiftr (pack a' m g) c) d') e = (s, r)) in E end;
    rewrite E; cbv beta iota; clear E
  end.

Lemma UintSelect1_ok x r : word64 x -> 0 <= r < fast_popcount x ->
  exists p, UintSelect1 x r = Ok p /\ 0 <= p < 64 /\ is_select (Z.testbit x) r p.
Proof.
  intros Hx Hr. unfold UintSelect1.
  assert (Hn : (x =? 0) = false).
  { apply Z.eqb_neq. intros ->. change (fast_popcount 0) with 0 in Hr. lia. }
  rewrite Hn. rewrite (proj2 (Z.ltb_lt _ _)) by lia. cbn [negb assert_ rbind].
  rewrite swar_a, swar_b, swar_c, swar_d, swar_lo32 by done.
  destruct (sel_step_spec (Z.testbit x) 32 (cnt (Z.testbit x) 0 32) 0 r r)
    as (s & r1 & E & D & A & B); [done..|]. rewrite E. clear E.
  assert (D' : (2 * Z.of_nat 16 | s)) by (destruct D as [-> | ->]; [exists 0|exists 1]; done).
  assert (Hs : 0 <= s < 64) by lia. change (Z.to_nat 32) with (2 * 16)%nat in A. clear D.
  sel_level x 16%nat 8 4%nat s2 r2. sel_level x 8%nat 4 8%nat s3 r3.
  sel_level x 4%nat 3 16%nat s4 r4. sel_level x 2%nat 2 32%nat s5 r5.
  destruct (sel_level_ok x 1 1 64 s5 r5 r) as (s6 & r6 & E & _ & Hs6 & A6 & B6);
    [first [assumption | reflexivity | lia]..|].
  change (Z.of_nat 1) with 1 in E. rewrite <- pack_bits in E by done. change (Z.ones 1) with 1 in E.
  cbn [sel_step] in E.
  replace (if Z.land (Z.shiftr x s5) 1 <=? r5 then s5 + 1 else s5) with s6
    by (destruct (Z.land _ _ <=? r5); congruence).
  exists s6. split; [done|]. split; [done|]. cbn [cnt] in A6.
  assert (Z.testbit x s6 = true /\ r6 = 0) as [? ->].
  { destruct (Z.testbit x s6); simpl Z.b2z in A6; split; (done || lia). }
  split; [lia|]. split; [done|lia].
Qed.

(** C21: the branch-free [UintSelect1] returns, for every word and every rank
    below its popcount, the bit position of the one with that rank. *)
Theorem UintSelect1_correct x r : word64 x -> 0 <= r < fast_popcount x ->
  exists p, UintSelect1 x r = Ok p /\ 0 <= p < 64 /\
    Z.testbit x p = true /\ cnt (Z.testbit x) 0 (Z.to_nat p) = r.
Proof.
  intros Hx Hr. destruct (UintSelect1_ok x r Hx Hr) as (p & E & Hp & _ & S1 & S2). eauto.
Qed.

(** ** Single bits *)

Lemma bit_at_insert ws j w p : 0 <= j < Z.of_nat (length ws) -> 0 <= p ->
  bit_at (<[Z.to_nat j := w]> ws) p = if p / 64 =? j then Z.testbit w (p mod 64) else bit_at ws p.
Proof.
  intros Hj Hp. unfold bit_at. rewrite word_at_insert by (done || apply Z.div_pos; lia).
  case_decide; destruct (Z.eqb_spec (p / 64) j); done.
Qed.

Lemma shl64_1_testbit k p : 0 <= k < 64 -> 0 <= p < 64 -> Z.testbit (shl64 1 k) p = (p =? k).
Proof.
  intros. rewrite testbit_shl64 by lia.
  destruct (Z.ltb_spec p 64), (Z.leb_spec k p), (Z.eqb_spec p k); try lia; subst;
    rewrite ?Z.sub_diag; try done.
  apply (testbit_high 1 (p - k) 1); lia.
Qed.

(** [words] are 64-bit. *)
Abbreviation words ws := (Forall word64 ws).

Lemma words_insert ws j w : words ws -> word64 w -> words (<[j := w]> ws).
Proof. intros. by apply Forall_insert. Qed.

Lemma wlen_lookup ws i : 0 <= i < Z.of_nat (length ws) -> ws !! Z.to_nat i = Some (word_at ws i).
Proof.
  intros Hi. destruct (lookup_lt_is_Some_2 ws (Z.to_nat i)) as [x Hx]; [lia|].
  rewrite Hx. unfold word_at. f_equal. symmetry. by apply nth_lookup_Some.
Qed.

Lemma terark_bit_test_ok a i : words a -> 0 <= i < 64 * Z.of_nat (length a) ->
  terark_bit_test a i = Ok (bit_at a i).
Proof.
  intros Ha Hi. unfold terark_bit_test. rewrite rd_word by (apply div64_lt; lia). cbn [rbind].
  f_equal. unfold bit_at. rewrite <- land_shl1_testbit by apply mod64_range.
  unfold shl64. rewrite u64_small; [done|]. pose proof (mod64_range i).
  apply word64_bits; [apply Z.shiftl_nonneg; lia|]. intros k Hk.
  rewrite Z.shiftl_spec by lia. apply (testbit_high 1 _ 1); lia.
Qed.

Lemma upd_ok a j f : 0 <= j < Z.of_nat (length a) -> upd a j f = Ok (<[Z.to_nat j := f (word_at a j)]> a).
Proof. intros. unfold upd. rewrite rd_word by done. cbn [rbind]. by apply wr_ok. Qed.

Lemma terark_bit_set_val_ok a i val : words a -> 0 <= i < 64 * Z.of_nat (length a) ->
  exists a', terark_bit_set_val a i val = Ok a' /\ length a' = length a /\ words a' /\
    (forall p, 0 <= p -> bit_at a' p = if p =? i then val else bit_at a p).
Proof.
  intros Ha Hi. pose proof (div64_lt _ _ Hi) as Hj. pose proof (mod64_range i) as Hm.
  assert (Hdm : forall p, 0 <= p -> (p / 64 =? i / 64) && (p mod 64 =? i mod 64) = (p =? i)).
  { intros p Hp. pose proof (Z.div_mod p 64). pose proof (Z.div_mod i 64).
    destruct (Z.eqb_spec p i) as [->|]; [by rewrite !Z.eqb_refl|].
    destruct (Z.eqb_spec (p / 64) (i / 64)), (Z.eqb_spec (p mod 64) (i mod 64)); lia. }
  exists (<[Z.to_nat (i / 64) := if val then Z.lor (word_at a (i / 64)) (shl64 1 (i mod 64))
     else Z.land (word_at a (i / 64)) (not64 (shl64 1 (i mod 64)))]> a).
  split; [|split; [apply length_insert|split]].
  - unfold terark_bit_set_val, terark_bit_set1, terark_bit_set0.
    destruct val; rewrite rd_word by done; cbn [rbind]; by rewrite wr_ok.
  - apply words_insert; [done|]. destruct val; auto with word64.
    apply word64_land; [auto with word64|apply word64_not64].
  - intros p Hp. rewrite bit_at_insert, <- Hdm by done.
    destruct (Z.eqb_spec (p / 64) (i / 64)) as [E|]; cbn [andb]; [|done].
    pose proof (mod64_range p). unfold bit_at. rewrite E. destruct val.
    + rewrite Z.lor_spec, shl64_1_testbit by done.
      destruct (p mod 64 =? i mod 64); by rewrite ?orb_true_r, ?orb_false_r.
    + rewrite Z.land_spec, testbit_not64, shl64_1_testbit by (done || apply H).
      destruct (Z.ltb_spec (p mod 64) 64); [|lia].
      destruct (p mod 64 =? i mod 64); by rewrite ?andb_false_r, ?andb_true_r.
Qed.

(** ** Bit ranges *)

(** [a'] is [a] with the bits of [i, k) replaced by [val]. *)
Definition range_set (a a' : list Z) (i k : Z) (val : bool) : Prop :=
  length a' = length a /\ words a' /\
  forall p, 0 <= p -> bit_at a' p = if (i <=? p) && (p <? k) then val else bit_at a p.

Lemma testbit_m1_shl n p : 0 <= n -> 0 <= p < 64 -> Z.testbit (m1_shl n) p = (n <=? p).
Proof.
  intros. unfold m1_shl. rewrite testbit_shl64 by lia.
  destruct (Z.ltb_spec p 64), (Z.leb_spec n p); try lia.
  rewrite Z.testbit_ones_nonneg by lia. lia.
Qed.

Lemma testbit_m2_shl n p : 0 <= n -> 0 <= p < 64 -> Z.testbit (m2_shl n) p = (n <? p).
Proof.
  intros. unfold m2_shl. rewrite testbit_shl64 by lia.
  change (Z.ones 64 - 1) with (not64 1).
  destruct (Z.ltb_spec p 64), (Z.leb_spec n p), (Z.ltb_spec n p); try lia; cbn [andb]; try done;
    rewrite testbit_not64 by lia; destruct (Z.ltb_spec (p - n) 64); try lia; cbn [andb].
  - by rewrite (testbit_high 1 (p - n) 1) by lia.
  - by replace (p - n) with 0 by lia.
Qed.

Lemma range_set_refl a i val : words a -> range_set a a i i val.
Proof. intros. split; [done|]. split; [done|]. intros p Hp.
  destruct (Z.leb_spec i p), (Z.ltb_spec p i); (lia || done). Qed.

Lemma range_set_trans a b c i j k val : i <= j <= k ->
  range_set a b i j val -> range_set b c j k val -> range_set a c i k val.
Proof.
  intros Hj (L1 & W1 & B1) (L2 & W2 & B2). split; [congruence|]. split; [done|].
  intros p Hp. rewrite B2, B1 by done.
  destruct (Z.leb_spec j p), (Z.ltb_spec p k), (Z.leb_spec i p), (Z.ltb_spec p j); try lia; done.
Qed.

(** Changing one word [j] changes the range [i, k) that lies in it. *)
Lemma range_set_word a j w i k val :
  words a -> 0 <= j < Z.of_nat (length a) -> word64 w -> 64 * j <= i -> k <= 64 * (j + 1) ->
  (forall m, 0 <= m < 64 -> Z.testbit w m =
     if (i <=? 64 * j + m) && (64 * j + m <? k) then val else Z.testbit (word_at a j) m) ->
  range_set a (<[Z.to_nat j := w]> a) i k val.
Proof.
  intros Ha Hj Hw Hi Hk Hb. split; [apply length_insert|]. split; [by apply words_insert|].
  intros p Hp. rewrite bit_at_insert by done. pose proof (Z.div_mod p 64). pose proof (mod64_range p).
  destruct (Z.eqb_spec (p / 64) j) as [E|].
  - rewrite Hb by done. unfold bit_at. rewrite E. replace (64 * j + p mod 64) with p by lia. done.
  - destruct (Z.leb_spec i p), (Z.ltb_spec p k); try done. nia.
Qed.

Lemma for_words_set a i k w val :
  words a -> 0 <= i <= k -> k <= Z.of_nat (length a) -> word64 w ->
  (forall m, 0 <= m < 64 -> Z.testbit w m = val) ->
  exists a', for_ i k (fun j data => wr data j w) a = Ok a' /\ range_set a a' (64 * i) (64 * k) val.
Proof.
  intros Ha Hi Hk Hw Hv.
  apply (for_inv (fun j b => range_set a b (64 * i) (64 * j) val)); [lia|by apply range_set_refl|].
  intros j b Hj Hb. pose proof Hb as (L & W & _). exists (<[Z.to_nat j := w]> b).
  split; [apply wr_ok; lia|]. apply (range_set_trans a b _ _ (64 * j)); [lia|done|].
  apply range_set_word; [done|lia|done|lia|lia|].
  intros m Hm. rewrite Hv by done.
  destruct (Z.leb_spec (64 * j) (64 * j + m)), (Z.ltb_spec (64 * j + m) (64 * (j + 1))); try lia; done.
Qed.

(** The two range functions share their control flow; [fh], [ft] and [fb] are
    their updates of the first, last and only word. *)
Lemma range_flow a i k val (fb fh ft : Z -> Z) (fill : Z) :
  words a -> 0 <= i < k -> k <= 64 * Z.of_nat (length a) ->
  word64 fill -> (forall m, 0 <= m < 64 -> Z.testbit fill m = val) ->
  (forall w, word64 w -> word64 (fb w) /\ word64 (fh w) /\ word64 (ft w)) ->
  (forall w m, word64 w -> 0 <= m < 64 ->
     Z.testbit (fb w) m = (if (i mod 64 <=? m) && (m <=? (k - 1) mod 64) then val else Z.testbit w m) /\
     Z.testbit (fh w) m = (if i mod 64 <=? m then val else Z.testbit w m) /\
     Z.testbit (ft w) m = (if m <? k mod 64 then val else Z.testbit w m)) ->
  exists a',
    (let j := i / 64 in
     if j =? (k - 1) / 64 then upd a j fb else
     let* (data, j) := if negb (i mod 64 =? 0) then let* data := upd a j fh in Ok (data, j + 1)
                       else Ok (a, j) in
     let* data := for_ j (k / 64) (fun j data => wr data j fill) data in
     let j := Z.max j (k / 64) in
     if negb (k mod 64 =? 0) then upd data j ft else Ok data) = Ok a' /\ range_set a a' i k val.
Proof.
  intros Ha Hi Hk Hf Hfill Hw Hb. cbv zeta.
  pose proof (Z.div_mod i 64 ltac:(lia)) as Di. pose proof (Z.div_mod k 64 ltac:(lia)) as Dk.
  pose proof (Z.div_mod (k - 1) 64 ltac:(lia)) as Dk1.
  pose proof (mod64_range i). pose proof (mod64_range k). pose proof (mod64_range (k - 1)).
  assert (0 <= i / 64) by (apply Z.div_pos; lia).
  assert (Hwa : word64 (word_at a (i / 64))) by auto with word64.
  destruct (Z.eqb_spec (i / 64) ((k - 1) / 64)) as [E|E].
  - rewrite upd_ok by lia. eexists. split; [done|].
    apply range_set_word; [done|lia|by apply Hw|lia|lia|].
    intros m Hm. destruct (Hb (word_at a (i / 64)) m Hwa Hm) as (-> & _).
    destruct (Z.leb_spec (i mod 64) m), (Z.leb_spec m ((k - 1) mod 64)),
      (Z.leb_spec i (64 * (i / 64) + m)), (Z.ltb_spec (64 * (i / 64) + m) k); try lia; done.
  - (* head word, whole words, tail word *)
    assert (exists b j, (if negb (i mod 64 =? 0) then let* data := upd a (i / 64) fh in Ok (data, i / 64 + 1)
        else Ok (a, i / 64)) = Ok (b, j) /\ range_set a b i (64 * j) val /\ i <= 64 * j /\ j <= k / 64)
      as (b & j & -> & Hab & Hij & Hj).
    { destruct (Z.eqb_spec (i mod 64) 0) as [E0|E0]; cbn [negb].
      - exists a, (i / 64). split; [done|]. replace (64 * (i / 64)) with i by lia.
        split; [by apply range_set_refl|lia].
      - rewrite upd_ok by lia. cbn [rbind]. eexists _, _. split; [done|]. split; [|lia].
        apply range_set_word; [done|lia|by apply Hw|lia|lia|].
        intros m Hm. destruct (Hb (word_at a (i / 64)) m Hwa Hm) as (_ & -> & _).
        destruct (Z.leb_spec (i mod 64) m), (Z.leb_spec i (64 * (i / 64) + m)),
          (Z.ltb_spec (64 * (i / 64) + m) (64 * (i / 64 + 1))); try lia; done. }
    cbn [rbind]. pose proof Hab as (Lb & Wb & _).
    destruct (for_words_set b j (k / 64) fill val) as (c & -> & Hbc); [done|lia|lia|done|done|].
    cbn [rbind]. rewrite Z.max_r by lia. pose proof Hbc as (Lc & Wc & _).
    pose proof (range_set_trans a b c i (64 * j) (64 * (k / 64)) val ltac:(lia) Hab Hbc) as Hac.
    destruct (Z.eqb_spec (k mod 64) 0) as [E0|E0]; cbn [negb].
    + exists c. split; [done|]. by replace k with (64 * (k / 64)) by lia.
    + rewrite upd_ok by lia. eexists. split; [done|].
      apply (range_set_trans a c _ i (64 * (k / 64)) k); [lia|done|].
      assert (Hwc : word64 (word_at c (k / 64))) by auto with word64.
      apply range_set_word; [done|lia|by apply Hw|lia|lia|].
      intros m Hm. destruct (Hb (word_at c (k / 64)) m Hwc Hm) as (_ & _ & ->).
      destruct (Z.ltb_spec m (k mod 64)), (Z.leb_spec (64 * (k / 64)) (64 * (k / 64) + m)),
        (Z.ltb_spec (64 * (k / 64) + m) k); try lia; done.
Qed.

Lemma word64_m1_shl n : word64 (m1_shl n).
Proof. apply word64_shl64. Qed.

Lemma word64_m2_shl n : word64 (m2_shl n).
Proof. apply word64_shl64. Qed.

#[export] Hint Resolve word64_m1_shl word64_m2_shl words_insert : word64.

Lemma word64_nonneg w : word64 w -> 0 <= w.
Proof. by intros []. Qed.

#[export] Hint Resolve word64_nonneg : word64.

(** Decides a goal on one bit of a masked word. *)
Ltac mask_bits :=
  intros;
  repeat first
    [ rewrite Z.land_spec | rewrite Z.lor_spec | rewrite testbit_not64 by lia
    | rewrite testbit_m1_shl by lia | rewrite testbit_m2_shl by lia ];
  repeat match goal with
  | |- context [?a <=? ?b] => destruct (Z.leb_spec a b)
  | |- context [?a <? ?b] => destruct (Z.ltb_spec a b)
  end; try lia; cbn [negb andb orb];
  rewrite ?andb_true_r, ?andb_false_r, ?orb_true_r, ?orb_false_r; try done.

Lemma bits_range_set0_ok a i k : words a -> 0 <= i <= k -> k <= 64 * Z.of_nat (length a) ->
  exists a', bits_range_set0 a i k = Ok a' /\ range_set a a' i k false.
Proof.
  intros Ha Hi Hk. unfold bits_range_set0. destruct (Z.eqb_spec i k) as [->|].
  { exists a. split; [done|by apply range_set_refl]. }
  pose proof (mod64_range i). pose proof (mod64_range k). pose proof (mod64_range (k - 1)).
  apply (range_flow a i k false); try done; try lia.
  - intros. apply Z.bits_0.
  - intros w Hw. split_and!; auto with word64.
  - intros w m Hw Hm. split_and!; mask_bits.
Qed.

Lemma bits_range_set1_ok a i k : words a -> 0 <= i <= k -> k <= 64 * Z.of_nat (length a) ->
  exists a', bits_range_set1 a i k = Ok a' /\ range_set a a' i k true.
Proof.
  intros Ha Hi Hk. unfold bits_range_set1. destruct (Z.eqb_spec i k) as [->|].
  { exists a. split; [done|by apply range_set_refl]. }
  pose proof (mod64_range i). pose proof (mod64_range k). pose proof (mod64_range (k - 1)).
  apply (range_flow a i k true); try done; try lia.
  - intros. rewrite Z.testbit_ones_nonneg by lia. lia.
  - intros w Hw. split_and!; auto with word64.
  - intros w m Hw Hm. split_and!; mask_bits.
Qed.

Lemma bits_range_set_ok a i k val : words a -> 0 <= i <= k -> k <= 64 * Z.of_nat (length a) ->
  exists a', bits_range_set a i k val = Ok a' /\ range_set a a' i k val.
Proof. intros. destruct val; [by apply bits_range_set1_ok|by apply bits_range_set0_ok]. Qed.

(** [bits_range_set] stays inside the array, writes exactly the bits of
    [i, k) and keeps every other bit, whatever words the range starts and ends in. *)
Theorem bits_range_set_correct a i k val :
  words a -> 0 <= i <= k -> k <= 64 * Z.of_nat (length a) ->
  exists a', bits_range_set a i k val = Ok a' /\ length a' = length a /\
    forall p, 0 <= p -> bit_at a' p = if (i <=? p) && (p <? k) then val else bit_at a p.
Proof.
  intros Ha Hi Hk. destruct (bits_range_set_ok a i k val Ha Hi Hk) as (a' & E & L & _ & B). eauto.
Qed.

(** ** Witnesses *)

Lemma fast_popcount64_correct_witness :
  word64 0xF0F0 /\ fast_popcount64 0xF0F0 = fast_popcount 0xF0F0.
Proof. split; [split; lia|]. apply fast_popcount64_correct. split; lia. Defined.

Lemma UintSelect1_correct_witness :
  (word64 0xA5 /\ 0 <= 2 < fast_popcount 0xA5) /\
  exists p, UintSelect1 0xA5 2 = Ok p /\ 0 <= p < 64 /\
    Z.testbit 0xA5 p = true /\ cnt (Z.testbit 0xA5) 0 (Z.to_nat p) = 2.
Proof.
  split; [split; [split; lia|split; [lia|reflexivity]]|].
  apply (UintSelect1_correct 0xA5 2); [split; lia|split; [lia|reflexivity]].
Defined.

Lemma bits_range_set_correct_witness :
  let a := [Z.ones 64; Z.ones 64; Z.ones 64] in
  (words a /\ 0 <= 5 <= 140 /\ 140 <= 64 * Z.of_nat (length a)) /\
  exists a', bits_range_set a 5 140 false = Ok a' /\ length a' = length a /\
    forall p, 0 <= p -> bit_at a' p = if (5 <=? p) && (p <? 140) then false else bit_at a p.
Proof.
  assert (H : words [Z.ones 64; Z.ones 64; Z.ones 64]) by (repeat constructor; done).
  split; [split; [exact H|split; [lia|simpl; lia]]|].
  apply (bits_range_set_correct _ 5 140 false); [exact H|lia|simpl; lia].
Defined.

Example UintSelect1_ex : UintSelect1 0xA5 2 = Ok 5.
Proof. reflexivity. Qed.

Example bits_range_set_ex :
  bits_range_set [Z.ones 64; Z.ones 64; Z.ones 64] 5 140 false = Ok [31; 0; Z.ones 64 - 4095].
Proof. reflexivity. Qed.
