(* ===== verification/Bytes.v ===== *)
(** * Memory as bytes

    The parts of the program that address memory byte by byte (records of a few
    bytes at any offset) are modelled over lists of bytes; a 64-bit access at an
    unaligned offset is eight bytes, little endian. *)
From S2P Require Import Prelude.

Module Bytes.

Definition bytes (m : list Z) : Prop := Forall (fun b => 0 <= b < 256) m.
Definition byte_at (m : list Z) (i : Z) : Z := nth (Z.to_nat i) m 0.

(** The [n] bytes from [o] on as a number. *)
Fixpoint le_at (n : nat) (m : list Z) (o : Z) : Z :=
  match n with O => 0 | S n => byte_at m o + 256 * le_at n m (o + 1) end.

(** Byte [k] of a number. *)
Definition byte_of (x k : Z) : Z := x / 256 ^ k mod 256.

Definition inside (m : list Z) (o n : Z) : bool := (0 <=? o) && (o + n <=? Z.of_nat (length m)).
Definition rd64b (m : list Z) (o : Z) : res Z := if inside m o 8 then Ok (le_at 8 m o) else UB.

(** Replace the [n] bytes from [o] on. *)
Definition put (m : list Z) (o n : Z) (g : Z -> Z) : res (list Z) :=
  if inside m o n then
    Ok (take (Z.to_nat o) m ++ map g (seqZ 0 n) ++ drop (Z.to_nat (o + n)) m)
  else UB.
Definition wr64b (m : list Z) (o x : Z) : res (list Z) := put m o 8 (byte_of x).
(** [*(uint64_t* )(m + o) |= x] *)
Definition or64 (m : list Z) (o x : Z) : res (list Z) :=
  put m o 8 (fun k => Z.lor (byte_at m (o + k)) (byte_of x k)).
Definition memcpy (m : list Z) (dst src n : Z) : res (list Z) :=
  if inside m src n then put m dst n (fun k => byte_at m (src + k)) else UB.

(** ** Lemmas *)

Lemma inside_ok m o n : 0 <= o -> o + n <= Z.of_nat (length m) -> inside m o n = true.
Proof. intros. unfold inside. by rewrite !(proj2 (Z.leb_le _ _)) by lia. Qed.

Lemma byte_range m i : bytes m -> 0 <= byte_at m i < 256.
Proof.
  intros Hm. unfold byte_at. rewrite nth_lookup. destruct (m !! Z.to_nat i) eqn:E; cbn; [|lia].
  by apply (proj1 (Forall_lookup _ _) Hm) in E.
Qed.

Lemma byte_of_range x k : 0 <= byte_of x k < 256.
Proof. apply Z.mod_pos_bound. lia. Qed.

Lemma put_ok m o n g : bytes m -> 0 <= o -> 0 <= n -> o + n <= Z.of_nat (length m) -> (forall k, 0 <= k < n -> 0 <= g k < 256) ->
  exists m', put m o n g = Ok m' /\ length m' = length m /\ bytes m' /\
    forall i, 0 <= i < Z.of_nat (length m) -> byte_at m' i = if (o <=? i) && (i <? o + n) then g (i - o) else byte_at m i.
Proof.
  intros Hm Ho Hn Hl Hg. unfold put. rewrite inside_ok by done. eexists. split; [done|].
  assert (Lg : length (map g (seqZ 0 n)) = Z.to_nat n) by (rewrite length_map, length_seqZ; done).
  assert (Lt : length (take (Z.to_nat o) m) = Z.to_nat o) by (rewrite length_take; lia).
  split; [rewrite !length_app, Lt, Lg, length_drop; lia|]. split.
  - apply Forall_app. split; [by apply Forall_take|]. apply Forall_app. split; [|by apply Forall_drop].
    apply Forall_map, List.Forall_forall. intros k Hk. apply list_elem_of_In, elem_of_seqZ in Hk. apply Hg. lia.
  - intros i Hi. unfold byte_at. destruct (Z.leb_spec o i); cbn [andb]; [|rewrite app_nth1 by lia; rewrite !nth_lookup, lookup_take_lt by lia; done].
    rewrite app_nth2, Lt by lia. destruct (Z.ltb_spec i (o + n)).
    + rewrite app_nth1 by lia. rewrite nth_lookup, list_lookup_fmap, lookup_seqZ_lt by lia. cbn. f_equal. lia.
    + rewrite app_nth2, Lg by lia. rewrite !nth_lookup, lookup_drop. do 2 f_equal. lia.
Qed.

Lemma le_at_range n m o : bytes m -> 0 <= le_at n m o < 256 ^ Z.of_nat n.
Proof.
  intros Hm. revert o. induction n as [|n IH]; intros o; [cbn; lia|]. cbn [le_at].
  pose proof (byte_range m o Hm). specialize (IH (o + 1)). rewrite Nat2Z.inj_succ, Z.pow_succ_r by lia. lia.
Qed.

Lemma le_at_ext n m m' o o' : (forall k, 0 <= k < Z.of_nat n -> byte_at m' (o' + k) = byte_at m (o + k)) ->
  le_at n m' o' = le_at n m o.
Proof.
  revert o o'. induction n as [|n IH]; intros o o' H; [done|]. cbn [le_at].
  pose proof (H 0 ltac:(lia)) as H0. rewrite !Z.add_0_r in H0. rewrite H0. rewrite (IH (o + 1) (o' + 1)); [done|].
  intros k Hk. rewrite <- !Z.add_assoc. apply H. lia.
Qed.

Lemma le_at_split n k m o : le_at (n + k) m o = le_at n m o + 256 ^ Z.of_nat n * le_at k m (o + Z.of_nat n).
Proof.
  revert o. induction n as [|n IH]; intros o; [cbn [plus le_at]; rewrite Z.add_0_r; cbn; lia|].
  cbn [plus le_at]. rewrite IH, Nat2Z.inj_succ, Z.pow_succ_r by lia.
  replace (o + 1 + Z.of_nat n) with (o + Z.succ (Z.of_nat n)) by lia. lia.
Qed.

(** A number is the sum of its bytes. *)
Lemma le_at_bytes_of n m o x : 0 <= x < 256 ^ Z.of_nat n -> (forall k, 0 <= k < Z.of_nat n -> byte_at m (o + k) = byte_of x k) ->
  le_at n m o = x.
Proof.
  revert o x. induction n as [|n IH]; intros o x Hx H; [cbn in *; lia|]. cbn [le_at].
  rewrite Nat2Z.inj_succ, Z.pow_succ_r in Hx by lia. pose proof (H 0 ltac:(lia)) as H0. rewrite Z.add_0_r in H0. rewrite H0.
  rewrite (IH (o + 1) (x / 256)).
  - unfold byte_of. rewrite Z.pow_0_r, Z.div_1_r. pose proof (Z.div_mod x 256). lia.
  - split; [apply Z.div_pos; lia|apply Z.div_lt_upper_bound; lia].
  - intros k Hk. rewrite <- Z.add_assoc, H by lia. unfold byte_of. rewrite Z.div_div by lia.
    by rewrite <- Z.pow_succ_r, Z.add_1_l by lia.
Qed.

Lemma byte_of_high x n k : 0 <= x < 256 ^ n -> 0 <= n <= k -> byte_of x k = 0.
Proof.
  intros Hx Hk. unfold byte_of. rewrite Z.div_small; [done|]. split; [lia|].
  eapply Z.lt_le_trans; [apply Hx|]. apply Z.pow_le_mono_r; lia.
Qed.

Lemma wr64b_ok m o x : bytes m -> 0 <= o -> o + 8 <= Z.of_nat (length m) -> 0 <= x < 2 ^ 64 ->
  exists m', wr64b m o x = Ok m' /\ length m' = length m /\ bytes m' /\ rd64b m' o = Ok x /\
    forall i, 0 <= i < Z.of_nat (length m) -> i < o \/ o + 8 <= i -> byte_at m' i = byte_at m i.
Proof.
  intros Hm Ho Hl Hx. destruct (put_ok m o 8 (byte_of x) Hm Ho ltac:(lia) Hl) as (m' & E & L & W & B).
  { intros. apply byte_of_range. }
  exists m'. split; [exact E|]. split; [done|]. split; [done|]. split.
  - unfold rd64b. rewrite inside_ok by lia. f_equal. apply le_at_bytes_of; [done|]. intros k Hk. rewrite B by lia.
    rewrite (proj2 (Z.leb_le _ _)), (proj2 (Z.ltb_lt _ _)) by lia. cbn [andb]. f_equal. lia.
  - intros i Hi Hd. rewrite B by done. destruct (Z.leb_spec o i), (Z.ltb_spec i (o + 8)); (lia || done).
Qed.

(** [or64] of a number of [n] bytes onto [n] zero bytes writes these bytes. *)
Lemma or64_ok m o n x : bytes m -> 0 <= o -> o + 8 <= Z.of_nat (length m) -> 0 <= n <= 8 -> 0 <= x < 256 ^ n ->
  (forall k, 0 <= k < n -> byte_at m (o + k) = 0) ->
  exists m', or64 m o x = Ok m' /\ length m' = length m /\ bytes m' /\ le_at (Z.to_nat n) m' o = x /\
    forall i, 0 <= i < Z.of_nat (length m) -> i < o \/ o + n <= i -> byte_at m' i = byte_at m i.
Proof.
  intros Hm Ho Hl Hn Hx Hz. unfold or64.
  destruct (put_ok m o 8 (fun k => Z.lor (byte_at m (o + k)) (byte_of x k)) Hm Ho ltac:(lia) Hl) as (m' & E & L & W & B).
  { intros k Hk. pose proof (byte_range m (o + k) Hm). pose proof (byte_of_range x k).
    destruct (Z.lt_ge_cases k n); [rewrite Hz by lia; done|]. rewrite (byte_of_high x n) by lia. by rewrite Z.lor_0_r. }
  exists m'. split; [done|]. split; [done|]. split; [done|]. split.
  - apply le_at_bytes_of; [by rewrite Z2Nat.id by lia|]. intros k Hk. rewrite B by lia.
    rewrite (proj2 (Z.leb_le _ _)), (proj2 (Z.ltb_lt _ _)) by lia. cbn [andb]. replace (o + k - o) with k by lia.
    by rewrite Hz by lia.
  - intros i Hi Hd. rewrite B by done. destruct (Z.leb_spec o i), (Z.ltb_spec i (o + 8)); cbn [andb]; try done.
    rewrite (byte_of_high x n) by lia. rewrite Z.lor_0_r. f_equal. lia.
Qed.

Lemma memcpy_ok m dst src n : bytes m -> 0 <= dst -> dst + n <= Z.of_nat (length m) -> 0 <= src -> src + n <= Z.of_nat (length m) ->
  0 <= n -> exists m', memcpy m dst src n = Ok m' /\ length m' = length m /\ bytes m' /\
    le_at (Z.to_nat n) m' dst = le_at (Z.to_nat n) m src /\
    forall i, 0 <= i < Z.of_nat (length m) -> i < dst \/ dst + n <= i -> byte_at m' i = byte_at m i.
Proof.
  intros Hm Hd Hdl Hs Hsl Hn. unfold memcpy. rewrite inside_ok by done.
  destruct (put_ok m dst n (fun k => byte_at m (src + k)) Hm Hd Hn Hdl) as (m' & E & L & W & B).
  { intros. by apply byte_range. }
  exists m'. split; [done|]. split; [done|]. split; [done|]. split.
  - apply le_at_ext. intros k Hk. rewrite B by lia. rewrite (proj2 (Z.leb_le _ _)), (proj2 (Z.ltb_lt _ _)) by lia.
    cbn [andb]. f_equal. lia.
  - intros i Hi Hdd. rewrite B by done. destruct (Z.leb_spec dst i), (Z.ltb_spec i (dst + n)); (lia || done).
Qed.

Lemma le_at_frame m m' n o : bytes m -> (forall i, o <= i < o + Z.of_nat n -> byte_at m' i = byte_at m i) ->
  le_at n m' o = le_at n m o.
Proof. intros Hm H. apply le_at_ext. intros k Hk. apply H. lia. Qed.

End Bytes.
