(* ===== verification/Febitvec.v ===== *)
(** * The bit vector [febitvec]

    [src/src/terark/bitmap.hpp] and [src/src/terark/bitmap.cpp].  The object is
    the array [m_words] (as many 64-bit words as are allocated, so that
    [m_capacity] is 64 times its length), [m_size] and the flag [m_hollow]: the
    empty array with the flag down stands for [NULL], with the flag up for the
    block of no bytes that [shrink_to_fit] of an empty vector gets from
    [realloc(NULL, 0)].  In the second state [shrink_to_fit_twice] shows the
    assertion of the next [shrink_to_fit] failing; the invariant [wf] excludes
    it, and the list specification lets only a vector with bits shrink.  What [realloc] leaves in new memory is unspecified: it is the
    section variable [junk].  The abstract value of the object is the list of
    its [m_size] bits, [bits]; the refinement theorem [exec_refines] relates
    every operation to one on lists. *)
From S2P Require Import Prelude Bits.

Module Febitvec.

Record febitvec := FVH { m_words : list Z; m_size : Z; m_hollow : bool }.
Notation FV w n := (FVH w n false) (only parsing).

Definition m_capacity (v : febitvec) : Z := 64 * Z.of_nat (length (m_words v)).

(** The number of words that hold [nbits] bits; [align_bits] rounds up to it. *)
Definition align_bits (nbits : Z) : Z := Z.land (nbits + 64 - 1) (Z.lnot (64 - 1)).
Definition num_words (v : febitvec) : Z := (m_size v + 64 - 1) / 64.

Definition empty_vec : febitvec := FV [] 0.

(** [NULL == m_words] *)
Definition is_null (v : febitvec) : bool := match m_words v with [] => negb (m_hollow v) | _ => false end.

(** ** Reading and writing one bit *)

Definition is1 (v : febitvec) (i : Z) : res bool :=
  let* _ := assert_ (i <? m_size v) in terark_bit_test (m_words v) i.

Definition is0 (v : febitvec) (i : Z) : res bool :=
  let* _ := assert_ (i <? m_size v) in let* b := terark_bit_test (m_words v) i in Ok (negb b).

Definition back (v : febitvec) : res bool :=
  let* _ := assert_ (0 <? m_size v) in terark_bit_test (m_words v) (m_size v - 1).

Definition set0 (v : febitvec) (i : Z) : res febitvec :=
  let* _ := assert_ (i <? m_size v) in
  let* w := terark_bit_set0 (m_words v) i in Ok (FVH w (m_size v) (m_hollow v)).

Definition set1 (v : febitvec) (i : Z) : res febitvec :=
  let* _ := assert_ (i <? m_size v) in
  let* w := terark_bit_set1 (m_words v) i in Ok (FVH w (m_size v) (m_hollow v)).

Definition set (v : febitvec) (i : Z) (val : bool) : res febitvec :=
  let* _ := assert_ (i <? m_size v) in if val then set1 v i else set0 v i.

Definition pop_back (v : febitvec) : res febitvec :=
  let* _ := assert_ (0 <? m_size v) in Ok (FVH (m_words v) (m_size v - 1) (m_hollow v)).

Definition erase_all (v : febitvec) : febitvec := FVH (m_words v) 0 (m_hollow v).

Definition set_word (v : febitvec) (i w : Z) : res febitvec :=
  let* ws := wr (m_words v) i w in Ok (FVH ws (m_size v) (m_hollow v)).

Definition get_word (v : febitvec) (i : Z) : res Z := rd (m_words v) i.

(** ** Bit ranges *)

Definition set_range (v : febitvec) (i nbits : Z) (val : bool) : res febitvec :=
  let* _ := assert_ (i <? m_size v) in
  let* _ := assert_ (i + nbits <=? m_capacity v) in
  let* w := bits_range_set (m_words v) i (i + nbits) val in Ok (FVH w (m_size v) (m_hollow v)).

Definition beg_end_set (v : febitvec) (beg end_ : Z) (val : bool) : res febitvec :=
  let* _ := assert_ (beg <=? end_) in
  let* _ := assert_ (beg <=? m_size v) in
  let* _ := assert_ (end_ <=? m_capacity v) in
  let* w := bits_range_set (m_words v) beg end_ val in Ok (FVH w (m_size v) (m_hollow v)).

(** [std::fill_n(m_words, num_words(), val ? -1 : 0)] *)
Definition fill (v : febitvec) (val : bool) : res febitvec :=
  let* w := for_ 0 (num_words v) (fun i w => wr w i (if val then Z.ones 64 else 0)) (m_words v) in
  Ok (FVH w (m_size v) (m_hollow v)).

(** ** Whole-vector queries *)

Definition isall (v : febitvec) (val : bool) : res bool :=
  let* _ := assert_ (0 <? m_size v) in
  let n := m_size v / 64 in
  let* r := for_ 0 n (fun i (acc : bool) =>
    if acc then let* w := rd (m_words v) i in Ok (if val then w =? Z.ones 64 else w =? 0)
    else Ok false) true in
  if negb r then Ok false
  else if m_size v mod 64 =? 0 then Ok true
  else let allone := shl64 1 (m_size v mod 64) - 1 in
       let* w := rd (m_words v) n in
       Ok (if val then Z.land w allone =? allone else Z.land w allone =? 0).

Definition isall0 (v : febitvec) : res bool := isall v false.
Definition isall1 (v : febitvec) : res bool := isall v true.

Definition popcnt (v : febitvec) : res Z :=
  if 0 =? m_size v then Ok 0 else
  let n := m_size v / 64 in
  let* pc := for_ 0 n (fun i pc => let* w := rd (m_words v) i in Ok (pc + fast_popcount w)) 0 in
  if negb (m_size v mod 64 =? 0) then
    let* w := rd (m_words v) n in Ok (pc + fast_popcount_trail w (m_size v mod 64))
  else Ok pc.

Definition popcnt_blocks (v : febitvec) (blstart blcnt : Z) : res Z :=
  let* _ := assert_ (blstart <=? num_words v) in
  let* _ := assert_ (blcnt <=? num_words v) in
  let* _ := assert_ (blstart + blcnt <=? num_words v) in
  for_ blstart (blstart + blcnt) (fun i pc => let* w := rd (m_words v) i in Ok (pc + fast_popcount w)) 0.

(** ** Runs of equal bits

    [scan_fwd]/[scan_back] are the word loops the four functions end with;
    [inv w] is [~w] for runs of ones and [w] for runs of zeros. *)

Definition inv (val : bool) (w : Z) : Z := if val then not64 w else w.

Definition scan_fwd (bits : list Z) (val : bool) (len j sum : Z) : res Z :=
  loop (S (Z.to_nat (len - j))) (fun '(j, sum) =>
    if j <? len then
      let* w := rd bits j in let y := inv val w in
      if 0 =? y then Ok (inl (j + 1, sum + 64))
      else let* c := fast_ctz y in Ok (inr (sum + c))
    else Ok (inr sum)) (j, sum).

Definition scan_back (bits : list Z) (val : bool) (j sum : Z) : res Z :=
  loop (S (Z.to_nat j)) (fun '(j, sum) =>
    if 0 <? j then
      let* w := rd bits (j - 1) in let y := inv val w in
      if 0 =? y then Ok (inl (j - 1, sum + 64))
      else let* c := fast_clz y in Ok (inr (sum + c))
    else Ok (inr sum)) (j, sum).

Definition one_seq_len (v : febitvec) (bitpos : Z) : res Z :=
  let* _ := assert_ (bitpos <? m_size v) in
  let bits := m_words v in
  if negb (bitpos mod 64 =? 0) then
    let* x := rd bits (bitpos / 64) in
    if Z.land x (shl64 1 (bitpos mod 64)) =? 0 then Ok 0 else
    let y := not64 (Z.shiftr x (bitpos mod 64)) in
    let* ctz := fast_ctz y in
    if ctz <? 64 - bitpos mod 64 then Ok ctz else
    let* _ := assert_ (ctz =? 64 - bitpos mod 64) in
    scan_fwd bits true (num_words v) (bitpos / 64 + 1) ctz
  else scan_fwd bits true (num_words v) (bitpos / 64) 0.

Definition zero_seq_len (v : febitvec) (bitpos : Z) : res Z :=
  let* _ := assert_ (bitpos <? m_size v) in
  let bits := m_words v in
  if negb (bitpos mod 64 =? 0) then
    let* x := rd bits (bitpos / 64) in
    if negb (Z.land x (shl64 1 (bitpos mod 64)) =? 0) then Ok 0 else
    let y := Z.shiftr x (bitpos mod 64) in
    if negb (y =? 0) then fast_ctz y else
    scan_fwd bits false (num_words v) (bitpos / 64 + 1) (64 - bitpos mod 64)
  else scan_fwd bits false (num_words v) (bitpos / 64) 0.

(** Without a bound: the caller promises a zero after the run.  The loop stops
    with undefined behaviour when it leaves the array. *)
Definition fast_one_seq_len (bits : list Z) (bitpos : Z) : res Z :=
  let scan j sum := scan_fwd bits true (Z.of_nat (length bits) + 1) j sum in
  if negb (bitpos mod 64 =? 0) then
    let* x := rd bits (bitpos / 64) in
    if Z.land x (shl64 1 (bitpos mod 64)) =? 0 then Ok 0 else
    let y := not64 (Z.shiftr x (bitpos mod 64)) in
    let* ctz := fast_ctz y in
    if ctz <? 64 - bitpos mod 64 then Ok ctz else
    let* _ := assert_ (ctz =? 64 - bitpos mod 64) in
    scan (bitpos / 64 + 1) ctz
  else scan (bitpos / 64) 0.

Definition one_seq_revlen (v : febitvec) (endpos : Z) : res Z :=
  let* _ := assert_ (endpos <=? m_size v) in
  let bits := m_words v in
  if negb (endpos mod 64 =? 0) then
    let* x := rd bits ((endpos - 1) / 64) in
    if Z.land x (shl64 1 ((endpos - 1) mod 64)) =? 0 then Ok 0 else
    let y := not64 (shl64 x (64 - endpos mod 64)) in
    let* clz := fast_clz y in
    let* _ := assert_ (clz <=? endpos mod 64) in
    let* _ := assert_ (1 <=? clz) in
    if clz <? endpos mod 64 then Ok clz else
    scan_back bits true (endpos / 64) clz
  else scan_back bits true (endpos / 64) 0.

Definition zero_seq_revlen (v : febitvec) (endpos : Z) : res Z :=
  let* _ := assert_ (endpos <=? m_size v) in
  let bits := m_words v in
  if negb (endpos mod 64 =? 0) then
    let* x := rd bits ((endpos - 1) / 64) in
    if negb (Z.land x (shl64 1 ((endpos - 1) mod 64)) =? 0) then Ok 0 else
    let y := shl64 x (64 - endpos mod 64) in
    if negb (y =? 0) then fast_clz y else
    scan_back bits false (endpos / 64) (endpos mod 64)
  else scan_back bits false (endpos / 64) 0.

(** ** Bitwise assignments: [op] is [&~], [^], [&] or [|] *)

Definition andnot (x y : Z) : Z := Z.land x (not64 y).

Definition op_assign (op : Z -> Z -> Z) (v y : febitvec) : res febitvec :=
  let nBlocks := Z.min (num_words v) (num_words y) in
  let* w := for_ 0 nBlocks (fun i w =>
    let* a := rd w i in let* b := rd (m_words y) i in wr w i (op a b)) (m_words v) in
  Ok (FVH w (m_size v) (m_hollow v)).

Definition block_op (op : Z -> Z -> Z) (v y : febitvec) (yblstart blcnt : Z) : res febitvec :=
  let* w := for_ yblstart (yblstart + blcnt) (fun i w =>
    let* a := rd w i in let* b := rd (m_words y) i in wr w i (op a b)) (m_words v) in
  Ok (FVH w (m_size v) (m_hollow v)).

(** ** Unsigned integers of any width, [Uint = uint64_t] *)

Definition s_get_uint (base : list Z) (bitpos width : Z) : res Z :=
  let* _ := assert_ (width <=? 64) in
  let p := bitpos / 64 in
  let offset := bitpos mod 64 in
  let mask := if width <? 64 then not64 (shl64 (Z.ones 64) width) else Z.ones 64 in
  let* p0 := rd base p in
  let low := Z.shiftr p0 offset in
  if offset + width <=? 64 then Ok (Z.land mask low)
  else let* p1 := rd base (p + 1) in Ok (Z.land mask (Z.lor low (shl64 p1 (64 - offset)))).

Definition s_set_uint (base : list Z) (bitpos width val : Z) : res (list Z) :=
  let* _ := assert_ (if width <? 64 then Z.shiftr val width =? 0 else true) in
  let* _ := assert_ (width <=? 64) in
  let p := bitpos / 64 in
  let offset := bitpos mod 64 in
  let* base :=
    if offset + width <? 64 then
      upd base p (fun w => Z.lor (Z.land w (Z.lor (not64 (m1_shl offset)) (m1_shl (offset + width))))
                                 (shl64 val offset))
    else
      let* base := upd base p (fun w => Z.lor (Z.land w (not64 (m1_shl offset))) (shl64 val offset)) in
      if 64 <? offset + width then
        let off2 := (offset + width) mod 64 in
        upd base (p + 1) (fun w => Z.lor (Z.land w (m1_shl off2)) (Z.shiftr val (64 - offset)))
      else Ok base in
  let* got := s_get_uint base bitpos width in
  let* _ := assert_ (got =? val) in Ok base.

Definition get_uint (v : febitvec) (bitpos width : Z) : res Z :=
  let* _ := assert_ (bitpos <? m_size v) in
  let* _ := assert_ (bitpos + width <=? m_size v) in
  s_get_uint (m_words v) bitpos width.

Definition get2_uints (v : febitvec) (bitpos width : Z) : res (Z * Z) :=
  let* _ := assert_ (bitpos <? m_size v) in
  let* _ := assert_ (bitpos + width <=? m_size v) in
  let* a := s_get_uint (m_words v) bitpos width in
  let* b := s_get_uint (m_words v) (bitpos + width) width in Ok (a, b).

Definition set_uint (v : febitvec) (bitpos width val : Z) : res febitvec :=
  let* _ := assert_ (bitpos + width <=? m_size v) in
  let* w := s_set_uint (m_words v) bitpos width val in Ok (FVH w (m_size v) (m_hollow v)).

(** ** Operations that allocate *)

Section alloc.
(** [junk j] is what the allocator leaves in word [j] of a grown block. *)
Context (junk : nat -> Z).

(** [realloc(m_words, 8 * n)] *)
Definition realloc (ws : list Z) (n : nat) : list Z :=
  take n ws ++ map junk (seq (length ws) (n - length ws)).

Definition reserve (v : febitvec) (newcap : Z) : febitvec :=
  let newcap := align_bits newcap in
  if m_capacity v <? newcap then FV (realloc (m_words v) (Z.to_nat (newcap / 64))) (m_size v) else v.

(** [while (newcap < newsize) newcap *= 2;] *)
Definition grow_cap (newcap newsize : Z) : res Z :=
  loop 64 (fun c => if c <? newsize then Ok (inl (u64 (c * 2))) else Ok (inr c)) newcap.

Definition resize_no_init (v : febitvec) (newsize : Z) : res febitvec :=
  if m_capacity v <? newsize then
    let* newcap := grow_cap (Z.max (m_capacity v) 64) newsize in
    Ok (FV (realloc (m_words v) (Z.to_nat (newcap / 64))) newsize)
  else Ok (FVH (m_words v) newsize (m_hollow v)).

Definition resize (v : febitvec) (newsize : Z) (val : bool) : res febitvec :=
  let oldsize := m_size v in
  if oldsize =? newsize then Ok v else
  let* v := resize_no_init v newsize in
  if oldsize <? newsize then
    let* w := bits_range_set (m_words v) oldsize newsize val in Ok (FVH w (m_size v) (m_hollow v))
  else Ok v.

Definition resize_fill (v : febitvec) (newsize : Z) (val : bool) : res febitvec :=
  let* v := resize_no_init v newsize in fill v val.

Definition grow (v : febitvec) (cnt : Z) (val : bool) : res febitvec := resize v (m_size v + cnt) val.

(** [febitvec(bits, val)] *)
Definition make (nbits : Z) (val : bool) : res febitvec := resize empty_vec nbits val.

(** [febitvec(bits, val, padding)]; a shift by 64 or more is undefined. *)
Definition make_padded (nbits : Z) (val padding : bool) : res febitvec :=
  let* v := resize_no_init empty_vec nbits in
  let nWords := num_words v in
  let* w := for_ 0 nWords (fun i w => wr w i (if val then Z.ones 64 else 0)) (m_words v) in
  if negb (nbits =? m_capacity v) && negb (eqb padding val) then
    let* _ := assert_ (0 <? nbits) in
    let* _ := assert_ (m_capacity v - nbits <? 64) in
    let m := u64 (Z.shiftr (Z.ones 64) (m_capacity v - nbits) - 1) in
    let* w := wr w (nWords - 1) (if padding then not64 m else m) in
    Ok (FVH w (m_size v) (m_hollow v))
  else Ok (FVH w (m_size v) (m_hollow v)).

Definition push_back_slow_path (v : febitvec) (val : bool) : res febitvec :=
  let* _ := assert_ (m_size v mod 64 =? 0) in
  let* v := resize_no_init v (m_size v + 1) in
  let* w := wr (m_words v) (m_size v / 64) (if val then 1 else 0) in Ok (FVH w (m_size v) (m_hollow v)).

Definition push_back (v : febitvec) (val : bool) : res febitvec :=
  if m_size v <? m_capacity v then set (FVH (m_words v) (m_size v + 1) (m_hollow v)) (m_size v) val
  else push_back_slow_path v val.

Definition append (v y : febitvec) : res febitvec :=
  for_ 0 (m_size y) (fun i v => let* b := is1 y i in push_back v b) v.

Definition append_range (v y : febitvec) (beg len : Z) : res febitvec :=
  let* _ := assert_ (beg + len <=? m_size y) in
  for_ beg (beg + len) (fun i v => let* b := is1 y i in push_back v b) v.

Definition ensure_set0 (v : febitvec) (i : Z) : res febitvec :=
  if i <? m_size v then let* w := terark_bit_set0 (m_words v) i in Ok (FVH w (m_size v) (m_hollow v))
  else resize v (i + 1) false.

Definition ensure_set1_slow_path (v : febitvec) (i : Z) : res febitvec :=
  let* v := resize v (i + 1) false in
  let* w := terark_bit_set1 (m_words v) i in Ok (FVH w (m_size v) (m_hollow v)).

Definition ensure_set1 (v : febitvec) (i : Z) : res febitvec :=
  if i <? m_size v then let* w := terark_bit_set1 (m_words v) i in Ok (FVH w (m_size v) (m_hollow v))
  else ensure_set1_slow_path v i.

Definition ensure_set (v : febitvec) (i : Z) (val : bool) : res febitvec :=
  if val then ensure_set1 v i else ensure_set0 v i.

(** [assert]s that the bits of [a, b) are 0 *)
Definition assert_zeros (ws : list Z) (a b : Z) : res unit :=
  for_ a b (fun j _ => let* t := terark_bit_test ws j in assert_ (negb t)) tt.

Definition fast_ensure_set1_slow_path (v : febitvec) (i : Z) : res febitvec :=
  let* _ := assert_ (m_capacity v <=? i) in
  let* _ := assert_zeros (m_words v) (m_size v) (m_capacity v) in
  let oldcap := m_capacity v in
  let* v := resize_no_init v (i + 1) in
  let* w := bits_range_set0 (m_words v) oldcap (m_capacity v) in
  let* w := terark_bit_set1 w i in Ok (FVH w (m_size v) (m_hollow v)).

Definition fast_ensure_set1 (v : febitvec) (i : Z) : res febitvec :=
  if i <? m_capacity v then
    let* v := if m_size v <=? i then
                let* _ := assert_zeros (m_words v) (m_size v) (i + 1) in Ok (FVH (m_words v) (i + 1) (m_hollow v))
              else Ok v in
    let* w := terark_bit_set1 (m_words v) i in Ok (FVH w (m_size v) (m_hollow v))
  else fast_ensure_set1_slow_path v i.

Definition push_uint (v : febitvec) (width val : Z) : res febitvec :=
  let* _ := assert_ (width <=? 64) in
  let oldsize := m_size v in
  if oldsize + width <=? m_capacity v then
    let* w := s_set_uint (m_words v) oldsize width val in Ok (FVH w (oldsize + width) (m_hollow v))
  else
    let* v := resize_no_init v (oldsize + width) in
    let* w := bits_range_set0 (m_words v) oldsize (m_size v) in
    let* w := s_set_uint w oldsize width val in Ok (FVH w (m_size v) (m_hollow v)).

(** An empty vector is freed and the call goes on to [realloc(NULL, 0)], whose result is
    not [NULL] here; [m_capacity] is 0 then. *)
Definition shrink_to_fit (v : febitvec) : res febitvec :=
  let* _ := assert_ (m_size v <=? m_capacity v) in
  if is_null v then
    let* _ := assert_ (0 =? m_size v) in
    let* _ := assert_ (0 =? m_capacity v) in Ok v
  else
  let* _ := assert_ (0 <? m_capacity v) in
  let* _ := assert_ (m_capacity v mod 64 =? 0) in
  let ws := if 0 =? m_size v then [] else m_words v in
  let ceiled_bits := align_bits (m_size v) in
  Ok (FVH (realloc ws (Z.to_nat (ceiled_bits / 64))) (m_size v) (ceiled_bits =? 0)).

(** [febitvec(y, beg, len)]: copy the words that hold the range and shift them.
    Its two asserts repeat the condition of the exception. *)
Definition copy_range (y : febitvec) (beg len : Z) : res febitvec :=
  if m_size y <? beg + len then Throw out_of_range
  else if 0 =? len then Ok empty_vec else
  let begBlock := beg / 64 in
  let endBlock := (beg + len + 64 - 1) / 64 in
  let numBlock := endBlock - begBlock in
  let* _ := assert_ (endBlock <=? Z.of_nat (length (m_words y))) in
  let p := take (Z.to_nat numBlock) (drop (Z.to_nat begBlock) (m_words y)) in
  let rightShift := beg mod 64 in
  let* p :=
    if negb (rightShift =? 0) then
      let leftShift := 64 - rightShift in
      let* p := for_ 0 (numBlock - 1) (fun i p =>
        let* a := rd p i in let* b := rd p (i + 1) in
        wr p i (Z.lor (Z.shiftr a rightShift) (shl64 b leftShift))) p in
      upd p (numBlock - 1) (fun w => Z.shiftr w rightShift)
    else Ok p in
  Ok (FV p len).
End alloc.

(** * The abstract value *)

Definition wf (v : febitvec) : Prop := words (m_words v) /\ (0 <= m_size v <= m_capacity v /\ m_hollow v = false).

(** The bits of the vector, a list of [m_size] booleans. *)
Definition bits (v : febitvec) : list bool := map (bit_at (m_words v)) (seqZ 0 (m_size v)).

(** [v] has size [n] and its bits are [f]. *)
Definition view (v : febitvec) (n : Z) (f : Z -> bool) : Prop :=
  wf v /\ m_size v = n /\ forall i, 0 <= i < n -> bit_at (m_words v) i = f i.

(** ** The specification on lists of booleans

    [spec_op o l] is the value after [o], [None] outside its precondition. *)
Inductive op :=
| OSet (i : Z) (b : bool) | OPushBack (b : bool) | OPopBack | OResize (n : Z) (b : bool)
| OFill (b : bool) | ORange (beg end_ : Z) (b : bool) | OEnsureSet (i : Z) (b : bool)
| OAppend (y : febitvec) | OPushUint (width val : Z) | OSetUint (p width val : Z)
| OReserve (n : Z) | OShrink | OEraseAll.

Definition exec_op (junk : nat -> Z) (o : op) (v : febitvec) : res febitvec :=
  match o with
  | OSet i b => set v i b
  | OPushBack b => push_back junk v b
  | OPopBack => pop_back v
  | OResize n b => resize junk v n b
  | OFill b => fill v b
  | ORange beg end_ b => beg_end_set v beg end_ b
  | OEnsureSet i b => ensure_set junk v i b
  | OAppend y => append junk v y
  | OPushUint width val => push_uint junk v width val
  | OSetUint p width val => set_uint v p width val
  | OReserve n => Ok (reserve junk v n)
  | OShrink => shrink_to_fit junk v
  | OEraseAll => Ok (erase_all v)
  end.

(** A run of operations; the [k]-th allocation sees the junk [junk k]. *)
Fixpoint exec (junk : nat -> nat -> Z) (os : list op) (v : febitvec) : res febitvec :=
  match os with
  | [] => Ok v
  | o :: os => let* v := exec_op (junk O) o v in exec (fun k => junk (S k)) os v
  end.

Definition len (l : list bool) : Z := Z.of_nat (length l).
Definition uint_bits (width val : Z) : list bool := map (Z.testbit val) (seqZ 0 width).
Definition fits_width (width val : Z) : Prop :=
  0 < width <= 64 /\ 0 <= val < 2 ^ 64 /\ Z.shiftr val width = 0.
#[export] Instance fits_width_dec width val : Decision (fits_width width val).
Proof. unfold fits_width. apply _. Defined.

Definition spec_op (o : op) (l : list bool) : option (list bool) :=
  match o with
  | OSet i b => if decide (0 <= i < len l) then Some (<[Z.to_nat i := b]> l) else None
  | OPushBack b => if decide (len l < 2 ^ 63) then Some (l ++ [b]) else None
  | OPopBack => if decide (0 < len l) then Some (take (length l - 1) l) else None
  | OResize n b => if decide (0 <= n <= 2 ^ 63) then Some (list.resize (Z.to_nat n) b l) else None
  | OFill b => Some (replicate (length l) b)
  | ORange beg end_ b => if decide (0 <= beg <= end_ /\ end_ <= len l)
      then Some (take (Z.to_nat beg) l ++ replicate (Z.to_nat (end_ - beg)) b ++ drop (Z.to_nat end_) l) else None
  | OEnsureSet i b => if decide (0 <= i < 2 ^ 63)
      then Some (<[Z.to_nat i := b]> (list.resize (Z.to_nat (Z.max (len l) (i + 1))) false l)) else None
  | OAppend y => if decide (len l + m_size y <= 2 ^ 63) then Some (l ++ bits y) else None
  | OPushUint width val => if decide (fits_width width val /\ len l + width <= 2 ^ 63)
      then Some (l ++ uint_bits width val) else None
  | OSetUint p width val => if decide (fits_width width val /\ 0 <= p /\ p + width <= len l)
      then Some (take (Z.to_nat p) l ++ uint_bits width val ++ drop (Z.to_nat (p + width)) l) else None
  | OReserve n => if decide (0 <= n) then Some l else None
  | OShrink => if decide (0 < len l) then Some l else None
  | OEraseAll => Some []
  end.

Fixpoint spec (os : list op) (l : list bool) : option (list bool) :=
  match os with [] => Some l | o :: os => l ← spec_op o l; spec os l end.

(** The vectors passed as arguments are well formed. *)
Definition op_wf (o : op) : Prop := match o with OAppend y => wf y | _ => True end.

Lemma length_bits v : wf v -> Z.of_nat (length (bits v)) = m_size v.
Proof. intros [_ ?]. unfold bits. rewrite length_map, length_seqZ. lia. Qed.

Lemma bits_lookup v i : 0 <= i < m_size v -> bits v !! Z.to_nat i = Some (bit_at (m_words v) i).
Proof.
  intros Hi. unfold bits. rewrite list_lookup_fmap, lookup_seqZ_lt by lia.
  cbn. do 2 f_equal. lia.
Qed.

Lemma view_bits v n f : view v n f -> bits v = map f (seqZ 0 n).
Proof.
  intros (_ & <- & H). unfold bits. apply map_ext_in. intros i Hi.
  apply list_elem_of_In, elem_of_seqZ in Hi. apply H. lia.
Qed.

Lemma view_self v : wf v -> view v (m_size v) (bit_at (m_words v)).
Proof. by intros. Qed.

Lemma map_seqZ_ext {A} (f g : Z -> A) n : (forall i, 0 <= i < n -> f i = g i) ->
  map f (seqZ 0 n) = map g (seqZ 0 n).
Proof.
  intros H. apply map_ext_in. intros i Hi. apply list_elem_of_In, elem_of_seqZ in Hi. apply H. lia.
Qed.

Lemma map_seqZ_lookup {A} (f : Z -> A) n (l : list A) : Z.of_nat (length l) = n -> 0 <= n ->
  (forall i, 0 <= i < n -> l !! Z.to_nat i = Some (f i)) -> map f (seqZ 0 n) = l.
Proof.
  intros Hl Hn H. apply list_eq. intros i. destruct (decide (Z.of_nat i < n)).
  - rewrite list_lookup_fmap, lookup_seqZ_lt by lia. cbn.
    specialize (H (Z.of_nat i) ltac:(lia)). rewrite Nat2Z.id in H. by rewrite H, Z.add_0_l.
  - rewrite !(proj2 (lookup_ge_None _ _)); [done|lia|]. rewrite length_map, length_seqZ. lia.
Qed.

(** The precise effect of an in-place change of the words. *)
Lemma view_words v w f :
  wf v -> words w -> length w = length (m_words v) ->
  (forall i, 0 <= i < m_size v -> bit_at w i = f i) -> view (FVH w (m_size v) (m_hollow v)) (m_size v) f.
Proof.
  intros [Hw Hs] Hw' Hl Hf. split; [|done]. split; [done|]. unfold m_capacity in *. cbn. by rewrite Hl.
Qed.

(** ** Single bits *)

Lemma is1_ok v i : wf v -> 0 <= i < m_size v -> is1 v i = Ok (bit_at (m_words v) i).
Proof.
  intros [Hw Hs] Hi. unfold is1, m_capacity in *. rewrite (proj2 (Z.ltb_lt _ _)) by lia. cbn [assert_ rbind].
  apply terark_bit_test_ok; [done|lia].
Qed.

Lemma is0_ok v i : wf v -> 0 <= i < m_size v -> is0 v i = Ok (negb (bit_at (m_words v) i)).
Proof.
  intros Hv Hi. pose proof (is1_ok v i Hv Hi) as H. unfold is0, is1 in *.
  destruct (assert_ _); [|done..]. cbn [rbind] in *. by rewrite H.
Qed.

Lemma set_ok v i val : wf v -> 0 <= i < m_size v ->
  exists v', set v i val = Ok v' /\ length (m_words v') = length (m_words v) /\
    view v' (m_size v) (fun p => if p =? i then val else bit_at (m_words v) p).
Proof.
  intros Hv Hi. pose proof Hv as [Hw Hs]. unfold m_capacity in Hs.
  destruct (terark_bit_set_val_ok (m_words v) i val) as (w & E & L & W & B); [done|lia|].
  exists (FVH w (m_size v) (m_hollow v)). split; [|split; [done|]].
  - unfold set, set1, set0, terark_bit_set_val in *. rewrite (proj2 (Z.ltb_lt _ _)) by lia.
    cbn [assert_ rbind]. destruct val; by rewrite E.
  - apply view_words; [done..|]. intros p Hp. apply B. lia.
Qed.

Lemma beg_end_set_ok v beg end_ val : wf v -> 0 <= beg <= end_ -> beg <= m_size v ->
  end_ <= m_capacity v ->
  exists v', beg_end_set v beg end_ val = Ok v' /\ length (m_words v') = length (m_words v) /\
    view v' (m_size v) (fun p => if (beg <=? p) && (p <? end_) then val else bit_at (m_words v) p).
Proof.
  intros Hv Hb Hs He. pose proof Hv as [Hw _]. unfold beg_end_set.
  rewrite !(proj2 (Z.leb_le _ _)) by lia. cbn [assert_ rbind].
  destruct (bits_range_set_ok (m_words v) beg end_ val) as (w & -> & L & W & B); [done..|].
  eexists. split; [done|]. split; [done|]. apply view_words; [done..|]. intros p Hp. apply B. lia.
Qed.

Lemma set_range_ok v i nbits val : wf v -> 0 <= i < m_size v -> 0 <= nbits -> i + nbits <= m_capacity v ->
  exists v', set_range v i nbits val = Ok v' /\ length (m_words v') = length (m_words v) /\
    view v' (m_size v) (fun p => if (i <=? p) && (p <? i + nbits) then val else bit_at (m_words v) p).
Proof.
  intros Hv Hi Hn He. pose proof Hv as [Hw _]. unfold set_range.
  rewrite (proj2 (Z.ltb_lt _ _)), !(proj2 (Z.leb_le _ _)) by lia. cbn [assert_ rbind].
  destruct (bits_range_set_ok (m_words v) i (i + nbits) val) as (w & -> & L & W & B); [done|lia|done|].
  eexists. split; [done|]. split; [done|]. apply view_words; [done..|]. intros p Hp. apply B. lia.
Qed.

Lemma num_words_le v : wf v -> 0 <= num_words v <= Z.of_nat (length (m_words v)).
Proof.
  intros [_ Hs]. unfold num_words, m_capacity in *. split; [apply Z.div_pos; lia|].
  enough ((m_size v + 64 - 1) / 64 < Z.of_nat (length (m_words v)) + 1) by lia.
  apply Z.div_lt_upper_bound; lia.
Qed.

Lemma num_words_cover v i : 0 <= i < m_size v -> 0 <= i / 64 < num_words v.
Proof.
  intros Hi. unfold num_words. pose proof (Z.div_mod i 64). pose proof (mod64_range i).
  pose proof (Z.div_mod (m_size v + 64 - 1) 64). pose proof (mod64_range (m_size v + 64 - 1)). lia.
Qed.

Lemma fill_ok v val : wf v ->
  exists v', fill v val = Ok v' /\ length (m_words v') = length (m_words v) /\
    view v' (m_size v) (fun _ => val).
Proof.
  intros Hv. pose proof Hv as [Hw Hs]. pose proof (num_words_le v Hv). unfold fill.
  destruct (for_words_set (m_words v) 0 (num_words v) (if val then Z.ones 64 else 0) val)
    as (w & -> & L & W & B); [done|lia|lia| | |].
  { destruct val; [by apply word64_ones|unfold word64; lia]. }
  { intros m Hm. destruct val; [rewrite Z.testbit_ones_nonneg by lia; lia|apply Z.bits_0]. }
  eexists. split; [done|]. split; [done|]. apply view_words; [done..|]. intros p Hp.
  pose proof (num_words_cover v p Hp). pose proof (Z.div_mod p 64). pose proof (mod64_range p).
  rewrite B by lia. destruct (Z.leb_spec (64 * 0) p), (Z.ltb_spec p (64 * num_words v)); (done || lia).
Qed.

(** ** Counting *)

Lemma popcnt_words_ok ws a b : words ws -> 0 <= a <= b -> b <= Z.of_nat (length ws) ->
  for_ a b (fun i pc => let* w := rd ws i in Ok (pc + fast_popcount w)) 0 =
  Ok (rank (bit_at ws) (64 * b) - rank (bit_at ws) (64 * a)).
Proof.
  intros Hw Ha Hb.
  destruct (for_inv (fun i pc => pc = rank (bit_at ws) (64 * i) - rank (bit_at ws) (64 * a))
    (fun i pc => let* w := rd ws i in Ok (pc + fast_popcount w)) a b 0) as (s & -> & ->); [lia|lia| |done].
  intros i pc Hi ->. rewrite rd_word by lia. cbn [rbind]. eexists. split; [done|].
  rewrite rank_words by lia. lia.
Qed.

Lemma popcnt_ok v : wf v -> popcnt v = Ok (rank (bit_at (m_words v)) (m_size v)).
Proof.
  intros [Hw Hs]. unfold popcnt, m_capacity in *. destruct (Z.eqb_spec 0 (m_size v)) as [<-|]; [done|].
  pose proof (Z.div_mod (m_size v) 64). pose proof (mod64_range (m_size v)).
  rewrite popcnt_words_ok by (done || lia). cbn [rbind]. rewrite Z.mul_0_r, rank_0, Z.sub_0_r.
  destruct (Z.eqb_spec (m_size v mod 64) 0); cbn [negb].
  - do 2 f_equal. lia.
  - rewrite rd_word by lia. cbn [rbind]. f_equal. symmetry. apply rank_trail; [lia|done].
Qed.

Lemma popcnt_blocks_ok v a n : wf v -> 0 <= a -> 0 <= n -> a + n <= num_words v ->
  popcnt_blocks v a n =
  Ok (rank (bit_at (m_words v)) (64 * (a + n)) - rank (bit_at (m_words v)) (64 * a)).
Proof.
  intros Hv Ha Hn Hle. pose proof (num_words_le v Hv). unfold popcnt_blocks.
  rewrite !(proj2 (Z.leb_le _ _)) by lia. cbn [assert_ rbind].
  apply popcnt_words_ok; [apply Hv|lia|lia].
Qed.

Lemma bit_at_word ws q m : 0 <= m < 64 -> bit_at ws (64 * q + m) = Z.testbit (word_at ws q) m.
Proof.
  intros Hm. unfold bit_at. replace (64 * q + m) with (m + 64 * q) by lia.
  by rewrite div_add_mul, mod_add_mul, Z.div_small, Z.mod_small, Z.add_0_l by lia.
Qed.

Lemma bit_at_split ws p : 0 <= p -> bit_at ws p = Z.testbit (word_at ws (p / 64)) (p mod 64).
Proof. done. Qed.

(** [inv val w] marks the bits that differ from [val]. *)
Lemma testbit_inv val w m : 0 <= m < 64 -> Z.testbit (inv val w) m = negb (eqb (Z.testbit w m) val).
Proof.
  intros Hm. destruct val; cbn [inv].
  - rewrite testbit_not64 by lia. destruct (Z.ltb_spec m 64); [|lia]. by destruct (Z.testbit w m).
  - by destruct (Z.testbit w m).
Qed.

Lemma word64_inv val w : word64 w -> word64 (inv val w).
Proof. destruct val; cbn [inv]; auto with word64. Qed.

#[local] Hint Resolve word64_inv : word64.

Lemma inv_testbit_false val w m : 0 <= m < 64 -> Z.testbit (inv val w) m = false -> Z.testbit w m = val.
Proof. intros Hm. rewrite testbit_inv by done. by destruct (Z.testbit w m), val. Qed.

Lemma inv_testbit_true val w m : 0 <= m < 64 -> Z.testbit (inv val w) m = true -> Z.testbit w m = negb val.
Proof. intros Hm. rewrite testbit_inv by done. by destruct (Z.testbit w m), val. Qed.

Lemma isall_ok v val : wf v -> 0 < m_size v -> exists b, isall v val = Ok b /\
  (b = true <-> forall i, 0 <= i < m_size v -> bit_at (m_words v) i = val).
Proof.
  intros [Hw Hs] Hp. unfold isall, m_capacity in *. rewrite (proj2 (Z.ltb_lt _ _)) by lia. cbn [assert_ rbind].
  set (n := m_size v / 64). pose proof (Z.div_mod (m_size v) 64) as D. fold n in D.
  pose proof (mod64_range (m_size v)) as M.
  assert (Hn : 0 <= n) by (apply Z.div_pos; lia).
  set (F i := forall p, 0 <= p < i -> bit_at (m_words v) p = val).
  assert (Hall : forall w, word64 w -> (if val then w =? Z.ones 64 else w =? 0) = true <->
                    forall m, 0 <= m < 64 -> Z.testbit w m = val).
  { intros w H. split.
    - destruct val; intros ->%Z.eqb_eq m Hm; [rewrite Z.testbit_ones_nonneg by lia; lia|apply Z.bits_0].
    - intros Hb. destruct val; apply Z.eqb_eq; [apply word64_eq; [done|by apply word64_ones|]|by apply word64_zero].
      intros i Hi. rewrite Hb, Z.testbit_ones_nonneg by lia. lia. }
  match goal with |- context [for_ 0 n ?body true] =>
    destruct (for_inv (fun i acc => acc = true <-> F (64 * i)) body 0 n true) as (acc & -> & Hacc) end.
  { lia. }
  { split; [|done]. intros _ p Hp0. lia. }
  { intros i acc Hi Hacc. destruct acc.
    - rewrite rd_word by lia. cbn [rbind]. eexists. split; [done|].
      rewrite Hall by auto with word64. assert (F (64 * i)) as HF by (by apply Hacc). split.
      + intros Hb p Hp0. destruct (Z.lt_ge_cases p (64 * i)); [apply HF; lia|].
        replace p with (64 * i + (p - 64 * i)) by lia. rewrite bit_at_word by lia. apply Hb. lia.
      + intros HF' m Hm. rewrite <- bit_at_word by done. apply HF'. lia.
    - eexists. split; [done|]. split; [done|]. intros HF'. apply Hacc. intros p Hp0. apply HF'. lia. }
  cbn [rbind]. destruct acc; cbn [negb].
  2: { eexists. split; [done|]. split; [done|]. intros HF. apply Hacc. intros p Hp0. apply HF. lia. }
  assert (HF : F (64 * n)) by (by apply Hacc).
  destruct (Z.eqb_spec (m_size v mod 64) 0) as [E|E].
  { eexists. split; [done|]. split; [|done]. intros _ i Hi. apply HF. lia. }
  rewrite rd_word by lia. cbn [rbind]. eexists. split; [done|].
  set (w := word_at (m_words v) n). set (r := m_size v mod 64) in *.
  assert (Ho : shl64 1 r - 1 = Z.ones r).
  { unfold shl64. rewrite u64_small, Z.shiftl_1_l, Z.ones_equiv; [lia|].
    rewrite Z.shiftl_1_l. split; [lia|]. apply Z.pow_lt_mono_r; lia. }
  rewrite Ho. transitivity (forall m, 0 <= m < r -> Z.testbit w m = val).
  - assert (Hb : forall m, 0 <= m -> Z.testbit (Z.land w (Z.ones r)) m = Z.testbit w m && (m <? r)).
    { intros m Hm. rewrite Z.land_spec, Z.testbit_ones_nonneg by lia. done. }
    destruct val; rewrite Z.eqb_eq; split.
    + intros El m Hm. specialize (Hb m ltac:(lia)). rewrite El, Z.testbit_ones_nonneg in Hb by lia.
      destruct (Z.testbit w m); [done|]. cbn in Hb. lia.
    + intros HA. apply Z.bits_inj'. intros m Hm. rewrite Hb, Z.testbit_ones_nonneg by lia.
      destruct (Z.ltb_spec m r); [by rewrite HA by lia|by rewrite andb_false_r].
    + intros El m Hm. specialize (Hb m ltac:(lia)). rewrite El, Z.bits_0 in Hb.
      destruct (Z.testbit w m); [cbn in Hb; lia|done].
    + intros HA. apply Z.bits_inj'. intros m Hm. rewrite Hb, Z.bits_0 by lia.
      destruct (Z.ltb_spec m r); [by rewrite HA by lia|by rewrite andb_false_r].
  - split.
    + intros HA i Hi. destruct (Z.lt_ge_cases i (64 * n)); [apply HF; lia|].
      replace i with (64 * n + (i - 64 * n)) by lia. rewrite bit_at_word by lia. apply HA. lia.
    + intros HA m Hm. subst w. rewrite <- bit_at_word by lia. apply HA. lia.
Qed.

(** ** Runs *)

Lemma scan_fwd_ok ws val len j sum s :
  words ws -> 0 <= s -> s <= 64 * j -> sum = 64 * j - s -> 0 <= j <= len ->
  (forall i, s <= i < 64 * j -> bit_at ws i = val) ->
  (forall q, j <= q < len -> (forall i, s <= i < 64 * q -> bit_at ws i = val) -> q < Z.of_nat (length ws)) ->
  exists n, scan_fwd ws val len j sum = Ok n /\ is_run (bit_at ws) val s (64 * len) n.
Proof.
  intros Hw Hs Hsj -> Hj Hrun Hin. unfold scan_fwd.
  apply (loop_inv (fun '(q, sum) => j <= q <= len /\ sum = 64 * q - s /\
      forall i, s <= i < 64 * q -> bit_at ws i = val) (fun '(q, _) => len - q)).
  { split; [lia|done]. }
  { lia. }
  intros [q sum] (Hq & -> & Hr). split; [lia|]. destruct (Z.ltb_spec q len) as [L|L].
  2: { right. eexists. split; [done|]. assert (q = len) as -> by lia. repeat split; try lia.
       intros i Hi. apply Hr. lia. }
  specialize (Hin q ltac:(lia) Hr). rewrite rd_word by lia. cbn [rbind].
  assert (Hwq : word64 (inv val (word_at ws q))) by auto with word64.
  destruct (Z.eqb_spec 0 (inv val (word_at ws q))) as [E|E].
  - left. eexists. split; [done|]. cbn beta iota. split; [|lia]. split; [lia|]. split; [lia|].
    intros i Hi. destruct (Z.lt_ge_cases i (64 * q)); [apply Hr; lia|].
    replace i with (64 * q + (i - 64 * q)) by lia. rewrite bit_at_word by lia.
    apply inv_testbit_false; [lia|]. rewrite <- E. apply Z.bits_0.
  - right. destruct (fast_ctz_spec _ Hwq ltac:(congruence)) as (c & -> & Hc & E1 & E2). cbn [rbind].
    eexists. split; [done|]. repeat split; try lia.
    + intros i Hi. destruct (Z.lt_ge_cases i (64 * q)); [apply Hr; lia|].
      replace i with (64 * q + (i - 64 * q)) by lia. rewrite bit_at_word by lia.
      apply inv_testbit_false; [lia|]. apply E2. lia.
    + intros _. replace (s + (64 * q - s + c)) with (64 * q + c) by lia. rewrite bit_at_word by done.
      by apply inv_testbit_true.
Qed.

Lemma scan_back_ok ws val j sum e :
  words ws -> 64 * j <= e -> sum = e - 64 * j -> 0 <= j <= Z.of_nat (length ws) ->
  (forall i, 64 * j <= i < e -> bit_at ws i = val) ->
  exists n, scan_back ws val j sum = Ok n /\ is_revrun (bit_at ws) val e n.
Proof.
  intros Hw Hje -> Hj Hrun. unfold scan_back.
  apply (loop_inv (fun '(q, sum) => 0 <= q <= j /\ sum = e - 64 * q /\
      forall i, 64 * q <= i < e -> bit_at ws i = val) (fun '(q, _) => q)).
  { split; [lia|done]. }
  { lia. }
  intros [q sum] (Hq & -> & Hr). split; [lia|]. destruct (Z.ltb_spec 0 q) as [L|L].
  2: { right. eexists. split; [done|]. assert (q = 0) as -> by lia. repeat split; try lia.
       intros i Hi. apply Hr. lia. }
  rewrite rd_word by lia. cbn [rbind].
  assert (Hwq : word64 (inv val (word_at ws (q - 1)))) by auto with word64.
  destruct (Z.eqb_spec 0 (inv val (word_at ws (q - 1)))) as [E|E].
  - left. eexists. split; [done|]. cbn beta iota. split; [|lia]. split; [lia|]. split; [lia|].
    intros i Hi. destruct (Z.lt_ge_cases i (64 * q)); [|apply Hr; lia].
    replace i with (64 * (q - 1) + (i - 64 * (q - 1))) by lia. rewrite bit_at_word by lia.
    apply inv_testbit_false; [lia|]. rewrite <- E. apply Z.bits_0.
  - right. destruct (fast_clz_spec _ Hwq ltac:(congruence)) as (c & -> & Hc & E1 & E2). cbn [rbind].
    eexists. split; [done|]. repeat split; try lia.
    + intros i Hi. destruct (Z.lt_ge_cases i (64 * q)); [|apply Hr; lia].
      replace i with (64 * (q - 1) + (63 - (64 * q - 1 - i))) by lia. rewrite bit_at_word by lia.
      apply inv_testbit_false; [lia|]. apply E2. lia.
    + intros _. replace (e - (e - 64 * q + c) - 1) with (64 * (q - 1) + (63 - c)) by lia.
      rewrite bit_at_word by lia. apply inv_testbit_true; [lia|done].
Qed.

(** The first, partial word of a forward scan. *)
Lemma land_bit_eq0 x n : 0 <= n < 64 -> (Z.land x (shl64 1 n) =? 0) = negb (Z.testbit x n).
Proof.
  intros Hn. rewrite <- land_shl1_testbit, negb_involutive by lia. unfold shl64.
  rewrite u64_small; [done|]. rewrite Z.shiftl_1_l. split; [lia|]. apply Z.pow_lt_mono_r; lia.
Qed.

Lemma head_ones x off : word64 x -> 0 < off < 64 -> Z.testbit x off = true ->
  exists c, fast_ctz (not64 (Z.shiftr x off)) = Ok c /\ 0 <= c <= 64 - off /\
    (forall m, off <= m < off + c -> Z.testbit x m = true) /\
    (c < 64 - off -> Z.testbit x (off + c) = false).
Proof.
  intros Hx Ho Hb.
  assert (Hy : forall m, 0 <= m < 64 -> Z.testbit (not64 (Z.shiftr x off)) m =
      negb (Z.testbit x (m + off))).
  { intros m Hm. rewrite testbit_not64, testbit_shr by lia. destruct (Z.ltb_spec m 64); [done|lia]. }
  assert (Hend : Z.testbit (not64 (Z.shiftr x off)) (64 - off) = true).
  { rewrite Hy by lia. rewrite testbit_word64_high; [done|done|lia]. }
  destruct (fast_ctz_spec (not64 (Z.shiftr x off))) as (c & E & Hc & E1 & E2).
  { auto with word64. }
  { intros E0. rewrite E0, Z.bits_0 in Hend. done. }
  exists c. split; [done|].
  assert (c <= 64 - off).
  { destruct (Z.lt_ge_cases (64 - off) c) as [L|]; [|lia]. rewrite E2 in Hend by lia. done. }
  split; [lia|]. split.
  - intros m Hm. specialize (E2 (m - off) ltac:(lia)). rewrite Hy in E2 by lia.
    replace (m - off + off) with m in E2 by lia. by destruct (Z.testbit x m).
  - intros Hlt. rewrite Hy in E1 by lia. replace (off + c) with (c + off) by lia.
    by destruct (Z.testbit x (c + off)).
Qed.

Lemma head_zeros x off : word64 x -> 0 < off < 64 ->
  (Z.shiftr x off = 0 /\ (forall m, off <= m < 64 -> Z.testbit x m = false)) \/
  (Z.shiftr x off <> 0 /\ exists c, fast_ctz (Z.shiftr x off) = Ok c /\ 0 <= c < 64 - off /\
    (forall m, off <= m < off + c -> Z.testbit x m = false) /\ Z.testbit x (off + c) = true).
Proof.
  intros Hx Ho.
  assert (Hy : forall m, 0 <= m -> Z.testbit (Z.shiftr x off) m = Z.testbit x (m + off)).
  { intros m Hm. by rewrite testbit_shr by lia. }
  destruct (decide (Z.shiftr x off = 0)) as [E0|E0]; [left|right]; (split; [done|]).
  - intros m Hm. replace m with (m - off + off) by lia. rewrite <- Hy, E0 by lia. apply Z.bits_0.
  - destruct (fast_ctz_spec (Z.shiftr x off)) as (c & E & Hc & E1 & E2);
      [apply word64_shr; [done|lia]|done|].
    exists c. split; [done|]. rewrite Hy in E1 by lia.
    assert (c < 64 - off).
    { destruct (Z.lt_ge_cases c (64 - off)); [done|]. rewrite testbit_word64_high in E1; [done|done|lia]. }
    split; [lia|]. split; [|by replace (off + c) with (c + off) by lia].
    intros m Hm. replace m with (m - off + off) by lia. rewrite <- Hy by lia. apply E2. lia.
Qed.

(** The two forward functions, with [len] words to scan. *)
Definition run_from (ws : list Z) (val : bool) (len s : Z) (r : res Z) : Prop :=
  exists n, r = Ok n /\ is_run (bit_at ws) val s (64 * len) n.

Lemma run_from_head ws val len s c q off :
  s = 64 * q + off -> 0 <= off -> 0 <= c -> off + c < 64 -> q < len ->
  (forall m, off <= m < off + c -> Z.testbit (word_at ws q) m = val) ->
  Z.testbit (word_at ws q) (off + c) = negb val ->
  run_from ws val len s (Ok c).
Proof.
  intros -> Ho Hc Hlt Hq H1 H2. exists c. split; [done|]. repeat split; try lia.
  - intros i Hi. replace i with (64 * q + (i - 64 * q)) by lia. rewrite bit_at_word by lia. apply H1. lia.
  - intros _. replace (64 * q + off + c) with (64 * q + (off + c)) by lia. by rewrite bit_at_word by lia.
Qed.

Lemma one_seq_len_run ws len s : words ws -> 0 <= s -> s / 64 < len -> s / 64 < Z.of_nat (length ws) ->
  (forall q, 0 <= q < len -> (forall i, s <= i < 64 * q -> bit_at ws i = true) -> q < Z.of_nat (length ws)) ->
  run_from ws true len s
   (if negb (s mod 64 =? 0) then
      let* x := rd ws (s / 64) in
      if Z.land x (shl64 1 (s mod 64)) =? 0 then Ok 0 else
      let y := not64 (Z.shiftr x (s mod 64)) in
      let* ctz := fast_ctz y in
      if ctz <? 64 - s mod 64 then Ok ctz else
      let* _ := assert_ (ctz =? 64 - s mod 64) in
      scan_fwd ws true len (s / 64 + 1) ctz
    else scan_fwd ws true len (s / 64) 0).
Proof.
  intros Hw Hs Hlen Hin Hq. pose proof (Z.div_mod s 64 ltac:(lia)) as D. pose proof (mod64_range s).
  assert (0 <= s / 64) by (apply Z.div_pos; lia).
  destruct (Z.eqb_spec (s mod 64) 0) as [E0|E0]; cbn [negb].
  { apply scan_fwd_ok; try done; try lia. intros q Hql. apply Hq. lia. }
  rewrite rd_word by lia. cbn [rbind]. rewrite land_bit_eq0 by done.
  set (x := word_at ws (s / 64)). assert (Hx : word64 x) by (subst x; auto with word64).
  destruct (Z.testbit x (s mod 64)) eqn:Eb; cbn [negb].
  2: { apply (run_from_head ws true len s 0 (s / 64) (s mod 64)); try done; try lia.
       by rewrite Z.add_0_r. }
  destruct (head_ones x (s mod 64) Hx ltac:(lia) Eb) as (c & -> & Hc & H1 & H2). cbn zeta. cbn [rbind].
  destruct (Z.ltb_spec c (64 - s mod 64)).
  { apply (run_from_head ws true len s c (s / 64) (s mod 64)); try done; try lia. by apply H2. }
  rewrite (proj2 (Z.eqb_eq c _)) by lia. cbn [assert_ rbind].
  apply scan_fwd_ok; try done; try lia.
  - intros i Hi. replace i with (64 * (s / 64) + (i - 64 * (s / 64))) by lia.
    rewrite bit_at_word by lia. apply H1. lia.
  - intros q Hql. apply Hq. lia.
Qed.

Lemma one_seq_len_ok v p : wf v -> 0 <= p < m_size v ->
  run_from (m_words v) true (num_words v) p (one_seq_len v p).
Proof.
  intros Hv Hp. pose proof (num_words_cover v p Hp). pose proof (num_words_le v Hv).
  unfold one_seq_len. rewrite (proj2 (Z.ltb_lt _ _)) by lia. cbn [assert_ rbind].
  apply one_seq_len_run; [apply Hv|lia|lia|lia|]. intros q Hq _. lia.
Qed.

(** The unbounded variant needs a zero after the run, inside the array. *)
Lemma fast_one_seq_len_ok ws p z : words ws -> 0 <= p <= z -> z < 64 * Z.of_nat (length ws) ->
  bit_at ws z = false -> exists n, fast_one_seq_len ws p = Ok n /\ p + n <= z /\
    (forall i, p <= i < p + n -> bit_at ws i = true) /\ bit_at ws (p + n) = false.
Proof.
  intros Hw Hp Hz Hb. pose proof (Z.div_mod p 64). pose proof (mod64_range p).
  assert (p / 64 < Z.of_nat (length ws)) by (apply Z.div_lt_upper_bound; lia).
  destruct (one_seq_len_run ws (Z.of_nat (length ws) + 1) p) as (n & E & R0 & R1 & H2 & H3);
    [done|lia|lia|lia| |].
  { intros q Hq Hrun. destruct (Z.lt_ge_cases q (Z.of_nat (length ws))) as [|L]; [done|].
    rewrite Hrun in Hb by lia. done. }
  exists n. split; [exact E|].
  assert (Hnz : p + n <= z).
  { destruct (Z.lt_ge_cases z (p + n)); [|lia]. rewrite H2 in Hb by lia. done. }
  split; [done|]. split; [done|]. apply H3. lia.
Qed.

Lemma zero_seq_len_ok v p : wf v -> 0 <= p < m_size v ->
  run_from (m_words v) false (num_words v) p (zero_seq_len v p).
Proof.
  intros Hv Hp. pose proof (num_words_cover v p Hp). pose proof (num_words_le v Hv).
  pose proof Hv as [Hw _]. pose proof (Z.div_mod p 64 ltac:(lia)) as D. pose proof (mod64_range p).
  unfold zero_seq_len. rewrite (proj2 (Z.ltb_lt _ _)) by lia. cbn [assert_ rbind].
  set (ws := m_words v) in *.
  destruct (Z.eqb_spec (p mod 64) 0) as [E0|E0]; cbn [negb].
  { apply scan_fwd_ok; try done; try lia. }
  rewrite rd_word by lia. cbn [rbind]. rewrite land_bit_eq0, negb_involutive by done.
  set (x := word_at ws (p / 64)). assert (Hx : word64 x) by (subst x; auto with word64).
  destruct (Z.testbit x (p mod 64)) eqn:Eb.
  { apply (run_from_head ws false _ p 0 (p / 64) (p mod 64)); try done; try lia. by rewrite Z.add_0_r. }
  destruct (head_zeros x (p mod 64) Hx ltac:(lia)) as [[E1 Hz]|(E1 & c & E2 & Hc & Hz & Hn)].
  - rewrite E1, Z.eqb_refl. cbn [negb]. apply scan_fwd_ok; try done; try lia.
    intros i Hi. replace i with (64 * (p / 64) + (i - 64 * (p / 64))) by lia.
    rewrite bit_at_word by lia. apply Hz. lia.
  - rewrite (proj2 (Z.eqb_neq _ _) E1). cbn [negb]. rewrite E2.
    apply (run_from_head ws false _ p c (p / 64) (p mod 64)); try done; lia.
Qed.

(** The last, partial word of a backward scan: bit [63 - j] of the shifted word
    is bit [r - 1 - j]. *)
Lemma testbit_top x r j : 0 < r < 64 -> 0 <= j < 64 ->
  Z.testbit (shl64 x (64 - r)) (63 - j) = (j <? r) && Z.testbit x (r - 1 - j).
Proof.
  intros Hr Hj. rewrite testbit_shl64 by lia. replace (63 - j - (64 - r)) with (r - 1 - j) by lia.
  destruct (Z.ltb_spec (63 - j) 64), (Z.leb_spec (64 - r) (63 - j)), (Z.ltb_spec j r); try lia; done.
Qed.

Definition revrun_to (ws : list Z) (val : bool) (e : Z) (r : res Z) : Prop :=
  exists n, r = Ok n /\ is_revrun (bit_at ws) val e n.

Lemma revrun_to_head ws val e c q r :
  e = 64 * q + r -> 0 <= q -> 0 <= c < r -> r < 64 ->
  (forall m, r - c <= m < r -> Z.testbit (word_at ws q) m = val) ->
  Z.testbit (word_at ws q) (r - 1 - c) = negb val -> revrun_to ws val e (Ok c).
Proof.
  intros -> Hq Hc Hr H1 H2. exists c. split; [done|]. repeat split; try lia.
  - intros i Hi. replace i with (64 * q + (i - 64 * q)) by lia. rewrite bit_at_word by lia. apply H1. lia.
  - intros _. replace (64 * q + r - c - 1) with (64 * q + (r - 1 - c)) by lia. by rewrite bit_at_word by lia.
Qed.

Lemma one_seq_revlen_ok v e : wf v -> 0 <= e <= m_size v ->
  revrun_to (m_words v) true e (one_seq_revlen v e).
Proof.
  intros [Hw Hs] He. unfold m_capacity in Hs. unfold one_seq_revlen.
  rewrite (proj2 (Z.leb_le e _)) by lia. cbn [assert_ rbind]. set (ws := m_words v) in *.
  pose proof (Z.div_mod e 64 ltac:(lia)) as D. pose proof (mod64_range e) as M.
  assert (0 <= e / 64) by (apply Z.div_pos; lia).
  destruct (Z.eqb_spec (e mod 64) 0) as [E0|E0]; cbn [negb].
  { apply scan_back_ok; try done; lia. }
  pose proof (Z.div_mod (e - 1) 64 ltac:(lia)). pose proof (mod64_range (e - 1)).
  assert (Eq : (e - 1) / 64 = e / 64) by lia. assert (Em : (e - 1) mod 64 = e mod 64 - 1) by lia.
  rewrite Eq, Em. rewrite rd_word by lia. cbn [rbind]. rewrite land_bit_eq0 by lia.
  set (x := word_at ws (e / 64)). assert (Hx : word64 x) by (subst x; auto with word64).
  set (r := e mod 64) in *.
  destruct (Z.testbit x (r - 1)) eqn:Eb; cbn [negb].
  2: { apply (revrun_to_head ws true e 0 (e / 64) r); try done; try lia. by rewrite Z.sub_0_r. }
  assert (Hy : forall j, 0 <= j < 64 -> Z.testbit (not64 (shl64 x (64 - r))) (63 - j) =
      negb ((j <? r) && Z.testbit x (r - 1 - j))).
  { intros j Hj. rewrite testbit_not64, testbit_top by lia. destruct (Z.ltb_spec (63 - j) 64); [done|lia]. }
  assert (Hend : Z.testbit (not64 (shl64 x (64 - r))) (63 - r) = true).
  { rewrite Hy by lia. by rewrite Z.ltb_irrefl. }
  destruct (fast_clz_spec (not64 (shl64 x (64 - r)))) as (c & -> & Hc & E1 & E2).
  { auto with word64. }
  { intros E. rewrite E, Z.bits_0 in Hend. done. }
  cbn zeta. cbn [rbind].
  assert (Hcr : c <= r).
  { destruct (Z.lt_ge_cases r c); [|done]. rewrite E2 in Hend by lia. done. }
  assert (Hc1 : 1 <= c).
  { destruct (Z.lt_ge_cases c 1); [|done]. assert (c = 0) as -> by lia. rewrite Hy in E1 by lia.
    rewrite Z.sub_0_r, Eb in E1. destruct (Z.ltb_spec 0 r); (done || lia). }
  assert (Hrun : forall m, r - c <= m < r -> Z.testbit x m = true).
  { intros m Hm. specialize (E2 (r - 1 - m) ltac:(lia)). rewrite Hy in E2 by lia.
    replace (r - 1 - (r - 1 - m)) with m in E2 by lia. destruct (Z.testbit x m); [done|].
    by rewrite andb_false_r in E2. }
  rewrite !(proj2 (Z.leb_le _ _)) by lia. cbn [assert_ rbind].
  destruct (Z.ltb_spec c r).
  - apply (revrun_to_head ws true e c (e / 64) r); try done; try lia.
    rewrite Hy in E1 by lia. destruct (Z.ltb_spec c r); [|lia]. cbn [andb] in E1.
    fold x. by destruct (Z.testbit x (r - 1 - c)).
  - apply scan_back_ok; try done; try lia.
    intros i Hi. replace i with (64 * (e / 64) + (i - 64 * (e / 64))) by lia.
    rewrite bit_at_word by lia. apply Hrun. lia.
Qed.

Lemma zero_seq_revlen_ok v e : wf v -> 0 <= e <= m_size v ->
  revrun_to (m_words v) false e (zero_seq_revlen v e).
Proof.
  intros [Hw Hs] He. unfold m_capacity in Hs. unfold zero_seq_revlen.
  rewrite (proj2 (Z.leb_le e _)) by lia. cbn [assert_ rbind]. set (ws := m_words v) in *.
  pose proof (Z.div_mod e 64 ltac:(lia)) as D. pose proof (mod64_range e) as M.
  assert (0 <= e / 64) by (apply Z.div_pos; lia).
  destruct (Z.eqb_spec (e mod 64) 0) as [E0|E0]; cbn [negb].
  { apply scan_back_ok; try done; lia. }
  pose proof (Z.div_mod (e - 1) 64 ltac:(lia)). pose proof (mod64_range (e - 1)).
  assert (Eq : (e - 1) / 64 = e / 64) by lia. assert (Em : (e - 1) mod 64 = e mod 64 - 1) by lia.
  rewrite Eq, Em. rewrite rd_word by lia. cbn [rbind]. rewrite land_bit_eq0, negb_involutive by lia.
  set (x := word_at ws (e / 64)). set (r := e mod 64) in *.
  destruct (Z.testbit x (r - 1)) eqn:Eb.
  { apply (revrun_to_head ws false e 0 (e / 64) r); try done; try lia. by rewrite Z.sub_0_r. }
  pose proof (fun j => testbit_top x r j ltac:(lia)) as Hy.
  destruct (Z.eqb_spec (shl64 x (64 - r)) 0) as [E|E]; cbn [negb].
  - apply scan_back_ok; try done; try lia.
    intros i Hi. replace i with (64 * (e / 64) + (i - 64 * (e / 64))) by lia.
    rewrite bit_at_word by lia. set (m := i - 64 * (e / 64)).
    specialize (Hy (r - 1 - m) ltac:(lia)). rewrite E, Z.bits_0 in Hy.
    replace (r - 1 - (r - 1 - m)) with m in Hy by lia.
    destruct (Z.ltb_spec (r - 1 - m) r); [done|lia].
  - destruct (fast_clz_spec (shl64 x (64 - r))) as (c & -> & Hc & E1 & E2); [auto with word64|done|].
    rewrite Hy in E1 by lia. destruct (Z.ltb_spec c r); [|done].
    apply (revrun_to_head ws false e c (e / 64) r); try done; try lia.
    intros m Hm. specialize (E2 (r - 1 - m) ltac:(lia)). rewrite Hy in E2 by lia.
    replace (r - 1 - (r - 1 - m)) with m in E2 by lia.
    destruct (Z.ltb_spec (r - 1 - m) r); [done|lia].
Qed.

(** ** Unsigned integers of any width *)

Definition uint_mask (width : Z) : Z := if width <? 64 then not64 (shl64 (Z.ones 64) width) else Z.ones 64.

Lemma testbit_uint_mask width m : 0 <= width -> 0 <= m < 64 -> Z.testbit (uint_mask width) m = (m <? width).
Proof.
  intros Hw Hm. unfold uint_mask. destruct (Z.ltb_spec width 64).
  - fold (m1_shl width). rewrite testbit_not64, testbit_m1_shl by lia. lia.
  - rewrite Z.testbit_ones_nonneg by lia. lia.
Qed.

Lemma bit_at_next ws q m : 64 <= m < 128 -> bit_at ws (64 * q + m) = Z.testbit (word_at ws (q + 1)) (m - 64).
Proof. intros Hm. replace (64 * q + m) with (64 * (q + 1) + (m - 64)) by lia. apply bit_at_word. lia. Qed.

(** [r] holds the [width] bits at [p]. *)
Definition uint_at (ws : list Z) (p width r : Z) : Prop :=
  word64 r /\ forall m, 0 <= m < 64 -> Z.testbit r m = (m <? width) && bit_at ws (p + m).

Lemma s_get_uint_ok ws p width : words ws -> 0 <= p -> 0 <= width <= 64 ->
  p < 64 * Z.of_nat (length ws) -> p + width <= 64 * Z.of_nat (length ws) ->
  exists r, s_get_uint ws p width = Ok r /\ uint_at ws p width r.
Proof.
  intros Hws Hp Hw H1 H2. unfold s_get_uint. rewrite (proj2 (Z.leb_le _ _)) by lia. cbn [assert_ rbind].
  fold (uint_mask width). pose proof (Z.div_mod p 64 ltac:(lia)) as D. pose proof (mod64_range p) as M.
  pose proof (div64_lt p _ (conj Hp H1)) as Hq. set (q := p / 64) in *. set (off := p mod 64) in *.
  rewrite rd_word by lia. cbn [rbind].
  assert (Hb : forall m, 0 <= m < 64 - off -> Z.testbit (word_at ws q) (m + off) = bit_at ws (p + m)).
  { intros m Hm. rewrite D, <- bit_at_word by lia. f_equal. lia. }
  assert (Hz : forall m, 64 - off <= m -> Z.testbit (word_at ws q) (m + off) = false).
  { intros m Hm. apply testbit_word64_high; [auto with word64|lia]. }
  assert (W : word64 (uint_mask width)).
  { unfold uint_mask. case_match; auto with word64. by apply word64_ones. }
  destruct (Z.leb_spec (off + width) 64) as [L|L].
  - eexists. split; [done|]. split.
    { apply word64_land; [done|]. apply Z.shiftr_nonneg. auto with word64. }
    intros m Hm. rewrite Z.land_spec, testbit_uint_mask, testbit_shr by lia.
    destruct (Z.ltb_spec m width); [|done]. by rewrite Hb by lia.
  - rewrite rd_word by lia. cbn [rbind]. eexists. split; [done|]. split.
    { apply word64_land; [done|]. apply Z.lor_nonneg. split; [apply Z.shiftr_nonneg|]; auto with word64. }
    intros m Hm. rewrite Z.land_spec, testbit_uint_mask, Z.lor_spec, testbit_shr, testbit_shl64 by lia.
    destruct (Z.ltb_spec m width); [|done]. destruct (Z.ltb_spec m 64); [|lia]. cbn [andb].
    destruct (Z.leb_spec (64 - off) m).
    + rewrite Hz by lia. cbn [orb andb]. replace (p + m) with (64 * q + (off + m)) by lia.
      rewrite bit_at_next by lia. f_equal. lia.
    + rewrite Hb by lia. by rewrite orb_false_r.
Qed.

(** [a'] is [a] with bit [p] of [i, k) replaced by [f p]. *)
Definition range_put (a a' : list Z) (i k : Z) (f : Z -> bool) : Prop :=
  length a' = length a /\ words a' /\
  forall p, 0 <= p -> bit_at a' p = if (i <=? p) && (p <? k) then f p else bit_at a p.

Lemma range_put_trans a b c i j k f : i <= j <= k ->
  range_put a b i j f -> range_put b c j k f -> range_put a c i k f.
Proof.
  intros Hj (L1 & W1 & B1) (L2 & W2 & B2). split; [congruence|]. split; [done|].
  intros p Hp. rewrite B2, B1 by done.
  destruct (Z.leb_spec j p), (Z.ltb_spec p k), (Z.leb_spec i p), (Z.ltb_spec p j); try lia; done.
Qed.

Lemma range_put_word a j w i k f :
  words a -> 0 <= j < Z.of_nat (length a) -> word64 w -> 64 * j <= i -> k <= 64 * (j + 1) ->
  (forall m, 0 <= m < 64 -> Z.testbit w m =
     if (i <=? 64 * j + m) && (64 * j + m <? k) then f (64 * j + m) else Z.testbit (word_at a j) m) ->
  range_put a (<[Z.to_nat j := w]> a) i k f.
Proof.
  intros Ha Hj Hw Hi Hk Hb. split; [apply length_insert|]. split; [by apply words_insert|].
  intros p Hp. rewrite bit_at_insert by done. pose proof (Z.div_mod p 64). pose proof (mod64_range p).
  destruct (Z.eqb_spec (p / 64) j) as [E|].
  - rewrite Hb by done. replace (64 * j + p mod 64) with p by lia. unfold bit_at. by rewrite E.
  - destruct (Z.leb_spec i p), (Z.ltb_spec p k); try done. nia.
Qed.

Lemma uint_at_unique ws p width r val : uint_at ws p width r -> word64 val -> Z.shiftr val width = 0 ->
  0 <= width -> (forall m, 0 <= m < width -> bit_at ws (p + m) = Z.testbit val m) -> r = val.
Proof.
  intros [Wr Hr] Wv Hv Hw Hb. apply word64_eq; [done..|]. intros m Hm. rewrite Hr by done.
  destruct (Z.ltb_spec m width); [by rewrite Hb by lia|]. cbn [andb].
  replace m with (m - width + width) by lia. rewrite <- testbit_shr, Hv by lia. symmetry. apply Z.bits_0.
Qed.

(** The stores of [s_set_uint]: inside one word, or split over two. *)
Lemma testbit_shl_in val off m : word64 val -> 0 <= off -> 0 <= m < 64 ->
  Z.testbit (shl64 val off) m = (off <=? m) && Z.testbit val (m - off).
Proof. intros. rewrite testbit_shl64 by lia. destruct (Z.ltb_spec m 64); [done|lia]. Qed.

Lemma testbit_above val width m : 0 <= width <= m -> Z.shiftr val width = 0 -> Z.testbit val m = false.
Proof.
  intros Hm Hv. replace m with (m - width + width) by lia. rewrite <- testbit_shr, Hv by lia. apply Z.bits_0.
Qed.

Lemma put_within ws q off width val : words ws -> word64 val -> 0 <= width -> Z.shiftr val width = 0 ->
  0 <= q < Z.of_nat (length ws) -> 0 <= off -> off + width < 64 ->
  let w := word_at ws q in
  range_put ws (<[Z.to_nat q :=
      Z.lor (Z.land w (Z.lor (not64 (m1_shl off)) (m1_shl (off + width)))) (shl64 val off)]> ws)
    (64 * q + off) (64 * q + off + width) (fun p => Z.testbit val (p - (64 * q + off))).
Proof.
  intros Hw Hv H0 Hs Hq Ho Hlt w. apply range_put_word; [done|done| |lia|lia|].
  { apply word64_lor; [|auto with word64]. apply word64_land; [subst w; auto with word64|].
    apply Z.lor_nonneg. split; auto with word64. }
  intros m Hm. rewrite !Z.lor_spec, Z.land_spec, Z.lor_spec, testbit_not64, !testbit_m1_shl, testbit_shl_in
    by (done || lia).
  replace (64 * q + m - (64 * q + off)) with (m - off) by lia. fold w.
  destruct (Z.ltb_spec m 64); [|lia].
  destruct (Z.leb_spec off m), (Z.leb_spec (off + width) m), (Z.leb_spec (64 * q + off) (64 * q + m)),
    (Z.ltb_spec (64 * q + m) (64 * q + off + width)); try lia; cbn [andb orb negb];
    rewrite ?andb_false_r, ?andb_true_r, ?orb_false_r; try done.
  rewrite (testbit_above val width (m - off)) by (done || lia). apply orb_false_r.
Qed.

Lemma put_head ws q off val : words ws -> word64 val -> 0 <= q < Z.of_nat (length ws) -> 0 <= off < 64 ->
  let w := word_at ws q in
  range_put ws (<[Z.to_nat q := Z.lor (Z.land w (not64 (m1_shl off))) (shl64 val off)]> ws)
    (64 * q + off) (64 * (q + 1)) (fun p => Z.testbit val (p - (64 * q + off))).
Proof.
  intros Hw Hv Hq Ho w. apply range_put_word; [done|done| |lia|lia|].
  { apply word64_lor; [|auto with word64]. apply word64_land; [subst w; auto with word64|auto with word64]. }
  intros m Hm. rewrite Z.lor_spec, Z.land_spec, testbit_not64, testbit_m1_shl, testbit_shl_in by (done || lia).
  replace (64 * q + m - (64 * q + off)) with (m - off) by lia. fold w.
  destruct (Z.ltb_spec m 64), (Z.leb_spec off m), (Z.leb_spec (64 * q + off) (64 * q + m)),
    (Z.ltb_spec (64 * q + m) (64 * (q + 1))); try lia; cbn [andb orb negb];
    by rewrite ?andb_false_r, ?andb_true_r, ?orb_false_r.
Qed.

Lemma put_tail ws q n k val : words ws -> word64 val -> 0 <= q < Z.of_nat (length ws) -> 0 <= n < 64 ->
  0 <= k -> Z.shiftr val (k + n) = 0 ->
  let w := word_at ws q in
  range_put ws (<[Z.to_nat q := Z.lor (Z.land w (m1_shl n)) (Z.shiftr val k)]> ws)
    (64 * q) (64 * q + n) (fun p => Z.testbit val (p - (64 * q - k))).
Proof.
  intros Hw Hv Hq Hn Hk Hs w. apply range_put_word; [done|done| |lia|lia|].
  { apply word64_lor; [|by apply word64_shr]. apply word64_land; [subst w; auto with word64|].
    apply word64_nonneg, word64_m1_shl. }
  intros m Hm. rewrite Z.lor_spec, Z.land_spec, testbit_m1_shl, testbit_shr by lia.
  replace (64 * q + m - (64 * q - k)) with (m + k) by lia. fold w.
  destruct (Z.leb_spec n m), (Z.leb_spec (64 * q) (64 * q + m)),
    (Z.ltb_spec (64 * q + m) (64 * q + n)); try lia; cbn [andb orb negb];
    rewrite ?andb_false_r, ?andb_true_r, ?orb_false_l; try done.
  rewrite (testbit_above val (k + n) (m + k)) by (done || lia). apply orb_false_r.
Qed.

Lemma s_set_uint_ok ws p width val : words ws -> word64 val -> 0 <= p -> 0 <= width <= 64 ->
  Z.shiftr val width = 0 -> p < 64 * Z.of_nat (length ws) -> p + width <= 64 * Z.of_nat (length ws) ->
  exists ws', s_set_uint ws p width val = Ok ws' /\
    range_put ws ws' p (p + width) (fun q => Z.testbit val (q - p)).
Proof.
  intros Hws Hv Hp Hw Hs H1 H2. unfold s_set_uint.
  replace (if width <? 64 then Z.shiftr val width =? 0 else true) with true
    by (rewrite Hs; by destruct (width <? 64)).
  rewrite (proj2 (Z.leb_le _ _)) by lia. cbn [assert_ rbind].
  pose proof (Z.div_mod p 64 ltac:(lia)) as D. pose proof (mod64_range p) as M.
  pose proof (div64_lt p _ (conj Hp H1)) as Hq.
  set (q := p / 64) in *. set (off := p mod 64) in *.
  match goal with |- context [rbind (if off + width <? 64 then ?A else ?B) ?k] =>
    assert (exists ws', (if off + width <? 64 then A else B) = Ok ws' /\
      range_put ws ws' p (p + width) (fun q => Z.testbit val (q - p))) as (ws' & -> & R) end.
  { destruct (Z.ltb_spec (off + width) 64) as [L|L].
    - rewrite upd_ok by lia. eexists. split; [done|]. rewrite D.
      apply (put_within ws q off width val); try done; lia.
    - rewrite upd_ok by lia. cbn [rbind].
      pose proof (put_head ws q off val Hws Hv ltac:(lia) ltac:(lia)) as R1. cbn zeta in R1. rewrite <- D in R1.
      set (a := <[Z.to_nat q := _]> ws) in *. destruct (Z.ltb_spec 64 (off + width)).
      + assert (Hm : (off + width) mod 64 = off + width - 64).
        { symmetry. apply (Z.mod_unique _ _ 1); lia. }
        pose proof R1 as (La & Wa & _). rewrite upd_ok by lia. eexists. split; [done|].
        apply (range_put_trans ws a _ _ (64 * (q + 1))); [lia|done|]. rewrite Hm.
        pose proof (put_tail a (q + 1) (off + width - 64) (64 - off) val Wa Hv ltac:(lia) ltac:(lia)
          ltac:(lia)) as R2.
        replace (64 - off + (off + width - 64)) with width in R2 by lia. specialize (R2 Hs). cbn zeta in R2.
        replace (64 * (q + 1) + (off + width - 64)) with (p + width) in R2 by lia.
        by replace (64 * (q + 1) - (64 - off)) with p in R2 by lia.
      + exists a. split; [done|]. by replace (p + width) with (64 * (q + 1)) by lia. }
  cbn [rbind]. pose proof R as (L & W & B).
  destruct (s_get_uint_ok ws' p width) as (r & -> & Hr); [done|lia..|]. cbn [rbind].
  rewrite (uint_at_unique ws' p width r val); [|done|done|done|lia|].
  - rewrite Z.eqb_refl. cbn [assert_ rbind]. eauto.
  - intros m Hm. rewrite B by lia. destruct (Z.leb_spec p (p + m)), (Z.ltb_spec (p + m) (p + width)); try lia.
    cbn [andb]. f_equal. lia.
Qed.

(** ** Bitwise assignments *)

Lemma op_words_ok op bop ws ys a b :
  (forall x y, word64 x -> word64 y -> word64 (op x y)) ->
  (forall x y m, word64 x -> word64 y -> 0 <= m < 64 ->
     Z.testbit (op x y) m = bop (Z.testbit x m) (Z.testbit y m)) ->
  words ws -> words ys -> 0 <= a <= b -> b <= Z.of_nat (length ws) -> b <= Z.of_nat (length ys) ->
  exists w, for_ a b (fun i w => let* x := rd w i in let* y := rd ys i in wr w i (op x y)) ws = Ok w /\
    range_put ws w (64 * a) (64 * b) (fun p => bop (bit_at ws p) (bit_at ys p)).
Proof.
  intros Hop Hb Hw Hy Ha Hl1 Hl2.
  apply (for_inv (fun i w => range_put ws w (64 * a) (64 * i) (fun p => bop (bit_at ws p) (bit_at ys p)))).
  - lia.
  - split; [done|]. split; [done|]. intros p Hp.
    destruct (Z.leb_spec (64 * a) p), (Z.ltb_spec p (64 * a)); (lia || done).
  - intros i w Hi R. pose proof R as (L & W & B). rewrite !rd_word by lia. cbn [rbind].
    rewrite wr_ok by lia. eexists. split; [done|].
    apply (range_put_trans ws w _ _ (64 * i)); [lia|done|].
    apply range_put_word; [done|lia|auto with word64|lia|lia|].
    intros m Hm. destruct (Z.leb_spec (64 * i) (64 * i + m)), (Z.ltb_spec (64 * i + m) (64 * (i + 1))); try lia.
    cbn [andb]. rewrite Hb by auto with word64. rewrite <- !bit_at_word, B by lia.
    destruct (Z.ltb_spec (64 * i + m) (64 * i)); [lia|]. by rewrite andb_false_r.
Qed.

(** The four operators of the source and their effect on one bit. *)
Inductive is_bitop : (Z -> Z -> Z) -> (bool -> bool -> bool) -> Prop :=
| bit_and : is_bitop Z.land andb
| bit_or : is_bitop Z.lor orb
| bit_xor : is_bitop Z.lxor xorb
| bit_andnot : is_bitop andnot (fun a b => a && negb b).

Lemma is_bitop_word op bop x y : is_bitop op bop -> word64 x -> word64 y -> word64 (op x y).
Proof. destruct 1; intros; unfold andnot; auto with word64. Qed.

Lemma is_bitop_bit op bop x y m : is_bitop op bop -> word64 x -> word64 y -> 0 <= m < 64 ->
  Z.testbit (op x y) m = bop (Z.testbit x m) (Z.testbit y m).
Proof.
  destruct 1; intros; [apply Z.land_spec|apply Z.lor_spec|apply Z.lxor_spec|].
  unfold andnot. rewrite Z.land_spec, testbit_not64 by lia. destruct (Z.ltb_spec m 64); [done|lia].
Qed.

Lemma op_assign_ok op bop v y : is_bitop op bop -> wf v -> wf y ->
  exists v', op_assign op v y = Ok v' /\ length (m_words v') = length (m_words v) /\
    view v' (m_size v) (fun p => if p <? 64 * Z.min (num_words v) (num_words y)
                                 then bop (bit_at (m_words v) p) (bit_at (m_words y) p)
                                 else bit_at (m_words v) p).
Proof.
  intros Ho Hv Hy. pose proof (num_words_le v Hv). pose proof (num_words_le y Hy). unfold op_assign.
  destruct (op_words_ok op bop (m_words v) (m_words y) 0 (Z.min (num_words v) (num_words y)))
    as (w & -> & L & W & B); [by intros; eapply is_bitop_word|by intros; apply is_bitop_bit
    |apply Hv|apply Hy|lia..|].
  cbn [rbind]. eexists. split; [done|]. split; [done|]. apply view_words; [done..|]. intros p Hp.
  rewrite B by lia. by destruct (Z.leb_spec (64 * 0) p); [|lia].
Qed.

Lemma block_op_ok op bop v y a n : is_bitop op bop -> wf v -> wf y -> 0 <= a -> 0 <= n ->
  a + n <= Z.of_nat (length (m_words v)) -> a + n <= Z.of_nat (length (m_words y)) ->
  exists v', block_op op v y a n = Ok v' /\ length (m_words v') = length (m_words v) /\
    view v' (m_size v) (fun p => if (64 * a <=? p) && (p <? 64 * (a + n))
                                 then bop (bit_at (m_words v) p) (bit_at (m_words y) p)
                                 else bit_at (m_words v) p).
Proof.
  intros Ho Hv Hy Ha Hn L1 L2. unfold block_op.
  destruct (op_words_ok op bop (m_words v) (m_words y) a (a + n))
    as (w & -> & L & W & B); [by intros; eapply is_bitop_word|by intros; apply is_bitop_bit
    |apply Hv|apply Hy|lia..|].
  cbn [rbind]. eexists. split; [done|]. split; [done|]. apply view_words; [done..|]. intros p Hp.
  by rewrite B by lia.
Qed.

(** ** Allocation *)

Section alloc_proofs.
Context (junk : nat -> Z) (Hjunk : forall j, word64 (junk j)).

Lemma realloc_ok ws n : words ws ->
  length (realloc junk ws n) = n /\ words (realloc junk ws n) /\
  forall p, 0 <= p < 64 * Z.of_nat (length ws) -> p < 64 * Z.of_nat n ->
    bit_at (realloc junk ws n) p = bit_at ws p.
Proof.
  intros Hw. unfold realloc. split; [|split].
  - rewrite length_app, length_take, length_map, length_seq. lia.
  - apply Forall_app. split; [by apply Forall_take|]. apply Forall_map, Forall_true. intros j. apply Hjunk.
  - intros p Hp Hn. unfold bit_at. f_equal. pose proof (div64_lt p (Z.of_nat (length ws)) Hp).
    pose proof (div64_lt p (Z.of_nat n) ltac:(lia)).
    rewrite word_at_app_l by (rewrite length_take; lia). apply word_at_take. lia.
Qed.

Lemma grow_cap_ok c n : 64 <= c < 2 ^ 64 -> c mod 64 = 0 -> n <= 2 ^ 63 ->
  exists c', grow_cap c n = Ok c' /\ c <= c' /\ n <= c' /\ c' mod 64 = 0.
Proof.
  intros Hc Hm Hn. unfold grow_cap.
  apply (loop_inv (fun d => c <= d < 2 ^ 64 /\ d mod 64 = 0) (fun d => 63 - Z.log2 d)).
  - split; [lia|done].
  - pose proof (Z.log2_nonneg c). lia.
  - intros d [Hd Hdm]. assert (Z.log2 d < 64) by (apply Z.log2_lt_pow2; lia). split; [lia|].
    destruct (Z.ltb_spec d n).
    + left. exists (u64 (d * 2)). split; [done|]. rewrite u64_small by (unfold word64; lia). split.
      * split; [lia|]. rewrite Z.mul_mod, Hdm by lia. done.
      * rewrite Z.mul_comm, Z.log2_double by lia. lia.
    + right. exists d. split; [done|]. split; [lia|]. split; [lia|done].
Qed.

(** Growth keeps every bit of the old capacity. *)
Lemma resize_no_init_ok v n : wf v -> 0 <= n <= 2 ^ 63 ->
  exists v', resize_no_init junk v n = Ok v' /\ wf v' /\ m_size v' = n /\
    m_capacity v <= m_capacity v' /\
    forall p, 0 <= p < m_capacity v -> bit_at (m_words v') p = bit_at (m_words v) p.
Proof.
  intros [Hw Hs] Hn. unfold resize_no_init. destruct (Z.ltb_spec (m_capacity v) n) as [L|L].
  2: { eexists. split; [done|]. unfold wf, m_capacity in *. cbn. repeat split; (done || lia || tauto). }
  assert (Hc : Z.max (m_capacity v) 64 mod 64 = 0).
  { unfold m_capacity. destruct (Z.max_spec (64 * Z.of_nat (length (m_words v))) 64) as [[_ ->]|[_ ->]]; [done|].
    rewrite Z.mul_comm. apply Z.mod_mul. lia. }
  destruct (grow_cap_ok (Z.max (m_capacity v) 64) n) as (c & -> & H1 & H2 & H3); [lia|done|lia|]. cbn [rbind].
  pose proof (Z.div_mod c 64 ltac:(lia)) as D.
  destruct (realloc_ok (m_words v) (Z.to_nat (c / 64)) Hw) as (L' & W' & B').
  eexists. split; [done|]. unfold wf, m_capacity in *. cbn. rewrite L'.
  repeat split; try done; try lia. intros p Hp. apply B'; lia.
Qed.

Lemma resize_ok v n val : wf v -> 0 <= n <= 2 ^ 63 ->
  exists v', resize junk v n val = Ok v' /\
    view v' n (fun p => if p <? m_size v then bit_at (m_words v) p else val).
Proof.
  intros Hv Hn. unfold resize. destruct (Z.eqb_spec (m_size v) n) as [E|E].
  { exists v. split; [done|]. split; [done|]. split; [done|]. intros i Hi. destruct (Z.ltb_spec i (m_size v)); (done || lia). }
  destruct (resize_no_init_ok v n Hv Hn) as (u & -> & Hu & Hsz & Hcap & Hb). cbn [rbind].
  pose proof Hv as [_ Hs]. pose proof Hu as [Wu Su]. destruct (Z.ltb_spec (m_size v) n).
  - destruct (bits_range_set_ok (m_words u) (m_size v) n val) as (w & -> & L & W & B); [done|lia| |].
    { unfold m_capacity in *. lia. }
    cbn [rbind]. eexists. split; [done|]. subst n. apply view_words; [done..|]. intros i Hi. rewrite B by lia.
    destruct (Z.leb_spec (m_size v) i), (Z.ltb_spec i (m_size u)), (Z.ltb_spec i (m_size v)); try lia; try done.
    cbn [andb]. apply Hb. lia.
  - eexists. split; [done|]. split; [done|]. split; [done|]. intros i Hi. rewrite Hb by lia.
    destruct (Z.ltb_spec i (m_size v)); (done || lia).
Qed.

Lemma push_back_ok v val : wf v -> m_size v < 2 ^ 63 ->
  exists v', push_back junk v val = Ok v' /\
    view v' (m_size v + 1) (fun p => if p <? m_size v then bit_at (m_words v) p else val).
Proof.
  intros Hv Hn. pose proof Hv as [Hw Hs]. unfold push_back.
  destruct (Z.ltb_spec (m_size v) (m_capacity v)) as [L|L].
  - assert (Hv1 : wf (FVH (m_words v) (m_size v + 1) (m_hollow v))).
    { split; [done|]. unfold m_capacity in *. cbn. split; [lia|apply Hs]. }
    destruct (set_ok _ (m_size v) val Hv1) as (v' & -> & _ & W & S & B); [cbn; lia|].
    eexists. split; [done|]. split; [done|]. split; [done|]. intros i Hi. rewrite B by (cbn; lia). cbn [m_words].
    destruct (Z.eqb_spec i (m_size v)), (Z.ltb_spec i (m_size v)); try lia; done.
  - unfold push_back_slow_path. assert (Hm : m_size v = 64 * Z.of_nat (length (m_words v))).
    { unfold m_capacity in *. lia. }
    rewrite (proj2 (Z.eqb_eq (m_size v mod 64) 0))
      by (rewrite Hm, Z.mul_comm; apply Z.mod_mul; lia). cbn [assert_ rbind].
    destruct (resize_no_init_ok v (m_size v + 1) Hv) as (u & -> & Hu & Hsz & Hcap & Hb); [lia|]. cbn [rbind].
    destruct Hu as [Wu Su]. rewrite Hsz in *. set (n := m_size v) in *.
    assert (E1 : (n + 1) / 64 = n / 64).
    { symmetry. apply Z.div_unique with 1; [lia|]. rewrite Hm, Z.mul_comm, Z.div_mul by lia. lia. }
    assert (E2 : n / 64 = Z.of_nat (length (m_words v))) by (rewrite Hm, Z.mul_comm; apply Z.div_mul; lia).
    rewrite E1, E2. rewrite wr_ok by (unfold m_capacity in *; lia). cbn [rbind].
    eexists. split; [done|]. rewrite <- Hsz. apply view_words; [split; [done|split; [lia|apply Su]]|..].
    + apply words_insert; [done|]. destruct val; unfold word64; lia.
    + apply length_insert.
    + intros i Hi. rewrite bit_at_insert by (unfold m_capacity in *; lia).
      destruct (Z.eqb_spec (i / 64) (Z.of_nat (length (m_words v)))) as [E|E].
      * assert (i = n) as -> by (pose proof (Z.div_mod i 64); pose proof (mod64_range i); lia).
        rewrite Z.ltb_irrefl. rewrite Hm, Z.mul_comm, Z.mod_mul by lia. by destruct val.
      * destruct (Z.ltb_spec i n); [apply Hb; lia|]. assert (i = n) by lia. subst i. lia.
Qed.

Lemma push_range_ok v y a n : wf v -> wf y -> 0 <= a -> 0 <= n -> a + n <= m_size y ->
  m_size v + n <= 2 ^ 63 ->
  exists v', for_ a (a + n) (fun i v => let* b := is1 y i in push_back junk v b) v = Ok v' /\
    view v' (m_size v + n)
      (fun p => if p <? m_size v then bit_at (m_words v) p else bit_at (m_words y) (a + (p - m_size v))).
Proof.
  intros Hv Hy Ha Hn Hay Hs.
  destruct (for_inv (fun i u => view u (m_size v + (i - a))
      (fun p => if p <? m_size v then bit_at (m_words v) p else bit_at (m_words y) (a + (p - m_size v))))
    (fun i v => let* b := is1 y i in push_back junk v b) a (a + n) v) as (u & E & R).
  - lia.
  - rewrite Z.sub_diag, Z.add_0_r. split; [done|]. split; [done|]. intros i Hi.
    destruct (Z.ltb_spec i (m_size v)); (done || lia).
  - intros k u Hk (Wu & Su & Bu). rewrite is1_ok by (done || lia). cbn [rbind].
    destruct (push_back_ok u (bit_at (m_words y) k) Wu) as (w & -> & Ww & Sw & Bw); [lia|].
    exists w. split; [done|]. split; [done|]. split; [lia|]. intros i Hi. rewrite Bw by lia.
    destruct (Z.ltb_spec i (m_size u)); [by rewrite Bu by lia|].
    destruct (Z.ltb_spec i (m_size v)); [lia|]. f_equal. lia.
  - exists u. split; [exact E|]. replace (m_size v + n) with (m_size v + (a + n - a)) by lia. exact R.
Qed.

Lemma append_ok v y : wf v -> wf y -> m_size v + m_size y <= 2 ^ 63 ->
  exists v', append junk v y = Ok v' /\ view v' (m_size v + m_size y)
    (fun p => if p <? m_size v then bit_at (m_words v) p else bit_at (m_words y) (p - m_size v)).
Proof.
  intros Hv Hy Hs. pose proof Hy as [_ ?].
  destruct (push_range_ok v y 0 (m_size y)) as (u & E & R); [done|done|lia..|].
  rewrite Z.add_0_l in E. exists u. split; [exact E|]. exact R.
Qed.

Lemma append_range_ok v y a n : wf v -> wf y -> 0 <= a -> 0 <= n -> a + n <= m_size y ->
  m_size v + n <= 2 ^ 63 ->
  exists v', append_range junk v y a n = Ok v' /\ view v' (m_size v + n)
    (fun p => if p <? m_size v then bit_at (m_words v) p else bit_at (m_words y) (a + (p - m_size v))).
Proof.
  intros. unfold append_range. rewrite (proj2 (Z.leb_le _ _)) by lia. cbn [assert_ rbind].
  by apply push_range_ok.
Qed.

(** A bit written through [terark_bit_set0/1], without the size assert. *)
Lemma raw_set_ok v i (val : bool) : wf v -> 0 <= i < m_capacity v ->
  exists w, (if val then terark_bit_set1 (m_words v) i else terark_bit_set0 (m_words v) i) = Ok w /\
    view (FVH w (m_size v) (m_hollow v)) (m_size v) (fun p => if p =? i then val else bit_at (m_words v) p).
Proof.
  intros Hv Hi. pose proof Hv as [Hw Hs]. unfold m_capacity in Hi.
  destruct (terark_bit_set_val_ok (m_words v) i val) as (w & E & L & W & B); [done|lia|].
  exists w. split; [exact E|]. apply view_words; [done..|]. intros p Hp. apply B. lia.
Qed.

Lemma ensure_set_ok v i val : wf v -> 0 <= i < 2 ^ 63 ->
  exists v', ensure_set junk v i val = Ok v' /\ view v' (Z.max (m_size v) (i + 1))
    (fun p => if p =? i then val else if p <? m_size v then bit_at (m_words v) p else false).
Proof.
  intros Hv Hi. pose proof Hv as [_ Hs]. unfold ensure_set, ensure_set1, ensure_set0.
  destruct (Z.ltb_spec i (m_size v)) as [L|L].
  { destruct (raw_set_ok v i val Hv ltac:(lia)) as (w & E & Hw & _ & B).
    exists (FVH w (m_size v) (m_hollow v)). split; [destruct val; by rewrite E|]. split; [done|]. split; [cbn; lia|].
    intros p Hp. rewrite B by lia. destruct (Z.ltb_spec p (m_size v)); [done|lia]. }
  destruct (resize_ok v (i + 1) false Hv) as (u & E & Wu & Su & Bu); [lia|].
  rewrite (Z.max_r (m_size v)) by lia. destruct val.
  - unfold ensure_set1_slow_path. rewrite E. cbn [rbind]. pose proof Wu as [_ ?].
    destruct (raw_set_ok u i true Wu ltac:(lia)) as (w & -> & Hw & _ & B).
    eexists. split; [done|]. split; [done|]. split; [done|]. intros p Hp. rewrite B, Bu by lia. done.
  - exists u. split; [done|]. split; [done|]. split; [done|]. intros p Hp. rewrite Bu by lia.
    destruct (Z.ltb_spec p (m_size v)); [|by destruct (p =? i)]. destruct (Z.eqb_spec p i); (done || lia).
Qed.

Lemma assert_zeros_ok ws a b : words ws -> 0 <= a <= b -> b <= 64 * Z.of_nat (length ws) ->
  (forall p, a <= p < b -> bit_at ws p = false) -> assert_zeros ws a b = Ok tt.
Proof.
  intros Hw Ha Hb Hz. unfold assert_zeros.
  destruct (for_inv (fun _ _ => True) (fun j (_ : unit) => let* t := terark_bit_test ws j in assert_ (negb t))
    a b tt) as ([] & -> & _); [lia|done| |done].
  intros k [] Hk _. rewrite terark_bit_test_ok by (done || lia). cbn [rbind]. rewrite Hz by lia. by exists tt.
Qed.

(** [fast_ensure_set1] relies on the spare capacity being zero, and keeps it. *)
Definition spare_zero (v : febitvec) : Prop :=
  forall p, m_size v <= p < m_capacity v -> bit_at (m_words v) p = false.

Lemma fast_ensure_set1_ok v i : wf v -> spare_zero v -> 0 <= i < 2 ^ 63 ->
  exists v', fast_ensure_set1 junk v i = Ok v' /\ spare_zero v' /\ view v' (Z.max (m_size v) (i + 1))
    (fun p => if p =? i then true else if p <? m_size v then bit_at (m_words v) p else false).
Proof.
  intros Hv Hz Hi. pose proof Hv as [Hw Hs]. unfold fast_ensure_set1.
  destruct (Z.ltb_spec i (m_capacity v)) as [L|L].
  - set (n := Z.max (m_size v) (i + 1)).
    match goal with |- context [rbind ?X _] => replace X with (Ok (FVH (m_words v) n (m_hollow v))) end.
    2: { destruct (Z.leb_spec (m_size v) i).
      - rewrite assert_zeros_ok; [subst n; by rewrite Z.max_r by lia|done|lia|unfold m_capacity in *; lia|].
        intros p Hp. apply Hz. lia.
      - subst n. rewrite Z.max_l by lia. by destruct v. }
    cbn [rbind m_words m_size]. unfold m_capacity in *.
    destruct (terark_bit_set_val_ok (m_words v) i true) as (w & E & Lw & W & B); [done|lia|].
    unfold terark_bit_set_val in E. rewrite E. cbn [rbind]. eexists. split; [done|].
    unfold spare_zero, view, wf, m_capacity. cbn [m_words m_size m_hollow]. rewrite Lw. split; [|repeat split; try done; try lia; try apply Hs].
    + intros p Hp. rewrite B by lia. destruct (Z.eqb_spec p i); [lia|]. apply Hz. unfold m_capacity. lia.
    + intros p Hp. rewrite B by lia. destruct (Z.eqb_spec p i); [done|].
      destruct (Z.ltb_spec p (m_size v)); [done|]. apply Hz. unfold m_capacity. lia.
  - unfold fast_ensure_set1_slow_path. rewrite (proj2 (Z.leb_le _ _)) by lia. cbn [assert_ rbind].
    rewrite assert_zeros_ok; [|done|lia|unfold m_capacity; lia|done]. cbn [rbind].
    destruct (resize_no_init_ok v (i + 1) Hv) as (u & -> & [Wu Su] & Hsz & Hcap & Hb); [lia|]. cbn [rbind].
    destruct (bits_range_set0_ok (m_words u) (m_capacity v) (m_capacity u)) as (w & -> & Lw & W & B);
      [done|lia|unfold m_capacity; lia|]. cbn [rbind].
    destruct (terark_bit_set_val_ok w i true) as (w2 & E & Lw2 & W2 & B2); [done|unfold m_capacity in *; lia|].
    unfold terark_bit_set_val in E. rewrite E. cbn [rbind]. eexists. split; [done|].
    assert (Hall : forall p, 0 <= p < m_capacity u -> bit_at w2 p =
        if p =? i then true else if p <? m_size v then bit_at (m_words v) p else false).
    { intros p Hp. rewrite B2 by lia. destruct (Z.eqb_spec p i); [done|]. rewrite B by lia.
      destruct (Z.leb_spec (m_capacity v) p); cbn [andb].
      - destruct (Z.ltb_spec p (m_capacity u)); [|lia]. destruct (Z.ltb_spec p (m_size v)); (done || lia).
      - rewrite Hb by lia. destruct (Z.ltb_spec p (m_size v)); [done|]. apply Hz. lia. }
    assert (Hcap2 : m_capacity (FVH w2 (m_size u) (m_hollow u)) = m_capacity u) by (unfold m_capacity; cbn; lia).
    unfold spare_zero, view, wf. rewrite Hcap2. cbn [m_words m_size m_hollow]. rewrite Hsz in *.
    split; [|split; [split; [done|split; [lia|apply Su]]|split; [lia|]]].
    + intros p Hp. rewrite Hall by lia. destruct (Z.eqb_spec p i), (Z.ltb_spec p (m_size v)); (done || lia).
    + intros p Hp. apply Hall. lia.
Qed.

Lemma push_uint_ok v width val : wf v -> word64 val -> 0 < width <= 64 -> Z.shiftr val width = 0 ->
  m_size v + width <= 2 ^ 63 ->
  exists v', push_uint junk v width val = Ok v' /\ view v' (m_size v + width)
    (fun p => if p <? m_size v then bit_at (m_words v) p else Z.testbit val (p - m_size v)).
Proof.
  intros Hv Hval Hw Hs Hn. pose proof Hv as [Wv Sv]. unfold push_uint.
  rewrite (proj2 (Z.leb_le _ _)) by lia. cbn [assert_ rbind].
  destruct (Z.leb_spec (m_size v + width) (m_capacity v)) as [L|L].
  - unfold m_capacity in L.
    destruct (s_set_uint_ok (m_words v) (m_size v) width val) as (w & -> & Lw & W & B); [done|done|lia..|].
    cbn [rbind]. eexists. split; [done|]. unfold view, wf, m_capacity in *. cbn. rewrite Lw.
    split; [split; [done|split; [lia|apply Sv]]|]. split; [done|]. intros p Hp. rewrite B by lia.
    destruct (Z.leb_spec (m_size v) p), (Z.ltb_spec p (m_size v + width)), (Z.ltb_spec p (m_size v)); (done || lia).
  - destruct (resize_no_init_ok v (m_size v + width) Hv) as (u & -> & [Wu Su] & Hsz & Hcap & Hb); [lia|].
    cbn [rbind]. unfold m_capacity in *. rewrite Hsz in *.
    destruct (bits_range_set0_ok (m_words u) (m_size v) (m_size v + width)) as (w & -> & Lw & W & B);
      [done|lia|lia|]. cbn [rbind].
    destruct (s_set_uint_ok w (m_size v) width val) as (w2 & -> & Lw2 & W2 & B2); [done|done|lia..|].
    cbn [rbind]. eexists. split; [done|]. unfold view, wf, m_capacity in *. cbn. rewrite Lw2, Lw.
    split; [split; [done|split; [lia|apply Su]]|]. split; [done|]. intros p Hp. rewrite B2, B by lia.
    destruct (Z.leb_spec (m_size v) p), (Z.ltb_spec p (m_size v + width)), (Z.ltb_spec p (m_size v));
      try lia; try done. apply Hb. lia.
Qed.

Lemma set_uint_ok v p width val : wf v -> word64 val -> 0 <= p -> 0 <= width <= 64 -> p < m_size v ->
  Z.shiftr val width = 0 -> p + width <= m_size v ->
  exists v', set_uint v p width val = Ok v' /\ view v' (m_size v)
    (fun q => if (p <=? q) && (q <? p + width) then Z.testbit val (q - p) else bit_at (m_words v) q).
Proof.
  intros Hv Hval Hp Hw H1 Hs H2. pose proof Hv as [Wv Sv]. unfold set_uint, m_capacity in *.
  rewrite (proj2 (Z.leb_le _ _)) by lia. cbn [assert_ rbind].
  destruct (s_set_uint_ok (m_words v) p width val) as (w & -> & Lw & W & B); [done|done|lia..|].
  cbn [rbind]. eexists. split; [done|]. apply view_words; [done..|]. intros q Hq. apply B. lia.
Qed.

Lemma align_bits_eq n : 0 <= n -> align_bits n = 64 * ((n + 63) / 64).
Proof.
  intros Hn. unfold align_bits. replace (n + 64 - 1) with (n + 63) by lia. change (64 - 1) with (Z.ones 6).
  rewrite <- Z.ldiff_land, Z.ldiff_ones_r, Z.shiftr_div_pow2, Z.shiftl_mul_pow2 by lia. change (2 ^ 6) with 64. lia.
Qed.

Lemma reserve_ok v n : wf v -> 0 <= n ->
  view (reserve junk v n) (m_size v) (bit_at (m_words v)) /\ n <= m_capacity (reserve junk v n).
Proof.
  intros Hv Hn. pose proof Hv as [Wv Sv]. unfold reserve. rewrite align_bits_eq by done.
  pose proof (Z.div_mod (n + 63) 64). pose proof (mod64_range (n + 63)). set (k := (n + 63) / 64) in *.
  assert (0 <= k) by (apply Z.div_pos; lia).
  destruct (Z.ltb_spec (m_capacity v) (64 * k)).
  - rewrite Z.mul_comm, Z.div_mul by lia. destruct (realloc_ok (m_words v) (Z.to_nat k) Wv) as (L & W & B).
    unfold view, wf, m_capacity in *. cbn. rewrite L. repeat split; try done; try lia.
    intros p Hp. apply B; lia.
  - split; [done|lia].
Qed.

(** A reservation keeps every bit of the old block, the spare ones included. *)
Lemma reserve_block v n : wf v -> m_capacity v < n -> n mod 64 = 0 ->
  wf (reserve junk v n) /\ m_size (reserve junk v n) = m_size v /\ m_capacity (reserve junk v n) = n /\
  forall p, 0 <= p < m_capacity v -> bit_at (m_words (reserve junk v n)) p = bit_at (m_words v) p.
Proof.
  intros [Wv Sv] Hn Hm. unfold m_capacity in *. pose proof (Z.div_mod n 64 ltac:(lia)) as D.
  assert (E : align_bits n = n).
  { rewrite align_bits_eq by lia. replace ((n + 63) / 64) with (n / 64); [lia|].
    apply (Z.div_unique _ _ _ 63); lia. }
  unfold reserve. rewrite E. unfold m_capacity. rewrite (proj2 (Z.ltb_lt _ _)) by lia. cbn.
  destruct (realloc_ok (m_words v) (Z.to_nat (n / 64)) Wv) as (L & W & B).
  unfold wf, m_capacity. cbn. rewrite L. split_and!; try done; try lia. intros p Hp. apply B; lia.
Qed.

Lemma not_null v : m_words v <> [] -> is_null v = false.
Proof. unfold is_null. by destruct (m_words v). Qed.

(** A vector with bits keeps them. *)
Lemma shrink_to_fit_ok v : wf v -> 0 < m_size v -> exists u, shrink_to_fit junk v = Ok u /\
  view u (m_size v) (bit_at (m_words v)) /\ m_capacity u < m_size v + 64.
Proof.
  intros Hv Hpos. pose proof Hv as [Wv [Sv Hh]]. unfold shrink_to_fit, is_null. rewrite (proj2 (Z.leb_le _ _)) by lia. cbn [assert_ rbind].
  destruct (m_words v) as [|w0 wr] eqn:Ew; [unfold m_capacity in Sv; rewrite Ew in Sv; cbn in Sv; lia|]. rewrite <- Ew in *.
  rewrite (proj2 (Z.ltb_lt 0 _)) by lia. cbn [assert_ rbind]. unfold m_capacity at 1. rewrite (Z.mul_comm 64 (Z.of_nat _)), Z.mod_mul by lia. rewrite Z.eqb_refl. cbn [assert_ rbind].
  rewrite (proj2 (Z.eqb_neq 0 _)) by lia. rewrite align_bits_eq by lia. pose proof (Z.div_mod (m_size v + 63) 64). pose proof (mod64_range (m_size v + 63)).
  set (k := (m_size v + 63) / 64) in *. assert (0 < k) by lia. eexists. split; [done|].
  rewrite (Z.mul_comm 64 k), Z.div_mul by lia. destruct (realloc_ok (m_words v) (Z.to_nat k) Wv) as (L & W & B).
  unfold view, wf, m_capacity in *. cbn. rewrite L. rewrite (proj2 (Z.eqb_neq (k * 64) 0)) by lia. repeat split; try done; try lia.
  intros p Hp. apply B; lia.
Qed.

(** A vector without bits loses its words; after that the function must not be called
    again before there is memory. *)
Lemma shrink_to_fit_empty v : wf v -> m_size v = 0 -> m_words v <> [] -> shrink_to_fit junk v = Ok (FVH [] 0 true).
Proof.
  intros [Wv [Sv Hh]] H0 Hne. unfold shrink_to_fit, is_null. rewrite (proj2 (Z.leb_le _ _)) by lia. cbn [assert_ rbind].
  destruct (m_words v) as [|w0 wr] eqn:Ew; [done|]. rewrite (proj2 (Z.ltb_lt 0 _)) by (unfold m_capacity; rewrite Ew; cbn [length]; lia). cbn [assert_ rbind].
  unfold m_capacity at 1. rewrite (Z.mul_comm 64 (Z.of_nat _)), Z.mod_mul by lia. rewrite Z.eqb_refl. cbn [assert_ rbind]. by rewrite H0.
Qed.

Lemma shrink_to_fit_twice : shrink_to_fit junk (FVH [] 0 true) = UB.
Proof. done. Qed.

(** What is reserved after it. *)
Lemma shrink_reserve_ok v : wf v -> m_words v <> [] -> exists u, shrink_to_fit junk v = Ok u /\ m_size u = m_size v /\ m_capacity u < m_size v + 64 /\
  forall n, 0 < n -> view (reserve junk u n) (m_size v) (bit_at (m_words v)) /\ n <= m_capacity (reserve junk u n) /\
    (m_capacity u < n -> n mod 64 = 0 -> m_capacity (reserve junk u n) = n).
Proof.
  intros Hv Hne. pose proof Hv as [_ [Sv _]]. destruct (Z.eq_dec (m_size v) 0) as [E|E].
  - rewrite (shrink_to_fit_empty v Hv E Hne). exists (FVH [] 0 true). split; [done|]. split; [done|]. split; [unfold m_capacity; cbn; lia|]. intros n Hn. rewrite E.
    assert (Hr : reserve junk (FVH [] 0 true) n = reserve junk empty_vec n). { unfold reserve. change (m_capacity (FVH [] 0 true)) with 0. change (m_capacity empty_vec) with 0. rewrite align_bits_eq by lia. destruct (Z.ltb_spec 0 (64 * ((n + 63) / 64))); [done|]. pose proof (Z.div_mod (n + 63) 64). pose proof (mod64_range (n + 63)). lia. }
    rewrite Hr. assert (He : wf empty_vec) by (split; [constructor|split; [unfold m_capacity; cbn; lia|done]]). destruct (reserve_ok empty_vec n He ltac:(lia)) as [[R1 [R2 R3]] R4]. split; [split; [done|split; [done|intros p Hp; lia]]|]. split; [done|]. intros Hc Hm. by apply (reserve_block empty_vec n He).
  - destruct (shrink_to_fit_ok v Hv ltac:(lia)) as (u & Eu & (Wu & Su & Bu) & Cu). exists u. split; [done|]. split; [done|]. split; [done|]. intros n Hn. destruct (reserve_ok u n Wu ltac:(lia)) as [(R1 & R2 & R3) R4].
    split; [split; [done|]; split; [lia|]; intros p Hp; rewrite R3 by lia; by apply Bu|]. split; [done|]. intros Hc Hm. by apply (reserve_block u n Wu).
Qed.

Lemma resize_fill_ok v n val : wf v -> 0 <= n <= 2 ^ 63 ->
  exists v', resize_fill junk v n val = Ok v' /\ view v' n (fun _ => val).
Proof.
  intros Hv Hn. unfold resize_fill. destruct (resize_no_init_ok v n Hv Hn) as (u & -> & Hu & <- & _).
  cbn [rbind]. destruct (fill_ok u val Hu) as (w & -> & _ & R). eauto.
Qed.
End alloc_proofs.

(** Reserving the capacity of a block and copying its words gives the block. *)
Lemma copy_words junk (ws : list Z) :
  ws ++ drop (length ws) (m_words (reserve junk empty_vec (64 * Z.of_nat (length ws)))) = ws.
Proof.
  rewrite drop_ge; [apply app_nil_r|]. unfold reserve. rewrite align_bits_eq by lia.
  case_match; [|cbn; lia]. cbn [m_words]. unfold realloc. cbn [m_words empty_vec length].
  rewrite length_app, length_map, length_seq, take_nil. cbn [length].
  assert ((64 * Z.of_nat (length ws) + 63) / 64 = Z.of_nat (length ws)) as ->.
  { symmetry. apply (Z.div_unique _ _ _ 63); lia. }
  rewrite Z.mul_comm, Z.div_mul by lia. lia.
Qed.

(** ** Copying a range *)

(** One word of the shifted copy: the low part of word [i], the rest of [i + 1]. *)
Lemma shift_pair_bit p i rs m : words p -> 0 < rs < 64 -> 0 <= m < 64 ->
  Z.testbit (Z.lor (Z.shiftr (word_at p i) rs) (shl64 (word_at p (i + 1)) (64 - rs))) m =
  bit_at p (64 * i + rs + m).
Proof.
  intros Hp Hr Hm. rewrite Z.lor_spec, testbit_shr, testbit_shl64 by lia.
  destruct (Z.ltb_spec m 64); [|lia]. destruct (Z.leb_spec (64 - rs) m); cbn [andb].
  - rewrite testbit_word64_high by (auto with word64 || lia). cbn [orb].
    replace (64 * i + rs + m) with (64 * i + (rs + m)) by lia. rewrite bit_at_next by lia. f_equal. lia.
  - rewrite orb_false_r. replace (64 * i + rs + m) with (64 * i + (m + rs)) by lia. by rewrite bit_at_word by lia.
Qed.

(** The in-place loop shifts [n] words right by [rs] bits. *)
Lemma shift_words_ok p n rs : words p -> 0 < rs < 64 -> 0 < n -> Z.of_nat (length p) = n ->
  exists p', (let* p := for_ 0 (n - 1) (fun i p =>
        let* a := rd p i in let* b := rd p (i + 1) in
        wr p i (Z.lor (Z.shiftr a rs) (shl64 b (64 - rs)))) p in
      upd p (n - 1) (fun w => Z.shiftr w rs)) = Ok p' /\ length p' = length p /\ words p' /\
    forall q, 0 <= q -> q + rs < 64 * n -> bit_at p' q = bit_at p (q + rs).
Proof.
  intros Hp Hr Hn Hl.
  match goal with |- context [for_ 0 (n - 1) ?body p] =>
    destruct (for_inv (fun i u => range_put p u 0 (64 * i) (fun q => bit_at p (q + rs))) body 0 (n - 1) p)
      as (u & -> & R) end.
  - lia.
  - split; [done|]. split; [done|]. intros q Hq. destruct (Z.leb_spec 0 q), (Z.ltb_spec q (64 * 0)); (lia || done).
  - intros i u Hi R. pose proof R as (L & W & B). rewrite !rd_word by lia. cbn [rbind]. rewrite wr_ok by lia.
    eexists. split; [done|]. apply (range_put_trans p u _ _ (64 * i)); [lia|done|].
    apply range_put_word; [done|lia| |lia|lia|].
    { apply word64_lor; [apply word64_shr; [auto with word64|lia]|auto with word64]. }
    intros m Hm. rewrite shift_pair_bit by (done || lia).
    destruct (Z.leb_spec (64 * i) (64 * i + m)), (Z.ltb_spec (64 * i + m) (64 * (i + 1))); try lia. cbn [andb].
    rewrite B by lia. destruct (Z.ltb_spec (64 * i + rs + m) (64 * i)); [lia|]. rewrite andb_false_r. f_equal. lia.
  - cbn [rbind]. pose proof R as (L & W & B). rewrite upd_ok by lia. eexists. split; [done|].
    split; [by rewrite length_insert|]. split; [apply words_insert; [done|apply word64_shr; [auto with word64|lia]]|].
    intros q Hq Hlt. rewrite bit_at_insert by lia. pose proof (Z.div_mod q 64). pose proof (mod64_range q).
    destruct (Z.eqb_spec (q / 64) (n - 1)).
    + rewrite testbit_shr by lia. rewrite <- bit_at_word, B by lia.
      destruct (Z.leb_spec 0 (64 * (n - 1) + (q mod 64 + rs))),
        (Z.ltb_spec (64 * (n - 1) + (q mod 64 + rs)) (64 * (n - 1))); try lia; cbn [andb].
      f_equal. lia.
    + rewrite B by lia. destruct (Z.leb_spec 0 q), (Z.ltb_spec q (64 * (n - 1))); try lia. done.
Qed.

Lemma copy_range_ok y beg len : wf y -> 0 <= beg -> 0 <= len -> beg + len <= m_size y ->
  exists v, copy_range y beg len = Ok v /\ view v len (fun p => bit_at (m_words y) (beg + p)).
Proof.
  intros Hy Hb Hl Hs. pose proof Hy as [Wy Sy]. unfold m_capacity in Sy. unfold copy_range.
  destruct (Z.ltb_spec (m_size y) (beg + len)); [lia|].
  destruct (Z.eqb_spec 0 len) as [<-|Hne].
  { eexists. split; [done|]. unfold view, wf, m_capacity. cbn. split_and!; try lia; constructor. }
  pose proof (Z.div_mod beg 64 ltac:(lia)) as D1. pose proof (mod64_range beg) as M1.
  pose proof (Z.div_mod (beg + len + 64 - 1) 64 ltac:(lia)) as D2. pose proof (mod64_range (beg + len + 64 - 1)) as M2.
  set (q := beg / 64) in *. set (e := (beg + len + 64 - 1) / 64) in *. set (rs := beg mod 64) in *.
  assert (0 <= q) by (apply Z.div_pos; lia).
  rewrite (proj2 (Z.leb_le e _)) by lia. cbn [assert_ rbind].
  set (p := take _ _). assert (Lp : Z.of_nat (length p) = e - q).
  { subst p. rewrite length_take, length_drop. lia. }
  assert (Wp : words p) by (by apply Forall_take, Forall_drop).
  assert (Bp : forall i, 0 <= i < 64 * (e - q) -> bit_at p i = bit_at (m_words y) (64 * q + i)).
  { intros i Hi. unfold bit_at. rewrite (Z.add_comm (64 * q)), div_add_mul, mod_add_mul by lia. f_equal.
    pose proof (div64_lt i (e - q) Hi). subst p. rewrite word_at_take by lia. unfold word_at.
    rewrite !nth_lookup, lookup_drop. do 2 f_equal. lia. }
  destruct (Z.eqb_spec rs 0) as [E0|E0]; cbn [negb].
  - eexists. split; [done|]. split; [split; [done|unfold m_capacity; cbn; lia]|]. split; [done|].
    intros i Hi. cbn [m_words]. rewrite Bp by lia. f_equal. lia.
  - destruct (shift_words_ok p (e - q) rs) as (p' & -> & L' & W' & B'); [done|lia..|]. cbn [rbind].
    eexists. split; [done|]. split; [split; [done|unfold m_capacity; cbn; lia]|]. split; [done|].
    intros i Hi. cbn [m_words]. rewrite B', Bp by lia. f_equal. lia.
Qed.

(** ** Refinement of the list specification *)

Definition lbit (l : list bool) (i : Z) : bool := nth (Z.to_nat i) l false.

Lemma lbit_bits v i : 0 <= i < m_size v -> lbit (bits v) i = bit_at (m_words v) i.
Proof. intros Hi. unfold lbit. by rewrite nth_lookup, bits_lookup by done. Qed.

Lemma bits_eq v l n f : view v n f -> len l = n -> (forall i, 0 <= i < n -> lbit l i = f i) -> bits v = l.
Proof.
  intros Hv Hl Hf. rewrite (view_bits _ _ _ Hv). unfold len in Hl. apply map_seqZ_lookup; [done|lia|].
  intros i Hi. rewrite <- Hf by done. unfold lbit. rewrite nth_lookup.
  destruct (l !! Z.to_nat i) eqn:E; [done|]. apply lookup_ge_None in E. lia.
Qed.

Lemma lbit_app l k i : 0 <= i -> lbit (l ++ k) i = if i <? len l then lbit l i else lbit k (i - len l).
Proof.
  intros Hi. unfold lbit, len. destruct (Z.ltb_spec i (Z.of_nat (length l))).
  - apply app_nth1. lia.
  - rewrite app_nth2 by lia. f_equal. lia.
Qed.

Lemma lbit_replicate n b i : 0 <= i < n -> lbit (replicate (Z.to_nat n) b) i = b.
Proof. intros Hi. unfold lbit. rewrite nth_lookup, lookup_replicate_2 by lia. done. Qed.

Lemma lbit_take l n i : 0 <= i < n -> lbit (take (Z.to_nat n) l) i = lbit l i.
Proof. intros Hi. unfold lbit. by rewrite !nth_lookup, lookup_take_lt by lia. Qed.

Lemma lbit_drop l n i : 0 <= i -> 0 <= n -> lbit (drop (Z.to_nat n) l) i = lbit l (n + i).
Proof. intros Hi Hn. unfold lbit. rewrite !nth_lookup, lookup_drop. do 2 f_equal. lia. Qed.

Lemma lbit_insert l i b p : 0 <= i < len l -> 0 <= p ->
  lbit (<[Z.to_nat i := b]> l) p = if p =? i then b else lbit l p.
Proof.
  intros Hi Hp. unfold lbit, len in *. rewrite !nth_lookup. destruct (Z.eqb_spec p i) as [->|].
  - by rewrite list_lookup_insert_eq by lia.
  - by rewrite list_lookup_insert_ne by lia.
Qed.

Lemma lbit_resize l n b i : 0 <= i < n ->
  lbit (list.resize (Z.to_nat n) b l) i = if i <? len l then lbit l i else b.
Proof.
  intros Hi. unfold lbit, len. rewrite !nth_lookup. destruct (Z.ltb_spec i (Z.of_nat (length l))).
  - by rewrite lookup_resize by lia.
  - by rewrite lookup_resize_new by lia.
Qed.

Lemma lbit_uint width val i : 0 <= i < width -> lbit (uint_bits width val) i = Z.testbit val i.
Proof.
  intros Hi. unfold lbit, uint_bits. rewrite nth_lookup, list_lookup_fmap, lookup_seqZ_lt by lia.
  cbn. f_equal. lia.
Qed.

Lemma len_app l k : len (l ++ k) = len l + len k.
Proof. unfold len. rewrite length_app. lia. Qed.
Lemma len_take l n : 0 <= n <= len l -> len (take (Z.to_nat n) l) = n.
Proof. unfold len. intros. rewrite length_take. lia. Qed.
Lemma len_drop l n : 0 <= n <= len l -> len (drop (Z.to_nat n) l) = len l - n.
Proof. unfold len. intros. rewrite length_drop. lia. Qed.
Lemma len_insert l i b : len (<[i := b]> l) = len l.
Proof. unfold len. by rewrite length_insert. Qed.
Lemma len_resize l n b : 0 <= n -> len (list.resize (Z.to_nat n) b l) = n.
Proof. unfold len. intros. rewrite length_resize. lia. Qed.
Lemma len_replicate n b : 0 <= n -> len (replicate (Z.to_nat n) b) = n.
Proof. unfold len. intros. rewrite length_replicate. lia. Qed.
Lemma len_uint width val : 0 <= width -> len (uint_bits width val) = width.
Proof. unfold len, uint_bits. intros. rewrite length_map, length_seqZ. lia. Qed.
Lemma len_bits v : wf v -> len (bits v) = m_size v.
Proof. apply length_bits. Qed.

(** [v] is well formed and its bits are [l]. *)
Definition repr (v : febitvec) (l : list bool) : Prop := wf v /\ bits v = l.

Lemma repr_view r v' l n f : r = Ok v' -> view v' n f -> len l = n ->
  (forall i, 0 <= i < n -> lbit l i = f i) -> exists v', r = Ok v' /\ repr v' l.
Proof.
  intros -> Hv Hl Hf. exists v'. split; [done|]. split; [apply Hv|by eapply bits_eq].
Qed.

Lemma repr_splice v v' r a k b : 0 <= a <= k -> k <= m_size v -> wf v -> len b = k - a -> r = Ok v' ->
  view v' (m_size v) (fun p => if (a <=? p) && (p <? k) then lbit b (p - a) else bit_at (m_words v) p) ->
  exists v', r = Ok v' /\ repr v' (take (Z.to_nat a) (bits v) ++ b ++ drop (Z.to_nat k) (bits v)).
Proof.
  intros Ha Hk Hv Hb E R. pose proof (len_bits v Hv) as Lv.
  eapply repr_view; [exact E|exact R| |].
  { rewrite !len_app, len_take, len_drop by lia. lia. }
  intros i Hi. cbn beta. rewrite lbit_app, len_take by lia. destruct (Z.ltb_spec i a).
  { rewrite lbit_take, lbit_bits by lia. by destruct (Z.leb_spec a i); [lia|]. }
  rewrite lbit_app by lia. destruct (Z.leb_spec a i), (Z.ltb_spec (i - a) (len b)), (Z.ltb_spec i k); try lia; try done.
  cbn [andb]. rewrite lbit_drop, lbit_bits by lia. f_equal. lia.
Qed.

Lemma repr_append v v' r b n : wf v -> len b = n -> r = Ok v' ->
  view v' (m_size v + n) (fun p => if p <? m_size v then bit_at (m_words v) p else lbit b (p - m_size v)) ->
  exists v', r = Ok v' /\ repr v' (bits v ++ b).
Proof.
  intros Hv Hb E R. pose proof (len_bits v Hv) as Lv.
  eapply repr_view; [exact E|exact R|by rewrite len_app; lia|].
  intros i Hi. cbn beta. rewrite lbit_app, Lv by lia. destruct (Z.ltb_spec i (m_size v)); [by rewrite lbit_bits by lia|done].
Qed.

Lemma view_ext v n f g : view v n f -> (forall i, 0 <= i < n -> f i = g i) -> view v n g.
Proof. intros (W & S & B) H. split; [done|]. split; [done|]. intros i Hi. rewrite <- H by done. auto. Qed.

Lemma exec_op_ok junk o v l' : (forall j, word64 (junk j)) -> wf v -> op_wf o ->
  spec_op o (bits v) = Some l' -> exists v', exec_op junk o v = Ok v' /\ repr v' l'.
Proof.
  intros Hj Hv Ho. pose proof (len_bits v Hv) as Lv. pose proof Hv as [Wv Sv].
  destruct o; cbn [spec_op exec_op op_wf] in *; try case_decide as Hd; intros [= <-].
  - destruct (set_ok v i b Hv) as (u & E & _ & R); [lia|]. eapply repr_view; [exact E|exact R|by rewrite len_insert|].
    intros p Hp. rewrite lbit_insert by lia. by rewrite lbit_bits by lia.
  - destruct (push_back_ok junk Hj v b Hv) as (u & E & R); [lia|].
    eapply (repr_append v u _ [b] 1 Hv); [done|exact E|]. eapply view_ext; [exact R|].
    intros i Hi. cbn beta. destruct (Z.ltb_spec i (m_size v)); [done|]. by replace (i - m_size v) with 0 by lia.
  - unfold pop_back. rewrite (proj2 (Z.ltb_lt _ _)) by lia.
    assert (Hw : wf (FVH (m_words v) (m_size v - 1) (m_hollow v))) by (split; [done|unfold m_capacity in *; cbn; split; [lia|apply Sv]]).
    replace (length (bits v) - 1)%nat with (Z.to_nat (m_size v - 1)) by (unfold len in *; lia).
    eapply repr_view; [done|by apply view_self|rewrite len_take; cbn; lia|].
    cbn. intros i Hi. rewrite lbit_take, lbit_bits by lia. done.
  - destruct (resize_ok junk Hj v n b Hv Hd) as (u & E & R).
    eapply repr_view; [exact E|exact R|rewrite len_resize; lia|].
    intros i Hi. cbn beta. rewrite lbit_resize, Lv by lia. destruct (Z.ltb_spec i (m_size v)); [by rewrite lbit_bits by lia|done].
  - destruct (fill_ok v b Hv) as (u & E & _ & R).
    replace (length (bits v)) with (Z.to_nat (m_size v)) by (unfold len in *; lia).
    eapply repr_view; [exact E|exact R|rewrite len_replicate; lia|]. intros i Hi. by apply lbit_replicate.
  - destruct (beg_end_set_ok v beg end_ b Hv) as (u & E & _ & R); [lia..|].
    eapply repr_splice; [lia|lia|done|rewrite len_replicate; lia|exact E|]. eapply view_ext; [exact R|].
    intros i Hi. cbn beta. destruct (Z.leb_spec beg i), (Z.ltb_spec i end_); try done.
    cbn [andb]. rewrite lbit_replicate by lia. done.
  - destruct (ensure_set_ok junk Hj v i b Hv Hd) as (u & E & R).
    eapply repr_view; [exact E|exact R|rewrite len_insert, len_resize; lia|].
    intros p Hp. cbn beta. rewrite lbit_insert by (rewrite ?len_resize; lia). destruct (p =? i); [done|].
    rewrite lbit_resize, Lv by lia. destruct (Z.ltb_spec p (m_size v)); [by rewrite lbit_bits by lia|done].
  - destruct (append_ok junk Hj v y Hv Ho) as (u & E & R); [lia|].
    eapply repr_append; [done|by apply len_bits|exact E|]. eapply view_ext; [exact R|].
    intros i Hi. cbn beta. destruct (Z.ltb_spec i (m_size v)); [done|]. by rewrite lbit_bits by lia.
  - destruct Hd as [(H1 & H2 & H3) H4]. destruct (push_uint_ok junk Hj v width val Hv H2 H1 H3) as (u & E & R); [lia|].
    eapply repr_append; [done|apply len_uint; lia|exact E|]. eapply view_ext; [exact R|].
    intros i Hi. cbn beta. destruct (Z.ltb_spec i (m_size v)); [done|]. by rewrite lbit_uint by lia.
  - destruct Hd as [(H1 & H2 & H3) H4].
    destruct (set_uint_ok v p width val Hv) as (u & E & R); [done|lia..|done|lia|].
    eapply repr_splice; [lia|lia|done|rewrite len_uint; lia|exact E|]. eapply view_ext; [exact R|].
    intros i Hi. cbn beta. destruct (Z.leb_spec p i), (Z.ltb_spec i (p + width)); try done.
    cbn [andb]. by rewrite lbit_uint by lia.
  - destruct (reserve_ok junk Hj v n Hv Hd) as [R _].
    eapply repr_view; [done|exact R|done|]. intros i Hi. by apply lbit_bits.
  - destruct (shrink_to_fit_ok junk Hj v Hv) as (u & E & R & _); [lia|].
    eapply repr_view; [exact E|exact R|done|]. intros i Hi. by apply lbit_bits.
  - eexists. split; [done|]. split; [|done]. split; [done|]. unfold m_capacity. cbn. split; [lia|apply Sv].
Qed.

Lemma exec_ok os : forall junk v l', (forall k j, word64 (junk k j)) -> wf v -> Forall op_wf os ->
  spec os (bits v) = Some l' -> exists v', exec junk os v = Ok v' /\ repr v' l'.
Proof.
  induction os as [|o os IH]; intros junk v l' Hj Hv Ho E; cbn [spec exec] in *.
  { injection E as <-. by exists v. }
  inversion Ho as [|? ? Ho1 Ho2]; subst.
  destruct (spec_op o (bits v)) as [l1|] eqn:E1; [|done]. cbn in E.
  destruct (exec_op_ok (junk O) o v l1) as (v1 & -> & Hv1 & Hb1); [by intros|done..|]. cbn [rbind].
  apply IH; [by intros|done|done|]. by rewrite Hb1.
Qed.

(** ** The padded constructor *)

Lemma testbit_pow2_sub2 n i : 0 < n -> 0 <= i -> Z.testbit (2 ^ n - 2) i = (1 <=? i) && (i <? n).
Proof.
  intros Hn Hi. replace (2 ^ n - 2) with (2 * Z.ones (n - 1)).
  2: { rewrite Z.ones_equiv. replace (2 ^ n) with (2 * 2 ^ (n - 1)); [lia|].
       rewrite <- Z.pow_succ_r by lia. f_equal. lia. }
  destruct (Z.leb_spec 1 i); cbn [andb].
  - replace i with (Z.succ (i - 1)) at 1 by lia. rewrite Z.testbit_even_succ, Z.testbit_ones_nonneg by lia. lia.
  - replace i with 0 by lia. apply Z.testbit_even_0.
Qed.

Lemma make_padded_word junk n val padding : 0 < n < 64 -> padding <> val ->
  make_padded junk n val padding = Ok (FV [if padding then not64 (2 ^ n - 2) else 2 ^ n - 2] n).
Proof.
  intros Hn Hne. unfold make_padded, resize_no_init, grow_cap, m_capacity. cbn [m_words empty_vec length].
  change (64 * Z.of_nat 0) with 0. rewrite (proj2 (Z.ltb_lt 0 n)) by lia. cbn [loop].
  change (Z.max 0 64) with 64. rewrite (proj2 (Z.ltb_ge 64 n)) by lia. cbn [rbind].
  change (realloc junk [] (Z.to_nat (64 / 64))) with [junk 0%nat]. unfold num_words. cbn [m_size m_words length].
  assert ((n + 64 - 1) / 64 = 1) as -> by (symmetry; apply (Z.div_unique _ _ _ (n - 1)); lia).
  change (for_ 0 1 ?f ?s) with (let* s' := f 0 s in @Ok (list Z) s').
  cbv beta. rewrite wr_ok by (cbn; lia). cbn [rbind].
  change (<[Z.to_nat 0 := ?w]> [junk 0%nat]) with [w].
  change (64 * Z.of_nat 1) with 64. rewrite (proj2 (Z.eqb_neq n 64)) by lia.
  replace (eqb padding val) with false by (by destruct padding, val). cbn [negb andb].
  rewrite !(proj2 (Z.ltb_lt _ _)) by lia. cbn [assert_ rbind].
  rewrite wr_ok by (cbn; lia). cbn [rbind]. change (<[Z.to_nat (1 - 1) := ?x]> [?w]) with [x].
  assert (Hp : 2 <= 2 ^ n < 2 ^ 64).
  { split; [change 2 with (2 ^ 1) at 1; apply Z.pow_le_mono_r|apply Z.pow_lt_mono_r]; lia. }
  assert (u64 (Z.shiftr (Z.ones 64) (64 - n) - 1) = 2 ^ n - 2) as ->; [|done].
  rewrite Z.shiftr_div_pow2 by lia.
  assert (Z.ones 64 / 2 ^ (64 - n) = 2 ^ n - 1) as ->.
  { symmetry. apply (Z.div_unique _ _ _ (2 ^ (64 - n) - 1)).
    - left. pose proof (Z.pow_pos_nonneg 2 (64 - n)). lia.
    - rewrite Z.ones_equiv. replace 64 with (64 - n + n) at 1 by lia. rewrite Z.pow_add_r by lia. lia. }
  rewrite u64_small; unfold word64; lia.
Qed.

(** * Properties *)

(** C1: refinement.  Every sequence of operations whose preconditions hold on
    the list of bits runs without undefined behaviour and without a failing
    assertion and computes the bits the list specification gives, whatever the
    allocator leaves in new memory.  Among the preconditions, [shrink_to_fit] is
    called only on a vector with at least one bit: on an empty one it leaves a
    block of no bytes behind, on which its assertions fail the next time. *)
Theorem exec_refines junk os v l' :
  (forall k j, word64 (junk k j)) -> wf v -> Forall op_wf os -> spec os (bits v) = Some l' ->
  exists v', exec junk os v = Ok v' /\ wf v' /\ bits v' = l'.
Proof. intros. by apply exec_ok. Qed.

(** functional.  The four run-length functions return the length of the
    maximal run of equal bits that starts (ends) at the position, where the
    forward ones treat the vector as [64 * num_words] bits long. *)
Theorem seq_len_correct v p : wf v -> 0 <= p <= m_size v ->
  (p < m_size v ->
     (exists n, one_seq_len v p = Ok n /\ is_run (bit_at (m_words v)) true p (64 * num_words v) n) /\
     (exists n, zero_seq_len v p = Ok n /\ is_run (bit_at (m_words v)) false p (64 * num_words v) n)) /\
  (exists n, one_seq_revlen v p = Ok n /\ is_revrun (bit_at (m_words v)) true p n) /\
  (exists n, zero_seq_revlen v p = Ok n /\ is_revrun (bit_at (m_words v)) false p n).
Proof.
  intros Hv Hp. split; [|split].
  - intros Hlt. split; [apply one_seq_len_ok|apply zero_seq_len_ok]; (done || lia).
  - by apply one_seq_revlen_ok.
  - by apply zero_seq_revlen_ok.
Qed.

(** functional.  The forward functions also count the unused bits of the
    last word: on a run that reaches the end of the vector they return more
    than [size() - bitpos] when those bits continue the run. *)
Theorem zero_seq_len_counts_padding v p : wf v -> spare_zero v -> 0 <= p < m_size v ->
  (forall i, p <= i < m_size v -> bit_at (m_words v) i = false) ->
  zero_seq_len v p = Ok (64 * num_words v - p).
Proof.
  intros Hv Hz Hp Hb. destruct (zero_seq_len_ok v p Hv Hp) as (n & -> & H0 & H1 & H2 & H3). f_equal.
  pose proof (num_words_le v Hv). unfold spare_zero, m_capacity in Hz.
  destruct (Z.lt_ge_cases (p + n) (64 * num_words v)) as [L|]; [|lia]. specialize (H3 L).
  destruct (Z.lt_ge_cases (p + n) (m_size v)); [rewrite Hb in H3 by lia|rewrite Hz in H3 by lia]; done.
Qed.

(** functional.  [popcnt] is the number of ones of the vector and
    [isall(val)] decides whether all of its bits are [val]. *)
Theorem popcnt_isall_correct v : wf v -> 0 < m_size v ->
  popcnt v = Ok (Z.of_nat (count_occ bool_dec (bits v) true)) /\
  (forall val, exists b, isall v val = Ok b /\ (b = true <-> Forall (fun x => x = val) (bits v))).
Proof.
  intros Hv Hp. split.
  - rewrite popcnt_ok by done. f_equal. unfold bits, rank.
    assert (G : forall n s, cnt (bit_at (m_words v)) s n =
      Z.of_nat (count_occ bool_dec (map (bit_at (m_words v)) (seqZ s (Z.of_nat n))) true)).
    { induction n as [|n IH]; intros s; [done|]. rewrite seqZ_cons by lia. cbn [cnt map count_occ].
      rewrite IH. replace (Z.pred (Z.of_nat (S n))) with (Z.of_nat n) by lia. unfold Z.succ.
      destruct (bit_at (m_words v) s), (bool_dec _ _); (done || simpl Z.b2z; lia). }
    rewrite G. by rewrite Z2Nat.id by lia.
  - intros val. destruct (isall_ok v val Hv Hp) as (b & -> & H). exists b. split; [done|]. rewrite H.
    unfold bits. rewrite Forall_map, Forall_forall. split.
    + intros HA i Hi%list_elem_of_In%elem_of_seqZ. cbn. apply HA. lia.
    + intros HA i Hi. apply HA, list_elem_of_In, elem_of_seqZ. lia.
Qed.

(** round trip.  [get_uint] after [set_uint] reads the value back, and a
    range that does not overlap reads as before. *)
Theorem uint_roundtrip v p width val p' width' :
  wf v -> fits_width width val -> 0 <= p -> p + width <= m_size v ->
  0 < width' <= 64 -> 0 <= p' -> p' + width' <= m_size v -> p' + width' <= p \/ p + width <= p' ->
  exists v', set_uint v p width val = Ok v' /\ get_uint v' p width = Ok val /\
    get_uint v' p' width' = get_uint v p' width'.
Proof.
  intros Hv (Hw & Hval & Hs) Hp H1 Hw' Hp' H1' Hd.
  destruct (set_uint_ok v p width val Hv) as (u & E & Wu & Su & B); [done|lia..|done|lia|].
  assert (Hg : forall x q w, wf x -> 0 < w <= 64 -> 0 <= q -> q + w <= m_size x ->
    exists r, get_uint x q w = Ok r /\ uint_at (m_words x) q w r).
  { intros x q w [Wx Sx] Hw0 Hq Hle. unfold get_uint, m_capacity in *.
    rewrite (proj2 (Z.ltb_lt _ _)), (proj2 (Z.leb_le _ _)) by lia. cbn [assert_ rbind].
    apply s_get_uint_ok; (done || lia). }
  exists u. split; [done|]. split.
  - destruct (Hg u p width) as (r & -> & Hr); [done|lia..|]. f_equal.
    eapply uint_at_unique; [done|done|done|lia|]. intros m Hm. rewrite B by lia.
    destruct (Z.leb_spec p (p + m)), (Z.ltb_spec (p + m) (p + width)); try lia. cbn [andb]. f_equal. lia.
  - destruct (Hg u p' width') as (r & -> & Wr & Hr); [done|lia..|].
    destruct (Hg v p' width') as (r' & -> & Wr' & Hr'); [done|lia..|]. f_equal.
    apply word64_eq; [done..|]. intros m Hm. rewrite Hr, Hr' by done.
    destruct (Z.ltb_spec m width'); [|done]. cbn [andb]. rewrite B by lia.
    destruct (Z.leb_spec p (p' + m)), (Z.ltb_spec (p' + m) (p + width)); (lia || done).
Qed.

(** functional.  [fast_ensure_set1] needs the spare capacity to be zero and
    keeps it so; it then extends the vector with zeros and sets the bit. *)
Theorem fast_ensure_set1_correct junk v i : (forall j, word64 (junk j)) ->
  wf v -> spare_zero v -> 0 <= i < 2 ^ 63 ->
  exists v', fast_ensure_set1 junk v i = Ok v' /\ wf v' /\ spare_zero v' /\
    Some (bits v') = spec_op (OEnsureSet i true) (bits v).
Proof.
  intros Hj Hv Hz Hi. destruct (fast_ensure_set1_ok junk Hj v i Hv Hz Hi) as (u & -> & Zu & R).
  exists u. split; [done|]. split; [apply R|]. split; [done|]. cbn [spec_op]. rewrite decide_True by done.
  pose proof (len_bits v Hv) as Lv. f_equal. pose proof Hv as [_ Sv].
  eapply bits_eq; [exact R|rewrite len_insert, len_resize; lia|].
  intros p Hp. cbn beta. rewrite lbit_insert by (rewrite ?len_resize; lia). destruct (p =? i); [done|].
  rewrite lbit_resize, Lv by lia. destruct (Z.ltb_spec p (m_size v)); [by rewrite lbit_bits by lia|done].
Qed.

(** functional.  The range constructor throws [out_of_range] exactly when
    the range leaves the source, else it copies the bits of the range. *)
Theorem copy_range_correct y beg n : wf y -> 0 <= beg -> 0 <= n ->
  if m_size y <? beg + n then copy_range y beg n = Throw out_of_range
  else exists v, copy_range y beg n = Ok v /\ wf v /\
    bits v = take (Z.to_nat n) (drop (Z.to_nat beg) (bits y)).
Proof.
  intros Hy Hb Hn. destruct (Z.ltb_spec (m_size y) (beg + n)) as [L|L].
  { unfold copy_range. by rewrite (proj2 (Z.ltb_lt _ _)) by lia. }
  destruct (copy_range_ok y beg n Hy Hb Hn L) as (v & -> & R). exists v. split; [done|]. split; [apply R|].
  pose proof (len_bits y Hy) as Ly.
  eapply bits_eq; [exact R|by rewrite len_take by (rewrite len_drop; lia)|].
  intros i Hi. rewrite lbit_take, lbit_drop by lia. apply lbit_bits. lia.
Qed.

(** functional.  [-=], [^=], [&=] and [|=] apply the operator bit by bit to
    the common words of the two vectors and leave the others. *)
Theorem op_assign_correct op bop v y : is_bitop op bop -> wf v -> wf y ->
  exists v', op_assign op v y = Ok v' /\ wf v' /\ m_size v' = m_size v /\
    forall i, 0 <= i < m_size v -> bit_at (m_words v') i =
      if i <? 64 * Z.min (num_words v) (num_words y)
      then bop (bit_at (m_words v) i) (bit_at (m_words y) i) else bit_at (m_words v) i.
Proof.
  intros Ho Hv Hy. destruct (op_assign_ok op bop v y Ho Hv Hy) as (u & -> & _ & W & S & B). eauto.
Qed.

(** error.  The constructor with a padding value is off by one in its last
    word: whenever the padding differs from the value, bit 0 of a vector of
    fewer than 64 bits is the padding and not the value it should hold. *)
Theorem make_padded_bit0 junk n val padding : 0 < n < 64 -> padding <> val ->
  exists v, make_padded junk n val padding = Ok v /\ wf v /\ m_size v = n /\
    is1 v 0 = Ok padding /\ forall i, 1 <= i < n -> is1 v i = Ok val.
Proof.
  intros Hn Hne. exists (FV [if padding then not64 (2 ^ n - 2) else 2 ^ n - 2] n).
  assert (H2 : 2 ^ n < 2 ^ 64) by (apply Z.pow_lt_mono_r; lia).
  assert (H1 : 2 <= 2 ^ n) by (change 2 with (2 ^ 1) at 1; apply Z.pow_le_mono_r; lia).
  assert (W : wf (FV [if padding then not64 (2 ^ n - 2) else 2 ^ n - 2] n)).
  { split; [|unfold m_capacity; cbn; lia]. constructor; [|constructor].
    destruct padding; [apply word64_not64|unfold word64; lia]. }
  split; [by apply make_padded_word|]. split; [done|]. split; [done|].
  assert (Hb : forall i, 0 <= i < n -> is1 (FV [if padding then not64 (2 ^ n - 2) else 2 ^ n - 2] n) i =
    Ok (if 1 <=? i then val else padding)).
  { intros i Hi. rewrite is1_ok by done. f_equal. cbn [m_words].
    replace i with (64 * 0 + i) by lia. rewrite bit_at_word by lia. change (word_at [?x] 0) with x.
    replace (64 * 0 + i) with i by lia.
    destruct padding; cbv iota; rewrite ?testbit_not64, testbit_pow2_sub2 by lia;
      destruct (Z.ltb_spec i 64), (Z.ltb_spec i n), (Z.leb_spec 1 i), val; (done || lia). }
  split; [by rewrite Hb by lia|]. intros i Hi. rewrite Hb by lia. by destruct (Z.leb_spec 1 i); [|lia].
Qed.

(** * Witnesses *)

Definition sample : febitvec := FV [0xF0F0; 5] 100.

Lemma sample_wf : wf sample.
Proof. split; [repeat constructor; unfold word64; lia|unfold m_capacity; cbn; lia]. Qed.

Definition sample_ops : list op :=
  [OSet 3 true; OPushBack true; OResize 140 true; OSetUint 60 8 0xA5; OPushUint 9 300;
   ORange 10 90 false; OEnsureSet 200 true; OAppend sample; OPopBack; OShrink; OReserve 1000].

Lemma exec_refines_witness : exists v',
  exec (fun _ _ => 7) sample_ops sample = Ok v' /\ wf v' /\
  bits v' = default [] (spec sample_ops (bits sample)).
Proof.
  apply (exec_refines (fun _ _ => 7) sample_ops sample).
  - intros. unfold word64. lia.
  - exact sample_wf.
  - repeat first [apply List.Forall_nil | apply List.Forall_cons | exact I | exact sample_wf].
  - vm_compute. reflexivity.
Defined.

Lemma seq_len_correct_witness :
  (4 < 100 ->
     (exists n, one_seq_len sample 4 = Ok n /\ is_run (bit_at [0xF0F0; 5]) true 4 128 n) /\
     (exists n, zero_seq_len sample 4 = Ok n /\ is_run (bit_at [0xF0F0; 5]) false 4 128 n)) /\
  (exists n, one_seq_revlen sample 4 = Ok n /\ is_revrun (bit_at [0xF0F0; 5]) true 4 n) /\
  (exists n, zero_seq_revlen sample 4 = Ok n /\ is_revrun (bit_at [0xF0F0; 5]) false 4 n).
Proof. apply (seq_len_correct sample 4); [exact sample_wf|cbn; lia]. Defined.

Lemma zero_seq_len_counts_padding_witness : zero_seq_len (FV [0] 3) 1 = Ok 63.
Proof.
  apply (zero_seq_len_counts_padding (FV [0] 3) 1).
  - split; [repeat constructor; unfold word64; lia|unfold m_capacity; cbn; lia].
  - intros p Hp. unfold m_capacity in Hp. cbn in Hp.
    unfold bit_at. rewrite Z.div_small by lia. apply Z.bits_0.
  - cbn. lia.
  - intros p Hp. cbn in Hp. unfold bit_at. rewrite Z.div_small by (cbn in Hp; lia). apply Z.bits_0.
Defined.

Lemma popcnt_isall_correct_witness :
  popcnt sample = Ok (Z.of_nat (count_occ bool_dec (bits sample) true)) /\
  (forall val, exists b, isall sample val = Ok b /\ (b = true <-> Forall (fun x => x = val) (bits sample))).
Proof. apply (popcnt_isall_correct sample); [exact sample_wf|cbn; lia]. Defined.

Lemma uint_roundtrip_witness : exists v',
  set_uint sample 60 8 0xA5 = Ok v' /\ get_uint v' 60 8 = Ok 0xA5 /\ get_uint v' 0 60 = get_uint sample 0 60.
Proof.
  apply (uint_roundtrip sample 60 8 0xA5 0 60); [exact sample_wf| |cbn; lia..].
  split; [lia|]. split; [lia|reflexivity].
Defined.

Lemma fast_ensure_set1_correct_witness : exists v',
  fast_ensure_set1 (fun _ => 7) (FV [5] 3) 100 = Ok v' /\ wf v' /\ spare_zero v' /\
    Some (bits v') = spec_op (OEnsureSet 100 true) (bits (FV [5] 3)).
Proof.
  apply (fast_ensure_set1_correct (fun _ => 7) (FV [5] 3) 100).
  - intros. unfold word64. lia.
  - split; [repeat constructor; unfold word64; lia|unfold m_capacity; cbn; lia].
  - intros p Hp. unfold m_capacity in Hp. cbn in Hp.
    unfold bit_at. rewrite Z.div_small, Z.mod_small by lia. apply (testbit_high 5 p 3); lia.
  - lia.
Defined.

Lemma copy_range_correct_witness : exists v, copy_range sample 7 80 = Ok v /\ wf v /\
  bits v = take (Z.to_nat 80) (drop (Z.to_nat 7) (bits sample)).
Proof. apply (copy_range_correct sample 7 80); [exact sample_wf|lia..]. Defined.

Lemma op_assign_correct_witness : exists v', op_assign Z.lxor sample (FV [3] 10) = Ok v' /\ wf v' /\
  m_size v' = 100 /\ forall i, 0 <= i < 100 -> bit_at (m_words v') i =
    if i <? 64 then xorb (bit_at [0xF0F0; 5] i) (bit_at [3] i) else bit_at [0xF0F0; 5] i.
Proof.
  apply (op_assign_correct Z.lxor xorb sample (FV [3] 10)); [constructor|exact sample_wf|].
  split; [repeat constructor; unfold word64; lia|unfold m_capacity; cbn; lia].
Defined.

Lemma make_padded_bit0_witness : exists v, make_padded (fun _ => 0) 3 true false = Ok v /\ wf v /\
  m_size v = 3 /\ is1 v 0 = Ok false /\ forall i, 1 <= i < 3 -> is1 v i = Ok true.
Proof. apply (make_padded_bit0 (fun _ => 0) 3 true false); [lia|discriminate]. Defined.

End Febitvec.
