(* ===== verification/IntVec.v ===== *)
(** * Packed integer vectors

    [src/src/terark/int_vector.hpp] and [.cpp]: [UintVecMin0Base] with its two
    readers [UintVecMin0] (widths up to 58, one unaligned load) and
    [BigUintVecMin0] (any width), and [ZipIntVector], which stores the distance
    to the minimum.  [m_data] is a block of bytes whose size is a multiple of 16;
    it is modelled by its 64-bit words.  What a growing block leaves in memory is
    [junk].  The file builders are I/O. *)
From S2P Require Import Prelude Bits Febitvec.
Import Febitvec.

Module IntVec.

(** ** [UintVecMin0Base] *)

Record UintVecMin0 := UV { m_data : list Z; m_bits : Z; m_mask : Z; m_size : Z }.
Definition nullize : UintVecMin0 := UV [] 0 0 0.
Definition mem_size (v : UintVecMin0) : Z := 8 * Z.of_nat (length (m_data v)).

(** [TERARK_VERIFY]: the process is aborted. *)
Definition verify (c : bool) : res unit := if c then Ok tt else Throw terark_die.

Definition compute_mem_size (bits num : Z) : Z :=
  let usingsize := (bits * num + 7) / 8 in
  let touchsize := usingsize + 8 - 1 in
  Z.land (touchsize + 15) (Z.lnot 15).

Definition compute_uintbits (value : Z) : res Z :=
  loop 65 (fun '(bits, value) =>
    if negb (value =? 0) then Ok (inl (bits + 1, Z.shiftr value 1)) else Ok (inr bits)) (0, value).

Definition mask_of (bits : Z) : Z := if bits =? 64 then Z.ones 64 else shl64 1 bits - 1.

Definition set_wire (v : UintVecMin0) (idx val : Z) : res UintVecMin0 :=
  let* _ := assert_ (idx <? m_size v) in
  let* _ := assert_ (val <=? m_mask v) in
  let* _ := assert_ (m_bits v <=? 64) in
  let* w := s_set_uint (m_data v) (m_bits v * idx) (m_bits v) val in
  Ok (UV w (m_bits v) (m_mask v) (m_size v)).

(** *** Reading *)

(** [unaligned_load<size_t>(data + byte_idx)], little-endian *)
Definition unaligned_load (data : list Z) (byte_idx : Z) : res Z := s_get_uint data (8 * byte_idx) 64.

Definition load_get (data : list Z) (bits mask idx : Z) : res Z :=
  let bit_idx := bits * idx in
  let* val := unaligned_load data (bit_idx / 8) in
  Ok (Z.land (Z.shiftr val (bit_idx mod 8)) mask).
Definition fast_get (data : list Z) (bits mask idx : Z) : res Z :=
  let* _ := assert_ (bits <=? 58) in load_get data bits mask idx.
Definition get (v : UintVecMin0) (idx : Z) : res Z :=
  let* _ := assert_ (idx <? m_size v) in
  let* _ := assert_ (m_bits v <=? 58) in fast_get (m_data v) (m_bits v) (m_mask v) idx.

Definition big_fast_get (data : list Z) (bits idx : Z) : res Z :=
  let* _ := assert_ (bits <=? 64) in s_get_uint data (bits * idx) bits.
Definition big_get (v : UintVecMin0) (idx : Z) : res Z :=
  let* _ := assert_ (idx <? m_size v) in
  let* _ := assert_ (m_bits v <=? 64) in
  let* val := s_get_uint (m_data v) (m_bits v * idx) (m_bits v) in
  let* _ := assert_ (val <=? m_mask v) in Ok val.

(** *** Sizes *)

Section alloc.
Context (junk : nat -> Z).

(** [m_data.resize(bytes)] on the words *)
Definition grow_words (ws : list Z) (bytes : Z) : list Z := realloc junk ws (Z.to_nat (bytes / 8)).

Definition resize_with_uintbits (num bits : Z) : UintVecMin0 :=
  UV (if negb (num =? 0) then grow_words [] (compute_mem_size bits num) else []) bits (mask_of bits) num.
Definition resize_with_wire_max_val (num max_val : Z) : res UintVecMin0 :=
  let* bits := compute_uintbits max_val in Ok (resize_with_uintbits num bits).

Definition align_up (x a : Z) : Z := Z.land (x + (a - 1)) (Z.lnot (a - 1)).

Definition push_back_slow_path (v : UintVecMin0) (val : Z) : res UintVecMin0 :=
  let num := m_size v in
  let* v :=
    if m_mask v <? val then
      let* tmp := resize_with_wire_max_val (Z.max (num + 1) (num * 103 / 64)) val in
      let* tmp := for_ 0 num (fun i tmp =>
        let* x := if m_bits v <=? 58 then fast_get (m_data v) (m_bits v) (m_mask v) i
                  else big_fast_get (m_data v) (m_bits v) i in
        set_wire tmp i x) tmp in
      Ok (UV (m_data tmp) (m_bits tmp) (m_mask tmp) num)
    else Ok (UV (grow_words (m_data v) (Z.max 32 (align_up (mem_size v * 103 / 64) 16))) (m_bits v) (m_mask v) num) in
  let* _ := verify (mem_size v mod 16 =? 0) in
  let* _ := verify (compute_mem_size (m_bits v) (m_size v + 1) <? mem_size v) in
  set_wire (UV (m_data v) (m_bits v) (m_mask v) (num + 1)) num val.

Definition push_back (v : UintVecMin0) (val : Z) : res UintVecMin0 :=
  let* _ := assert_ (m_bits v <=? 64) in
  if (compute_mem_size (m_bits v) (m_size v + 1) <? mem_size v) && (val <=? m_mask v)
  then set_wire (UV (m_data v) (m_bits v) (m_mask v) (m_size v + 1)) (m_size v) val
  else push_back_slow_path v val.

(** [build_from], for an unsigned element type: the vector and the minimum *)
Definition min_max (src : list Z) (num : Z) (x : Z) : res (Z * Z) :=
  for_ 1 num (fun i '(min_val, max_val) =>
    let* x := rd src i in
    Ok (if x <? min_val then x else min_val, if max_val <? x then x else max_val)) (x, x).
Definition build_from (src : list Z) : res (UintVecMin0 * Z) :=
  let num := Z.of_nat (length src) in
  match src with
  | [] => Ok (nullize, 0)
  | x :: _ =>
    let* (min_val, max_val) := min_max src num x in
    let* v := resize_with_wire_max_val num (max_val - min_val) in
    let* v := for_ 0 num (fun i v => let* x := rd src i in set_wire v i (x - min_val)) v in
    Ok (v, min_val)
  end.
End alloc.

(** *** Binary search in [lo, hi); [at_] reads an element *)

Section search.
Context (at_ : Z -> res Z).

Definition lower_bound_in (lo hi key : Z) : res Z :=
  loop (S (Z.to_nat (hi - lo))) (fun '(lo, hi) =>
    if lo <? hi then
      let mid_idx := (lo + hi) / 2 in
      let* mid_val := at_ mid_idx in
      if mid_val <? key then Ok (inl (mid_idx + 1, hi)) else Ok (inl (lo, mid_idx))
    else Ok (inr lo)) (lo, hi).

Definition upper_bound_in (lo hi key : Z) : res Z :=
  loop (S (Z.to_nat (hi - lo))) (fun '(lo, hi) =>
    if lo <? hi then
      let mid_idx := (lo + hi) / 2 in
      let* mid_val := at_ mid_idx in
      if mid_val <=? key then Ok (inl (mid_idx + 1, hi)) else Ok (inl (lo, mid_idx))
    else Ok (inr lo)) (lo, hi).

Definition equal_range_in (lo hi key : Z) : res (Z * Z) :=
  loop (S (Z.to_nat (hi - lo))) (fun '(lo, hi) =>
    if lo <? hi then
      let mid_idx := (lo + hi) / 2 in
      let* mid_val := at_ mid_idx in
      if mid_val <? key then Ok (inl (mid_idx + 1, hi))
      else if key <? mid_val then Ok (inl (lo, mid_idx))
      else
        let* a := lower_bound_in lo mid_idx key in
        let* b := upper_bound_in (mid_idx + 1) hi key in Ok (inr (a, b))
    else Ok (inr (lo, lo))) (lo, hi).
End search.

Definition in_bounds {A} (v : UintVecMin0) (lo hi : Z) (k : res A) : res A :=
  let* _ := assert_ (lo <=? hi) in let* _ := assert_ (hi <=? m_size v) in k.
Definition lower_bound (v : UintVecMin0) (lo hi key : Z) : res Z :=
  in_bounds v lo hi (lower_bound_in (load_get (m_data v) (m_bits v) (m_mask v)) lo hi key).
Definition upper_bound (v : UintVecMin0) (lo hi key : Z) : res Z :=
  in_bounds v lo hi (upper_bound_in (load_get (m_data v) (m_bits v) (m_mask v)) lo hi key).
Definition equal_range (v : UintVecMin0) (lo hi key : Z) : res (Z * Z) :=
  in_bounds v lo hi (equal_range_in (load_get (m_data v) (m_bits v) (m_mask v)) lo hi key).
Definition big_lower_bound (v : UintVecMin0) (lo hi key : Z) : res Z :=
  in_bounds v lo hi (lower_bound_in (big_fast_get (m_data v) (m_bits v)) lo hi key).
Definition big_upper_bound (v : UintVecMin0) (lo hi key : Z) : res Z :=
  in_bounds v lo hi (upper_bound_in (big_fast_get (m_data v) (m_bits v)) lo hi key).
Definition big_equal_range (v : UintVecMin0) (lo hi key : Z) : res (Z * Z) :=
  in_bounds v lo hi (equal_range_in (big_fast_get (m_data v) (m_bits v)) lo hi key).

(** ** [ZipIntVector], [Int = size_t] ([UintVector]) *)

Record ZipIntVector := Zip { z_vec : UintVecMin0; m_min_val : Z }.
Definition zip_size (z : ZipIntVector) : Z := m_size (z_vec z).
Definition zip_build_from (junk : nat -> Z) (src : list Z) : res ZipIntVector :=
  let* (v, min_val) := build_from junk src in Ok (Zip v min_val).
Definition zip_set (z : ZipIntVector) (idx val : Z) : res ZipIntVector :=
  let* _ := assert_ (m_min_val z <=? val) in
  let* _ := assert_ (val <=? u64 (m_min_val z + m_mask (z_vec z))) in
  let* v := set_wire (z_vec z) idx (val - m_min_val z) in Ok (Zip v (m_min_val z)).
Definition zip_get (z : ZipIntVector) (idx : Z) : res Z :=
  let* _ := assert_ (idx <? zip_size z) in
  let* x := get (z_vec z) idx in Ok (u64 (m_min_val z + x)).
Definition zip_lower_bound (z : ZipIntVector) (lo hi key : Z) : res Z :=
  in_bounds (z_vec z) lo hi
    (if m_min_val z <? key then lower_bound (z_vec z) lo hi (key - m_min_val z) else Ok lo).
Definition zip_upper_bound (z : ZipIntVector) (lo hi key : Z) : res Z :=
  in_bounds (z_vec z) lo hi
    (if m_min_val z <? key then upper_bound (z_vec z) lo hi (key - m_min_val z) else Ok lo).
Definition zip_equal_range (z : ZipIntVector) (lo hi key : Z) : res (Z * Z) :=
  in_bounds (z_vec z) lo hi
    (if m_min_val z <? key then equal_range (z_vec z) lo hi (key - m_min_val z) else Ok (lo, lo)).

(** ** The vector as a list of numbers *)

Lemma align16 x : Z.land x (Z.lnot 15) = 16 * (x / 16).
Proof.
  change 15 with (Z.ones 4). rewrite <- Z.ldiff_land, Z.ldiff_ones_r, Z.shiftl_mul_pow2, Z.shiftr_div_pow2 by lia. change (2 ^ 4) with 16. lia.
Qed.

Lemma compute_mem_size_eq bits num : let x := (bits * num + 7) / 8 + 22 in compute_mem_size bits num = 16 * (x / 16).
Proof.
  unfold compute_mem_size. rewrite align16. by replace ((bits * num + 7) / 8 + 8 - 1 + 15) with ((bits * num + 7) / 8 + 22) by lia.
Qed.

Lemma mask_of_ones bits : 0 <= bits <= 64 -> mask_of bits = Z.ones bits.
Proof.
  intros H. unfold mask_of. destruct (Z.eqb_spec bits 64) as [->|]; [done|]. unfold shl64, u64. rewrite Z.shiftl_1_l, Z.ones_equiv.
  rewrite Z.mod_small; [lia|]. split; [lia|]. apply Z.pow_lt_mono_r; lia.
Qed.

(** Well-formed: the block has room for [m_size] elements and the bytes that a
    load touches behind them. *)
Record wf (v : UintVecMin0) : Prop := {
  wf_bits : 0 <= m_bits v <= 64;
  wf_mask : m_mask v = mask_of (m_bits v);
  wf_size : 0 <= m_size v;
  wf_words : words (m_data v);
  wf_align : mem_size v mod 16 = 0;
  wf_room : m_size v = 0 \/ compute_mem_size (m_bits v) (m_size v) <= mem_size v }.

(** Element [i] is [x]; [l] is the list of the first elements. *)
Definition elem (v : UintVecMin0) (i x : Z) : Prop := uint_at (m_data v) (m_bits v * i) (m_bits v) x.
Definition elems (v : UintVecMin0) (l : list Z) : Prop :=
  wf v /\ Z.of_nat (length l) <= m_size v /\ forall i x, l !! i = Some x -> elem v (Z.of_nat i) x.

Lemma elem_room v i : wf v -> 0 <= i < m_size v ->
  0 <= m_bits v * i /\ m_bits v * i + m_bits v <= 64 * Z.of_nat (length (m_data v)) /\
  8 * (m_bits v * i / 8) + 64 <= 64 * Z.of_nat (length (m_data v)) /\ m_bits v * i < 64 * Z.of_nat (length (m_data v)).
Proof.
  intros [Hb _ _ _ _ [?|R]] Hi; [lia|]. rewrite compute_mem_size_eq in R. unfold mem_size in R.
  set (b := m_bits v) in *. set (N := m_size v) in *. set (len := Z.of_nat (length (m_data v))) in *.
  assert (b * i + b <= b * N) by nia. assert (0 <= b * i) by nia.
  pose proof (Z.div_mod (b * N + 7) 8 ltac:(lia)). pose proof (Z.mod_pos_bound (b * N + 7) 8 ltac:(lia)).
  set (u := (b * N + 7) / 8) in *. pose proof (Z.div_mod (u + 22) 16 ltac:(lia)). pose proof (Z.mod_pos_bound (u + 22) 16 ltac:(lia)).
  pose proof (Z.div_mod (b * i) 8 ltac:(lia)). pose proof (Z.mod_pos_bound (b * i) 8 ltac:(lia)).
  assert (b = 0 \/ 1 <= b) as [->|] by lia; lia.
Qed.

Lemma elem_range v i x : 0 <= m_bits v <= 64 -> elem v i x -> 0 <= x <= Z.ones (m_bits v).
Proof.
  intros Hb [Wx Hx]. assert (E : Z.land x (Z.ones (m_bits v)) = x).
  { apply word64_eq; [apply word64_land; [done|by apply word64_ones]|done|]. intros m Hm.
    rewrite Z.land_spec, Z.testbit_ones_nonneg, Hx by lia. destruct (m <? m_bits v); [apply andb_true_r|done]. }
  rewrite Z.land_ones in E by lia. rewrite Z.ones_equiv. pose proof (Z.mod_pos_bound x (2 ^ m_bits v)). lia.
Qed.

Lemma elem_fun v i x y : elem v i x -> elem v i y -> x = y.
Proof. intros [Wx Hx] [Wy Hy]. apply word64_eq; [done..|]. intros m Hm. by rewrite Hx, Hy. Qed.

(** *** Reading *)

Lemma load_get_ok v i x : wf v -> m_bits v <= 58 -> 0 <= i < m_size v -> elem v i x ->
  load_get (m_data v) (m_bits v) (m_mask v) i = Ok x.
Proof.
  intros Hwf Hb Hi [Wx Hx]. destruct (elem_room v i Hwf Hi) as (R1 & R2 & R3 & R4). pose proof Hwf as [Hbits -> _ Hw _ _].
  unfold load_get, unaligned_load. set (p := m_bits v * i) in *. pose proof (Z.div_mod p 8 ltac:(lia)). pose proof (Z.mod_pos_bound p 8 ltac:(lia)).
  destruct (s_get_uint_ok (m_data v) (8 * (p / 8)) 64 Hw) as (w & -> & Ww & Hww); [lia|lia|lia|lia|]. cbn [rbind]. f_equal.
  rewrite mask_of_ones by lia. apply word64_eq; [|done|].
  - apply word64_land; [apply word64_shr; [done|lia]|by apply word64_ones].
  - intros m Hm. rewrite Hx by done. rewrite Z.land_spec, Z.testbit_ones_nonneg, testbit_shr, andb_comm by lia.
    destruct (Z.ltb_spec m (m_bits v)) as [Lm|]; [|done]. cbn [andb]. assert (p mod 8 + m_bits v <= 64).
    { destruct (decide (m_bits v = 58)) as [E|]; [|lia]. unfold p in *. rewrite E in *.
      assert ((58 * i) mod 8 = 2 * ((29 * i) mod 4)) as ->; [|pose proof (Z.mod_pos_bound (29 * i) 4); lia].
      replace (58 * i) with (2 * (29 * i)) by lia. change 8 with (2 * 4). by rewrite Z.mul_mod_distr_l by lia. }
    rewrite Hww by lia. rewrite (proj2 (Z.ltb_lt _ _)) by lia. cbn [andb]. f_equal. lia.
Qed.

Lemma get_ok v i x : wf v -> m_bits v <= 58 -> 0 <= i < m_size v -> elem v i x -> get v i = Ok x.
Proof.
  intros Hwf Hb Hi Hx. unfold get, fast_get. rewrite (proj2 (Z.ltb_lt _ _)), (proj2 (Z.leb_le _ _)) by lia. cbn [assert_ rbind].
  by apply load_get_ok.
Qed.

Lemma big_fast_get_ok v i x : wf v -> 0 <= i < m_size v -> elem v i x -> big_fast_get (m_data v) (m_bits v) i = Ok x.
Proof.
  intros Hwf Hi Hx. destruct (elem_room v i Hwf Hi) as (R1 & R2 & R3 & R4). pose proof Hwf as [Hbits _ _ Hw _ _].
  unfold big_fast_get. rewrite (proj2 (Z.leb_le _ _)) by lia. cbn [assert_ rbind].
  destruct (s_get_uint_ok (m_data v) (m_bits v * i) (m_bits v) Hw) as (w & -> & Hww); [lia..|]. f_equal. by apply (elem_fun v i).
Qed.

Lemma big_get_ok v i x : wf v -> 0 <= i < m_size v -> elem v i x -> big_get v i = Ok x.
Proof.
  intros Hwf Hi Hx. pose proof (big_fast_get_ok v i x Hwf Hi Hx) as G. unfold big_fast_get in G. unfold big_get.
  pose proof Hwf as [Hbits Hm _ _ _ _]. rewrite (proj2 (Z.ltb_lt _ _)) by lia. rewrite (proj2 (Z.leb_le _ _)) in * by lia.
  cbn [assert_ rbind] in *. rewrite G. cbn [rbind]. rewrite Hm, mask_of_ones by lia.
  pose proof (elem_range v i x Hbits Hx). by rewrite (proj2 (Z.leb_le _ _)) by lia.
Qed.

(** *** Writing *)

Lemma set_wire_ok v i val : wf v -> 0 <= i < m_size v -> 0 <= val <= m_mask v -> exists v',
  set_wire v i val = Ok v' /\ wf v' /\ m_size v' = m_size v /\ m_bits v' = m_bits v /\ m_mask v' = m_mask v /\
  mem_size v' = mem_size v /\ elem v' i val /\ forall j x, 0 <= j < m_size v -> j <> i -> elem v j x -> elem v' j x.
Proof.
  intros Hwf Hi Hv. destruct (elem_room v i Hwf Hi) as (R1 & R2 & R3 & R4). pose proof Hwf as [Hbits Hm Hs Hw Ha Hr].
  rewrite Hm, mask_of_ones in Hv by lia. unfold set_wire.
  rewrite (proj2 (Z.ltb_lt _ _)), Hm, mask_of_ones, !(proj2 (Z.leb_le _ _)) by lia. cbn [assert_ rbind].
  assert (Wv : word64 val /\ Z.shiftr val (m_bits v) = 0).
  { rewrite Z.ones_equiv in Hv. rewrite Z.shiftr_div_pow2 by lia. split; [|apply Z.div_small; lia].
    pose proof (Z.pow_le_mono_r 2 (m_bits v) 64). unfold word64. lia. }
  destruct Wv as [Wv Sv]. destruct (s_set_uint_ok (m_data v) (m_bits v * i) (m_bits v) val Hw Wv) as (w & -> & L & W & B); [lia|lia|done|lia|lia|].
  cbn [rbind]. eexists. split; [done|]. set (v' := UV _ _ _ _). assert (Em : mem_size v' = mem_size v) by (unfold mem_size; cbn; by rewrite L).
  split; [|split; [done|split; [done|split; [done|split; [done|split]]]]].
  - split; cbn [m_bits m_mask m_size m_data v']; try done; [by rewrite mask_of_ones by lia|by rewrite Em|]. by rewrite Em.
  - split; [done|]. intros m Hmm. cbn [m_data m_bits v']. destruct (Z.ltb_spec m (m_bits v)).
    + rewrite B by lia. rewrite (proj2 (Z.leb_le _ _)), (proj2 (Z.ltb_lt _ _)) by lia. cbn [andb]. f_equal. lia.
    + apply (testbit_above val (m_bits v)); (done || lia).
  - intros j x Hj Hne [Wx Hx]. split; [done|]. intros m Hmm. rewrite Hx by done. cbn [m_data m_bits v'].
    destruct (Z.ltb_spec m (m_bits v)); [|done]. cbn [andb]. rewrite B by nia.
    destruct (Z.leb_spec (m_bits v * i) (m_bits v * j + m)), (Z.ltb_spec (m_bits v * j + m) (m_bits v * i + m_bits v)); (done || nia).
Qed.

(** *** Sizes *)

(** The width of a number: it fits, and no smaller width does. *)
Lemma compute_uintbits_ok value : word64 value -> exists bits, compute_uintbits value = Ok bits /\ 0 <= bits <= 64 /\
  value <= mask_of bits /\ forall k, 0 <= k -> value < 2 ^ k -> bits <= k.
Proof.
  intros Hv. unfold compute_uintbits. unfold word64 in Hv.
  match goal with |- context [loop ?fuel ?body ?s] =>
    destruct (loop_inv (fun '(bits, x) => 0 <= bits <= 64 /\ x = value / 2 ^ bits /\ (bits = 0 \/ 2 ^ (bits - 1) <= value))
      (fun '(bits, x) => 64 - bits)
      (fun bits => 0 <= bits <= 64 /\ value < 2 ^ bits /\ (bits = 0 \/ 2 ^ (bits - 1) <= value)) body fuel s) as (bits & -> & Hb & Hlt & Hmin) end.
  - split; [lia|]. split; [by rewrite Z.pow_0_r, Z.div_1_r|by left].
  - lia.
  - intros [bits x] (Hb & -> & Hmin). split; [lia|]. pose proof (Z.pow_pos_nonneg 2 bits ltac:(lia) ltac:(lia)).
    pose proof (Z.div_mod value (2 ^ bits) ltac:(lia)). pose proof (Z.mod_pos_bound value (2 ^ bits) ltac:(lia)).
    destruct (Z.eqb_spec (value / 2 ^ bits) 0) as [E|E]; cbn [negb].
    + right. eexists. split; [done|]. split; [done|]. split; [nia|done].
    + left. assert (2 ^ bits <= value) by (pose proof (Z.div_pos value (2 ^ bits)); nia).
      assert (bits < 64) by (destruct (decide (bits = 64)) as [->|]; lia).
      eexists. split; [done|]. split; [|lia]. split; [lia|]. split; [|right; by replace (bits + 1 - 1) with bits by lia].
      rewrite Z.shiftr_div_pow2, Z.div_div, Z.pow_add_r by lia. done.
  - exists bits. split; [done|]. split; [done|]. split; [rewrite mask_of_ones, Z.ones_equiv by done; lia|].
    intros k Hk Hvk. destruct Hmin as [->|Hmin]; [lia|]. destruct (decide (bits <= k)); [done|].
    pose proof (Z.pow_le_mono_r 2 k (bits - 1)). lia.
Qed.

Section alloc_ok.
Context (junk : nat -> Z) (Hjunk : forall j, word64 (junk j)).

Lemma grow_words_ok ws q : words ws -> 8 * Z.of_nat (length ws) <= 16 * q ->
  8 * Z.of_nat (length (grow_words junk ws (16 * q))) = 16 * q /\ words (grow_words junk ws (16 * q)) /\
  forall p, 0 <= p < 64 * Z.of_nat (length ws) -> bit_at (grow_words junk ws (16 * q)) p = bit_at ws p.
Proof.
  intros Hw Hq. unfold grow_words. replace (16 * q / 8) with (2 * q) by (replace (16 * q) with (2 * q * 8) by lia; by rewrite Z.div_mul).
  destruct (realloc_ok junk Hjunk ws (Z.to_nat (2 * q)) Hw) as (L & W & B). split; [lia|]. split; [done|]. intros p Hp. apply B; lia.
Qed.

Lemma iv_resize_ok num bits : 0 <= num -> 0 <= bits <= 64 -> wf (resize_with_uintbits junk num bits).
Proof.
  intros Hn Hb. unfold resize_with_uintbits. destruct (Z.eqb_spec num 0) as [->|]; cbn [negb].
  - split; cbn; try done. by left.
  - rewrite compute_mem_size_eq. set (q := (_ + 22) / 16). assert (0 <= (bits * num + 7) / 8) by (apply Z.div_pos; nia).
    assert (0 <= q) by (apply Z.div_pos; lia). destruct (grow_words_ok [] q) as (L & W & _); [constructor|cbn; lia|].
    split; cbn [m_bits m_mask m_size m_data]; try done; unfold mem_size; cbn [m_data]; rewrite ?L.
    + rewrite Z.mul_comm. apply Z.mod_mul. lia.
    + right. rewrite compute_mem_size_eq. fold q. lia.
Qed.

Lemma iv_set_range_ok v i val l : elems v l -> i = Z.of_nat (length l) -> i < m_size v -> 0 <= val <= m_mask v -> exists v',
  set_wire v i val = Ok v' /\ elems v' (l ++ [val]) /\ m_size v' = m_size v /\ m_bits v' = m_bits v /\ m_mask v' = m_mask v /\ mem_size v' = mem_size v.
Proof.
  intros (Hwf & Hl & He) -> Hi Hv. destruct (set_wire_ok v (Z.of_nat (length l)) val Hwf ltac:(lia) Hv) as (v' & E & Hwf' & Es & Eb & Em & Emem & Hi' & Hj).
  exists v'. split; [done|]. split; [|done]. split; [done|]. split; [rewrite length_app; cbn; lia|].
  intros j x Hx. apply lookup_app_Some in Hx as [Hx|[Hge Hx]].
  - pose proof (lookup_lt_Some _ _ _ Hx). apply Hj; [lia|lia|by apply He].
  - apply list_lookup_singleton_Some in Hx as [E0 <-]. replace (Z.of_nat j) with (Z.of_nat (length l)) by lia. done.
Qed.

(** The list is all of the vector. *)
Definition full (v : UintVecMin0) (l : list Z) : Prop := elems v l /\ m_size v = Z.of_nat (length l).

(** *** Appending, when the number fits the width *)

Lemma room_mono bits a b : 0 <= bits -> 0 <= a <= b -> compute_mem_size bits a <= compute_mem_size bits b.
Proof.
  intros Hb Hab. rewrite !compute_mem_size_eq. apply Z.mul_le_mono_nonneg_l; [lia|]. apply Z.div_le_mono; [lia|].
  assert ((bits * a + 7) / 8 <= (bits * b + 7) / 8) by (apply Z.div_le_mono; nia). lia.
Qed.

Lemma iv_append_ok v l val : full v l -> 0 <= val <= m_mask v -> compute_mem_size (m_bits v) (m_size v + 1) <= mem_size v -> exists v',
  set_wire (UV (m_data v) (m_bits v) (m_mask v) (m_size v + 1)) (m_size v) val = Ok v' /\ full v' (l ++ [val]) /\ m_bits v' = m_bits v.
Proof.
  intros [(Hwf & Hl & He) Hs] Hv Hroom. set (u := UV _ _ _ _). pose proof Hwf as [H1 H2 H3 H4 H5 H6].
  assert (Hu : elems u l).
  { split; [split; try done; cbn; [lia|by right]|]. split; [cbn; lia|exact He]. }
  destruct (iv_set_range_ok u (m_size v) val l Hu) as (v' & E & Hv' & Es & Eb & _); [done|cbn; lia|done|].
  exists v'. split; [done|]. split; [|done]. split; [done|]. rewrite Es, length_app. cbn. lia.
Qed.

Lemma mul_add_room bits n : 0 <= bits <= 64 -> 0 <= n -> compute_mem_size bits (n + 1) <= compute_mem_size bits n + 16.
Proof.
  intros Hb Hn. rewrite !compute_mem_size_eq. replace (bits * (n + 1) + 7) with (bits * n + 7 + bits) by lia.
  pose proof (Z.div_mod (bits * n + 7) 8 ltac:(lia)). pose proof (Z.mod_pos_bound (bits * n + 7) 8 ltac:(lia)).
  pose proof (Z.div_mod (bits * n + 7 + bits) 8 ltac:(lia)). pose proof (Z.mod_pos_bound (bits * n + 7 + bits) 8 ltac:(lia)).
  set (a := (bits * n + 7) / 8) in *. set (b := (bits * n + 7 + bits) / 8) in *.
  pose proof (Z.div_mod (a + 22) 16 ltac:(lia)). pose proof (Z.mod_pos_bound (a + 22) 16 ltac:(lia)).
  pose proof (Z.div_mod (b + 22) 16 ltac:(lia)). pose proof (Z.mod_pos_bound (b + 22) 16 ltac:(lia)). lia.
Qed.

Lemma grown_units k m q : 0 <= k -> m = 16 * k -> q = Z.max 2 ((m * 103 / 64 + 15) / 16) -> (k <= 1 /\ q = 2) \/ (2 <= k /\ k + 2 <= q).
Proof.
  intros Hk -> ->. pose proof (Z.div_mod (16 * k * 103) 64 ltac:(lia)). pose proof (Z.mod_pos_bound (16 * k * 103) 64 ltac:(lia)).
  set (y := 16 * k * 103 / 64) in *. pose proof (Z.div_mod (y + 15) 16 ltac:(lia)). pose proof (Z.mod_pos_bound (y + 15) 16 ltac:(lia)).
  set (w := (y + 15) / 16) in *. clearbody y w. lia.
Qed.

(** Growing the block keeps the elements; it makes room unless the block has 16
    bytes and the next element needs 32. *)
Lemma grow_ok v l : full v l -> mem_size v <= compute_mem_size (m_bits v) (m_size v + 1) ->
  let u := UV (grow_words junk (m_data v) (Z.max 32 (align_up (mem_size v * 103 / 64) 16))) (m_bits v) (m_mask v) (m_size v) in
  full u l /\ mem_size u mod 16 = 0 /\
  (compute_mem_size (m_bits v) (m_size v + 1) <? mem_size u) =
    negb ((mem_size v =? 16) && (compute_mem_size (m_bits v) (m_size v + 1) =? 32)).
Proof.
  intros [(Hwf & Hl & He) Hs] Hfull. pose proof Hwf as [H1 H2 H3 H4 H5 H6]. unfold align_up. change (16 - 1) with 15.
  rewrite align16. set (x := mem_size v * 103 / 64 + 15).
  replace (Z.max 32 (16 * (x / 16))) with (16 * Z.max 2 (x / 16)) by lia. set (q := Z.max 2 (x / 16)).
  set (u := UV _ _ _ (m_size v)).
  pose proof (Z.div_mod (mem_size v) 16 ltac:(lia)) as D. rewrite H5 in D. set (k := mem_size v / 16) in *.
  assert (0 <= k) by (apply Z.div_pos; unfold mem_size; lia).
  assert (Hq : (k <= 1 /\ q = 2) \/ (2 <= k /\ k + 2 <= q)).
  { apply (grown_units k (mem_size v) q); [done|lia|done]. }
  destruct (grow_words_ok (m_data v) q H4) as (L' & W' & B'); [unfold mem_size in *; lia|].
  assert (Emem : mem_size u = 16 * q) by exact L'. rewrite Emem.
  assert (Ex : exists c, compute_mem_size (m_bits v) (m_size v + 1) = 16 * c) by (rewrite compute_mem_size_eq; eauto). destruct Ex as [c Ec].
  assert (Hc : c <= Z.max 1 (k + 1) /\ (k = 0 -> c = 1)).
  { destruct H6 as [E0|H6]; [|pose proof (mul_add_room (m_bits v) (m_size v) H1 H3); split; [lia|]].
    - rewrite E0, compute_mem_size_eq in Ec. pose proof (Z.div_mod (m_bits v * (0 + 1) + 7) 8 ltac:(lia)).
      pose proof (Z.mod_pos_bound (m_bits v * (0 + 1) + 7) 8 ltac:(lia)). set (a := (m_bits v * (0 + 1) + 7) / 8) in *.
      pose proof (Z.div_mod (a + 22) 16 ltac:(lia)). pose proof (Z.mod_pos_bound (a + 22) 16 ltac:(lia)). lia.
    - intros E0. rewrite compute_mem_size_eq in H6. pose proof (Z.div_pos (m_bits v * m_size v + 7) 8 ltac:(nia) ltac:(lia)).
      set (a := (m_bits v * m_size v + 7) / 8) in *. pose proof (Z.div_mod (a + 22) 16 ltac:(lia)). pose proof (Z.mod_pos_bound (a + 22) 16 ltac:(lia)). lia. }
  split; [|split; [rewrite Z.mul_comm; by apply Z.mod_mul|]].
  - split; [|done]. split; [|split; [done|]].
    + split; cbn [m_bits m_mask m_size m_data u]; try done; [rewrite Emem, Z.mul_comm; by apply Z.mod_mul|].
      destruct H6 as [?|H6]; [by left|right]. rewrite Emem. lia.
    + intros i y Hy. destruct (He i y Hy) as [Wy Hyb]. split; [done|]. intros m Hm. rewrite Hyb by done. cbn [m_bits m_data u].
      destruct (Z.ltb_spec m (m_bits v)); [|done]. cbn [andb]. pose proof (lookup_lt_Some _ _ _ Hy).
      destruct (elem_room v (Z.of_nat i) Hwf) as (R1 & R2 & _); [lia|]. rewrite B' by lia. done.
  - rewrite Ec. destruct (Z.ltb_spec (16 * c) (16 * q)), (Z.eqb_spec (mem_size v) 16), (Z.eqb_spec (16 * c) 32); cbn; (done || lia).
Qed.

Lemma push_back_fits v l val : full v l -> 0 <= val <= m_mask v ->
  if (mem_size v =? 16) && (compute_mem_size (m_bits v) (m_size v + 1) =? 32) then push_back junk v val = Throw terark_die
  else exists v', push_back junk v val = Ok v' /\ full v' (l ++ [val]) /\ m_bits v' = m_bits v.
Proof.
  intros Hf Hv. pose proof Hf as [(Hwf & Hl & He) Hs]. pose proof Hwf as [H1 H2 H3 H4 H5 H6].
  unfold push_back. rewrite (proj2 (Z.leb_le (m_bits v) _)), (proj2 (Z.leb_le val _)) by lia. cbn [assert_ rbind]. rewrite andb_true_r.
  destruct (Z.ltb_spec (compute_mem_size (m_bits v) (m_size v + 1)) (mem_size v)) as [L|L].
  { replace (_ && _) with false; [apply iv_append_ok; (done || lia)|]. symmetry. apply andb_false_iff.
    destruct (Z.eqb_spec (mem_size v) 16); [right|by left]. apply Z.eqb_neq. lia. }
  unfold push_back_slow_path. rewrite (proj2 (Z.ltb_ge (m_mask v) val)) by lia. cbn [rbind].
  destruct (grow_ok v l Hf L) as (Hu & Hmod & Hroom). set (u := UV _ _ _ (m_size v)) in *. rewrite Hmod. cbn [verify Z.eqb rbind].
  change (m_bits u) with (m_bits v). change (m_size u) with (m_size v). rewrite Hroom. destruct (_ && _); [done|]. cbn [negb verify rbind].
  destruct (iv_append_ok u l val Hu) as (v' & E & Hv' & Eb); [done|apply Z.ltb_lt in Hroom; cbn [m_bits m_size u]; lia|]. exists v'. done.
Qed.

(** *** Appending a wider number: the elements move to a new block *)

Lemma mask_mono a b : 0 <= a -> a <= b <= 64 -> mask_of a <= mask_of b.
Proof. intros Ha Hb. rewrite !mask_of_ones, !Z.ones_equiv by lia. pose proof (Z.pow_le_mono_r 2 a b). lia. Qed.

Lemma read_ok v l i x : full v l -> l !! i = Some x ->
  (if m_bits v <=? 58 then fast_get (m_data v) (m_bits v) (m_mask v) (Z.of_nat i) else big_fast_get (m_data v) (m_bits v) (Z.of_nat i)) = Ok x /\
  0 <= x <= m_mask v.
Proof.
  intros [(Hwf & Hl & He) Hs] Hx. pose proof (lookup_lt_Some _ _ _ Hx). specialize (He i x Hx). pose proof Hwf as [Hb Hm _ _ _ _].
  split; [|rewrite Hm, mask_of_ones by done; by apply (elem_range v (Z.of_nat i))].
  destruct (Z.leb_spec (m_bits v) 58); [unfold fast_get; rewrite (proj2 (Z.leb_le _ _)) by lia; cbn [assert_ rbind]; apply load_get_ok; (done || lia)|].
  apply big_fast_get_ok; (done || lia).
Qed.

Lemma copy_elems v l tmp : full v l -> elems tmp [] -> Z.of_nat (length l) <= m_size tmp -> m_mask v <= m_mask tmp -> exists tmp',
  for_ 0 (m_size v) (fun i tmp =>
    let* x := if m_bits v <=? 58 then fast_get (m_data v) (m_bits v) (m_mask v) i else big_fast_get (m_data v) (m_bits v) i in
    set_wire tmp i x) tmp = Ok tmp' /\
  elems tmp' l /\ m_size tmp' = m_size tmp /\ m_bits tmp' = m_bits tmp /\ m_mask tmp' = m_mask tmp /\ mem_size tmp' = mem_size tmp.
Proof.
  intros Hf H0 Hl Hm. pose proof Hf as [_ Hs]. rewrite Hs.
  destruct (for_inv (fun i t => elems t (take (Z.to_nat i) l) /\ m_size t = m_size tmp /\ m_bits t = m_bits tmp /\ m_mask t = m_mask tmp /\ mem_size t = mem_size tmp)
    (fun i tmp => let* x := if m_bits v <=? 58 then fast_get (m_data v) (m_bits v) (m_mask v) i else big_fast_get (m_data v) (m_bits v) i in
       set_wire tmp i x) 0 (Z.of_nat (length l)) tmp) as (t' & E & He & Ht); [lia|done| |].
  - intros i t Hi (Ht & E1 & E2 & E3 & E4). destruct (lookup_lt_is_Some_2 l (Z.to_nat i) ltac:(lia)) as [x Hx].
    destruct (read_ok v l (Z.to_nat i) x Hf Hx) as [R Rx]. rewrite Z2Nat.id in R by lia. rewrite R. cbn [rbind].
    destruct (iv_set_range_ok t i x (take (Z.to_nat i) l) Ht) as (t2 & -> & Ht2 & F1 & F2 & F3 & F4); [rewrite length_take; lia|lia|lia|].
    exists t2. split; [done|]. split; [|repeat split; congruence]. replace (Z.to_nat (i + 1)) with (S (Z.to_nat i)) by lia.
    by rewrite (take_S_r _ _ x).
  - exists t'. split; [done|]. split; [|done]. by rewrite Nat2Z.id, take_ge in He by lia.
Qed.

Lemma push_back_wide v l val bits : full v l -> word64 val -> m_mask v < val -> compute_uintbits val = Ok bits ->
  if compute_mem_size bits (m_size v + 1) <? compute_mem_size bits (Z.max (m_size v + 1) (m_size v * 103 / 64))
  then exists v', push_back junk v val = Ok v' /\ full v' (l ++ [val]) /\ m_bits v' = bits
  else push_back junk v val = Throw terark_die.
Proof.
  intros Hf Hv Hlt Hbits. pose proof Hf as [(Hwf & Hl & He) Hs]. pose proof Hwf as [H1 H2 H3 H4 H5 H6].
  unfold push_back. rewrite (proj2 (Z.leb_le (m_bits v) _)), (proj2 (Z.leb_gt val _)) by lia. cbn [assert_ rbind]. rewrite andb_false_r.
  unfold push_back_slow_path. rewrite (proj2 (Z.ltb_lt (m_mask v) val)) by lia. unfold resize_with_wire_max_val. rewrite Hbits. cbn [rbind].
  destruct (compute_uintbits_ok val Hv) as (bits' & E' & Hb & Hfit & _). rewrite Hbits in E'. injection E' as <-.
  set (N := Z.max (m_size v + 1) (m_size v * 103 / 64)). pose proof (iv_resize_ok N bits ltac:(lia) Hb) as Wt.
  assert (Hm : m_mask v <= mask_of bits) by lia.
  destruct (copy_elems v l (resize_with_uintbits junk N bits) Hf) as (t & -> & Ht & E1 & E2 & E3 & E4);
    [split; [done|]; split; [cbn; lia|]; intros; done|cbn; lia|done|].
  cbn [rbind]. cbn [resize_with_uintbits m_size m_bits m_mask] in E1, E2, E3.
  assert (Emem : mem_size t = compute_mem_size bits N).
  { rewrite E4. unfold resize_with_uintbits, mem_size. rewrite (proj2 (Z.eqb_neq N 0)) by lia. cbn [negb m_data].
    rewrite compute_mem_size_eq. set (q := (_ + 22) / 16). assert (0 <= (bits * N + 7) / 8) by (apply Z.div_pos; nia).
    destruct (grow_words_ok [] q) as (L & _); [constructor|cbn; assert (0 <= q) by (apply Z.div_pos; lia); lia|done]. }
  destruct Ht as (Wt' & Lt & Et). pose proof Wt' as [T1 T2 T3 T4 T5 T6].
  set (u := UV (m_data t) (m_bits t) (m_mask t) (m_size v)). assert (Eu : mem_size u = compute_mem_size bits N) by exact Emem.
  assert (Hu : full u l).
  { split; [|done]. split; [|split; [cbn; lia|exact Et]]. split; cbn [u m_bits m_mask m_size m_data]; try done.
    right. rewrite Eu, E2. apply room_mono; lia. }
  assert (Hmod : mem_size u mod 16 = 0) by exact T5. rewrite Hmod. cbn [verify rbind Z.eqb]. rewrite Eu.
  change (m_bits u) with (m_bits t). rewrite E2. change (m_size u) with (m_size v).
  destruct (Z.ltb_spec (compute_mem_size bits (m_size v + 1)) (compute_mem_size bits N)) as [L|]; [|done]. cbn [verify rbind].
  destruct (iv_append_ok u l val Hu) as (v' & E & Hv' & Eb); [cbn [u m_mask]; unfold word64 in Hv; lia|rewrite Eu; cbn [u m_bits m_size]; rewrite E2; lia|].
  change (m_mask u) with (m_mask t) in *. change (m_data u) with (m_data t) in *. exists v'. change (m_bits u) with (m_bits t) in *. rewrite E2 in *. done.
Qed.

(** *** Building *)

Lemma min_max_ok src x : src !! O = Some x -> exists mn mx, min_max src (Z.of_nat (length src)) x = Ok (mn, mx) /\
  In mn src /\ In mx src /\ forall y, In y src -> mn <= y <= mx.
Proof.
  intros H0. unfold min_max. pose proof (lookup_lt_Some _ _ _ H0).
  destruct (for_inv (fun i '(mn, mx) => In mn src /\ In mx src /\ forall j y, (Z.of_nat j < i) -> src !! j = Some y -> mn <= y <= mx)
    (fun i '(min_val, max_val) => let* x := rd src i in Ok (if x <? min_val then x else min_val, if max_val <? x then x else max_val))
    1 (Z.of_nat (length src)) (x, x)) as ([mn mx] & -> & H1 & H2 & H3); [lia| | |].
  - assert (In x src) by (apply list_elem_of_In; by eapply list_elem_of_lookup_2). do 2 (split; [done|]). intros j y Hj Hy.
    assert (j = O) as -> by lia. rewrite H0 in Hy. injection Hy as <-. lia.
  - intros i [mn mx] Hi (H1 & H2 & H3). destruct (lookup_lt_is_Some_2 src (Z.to_nat i) ltac:(lia)) as [y Hy].
    unfold rd. rewrite decide_True, Hy by lia. cbn [rbind]. eexists. split; [done|]. cbn beta iota.
    assert (In y src) by (apply list_elem_of_In; by eapply list_elem_of_lookup_2).
    split; [by destruct (y <? mn)|]. split; [by destruct (mx <? y)|]. intros j w Hj Hw.
    destruct (decide (j = Z.to_nat i)) as [->|]; [rewrite Hy in Hw; injection Hw as <-|specialize (H3 j w ltac:(lia) Hw)];
      destruct (Z.ltb_spec y mn), (Z.ltb_spec mx y); lia.
  - exists mn, mx. do 3 (split; [done|]). intros y Hy. apply list_elem_of_In, list_elem_of_lookup_1 in Hy as [j Hj].
    apply (H3 j); [|done]. pose proof (lookup_lt_Some _ _ _ Hj). lia.
Qed.

Lemma iv_resize_mem num bits : 0 < num -> 0 <= bits -> mem_size (resize_with_uintbits junk num bits) = compute_mem_size bits num.
Proof.
  intros Hn Hb. unfold resize_with_uintbits. rewrite (proj2 (Z.eqb_neq num 0)) by lia. cbn [negb]. rewrite compute_mem_size_eq. set (q := (_ + 22) / 16).
  assert (0 <= (bits * num + 7) / 8) by (apply Z.div_pos; nia). assert (0 <= q) by (apply Z.div_pos; lia).
  destruct (grow_words_ok [] q) as (L & _); [constructor|cbn; lia|]. unfold mem_size. cbn [m_data]. rewrite L. lia.
Qed.

Lemma build_from_ok src : Forall word64 src -> exists v mn, build_from junk src = Ok (v, mn) /\
  full v (map (fun x => x - mn) src) /\ (forall x, In x src -> mn <= x) /\ (src <> [] -> In mn src) /\
  (forall k, 0 <= k -> (forall x, In x src -> x - mn < 2 ^ k) -> m_bits v <= k) /\
  (src <> [] -> mem_size v = compute_mem_size (m_bits v) (m_size v)).
Proof.
  intros Hsrc. destruct src as [|x src']; [|cbn [build_from]; set (src := x :: src') in *].
  { exists nullize, 0. split; [done|]. split; [|split; [done|split; [done|split; [intros; cbn; lia|done]]]].
    split; [|done]. split; [|done]. split; cbn; (done || lia || by left). }
  destruct (min_max_ok src x eq_refl) as (mn & mx & E & Hmn & Hmx & Hb). rewrite E. cbn [rbind].
  assert (Ww : forall y, In y src -> word64 y) by (by apply List.Forall_forall). pose proof (Hb mx Hmx) as Hmm.
  assert (Wd : word64 (mx - mn)) by (pose proof (Ww mx Hmx); pose proof (Ww mn Hmn); unfold word64 in *; lia).
  destruct (compute_uintbits_ok (mx - mn) Wd) as (bits & Eb & Hbits & Hfit & Hmin). unfold resize_with_wire_max_val. rewrite Eb. cbn [rbind].
  set (n := Z.of_nat (length src)). pose proof (iv_resize_ok n bits ltac:(lia) Hbits) as W0. set (v0 := resize_with_uintbits junk n bits) in *.
  destruct (for_inv (fun i v => elems v (map (fun y => y - mn) (take (Z.to_nat i) src)) /\ m_size v = n /\ m_bits v = bits /\ m_mask v = mask_of bits /\ mem_size v = mem_size v0)
    (fun i v => let* y := rd src i in set_wire v i (y - mn)) 0 n v0) as (v & -> & He & E1 & E2 & E3 & E4); [lia| | |].
  - split; [|done]. split; [done|]. split; [change (0 <= n); lia|]. intros; done.
  - intros i v Hi (He & E1 & E2 & E3 & E4). destruct (lookup_lt_is_Some_2 src (Z.to_nat i) ltac:(lia)) as [y Hy].
    unfold rd. rewrite decide_True, Hy by lia. cbn [rbind]. pose proof (Hb y ltac:(apply list_elem_of_In; by eapply list_elem_of_lookup_2)) as By.
    destruct (iv_set_range_ok v i (y - mn) _ He) as (v' & -> & He' & F1 & F2 & F3 & F4); [rewrite length_map, length_take; lia|lia|lia|].
    exists v'. split; [done|]. split; [|repeat split; congruence]. replace (Z.to_nat (i + 1)) with (S (Z.to_nat i)) by lia.
    by rewrite (take_S_r _ _ y Hy), map_app.
  - cbn [rbind]. exists v, mn. split; [done|]. rewrite take_ge in He by lia. split; [split; [done|by rewrite E1, length_map]|].
    split; [intros y Hy; by apply Hb|]. split; [done|]. split; [intros k Hk Hall; rewrite E2; apply Hmin; [done|]; by apply Hall|].
    intros _. rewrite E4, E1, E2. apply iv_resize_mem; unfold n, src; cbn; lia.
Qed.
End alloc_ok.

(** *** Searching *)

Definition at_list (l : list Z) (j : Z) : Z := nth (Z.to_nat j) l 0.
Definition ascending (l : list Z) (lo hi : Z) : Prop := forall i j, lo <= i <= j -> j < hi -> at_list l i <= at_list l j.
Definition is_lb (l : list Z) (lo hi key x : Z) : Prop :=
  lo <= x <= hi /\ (forall j, lo <= j < x -> at_list l j < key) /\ (forall j, x <= j < hi -> key <= at_list l j).
Definition is_ub (l : list Z) (lo hi key x : Z) : Prop :=
  lo <= x <= hi /\ (forall j, lo <= j < x -> at_list l j <= key) /\ (forall j, x <= j < hi -> key < at_list l j).

Section search_ok.
Context (at_ : Z -> res Z) (l : list Z).

Lemma mid_bounds lo hi : lo < hi -> lo <= (lo + hi) / 2 < hi.
Proof. intros. pose proof (Z.div_mod (lo + hi) 2 ltac:(lia)). pose proof (Z.mod_pos_bound (lo + hi) 2 ltac:(lia)). lia. Qed.

(** Both searches: [left v] tells that the answer is behind an element [v]. *)
Lemma bisect_ok (left : Z -> bool) lo0 hi0 : 0 <= lo0 <= hi0 -> (forall j, lo0 <= j < hi0 -> at_ j = Ok (at_list l j)) ->
  ascending l lo0 hi0 -> (forall a b, a <= b -> left b = true -> left a = true) -> exists x,
  loop (S (Z.to_nat (hi0 - lo0))) (fun '(lo, hi) =>
    if lo <? hi then
      let mid_idx := (lo + hi) / 2 in
      let* mid_val := at_ mid_idx in
      if left mid_val then Ok (inl (mid_idx + 1, hi)) else Ok (inl (lo, mid_idx))
    else Ok (inr lo)) (lo0, hi0) = Ok x /\ lo0 <= x <= hi0 /\
  (forall j, lo0 <= j < x -> left (at_list l j) = true) /\ (forall j, x <= j < hi0 -> left (at_list l j) = false).
Proof.
  intros Hlh Hat Hup Hmono.
  apply (loop_inv (fun '(lo, hi) => lo0 <= lo <= hi /\ hi <= hi0 /\ (forall j, lo0 <= j < lo -> left (at_list l j) = true) /\
      forall j, hi <= j < hi0 -> left (at_list l j) = false) (fun '(lo, hi) => hi - lo)).
  - split; [lia|]. split; [lia|]. split; intros; lia.
  - lia.
  - intros [lo hi] (H1 & H2 & H3 & H4). split; [lia|]. destruct (Z.ltb_spec lo hi) as [L|].
    + left. pose proof (mid_bounds lo hi L). cbv zeta. rewrite Hat by lia. cbn [rbind]. destruct (left (at_list l ((lo + hi) / 2))) eqn:E.
      * eexists. split; [done|]. cbn beta iota. split; [|lia]. do 2 (split; [lia|]). split; [|done]. intros j Hj.
        apply (Hmono _ (at_list l ((lo + hi) / 2))); [apply Hup; lia|done].
      * eexists. split; [done|]. cbn beta iota. split; [|lia]. do 2 (split; [lia|]). split; [done|]. intros j Hj.
        apply not_true_iff_false. intros T. apply (Hmono (at_list l ((lo + hi) / 2))) in T; [congruence|apply Hup; lia].
    + right. eexists. split; [done|]. assert (lo = hi) as -> by lia. split; [lia|done].
Qed.

Lemma lower_bound_in_ok lo hi key : 0 <= lo <= hi -> (forall j, lo <= j < hi -> at_ j = Ok (at_list l j)) -> ascending l lo hi ->
  exists x, lower_bound_in at_ lo hi key = Ok x /\ is_lb l lo hi key x.
Proof.
  intros H1 H2 H3. destruct (bisect_ok (fun v => v <? key) lo hi H1 H2 H3) as (x & E & Hx & Ha & Hb).
  - intros a b Hab. rewrite !Z.ltb_lt. lia.
  - exists x. split; [exact E|]. split; [done|]. split; intros j Hj; [apply Z.ltb_lt; by apply Ha|apply Z.ltb_ge; by apply Hb].
Qed.

Lemma upper_bound_in_ok lo hi key : 0 <= lo <= hi -> (forall j, lo <= j < hi -> at_ j = Ok (at_list l j)) -> ascending l lo hi ->
  exists x, upper_bound_in at_ lo hi key = Ok x /\ is_ub l lo hi key x.
Proof.
  intros H1 H2 H3. destruct (bisect_ok (fun v => v <=? key) lo hi H1 H2 H3) as (x & E & Hx & Ha & Hb).
  - intros a b Hab. rewrite !Z.leb_le. lia.
  - exists x. split; [exact E|]. split; [done|]. split; intros j Hj; [apply Z.leb_le; by apply Ha|apply Z.leb_gt; by apply Hb].
Qed.

Lemma ascending_sub lo hi lo' hi' : ascending l lo hi -> lo <= lo' -> hi' <= hi -> ascending l lo' hi'.
Proof. intros H H1 H2 i j Hi Hj. apply H; lia. Qed.

Lemma equal_range_in_ok lo0 hi0 key : 0 <= lo0 <= hi0 -> (forall j, lo0 <= j < hi0 -> at_ j = Ok (at_list l j)) -> ascending l lo0 hi0 ->
  exists a b, equal_range_in at_ lo0 hi0 key = Ok (a, b) /\ is_lb l lo0 hi0 key a /\ is_ub l lo0 hi0 key b.
Proof.
  intros Hlh Hat Hup. unfold equal_range_in.
  match goal with |- context [loop ?fuel ?body ?s] =>
    destruct (loop_inv (fun '(lo, hi) => lo0 <= lo <= hi /\ hi <= hi0 /\ (forall j, lo0 <= j < lo -> at_list l j < key) /\
        forall j, hi <= j < hi0 -> key < at_list l j) (fun '(lo, hi) => hi - lo)
      (fun '(a, b) => is_lb l lo0 hi0 key a /\ is_ub l lo0 hi0 key b) body fuel s) as ([a b] & -> & Ha & Hb) end.
  - split; [lia|]. split; [lia|]. split; intros; lia.
  - lia.
  - intros [lo hi] (H1 & H2 & H3 & H4). split; [lia|]. destruct (Z.ltb_spec lo hi) as [L|].
    + pose proof (mid_bounds lo hi L). cbv zeta. set (mid := (lo + hi) / 2) in *. rewrite Hat by lia. cbn [rbind].
      destruct (Z.ltb_spec (at_list l mid) key); [|destruct (Z.ltb_spec key (at_list l mid))].
      * left. eexists. split; [done|]. cbn beta iota. split; [|lia]. do 2 (split; [lia|]). split; [|done]. intros j Hj.
        pose proof (Hup j mid). lia.
      * left. eexists. split; [done|]. cbn beta iota. split; [|lia]. do 2 (split; [lia|]). split; [done|]. intros j Hj.
        pose proof (Hup mid j). lia.
      * right. assert (at_list l mid = key) as Ek by lia.
        destruct (lower_bound_in_ok lo mid key) as (a & -> & A1 & A2 & A3); [lia|intros; apply Hat; lia|apply (ascending_sub lo0 hi0); (done || lia)|].
        cbn [rbind]. destruct (upper_bound_in_ok (mid + 1) hi key) as (b & -> & B1 & B2 & B3);
          [lia|intros; apply Hat; lia|apply (ascending_sub lo0 hi0); (done || lia)|]. cbn [rbind].
        eexists. split; [done|]. split; (split; [lia|]); (split; intros j Hj).
        -- destruct (decide (j < lo)); [apply H3; lia|apply A2; lia].
        -- destruct (decide (j < mid)); [apply A3; lia|]. rewrite <- Ek. apply Hup; lia.
        -- destruct (decide (j <= mid)); [rewrite <- Ek; apply Hup; lia|apply B2; lia].
        -- destruct (decide (j < hi)); [apply B3; lia|apply H4; lia].
    + right. eexists. split; [done|]. assert (lo = hi) as -> by lia. split; (split; [lia|]); (split; intros j Hj);
        [by apply H3|specialize (H4 j ltac:(lia)); lia|specialize (H3 j ltac:(lia)); lia|by apply H4].
  - eauto.
Qed.
End search_ok.

(** ** The vector of distances *)

(** [z] holds the numbers [src]. *)
Definition zip_full (z : ZipIntVector) (src : list Z) : Prop :=
  word64 (m_min_val z) /\ Forall word64 src /\ (forall x, In x src -> m_min_val z <= x) /\
  full (z_vec z) (map (fun x => x - m_min_val z) src).

Lemma zip_elem z src i x : zip_full z src -> src !! i = Some x -> map (fun x => x - m_min_val z) src !! i = Some (x - m_min_val z).
Proof. intros _ Hx. rewrite list_lookup_fmap. by rewrite Hx. Qed.

Lemma zip_get_ok z src i x : zip_full z src -> m_bits (z_vec z) <= 58 -> src !! i = Some x -> zip_get z (Z.of_nat i) = Ok x.
Proof.
  intros H Hb Hx. pose proof H as (_ & Hw & _ & [(Hwf & Hl & He) Hs]). pose proof (lookup_lt_Some _ _ _ Hx). rewrite length_map in Hs.
  unfold zip_get, zip_size. rewrite (proj2 (Z.ltb_lt _ _)) by lia. cbn [assert_ rbind].
  rewrite (get_ok _ _ (x - m_min_val z)) by (done || lia || (apply He; by apply (zip_elem z))). cbn [rbind]. f_equal.
  pose proof (proj1 (Forall_lookup _ _) Hw i x Hx) as Wx. unfold u64, word64 in *. rewrite Z.mod_small by lia. lia.
Qed.

Lemma full_at v l j : full v l -> m_bits v <= 58 -> 0 <= j < m_size v -> load_get (m_data v) (m_bits v) (m_mask v) j = Ok (at_list l j).
Proof.
  intros [(Hwf & Hl & He) Hs] Hb Hj. apply load_get_ok; try done. unfold at_list.
  destruct (lookup_lt_is_Some_2 l (Z.to_nat j) ltac:(lia)) as [x Hx]. rewrite (nth_lookup_Some _ _ _ _ Hx). rewrite <- (Z2Nat.id j) by lia. by apply He.
Qed.

Lemma full_at_big v l j : full v l -> 0 <= j < m_size v -> big_fast_get (m_data v) (m_bits v) j = Ok (at_list l j).
Proof.
  intros [(Hwf & Hl & He) Hs] Hj. apply big_fast_get_ok; try done. unfold at_list.
  destruct (lookup_lt_is_Some_2 l (Z.to_nat j) ltac:(lia)) as [x Hx]. rewrite (nth_lookup_Some _ _ _ _ Hx). rewrite <- (Z2Nat.id j) by lia. by apply He.
Qed.

Lemma in_bounds_ok {A} v lo hi (k : res A) : lo <= hi <= m_size v -> in_bounds v lo hi k = k.
Proof. intros H. unfold in_bounds. by rewrite !(proj2 (Z.leb_le _ _)) by lia. Qed.

Lemma at_list_map (g : Z -> Z) src j : 0 <= j < Z.of_nat (length src) -> at_list (map g src) j = g (at_list src j).
Proof.
  intros Hj. unfold at_list. destruct (lookup_lt_is_Some_2 src (Z.to_nat j) ltac:(lia)) as [x Hx].
  rewrite (nth_lookup_Some _ _ _ _ Hx). apply nth_lookup_Some. rewrite list_lookup_fmap. by rewrite Hx.
Qed.

(** ** The properties *)

(** Where the elements and the minimum of a built vector come from. *)
Lemma zip_build_stored junk src z : (forall j, word64 (junk j)) -> Forall word64 src ->
  (forall x y, In x src -> In y src -> y - x < 2 ^ 58) -> zip_build_from junk src = Ok z ->
  (src <> [] -> In (m_min_val z) src) /\ (forall x, In x src -> m_min_val z <= x) /\
  (forall i x, src !! i = Some x -> get (z_vec z) (Z.of_nat i) = Ok (x - m_min_val z)) /\
  0 <= m_bits (z_vec z) <= 58 /\ m_mask (z_vec z) = mask_of (m_bits (z_vec z)) /\
  (src <> [] -> mem_size (z_vec z) = compute_mem_size (m_bits (z_vec z)) (m_size (z_vec z))) /\ (src = [] -> z = Zip nullize 0).
Proof.
  intros Hj Hw H58 E0. destruct (build_from_ok junk Hj src Hw) as (v & mn & E & Hf & Hmn & Hin & Hmin & Hms). unfold zip_build_from in E0. rewrite E in E0.
  cbn [rbind] in E0. assert (z = Zip v mn) as -> by congruence. cbn [z_vec m_min_val] in *. split; [done|]. split; [done|]. pose proof Hf as [(Hwf & Hl & He) Hs]. rewrite length_map in Hs.
  assert (B58 : m_bits v <= 58) by (apply Hmin; [done|]; intros y Hy; apply H58; [apply Hin; by intros ->|done]).
  split; [|split; [pose proof (wf_bits v Hwf); lia|split; [apply (wf_mask v Hwf)|split; [done|intros ->; cbn in E; congruence]]]].
  intros i x Hx. pose proof (lookup_lt_Some _ _ _ Hx) as Hlt.
  apply get_ok; (done || lia || (apply He; rewrite list_lookup_fmap; by rewrite Hx)).
Qed.

Lemma zip_build_ok junk src : (forall j, word64 (junk j)) -> Forall word64 src ->
  (forall x y, In x src -> In y src -> y - x < 2 ^ 58) -> exists z,
  zip_build_from junk src = Ok z /\ zip_size z = Z.of_nat (length src) /\
  (forall i x, src !! i = Some x -> zip_get z (Z.of_nat i) = Ok x) /\
  forall k, 0 <= k -> (forall x y, In x src -> In y src -> y - x < 2 ^ k) -> m_bits (z_vec z) <= k.
Proof.
  intros Hj Hw H58. destruct (build_from_ok junk Hj src Hw) as (v & mn & E & Hf & Hmn & Hin & Hmin & _). unfold zip_build_from. rewrite E. cbn [rbind].
  eexists. split; [done|]. split; [unfold zip_size; cbn; by rewrite (proj2 Hf), length_map|]. cbn [z_vec].
  assert (Hk : forall k, 0 <= k -> (forall x y, In x src -> In y src -> y - x < 2 ^ k) -> m_bits v <= k).
  { intros k Hk H. apply Hmin; [done|]. intros x Hx. apply H; [apply Hin; by intros ->|done]. }
  split; [|done]. intros i x Hx. assert (Hne : src <> []) by (by intros ->).
  apply (zip_get_ok _ src); [|cbn; apply Hk; (done || lia)|done]. split; [|done]. cbn. eapply List.Forall_forall; [exact Hw|auto].
Qed.

(** [ZipIntVector::build_from] stores every list of 64-bit numbers whose
    spread is below 2^58, whatever the memory contained, in the smallest width:
    reading gives the numbers back. *)
Theorem zip_build_roundtrip junk src : (forall j, word64 (junk j)) -> Forall word64 src ->
  (forall x y, In x src -> In y src -> y - x < 2 ^ 58) -> exists z,
  zip_build_from junk src = Ok z /\ zip_size z = Z.of_nat (length src) /\
  (forall i x, src !! i = Some x -> zip_get z (Z.of_nat i) = Ok x) /\
  forall k, 0 <= k -> (forall x y, In x src -> In y src -> y - x < 2 ^ k) -> m_bits (z_vec z) <= k.
Proof. apply zip_build_ok. Qed.

(** what [push_back] does, on every vector and number: the number is appended
    and all elements are kept, in a wider format when the number needs one; or
    the process is aborted by [TERARK_VERIFY_LT], exactly when the new block is
    not larger than what the next element needs. *)
Theorem push_back_spec junk v l val : (forall j, word64 (junk j)) -> full v l -> word64 val -> exists bits,
  compute_uintbits val = Ok bits /\
  let next b := compute_mem_size b (m_size v + 1) in
  if (if m_mask v <? val
      then compute_mem_size bits (Z.max (m_size v + 1) (m_size v * 103 / 64)) <=? next bits
      else (mem_size v =? 16) && (next (m_bits v) =? 32))
  then push_back junk v val = Throw terark_die
  else exists v', push_back junk v val = Ok v' /\ m_size v' = m_size v + 1 /\
    m_bits v' = (if m_mask v <? val then bits else m_bits v) /\
    forall i x, (l ++ [val]) !! i = Some x -> big_get v' (Z.of_nat i) = Ok x.
Proof.
  intros Hj Hf Hv. destruct (compute_uintbits_ok val Hv) as (bits & Eb & _). exists bits. split; [done|]. cbv zeta.
  assert (G : forall v' b, (push_back junk v val = Ok v' /\ full v' (l ++ [val]) /\ m_bits v' = b) ->
    exists v', push_back junk v val = Ok v' /\ m_size v' = m_size v + 1 /\ m_bits v' = b /\
      forall i x, (l ++ [val]) !! i = Some x -> big_get v' (Z.of_nat i) = Ok x).
  { intros v' b (E & [(Hwf & Hl & He) Hs] & Hb). exists v'. split; [done|]. rewrite length_app in Hs. cbn in Hs. destruct Hf as [_ Hs0].
    split; [lia|]. split; [done|]. intros i x Hx. pose proof (lookup_lt_Some _ _ _ Hx) as Hi. rewrite length_app in Hi. cbn in Hi.
    apply big_get_ok; [done|lia|by apply He]. }
  destruct (Z.ltb_spec (m_mask v) val) as [L|L].
  - pose proof (push_back_wide junk Hj v l val bits Hf Hv L Eb) as W.
    destruct (Z.ltb_spec (compute_mem_size bits (m_size v + 1)) (compute_mem_size bits (Z.max (m_size v + 1) (m_size v * 103 / 64)))).
    + rewrite (proj2 (Z.leb_gt _ _)) by lia. destruct W as (v' & W). by apply (G v').
    + by rewrite (proj2 (Z.leb_le _ _)) by lia.
  - pose proof (push_back_fits junk Hj v l val Hf) as W. destruct (_ && _); [apply W; unfold word64 in Hv; lia|].
    destruct W as (v' & W); [unfold word64 in Hv; lia|]. by apply (G v').
Qed.

(** the binary searches over a sorted range return its lower bound, its upper
    bound and the range of the key, in [UintVecMin0] and in [BigUintVecMin0]. *)
Theorem uint_search_correct v l lo hi key : full v l -> 0 <= lo <= hi -> hi <= m_size v -> ascending l lo hi ->
  exists a b, is_lb l lo hi key a /\ is_ub l lo hi key b /\
    (m_bits v <= 58 -> lower_bound v lo hi key = Ok a /\ upper_bound v lo hi key = Ok b /\ equal_range v lo hi key = Ok (a, b)) /\
    big_lower_bound v lo hi key = Ok a /\ big_upper_bound v lo hi key = Ok b /\ big_equal_range v lo hi key = Ok (a, b).
Proof.
  intros Hf Hlo Hhi Hup.
  assert (U : forall a b, is_lb l lo hi key a -> is_lb l lo hi key b -> a = b).
  { intros a b (A1 & A2 & A3) (B1 & B2 & B3). destruct (Z.lt_trichotomy a b) as [?|[?|?]]; [|done|].
    - specialize (A3 a ltac:(lia)). specialize (B2 a ltac:(lia)). lia.
    - specialize (A2 b ltac:(lia)). specialize (B3 b ltac:(lia)). lia. }
  assert (U2 : forall a b, is_ub l lo hi key a -> is_ub l lo hi key b -> a = b).
  { intros a b (A1 & A2 & A3) (B1 & B2 & B3). destruct (Z.lt_trichotomy a b) as [?|[?|?]]; [|done|].
    - specialize (A3 a ltac:(lia)). specialize (B2 a ltac:(lia)). lia.
    - specialize (A2 b ltac:(lia)). specialize (B3 b ltac:(lia)). lia. }
  assert (S : forall at_, (forall j, lo <= j < hi -> at_ j = Ok (at_list l j)) -> exists a b, is_lb l lo hi key a /\ is_ub l lo hi key b /\
    lower_bound_in at_ lo hi key = Ok a /\ upper_bound_in at_ lo hi key = Ok b /\ equal_range_in at_ lo hi key = Ok (a, b)).
  { intros at_ Hat. destruct (lower_bound_in_ok at_ l lo hi key Hlo Hat Hup) as (a & Ea & Ha).
    destruct (upper_bound_in_ok at_ l lo hi key Hlo Hat Hup) as (b & Eb & Hb).
    destruct (equal_range_in_ok at_ l lo hi key Hlo Hat Hup) as (a' & b' & Er & Ha' & Hb').
    rewrite <- (U a a' Ha Ha'), <- (U2 b b' Hb Hb') in Er. exists a, b. done. }
  destruct (S (big_fast_get (m_data v) (m_bits v))) as (a & b & Ha & Hb & E1 & E2 & E3); [intros; apply full_at_big; (done || lia)|].
  exists a, b. split; [done|]. split; [done|]. unfold big_lower_bound, big_upper_bound, big_equal_range, lower_bound, upper_bound, equal_range.
  rewrite !in_bounds_ok by lia. split; [|done]. intros H58.
  destruct (S (load_get (m_data v) (m_bits v) (m_mask v))) as (a' & b' & Ha' & Hb' & F1 & F2 & F3); [intros; apply full_at; (done || lia)|].
  by rewrite (U a a' Ha Ha'), (U2 b b' Hb Hb').
Qed.

(** error.  In a [ZipIntVector] the lower bound is right for every key, but
    the upper bound of the minimum is the start of the range, and the range of
    the minimum is empty, even when the range starts with it. *)
Theorem zip_min_upper_bound_wrong z src lo hi : zip_full z src -> m_bits (z_vec z) <= 58 -> 0 <= lo < hi -> hi <= zip_size z ->
  ascending src lo hi ->
  (forall key, exists a, zip_lower_bound z lo hi key = Ok a /\ is_lb src lo hi key a) /\
  (at_list src lo = m_min_val z ->
   zip_upper_bound z lo hi (m_min_val z) = Ok lo /\ zip_equal_range z lo hi (m_min_val z) = Ok (lo, lo) /\
   forall b, is_ub src lo hi (m_min_val z) b -> lo < b).
Proof.
  intros H Hb Hlo Hhi Hup. pose proof H as (Hm & Hw & Hmin & Hf). unfold zip_size in Hhi. pose proof Hf as [_ Hs]. rewrite length_map in Hs.
  set (g x := x - m_min_val z) in *. assert (M : forall j, lo <= j < hi -> at_list (map g src) j = at_list src j - m_min_val z).
  { intros j Hj. rewrite at_list_map by lia. done. }
  unfold zip_lower_bound, zip_upper_bound, zip_equal_range. split.
  - intros key. rewrite in_bounds_ok by lia. destruct (Z.ltb_spec (m_min_val z) key) as [L|L].
    + unfold lower_bound. rewrite in_bounds_ok by lia.
      destruct (lower_bound_in_ok (load_get (m_data (z_vec z)) (m_bits (z_vec z)) (m_mask (z_vec z))) (map g src) lo hi (key - m_min_val z)) as (a & -> & Ha & H1 & H2);
        [lia|intros; apply full_at; (done || lia)|intros i j Hi Hj; rewrite !M by lia; specialize (Hup i j Hi Hj); lia|].
      exists a. split; [done|]. split; [done|]. split; intros j Hj; [specialize (H1 j Hj)|specialize (H2 j Hj)]; rewrite M in * by lia; lia.
    + exists lo. split; [done|]. split; [lia|]. split; [intros; lia|]. intros j Hj. etransitivity; [exact L|]. apply Hmin. unfold at_list.
      apply list_elem_of_In. destruct (lookup_lt_is_Some_2 src (Z.to_nat j) ltac:(lia)) as [x Hx]. rewrite (nth_lookup_Some _ _ _ _ Hx).
      by eapply list_elem_of_lookup_2.
  - intros E. rewrite !in_bounds_ok, Z.ltb_irrefl by lia. split; [done|]. split; [done|]. intros b (B1 & B2 & B3).
    destruct (decide (lo < b)); [done|]. specialize (B3 lo ltac:(lia)). lia.
Qed.

(** * Witnesses *)

Definition sample_src : list Z := [100; 105; 300; 1100; 5000000000].
Definition junk_a (_ : nat) : Z := 0xDEADBEEFDEADBEEF.

Lemma junk_a_word j : word64 (junk_a j).
Proof. split; [discriminate|reflexivity]. Qed.

Lemma sample_src_words : Forall word64 sample_src.
Proof. repeat first [apply List.Forall_nil | apply List.Forall_cons]; split; (discriminate || reflexivity). Qed.

Lemma zip_build_roundtrip_witness : exists z, zip_build_from junk_a sample_src = Ok z /\ zip_size z = 5 /\
  zip_get z 4 = Ok 5000000000 /\ m_bits (z_vec z) <= 33.
Proof.
  destruct (zip_build_roundtrip junk_a sample_src junk_a_word sample_src_words) as (z & E & S & G & M).
  - intros x y Hx Hy. cbn in Hx, Hy. lia.
  - exists z. split; [exact E|]. split; [exact S|]. split; [exact (G 4%nat 5000000000 eq_refl)|]. apply M; [lia|].
    intros x y Hx Hy. cbn in Hx, Hy. lia.
Defined.

Definition sample_vec : UintVecMin0 := Eval vm_compute in
  match build_from junk_a sample_src with Ok (v, _) => v | _ => nullize end.

Lemma build_from_full junk src v mn : (forall j, word64 (junk j)) -> Forall word64 src -> build_from junk src = Ok (v, mn) ->
  full v (map (fun x => x - mn) src).
Proof. intros Hj Hw E. destruct (build_from_ok junk Hj src Hw) as (v' & mn' & E' & F & _). rewrite E in E'. by injection E' as <- <-. Qed.

Lemma sample_full : full sample_vec (map (fun x => x - 100) sample_src).
Proof. apply (build_from_full junk_a); [exact junk_a_word|exact sample_src_words|vm_compute; reflexivity]. Qed.

Lemma nullize_full : full nullize [].
Proof. split; [|done]. split; [|split; [cbn; lia|intros; done]]. split; cbn; (done || lia || by left). Qed.

Lemma push_back_spec_witness : push_back junk_a nullize 1 = Throw terark_die /\
  exists v', push_back junk_a sample_vec 7 = Ok v' /\ m_size v' = 6 /\ big_get v' 5 = Ok 7.
Proof.
  split.
  - destruct (push_back_spec junk_a nullize [] 1 junk_a_word nullize_full) as (b & E & H); [split; (discriminate || reflexivity)|].
    vm_compute in E. injection E as <-. exact H.
  - destruct (push_back_spec junk_a sample_vec _ 7 junk_a_word sample_full) as (b & E & H); [split; (discriminate || reflexivity)|].
    vm_compute in E. injection E as <-. cbv zeta in H.
    match type of H with if ?c then _ else _ => replace c with false in H by (vm_compute; reflexivity) end.
    destruct H as (v' & H1 & H2 & _ & H3). exists v'. split; [exact H1|]. split; [exact H2|].
    exact (H3 5%nat 7 eq_refl).
Defined.

Lemma uint_search_correct_witness : exists a b, lower_bound sample_vec 0 5 200 = Ok a /\ upper_bound sample_vec 0 5 200 = Ok b /\
  equal_range sample_vec 0 5 200 = Ok (a, b).
Proof.
  destruct (uint_search_correct sample_vec _ 0 5 200 sample_full) as (a & b & _ & _ & H & _).
  - lia.
  - vm_compute. discriminate.
  - intros i j Hi Hj. assert (In i [0; 1; 2; 3; 4] /\ In j [0; 1; 2; 3; 4]) as [Hi' Hj'] by (cbn; lia). cbn in Hi', Hj'.
    repeat (destruct Hi' as [<-|Hi']; [repeat (destruct Hj' as [<-|Hj']; [vm_compute; (discriminate || (exfalso; apply (proj2 Hi); reflexivity))|]); destruct Hj'|]). destruct Hi'.
  - exists a, b. apply H. vm_compute. discriminate.
Defined.

Definition sample_zip : ZipIntVector := Zip sample_vec 100.

Lemma zip_min_upper_bound_wrong_witness : zip_upper_bound sample_zip 0 1 100 = Ok 0 /\ zip_equal_range sample_zip 0 1 100 = Ok (0, 0).
Proof.
  destruct (zip_min_upper_bound_wrong sample_zip sample_src 0 1) as [_ H].
  - split; [split; (discriminate || reflexivity)|]. split; [exact sample_src_words|]. split; [intros x Hx; cbn in *; lia|exact sample_full].
  - vm_compute. discriminate.
  - lia.
  - vm_compute. discriminate.
  - intros i j Hi Hj. assert (i = j) as -> by lia. lia.
  - destruct (H eq_refl) as (H1 & H2 & _). split; [exact H1|exact H2].
Defined.

End IntVec.
