(* ===== verification/Mem.v ===== *)
(** * Narrow fields in an array of 64-bit words

    The caches of the rank-select classes are arrays of [uint32_t] and [uint8_t]
    laid over the words of the bit vector (little-endian).  Field [i] of width
    [w] (8, 16, 32 or 64) is bits [w*i, w*i+w) of the array, so that the frame
    of a store is a statement on bits. *)
From S2P Require Import Prelude Bits Febitvec.
Import Febitvec.

Module Mem.

(** The value of field [i], its read and its write ([x] is truncated). *)
Definition fld (w : Z) (ws : list Z) (i : Z) : Z :=
  Z.land (Z.shiftr (word_at ws (w * i / 64)) (w * i mod 64)) (Z.ones w).

Definition rdf (w : Z) (ws : list Z) (i : Z) : res Z :=
  let* x := rd ws (w * i / 64) in Ok (Z.land (Z.shiftr x (w * i mod 64)) (Z.ones w)).

Definition wrf (w : Z) (ws : list Z) (i x : Z) : res (list Z) :=
  upd ws (w * i / 64) (fun v =>
    Z.lor (Z.land v (not64 (shl64 (Z.ones w) (w * i mod 64)))) (shl64 (x mod 2 ^ w) (w * i mod 64))).

(** The widths of the source. *)
Definition width (w : Z) : Prop := w = 8 \/ w = 16 \/ w = 32 \/ w = 64.

Lemma width8 : width 8.
Proof. unfold width. lia. Qed.
Lemma width32 : width 32.
Proof. unfold width. lia. Qed.
Lemma width64 : width 64.
Proof. unfold width. lia. Qed.
#[export] Hint Resolve width8 width32 width64 : word64.

Lemma width_pos w : width w -> 0 < w <= 64.
Proof. unfold width. lia. Qed.

Lemma width_fit w i : width w -> 0 <= i -> w * i mod 64 + w <= 64.
Proof.
  intros Hw Hi. pose proof (Z.div_mod (w * i) 64 ltac:(lia)). pose proof (mod64_range (w * i)).
  unfold width in Hw. destruct Hw as [->|[->|[->| ->]]]; lia.
Qed.

Lemma fld_range w ws i : width w -> 0 <= fld w ws i < 2 ^ w.
Proof.
  intros Hw%width_pos. unfold fld. rewrite Z.land_ones by lia. apply Z.mod_pos_bound. lia.
Qed.

Lemma testbit_fld w ws i m : width w -> 0 <= i -> 0 <= m ->
  Z.testbit (fld w ws i) m = (m <? w) && bit_at ws (w * i + m).
Proof.
  intros Hw Hi Hm. pose proof (width_pos w Hw). pose proof (width_fit w i Hw Hi) as Hf.
  pose proof (Z.div_mod (w * i) 64 ltac:(lia)) as D. pose proof (mod64_range (w * i)).
  unfold fld. rewrite Z.land_spec, Z.testbit_ones_nonneg, testbit_shr, andb_comm by lia.
  destruct (Z.ltb_spec m w); [|done]. cbn [andb].
  replace (w * i + m) with (64 * (w * i / 64) + (m + w * i mod 64)) by lia.
  by rewrite bit_at_word by lia.
Qed.

Lemma fld_eq w ws ws' i j : width w -> 0 <= i -> 0 <= j ->
  (forall m, 0 <= m < w -> bit_at ws' (w * i + m) = bit_at ws (w * j + m)) -> fld w ws' i = fld w ws j.
Proof.
  intros Hw Hi Hj H. apply Z.bits_inj'. intros m Hm. rewrite !testbit_fld by done.
  destruct (Z.ltb_spec m w); [|done]. by rewrite H by lia.
Qed.

Lemma rdf_ok w ws i : width w -> 0 <= i -> w * i < 64 * Z.of_nat (length ws) -> rdf w ws i = Ok (fld w ws i).
Proof.
  intros Hw Hi Hl. pose proof (width_pos w Hw). unfold rdf.
  rewrite rd_word by (apply div64_lt; nia). done.
Qed.

Lemma wrf_ok w ws i x : width w -> words ws -> 0 <= i -> w * i < 64 * Z.of_nat (length ws) -> 0 <= x ->
  exists ws', wrf w ws i x = Ok ws' /\ range_put ws ws' (w * i) (w * i + w) (fun p => Z.testbit x (p - w * i)).
Proof.
  intros Hw Hws Hi Hl Hx. pose proof (width_pos w Hw) as Hp. pose proof (width_fit w i Hw Hi) as Hf.
  pose proof (Z.div_mod (w * i) 64 ltac:(lia)) as D. pose proof (mod64_range (w * i)) as M.
  assert (Hq : 0 <= w * i / 64 < Z.of_nat (length ws)) by (apply div64_lt; nia).
  unfold wrf. rewrite upd_ok by done. eexists. split; [done|]. set (q := w * i / 64) in *. set (off := w * i mod 64) in *.
  apply range_put_word; [done|done| |lia|lia|].
  { apply word64_lor; [|auto with word64]. apply word64_land; auto with word64. }
  intros m Hm. rewrite Z.lor_spec, Z.land_spec, testbit_not64, !testbit_shl64 by lia.
  destruct (Z.ltb_spec m 64); [|lia]. cbn [andb].
  replace (64 * q + m - w * i) with (m - off) by lia.
  destruct (Z.leb_spec off m), (Z.leb_spec (w * i) (64 * q + m)), (Z.ltb_spec (64 * q + m) (w * i + w)); try lia;
    cbn [andb negb orb]; rewrite ?andb_true_r, ?orb_false_r; try done.
  - rewrite Z.testbit_ones_nonneg, Z.testbit_mod_pow2 by lia. destruct (Z.ltb_spec (m - off) w); [|lia].
    cbn [negb andb]. by rewrite andb_false_r.
  - rewrite Z.testbit_ones_nonneg, Z.testbit_mod_pow2 by lia. destruct (Z.ltb_spec (m - off) w); [lia|].
    cbn [negb andb]. by rewrite andb_true_r, orb_false_r.
Qed.

(** What a store into [a, b) does to a field: nothing when they are disjoint. *)
Lemma fld_frame w ws ws' a b g i : width w -> 0 <= i -> range_put ws ws' a b g ->
  w * i + w <= a \/ b <= w * i -> fld w ws' i = fld w ws i.
Proof.
  intros Hw Hi (_ & _ & B) Hd. pose proof (width_pos w Hw). apply fld_eq; [done..|]. intros m Hm.
  rewrite B by nia. destruct (Z.leb_spec a (w * i + m)), (Z.ltb_spec (w * i + m) b); (lia || done).
Qed.

Lemma fld_same w ws ws' i x : width w -> 0 <= i -> 0 <= x < 2 ^ w ->
  range_put ws ws' (w * i) (w * i + w) (fun p => Z.testbit x (p - w * i)) -> fld w ws' i = x.
Proof.
  intros Hw Hi Hx (_ & _ & B). pose proof (width_pos w Hw). apply Z.bits_inj'. intros m Hm.
  rewrite testbit_fld by done. destruct (Z.ltb_spec m w).
  - rewrite B by nia. destruct (Z.leb_spec (w * i) (w * i + m)), (Z.ltb_spec (w * i + m) (w * i + w)); try lia.
    cbn [andb]. f_equal. lia.
  - symmetry. apply (testbit_high x m w); lia.
Qed.

(** Memory that agrees outside [a, b). *)
Definition same_out (ws ws' : list Z) (a b : Z) : Prop :=
  length ws' = length ws /\ words ws' /\ forall p, 0 <= p -> p < a \/ b <= p -> bit_at ws' p = bit_at ws p.

Lemma same_out_refl ws a b : words ws -> same_out ws ws a b.
Proof. by intros. Qed.

Lemma same_out_put ws ws1 ws2 a b a' b' g : same_out ws ws1 a b -> range_put ws1 ws2 a' b' g ->
  a <= a' -> b' <= b -> same_out ws ws2 a b.
Proof.
  intros (L & W & B) (L' & W' & B') Ha Hb. split; [congruence|]. split; [done|].
  intros p Hp Hd. rewrite B', <- B by done.
  destruct (Z.leb_spec a' p), (Z.ltb_spec p b'); (lia || done).
Qed.

Lemma same_out_fld ws ws' a b w i : same_out ws ws' a b -> width w -> 0 <= i ->
  w * i + w <= a \/ b <= w * i -> fld w ws' i = fld w ws i.
Proof.
  intros (_ & _ & B) Hw Hi Hd. pose proof (width_pos w Hw). apply fld_eq; [done..|].
  intros m Hm. apply B; nia.
Qed.

Lemma same_out_rank ws ws' a b p : same_out ws ws' a b -> 0 <= p <= a -> rank (bit_at ws') p = rank (bit_at ws) p.
Proof. intros (_ & _ & B) Hp. apply rank_ext. intros i Hi. apply B; lia. Qed.

Lemma same_out_trans ws ws1 ws2 a b : same_out ws ws1 a b -> same_out ws1 ws2 a b -> same_out ws ws2 a b.
Proof.
  intros (L & W & B) (L' & W' & B'). split; [congruence|]. split; [done|].
  intros p Hp Hd. rewrite B' by done. by apply B.
Qed.

Lemma same_out_weak ws ws' a b a' b' : same_out ws ws' a b -> a' <= a -> b <= b' -> same_out ws ws' a' b'.
Proof. intros (L & W & B) Ha Hb. split; [done|]. split; [done|]. intros p Hp Hd. apply B; lia. Qed.

(** Whole words are fields of width 64. *)
Lemma fld64 ws q : words ws -> 0 <= q -> fld 64 ws q = word_at ws q.
Proof.
  intros Hw Hq. unfold fld. replace (64 * q) with (q * 64) by lia. rewrite Z.div_mul, Z.mod_mul, Z.shiftr_0_r by lia.
  rewrite Z.land_ones by lia. apply Z.mod_small. by apply word_at_word64.
Qed.

Lemma same_out_word ws ws' a b q : same_out ws ws' a b -> words ws -> 0 <= q -> 64 * q + 64 <= a \/ b <= 64 * q ->
  word_at ws' q = word_at ws q.
Proof.
  intros O Hw Hq Hd. pose proof O as (_ & W & _). rewrite <- !fld64 by done.
  apply (same_out_fld ws ws' a b 64 q O); auto with word64.
Qed.

Lemma same_out_of_put ws ws' a b g : words ws -> range_put ws ws' a b g -> same_out ws ws' a b.
Proof. intros Hw R. eapply same_out_put; [by apply same_out_refl|exact R|lia|lia]. Qed.

Lemma range_set_same_out ws ws' a b val : range_set ws ws' a b val -> same_out ws ws' a b.
Proof.
  intros (L & W & B). split; [done|]. split; [done|]. intros p Hp Hd. rewrite B by done.
  destruct (Z.leb_spec a p), (Z.ltb_spec p b); (lia || done).
Qed.

End Mem.
