(* ===== verification/RankSpec.v ===== *)
(** * The interface of the rank/select classes and what they share

    Every class of [src/src/terark/succinct/rank_select_*.hpp] offers the same
    operations; [RankSelect] names them and [rs_laws t f] says that the object
    [t] behaves as the bit function [f].  Clients (the round trips below) are
    proved from the laws, each class discharges them for what [build_cache]
    leaves.  The second part is the code the classes repeat: the binary search
    over the lines, the linear scan, the loop that fills a select cache, and the
    choice of a word inside a line. *)
From S2P Require Import Prelude Bits Febitvec Mem.
Import Febitvec Mem.

Module RankSpec.

Class RankSelect (T : Type) := {
  rs_size : T -> Z;
  rs_is1 : T -> Z -> res bool;
  rs_rank0 : T -> Z -> res Z;
  rs_rank1 : T -> Z -> res Z;
  rs_select0 : T -> Z -> res Z;
  rs_select1 : T -> Z -> res Z;
  rs_max_rank0 : T -> Z;
  rs_max_rank1 : T -> Z;
}.

(** [t] represents the bits [f 0 .. f (size - 1)]. *)
Record rs_laws {T} `{RankSelect T} (t : T) (f : Z -> bool) : Prop := {
  law_size : 0 <= rs_size t;
  law_is1 : forall p, 0 <= p < rs_size t -> rs_is1 t p = Ok (f p);
  law_rank1 : forall p, 0 <= p <= rs_size t -> rs_rank1 t p = Ok (rank f p);
  law_rank0 : forall p, 0 <= p <= rs_size t -> rs_rank0 t p = Ok (p - rank f p);
  law_max1 : rs_max_rank1 t = rank f (rs_size t);
  law_max0 : rs_max_rank0 t = rs_size t - rank f (rs_size t);
  law_select1 : forall r, 0 <= r < rs_max_rank1 t ->
    exists p, rs_select1 t r = Ok p /\ is_select f r p /\ p < rs_size t;
  law_select0 : forall r, 0 <= r < rs_max_rank0 t ->
    exists p, rs_select0 t r = Ok p /\ is_select (fun i => negb (f i)) r p /\ p < rs_size t;
}.

(** [excess1] of a parenthesis sequence, defined alike in every class. *)
Definition excess1 {T} `{RankSelect T} (t : T) (bp : Z) : res Z :=
  let* r := rs_rank1 t bp in Ok (2 * r - bp).

(** ** Searching the lines

    [key i] reads the rank (of ones or of zeros) at the start of line [i]. *)

Definition upper_bound (key : Z -> res Z) (x lo hi : Z) : res Z :=
  loop (S (Z.to_nat (hi - lo))) (fun '(lo, hi) =>
    if lo <? hi then
      let mid := (lo + hi) / 2 in
      let* v := key mid in
      if v <=? x then Ok (inl (mid + 1, hi)) else Ok (inl (lo, mid))
    else Ok (inr lo)) (lo, hi).

(** [while (key(lo) <= x) lo++;] with at most [fuel] steps *)
Definition scan_up (key : Z -> res Z) (fuel : nat) (x lo : Z) : res Z :=
  loop fuel (fun lo => let* v := key lo in if v <=? x then Ok (inl (lo + 1)) else Ok (inr lo)) lo.

(** Entry [j] of an optional select cache (a 32-bit index into the block). *)
Definition rd_sel (ws : list Z) (sel : option Z) (j : Z) : res Z :=
  match sel with Some s => rdf 32 ws (s + j) | None => UB end.

(** [while (key(k) < x) ++k;] *)
Definition scan_below (key : Z -> res Z) (fuel : nat) (x k : Z) : res Z :=
  loop fuel (fun k => let* v := key k in if v <? x then Ok (inl (k + 1)) else Ok (inr k)) k.

(** Filling a select cache of [slots + 1] entries at 32-bit index [base]. *)
Definition build_sel (key : list Z -> Z -> res Z) (L base slots nlines : Z) (ws : list Z) : res (list Z) :=
  let* ws := wrf 32 ws base 0 in
  let* ws := for_ 1 slots (fun j ws =>
    let* k := rdf 32 ws (base + (j - 1)) in
    let* k := scan_below (key ws) (S (S (Z.to_nat nlines))) (L * j) k in
    wrf 32 ws (base + j) k) ws in
  wrf 32 ws (base + slots) nlines.

(** The word of a 256-bit line that holds rank [r]; [c j] is the rank at its
    word [j], [w j] reads the word. *)
Definition line_select4 (w : Z -> res Z) (c : Z -> Z) (r : Z) : res Z :=
  let at_word j := let* x := w j in let* s := UintSelect1 x (r - c j) in Ok (64 * j + s) in
  if r <? c 2 then if r <? c 1 then at_word 0 else at_word 1
  else if r <? c 3 then at_word 2 else at_word 3.

(** ** Correctness of the searches *)

(** [l] is the line after the one that holds rank [r]. *)
Definition line_after (K : Z -> Z) (r l : Z) : Prop := 1 <= l /\ K (l - 1) <= r < K l.

(** Ranks at the lines: monotone, and never more than [L] per line. *)
Definition mono (K : Z -> Z) (n : Z) : Prop := forall i j, 0 <= i <= j -> j <= n -> K i <= K j.

Lemma upper_bound_ok key K x lo hi :
  0 <= lo <= hi -> (forall i, lo <= i < hi -> key i = Ok (K i)) ->
  (forall i j, lo <= i <= j -> j < hi -> K i <= K j) ->
  exists l, upper_bound key x lo hi = Ok l /\ lo <= l <= hi /\
    (forall i, lo <= i < l -> K i <= x) /\ (forall i, l <= i < hi -> x < K i).
Proof.
  intros Hlo Hkey Hmono. unfold upper_bound.
  apply (loop_inv (fun '(a, b) => lo <= a <= b /\ b <= hi /\
      (forall i, lo <= i < a -> K i <= x) /\ (forall i, b <= i < hi -> x < K i)) (fun '(a, b) => b - a)).
  - split; [lia|]. split; [lia|]. split; intros; lia.
  - lia.
  - intros [a b] (Ha & Hb & H1 & H2). split; [lia|]. destruct (Z.ltb_spec a b) as [L|L].
    + pose proof (Z.div_mod (a + b) 2 ltac:(lia)). pose proof (Z.mod_pos_bound (a + b) 2 ltac:(lia)).
      set (m := (a + b) / 2) in *. rewrite Hkey by lia. cbn [rbind]. left.
      destruct (Z.leb_spec (K m) x); (eexists; split; [done|]); (split; [|lia]); (split; [lia|]); (split; [lia|]); split;
        try done.
      * intros i Hi. pose proof (Hmono i m). lia.
      * intros i Hi. pose proof (Hmono m i). lia.
    + right. exists a. split; [done|]. assert (a = b) as <- by lia. split; [lia|]. done.
Qed.

Lemma scan_up_ok key K x lo hi fuel :
  (Z.to_nat (hi - lo) < fuel)%nat -> lo <= hi -> (forall i, lo <= i <= hi -> key i = Ok (K i)) -> x < K hi ->
  exists l, scan_up key fuel x lo = Ok l /\ lo <= l <= hi /\ (forall i, lo <= i < l -> K i <= x) /\ x < K l.
Proof.
  intros Hf Hlo Hkey Hx. unfold scan_up.
  apply (loop_inv (fun a => lo <= a <= hi /\ forall i, lo <= i < a -> K i <= x) (fun a => hi - a)).
  - split; [lia|]. intros; lia.
  - lia.
  - intros a (Ha & H1). split; [lia|]. rewrite Hkey by lia. cbn [rbind].
    destruct (Z.leb_spec (K a) x) as [L|L].
    + left. eexists. split; [done|]. assert (a <> hi) by (intros ->; lia).
      split; [|lia]. split; [lia|]. intros i Hi. destruct (decide (i = a)) as [->|]; [done|apply H1; lia].
    + right. eexists. split; [done|]. split; [lia|]. split; [done|lia].
Qed.

Lemma scan_below_ok key K x lo hi fuel :
  (Z.to_nat (hi - lo) < fuel)%nat -> lo <= hi -> (forall i, lo <= i <= hi -> key i = Ok (K i)) -> x <= K hi ->
  exists l, scan_below key fuel x lo = Ok l /\ lo <= l <= hi /\ (forall i, lo <= i < l -> K i < x) /\ x <= K l.
Proof.
  intros Hf Hlo Hkey Hx. unfold scan_below.
  apply (loop_inv (fun a => lo <= a <= hi /\ forall i, lo <= i < a -> K i < x) (fun a => hi - a)).
  - split; [lia|]. intros; lia.
  - lia.
  - intros a (Ha & H1). split; [lia|]. rewrite Hkey by lia. cbn [rbind].
    destruct (Z.ltb_spec (K a) x) as [L|L].
    + left. eexists. split; [done|]. assert (a <> hi) by (intros ->; lia).
      split; [|lia]. split; [lia|]. intros i Hi. destruct (decide (i = a)) as [->|]; [done|apply H1; lia].
    + right. eexists. split; [done|]. split; [lia|]. split; [done|lia].
Qed.

(** The global search of a class without select cache.  [hi] may be one line
    past the last ([(m_size + LineBits + 1) / LineBits] of the source). *)
Lemma upper_bound_line key K n hi r : 0 <= n -> n <= hi <= n + 1 -> (forall i, 0 <= i <= n -> key i = Ok (K i)) ->
  mono K n -> K 0 <= r < K n -> exists l, upper_bound key r 0 hi = Ok l /\ l <= n /\ line_after K r l.
Proof.
  intros Hn Hhi Hkey Hm Hr.
  destruct (upper_bound_ok key K r 0 hi) as (l & E & Hl & H1 & H2); [lia|intros; apply Hkey; lia| |].
  { intros i j Hi Hj. apply Hm; lia. }
  exists l. split; [exact E|].
  assert (l <= n). { destruct (Z.lt_ge_cases n l); [|lia]. specialize (H1 n). lia. }
  assert (1 <= l). { destruct (Z.lt_ge_cases l 1); [|lia]. assert (l = 0) as -> by lia.
    destruct (decide (0 < hi)); [specialize (H2 0); lia|]. assert (n = 0) as -> by lia. lia. }
  split; [done|]. split; [done|]. split; [apply H1; lia|].
  destruct (decide (l < hi)); [apply H2; lia|]. assert (l = n) as -> by lia. lia.
Qed.

(** What a select cache holds: slot [j] is the first line at or after rank [L * j],
    or [n + 1] when no line is (which a cache with several slots per line has). *)
Definition sel_ok (K : Z -> Z) (L slots n : Z) (s : Z -> Z) : Prop :=
  (0 < slots -> s 0 = 0) /\ s slots = n /\
  forall j, 0 < j < slots -> 1 <= s j <= n + 1 /\ K (s j - 1) < L * j /\ (s j <= n -> L * j <= K (s j)).

(** The range [lo, hi] brackets the line after rank [r]. *)
Definition brackets (K : Z -> Z) (n r lo hi : Z) : Prop :=
  0 <= lo <= n /\ 0 <= hi <= n + 1 /\ (lo = 0 \/ K (lo - 1) <= r) /\ (hi <= n -> r < K hi) /\ lo <= hi.

(** The range a cache gives for rank [r] contains the answer, for either search. *)
Lemma sel_bounds K L slots n s r : mono K n -> 0 <= n -> 0 < L -> K 0 = 0 -> sel_ok K L slots n s ->
  0 <= r < L * slots -> r < K n -> brackets K n r (s (r / L)) (s (r / L + 1)).
Proof.
  intros Hm Hn HL H0 (S0 & Sn & Sj) Hr Hrn.
  pose proof (Z.div_mod r L ltac:(lia)) as D. pose proof (Z.mod_pos_bound r L HL) as M.
  set (j := r / L) in *. assert (Hj : 0 <= j < slots) by nia.
  assert (Hlo : 0 <= s j <= n /\ (s j = 0 \/ K (s j - 1) <= r)).
  { destruct (decide (j = 0)) as [->|]; [rewrite S0 by lia; lia|]. destruct (Sj j ltac:(lia)) as (Q1 & Q2 & _).
    assert (K (s j - 1) <= r) by nia. split; [|by right].
    destruct (Z.lt_ge_cases n (s j)); [|lia]. assert (s j - 1 = n) as E by lia. rewrite E in Q2. nia. }
  assert (Hhi : 0 <= s (j + 1) <= n + 1 /\ (s (j + 1) <= n -> r < K (s (j + 1)))).
  { destruct (decide (j + 1 = slots)) as [->|]; [rewrite Sn; lia|]. destruct (Sj (j + 1) ltac:(lia)) as (Q1 & Q2 & Q3).
    split; [lia|]. intros Hle. specialize (Q3 Hle). nia. }
  unfold brackets. split_and!; try tauto; try lia.
  destruct (Z.lt_ge_cases (s (j + 1)) (s j)) as [Hlt|]; [|lia]. exfalso.
  pose proof (Hm (s (j + 1)) (s j - 1)). lia.
Qed.

Lemma upper_bound_sel key K n lo hi r : (forall i, 0 <= i <= n -> key i = Ok (K i)) -> mono K n -> K 0 <= r < K n ->
  brackets K n r lo hi -> exists l, upper_bound key r lo hi = Ok l /\ l <= n /\ line_after K r l.
Proof.
  intros Hkey Hm H0 (Hlo & Hhi & Hr & Hr' & Hle).
  destruct (upper_bound_ok key K r lo hi) as (l & E & Hl & H1 & H2); [lia|intros; apply Hkey; lia| |].
  { intros i j Hi Hj. apply Hm; lia. }
  exists l. split; [exact E|].
  assert (Hln : l <= n). { destruct (Z.lt_ge_cases n l); [|lia]. specialize (H1 n). lia. }
  assert (Hx : r < K l).
  { destruct (decide (l = hi)) as [->|]; [auto|]. apply H2. lia. }
  assert (1 <= l). { destruct (Z.lt_ge_cases l 1); [|lia]. assert (l = 0) as -> by lia. lia. }
  split; [done|]. split; [done|]. split; [|done]. destruct (decide (l = lo)) as [->|]; [|apply H1; lia]. destruct Hr; lia.
Qed.

Lemma scan_up_sel key K n lo hi r fuel : (forall i, 0 <= i <= n -> key i = Ok (K i)) -> mono K n -> K 0 <= r < K n ->
  brackets K n r lo hi -> (Z.to_nat (hi - lo) < fuel)%nat ->
  exists l, scan_up key fuel r lo = Ok l /\ l <= n /\ line_after K r l.
Proof.
  intros Hkey Hm H0 (Hlo & Hhi & Hr & Hr' & Hle) Hf.
  destruct (scan_up_ok key K r lo (Z.min hi n) fuel) as (l & E & Hl & H1 & H2); [lia|lia|intros; apply Hkey; lia| |].
  { destruct (Z.min_spec hi n) as [[? ->]|[? ->]]; [apply Hr'|]; lia. }
  exists l. split; [exact E|]. split; [lia|].
  assert (1 <= l). { destruct (Z.lt_ge_cases l 1); [|lia]. assert (l = 0) as -> by lia. lia. }
  split; [done|]. split; [|done]. destruct (decide (l = lo)) as [->|]; [|apply H1; lia]. destruct Hr; lia.
Qed.

(** Finding slot [j] from slot [j - 1]: the scan may read line [n + 1], whose key
    is [x], when no line reaches rank [L * j]. *)
Lemma next_slot_ok (key : Z -> res Z) K x n t k : (forall i, 0 <= i <= n -> key i = Ok (K i)) -> 0 <= n ->
  t <= K n \/ (key (n + 1) = Ok x /\ t <= x) -> K 0 = 0 -> 0 < t ->
  0 <= k <= n + 1 -> k = 0 \/ K (k - 1) < t -> (k = n + 1 -> key k = Ok x /\ t <= x) ->
  exists l, scan_below key (S (S (Z.to_nat n))) t k = Ok l /\
    1 <= l <= n + 1 /\ K (l - 1) < t /\ (l <= n -> t <= K l).
Proof.
  intros Hkey Hn Hx H0 Ht Hk Hlow Hend.
  set (K' := fun i => if i <=? n then K i else x). set (hi := if decide (k <= n /\ t <= K n) then n else n + 1).
  assert (Hhi : k <= hi /\ n <= hi <= n + 1) by (subst hi; case_decide; lia).
  destruct (scan_below_ok key K' t k hi (S (S (Z.to_nat n)))) as (l & E & Hl & H1 & H2); [lia|lia| | |].
  - intros i Hi. subst K'. cbn beta. destruct (Z.leb_spec i n); [apply Hkey; lia|].
    assert (i = n + 1) as -> by lia. subst hi. case_decide; [lia|].
    destruct (decide (k = n + 1)) as [->|]; [by apply Hend|]. destruct Hx as [?|[? _]]; [lia|done].
  - subst K' hi. cbn beta. case_decide; [rewrite (proj2 (Z.leb_le _ _)) by lia; lia|].
    rewrite (proj2 (Z.leb_gt _ _)) by lia. destruct (decide (k = n + 1)); [by apply Hend|]. destruct Hx as [?|[_ ?]]; lia.
  - exists l. split; [exact E|]. assert (Hl1 : 1 <= l).
    { destruct (Z.lt_ge_cases l 1); [|lia]. assert (l = 0) as -> by lia. subst K'. cbn beta in H2.
      rewrite (proj2 (Z.leb_le _ _)) in H2 by lia. lia. }
    split; [lia|]. split.
    + destruct (decide (l = k)) as [->|]; [destruct Hlow; lia|]. specialize (H1 (l - 1) ltac:(lia)). subst K'.
      cbn beta in H1. rewrite (proj2 (Z.leb_le _ _)) in H1 by lia. done.
    + intros Hle. subst K'. cbn beta in H2. by rewrite (proj2 (Z.leb_le _ _)) in H2 by lia.
Qed.

Lemma build_sel_ok key K x L base slots n ws :
  words ws -> 0 <= base -> 0 <= slots -> 32 * (base + slots + 1) <= 64 * Z.of_nat (length ws) ->
  0 <= n < 2 ^ 31 -> 0 < L -> K 0 = 0 ->
  (forall ws' i, same_out ws ws' (32 * base) (32 * (base + slots + 1)) -> 0 <= i <= n -> key ws' i = Ok (K i)) ->
  ((0 < slots -> L * (slots - 1) <= K n) \/
   (L * (slots - 1) <= x /\ forall ws', same_out ws ws' (32 * base) (32 * (base + slots + 1)) ->
      fld 32 ws' base = 0 -> key ws' (n + 1) = Ok x)) ->
  exists ws', build_sel key L base slots n ws = Ok ws' /\
    same_out ws ws' (32 * base) (32 * (base + slots + 1)) /\
    sel_ok K L slots n (fun j => fld 32 ws' (base + j)).
Proof.
  intros Hw Hb Hs Hlen Hn HL H0 Hkey Hlast.
  assert (W32 : width 32) by (unfold width; lia). unfold build_sel.
  destruct (wrf_ok 32 ws base 0) as (w0 & -> & R0); [done|done|lia|lia|lia|]. cbn [rbind].
  pose proof (same_out_put ws ws w0 _ _ _ _ _ (same_out_refl ws (32 * base) (32 * (base + slots + 1)) Hw) R0
    ltac:(lia) ltac:(lia)) as O0.
  set (J j w := same_out ws w (32 * base) (32 * (base + slots + 1)) /\ fld 32 w base = 0 /\
    forall i, 0 < i < j -> 1 <= fld 32 w (base + i) <= n + 1 /\ K (fld 32 w (base + i) - 1) < L * i /\
      (fld 32 w (base + i) <= n -> L * i <= K (fld 32 w (base + i)))).
  assert (J1 : J 1 w0).
  { split; [done|]. split; [|intros; lia]. apply (fld_same 32 ws w0 base 0); (done || lia). }
  assert (exists w1, for_ 1 slots (fun j ws =>
    let* k := rdf 32 ws (base + (j - 1)) in
    let* k := scan_below (key ws) (S (S (Z.to_nat n))) (L * j) k in wrf 32 ws (base + j) k) w0 = Ok w1 /\ J (Z.max 1 slots) w1)
    as (w1 & -> & O1 & Z1 & S1).
  { destruct (Z.lt_ge_cases slots 1).
    { exists w0. rewrite Z.max_l by lia. split; [|done]. unfold for_. by replace (Z.to_nat (slots - 1)) with 0%nat by lia. }
    rewrite Z.max_r by lia. apply for_inv; [lia|done|]. intros j w Hj (O & Zj & Sj). pose proof O as (Lw & Ww & _).
    rewrite rdf_ok by (done || lia). cbn [rbind]. set (k := fld 32 w (base + (j - 1))).
    assert (Hk : 0 <= k <= n + 1 /\ (k = 0 \/ K (k - 1) < L * j)).
    { subst k. destruct (decide (j = 1)) as [->|]; [rewrite Z.add_0_r, Zj; lia|]. destruct (Sj (j - 1) ltac:(lia)). nia. }
    assert (Hx : L * j <= K n \/ (key w (n + 1) = Ok x /\ L * j <= x)).
    { destruct Hlast as [Hl|[Hl Hkx]]; [left; specialize (Hl ltac:(lia)); nia|right]. split; [by apply Hkx|nia]. }
    destruct (next_slot_ok (key w) K x n (L * j) k) as (l & -> & Hl1 & Hl2 & Hl3);
      [intros; by apply Hkey|lia|done|done|nia|lia|tauto| |].
    { intros ->. destruct Hx as [Hx|Hx]; [|done]. exfalso. destruct Hk as [_ [?|Hk]]; [lia|].
      replace (n + 1 - 1) with n in Hk by lia. lia. }
    cbn [rbind].
    destruct (wrf_ok 32 w (base + j) l) as (w' & -> & R); [done|done|lia|lia|lia|]. exists w'. split; [done|].
    pose proof (fld_same 32 w w' (base + j) l W32 ltac:(lia) ltac:(lia) R) as Hf.
    split; [eapply same_out_put; [exact O|exact R|lia|lia]|]. split.
    { rewrite (fld_frame 32 w w' _ _ _ base W32 ltac:(lia) R) by lia. done. }
    intros i Hi. destruct (decide (i = j)) as [->|]; [by rewrite Hf|].
    rewrite (fld_frame 32 w w' _ _ _ (base + i) W32 ltac:(lia) R) by lia. apply Sj. lia. }
  cbn [rbind]. pose proof O1 as (Lw & Ww & _).
  destruct (wrf_ok 32 w1 (base + slots) n) as (w2 & -> & R2); [done|done|lia|lia|lia|]. exists w2. split; [done|].
  split; [eapply same_out_put; [exact O1|exact R2|lia|lia]|]. split; [|split].
  - intros Hp. rewrite Z.add_0_r. rewrite (fld_frame 32 w1 w2 _ _ _ base W32 ltac:(lia) R2) by lia. done.
  - apply (fld_same 32 w1 w2 (base + slots) n); (done || lia).
  - intros j Hj. rewrite (fld_frame 32 w1 w2 _ _ _ (base + j) W32 ltac:(lia) R2) by lia. apply S1. lia.
Qed.

(** ** Inside a line *)

(** Word [j] of the line at [b] holds the bits [g]. *)
Lemma word_select g b q x r : 0 <= b -> word64 x -> 0 <= q ->
  (forall m, 0 <= m < 64 -> Z.testbit x m = g (b + 64 * q + m)) ->
  rank g (b + 64 * q) <= r < rank g (b + 64 * q + 64) ->
  exists s, UintSelect1 x (r - rank g (b + 64 * q)) = Ok s /\ 0 <= s < 64 /\ is_select g r (b + (64 * q + s)).
Proof.
  intros Hb Hx Hq Hg Hr.
  assert (Hc : fast_popcount x = rank g (b + 64 * q + 64) - rank g (b + 64 * q)).
  { rewrite rank_add by lia. unfold fast_popcount. enough (cnt (Z.testbit x) 0 64 = cnt g (b + 64 * q) (Z.to_nat 64)) by lia.
    apply cnt_ext. intros i Hi. rewrite Z.add_0_l. apply Hg. lia. }
  destruct (UintSelect1_ok x (r - rank g (b + 64 * q))) as (s & E & Hs & S); [done|lia|].
  exists s. split; [done|]. split; [done|].
  replace r with (rank g (b + 64 * q) + (r - rank g (b + 64 * q))) by lia.
  replace (b + (64 * q + s)) with (b + 64 * q + s) by lia.
  apply (is_select_shift g (Z.testbit x)); [lia|lia| |done]. intros i Hi. apply Hg. lia.
Qed.

Lemma line_select4_ok g b w c r : 0 <= b ->
  (forall j, 0 <= j < 4 -> exists x, w j = Ok x /\ word64 x /\
     forall m, 0 <= m < 64 -> Z.testbit x m = g (b + 64 * j + m)) ->
  (forall j, 0 <= j < 4 -> c j = rank g (b + 64 * j)) ->
  rank g b <= r < rank g (b + 256) ->
  exists p, line_select4 w c r = Ok p /\ 0 <= p < 256 /\ is_select g r (b + p).
Proof.
  intros Hb Hw Hc Hr. unfold line_select4.
  assert (G : forall j, 0 <= j < 4 -> rank g (b + 64 * j) <= r < rank g (b + 64 * j + 64) ->
    exists p, (let* x := w j in let* s := UintSelect1 x (r - c j) in Ok (64 * j + s)) = Ok p /\
      0 <= p < 256 /\ is_select g r (b + p)).
  { intros j Hj Hrj. destruct (Hw j Hj) as (x & -> & Hx & Hg). cbn [rbind]. rewrite Hc by done.
    destruct (word_select g b j x r) as (s & -> & Hs & S); [done|done|lia|done|done|]. cbn [rbind].
    eexists. split; [done|]. split; [lia|done]. }
  pose proof (Hc 1) as C1. pose proof (Hc 2) as C2. pose proof (Hc 3) as C3.
  pose proof (G 0) as G0. pose proof (G 1) as G1. pose proof (G 2) as G2. pose proof (G 3) as G3. clear G.
  replace (b + 64 * 0) with b in * by lia. replace (b + 64) with (b + 64 * 1) in * by lia.
  replace (b + 64 * 1 + 64) with (b + 64 * 2) in * by lia. replace (b + 64 * 2 + 64) with (b + 64 * 3) in * by lia.
  replace (b + 64 * 3 + 64) with (b + 256) in * by lia.
  destruct (Z.ltb_spec r (c 2)).
  - destruct (Z.ltb_spec r (c 1)); [apply G0|apply G1]; lia.
  - destruct (Z.ltb_spec r (c 3)); [apply G2|apply G3]; lia.
Qed.

(** Ranks at the line starts. *)
Definition Kones (f : Z -> bool) (L i : Z) : Z := rank f (L * i).
Definition Kzeros (f : Z -> bool) (L i : Z) : Z := L * i - rank f (L * i).

Lemma Kones_mono f L n : 0 < L -> mono (Kones f L) n.
Proof. intros HL i j Hi Hj. apply rank_mono. nia. Qed.

Lemma Kzeros_rank f L i : 0 < L -> 0 <= i -> Kzeros f L i = rank (fun p => negb (f p)) (L * i).
Proof. intros. unfold Kzeros. rewrite rank_negb by nia. done. Qed.

Lemma Kzeros_mono f L n : 0 < L -> mono (Kzeros f L) n.
Proof.
  intros HL i j Hi Hj. rewrite !Kzeros_rank by lia. apply rank_mono. nia.
Qed.

(** ** Optional select caches *)

Definition sel_built (ws : list Z) (K : Z -> Z) (L slots n : Z) (sel : option Z) : Prop :=
  match sel with
  | None => True
  | Some s => 0 <= s /\ 0 <= slots /\ 32 * (s + slots + 1) <= 64 * Z.of_nat (length ws) /\
      sel_ok K L slots n (fun j => fld 32 ws (s + j))
  end.

Lemma rd_sel_ok ws K L slots n s j : sel_built ws K L slots n (Some s) -> 0 <= j <= slots ->
  rd_sel ws (Some s) j = Ok (fld 32 ws (s + j)).
Proof. intros (H1 & H2 & H3 & _) Hj. unfold rd_sel. apply rdf_ok; (auto with word64 || lia). Qed.

Lemma sel_stage_ok (speed : bool) key K x L base slots n ws : words ws -> 0 <= base -> 0 <= slots ->
  32 * (base + (if speed then slots + 1 else 0)) <= 64 * Z.of_nat (length ws) ->
  0 <= n < 2 ^ 31 -> 0 < L -> K 0 = 0 ->
  (forall ws' i, same_out ws ws' (32 * base) (64 * Z.of_nat (length ws)) -> 0 <= i <= n -> key ws' i = Ok (K i)) ->
  ((0 < slots -> L * (slots - 1) <= K n) \/
   (L * (slots - 1) <= x /\ forall ws', same_out ws ws' (32 * base) (64 * Z.of_nat (length ws)) ->
      32 * (base + slots + 1) <= 64 * Z.of_nat (length ws') -> fld 32 ws' base = 0 -> key ws' (n + 1) = Ok x)) ->
  exists ws', (if speed then build_sel key L base slots n ws else Ok ws) = Ok ws' /\
    same_out ws ws' (32 * base) (32 * (base + (if speed then slots + 1 else 0))) /\
    sel_built ws' K L slots n (if speed then Some base else None).
Proof.
  intros Hw Hb Hs Hl Hn HL H0 Hkey Hx. destruct speed.
  2: { exists ws. split; [done|]. split; [by apply same_out_refl|done]. }
  destruct (build_sel_ok key K x L base slots n ws) as (ws' & E & O & S); [done|done|done|lia|done|lia|done| | |].
  { intros w i O Hi. apply Hkey; [|done]. eapply same_out_weak; [exact O|lia|lia]. }
  { destruct Hx as [?|[? Hx]]; [by left|right]. split; [done|]. intros w O Hf. pose proof O as (Lw & _).
    apply Hx; [|lia|done]. eapply same_out_weak; [exact O|lia|lia]. }
  exists ws'. split; [exact E|]. pose proof O as (Lw & _). split; [by rewrite Z.add_assoc|].
  unfold sel_built. rewrite Lw. split_and!; (done || lia).
Qed.

Lemma sel_built_frame ws ws' K L slots n sel a b : sel_built ws K L slots n sel -> same_out ws ws' a b ->
  (forall s, sel = Some s -> 32 * (s + slots + 1) <= a) -> sel_built ws' K L slots n sel.
Proof.
  intros H O Ha. destruct sel as [s|]; [|done]. specialize (Ha s eq_refl). unfold sel_built in *.
  pose proof O as (Lw & _). rewrite Lw. destruct H as (H1 & H2 & H3 & (H4 & H5 & H6)).
  assert (F : forall j, 0 <= j <= slots -> fld 32 ws' (s + j) = fld 32 ws (s + j)).
  { intros j Hj. apply (same_out_fld ws ws' a b 32 _ O); (auto with word64 || lia). }
  do 3 (split; [done|]). split; [|split].
  - intros Hp. rewrite F by lia. by apply H4.
  - rewrite F by lia. done.
  - intros j Hj. rewrite F by lia. by apply H6.
Qed.

Lemma sel_built_ext ws K K' L slots n sel : 0 <= n -> (forall i, 0 <= i <= n -> K i = K' i) ->
  sel_built ws K L slots n sel -> sel_built ws K' L slots n sel.
Proof.
  intros Hn HK H. destruct sel as [s|]; [|done]. destruct H as (H1 & H2 & H3 & (H4 & H5 & H6)).
  do 3 (split; [done|]). do 2 (split; [done|]). intros j Hj. destruct (H6 j Hj) as (? & ? & H7).
  split; [done|]. rewrite <- HK by lia. split; [done|]. intros Hle. rewrite <- HK by lia. auto.
Qed.

(** ** The flag word: size, and which select caches follow *)

Definition flags_of (sz : Z) (s0 s1 : bool) : Z :=
  Z.lor (Z.lor (Z.shiftl sz 8) (Z.shiftl (Z.b2z s1) 1)) (Z.b2z s0).

Lemma flags_range sz s0 s1 : 0 <= sz < 2 ^ 32 -> 0 <= flags_of sz s0 s1 < 2 ^ 64.
Proof.
  intros H. unfold flags_of. apply word64_lor; [apply word64_lor|].
  - unfold word64. rewrite Z.shiftl_mul_pow2 by lia. lia.
  - destruct s1; vm_compute; (split; [discriminate|reflexivity]).
  - destruct s0; vm_compute; (split; [discriminate|reflexivity]).
Qed.

Lemma flags_decode sz s0 s1 : 0 <= sz ->
  Z.shiftr (flags_of sz s0 s1) 8 = sz /\ negb (Z.land (flags_of sz s0 s1) 1 =? 0) = s0 /\
  negb (Z.land (flags_of sz s0 s1) 2 =? 0) = s1.
Proof.
  intros Hs. unfold flags_of. split; [|split].
  - rewrite !Z.shiftr_lor, Z.shiftr_shiftl_l by lia. replace (8 - 8) with 0 by lia. rewrite Z.shiftl_0_r.
    destruct s0, s1; cbn; by rewrite ?Z.lor_0_r.
  - change 1 with (Z.shiftl 1 0) at 2. rewrite land_shl1_testbit by lia. rewrite !Z.lor_spec, !Z.shiftl_spec by lia.
    rewrite (Z.testbit_neg_r sz), (Z.testbit_neg_r (Z.b2z s1)) by lia. by destruct s0.
  - change 2 with (Z.shiftl 1 1). rewrite land_shl1_testbit by lia. rewrite !Z.lor_spec, !Z.shiftl_spec by lia.
    rewrite (Z.testbit_neg_r sz) by lia. by destruct s0, s1.
Qed.

Lemma div_exact a b : 0 < b -> b * a / b = a.
Proof. intros. rewrite Z.mul_comm. apply Z.div_mul. lia. Qed.

End RankSpec.
