(* ===== verification/RankSimple.v ===== *)
(** * [rank_select_simple], [rank_select_allzero], [rank_select_allone]

    [src/src/terark/succinct/rank_select_simple.hpp] and [.cpp].  The rank cache
    is an array of [uint32_t] stored behind the bits in the block of the
    underlying [febitvec]: one rank sum per line of 256 bits, one more for the
    total, and in the last [uint32_t] of the block the size.  Pointers into
    the block are indices of 32-bit fields ([Mem]). *)
From S2P Require Import Prelude Bits Febitvec Mem RankSpec.
Import Febitvec Mem RankSpec.

Module RankSimple.

Record rank_select_simple := Simple {
  fv : febitvec; m_rank_cache : option Z; m_max_rank0 : Z; m_max_rank1 : Z }.

Definition words_of (v : rank_select_simple) : list Z := m_words (fv v).
Definition size (v : rank_select_simple) : Z := m_size (fv v).

Definition LineBits : Z := 256.
Definition LineWords : Z := 4.

(** [rank_select_check_overflow(n, >, ...)] *)
Definition check_overflow (n : Z) : res unit := if 2 ^ 32 - 1 <? n then Throw terark_die else Ok tt.

(** [(n + LineBits - 1) & ~(LineBits - 1)] *)
Definition line_ceil (n : Z) : Z := Z.land (n + LineBits - 1) (Z.lnot (LineBits - 1)).

Definition no_cache (b : febitvec) : rank_select_simple := Simple b None 0 0.

Definition rd_cache (ws : list Z) (cache : option Z) (i : Z) : res Z :=
  match cache with Some c => rdf 32 ws (c + i) | None => UB end.

(** ** Queries *)

(** [fast_rank1], which [rank1] repeats behind an assert *)
Definition fast_rank1 (ws : list Z) (cache : option Z) (bitpos : Z) : res Z :=
  let line_wordpos := Z.land bitpos (Z.lnot (LineBits - 1)) / 64 in
  let line_word_idxupp := bitpos / 64 in
  let* rank := rd_cache ws cache (bitpos / LineBits) in
  let* rank := for_ line_wordpos line_word_idxupp (fun i rank =>
    let* w := rd ws i in Ok (rank + fast_popcount w)) rank in
  if negb (bitpos mod 64 =? 0) then
    let* w := rd ws line_word_idxupp in Ok (rank + fast_popcount_trail w (bitpos mod 64))
  else Ok rank.

Definition fast_rank0 (ws : list Z) (cache : option Z) (bitpos : Z) : res Z :=
  let* r := fast_rank1 ws cache bitpos in Ok (bitpos - r).

Definition fast_select0 (ws : list Z) (cache : option Z) (rank : Z) : res Z := Throw invalid_argument.
Definition fast_select1 (ws : list Z) (cache : option Z) (rank : Z) : res Z := Throw invalid_argument.

Definition rank1 (v : rank_select_simple) (bitpos : Z) : res Z :=
  let* _ := assert_ (bitpos <=? size v) in fast_rank1 (words_of v) (m_rank_cache v) bitpos.

Definition rank0 (v : rank_select_simple) (bitpos : Z) : res Z :=
  let* r := rank1 v bitpos in Ok (bitpos - r).

(** The loop over the words of line [lo - 1]; [g] is [~] for [select0].  It
    returns the position in the line. *)
Fixpoint select_words (ws : list Z) (g : Z -> Z) (base rank : Z) (n : nat) (i hit : Z) : res Z :=
  match n with
  | O => UB
  | S n =>
    let* w := rd ws (base + i) in
    let bm := g w in
    let upper := hit + fast_popcount bm in
    if rank <? upper then let* s := UintSelect1 bm (rank - hit) in Ok (i * 64 + s)
    else select_words ws g base rank n (i + 1) upper
  end.

(** Rank of ones (of zeros) at the start of line [i]. *)
Definition key1 (v : rank_select_simple) (i : Z) : res Z := rd_cache (words_of v) (m_rank_cache v) i.
Definition key0 (v : rank_select_simple) (i : Z) : res Z :=
  let* c := rd_cache (words_of v) (m_rank_cache v) i in Ok (LineBits * i - c).

Definition select1 (v : rank_select_simple) (rank : Z) : res Z :=
  let* _ := assert_ (rank <? m_max_rank1 v) in
  let nLines := (size v + LineBits - 1) / LineBits in
  let* lo := upper_bound (key1 v) rank 0 nLines in
  let* c := key1 v lo in
  let* _ := assert_ (rank <? c) in
  let* hit := key1 v (lo - 1) in
  let* p := select_words (words_of v) (fun w => w) (LineWords * (lo - 1)) rank 4 0 hit in
  Ok (LineBits * (lo - 1) + p).

Definition select0 (v : rank_select_simple) (rank : Z) : res Z :=
  let* _ := assert_ (rank <? m_max_rank0 v) in
  let nLines := (size v + LineBits - 1) / LineBits in
  let* lo := upper_bound (key0 v) rank 0 nLines in
  let* c := key0 v lo in
  let* _ := assert_ (rank <? c) in
  let* hit := key0 v (lo - 1) in
  let* p := select_words (words_of v) not64 (LineWords * (lo - 1)) rank 4 0 hit in
  Ok (LineBits * (lo - 1) + p).

Definition isall0 (v : rank_select_simple) : bool := m_max_rank1 v =? 0.
Definition isall1 (v : rank_select_simple) : bool := m_max_rank0 v =? 0.
Definition mem_size (v : rank_select_simple) : Z := m_capacity (fv v) / 8.

(** ** Construction *)

Definition clear (v : rank_select_simple) : rank_select_simple := no_cache empty_vec.

(** [shrink_to_fit] of the class: the cache must not have been built. *)
Definition shrink (junk : nat -> Z) (v : rank_select_simple) : res rank_select_simple :=
  let* _ := assert_ (match m_rank_cache v with None => true | Some _ => false end) in
  let* _ := assert_ (m_max_rank0 v =? 0) in
  let* _ := assert_ (m_max_rank1 v =? 0) in
  let* b := shrink_to_fit junk (fv v) in Ok (Simple b (m_rank_cache v) (m_max_rank0 v) (m_max_rank1 v)).

Definition new_filled (junk : nat -> Z) (n : Z) (val : bool) : res rank_select_simple :=
  let* b := make junk n val in
  let* _ := check_overflow (m_size b) in Ok (no_cache b).

(** These two check [m_size], which is still 0. *)
Definition new_no_init (junk : nat -> Z) (n : Z) : res rank_select_simple :=
  let* _ := check_overflow 0 in
  let* b := resize_no_init junk empty_vec n in Ok (no_cache b).

Definition new_reserve (junk : nat -> Z) (n : Z) : res rank_select_simple :=
  let* _ := check_overflow 0 in Ok (no_cache (reserve junk empty_vec n)).

(** The copy constructor: the whole block is copied and the cache pointer is
    set to [m_words + num_words()]. *)
Definition copy (junk : nat -> Z) (y : rank_select_simple) : res rank_select_simple :=
  let b := reserve junk empty_vec (m_capacity (fv y)) in
  let b := FV (words_of y ++ drop (length (words_of y)) (m_words b)) (size y) in
  match m_rank_cache y with
  | Some _ => Ok (Simple b (Some (2 * num_words b)) (m_max_rank0 y) (m_max_rank1 y))
  | None => Ok (no_cache b)
  end.

Definition risk_mmap_from (ws : list Z) : res rank_select_simple :=
  let length := 8 * Z.of_nat (length ws) in
  let* bits := rdf 32 ws (length / 4 - 1) in
  let ceiled_bits := line_ceil bits in
  let cache := 2 * (ceiled_bits / 64) in
  let* max_rank1 := rdf 32 ws (cache + ceiled_bits / LineBits) in
  Ok (Simple (FV ws bits) (Some cache) (bits - max_rank1) max_rank1).

Definition build_cache (junk : nat -> Z) (v : rank_select_simple) : res rank_select_simple :=
  let* _ := check_overflow (size v) in
  let* _ := assert_ (match m_rank_cache v with None => true | Some _ => false end) in
  if is_null (fv v) then Ok v else
  let ceiled_bits := line_ceil (size v) in
  let nlines := ceiled_bits / LineBits in
  let* v := shrink junk v in
  let b := reserve junk (fv v) (ceiled_bits + 32 * (nlines + 2)) in
  let* ws := bits_range_set0 (m_words b) (m_size b) ceiled_bits in
  let cache := 2 * (ceiled_bits / 64) in
  let* (ws, Rank1) := for_ 0 nlines (fun i '(ws, Rank1) =>
    let* ws := wrf 32 ws (cache + i) Rank1 in
    let* Rank1 := for_ 0 LineWords (fun j Rank1 =>
      let* w := rd ws (i * LineWords + j) in Ok (Rank1 + fast_popcount w)) Rank1 in
    Ok (ws, Rank1)) (ws, 0) in
  let* ws := wrf 32 ws (cache + nlines) Rank1 in
  let* ws := wrf 32 ws (m_capacity b / 32 - 1) (m_size b) in
  Ok (Simple (FV ws (m_size b)) (Some cache) (m_size b - Rank1) Rank1).

#[export] Instance simple_rs : RankSelect rank_select_simple := {|
  rs_size := size; rs_is1 := fun v p => is1 (fv v) p;
  rs_rank0 := rank0; rs_rank1 := rank1; rs_select0 := select0; rs_select1 := select1;
  rs_max_rank0 := m_max_rank0; rs_max_rank1 := m_max_rank1 |}.

(** ** The two constant vectors: their only field is the size *)

Inductive rank_select_allzero := AllZero (m_size : Z).
Inductive rank_select_allone := AllOne (m_size : Z).

Definition npos : Z := 2 ^ 64 - 1.
Definition asize0 (v : rank_select_allzero) : Z := let 'AllZero n := v in n.
Definition asize1 (v : rank_select_allone) : Z := let 'AllOne n := v in n.

#[export] Instance allzero_rs : RankSelect rank_select_allzero := {|
  rs_size := asize0;
  rs_is1 := fun v p => let* _ := assert_ (p <? asize0 v) in Ok false;
  rs_rank0 := fun v p => let* _ := assert_ (p <=? asize0 v) in Ok p;
  rs_rank1 := fun v p => Ok 0;
  rs_select0 := fun v r => let* _ := assert_ (r <? asize0 v) in Ok r;
  rs_select1 := fun v r => Ok npos;
  rs_max_rank0 := asize0; rs_max_rank1 := fun _ => 0 |}.

#[export] Instance allone_rs : RankSelect rank_select_allone := {|
  rs_size := asize1;
  rs_is1 := fun v p => let* _ := assert_ (p <? asize1 v) in Ok true;
  rs_rank0 := fun v p => Ok 0;
  rs_rank1 := fun v p => let* _ := assert_ (p <=? asize1 v) in Ok p;
  rs_select0 := fun v r => Ok npos;
  rs_select1 := fun v r => let* _ := assert_ (r <? asize1 v) in Ok r;
  rs_max_rank0 := fun _ => 0; rs_max_rank1 := asize1 |}.

(** Run lengths of the constant vectors; the flag tells which vector it is. *)
Definition const_seq_len (val : bool) (m_size : Z) (v : bool) (bitpos : Z) : res Z :=
  if eqb val v then let* _ := assert_ (bitpos <? m_size) in Ok (m_size - bitpos) else Ok 0.
Definition const_seq_revlen (val : bool) (m_size : Z) (v : bool) (bitpos : Z) : res Z :=
  if eqb val v then let* _ := assert_ (bitpos <? m_size) in Ok bitpos else Ok 0.

(** ** Invariant of a vector whose cache is built *)

Definition nlines (n : Z) : Z := (n + 255) / 256.

Record built (v : rank_select_simple) : Prop := {
  built_wf : wf (fv v);
  built_size : size v < 2 ^ 32;
  built_room : 256 * nlines (size v) + 32 * (nlines (size v) + 2) <= m_capacity (fv v);
  built_zero : forall p, size v <= p < 256 * nlines (size v) -> bit_at (words_of v) p = false;
  built_ptr : m_rank_cache v = Some (8 * nlines (size v));
  built_rank : forall i, 0 <= i <= nlines (size v) ->
    fld 32 (words_of v) (8 * nlines (size v) + i) = rank (bit_at (words_of v)) (256 * i);
  built_max1 : m_max_rank1 v = rank (bit_at (words_of v)) (size v);
  built_max0 : m_max_rank0 v = size v - rank (bit_at (words_of v)) (size v);
  built_tail : fld 32 (words_of v) (m_capacity (fv v) / 32 - 1) = size v;
}.

Lemma line_ceil_eq n : 0 <= n -> line_ceil n = 256 * nlines n.
Proof.
  intros Hn. unfold line_ceil, nlines, LineBits. replace (n + 256 - 1) with (n + 255) by lia.
  change (256 - 1) with (Z.ones 8). rewrite <- Z.ldiff_land, Z.ldiff_ones_r, Z.shiftr_div_pow2, Z.shiftl_mul_pow2 by lia.
  change (2 ^ 8) with 256. lia.
Qed.

Lemma nlines_bounds n : 0 <= n -> 0 <= nlines n /\ n <= 256 * nlines n < n + 256.
Proof.
  intros Hn. unfold nlines. pose proof (Z.div_mod (n + 255) 256 ltac:(lia)).
  pose proof (Z.mod_pos_bound (n + 255) 256 ltac:(lia)). lia.
Qed.

Lemma rank_lt_2_32 f n p : n < 2 ^ 32 -> 0 <= p -> (forall i, n <= i < p -> f i = false) -> 0 <= n -> rank f p < 2 ^ 32.
Proof.
  intros Hn Hp Hz H0. destruct (Z.le_ge_cases p n).
  - pose proof (rank_bounds f p). lia.
  - replace p with (n + (p - n)) by lia. rewrite rank_add by lia. rewrite (cnt_false f n).
    + pose proof (rank_bounds f n). lia.
    + intros i Hi. apply Hz. lia.
Qed.

(** ** [build_cache] establishes the invariant *)

Lemma popcnt_line ws a n R0 : words ws -> 0 <= a -> 0 <= n -> a + n <= Z.of_nat (length ws) ->
  for_ 0 n (fun j R => let* w := rd ws (a + j) in Ok (R + fast_popcount w)) R0 =
  Ok (R0 + (rank (bit_at ws) (64 * (a + n)) - rank (bit_at ws) (64 * a))).
Proof.
  intros Hw Ha Hn Hl.
  destruct (for_inv (fun j R => R = R0 + (rank (bit_at ws) (64 * (a + j)) - rank (bit_at ws) (64 * a)))
    (fun j R => let* w := rd ws (a + j) in Ok (R + fast_popcount w)) 0 n R0) as (s & -> & ->); [lia| | |done].
  - rewrite Z.add_0_r. lia.
  - intros j R Hj ->. rewrite rd_word by lia. cbn [rbind]. eexists. split; [done|].
    replace (a + (j + 1)) with (a + j + 1) by lia. rewrite rank_words by lia. lia.
Qed.

(** The loop that fills the rank cache, on memory [ws] whose first [256 * n]
    bits are the padded vector. *)
Lemma fill_cache_ok ws n sz : words ws -> 0 <= n -> 256 * n + 32 * (n + 2) <= 64 * Z.of_nat (length ws) ->
  0 <= sz < 2 ^ 32 -> (forall p, sz <= p < 256 * n -> bit_at ws p = false) ->
  exists ws', for_ 0 n (fun i '(ws, Rank1) =>
      let* ws := wrf 32 ws (8 * n + i) Rank1 in
      let* Rank1 := for_ 0 LineWords (fun j Rank1 =>
        let* w := rd ws (i * LineWords + j) in Ok (Rank1 + fast_popcount w)) Rank1 in
      Ok (ws, Rank1)) (ws, 0) = Ok (ws', rank (bit_at ws) (256 * n)) /\
    same_out ws ws' (256 * n) (256 * n + 32 * n) /\
    forall i, 0 <= i < n -> fld 32 ws' (8 * n + i) = rank (bit_at ws) (256 * i).
Proof.
  intros Hw Hn Hl Hsz Hz.
  assert (Hr : forall i, 0 <= i <= n -> 0 <= rank (bit_at ws) (256 * i) < 2 ^ 32).
  { intros i Hi. split; [pose proof (rank_bounds (bit_at ws) (256 * i)); lia|].
    apply (rank_lt_2_32 _ sz); [lia|lia| |lia]. intros p Hp. apply Hz. lia. }
  match goal with |- context [for_ 0 n ?body _] =>
    destruct (for_inv (fun i '(w, R) => R = rank (bit_at ws) (256 * i) /\
      same_out ws w (256 * n) (256 * n + 32 * n) /\
      forall k, 0 <= k < i -> fld 32 w (8 * n + k) = rank (bit_at ws) (256 * k)) body 0 n (ws, 0))
      as ((ws' & R) & -> & -> & H1 & H2) end.
  - done.
  - split; [done|]. split; [by apply same_out_refl|]. intros; lia.
  - intros i [w R] Hi (-> & O & F). pose proof O as (Lw & Ww & _).
    destruct (wrf_ok 32 w (8 * n + i) (rank (bit_at ws) (256 * i))) as (w' & -> & P);
      [auto with word64|done|lia|lia|apply Hr; lia|]. cbn [rbind].
    assert (O' : same_out ws w' (256 * n) (256 * n + 32 * n)).
    { eapply same_out_put; [exact O|exact P|lia|lia]. }
    pose proof O' as (Lw' & Ww' & _).
    replace (i * LineWords) with (4 * i) by (unfold LineWords; lia).
    rewrite popcnt_line by (done || unfold LineWords; lia). cbn [rbind]. eexists. split; [done|].
    split; [|split; [done|]].
    + unfold LineWords. replace (64 * (4 * i + 4)) with (256 * (i + 1)) by lia.
      replace (64 * (4 * i)) with (256 * i) by lia.
      rewrite !(same_out_rank ws w' _ _ _ O') by lia. lia.
    + intros k Hk. destruct (decide (k = i)) as [->|].
      * apply (fld_same 32 w w'); [auto with word64|lia|apply Hr; lia|exact P].
      * rewrite (fld_frame 32 w w' _ _ _ (8 * n + k) width32 ltac:(lia) P) by lia. apply F. lia.
  - eauto.
Qed.

Lemma rank_pad f n p : 0 <= n <= p -> (forall i, n <= i < p -> f i = false) -> rank f p = rank f n.
Proof.
  intros Hn Hz. replace p with (n + (p - n)) by lia. rewrite rank_add by lia.
  rewrite (cnt_false f n); [lia|]. intros i Hi. apply Hz. lia.
Qed.

Lemma simple_build_cache_ok junk v : (forall j, word64 (junk j)) -> wf (fv v) -> words_of v <> [] ->
  size v < 2 ^ 32 -> m_rank_cache v = None -> m_max_rank0 v = 0 -> m_max_rank1 v = 0 ->
  exists v', build_cache junk v = Ok v' /\ built v' /\ size v' = size v /\
    forall p, 0 <= p < size v -> bit_at (words_of v') p = bit_at (words_of v) p.
Proof.
  intros Hj Hv Hne Hsz Hc H0 H1. pose proof Hv as [Wv Sv]. unfold build_cache, check_overflow, shrink.
  assert (Hs0 : 0 <= size v) by (unfold size; lia).
  destruct (Z.ltb_spec (2 ^ 32 - 1) (size v)) as [|_]; [lia|].
  rewrite Hc, H0, H1. cbn [rbind assert_ Z.eqb].
  rewrite (not_null (fv v) Hne).
  rewrite line_ceil_eq by done. unfold LineBits. rewrite (Z.mul_comm 256), Z.div_mul by lia.
  pose proof (nlines_bounds (size v) Hs0) as [Hn Hb]. set (n := nlines (size v)) in *.
  assert (H4 : n * 256 / 64 = 4 * n) by (replace (n * 256) with (4 * n * 64) by lia; apply Z.div_mul; lia).
  rewrite H4. cbn [fv].
  destruct (shrink_reserve_ok junk Hj (fv v) Hv Hne) as (u & -> & S1 & _ & HR). cbn [rbind fv].
  destruct (HR (n * 256 + 32 * (n + 2))) as ((W2 & S2 & B2) & C2 & _); [lia|].
  set (b := reserve junk _ _) in *. change (m_size (fv v)) with (size v) in *. rewrite S2.
  assert (Hcap : m_capacity b = 64 * Z.of_nat (length (m_words b))) by done.
  assert (H32 : m_capacity b / 32 - 1 = 2 * Z.of_nat (length (m_words b)) - 1).
  { rewrite Hcap. replace (64 * Z.of_nat (length (m_words b))) with (2 * Z.of_nat (length (m_words b)) * 32) by lia.
    rewrite Z.div_mul by lia. done. }
  rewrite H32.
  destruct (bits_range_set0_ok (m_words b) (size v) (n * 256)) as (wz & -> & Lz & Wz & Bz); [apply W2|lia|lia|]. cbn [rbind].
  assert (Hz : forall p, size v <= p < 256 * n -> bit_at wz p = false).
  { intros p Hp. rewrite Bz by lia. destruct (Z.leb_spec (size v) p), (Z.ltb_spec p (n * 256)); (lia || done). }
  replace (2 * (4 * n)) with (8 * n) by lia.
  destruct (fill_cache_ok wz n (size v)) as (wc & -> & Oc & Fc); [done|lia|lia|lia|done|]. cbn [rbind].
  pose proof Oc as (Lc & Wc & _).
  assert (Hr : 0 <= rank (bit_at wz) (256 * n) < 2 ^ 32).
  { split; [pose proof (rank_bounds (bit_at wz) (256 * n)); lia|]. apply (rank_lt_2_32 _ (size v)); (done || lia). }
  destruct (wrf_ok 32 wc (8 * n + n) (rank (bit_at wz) (256 * n))) as (wd & -> & Pd); [auto with word64|done|lia..|].
  cbn [rbind]. pose proof Pd as (Ld & Wd & _).
  destruct (wrf_ok 32 wd (2 * Z.of_nat (length (m_words b)) - 1) (size v)) as (we & -> & Pe); [auto with word64|done|lia..|].
  cbn [rbind]. pose proof Pe as (Le & We & _).
  set (E := 64 * Z.of_nat (length (m_words b))) in *.
  assert (Oe : same_out wz we (256 * n) E).
  { eapply same_out_put; [|exact Pe|lia|lia]. eapply same_out_put; [|exact Pd|lia|lia].
    eapply same_out_weak; [exact Oc|lia|lia]. }
  assert (Hbit : forall p, 0 <= p < 256 * n -> bit_at we p = bit_at wz p) by (intros; apply Oe; lia).
  assert (Hrk : forall p, 0 <= p <= 256 * n -> rank (bit_at we) p = rank (bit_at wz) p)
    by (intros; by apply (same_out_rank wz we (256 * n) E)).
  assert (Hmax : rank (bit_at wz) (256 * n) = rank (bit_at wz) (size v)) by (apply rank_pad; [lia|done]).
  eexists. split; [done|]. unfold words_of, size. cbn. split; [|split; [done|]].
  - split; unfold words_of, size, wf; cbn [fv m_words m_size m_rank_cache m_max_rank0 m_max_rank1];
      change (nlines (m_size (fv v))) with n; unfold m_capacity; cbn [m_words];
      change (m_size (fv v)) with (size v).
    + split; [done|split; [lia|done]].
    + lia.
    + lia.
    + intros p Hp. rewrite Hbit by lia. apply Hz. lia.
    + done.
    + intros i Hi. rewrite Hrk by lia.
      rewrite (fld_frame 32 wd we _ _ _ (8 * n + i) width32 ltac:(lia) Pe) by lia.
      destruct (decide (i = n)) as [->|]; [by apply (fld_same 32 wc wd); [auto with word64|lia|lia|]|].
      rewrite (fld_frame 32 wc wd _ _ _ (8 * n + i) width32 ltac:(lia) Pd) by lia. apply Fc. lia.
    + by rewrite Hrk, Hmax by lia.
    + by rewrite Hrk, Hmax by lia.
    + assert (length we = length (m_words b)) as -> by congruence.
      replace (64 * Z.of_nat (length (m_words b)) / 32 - 1) with (2 * Z.of_nat (length (m_words b)) - 1)
        by (unfold m_capacity in H32; lia).
      apply (fld_same 32 wd we); [auto with word64|lia|lia|done].
  - intros p Hp. change (m_size (fv v)) with (size v) in Hp. rewrite Hbit, Bz by lia.
    destruct (Z.leb_spec (size v) p); [unfold size in *; lia|]. cbn [andb].
    by rewrite B2 by (unfold size in *; lia).
Qed.

(** ** The queries on a built vector *)

Lemma popcnt_acc ws a b R0 : words ws -> 0 <= a <= b -> b <= Z.of_nat (length ws) ->
  for_ a b (fun i R => let* w := rd ws i in Ok (R + fast_popcount w)) R0 =
  Ok (R0 + (rank (bit_at ws) (64 * b) - rank (bit_at ws) (64 * a))).
Proof.
  intros Hw Ha Hl.
  destruct (for_inv (fun i R => R = R0 + (rank (bit_at ws) (64 * i) - rank (bit_at ws) (64 * a)))
    (fun i R => let* w := rd ws i in Ok (R + fast_popcount w)) a b R0) as (s & -> & ->); [lia|lia| |done].
  intros i R Hi ->. rewrite rd_word by lia. cbn [rbind]. eexists. split; [done|].
  rewrite rank_words by lia. lia.
Qed.

Lemma line_floor_words p : 0 <= p -> Z.land p (Z.lnot (LineBits - 1)) / 64 = 4 * (p / 256).
Proof.
  intros Hp. unfold LineBits. change (256 - 1) with (Z.ones 8).
  rewrite <- Z.ldiff_land, Z.ldiff_ones_r, Z.shiftr_div_pow2, Z.shiftl_mul_pow2 by lia. change (2 ^ 8) with 256.
  replace (p / 256 * 256) with (4 * (p / 256) * 64) by lia. apply Z.div_mul. lia.
Qed.

(** [fast_rank1] adds what the cache says of the line and the ones in the line. *)
Lemma simple_fast_rank1_ok ws cache p k : words ws -> 0 <= p -> p < 64 * Z.of_nat (length ws) ->
  rd_cache ws cache (p / 256) = Ok k ->
  fast_rank1 ws cache p = Ok (k + (rank (bit_at ws) p - rank (bit_at ws) (256 * (p / 256)))).
Proof.
  intros W Hp Hl Hk. unfold fast_rank1. change (p / LineBits) with (p / 256). rewrite line_floor_words, Hk by lia. cbn [rbind].
  pose proof (Z.div_mod p 256 ltac:(lia)). pose proof (Z.mod_pos_bound p 256 ltac:(lia)).
  pose proof (Z.div_mod p 64 ltac:(lia)). pose proof (mod64_range p).
  rewrite popcnt_acc by (done || lia). cbn [rbind]. replace (64 * (4 * (p / 256))) with (256 * (p / 256)) by lia.
  destruct (Z.eqb_spec (p mod 64) 0) as [E|E]; cbn [negb].
  - f_equal. replace (64 * (p / 64)) with p by lia. lia.
  - rewrite rd_word by lia. cbn [rbind]. f_equal. pose proof (rank_trail ws p ltac:(lia) W). lia.
Qed.

Section built.
Context (v : rank_select_simple) (B : built v).
Let f := bit_at (words_of v).
Let n := nlines (size v).

Lemma simple_built_words : words (words_of v).
Proof. apply (built_wf v B). Qed.

Lemma simple_built_dims : 0 <= size v <= 256 * n /\ 256 * n < size v + 256 /\ 0 <= n /\
  256 * n + 32 * (n + 2) <= 64 * Z.of_nat (length (words_of v)).
Proof.
  pose proof (built_wf v B) as [_ S]. pose proof (built_room v B) as R. unfold m_capacity in R.
  assert (0 <= size v) by (unfold size; lia). pose proof (nlines_bounds (size v)). unfold words_of. subst n. lia.
Qed.

Lemma simple_built_key i : 0 <= i <= n -> rd_cache (words_of v) (m_rank_cache v) i = Ok (rank f (256 * i)).
Proof.
  intros Hi. pose proof simple_built_dims. rewrite (built_ptr v B). unfold rd_cache. fold n.
  rewrite rdf_ok by (auto with word64 || lia). subst n f. by rewrite (built_rank v B).
Qed.

Lemma simple_rank1_ok p : 0 <= p <= size v -> rank1 v p = Ok (rank f p).
Proof.
  intros Hp. pose proof simple_built_dims as (D1 & D2 & D3 & D4). unfold rank1.
  rewrite (proj2 (Z.leb_le _ _)) by lia. cbn [assert_ rbind].
  pose proof (Z.div_mod p 256 ltac:(lia)). pose proof (Z.mod_pos_bound p 256 ltac:(lia)).
  rewrite (simple_fast_rank1_ok _ _ p (rank f (256 * (p / 256)))); [f_equal; subst f; lia|apply simple_built_words|lia|lia|].
  apply simple_built_key. lia.
Qed.

Lemma select_words_ok g h base r k : forall i hit,
  0 <= base -> base + 4 <= Z.of_nat (length (words_of v)) -> 0 <= i -> i + Z.of_nat k = 4 ->
  (forall j, 0 <= j < 4 -> word64 (g (word_at (words_of v) (base + j))) /\
     forall m, 0 <= m < 64 -> Z.testbit (g (word_at (words_of v) (base + j))) m = h (64 * base + 64 * j + m)) ->
  hit = rank h (64 * base + 64 * i) -> hit <= r < rank h (64 * base + 256) ->
  exists p, select_words (words_of v) g base r k i hit = Ok p /\ 0 <= p < 256 /\ is_select h r (64 * base + p).
Proof.
  induction k as [|k IH]; intros i hit Hb Hl Hi Hk Hw -> Hr; cbn [select_words].
  { replace (64 * base + 64 * i) with (64 * base + 256) in Hr by lia. lia. }
  rewrite rd_word by lia. cbn [rbind]. destruct (Hw i ltac:(lia)) as [Wi Bi].
  set (x := g (word_at (words_of v) (base + i))) in *.
  assert (Hc : rank h (64 * base + 64 * i) + fast_popcount x = rank h (64 * base + 64 * i + 64)).
  { rewrite (rank_add h (64 * base + 64 * i) 64) by lia. unfold fast_popcount. f_equal. apply cnt_ext. intros m Hm. rewrite Z.add_0_l. apply Bi. lia. }
  rewrite Hc. destruct (Z.ltb_spec r (rank h (64 * base + 64 * i + 64))).
  - destruct (word_select h (64 * base) i x r) as (s & -> & Hs & S); [lia|done|lia|done|lia|].
    cbn [rbind]. exists (i * 64 + s). split; [done|]. split; [lia|].
    by replace (64 * base + (i * 64 + s)) with (64 * base + (64 * i + s)) by lia.
  - apply IH; try done; try lia. f_equal. lia.
Qed.

Lemma simple_select1_ok r : 0 <= r < m_max_rank1 v -> exists p, select1 v r = Ok p /\ is_select f r p /\ p < size v.
Proof.
  intros Hr. pose proof simple_built_dims as (D1 & D2 & D3 & D4). unfold select1.
  rewrite (proj2 (Z.ltb_lt _ _)) by lia. cbn [assert_ rbind].
  assert (Hn : (size v + LineBits - 1) / LineBits = n).
  { subst n. unfold nlines, LineBits. f_equal. lia. }
  rewrite Hn. pose proof (built_max1 v B) as M. fold f in M. pose proof (rank_mono f (size v) (256 * n)).
  destruct (upper_bound_line (key1 v) (Kones f 256) n n r)
    as (l & -> & Hl & L1 & L2 & L3); [lia|lia|apply simple_built_key|by apply Kones_mono|unfold Kones; rewrite rank_0; lia|].
  unfold Kones, key1 in *. cbn [rbind]. rewrite simple_built_key by lia. cbn [rbind].
  rewrite (proj2 (Z.ltb_lt _ _)) by lia. cbn [assert_ rbind]. rewrite simple_built_key by lia. cbn [rbind].
  unfold LineWords, LineBits.
  destruct (select_words_ok (fun w => w) f (4 * (l - 1)) r 4 0 (rank f (256 * (l - 1)))) as (p & -> & Hp & S);
    [lia|lia|lia|lia| |f_equal; lia|by replace (64 * (4 * (l - 1)) + 256) with (256 * l) by lia|].
  { intros j Hj. split; [auto using simple_built_words with word64|]. intros m Hm.
    replace (64 * (4 * (l - 1)) + 64 * j + m) with (64 * (4 * (l - 1) + j) + m) by lia. subst f. by rewrite bit_at_word by lia. }
  cbn [rbind]. exists (256 * (l - 1) + p). split; [done|].
  replace (256 * (l - 1) + p) with (64 * (4 * (l - 1)) + p) by lia. split; [done|].
  eapply is_select_lt; [done|lia|lia].
Qed.

Lemma simple_select0_ok r : 0 <= r < m_max_rank0 v ->
  exists p, select0 v r = Ok p /\ is_select (fun i => negb (f i)) r p /\ p < size v.
Proof.
  intros Hr. pose proof simple_built_dims as (D1 & D2 & D3 & D4). unfold select0.
  rewrite (proj2 (Z.ltb_lt _ _)) by lia. cbn [assert_ rbind].
  assert (Hn : (size v + LineBits - 1) / LineBits = n).
  { subst n. unfold nlines, LineBits. f_equal. lia. }
  rewrite Hn. pose proof (built_max0 v B) as M. fold f in M. set (g := fun i => negb (f i)).
  assert (M' : m_max_rank0 v = rank g (size v)) by (subst g; rewrite rank_negb by lia; lia).
  pose proof (rank_mono g (size v) (256 * n)).
  assert (Hkey : forall i, 0 <= i <= n -> key0 v i = Ok (Kzeros f 256 i)).
  { intros i Hi. unfold key0. by rewrite simple_built_key by lia. }
  assert (HK : forall i, 0 <= i -> Kzeros f 256 i = rank g (256 * i)) by (intros; apply Kzeros_rank; lia).
  destruct (upper_bound_line (key0 v) (Kzeros f 256) n n r)
    as (l & -> & Hl & L1 & L2 & L3); [lia|lia|done|by apply Kzeros_mono|rewrite !HK by lia; rewrite rank_0; lia|].
  rewrite HK in L2, L3 by lia. cbn [rbind]. rewrite Hkey by lia. rewrite HK by lia. cbn [rbind].
  rewrite (proj2 (Z.ltb_lt _ _)) by lia. cbn [assert_ rbind]. rewrite Hkey by lia. rewrite HK by lia. cbn [rbind].
  unfold LineWords, LineBits.
  destruct (select_words_ok not64 g (4 * (l - 1)) r 4 0 (rank g (256 * (l - 1)))) as (p & -> & Hp & S);
    [lia|lia|lia|lia| |f_equal; lia|by replace (64 * (4 * (l - 1)) + 256) with (256 * l) by lia|].
  { intros j Hj. split; [auto with word64|]. intros m Hm.
    replace (64 * (4 * (l - 1)) + 64 * j + m) with (64 * (4 * (l - 1) + j) + m) by lia. subst g f. cbn beta.
    rewrite bit_at_word, testbit_not64 by lia. destruct (Z.ltb_spec m 64); [done|lia]. }
  cbn [rbind]. exists (256 * (l - 1) + p). split; [done|].
  replace (256 * (l - 1) + p) with (64 * (4 * (l - 1)) + p) by lia. split; [done|].
  eapply is_select_lt; [done|lia|lia].
Qed.

Lemma simple_laws : rs_laws v f.
Proof.
  pose proof simple_built_dims as (D1 & _). split; cbn [rs_size rs_is1 rs_rank1 rs_rank0 rs_select0 rs_select1 rs_max_rank0
    rs_max_rank1 simple_rs].
  - lia.
  - intros p Hp. apply is1_ok; [apply (built_wf v B)|done].
  - apply simple_rank1_ok.
  - intros p Hp. unfold rank0. by rewrite simple_rank1_ok by done.
  - apply (built_max1 v B).
  - apply (built_max0 v B).
  - apply simple_select1_ok.
  - apply simple_select0_ok.
Qed.

Lemma simple_mmap_ok : risk_mmap_from (words_of v) = Ok v.
Proof.
  pose proof simple_built_dims as (D1 & D2 & D3 & D4). unfold risk_mmap_from.
  assert (E : 8 * Z.of_nat (length (words_of v)) / 4 = 2 * Z.of_nat (length (words_of v))).
  { replace (8 * Z.of_nat (length (words_of v))) with (2 * Z.of_nat (length (words_of v)) * 4) by lia. apply Z.div_mul. lia. }
  rewrite E. rewrite rdf_ok by (auto with word64 || lia). cbn [rbind].
  pose proof (built_tail v B) as T. unfold m_capacity in T. fold (words_of v) in T.
  assert (E' : 64 * Z.of_nat (length (words_of v)) / 32 = 2 * Z.of_nat (length (words_of v))).
  { replace (64 * Z.of_nat (length (words_of v))) with (2 * Z.of_nat (length (words_of v)) * 32) by lia. apply Z.div_mul. lia. }
  rewrite E' in T. rewrite T, line_ceil_eq by lia. fold n. unfold LineBits.
  assert (256 * n / 64 = 4 * n) as -> by (replace (256 * n) with (4 * n * 64) by lia; apply Z.div_mul; lia).
  assert (256 * n / 256 = n) as -> by (rewrite Z.mul_comm; apply Z.div_mul; lia). replace (2 * (4 * n)) with (8 * n) by lia.
  rewrite rdf_ok by (auto with word64 || lia). cbn [rbind].
  pose proof (built_rank v B n) as R. fold n in R. rewrite R by (subst n; lia).
  assert (rank (bit_at (words_of v)) (256 * n) = m_max_rank1 v) as ->.
  { rewrite (built_max1 v B). apply rank_pad; [lia|]. apply (built_zero v B). }
  rewrite (built_max1 v B) at 1. rewrite <- (built_max0 v B). pose proof (built_ptr v B) as P. fold n in P. rewrite <- P.
  assert (Hh : m_hollow (fv v) = false) by apply (built_wf v B). destruct v as [[ws sz h] c m0 m1]. cbn in Hh. by subst h.
Qed.
End built.

(** * Properties *)

(** C20: functional.  On a vector without cache, [build_cache] succeeds, keeps the
    bits, and the result obeys every law of a rank/select structure for them:
    rank at every position, select of every rank, for zeros and ones. *)
Theorem simple_build_cache_correct junk v : (forall j, word64 (junk j)) -> wf (fv v) ->
  words_of v <> [] -> size v < 2 ^ 32 -> m_rank_cache v = None -> m_max_rank0 v = 0 -> m_max_rank1 v = 0 ->
  exists v', build_cache junk v = Ok v' /\ bits (fv v') = bits (fv v) /\ rs_laws v' (bit_at (words_of v')).
Proof.
  intros Hj Hw Hne Hs Hc H0 H1. destruct (simple_build_cache_ok junk v) as (u & -> & B & S & Hb); [done..|].
  exists u. split; [done|]. split; [|by apply simple_laws].
  unfold bits. change (m_size (fv u)) with (size u). change (m_size (fv v)) with (size v). rewrite S.
  by apply map_seqZ_ext.
Qed.

(** round trip.  [risk_mmap_from] on the block of a built vector (its whole
    memory, as it is written to a file) gives the same object back. *)
Theorem simple_mmap_roundtrip junk v v' : (forall j, word64 (junk j)) -> wf (fv v) ->
  words_of v <> [] -> size v < 2 ^ 32 -> m_rank_cache v = None -> m_max_rank0 v = 0 -> m_max_rank1 v = 0 ->
  build_cache junk v = Ok v' -> risk_mmap_from (words_of v') = Ok v'.
Proof.
  intros Hj Hw Hne Hs Hc H0 H1 E. destruct (simple_build_cache_ok junk v) as (u & E' & B & _); [done..|].
  rewrite E' in E. injection E as <-. by apply simple_mmap_ok.
Qed.

(** error.  The copy constructor puts the cache pointer at the end of the
    bits ([num_words()]) while [build_cache] put the cache at the end of the last
    line.  When at least the entry of the line of [p] falls into the padding
    between the two, [rank1] of the copy loses the ones of all earlier lines. *)
Theorem simple_copy_loses_ranks junk v p : built v -> 0 <= p <= size v ->
  64 * num_words (fv v) + 32 * (p / 256) + 32 <= 256 * nlines (size v) ->
  exists c, copy junk v = Ok c /\ size c = size v /\ words_of c = words_of v /\
    rank1 c p = Ok (rank (bit_at (words_of v)) p - rank (bit_at (words_of v)) (256 * (p / 256))).
Proof.
  intros B Hp Hpad. pose proof (simple_built_dims v B) as (D1 & D2 & D3 & D4). pose proof (simple_built_words v B) as W.
  unfold copy. change (m_capacity (fv v)) with (64 * Z.of_nat (length (words_of v))). rewrite (built_ptr v B), copy_words. eexists. split; [done|]. split; [done|]. split; [done|].
  unfold rank1. cbn [m_rank_cache]. change (size (Simple _ _ _ _)) with (size v).
  change (words_of (Simple _ _ _ _)) with (words_of v).
  rewrite (proj2 (Z.leb_le _ _)) by lia. cbn [assert_ rbind].
  pose proof (Z.div_mod p 256 ltac:(lia)). pose proof (Z.mod_pos_bound p 256 ltac:(lia)).
  change (num_words (FV (words_of v) (size v))) with (num_words (fv v)).
  assert (Hnw : 0 <= num_words (fv v) /\ size v <= 64 * num_words (fv v)).
  { unfold num_words, size in *. pose proof (Z.div_mod (m_size (fv v) + 64 - 1) 64 ltac:(lia)).
    pose proof (mod64_range (m_size (fv v) + 64 - 1)). split; [apply Z.div_pos; lia|lia]. }
  rewrite (simple_fast_rank1_ok _ _ p 0); [f_equal; lia|done|lia|lia|].
  unfold rd_cache. rewrite rdf_ok by (auto with word64 || lia). f_equal.
  apply Z.bits_inj'. intros m Hm. rewrite testbit_fld, Z.bits_0 by (auto with word64 || lia).
  destruct (Z.ltb_spec m 32); [|done]. apply (built_zero v B). lia.
Qed.

(** functional.  The constant vectors obey the laws for the constant bit
    functions, for every size. *)
Theorem const_vectors_correct n : 0 <= n ->
  rs_laws (AllZero n) (fun _ => false) /\ rs_laws (AllOne n) (fun _ => true).
Proof.
  intros Hn. assert (R0 : forall p, rank (fun _ => false) p = 0) by (intros; by apply cnt_false).
  assert (R1 : forall p, 0 <= p -> rank (fun _ => true) p = p)
    by (intros; unfold rank; rewrite cnt_true by done; lia).
  split; split; cbn [rs_size rs_is1 rs_rank0 rs_rank1 rs_select0 rs_select1 rs_max_rank0 rs_max_rank1
    allzero_rs allone_rs asize0 asize1]; intros; rewrite ?R0, ?R1, ?Z.sub_0_r, ?Z.sub_diag by lia; try lia;
    rewrite ?(proj2 (Z.ltb_lt _ _)), ?(proj2 (Z.leb_le _ _)) by lia; cbn [assert_ rbind]; try done.
  - exists r. split; [done|]. split; [|lia]. split; [lia|]. split; [done|]. apply R1; lia.
  - exists r. split; [done|]. split; [|lia]. split; [lia|]. split; [done|]. apply R1; lia.
Qed.

(** * Witnesses *)

Definition sample_bits : febitvec := FV [0xF0F0; Z.ones 64; 5; 0; Z.ones 64] 300.

Lemma sample_bits_wf : wf sample_bits.
Proof.
  split; [|unfold m_capacity; cbn; lia].
  repeat first [apply List.Forall_nil | apply List.Forall_cons]; vm_compute; split; (discriminate || reflexivity).
Qed.

Lemma simple_build_cache_correct_witness : exists v',
  build_cache (fun _ => 7) (no_cache sample_bits) = Ok v' /\ bits (fv v') = bits sample_bits /\
  rs_laws v' (bit_at (words_of v')).
Proof.
  apply (simple_build_cache_correct (fun _ => 7) (no_cache sample_bits)); try reflexivity.
  - intros. unfold word64. lia.
  - exact sample_bits_wf.
  - discriminate.
Defined.

Lemma simple_mmap_roundtrip_witness :
  match build_cache (fun _ => 7) (no_cache sample_bits) with
  | Ok v' => risk_mmap_from (words_of v') = Ok v' | _ => False end.
Proof.
  destruct (build_cache (fun _ => 7) (no_cache sample_bits)) eqn:E; try (vm_compute in E; discriminate E).
  apply (simple_mmap_roundtrip (fun _ => 7) (no_cache sample_bits)); try reflexivity.
  - intros. unfold word64. lia.
  - exact sample_bits_wf.
  - discriminate.
  - exact E.
Defined.

Lemma sample_built : exists v, build_cache (fun _ => 0) (no_cache sample_bits) = Ok v /\ built v /\ size v = 300.
Proof.
  destruct (simple_build_cache_ok (fun _ => 0) (no_cache sample_bits)) as (v & E & B & S & _); try reflexivity.
  - intros. unfold word64. lia.
  - exact sample_bits_wf.
  - discriminate.
  - eauto.
Qed.

Lemma simple_copy_loses_ranks_witness : exists v c, built v /\ copy (fun _ => 0) v = Ok c /\
  rank1 v 300 = Ok 118 /\ rank1 c 300 = Ok 44.
Proof.
  destruct sample_built as (v & E & B & S). vm_compute in E. injection E as <-.
  destruct (simple_copy_loses_ranks (fun _ => 0) _ 300 B) as (c & E & _ & _ & R).
  - vm_compute. split; discriminate.
  - vm_compute. discriminate.
  - match type of B with built ?x => exists x, c end. split; [exact B|]. split; [exact E|]. split; [vm_compute; reflexivity|].
    rewrite R. vm_compute. reflexivity.
Defined.

Lemma const_vectors_correct_witness : rs_laws (AllZero 1000) (fun _ => false) /\ rs_laws (AllOne 1000) (fun _ => true).
Proof. apply (const_vectors_correct 1000). lia. Defined.

End RankSimple.
