(* ===== verification/RankSe256.v ===== *)
(** * [rank_select_se] (256 bits per line, separate cache)

    [src/src/terark/succinct/rank_select_se_256.hpp] and [.cpp], the portable
    branches.  Behind the padded bits lie one [RankCache] of 8 bytes per line
    ([lev1]: the ones before the line; [lev2[j]]: the ones of the line before its
    word [j]) and one more for the total, the two optional select caches, and in
    the last word the flags.  [m_rank_cache] is a word index, the select caches
    are 32-bit indices into the block. *)
From S2P Require Import Prelude Bits Febitvec Mem RankSpec RankSimple.
Import Febitvec Mem RankSpec.

Module RankSe256.

Record rank_select_se := Se {
  fv : febitvec; m_rank_cache : option Z; m_sel0_cache : option Z; m_sel1_cache : option Z;
  m_max_rank0 : Z; m_max_rank1 : Z }.

Definition words_of (v : rank_select_se) : list Z := m_words (fv v).
Definition size (v : rank_select_se) : Z := m_size (fv v).
Definition LineBits : Z := 256.

Definition no_cache (b : febitvec) : rank_select_se := Se b None None None 0 0.
Definition is_none {A} (o : option A) : bool := match o with None => true | Some _ => false end.

(** ** The caches *)

Definition lev1 (ws : list Z) (cache : option Z) (i : Z) : res Z :=
  match cache with Some c => rdf 32 ws (2 * (c + i)) | None => UB end.
Definition lev2 (ws : list Z) (cache : option Z) (i j : Z) : res Z :=
  match cache with Some c => rdf 8 ws (8 * (c + i) + 4 + j) | None => UB end.
(** [rank_cache[i].lev1] and [LineBits * i - rank_cache[i].lev1] *)
Definition key1 (ws : list Z) (cache : option Z) (i : Z) : res Z := lev1 ws cache i.
Definition key0 (ws : list Z) (cache : option Z) (i : Z) : res Z :=
  let* r := lev1 ws cache i in Ok (LineBits * i - r).

(** ** Rank *)

Definition fast_rank1 (ws : list Z) (cache : option Z) (bitpos : Z) : res Z :=
  let* l1 := lev1 ws cache (bitpos / LineBits) in
  let* l2 := lev2 ws cache (bitpos / LineBits) ((bitpos / 64) mod 4) in
  let* w := rd ws (bitpos / 64) in
  Ok (l1 + l2 + fast_popcount_trail w (bitpos mod 64)).

Definition fast_rank0 (ws : list Z) (cache : option Z) (bitpos : Z) : res Z :=
  let* r := fast_rank1 ws cache bitpos in Ok (bitpos - r).

Definition rank1 (v : rank_select_se) (bitpos : Z) : res Z :=
  let* _ := assert_ (bitpos <=? size v) in fast_rank1 (words_of v) (m_rank_cache v) bitpos.

Definition rank0 (v : rank_select_se) (bitpos : Z) : res Z :=
  let* _ := assert_ (bitpos <=? size v) in
  let* r := rank1 v bitpos in Ok (bitpos - r).

(** ** Select inside the line before [lo] *)

Definition in_line1 (ws : list Z) (cache : option Z) (lo Rank1 : Z) : res Z :=
  let* upp := key1 ws cache lo in
  let* _ := assert_ (Rank1 <? upp) in
  let line_bitpos := (lo - 1) * LineBits in
  let* hit := lev1 ws cache (lo - 1) in
  let* b1 := lev2 ws cache (lo - 1) 1 in
  let* b2 := lev2 ws cache (lo - 1) 2 in
  let* b3 := lev2 ws cache (lo - 1) 3 in
  let* p := line_select4 (fun j => rd ws (4 * (lo - 1) + j))
    (fun j => if j =? 0 then hit else if j =? 1 then hit + b1 else if j =? 2 then hit + b2 else hit + b3) Rank1 in
  Ok (line_bitpos + p).

Definition in_line0 (ws : list Z) (cache : option Z) (lo Rank0 : Z) : res Z :=
  let* upp := key0 ws cache lo in
  let* _ := assert_ (Rank0 <? upp) in
  let line_bitpos := (lo - 1) * LineBits in
  let* hit := key0 ws cache (lo - 1) in
  let* b1 := lev2 ws cache (lo - 1) 1 in
  let* b2 := lev2 ws cache (lo - 1) 2 in
  let* b3 := lev2 ws cache (lo - 1) 3 in
  let* p := line_select4 (fun j => let* w := rd ws (4 * (lo - 1) + j) in Ok (not64 w))
    (fun j => if j =? 0 then hit else if j =? 1 then hit + 64 * 1 - b1
              else if j =? 2 then hit + 64 * 2 - b2 else hit + 64 * 3 - b3) Rank0 in
  Ok (line_bitpos + p).

(** ** Search of the line: the checked functions, then the [fast_] ones, which
    take the select cache for granted and scan short ranges *)

Definition select0_upper_bound_line_safe (v : rank_select_se) (Rank0 : Z) : res Z :=
  let* _ := assert_ (Rank0 <? m_max_rank0 v) in
  let* (lo, hi) :=
    match m_sel0_cache v with
    | Some _ => let* lo := rd_sel (words_of v) (m_sel0_cache v) (Rank0 / LineBits) in
                let* hi := rd_sel (words_of v) (m_sel0_cache v) (Rank0 / LineBits + 1) in Ok (lo, hi)
    | None => Ok (0, (size v + LineBits + 1) / LineBits)
    end in
  upper_bound (key0 (words_of v) (m_rank_cache v)) Rank0 lo hi.

Definition select1_upper_bound_line_safe (v : rank_select_se) (Rank1 : Z) : res Z :=
  let* _ := assert_ (Rank1 <? m_max_rank1 v) in
  let* (lo, hi) :=
    match m_sel1_cache v with
    | Some _ => let* lo := rd_sel (words_of v) (m_sel1_cache v) (Rank1 / LineBits) in
                let* hi := rd_sel (words_of v) (m_sel1_cache v) (Rank1 / LineBits + 1) in Ok (lo, hi)
    | None => Ok (0, (size v + LineBits + 1) / LineBits)
    end in
  upper_bound (key1 (words_of v) (m_rank_cache v)) Rank1 lo hi.

Definition select0 (v : rank_select_se) (Rank0 : Z) : res Z :=
  let* lo := select0_upper_bound_line_safe v Rank0 in in_line0 (words_of v) (m_rank_cache v) lo Rank0.
Definition select1 (v : rank_select_se) (Rank1 : Z) : res Z :=
  let* lo := select1_upper_bound_line_safe v Rank1 in in_line1 (words_of v) (m_rank_cache v) lo Rank1.

Definition select_upper_bound_line (key : Z -> res Z) (ws : list Z) (sel : option Z) (r : Z) : res Z :=
  let* lo := rd_sel ws sel (r / LineBits) in
  let* hi := rd_sel ws sel (r / LineBits + 1) in
  if (lo <=? hi) && (hi - lo <? 32) then scan_up key (S (Z.to_nat (hi - lo))) r lo
  else upper_bound key r lo hi.

Definition select0_upper_bound_line (ws : list Z) (sel0 cache : option Z) (Rank0 : Z) : res Z :=
  select_upper_bound_line (key0 ws cache) ws sel0 Rank0.
Definition select1_upper_bound_line (ws : list Z) (sel1 cache : option Z) (Rank1 : Z) : res Z :=
  select_upper_bound_line (key1 ws cache) ws sel1 Rank1.

Definition fast_select0 (ws : list Z) (sel0 cache : option Z) (Rank0 : Z) : res Z :=
  let* lo := select0_upper_bound_line ws sel0 cache Rank0 in in_line0 ws cache lo Rank0.
Definition fast_select1 (ws : list Z) (sel1 cache : option Z) (Rank1 : Z) : res Z :=
  let* lo := select1_upper_bound_line ws sel1 cache Rank1 in in_line1 ws cache lo Rank1.

Definition isall0 (v : rank_select_se) : bool := m_max_rank1 v =? 0.
Definition isall1 (v : rank_select_se) : bool := m_max_rank0 v =? 0.
Definition mem_size (v : rank_select_se) : Z := m_capacity (fv v) / 8.

(** ** Construction *)

Definition check_overflow (n : Z) : res unit := if 2 ^ 32 - 1 <? n then Throw terark_die else Ok tt.
Definition line_ceil (n : Z) : Z := Z.land (n + LineBits - 1) (Z.lnot (LineBits - 1)).

Definition new_filled (junk : nat -> Z) (n : Z) (val : bool) : res rank_select_se :=
  let* b := make junk n val in
  let* _ := check_overflow n in Ok (no_cache b).
Definition new_no_init (junk : nat -> Z) (n : Z) : res rank_select_se :=
  let* _ := check_overflow n in
  let* b := resize_no_init junk empty_vec n in Ok (no_cache b).
Definition new_reserve (junk : nat -> Z) (n : Z) : res rank_select_se :=
  let* _ := check_overflow n in Ok (no_cache (reserve junk empty_vec n)).

Definition copy (junk : nat -> Z) (y : rank_select_se) : rank_select_se :=
  let b := reserve junk empty_vec (m_capacity (fv y)) in
  Se (FV (words_of y ++ drop (length (words_of y)) (m_words b)) (size y))
     (m_rank_cache y) (m_sel0_cache y) (m_sel1_cache y) (m_max_rank0 y) (m_max_rank1 y).

Definition clear (v : rank_select_se) : rank_select_se := no_cache empty_vec.
Definition erase_all (v : rank_select_se) : rank_select_se := no_cache (Febitvec.erase_all (fv v)).
Definition resize_fill (junk : nat -> Z) (v : rank_select_se) (n : Z) (val : bool) : res rank_select_se :=
  let* b := Febitvec.resize_fill junk (fv v) n val in Ok (no_cache b).

Definition shrink (junk : nat -> Z) (v : rank_select_se) : res rank_select_se :=
  let* _ := assert_ (is_none (m_rank_cache v)) in
  let* _ := assert_ (is_none (m_sel0_cache v)) in
  let* _ := assert_ (is_none (m_sel1_cache v)) in
  let* _ := assert_ (m_max_rank0 v =? 0) in
  let* _ := assert_ (m_max_rank1 v =? 0) in
  let* b := shrink_to_fit junk (fv v) in Ok (no_cache b).

(** The loop over the lines: [lev1], the four [lev2], and the sum. *)
Definition fill_rank_cache (c nlines : Z) (ws : list Z) : res (list Z * Z) :=
  for_ 0 nlines (fun i '(ws, Rank1) =>
    let* ws := wrf 32 ws (2 * (c + i)) Rank1 in
    let* (ws, r) := for_ 0 4 (fun j '(ws, r) =>
      let* ws := wrf 8 ws (8 * (c + i) + 4 + j) r in
      let* w := rd ws (i * 4 + j) in Ok (ws, r + fast_popcount w)) (ws, 0) in
    Ok (ws, Rank1 + r)) (ws, 0).

Definition slots_of (max_rank : Z) : Z := (max_rank + LineBits - 1) / LineBits.

Definition build_cache (junk1 junk2 : nat -> Z) (speed_select0 speed_select1 : bool) (v : rank_select_se)
    : res rank_select_se :=
  let* _ := check_overflow (size v) in
  if is_null (fv v) then Ok v else
  let* v := shrink junk1 v in
  let ceiled_bits := line_ceil (size v) in
  let nlines := ceiled_bits / LineBits in
  let b := reserve junk1 (fv v) (ceiled_bits + (nlines + 1) * 8 * 8) in
  let* ws := bits_range_set0 (m_words b) (m_size b) ceiled_bits in
  let c := ceiled_bits / 64 in
  let* (ws, Rank1) := fill_rank_cache c nlines ws in
  let* ws := wrf 32 ws (2 * (c + nlines)) Rank1 in
  let* ws := wrf 32 ws (2 * (c + nlines) + 1) 0 in
  let max_rank0 := m_size b - Rank1 in
  let max_rank1 := Rank1 in
  let select0_slots := slots_of max_rank0 in
  let select1_slots := slots_of max_rank1 in
  let u32_slots := Z.land ((if speed_select0 then select0_slots + 1 else 0)
                           + (if speed_select1 then select1_slots + 1 else 0) + 1) (Z.lnot 1) in
  let b := reserve junk2 (FV ws (m_size b)) (m_capacity b + 32 * (u32_slots + 2)) in
  let select_index := 2 * (c + nlines + 1) in
  let* ws := if speed_select0
    then build_sel (fun ws => key0 ws (Some c)) LineBits select_index select0_slots nlines (m_words b)
    else Ok (m_words b) in
  let select_index1 := if speed_select0 then select_index + (select0_slots + 1) else select_index in
  let* ws := if speed_select1
    then build_sel (fun ws => key1 ws (Some c)) LineBits select_index1 select1_slots nlines ws
    else Ok ws in
  let flags := Z.lor (Z.lor (Z.shiftl (m_size b) 8) (Z.shiftl (Z.b2z speed_select1) 1)) (Z.b2z speed_select0) in
  let* ws := wrf 64 ws (m_capacity b / 64 - 1) flags in
  Ok (Se (FV ws (m_size b)) (Some c)
        (if speed_select0 then Some select_index else None)
        (if speed_select1 then Some select_index1 else None) max_rank0 max_rank1).

Definition risk_mmap_from (ws : list Z) : res rank_select_se :=
  let* flags := rdf 64 ws (Z.of_nat (length ws) - 1) in
  let m_size := Z.shiftr flags 8 in
  let ceiled_bits := line_ceil m_size in
  let nlines := ceiled_bits / LineBits in
  let c := ceiled_bits / 64 in
  let* max_rank1 := lev1 ws (Some c) nlines in
  let max_rank0 := m_size - max_rank1 in
  let select_index := 2 * (c + nlines + 1) in
  let has0 := negb (Z.land flags 1 =? 0) in
  let has1 := negb (Z.land flags 2 =? 0) in
  Ok (Se (FV ws m_size) (Some c) (if has0 then Some select_index else None)
        (if has1 then Some (if has0 then select_index + (slots_of max_rank0 + 1) else select_index) else None)
        max_rank0 max_rank1).

#[export] Instance se_rs : RankSelect rank_select_se := {|
  rs_size := size; rs_is1 := fun v p => is1 (fv v) p;
  rs_rank0 := rank0; rs_rank1 := rank1; rs_select0 := select0; rs_select1 := select1;
  rs_max_rank0 := m_max_rank0; rs_max_rank1 := m_max_rank1 |}.

(** ** The invariant of a built vector *)

Abbreviation nlines := RankSimple.nlines.

(** The rank cache of [n] lines at word [c] describes the bits [f]. *)
Record cache_ok (ws : list Z) (f : Z -> bool) (c n : Z) : Prop := {
  cache_lev1 : forall i, 0 <= i <= n -> fld 32 ws (2 * (c + i)) = rank f (256 * i);
  cache_lev2 : forall i j, 0 <= i < n -> 0 <= j < 4 ->
    fld 8 ws (8 * (c + i) + 4 + j) = rank f (256 * i + 64 * j) - rank f (256 * i);
  cache_last : forall j, 0 <= j < 4 -> fld 8 ws (8 * (c + n) + 4 + j) = 0 }.

Record built (v : rank_select_se) : Prop := {
  built_wf : wf (fv v);
  built_size : size v < 2 ^ 32;
  built_room : 5 * nlines (size v) + 1 < Z.of_nat (length (words_of v));
  built_zero : forall p, size v <= p < 256 * nlines (size v) -> bit_at (words_of v) p = false;
  built_ptr : m_rank_cache v = Some (4 * nlines (size v));
  built_cache : cache_ok (words_of v) (bit_at (words_of v)) (4 * nlines (size v)) (nlines (size v));
  built_max1 : m_max_rank1 v = rank (bit_at (words_of v)) (size v);
  built_max0 : m_max_rank0 v = size v - rank (bit_at (words_of v)) (size v);
  built_sel0 : sel_built (words_of v) (Kzeros (bit_at (words_of v)) 256) 256 (slots_of (m_max_rank0 v))
    (nlines (size v)) (m_sel0_cache v);
  built_sel1 : sel_built (words_of v) (Kones (bit_at (words_of v)) 256) 256 (slots_of (m_max_rank1 v))
    (nlines (size v)) (m_sel1_cache v);
}.

Lemma slots_bounds m : 0 <= m -> 0 <= slots_of m /\ m <= 256 * slots_of m < m + 256.
Proof.
  intros Hm. unfold slots_of, LineBits. pose proof (Z.div_mod (m + 256 - 1) 256 ltac:(lia)).
  pose proof (Z.mod_pos_bound (m + 256 - 1) 256 ltac:(lia)). lia.
Qed.

(** A cache survives changes outside its memory. *)
Lemma cache_ok_frame ws ws' f c n a b : cache_ok ws f c n -> same_out ws ws' a b -> 0 <= c -> 0 <= n ->
  64 * (c + n + 1) <= a -> cache_ok ws' f c n.
Proof.
  intros [H1 H2 H3] O Hc Hn Ha. split.
  - intros i Hi. rewrite (same_out_fld ws ws' a b 32 _ O) by (auto with word64 || lia). auto.
  - intros i j Hi Hj. rewrite (same_out_fld ws ws' a b 8 _ O) by (auto with word64 || lia). auto.
  - intros j Hj. rewrite (same_out_fld ws ws' a b 8 _ O) by (auto with word64 || lia). auto.
Qed.

Lemma cache_ok_ext ws f g c n : 0 <= n -> (forall p, 0 <= p < 256 * n -> f p = g p) ->
  cache_ok ws f c n -> cache_ok ws g c n.
Proof.
  intros Hn Hfg [H1 H2 H3]. split; [|
    |done].
  - intros i Hi. rewrite H1 by done. apply rank_ext. intros. apply Hfg. lia.
  - intros i j Hi Hj. rewrite H2 by done. f_equal; apply rank_ext; intros; apply Hfg; lia.
Qed.

(** ** The loop that fills the cache *)

(** One line: the four [lev2] bytes. *)
Lemma fill_lev2_ok ws c i : words ws -> 0 <= i -> 4 * i + 4 <= c -> c + i + 1 <= Z.of_nat (length ws) ->
  exists ws', for_ 0 4 (fun j '(ws, r) =>
      let* ws := wrf 8 ws (8 * (c + i) + 4 + j) r in
      let* w := rd ws (i * 4 + j) in Ok (ws, r + fast_popcount w)) (ws, 0) =
    Ok (ws', rank (bit_at ws) (256 * (i + 1)) - rank (bit_at ws) (256 * i)) /\
    same_out ws ws' (64 * (c + i) + 32) (64 * (c + i) + 64) /\
    forall j, 0 <= j < 4 -> fld 8 ws' (8 * (c + i) + 4 + j) =
      rank (bit_at ws) (256 * i + 64 * j) - rank (bit_at ws) (256 * i).
Proof.
  intros Hw Hi Hc Hl. set (f := bit_at ws).
  match goal with |- context [for_ 0 4 ?body _] =>
    destruct (for_inv (fun j '(w, r) => r = rank f (256 * i + 64 * j) - rank f (256 * i) /\
      same_out ws w (64 * (c + i) + 32) (64 * (c + i) + 64) /\
      forall k, 0 <= k < j -> fld 8 w (8 * (c + i) + 4 + k) = rank f (256 * i + 64 * k) - rank f (256 * i))
      body 0 4 (ws, 0)) as ((ws' & r) & -> & -> & O & F) end.
  - lia.
  - split; [rewrite Z.mul_0_r, Z.add_0_r; lia|]. split; [by apply same_out_refl|]. intros; lia.
  - intros j [w r] Hj (-> & O & F). pose proof O as (Lw & Ww & _).
    assert (Hr : 0 <= rank f (256 * i + 64 * j) - rank f (256 * i) < 2 ^ 8).
    { pose proof (rank_mono f (256 * i) (256 * i + 64 * j)). pose proof (rank_step f (256 * i) (256 * i + 64 * j)). lia. }
    destruct (wrf_ok 8 w (8 * (c + i) + 4 + j) (rank f (256 * i + 64 * j) - rank f (256 * i)))
      as (w' & -> & P); [auto with word64|done|lia..|]. cbn [rbind].
    assert (O' : same_out ws w' (64 * (c + i) + 32) (64 * (c + i) + 64)) by (eapply same_out_put; [exact O|exact P|lia|lia]).
    pose proof O' as (Lw' & _ & B'). rewrite rd_word by lia. cbn [rbind]. eexists. split; [done|].
    split; [|split; [done|]].
    + assert (fast_popcount (word_at w' (i * 4 + j)) = rank f (64 * (i * 4 + j + 1)) - rank f (64 * (i * 4 + j))) as ->.
      { rewrite <- !(same_out_rank ws w' _ _ _ O') by lia. rewrite rank_words by lia. lia. }
      replace (64 * (i * 4 + j + 1)) with (256 * i + 64 * (j + 1)) by lia.
      replace (64 * (i * 4 + j)) with (256 * i + 64 * j) by lia. lia.
    + intros k Hk. destruct (decide (k = j)) as [->|].
      * apply (fld_same 8 w w'); [auto with word64|lia|done|exact P].
      * rewrite (fld_frame 8 w w' _ _ _ (8 * (c + i) + 4 + k) width8 ltac:(lia) P) by lia. apply F. lia.
  - exists ws'. replace (256 * i + 64 * 4) with (256 * (i + 1)) by lia. done.
Qed.

Lemma fill_rank_cache_ok ws n sz : words ws -> 0 <= n -> 5 * n < Z.of_nat (length ws) ->
  0 <= sz < 2 ^ 32 -> (forall p, sz <= p < 256 * n -> bit_at ws p = false) ->
  exists ws', fill_rank_cache (4 * n) n ws = Ok (ws', rank (bit_at ws) (256 * n)) /\
    same_out ws ws' (256 * n) (320 * n) /\
    (forall i, 0 <= i < n -> fld 32 ws' (2 * (4 * n + i)) = rank (bit_at ws) (256 * i)) /\
    (forall i j, 0 <= i < n -> 0 <= j < 4 ->
      fld 8 ws' (8 * (4 * n + i) + 4 + j) = rank (bit_at ws) (256 * i + 64 * j) - rank (bit_at ws) (256 * i)).
Proof.
  intros Hw Hn Hl Hsz Hz. set (f := bit_at ws). unfold fill_rank_cache.
  assert (Hr : forall i, 0 <= i <= n -> 0 <= rank f (256 * i) < 2 ^ 32).
  { intros i Hi. split; [pose proof (rank_bounds f (256 * i)); lia|].
    apply (RankSimple.rank_lt_2_32 _ sz); [lia|lia| |lia]. intros p Hp. apply Hz. lia. }
  match goal with |- context [for_ 0 n ?body _] =>
    destruct (for_inv (fun i '(w, R) => R = rank f (256 * i) /\ same_out ws w (256 * n) (320 * n) /\
      (forall k, 0 <= k < i -> fld 32 w (2 * (4 * n + k)) = rank f (256 * k)) /\
      (forall k j, 0 <= k < i -> 0 <= j < 4 ->
        fld 8 w (8 * (4 * n + k) + 4 + j) = rank f (256 * k + 64 * j) - rank f (256 * k))) body 0 n (ws, 0))
      as ((ws' & R) & -> & -> & O & F1 & F2) end; [done| | |by eauto].
  - split; [done|]. split; [by apply same_out_refl|]. split; intros; lia.
  - intros i [w R] Hi (-> & O & F1 & F2). pose proof O as (Lw & Ww & _).
    destruct (wrf_ok 32 w (2 * (4 * n + i)) (rank f (256 * i))) as (w1 & -> & P); [auto with word64|done|lia|lia|apply Hr; lia|].
    cbn [rbind]. assert (O1 : same_out ws w1 (256 * n) (320 * n)) by (eapply same_out_put; [exact O|exact P|lia|lia]).
    pose proof O1 as (Lw1 & Ww1 & _).
    destruct (fill_lev2_ok w1 (4 * n) i) as (w2 & -> & O2 & G2); [done|lia|lia|lia|]. cbn [rbind].
    assert (Hf : forall p, 0 <= p <= 256 * n -> rank (bit_at w1) p = rank f p).
    { intros p Hp. by apply (same_out_rank ws w1 (256 * n) (320 * n)). }
    rewrite !Hf in * by lia. eexists. split; [done|]. split; [lia|]. split.
    { eapply same_out_trans; [exact O1|]. eapply same_out_weak; [exact O2|lia|lia]. }
    split.
    + intros k Hk. rewrite (same_out_fld w1 w2 _ _ 32 _ O2) by (auto with word64 || lia).
      destruct (decide (k = i)) as [->|]; [by apply (fld_same 32 w w1); [auto with word64|lia|apply Hr; lia|]|].
      rewrite (fld_frame 32 w w1 _ _ _ (2 * (4 * n + k)) width32 ltac:(lia) P) by lia. apply F1. lia.
    + intros k j Hk Hj. destruct (decide (k = i)) as [->|].
      * rewrite G2 by done. by rewrite !Hf by lia.
      * rewrite (same_out_fld w1 w2 _ _ 8 _ O2) by (auto with word64 || lia).
        rewrite (fld_frame 8 w w1 _ _ _ (8 * (4 * n + k) + 4 + j) width8 ltac:(lia) P) by lia. apply F2; lia.
Qed.

(** ** [build_cache], stage by stage *)

Lemma se_line_ceil_eq n : 0 <= n -> line_ceil n = 256 * nlines n.
Proof. apply RankSimple.line_ceil_eq. Qed.

(** The block after the first reservation, padded with zeros to whole lines. *)
Lemma padded_ok junk b extra : (forall j, word64 (junk j)) -> wf b -> m_words b <> [] -> 0 <= extra ->
  let n := nlines (m_size b) in exists u, shrink_to_fit junk b = Ok u /\ m_size u = m_size b /\
  let b' := reserve junk u (256 * n + 64 * (extra + 1)) in
  exists ws, m_size b' = m_size b /\ bits_range_set0 (m_words b') (m_size b') (256 * n) = Ok ws /\
    words ws /\ Z.of_nat (length ws) = 4 * n + extra + 1 /\
    m_capacity b' = 64 * Z.of_nat (length ws) /\
    (forall p, 0 <= p < m_size b -> bit_at ws p = bit_at (m_words b) p) /\
    (forall p, m_size b <= p < 256 * n -> bit_at ws p = false).
Proof.
  intros Hj Hb Hne He n. pose proof Hb as [_ [Sb _]]. pose proof (RankSimple.nlines_bounds (m_size b) ltac:(lia)) as [Hn Hn'].
  fold n in Hn, Hn'. destruct (shrink_reserve_ok junk Hj b Hb Hne) as (u & Eu & Su & Cu & HR). exists u. split; [done|]. split; [done|]. intros b'.
  assert (Hc : m_capacity u < 256 * n + 64 * (extra + 1)) by lia.
  destruct (HR (256 * n + 64 * (extra + 1)) ltac:(lia)) as ((W2 & S2 & B2) & _ & C2).
  assert (Hm : (256 * n + 64 * (extra + 1)) mod 64 = 0) by (replace (256 * n + 64 * (extra + 1)) with ((4 * n + extra + 1) * 64) by lia; apply Z.mod_mul; lia).
  specialize (C2 Hc Hm). fold b' in W2, S2, C2, B2.
  destruct (bits_range_set0_ok (m_words b') (m_size b) (256 * n)) as (ws & E & L & W & B);
    [apply W2|lia|unfold m_capacity in C2; lia|].
  exists ws. split; [done|]. rewrite S2. split; [done|]. split; [done|]. unfold m_capacity in *.
  split; [lia|]. split; [lia|]. split; intros p Hp; rewrite B by lia.
  - destruct (Z.leb_spec (m_size b) p); [lia|]. cbn [andb]. by rewrite B2 by lia.
  - destruct (Z.leb_spec (m_size b) p), (Z.ltb_spec p (256 * n)); (lia || done).
Qed.

(** The rank cache with its last entry. *)
Lemma whole_cache_ok ws n sz : words ws -> 0 <= n -> 5 * n + 1 <= Z.of_nat (length ws) ->
  0 <= sz < 2 ^ 32 -> (forall p, sz <= p < 256 * n -> bit_at ws p = false) ->
  exists ws1 ws2 ws3, fill_rank_cache (4 * n) n ws = Ok (ws1, rank (bit_at ws) (256 * n)) /\
    wrf 32 ws1 (2 * (4 * n + n)) (rank (bit_at ws) (256 * n)) = Ok ws2 /\
    wrf 32 ws2 (2 * (4 * n + n) + 1) 0 = Ok ws3 /\
    same_out ws ws3 (256 * n) (320 * n + 64) /\ cache_ok ws3 (bit_at ws) (4 * n) n.
Proof.
  intros Hw Hn Hl Hsz Hz. destruct (fill_rank_cache_ok ws n sz) as (ws1 & E1 & O1 & F1 & F2); [done|done|lia|done|done|].
  pose proof O1 as (L1 & W1 & _).
  assert (Hr : 0 <= rank (bit_at ws) (256 * n) < 2 ^ 32).
  { split; [pose proof (rank_bounds (bit_at ws) (256 * n)); lia|]. apply (RankSimple.rank_lt_2_32 _ sz); (done || lia). }
  destruct (wrf_ok 32 ws1 (2 * (4 * n + n)) (rank (bit_at ws) (256 * n))) as (ws2 & E2 & P2); [auto with word64|done|lia..|].
  pose proof P2 as (L2 & W2 & _).
  destruct (wrf_ok 32 ws2 (2 * (4 * n + n) + 1) 0) as (ws3 & E3 & P3); [auto with word64|done|lia..|].
  exists ws1, ws2, ws3. do 3 (split; [done|]). split.
  { eapply same_out_put; [|exact P3|lia|lia]. eapply same_out_put; [|exact P2|lia|lia].
    eapply same_out_weak; [exact O1|lia|lia]. }
  split.
  - intros i Hi. rewrite (fld_frame 32 ws2 ws3 _ _ _ (2 * (4 * n + i)) width32 ltac:(lia) P3) by lia.
    destruct (decide (i = n)) as [->|]; [apply (fld_same 32 ws1 ws2); (done || lia || auto with word64)|].
    rewrite (fld_frame 32 ws1 ws2 _ _ _ (2 * (4 * n + i)) width32 ltac:(lia) P2) by lia. apply F1. lia.
  - intros i j Hi Hj. rewrite (fld_frame 8 ws2 ws3 _ _ _ (8 * (4 * n + i) + 4 + j) width8 ltac:(lia) P3) by lia.
    rewrite (fld_frame 8 ws1 ws2 _ _ _ (8 * (4 * n + i) + 4 + j) width8 ltac:(lia) P2) by lia. by apply F2.
  - intros j Hj. apply Z.bits_inj'. intros m Hm. rewrite testbit_fld, Z.bits_0 by (auto with word64 || lia).
    destruct (Z.ltb_spec m 8); [|done]. destruct P3 as (_ & _ & B3). rewrite B3 by lia.
    set (p := 8 * (8 * (4 * n + n) + 4 + j) + m). cbn [andb].
    destruct (Z.leb_spec (32 * (2 * (4 * n + n) + 1)) p), (Z.ltb_spec p (32 * (2 * (4 * n + n) + 1) + 32)); try lia.
    cbn [andb]. apply Z.bits_0.
Qed.

(** ** Reading a cache *)

Section cache.
Context (ws : list Z) (f : Z -> bool) (n : Z) (Hn : 0 <= n) (C : cache_ok ws f (4 * n) n)
  (Hlen : 5 * n + 1 <= Z.of_nat (length ws)).

Lemma lev1_ok i : 0 <= i <= n -> lev1 ws (Some (4 * n)) i = Ok (rank f (256 * i)).
Proof. intros Hi. unfold lev1. rewrite rdf_ok by (auto with word64 || lia). by rewrite (cache_lev1 _ _ _ _ C). Qed.

Lemma lev2_ok i j : 0 <= i < n -> 0 <= j < 4 ->
  lev2 ws (Some (4 * n)) i j = Ok (rank f (256 * i + 64 * j) - rank f (256 * i)).
Proof. intros Hi Hj. unfold lev2. rewrite rdf_ok by (auto with word64 || lia). by rewrite (cache_lev2 _ _ _ _ C). Qed.

Lemma lev2_last j : 0 <= j < 4 -> lev2 ws (Some (4 * n)) n j = Ok 0.
Proof. intros Hj. unfold lev2. rewrite rdf_ok by (auto with word64 || lia). by rewrite (cache_last _ _ _ _ C). Qed.

Lemma key1_ok i : 0 <= i <= n -> key1 ws (Some (4 * n)) i = Ok (Kones f 256 i).
Proof. apply lev1_ok. Qed.

Lemma key0_ok i : 0 <= i <= n -> key0 ws (Some (4 * n)) i = Ok (Kzeros f 256 i).
Proof. intros Hi. unfold key0. by rewrite lev1_ok. Qed.
End cache.

(** Where the select caches are and what the flag word holds. *)
Definition image_ok (v : rank_select_se) (s0 s1 : bool) : Prop :=
  let idx := 2 * (4 * nlines (size v) + nlines (size v) + 1) in
  m_sel0_cache v = (if s0 then Some idx else None) /\
  m_sel1_cache v = (if s1 then Some (if s0 then idx + (slots_of (m_max_rank0 v) + 1) else idx) else None) /\
  fld 64 (words_of v) (Z.of_nat (length (words_of v)) - 1) = flags_of (size v) s0 s1.

(** The second half of [build_cache]: select caches and flags, on the memory [ws]
    of [5n + 1 + k] words that the second reservation left. *)
Lemma finish_ok ws f n sz k (s0 s1 : bool) : words ws -> 0 <= n < 2 ^ 31 -> 0 <= sz < 2 ^ 32 -> sz <= 256 * n ->
  (forall p, sz <= p < 256 * n -> f p = false) -> cache_ok ws f (4 * n) n ->
  let m1 := rank f sz in let m0 := sz - rank f sz in
  let a := if s0 then slots_of m0 + 1 else 0 in let b := if s1 then slots_of m1 + 1 else 0 in
  a + b <= 2 * k -> 0 <= k -> Z.of_nat (length ws) = 5 * n + 1 + k + 1 ->
  let idx := 2 * (4 * n + n + 1) in let idx1 := if s0 then idx + (slots_of m0 + 1) else idx in
  exists ws1 ws2 ws3,
    (if s0 then build_sel (fun ws => key0 ws (Some (4 * n))) LineBits idx (slots_of m0) n ws else Ok ws) = Ok ws1 /\
    (if s1 then build_sel (fun ws => key1 ws (Some (4 * n))) LineBits idx1 (slots_of m1) n ws1 else Ok ws1) = Ok ws2 /\
    wrf 64 ws2 (Z.of_nat (length ws) - 1) (flags_of sz s0 s1) = Ok ws3 /\
    same_out ws ws3 (64 * (5 * n + 1)) (64 * Z.of_nat (length ws)) /\
    sel_built ws3 (Kzeros f 256) 256 (slots_of m0) n (if s0 then Some idx else None) /\
    sel_built ws3 (Kones f 256) 256 (slots_of m1) n (if s1 then Some idx1 else None) /\
    fld 64 ws3 (Z.of_nat (length ws) - 1) = flags_of sz s0 s1.
Proof.
  intros Hw Hn Hsz Hle Hz C m1 m0 a b Hk Hk0 Hlen idx idx1.
  assert (Hm : 0 <= m1 <= sz) by (apply rank_bounds; lia). assert (Hm0 : 0 <= m0) by (subst m0 m1; lia).
  pose proof (slots_bounds m0 Hm0) as [Q0 Q0']. pose proof (slots_bounds m1 ltac:(lia)) as [Q1 Q1'].
  assert (Hmax : rank f (256 * n) = m1) by (apply RankSimple.rank_pad; [lia|done]).
  assert (Ha : 0 <= a) by (subst a; destruct s0; lia). assert (Hb : 0 <= b) by (subst b; destruct s1; lia).
  assert (Hkey : forall w, same_out ws w (64 * (5 * n + 1)) (64 * Z.of_nat (length ws)) -> cache_ok w f (4 * n) n).
  { intros w O. eapply cache_ok_frame; [exact C|exact O|lia|lia|lia]. }
  destruct (sel_stage_ok s0 (fun ws => key0 ws (Some (4 * n))) (Kzeros f 256) 0 256 idx (slots_of m0) n ws)
    as (ws1 & E1 & O1 & S1); [done|lia|done|fold a; lia|lia|lia|done| |left|].
  { intros w i O Hi. pose proof O as (L & _). apply key0_ok; [lia| |lia|done]. apply Hkey.
    eapply same_out_weak; [exact O|subst idx; lia|lia]. }
  { intros _. unfold Kzeros. rewrite Hmax. subst m0. lia. }
  fold a in O1. pose proof O1 as (L1 & W1 & _).
  assert (O1' : same_out ws ws1 (64 * (5 * n + 1)) (64 * Z.of_nat (length ws))).
  { eapply same_out_weak; [exact O1|subst idx; lia|lia]. }
  assert (Hidx : idx1 = idx + a) by (subst idx1 a; destruct s0; lia).
  destruct (sel_stage_ok s1 (fun ws => key1 ws (Some (4 * n))) (Kones f 256) 0 256 idx1 (slots_of m1) n ws1)
    as (ws2 & E2 & O2 & S2); [done|lia|done|fold b; lia|lia|lia|done| |left|].
  { intros w i O Hi. pose proof O as (L & _). apply key1_ok; [lia| |lia|done]. apply Hkey.
    eapply same_out_trans; [exact O1'|]. eapply same_out_weak; [exact O|subst idx; lia|lia]. }
  { intros _. unfold Kones. rewrite Hmax. lia. }
  fold b in O2. pose proof O2 as (L2 & W2 & _). pose proof (flags_range sz s0 s1 Hsz) as Hf.
  destruct (wrf_ok 64 ws2 (Z.of_nat (length ws) - 1) (flags_of sz s0 s1)) as (ws3 & E3 & P3); [auto with word64|done|lia..|].
  assert (O3 : same_out ws2 ws3 (64 * (Z.of_nat (length ws) - 1)) (64 * Z.of_nat (length ws))).
  { eapply same_out_put; [by apply same_out_refl|exact P3|lia|lia]. }
  exists ws1, ws2, ws3. do 3 (split; [done|]). split.
  { eapply same_out_trans; [exact O1'|]. eapply same_out_trans; (eapply same_out_weak; [eassumption|lia|lia]). }
  split; [|split].
  - eapply sel_built_frame; [|exact O3|]; [|destruct s0; [intros ? [= <-]; lia|done]].
    eapply sel_built_frame; [exact S1|exact O2|]. destruct s0; [intros ? [= <-]; subst a; lia|done].
  - eapply sel_built_frame; [exact S2|exact O3|]. destruct s1; [intros ? [= <-]; subst b; lia|done].
  - apply (fld_same 64 ws2 ws3); [auto with word64|lia|done|done].
Qed.

Lemma land_even x : 0 <= x -> Z.land x (Z.lnot 1) = 2 * (x / 2).
Proof.
  intros Hx. change 1 with (Z.ones 1) at 1. rewrite <- Z.ldiff_land, Z.ldiff_ones_r, Z.shiftr_div_pow2, Z.shiftl_mul_pow2 by lia.
  change (2 ^ 1) with 2. lia.
Qed.

Lemma se_build_cache_ok junk1 junk2 s0 s1 v : (forall j, word64 (junk1 j)) -> (forall j, word64 (junk2 j)) ->
  wf (fv v) -> words_of v <> [] -> size v < 2 ^ 32 -> v = no_cache (fv v) ->
  exists v', build_cache junk1 junk2 s0 s1 v = Ok v' /\ built v' /\ image_ok v' s0 s1 /\ size v' = size v /\
    forall p, 0 <= p < size v -> bit_at (words_of v') p = bit_at (words_of v) p.
Proof.
  intros Hj1 Hj2 Hv Hne Hsz Hnc. destruct v as [b0 c0 x0 x1 y0 y1]. injection Hnc as -> -> -> -> ->.
  unfold words_of, size in *. cbn [fv] in *. pose proof Hv as [Wv Sv].
  unfold build_cache, check_overflow, shrink, size, words_of. cbn [fv m_rank_cache m_sel0_cache m_sel1_cache m_max_rank0 m_max_rank1].
  destruct (Z.ltb_spec (2 ^ 32 - 1) (m_size b0)) as [|_]; [lia|]. cbn [rbind assert_ is_none Z.eqb].
  rewrite (not_null b0 Hne). pose proof (RankSimple.nlines_bounds (m_size b0) ltac:(lia)) as [Hn Hn'].
  destruct (padded_ok junk1 b0 (nlines (m_size b0)) Hj1 Hv Hne Hn) as (u & -> & S1 & wz & Sb & Ez & Wz & Lz & Cz & Bz & Zz). cbn [rbind no_cache fv]. rewrite S1.
  rewrite se_line_ceil_eq by lia. unfold LineBits. rewrite (div_exact (nlines (m_size b0))) by lia.
  set (n := nlines (m_size b0)) in *.
  assert (256 * n / 64 = 4 * n) as -> by (replace (256 * n) with (64 * (4 * n)) by lia; apply div_exact; lia).
  replace ((n + 1) * 8 * 8) with (64 * (n + 1)) by lia. rewrite Ez. cbn [rbind]. rewrite Sb, Cz.
  destruct (whole_cache_ok wz n (m_size b0)) as (w1 & w2 & w3 & -> & E2 & E3 & O3 & C3); [done|lia|lia|lia|done|].
  cbn [rbind]. rewrite E2. cbn [rbind]. rewrite E3. cbn [rbind]. pose proof O3 as (L3 & W3 & _).
  set (f := bit_at wz) in *.
  assert (Hmax : rank f (256 * n) = rank f (m_size b0)) by (apply RankSimple.rank_pad; [lia|done]). rewrite Hmax.
  pose proof (rank_bounds f (m_size b0) ltac:(lia)) as Hm.
  set (a := if s0 then slots_of (m_size b0 - rank f (m_size b0)) + 1 else 0).
  set (bb := if s1 then slots_of (rank f (m_size b0)) + 1 else 0).
  assert (Hab : 0 <= a /\ 0 <= bb).
  { subst a bb. pose proof (slots_bounds (rank f (m_size b0))). pose proof (slots_bounds (m_size b0 - rank f (m_size b0))).
    destruct s0, s1; lia. }
  rewrite land_even by lia. set (k := (a + bb + 1) / 2).
  assert (Hk : a + bb <= 2 * k /\ 0 <= k).
  { pose proof (Z.div_mod (a + bb + 1) 2 ltac:(lia)). pose proof (Z.mod_pos_bound (a + bb + 1) 2 ltac:(lia)). subst k. lia. }
  destruct (reserve_block junk2 Hj2 (FV w3 (m_size b0)) (64 * Z.of_nat (length wz) + 32 * (2 * k + 2)))
    as (W4 & S4 & C4 & B4).
  { split; [done|]. unfold m_capacity. cbn. lia. }
  { unfold m_capacity. cbn. lia. }
  { replace (64 * Z.of_nat (length wz) + 32 * (2 * k + 2)) with ((Z.of_nat (length wz) + k + 1) * 64) by lia. apply Z.mod_mul. lia. }
  set (b4 := reserve junk2 _ _) in *. cbn [m_words m_size] in *. unfold m_capacity in B4, C4. cbn [m_words] in B4.
  assert (C4' : cache_ok (m_words b4) f (4 * n) n).
  { destruct C3 as [G1 G2 G3].
    assert (F : forall w i, width w -> 0 <= i -> w * i + w <= 64 * (5 * n + 1) -> fld w (m_words b4) i = fld w w3 i).
    { intros w i Hw Hi Hl. pose proof (width_pos w Hw). apply fld_eq; [done..|]. intros m Hm0. apply B4. nia. }
    split; intros; rewrite F by (auto with word64 || lia); auto. }
  destruct (finish_ok (m_words b4) f n (m_size b0) k s0 s1) as (u1 & u2 & u3 & U1 & U2 & U3 & O & T0 & T1 & TF);
    [apply W4|lia|lia|lia|done|done|fold a bb; lia|lia|lia|].
  unfold LineBits in U1, U2. rewrite U1. cbn [rbind]. rewrite U2. cbn [rbind]. rewrite S4.
  assert (Hcap : m_capacity b4 / 64 - 1 = Z.of_nat (length (m_words b4)) - 1) by (unfold m_capacity; rewrite div_exact; lia).
  rewrite Hcap. change (Z.lor _ _) with (flags_of (m_size b0) s0 s1). rewrite U3. cbn [rbind].
  pose proof O as (L5 & W5 & B5).
  assert (Hbit : forall p, 0 <= p < 256 * n -> bit_at u3 p = f p).
  { intros p Hp. rewrite B5, B4 by lia. destruct O3 as (_ & _ & B3). apply B3; lia. }
  assert (Hrk : forall p, 0 <= p <= 256 * n -> rank (bit_at u3) p = rank f p).
  { intros p Hp. apply rank_ext. intros. apply Hbit. lia. }
  eexists. split; [done|]. split; [|split; [|split; [done|]]].
  - split; unfold words_of, size; cbn [fv m_words m_size m_rank_cache m_sel0_cache m_sel1_cache m_max_rank0 m_max_rank1];
      fold n; rewrite ?Hrk by lia; try done.
    + split; [done|]. unfold m_capacity. cbn. lia.
    + lia.
    + intros p Hp. rewrite Hbit by lia. apply Zz. lia.
    + apply (cache_ok_ext _ f); [lia|by intros; rewrite Hbit by lia|].
      eapply cache_ok_frame; [exact C4'|exact O|lia|lia|lia].
    + eapply sel_built_ext; [lia| |exact T0]. intros i Hi. unfold Kzeros. by rewrite Hrk by lia.
    + eapply sel_built_ext; [lia| |exact T1]. intros i Hi. unfold Kones. by rewrite Hrk by lia.
  - unfold image_ok, size, words_of. cbn [fv m_words m_size m_sel0_cache m_sel1_cache m_max_rank0]. fold n.
    rewrite L5. split; [done|]. split; [done|]. done.
  - unfold words_of, size. cbn [fv m_words]. intros p Hp. rewrite Hbit by lia. apply Bz. lia.
Qed.

(** ** The queries on a built vector *)

Section built.
Context (v : rank_select_se) (B : built v).
Let ws := words_of v.
Let f := bit_at ws.
Let g := fun i => negb (f i).
Let n := nlines (size v).

Lemma se_built_dims : words ws /\ 0 <= size v <= 256 * n /\ 256 * n < size v + 256 /\ 0 <= n /\ 5 * n + 1 < Z.of_nat (length ws).
Proof.
  pose proof (built_wf v B) as [W S]. pose proof (built_room v B) as R.
  assert (0 <= size v) by (unfold size; lia). pose proof (RankSimple.nlines_bounds (size v)). subst n ws. unfold words_of in *.
  split; [done|]. lia.
Qed.

Lemma built_lev1 i : 0 <= i <= n -> lev1 ws (m_rank_cache v) i = Ok (rank f (256 * i)).
Proof.
  intros Hi. pose proof se_built_dims as (_ & _ & _ & Hn & Hl). rewrite (built_ptr v B).
  apply lev1_ok; first [apply (built_cache v B)|lia].
Qed.

Lemma built_lev2 i j : 0 <= i < n -> 0 <= j < 4 ->
  lev2 ws (m_rank_cache v) i j = Ok (rank f (256 * i + 64 * j) - rank f (256 * i)).
Proof.
  intros Hi Hj. pose proof se_built_dims as (_ & _ & _ & Hn & Hl). rewrite (built_ptr v B).
  apply lev2_ok; first [apply (built_cache v B)|lia].
Qed.

Lemma se_fast_rank1_ok p : 0 <= p <= size v -> fast_rank1 ws (m_rank_cache v) p = Ok (rank f p).
Proof.
  intros Hp. pose proof se_built_dims as (W & D1 & D2 & D3 & D4). unfold fast_rank1, LineBits.
  pose proof (Z.div_mod p 256 ltac:(lia)). pose proof (Z.mod_pos_bound p 256 ltac:(lia)).
  pose proof (Z.div_mod p 64 ltac:(lia)). pose proof (mod64_range p).
  pose proof (Z.div_mod (p / 64) 4 ltac:(lia)). pose proof (Z.mod_pos_bound (p / 64) 4 ltac:(lia)).
  assert (Eq : p / 256 = p / 64 / 4) by (rewrite Z.div_div by lia; done).
  rewrite built_lev1 by lia. cbn [rbind]. pose proof (rank_trail ws p ltac:(lia) W) as T. fold f in T. rewrite T. clear T.
  assert (E64 : 64 * (p / 64) = 256 * (p / 256) + 64 * ((p / 64) mod 4)) by lia.
  destruct (decide (p / 256 < n)) as [Hi|Hi].
  - rewrite built_lev2 by lia. cbn [rbind]. rewrite rd_word by lia. cbn [rbind]. f_equal. rewrite E64. lia.
  - assert (p / 256 = n /\ (p / 64) mod 4 = 0) as [En E0] by lia.
    rewrite En, E0, (built_ptr v B). rewrite (lev2_last ws f n) by (lia || apply (built_cache v B)). cbn [rbind].
    rewrite rd_word by lia. cbn [rbind]. f_equal. rewrite E64, En, E0. replace (256 * n + 64 * 0) with (256 * n) by lia. lia.
Qed.

Lemma in_line1_ok l r : line_after (Kones f 256) r l -> l <= n ->
  exists p, in_line1 ws (m_rank_cache v) l r = Ok p /\ is_select f r p.
Proof.
  intros (L1 & L2 & L3) Hl. pose proof se_built_dims as (W & D1 & D2 & D3 & D4). unfold Kones in *. unfold in_line1, key1.
  rewrite built_lev1 by lia. cbn [rbind]. rewrite (proj2 (Z.ltb_lt _ _)) by lia. cbn [assert_ rbind].
  rewrite built_lev1 by lia. cbn [rbind]. rewrite !built_lev2 by lia. cbn [rbind]. unfold LineBits.
  match goal with |- context [line_select4 ?w ?c r] =>
    destruct (line_select4_ok f (256 * (l - 1)) w c r) as (p & -> & Hp & S) end.
  - lia.
  - intros j Hj. exists (word_at ws (4 * (l - 1) + j)). split; [apply rd_word; lia|]. split; [auto with word64|].
    intros m Hm. replace (256 * (l - 1) + 64 * j + m) with (64 * (4 * (l - 1) + j) + m) by lia.
    subst f. by rewrite bit_at_word by lia.
  - intros j Hj. destruct (Z.eqb_spec j 0) as [->|]; [f_equal; lia|].
    destruct (Z.eqb_spec j 1) as [->|]; [lia|]. destruct (Z.eqb_spec j 2) as [->|]; [lia|].
    assert (j = 3) as -> by lia. lia.
  - replace (256 * (l - 1) + 256) with (256 * l) by lia. lia.
  - cbn [rbind]. rewrite (Z.mul_comm (l - 1)). eauto.
Qed.

Lemma in_line0_ok l r : line_after (Kzeros f 256) r l -> l <= n ->
  exists p, in_line0 ws (m_rank_cache v) l r = Ok p /\ is_select g r p.
Proof.
  intros (L1 & L2 & L3) Hl. pose proof se_built_dims as (W & D1 & D2 & D3 & D4). unfold in_line0, key0.
  assert (G : forall p, 0 <= p -> rank g p = p - rank f p) by (intros; by apply rank_negb).
  unfold Kzeros in *. rewrite !built_lev1 by lia. cbn [rbind]. unfold LineBits in *.
  rewrite (proj2 (Z.ltb_lt _ _)) by lia. cbn [assert_ rbind]. rewrite !built_lev2 by lia. cbn [rbind].
  match goal with |- context [line_select4 ?w ?c r] =>
    destruct (line_select4_ok g (256 * (l - 1)) w c r) as (p & -> & Hp & S) end.
  - lia.
  - intros j Hj. exists (not64 (word_at ws (4 * (l - 1) + j))). rewrite rd_word by lia. split; [done|].
    split; [auto with word64|]. intros m Hm. replace (256 * (l - 1) + 64 * j + m) with (64 * (4 * (l - 1) + j) + m) by lia.
    subst g f. cbn beta. rewrite bit_at_word, testbit_not64 by lia. destruct (Z.ltb_spec m 64); [done|lia].
  - intros j Hj. rewrite G by lia. destruct (Z.eqb_spec j 0) as [->|]; [rewrite Z.mul_0_r, Z.add_0_r; lia|].
    destruct (Z.eqb_spec j 1) as [->|]; [lia|]. destruct (Z.eqb_spec j 2) as [->|]; [lia|].
    assert (j = 3) as -> by lia. lia.
  - rewrite !G by lia. replace (256 * (l - 1) + 256) with (256 * l) by lia. lia.
  - cbn [rbind]. rewrite (Z.mul_comm (l - 1)). eauto.
Qed.

(** The line searches. *)
Lemma key1_built i : 0 <= i <= n -> key1 ws (m_rank_cache v) i = Ok (Kones f 256 i).
Proof. apply built_lev1. Qed.
Lemma key0_built i : 0 <= i <= n -> key0 ws (m_rank_cache v) i = Ok (Kzeros f 256 i).
Proof. intros Hi. unfold key0. by rewrite built_lev1. Qed.

Lemma hi_bounds : n <= (size v + LineBits + 1) / LineBits <= n + 1.
Proof.
  pose proof se_built_dims as (_ & D1 & D2 & D3 & _). unfold LineBits.
  pose proof (Z.div_mod (size v + 256 + 1) 256 ltac:(lia)). pose proof (Z.mod_pos_bound (size v + 256 + 1) 256 ltac:(lia)). lia.
Qed.

(** Both searches, for either kind of rank: with and without select cache. *)
Lemma line_search_ok key K M sel r : (forall i, 0 <= i <= n -> key i = Ok (K i)) -> mono K n -> K 0 = 0 ->
  0 <= r < M -> M <= K n -> sel_built ws K 256 (slots_of M) n sel ->
  (exists l, (let* (lo, hi) := match sel with
      | Some _ => let* lo := rd_sel ws sel (r / LineBits) in
                  let* hi := rd_sel ws sel (r / LineBits + 1) in Ok (lo, hi)
      | None => Ok (0, (size v + LineBits + 1) / LineBits) end in upper_bound key r lo hi) = Ok l /\
     l <= n /\ line_after K r l) /\
  (sel <> None -> exists l, select_upper_bound_line key ws sel r = Ok l /\ l <= n /\ line_after K r l).
Proof.
  intros Hkey Hm H0 Hr HM Hs. pose proof se_built_dims as (_ & D1 & D2 & D3 & _). destruct sel as [s|].
  2: { split; [|done]. cbn [rbind]. pose proof hi_bounds.
       apply (upper_bound_line key K n); (done || lia). }
  pose proof (slots_bounds M ltac:(lia)) as [Q1 Q2]. unfold select_upper_bound_line, LineBits.
  pose proof (Z.div_mod r 256 ltac:(lia)). pose proof (Z.mod_pos_bound r 256 ltac:(lia)).
  rewrite !(rd_sel_ok ws K 256 (slots_of M) n) by (done || lia). cbn [rbind]. destruct Hs as (Hs1 & Hs2 & Hs3 & Hs4).
  pose proof (sel_bounds K 256 (slots_of M) n _ r Hm D3 ltac:(lia) H0 Hs4 ltac:(lia) ltac:(lia)) as Bk.
  cbn beta in Bk. set (lo := fld 32 ws (s + r / 256)) in *. set (hi := fld 32 ws (s + (r / 256 + 1))) in *.
  assert (U : exists l, upper_bound key r lo hi = Ok l /\ l <= n /\ line_after K r l)
    by (apply (upper_bound_sel key K n); (done || lia)).
  split; [done|]. intros _. destruct ((lo <=? hi) && (hi - lo <? 32)); [|done].
  apply (scan_up_sel key K n lo hi); (done || lia).
Qed.

Lemma se_select1_ok r : 0 <= r < m_max_rank1 v -> exists p, select1 v r = Ok p /\ is_select f r p /\ p < size v /\
  (m_sel1_cache v <> None -> fast_select1 ws (m_sel1_cache v) (m_rank_cache v) r = Ok p).
Proof.
  intros Hr. pose proof se_built_dims as (W & D1 & D2 & D3 & D4). pose proof (built_max1 v B) as M. fold ws f in M.
  pose proof (rank_mono f (size v) (256 * n)).
  destruct (line_search_ok (key1 ws (m_rank_cache v)) (Kones f 256) (m_max_rank1 v) (m_sel1_cache v) r)
    as [(l & E & Hl & L) F]; [apply key1_built|by apply Kones_mono|done|done|unfold Kones; lia|apply (built_sel1 v B)|].
  destruct (in_line1_ok l r L Hl) as (p & Ep & S). exists p. split; [|split; [done|split]].
  - unfold select1, select1_upper_bound_line_safe. rewrite (proj2 (Z.ltb_lt _ _)) by lia. cbn [assert_ rbind].
    fold ws. rewrite E. exact Ep.
  - eapply is_select_lt; [exact S|lia|lia].
  - intros Hne. destruct (F Hne) as (l' & E' & Hl' & L'). unfold fast_select1, select1_upper_bound_line. rewrite E'. cbn [rbind].
    destruct (in_line1_ok l' r L' Hl') as (p' & -> & S'). f_equal. eapply is_select_unique; [exact S'|exact S].
Qed.

Lemma se_select0_ok r : 0 <= r < m_max_rank0 v -> exists p, select0 v r = Ok p /\ is_select g r p /\ p < size v /\
  (m_sel0_cache v <> None -> fast_select0 ws (m_sel0_cache v) (m_rank_cache v) r = Ok p).
Proof.
  intros Hr. pose proof se_built_dims as (W & D1 & D2 & D3 & D4). pose proof (built_max0 v B) as M. fold ws f in M.
  assert (M' : m_max_rank0 v = rank g (size v)) by (subst g; rewrite rank_negb by lia; lia).
  pose proof (rank_mono g (size v) (256 * n)).
  destruct (line_search_ok (key0 ws (m_rank_cache v)) (Kzeros f 256) (m_max_rank0 v) (m_sel0_cache v) r)
    as [(l & E & Hl & L) F]; [apply key0_built|by apply Kzeros_mono|done|done| |apply (built_sel0 v B)|].
  { rewrite Kzeros_rank by lia. change (fun p => negb (f p)) with g. lia. }
  destruct (in_line0_ok l r L Hl) as (p & Ep & S). exists p. split; [|split; [done|split]].
  - unfold select0, select0_upper_bound_line_safe. rewrite (proj2 (Z.ltb_lt _ _)) by lia. cbn [assert_ rbind].
    fold ws. rewrite E. exact Ep.
  - eapply is_select_lt; [exact S|lia|lia].
  - intros Hne. destruct (F Hne) as (l' & E' & Hl' & L'). unfold fast_select0, select0_upper_bound_line. rewrite E'. cbn [rbind].
    destruct (in_line0_ok l' r L' Hl') as (p' & -> & S'). f_equal. eapply is_select_unique; [exact S'|exact S].
Qed.

Lemma se_laws : rs_laws v f.
Proof.
  pose proof se_built_dims as (_ & D1 & _).
  assert (R1 : forall p, 0 <= p <= size v -> rank1 v p = Ok (rank f p)).
  { intros p Hp. unfold rank1. rewrite (proj2 (Z.leb_le _ _)) by lia. cbn [assert_ rbind]. by apply se_fast_rank1_ok. }
  split; cbn [rs_size rs_is1 rs_rank1 rs_rank0 rs_select0 rs_select1 rs_max_rank0 rs_max_rank1 se_rs].
  - lia.
  - intros p Hp. apply is1_ok; [apply (built_wf v B)|done].
  - exact R1.
  - intros p Hp. unfold rank0. rewrite (proj2 (Z.leb_le _ _)) by lia. cbn [assert_ rbind]. by rewrite R1.
  - apply (built_max1 v B).
  - apply (built_max0 v B).
  - intros r Hr. destruct (se_select1_ok r Hr) as (p & H1 & H2 & H3 & _). eauto.
  - intros r Hr. destruct (se_select0_ok r Hr) as (p & H1 & H2 & H3 & _). eauto.
Qed.
End built.

(** ** Mapping an image *)

Lemma se_mmap_ok v s0 s1 : built v -> image_ok v s0 s1 -> risk_mmap_from (words_of v) = Ok v.
Proof.
  intros B (I0 & I1 & IF). pose proof (se_built_dims v B) as (W & D1 & D2 & D3 & D4). unfold risk_mmap_from.
  rewrite rdf_ok by (auto with word64 || lia). cbn [rbind]. rewrite IF.
  destruct (flags_decode (size v) s0 s1) as (-> & -> & ->); [lia|]. rewrite se_line_ceil_eq by lia.
  set (n := nlines (size v)) in *. unfold LineBits. rewrite div_exact by lia.
  assert (256 * n / 64 = 4 * n) as -> by (replace (256 * n) with (64 * (4 * n)) by lia; apply div_exact; lia).
  rewrite (lev1_ok (words_of v) (bit_at (words_of v)) n) by (lia || apply (built_cache v B)). cbn [rbind].
  assert (rank (bit_at (words_of v)) (256 * n) = m_max_rank1 v) as ->.
  { rewrite (built_max1 v B). apply RankSimple.rank_pad; [lia|]. apply (built_zero v B). }
  assert (size v - m_max_rank1 v = m_max_rank0 v) as -> by (rewrite (built_max1 v B), (built_max0 v B); done).
  rewrite <- I1, <- I0. pose proof (built_ptr v B) as P. fold n in P. rewrite <- P.
  assert (Hh : m_hollow (fv v) = false) by apply (built_wf v B). destruct v as [[w sz h] c x0 x1 m0 m1]. cbn in Hh. by subst h.
Qed.

Lemma se_copy_ok junk u : wf (fv u) -> copy junk u = u.
Proof.
  intros Hu. unfold copy. change (m_capacity (fv u)) with (64 * Z.of_nat (length (words_of u))). rewrite copy_words.
  assert (Hh : m_hollow (fv u) = false) by apply Hu. destruct u as [[? ? h] ? ? ? ? ?]. cbn in Hh. by subst h.
Qed.

(** * Properties *)

(** C19: functional.  [build_cache] succeeds for either choice of the select
    caches, keeps the bits, and the result obeys every rank/select law. *)
Theorem se_build_cache_correct junk1 junk2 s0 s1 b : (forall j, word64 (junk1 j)) -> (forall j, word64 (junk2 j)) ->
  wf b -> m_words b <> [] -> m_size b < 2 ^ 32 ->
  exists v', build_cache junk1 junk2 s0 s1 (no_cache b) = Ok v' /\ bits (fv v') = bits b /\
    rs_laws v' (bit_at (words_of v')).
Proof.
  intros H1 H2 Hw Hne Hs. destruct (se_build_cache_ok junk1 junk2 s0 s1 (no_cache b)) as (u & -> & B & _ & S & Hb); [done..|].
  exists u. split; [done|]. split; [|by apply se_laws].
  unfold bits. change (m_size (fv u)) with (size u). rewrite S. by apply map_seqZ_ext.
Qed.

(** equivalence.  With a select cache, the unchecked [fast_select] functions
    (linear scan or binary search inside the range the cache gives) return the
    position the checked functions return, which is the selected one. *)
Theorem se_fast_select_agrees junk1 junk2 s0 s1 b v' : (forall j, word64 (junk1 j)) -> (forall j, word64 (junk2 j)) ->
  wf b -> m_words b <> [] -> m_size b < 2 ^ 32 -> build_cache junk1 junk2 s0 s1 (no_cache b) = Ok v' ->
  (s1 = true -> forall r, 0 <= r < m_max_rank1 v' -> exists p,
     fast_select1 (words_of v') (m_sel1_cache v') (m_rank_cache v') r = Ok p /\ select1 v' r = Ok p /\
     is_select (bit_at (words_of v')) r p) /\
  (s0 = true -> forall r, 0 <= r < m_max_rank0 v' -> exists p,
     fast_select0 (words_of v') (m_sel0_cache v') (m_rank_cache v') r = Ok p /\ select0 v' r = Ok p /\
     is_select (fun i => negb (bit_at (words_of v') i)) r p).
Proof.
  intros H1 H2 Hw Hne Hs E.
  destruct (se_build_cache_ok junk1 junk2 s0 s1 (no_cache b)) as (u & E' & B & (I0 & I1 & _) & _); [done..|].
  rewrite E' in E. injection E as <-. split; intros -> r Hr.
  - destruct (se_select1_ok u B r Hr) as (p & Ep & S & _ & F). exists p. split; [|done]. apply F. by rewrite I1.
  - destruct (se_select0_ok u B r Hr) as (p & Ep & S & _ & F). exists p. split; [|done]. apply F. by rewrite I0.
Qed.

(** round trip.  The block of a built vector, mapped with [risk_mmap_from],
    gives the same object (all pointers included), and so does the copy constructor. *)
Theorem se_mmap_roundtrip junk1 junk2 junk3 s0 s1 b v' : (forall j, word64 (junk1 j)) -> (forall j, word64 (junk2 j)) ->
  wf b -> m_words b <> [] -> m_size b < 2 ^ 32 -> build_cache junk1 junk2 s0 s1 (no_cache b) = Ok v' ->
  risk_mmap_from (words_of v') = Ok v' /\ copy junk3 v' = v'.
Proof.
  intros H1 H2 Hw Hne Hs E.
  destruct (se_build_cache_ok junk1 junk2 s0 s1 (no_cache b)) as (u & E' & B & I & _); [done..|].
  rewrite E' in E. injection E as <-. split; [by apply (se_mmap_ok u s0 s1)|].
  apply se_copy_ok, (built_wf u B).
Qed.

(** * Witnesses *)

Abbreviation sample := RankSimple.sample_bits.

Lemma junk7 : forall j : nat, word64 ((fun _ => 7) j).
Proof. intros. unfold word64. lia. Qed.

Lemma se_build_cache_correct_witness : exists v',
  build_cache (fun _ => 7) (fun _ => 7) true true (no_cache sample) = Ok v' /\ bits (fv v') = bits sample /\
  rs_laws v' (bit_at (words_of v')).
Proof.
  apply (se_build_cache_correct (fun _ => 7) (fun _ => 7) true true sample).
  - exact junk7.
  - exact junk7.
  - exact RankSimple.sample_bits_wf.
  - discriminate.
  - reflexivity.
Defined.

Definition sample_se : rank_select_se :=
  match build_cache (fun _ => 7) (fun _ => 7) true true (no_cache sample) with Ok v => v | _ => no_cache sample end.

Lemma se_fast_select_agrees_witness : exists p,
  fast_select1 (words_of sample_se) (m_sel1_cache sample_se) (m_rank_cache sample_se) 75 = Ok p /\
  select1 sample_se 75 = Ok p /\ p = 257.
Proof.
  destruct (se_fast_select_agrees (fun _ => 7) (fun _ => 7) true true sample sample_se) as [H _].
  - exact junk7.
  - exact junk7.
  - exact RankSimple.sample_bits_wf.
  - discriminate.
  - reflexivity.
  - vm_compute. reflexivity.
  - destruct (H eq_refl 75) as (p & E1 & E2 & _).
    + vm_compute. split; [discriminate|reflexivity].
    + exists p. split; [exact E1|]. split; [exact E2|]. vm_compute in E2. injection E2 as <-. reflexivity.
Defined.

Lemma se_mmap_roundtrip_witness : risk_mmap_from (words_of sample_se) = Ok sample_se /\ copy (fun _ => 7) sample_se = sample_se.
Proof.
  apply (se_mmap_roundtrip (fun _ => 7) (fun _ => 7) (fun _ => 7) true true sample).
  - exact junk7.
  - exact junk7.
  - exact RankSimple.sample_bits_wf.
  - discriminate.
  - reflexivity.
  - vm_compute. reflexivity.
Defined.

End RankSe256.
