(* ===== verification/RankIl256.v ===== *)
(** * [rank_select_il] (256 bits per line, rank cache interleaved)

    [src/src/terark/succinct/rank_select_il_256.hpp] and [.cpp], the portable
    branches, with the variant [rank_select_il_256_32_41] whose select cache of
    zeros has four slots per 256.  A [Line] is 40 bytes: [rlev1], the bytes
    [rlev2[4]], and 256 bits; line [i] is words [5i .. 5i+4] of the block.  The
    block is the memory of the [valvec<Line>] ([n_lines] is its size, the
    capacity is the length of the block over 5).  Behind the lines [build_cache]
    puts one more line for the total, the select caches, and the flags in the
    last word.  [m_lines[i]] checks [i] against the size, as [valvec] does;
    the functions that go through the raw pointer do not. *)
From S2P Require Import Prelude Bits Febitvec Mem RankSpec RankSimple RankSe256.
Import Febitvec Mem RankSpec.

Module RankIl256.

Record rank_select_il := Il {
  m_lines : list Z; n_lines : Z; m_fast_select0 : option Z; m_fast_select1 : option Z;
  m_max_rank0 : Z; m_max_rank1 : Z; m_size : Z }.

Definition LineBits : Z := 256.
Definition capacity (v : rank_select_il) : Z := Z.of_nat (length (m_lines v)) / 5.
Definition BitsToLines (nbits : Z) : Z := (nbits + LineBits - 1) / LineBits.

Definition check_overflow (n : Z) : res unit := if 2 ^ 32 - 1 <? n then Throw terark_die else Ok tt.
Definition is_none {A} (o : option A) : bool := match o with None => true | Some _ => false end.

(** ** Lines *)

Definition rlev1 (ws : list Z) (i : Z) : res Z := rdf 32 ws (10 * i).
Definition rlev2 (ws : list Z) (i j : Z) : res Z := rdf 8 ws (40 * i + 4 + j).
Definition bit64 (ws : list Z) (i j : Z) : res Z := rd ws (5 * i + 1 + j).
Definition key1 (ws : list Z) (i : Z) : res Z := rlev1 ws i.
Definition key0 (ws : list Z) (i : Z) : res Z := let* r := rlev1 ws i in Ok (LineBits * i - r).

(** The words of [Line(val)], and a line filled with it. *)
Definition line_of (val : bool) : list Z := 0 :: replicate 4 (if val then Z.ones 64 else 0).
Definition wr_line (ws : list Z) (i : Z) (val : bool) : res (list Z) :=
  for_ 0 5 (fun k ws => wr ws (5 * i + k) (nth (Z.to_nat k) (line_of val) 0)) ws.
Definition fill_lines (a b : Z) (val : bool) (ws : list Z) : res (list Z) :=
  for_ a b (fun i ws => wr_line ws i val) ws.

(** ** Bits *)

(** [terark_bit_xxx(m_lines[i/LineBits].words, i%LineBits)]: the bit's position in the block *)
Definition pos_of (i : Z) : Z := 64 * (5 * (i / LineBits) + 1) + i mod LineBits.

Definition is1 (v : rank_select_il) (i : Z) : res bool :=
  let* _ := assert_ (i <? m_size v) in
  let* _ := assert_ (i / LineBits <? n_lines v) in terark_bit_test (m_lines v) (pos_of i).
Definition is0 (v : rank_select_il) (i : Z) : res bool := let* b := is1 v i in Ok (negb b).

Definition with_lines (v : rank_select_il) (ws : list Z) : rank_select_il :=
  Il ws (n_lines v) (m_fast_select0 v) (m_fast_select1 v) (m_max_rank0 v) (m_max_rank1 v) (m_size v).

Definition set0 (v : rank_select_il) (i : Z) : res rank_select_il :=
  let* _ := assert_ (i <? m_size v) in
  let* _ := assert_ (i / LineBits <? n_lines v) in
  let* ws := terark_bit_set0 (m_lines v) (pos_of i) in Ok (with_lines v ws).
Definition set1 (v : rank_select_il) (i : Z) : res rank_select_il :=
  let* _ := assert_ (i <? m_size v) in
  let* _ := assert_ (i / LineBits <? n_lines v) in
  let* ws := terark_bit_set1 (m_lines v) (pos_of i) in Ok (with_lines v ws).
Definition set (v : rank_select_il) (i : Z) (val : bool) : res rank_select_il :=
  let* _ := assert_ (i <? m_size v) in if val then set1 v i else set0 v i.
Definition set_range (v : rank_select_il) (i nbits : Z) (val : bool) : res rank_select_il :=
  for_ 0 nbits (fun j v => if val then set1 v (i + j) else set0 v (i + j)) v.

Definition back (v : rank_select_il) : res bool :=
  let* _ := assert_ (0 <? m_size v) in is1 v (m_size v - 1).
Definition with_size (v : rank_select_il) (n : Z) : rank_select_il :=
  Il (m_lines v) (n_lines v) (m_fast_select0 v) (m_fast_select1 v) (m_max_rank0 v) (m_max_rank1 v) n.
Definition pop_back (v : rank_select_il) : res rank_select_il :=
  let* _ := assert_ (0 <? m_size v) in Ok (with_size v (m_size v - 1)).
Definition erase_all (v : rank_select_il) : rank_select_il :=
  Il (m_lines v) 0 (m_fast_select0 v) (m_fast_select1 v) (m_max_rank0 v) (m_max_rank1 v) (m_size v).
Definition empty_il : rank_select_il := Il [] 0 None None 0 0 0.
Definition clear (v : rank_select_il) : rank_select_il := empty_il.
Definition fill (v : rank_select_il) (val : bool) : res rank_select_il :=
  let* ws := fill_lines 0 (n_lines v) val (m_lines v) in Ok (with_lines v ws).

Definition set_word (v : rank_select_il) (i w : Z) : res rank_select_il :=
  let* _ := assert_ (i / 4 <? n_lines v) in
  let* ws := wr (m_lines v) (5 * (i / 4) + 1 + i mod 4) w in Ok (with_lines v ws).
Definition get_word (v : rank_select_il) (i : Z) : res Z :=
  let* _ := assert_ (i / 4 <? n_lines v) in rd (m_lines v) (5 * (i / 4) + 1 + i mod 4).
Definition num_words (v : rank_select_il) : Z := n_lines v * 4.

Definition popcnt_lines (v : rank_select_il) (startline lines : Z) : res Z :=
  let* _ := assert_ (startline <=? n_lines v) in
  let* _ := assert_ (lines <=? n_lines v) in
  let* _ := assert_ (startline + lines <=? n_lines v) in
  let* _ := assert_ (m_max_rank0 v + m_max_rank1 v =? LineBits * n_lines v) in
  let* a := rlev1 (m_lines v) (startline + lines) in
  let* b := rlev1 (m_lines v) startline in
  let* _ := assert_ (b <=? a) in Ok (a - b).
Definition popcnt (v : rank_select_il) : res Z := popcnt_lines v 0 (n_lines v).

(** ** Runs of equal bits: the nested loops over lines and words *)

Definition scan_fwd (ws : list Z) (val : bool) (len j k sum : Z) : res Z :=
  loop (S (Z.to_nat (5 * (len - j) - k + 4))) (fun '(j, k, sum) =>
    if j <? len then
      if k <? 4 then
        let* w := bit64 ws j k in let y := inv val w in
        if 0 =? y then Ok (inl (j, k + 1, sum + 64))
        else let* c := fast_ctz y in Ok (inr (sum + c))
      else Ok (inl (j + 1, 0, sum))
    else Ok (inr sum)) (j, k, sum).

(** The counters run down to [size_t(-1)]. *)
Definition scan_back (ws : list Z) (val : bool) (j k sum : Z) : res Z :=
  loop (S (Z.to_nat (5 * j + k + 7))) (fun '(j, k, sum) =>
    if negb (j =? -1) then
      if negb (k =? -1) then
        let* w := bit64 ws j k in let y := inv val w in
        if 0 =? y then Ok (inl (j, k - 1, sum + 64))
        else let* c := fast_clz y in Ok (inr (sum + c))
      else Ok (inl (j - 1, 3, sum))
    else Ok (inr sum)) (j, k, sum).

Definition one_seq_len (v : rank_select_il) (bitpos : Z) : res Z :=
  let* _ := assert_ (bitpos <? m_size v) in
  let j := bitpos / LineBits in
  let k := bitpos mod LineBits / 64 in
  if negb (bitpos mod 64 =? 0) then
    let* _ := assert_ (j <? n_lines v) in
    let* x := bit64 (m_lines v) j k in
    if Z.land x (shl64 1 (bitpos mod 64)) =? 0 then Ok 0 else
    let* ctz := fast_ctz (not64 (Z.shiftr x (bitpos mod 64))) in
    if ctz <? 64 - bitpos mod 64 then Ok ctz else
    let* _ := assert_ (ctz =? 64 - bitpos mod 64) in
    scan_fwd (m_lines v) true (n_lines v) j (k + 1) ctz
  else scan_fwd (m_lines v) true (n_lines v) j k 0.

Definition zero_seq_len (v : rank_select_il) (bitpos : Z) : res Z :=
  let* _ := assert_ (bitpos <? m_size v) in
  let j := bitpos / LineBits in
  let k := bitpos mod LineBits / 64 in
  if negb (bitpos mod 64 =? 0) then
    let* _ := assert_ (j <? n_lines v) in
    let* x := bit64 (m_lines v) j k in
    if negb (Z.land x (shl64 1 (bitpos mod 64)) =? 0) then Ok 0 else
    let y := Z.shiftr x (bitpos mod 64) in
    if negb (y =? 0) then fast_ctz y else
    scan_fwd (m_lines v) false (n_lines v) j (k + 1) (64 - bitpos mod 64)
  else scan_fwd (m_lines v) false (n_lines v) j k 0.

Definition one_seq_revlen (v : rank_select_il) (endpos : Z) : res Z :=
  let* _ := assert_ (endpos <=? m_size v) in
  let j := (endpos - 1) / LineBits in
  let k := (endpos - 1) mod LineBits / 64 in
  if negb (endpos mod 64 =? 0) then
    let* _ := assert_ (j <? n_lines v) in
    let* x := bit64 (m_lines v) j k in
    if Z.land x (shl64 1 ((endpos - 1) mod 64)) =? 0 then Ok 0 else
    let* clz := fast_clz (not64 (shl64 x (64 - endpos mod 64))) in
    let* _ := assert_ (clz <=? endpos mod 64) in
    let* _ := assert_ (1 <=? clz) in
    if clz <? endpos mod 64 then Ok clz else scan_back (m_lines v) true j (k - 1) clz
  else if endpos =? 0 then Ok 0 else scan_back (m_lines v) true j k 0.

Definition zero_seq_revlen (v : rank_select_il) (endpos : Z) : res Z :=
  let* _ := assert_ (endpos <=? m_size v) in
  let j := (endpos - 1) / LineBits in
  let k := (endpos - 1) mod LineBits / 64 in
  if negb (endpos mod 64 =? 0) then
    let* _ := assert_ (j <? n_lines v) in
    let* x := bit64 (m_lines v) j k in
    if negb (Z.land x (shl64 1 ((endpos - 1) mod 64)) =? 0) then Ok 0 else
    let y := shl64 x (64 - endpos mod 64) in
    if negb (y =? 0) then fast_clz y else scan_back (m_lines v) false j (k - 1) (endpos mod 64)
  else if endpos =? 0 then Ok 0 else scan_back (m_lines v) false j k 0.

(** ** Rank *)

Definition fast_rank1 (ws : list Z) (bitpos : Z) : res Z :=
  let i := bitpos / LineBits in
  let j := bitpos mod LineBits / 64 in
  let* l1 := rlev1 ws i in
  let* l2 := rlev2 ws i j in
  let* w := bit64 ws i j in
  Ok (l1 + l2 + fast_popcount_trail w (bitpos mod 64)).
Definition fast_rank0 (ws : list Z) (bitpos : Z) : res Z :=
  let* r := fast_rank1 ws bitpos in Ok (bitpos - r).
Definition rank1 (v : rank_select_il) (bitpos : Z) : res Z :=
  let* _ := assert_ (bitpos <=? n_lines v * LineBits) in
  let* _ := assert_ (bitpos / LineBits <? n_lines v) in fast_rank1 (m_lines v) bitpos.
Definition rank0 (v : rank_select_il) (bitpos : Z) : res Z :=
  let* r := rank1 v bitpos in Ok (bitpos - r).

(** ** Select; [Q] is the number of cache slots per 256 *)

Definition in_line1 (ws : list Z) (lo Rank1 : Z) : res Z :=
  let* upp := rlev1 ws lo in
  let* _ := assert_ (Rank1 <? upp) in
  let* hit := rlev1 ws (lo - 1) in
  let* _ := assert_ (hit <=? Rank1) in
  let index := (lo - 1) * LineBits in
  let* b1 := rlev2 ws (lo - 1) 1 in
  let* b2 := rlev2 ws (lo - 1) 2 in
  let* b3 := rlev2 ws (lo - 1) 3 in
  let* p := line_select4 (fun j => bit64 ws (lo - 1) j)
    (fun j => if j =? 0 then hit else if j =? 1 then hit + b1 else if j =? 2 then hit + b2 else hit + b3) Rank1 in
  Ok (index + p).

Definition in_line0 (ws : list Z) (lo Rank0 : Z) : res Z :=
  let* upp := key0 ws lo in
  let* _ := assert_ (Rank0 <? upp) in
  let* hit := key0 ws (lo - 1) in
  let index := (lo - 1) * LineBits in
  let* b1 := rlev2 ws (lo - 1) 1 in
  let* b2 := rlev2 ws (lo - 1) 2 in
  let* b3 := rlev2 ws (lo - 1) 3 in
  let* p := line_select4 (fun j => let* w := bit64 ws (lo - 1) j in Ok (not64 w))
    (fun j => if j =? 0 then hit else if j =? 1 then hit + 64 * 1 - b1
              else if j =? 2 then hit + 64 * 2 - b2 else hit + 64 * 3 - b3) Rank0 in
  Ok (index + p).

Definition select0_upper_bound_line (Q : Z) (ws : list Z) (sel0 : option Z) (Rank0 : Z) : res Z :=
  let* lo := rd_sel ws sel0 (Rank0 / (LineBits / Q)) in
  let* hi := rd_sel ws sel0 (Rank0 / (LineBits / Q) + 1) in upper_bound (key0 ws) Rank0 lo hi.
Definition select1_upper_bound_line (Q : Z) (ws : list Z) (sel1 : option Z) (Rank1 : Z) : res Z :=
  let* lo := rd_sel ws sel1 (Rank1 / (LineBits / Q)) in
  let* hi := rd_sel ws sel1 (Rank1 / (LineBits / Q) + 1) in upper_bound (key1 ws) Rank1 lo hi.
Definition fast_select0_q (Q : Z) (ws : list Z) (sel0 : option Z) (Rank0 : Z) : res Z :=
  let* lo := select0_upper_bound_line Q ws sel0 Rank0 in in_line0 ws lo Rank0.
Definition fast_select1_q (Q : Z) (ws : list Z) (sel1 : option Z) (Rank1 : Z) : res Z :=
  let* lo := select1_upper_bound_line Q ws sel1 Rank1 in in_line1 ws lo Rank1.

Definition select0_upper_bound_line_safe (Q : Z) (v : rank_select_il) (Rank0 : Z) : res Z :=
  let* _ := assert_ (Rank0 <? m_max_rank0 v) in
  match m_fast_select0 v with
  | Some _ => select0_upper_bound_line Q (m_lines v) (m_fast_select0 v) Rank0
  | None => upper_bound (key0 (m_lines v)) Rank0 0 (n_lines v)
  end.
Definition select1_upper_bound_line_safe (Q : Z) (v : rank_select_il) (Rank1 : Z) : res Z :=
  let* _ := assert_ (Rank1 <? m_max_rank1 v) in
  match m_fast_select1 v with
  | Some _ => select1_upper_bound_line Q (m_lines v) (m_fast_select1 v) Rank1
  | None => upper_bound (key1 (m_lines v)) Rank1 0 (n_lines v)
  end.
Definition select0_q (Q : Z) (v : rank_select_il) (Rank0 : Z) : res Z :=
  let* lo := select0_upper_bound_line_safe Q v Rank0 in in_line0 (m_lines v) lo Rank0.
Definition select1_q (Q : Z) (v : rank_select_il) (Rank1 : Z) : res Z :=
  let* lo := select1_upper_bound_line_safe Q v Rank1 in in_line1 (m_lines v) lo Rank1.

Definition fast_select0 := fast_select0_q 1.
Definition fast_select1 := fast_select1_q 1.
Definition select0 := select0_q 1.
Definition select1 := select1_q 1.
(** [rank_select_il_256_32_41] *)
Definition fast_select0_41 := fast_select0_q 4.
Definition select0_41 := select0_q 4.

Definition isall0 (v : rank_select_il) : bool := m_max_rank1 v =? 0.
Definition isall1 (v : rank_select_il) : bool := m_max_rank0 v =? 0.
Definition mem_size (v : rank_select_il) : Z := 40 * capacity v.

(** ** Growing and building: [junk] is what new memory holds, [cap_of n] the
    capacity [valvec::ensure_capacity_slow(n)] chooses *)

Section alloc.
Context (junk : nat -> Z) (cap_of : Z -> Z).

Definition realloc_lines (ws : list Z) (cap : Z) : list Z := realloc junk ws (Z.to_nat (5 * cap)).
Definition ensure_capacity (v : rank_select_il) (n : Z) : list Z :=
  if n <=? capacity v then m_lines v else realloc_lines (m_lines v) (cap_of n).

Definition resize (v : rank_select_il) (newsize : Z) (val : bool) : res rank_select_il :=
  let* _ := check_overflow newsize in
  let newlines := BitsToLines newsize in
  let* ws :=
    if newlines <=? n_lines v then Ok (m_lines v)
    else fill_lines (n_lines v) newlines val (ensure_capacity v newlines) in
  Ok (Il ws newlines (m_fast_select0 v) (m_fast_select1 v) (m_max_rank0 v) (m_max_rank1 v) newsize).

Definition resize_no_init (v : rank_select_il) (newsize : Z) : res rank_select_il :=
  let* _ := check_overflow newsize in
  let newlines := BitsToLines newsize in
  Ok (Il (ensure_capacity v newlines) newlines (m_fast_select0 v) (m_fast_select1 v) (m_max_rank0 v) (m_max_rank1 v) newsize).

Definition resize_fill (v : rank_select_il) (newsize : Z) (val : bool) : res rank_select_il :=
  let* _ := check_overflow newsize in
  let newlines := BitsToLines newsize in
  let* ws := fill_lines 0 newlines val (ensure_capacity v newlines) in
  Ok (Il ws newlines (m_fast_select0 v) (m_fast_select1 v) (m_max_rank0 v) (m_max_rank1 v) newsize).

Definition new_filled (nbits : Z) (val : bool) : res rank_select_il := resize_fill empty_il nbits val.
Definition new_no_init (nbits : Z) : res rank_select_il := resize_no_init empty_il nbits.

(** [valvec::reserve], exact *)
Definition new_reserve (nbits : Z) : res rank_select_il :=
  let* _ := check_overflow nbits in
  Ok (Il (realloc_lines [] (BitsToLines nbits)) 0 None None 0 0 0).

Definition push_back_slow_path (v : rank_select_il) (val : bool) : res rank_select_il :=
  let* _ := if 2 ^ 32 - 1 <=? m_size v then Throw terark_die else Ok tt in
  let* ws := wr_line (ensure_capacity v (n_lines v + 1)) (n_lines v) false in
  let v := Il ws (n_lines v + 1) (m_fast_select0 v) (m_fast_select1 v) (m_max_rank0 v) (m_max_rank1 v) (m_size v + 1) in
  set v (m_size v - 1) val.

Definition push_back (v : rank_select_il) (val : bool) : res rank_select_il :=
  let* _ := if 2 ^ 32 - 1 <=? m_size v then Throw terark_die else Ok tt in
  if m_size v <? n_lines v * LineBits then set (with_size v (m_size v + 1)) (m_size v) val
  else push_back_slow_path v val.

Definition shrink_to_fit (v : rank_select_il) : res rank_select_il :=
  let* _ := assert_ (is_none (m_fast_select0 v)) in
  let* _ := assert_ (is_none (m_fast_select1 v)) in
  let* _ := assert_ (m_max_rank0 v =? 0) in
  let* _ := assert_ (m_max_rank1 v =? 0) in
  Ok (with_lines v (realloc_lines (m_lines v) (n_lines v))).

Definition fill_rank_cache (nlines : Z) (ws : list Z) : res (list Z * Z) :=
  for_ 0 nlines (fun i '(ws, Rank1) =>
    let* ws := wrf 32 ws (10 * i) Rank1 in
    let* (ws, inc) := for_ 0 4 (fun j '(ws, inc) =>
      let* ws := wrf 8 ws (40 * i + 4 + j) inc in
      let* w := bit64 ws i j in Ok (ws, inc + fast_popcount w)) (ws, 0) in
    Ok (ws, Rank1 + inc)) (ws, 0).

(** [(max_rank + LineBits - 1) / (LineBits/(Q?Q:1))] *)
Definition slots_q (Q max_rank : Z) : Z := (max_rank + LineBits - 1) / (LineBits / (if Q =? 0 then 1 else Q)).

Definition build_cache_q (Q0 Q1 : Z) (v : rank_select_il) : res rank_select_il :=
  let* _ := check_overflow (m_size v) in
  let* _ := assert_ (is_none (m_fast_select0 v)) in
  let* _ := assert_ (is_none (m_fast_select1 v)) in
  let* _ := assert_ (m_max_rank0 v =? 0) in
  let* _ := assert_ (m_max_rank1 v =? 0) in
  let speed_select0 := negb (Q0 =? 0) in
  let speed_select1 := negb (Q1 =? 0) in
  let* ws :=
    if negb (m_size v mod LineBits =? 0) then
      let* _ := assert_ (0 <? n_lines v) in
      let base := 64 * (5 * (n_lines v - 1) + 1) in
      bits_range_set0 (m_lines v) (base + m_size v mod LineBits) (base + LineBits)
    else Ok (m_lines v) in
  let* v := shrink_to_fit (with_lines v ws) in
  let n := n_lines v in
  let* (ws, Rank1) := fill_rank_cache n (m_lines v) in
  let max_rank0 := m_size v - Rank1 in
  let max_rank1 := Rank1 in
  let select0_slots := slots_q Q0 max_rank0 in
  let select1_slots := slots_q Q1 max_rank1 in
  let u32_slots := (if speed_select0 then select0_slots + 1 else 0)
                   + (if speed_select1 then select1_slots + 1 else 0) in
  let cap := n + 1 + (u32_slots + 2 + 10 - 1) / 10 in
  let ws := realloc_lines ws cap in
  let* ws := for_ 0 5 (fun k ws => wr ws (5 * n + k) 0) ws in
  let* ws := wrf 32 ws (10 * n) Rank1 in
  let select_index := 10 * (n + 1) in
  let* ws := if speed_select0 then build_sel key0 (LineBits / Q0) select_index select0_slots n ws else Ok ws in
  let select_index1 := if speed_select0 then select_index + (select0_slots + 1) else select_index in
  let* ws := if speed_select1 then build_sel key1 (LineBits / Q1) select_index1 select1_slots n ws else Ok ws in
  let flags := Z.lor (Z.lor (Z.shiftl (m_size v) 8) (Z.shiftl (Z.b2z speed_select1) 1)) (Z.b2z speed_select0) in
  let* ws := wr ws (5 * cap - 1) flags in
  Ok (Il ws n (if speed_select0 then Some select_index else None)
        (if speed_select1 then Some select_index1 else None) max_rank0 max_rank1 (m_size v)).

Definition build_cache (s0 s1 : bool) (v : rank_select_il) : res rank_select_il :=
  build_cache_q (Z.b2z s0) (Z.b2z s1) v.
Definition build_cache_41 (s0 s1 : bool) (v : rank_select_il) : res rank_select_il :=
  build_cache_q (if s0 then 4 else 0) (Z.b2z s1) v.
End alloc.

(** [risk_mmap_from], also that of the [_41] variant, which inherits it *)
Definition risk_mmap_from (ws : list Z) : res rank_select_il :=
  let* _ := assert_ (Z.of_nat (length ws) mod 5 =? 0) in
  let* flags := rd ws (Z.of_nat (length ws) - 1) in
  let m_size := Z.shiftr flags 8 in
  let nlines := (m_size + LineBits - 1) / LineBits in
  let* max_rank1 := rlev1 ws nlines in
  let max_rank0 := m_size - max_rank1 in
  let select0_slots := (max_rank0 + LineBits - 1) / LineBits in
  let select_index := 10 * (nlines + 1) in
  let has0 := negb (Z.land flags 1 =? 0) in
  let has1 := negb (Z.land flags 2 =? 0) in
  Ok (Il ws nlines (if has0 then Some select_index else None)
        (if has1 then Some (if has0 then select_index + (select0_slots + 1) else select_index) else None)
        max_rank0 max_rank1 m_size).

(** The class with [Q] slots per 256 in the cache of zeros; [fast] takes the
    unchecked rank functions. *)
Definition il_ops (Q : Z) (fast : bool) : RankSelect rank_select_il := {|
  rs_size := m_size; rs_is1 := is1;
  rs_rank0 := fun v p => if fast then fast_rank0 (m_lines v) p else rank0 v p;
  rs_rank1 := fun v p => if fast then fast_rank1 (m_lines v) p else rank1 v p;
  rs_select0 := select0_q Q; rs_select1 := select1; rs_max_rank0 := m_max_rank0; rs_max_rank1 := m_max_rank1 |}.
#[export] Instance il_rs : RankSelect rank_select_il := il_ops 1 false.

(** [rank_select_il_256_32] or, when [b41], [rank_select_il_256_32_41]. *)
Definition q_of (b41 : bool) : Z := if b41 then 4 else 1.
Definition build_of (b41 : bool) (junk : nat -> Z) := if b41 then build_cache_41 junk else build_cache junk.

(** ** Operations that edit a vector, and what they mean on lists *)

Inductive il_op :=
| IlSet (i : Z) (b : bool) | IlSetRange (i n : Z) (b : bool) | IlPushBack (b : bool) | IlPopBack
| IlFill (b : bool) | IlShrink (n : Z) (b : bool).

Definition il_exec_op (junk : nat -> Z) (cap_of : Z -> Z) (o : il_op) (v : rank_select_il) : res rank_select_il :=
  match o with
  | IlSet i b => set v i b
  | IlSetRange i n b => set_range v i n b
  | IlPushBack b => push_back junk cap_of v b
  | IlPopBack => pop_back v
  | IlFill b => fill v b
  | IlShrink n b => resize junk cap_of v n b
  end.

Fixpoint il_exec (junk : nat -> nat -> Z) (cap_of : Z -> Z) (os : list il_op) (v : rank_select_il) : res rank_select_il :=
  match os with
  | [] => Ok v
  | o :: os => let* v := il_exec_op (junk O) cap_of o v in il_exec (fun k => junk (S k)) cap_of os v
  end.

Definition il_spec_op (o : il_op) (l : list bool) : option (list bool) :=
  match o with
  | IlSet i b => if decide (0 <= i < len l) then Some (<[Z.to_nat i := b]> l) else None
  | IlSetRange i n b => if decide (0 <= i /\ 0 <= n /\ i + n <= len l)
      then Some (take (Z.to_nat i) l ++ replicate (Z.to_nat n) b ++ drop (Z.to_nat (i + n)) l) else None
  | IlPushBack b => if decide (len l < 2 ^ 32 - 1) then Some (l ++ [b]) else None
  | IlPopBack => if decide (0 < len l) then Some (take (length l - 1) l) else None
  | IlFill b => Some (replicate (length l) b)
  | IlShrink n b => if decide (0 <= n <= len l) then Some (take (Z.to_nat n) l) else None
  end.

Fixpoint il_spec (os : list il_op) (l : list bool) : option (list bool) :=
  match os with [] => Some l | o :: os => l ← il_spec_op o l; il_spec os l end.

(** ** The bits of the block as one array of words *)

Definition iword (ws : list Z) (q : Z) : Z := word_at ws (5 * (q / 4) + 1 + q mod 4).
Definition flat (ws : list Z) (n : Z) : list Z := map (iword ws) (seqZ 0 (4 * n)).

Lemma flat_length ws n : 0 <= n -> Z.of_nat (length (flat ws n)) = 4 * n.
Proof. intros. unfold flat. rewrite length_map, length_seqZ. lia. Qed.

Lemma flat_at ws n q : 0 <= q < 4 * n -> word_at (flat ws n) q = iword ws q.
Proof.
  intros Hq. unfold flat, word_at at 1. rewrite nth_lookup, list_lookup_fmap, lookup_seqZ_lt by lia.
  cbn. f_equal. lia.
Qed.

Lemma flat_words ws n : words ws -> words (flat ws n).
Proof. intros Hw. unfold flat. apply Forall_map, List.Forall_forall. intros q _. by apply word_at_word64. Qed.

Lemma divmod4 i j : 0 <= j < 4 -> (4 * i + j) / 4 = i /\ (4 * i + j) mod 4 = j.
Proof. intros Hj. split; symmetry; [apply (Z.div_unique _ _ _ j)|apply (Z.mod_unique _ _ i)]; lia. Qed.

Lemma bit64_ok ws n i j : 0 <= i < n -> 0 <= j < 4 -> 5 * n <= Z.of_nat (length ws) ->
  bit64 ws i j = Ok (word_at (flat ws n) (4 * i + j)).
Proof.
  intros Hi Hj Hl. unfold bit64. rewrite rd_word, flat_at by lia. unfold iword.
  destruct (divmod4 i j Hj) as [-> ->]. done.
Qed.

Lemma flat_eq ws ws' n : (forall i j, 0 <= i < n -> 0 <= j < 4 -> word_at ws' (5 * i + 1 + j) = word_at ws (5 * i + 1 + j)) ->
  flat ws' n = flat ws n.
Proof.
  intros H. unfold flat. apply map_seqZ_ext. intros q Hq. unfold iword. apply H.
  - split; [apply Z.div_pos; lia|apply Z.div_lt_upper_bound; lia].
  - apply Z.mod_pos_bound. lia.
Qed.

(** A change inside the head of line [k] (its first word), or behind the lines. *)
Lemma flat_same_out ws ws' a b n : same_out ws ws' a b -> words ws ->
  (exists k, 320 * k <= a /\ b <= 320 * k + 64) \/ 320 * n <= a -> flat ws' n = flat ws n.
Proof.
  intros O Hw Hd. apply flat_eq. intros i j Hi Hj. eapply same_out_word; [exact O|done|lia|].
  destruct Hd as [(k & H1 & H2)|]; lia.
Qed.

Lemma flat_bit ws n p : 0 <= p < 256 * n -> bit_at (flat ws n) p = bit_at ws (pos_of p).
Proof.
  intros Hp. unfold bit_at. pose proof (Z.div_mod p 64 ltac:(lia)). pose proof (mod64_range p).
  rewrite flat_at by (split; [apply Z.div_pos|apply Z.div_lt_upper_bound]; lia). unfold iword, pos_of, LineBits.
  assert (E : p / 64 / 4 = p / 256) by (rewrite Z.div_div by lia; reflexivity). rewrite E.
  pose proof (Z.div_mod p 256 ltac:(lia)). pose proof (Z.mod_pos_bound p 256 ltac:(lia)).
  pose proof (Z.div_mod (p / 64) 4 ltac:(lia)). pose proof (Z.mod_pos_bound (p / 64) 4 ltac:(lia)).
  assert (E2 : 64 * (5 * (p / 256) + 1) + p mod 256 = p mod 64 + 64 * (5 * (p / 256) + 1 + (p / 64) mod 4)) by lia.
  rewrite E2. set (a := p mod 64) in *. set (c := 5 * (p / 256) + 1 + (p / 64) mod 4).
  rewrite (div_add_mul a 64 c), (mod_add_mul a 64 c), Z.div_small, (Z.mod_small a 64) by lia. by rewrite Z.add_0_l.
Qed.

(** Memory that agrees below [n] lines has the same bits. *)
Lemma flat_prefix ws ws' n : words ws -> words ws' ->
  (forall p, 0 <= p < 320 * n -> bit_at ws' p = bit_at ws p) -> flat ws' n = flat ws n.
Proof.
  intros Hw Hw' H. apply flat_eq. intros i j Hi Hj.
  apply word64_eq; [by apply word_at_word64..|]. intros m Hm. rewrite <- !bit_at_word by done. apply H. lia.
Qed.

(** ** The cache *)

Record cache_ok (ws : list Z) (f : Z -> bool) (n : Z) : Prop := {
  cache_lev1 : forall i, 0 <= i <= n -> fld 32 ws (10 * i) = rank f (256 * i);
  cache_lev2 : forall i j, 0 <= i < n -> 0 <= j < 4 ->
    fld 8 ws (40 * i + 4 + j) = rank f (256 * i + 64 * j) - rank f (256 * i);
  cache_last : forall j, 0 <= j < 4 -> fld 8 ws (40 * n + 4 + j) = 0 }.

Lemma il_cache_ok_frame ws ws' f n a b : cache_ok ws f n -> same_out ws ws' a b -> 0 <= n -> 320 * (n + 1) <= a ->
  cache_ok ws' f n.
Proof.
  intros [H1 H2 H3] O Hn Ha. split.
  - intros i Hi. rewrite (same_out_fld ws ws' a b 32 _ O) by (auto with word64 || lia). auto.
  - intros i j Hi Hj. rewrite (same_out_fld ws ws' a b 8 _ O) by (auto with word64 || lia). auto.
  - intros j Hj. rewrite (same_out_fld ws ws' a b 8 _ O) by (auto with word64 || lia). auto.
Qed.

(** The loop over the words of line [i]; [F] are the bits. *)
Lemma il_fill_lev2_ok ws n i : words ws -> 0 <= i < n -> 5 * n <= Z.of_nat (length ws) ->
  let f := bit_at (flat ws n) in
  exists ws', for_ 0 4 (fun j '(ws, inc) =>
      let* ws := wrf 8 ws (40 * i + 4 + j) inc in
      let* w := bit64 ws i j in Ok (ws, inc + fast_popcount w)) (ws, 0) =
    Ok (ws', rank f (256 * (i + 1)) - rank f (256 * i)) /\
    same_out ws ws' (320 * i + 32) (320 * i + 64) /\
    forall j, 0 <= j < 4 -> fld 8 ws' (40 * i + 4 + j) = rank f (256 * i + 64 * j) - rank f (256 * i).
Proof.
  intros Hw Hi Hl f.
  match goal with |- context [for_ 0 4 ?body _] =>
    destruct (for_inv (fun j '(w, r) => r = rank f (256 * i + 64 * j) - rank f (256 * i) /\
      same_out ws w (320 * i + 32) (320 * i + 64) /\
      forall k, 0 <= k < j -> fld 8 w (40 * i + 4 + k) = rank f (256 * i + 64 * k) - rank f (256 * i))
      body 0 4 (ws, 0)) as ((ws' & r) & -> & -> & O & F) end.
  - lia.
  - split; [rewrite Z.mul_0_r, Z.add_0_r; lia|]. split; [by apply same_out_refl|]. intros; lia.
  - intros j [w r] Hj (-> & O & F). pose proof O as (Lw & Ww & _).
    assert (Hr : 0 <= rank f (256 * i + 64 * j) - rank f (256 * i) < 2 ^ 8).
    { pose proof (rank_mono f (256 * i) (256 * i + 64 * j)). pose proof (rank_step f (256 * i) (256 * i + 64 * j)). lia. }
    destruct (wrf_ok 8 w (40 * i + 4 + j) (rank f (256 * i + 64 * j) - rank f (256 * i)))
      as (w' & -> & P); [auto with word64|done|lia..|]. cbn [rbind].
    assert (O' : same_out ws w' (320 * i + 32) (320 * i + 64)) by (eapply same_out_put; [exact O|exact P|lia|lia]).
    pose proof O' as (Lw' & _ & _). rewrite (bit64_ok w' n) by lia. cbn [rbind]. eexists. split; [done|].
    split; [|split; [done|]].
    + rewrite (flat_same_out ws w' _ _ n O' Hw) by (left; exists i; lia).
      pose proof (rank_words (flat ws n) (4 * i + j) ltac:(lia)) as R. fold f in R.
      replace (64 * (4 * i + j + 1)) with (256 * i + 64 * (j + 1)) in R by lia.
      replace (64 * (4 * i + j)) with (256 * i + 64 * j) in R by lia. lia.
    + intros k Hk. destruct (decide (k = j)) as [->|].
      * apply (fld_same 8 w w'); [auto with word64|lia|done|exact P].
      * rewrite (fld_frame 8 w w' _ _ _ (40 * i + 4 + k) width8 ltac:(lia) P) by lia. apply F. lia.
  - exists ws'. replace (256 * i + 64 * 4) with (256 * (i + 1)) by lia. done.
Qed.

Lemma il_fill_rank_cache_ok ws n sz : words ws -> 0 <= n -> 5 * n <= Z.of_nat (length ws) -> 0 <= sz < 2 ^ 32 ->
  let f := bit_at (flat ws n) in (forall p, sz <= p < 256 * n -> f p = false) ->
  exists ws', fill_rank_cache n ws = Ok (ws', rank f (256 * n)) /\
    length ws' = length ws /\ words ws' /\ flat ws' n = flat ws n /\
    (forall i, 0 <= i < n -> fld 32 ws' (10 * i) = rank f (256 * i)) /\
    (forall i j, 0 <= i < n -> 0 <= j < 4 -> fld 8 ws' (40 * i + 4 + j) = rank f (256 * i + 64 * j) - rank f (256 * i)).
Proof.
  intros Hw Hn Hl Hsz f Hz. unfold fill_rank_cache.
  assert (Hr : forall i, 0 <= i <= n -> 0 <= rank f (256 * i) < 2 ^ 32).
  { intros i Hi. split; [pose proof (rank_bounds f (256 * i)); lia|].
    apply (RankSimple.rank_lt_2_32 _ sz); [lia|lia| |lia]. intros p Hp. apply Hz. lia. }
  match goal with |- context [for_ 0 n ?body _] =>
    destruct (for_inv (fun i '(w, R) => R = rank f (256 * i) /\ (length w = length ws /\ words w /\ flat w n = flat ws n) /\
      (forall k, 0 <= k < i -> fld 32 w (10 * k) = rank f (256 * k)) /\
      (forall k j, 0 <= k < i -> 0 <= j < 4 ->
        fld 8 w (40 * k + 4 + j) = rank f (256 * k + 64 * j) - rank f (256 * k))) body 0 n (ws, 0))
      as ((ws' & R) & -> & -> & (L & W & E) & F1 & F2) end; [done| | |by exists ws'].
  - split; [done|]. split; [done|]. split; intros; lia.
  - intros i [w R] Hi (-> & (Lw & Ww & Ew) & F1 & F2).
    destruct (wrf_ok 32 w (10 * i) (rank f (256 * i))) as (w1 & -> & P); [auto with word64|done|lia|lia|apply Hr; lia|].
    cbn [rbind]. pose proof (same_out_of_put _ _ _ _ _ Ww P) as O1. pose proof O1 as (Lw1 & Ww1 & _).
    assert (E1 : flat w1 n = flat ws n).
    { rewrite <- Ew. apply (flat_same_out w w1 _ _ n O1 Ww). left. exists i. lia. }
    destruct (il_fill_lev2_ok w1 n i) as (w2 & E2 & O2 & G2); [done|lia|lia|]. cbn zeta in *. rewrite E1 in E2, G2. fold f in E2, G2.
    rewrite E2. cbn [rbind]. pose proof O2 as (Lw2 & Ww2 & _). eexists. split; [done|]. split; [lia|]. split.
    { split; [congruence|]. split; [done|]. rewrite <- E1. apply (flat_same_out w1 w2 _ _ n O2 Ww1). left. exists i. lia. }
    split.
    + intros k Hk. rewrite (same_out_fld w1 w2 _ _ 32 _ O2) by (auto with word64 || lia).
      destruct (decide (k = i)) as [->|]; [by apply (fld_same 32 w w1); [auto with word64|lia|apply Hr; lia|]|].
      rewrite (fld_frame 32 w w1 _ _ _ (10 * k) width32 ltac:(lia) P) by lia. apply F1. lia.
    + intros k j Hk Hj. destruct (decide (k = i)) as [->|]; [by apply G2|].
      rewrite (same_out_fld w1 w2 _ _ 8 _ O2) by (auto with word64 || lia).
      rewrite (fld_frame 8 w w1 _ _ _ (40 * k + 4 + j) width8 ltac:(lia) P) by lia. apply F2; lia.
Qed.

(** ** [build_cache_q], stage by stage *)

Definition wf (v : rank_select_il) : Prop :=
  words (m_lines v) /\ 0 <= m_size v < 2 ^ 32 /\ n_lines v = BitsToLines (m_size v) /\
  5 * n_lines v <= Z.of_nat (length (m_lines v)).

(** The bits of the vector. *)
Definition bits (v : rank_select_il) : list bool := map (bit_at (flat (m_lines v) (n_lines v))) (seqZ 0 (m_size v)).

Lemma lines_bounds sz : 0 <= sz -> 0 <= BitsToLines sz /\ sz <= 256 * BitsToLines sz < sz + 256.
Proof.
  intros H. unfold BitsToLines, LineBits. pose proof (Z.div_mod (sz + 256 - 1) 256 ltac:(lia)).
  pose proof (Z.mod_pos_bound (sz + 256 - 1) 256 ltac:(lia)). lia.
Qed.

Lemma clear_tail_ok ws n sz : words ws -> 0 <= sz -> n = BitsToLines sz -> 5 * n <= Z.of_nat (length ws) ->
  exists ws',
    (if negb (sz mod LineBits =? 0) then
       let* _ := assert_ (0 <? n) in
       let base := 64 * (5 * (n - 1) + 1) in
       bits_range_set0 ws (base + sz mod LineBits) (base + LineBits)
     else Ok ws) = Ok ws' /\
    length ws' = length ws /\ words ws' /\
    (forall p, 0 <= p < sz -> bit_at (flat ws' n) p = bit_at (flat ws n) p) /\
    (forall p, sz <= p < 256 * n -> bit_at (flat ws' n) p = false).
Proof.
  intros Hw Hs -> Hl. pose proof (lines_bounds sz Hs) as [Hn Hn']. set (n := BitsToLines sz) in *. unfold LineBits.
  pose proof (Z.div_mod sz 256 ltac:(lia)). pose proof (Z.mod_pos_bound sz 256 ltac:(lia)).
  destruct (Z.eqb_spec (sz mod 256) 0) as [E|E]; cbn [negb].
  { exists ws. do 4 (split; [done|]). intros; lia. }
  rewrite (proj2 (Z.ltb_lt _ _)) by lia. cbn [assert_ rbind].
  destruct (bits_range_set0_ok ws (64 * (5 * (n - 1) + 1) + sz mod 256) (64 * (5 * (n - 1) + 1) + 256))
    as (w & -> & L & W & B); [done|lia|lia|]. exists w. do 3 (split; [done|]).
  assert (Hp : forall p, 0 <= p < 256 * n -> bit_at (flat w n) p = if sz <=? p then false else bit_at (flat ws n) p).
  { intros p Hp. rewrite !flat_bit by done. unfold pos_of, LineBits.
    pose proof (Z.div_mod p 256 ltac:(lia)). pose proof (Z.mod_pos_bound p 256 ltac:(lia)). rewrite B by lia.
    destruct (Z.leb_spec (64 * (5 * (n - 1) + 1) + sz mod 256) (64 * (5 * (p / 256) + 1) + p mod 256)),
      (Z.ltb_spec (64 * (5 * (p / 256) + 1) + p mod 256) (64 * (5 * (n - 1) + 1) + 256)), (Z.leb_spec sz p); (lia || done). }
  split; intros p Hp'; rewrite Hp by lia; destruct (Z.leb_spec sz p); (lia || done).
Qed.

Lemma realloc_lines_ok junk ws n cap : (forall j, word64 (junk j)) -> words ws -> 0 <= n <= cap ->
  5 * n <= Z.of_nat (length ws) ->
  let ws' := realloc_lines junk ws cap in
  Z.of_nat (length ws') = 5 * cap /\ words ws' /\ flat ws' n = flat ws n /\
  forall p, 0 <= p < 320 * n -> bit_at ws' p = bit_at ws p.
Proof.
  intros Hj Hw Hn Hl ws'. destruct (realloc_ok junk Hj ws (Z.to_nat (5 * cap)) Hw) as (L & W & B).
  change (realloc junk ws (Z.to_nat (5 * cap))) with ws' in L, W, B.
  assert (Hb : forall p, 0 <= p < 320 * n -> bit_at ws' p = bit_at ws p) by (intros; apply B; lia).
  split; [lia|]. split; [done|]. split; [by apply flat_prefix|done].
Qed.

(** The extra line: zeroed, then the total. *)
Lemma extra_line_ok ws n R : words ws -> 0 <= n -> 5 * (n + 1) <= Z.of_nat (length ws) -> 0 <= R < 2 ^ 32 ->
  exists ws1 ws2, for_ 0 5 (fun k ws => wr ws (5 * n + k) 0) ws = Ok ws1 /\ wrf 32 ws1 (10 * n) R = Ok ws2 /\
    same_out ws ws2 (320 * n) (320 * (n + 1)) /\ fld 32 ws2 (10 * n) = R /\
    forall j, 0 <= j < 4 -> fld 8 ws2 (40 * n + 4 + j) = 0.
Proof.
  intros Hw Hn Hl HR.
  destruct (for_inv (fun k w => same_out ws w (320 * n) (320 * (n + 1)) /\
      forall p, 320 * n <= p < 64 * (5 * n + k) -> bit_at w p = false) (fun k ws => wr ws (5 * n + k) 0) 0 5 ws)
    as (w1 & E1 & O1 & Z1).
  - lia.
  - split; [by apply same_out_refl|]. intros; lia.
  - intros k w Hk (O & Zk). pose proof O as (L & W & B). rewrite wr_ok by lia. eexists. split; [done|].
    assert (P : range_put w (<[Z.to_nat (5 * n + k) := 0]> w) (64 * (5 * n + k)) (64 * (5 * n + k) + 64) (fun _ => false)).
    { apply range_put_word; [done|lia|unfold word64; lia|lia|lia|]. intros m Hm. rewrite Z.bits_0.
      destruct (Z.leb_spec (64 * (5 * n + k)) (64 * (5 * n + k) + m)), (Z.ltb_spec (64 * (5 * n + k) + m) (64 * (5 * n + k) + 64));
        (lia || done). }
    split; [eapply same_out_put; [exact O|exact P|lia|lia]|]. intros p Hp. destruct P as (_ & _ & Bp). rewrite Bp by lia.
    destruct (Z.leb_spec (64 * (5 * n + k)) p), (Z.ltb_spec p (64 * (5 * n + k) + 64)); try lia; cbn [andb]; try done.
    apply Zk. lia.
  - pose proof O1 as (L1 & W1 & _).
    destruct (wrf_ok 32 w1 (10 * n) R) as (w2 & E2 & P2); [auto with word64|done|lia|lia|lia|].
    exists w1, w2. split; [exact E1|]. split; [exact E2|]. split; [eapply same_out_put; [exact O1|exact P2|lia|lia]|].
    split; [by apply (fld_same 32 w1 w2); [auto with word64|lia| |]|]. intros j Hj. apply Z.bits_inj'. intros m Hm.
    rewrite testbit_fld, Z.bits_0 by (auto with word64 || lia). destruct (Z.ltb_spec m 8); [|done]. cbn [andb].
    destruct P2 as (_ & _ & B2). rewrite B2 by lia. set (p := 8 * (40 * n + 4 + j) + m).
    destruct (Z.leb_spec (32 * (10 * n)) p), (Z.ltb_spec p (32 * (10 * n) + 32)); try lia; cbn [andb]; apply Z1; lia.
Qed.

(** ** Reading a cache *)

Section cache.
Context (ws : list Z) (f : Z -> bool) (n : Z) (Hn : 0 <= n) (C : cache_ok ws f n) (Hlen : 5 * (n + 1) <= Z.of_nat (length ws)).

Lemma rlev1_ok i : 0 <= i <= n -> rlev1 ws i = Ok (rank f (256 * i)).
Proof. intros Hi. unfold rlev1. rewrite rdf_ok by (auto with word64 || lia). by rewrite (cache_lev1 _ _ _ C). Qed.

Lemma rlev2_ok i j : 0 <= i < n -> 0 <= j < 4 -> rlev2 ws i j = Ok (rank f (256 * i + 64 * j) - rank f (256 * i)).
Proof. intros Hi Hj. unfold rlev2. rewrite rdf_ok by (auto with word64 || lia). by rewrite (cache_lev2 _ _ _ C). Qed.

Lemma rlev2_last j : 0 <= j < 4 -> rlev2 ws n j = Ok 0.
Proof. intros Hj. unfold rlev2. rewrite rdf_ok by (auto with word64 || lia). by rewrite (cache_last _ _ _ C). Qed.

Lemma il_key0_ok i : 0 <= i <= n -> key0 ws i = Ok (Kzeros f 256 i).
Proof. intros Hi. unfold key0. by rewrite rlev1_ok. Qed.
End cache.

Lemma slots_q_bounds Q L m : 0 <= m -> L = 256 / (if Q =? 0 then 1 else Q) -> 0 < L <= 256 ->
  0 <= slots_q Q m /\ m <= L * slots_q Q m < m + 256.
Proof.
  intros Hm HL Hb. unfold slots_q, LineBits. rewrite <- HL.
  pose proof (Z.div_mod (m + 256 - 1) L ltac:(lia)). pose proof (Z.mod_pos_bound (m + 256 - 1) L ltac:(lia)).
  split; [apply Z.div_pos; lia|]. nia.
Qed.

(** The choices of the source: [build_cache] passes 0 or 1, the [_41] variant 4. *)
Definition Q0_ok (Q0 : Z) : Prop := Q0 = 0 \/ Q0 = 1 \/ Q0 = 4.
Definition Q1_ok (Q1 : Z) : Prop := Q1 = 0 \/ Q1 = 1.
Definition Lq (Q : Z) : Z := 256 / (if Q =? 0 then 1 else Q).

Lemma Lq_bounds Q : Q0_ok Q -> 0 < Lq Q <= 256 /\ (Q <> 0 -> LineBits / Q = Lq Q).
Proof. intros [->|[->| ->]]; (split; [vm_compute; split; congruence|done]). Qed.

(** Select caches and flags. *)
Lemma il_finish_ok ws f n sz Q0 Q1 cap : words ws -> 0 <= n < 2 ^ 31 -> 0 <= sz < 2 ^ 32 -> sz <= 256 * n ->
  (forall p, sz <= p < 256 * n -> f p = false) -> cache_ok ws f n -> Q0_ok Q0 -> Q1_ok Q1 ->
  let m1 := rank f sz in let m0 := sz - rank f sz in
  let s0 := negb (Q0 =? 0) in let s1 := negb (Q1 =? 0) in
  let a := if s0 then slots_q Q0 m0 + 1 else 0 in let b := if s1 then slots_q Q1 m1 + 1 else 0 in
  Z.of_nat (length ws) = 5 * cap -> 10 * (n + 1) + a + b + 2 <= 10 * cap ->
  let idx := 10 * (n + 1) in let idx1 := if s0 then idx + (slots_q Q0 m0 + 1) else idx in
  exists ws1 ws2 ws3,
    (if s0 then build_sel key0 (LineBits / Q0) idx (slots_q Q0 m0) n ws else Ok ws) = Ok ws1 /\
    (if s1 then build_sel key1 (LineBits / Q1) idx1 (slots_q Q1 m1) n ws1 else Ok ws1) = Ok ws2 /\
    wr ws2 (5 * cap - 1) (flags_of sz s0 s1) = Ok ws3 /\
    same_out ws ws3 (320 * (n + 1)) (320 * cap) /\
    sel_built ws3 (Kzeros f 256) (Lq Q0) (slots_q Q0 m0) n (if s0 then Some idx else None) /\
    sel_built ws3 (Kones f 256) (Lq Q1) (slots_q Q1 m1) n (if s1 then Some idx1 else None) /\
    word_at ws3 (5 * cap - 1) = flags_of sz s0 s1.
Proof.
  intros Hw Hn Hsz Hle Hz C HQ0 HQ1 m1 m0 s0 s1 a b Hlen Hcap idx idx1.
  assert (Hm : 0 <= m1 <= sz) by (apply rank_bounds; lia). assert (Hm0 : 0 <= m0) by (subst m0 m1; lia).
  destruct (Lq_bounds Q0 HQ0) as [HL0 EL0].
  assert (HL1 : Lq Q1 = 256 /\ (s1 = true -> LineBits / Q1 = 256)) by (destruct HQ1 as [->| ->]; done).
  pose proof (slots_q_bounds Q0 (Lq Q0) m0 Hm0 eq_refl HL0) as [B0 B0'].
  pose proof (slots_q_bounds Q1 (Lq Q1) m1 ltac:(lia) eq_refl ltac:(lia)) as [B1 B1'].
  assert (Hmax : rank f (256 * n) = m1) by (apply RankSimple.rank_pad; [lia|done]).
  assert (Ha : 0 <= a) by (subst a; destruct s0; lia). assert (Hb : 0 <= b) by (subst b; destruct s1; lia).
  assert (Hkey : forall w, same_out ws w (320 * (n + 1)) (320 * cap) -> cache_ok w f n /\ 5 * (n + 1) <= Z.of_nat (length w)).
  { intros w O. pose proof O as (L & _). split; [|lia]. eapply il_cache_ok_frame; [exact C|exact O|lia|lia]. }
  destruct (sel_stage_ok s0 key0 (Kzeros f 256) (256 * (n + 1)) (Lq Q0) idx (slots_q Q0 m0) n ws)
    as (ws1 & E1 & O1 & S1); [done|lia|done|fold a; lia|lia|lia|done| |right|].
  { intros w i O Hi. destruct (Hkey w) as [Cw Lw]; [eapply same_out_weak; [exact O|lia|lia]|]. by apply (il_key0_ok w f n). }
  { split; [nia|]. intros w O Hlw Hf. unfold key0, rlev1. rewrite rdf_ok by (auto with word64 || lia). cbn [rbind].
    change (10 * (n + 1)) with idx. rewrite Hf. unfold LineBits. f_equal. lia. }
  fold a in O1. pose proof O1 as (L1 & W1 & _).
  assert (O1' : same_out ws ws1 (320 * (n + 1)) (320 * cap)) by (eapply same_out_weak; [exact O1|subst idx; lia|lia]).
  assert (Hidx : idx1 = idx + a) by (subst idx1 a; destruct s0; lia).
  destruct (sel_stage_ok s1 key1 (Kones f 256) 0 (Lq Q1) idx1 (slots_q Q1 m1) n ws1)
    as (ws2 & E2 & O2 & S2); [done|lia|done|fold b; lia|lia|lia|done| |left|].
  { intros w i O Hi. destruct (Hkey w) as [Cw Lw].
    { eapply same_out_trans; [exact O1'|]. eapply same_out_weak; [exact O|subst idx; lia|lia]. }
    unfold key1. by apply (rlev1_ok w f n). }
  { intros _. unfold Kones. rewrite Hmax. lia. }
  fold b in O2. pose proof O2 as (L2 & W2 & _). pose proof (flags_range sz s0 s1 Hsz) as Hf.
  assert (Hq : 0 <= 5 * cap - 1 < Z.of_nat (length ws2)) by lia.
  assert (P3 : range_put ws2 (<[Z.to_nat (5 * cap - 1) := flags_of sz s0 s1]> ws2) (64 * (5 * cap - 1)) (320 * cap)
     (fun p => Z.testbit (flags_of sz s0 s1) (p - 64 * (5 * cap - 1)))).
  { apply range_put_word; [done|lia|done|lia|lia|]. intros m Hm0'.
    destruct (Z.leb_spec (64 * (5 * cap - 1)) (64 * (5 * cap - 1) + m)), (Z.ltb_spec (64 * (5 * cap - 1) + m) (320 * cap)); try lia.
    cbn [andb]. f_equal. lia. }
  set (ws3 := <[_ := _]> ws2) in *. pose proof (same_out_of_put _ _ _ _ _ W2 P3) as O3.
  exists ws1, ws2, ws3. split; [|split; [|split; [by apply wr_ok|]]].
  { destruct s0 eqn:Es0; [|done]. by rewrite EL0 by (subst s0; destruct (Z.eqb_spec Q0 0); done). }
  { destruct s1 eqn:Es1; [|done]. destruct HL1 as [<- HL1]. by rewrite HL1. }
  split.
  { eapply same_out_trans; [exact O1'|]. eapply same_out_trans; (eapply same_out_weak; [eassumption|lia|lia]). }
  split; [|split].
  - eapply sel_built_frame; [|exact O3|]; [|destruct s0; [intros ? [= <-]; lia|done]].
    eapply sel_built_frame; [exact S1|exact O2|]. destruct s0; [intros ? [= <-]; subst a; lia|done].
  - eapply sel_built_frame; [exact S2|exact O3|]. destruct s1; [intros ? [= <-]; subst b; lia|done].
  - subst ws3. rewrite word_at_insert by lia. by rewrite decide_True.
Qed.

(** The rank cache of the lines, the second reservation and the extra line. *)
Lemma whole_il_cache_ok junk ws n sz cap : (forall j, word64 (junk j)) -> words ws -> 0 <= n -> n + 1 <= cap ->
  Z.of_nat (length ws) = 5 * n -> 0 <= sz < 2 ^ 32 -> sz <= 256 * n ->
  let f := bit_at (flat ws n) in (forall p, sz <= p < 256 * n -> f p = false) ->
  exists w1 w2 w3, fill_rank_cache n ws = Ok (w1, rank f sz) /\
    for_ 0 5 (fun k ws => wr ws (5 * n + k) 0) (realloc_lines junk w1 cap) = Ok w2 /\
    wrf 32 w2 (10 * n) (rank f sz) = Ok w3 /\
    Z.of_nat (length w3) = 5 * cap /\ words w3 /\ flat w3 n = flat ws n /\ cache_ok w3 f n.
Proof.
  intros Hj Hw Hn Hcap Hl Hsz Hle f Hz.
  assert (Hmax : rank f (256 * n) = rank f sz) by (apply RankSimple.rank_pad; [lia|done]).
  destruct (il_fill_rank_cache_ok ws n sz) as (w1 & E1 & L1 & W1 & F1 & G1 & G2); [done|done|lia|done|done|].
  fold f in E1, G1, G2. rewrite Hmax in E1.
  destruct (realloc_lines_ok junk w1 n cap) as (Lr & Wr & Fr & Br); [done|done|lia|lia|]. cbn zeta in *.
  set (wr := realloc_lines junk w1 cap) in *.
  assert (HR : 0 <= rank f sz < 2 ^ 32).
  { split; [pose proof (rank_bounds f sz); lia|]. apply (RankSimple.rank_lt_2_32 _ sz); [lia|lia| |lia]. intros p Hp. lia. }
  destruct (extra_line_ok wr n (rank f sz)) as (w2 & w3 & E2 & E3 & O & G3 & G4); [done|done|lia|done|].
  exists w1, w2, w3. do 3 (split; [done|]). pose proof O as (L3 & W3 & _). split; [lia|]. split; [done|].
  split; [rewrite (flat_same_out wr w3 _ _ n O Wr) by (right; lia); congruence|].
  assert (F : forall w i, width w -> 0 <= i -> w * i + w <= 320 * n -> fld w w3 i = fld w w1 i).
  { intros w i Hwd Hi Hb. pose proof (width_pos w Hwd). rewrite (same_out_fld wr w3 _ _ w i O) by (done || lia).
    apply fld_eq; [done..|]. intros m Hm. apply Br. nia. }
  split.
  - intros i Hi. destruct (decide (i = n)) as [->|]; [by rewrite G3|]. rewrite F by (auto with word64 || lia). apply G1. lia.
  - intros i j Hi Hjj. rewrite F by (auto with word64 || lia). by apply G2.
  - exact G4.
Qed.

Record built (Q0 Q1 : Z) (v : rank_select_il) : Prop := {
  built_words : words (m_lines v);
  built_size : 0 <= m_size v < 2 ^ 32;
  built_n : n_lines v = BitsToLines (m_size v);
  built_room : 5 * (n_lines v + 1) <= Z.of_nat (length (m_lines v));
  built_zero : forall p, m_size v <= p < 256 * n_lines v -> bit_at (flat (m_lines v) (n_lines v)) p = false;
  built_cache : cache_ok (m_lines v) (bit_at (flat (m_lines v) (n_lines v))) (n_lines v);
  built_max1 : m_max_rank1 v = rank (bit_at (flat (m_lines v) (n_lines v))) (m_size v);
  built_max0 : m_max_rank0 v = m_size v - rank (bit_at (flat (m_lines v) (n_lines v))) (m_size v);
  built_sel0 : sel_built (m_lines v) (Kzeros (bit_at (flat (m_lines v) (n_lines v))) 256) (Lq Q0)
    (slots_q Q0 (m_max_rank0 v)) (n_lines v) (m_fast_select0 v);
  built_sel1 : sel_built (m_lines v) (Kones (bit_at (flat (m_lines v) (n_lines v))) 256) (Lq Q1)
    (slots_q Q1 (m_max_rank1 v)) (n_lines v) (m_fast_select1 v) }.

(** Where the select caches are, and the flag word. *)
Definition image_ok (Q0 Q1 : Z) (v : rank_select_il) : Prop :=
  let idx := 10 * (n_lines v + 1) in let s0 := negb (Q0 =? 0) in let s1 := negb (Q1 =? 0) in
  m_fast_select0 v = (if s0 then Some idx else None) /\
  m_fast_select1 v = (if s1 then Some (if s0 then idx + (slots_q Q0 (m_max_rank0 v) + 1) else idx) else None) /\
  Z.of_nat (length (m_lines v)) mod 5 = 0 /\
  word_at (m_lines v) (Z.of_nat (length (m_lines v)) - 1) = flags_of (m_size v) s0 s1.

(** A vector that has no cache yet. *)
Definition plain (v : rank_select_il) : Prop := v = Il (m_lines v) (n_lines v) None None 0 0 (m_size v).

Lemma build_cache_q_ok junk Q0 Q1 v : (forall j, word64 (junk j)) -> wf v -> plain v -> Q0_ok Q0 -> Q1_ok Q1 ->
  exists v', build_cache_q junk Q0 Q1 v = Ok v' /\ built Q0 Q1 v' /\ image_ok Q0 Q1 v' /\
    n_lines v' = n_lines v /\ bits v' = bits v.
Proof.
  intros Hj (Wv & Sv & Nv & Lv) Pv HQ0 HQ1. destruct v as [ws n f0 f1 x0 x1 sz]. injection Pv as -> -> -> ->.
  cbn [m_lines n_lines m_size] in *. pose proof (lines_bounds sz ltac:(lia)) as [Hn Hn']. rewrite <- Nv in Hn, Hn'.
  unfold build_cache_q, check_overflow. cbn [m_size n_lines m_lines m_fast_select0 m_fast_select1 m_max_rank0 m_max_rank1].
  destruct (Z.ltb_spec (2 ^ 32 - 1) sz) as [|_]; [lia|]. cbn [rbind assert_ is_none Z.eqb].
  destruct (clear_tail_ok ws n sz) as (wa & Ea & La & Wa & Ba & Za); [done|lia|done|done|]. cbn zeta in Ea. rewrite Ea. cbn [rbind].
  unfold shrink_to_fit, with_lines. cbn [m_size n_lines m_lines m_fast_select0 m_fast_select1 m_max_rank0 m_max_rank1 is_none].
  cbn [assert_ rbind Z.eqb m_lines n_lines m_size m_fast_select0 m_fast_select1 m_max_rank0 m_max_rank1].
  destruct (realloc_lines_ok junk wa n n) as (Lb & Wb & Fb & _); [done|done|lia|lia|]. cbn zeta in *.
  set (wb := realloc_lines junk wa n) in *. set (f := bit_at (flat wb n)) in *.
  assert (Hz : forall p, sz <= p < 256 * n -> f p = false) by (subst f; rewrite Fb; exact Za).
  pose proof (rank_bounds f sz ltac:(lia)) as Hm.
  set (a := if negb (Q0 =? 0) then slots_q Q0 (sz - rank f sz) + 1 else 0).
  set (b := if negb (Q1 =? 0) then slots_q Q1 (rank f sz) + 1 else 0). set (cap := n + 1 + (a + b + 2 + 10 - 1) / 10).
  assert (Hab : 0 <= a /\ 0 <= b).
  { destruct (Lq_bounds Q0 HQ0) as [HL0 _]. destruct (Lq_bounds Q1) as [HL1 _]; [destruct HQ1; unfold Q0_ok; tauto|].
    pose proof (slots_q_bounds Q0 (Lq Q0) (sz - rank f sz) ltac:(lia) eq_refl HL0).
    pose proof (slots_q_bounds Q1 (Lq Q1) (rank f sz) ltac:(lia) eq_refl HL1).
    subst a b. destruct (negb (Q0 =? 0)), (negb (Q1 =? 0)); lia. }
  assert (Hcap : 10 * (n + 1) + a + b + 2 <= 10 * cap).
  { pose proof (Z.div_mod (a + b + 2 + 10 - 1) 10 ltac:(lia)). pose proof (Z.mod_pos_bound (a + b + 2 + 10 - 1) 10 ltac:(lia)).
    subst cap. lia. }
  destruct (whole_il_cache_ok junk wb n sz cap) as (w1 & w2 & w3 & -> & E2 & E3 & L3 & W3 & F3 & C3); [done|done|lia|lia|lia|lia|lia|done|].
  fold f in E3, C3. cbn [rbind]. fold f. fold a b. fold cap. rewrite E2. cbn [rbind]. rewrite E3. cbn [rbind].
  destruct (il_finish_ok w3 f n sz Q0 Q1 cap) as (u1 & u2 & u3 & U1 & U2 & U3 & O & T0 & T1 & TF);
    [done|lia|lia|lia|done|done|done|done|done|fold a b; lia|].
  rewrite U1. cbn [rbind]. rewrite U2. cbn [rbind]. change (Z.lor _ _) with (flags_of sz (negb (Q0 =? 0)) (negb (Q1 =? 0))).
  rewrite U3. cbn [rbind]. pose proof O as (L5 & W5 & _).
  assert (F5 : flat u3 n = flat wb n) by (rewrite (flat_same_out w3 u3 _ _ n O W3) by (right; lia); done).
  eexists. split; [done|]. split; [|split; [|split; [done|]]].
  - split; cbn [m_lines n_lines m_size m_fast_select0 m_fast_select1 m_max_rank0 m_max_rank1]; rewrite ?F5; fold f;
      try done; try lia. by eapply il_cache_ok_frame; [exact C3|exact O|lia|lia].
  - unfold image_ok. cbn [m_lines n_lines m_size m_fast_select0 m_fast_select1 m_max_rank0]. rewrite L5, L3.
    split; [done|]. split; [done|]. split; [|done]. rewrite (Z.mul_comm 5). apply Z.mod_mul. lia.
  - unfold bits. cbn [m_lines n_lines m_size]. rewrite F5, Fb. apply map_seqZ_ext. intros p Hp. apply Ba. lia.
Qed.

(** ** The queries on a built vector; [Qs] is the class's number of slots *)

Lemma il_line_search_ok ws key K M n Q Qs sel r : words ws -> 0 <= n -> (forall i, 0 <= i <= n -> key i = Ok (K i)) ->
  mono K n -> K 0 = 0 -> 0 <= r < M -> M <= K n -> Q0_ok Q -> Q = 0 \/ Q = Qs -> (Q = 0 -> sel = None) ->
  sel_built ws K (Lq Q) (slots_q Q M) n sel ->
  (sel = None -> exists l, upper_bound key r 0 n = Ok l /\ l <= n /\ line_after K r l) /\
  (sel <> None -> exists l, (let* lo := rd_sel ws sel (r / (LineBits / Qs)) in
     let* hi := rd_sel ws sel (r / (LineBits / Qs) + 1) in upper_bound key r lo hi) = Ok l /\ l <= n /\ line_after K r l).
Proof.
  intros Hw Hn Hkey Hm H0 Hr HM HQ HQs HQ0 Hs. split.
  { intros _. apply (upper_bound_line key K n); (done || lia). }
  destruct sel as [s|]; [intros _|done]. assert (Q <> 0 /\ Q = Qs) as [Hne <-] by (destruct HQs as [E|]; [by specialize (HQ0 E)|];
    split; [intros E; by specialize (HQ0 E)|done]).
  destruct (Lq_bounds Q HQ) as [HL EL]. rewrite (EL Hne).
  pose proof (slots_q_bounds Q (Lq Q) M ltac:(lia) eq_refl HL) as [B1 B2].
  pose proof (Z.div_mod r (Lq Q) ltac:(lia)). pose proof (Z.mod_pos_bound r (Lq Q) ltac:(lia)).
  assert (Hj : 0 <= r / Lq Q < slots_q Q M) by nia.
  rewrite !(rd_sel_ok ws K (Lq Q) (slots_q Q M) n) by (done || lia). cbn [rbind]. destruct Hs as (_ & _ & _ & Hs4).
  apply (upper_bound_sel key K n); [done|done|lia|].
  apply (sel_bounds K (Lq Q) (slots_q Q M) n (fun j => fld 32 ws (s + j)) r); (done || lia).
Qed.

Section built.
Context (Q0 Q1 Qs : Z) (v : rank_select_il) (B : built Q0 Q1 v) (I : image_ok Q0 Q1 v)
  (HQ0 : Q0_ok Q0) (HQs : Q0 = 0 \/ Q0 = Qs) (HQ1 : Q1_ok Q1).
Let ws := m_lines v.
Let n := n_lines v.
Let fl := flat ws n.
Let f := bit_at fl.
Let g := fun i => negb (f i).

Lemma il_dims : words ws /\ words fl /\ Z.of_nat (length fl) = 4 * n /\ 0 <= m_size v <= 256 * n /\ 256 * n < m_size v + 256 /\
  0 <= n /\ 5 * (n + 1) <= Z.of_nat (length ws).
Proof.
  pose proof (built_words _ _ v B) as W. pose proof (built_room _ _ v B) as R. pose proof (built_size _ _ v B) as S.
  pose proof (lines_bounds (m_size v) ltac:(lia)) as L. rewrite <- (built_n _ _ v B) in L. subst fl n ws. split; [done|].
  split; [by apply flat_words|]. rewrite flat_length by lia. lia.
Qed.

Lemma il_lev1 i : 0 <= i <= n -> rlev1 ws i = Ok (rank f (256 * i)).
Proof. intros Hi. pose proof il_dims as D. apply (rlev1_ok ws f n); (lia || apply (built_cache _ _ v B)). Qed.

Lemma il_lev2 i j : 0 <= i < n -> 0 <= j < 4 -> rlev2 ws i j = Ok (rank f (256 * i + 64 * j) - rank f (256 * i)).
Proof. intros Hi. pose proof il_dims as D. apply (rlev2_ok ws f n); (lia || apply (built_cache _ _ v B)). Qed.

Lemma il_word i j : 0 <= i < n -> 0 <= j < 4 -> bit64 ws i j = Ok (word_at fl (4 * i + j)).
Proof. intros. pose proof il_dims as D. apply bit64_ok; (done || lia). Qed.

Lemma il_is1_ok p : 0 <= p < m_size v -> is1 v p = Ok (f p).
Proof.
  intros Hp. pose proof il_dims as D. unfold is1. rewrite (proj2 (Z.ltb_lt _ _)) by lia. cbn [assert_ rbind]. unfold LineBits.
  rewrite (proj2 (Z.ltb_lt _ _)) by (apply Z.div_lt_upper_bound; fold n; lia). cbn [assert_ rbind].
  subst f fl. rewrite flat_bit by lia. unfold pos_of, LineBits.
  pose proof (Z.div_mod p 256 ltac:(lia)). pose proof (Z.mod_pos_bound p 256 ltac:(lia)).
  apply terark_bit_test_ok; [apply D|]. fold ws. lia.
Qed.

Lemma trail0 x : fast_popcount_trail x 0 = 0.
Proof. unfold fast_popcount_trail. change (not64 _) with 0. by rewrite Z.land_0_r. Qed.

Lemma il_fast_rank1_ok p : 0 <= p <= 256 * n -> fast_rank1 ws p = Ok (rank f p).
Proof.
  intros Hp. pose proof il_dims as (W & Wf & D1 & D2 & D3 & D4 & D5). unfold fast_rank1, LineBits.
  pose proof (Z.div_mod p 256 ltac:(lia)). pose proof (Z.mod_pos_bound p 256 ltac:(lia)).
  pose proof (Z.div_mod p 64 ltac:(lia)). pose proof (mod64_range p).
  pose proof (Z.div_mod (p mod 256) 64 ltac:(lia)). pose proof (Z.mod_pos_bound (p mod 256) 64 ltac:(lia)).
  assert (E64 : p / 64 = 4 * (p / 256) + p mod 256 / 64) by lia.
  rewrite il_lev1 by lia. cbn [rbind]. pose proof (rank_trail fl p ltac:(lia) Wf) as T. fold f in T. rewrite T. clear T.
  destruct (decide (p / 256 < n)) as [Hi|Hi].
  - rewrite il_lev2, il_word by lia. cbn [rbind]. rewrite E64.
    replace (64 * (4 * (p / 256) + p mod 256 / 64)) with (256 * (p / 256) + 64 * (p mod 256 / 64)) by lia.
    f_equal. lia.
  - assert (p / 256 = n /\ p mod 256 / 64 = 0 /\ p mod 64 = 0) as (En & E0 & E1) by lia.
    rewrite En, E0, E1. rewrite (rlev2_last ws f n) by (lia || apply (built_cache _ _ v B)). cbn [rbind].
    unfold bit64. rewrite rd_word by lia. cbn [rbind]. rewrite !trail0, E64, En, E0.
    replace (64 * (4 * n + 0)) with (256 * n) by lia. f_equal. lia.
Qed.

Lemma il_in_line1_ok l r : line_after (Kones f 256) r l -> l <= n -> exists p, in_line1 ws l r = Ok p /\ is_select f r p.
Proof.
  intros (L1 & L2 & L3) Hl. pose proof il_dims as (W & Wf & D1 & D2 & D3 & D4 & D5). unfold Kones in *. unfold in_line1.
  rewrite il_lev1 by lia. cbn [rbind]. rewrite (proj2 (Z.ltb_lt _ _)) by lia. cbn [assert_ rbind].
  rewrite il_lev1 by lia. cbn [rbind]. rewrite (proj2 (Z.leb_le _ _)) by lia. cbn [assert_ rbind].
  rewrite !il_lev2 by lia. cbn [rbind]. unfold LineBits.
  match goal with |- context [line_select4 ?w ?c r] =>
    destruct (line_select4_ok f (256 * (l - 1)) w c r) as (p & -> & Hp & S) end.
  - lia.
  - intros j Hj. exists (word_at fl (4 * (l - 1) + j)). rewrite il_word by lia. split; [done|]. split; [auto with word64|].
    intros m Hm. replace (256 * (l - 1) + 64 * j + m) with (64 * (4 * (l - 1) + j) + m) by lia.
    subst f. by rewrite bit_at_word by lia.
  - intros j Hj. destruct (Z.eqb_spec j 0) as [->|]; [f_equal; lia|].
    destruct (Z.eqb_spec j 1) as [->|]; [lia|]. destruct (Z.eqb_spec j 2) as [->|]; [lia|].
    assert (j = 3) as -> by lia. lia.
  - replace (256 * (l - 1) + 256) with (256 * l) by lia. lia.
  - cbn [rbind]. rewrite (Z.mul_comm (l - 1)). eauto.
Qed.

Lemma il_in_line0_ok l r : line_after (Kzeros f 256) r l -> l <= n -> exists p, in_line0 ws l r = Ok p /\ is_select g r p.
Proof.
  intros (L1 & L2 & L3) Hl. pose proof il_dims as (W & Wf & D1 & D2 & D3 & D4 & D5). unfold in_line0, key0.
  assert (G : forall p, 0 <= p -> rank g p = p - rank f p) by (intros; by apply rank_negb).
  unfold Kzeros in *. rewrite !il_lev1 by lia. cbn [rbind]. unfold LineBits in *.
  rewrite (proj2 (Z.ltb_lt _ _)) by lia. cbn [assert_ rbind]. rewrite !il_lev2 by lia. cbn [rbind].
  match goal with |- context [line_select4 ?w ?c r] =>
    destruct (line_select4_ok g (256 * (l - 1)) w c r) as (p & -> & Hp & S) end.
  - lia.
  - intros j Hj. exists (not64 (word_at fl (4 * (l - 1) + j))). rewrite il_word by lia. split; [done|].
    split; [auto with word64|]. intros m Hm. replace (256 * (l - 1) + 64 * j + m) with (64 * (4 * (l - 1) + j) + m) by lia.
    subst g f. cbn beta. rewrite bit_at_word, testbit_not64 by lia. destruct (Z.ltb_spec m 64); [done|lia].
  - intros j Hj. rewrite G by lia. destruct (Z.eqb_spec j 0) as [->|]; [rewrite Z.mul_0_r, Z.add_0_r; lia|].
    destruct (Z.eqb_spec j 1) as [->|]; [lia|]. destruct (Z.eqb_spec j 2) as [->|]; [lia|].
    assert (j = 3) as -> by lia. lia.
  - rewrite !G by lia. replace (256 * (l - 1) + 256) with (256 * l) by lia. lia.
  - cbn [rbind]. rewrite (Z.mul_comm (l - 1)). eauto.
Qed.

Lemma il_key0_built i : 0 <= i <= n -> key0 ws i = Ok (Kzeros f 256 i).
Proof. intros Hi. unfold key0. by rewrite il_lev1. Qed.

Lemma il_select1_ok r : 0 <= r < m_max_rank1 v -> exists p, select1 v r = Ok p /\ is_select f r p /\ p < m_size v /\
  (m_fast_select1 v <> None -> fast_select1 ws (m_fast_select1 v) r = Ok p).
Proof.
  intros Hr. pose proof il_dims as (W & Wf & D1 & D2 & D3 & D4 & D5). pose proof (built_max1 _ _ v B) as M. fold ws n fl f in M.
  pose proof (rank_mono f (m_size v) (256 * n)).
  destruct (il_line_search_ok ws (key1 ws) (Kones f 256) (m_max_rank1 v) n Q1 1 (m_fast_select1 v) r) as [F1 F2];
    [done|done|apply il_lev1|by apply Kones_mono|done|done|unfold Kones; lia|destruct HQ1; unfold Q0_ok; tauto|exact HQ1|
     |apply (built_sel1 _ _ v B)|].
  { intros ->. destruct I as (_ & -> & _). done. }
  unfold select1, select1_q, select1_upper_bound_line_safe, fast_select1, fast_select1_q, select1_upper_bound_line.
  rewrite (proj2 (Z.ltb_lt _ _)) by lia. cbn [assert_ rbind]. fold ws n. destruct (m_fast_select1 v) as [s|].
  - destruct F2 as (l & -> & Hl & L); [done|]. destruct (il_in_line1_ok l r L Hl) as (p & Ep & S). exists p. cbn [rbind].
    split; [done|]. split; [done|]. split; [eapply is_select_lt; [exact S|lia|lia]|done].
  - destruct F1 as (l & -> & Hl & L); [done|]. destruct (il_in_line1_ok l r L Hl) as (p & Ep & S). exists p. cbn [rbind].
    split; [done|]. split; [done|]. split; [eapply is_select_lt; [exact S|lia|lia]|done].
Qed.

Lemma il_select0_ok r : 0 <= r < m_max_rank0 v -> exists p, select0_q Qs v r = Ok p /\ is_select g r p /\ p < m_size v /\
  (m_fast_select0 v <> None -> fast_select0_q Qs ws (m_fast_select0 v) r = Ok p).
Proof.
  intros Hr. pose proof il_dims as (W & Wf & D1 & D2 & D3 & D4 & D5). pose proof (built_max0 _ _ v B) as M. fold ws n fl f in M.
  assert (M' : m_max_rank0 v = rank g (m_size v)) by (subst g; rewrite rank_negb by lia; lia).
  pose proof (rank_mono g (m_size v) (256 * n)).
  destruct (il_line_search_ok ws (key0 ws) (Kzeros f 256) (m_max_rank0 v) n Q0 Qs (m_fast_select0 v) r) as [F1 F2];
    [done|done|apply il_key0_built|by apply Kzeros_mono|done|done| |done|done| |apply (built_sel0 _ _ v B)|].
  { rewrite Kzeros_rank by lia. change (fun p => negb (f p)) with g. lia. }
  { intros ->. destruct I as (-> & _). done. }
  unfold select0_q, select0_upper_bound_line_safe, fast_select0_q, select0_upper_bound_line.
  rewrite (proj2 (Z.ltb_lt _ _)) by lia. cbn [assert_ rbind]. fold ws n. destruct (m_fast_select0 v) as [s|].
  - destruct F2 as (l & -> & Hl & L); [done|]. destruct (il_in_line0_ok l r L Hl) as (p & Ep & S). exists p. cbn [rbind].
    split; [done|]. split; [done|]. split; [eapply is_select_lt; [exact S|lia|lia]|done].
  - destruct F1 as (l & -> & Hl & L); [done|]. destruct (il_in_line0_ok l r L Hl) as (p & Ep & S). exists p. cbn [rbind].
    split; [done|]. split; [done|]. split; [eapply is_select_lt; [exact S|lia|lia]|done].
Qed.

Lemma il_rank1_ok p : 0 <= p -> p / 256 < n -> rank1 v p = Ok (rank f p).
Proof.
  intros Hp Hn. pose proof il_dims as D. unfold rank1, LineBits. fold n ws.
  pose proof (Z.div_mod p 256 ltac:(lia)). pose proof (Z.mod_pos_bound p 256 ltac:(lia)).
  rewrite (proj2 (Z.leb_le _ _)), (proj2 (Z.ltb_lt _ _)) by lia. cbn [assert_ rbind]. apply il_fast_rank1_ok. lia.
Qed.

Lemma il_laws fast : fast = true \/ m_size v mod 256 <> 0 -> @rs_laws _ (il_ops Qs fast) v f.
Proof.
  intros Hfast. pose proof il_dims as (_ & _ & _ & D1 & D2 & D3 & D4).
  assert (R1 : forall p, 0 <= p <= m_size v -> (if fast then fast_rank1 (m_lines v) p else rank1 v p) = Ok (rank f p)).
  { intros p Hp. destruct fast; [apply il_fast_rank1_ok; lia|]. destruct Hfast as [|Hm]; [done|].
    pose proof (Z.div_mod (m_size v) 256 ltac:(lia)). pose proof (Z.mod_pos_bound (m_size v) 256 ltac:(lia)).
    apply il_rank1_ok; [lia|]. apply Z.div_lt_upper_bound; [lia|].
    destruct (decide (m_size v = 256 * n)) as [E|]; [|lia]. rewrite E, (Z.mul_comm 256), Z.mod_mul in Hm by lia. done. }
  split; cbn [rs_size rs_is1 rs_rank1 rs_rank0 rs_select0 rs_select1 rs_max_rank0 rs_max_rank1 il_ops].
  - lia.
  - intros p Hp. by apply il_is1_ok.
  - exact R1.
  - intros p Hp. specialize (R1 p Hp). destruct fast; [unfold fast_rank0|unfold rank0]; by rewrite R1.
  - apply (built_max1 _ _ v B).
  - apply (built_max0 _ _ v B).
  - intros r Hr. destruct (il_select1_ok r Hr) as (p & H1 & H2 & H3 & _). eauto.
  - intros r Hr. destruct (il_select0_ok r Hr) as (p & H1 & H2 & H3 & _). eauto.
Qed.
End built.

(** ** Mapping an image *)

Lemma il_mmap_ok Q0 Q1 v : built Q0 Q1 v -> image_ok Q0 Q1 v -> Q0 = 0 \/ Q0 = 1 \/ Q1 = 0 -> risk_mmap_from (m_lines v) = Ok v.
Proof.
  intros B (I0 & I1 & I5 & IF) HQ. pose proof (il_dims Q0 Q1 v B) as (W & Wf & D1 & D2 & D3 & D4 & D5). unfold risk_mmap_from.
  rewrite I5. cbn [Z.eqb assert_ rbind]. rewrite rd_word by lia. cbn [rbind]. rewrite IF.
  destruct (flags_decode (m_size v) (negb (Q0 =? 0)) (negb (Q1 =? 0))) as (-> & -> & ->); [lia|].
  change ((m_size v + LineBits - 1) / LineBits) with (BitsToLines (m_size v)). rewrite <- (built_n _ _ v B).
  rewrite (il_lev1 Q0 Q1 v B) by lia. cbn [rbind].
  assert (rank (bit_at (flat (m_lines v) (n_lines v))) (256 * n_lines v) = m_max_rank1 v) as ->.
  { rewrite (built_max1 _ _ v B). apply RankSimple.rank_pad; [lia|]. apply (built_zero _ _ v B). }
  assert (m_size v - m_max_rank1 v = m_max_rank0 v) as -> by (rewrite (built_max1 _ _ v B), (built_max0 _ _ v B); done).
  assert (E1 : (if negb (Q1 =? 0) then Some (if negb (Q0 =? 0) then 10 * (n_lines v + 1) + ((m_max_rank0 v + LineBits - 1) / LineBits + 1)
      else 10 * (n_lines v + 1)) else None) = m_fast_select1 v).
  { rewrite I1. by destruct HQ as [->|[->| ->]]. }
  rewrite E1, <- I0. by destruct v.
Qed.

(** ** The nested loops are the loops of [febitvec] over the flat words *)

Lemma scan_fwd_sim ws val n : 5 * n <= Z.of_nat (length ws) -> forall f1 f2 j k sum,
  (0 <= j < n /\ 0 <= k <= 4) \/ (j = n /\ k = 0) -> 0 <= n ->
  (Z.to_nat (5 * (n - j) - k + 4) < f1)%nat -> (Z.to_nat (4 * n - (4 * j + k)) < f2)%nat ->
  loop f1 (fun '(j, k, sum) =>
    if j <? n then
      if k <? 4 then
        let* w := bit64 ws j k in let y := inv val w in
        if 0 =? y then Ok (inl (j, k + 1, sum + 64))
        else let* c := fast_ctz y in Ok (inr (sum + c))
      else Ok (inl (j + 1, 0, sum))
    else Ok (inr sum)) (j, k, sum) =
  loop f2 (fun '(j, sum) =>
    if j <? 4 * n then
      let* w := rd (flat ws n) j in let y := inv val w in
      if 0 =? y then Ok (inl (j + 1, sum + 64))
      else let* c := fast_ctz y in Ok (inr (sum + c))
    else Ok (inr sum)) (4 * j + k, sum).
Proof.
  intros Hl. induction f1 as [|f1 IH]; intros f2 j k sum Hs Hn H1 H2; [lia|].
  destruct f2 as [|f2]; [lia|]. cbn [loop]. destruct (Z.ltb_spec j n) as [Lj|Lj].
  2: { rewrite (proj2 (Z.ltb_ge _ _)) by lia. done. }
  destruct (Z.ltb_spec k 4) as [Lk|Lk].
  - rewrite (bit64_ok ws n) by lia. rewrite (proj2 (Z.ltb_lt _ _)) by lia.
    rewrite rd_word by (rewrite flat_length; lia). cbn [rbind]. destruct (0 =? _) eqn:E; cbn [rbind].
    + rewrite (IH f2) by lia. by rewrite Z.add_assoc.
    + by destruct (fast_ctz _).
  - cbn [rbind]. assert (k = 4) as -> by lia. rewrite (IH (S f2)) by lia.
    replace (4 * (j + 1) + 0) with (4 * j + 4) by lia. done.
Qed.

Lemma scan_fwd_flat ws val n j k sum : 5 * n <= Z.of_nat (length ws) -> 0 <= j < n -> 0 <= k <= 4 ->
  scan_fwd ws val n j k sum = Febitvec.scan_fwd (flat ws n) val (4 * n) (4 * j + k) sum.
Proof. intros. unfold scan_fwd, Febitvec.scan_fwd. apply scan_fwd_sim; lia. Qed.

Lemma scan_back_sim ws val n : 5 * n <= Z.of_nat (length ws) -> forall f1 f2 j k sum,
  (0 <= j < n /\ -1 <= k <= 3) \/ (j = -1 /\ k = 3) ->
  (Z.to_nat (5 * j + k + 6) < f1)%nat -> (Z.to_nat (4 * j + k + 1) < f2)%nat ->
  loop f1 (fun '(j, k, sum) =>
    if negb (j =? -1) then
      if negb (k =? -1) then
        let* w := bit64 ws j k in let y := inv val w in
        if 0 =? y then Ok (inl (j, k - 1, sum + 64))
        else let* c := fast_clz y in Ok (inr (sum + c))
      else Ok (inl (j - 1, 3, sum))
    else Ok (inr sum)) (j, k, sum) =
  loop f2 (fun '(j, sum) =>
    if 0 <? j then
      let* w := rd (flat ws n) (j - 1) in let y := inv val w in
      if 0 =? y then Ok (inl (j - 1, sum + 64))
      else let* c := fast_clz y in Ok (inr (sum + c))
    else Ok (inr sum)) (4 * j + k + 1, sum).
Proof.
  intros Hl. induction f1 as [|f1 IH]; intros f2 j k sum Hs H1 H2; [lia|].
  destruct f2 as [|f2]; [lia|]. cbn [loop]. destruct (Z.eqb_spec j (-1)) as [Ej|Ej]; cbn [negb].
  { rewrite (proj2 (Z.ltb_ge _ _)) by lia. done. }
  destruct (Z.eqb_spec k (-1)) as [Ek|Ek]; cbn [negb].
  - cbn [rbind]. subst k. rewrite (IH (S f2)) by lia. replace (4 * (j - 1) + 3 + 1) with (4 * j + -1 + 1) by lia. done.
  - rewrite (bit64_ok ws n) by lia. rewrite (proj2 (Z.ltb_lt _ _)) by lia.
    replace (4 * j + k + 1 - 1) with (4 * j + k) by lia.
    rewrite rd_word by (rewrite flat_length; lia). cbn [rbind]. destruct (0 =? _) eqn:E; cbn [rbind].
    + rewrite (IH f2) by lia. replace (4 * j + (k - 1) + 1) with (4 * j + k) by lia. done.
    + by destruct (fast_clz _).
Qed.

Lemma scan_back_flat ws val n j k sum : 5 * n <= Z.of_nat (length ws) -> 0 <= j < n -> -1 <= k <= 3 ->
  scan_back ws val j k sum = Febitvec.scan_back (flat ws n) val (4 * j + k + 1) sum.
Proof. intros. unfold scan_back, Febitvec.scan_back. apply scan_back_sim; lia. Qed.

Lemma pos_split p n : 0 <= p < 256 * n -> p / 64 = 4 * (p / 256) + p mod 256 / 64 /\
  0 <= p / 256 < n /\ 0 <= p mod 256 / 64 < 4.
Proof.
  intros Hp. pose proof (Z.div_mod p 256 ltac:(lia)). pose proof (Z.mod_pos_bound p 256 ltac:(lia)).
  pose proof (Z.div_mod p 64 ltac:(lia)). pose proof (mod64_range p).
  pose proof (Z.div_mod (p mod 256) 64 ltac:(lia)). pose proof (Z.mod_pos_bound (p mod 256) 64 ltac:(lia)). lia.
Qed.

(** The lines as a [febitvec] of whole lines. *)
Definition flat_bitvec (v : rank_select_il) : febitvec := FV (flat (m_lines v) (n_lines v)) (256 * n_lines v).

Lemma il_seq_len_flat v p : 5 * n_lines v <= Z.of_nat (length (m_lines v)) -> 0 <= p < m_size v -> m_size v <= 256 * n_lines v ->
  one_seq_len v p = Febitvec.one_seq_len (flat_bitvec v) p /\ zero_seq_len v p = Febitvec.zero_seq_len (flat_bitvec v) p.
Proof.
  intros Hl Hp Hs. unfold one_seq_len, Febitvec.one_seq_len, zero_seq_len, Febitvec.zero_seq_len, flat_bitvec, LineBits.
  cbn [Febitvec.m_words Febitvec.m_size]. destruct (pos_split p (n_lines v)) as (E & Hj & Hk); [lia|].
  rewrite !(proj2 (Z.ltb_lt p _)), (proj2 (Z.ltb_lt (p / 256) _)) by lia. cbn [assert_ rbind].
  rewrite (bit64_ok _ (n_lines v)) by lia. rewrite rd_word by (rewrite flat_length; lia). rewrite <- E.
  unfold Febitvec.num_words. cbn [Febitvec.m_size].
  assert ((256 * n_lines v + 64 - 1) / 64 = 4 * n_lines v) as ->.
  { replace (256 * n_lines v + 64 - 1) with (63 + 4 * n_lines v * 64) by lia. rewrite Z.div_add by lia. done. }
  cbn [rbind]. rewrite E.
  assert (F : forall val c, scan_fwd (m_lines v) val (n_lines v) (p / 256) (p mod 256 / 64 + 1) c =
    Febitvec.scan_fwd (flat (m_lines v) (n_lines v)) val (4 * n_lines v) (4 * (p / 256) + p mod 256 / 64 + 1) c).
  { intros val c. rewrite scan_fwd_flat by lia. f_equal. lia. }
  rewrite !F, !scan_fwd_flat by lia. split; [|done]. destruct (negb _); [|done]. destruct (_ =? 0); [done|].
  destruct (fast_ctz _) as [c| | |]; cbn [rbind]; [by rewrite F|done..].
Qed.

Lemma il_seq_revlen_flat v e : 5 * n_lines v <= Z.of_nat (length (m_lines v)) -> 0 <= e <= m_size v -> m_size v <= 256 * n_lines v ->
  one_seq_revlen v e = Febitvec.one_seq_revlen (flat_bitvec v) e /\ zero_seq_revlen v e = Febitvec.zero_seq_revlen (flat_bitvec v) e.
Proof.
  intros Hl He Hs. unfold one_seq_revlen, Febitvec.one_seq_revlen, zero_seq_revlen, Febitvec.zero_seq_revlen, flat_bitvec, LineBits.
  cbn [Febitvec.m_words Febitvec.m_size]. rewrite !(proj2 (Z.leb_le e _)) by lia. cbn [assert_ rbind].
  destruct (Z.eqb_spec e 0) as [->|E0]; [done|].
  destruct (pos_split (e - 1) (n_lines v)) as (E & Hj & Hk); [lia|].
  pose proof (Z.div_mod (e - 1) 64 ltac:(lia)). pose proof (mod64_range (e - 1)).
  pose proof (Z.div_mod e 64 ltac:(lia)). pose proof (mod64_range e).
  rewrite (proj2 (Z.ltb_lt _ _)) by lia. cbn [assert_ rbind].
  rewrite (bit64_ok _ (n_lines v)) by lia. rewrite rd_word by (rewrite flat_length; lia). rewrite <- E. cbn [rbind].
  assert (F : forall val c, scan_back (m_lines v) val ((e - 1) / 256) ((e - 1) mod 256 / 64) c =
    Febitvec.scan_back (flat (m_lines v) (n_lines v)) val ((e - 1) / 64 + 1) c).
  { intros val c. rewrite (scan_back_flat _ _ (n_lines v)) by lia. f_equal. lia. }
  assert (G : forall val c, scan_back (m_lines v) val ((e - 1) / 256) ((e - 1) mod 256 / 64 - 1) c =
    Febitvec.scan_back (flat (m_lines v) (n_lines v)) val ((e - 1) / 64) c).
  { intros val c. rewrite (scan_back_flat _ _ (n_lines v)) by lia. f_equal. lia. }
  rewrite !F, !G. destruct (Z.eqb_spec (e mod 64) 0) as [Em|Em]; cbn [negb].
  - assert ((e - 1) / 64 + 1 = e / 64) as -> by lia. done.
  - assert ((e - 1) / 64 = e / 64) as -> by lia. split; [|done]. destruct (_ =? 0); [done|].
    destruct (fast_clz _) as [c| | |]; cbn [rbind]; [|done..]. destruct (c <=? _); [|done]. cbn [assert_ rbind].
    destruct (1 <=? c); [|done]. cbn [assert_ rbind]. rewrite G. by assert ((e - 1) / 64 = e / 64) as -> by lia.
Qed.

(** ** Editing: the vector before [build_cache] *)

Definition bitf (v : rank_select_il) (p : Z) : bool := bit_at (flat (m_lines v) (n_lines v)) p.

(** [pop_back] and [resize_no_init] may leave more lines than the bits need. *)
Definition wfe (v : rank_select_il) : Prop :=
  words (m_lines v) /\ 0 <= m_size v < 2 ^ 32 /\ m_size v <= 256 * n_lines v /\
  5 * n_lines v <= Z.of_nat (length (m_lines v)).

(** [v] has size [n], and its bits are [f]. *)
Definition il_view (v : rank_select_il) (n : Z) (f : Z -> bool) : Prop :=
  wfe v /\ m_size v = n /\ forall p, 0 <= p < n -> bitf v p = f p.

Lemma wf_wfe v : wf v -> wfe v.
Proof. intros (W & S & N & L). pose proof (lines_bounds (m_size v) ltac:(lia)). rewrite <- N in *. by split_and!; try lia. Qed.

Lemma il_view_self v : wfe v -> il_view v (m_size v) (bitf v).
Proof. by intros. Qed.

Lemma il_set_lines v i val : wfe v -> 0 <= i < m_size v ->
  exists ws, set v i val = Ok (with_lines v ws) /\ wfe (with_lines v ws) /\
    forall p, 0 <= p < 256 * n_lines v -> bitf (with_lines v ws) p = if p =? i then val else bitf v p.
Proof.
  intros (W & S & N & L) Hi. pose proof (Z.div_mod i 256 ltac:(lia)). pose proof (Z.mod_pos_bound i 256 ltac:(lia)).
  assert (Hq : 0 <= i / 256 < n_lines v) by lia.
  destruct (terark_bit_set_val_ok (m_lines v) (pos_of i) val W) as (ws & E & Lw & Ww & B).
  { unfold pos_of, LineBits. lia. }
  exists ws. unfold set, set1, set0, LineBits. rewrite !(proj2 (Z.ltb_lt _ _)) by lia. cbn [assert_ rbind].
  split; [unfold terark_bit_set_val in E; destruct val; by rewrite E|]. split.
  - unfold wfe, with_lines. cbn [m_lines n_lines m_size]. rewrite Lw. done.
  - intros p Hp. unfold bitf, with_lines. cbn [m_lines n_lines]. rewrite !flat_bit by lia. unfold pos_of, LineBits in *.
    pose proof (Z.div_mod p 256 ltac:(lia)). pose proof (Z.mod_pos_bound p 256 ltac:(lia)). rewrite B by lia.
    destruct (Z.eqb_spec (64 * (5 * (p / 256) + 1) + p mod 256) (64 * (5 * (i / 256) + 1) + i mod 256)), (Z.eqb_spec p i); (lia || done).
Qed.

(** Writing one line. *)
Lemma wr_line_ok ws i n val : words ws -> 0 <= i < n -> 5 * n <= Z.of_nat (length ws) ->
  exists ws', wr_line ws i val = Ok ws' /\ length ws' = length ws /\ words ws' /\
    forall p, 0 <= p < 256 * n -> bit_at (flat ws' n) p = if p / 256 =? i then val else bit_at (flat ws n) p.
Proof.
  intros W Hi Hl. unfold wr_line.
  destruct (for_inv (fun k w => length w = length ws /\ words w /\ forall q, 0 <= q ->
      word_at w q = if (5 * i <=? q) && (q <? 5 * i + k) then nth (Z.to_nat (q - 5 * i)) (line_of val) 0 else word_at ws q)
    (fun k ws => wr ws (5 * i + k) (nth (Z.to_nat k) (line_of val) 0)) 0 5 ws) as (ws' & E & Lw & Ww & B).
  - lia.
  - split; [done|]. split; [done|]. intros q Hq. destruct (Z.leb_spec (5 * i) q), (Z.ltb_spec q (5 * i + 0)); (lia || done).
  - intros k w Hk (Lw & Ww & B). rewrite wr_ok by lia. eexists. split; [done|]. rewrite length_insert. split; [done|]. split.
    { apply Forall_insert; [done|]. unfold line_of. assert (Hk' : k = 0 \/ k = 1 \/ k = 2 \/ k = 3 \/ k = 4) by lia.
      destruct Hk' as [->|[->|[->|[->| ->]]]], val; vm_compute; (split; [discriminate|reflexivity]). }
    intros q Hq. rewrite word_at_insert by lia. case_decide as Eq.
    + subst q. rewrite (proj2 (Z.leb_le _ _)), (proj2 (Z.ltb_lt _ _)) by lia. cbn [andb]. do 2 f_equal. lia.
    + rewrite B by done. destruct (Z.leb_spec (5 * i) q), (Z.ltb_spec q (5 * i + k)), (Z.ltb_spec q (5 * i + (k + 1))); (lia || done).
  - exists ws'. do 3 (split; [done|]). intros p Hp. unfold bit_at. destruct (pos_split p n Hp) as (Eq & Hq & Hk).
    rewrite !flat_at by (rewrite Eq; lia). unfold iword. rewrite Eq.
    destruct (divmod4 (p / 256) (p mod 256 / 64) ltac:(lia)) as [-> ->]. rewrite B by lia.
    destruct (Z.eqb_spec (p / 256) i) as [<-|Hne].
    + rewrite (proj2 (Z.leb_le _ _)), (proj2 (Z.ltb_lt _ _)) by lia. cbn [andb]. unfold line_of.
      replace (Z.to_nat (5 * (p / 256) + 1 + p mod 256 / 64 - 5 * (p / 256))) with (S (Z.to_nat (p mod 256 / 64))) by lia.
      cbn [nth]. rewrite nth_lookup, lookup_replicate_2 by lia. cbn. pose proof (mod64_range p).
      destruct val; [apply Z.ones_spec_low; lia|apply Z.bits_0].
    + destruct (Z.leb_spec (5 * i) (5 * (p / 256) + 1 + p mod 256 / 64)),
        (Z.ltb_spec (5 * (p / 256) + 1 + p mod 256 / 64) (5 * i + 5)); (lia || done).
Qed.

Lemma fill_lines_ok ws a b n val : words ws -> 0 <= a <= b -> b <= n -> 5 * n <= Z.of_nat (length ws) ->
  exists ws', fill_lines a b val ws = Ok ws' /\ length ws' = length ws /\ words ws' /\
    forall p, 0 <= p < 256 * n -> bit_at (flat ws' n) p = if (256 * a <=? p) && (p <? 256 * b) then val else bit_at (flat ws n) p.
Proof.
  intros W Ha Hb Hl. unfold fill_lines.
  apply (for_inv (fun k w => length w = length ws /\ words w /\ forall p, 0 <= p < 256 * n ->
    bit_at (flat w n) p = if (256 * a <=? p) && (p <? 256 * k) then val else bit_at (flat ws n) p)); [lia| |].
  - do 2 (split; [done|]). intros p Hp. destruct (Z.leb_spec (256 * a) p), (Z.ltb_spec p (256 * a)); (lia || done).
  - intros k w Hk (Lw & Ww & B). destruct (wr_line_ok w k n val Ww) as (w' & -> & Lw' & Ww' & B'); [lia|lia|].
    exists w'. split; [done|]. split; [congruence|]. split; [done|]. intros p Hp. rewrite B', B by lia.
    pose proof (Z.div_mod p 256 ltac:(lia)). pose proof (Z.mod_pos_bound p 256 ltac:(lia)).
    destruct (Z.eqb_spec (p / 256) k), (Z.leb_spec (256 * a) p), (Z.ltb_spec p (256 * k)), (Z.ltb_spec p (256 * (k + 1))); (lia || done).
Qed.

Lemma ensure_capacity_ok junk cap_of v m : (forall j, word64 (junk j)) -> (forall k, k <= cap_of k) -> wfe v -> n_lines v <= m ->
  let ws := ensure_capacity junk cap_of v m in
  words ws /\ 5 * m <= Z.of_nat (length ws) /\ flat ws (n_lines v) = flat (m_lines v) (n_lines v).
Proof.
  intros Hj Hc (W & S & N & L) Hm ws. subst ws. unfold ensure_capacity, capacity.
  pose proof (Z.div_mod (Z.of_nat (length (m_lines v))) 5 ltac:(lia)). pose proof (Z.mod_pos_bound (Z.of_nat (length (m_lines v))) 5 ltac:(lia)).
  destruct (Z.leb_spec m (Z.of_nat (length (m_lines v)) / 5)); [split; [done|]; split; [lia|done]|].
  specialize (Hc m). destruct (realloc_lines_ok junk (m_lines v) (n_lines v) (cap_of m) Hj W) as (L' & W' & F & _); [lia|lia|].
  cbn zeta in *. split; [done|]. split; [lia|done].
Qed.

(** More lines keep the bits of the old ones. *)
Lemma flat_more ws n m p : 0 <= p < 256 * n -> n <= m -> bit_at (flat ws m) p = bit_at (flat ws n) p.
Proof. intros Hp Hm. by rewrite !flat_bit by lia. Qed.

Lemma grown_bits ws v m p : flat ws (n_lines v) = flat (m_lines v) (n_lines v) -> n_lines v <= m ->
  0 <= p < 256 * n_lines v -> bit_at (flat ws m) p = bitf v p.
Proof. intros F Hm Hp. rewrite (flat_more _ (n_lines v)) by lia. by rewrite F. Qed.

Lemma il_push_back_ok junk cap_of v val : (forall j, word64 (junk j)) -> (forall k, k <= cap_of k) -> wfe v -> m_size v < 2 ^ 32 - 1 ->
  exists v', push_back junk cap_of v val = Ok v' /\ il_view v' (m_size v + 1) (fun p => if p <? m_size v then bitf v p else val).
Proof.
  intros Hj Hc Hv Hn. pose proof Hv as (W & S & N & L). unfold push_back, push_back_slow_path, LineBits.
  destruct (Z.leb_spec (2 ^ 32 - 1) (m_size v)) as [|_]; [lia|]. cbn [rbind].
  destruct (Z.ltb_spec (m_size v) (n_lines v * 256)) as [Hl|Hl].
  - destruct (il_set_lines (with_size v (m_size v + 1)) (m_size v) val) as (ws & E & Wf & B).
    { unfold wfe, with_size. cbn [m_lines n_lines m_size]. split_and!; (done || lia). }
    { cbn [with_size m_size]. lia. }
    rewrite E. eexists. split; [done|]. split; [done|]. split; [done|]. intros p Hp. cbn [with_size n_lines] in B.
    rewrite B by lia. destruct (Z.eqb_spec p (m_size v)), (Z.ltb_spec p (m_size v)); (lia || done).
  - destruct (ensure_capacity_ok junk cap_of v (n_lines v + 1) Hj Hc Hv) as (W1 & L1 & F1); [lia|]. cbn zeta in *.
    set (w1 := ensure_capacity _ _ _ _) in *.
    destruct (wr_line_ok w1 (n_lines v) (n_lines v + 1) false W1) as (w2 & -> & L2 & W2 & B2); [lia|lia|]. cbn [rbind m_size].
    match goal with |- context [set ?x _ _] => set (u := x) end.
    destruct (il_set_lines u (m_size v) val) as (ws & E & Wf & B).
    { subst u. unfold wfe. cbn [m_lines n_lines m_size]. split_and!; (done || lia). }
    { cbn. lia. }
    replace (m_size v + 1 - 1) with (m_size v) by lia. rewrite E. eexists. split; [done|]. split; [done|]. split; [done|].
    intros p Hp. rewrite B by (cbn [u n_lines]; lia). destruct (Z.eqb_spec p (m_size v)), (Z.ltb_spec p (m_size v)); try lia; [done|].
    unfold bitf at 1. subst u. cbn [m_lines n_lines]. rewrite B2 by lia.
    pose proof (Z.div_mod p 256 ltac:(lia)). pose proof (Z.mod_pos_bound p 256 ltac:(lia)).
    destruct (Z.eqb_spec (p / 256) (n_lines v)); [lia|]. apply grown_bits; (done || lia).
Qed.

Lemma il_fill_ok v val : wfe v -> exists v', fill v val = Ok v' /\ il_view v' (m_size v) (fun _ => val).
Proof.
  intros (W & S & N & L). unfold fill.
  destruct (fill_lines_ok (m_lines v) 0 (n_lines v) (n_lines v) val W) as (w & -> & Lw & Ww & B); [lia|lia|lia|].
  cbn [rbind]. eexists. split; [done|]. split; [unfold wfe, with_lines; cbn [m_lines n_lines m_size]; by rewrite Lw|].
  split; [done|]. intros p Hp. unfold bitf. cbn [with_lines m_lines n_lines]. rewrite B by lia.
  destruct (Z.leb_spec (256 * 0) p), (Z.ltb_spec p (256 * n_lines v)); (lia || done).
Qed.

Lemma il_set_ok v i val : wfe v -> 0 <= i < m_size v ->
  exists v', set v i val = Ok v' /\ il_view v' (m_size v) (fun p => if p =? i then val else bitf v p).
Proof.
  intros Hv Hi. destruct (il_set_lines v i val Hv Hi) as (ws & E & Wf & B). eexists. split; [exact E|]. split; [done|].
  split; [done|]. intros p Hp. destruct Hv as (_ & _ & ? & _). apply B. lia.
Qed.

Lemma il_set_range_ok v i nb val : wfe v -> 0 <= i -> 0 <= nb -> i + nb <= m_size v ->
  exists v', set_range v i nb val = Ok v' /\
    il_view v' (m_size v) (fun p => if (i <=? p) && (p <? i + nb) then val else bitf v p).
Proof.
  intros Hv Hi Hnb Hle. unfold set_range.
  apply (for_inv (fun k u => il_view u (m_size v) (fun p => if (i <=? p) && (p <? i + k) then val else bitf v p))); [done| |].
  - split; [done|]. split; [done|]. intros p Hp. destruct (Z.leb_spec i p), (Z.ltb_spec p (i + 0)); (lia || done).
  - intros k u Hk (Wu & Su & Bu). destruct (il_set_ok u (i + k) val Wu) as (u' & E & Wu' & Su' & Bu'); [lia|].
    exists u'. split.
    { rewrite <- E. unfold set. rewrite (proj2 (Z.ltb_lt _ _)) by lia. done. }
    split; [done|]. split; [congruence|]. intros p Hp. rewrite Bu', Bu by lia.
    destruct (Z.eqb_spec p (i + k)), (Z.leb_spec i p), (Z.ltb_spec p (i + k)), (Z.ltb_spec p (i + (k + 1))); (lia || done).
Qed.

(** [resize]: the bits of new lines are [val]; those between the old size and the
    end of the old last line are what the line held. *)
Lemma il_resize_ok junk cap_of v newsize val : (forall j, word64 (junk j)) -> (forall k, k <= cap_of k) -> wfe v ->
  0 <= newsize < 2 ^ 32 -> exists v', resize junk cap_of v newsize val = Ok v' /\
    il_view v' newsize (fun p => if p <? 256 * n_lines v then bitf v p else val).
Proof.
  intros Hj Hc Hv Hn. pose proof Hv as (W & S & N & L). unfold resize, check_overflow.
  destruct (Z.ltb_spec (2 ^ 32 - 1) newsize) as [|_]; [lia|]. cbn [rbind]. pose proof (lines_bounds newsize ltac:(lia)) as [B0 B1].
  set (m := BitsToLines newsize) in *. destruct (Z.leb_spec m (n_lines v)) as [Hm|Hm]; cbn [rbind].
  - eexists. split; [done|]. split; [unfold wfe; cbn [m_lines n_lines m_size]; split_and!; (done || lia)|]. split; [done|].
    intros p Hp. rewrite (proj2 (Z.ltb_lt _ _)) by lia. unfold bitf. cbn [m_lines n_lines]. symmetry. apply flat_more; lia.
  - destruct (ensure_capacity_ok junk cap_of v m Hj Hc Hv) as (W1 & L1 & F1); [lia|]. cbn zeta in *.
    set (w1 := ensure_capacity _ _ _ _) in *.
    destruct (fill_lines_ok w1 (n_lines v) m m val W1) as (w2 & -> & L2 & W2 & B2); [lia|lia|lia|]. cbn [rbind].
    eexists. split; [done|]. split; [unfold wfe; cbn [m_lines n_lines m_size]; split_and!; (done || lia)|]. split; [done|].
    intros p Hp. unfold bitf at 1. cbn [m_lines n_lines]. rewrite B2 by lia.
    destruct (Z.ltb_spec p (256 * n_lines v)), (Z.leb_spec (256 * n_lines v) p), (Z.ltb_spec p (256 * m)); try lia; cbn [andb]; [|done].
    apply grown_bits; (done || lia).
Qed.

(** ** Editing against the list specification *)

(** The same bits as a [febitvec], whose list lemmas apply. *)
Definition as_fv (v : rank_select_il) : febitvec := FV (flat (m_lines v) (n_lines v)) (m_size v).

Lemma as_fv_wf v : wfe v -> Febitvec.wf (as_fv v).
Proof.
  intros (W & S & N & L). split; [by apply flat_words|]. unfold m_capacity. cbn [as_fv Febitvec.m_words Febitvec.m_size].
  rewrite flat_length by lia. split; [lia|done].
Qed.

Lemma as_fv_view v n f : il_view v n f -> Febitvec.view (as_fv v) n f.
Proof. intros (W & S & B). split; [by apply as_fv_wf|]. split; [done|exact B]. Qed.

Definition il_repr (v : rank_select_il) (l : list bool) : Prop := wfe v /\ bits v = l.

Lemma il_exec_op_ok junk cap_of o v l' : (forall j, word64 (junk j)) -> (forall k, k <= cap_of k) -> wfe v ->
  il_spec_op o (bits v) = Some l' -> exists v', il_exec_op junk cap_of o v = Ok v' /\ il_repr v' l'.
Proof.
  intros Hj Hc Hv Hs. pose proof (as_fv_wf v Hv) as Hf. pose proof (len_bits (as_fv v) Hf) as Lb.
  change (Febitvec.bits (as_fv v)) with (bits v) in Lb. change (Febitvec.m_size (as_fv v)) with (m_size v) in Lb.
  pose proof Hv as (Wv & Sv & Nv & Llv).
  destruct o; cbn [il_spec_op il_exec_op] in *; try (case_decide as Hd; [|done]); injection Hs as <-.
  - destruct (il_set_ok v i b Hv) as (u & E & V); [lia|]. rewrite E. exists u. split; [done|]. split; [apply V|].
    eapply (bits_eq (as_fv u)); [by apply as_fv_view|rewrite len_insert; lia|]. intros p Hp. cbn beta.
    rewrite lbit_insert by lia. destruct (p =? i); [done|]. by apply (lbit_bits (as_fv v)).
  - destruct (il_set_range_ok v i n b Hv) as (u & E & V); [lia..|]. rewrite E. exists u. split; [done|]. split; [apply V|].
    destruct (repr_splice (as_fv v) (as_fv u) (Ok (as_fv u)) i (i + n) (replicate (Z.to_nat n) b)) as (w & [= <-] & _ & B);
      [lia|cbn; lia|done|rewrite len_replicate; lia|done| |exact B].
    eapply view_ext; [by apply as_fv_view|]. intros p Hp. cbn beta.
    destruct (Z.leb_spec i p), (Z.ltb_spec p (i + n)); try done. cbn [andb]. by rewrite lbit_replicate by lia.
  - destruct (il_push_back_ok junk cap_of v b Hj Hc Hv) as (u & E & V); [lia|]. rewrite E. exists u. split; [done|]. split; [apply V|].
    destruct (repr_append (as_fv v) (as_fv u) (Ok (as_fv u)) [b] 1) as (w & [= <-] & _ & B); [done|done|done| |exact B].
    eapply view_ext; [by apply as_fv_view|]. intros p Hp. cbn beta. cbn [as_fv Febitvec.m_size] in *.
    destruct (Z.ltb_spec p (m_size v)); [done|]. by replace (p - m_size v) with 0 by lia.
  - unfold pop_back. rewrite (proj2 (Z.ltb_lt _ _)) by lia. cbn [assert_ rbind]. eexists. split; [done|].
    split; [unfold wfe, with_size; cbn [m_lines n_lines m_size]; split_and!; (done || lia)|].
    replace (length (bits v) - 1)%nat with (Z.to_nat (m_size v - 1)) by (unfold len in *; lia).
    unfold bits. cbn [with_size m_lines n_lines m_size]. apply map_seqZ_lookup; [rewrite length_take; unfold len, bits in *; lia|unfold len in *; lia|].
    intros p Hp. rewrite lookup_take_lt by lia. by rewrite list_lookup_fmap, lookup_seqZ_lt by lia; cbn; do 2 f_equal; lia.
  - destruct (il_fill_ok v b Hv) as (u & E & V). rewrite E. exists u. split; [done|]. split; [apply V|].
    replace (length (bits v)) with (Z.to_nat (m_size v)) by (unfold len in *; lia).
    eapply (bits_eq (as_fv u)); [by apply as_fv_view|rewrite len_replicate; lia|]. intros p Hp. by apply lbit_replicate.
  - destruct (il_resize_ok junk cap_of v n b Hj Hc Hv) as (u & E & V); [lia|]. rewrite E. exists u. split; [done|]. split; [apply V|].
    eapply (bits_eq (as_fv u)); [by apply as_fv_view|rewrite len_take; lia|]. intros p Hp. cbn beta.
    rewrite lbit_take, (proj2 (Z.ltb_lt _ _)) by lia. apply (lbit_bits (as_fv v)). cbn. lia.
Qed.

Lemma il_exec_ok cap_of os : (forall k, k <= cap_of k) -> forall junk v l', (forall k j, word64 (junk k j)) -> wfe v ->
  il_spec os (bits v) = Some l' -> exists v', il_exec junk cap_of os v = Ok v' /\ il_repr v' l'.
Proof.
  intros Hc. induction os as [|o os IH]; intros junk v l' Hj Hv Hs; cbn [il_exec il_spec] in *.
  { injection Hs as <-. by exists v. }
  destruct (il_spec_op o (bits v)) as [l|] eqn:E; [|done]. cbn in Hs.
  destruct (il_exec_op_ok (junk O) cap_of o v l (Hj O) Hc Hv E) as (u & -> & Wu & Bu). cbn [rbind].
  apply IH; [by intros|done|by rewrite Bu].
Qed.

(** * Properties *)

Lemma build_of_ok b41 junk s0 s1 v : (forall j, word64 (junk j)) -> wf v -> plain v ->
  exists Q0 Q1 v', build_of b41 junk s0 s1 v = Ok v' /\ built Q0 Q1 v' /\ image_ok Q0 Q1 v' /\ bits v' = bits v /\
    m_size v' = m_size v /\ Q0 = (if s0 then q_of b41 else 0) /\ Q1 = Z.b2z s1 /\ Q0_ok Q0 /\ Q1_ok Q1 /\ (Q0 = 0 \/ Q0 = q_of b41).
Proof.
  intros Hj Hv Hp. set (Q0 := if s0 then q_of b41 else 0). set (Q1 := Z.b2z s1).
  assert (H0 : Q0_ok Q0 /\ (Q0 = 0 \/ Q0 = q_of b41)) by (subst Q0; unfold Q0_ok; destruct s0, b41; cbn; lia).
  assert (H1 : Q1_ok Q1) by (subst Q1; unfold Q1_ok; destruct s1; cbn; lia).
  destruct (build_cache_q_ok junk Q0 Q1 v Hj Hv Hp (proj1 H0) H1) as (u & E & B & I & N & Hb).
  exists Q0, Q1, u. split; [destruct b41, s0; exact E|]. split; [done|]. split; [done|]. split; [done|].
  split; [|split; [done|split; [done|tauto]]].
  apply (f_equal (fun l => Z.of_nat (length l))) in Hb. unfold bits in Hb. rewrite !length_map, !length_seqZ in Hb.
  pose proof (built_size _ _ u B). destruct Hv as (_ & ? & _). lia.
Qed.

(** C22: functional.  [build_cache] of [rank_select_il_256] and of its [_41]
    variant succeeds for either choice of the select caches and keeps the bits, for
    every vector whose lines are those its size needs ([wf]: not after a [pop_back] that
    left a line behind).  The unchecked [fast_rank] and the selects obey all laws.  The
    checked [rank] obeys them too unless the size is a multiple of 256: then its
    assertion fails at the end ([il_asserts_fail]). *)
Theorem il_build_cache_correct b41 junk s0 s1 v : (forall j, word64 (junk j)) -> wf v -> plain v ->
  exists v', build_of b41 junk s0 s1 v = Ok v' /\ bits v' = bits v /\
    @rs_laws _ (il_ops (q_of b41) true) v' (bitf v') /\
    (m_size v mod 256 <> 0 -> @rs_laws _ (il_ops (q_of b41) false) v' (bitf v')).
Proof.
  intros Hj Hv Hp. destruct (build_of_ok b41 junk s0 s1 v Hj Hv Hp) as (Q0 & Q1 & u & E & B & I & Hb & S & _ & _ & H0 & H1 & Hq).
  exists u. split; [done|]. split; [done|]. split; [|intros Hm; rewrite <- S in Hm];
    apply (il_laws Q0 Q1 (q_of b41) u B I H0 Hq H1); auto.
Qed.

(** equivalence.  The unchecked [fast_select] functions return what the
    checked ones return, for both variants. *)
Theorem il_fast_select_agrees b41 junk s0 s1 v v' : (forall j, word64 (junk j)) -> wf v -> plain v ->
  build_of b41 junk s0 s1 v = Ok v' ->
  (s1 = true -> forall r, 0 <= r < m_max_rank1 v' -> exists p,
     fast_select1 (m_lines v') (m_fast_select1 v') r = Ok p /\ select1 v' r = Ok p /\ is_select (bitf v') r p) /\
  (s0 = true -> forall r, 0 <= r < m_max_rank0 v' -> exists p,
     fast_select0_q (q_of b41) (m_lines v') (m_fast_select0 v') r = Ok p /\ select0_q (q_of b41) v' r = Ok p /\
     is_select (fun i => negb (bitf v' i)) r p).
Proof.
  intros Hj Hv Hp E. destruct (build_of_ok b41 junk s0 s1 v Hj Hv Hp) as (Q0 & Q1 & u & E' & B & I & _ & _ & -> & -> & H0 & H1 & Hq).
  rewrite E' in E. injection E as <-. split; intros -> r Hr.
  - destruct (il_select1_ok _ _ (q_of b41) u B I Hq H1 r Hr) as (p & Ep & S & _ & F). exists p. split; [|done]. apply F.
    destruct I as (_ & -> & _). done.
  - destruct (il_select0_ok _ _ (q_of b41) u B I H0 Hq r Hr) as (p & Ep & S & _ & F). exists p. split; [|done]. apply F.
    destruct I as (-> & _). by destruct b41.
Qed.

(** round trip.  [risk_mmap_from] on the block of a built vector gives the
    object back, for the [_41] variant when it does not have both select caches. *)
Theorem il_mmap_roundtrip b41 junk s0 s1 v v' : (forall j, word64 (junk j)) -> wf v -> plain v ->
  b41 && s0 && s1 = false -> build_of b41 junk s0 s1 v = Ok v' -> risk_mmap_from (m_lines v') = Ok v'.
Proof.
  intros Hj Hv Hp Hc E. destruct (build_of_ok b41 junk s0 s1 v Hj Hv Hp) as (Q0 & Q1 & u & E' & B & I & _ & _ & H0 & H1 & _).
  rewrite E' in E. injection E as <-. apply (il_mmap_ok Q0 Q1); [done..|]. subst Q0 Q1. destruct b41, s0, s1; cbn in *; (discriminate || lia).
Qed.

(** error.  With both select caches, [risk_mmap_from] of the [_41] variant
    places the cache of ones at the wrong index: it counts one slot of zeros per
    256 where [build_cache] wrote four. *)
Theorem il_41_mmap_wrong_select1 junk v v' : (forall j, word64 (junk j)) -> wf v -> plain v ->
  build_cache_41 junk true true v = Ok v' -> 0 < m_max_rank0 v' ->
  exists u, risk_mmap_from (m_lines v') = Ok u /\ m_fast_select1 u <> m_fast_select1 v'.
Proof.
  intros Hj Hv Hp E Hm. destruct (build_of_ok true junk true true v Hj Hv Hp) as (Q0 & Q1 & u & E' & B & I & _ & _ & -> & -> & _).
  change (build_cache_41 junk true true v = Ok u) in E'. rewrite E' in E. injection E as <-. cbn [q_of Z.b2z] in *.
  destruct I as (I0 & I1 & I5 & IF). cbn [Z.eqb negb] in *. pose proof (il_dims 4 1 u B) as (W & Wf & D1 & D2 & D3 & D4 & D5).
  eexists. split.
  - unfold risk_mmap_from. rewrite I5. cbn [Z.eqb assert_ rbind]. rewrite rd_word by lia. cbn [rbind]. rewrite IF.
    destruct (flags_decode (m_size u) true true) as (-> & -> & ->); [lia|].
    change ((m_size u + LineBits - 1) / LineBits) with (BitsToLines (m_size u)). rewrite <- (built_n _ _ u B).
    rewrite (il_lev1 4 1 u B) by lia. cbn [rbind]. rewrite (RankSimple.rank_pad _ (m_size u)) by (lia || apply (built_zero _ _ u B)).
    rewrite <- (built_max0 _ _ u B). reflexivity.
  - cbn [m_fast_select1]. rewrite I1. intros [= H]. unfold slots_q, LineBits in H. cbn [Z.eqb] in H.
    change (256 / 4) with 64 in H. pose proof (Z.div_mod (m_max_rank0 u + 256 - 1) 256 ltac:(lia)).
    pose proof (Z.mod_pos_bound (m_max_rank0 u + 256 - 1) 256 ltac:(lia)).
    pose proof (Z.div_mod (m_max_rank0 u + 256 - 1) 64 ltac:(lia)).
    pose proof (Z.mod_pos_bound (m_max_rank0 u + 256 - 1) 64 ltac:(lia)). lia.
Qed.

(** error.  Two checks of the class fail on vectors it built itself:
    [rank1(size())] indexes the lines out of range when the size is a multiple of
    256 (the unchecked function is right), and [popcnt] asserts
    [max_rank0 + max_rank1 == LineBits * lines], false for any other size. *)
Theorem il_asserts_fail b41 junk s0 s1 v v' : (forall j, word64 (junk j)) -> wf v -> plain v ->
  build_of b41 junk s0 s1 v = Ok v' ->
  (m_size v mod 256 = 0 -> rank1 v' (m_size v') = UB /\ fast_rank1 (m_lines v') (m_size v') = Ok (m_max_rank1 v')) /\
  (m_size v mod 256 <> 0 -> popcnt v' = UB).
Proof.
  intros Hj Hv Hp E. destruct (build_of_ok b41 junk s0 s1 v Hj Hv Hp) as (Q0 & Q1 & u & E' & B & _ & _ & <- & _).
  rewrite E' in E. injection E as <-. pose proof (il_dims _ _ u B) as (W & Wf & D1 & D2 & D3 & D4 & D5).
  pose proof (Z.div_mod (m_size u) 256 ltac:(lia)). split; intros Hm.
  - split; [|rewrite (il_fast_rank1_ok Q0 Q1 u B) by lia; by rewrite (built_max1 _ _ u B)].
    unfold rank1, LineBits. rewrite (proj2 (Z.leb_le _ _)), (proj2 (Z.ltb_ge _ _)) by lia. done.
  - unfold popcnt, popcnt_lines, LineBits. rewrite !(proj2 (Z.leb_le _ _)), (proj2 (Z.eqb_neq _ _)); [done| |lia..].
    rewrite (built_max1 _ _ u B), (built_max0 _ _ u B).
    intros Eq. assert (m_size u = 256 * n_lines u) as Es by lia. rewrite Es, Z.mul_comm, Z.mod_mul in Hm; lia.
Qed.

(** refinement.  The run-length functions, whose loops walk the lines and
    the words of a line, are those of [febitvec] over the words without the cache. *)
Theorem il_seq_len_refines v p : wfe v -> 0 <= p <= m_size v ->
  (p < m_size v -> one_seq_len v p = Febitvec.one_seq_len (flat_bitvec v) p /\
                   zero_seq_len v p = Febitvec.zero_seq_len (flat_bitvec v) p) /\
  one_seq_revlen v p = Febitvec.one_seq_revlen (flat_bitvec v) p /\
  zero_seq_revlen v p = Febitvec.zero_seq_revlen (flat_bitvec v) p.
Proof.
  intros (W & S & N & L) Hp. split; [intros Hlt; apply il_seq_len_flat; lia|apply il_seq_revlen_flat; lia].
Qed.

(** C23: refinement.  Any sequence of [set], range [set], [push_back],
    [pop_back], [fill] and shrinking [resize] whose preconditions hold runs
    without undefined behaviour and computes the bits of the list specification.
    A growing [resize] is not among the operations: it leaves old bits where the
    list would have the new value ([il_resize_keeps_tail]). *)
Theorem il_exec_refines junk cap_of os v l' : (forall k j, word64 (junk k j)) -> (forall k, k <= cap_of k) -> wfe v ->
  il_spec os (bits v) = Some l' -> exists v', il_exec junk cap_of os v = Ok v' /\ wfe v' /\ bits v' = l'.
Proof. intros. by apply il_exec_ok. Qed.

(** functional.  A growing [resize(n, val)] gives [val] only to the bits of
    the lines it adds: those up to the end of the old last line keep what the
    line held there. *)
Theorem il_resize_keeps_tail junk cap_of v n val : (forall j, word64 (junk j)) -> (forall k, k <= cap_of k) -> wfe v ->
  0 <= n < 2 ^ 32 -> exists v', resize junk cap_of v n val = Ok v' /\ wfe v' /\ m_size v' = n /\
    forall p, 0 <= p < n -> bitf v' p = if p <? 256 * n_lines v then bitf v p else val.
Proof. intros Hj Hc Hv Hn. exact (il_resize_ok junk cap_of v n val Hj Hc Hv Hn). Qed.

(** error.  [pop_back] across a line boundary leaves the line, and
    [build_cache] then counts its bits: 257 ones, one removed, give 512 ones. *)
Theorem il_pop_back_stale_count : exists v',
  (let* v := new_filled (fun _ => 0) (fun n => n) 257 true in
   let* v := pop_back v in build_cache (fun _ => 0) false false v) = Ok v' /\
  m_size v' = 256 /\ n_lines v' = 2 /\ m_max_rank1 v' = 512.
Proof. eexists. split; [vm_compute; reflexivity|]. done. Qed.

(** * Witnesses *)

(** 300 bits in two lines, the second with leftovers behind them. *)
Definition sample_il : rank_select_il :=
  Il [9; 0xF0F0; Z.ones 64; 5; 0; 9; Z.ones 64; 0; 7; 1] 2 None None 0 0 300.

Lemma sample_il_wf : wf sample_il.
Proof.
  split; [|cbn; split; [lia|split; [reflexivity|lia]]].
  repeat first [apply List.Forall_nil | apply List.Forall_cons]; vm_compute; split; (discriminate || reflexivity).
Qed.

Lemma il_build_cache_correct_witness : exists v', build_of true (fun _ => 7) true true sample_il = Ok v' /\ bits v' = bits sample_il /\
  @rs_laws _ (il_ops 4 true) v' (bitf v') /\ (300 mod 256 <> 0 -> @rs_laws _ (il_ops 4 false) v' (bitf v')).
Proof. apply (il_build_cache_correct true (fun _ => 7) true true sample_il); [exact RankSe256.junk7|exact sample_il_wf|reflexivity]. Defined.

Definition built_il (b41 s0 s1 : bool) : rank_select_il :=
  match build_of b41 (fun _ => 7) s0 s1 sample_il with Ok v => v | _ => sample_il end.

Lemma il_fast_select_agrees_witness : exists p,
  fast_select1 (m_lines (built_il true true true)) (m_fast_select1 (built_il true true true)) 80 = Ok p /\
  select1 (built_il true true true) 80 = Ok p /\ p = 262.
Proof.
  destruct (il_fast_select_agrees true (fun _ => 7) true true sample_il (built_il true true true)) as [H _].
  - exact RankSe256.junk7.
  - exact sample_il_wf.
  - reflexivity.
  - vm_compute. reflexivity.
  - destruct (H eq_refl 80) as (p & E1 & E2 & _).
    + vm_compute. split; [discriminate|reflexivity].
    + exists p. split; [exact E1|]. split; [exact E2|]. vm_compute in E2. injection E2 as <-. reflexivity.
Defined.

Lemma il_mmap_roundtrip_witness : risk_mmap_from (m_lines (built_il false true true)) = Ok (built_il false true true).
Proof.
  apply (il_mmap_roundtrip false (fun _ => 7) true true sample_il).
  - exact RankSe256.junk7.
  - exact sample_il_wf.
  - reflexivity.
  - reflexivity.
  - vm_compute. reflexivity.
Defined.

Lemma il_41_mmap_wrong_select1_witness : exists u, risk_mmap_from (m_lines (built_il true true true)) = Ok u /\
  m_fast_select1 u <> m_fast_select1 (built_il true true true).
Proof.
  apply (il_41_mmap_wrong_select1 (fun _ => 7) sample_il).
  - exact RankSe256.junk7.
  - exact sample_il_wf.
  - reflexivity.
  - vm_compute. reflexivity.
  - vm_compute. reflexivity.
Defined.

Lemma il_asserts_fail_witness : popcnt (built_il false true false) = UB.
Proof.
  destruct (il_asserts_fail false (fun _ => 7) true false sample_il (built_il false true false)) as [_ H].
  - exact RankSe256.junk7.
  - exact sample_il_wf.
  - reflexivity.
  - vm_compute. reflexivity.
  - apply H. vm_compute. discriminate.
Defined.

Lemma il_seq_len_refines_witness : one_seq_len sample_il 64 = Febitvec.one_seq_len (flat_bitvec sample_il) 64 /\
  one_seq_len sample_il 64 = Ok 65.
Proof.
  destruct (il_seq_len_refines sample_il 64) as [H _].
  - apply wf_wfe. exact sample_il_wf.
  - cbn. lia.
  - split; [apply H; cbn; lia|vm_compute; reflexivity].
Defined.

Lemma il_exec_refines_witness : exists v', il_exec (fun _ _ => 7) (fun n => n) [IlPushBack true; IlSet 3 true; IlShrink 200 false; IlPopBack] sample_il = Ok v' /\
  wfe v' /\ bits v' = take 199 (<[3%nat := true]> (bits sample_il)).
Proof.
  apply (il_exec_refines (fun _ _ => 7) (fun n => n) [IlPushBack true; IlSet 3 true; IlShrink 200 false; IlPopBack] sample_il).
  - intros. apply (RankSe256.junk7 0).
  - intros. lia.
  - apply wf_wfe. exact sample_il_wf.
  - vm_compute. reflexivity.
Defined.

Lemma il_resize_keeps_tail_witness : exists v', resize (fun _ => 7) (fun n => n) sample_il 500 true = Ok v' /\ wfe v' /\
  m_size v' = 500 /\ forall p, 0 <= p < 500 -> bitf v' p = if p <? 256 * 2 then bitf sample_il p else true.
Proof.
  apply (il_resize_keeps_tail (fun _ => 7) (fun n => n) sample_il 500 true).
  - exact RankSe256.junk7.
  - intros. lia.
  - apply wf_wfe. exact sample_il_wf.
  - lia.
Defined.

End RankIl256.
