(* ===== verification/RankSe512.v ===== *)
(** * [rank_select_se_512] (512 bits per line, separate cache)

    [src/src/terark/succinct/rank_select_se_512.hpp] and [.cpp], the portable
    branches, instantiated with [rank_cache_base_t = uint32_t]
    ([rank_select_se_512_32]).  Behind the padded bits lie one [RankCache512] of
    12 bytes per line ([base]: the ones before the line; [rela]: seven 9-bit
    fields, the ones of the line before its words 1 to 7) and one for the total,
    the two optional select caches, and in the last word the flags.
    [m_rank_cache] is the word index of the cache; its entry [i] is the three
    32-bit units from [2 * c + 3 * i] on, so that [rela] is not aligned.  The
    select caches are 32-bit indices into the block. *)
From S2P Require Import Prelude Bits Febitvec Mem RankSpec RankSimple RankSe256.
Import Febitvec Mem RankSpec.

Module RankSe512.

Record rank_select_se_512 := Se512 {
  fv : febitvec; m_rank_cache : option Z; m_sel0_cache : option Z; m_sel1_cache : option Z;
  m_max_rank0 : Z; m_max_rank1 : Z }.

Definition words_of (v : rank_select_se_512) : list Z := m_words (fv v).
Definition size (v : rank_select_se_512) : Z := m_size (fv v).
Definition LineBits : Z := 512.

Definition no_cache (b : febitvec) : rank_select_se_512 := Se512 b None None None 0 0.
Definition is_none {A} (o : option A) : bool := match o with None => true | Some _ => false end.

(** ** The caches *)

(** [rank512(rela, i)], and [TERARK_GET_BITS_64(rela, k, 9)] where [k] may be 0 *)
Definition rank512 (bm i : Z) : Z := Z.land (Z.shiftr bm ((i - 1) * 9)) 511.
Definition get_bits9 (bm k : Z) : Z := if k =? 0 then 0 else rank512 bm k.

Definition base (ws : list Z) (cache : option Z) (i : Z) : res Z :=
  match cache with Some c => rdf 32 ws (2 * c + 3 * i) | None => UB end.
Definition rela (ws : list Z) (cache : option Z) (i : Z) : res Z :=
  match cache with
  | Some c => let* lo := rdf 32 ws (2 * c + 3 * i + 1) in
              let* hi := rdf 32 ws (2 * c + 3 * i + 2) in Ok (Z.lor lo (Z.shiftl hi 32))
  | None => UB
  end.
(** [rank_cache[i].rela = x] *)
Definition wr_rela (ws : list Z) (c i x : Z) : res (list Z) :=
  let* ws := wrf 32 ws (2 * c + 3 * i + 1) (x mod 2 ^ 32) in
  wrf 32 ws (2 * c + 3 * i + 2) (Z.shiftr x 32).

Definition key1 (ws : list Z) (cache : option Z) (i : Z) : res Z := base ws cache i.
Definition key0 (ws : list Z) (cache : option Z) (i : Z) : res Z :=
  let* r := base ws cache i in Ok (LineBits * i - r).

(** ** Rank *)

Definition fast_rank1 (ws : list Z) (cache : option Z) (bitpos : Z) : res Z :=
  let* b := base ws cache (bitpos / 512) in
  let* r := rela ws cache (bitpos / 512) in
  let k := bitpos mod 512 / 64 in
  let* w := rd ws (bitpos / 64) in
  let tail := fast_popcount_trail w (bitpos mod 64) in
  Ok (b + tail + get_bits9 r k).

Definition fast_rank0 (ws : list Z) (cache : option Z) (bitpos : Z) : res Z :=
  let* r := fast_rank1 ws cache bitpos in Ok (bitpos - r).

Definition rank1 (v : rank_select_se_512) (bitpos : Z) : res Z :=
  let* _ := assert_ (bitpos <=? size v) in fast_rank1 (words_of v) (m_rank_cache v) bitpos.

Definition rank0 (v : rank_select_se_512) (bitpos : Z) : res Z :=
  let* _ := assert_ (bitpos <=? size v) in
  let* r := rank1 v bitpos in Ok (bitpos - r).

(** ** Select inside the line before [lo] *)

(** The word of a 512-bit line that holds rank [r]; [c j] is the rank at its
    word [j], [w j] reads the word. *)
Definition line_select8 (w : Z -> res Z) (c : Z -> Z) (r : Z) : res Z :=
  let nth64 j := let* x := w j in let* s := UintSelect1 x (r - c j) in Ok (64 * j + s) in
  if r <? c 4 then
    if r <? c 2 then if r <? c 1 then nth64 0 else nth64 1
    else if r <? c 3 then nth64 2 else nth64 3
  else
    if r <? c 6 then if r <? c 5 then nth64 4 else nth64 5
    else if r <? c 7 then nth64 6 else nth64 7.

Definition in_line1 (ws : list Z) (cache : option Z) (lo Rank1 : Z) : res Z :=
  let* upp := key1 ws cache lo in
  let* _ := assert_ (Rank1 <? upp) in
  let* hit := key1 ws cache (lo - 1) in
  let line_bitpos := (lo - 1) * LineBits in
  let* rcRela := rela ws cache (lo - 1) in
  let* p := line_select8 (fun j => rd ws (8 * (lo - 1) + j))
    (fun j => if j =? 0 then hit else hit + rank512 rcRela j) Rank1 in
  Ok (line_bitpos + p).

Definition in_line0 (ws : list Z) (cache : option Z) (lo Rank0 : Z) : res Z :=
  let* upp := key0 ws cache lo in
  let* _ := assert_ (Rank0 <? upp) in
  let* hit := key0 ws cache (lo - 1) in
  let line_bitpos := (lo - 1) * LineBits in
  let* rcRela := rela ws cache (lo - 1) in
  let* p := line_select8 (fun j => let* w := rd ws (8 * (lo - 1) + j) in Ok (not64 w))
    (fun j => if j =? 0 then hit else hit + 64 * j - rank512 rcRela j) Rank0 in
  Ok (line_bitpos + p).

(** ** Search of the line; both the checked and the [fast_] functions scan short
    ranges and search long ones *)

Definition load_select_cache (ws : list Z) (sel : option Z) (Rank : Z) : res (Z * Z) :=
  let* lo := rd_sel ws sel (Rank / LineBits) in
  let* hi := rd_sel ws sel (Rank / LineBits + 1) in Ok (lo, hi).

Definition load_select0_cache_safe (v : rank_select_se_512) (Rank0 : Z) : res (Z * Z) :=
  let* _ := assert_ (Rank0 <? m_max_rank0 v) in
  match m_sel0_cache v with
  | Some _ => load_select_cache (words_of v) (m_sel0_cache v) Rank0
  | None => Ok (0, (size v + LineBits + 1) / LineBits)
  end.
Definition load_select1_cache_safe (v : rank_select_se_512) (Rank1 : Z) : res (Z * Z) :=
  let* _ := assert_ (Rank1 <? m_max_rank1 v) in
  match m_sel1_cache v with
  | Some _ => load_select_cache (words_of v) (m_sel1_cache v) Rank1
  | None => Ok (0, (size v + LineBits + 1) / LineBits)
  end.

(** [hi - lo < 32] on [size_t]: false when [hi < lo] *)
Definition upper_bound_line (key : Z -> res Z) (rng : Z * Z) (r : Z) : res Z :=
  let '(lo, hi) := rng in
  if (lo <=? hi) && (hi - lo <? 32) then scan_up key 64 r lo else upper_bound key r lo hi.

Definition select0_upper_bound_line (rng : Z * Z) (ws : list Z) (cache : option Z) (Rank0 : Z) : res Z :=
  upper_bound_line (key0 ws cache) rng Rank0.
Definition select1_upper_bound_line (rng : Z * Z) (ws : list Z) (cache : option Z) (Rank1 : Z) : res Z :=
  upper_bound_line (key1 ws cache) rng Rank1.

Definition select0 (v : rank_select_se_512) (Rank0 : Z) : res Z :=
  let* rng := load_select0_cache_safe v Rank0 in
  let* lo := select0_upper_bound_line rng (words_of v) (m_rank_cache v) Rank0 in
  in_line0 (words_of v) (m_rank_cache v) lo Rank0.
Definition select1 (v : rank_select_se_512) (Rank1 : Z) : res Z :=
  let* rng := load_select1_cache_safe v Rank1 in
  let* lo := select1_upper_bound_line rng (words_of v) (m_rank_cache v) Rank1 in
  in_line1 (words_of v) (m_rank_cache v) lo Rank1.

Definition fast_select0 (ws : list Z) (sel0 cache : option Z) (Rank0 : Z) : res Z :=
  let* rng := load_select_cache ws sel0 Rank0 in
  let* lo := select0_upper_bound_line rng ws cache Rank0 in in_line0 ws cache lo Rank0.
Definition fast_select1 (ws : list Z) (sel1 cache : option Z) (Rank1 : Z) : res Z :=
  let* rng := load_select_cache ws sel1 Rank1 in
  let* lo := select1_upper_bound_line rng ws cache Rank1 in in_line1 ws cache lo Rank1.

Definition isall0 (v : rank_select_se_512) : bool := m_max_rank1 v =? 0.
Definition isall1 (v : rank_select_se_512) : bool := m_max_rank0 v =? 0.
Definition mem_size (v : rank_select_se_512) : Z := m_capacity (fv v) / 8.

(** ** Construction *)

Definition check_overflow (n : Z) : res unit := if 2 ^ 32 - 1 <? n then Throw terark_die else Ok tt.
Definition line_ceil (n : Z) : Z := Z.land (n + LineBits - 1) (Z.lnot (LineBits - 1)).

Definition new_filled (junk : nat -> Z) (n : Z) (val : bool) : res rank_select_se_512 :=
  let* b := make junk n val in
  let* _ := check_overflow (m_size b) in Ok (no_cache b).
(** These two check the size of the empty vector, not [n]. *)
Definition new_no_init (junk : nat -> Z) (n : Z) : res rank_select_se_512 :=
  let* _ := check_overflow (m_size empty_vec) in
  let* b := resize_no_init junk empty_vec n in Ok (no_cache b).
Definition new_reserve (junk : nat -> Z) (n : Z) : res rank_select_se_512 :=
  let* _ := check_overflow (m_size empty_vec) in Ok (no_cache (reserve junk empty_vec n)).

(** The copy subtracts [RankCache512] pointers: the distance must be a multiple
    of the 12 bytes of an entry. *)
Definition copy (junk : nat -> Z) (y : rank_select_se_512) : res rank_select_se_512 :=
  let b := reserve junk empty_vec (m_capacity (fv y)) in
  let ws := words_of y ++ drop (length (words_of y)) (m_words b) in
  let* _ := match m_rank_cache y with Some c => assert_ (8 * c mod 12 =? 0) | None => Ok tt end in
  let* _ := assert_ (is_none (m_sel0_cache y) || negb (is_none (m_rank_cache y))) in
  let* _ := assert_ (is_none (m_sel1_cache y) || negb (is_none (m_rank_cache y))) in
  Ok (Se512 (FV ws (size y)) (m_rank_cache y) (m_sel0_cache y) (m_sel1_cache y) (m_max_rank0 y) (m_max_rank1 y)).

Definition clear (v : rank_select_se_512) : rank_select_se_512 := no_cache empty_vec.

Definition shrink (junk : nat -> Z) (v : rank_select_se_512) : res rank_select_se_512 :=
  let* _ := assert_ (is_none (m_rank_cache v)) in
  let* _ := assert_ (is_none (m_sel0_cache v)) in
  let* _ := assert_ (is_none (m_sel1_cache v)) in
  let* _ := assert_ (m_max_rank0 v =? 0) in
  let* _ := assert_ (m_max_rank1 v =? 0) in
  let* b := shrink_to_fit junk (fv v) in Ok (no_cache b).

(** The loop over the words of line [i]: the running count and the packed fields. *)
Definition pack_rela (ws : list Z) (i : Z) : res (Z * Z) :=
  let* (r, x) := for_ 0 8 (fun j '(r, x) =>
    let* w := rd ws (i * 8 + j) in
    let r := r + fast_popcount w in Ok (r, Z.lor x (shl64 r (j * 9)))) (0, 0) in
  Ok (r, Z.land x (Z.shiftr (Z.ones 64) 1)).

Definition fill_rank_cache (c nlines : Z) (ws : list Z) : res (list Z * Z) :=
  for_ 0 nlines (fun i '(ws, Rank1) =>
    let* (r, x) := pack_rela ws i in
    let* ws := wrf 32 ws (2 * c + 3 * i) Rank1 in
    let* ws := wr_rela ws c i x in
    Ok (ws, Rank1 + r)) (ws, 0).

Definition slots_of (max_rank : Z) : Z := (max_rank + LineBits - 1) / LineBits.

Definition build_cache (junk1 junk2 : nat -> Z) (speed_select0 speed_select1 : bool) (v : rank_select_se_512)
    : res rank_select_se_512 :=
  let* _ := check_overflow (size v) in
  if is_null (fv v) then Ok v else
  let* v := shrink junk1 v in
  let ceiled_bits := line_ceil (size v) in
  let nlines := ceiled_bits / LineBits in
  let b := reserve junk1 (fv v) (ceiled_bits + (nlines + 1) * 12 * 8) in
  let* ws := bits_range_set0 (m_words b) (m_size b) ceiled_bits in
  let c := ceiled_bits / 64 in
  let* (ws, Rank1) := fill_rank_cache c nlines ws in
  let* ws := wrf 32 ws (2 * c + 3 * nlines) Rank1 in
  let* ws := wr_rela ws c nlines 0 in
  let max_rank0 := m_size b - Rank1 in
  let max_rank1 := Rank1 in
  let select0_slots := slots_of max_rank0 in
  let select1_slots := slots_of max_rank1 in
  let u32_slots := Z.land (1 + (if speed_select0 then select0_slots + 1 else 0)
                             + (if speed_select1 then select1_slots + 1 else 0)) (Z.lnot 1) in
  let b := reserve junk2 (FV ws (m_size b)) (m_capacity b + 32 * (u32_slots + 2)) in
  let select_index := 2 * c + 3 * (nlines + 1) in
  let* ws := for_ select_index (2 * Z.of_nat (length (m_words b))) (fun k ws => wrf 32 ws k 0) (m_words b) in
  let* ws := if speed_select0
    then build_sel (fun ws => key0 ws (Some c)) LineBits select_index select0_slots nlines ws
    else Ok ws in
  let select_index1 := if speed_select0 then select_index + (select0_slots + 1) else select_index in
  let* ws := if speed_select1
    then build_sel (fun ws => key1 ws (Some c)) LineBits select_index1 select1_slots nlines ws
    else Ok ws in
  let flags := Z.lor (Z.lor (Z.shiftl (m_size b) 8) (Z.shiftl (Z.b2z speed_select1) 1)) (Z.b2z speed_select0) in
  let* ws := wrf 64 ws (m_capacity b / 64 - 1) flags in
  Ok (Se512 (FV ws (m_size b)) (Some c)
        (if speed_select0 then Some select_index else None)
        (if speed_select1 then Some select_index1 else None) max_rank0 max_rank1).

Definition risk_mmap_from (ws : list Z) : res rank_select_se_512 :=
  let* flags := rdf 64 ws (Z.of_nat (length ws) - 1) in
  let m_size := Z.shiftr flags 8 in
  let ceiled_bits := line_ceil m_size in
  let nlines := ceiled_bits / LineBits in
  let c := ceiled_bits / 64 in
  let* max_rank1 := base ws (Some c) nlines in
  let max_rank0 := m_size - max_rank1 in
  let select_index := 2 * c + 3 * (nlines + 1) in
  let has0 := negb (Z.land flags 1 =? 0) in
  let has1 := negb (Z.land flags 2 =? 0) in
  Ok (Se512 (FV ws m_size) (Some c) (if has0 then Some select_index else None)
        (if has1 then Some (if has0 then select_index + (slots_of max_rank0 + 1) else select_index) else None)
        max_rank0 max_rank1).

#[export] Instance se512_rs : RankSelect rank_select_se_512 := {|
  rs_size := size; rs_is1 := fun v p => is1 (fv v) p;
  rs_rank0 := rank0; rs_rank1 := rank1; rs_select0 := select0; rs_select1 := select1;
  rs_max_rank0 := m_max_rank0; rs_max_rank1 := m_max_rank1 |}.

(** ** The 9-bit fields *)

Lemma testbit_rank512 bm i m : 1 <= i -> 0 <= m -> Z.testbit (rank512 bm i) m = (m <? 9) && Z.testbit bm ((i - 1) * 9 + m).
Proof.
  intros Hi Hm. unfold rank512. change 511 with (Z.ones 9). rewrite Z.land_spec, Z.shiftr_spec, Z.testbit_ones_nonneg by lia.
  rewrite andb_comm. do 2 f_equal. lia.
Qed.

Lemma rank512_eq bm i x : 1 <= i -> 0 <= x < 512 -> (forall m, 0 <= m < 9 -> Z.testbit bm ((i - 1) * 9 + m) = Z.testbit x m) ->
  rank512 bm i = x.
Proof.
  intros Hi Hx H. apply Z.bits_inj'. intros m Hm. rewrite testbit_rank512 by done. destruct (Z.ltb_spec m 9); [by apply H|].
  symmetry. apply (testbit_high x m 9); lia.
Qed.

Lemma rank512_ext bm bm' i : 1 <= i -> (forall m, 0 <= m < 9 -> Z.testbit bm ((i - 1) * 9 + m) = Z.testbit bm' ((i - 1) * 9 + m)) ->
  rank512 bm i = rank512 bm' i.
Proof.
  intros Hi H. apply Z.bits_inj'. intros m Hm. rewrite !testbit_rank512 by done. destruct (Z.ltb_spec m 9); [|done]. cbn. apply H. lia.
Qed.

(** The running count of a line and its packed fields. *)
Lemma pack_rela_ok ws i : words ws -> 0 <= i -> 8 * i + 8 <= Z.of_nat (length ws) -> let f := bit_at ws in
  exists x, pack_rela ws i = Ok (rank f (512 * (i + 1)) - rank f (512 * i), x) /\ 0 <= x < 2 ^ 63 /\
    forall j, 1 <= j < 8 -> rank512 x j = rank f (512 * i + 64 * j) - rank f (512 * i).
Proof.
  intros Hw Hi Hl f. unfold pack_rela. set (d := fun j => rank f (512 * i + 64 * j) - rank f (512 * i)).
  assert (Hd : forall j, 0 <= j <= 8 -> 0 <= d j <= 64 * j).
  { intros j Hj. subst d. cbn beta. pose proof (rank_mono f (512 * i) (512 * i + 64 * j)).
    pose proof (rank_step f (512 * i) (512 * i + 64 * j)). lia. }
  match goal with |- context [for_ 0 8 ?body _] =>
    destruct (for_inv (fun j '(r, x) => r = d j /\ word64 x /\ (forall m, 9 * j <= m -> Z.testbit x m = false) /\
      forall k, 1 <= k < 8 -> k <= j -> rank512 x k = d k) body 0 8 (0, 0)) as ((r & x) & -> & -> & Wx & _ & F) end.
  - lia.
  - subst d. cbn beta. split; [rewrite Z.mul_0_r, Z.add_0_r; lia|]. split; [unfold word64; lia|]. split; [intros; apply Z.bits_0|].
    intros; lia.
  - intros j [r x] Hj (-> & Wx & T & F). rewrite rd_word by lia. cbn [rbind].
    assert (d j + fast_popcount (word_at ws (i * 8 + j)) = d (j + 1)) as ->.
    { pose proof (rank_words ws (i * 8 + j) ltac:(lia)) as R. fold f in R. subst d. cbn beta.
      replace (64 * (i * 8 + j + 1)) with (512 * i + 64 * (j + 1)) in R by lia.
      replace (64 * (i * 8 + j)) with (512 * i + 64 * j) in R by lia. lia. }
    pose proof (Hd (j + 1) ltac:(lia)) as Hr. eexists. split; [done|]. split; [done|].
    assert (B : forall m, 0 <= m -> Z.testbit (Z.lor x (shl64 (d (j + 1)) (j * 9))) m =
      Z.testbit x m || ((m <? 64) && (9 * j <=? m) && Z.testbit (d (j + 1)) (m - 9 * j))).
    { intros m Hm. rewrite Z.lor_spec, testbit_shl64 by lia. by rewrite (Z.mul_comm j). }
    split; [apply word64_lor; auto with word64|]. split.
    + intros m Hm. rewrite B, T by lia. cbn [orb]. destruct (Z.ltb_spec m 64); [|done]. cbn [andb].
      rewrite (testbit_high _ _ 9) by lia. by rewrite andb_false_r.
    + intros k Hk Hkj. destruct (decide (k = j + 1)) as [->|].
      * apply rank512_eq; [lia|lia|]. intros m Hm. rewrite B, T by lia. cbn [orb].
        rewrite (proj2 (Z.ltb_lt _ _)), (proj2 (Z.leb_le _ _)) by lia. cbn [andb]. f_equal. lia.
      * rewrite <- (F k) by lia. apply rank512_ext; [lia|]. intros m Hm. rewrite B by lia.
        rewrite (proj2 (Z.leb_gt (9 * j) _)) by lia. rewrite andb_false_r. apply orb_false_r.
  - cbn [rbind]. change (Z.shiftr (Z.ones 64) 1) with (Z.ones 63). eexists. split.
    { subst d. cbn beta. by replace (512 * i + 64 * 8) with (512 * (i + 1)) by lia. }
    rewrite Z.land_ones by lia. split; [apply Z.mod_pos_bound; lia|]. intros j Hj. change (rank512 (x mod 2 ^ 63) j = d j).
    rewrite <- (F j) by lia. apply rank512_ext; [lia|]. intros m Hm. apply Z.mod_pow2_bits_low. lia.
Qed.

(** ** The unaligned 64-bit field *)

Definition rela_at (ws : list Z) (c i : Z) : Z :=
  Z.lor (fld 32 ws (2 * c + 3 * i + 1)) (Z.shiftl (fld 32 ws (2 * c + 3 * i + 2)) 32).

Lemma split32 x : 0 <= x < 2 ^ 64 -> Z.lor (x mod 2 ^ 32) (Z.shiftl (Z.shiftr x 32) 32) = x.
Proof.
  intros Hx. apply Z.bits_inj'. intros m Hm. rewrite Z.lor_spec, Z.shiftl_spec by lia.
  destruct (Z.lt_ge_cases m 32).
  - rewrite Z.mod_pow2_bits_low, (Z.testbit_neg_r _ (m - 32)) by lia. apply orb_false_r.
  - rewrite Z.mod_pow2_bits_high, Z.shiftr_spec by lia. cbn. f_equal. lia.
Qed.

Lemma rela_ok ws c i : 0 <= c -> 0 <= i -> 32 * (2 * c + 3 * i + 2) < 64 * Z.of_nat (length ws) ->
  rela ws (Some c) i = Ok (rela_at ws c i).
Proof. intros. unfold rela. rewrite !rdf_ok by (auto with word64 || lia). done. Qed.

Lemma wr_rela_ok ws c i x : words ws -> 0 <= c -> 0 <= i -> 32 * (2 * c + 3 * i + 2) < 64 * Z.of_nat (length ws) ->
  0 <= x < 2 ^ 64 -> exists ws', wr_rela ws c i x = Ok ws' /\
    same_out ws ws' (32 * (2 * c + 3 * i + 1)) (32 * (2 * c + 3 * i + 3)) /\ rela_at ws' c i = x.
Proof.
  intros Hw Hc Hi Hl Hx. unfold wr_rela. pose proof (Z.mod_pos_bound x (2 ^ 32) ltac:(lia)).
  destruct (wrf_ok 32 ws (2 * c + 3 * i + 1) (x mod 2 ^ 32)) as (w1 & -> & P1); [auto with word64|done|lia..|]. cbn [rbind].
  pose proof P1 as (L1 & W1 & _).
  assert (Hs : 0 <= Z.shiftr x 32 < 2 ^ 32).
  { rewrite Z.shiftr_div_pow2 by lia. split; [apply Z.div_pos; lia|apply Z.div_lt_upper_bound; lia]. }
  destruct (wrf_ok 32 w1 (2 * c + 3 * i + 2) (Z.shiftr x 32)) as (w2 & -> & P2); [auto with word64|done|lia..|].
  exists w2. split; [done|]. split.
  { eapply same_out_put; [|exact P2|lia|lia]. eapply same_out_weak; [by eapply same_out_of_put; [|exact P1]|lia|lia]. }
  unfold rela_at. rewrite (fld_same 32 w1 w2 (2 * c + 3 * i + 2) _ width32 ltac:(lia) Hs P2).
  rewrite (fld_frame 32 w1 w2 _ _ _ (2 * c + 3 * i + 1) width32 ltac:(lia) P2) by lia.
  rewrite (fld_same 32 ws w1 (2 * c + 3 * i + 1) (x mod 2 ^ 32) width32 ltac:(lia) ltac:(lia) P1). by apply split32.
Qed.

(** ** The rank cache *)

Definition nlines (n : Z) : Z := (n + 511) / 512.

Lemma s512_line_ceil_eq n : 0 <= n -> line_ceil n = 512 * nlines n.
Proof.
  intros Hn. unfold line_ceil, nlines, LineBits. replace (n + 512 - 1) with (n + 511) by lia.
  change (512 - 1) with (Z.ones 9). rewrite <- Z.ldiff_land, Z.ldiff_ones_r, Z.shiftr_div_pow2, Z.shiftl_mul_pow2 by lia.
  change (2 ^ 9) with 512. lia.
Qed.

Lemma s512_nlines_bounds n : 0 <= n -> 0 <= nlines n /\ n <= 512 * nlines n < n + 512.
Proof.
  intros Hn. unfold nlines. pose proof (Z.div_mod (n + 511) 512 ltac:(lia)). pose proof (Z.mod_pos_bound (n + 511) 512 ltac:(lia)). lia.
Qed.

Lemma s512_slots_bounds m : 0 <= m -> 0 <= slots_of m /\ m <= 512 * slots_of m < m + 512.
Proof.
  intros Hm. replace (slots_of m) with (nlines m) by (unfold slots_of, LineBits, nlines; f_equal; lia).
  by apply s512_nlines_bounds.
Qed.

(** The cache of [n] lines at word [c] describes the bits [f]. *)
Record cache_ok (ws : list Z) (f : Z -> bool) (c n : Z) : Prop := {
  cache_base : forall i, 0 <= i <= n -> fld 32 ws (2 * c + 3 * i) = rank f (512 * i);
  cache_rela : forall i j, 0 <= i < n -> 1 <= j < 8 ->
    rank512 (rela_at ws c i) j = rank f (512 * i + 64 * j) - rank f (512 * i) }.

Lemma rela_at_frame ws ws' c i a b : same_out ws ws' a b -> 0 <= c -> 0 <= i ->
  32 * (2 * c + 3 * i + 3) <= a \/ b <= 32 * (2 * c + 3 * i + 1) -> rela_at ws' c i = rela_at ws c i.
Proof.
  intros O Hc Hi Hd. unfold rela_at.
  rewrite !(same_out_fld ws ws' a b 32 _ O) by (auto with word64 || lia). done.
Qed.

Lemma s512_cache_frame ws ws' f c n a b : cache_ok ws f c n -> same_out ws ws' a b -> 0 <= c -> 0 <= n ->
  32 * (2 * c + 3 * (n + 1)) <= a -> cache_ok ws' f c n.
Proof.
  intros [H1 H2] O Hc Hn Ha. split.
  - intros i Hi. rewrite (same_out_fld ws ws' a b 32 _ O) by (auto with word64 || lia). auto.
  - intros i j Hi Hj. rewrite (rela_at_frame ws ws' _ _ a b O) by lia. auto.
Qed.

Lemma s512_cache_ext ws f g c n : 0 <= n -> (forall p, 0 <= p < 512 * n -> f p = g p) -> cache_ok ws f c n -> cache_ok ws g c n.
Proof.
  intros Hn Hfg [H1 H2].
  assert (R : forall p, 0 <= p <= 512 * n -> rank f p = rank g p) by (intros p Hp; apply rank_ext; intros; apply Hfg; lia).
  split; intros; rewrite <- ?R by lia; auto.
Qed.

Lemma s512_fill_ok ws n sz : words ws -> 0 <= n -> 512 * n + 96 * (n + 1) <= 64 * Z.of_nat (length ws) ->
  0 <= sz < 2 ^ 32 -> (forall p, sz <= p < 512 * n -> bit_at ws p = false) -> let f := bit_at ws in
  exists ws', fill_rank_cache (8 * n) n ws = Ok (ws', rank f (512 * n)) /\
    same_out ws ws' (512 * n) (512 * n + 96 * n) /\
    (forall i, 0 <= i < n -> fld 32 ws' (2 * (8 * n) + 3 * i) = rank f (512 * i)) /\
    (forall i j, 0 <= i < n -> 1 <= j < 8 ->
      rank512 (rela_at ws' (8 * n) i) j = rank f (512 * i + 64 * j) - rank f (512 * i)).
Proof.
  intros Hw Hn Hl Hsz Hz f. unfold fill_rank_cache.
  assert (Hr : forall i, 0 <= i <= n -> 0 <= rank f (512 * i) < 2 ^ 32).
  { intros i Hi. split; [pose proof (rank_bounds f (512 * i)); lia|].
    apply (RankSimple.rank_lt_2_32 _ sz); [lia|lia| |lia]. intros p Hp. apply Hz. lia. }
  match goal with |- context [for_ 0 n ?body _] =>
    destruct (for_inv (fun i '(w, R) => R = rank f (512 * i) /\ same_out ws w (512 * n) (512 * n + 96 * n) /\
      (forall k, 0 <= k < i -> fld 32 w (2 * (8 * n) + 3 * k) = rank f (512 * k)) /\
      (forall k j, 0 <= k < i -> 1 <= j < 8 ->
        rank512 (rela_at w (8 * n) k) j = rank f (512 * k + 64 * j) - rank f (512 * k))) body 0 n (ws, 0))
      as ((ws' & R) & -> & -> & O & F1 & F2) end; [done| | |by eauto].
  - split; [done|]. split; [by apply same_out_refl|]. split; intros; lia.
  - intros i [w R] Hi (-> & O & F1 & F2). pose proof O as (Lw & Ww & _).
    destruct (pack_rela_ok w i Ww) as (x & -> & Hx & Fx); [lia|lia|]. cbn [rbind].
    assert (Hf : forall p, 0 <= p <= 512 * n -> rank (bit_at w) p = rank f p).
    { intros p Hp. by apply (same_out_rank ws w (512 * n) (512 * n + 96 * n)). }
    rewrite !Hf in * by lia.
    destruct (wrf_ok 32 w (2 * (8 * n) + 3 * i) (rank f (512 * i))) as (w1 & -> & P); [auto with word64|done|lia|lia|apply Hr; lia|].
    cbn [rbind]. assert (O1 : same_out ws w1 (512 * n) (512 * n + 96 * n)) by (eapply same_out_put; [exact O|exact P|lia|lia]).
    pose proof O1 as (Lw1 & Ww1 & _).
    destruct (wr_rela_ok w1 (8 * n) i x Ww1) as (w2 & -> & O2 & G); [lia..|]. cbn [rbind].
    eexists. split; [done|]. split; [lia|]. split.
    { eapply same_out_trans; [exact O1|]. eapply same_out_weak; [exact O2|lia|lia]. }
    pose proof (same_out_of_put _ _ _ _ _ Ww P) as Op. split.
    + intros k Hk. rewrite (same_out_fld w1 w2 _ _ 32 _ O2) by (auto with word64 || lia).
      destruct (decide (k = i)) as [->|]; [by apply (fld_same 32 w w1); [auto with word64|lia|apply Hr; lia|]|].
      rewrite (fld_frame 32 w w1 _ _ _ (2 * (8 * n) + 3 * k) width32 ltac:(lia) P) by lia. apply F1. lia.
    + intros k j Hk Hj. destruct (decide (k = i)) as [->|].
      * rewrite G, Fx by lia. by rewrite !Hf by lia.
      * rewrite (rela_at_frame w1 w2 _ _ _ _ O2), (rela_at_frame w w1 _ _ _ _ Op) by lia. apply F2; lia.
Qed.

(** With the entry of the total. *)
Lemma s512_whole_ok ws n sz : words ws -> 0 <= n -> 512 * n + 96 * (n + 1) <= 64 * Z.of_nat (length ws) ->
  0 <= sz < 2 ^ 32 -> (forall p, sz <= p < 512 * n -> bit_at ws p = false) ->
  exists ws1 ws2 ws3, fill_rank_cache (8 * n) n ws = Ok (ws1, rank (bit_at ws) (512 * n)) /\
    wrf 32 ws1 (2 * (8 * n) + 3 * n) (rank (bit_at ws) (512 * n)) = Ok ws2 /\
    wr_rela ws2 (8 * n) n 0 = Ok ws3 /\
    same_out ws ws3 (512 * n) (512 * n + 96 * (n + 1)) /\ cache_ok ws3 (bit_at ws) (8 * n) n /\ rela_at ws3 (8 * n) n = 0.
Proof.
  intros Hw Hn Hl Hsz Hz. destruct (s512_fill_ok ws n sz) as (ws1 & E1 & O1 & F1 & F2); [done..|].
  pose proof O1 as (L1 & W1 & _). cbn zeta in *.
  assert (Hr : 0 <= rank (bit_at ws) (512 * n) < 2 ^ 32).
  { split; [pose proof (rank_bounds (bit_at ws) (512 * n)); lia|]. apply (RankSimple.rank_lt_2_32 _ sz); (done || lia). }
  destruct (wrf_ok 32 ws1 (2 * (8 * n) + 3 * n) (rank (bit_at ws) (512 * n))) as (ws2 & E2 & P2); [auto with word64|done|lia..|].
  pose proof P2 as (L2 & W2 & _). pose proof (same_out_of_put _ _ _ _ _ W1 P2) as O2.
  destruct (wr_rela_ok ws2 (8 * n) n 0 W2) as (ws3 & E3 & O3 & G); [lia..|].
  exists ws1, ws2, ws3. do 3 (split; [done|]). split; [|split; [|done]].
  { eapply same_out_trans; [eapply same_out_weak; [exact O1|lia|lia]|].
    eapply same_out_trans; (eapply same_out_weak; [eassumption|lia|lia]). }
  split.
  - intros i Hi. rewrite (same_out_fld ws2 ws3 _ _ 32 _ O3) by (auto with word64 || lia).
    destruct (decide (i = n)) as [->|]; [apply (fld_same 32 ws1 ws2); (done || lia || auto with word64)|].
    rewrite (same_out_fld ws1 ws2 _ _ 32 _ O2) by (auto with word64 || lia). apply F1. lia.
  - intros i j Hi Hj. rewrite (rela_at_frame ws2 ws3 _ _ _ _ O3), (rela_at_frame ws1 ws2 _ _ _ _ O2) by lia. by apply F2.
Qed.

(** ** Reading a cache *)

Section cache.
Context (ws : list Z) (f : Z -> bool) (n : Z) (Hn : 0 <= n) (C : cache_ok ws f (8 * n) n)
  (Hlen : 512 * n + 96 * (n + 1) <= 64 * Z.of_nat (length ws)).

Lemma base_ok i : 0 <= i <= n -> base ws (Some (8 * n)) i = Ok (Kones f 512 i).
Proof. intros Hi. unfold base. rewrite rdf_ok by (auto with word64 || lia). by rewrite (cache_base _ _ _ _ C). Qed.

Lemma s512_key0_ok i : 0 <= i <= n -> key0 ws (Some (8 * n)) i = Ok (Kzeros f 512 i).
Proof. intros Hi. unfold key0. by rewrite base_ok. Qed.
End cache.

(** ** [build_cache], stage by stage *)

Lemma s512_padded_ok junk b : (forall j, word64 (junk j)) -> wf b -> m_words b <> [] ->
  let n := nlines (m_size b) in exists u, shrink_to_fit junk b = Ok u /\ m_size u = m_size b /\
  let b' := reserve junk u (512 * n + (n + 1) * 12 * 8) in
  exists ws, m_size b' = m_size b /\ bits_range_set0 (m_words b') (m_size b') (512 * n) = Ok ws /\
    words ws /\ m_capacity b' = 64 * Z.of_nat (length ws) /\ 512 * n + 96 * (n + 1) <= 64 * Z.of_nat (length ws) /\
    (forall p, 0 <= p < m_size b -> bit_at ws p = bit_at (m_words b) p) /\
    (forall p, m_size b <= p < 512 * n -> bit_at ws p = false).
Proof.
  intros Hj Hb Hne n. pose proof Hb as [_ [Sb _]]. pose proof (s512_nlines_bounds (m_size b) ltac:(lia)) as [Hn Hn'].
  fold n in Hn, Hn'. destruct (shrink_reserve_ok junk Hj b Hb Hne) as (u & Eu & Su & Cu & HR). exists u. split; [done|]. split; [done|]. intros b'.
  destruct (HR (512 * n + (n + 1) * 12 * 8) ltac:(lia)) as ((W2 & S2 & B2) & C2 & _).
  fold b' in W2, S2, B2, C2. unfold m_capacity in C2.
  destruct (bits_range_set0_ok (m_words b') (m_size b) (512 * n)) as (ws & E & L & W & B); [apply W2|lia|lia|].
  exists ws. split; [done|]. rewrite S2. split; [done|]. split; [done|]. unfold m_capacity.
  split; [lia|]. split; [lia|]. split; intros p Hp; rewrite B by lia.
  - destruct (Z.leb_spec (m_size b) p); [lia|]. cbn [andb]. by rewrite B2 by lia.
  - destruct (Z.leb_spec (m_size b) p), (Z.ltb_spec p (512 * n)); (lia || done).
Qed.

Lemma zero_fill_ok ws a : words ws -> 0 <= a <= 2 * Z.of_nat (length ws) ->
  exists ws', for_ a (2 * Z.of_nat (length ws)) (fun k ws => wrf 32 ws k 0) ws = Ok ws' /\
    same_out ws ws' (32 * a) (64 * Z.of_nat (length ws)).
Proof.
  intros Hw Ha. apply (for_inv (fun _ w => same_out ws w (32 * a) (64 * Z.of_nat (length ws)))); [lia|by apply same_out_refl|].
  intros k w Hk O. pose proof O as (L & W & _).
  destruct (wrf_ok 32 w k 0) as (w' & -> & P); [auto with word64|done|lia..|]. exists w'. split; [done|].
  eapply same_out_put; [exact O|exact P|lia|lia].
Qed.

Lemma s512_finish_ok ws f n sz (s0 s1 : bool) : words ws -> 0 <= n < 2 ^ 31 -> 0 <= sz < 2 ^ 32 -> sz <= 512 * n ->
  (forall p, sz <= p < 512 * n -> f p = false) -> cache_ok ws f (8 * n) n ->
  let m1 := rank f sz in let m0 := sz - rank f sz in
  let a := if s0 then slots_of m0 + 1 else 0 in let b := if s1 then slots_of m1 + 1 else 0 in
  let idx := 2 * (8 * n) + 3 * (n + 1) in let idx1 := if s0 then idx + (slots_of m0 + 1) else idx in
  idx + a + b + 2 <= 2 * Z.of_nat (length ws) ->
  exists ws1 ws2 ws3,
    (if s0 then build_sel (fun ws => key0 ws (Some (8 * n))) LineBits idx (slots_of m0) n ws else Ok ws) = Ok ws1 /\
    (if s1 then build_sel (fun ws => key1 ws (Some (8 * n))) LineBits idx1 (slots_of m1) n ws1 else Ok ws1) = Ok ws2 /\
    wrf 64 ws2 (Z.of_nat (length ws) - 1) (flags_of sz s0 s1) = Ok ws3 /\
    same_out ws ws3 (32 * idx) (64 * Z.of_nat (length ws)) /\
    sel_built ws3 (Kzeros f 512) 512 (slots_of m0) n (if s0 then Some idx else None) /\
    sel_built ws3 (Kones f 512) 512 (slots_of m1) n (if s1 then Some idx1 else None) /\
    fld 64 ws3 (Z.of_nat (length ws) - 1) = flags_of sz s0 s1.
Proof.
  intros Hw Hn Hsz Hle Hz C m1 m0 a b idx idx1 Hlen.
  assert (Hm : 0 <= m1 <= sz) by (apply rank_bounds; lia). assert (Hm0 : 0 <= m0) by (subst m0 m1; lia).
  pose proof (s512_slots_bounds m0 Hm0) as [Q0 Q0']. pose proof (s512_slots_bounds m1 ltac:(lia)) as [Q1 Q1'].
  assert (Hmax : rank f (512 * n) = m1) by (apply RankSimple.rank_pad; [lia|done]).
  assert (Ha : 0 <= a) by (subst a; destruct s0; lia). assert (Hb : 0 <= b) by (subst b; destruct s1; lia).
  assert (Hkey : forall w, same_out ws w (32 * idx) (64 * Z.of_nat (length ws)) ->
    cache_ok w f (8 * n) n /\ 512 * n + 96 * (n + 1) <= 64 * Z.of_nat (length w)).
  { intros w O. pose proof O as (L & _). split; [|lia]. eapply s512_cache_frame; [exact C|exact O|lia|lia|lia]. }
  destruct (sel_stage_ok s0 (fun ws => key0 ws (Some (8 * n))) (Kzeros f 512) 0 512 idx (slots_of m0) n ws)
    as (ws1 & E1 & O1 & S1); [done|lia|done|fold a; lia|lia|lia|done| |left|].
  { intros w i O Hi. destruct (Hkey w) as [Cw Lw]; [eapply same_out_weak; [exact O|lia|lia]|]. apply (s512_key0_ok w f n); (done || lia). }
  { intros _. unfold Kzeros. rewrite Hmax. subst m0. lia. }
  fold a in O1. pose proof O1 as (L1 & W1 & _).
  assert (O1' : same_out ws ws1 (32 * idx) (64 * Z.of_nat (length ws))).
  { eapply same_out_weak; [exact O1|lia|lia]. }
  assert (Hidx : idx1 = idx + a) by (subst idx1 a; destruct s0; lia).
  destruct (sel_stage_ok s1 (fun ws => key1 ws (Some (8 * n))) (Kones f 512) 0 512 idx1 (slots_of m1) n ws1)
    as (ws2 & E2 & O2 & S2); [done|lia|done|fold b; lia|lia|lia|done| |left|].
  { intros w i O Hi. destruct (Hkey w) as [Cw Lw].
    { eapply same_out_trans; [exact O1'|]. eapply same_out_weak; [exact O|lia|lia]. }
    unfold key1. apply (base_ok w f n); (done || lia). }
  { intros _. unfold Kones. rewrite Hmax. lia. }
  fold b in O2. pose proof O2 as (L2 & W2 & _). pose proof (flags_range sz s0 s1 Hsz) as Hf.
  destruct (wrf_ok 64 ws2 (Z.of_nat (length ws) - 1) (flags_of sz s0 s1)) as (ws3 & E3 & P3); [auto with word64|done|lia..|].
  assert (O3 : same_out ws2 ws3 (64 * (Z.of_nat (length ws) - 1)) (64 * Z.of_nat (length ws))).
  { eapply same_out_put; [by apply same_out_refl|exact P3|lia|lia]. }
  exists ws1, ws2, ws3. do 3 (split; [done|]). split.
  { eapply same_out_trans; [exact O1'|]. eapply same_out_trans; (eapply same_out_weak; [eassumption|lia|lia]). }
  split; [|split].
  - eapply sel_built_frame; [|exact O3|]; [|destruct s0; [intros ? [= <-]; lia|done]].
    eapply sel_built_frame; [exact S1|exact O2|]. destruct s0; [intros ? [= <-]; subst a; lia|done].
  - eapply sel_built_frame; [exact S2|exact O3|]. destruct s1; [intros ? [= <-]; subst b; lia|done].
  - apply (fld_same 64 ws2 ws3); [auto with word64|lia|done|done].
Qed.

Record built (v : rank_select_se_512) : Prop := {
  built_wf : wf (fv v);
  built_size : size v < 2 ^ 32;
  built_room : 512 * nlines (size v) + 96 * (nlines (size v) + 1) + 64 <= 64 * Z.of_nat (length (words_of v));
  built_zero : forall p, size v <= p < 512 * nlines (size v) -> bit_at (words_of v) p = false;
  built_ptr : m_rank_cache v = Some (8 * nlines (size v));
  built_cache : cache_ok (words_of v) (bit_at (words_of v)) (8 * nlines (size v)) (nlines (size v));
  built_last : rela_at (words_of v) (8 * nlines (size v)) (nlines (size v)) = 0;
  built_max1 : m_max_rank1 v = rank (bit_at (words_of v)) (size v);
  built_max0 : m_max_rank0 v = size v - rank (bit_at (words_of v)) (size v);
  built_sel0 : sel_built (words_of v) (Kzeros (bit_at (words_of v)) 512) 512 (slots_of (m_max_rank0 v))
    (nlines (size v)) (m_sel0_cache v);
  built_sel1 : sel_built (words_of v) (Kones (bit_at (words_of v)) 512) 512 (slots_of (m_max_rank1 v))
    (nlines (size v)) (m_sel1_cache v);
}.

Definition image_ok (v : rank_select_se_512) (s0 s1 : bool) : Prop :=
  let idx := 2 * (8 * nlines (size v)) + 3 * (nlines (size v) + 1) in
  m_sel0_cache v = (if s0 then Some idx else None) /\
  m_sel1_cache v = (if s1 then Some (if s0 then idx + (slots_of (m_max_rank0 v) + 1) else idx) else None) /\
  fld 64 (words_of v) (Z.of_nat (length (words_of v)) - 1) = flags_of (size v) s0 s1.

(** The second reservation keeps the bits and the cache, and leaves room. *)
Lemma s512_room_ok junk w3 f n sz u (a b : Z) : (forall j, word64 (junk j)) -> words w3 -> 0 <= n -> 0 <= sz <= 64 * Z.of_nat (length w3) ->
  512 * n + 96 * (n + 1) <= 64 * Z.of_nat (length w3) -> cache_ok w3 f (8 * n) n -> 0 <= a -> 0 <= b ->
  u = Z.land (1 + a + b) (Z.lnot 1) ->
  let v := reserve junk (FV w3 sz) (64 * Z.of_nat (length w3) + 32 * (u + 2)) in
  wf v /\ m_size v = sz /\ cache_ok (m_words v) f (8 * n) n /\ rela_at (m_words v) (8 * n) n = rela_at w3 (8 * n) n /\
  2 * (8 * n) + 3 * (n + 1) + a + b + 2 <= 2 * Z.of_nat (length (m_words v)) /\
  forall p, 0 <= p < 512 * n -> bit_at (m_words v) p = bit_at w3 p.
Proof.
  intros Hj W3 Hn Hs Hl C Ha Hb ->. rewrite RankSe256.land_even by lia. intros v. set (k := (1 + a + b) / 2) in *.
  pose proof (Z.div_mod (1 + a + b) 2 ltac:(lia)). pose proof (Z.mod_pos_bound (1 + a + b) 2 ltac:(lia)).
  destruct (reserve_block junk Hj (FV w3 sz) (64 * Z.of_nat (length w3) + 32 * (2 * k + 2))) as (W4 & S4 & C4 & B4).
  { split; [done|]. unfold m_capacity. cbn. lia. }
  { unfold m_capacity. cbn. lia. }
  { replace (64 * Z.of_nat (length w3) + 32 * (2 * k + 2)) with ((Z.of_nat (length w3) + k + 1) * 64) by lia. apply Z.mod_mul. lia. }
  fold v in W4, S4, C4, B4. unfold m_capacity in B4, C4. cbn [m_words m_size] in *.
  assert (F : forall i, 0 <= i -> 32 * i + 32 <= 512 * n + 96 * (n + 1) -> fld 32 (m_words v) i = fld 32 w3 i).
  { intros i Hi Hil. apply fld_eq; [auto with word64|done..|]. intros m Hm0. apply B4. lia. }
  assert (R : forall i, 0 <= i <= n -> rela_at (m_words v) (8 * n) i = rela_at w3 (8 * n) i).
  { intros i Hi. unfold rela_at. by rewrite !F by lia. }
  split; [done|]. split; [done|]. split.
  { destruct C as [G1 G2]. split; intros; [rewrite F by lia|rewrite R by lia]; auto. }
  split; [apply R; lia|]. split; [lia|]. intros p Hp. apply B4. lia.
Qed.

Lemma s512_build_cache_ok junk1 junk2 s0 s1 b0 : (forall j, word64 (junk1 j)) -> (forall j, word64 (junk2 j)) ->
  wf b0 -> m_words b0 <> [] -> m_size b0 < 2 ^ 32 ->
  exists v', build_cache junk1 junk2 s0 s1 (no_cache b0) = Ok v' /\ built v' /\ image_ok v' s0 s1 /\ size v' = m_size b0 /\
    forall p, 0 <= p < m_size b0 -> bit_at (words_of v') p = bit_at (m_words b0) p.
Proof.
  intros Hj1 Hj2 Hv Hne Hsz. pose proof Hv as [Wv Sv].
  unfold build_cache, check_overflow, shrink, size, words_of, no_cache. cbn [fv m_rank_cache m_sel0_cache m_sel1_cache m_max_rank0 m_max_rank1].
  destruct (Z.ltb_spec (2 ^ 32 - 1) (m_size b0)) as [|_]; [lia|]. cbn [rbind assert_ is_none Z.eqb].
  rewrite (not_null b0 Hne).
  pose proof (s512_nlines_bounds (m_size b0) ltac:(lia)) as [Hn Hn'].
  destruct (s512_padded_ok junk1 b0 Hj1 Hv Hne) as (u & -> & S1 & wz & Sb & Ez & Wz & Cz & Lz & Bz & Zz). cbn [rbind fv]. rewrite S1.
  rewrite s512_line_ceil_eq by lia. unfold LineBits. rewrite (div_exact (nlines (m_size b0))) by lia.
  set (n := nlines (m_size b0)) in *.
  assert (512 * n / 64 = 8 * n) as -> by (replace (512 * n) with (64 * (8 * n)) by lia; apply div_exact; lia).
  rewrite Ez. cbn [rbind]. rewrite Sb, Cz.
  destruct (s512_whole_ok wz n (m_size b0)) as (w1 & w2 & w3 & -> & E2 & E3 & O3 & C3 & G3); [done|done|lia|lia|done|].
  cbn [rbind]. rewrite E2. cbn [rbind]. rewrite E3. cbn [rbind]. pose proof O3 as (L3 & W3 & _).
  set (f := bit_at wz) in *.
  assert (Hmax : rank f (512 * n) = rank f (m_size b0)) by (apply RankSimple.rank_pad; [lia|done]). rewrite Hmax.
  pose proof (rank_bounds f (m_size b0) ltac:(lia)) as Hm.
  set (a := if s0 then slots_of (m_size b0 - rank f (m_size b0)) + 1 else 0).
  set (bb := if s1 then slots_of (rank f (m_size b0)) + 1 else 0).
  assert (Hab : 0 <= a /\ 0 <= bb).
  { subst a bb. pose proof (s512_slots_bounds (rank f (m_size b0))). pose proof (s512_slots_bounds (m_size b0 - rank f (m_size b0))).
    destruct s0, s1; lia. }
  rewrite <- L3.
  destruct (s512_room_ok junk2 w3 f n (m_size b0) (Z.land (1 + a + bb) (Z.lnot 1)) a bb Hj2 W3 Hn) as (W4 & S4 & C4 & G4 & R4 & B4); [lia|lia|done|lia|lia|reflexivity|].
  set (b4 := reserve junk2 _ _) in *. pose proof W4 as [Ww4 _].
  destruct (zero_fill_ok (m_words b4) (2 * (8 * n) + 3 * (n + 1)) Ww4) as (wf0 & -> & O0); [lia|]. cbn [rbind].
  pose proof O0 as (L0 & W0 & B0).
  assert (C0 : cache_ok wf0 f (8 * n) n) by (eapply s512_cache_frame; [exact C4|exact O0|lia|lia|lia]).
  destruct (s512_finish_ok wf0 f n (m_size b0) s0 s1) as (u1 & u2 & u3 & U1 & U2 & U3 & O & T0 & T1 & TF);
    [done|lia|lia|lia|done|done|fold a bb; lia|].
  unfold LineBits in U1, U2. rewrite U1. cbn [rbind]. rewrite U2. cbn [rbind]. rewrite S4.
  assert (m_capacity b4 / 64 - 1 = Z.of_nat (length wf0) - 1) as -> by (unfold m_capacity; rewrite div_exact; lia).
  change (Z.lor _ _) with (flags_of (m_size b0) s0 s1). rewrite U3. cbn [rbind].
  pose proof O as (L5 & W5 & B5).
  assert (Hbit : forall p, 0 <= p < 512 * n -> bit_at u3 p = f p).
  { intros p Hp. rewrite B5, B0, B4 by lia. destruct O3 as (_ & _ & B3). apply B3; lia. }
  assert (Hrk : forall p, 0 <= p <= 512 * n -> rank (bit_at u3) p = rank f p).
  { intros p Hp. apply rank_ext. intros. apply Hbit. lia. }
  eexists. split; [done|]. split; [|split; [|split; [done|]]].
  - split; unfold words_of, size; cbn [fv m_words m_size m_rank_cache m_sel0_cache m_sel1_cache m_max_rank0 m_max_rank1];
      fold n; rewrite ?Hrk by lia; try done.
    + split; [done|]. unfold m_capacity. cbn. lia.
    + lia.
    + intros p Hp. rewrite Hbit by lia. apply Zz. lia.
    + apply (s512_cache_ext _ f); [lia|by intros; rewrite Hbit by lia|].
      eapply s512_cache_frame; [exact C0|exact O|lia|lia|lia].
    + rewrite (rela_at_frame wf0 u3 _ _ _ _ O), (rela_at_frame _ wf0 _ _ _ _ O0), G4 by lia. done.
    + eapply sel_built_ext; [lia| |exact T0]. intros i Hi. unfold Kzeros. by rewrite Hrk by lia.
    + eapply sel_built_ext; [lia| |exact T1]. intros i Hi. unfold Kones. by rewrite Hrk by lia.
  - unfold image_ok, size, words_of. cbn [fv m_words m_size m_sel0_cache m_sel1_cache m_max_rank0]. fold n.
    rewrite L5. split; [done|]. split; [done|]. done.
  - cbn [fv m_words]. intros p Hp. rewrite Hbit by lia. apply Bz. lia.
Qed.

(** ** Inside a line *)

Lemma line_select8_ok g b w c r : 0 <= b ->
  (forall j, 0 <= j < 8 -> exists x, w j = Ok x /\ word64 x /\
     forall m, 0 <= m < 64 -> Z.testbit x m = g (b + 64 * j + m)) ->
  (forall j, 0 <= j < 8 -> c j = rank g (b + 64 * j)) ->
  rank g b <= r < rank g (b + 512) ->
  exists p, line_select8 w c r = Ok p /\ 0 <= p < 512 /\ is_select g r (b + p).
Proof.
  intros Hb Hw Hc Hr. unfold line_select8.
  assert (G : forall j, 0 <= j < 8 -> rank g (b + 64 * j) <= r < rank g (b + 64 * (j + 1)) ->
    exists p, (let* x := w j in let* s := UintSelect1 x (r - c j) in Ok (64 * j + s)) = Ok p /\
      0 <= p < 512 /\ is_select g r (b + p)).
  { intros j Hj Hrj. destruct (Hw j Hj) as (x & -> & Hx & Hg). cbn [rbind]. rewrite Hc by done.
    replace (b + 64 * (j + 1)) with (b + 64 * j + 64) in Hrj by lia.
    destruct (word_select g b j x r) as (s & -> & Hs & S); [done|done|lia|done|done|]. cbn [rbind].
    eexists. split; [done|]. split; [lia|done]. }
  replace (rank g b) with (rank g (b + 64 * 0)) in Hr by (f_equal; lia).
  replace (b + 512) with (b + 64 * (7 + 1)) in Hr by lia.
  pose proof (G 0) as G0. pose proof (G 1) as G1. pose proof (G 2) as G2. pose proof (G 3) as G3.
  pose proof (G 4) as G4. pose proof (G 5) as G5. pose proof (G 6) as G6. pose proof (G 7) as G7. clear G.
  change (0 + 1) with 1 in *. change (1 + 1) with 2 in *. change (2 + 1) with 3 in *. change (3 + 1) with 4 in *.
  change (4 + 1) with 5 in *. change (5 + 1) with 6 in *. change (6 + 1) with 7 in *.
  pose proof (Hc 1) as C1. pose proof (Hc 2) as C2. pose proof (Hc 3) as C3. pose proof (Hc 4) as C4.
  pose proof (Hc 5) as C5. pose proof (Hc 6) as C6. pose proof (Hc 7) as C7.
  destruct (Z.ltb_spec r (c 4)).
  - destruct (Z.ltb_spec r (c 2)).
    + destruct (Z.ltb_spec r (c 1)); [apply G0|apply G1]; lia.
    + destruct (Z.ltb_spec r (c 3)); [apply G2|apply G3]; lia.
  - destruct (Z.ltb_spec r (c 6)).
    + destruct (Z.ltb_spec r (c 5)); [apply G4|apply G5]; lia.
    + destruct (Z.ltb_spec r (c 7)); [apply G6|apply G7]; lia.
Qed.

(** ** The queries on a built vector *)

Section built.
Context (v : rank_select_se_512) (B : built v).
Let ws := words_of v.
Let f := bit_at ws.
Let g := fun i => negb (f i).
Let n := nlines (size v).

Lemma s512_dims : words ws /\ 0 <= size v <= 512 * n /\ 512 * n < size v + 512 /\ 0 <= n /\
  512 * n + 96 * (n + 1) + 64 <= 64 * Z.of_nat (length ws).
Proof.
  pose proof (built_wf v B) as [W S]. pose proof (built_room v B) as R.
  assert (0 <= size v) by (unfold size; lia). pose proof (s512_nlines_bounds (size v)). subst n ws. unfold words_of in *.
  split; [done|]. lia.
Qed.

Lemma s512_key1 i : 0 <= i <= n -> key1 ws (m_rank_cache v) i = Ok (Kones f 512 i).
Proof.
  intros Hi. pose proof s512_dims as D. rewrite (built_ptr v B). apply (base_ok ws f n); (lia || apply (built_cache v B)).
Qed.

Lemma s512_key0 i : 0 <= i <= n -> key0 ws (m_rank_cache v) i = Ok (Kzeros f 512 i).
Proof. intros Hi. unfold key0. change (base ws (m_rank_cache v) i) with (key1 ws (m_rank_cache v) i). by rewrite s512_key1. Qed.

Lemma s512_rela i : 0 <= i <= n -> exists x, rela ws (m_rank_cache v) i = Ok x /\
  forall j, 0 <= j < 8 -> i < n \/ j = 0 -> get_bits9 x j = rank f (512 * i + 64 * j) - rank f (512 * i).
Proof.
  intros Hi. pose proof s512_dims as D. rewrite (built_ptr v B). fold n. rewrite rela_ok by lia. eexists. split; [done|].
  intros j Hj Hd. unfold get_bits9. destruct (Z.eqb_spec j 0) as [->|]; [rewrite Z.mul_0_r, Z.add_0_r; lia|].
  apply (cache_rela _ _ _ _ (built_cache v B)); [fold n|]; lia.
Qed.

Lemma s512_fast_rank1_ok p : 0 <= p <= size v -> fast_rank1 ws (m_rank_cache v) p = Ok (rank f p).
Proof.
  intros Hp. pose proof s512_dims as (W & D1 & D2 & D3 & D4). unfold fast_rank1.
  pose proof (Z.div_mod p 512 ltac:(lia)). pose proof (Z.mod_pos_bound p 512 ltac:(lia)).
  pose proof (Z.div_mod p 64 ltac:(lia)). pose proof (mod64_range p).
  pose proof (Z.div_mod (p mod 512) 64 ltac:(lia)). pose proof (Z.mod_pos_bound (p mod 512) 64 ltac:(lia)).
  assert (E64 : 64 * (p / 64) = 512 * (p / 512) + 64 * (p mod 512 / 64)) by lia.
  change (base ws (m_rank_cache v) (p / 512)) with (key1 ws (m_rank_cache v) (p / 512)). rewrite s512_key1 by lia.
  destruct (s512_rela (p / 512)) as (x & -> & Hx); [lia|]. cbn [rbind]. rewrite rd_word by lia. cbn [rbind]. rewrite Hx by lia.
  pose proof (rank_trail ws p ltac:(lia) W) as T. fold f in T. rewrite T, E64. unfold Kones. f_equal. lia.
Qed.

Lemma s512_in_line1_ok l r : line_after (Kones f 512) r l -> l <= n ->
  exists p, in_line1 ws (m_rank_cache v) l r = Ok p /\ is_select f r p.
Proof.
  intros (L1 & L2 & L3) Hl. pose proof s512_dims as (W & D1 & D2 & D3 & D4). unfold in_line1.
  rewrite s512_key1 by lia. cbn [rbind]. rewrite (proj2 (Z.ltb_lt _ _)) by lia. cbn [assert_ rbind].
  rewrite s512_key1 by lia. cbn [rbind]. destruct (s512_rela (l - 1)) as (x & -> & Hx); [lia|]. cbn [rbind]. unfold LineBits, Kones in *.
  match goal with |- context [line_select8 ?w ?c r] =>
    destruct (line_select8_ok f (512 * (l - 1)) w c r) as (p & -> & Hp & S) end.
  - lia.
  - intros j Hj. exists (word_at ws (8 * (l - 1) + j)). split; [apply rd_word; lia|]. split; [auto with word64|].
    intros m Hm. replace (512 * (l - 1) + 64 * j + m) with (64 * (8 * (l - 1) + j) + m) by lia.
    subst f. by rewrite bit_at_word by lia.
  - intros j Hj. specialize (Hx j Hj ltac:(lia)). unfold get_bits9 in Hx. revert Hx.
    destruct (Z.eqb_spec j 0) as [E|]; intros Hx; [rewrite E; f_equal; lia|lia].
  - replace (512 * (l - 1) + 512) with (512 * l) by lia. lia.
  - cbn [rbind]. rewrite (Z.mul_comm (l - 1)). eauto.
Qed.

Lemma s512_in_line0_ok l r : line_after (Kzeros f 512) r l -> l <= n ->
  exists p, in_line0 ws (m_rank_cache v) l r = Ok p /\ is_select g r p.
Proof.
  intros (L1 & L2 & L3) Hl. pose proof s512_dims as (W & D1 & D2 & D3 & D4). unfold in_line0.
  assert (G : forall p, 0 <= p -> rank g p = p - rank f p) by (intros; by apply rank_negb).
  rewrite s512_key0 by lia. cbn [rbind]. rewrite (proj2 (Z.ltb_lt _ _)) by lia. cbn [assert_ rbind].
  rewrite s512_key0 by lia. cbn [rbind]. destruct (s512_rela (l - 1)) as (x & -> & Hx); [lia|]. cbn [rbind]. unfold LineBits, Kzeros in *.
  match goal with |- context [line_select8 ?w ?c r] =>
    destruct (line_select8_ok g (512 * (l - 1)) w c r) as (p & -> & Hp & S) end.
  - lia.
  - intros j Hj. exists (not64 (word_at ws (8 * (l - 1) + j))). rewrite rd_word by lia. split; [done|].
    split; [auto with word64|]. intros m Hm. replace (512 * (l - 1) + 64 * j + m) with (64 * (8 * (l - 1) + j) + m) by lia.
    subst g f. cbn beta. rewrite bit_at_word, testbit_not64 by lia. destruct (Z.ltb_spec m 64); [done|lia].
  - intros j Hj. specialize (Hx j Hj ltac:(lia)). unfold get_bits9 in Hx. rewrite G by lia. revert Hx.
    destruct (Z.eqb_spec j 0) as [E|]; intros Hx; [rewrite E, Z.mul_0_r, Z.add_0_r; lia|lia].
  - rewrite !G by lia. replace (512 * (l - 1) + 512) with (512 * l) by lia. lia.
  - cbn [rbind]. rewrite (Z.mul_comm (l - 1)). eauto.
Qed.

(** The range of lines, with and without select cache, brackets the answer. *)
Lemma s512_range_ok K M sel r : mono K n -> K 0 = 0 -> 0 <= r < M -> M <= K n -> sel_built ws K 512 (slots_of M) n sel ->
  exists lo hi, (match sel with Some _ => load_select_cache ws sel r | None => Ok (0, (size v + LineBits + 1) / LineBits) end) = Ok (lo, hi) /\
    brackets K n r lo hi.
Proof.
  intros Hm H0 Hr HM Hs. pose proof s512_dims as (_ & D1 & D2 & D3 & _). unfold load_select_cache, LineBits. destruct sel as [s|].
  - pose proof (s512_slots_bounds M ltac:(lia)) as [Q1 Q2].
    pose proof (Z.div_mod r 512 ltac:(lia)). pose proof (Z.mod_pos_bound r 512 ltac:(lia)).
    rewrite !(rd_sel_ok ws K 512 (slots_of M) n) by (done || lia). cbn [rbind]. destruct Hs as (Hs1 & Hs2 & Hs3 & Hs4).
    do 2 eexists. split; [done|]. exact (sel_bounds K 512 (slots_of M) n _ r Hm D3 ltac:(lia) H0 Hs4 ltac:(lia) ltac:(lia)).
  - do 2 eexists. split; [done|]. pose proof (Z.div_mod (size v + 512 + 1) 512 ltac:(lia)).
    pose proof (Z.mod_pos_bound (size v + 512 + 1) 512 ltac:(lia)). unfold brackets. split_and!; try lia.
    intros Hle. assert ((size v + 512 + 1) / 512 = n) as -> by lia. lia.
Qed.

Lemma upper_bound_line_ok key K lo hi r : (forall i, 0 <= i <= n -> key i = Ok (K i)) -> mono K n -> K 0 <= r < K n ->
  brackets K n r lo hi -> exists l, upper_bound_line key (lo, hi) r = Ok l /\ l <= n /\ line_after K r l.
Proof.
  intros Hkey Hm Hr Hb. unfold upper_bound_line. destruct Hb as (? & ? & ? & ? & ?) eqn:Eb.
  destruct (Z.leb_spec lo hi), (Z.ltb_spec (hi - lo) 32); cbn [andb]; try lia.
  - apply (scan_up_sel key K n lo hi); (done || lia).
  - apply (upper_bound_sel key K n lo hi); done.
Qed.

Lemma s512_select1_ok r : 0 <= r < m_max_rank1 v -> exists p, select1 v r = Ok p /\ is_select f r p /\ p < size v /\
  (m_sel1_cache v <> None -> fast_select1 ws (m_sel1_cache v) (m_rank_cache v) r = Ok p).
Proof.
  intros Hr. pose proof s512_dims as (W & D1 & D2 & D3 & D4). pose proof (built_max1 v B) as M. fold ws f in M.
  pose proof (rank_mono f (size v) (512 * n)).
  assert (Hm : mono (Kones f 512) n) by (by apply Kones_mono).
  destruct (s512_range_ok (Kones f 512) (m_max_rank1 v) (m_sel1_cache v) r) as (lo & hi & E & Hb);
    [done|done|done|unfold Kones; lia|apply (built_sel1 v B)|].
  destruct (upper_bound_line_ok (key1 ws (m_rank_cache v)) (Kones f 512) lo hi r) as (l & El & Hl & L);
    [apply s512_key1|done|change (Kones f 512 0) with 0; unfold Kones; lia|done|].
  destruct (s512_in_line1_ok l r L Hl) as (p & Ep & S). exists p.
  unfold select1, load_select1_cache_safe, select1_upper_bound_line, fast_select1.
  rewrite (proj2 (Z.ltb_lt _ _)) by lia. cbn [assert_ rbind]. fold ws. rewrite E. cbn [rbind].
  unfold select1_upper_bound_line. rewrite El. cbn [rbind]. split; [done|]. split; [done|].
  split; [eapply is_select_lt; [exact S|lia|lia]|]. intros Hne. destruct (m_sel1_cache v); [|done].
  rewrite E. cbn [rbind]. by rewrite El.
Qed.

Lemma s512_select0_ok r : 0 <= r < m_max_rank0 v -> exists p, select0 v r = Ok p /\ is_select g r p /\ p < size v /\
  (m_sel0_cache v <> None -> fast_select0 ws (m_sel0_cache v) (m_rank_cache v) r = Ok p).
Proof.
  intros Hr. pose proof s512_dims as (W & D1 & D2 & D3 & D4). pose proof (built_max0 v B) as M. fold ws f in M.
  assert (M' : m_max_rank0 v = rank g (size v)) by (subst g; rewrite rank_negb by lia; lia).
  pose proof (rank_mono g (size v) (512 * n)). assert (Hm : mono (Kzeros f 512) n) by (by apply Kzeros_mono).
  assert (HM : m_max_rank0 v <= Kzeros f 512 n).
  { rewrite Kzeros_rank by lia. change (fun p => negb (f p)) with g. lia. }
  destruct (s512_range_ok (Kzeros f 512) (m_max_rank0 v) (m_sel0_cache v) r) as (lo & hi & E & Hb);
    [done|done|done|done|apply (built_sel0 v B)|].
  destruct (upper_bound_line_ok (key0 ws (m_rank_cache v)) (Kzeros f 512) lo hi r) as (l & El & Hl & L);
    [apply s512_key0|done|change (Kzeros f 512 0) with 0; lia|done|].
  destruct (s512_in_line0_ok l r L Hl) as (p & Ep & S). exists p.
  unfold select0, load_select0_cache_safe, fast_select0.
  rewrite (proj2 (Z.ltb_lt _ _)) by lia. cbn [assert_ rbind]. fold ws. rewrite E. cbn [rbind].
  unfold select0_upper_bound_line. rewrite El. cbn [rbind]. split; [done|]. split; [done|].
  split; [eapply is_select_lt; [exact S|lia|lia]|]. intros Hne. destruct (m_sel0_cache v); [|done].
  rewrite E. cbn [rbind]. by rewrite El.
Qed.

Lemma s512_laws : rs_laws v f.
Proof.
  pose proof s512_dims as (_ & D1 & _).
  assert (R1 : forall p, 0 <= p <= size v -> rank1 v p = Ok (rank f p)).
  { intros p Hp. unfold rank1. rewrite (proj2 (Z.leb_le _ _)) by lia. cbn [assert_ rbind]. by apply s512_fast_rank1_ok. }
  split; cbn [rs_size rs_is1 rs_rank1 rs_rank0 rs_select0 rs_select1 rs_max_rank0 rs_max_rank1 se512_rs].
  - lia.
  - intros p Hp. apply is1_ok; [apply (built_wf v B)|done].
  - exact R1.
  - intros p Hp. unfold rank0. rewrite (proj2 (Z.leb_le _ _)) by lia. cbn [assert_ rbind]. by rewrite R1.
  - apply (built_max1 v B).
  - apply (built_max0 v B).
  - intros r Hr. destruct (s512_select1_ok r Hr) as (p & H1 & H2 & H3 & _). eauto.
  - intros r Hr. destruct (s512_select0_ok r Hr) as (p & H1 & H2 & H3 & _). eauto.
Qed.
End built.

(** ** Mapping an image *)

Lemma s512_mmap_ok v s0 s1 : built v -> image_ok v s0 s1 -> risk_mmap_from (words_of v) = Ok v.
Proof.
  intros B (I0 & I1 & IF). pose proof (s512_dims v B) as (W & D1 & D2 & D3 & D4). unfold risk_mmap_from.
  rewrite rdf_ok by (auto with word64 || lia). cbn [rbind]. rewrite IF.
  destruct (flags_decode (size v) s0 s1) as (-> & -> & ->); [lia|]. rewrite s512_line_ceil_eq by lia.
  set (n := nlines (size v)) in *. unfold LineBits. rewrite div_exact by lia.
  assert (512 * n / 64 = 8 * n) as -> by (replace (512 * n) with (64 * (8 * n)) by lia; apply div_exact; lia).
  rewrite (base_ok (words_of v) (bit_at (words_of v)) n) by (lia || apply (built_cache v B)). cbn [rbind]. unfold Kones.
  assert (rank (bit_at (words_of v)) (512 * n) = m_max_rank1 v) as ->.
  { rewrite (built_max1 v B). apply RankSimple.rank_pad; [lia|]. apply (built_zero v B). }
  assert (size v - m_max_rank1 v = m_max_rank0 v) as -> by (rewrite (built_max1 v B), (built_max0 v B); done).
  rewrite <- I1, <- I0. pose proof (built_ptr v B) as P. fold n in P. rewrite <- P.
  assert (Hh : m_hollow (fv v) = false) by apply (built_wf v B). destruct v as [[w sz h] c x0 x1 m0 m1]. cbn in Hh. by subst h.
Qed.

(** * Properties *)

(** C24: functional.  [build_cache] succeeds for either choice of the select
    caches, keeps the bits, and the result (with its packed 9-bit fields) obeys
    every rank/select law. *)
Theorem s512_build_cache_correct junk1 junk2 s0 s1 b : (forall j, word64 (junk1 j)) -> (forall j, word64 (junk2 j)) ->
  wf b -> m_words b <> [] -> m_size b < 2 ^ 32 ->
  exists v', build_cache junk1 junk2 s0 s1 (no_cache b) = Ok v' /\ bits (fv v') = bits b /\
    rs_laws v' (bit_at (words_of v')).
Proof.
  intros H1 H2 Hw Hne Hs. destruct (s512_build_cache_ok junk1 junk2 s0 s1 b) as (u & -> & B & _ & S & Hb); [done..|].
  exists u. split; [done|]. split; [|by apply s512_laws].
  unfold bits. change (m_size (fv u)) with (size u). rewrite S. by apply map_seqZ_ext.
Qed.

(** equivalence.  The unchecked [fast_select] functions return the position
    the checked ones return. *)
Theorem s512_fast_select_agrees junk1 junk2 s0 s1 b v' : (forall j, word64 (junk1 j)) -> (forall j, word64 (junk2 j)) ->
  wf b -> m_words b <> [] -> m_size b < 2 ^ 32 -> build_cache junk1 junk2 s0 s1 (no_cache b) = Ok v' ->
  (s1 = true -> forall r, 0 <= r < m_max_rank1 v' -> exists p,
     fast_select1 (words_of v') (m_sel1_cache v') (m_rank_cache v') r = Ok p /\ select1 v' r = Ok p /\
     is_select (bit_at (words_of v')) r p) /\
  (s0 = true -> forall r, 0 <= r < m_max_rank0 v' -> exists p,
     fast_select0 (words_of v') (m_sel0_cache v') (m_rank_cache v') r = Ok p /\ select0 v' r = Ok p /\
     is_select (fun i => negb (bit_at (words_of v') i)) r p).
Proof.
  intros H1 H2 Hw Hne Hs E.
  destruct (s512_build_cache_ok junk1 junk2 s0 s1 b) as (u & E' & B & (I0 & I1 & _) & _); [done..|].
  rewrite E' in E. injection E as <-. split; intros -> r Hr.
  - destruct (s512_select1_ok u B r Hr) as (p & Ep & S & _ & F). exists p. split; [|done]. apply F. by rewrite I1.
  - destruct (s512_select0_ok u B r Hr) as (p & Ep & S & _ & F). exists p. split; [|done]. apply F. by rewrite I0.
Qed.

Lemma s512_copy_ok junk u : built u -> copy junk u = if nlines (size u) mod 3 =? 0 then Ok u else UB.
Proof.
  intros B. unfold copy. change (m_capacity (fv u)) with (64 * Z.of_nat (length (words_of u))). rewrite copy_words.
  rewrite (built_ptr u B). set (n := nlines (size u)).
  assert ((8 * (8 * n) mod 12 =? 0) = (n mod 3 =? 0)) as ->.
  { pose proof (Z.div_mod n 3 ltac:(lia)). pose proof (Z.mod_pos_bound n 3 ltac:(lia)).
    pose proof (Z.div_mod (8 * (8 * n)) 12 ltac:(lia)). pose proof (Z.mod_pos_bound (8 * (8 * n)) 12 ltac:(lia)).
    destruct (Z.eqb_spec (8 * (8 * n) mod 12) 0), (Z.eqb_spec (n mod 3) 0); (lia || done). }
  destruct (n mod 3 =? 0); [|done]. cbn [assert_ rbind is_none negb]. rewrite !orb_true_r. cbn [assert_ rbind].
  pose proof (built_ptr u B) as P. fold n in P. rewrite <- P. assert (Hh : m_hollow (fv u) = false) by apply (built_wf u B). destruct u as [[? ? h] ? ? ? ? ?]. cbn in Hh. by subst h.
Qed.

(** round trip.  [risk_mmap_from] on the block of a built vector gives the
    object back.  The copy constructor does too when the number of lines is a
    multiple of three; otherwise the distance of the [RankCache512] pointers it
    computes is no multiple of their 12 bytes, and its result is undefined. *)
Theorem s512_mmap_roundtrip junk1 junk2 junk3 s0 s1 b v' : (forall j, word64 (junk1 j)) -> (forall j, word64 (junk2 j)) ->
  wf b -> m_words b <> [] -> m_size b < 2 ^ 32 -> build_cache junk1 junk2 s0 s1 (no_cache b) = Ok v' ->
  risk_mmap_from (words_of v') = Ok v' /\
  copy junk3 v' = if nlines (m_size b) mod 3 =? 0 then Ok v' else UB.
Proof.
  intros H1 H2 Hw Hne Hs E.
  destruct (s512_build_cache_ok junk1 junk2 s0 s1 b) as (u & E' & B & I & S & _); [done..|].
  rewrite E' in E. injection E as <-. split; [by apply (s512_mmap_ok u s0 s1)|].
  rewrite <- S. by apply s512_copy_ok.
Qed.

(** * Witnesses *)

Definition sample_512 : febitvec := FV (List.concat (replicate 5 [0xF0F0; Z.ones 64; 5; 0; Z.ones 64])) 1500.

Lemma sample_512_wf : wf sample_512.
Proof.
  split; [|unfold m_capacity; cbn; lia].
  repeat first [apply List.Forall_nil | apply List.Forall_cons]; vm_compute; split; (discriminate || reflexivity).
Qed.

Lemma s512_build_cache_correct_witness : exists v',
  build_cache (fun _ => 7) (fun _ => 7) true true (no_cache sample_512) = Ok v' /\ bits (fv v') = bits sample_512 /\
  rs_laws v' (bit_at (words_of v')).
Proof.
  apply (s512_build_cache_correct (fun _ => 7) (fun _ => 7) true true sample_512).
  - exact RankSe256.junk7.
  - exact RankSe256.junk7.
  - exact sample_512_wf.
  - discriminate.
  - reflexivity.
Defined.

Definition sample_se512 : rank_select_se_512 :=
  match build_cache (fun _ => 7) (fun _ => 7) true true (no_cache sample_512) with Ok v => v | _ => no_cache sample_512 end.

Lemma s512_fast_select_agrees_witness : exists p,
  fast_select1 (words_of sample_se512) (m_sel1_cache sample_se512) (m_rank_cache sample_se512) 500 = Ok p /\
  select1 sample_se512 500 = Ok p /\ p = 1228.
Proof.
  destruct (s512_fast_select_agrees (fun _ => 7) (fun _ => 7) true true sample_512 sample_se512) as [H _].
  - exact RankSe256.junk7.
  - exact RankSe256.junk7.
  - exact sample_512_wf.
  - discriminate.
  - reflexivity.
  - vm_compute. reflexivity.
  - destruct (H eq_refl 500) as (p & E1 & E2 & _).
    + vm_compute. split; [discriminate|reflexivity].
    + exists p. split; [exact E1|]. split; [exact E2|]. vm_compute in E2. injection E2 as <-. reflexivity.
Defined.

Lemma s512_mmap_roundtrip_witness : risk_mmap_from (words_of sample_se512) = Ok sample_se512 /\
  copy (fun _ => 7) sample_se512 = if nlines 1500 mod 3 =? 0 then Ok sample_se512 else UB.
Proof.
  apply (s512_mmap_roundtrip (fun _ => 7) (fun _ => 7) (fun _ => 7) true true sample_512).
  - exact RankSe256.junk7.
  - exact RankSe256.junk7.
  - exact sample_512_wf.
  - discriminate.
  - reflexivity.
  - vm_compute. reflexivity.
Defined.

End RankSe512.
