(* ===== verification/RankFew.v ===== *)
(** * [rank_select_few] (few pivots, stored by position)

    [src/src/terark/succinct/rank_select_few.hpp] and [.cpp].  [P] tells which
    bit is the pivot (the rare one); the positions of the pivots are stored in
    [W] bytes each.  The memory holds layer 0 (all pivots, ascending), then layer
    [i + 1] (every 256th entry of layer [i]), and behind them, 8-byte aligned,
    [num0], [num1], the end offset of every layer and the number of layers.
    [m_offset] is the byte offset of these end offsets.  The functions with a
    hint return the result and the new hint. *)
From S2P Require Import Prelude Bits Bytes RankSpec.
Import Bytes RankSpec.

Module RankFew.

Record rank_select_few := Few { m_num0 : Z; m_num1 : Z; m_layer : Z; m_offset : Z; m_mempool : list Z }.

Section few.
Context (P : bool) (W : Z).

Definition mask : Z := if W =? 8 then Z.ones 64 else 2 ^ Z.land (W * 8) 63 - 1.
Definition val_of_ptr (m : list Z) (p : Z) : res Z := let* x := rd64b m p in Ok (Z.land x mask).
Definition val_a_logi (r : rank_select_few) (pos : Z) : res Z := val_of_ptr (m_mempool r) (pos * W).
Definition offset (r : rank_select_few) (i : Z) : res Z := rd64b (m_mempool r) (m_offset r + 8 * i).
Definition pivots (r : rank_select_few) : Z := if P then m_num1 r else m_num0 r.
Definition complements (r : rank_select_few) : Z := if P then m_num0 r else m_num1 r.
Definition size (r : rank_select_few) : Z := m_num0 r + m_num1 r.

(** ** Search: down the layers, a linear scan in each *)

Definition scan (m : list Z) (stop : Z -> bool) (p e : Z) : res Z :=
  loop (S (Z.to_nat (e - p))) (fun p =>
    if p <? e then let* v := val_of_ptr m p in if stop v then Ok (inr p) else Ok (inl (p + W))
    else Ok (inr p)) p.

Definition top (r : rank_select_few) : res Z := if m_layer r =? 1 then Ok 0 else offset r (m_layer r - 2).

Definition lower_bound (r : rank_select_few) (val : Z) : res Z :=
  let m := m_mempool r in
  let* p := top r in
  let* p := loop (S (Z.to_nat (m_layer r))) (fun '(i, p) =>
    if 0 <=? i then
      let* e := offset r (i + 1) in
      let* p := scan m (fun v => val <? v) p e in
      let* b := offset r i in
      let p := if b <? p then p - W else p in
      let* s := if i =? 0 then Ok 0 else offset r (i - 1) in
      Ok (inl (i - 1, s + (p - b) * 256))
    else Ok (inr p)) (m_layer r - 2, p) in
  let* e := offset r 0 in
  let* p := scan m (fun v => val <=? v) p e in
  Ok (p / W).

(** [pos] counts the pivots before [p]; one entry stands for [step] of them. *)
Definition scan_pos (m : list Z) (id step p pos e : Z) : res (Z * Z) :=
  loop (S (Z.to_nat (e - p))) (fun '(p, pos) =>
    if p <? e then let* v := val_of_ptr m p in
      if id + pos <? v then Ok (inr (p, pos)) else Ok (inl (p + W, pos + step))
    else Ok (inr (p, pos))) (p, pos).

Definition select_complement (r : rank_select_few) (id : Z) : res Z :=
  let m := m_mempool r in
  let* _ := assert_ (id <? complements r) in
  let* first := val_of_ptr m 0 in
  if id <? first then Ok id else
  let* e := offset r 0 in
  let* last := val_of_ptr m (e - W) in
  if last <? id + pivots r then Ok (id + pivots r) else
  let* p := top r in
  let* (p, pos) := loop (S (Z.to_nat (m_layer r))) (fun '(i, p, pos) =>
    if 0 <=? i then
      let* e := offset r (i + 1) in
      let step := 2 ^ (8 * i + 8) in
      let* (p, pos) := scan_pos m id step p pos e in
      let '(p, pos) := if negb (pos =? 0) then (p - W, pos - step) else (p, pos) in
      let* s := if i =? 0 then Ok 0 else offset r (i - 1) in
      let* b := offset r i in
      Ok (inl (i - 1, s + (p - b) * 256, pos))
    else Ok (inr (p, pos))) (m_layer r - 2, p, 0) in
  let* e := offset r 0 in
  let* (p, pos) := scan_pos m id 1 p pos e in
  Ok (id + pos).

(** ** With a hint: the neighbourhood of the hint is tried first *)

(** [val_a_logi(i) < lo && val_a_logi(i + 1) >= hi] *)
Definition straddle (r : rank_select_few) (i lo hi : Z) : res bool :=
  let* a := val_a_logi r i in
  if a <? lo then let* b := val_a_logi r (i + 1) in Ok (hi <=? b) else Ok false.
Definition when (c : bool) (m : res bool) : res bool := if c then m else Ok false.

Definition lower_bound_hint (r : rank_select_few) (val hint : Z) : res (Z * Z) :=
  let n := pivots r in
  let idx := hint in
  let search := let* x := lower_bound r val in Ok (x, x) in
  if idx <? n then
    let* c := when (0 <? idx) (straddle r (idx - 1) val val) in
    if c then Ok (idx, hint) else
    let* c := when (idx + 1 <? n) (straddle r idx val val) in
    if c then Ok (idx + 1, idx + 1) else
    let* c := when (1 <? idx) (straddle r (idx - 2) val val) in
    if c then Ok (idx - 1, idx - 1) else
    let* c := when (idx =? 0) (let* a := val_a_logi r 0 in Ok (val <=? a)) in
    if c then Ok (0, hint) else
    let* c := when (idx + 1 =? n) (let* a := val_a_logi r idx in Ok (a <? val)) in
    if c then Ok (n, hint) else search
  else
    let* c := when (idx =? n) (let* a := val_a_logi r (n - 1) in Ok (a <=? val)) in
    if c then let* a := val_a_logi r (n - 1) in let x := n - Z.b2z (a =? val) in Ok (x, x) else search.

Definition select_complement_hint (r : rank_select_few) (id hint : Z) : res (Z * Z) :=
  let n := pivots r in
  let idx := hint in
  let val := id + idx in
  let search := let* x := select_complement r id in Ok (x, x) in
  if idx <? n then
    let* c := when (0 <? idx) (straddle r (idx - 1) (val - 1 + 1) (val + 1)) in
    if c then Ok (id + idx, hint) else
    let* c := when (idx + 1 <? n) (straddle r idx (val + 1) (val + 1 + 1)) in
    if c then Ok (id + (idx + 1), idx + 1) else
    let* c := when (1 <? idx) (straddle r (idx - 2) (val - 2 + 1) (val - 1 + 1)) in
    if c then Ok (id + (idx - 1), idx - 1) else
    let* c := when (idx + 1 =? n) (let* a := val_a_logi r idx in Ok (a <=? val)) in
    if c then Ok (id + n, hint) else
    let* c := when (idx =? 0) (let* a := val_a_logi r 0 in Ok (val <? a)) in
    if c then Ok (id, hint) else search
  else
    let* c := when (idx =? n) (let* a := val_a_logi r (n - 1) in Ok (a <=? val)) in
    if c then let* a := val_a_logi r (n - 1) in let x := n - Z.b2z (a =? val) in Ok (id + x, x) else search.

(** ** The queries *)

Definition at_ (r : rank_select_few) (pos idx : Z) : res bool :=
  let* v := val_a_logi r idx in Ok (if P then v =? pos else negb (v =? pos)).
Definition is1 (r : rank_select_few) (pos : Z) : res bool := let* idx := lower_bound r pos in at_ r pos idx.
Definition at_with_hint (r : rank_select_few) (pos hint : Z) : res (bool * Z) :=
  let* (idx, hint) := lower_bound_hint r pos hint in let* b := at_ r pos idx in Ok (b, hint).
Definition is0 (r : rank_select_few) (pos : Z) : res bool := let* b := is1 r pos in Ok (negb b).

Definition rank0 (r : rank_select_few) (pos : Z) : res Z :=
  let* x := lower_bound r pos in Ok (if P then pos - x else x).
Definition rank1 (r : rank_select_few) (pos : Z) : res Z :=
  let* x := lower_bound r pos in Ok (if P then x else pos - x).
Definition rank0_hint (r : rank_select_few) (pos hint : Z) : res (Z * Z) :=
  let* (x, hint) := lower_bound_hint r pos hint in Ok (if P then pos - x else x, hint).
Definition rank1_hint (r : rank_select_few) (pos hint : Z) : res (Z * Z) :=
  let* (x, hint) := lower_bound_hint r pos hint in Ok (if P then x else pos - x, hint).

Definition select0 (r : rank_select_few) (id : Z) : res Z := if P then select_complement r id else val_a_logi r id.
Definition select1 (r : rank_select_few) (id : Z) : res Z := if P then val_a_logi r id else select_complement r id.
Definition select0_hint (r : rank_select_few) (id hint : Z) : res (Z * Z) :=
  if P then select_complement_hint r id hint else let* x := val_a_logi r id in Ok (x, hint).
Definition select1_hint (r : rank_select_few) (id hint : Z) : res (Z * Z) :=
  if P then let* x := val_a_logi r id in Ok (x, hint) else select_complement_hint r id hint.

(** *** Runs: of pivots, counted entry by entry, or of the others, a difference *)

(** [while (++idx < size)]: the count and the last [idx] *)
Definition pivot_len (r : rank_select_few) (pos idx : Z) : res (Z * Z) :=
  let* now := val_a_logi r idx in
  if negb (now =? pos) then Ok (0, idx) else
  loop (S (Z.to_nat (size r))) (fun '(idx, cnt, now) =>
    let idx := idx + 1 in
    if idx <? size r then
      let prev := now in
      let* now := val_a_logi r idx in
      if prev + 1 =? now then Ok (inl (idx, cnt + 1, now)) else Ok (inr (cnt, idx))
    else Ok (inr (cnt, idx))) (idx, 1, now).
Definition gap_len (r : rank_select_few) (pos idx : Z) : res Z :=
  if idx =? pivots r then Ok (size r - pos) else let* v := val_a_logi r idx in Ok (u64 (v - pos)).

(** [while (--idx != 0xFFFFFFFFFFFFFFFF)] *)
Definition pivot_revlen (r : rank_select_few) (pos idx : Z) : res (Z * Z) :=
  let* now := val_a_logi r idx in
  if negb (now =? pos - 1) then Ok (0, idx) else
  loop (S (S (Z.to_nat idx))) (fun '(idx, cnt, now) =>
    let idx := idx - 1 in
    if negb (idx =? -1) then
      let last := now in
      let* now := val_a_logi r idx in
      if last =? now + 1 then Ok (inl (idx, cnt + 1, now)) else Ok (inr (cnt, idx))
    else Ok (inr (cnt, idx))) (idx, 1, now).
Definition gap_revlen (r : rank_select_few) (pos idx : Z) : res Z :=
  if negb (idx =? 0) then let* v := val_a_logi r (idx - 1) in Ok (u64 (pos - 1 - v)) else Ok pos.

Definition run_len (val : bool) (r : rank_select_few) (pos : Z) : res Z :=
  let* idx := lower_bound r pos in
  if Bool.eqb val P then let* (c, _) := pivot_len r pos idx in Ok c else gap_len r pos idx.
Definition zero_seq_len := run_len false.
Definition one_seq_len := run_len true.

Definition run_revlen (val : bool) (r : rank_select_few) (pos : Z) : res Z :=
  if pos =? 0 then Ok 0 else
  if Bool.eqb val P then
    let* idx := lower_bound r (pos - 1) in let* (c, _) := pivot_revlen r pos idx in Ok c
  else let* idx := lower_bound r pos in gap_revlen r pos idx.
Definition zero_seq_revlen := run_revlen false.
Definition one_seq_revlen := run_revlen true.

(** The variants with a hint go on with the hint, not with the result. *)
Definition run_len_hint (val : bool) (r : rank_select_few) (pos hint : Z) : res (Z * Z) :=
  let* (_, hint) := lower_bound_hint r pos hint in
  if Bool.eqb val P then pivot_len r pos hint else let* c := gap_len r pos hint in Ok (c, hint).
Definition zero_seq_len_hint := run_len_hint false.
Definition one_seq_len_hint := run_len_hint true.

Definition run_revlen_hint (val : bool) (r : rank_select_few) (pos hint : Z) : res (Z * Z) :=
  if pos =? 0 then Ok (0, hint) else
  if Bool.eqb val P then
    let* (_, hint) := lower_bound_hint r (pos - 1) hint in pivot_revlen r pos hint
  else let* (_, hint) := lower_bound_hint r pos hint in let* c := gap_revlen r pos hint in Ok (c, hint).
Definition zero_seq_revlen_hint := run_revlen_hint false.
Definition one_seq_revlen_hint := run_revlen_hint true.

(** ** The builder *)

Record rank_select_few_builder := Builder {
  b_rev : bool; b_last : Z; b_it : Z; b_num0 : Z; b_num1 : Z; b_layer : Z; b_offset : Z; b_mempool : list Z }.

(** The end offsets of the layers. *)
Definition layer_ends (n : Z) : res (list Z) :=
  loop 9 (fun '(n, sz, cache) =>
    if negb (n =? 0) then let sz := sz + n * W in Ok (inl (Z.shiftr n 8, sz, cache ++ [sz]))
    else Ok (inr cache)) (n, 0, []).

(** [m_last] is not set when [P]; [cache[0]] is not set without pivots. *)
Definition new_builder (num0 num1 : Z) (rev : bool) : res rank_select_few_builder :=
  let n := if P then num1 else num0 in
  let* cache := layer_ends n in
  let layer := Z.of_nat (length cache) in
  let* _ := assert_ (layer <=? 8) in
  let* first := match cache with [] => UB | sz :: _ => Ok sz end in
  let sz := List.last cache 0 in
  let sz := if layer <=? 1 then sz + W else sz in
  let align_size := (sz + 7) / 8 * 8 in
  let m := replicate (Z.to_nat (align_size + 8 + (2 + layer) * 8)) 0 in
  let* m := wr64b m align_size num0 in
  let* m := wr64b m (align_size + 8) num1 in
  let m_offset := align_size + 16 in
  let* m := for_ 0 layer (fun i m => wr64b m (m_offset + 8 * i) (nth (Z.to_nat i) cache 0)) m in
  let* m := wr64b m (m_offset + 8 * layer) layer in
  Ok (Builder rev (if P then 0 else if rev then num0 + num1 - 1 else 0) (if rev then first - W else 0)
        num0 num1 layer m_offset m).

(** One position is written and the iterator moved. *)
Definition emit (b : rank_select_few_builder) (x : Z) : res rank_select_few_builder :=
  let* m := or64 (b_mempool b) (b_it b) x in
  Ok (Builder (b_rev b) (b_last b) (if b_rev b then b_it b - W else b_it b + W)
        (b_num0 b) (b_num1 b) (b_layer b) (b_offset b) m).
Definition with_last (b : rank_select_few_builder) (x : Z) : rank_select_few_builder :=
  Builder (b_rev b) x (b_it b) (b_num0 b) (b_num1 b) (b_layer b) (b_offset b) (b_mempool b).

(** [while (m_last != pos) *it |= m_last-- (or ++)], then past [pos] *)
Definition insert (b : rank_select_few_builder) (pos : Z) : res rank_select_few_builder :=
  let* _ := assert_ (pos <=? mask) in
  if P then emit b pos else
  let d := if b_rev b then -1 else 1 in
  let* _ := assert_ (if b_rev b then pos <=? b_last b else b_last b <=? pos) in
  let* b := loop (S (Z.to_nat (d * (pos - b_last b)))) (fun b =>
    if negb (b_last b =? pos) then let* b' := emit b (b_last b) in Ok (inl (with_last b' (b_last b + d)))
    else Ok (inr b)) b in
  Ok (with_last b (b_last b + d)).

(** The copies of one layer: every 256th entry from [src] on. *)
Definition sample_layer (m : list Z) (dst src e : Z) : res (list Z) :=
  loop (S (Z.to_nat (e - dst))) (fun '(m, dst, src) =>
    if dst <? e then let* m := memcpy m dst src W in Ok (inl (m, dst + W, src + W * 256))
    else Ok (inr m)) (m, dst, src).

Definition finish (b : rank_select_few_builder) : res rank_select_few :=
  let* b :=
    if P then Ok b else
    let* e := rd64b (b_mempool b) (b_offset b) in
    let more b := if b_rev b then 0 <=? b_it b else b_it b <? e in
    let d := if b_rev b then -1 else 1 in
    loop (S (Z.to_nat e)) (fun b =>
      if more b then let* b' := emit b (b_last b) in Ok (inl (with_last b' (b_last b + d)))
      else Ok (inr b)) b in
  let* _ := assert_ (0 <? b_layer b) in
  let* (m, _) := for_ 0 (b_layer b - 1) (fun i '(m, src) =>
    let* dst := rd64b m (b_offset b + 8 * i) in
    let* e := rd64b m (b_offset b + 8 * (i + 1)) in
    let* m := sample_layer m dst src e in Ok (m, dst)) (b_mempool b, 0) in
  Ok (Few (b_num0 b) (b_num1 b) (b_layer b) (b_offset b) m).

(** The use of the builder: all ones in the builder's direction. *)
Definition build (num0 num1 : Z) (rev : bool) (ones : list Z) : res rank_select_few :=
  let* b := new_builder num0 num1 rev in
  let* b := fold_left (fun b pos => let* b := b in insert b pos) ones (Ok b) in
  finish b.

Definition risk_mmap_from (src : list Z) : res rank_select_few :=
  let ptr := Z.of_nat (length src) - 8 in
  let* layer := rd64b src ptr in
  let* _ := assert_ (layer <? 8) in
  let m_offset := ptr - 8 * layer in
  let* num1 := rd64b src (m_offset - 8) in
  let* num0 := rd64b src (m_offset - 16) in
  Ok (Few num0 num1 layer m_offset src).

#[export] Instance few_rs : RankSelect rank_select_few := {|
  rs_size := size; rs_is1 := is1; rs_rank0 := rank0; rs_rank1 := rank1;
  rs_select0 := select0; rs_select1 := select1; rs_max_rank0 := m_num0; rs_max_rank1 := m_num1 |}.
End few.

(** ** The layout *)

(** Entries of the layers below [i], per layer [n / 256 ^ i]. *)
Fixpoint sums (n : Z) (i : nat) : Z := match i with O => 0 | S i => sums n i + n / 256 ^ Z.of_nat i end.
Definition cnt_at (n i : Z) : Z := n / 256 ^ i.
Definition start (W n i : Z) : Z := W * sums n (Z.to_nat i).

Lemma start_succ W n i : 0 <= i -> start W n (i + 1) = start W n i + W * cnt_at n i.
Proof.
  intros Hi. unfold start, cnt_at. replace (Z.to_nat (i + 1)) with (S (Z.to_nat i)) by lia. cbn [sums].
  rewrite Z2Nat.id by lia. lia.
Qed.

Lemma start_0 W n : start W n 0 = 0.
Proof. apply Z.mul_0_r. Qed.

Lemma cnt_next n i : 0 <= n -> 0 <= i -> cnt_at n (i + 1) = cnt_at n i / 256.
Proof. intros Hn Hi. unfold cnt_at. rewrite Z.div_div by (try apply Z.pow_nonzero; lia). rewrite Z.pow_add_r by lia. done. Qed.

Lemma cnt_nonneg n i : 0 <= n -> 0 <= i -> 0 <= cnt_at n i.
Proof. intros. apply Z.div_pos; [lia|]. apply Z.pow_pos_nonneg; lia. Qed.

Lemma cnt_anti n i j : 0 <= n -> 0 <= i <= j -> cnt_at n j <= cnt_at n i.
Proof.
  intros Hn Hij. unfold cnt_at. apply Z.div_le_compat_l; [lia|]. split; [apply Z.pow_pos_nonneg; lia|].
  apply Z.pow_le_mono_r; lia.
Qed.

Lemma start_nonneg W n i : 0 <= n -> 0 <= W -> 0 <= start W n i.
Proof.
  intros Hn HW. unfold start. apply Z.mul_nonneg_nonneg; [done|]. induction (Z.to_nat i) as [|k IH]; [done|]. cbn [sums].
  pose proof (cnt_nonneg n (Z.of_nat k) Hn ltac:(lia)). unfold cnt_at in *. lia.
Qed.

(** The structure [r] stores the ascending pivots [pv 0 .. pv (n - 1)]. *)
Record layout (P : bool) (W : Z) (r : rank_select_few) (pv : Z -> Z) : Prop := {
  lay_W : 1 <= W <= 8;
  lay_n : 0 < pivots P r;
  lay_L : 1 <= m_layer r <= 8;
  lay_top : 0 < cnt_at (pivots P r) (m_layer r - 1);
  lay_off : forall i, 0 <= i < m_layer r -> offset r i = Ok (start W (pivots P r) (i + 1));
  lay_val : forall i k, 0 <= i < m_layer r -> 0 <= k < cnt_at (pivots P r) i ->
    val_of_ptr W (m_mempool r) (start W (pivots P r) i + k * W) = Ok (pv (k * 256 ^ i));
  lay_after : exists x, val_a_logi W r (pivots P r) = Ok x /\ x <= pv 0;
  lay_mono : forall i j, 0 <= i < j -> j < pivots P r -> pv i < pv j;
  lay_range : forall i, 0 <= i < pivots P r -> 0 <= pv i < size r;
  lay_size : 0 <= complements P r;
  lay_64 : size r < 2 ^ 64 }.

Section search.
Context (P : bool) (W : Z) (r : rank_select_few) (pv : Z -> Z) (H : layout P W r pv).
Let m := m_mempool r.
Let n := pivots P r.
Let st := start W n.
Let cnt := cnt_at n.

Lemma lay_facts : 1 <= W <= 8 /\ 0 < n /\ 1 <= m_layer r <= 8 /\
  (forall i, 0 <= i < m_layer r -> 0 < cnt i) /\ (forall i, 0 <= st i).
Proof.
  pose proof (lay_W _ _ _ _ H). pose proof (lay_n _ _ _ _ H). pose proof (lay_L _ _ _ _ H). pose proof (lay_top _ _ _ _ H) as T.
  split; [done|]. split; [done|]. split; [done|]. split.
  - intros i Hi. fold n in T. pose proof (cnt_anti n i (m_layer r - 1) ltac:(lia) ltac:(lia)). unfold cnt. lia.
  - intros i. apply start_nonneg; lia.
Qed.

Lemma val_at i k : 0 <= i < m_layer r -> 0 <= k < cnt i -> val_of_ptr W m (st i + k * W) = Ok (pv (k * 256 ^ i)).
Proof. apply (lay_val _ _ _ _ H). Qed.

(** An entry of layer [i] stands for the pivot [k * 256 ^ i]. *)
Lemma entry_bound i k : 0 <= i -> 0 <= k < cnt i -> 0 <= k * 256 ^ i < n.
Proof.
  intros Hi Hk. pose proof (Z.pow_pos_nonneg 256 i ltac:(lia) Hi). split; [nia|]. unfold cnt in *. unfold cnt_at in Hk.
  pose proof (Z.mul_div_le n (256 ^ i) ltac:(lia)). nia.
Qed.

Lemma val_logi k : 0 <= k < n -> val_a_logi W r k = Ok (pv k).
Proof.
  intros Hk. pose proof lay_facts as F. unfold val_a_logi. replace (k * W) with (st 0 + k * W) by (unfold st; rewrite start_0; lia).
  fold m. rewrite (val_at 0) by (unfold cnt; unfold cnt_at; rewrite ?Z.pow_0_r, ?Z.div_1_r; lia). do 2 f_equal. lia.
Qed.

(** A scan of layer [i] from entry [k0]. *)
Lemma scan_ok stop i k0 : 0 <= i < m_layer r -> 0 <= k0 <= cnt i ->
  exists k, scan W m stop (st i + k0 * W) (st (i + 1)) = Ok (st i + k * W) /\ k0 <= k <= cnt i /\
    (forall j, k0 <= j < k -> stop (pv (j * 256 ^ i)) = false) /\ (k < cnt i -> stop (pv (k * 256 ^ i)) = true).
Proof.
  intros Hi Hk0. pose proof lay_facts as (HW & Hn & HL & _). unfold scan.
  assert (Est : st (i + 1) = st i + W * cnt i) by (apply start_succ; lia). rewrite Est.
  destruct (loop_inv (fun p => exists k, p = st i + k * W /\ k0 <= k <= cnt i /\ forall j, k0 <= j < k -> stop (pv (j * 256 ^ i)) = false)
    (fun p => st i + W * cnt i - p)
    (fun p => exists k, p = st i + k * W /\ k0 <= k <= cnt i /\
       (forall j, k0 <= j < k -> stop (pv (j * 256 ^ i)) = false) /\ (k < cnt i -> stop (pv (k * 256 ^ i)) = true))
    (fun p => if p <? st i + W * cnt i then let* v := val_of_ptr W m p in if stop v then Ok (inr p) else Ok (inl (p + W)) else Ok (inr p))
    (S (Z.to_nat (st i + W * cnt i - (st i + k0 * W)))) (st i + k0 * W)) as (p & E & k & -> & Hk).
  - exists k0. split; [done|]. split; [lia|]. intros; lia.
  - nia.
  - intros p (k & -> & Hk & Hf). split; [nia|]. destruct (Z.ltb_spec (st i + k * W) (st i + W * cnt i)) as [L|L].
    + assert (k < cnt i) by nia. rewrite val_at by lia. cbn [rbind]. destruct (stop (pv (k * 256 ^ i))) eqn:Es.
      * right. eexists. split; [done|]. exists k. done.
      * left. eexists. split; [done|]. split; [|nia]. exists (k + 1). split; [lia|]. split; [lia|].
        intros j Hj. destruct (decide (j = k)) as [->|]; [done|apply Hf; lia].
    + right. eexists. split; [done|]. exists k. split; [done|]. split; [lia|]. split; [done|]. intros; nia.
  - exists k. done.
Qed.

Lemma top_ok : top r = Ok (st (m_layer r - 1)).
Proof.
  pose proof lay_facts as (HW & Hn & HL & _). unfold top. destruct (Z.eqb_spec (m_layer r) 1) as [->|].
  - unfold st. by rewrite start_0.
  - rewrite (lay_off _ _ _ _ H) by lia. do 2 f_equal. lia.
Qed.

Lemma pv_lt i j : 0 <= i < j -> j < n -> pv i < pv j.
Proof. apply (lay_mono _ _ _ _ H). Qed.

Lemma pv_le i j : 0 <= i <= j -> j < n -> pv i <= pv j.
Proof. intros Hi Hj. destruct (decide (i = j)) as [->|]; [lia|]. pose proof (pv_lt i j). lia. Qed.

(** The first entry of the layer below. *)
Lemma prev_start i : 0 <= i < m_layer r -> (if i =? 0 then Ok 0 else offset r (i - 1)) = Ok (st i).
Proof.
  intros Hi. destruct (Z.eqb_spec i 0) as [->|]; [unfold st; by rewrite start_0|].
  rewrite (lay_off _ _ _ _ H) by lia. do 2 f_equal. lia.
Qed.

(** Descending: entry [k] of layer [i + 1] is entry [256 * k] of layer [i]. *)
Lemma below i k : 0 <= i -> 0 <= k < cnt (i + 1) -> 0 <= 256 * k < cnt i /\ 256 * k * 256 ^ i = k * 256 ^ (i + 1).
Proof.
  intros Hi Hk. unfold cnt in *. rewrite cnt_next in Hk by (pose proof lay_facts; lia).
  pose proof (Z.mul_div_le (cnt_at n i) 256 ltac:(lia)). rewrite Z.pow_add_r by lia. lia.
Qed.

Definition is_lower (val x : Z) : Prop :=
  0 <= x <= n /\ (forall k, 0 <= k < x -> pv k < val) /\ (forall k, x <= k < n -> val <= pv k).

Lemma lower_bound_ok val : exists x, lower_bound W r val = Ok x /\ is_lower val x.
Proof.
  pose proof lay_facts as (HW & Hn & HL & Hc & _). unfold lower_bound. rewrite top_ok. cbn [rbind]. fold m.
  match goal with |- context [loop ?fuel ?body ?s] =>
    destruct (loop_inv (fun '(i, p) => -1 <= i <= m_layer r - 2 /\ exists k, p = st (i + 1) + k * W /\ 0 <= k < cnt (i + 1) /\
        (k = 0 \/ pv (k * 256 ^ (i + 1)) <= val)) (fun '(i, _) => i + 1)
      (fun p => exists k, p = st 0 + k * W /\ 0 <= k < n /\ (k = 0 \/ pv k <= val)) body fuel s) as (p & -> & k0 & -> & Hk0 & Hp0) end.
  - split; [lia|]. exists 0. replace (m_layer r - 2 + 1) with (m_layer r - 1) by lia. pose proof (Hc (m_layer r - 1)). split; [lia|]. lia.
  - lia.
  - intros [i p] (Hi & k & -> & Hk & Hp). split; [lia|]. destruct (Z.leb_spec 0 i) as [Hi0|Hi0].
    2: { right. eexists. split; [done|]. assert (i = -1) as -> by lia. exists k. change (-1 + 1) with 0 in *.
         unfold cnt in *. unfold cnt_at in Hk. rewrite Z.pow_0_r, Z.div_1_r in Hk. rewrite Z.pow_0_r, Z.mul_1_r in Hp. done. }
    left. rewrite (lay_off _ _ _ _ H) by lia. cbn [rbind]. change (start W (pivots P r)) with st.
    destruct (scan_ok (fun v => val <? v) (i + 1) k) as (k' & -> & Hk' & Hf & _); [lia|lia|]. cbn [rbind].
    rewrite (lay_off _ _ _ _ H) by lia. cbn [rbind]. change (start W (pivots P r)) with st.
    rewrite prev_start by lia. cbn [rbind]. eexists. split; [done|]. cbn beta iota. split; [|lia]. split; [lia|].
    set (q := if decide (0 < k') then k' - 1 else 0).
    assert (Hq : (if st (i + 1) <? st (i + 1) + k' * W then st (i + 1) + k' * W - W else st (i + 1) + k' * W) = st (i + 1) + q * W).
    { subst q. case_decide; destruct (Z.ltb_spec (st (i + 1)) (st (i + 1) + k' * W)); nia. }
    rewrite Hq. assert (Hqb : 0 <= q < cnt (i + 1)) by (subst q; pose proof (Hc (i + 1)); case_decide; lia).
    destruct (below i q Hi0 Hqb) as [B1 B2]. exists (256 * q). replace (i - 1 + 1) with i by lia. split; [lia|]. split; [done|].
    destruct (decide (q = 0)) as [->|Hq0]; [by left|]. right. rewrite B2.
    destruct (decide (k <= q)) as [Hkq|Hkq].
    + assert (q < k') by (subst q; case_decide; lia). specialize (Hf q ltac:(lia)). cbn beta in Hf. apply Z.ltb_ge in Hf. done.
    + assert (k <> 0) by lia. destruct Hp as [?|Hp]; [done|]. etransitivity; [|exact Hp].
      pose proof (entry_bound (i + 1) k ltac:(lia) Hk). pose proof (Z.pow_pos_nonneg 256 (i + 1)). apply pv_le; nia.
  - cbn [rbind]. rewrite (lay_off _ _ _ _ H) by lia. cbn [rbind]. change (start W (pivots P r)) with st.
    assert (C0 : cnt 0 = n) by (unfold cnt; unfold cnt_at; by rewrite Z.pow_0_r, Z.div_1_r).
    destruct (scan_ok (fun v => val <=? v) 0 k0) as (k & -> & Hk & Hf & Hg); [lia|lia|]. cbn [rbind].
    assert (E0 : st 0 = 0) by apply start_0. rewrite E0, Z.add_0_l, Z.div_mul by lia. exists k. split; [done|].
    rewrite C0 in *. setoid_rewrite Z.pow_0_r in Hf. setoid_rewrite Z.mul_1_r in Hf. rewrite Z.pow_0_r, Z.mul_1_r in Hg.
    split; [lia|]. split.
    + intros j Hj. destruct (decide (k0 <= j)) as [Hj0|Hj0]; [specialize (Hf j ltac:(lia)); cbn beta in Hf; by apply Z.leb_gt in Hf|].
      destruct Hp0 as [?|Hp0]; [lia|]. pose proof (pv_lt j k0 ltac:(lia) ltac:(lia)). lia.
    + intros j Hj. specialize (Hg ltac:(lia)). cbn beta in Hg. apply Z.leb_le in Hg. pose proof (pv_le k j ltac:(lia) ltac:(lia)). lia.
Qed.
(** *** The complement: pivot [k] has [pv k - k] others before it *)

Lemma pv_gap i j : 0 <= i <= j -> j < n -> j - i <= pv j - pv i.
Proof.
  intros Hi Hj. assert (G : forall d : nat, i + Z.of_nat d < n -> Z.of_nat d <= pv (i + Z.of_nat d) - pv i).
  { induction d as [|d IH]; intros Hd; [rewrite Z.add_0_r; lia|]. specialize (IH ltac:(lia)).
    pose proof (pv_lt (i + Z.of_nat d) (i + Z.of_nat (S d)) ltac:(lia) Hd). lia. }
  specialize (G (Z.to_nat (j - i))). rewrite Z2Nat.id in G by lia. replace (i + (j - i)) with j in G by lia. apply G. lia.
Qed.

(** A scan that counts, of layer [i] from entry [k0]. *)
Lemma scan_pos_ok id i k0 : 0 <= i < m_layer r -> 0 <= k0 <= cnt i ->
  exists k, scan_pos W m id (256 ^ i) (st i + k0 * W) (k0 * 256 ^ i) (st (i + 1)) = Ok (st i + k * W, k * 256 ^ i) /\
    k0 <= k <= cnt i /\ (forall j, k0 <= j < k -> pv (j * 256 ^ i) - j * 256 ^ i <= id) /\
    (k < cnt i -> id < pv (k * 256 ^ i) - k * 256 ^ i).
Proof.
  intros Hi Hk0. pose proof lay_facts as (HW & Hn & HL & _). unfold scan_pos.
  assert (Est : st (i + 1) = st i + W * cnt i) by (apply start_succ; lia). rewrite Est.
  match goal with |- context [loop ?fuel ?body ?s] =>
    destruct (loop_inv (fun '(p, pos) => exists k, p = st i + k * W /\ pos = k * 256 ^ i /\ k0 <= k <= cnt i /\
        forall j, k0 <= j < k -> pv (j * 256 ^ i) - j * 256 ^ i <= id)
      (fun '(p, _) => st i + W * cnt i - p)
      (fun '(p, pos) => exists k, p = st i + k * W /\ pos = k * 256 ^ i /\ k0 <= k <= cnt i /\
        (forall j, k0 <= j < k -> pv (j * 256 ^ i) - j * 256 ^ i <= id) /\
        (k < cnt i -> id < pv (k * 256 ^ i) - k * 256 ^ i)) body fuel s) as ([p pos] & -> & k & -> & -> & Hk) end.
  - exists k0. do 2 (split; [done|]). split; [lia|]. intros; lia.
  - nia.
  - intros [p pos] (k & -> & -> & Hk & Hf). split; [nia|]. destruct (Z.ltb_spec (st i + k * W) (st i + W * cnt i)) as [L|L].
    + assert (k < cnt i) by nia. rewrite val_at by lia. cbn [rbind].
      destruct (Z.ltb_spec (id + k * 256 ^ i) (pv (k * 256 ^ i))).
      * right. eexists. split; [done|]. exists k. do 2 (split; [done|]). split; [lia|]. split; [done|lia].
      * left. eexists. split; [done|]. cbn beta iota. split; [|nia]. exists (k + 1). split; [lia|]. split; [lia|]. split; [lia|].
        intros j Hj. destruct (decide (j = k)) as [->|]; [lia|apply Hf; lia].
    + right. eexists. split; [done|]. exists k. do 2 (split; [done|]). split; [lia|]. split; [done|]. intros; nia.
  - exists k. done.
Qed.

Definition is_gap (id x : Z) : Prop :=
  0 <= x <= n /\ (forall k, 0 <= k < x -> pv k - k <= id) /\ (forall k, x <= k < n -> id < pv k - k).

Lemma pow_step i : 0 <= i -> 2 ^ (8 * i + 8) = 256 ^ (i + 1).
Proof. intros. replace (8 * i + 8) with (8 * (i + 1)) by lia. rewrite Z.pow_mul_r by lia. done. Qed.

Lemma select_complement_ok id : 0 <= id < complements P r ->
  exists x, select_complement P W r id = Ok (id + x) /\ is_gap id x.
Proof.
  intros Hid. pose proof lay_facts as (HW & Hn & HL & Hc & _). unfold select_complement. fold m.
  rewrite (proj2 (Z.ltb_lt _ _)) by lia. cbn [assert_ rbind].
  assert (E0 : st 0 = 0) by apply start_0. assert (C0 : cnt 0 = n) by (unfold cnt, cnt_at; by rewrite Z.pow_0_r, Z.div_1_r).
  assert (V : forall k, 0 <= k < n -> val_of_ptr W m (k * W) = Ok (pv k)) by exact val_logi.
  pose proof (V 0 ltac:(lia)) as V0. rewrite Z.mul_0_l in V0. rewrite V0. cbn [rbind].
  destruct (Z.ltb_spec id (pv 0)) as [L0|L0].
  { exists 0. split; [f_equal; lia|]. split; [lia|]. split; [intros; lia|]. intros k Hk. pose proof (pv_gap 0 k). lia. }
  rewrite (lay_off _ _ _ _ H) by lia. cbn [rbind]. change (start W (pivots P r) (0 + 1)) with (st (0 + 1)).
  assert (E1 : st (0 + 1) = n * W) by (unfold st at 1; rewrite start_succ by lia; fold cnt; fold st; rewrite E0; fold n; rewrite C0; lia).
  rewrite E1. replace (n * W - W) with ((n - 1) * W) by lia. rewrite V by lia. cbn [rbind]. change (pivots P r) with n.
  destruct (Z.ltb_spec (pv (n - 1)) (id + n)) as [L1|L1].
  { exists n. split; [done|]. split; [lia|]. split; [|intros; lia]. intros k Hk. pose proof (pv_gap k (n - 1)). lia. }
  rewrite top_ok. cbn [rbind].
  match goal with |- context [loop ?fuel ?body ?s] =>
    destruct (loop_inv (fun '(i, p, pos) => -1 <= i <= m_layer r - 2 /\ exists k, p = st (i + 1) + k * W /\ pos = k * 256 ^ (i + 1) /\
        0 <= k < cnt (i + 1) /\ pv pos - pos <= id) (fun '(i, _, _) => i + 1)
      (fun '(p, pos) => exists k, p = st 0 + k * W /\ pos = k * 256 ^ 0 /\ 0 <= k < n /\ pv k - k <= id) body fuel s)
      as ([p pos] & -> & k0 & -> & -> & Hk0 & Hp0) end.
  - split; [lia|]. exists 0. replace (m_layer r - 2 + 1) with (m_layer r - 1) by lia. pose proof (Hc (m_layer r - 1)). split; [lia|]. lia.
  - lia.
  - intros [[i p] pos] (Hi & k & -> & Epos & Hk & Hp). split; [lia|]. destruct (Z.leb_spec 0 i) as [Hi0|Hi0].
    2: { right. eexists. split; [done|]. assert (i = -1) as -> by lia. exists k. change (-1 + 1) with 0 in *. rewrite C0 in Hk.
         split; [done|]. split; [done|]. split; [done|]. rewrite Epos, Z.pow_0_r, Z.mul_1_r in Hp. done. }
    left. rewrite (lay_off _ _ _ _ H) by lia. cbn [rbind]. change (start W (pivots P r)) with st. rewrite pow_step by done.
    destruct (scan_pos_ok id (i + 1) k) as (k' & E & Hk' & Hf & Hg); [lia|lia|]. rewrite <- Epos in E. rewrite E. cbn [rbind]. clear E.
    assert (Hlt : k < k').
    { destruct (decide (k < k')); [done|]. assert (k' = k) as -> by lia. specialize (Hg ltac:(lia)). rewrite <- Epos in Hg. lia. }
    pose proof (Z.pow_pos_nonneg 256 (i + 1) ltac:(lia) ltac:(lia)).
    rewrite (proj2 (Z.eqb_neq _ _)) by nia. cbn [negb]. rewrite prev_start by lia. cbn [rbind].
    rewrite (lay_off _ _ _ _ H) by lia. cbn [rbind]. change (start W (pivots P r)) with st.
    eexists. split; [done|]. cbn beta iota. split; [|lia]. split; [lia|].
    destruct (below i (k' - 1) Hi0 ltac:(lia)) as [B1 B2]. exists (256 * (k' - 1)). replace (i - 1 + 1) with i by lia.
    split; [lia|]. split; [lia|]. split; [done|].
    replace (k' * 256 ^ (i + 1) - 256 ^ (i + 1)) with ((k' - 1) * 256 ^ (i + 1)) by lia. apply Hf. lia.
  - cbn [rbind]. change (start W (pivots P r) (0 + 1)) with (st (0 + 1)). rewrite <- E1.
    destruct (scan_pos_ok id 0 k0) as (k & E & Hk & Hf & Hg); [lia|lia|]. change (256 ^ 0) with 1 in *. rewrite E. cbn [rbind].
    exists k. rewrite Z.mul_1_r. split; [done|]. rewrite C0 in *. setoid_rewrite Z.mul_1_r in Hf. rewrite Z.mul_1_r in Hg.
    split; [lia|]. split.
    + intros j Hj. destruct (decide (k0 <= j)); [apply Hf; lia|]. pose proof (pv_gap j k0). lia.
    + intros j Hj. pose proof (pv_gap k j). lia.
Qed.
(** *** The bits *)

Definition mem (p : Z) : bool := existsb (fun k => pv k =? p) (seqZ 0 n).

Lemma mem_spec p : mem p = true <-> exists k, 0 <= k < n /\ pv k = p.
Proof.
  unfold mem. rewrite existsb_exists. split.
  - intros (k & Hk & E). apply list_elem_of_In, elem_of_seqZ in Hk. apply Z.eqb_eq in E. exists k. split; [lia|done].
  - intros (k & Hk & E). exists k. split; [apply list_elem_of_In, elem_of_seqZ; lia|by apply Z.eqb_eq].
Qed.

Lemma mem_lower val x : is_lower val x -> mem val = (x <? n) && (pv x =? val).
Proof.
  intros (Hx & H1 & H2). apply eq_true_iff_eq. rewrite mem_spec, andb_true_iff, Z.ltb_lt, Z.eqb_eq. split.
  - intros (k & Hk & E). destruct (decide (k < x)); [specialize (H1 k ltac:(lia)); lia|].
    destruct (decide (k = x)) as [->|]; [lia|]. pose proof (pv_lt x k ltac:(lia) ltac:(lia)). specialize (H2 x ltac:(lia)). lia.
  - intros [Hlt E]. exists x. lia.
Qed.

Lemma rank_mem val x : 0 <= val -> is_lower val x -> rank mem val = x.
Proof.
  intros Hv. revert x. pattern val. apply natlike_ind; [| |done]; clear val Hv.
  - intros x (Hx & H1 & _). unfold rank. cbn. destruct (decide (x = 0)); [done|]. specialize (H1 0 ltac:(lia)).
    pose proof (lay_range _ _ _ _ H 0 ltac:(pose proof lay_facts; lia)). lia.
  - intros v Hv IH x Hx. unfold Z.succ. rewrite rank_succ by lia. destruct Hx as (Hx & H1 & H2).
    destruct (decide (0 < x /\ pv (x - 1) = v)) as [[Hp E]|Hne].
    + rewrite (IH (x - 1)).
      * assert (mem v = true) as -> by (apply mem_spec; exists (x - 1); lia). cbn. lia.
      * split; [lia|]. split; intros k Hk; [pose proof (pv_lt k (x - 1) ltac:(lia) ltac:(lia)); lia|].
        pose proof (pv_le (x - 1) k ltac:(lia) ltac:(lia)). lia.
    + assert (Hl : is_lower v x).
      { split; [done|]. split; intros k Hk; [|specialize (H2 k Hk); lia]. pose proof (H1 k Hk).
        pose proof (H1 (x - 1) ltac:(lia)). pose proof (pv_le k (x - 1) ltac:(lia) ltac:(lia)). lia. }
      rewrite (IH x Hl). destruct (mem v) eqn:Em; [|cbn; lia]. rewrite (mem_lower v x Hl) in Em.
      apply andb_prop in Em. destruct Em as [E1%Z.ltb_lt E2%Z.eqb_eq]. specialize (H2 x ltac:(lia)). lia.
Qed.

Lemma pivot_lower k : 0 <= k < n -> is_lower (pv k) k.
Proof.
  intros Hk. split; [lia|]. split; intros j Hj; [apply pv_lt; lia|apply pv_le; lia].
Qed.

Lemma all_lower : is_lower (size r) n.
Proof.
  pose proof lay_facts. split; [lia|]. split; [|intros; lia]. intros k Hk. apply (lay_range _ _ _ _ H). done.
Qed.

Lemma gap_lower id x : is_gap id x -> is_lower (id + x) x /\ mem (id + x) = false.
Proof.
  intros (Hx & H1 & H2). assert (L : is_lower (id + x) x).
  { split; [done|]. split; intros k Hk; [|specialize (H2 k Hk); lia]. specialize (H1 k Hk). lia. }
  split; [done|]. rewrite (mem_lower _ _ L). destruct (Z.ltb_spec x n); [|done]. specialize (H2 x ltac:(lia)). cbn. lia.
Qed.

(** The bit at every position. *)
Definition bitf (p : Z) : bool := if P then mem p else negb (mem p).

Lemma at_ok pos x : 0 <= pos -> is_lower pos x -> at_ P W r pos x = Ok (bitf pos).
Proof.
  intros Hp Hx. unfold at_, bitf. rewrite (mem_lower pos x Hx). destruct Hx as (Hx & H1 & H2).
  destruct (decide (x < n)) as [Hlt|].
  - rewrite val_logi by lia. cbn [rbind]. rewrite (proj2 (Z.ltb_lt _ _)) by lia. done.
  - assert (x = n) as -> by lia. destruct (lay_after _ _ _ _ H) as (y & E & Hy). change (pivots P r) with n in E. rewrite E.
    cbn [rbind]. rewrite Z.ltb_irrefl. cbn [andb]. specialize (H1 0 ltac:(pose proof lay_facts; lia)).
    rewrite (proj2 (Z.eqb_neq _ _)) by lia. done.
Qed.

Lemma rank_bitf p x : 0 <= p -> is_lower p x -> rank bitf p = if P then x else p - x.
Proof.
  intros Hp Hx. pose proof (rank_mem p x Hp Hx) as R. unfold bitf. case P; [done|]. rewrite (rank_negb mem) by done. lia.
Qed.

Lemma select_pivot k : 0 <= k < n -> is_select mem k (pv k) /\ pv k < size r.
Proof.
  intros Hk. pose proof (lay_range _ _ _ _ H k Hk). split; [|lia]. split; [lia|].
  split; [apply mem_spec; by exists k|]. apply rank_mem; [lia|by apply pivot_lower].
Qed.

Lemma size_split : size r = n + complements P r.
Proof. change n with (pivots P r). unfold pivots, complements, size. case P; lia. Qed.

Lemma select_gap id x : 0 <= id < complements P r -> is_gap id x ->
  is_select (fun p => negb (mem p)) id (id + x) /\ id + x < size r.
Proof.
  intros Hid Hx. destruct (gap_lower id x Hx) as [L M]. destruct Hx as (Hx & _).
  assert (S : is_select (fun p => negb (mem p)) id (id + x)).
  { split; [lia|]. split; [by rewrite M|]. rewrite rank_negb, (rank_mem _ x) by (done || lia). lia. }
  split; [done|]. pose proof size_split as E. pose proof lay_facts. apply (is_select_lt _ _ _ (size r) S); [lia|].
  rewrite rank_negb, (rank_mem _ n) by (apply all_lower || lia). lia.
Qed.

Lemma bitf_cases : (P = true /\ bitf = mem) \/ (P = false /\ bitf = fun p => negb (mem p)).
Proof. unfold bitf. case P; [by left|by right]. Qed.

Lemma few_laws : @rs_laws _ (few_rs P W) r bitf.
Proof.
  assert (Hs : 0 <= size r) by (pose proof (lay_range _ _ _ _ H 0 ltac:(pose proof lay_facts; lia)); lia).
  pose proof (rank_bitf _ n Hs all_lower) as R1. pose proof size_split as Es.
  assert (Em : m_num1 r = (if P then n else complements P r) /\ m_num0 r = (if P then complements P r else n)) by
    (change n with (pivots P r); unfold pivots, complements; by case P).
  destruct Em as [E1 E0]. set (c := complements P r) in *.
  split; cbn [rs_size rs_is1 rs_rank1 rs_rank0 rs_select0 rs_select1 rs_max_rank0 rs_max_rank1 few_rs].
  - done.
  - intros p Hp. unfold is1. destruct (lower_bound_ok p) as (x & -> & Hx). cbn [rbind]. apply at_ok; [lia|done].
  - intros p Hp. unfold rank1. destruct (lower_bound_ok p) as (x & -> & Hx). cbn [rbind]. by rewrite (rank_bitf p x) by (done || lia).
  - intros p Hp. unfold rank0. destruct (lower_bound_ok p) as (x & -> & Hx). cbn [rbind]. rewrite (rank_bitf p x) by (done || lia).
    case P; f_equal; lia.
  - rewrite R1, E1. case P; lia.
  - rewrite R1, E0. case P; lia.
  - intros k Hk. rewrite E1 in Hk. destruct bitf_cases as [[EP ->]|[EP ->]]; rewrite EP in Hk.
    + assert (select1 P W r k = val_a_logi W r k) as -> by (unfold select1; by rewrite EP).
      rewrite val_logi by done. destruct (select_pivot k Hk). eauto.
    + assert (select1 P W r k = select_complement P W r k) as -> by (unfold select1; by rewrite EP).
      destruct (select_complement_ok k Hk) as (x & -> & Hx). destruct (select_gap k x Hk Hx). eauto.
  - intros k Hk. rewrite E0 in Hk. destruct bitf_cases as [[EP ->]|[EP ->]]; rewrite EP in Hk.
    + assert (select0 P W r k = select_complement P W r k) as -> by (unfold select0; by rewrite EP).
      destruct (select_complement_ok k Hk) as (x & -> & Hx). destruct (select_gap k x Hk Hx). eauto.
    + assert (select0 P W r k = val_a_logi W r k) as -> by (unfold select0; by rewrite EP).
      rewrite val_logi by done. destruct (select_pivot k Hk) as [(S1 & S2 & S3) S4]. eexists. split; [done|]. split; [|done].
      split; [done|]. split; [by rewrite negb_involutive|]. etransitivity; [|exact S3]. apply rank_ext. intros. by rewrite negb_involutive.
Qed.
(** *** Runs *)

Lemma is_lower_next k : 0 <= k < n -> is_lower (pv k + 1) (k + 1).
Proof.
  intros Hk. split; [lia|]. split; intros j Hj; [pose proof (pv_le j k); lia|]. pose proof (pv_lt k j). lia.
Qed.

(** Reading entry [x]: the pivot, or what follows the last one. *)
Lemma read_lower val x : is_lower val x -> exists y, val_a_logi W r x = Ok y /\ (y =? val) = mem val /\ (x < n -> y = pv x).
Proof.
  intros Hx. rewrite (mem_lower val x Hx). destruct Hx as (Hx & H1 & H2). destruct (decide (x < n)) as [L|L].
  - exists (pv x). rewrite val_logi, (proj2 (Z.ltb_lt _ _)) by lia. done.
  - assert (x = n) as -> by lia. destruct (lay_after _ _ _ _ H) as (y & E & Hy). exists y. split; [done|]. rewrite Z.ltb_irrefl.
    specialize (H1 0 ltac:(pose proof lay_facts; lia)). split; [apply Z.eqb_neq; lia|lia].
Qed.

Lemma pivot_len_ok pos x : 0 <= pos < size r -> is_lower pos x ->
  exists c j, pivot_len W r pos x = Ok (c, j) /\ is_run mem true pos (size r) c.
Proof.
  intros Hp Hx. unfold pivot_len. destruct (read_lower pos x Hx) as (y & -> & Ey & Hy). cbn [rbind]. rewrite Ey.
  destruct (mem pos) eqn:Em; cbn [negb].
  2: { exists 0, x. split; [done|]. repeat split; try lia. intros _. by rewrite Z.add_0_r. }
  rewrite (mem_lower pos x Hx) in Em. apply andb_prop in Em. destruct Em as [Ex%Z.ltb_lt E%Z.eqb_eq]. rewrite (Hy Ex).
  destruct Hx as (Hx & _). pose proof size_split as Es. pose proof (lay_size _ _ _ _ H).
  match goal with |- context [loop ?fuel ?body ?s] =>
    destruct (loop_inv (fun '(i, c, now) => x <= i < n /\ c = i - x + 1 /\ now = pv i /\ pv i = pos + c - 1 /\
        forall q, pos <= q < pos + c -> mem q = true) (fun '(i, _, _) => n - i - 1)
      (fun '(c, j) => is_run mem true pos (size r) c) body fuel s) as ([c j] & -> & R) end.
  - split; [lia|]. split; [lia|]. split; [done|]. split; [lia|]. intros q Hq. apply mem_spec. exists x. lia.
  - lia.
  - intros [[i c] now] (Hi & -> & -> & Ep & Hrun). split; [lia|].
    pose proof (lay_range _ _ _ _ H i ltac:(lia)) as Hr. pose proof (is_lower_next i ltac:(lia)) as Hn.
    pose proof (mem_lower _ _ Hn) as Mn.
    assert (Stop : mem (pv i + 1) = false -> is_run mem true pos (size r) (i - x + 1)).
    { intros Ef. repeat split; try lia; [intros q Hq; apply Hrun; lia|]. intros _. by replace (pos + (i - x + 1)) with (pv i + 1) by lia. }
    destruct (Z.ltb_spec (i + 1) (size r)) as [L|L].
    + destruct (read_lower _ _ Hn) as (y' & -> & Ey' & Hy'). cbn [rbind]. rewrite Z.eqb_sym, Ey'. destruct (mem (pv i + 1)) eqn:Em.
      * left. eexists. split; [done|]. cbn beta iota. symmetry in Mn. apply andb_prop in Mn. destruct Mn as [L1%Z.ltb_lt E1%Z.eqb_eq].
        split; [|lia]. split; [lia|]. split; [lia|]. split; [by apply Hy'|]. split; [lia|].
        intros q Hq. destruct (decide (q = pv i + 1)) as [->|]; [done|apply Hrun; lia].
      * right. eexists. split; [done|]. by apply Stop.
    + right. eexists. split; [done|]. apply Stop. rewrite Mn. rewrite (proj2 (Z.ltb_ge _ _)) by lia. done.
  - exists c, j. done.
Qed.

Lemma gap_len_ok pos x : 0 <= pos < size r -> is_lower pos x ->
  exists c, gap_len P W r pos x = Ok c /\ is_run mem false pos (size r) c.
Proof.
  intros Hp Hx. unfold gap_len. change (pivots P r) with n. destruct Hx as (Hx & H1 & H2).
  assert (F : forall q, pos <= q -> (x < n -> q < pv x) -> mem q = false).
  { intros q Hq Hlt. rewrite (mem_lower q x).
    - destruct (Z.ltb_spec x n); [|done]. apply Z.eqb_neq. specialize (Hlt ltac:(done)). lia.
    - split; [done|]. split; intros k Hk; [specialize (H1 k Hk); lia|]. pose proof (pv_le x k). lia. }
  destruct (Z.eqb_spec x n) as [->|].
  - eexists. split; [done|]. repeat split; try lia. intros q Hq. apply F; lia.
  - rewrite val_logi by lia. cbn [rbind]. eexists. split; [done|]. pose proof (lay_range _ _ _ _ H x ltac:(lia)).
    specialize (H2 x ltac:(lia)). pose proof (lay_64 _ _ _ _ H). unfold u64. rewrite Z.mod_small by lia.
    repeat split; try lia; [intros q Hq; apply F; lia|]. intros _. replace (pos + (pv x - pos)) with (pv x) by lia. apply mem_spec. exists x. lia.
Qed.

Lemma pivot_revlen_ok pos x : 0 < pos <= size r -> is_lower (pos - 1) x ->
  exists c j, pivot_revlen W r pos x = Ok (c, j) /\ is_revrun mem true pos c.
Proof.
  intros Hp Hx. unfold pivot_revlen. destruct (read_lower _ x Hx) as (y & -> & Ey & Hy). cbn [rbind]. rewrite Ey.
  destruct (mem (pos - 1)) eqn:Em; cbn [negb].
  2: { exists 0, x. split; [done|]. repeat split; try lia. intros _. by rewrite Z.sub_0_r. }
  rewrite (mem_lower _ x Hx) in Em. apply andb_prop in Em. destruct Em as [Ex%Z.ltb_lt E%Z.eqb_eq]. rewrite (Hy Ex).
  destruct Hx as (Hx & _).
  match goal with |- context [loop ?fuel ?body ?s] =>
    destruct (loop_inv (fun '(i, c, now) => 0 <= i <= x /\ c = x - i + 1 /\ now = pv i /\ pv i = pos - c /\
        forall q, pos - c <= q < pos -> mem q = true) (fun '(i, _, _) => i)
      (fun '(c, j) => is_revrun mem true pos c) body fuel s) as ([c j] & -> & R) end.
  - split; [lia|]. split; [lia|]. split; [done|]. split; [lia|]. intros q Hq. apply mem_spec. exists x. lia.
  - lia.
  - intros [[i c] now] (Hi & -> & -> & Ep & Hrun). split; [lia|]. pose proof (lay_range _ _ _ _ H i ltac:(lia)) as Hr.
    assert (Stop : (0 < i -> pv (i - 1) < pv i - 1) -> is_revrun mem true pos (x - i + 1)).
    { intros Ef. repeat split; try lia; [intros q Hq; apply Hrun; lia|]. intros Hpos.
      replace (pos - (x - i + 1) - 1) with (pv i - 1) by lia. cbn. apply not_true_iff_false. intros (k & Hk & Ek)%mem_spec.
      destruct (decide (i <= k)); [pose proof (pv_le i k); lia|]. pose proof (pv_le k (i - 1)). lia. }
    destruct (Z.eqb_spec (i - 1) (-1)) as [L|L]; cbn [negb].
    + right. eexists. split; [done|]. apply Stop. lia.
    + rewrite val_logi by lia. cbn [rbind]. pose proof (pv_lt (i - 1) i ltac:(lia) ltac:(lia)).
      destruct (Z.eqb_spec (pv i) (pv (i - 1) + 1)) as [E1|E1].
      * left. eexists. split; [done|]. cbn beta iota. split; [|lia]. split; [lia|]. split; [lia|]. split; [done|]. split; [lia|].
        intros q Hq. destruct (decide (q = pv (i - 1))) as [->|]; [apply mem_spec; exists (i - 1); lia|apply Hrun; lia].
      * right. eexists. split; [done|]. apply Stop. lia.
  - exists c, j. done.
Qed.

Lemma gap_revlen_ok pos x : 0 < pos <= size r -> is_lower pos x ->
  exists c, gap_revlen W r pos x = Ok c /\ is_revrun mem false pos c.
Proof.
  intros Hp (Hx & H1 & H2). unfold gap_revlen.
  assert (F : forall q, (0 < x -> pv (x - 1) < q) -> q < pos -> mem q = false).
  { intros q Hlt Hq. apply not_true_iff_false. intros (k & Hk & Ek)%mem_spec.
    destruct (decide (x <= k)); [specialize (H2 k ltac:(lia)); lia|]. pose proof (pv_le k (x - 1)). lia. }
  destruct (Z.eqb_spec x 0) as [->|]; cbn [negb].
  - eexists. split; [done|]. repeat split; try lia. intros q Hq. apply F; lia.
  - rewrite val_logi by lia. cbn [rbind]. eexists. split; [done|]. specialize (H1 (x - 1) ltac:(lia)).
    pose proof (lay_range _ _ _ _ H (x - 1) ltac:(lia)). pose proof (lay_64 _ _ _ _ H). unfold u64. rewrite Z.mod_small by lia.
    repeat split; try lia; [intros q Hq; apply F; lia|]. intros _. replace (pos - (pos - 1 - pv (x - 1)) - 1) with (pv (x - 1)) by lia. apply mem_spec. exists (x - 1). lia.
Qed.

(** *** With a hint *)

Lemma straddle_ok i lo hi : 0 <= i -> i + 1 < n -> straddle W r i lo hi = Ok ((pv i <? lo) && (hi <=? pv (i + 1))).
Proof.
  intros Hi Hn. unfold straddle. rewrite val_logi by lia. cbn [rbind]. destruct (pv i <? lo); [|done].
  by rewrite val_logi by lia.
Qed.

(** The result is right, and the new hint is the result except when the search
    runs off the end from the last pivot. *)
Lemma lower_bound_hint_ok val hint : 0 <= hint -> exists x h,
  lower_bound_hint P W r val hint = Ok (x, h) /\ is_lower val x /\ (h = x \/ (x = n /\ h = hint /\ hint = n - 1)).
Proof.
  intros Hh. pose proof lay_facts as (HW & Hn & _). unfold lower_bound_hint, when. change (pivots P r) with n.
  assert (D : exists x h, (let* x := lower_bound W r val in Ok (x, x)) = Ok (x, h) /\ is_lower val x /\
    (h = x \/ (x = n /\ h = hint /\ hint = n - 1))).
  { destruct (lower_bound_ok val) as (x & -> & Hx). exists x, x. auto. }
  set (search := let* x := lower_bound W r val in Ok (x, x)) in *.
  assert (S : forall i, 0 <= i -> i + 1 < n -> (pv i <? val) && (val <=? pv (i + 1)) = true -> is_lower val (i + 1)).
  { intros i Hi Hin [L1%Z.ltb_lt L2%Z.leb_le]%andb_prop. split; [lia|].
    split; intros k Hk; [pose proof (pv_le k i)|pose proof (pv_le (i + 1) k)]; lia. }
  destruct (Z.ltb_spec hint n) as [L|L].
  2: { destruct (Z.eqb_spec hint n) as [->|]; [|exact D]. rewrite val_logi by lia. cbn [rbind].
       destruct (Z.leb_spec (pv (n - 1)) val) as [Lv|]; [|exact D]. do 2 eexists. split; [done|]. split; [|by left].
       destruct (Z.eqb_spec (pv (n - 1)) val) as [<-|]; cbn [Z.b2z]; [apply pivot_lower; lia|].
       split; [lia|]. split; [|intros; lia]. intros k Hk. pose proof (pv_le k (n - 1)). lia. }
  assert (C1 : forall (c : bool) i (k : res (Z * Z)) x h, (c = true -> 0 <= i /\ i + 1 < n) ->
    (c = true -> is_lower val (i + 1) -> exists x' h', Ok (x, h) = Ok (x', h') /\ is_lower val x' /\ (h' = x' \/ (x' = n /\ h' = hint /\ hint = n - 1))) ->
    (exists x h, k = Ok (x, h) /\ is_lower val x /\ (h = x \/ (x = n /\ h = hint /\ hint = n - 1))) ->
    exists x' h', (let* b := (if c then straddle W r i val val else Ok false) in if b then Ok (x, h) else k) = Ok (x', h') /\
      is_lower val x' /\ (h' = x' \/ (x' = n /\ h' = hint /\ hint = n - 1))).
  { intros c i k x h Hc Hy Hk. destruct c; [|exact Hk]. destruct (Hc eq_refl). rewrite straddle_ok by done. cbn [rbind].
    destruct (_ && _) eqn:E; [|exact Hk]. apply Hy; [done|]. by apply S. }
  apply C1; [intros ?%Z.ltb_lt; lia| |apply C1; [intros ?%Z.ltb_lt; lia| |apply C1; [intros ?%Z.ltb_lt; lia| |]]].
  - intros _ Hx. replace (hint - 1 + 1) with hint in Hx by lia. do 2 eexists. split; [done|]. auto.
  - intros _ Hx. do 2 eexists. split; [done|]. auto.
  - intros _ Hx. replace (hint - 2 + 1) with (hint - 1) in Hx by lia. do 2 eexists. split; [done|]. auto.
  - destruct (Z.eqb_spec hint 0) as [->|].
    + rewrite val_logi by lia. cbn [rbind]. destruct (Z.leb_spec val (pv 0)).
      * do 2 eexists. split; [done|]. split; [|by left]. split; [lia|]. split; [intros; lia|]. intros k Hk. pose proof (pv_le 0 k). lia.
      * destruct (Z.eqb_spec (0 + 1) n); [|exact D]. cbn [rbind]. rewrite (proj2 (Z.ltb_lt _ _)) by lia.
        do 2 eexists. split; [done|]. split; [|right; lia]. split; [lia|]. split; [|intros; lia]. intros k Hk. assert (k = 0) as -> by lia. lia.
    + cbn [rbind]. destruct (Z.eqb_spec (hint + 1) n); [|exact D]. rewrite val_logi by lia. cbn [rbind].
      destruct (Z.ltb_spec (pv hint) val); [|exact D]. do 2 eexists. split; [done|]. split; [|right; lia].
      split; [lia|]. split; [|intros; lia]. intros k Hk. pose proof (pv_le k hint). lia.
Qed.
End search.

(** ** The builder: the end offsets and the empty memory *)

Lemma mask_eq W : 1 <= W <= 8 -> mask W = 256 ^ W - 1.
Proof.
  intros HW. assert (W = 1 \/ W = 2 \/ W = 3 \/ W = 4 \/ W = 5 \/ W = 6 \/ W = 7 \/ W = 8) as E by lia.
  destruct E as [->|[->|[->|[->|[->|[->|[->| ->]]]]]]]; reflexivity.
Qed.

(** Reading an entry reads its [W] bytes. *)
Lemma val_of_ptr_le W m o : 1 <= W <= 8 -> bytes m -> 0 <= o -> o + 8 <= Z.of_nat (length m) ->
  val_of_ptr W m o = Ok (le_at (Z.to_nat W) m o).
Proof.
  intros HW Hm Ho Hl. unfold val_of_ptr, rd64b. rewrite inside_ok by done. cbn [rbind]. f_equal. rewrite mask_eq by done.
  replace (256 ^ W - 1) with (Z.ones (8 * W)) by (rewrite Z.ones_equiv, Z.pow_mul_r by lia; change (2 ^ 8) with 256; lia).
  rewrite Z.land_ones by lia. replace 8%nat with (Z.to_nat W + Z.to_nat (8 - W))%nat by lia.
  rewrite le_at_split, Z2Nat.id, Z.pow_mul_r by lia. change (2 ^ 8) with 256.
  rewrite (Z.mul_comm (256 ^ W)), Z.mod_add by (apply Z.pow_nonzero; lia). apply Z.mod_small.
  pose proof (le_at_range (Z.to_nat W) m o Hm) as R. by rewrite Z2Nat.id in R by lia.
Qed.

Lemma rd64b_frame m m' o : length m' = length m -> (forall i, o <= i < o + 8 -> byte_at m' i = byte_at m i) -> rd64b m' o = rd64b m o.
Proof.
  intros L B. unfold rd64b, inside. rewrite L. destruct (_ && _); [|done]. f_equal. apply le_at_ext. intros k Hk. apply B. lia.
Qed.

Lemma layer_ends_ok W n : 0 < n < 2 ^ 64 -> exists cache, layer_ends W n = Ok cache /\
  1 <= Z.of_nat (length cache) <= 8 /\ 0 < cnt_at n (Z.of_nat (length cache) - 1) /\
  forall i, 0 <= i < Z.of_nat (length cache) -> nth (Z.to_nat i) cache 0 = start W n (i + 1).
Proof.
  intros Hn. unfold layer_ends.
  match goal with |- context [loop ?fuel ?body ?s] =>
    destruct (loop_inv (fun '(x, sz, cache) => let L := Z.of_nat (length cache) in L <= 8 /\ x = cnt_at n L /\ sz = start W n L /\
        (0 < L -> 0 < cnt_at n (L - 1)) /\ forall i, 0 <= i < L -> nth (Z.to_nat i) cache 0 = start W n (i + 1))
      (fun '(_, _, cache) => 8 - Z.of_nat (length cache))
      (fun cache => let L := Z.of_nat (length cache) in 1 <= L <= 8 /\ 0 < cnt_at n (L - 1) /\
        forall i, 0 <= i < L -> nth (Z.to_nat i) cache 0 = start W n (i + 1)) body fuel s) as (cache & -> & R) end.
  - cbn. split; [lia|]. split; [unfold cnt_at; by rewrite Z.pow_0_r, Z.div_1_r|]. split; [by rewrite start_0|].
    split; intros; lia.
  - cbn. lia.
  - intros [[x sz] cache] (HL & -> & -> & Hc & Hv). set (L := Z.of_nat (length cache)) in *. split; [lia|].
    destruct (Z.eqb_spec (cnt_at n L) 0) as [E|E]; cbn [negb].
    + right. eexists. split; [done|]. fold L. destruct (decide (L = 0)) as [E0|].
      { rewrite E0 in E. unfold cnt_at in E. rewrite Z.pow_0_r, Z.div_1_r in E. lia. }
      split; [lia|]. split; [apply Hc; lia|done].
    + left. eexists. split; [done|]. cbn beta iota zeta. rewrite length_app. cbn [length].
      replace (Z.of_nat (length cache + 1)) with (L + 1) by lia.
      assert (L < 8).
      { destruct (decide (L = 8)) as [E8|]; [|lia]. rewrite E8 in E. unfold cnt_at in E. rewrite Z.div_small in E by (cbn; lia). done. }
      split; [|lia]. split; [lia|]. pose proof (cnt_nonneg n L). split; [rewrite cnt_next by lia; by rewrite Z.shiftr_div_pow2 by lia|].
      split; [rewrite start_succ by lia; lia|]. split; [intros _; replace (L + 1 - 1) with L by lia; lia|].
      intros i Hi. destruct (decide (i < L)).
      * rewrite app_nth1 by lia. apply Hv. lia.
      * assert (i = L) as -> by lia. rewrite app_nth2 by lia. replace (Z.to_nat L - length cache)%nat with O by lia. cbn.
        rewrite start_succ by lia. lia.
  - by exists cache.
Qed.

(** What is behind the data: the two counts, the end offsets, the number of layers. *)
Record tail_ok (W n num0 num1 L align : Z) (m : list Z) : Prop := {
  tl_bytes : bytes m;
  tl_len : Z.of_nat (length m) = align + 24 + 8 * L;
  tl_num0 : rd64b m align = Ok num0;
  tl_num1 : rd64b m (align + 8) = Ok num1;
  tl_off : forall i, 0 <= i < L -> rd64b m (align + 16 + 8 * i) = Ok (start W n (i + 1));
  tl_layer : rd64b m (align + 16 + 8 * L) = Ok L }.

Lemma tail_frame W n num0 num1 L align m m' : tail_ok W n num0 num1 L align m -> 0 <= align -> 0 <= L -> length m' = length m -> bytes m' ->
  (forall i, align <= i < Z.of_nat (length m) -> byte_at m' i = byte_at m i) -> tail_ok W n num0 num1 L align m'.
Proof.
  intros [T1 T2 T3 T4 T5 T6] Ha HL Hlen Hb B. split; try done; try lia.
  - rewrite <- T3. apply rd64b_frame; [done|]. intros. apply B. lia.
  - rewrite <- T4. apply rd64b_frame; [done|]. intros. apply B. lia.
  - intros i Hi. rewrite <- (T5 i Hi). apply rd64b_frame; [done|]. intros. apply B. lia.
  - rewrite <- T6. apply rd64b_frame; [done|]. intros. apply B. lia.
Qed.

Lemma zeros_at k i : byte_at (replicate k 0) i = 0.
Proof. unfold byte_at. rewrite nth_lookup. destruct (replicate k 0 !! Z.to_nat i) eqn:E; [|done]. by apply lookup_replicate in E as [-> _]. Qed.

(** The memory of the new builder. *)
Lemma new_memory_ok W n num0 num1 cache align L : 0 <= align -> L = Z.of_nat (length cache) -> L <= 8 ->
  0 <= num0 < 2 ^ 64 -> 0 <= num1 < 2 ^ 64 ->
  (forall i, 0 <= i < L -> nth (Z.to_nat i) cache 0 = start W n (i + 1)) -> (forall i, 0 <= i < L -> 0 <= start W n (i + 1) < 2 ^ 64) ->
  exists m1 m2 m3 m4, wr64b (replicate (Z.to_nat (align + 8 + (2 + L) * 8)) 0) align num0 = Ok m1 /\ wr64b m1 (align + 8) num1 = Ok m2 /\
    for_ 0 L (fun i m => wr64b m (align + 16 + 8 * i) (nth (Z.to_nat i) cache 0)) m2 = Ok m3 /\
    wr64b m3 (align + 16 + 8 * L) L = Ok m4 /\ tail_ok W n num0 num1 L align m4 /\ forall i, 0 <= i < align -> byte_at m4 i = 0.
Proof.
  intros Ha EL HL H0 H1 Hv Hs. assert (0 <= L) by lia. set (m0 := replicate _ 0).
  assert (L0 : Z.of_nat (length m0) = align + 24 + 8 * L) by (subst m0; rewrite length_replicate; lia).
  assert (B0 : bytes m0) by (apply Forall_replicate; lia).
  destruct (wr64b_ok m0 align num0 B0) as (m1 & E1 & L1 & B1 & R1 & F1); [lia|lia|done|].
  destruct (wr64b_ok m1 (align + 8) num1 B1) as (m2 & E2 & L2 & B2 & R2 & F2); [lia|lia|done|].
  destruct (for_inv (fun k m => length m = length m0 /\ bytes m /\ (forall i, 0 <= i < align + 16 -> byte_at m i = byte_at m2 i) /\
      forall i, 0 <= i < k -> rd64b m (align + 16 + 8 * i) = Ok (start W n (i + 1)))
    (fun i m => wr64b m (align + 16 + 8 * i) (nth (Z.to_nat i) cache 0)) 0 L m2) as (m3 & E3 & L3 & B3 & F3 & R3).
  - done.
  - split; [congruence|]. split; [done|]. split; [done|]. intros; lia.
  - intros k m Hk (Lm & Bm & Fm & Rm). rewrite Hv by lia.
    destruct (wr64b_ok m (align + 16 + 8 * k) (start W n (k + 1)) Bm) as (m' & E & L' & B' & R' & F'); [lia|lia|apply Hs; lia|].
    exists m'. split; [done|]. split; [lia|]. split; [done|]. split; [intros i Hi; rewrite F' by lia; apply Fm; lia|].
    intros i Hi. destruct (decide (i = k)) as [->|]; [done|]. rewrite <- (Rm i) by lia. apply rd64b_frame; [done|].
    intros q Hq. apply F'; lia.
  - destruct (wr64b_ok m3 (align + 16 + 8 * L) L B3) as (m4 & E4 & L4 & B4 & R4 & F4); [lia|lia|lia|].
    exists m1, m2, m3, m4. do 4 (split; [done|]).
    assert (Low : forall i, 0 <= i < align + 16 -> byte_at m4 i = byte_at m2 i) by (intros; rewrite F4 by lia; apply F3; lia).
    split; [split; try done; try lia|].
    + rewrite <- R1. apply rd64b_frame; [lia|]. intros i Hi. rewrite Low by lia. apply F2; lia.
    + rewrite <- R2. apply rd64b_frame; [lia|]. intros i Hi. apply Low. lia.
    + intros i Hi. rewrite <- (R3 i) by lia. apply rd64b_frame; [done|]. intros q Hq. apply F4; lia.
    + intros i Hi. rewrite Low, F2, F1 by lia. apply zeros_at.
Qed.

(** ** The builder: the entries *)

Lemma select_fun f s : 0 <= s -> exists pv, forall k, 0 <= k < rank f s -> is_select f k (pv k) /\ pv k < s.
Proof.
  intros Hs. pattern s. apply natlike_ind; [| |done]; clear s Hs.
  - exists id. rewrite rank_0. lia.
  - intros s Hs (pv & H). exists (fun k => if k =? rank f s then s else pv k). unfold Z.succ. rewrite rank_succ by done.
    intros k Hk. destruct (Z.eqb_spec k (rank f s)) as [->|].
    + destruct (f s) eqn:E; [|cbn in Hk; lia]. split; [done|lia].
    + assert (0 <= k < rank f s) as Hk' by (destruct (f s); cbn in Hk; lia). destruct (H k Hk'). split; [done|lia].
Qed.

(** Tick [t] of a pass over [s] positions, up or down: the cursor before it, and
    the position it visits. *)
Definition cursor (rev : bool) (s t : Z) : Z := if rev then s - t else t.
Definition visit (rev : bool) (s t : Z) : Z := if rev then s - t - 1 else t.
Definition positions (rev : bool) (s : Z) : list Z := map (visit rev s) (seqZ 0 s).

Section builder.
Context (P : bool) (W : Z) (rev : bool) (num0 num1 L align : Z) (f : Z -> bool) (pv : Z -> Z).
Let s := num0 + num1.
Let n := if P then num1 else num0.
Let z p := if P then f p else negb (f p).
Hypothesis HW : 1 <= W <= 8.
Hypothesis Hs : 0 <= s <= 256 ^ W.
Hypothesis Hn : 0 < n.
Hypothesis Hc : rank z s = n.
Hypothesis Hpv : forall k, 0 <= k < n -> is_select z k (pv k) /\ pv k < s.
Hypothesis HL : 1 <= L.
Hypothesis Halign : start W n L <= align /\ (L = 1 -> start W n L + W <= align).

(** The entries of the pivots [lo .. hi - 1] are there, and nothing else is. *)
Definition filled (m : list Z) (lo hi : Z) : Prop :=
  tail_ok W n num0 num1 L align m /\
  (forall k, lo <= k < hi -> le_at (Z.to_nat W) m (k * W) = pv k) /\
  forall i, 0 <= i < align -> i < lo * W \/ hi * W <= i -> byte_at m i = 0.

Definition lo_ k : Z := if rev then k else 0.
Definition hi_ k : Z := if rev then n else k.

(** The builder after [t] ticks. *)
Definition at_tick (t : Z) (b : rank_select_few_builder) : Prop :=
  let k := rank z (cursor rev s t) in
  filled (b_mempool b) (lo_ k) (hi_ k) /\ b_it b = (if rev then (k - 1) * W else k * W) /\
  b_rev b = rev /\ b_num0 b = num0 /\ b_num1 b = num1 /\ b_layer b = L /\ b_offset b = align + 16.

Lemma n_fits : n * W <= align.
Proof.
  destruct Halign as [A _]. assert (start W n 1 <= start W n L).
  { replace L with (1 + (L - 1)) by lia. assert (forall d : nat, start W n 1 <= start W n (1 + Z.of_nat d)) as G.
    { induction d as [|d IH]; [done|]. replace (1 + Z.of_nat (S d)) with (1 + Z.of_nat d + 1) by lia. rewrite start_succ by lia.
      pose proof (cnt_nonneg n (1 + Z.of_nat d)). nia. }
    specialize (G (Z.to_nat (L - 1))). by rewrite Z2Nat.id in G by lia. }
  assert (start W n 1 = n * W) by (change 1 with (0 + 1); rewrite start_succ, start_0 by lia; unfold cnt_at; rewrite Z.pow_0_r, Z.div_1_r; lia).
  lia.
Qed.

Lemma filled_or m lo hi k : filled m lo hi -> 0 <= k < n -> 0 <= lo <= hi -> hi <= n -> k = hi \/ k = lo - 1 ->
  exists m', or64 m (k * W) (pv k) = Ok m' /\ filled m' (Z.min k lo) (Z.max (k + 1) hi).
Proof.
  intros (T & E & Z0) Hk Hlh Hh Hkk. pose proof n_fits. pose proof (tl_len _ _ _ _ _ _ _ T) as Tl.
  destruct (Hpv k Hk) as [(P0 & _) P1].
  destruct (or64_ok m (k * W) W (pv k) (tl_bytes _ _ _ _ _ _ _ T)) as (m' & Em & Lm & Bm & Rm & Fm); [nia|nia|lia|lia| |].
  { intros j Hj. apply Z0; nia. }
  exists m'. split; [done|]. split; [|split].
  - apply (tail_frame _ _ _ _ _ _ m); try done; [nia|lia|]. intros i Hi. apply Fm; nia.
  - intros j Hj. destruct (decide (j = k)) as [->|]; [done|]. rewrite <- (E j) by lia.
    apply le_at_frame; [exact (tl_bytes _ _ _ _ _ _ _ T)|]. intros i Hi. apply Fm; nia.
  - intros i Hi Hd. rewrite Fm by nia. apply Z0; nia.
Qed.

Lemma z_next t : 0 <= t < s -> let x := visit rev s t in 0 <= x < s /\
  rank z (cursor rev s (t + 1)) = rank z (cursor rev s t) + (if rev then -1 else 1) * Z.b2z (z x) /\
  (z x = true -> pv (if rev then rank z (cursor rev s t) - 1 else rank z (cursor rev s t)) = x).
Proof.
  intros Ht x. assert (Hx : 0 <= x < s) by (unfold x, visit; case rev; lia). split; [done|].
  assert (R : rank z (x + 1) = rank z x + Z.b2z (z x)) by (apply rank_succ; lia).
  assert (U : z x = true -> pv (rank z x) = x).
  { intros E. assert (0 <= rank z x < n).
    { pose proof (rank_bounds z x). pose proof (rank_mono z (x + 1) s). rewrite R, E in *. cbn in *. lia. }
    eapply is_select_unique; [by apply Hpv|]. split; [lia|done]. }
  unfold cursor. unfold x, visit in *. revert R U. case rev; intros R U.
  - replace (s - (t + 1)) with (s - t - 1) by lia. replace (s - t - 1 + 1) with (s - t) in R by lia. split; [lia|].
    intros E. rewrite R, E. cbn [Z.b2z]. replace (rank z (s - t - 1) + 1 - 1) with (rank z (s - t - 1)) by lia. by apply U.
  - split; [lia|]. exact U.
Qed.

Lemma tick_rank t : 0 <= t <= s -> 0 <= rank z (cursor rev s t) <= n.
Proof.
  intros Ht. assert (0 <= cursor rev s t <= s) by (unfold cursor; case rev; lia).
  pose proof (rank_bounds z (cursor rev s t)). pose proof (rank_mono z (cursor rev s t) s). lia.
Qed.

Lemma tick_skip t b : 0 <= t < s -> z (visit rev s t) = false -> at_tick t b -> at_tick (t + 1) b.
Proof.
  intros Ht E Hb. destruct (z_next t Ht) as (_ & R & _). unfold at_tick. rewrite R, E. cbn [Z.b2z].
  by rewrite Z.mul_0_r, Z.add_0_r.
Qed.

Lemma emit_ok t b : 0 <= t < s -> z (visit rev s t) = true -> at_tick t b -> exists b',
  emit W b (visit rev s t) = Ok b' /\ at_tick (t + 1) b' /\ b_last b' = b_last b.
Proof.
  intros Ht E (F & It & Hr & H0 & H1 & H2 & H3). destruct (z_next t Ht) as (Hx & R & U). specialize (U E).
  pose proof (tick_rank t ltac:(lia)) as K. pose proof (tick_rank (t + 1) ltac:(lia)) as K'. rewrite R, E in K'. cbn [Z.b2z] in K'.
  set (k := rank z (cursor rev s t)) in *. unfold emit. set (j := if rev then k - 1 else k) in *.
  assert (Ej : b_it b = j * W) by (rewrite It; unfold j; by case rev).
  destruct (filled_or (b_mempool b) (lo_ k) (hi_ k) j F) as (m' & Em & Fm).
  { revert K'. unfold j. case rev; lia. } { unfold lo_, hi_. case rev; lia. } { unfold hi_. case rev; lia. }
  { unfold j, lo_, hi_. case rev; lia. }
  rewrite Ej, <- U, Em. cbn [rbind]. eexists. split; [done|]. cbn [b_last]. split; [|done].
  unfold at_tick. rewrite R, E. cbn [b_mempool b_it b_rev b_num0 b_num1 b_layer b_offset Z.b2z]. rewrite Hr.
  fold k. split; [|split; [unfold j; case rev; lia|done]]. revert Fm K'. unfold j, lo_, hi_. case rev; intros Fm K'.
  - replace (Z.min (k - 1) k) with (k + -1 * 1) in Fm by lia. by replace (Z.max (k - 1 + 1) n) with n in Fm by lia.
  - replace (Z.min k 0) with 0 in Fm by lia. by replace (Z.max (k + 1) k) with (k + 1 * 1) in Fm by lia.
Qed.

(** *** Insertion *)

Definition dir : Z := if rev then -1 else 1.

Lemma visit_next t : visit rev s (t + 1) = visit rev s t + dir.
Proof. unfold visit, dir. case rev; lia. Qed.

(** The builder after [t] positions have been passed: with [P] the pivots among
    them are stored, otherwise those up to the last inserted one. *)
Definition passed (t : Z) (b : rank_select_few_builder) : Prop :=
  if P then at_tick t b else exists l, 0 <= l <= t /\ at_tick l b /\ b_last b = visit rev s l /\
    forall j, l <= j < t -> z (visit rev s j) = true.

Lemma emit_last l b : 0 <= l < s -> z (visit rev s l) = true -> at_tick l b -> b_last b = visit rev s l ->
  exists b', (let* b' := emit W b (b_last b) in Ok (inl (with_last b' (b_last b + dir))) : res (rank_select_few_builder + rank_select_few_builder)) = Ok (inl b') /\
    at_tick (l + 1) b' /\ b_last b' = visit rev s (l + 1).
Proof.
  intros Hl E Hb Hlast. rewrite Hlast. destruct (emit_ok l b Hl E Hb) as (b' & -> & Hb' & _). cbn [rbind].
  eexists. split; [done|]. split; [exact Hb'|]. cbn [with_last b_last]. by rewrite visit_next.
Qed.

Lemma insert_ok t b : 0 <= t < s -> f (visit rev s t) = true -> passed t b ->
  exists b', insert P W b (visit rev s t) = Ok b' /\ passed (t + 1) b'.
Proof.
  intros Ht E Hb. unfold insert. destruct (z_next t Ht) as (Hx & _). unfold passed in *. revert Hb.
  rewrite mask_eq by done. rewrite (proj2 (Z.leb_le _ _)) by lia. cbn [assert_ rbind].
  assert (Ez : z (visit rev s t) = P) by (unfold z; rewrite E; by case P). revert Ez. case P; intros Ez Hb.
  { destruct (emit_ok t b Ht Ez Hb) as (b' & -> & Hb' & _). eauto. }
  destruct Hb as (l & Hl & Hb & Hlast & Hz). assert (Er : b_rev b = rev) by apply Hb. rewrite Er. fold dir.
  assert ((if rev then visit rev s t <=? b_last b else b_last b <=? visit rev s t) = true) as ->.
  { rewrite Hlast. unfold visit. case rev; apply Z.leb_le; lia. }
  cbn [assert_ rbind].
  match goal with |- context [loop ?fuel ?body ?s0] =>
    destruct (loop_inv (fun b => exists l, 0 <= l <= t /\ at_tick l b /\ b_last b = visit rev s l /\ forall j, l <= j < t -> z (visit rev s j) = true)
      (fun b => dir * (visit rev s t - b_last b)) (fun b => at_tick t b /\ b_last b = visit rev s t) body fuel s0) as (b' & -> & Hb' & Hl') end.
  - exists l. done.
  - lia.
  - clear b Hb Hlast Hz Er. intros b (j & Hj & Hb & Hlast & Hz). rewrite Hlast. split; [unfold dir, visit; case rev; lia|].
    destruct (Z.eqb_spec (visit rev s j) (visit rev s t)) as [Ev|Ev]; cbn [negb].
    + right. eexists. split; [done|]. assert (j = t) as -> by (revert Ev; unfold visit; case rev; lia). done.
    + left. assert (j <> t) by congruence. rewrite <- Hlast.
      destruct (emit_last j b) as (b' & -> & Hb' & Hl'); [lia|apply Hz; lia|done|done|]. eexists. split; [done|].
      split; [exists (j + 1); split; [lia|]; split; [done|]; split; [done|]; intros; apply Hz; lia|].
      rewrite Hl', Hlast, visit_next. unfold dir. case rev; lia.
  - cbn [rbind]. eexists. split; [done|]. exists (t + 1). split; [lia|]. split; [|split; [cbn [with_last b_last]; by rewrite Hl', visit_next|intros; lia]].
    exact (tick_skip t b' Ht Ez Hb').
Qed.

Lemma pass_ok t b : 0 <= t < s -> f (visit rev s t) = false -> passed t b -> passed (t + 1) b.
Proof.
  intros Ht E. assert (Ez : z (visit rev s t) = negb P) by (unfold z; rewrite E; by case P). revert Ez. unfold passed.
  case P; intros Ez Hb; [by apply tick_skip|]. destruct Hb as (l & Hl & Hb & Hlast & Hz). exists l. split; [lia|].
  split; [done|]. split; [done|]. intros j Hj. destruct (decide (j = t)) as [->|]; [done|apply Hz; lia].
Qed.

Lemma inserts_ok b : passed 0 b ->
  exists b', fold_left (fun b pos => let* b := b in insert P W b pos) (List.filter f (positions rev s)) (Ok b) = Ok b' /\ passed s b'.
Proof.
  intros Hb. unfold positions.
  assert (G : forall (u : nat) t b, 0 <= t -> t + Z.of_nat u = s -> passed t b -> exists b',
    fold_left (fun b pos => let* b := b in insert P W b pos) (List.filter f (map (visit rev s) (seqZ t (Z.of_nat u)))) (Ok b) = Ok b' /\ passed s b').
  { clear b Hb. induction u as [|u IH]; intros t b Ht Hu Hb; [exists b; split; [done|]; by replace s with t by lia|].
    rewrite seqZ_cons by lia. cbn [map]. replace (Z.pred (Z.of_nat (S u))) with (Z.of_nat u) by lia. unfold Z.succ.
    cbn [List.filter]. destruct (f (visit rev s t)) eqn:E.
    - cbn [fold_left rbind]. destruct (insert_ok t b) as (b' & -> & Hb'); [lia|done|done|]. apply IH; [lia|lia|done].
    - apply IH; [lia|lia|]. apply pass_ok; [lia|done|done]. }
  destruct (G (Z.to_nat s) 0 b) as (b' & E & Hb'); [lia|lia|done|]. rewrite Z2Nat.id in E by lia. eauto.
Qed.

(** *** The rest of the pivots, and the layers above *)

Lemma full_tick b : at_tick s b -> filled (b_mempool b) 0 n.
Proof.
  intros (F & _). revert F. unfold cursor, lo_, hi_. case rev; [|by rewrite Hc]. by rewrite Z.sub_diag, rank_0.
Qed.

Lemma start_1 : start W n 1 = n * W.
Proof. change 1 with (0 + 1). rewrite start_succ, start_0 by lia. unfold cnt_at. rewrite Z.pow_0_r, Z.div_1_r. lia. Qed.

Definition finish_fill (b : rank_select_few_builder) : res rank_select_few_builder :=
  if P then Ok b else
  let* e := rd64b (b_mempool b) (b_offset b) in
  let more b := if b_rev b then 0 <=? b_it b else b_it b <? e in
  let d := if b_rev b then -1 else 1 in
  loop (S (Z.to_nat e)) (fun b =>
    if more b then let* b' := emit W b (b_last b) in Ok (inl (with_last b' (b_last b + d)))
    else Ok (inr b)) b.

Lemma few_fill_ok b : passed s b -> exists b', finish_fill b = Ok b' /\ at_tick s b'.
Proof.
  unfold passed, finish_fill. case P; [eauto|]. intros Hb.
  assert (rd64b (b_mempool b) (b_offset b) = Ok (n * W)) as ->.
  { destruct Hb as (l & _ & (F & _ & _ & _ & _ & _ & ->) & _). rewrite <- start_1.
    pose proof (tl_off _ _ _ _ _ _ _ (proj1 F) 0 ltac:(lia)) as T. by rewrite Z.mul_0_r, Z.add_0_r in T. }
  cbn [rbind]. assert (b_rev b = rev) as -> by (destruct Hb as (l & _ & (_ & _ & -> & _) & _); done). fold dir. cbn zeta.
  apply (loop_inv (fun b => exists l, 0 <= l <= s /\ at_tick l b /\ b_last b = visit rev s l /\ forall j, l <= j < s -> z (visit rev s j) = true)
    (fun b => if rev then b_it b + W else n * W - b_it b)).
  - done.
  - destruct Hb as (l & Hl & (_ & -> & _) & _). pose proof (tick_rank l Hl) as K. set (k := rank z (cursor rev s l)) in *. clearbody k. case rev; nia.
  - clear b Hb. intros b (l & Hl & Hb & Hlast & Hz). pose proof Hb as (_ & It & Er & _). rewrite Er.
    pose proof (tick_rank l Hl) as K. split; [rewrite It; clear - K HW; set (k := rank z (cursor rev s l)) in *; clearbody k; case rev; nia|].
    destruct (decide (l = s)) as [->|].
    + right. exists b. split; [|done]. rewrite It. unfold cursor in *. revert K. case rev; intros K.
      * rewrite Z.sub_diag, rank_0. destruct (Z.leb_spec 0 ((0 - 1) * W)); [lia|done].
      * rewrite Hc, Z.ltb_irrefl. done.
    + left. assert (Ez : z (visit rev s l) = true) by (apply Hz; lia).
      assert ((if rev then 0 <=? b_it b else b_it b <? n * W) = true) as ->.
      { rewrite It. destruct (z_next l ltac:(lia)) as (_ & R & _). pose proof (tick_rank (l + 1) ltac:(lia)) as K'.
        rewrite R, Ez in K'. cbn [Z.b2z] in K'. revert K K'. case rev; intros; [apply Z.leb_le|apply Z.ltb_lt]; nia. }
      destruct (emit_last l b) as (b' & -> & Hb' & Hl'); [lia|done|done|done|]. eexists. split; [done|].
      split; [exists (l + 1); split; [lia|]; split; [done|]; split; [done|]; intros; apply Hz; lia|].
      destruct Hb' as (_ & -> & _). rewrite It. destruct (z_next l ltac:(lia)) as (_ & -> & _). rewrite Ez. cbn [Z.b2z]. case rev; nia.
Qed.

Lemma start_mono i j : 0 <= i <= j -> start W n i <= start W n j.
Proof.
  intros Hij. replace j with (i + (j - i)) by lia. assert (forall d : nat, start W n i <= start W n (i + Z.of_nat d)) as G.
  { induction d as [|d IH]; [by rewrite Z.add_0_r|]. replace (i + Z.of_nat (S d)) with (i + Z.of_nat d + 1) by lia. rewrite start_succ by lia.
    pose proof (cnt_nonneg n (i + Z.of_nat d)). nia. }
  specialize (G (Z.to_nat (j - i))). by rewrite Z2Nat.id in G by lia.
Qed.

(** Layers [0 .. i - 1] are complete, layer [i] has its first [c] entries. *)
Definition layered (m : list Z) (i c : Z) : Prop :=
  tail_ok W n num0 num1 L align m /\
  forall j k, 0 <= j <= i -> 0 <= k < (if j =? i then c else cnt_at n j) ->
    le_at (Z.to_nat W) m (start W n j + k * W) = pv (k * 256 ^ j).

Lemma copy_ok m i c : 0 <= i -> i + 1 < L -> 0 <= c < cnt_at n (i + 1) -> layered m (i + 1) c -> exists m',
  memcpy m (start W n (i + 1) + c * W) (start W n i + c * 256 * W) W = Ok m' /\ layered m' (i + 1) (c + 1).
Proof.
  intros Hi HiL Hk (T & E). pose proof (tl_len _ _ _ _ _ _ _ T) as Tl. pose proof (tl_bytes _ _ _ _ _ _ _ T) as Tb.
  pose proof (start_mono (i + 2) L ltac:(lia)). pose proof (start_nonneg W n i ltac:(lia) ltac:(lia)).
  pose proof (start_nonneg W n (i + 1) ltac:(lia) ltac:(lia)).
  pose proof (start_succ W n i Hi) as S1. pose proof (start_succ W n (i + 1) ltac:(lia)) as S2. replace (i + 1 + 1) with (i + 2) in S2 by lia.
  assert (Hc256 : 256 * c < cnt_at n i) by (rewrite cnt_next in Hk by lia; pose proof (Z.mul_div_le (cnt_at n i) 256); lia).
  destruct (memcpy_ok m (start W n (i + 1) + c * W) (start W n i + c * 256 * W) W Tb) as (m' & Em & Lm & Bm & Rm & Fm); [nia|nia|nia|nia|lia|].
  exists m'. split; [done|]. split.
  - apply (tail_frame _ _ _ _ _ _ m); try done; [pose proof n_fits; nia|lia|]. intros q Hq. apply Fm; [pose proof n_fits; nia|nia].
  - intros j k Hj Hjk. destruct (decide (j = i + 1 /\ k = c)) as [[-> ->]|Hne].
    + rewrite Rm, (E i (c * 256)); [|lia|rewrite (proj2 (Z.eqb_neq _ _)) by lia; lia]. f_equal. rewrite Z.pow_add_r by lia. lia.
    + assert (Hold : 0 <= k < (if j =? i + 1 then c else cnt_at n j)) by (destruct (Z.eqb_spec j (i + 1)); lia).
      rewrite <- (E j k Hj Hold). apply le_at_frame; [done|]. rewrite Z2Nat.id by lia.
      pose proof (start_nonneg W n j ltac:(lia) ltac:(lia)).
      assert (start W n j + k * W + W <= start W n (i + 1) + c * W).
      { destruct (Z.eqb_spec j (i + 1)) as [->|]; [nia|]. pose proof (start_mono (j + 1) (i + 1) ltac:(lia)).
        pose proof (start_succ W n j ltac:(lia)). nia. }
      intros q Hq. apply Fm; [nia|lia].
Qed.

Lemma sample_layer_ok m i : 0 <= i -> i + 1 < L -> layered m (i + 1) 0 -> exists m',
  sample_layer W m (start W n (i + 1)) (start W n i) (start W n (i + 2)) = Ok m' /\ layered m' (i + 2) 0.
Proof.
  intros Hi HiL Hm. unfold sample_layer. pose proof (cnt_nonneg n (i + 1) ltac:(lia) ltac:(lia)).
  pose proof (start_succ W n (i + 1) ltac:(lia)) as S2. replace (i + 1 + 1) with (i + 2) in S2 by lia.
  apply (loop_inv (fun '(m, dst, src) => exists c, 0 <= c <= cnt_at n (i + 1) /\ dst = start W n (i + 1) + c * W /\
      src = start W n i + c * 256 * W /\ layered m (i + 1) c) (fun '(_, dst, _) => start W n (i + 2) - dst)).
  - exists 0. split; [lia|]. split; [lia|]. split; [lia|done].
  - lia.
  - clear m Hm. intros [[m dst] src] (c & Hc' & -> & -> & Hm). split; [nia|].
    destruct (Z.ltb_spec (start W n (i + 1) + c * W) (start W n (i + 2))) as [Lt|Ge].
    + left. assert (c < cnt_at n (i + 1)) by nia. destruct (copy_ok m i c) as (m' & -> & Hm'); [lia|lia|lia|done|]. cbn [rbind].
      eexists. split; [done|]. cbn beta iota. split; [|lia]. exists (c + 1). split; [lia|]. split; [lia|]. split; [lia|done].
    + right. exists m. split; [done|]. assert (c = cnt_at n (i + 1)) as -> by nia. destruct Hm as [T E]. split; [done|].
      intros j k Hj Hk. destruct (Z.eqb_spec j (i + 2)); [lia|]. apply E; [lia|]. by destruct (Z.eqb_spec j (i + 1)) as [->|].
Qed.

Lemma layers_ok m : filled m 0 n -> exists m' src, for_ 0 (L - 1) (fun i '(m, src) =>
    let* dst := rd64b m (align + 16 + 8 * i) in
    let* e := rd64b m (align + 16 + 8 * (i + 1)) in
    let* m := sample_layer W m dst src e in Ok (m, dst)) (m, 0) = Ok (m', src) /\ layered m' L 0 /\ (L = 1 -> m' = m).
Proof.
  intros (T & E & _).
  destruct (for_inv (fun i '(m', src) => src = start W n i /\ layered m' (i + 1) 0 /\ (i = 0 -> m' = m)) (fun i '(m, src) =>
    let* dst := rd64b m (align + 16 + 8 * i) in
    let* e := rd64b m (align + 16 + 8 * (i + 1)) in
    let* m := sample_layer W m dst src e in Ok (m, dst)) 0 (L - 1) (m, 0)) as ([m' src] & -> & -> & Hm' & Heq); [lia| | |].
  - split; [by rewrite start_0|]. split; [|done]. split; [done|]. intros j k Hj Hk.
    assert (j = 0) as -> by (destruct (Z.eqb_spec j (0 + 1)); lia). cbn in Hk. unfold cnt_at in Hk. rewrite Z.pow_0_r, Z.div_1_r in Hk.
    rewrite start_0, Z.pow_0_r, Z.mul_1_r. by apply E.
  - intros i [m' src] Hi (-> & Hm' & _). pose proof (tl_off _ _ _ _ _ _ _ (proj1 Hm')) as O. rewrite !O by lia. cbn [rbind].
    replace (i + 1 + 1) with (i + 2) by lia. destruct (sample_layer_ok m' i) as (m2 & -> & Hm2); [lia|lia|done|]. cbn [rbind].
    eexists. split; [done|]. replace (i + 1 + 1) with (i + 2) by lia. split; [done|]. split; [done|lia].
  - do 2 eexists. split; [done|]. replace L with (L - 1 + 1) by lia. split; [done|]. intros. apply Heq. lia.
Qed.

Lemma pv_mono i j : 0 <= i < j -> j < n -> pv i < pv j.
Proof.
  intros Hi Hj. destruct (Hpv i ltac:(lia)) as [(A0 & A1 & A2) _]. destruct (Hpv j ltac:(lia)) as [(B0 & B1 & B2) _].
  destruct (Z.lt_ge_cases (pv i) (pv j)); [done|]. pose proof (rank_mono z (pv j) (pv i)). lia.
Qed.

Lemma layered_layout m : layered m L 0 -> (L = 1 -> filled m 0 n) -> L <= 8 -> 0 < cnt_at n (L - 1) -> 0 <= num0 -> 0 <= num1 -> s < 2 ^ 64 ->
  layout P W (Few num0 num1 L (align + 16) m) pv.
Proof.
  intros (T & E) Hpad HL8 Htop H0 H1 H64. pose proof (tl_len _ _ _ _ _ _ _ T) as Tl. pose proof (tl_bytes _ _ _ _ _ _ _ T) as Tb.
  set (r := Few _ _ _ _ _). assert (En : pivots P r = n) by done. assert (Es : size r = s) by done.
  pose proof n_fits as NF. assert (V : forall i k, 0 <= i < L -> 0 <= k < cnt_at n i -> val_of_ptr W m (start W n i + k * W) = Ok (pv (k * 256 ^ i))).
  { intros i k Hi Hk. pose proof (start_mono (i + 1) L ltac:(lia)). pose proof (start_succ W n i ltac:(lia)).
    pose proof (start_nonneg W n i ltac:(lia) ltac:(lia)). rewrite val_of_ptr_le by (done || nia). f_equal. apply E; [lia|].
    by rewrite (proj2 (Z.eqb_neq _ _)) by lia. }
  pose proof (Hpv 0 ltac:(lia)) as [(Hp0 & _) _].
  split; rewrite ?En, ?Es; cbn [m_layer r]; try done; try lia.
  - exact (tl_off _ _ _ _ _ _ _ T).
  - destruct (decide (L = 1)) as [->|HL1].
    + exists 0. split; [|done]. unfold val_a_logi. cbn [m_mempool r]. rewrite val_of_ptr_le by (done || nia). f_equal.
      destruct (Hpad eq_refl) as (_ & _ & Z0). destruct Halign as [_ A]. specialize (A eq_refl). rewrite start_1 in A.
      apply le_at_bytes_of; [split; [lia|apply Z.pow_pos_nonneg; lia]|]. rewrite Z2Nat.id by lia. intros k Hk. rewrite Z0 by lia.
      unfold byte_of. by rewrite Z.div_0_l by (apply Z.pow_nonzero; lia).
    + exists (pv 0). split; [|lia]. unfold val_a_logi. cbn [m_mempool r]. rewrite <- start_1.
      replace (start W n 1) with (start W n 1 + 0 * W) by lia. rewrite V; [done|lia|].
      pose proof (cnt_anti n 1 (L - 1)). lia.
  - intros i j. apply pv_mono.
  - intros i Hi. destruct (Hpv i Hi) as [(? & _) ?]. lia.
  - unfold complements. cbn. by case P.
Qed.

Lemma few_finish_ok b : passed s b -> L <= 8 -> 0 < cnt_at n (L - 1) -> 0 <= num0 -> 0 <= num1 -> s < 2 ^ 64 -> exists r,
  finish P W b = Ok r /\ layout P W r pv /\ tail_ok W n num0 num1 L align (m_mempool r) /\ r = Few num0 num1 L (align + 16) (m_mempool r).
Proof.
  intros Hb HL8 Htop H0 H1 H64. destruct (few_fill_ok b Hb) as (b' & E & Hb'). pose proof (full_tick b' Hb') as F.
  destruct (layers_ok _ F) as (m & src & El & Hm & Heq). unfold finish. fold (finish_fill b). rewrite E. cbn [rbind].
  destruct Hb' as (_ & _ & _ & -> & -> & -> & ->). rewrite (proj2 (Z.ltb_lt _ _)) by lia. cbn [assert_ rbind]. rewrite El. cbn [rbind].
  eexists. split; [done|]. cbn [m_mempool]. split; [|split; [apply Hm|done]].
  apply layered_layout; try done. intros E1. by rewrite (Heq E1).
Qed.
End builder.

(** ** From the positions to the structure *)

Lemma rs_laws_ext {T} `{RankSelect T} (t : T) f g : rs_laws t f -> (forall p, 0 <= p < rs_size t -> f p = g p) -> rs_laws t g.
Proof.
  intros [A B C D E F G I] X.
  assert (R : forall p, 0 <= p <= rs_size t -> rank f p = rank g p) by (intros; apply rank_ext; intros; apply X; lia).
  split; try done.
  - intros p Hp. rewrite <- X by done. by apply B.
  - intros p Hp. rewrite <- R by done. by apply C.
  - intros p Hp. rewrite <- R by done. by apply D.
  - rewrite <- R by lia. done.
  - rewrite <- R by lia. done.
  - intros k Hk. destruct (G k Hk) as (p & ? & (? & ? & ?) & ?). exists p. split; [done|]. split; [|done].
    split; [done|]. rewrite <- X, <- R by lia. done.
  - intros k Hk. destruct (I k Hk) as (p & ? & (? & Ef & <-) & ?). exists p. split; [done|]. split; [|done].
    split; [done|]. rewrite <- X by lia. split; [done|]. apply rank_ext. intros. by rewrite X by lia.
Qed.

(** The pivots of [f]. *)
Definition pivot_bit (P : bool) (f : Z -> bool) (p : Z) : bool := if P then f p else negb (f p).

Lemma mem_pivot P W r pv f : layout P W r pv ->
  (forall k, 0 <= k < pivots P r -> is_select (pivot_bit P f) k (pv k) /\ pv k < size r) ->
  rank (pivot_bit P f) (size r) = pivots P r ->
  forall p, 0 <= p < size r -> bitf P r pv p = f p.
Proof.
  intros H Hpv Hc p Hp. assert (mem P r pv p = pivot_bit P f p) as E.
  { apply eq_true_iff_eq. rewrite mem_spec. split; [intros (k & Hk & <-); by destruct (Hpv k Hk) as [(_ & ? & _) _]|].
    intros Ep. pose proof (rank_bounds (pivot_bit P f) p ltac:(lia)). pose proof (rank_mono (pivot_bit P f) (p + 1) (size r) ltac:(lia)) as M.
    rewrite rank_succ, Ep in M by lia. cbn in M. exists (rank (pivot_bit P f) p). split; [lia|].
    eapply is_select_unique; [apply Hpv; lia|]. split; [lia|done]. }
  unfold bitf. rewrite E. unfold pivot_bit. destruct P; [done|]. by rewrite negb_involutive.
Qed.

Lemma last_nth (l : list Z) : 0 < Z.of_nat (length l) -> List.last l 0 = nth (Z.to_nat (Z.of_nat (length l) - 1)) l 0.
Proof.
  intros Hl. destruct (@exists_last _ l) as (l' & x & ->); [by intros ->|]. rewrite last_last, length_app. cbn [length].
  replace (Z.to_nat (Z.of_nat (length l' + 1) - 1)) with (length l') by lia. by rewrite nth_middle.
Qed.

Lemma start_mul W n i b : 0 <= n -> 1 <= W <= 8 -> 0 <= i <= b -> start W n i <= 8 * (b * n).
Proof.
  intros Hn HW Hi. unfold start. assert (G : forall k : nat, 0 <= sums n k <= Z.of_nat k * n).
  { induction k as [|k IH]; [cbn; lia|]. cbn [sums]. pose proof (cnt_nonneg n (Z.of_nat k)). pose proof (cnt_anti n 0 (Z.of_nat k)) as A.
    unfold cnt_at in *. rewrite Z.pow_0_r, Z.div_1_r in A. lia. }
  specialize (G (Z.to_nat i)). rewrite Z2Nat.id in G by lia. nia.
Qed.

Lemma new_builder_ok (P : bool) W rev num0 num1 f (pv : Z -> Z) : let n := if P then num1 else num0 in
  1 <= W <= 8 -> 0 <= num0 -> 0 <= num1 -> num0 + num1 < 2 ^ 56 -> 0 < n ->
  rank (pivot_bit P f) (num0 + num1) = n ->
  exists b L align, new_builder P W num0 num1 rev = Ok b /\ passed P W rev num0 num1 L align f pv 0 b /\
    1 <= L <= 7 /\ 0 < cnt_at n (L - 1) /\ start W n L <= align /\ (L = 1 -> start W n L + W <= align).
Proof.
  intros n HW H0 H1 H64 Hn Hc. unfold new_builder. fold n.
  assert (Hnum : num0 <= num0 + num1 /\ num1 <= num0 + num1 /\ n <= num0 + num1) by (unfold n; destruct P; lia).
  destruct (layer_ends_ok W n) as (cache & -> & HL & Htop & Hv); [lia|]. cbn [rbind].
  remember (Z.of_nat (length cache)) as L eqn:EL. rewrite (proj2 (Z.leb_le _ _)) by lia. cbn [assert_ rbind].
  assert ((match cache with [] => UB | sz :: _ => Ok sz end) = Ok (n * W)) as ->.
  { destruct cache as [|x c]; [cbn in EL; lia|]. pose proof (Hv 0 ltac:(lia)) as E. change (nth (Z.to_nat 0) (x :: c) 0) with x in E. rewrite E. f_equal.
    change 1 with (0 + 1). rewrite start_succ, start_0 by lia. unfold cnt_at. rewrite Z.pow_0_r, Z.div_1_r. lia. }
  cbn [rbind]. rewrite last_nth, <- EL, Hv by lia. replace (L - 1 + 1) with L by lia.
  set (sz := if L <=? 1 then start W n L + W else start W n L). set (align := (sz + 7) / 8 * 8).
  assert (Hal : sz <= align) by (unfold align; pose proof (Z.div_mod (sz + 7) 8); pose proof (Z.mod_pos_bound (sz + 7) 8); lia).
  assert (Hsz : start W n L <= sz /\ (L = 1 -> start W n L + W <= sz)) by (unfold sz; destruct (Z.leb_spec L 1); lia).
  pose proof (start_nonneg W n L ltac:(lia) ltac:(lia)).
  assert (Hst : forall i, 0 <= i < L -> 0 <= start W n (i + 1) < 2 ^ 64).
  { intros i Hi. split; [apply start_nonneg; lia|]. pose proof (start_mul W n (i + 1) 8). lia. }
  destruct (new_memory_ok W n num0 num1 cache align L) as (m1 & m2 & m3 & m4 & -> & E2 & E3 & E4 & T & Z0);
    [lia|done|lia|lia|lia|done|done|].
  cbn [rbind]. rewrite E2. cbn [rbind]. rewrite E3. cbn [rbind]. rewrite E4. cbn [rbind].
  eexists. exists L, align. split; [done|]. split; [|split; [|split; [done|]; split; [lia|]; intros; lia]].
  2: { split; [lia|]. destruct (decide (L <= 7)); [done|]. assert (L = 8) as E8 by lia. rewrite E8 in Htop. unfold cnt_at in Htop.
       rewrite Z.div_small in Htop by lia. lia. }
  assert (Z1 : forall k, filled P W num0 num1 L align pv m4 k k) by (intros k; split; [done|]; split; [intros; lia|]; intros; by apply Z0).
  assert (At : at_tick P W rev num0 num1 L align f pv 0 (Builder rev (if P then 0 else if rev then num0 + num1 - 1 else 0)
    (if rev then n * W - W else 0) num0 num1 L (align + 16) m4)).
  { unfold at_tick, cursor, lo_, hi_. cbn [b_mempool b_it b_rev b_num0 b_num1 b_layer b_offset].
    change (fun p => if P then f p else negb (f p)) with (pivot_bit P f).
    destruct rev; rewrite ?Z.sub_0_r, ?rank_0, ?Hc; (split; [apply Z1|]); (split; [lia|done]). }
  unfold passed. destruct P; [exact At|]. exists 0. split; [lia|]. split; [exact At|]. split; [|intros; lia].
  cbn [b_last]. unfold visit. destruct rev; lia.
Qed.

Lemma build_layout (P : bool) W rev num0 num1 f : let n := if P then num1 else num0 in
  1 <= W <= 8 -> 0 <= num0 -> 0 <= num1 -> num0 + num1 < 2 ^ 56 -> num0 + num1 <= 256 ^ W -> 0 < n ->
  rank f (num0 + num1) = num1 ->
  exists r L align pv, build P W num0 num1 rev (List.filter f (positions rev (num0 + num1))) = Ok r /\ layout P W r pv /\
    r = Few num0 num1 L (align + 16) (m_mempool r) /\ tail_ok W n num0 num1 L align (m_mempool r) /\ 1 <= L <= 7 /\ 0 <= align /\
    forall p, 0 <= p < num0 + num1 -> bitf P r pv p = f p.
Proof.
  intros n HW H0 H1 H56 Hs Hn Hf.
  assert (Hc : rank (pivot_bit P f) (num0 + num1) = n) by (unfold pivot_bit, n; destruct P; [done|rewrite rank_negb by lia; lia]).
  destruct (select_fun (pivot_bit P f) (num0 + num1) ltac:(lia)) as (pv & Hpv). rewrite Hc in Hpv.
  destruct (new_builder_ok P W rev num0 num1 f pv HW H0 H1 H56 Hn Hc) as (b & L & align & E & Hb & HL & Htop & A).
  unfold build. rewrite E. cbn [rbind].
  edestruct (inserts_ok P W rev num0 num1 L align f pv) as (b' & E' & Hb'); [exact HW|lia|exact Hn|exact Hc|exact Hpv|lia|exact A|exact Hb|].
  rewrite E'. cbn [rbind].
  edestruct (few_finish_ok P W rev num0 num1 L align f pv) as (r & Er & Lay & T & Eq); [exact HW|lia|exact Hn|exact Hc|exact Hpv|lia|exact A|exact Hb'|lia|exact Htop|lia|lia|lia|].
  exists r, L, align, pv. split; [exact Er|]. split; [done|]. split; [done|]. split; [done|]. split; [done|].
  pose proof (start_nonneg W n L ltac:(lia) ltac:(lia)). split; [destruct A as [A _]; fold n in A; lia|].
  assert (En : pivots P r = n /\ size r = num0 + num1) by (rewrite Eq; done). destruct En as [En Es].
  rewrite <- Es. apply (mem_pivot P W); [done|rewrite En, Es; exact Hpv|rewrite En, Es; exact Hc].
Qed.

(** What a caller of the builder respects. *)
Record fits (P : bool) (W num0 num1 : Z) (f : Z -> bool) : Prop := {
  fit_W : 1 <= W <= 8;
  fit_num0 : 0 <= num0;
  fit_num1 : 0 <= num1;
  fit_size : num0 + num1 < 2 ^ 56 /\ num0 + num1 <= 256 ^ W;
  fit_pivots : 0 < (if P then num1 else num0);
  fit_ones : rank f (num0 + num1) = num1 }.

Definition build_from (P : bool) W rev num0 num1 (f : Z -> bool) : res rank_select_few :=
  build P W num0 num1 rev (List.filter f (positions rev (num0 + num1))).

Lemma built_layout P W rev num0 num1 f : fits P W num0 num1 f ->
  exists r L align pv, build_from P W rev num0 num1 f = Ok r /\ layout P W r pv /\
    r = Few num0 num1 L (align + 16) (m_mempool r) /\
    tail_ok W (if P then num1 else num0) num0 num1 L align (m_mempool r) /\ 1 <= L <= 7 /\ 0 <= align /\
    forall p, 0 <= p < size r -> bitf P r pv p = f p.
Proof.
  intros [HW H0 H1 [H56 Hs] Hn Hf].
  destruct (build_layout P W rev num0 num1 f HW H0 H1 H56 Hs Hn Hf) as (r & L & align & pv & E & Lay & Eq & T & HL & Ha & B).
  exists r, L, align, pv. do 6 (split; [done|]).
  assert (size r = num0 + num1) as -> by (by rewrite Eq). exact B.
Qed.

(** The layout of a structure that was built. *)
Lemma built_inv P W rev num0 num1 f r : fits P W num0 num1 f -> build_from P W rev num0 num1 f = Ok r ->
  exists pv, layout P W r pv /\ 0 <= size r /\ forall p, 0 <= p < size r -> bitf P r pv p = f p.
Proof.
  intros H E. destruct (built_layout P W rev num0 num1 f H) as (r' & L & align & pv & E' & Lay & Eq & _ & _ & _ & B).
  rewrite E in E'. injection E' as <-. exists pv. split; [done|]. split; [|done].
  assert (size r = num0 + num1) as -> by (by rewrite Eq). destruct H; lia.
Qed.

(** Runs of pivots and of the others are runs of ones and zeros. *)
Lemma mem_bitf P r pv f : (forall p, 0 <= p < size r -> bitf P r pv p = f p) ->
  forall p, 0 <= p < size r -> f p = if P then mem P r pv p else negb (mem P r pv p).
Proof. intros B p Hp. rewrite <- B by done. done. Qed.

Lemma flip_run P r pv f v s n : (forall p, 0 <= p < size r -> bitf P r pv p = f p) -> 0 <= s < size r ->
  is_run (mem P r pv) (Bool.eqb v P) s (size r) n -> is_run f v s (size r) n.
Proof.
  intros B Hs (A1 & A2 & A3 & A4). pose proof (mem_bitf P r pv f B) as M. split; [done|]. split; [done|]. split.
  - intros i Hi. rewrite M, A3 by lia. by destruct P, v.
  - intros Hlt. rewrite M, A4 by lia. by destruct P, v.
Qed.

Lemma flip_revrun P r pv f v e n : (forall p, 0 <= p < size r -> bitf P r pv p = f p) -> e <= size r ->
  is_revrun (mem P r pv) (Bool.eqb v P) e n -> is_revrun f v e n.
Proof.
  intros B He (A1 & A2 & A3). pose proof (mem_bitf P r pv f B) as M. split; [done|]. split.
  - intros i Hi. rewrite M, A2 by lia. by destruct P, v.
  - intros Hlt. rewrite M, A3 by lia. by destruct P, v.
Qed.

Lemma run_len_ok P W r pv f v pos : layout P W r pv -> (forall p, 0 <= p < size r -> bitf P r pv p = f p) -> 0 <= pos < size r ->
  exists n, run_len P W v r pos = Ok n /\ is_run f v pos (size r) n.
Proof.
  intros H B Hp. unfold run_len. destruct (lower_bound_ok P W r pv H pos) as (x & -> & Hx). cbn [rbind].
  pose proof (flip_run P r pv f v pos) as F. destruct (Bool.eqb v P).
  - destruct (pivot_len_ok P W r pv H pos x Hp Hx) as (c & j & -> & R). exists c. split; [done|]. by apply F.
  - destruct (gap_len_ok P W r pv H pos x Hp Hx) as (c & -> & R). exists c. split; [done|]. by apply F.
Qed.

Lemma run_revlen_ok P W r pv f v pos : layout P W r pv -> (forall p, 0 <= p < size r -> bitf P r pv p = f p) -> 0 <= pos <= size r ->
  exists n, run_revlen P W v r pos = Ok n /\ is_revrun f v pos n.
Proof.
  intros H B Hp. unfold run_revlen. destruct (Z.eqb_spec pos 0) as [->|].
  { exists 0. split; [done|]. split; [lia|]. split; intros; lia. }
  pose proof (flip_revrun P r pv f v pos) as F. destruct (Bool.eqb v P).
  - destruct (lower_bound_ok P W r pv H (pos - 1)) as (x & -> & Hx). cbn [rbind].
    destruct (pivot_revlen_ok P W r pv H pos x ltac:(lia) Hx) as (c & j & -> & R). exists c. split; [done|]. apply F; [done|lia|done].
  - destruct (lower_bound_ok P W r pv H pos) as (x & -> & Hx). cbn [rbind].
    destruct (gap_revlen_ok P W r pv H pos x ltac:(lia) Hx) as (c & -> & R). exists c. split; [done|]. apply F; [done|lia|done].
Qed.

(** ** The properties *)

(** C25: the builder accepts the positions of the ones in its direction, ascending
    or descending, and the structure it makes, with either bit as the pivot and
    any entry width that holds the positions ([fits]: at least one pivot, since
    without one the builder has no layer and reads [cache[0]] uninitialised, and
    fewer than 2^56 bits, for which one to seven layers are enough), answers [size], [is1], [rank0],
    [rank1], [select0], [select1] and the totals as the bits do. *)
Theorem few_build_correct P W rev num0 num1 f : fits P W num0 num1 f ->
  exists r, build_from P W rev num0 num1 f = Ok r /\ size r = num0 + num1 /\ @rs_laws _ (few_rs P W) r f.
Proof.
  intros H. destruct (built_layout P W rev num0 num1 f H) as (r & L & align & pv & E & Lay & Eq & _ & _ & _ & B).
  exists r. split; [done|]. split; [by rewrite Eq|]. exact (rs_laws_ext r _ f (few_laws P W r pv Lay) B).
Qed.

(** the memory of a built structure can be mapped again: all fields are read
    back from the tail of the block. *)
Theorem few_mmap_roundtrip P W rev num0 num1 f r : fits P W num0 num1 f -> build_from P W rev num0 num1 f = Ok r ->
  risk_mmap_from (m_mempool r) = Ok r.
Proof.
  intros H Hb. destruct (built_layout P W rev num0 num1 f H) as (r' & L & align & pv & E & Lay & Eq & T & HL & Ha & _).
  rewrite E in Hb. injection Hb as ->. unfold risk_mmap_from. pose proof (tl_len _ _ _ _ _ _ _ T) as Tl. rewrite Tl.
  replace (align + 24 + 8 * L - 8) with (align + 16 + 8 * L) by lia. rewrite (tl_layer _ _ _ _ _ _ _ T). cbn [rbind].
  rewrite (proj2 (Z.ltb_lt _ _)) by lia. cbn [assert_ rbind].
  replace (align + 16 + 8 * L - 8 * L - 8) with (align + 8) by lia. rewrite (tl_num1 _ _ _ _ _ _ _ T). cbn [rbind].
  replace (align + 16 + 8 * L - 8 * L - 16) with align by lia. rewrite (tl_num0 _ _ _ _ _ _ _ T). cbn [rbind].
  f_equal. rewrite Eq. cbn [m_mempool]. f_equal. lia.
Qed.

(** the four run-length functions return the length of the run of zeros or
    ones from a position on, or up to it. *)
Theorem few_seq_len_correct P W rev num0 num1 f r pos : fits P W num0 num1 f -> build_from P W rev num0 num1 f = Ok r ->
  0 <= pos <= size r ->
  (pos < size r ->
     (exists n, one_seq_len P W r pos = Ok n /\ is_run f true pos (size r) n) /\
     (exists n, zero_seq_len P W r pos = Ok n /\ is_run f false pos (size r) n)) /\
  (exists n, one_seq_revlen P W r pos = Ok n /\ is_revrun f true pos n) /\
  (exists n, zero_seq_revlen P W r pos = Ok n /\ is_revrun f false pos n).
Proof.
  intros H E Hp. destruct (built_inv P W rev num0 num1 f r H E) as (pv & Lay & _ & B).
  split; [intros Hlt; split; apply (run_len_ok P W r pv); (done || lia)|split; by apply (run_revlen_ok P W r pv)].
Qed.

(** the rank and bit queries that take a hint are right for every hint, stale
    or out of range, and leave a hint that can be passed on. *)
Theorem few_rank_hint_correct P W rev num0 num1 f r pos hint : fits P W num0 num1 f -> build_from P W rev num0 num1 f = Ok r ->
  0 <= pos <= size r -> 0 <= hint -> exists hint', 0 <= hint' /\
    rank1_hint P W r pos hint = Ok (rank f pos, hint') /\ rank0_hint P W r pos hint = Ok (pos - rank f pos, hint') /\
    (pos < size r -> at_with_hint P W r pos hint = Ok (f pos, hint')).
Proof.
  intros H E Hp Hh. destruct (built_inv P W rev num0 num1 f r H E) as (pv & Lay & _ & B).
  destruct (lower_bound_hint_ok P W r pv Lay pos hint Hh) as (x & h & El & Hx & Hh').
  exists h. split; [destruct Hx; lia|]. unfold rank1_hint, rank0_hint, at_with_hint. rewrite El. cbn [rbind].
  pose proof (rank_bitf P W r pv Lay pos x ltac:(lia) Hx) as R. rewrite (rank_ext (bitf P r pv) f) in R by (intros; apply B; lia).
  split; [by rewrite R|]. split; [rewrite R; destruct P; do 2 f_equal; lia|]. intros Hlt.
  rewrite (at_ok P W r pv Lay) by (done || lia). cbn [rbind]. by rewrite B by lia.
Qed.

(** two queries with a hint are wrong, in structures of five positions: after
    the hint has been left behind by [lower_bound], [zero_seq_len] answers -1 for
    a run of two zeros, and [select0] with the hint behind two adjacent ones
    returns the position of a one. *)
Theorem few_hint_wrong :
  (exists r, build_from true 1 false 4 1 (fun p => p =? 2) = Ok r /\
    zero_seq_len true 1 r 3 = Ok 2 /\ zero_seq_len_hint true 1 r 3 0 = Ok (2 ^ 64 - 1, 0)) /\
  (exists r, build_from true 1 false 3 2 (fun p => (p =? 2) || (p =? 3)) = Ok r /\
    select0 true 1 r 1 = Ok 1 /\ select0_hint true 1 r 1 2 = Ok (2, 1)).
Proof.
  split; eexists; (split; [vm_compute; reflexivity|]); split; vm_compute; reflexivity.
Qed.

(** * Witnesses *)

Definition sample_bits (p : Z) : bool := Z.testbit 0x8000F000001800 p.

Lemma sample_fits : fits true 2 49 7 sample_bits /\ fits false 1 49 7 sample_bits.
Proof. split; (split; [lia|lia|lia|lia|lia|vm_compute; reflexivity]). Qed.

(** Three hundred ones: two layers. *)
Lemma few_build_correct_witness : exists r, build_from true 2 true 1200 300 (fun p => p mod 5 =? 3) = Ok r /\ size r = 1200 + 300 /\
  @rs_laws _ (few_rs true 2) r (fun p => p mod 5 =? 3).
Proof. apply (few_build_correct true 2 true 1200 300). split; [lia|lia|lia|lia|lia|vm_compute; reflexivity]. Defined.

Definition sample_few : rank_select_few :=
  match build_from false 1 false 49 7 sample_bits with Ok r => r | _ => Few 0 0 0 0 [] end.

Lemma few_mmap_roundtrip_witness : risk_mmap_from (m_mempool sample_few) = Ok sample_few.
Proof. apply (few_mmap_roundtrip false 1 false 49 7 sample_bits); [apply sample_fits|vm_compute; reflexivity]. Defined.

Lemma few_seq_len_correct_witness : exists n, one_seq_len false 1 sample_few 36 = Ok n /\ is_run sample_bits true 36 (size sample_few) n.
Proof.
  destruct (few_seq_len_correct false 1 false 49 7 sample_bits sample_few 36) as [H _];
    [apply sample_fits|vm_compute; reflexivity|vm_compute; split; discriminate|].
  destruct (H eq_refl) as [H1 _]. exact H1.
Defined.

Lemma few_rank_hint_correct_witness : exists hint', 0 <= hint' /\
  rank1_hint false 1 sample_few 38 99 = Ok (4, hint') /\ rank0_hint false 1 sample_few 38 99 = Ok (34, hint').
Proof.
  destruct (few_rank_hint_correct false 1 false 49 7 sample_bits sample_few 38 99) as (h & H0 & H1 & H2 & _);
    [apply sample_fits|vm_compute; reflexivity|vm_compute; split; discriminate|lia|].
  exists h. split; [exact H0|]. split; [exact H1|exact H2].
Defined.

End RankFew.
