(* ===== verification/GoldHash.v ===== *)
(** * gold_hash_map.hpp: chained hash table with stable element indices

    [gold_hash_tab] keeps its elements in a growing array of nodes (an element
    and a link each, [node_layout.hpp]); a bucket is a chain of links, and erased
    slots form a free list that is threaded through the memory of the destroyed
    elements.  The template parameters [HashEqual] and [KeyExtractor] are the
    class [HashEqual] below with its laws [HashLaws]; [LinkTp] is the default
    32-bit [unsigned], [CopyStrategy] moves elements bitwise, and the optional
    cache of hash values ([HSM_ENABLE_HASH_CACHE]) is off.

    Memory that was allocated and never written reads as undefined behaviour: a
    link is [option Z], a cell is [Raw].  Reading or destroying an element that
    is not constructed is undefined behaviour, so every theorem that states [Ok]
    excludes use after destruction and double destruction. *)
From S2P Require Import Prelude.

(** ** Template parameters *)

Class HashEqual (K : Type) := { hash : K -> Z; equal : K -> K -> bool }.
Class KeyExtractor (K A : Type) := key_of : A -> K.

Class HashLaws K `{HashEqual K} : Prop := {
  hash_range k : 0 <= hash k < 2 ^ 64;
  equal_refl k : equal k k = true;
  equal_sym k k' : equal k k' = equal k' k;
  equal_trans k k' k'' : equal k k' = true -> equal k' k'' = true -> equal k k'' = true;
  equal_hash k k' : equal k k' = true -> hash k = hash k'
}.

(** ** [dummy_bucket<unsigned>] and the table of primes (hash_common) *)

Definition tail : Z := 2 ^ 32 - 1.
Definition delmark : Z := tail - 1.

Definition primes : list Z :=
  [5; 11; 19; 37; 53; 97; 193; 389; 769; 1543; 3079; 6151; 12289; 24593; 49157; 98317; 196613; 393241;
   786433; 1572869; 3145739; 6291469; 12582917; 25165843; 50331653; 100663319; 201326611; 402653189;
   805306457; 1610612741; 3221225473; 4294967291; 8589934583; 17179869143; 34359738337; 68719476731;
   137438953447; 274877906899; 549755813881; 1099511627689; 2199023255531; 4398046511093; 8796093022151;
   17592186044399; 35184372088777; 70368744177643; 140737488355213; 281474976710597; 562949953421231;
   1125899906842597; 2251799813685119; 4503599627370449; 9007199254740881; 18014398509481951;
   36028797018963913; 72057594037927931; 144115188075855859; 288230376151711717; 576460752303423433;
   1152921504606846883; 2305843009213693951; 4611686018427387847; 9223372036854775783; 18446744073709551557].

Definition lower_bound_n (a : Z -> res Z) (low upp key : Z) : res Z :=
  let* _ := assert_ (low <=? upp) in
  loop (S (Z.to_nat (upp - low))) (fun '(i, j) =>
    if i <? j then
      let mid := (i + j) / 2 in
      let* x := a mid in
      if x <? key then Ok (inl (mid + 1, j)) else Ok (inl (i, mid))
    else Ok (inr i)) (low, upp).

Definition next_prime (n : Z) : res Z :=
  let extent := Z.of_nat (length primes) in
  let* pos := lower_bound_n (rd primes) 0 extent n in
  rd primes (Z.min pos (extent - 1)).

(** ** State *)

Inductive cell (A : Type) := Live (e : A) | FreeNext (p : Z) | Raw.
Arguments Live {A} e.
Arguments FreeNext {A} p.
Arguments Raw {A}.

Record tab (A : Type) := Tab {
  m_data : list (cell A);       (* m_nl.data(i) *)
  m_link : list (option Z);     (* m_nl.link(i) *)
  bucket : list (option Z);
  nBucket : Z;
  nElem : Z;
  maxElem : Z;
  maxload : Z;
  freelist_head : Z;
  freelist_size : Z;
  load_factor : Z;
  is_sorted : bool;
  m_enable_auto_gc : bool;
  m_enable_freelist_reuse : bool
}.
Arguments Tab {A}.
Arguments m_data {A}. Arguments m_link {A}. Arguments bucket {A}. Arguments nBucket {A}.
Arguments nElem {A}. Arguments maxElem {A}. Arguments maxload {A}. Arguments freelist_head {A}.
Arguments freelist_size {A}. Arguments load_factor {A}. Arguments is_sorted {A}.
Arguments m_enable_auto_gc {A}. Arguments m_enable_freelist_reuse {A}.

(** Field assignments. *)
Definition set_nodes {A} (t : tab A) (d : list (cell A)) (l : list (option Z)) : tab A :=
  Tab d l (bucket t) (nBucket t) (nElem t) (maxElem t) (maxload t) (freelist_head t) (freelist_size t)
    (load_factor t) (is_sorted t) (m_enable_auto_gc t) (m_enable_freelist_reuse t).
Definition set_buckets {A} (t : tab A) (b : list (option Z)) (nb ml : Z) : tab A :=
  Tab (m_data t) (m_link t) b nb (nElem t) (maxElem t) ml (freelist_head t) (freelist_size t)
    (load_factor t) (is_sorted t) (m_enable_auto_gc t) (m_enable_freelist_reuse t).
Definition set_counts {A} (t : tab A) (n mx : Z) : tab A :=
  Tab (m_data t) (m_link t) (bucket t) (nBucket t) n mx (maxload t) (freelist_head t) (freelist_size t)
    (load_factor t) (is_sorted t) (m_enable_auto_gc t) (m_enable_freelist_reuse t).
Definition set_free {A} (t : tab A) (h n : Z) : tab A :=
  Tab (m_data t) (m_link t) (bucket t) (nBucket t) (nElem t) (maxElem t) (maxload t) h n
    (load_factor t) (is_sorted t) (m_enable_auto_gc t) (m_enable_freelist_reuse t).
Definition set_flags {A} (t : tab A) (sorted gc reuse : bool) : tab A :=
  Tab (m_data t) (m_link t) (bucket t) (nBucket t) (nElem t) (maxElem t) (maxload t) (freelist_head t)
    (freelist_size t) (load_factor t) sorted gc reuse.
Definition set_sorted {A} (t : tab A) (b : bool) : tab A :=
  set_flags t b (m_enable_auto_gc t) (m_enable_freelist_reuse t).

(** ** Memory accesses *)

Definition at_ {X} (l : list X) (i : Z) : option X :=
  if decide (0 <= i) then l !! Z.to_nat i else None.

(** A read of a link or bucket: undefined when never written. *)
Definition rd_init (l : list (option Z)) (i : Z) : res Z :=
  let* x := rd l i in match x with Some v => Ok v | None => UB end.

Definition elem (A : Type) (d : list (cell A)) (i : Z) : res A :=
  let* c := rd d i in match c with Live e => Ok e | _ => UB end.
Arguments elem {A} d i.

(** [reinterpret_cast<LinkTp&>(m_nl.data(i))] read on a free slot. *)
Definition free_next {A} (d : list (cell A)) (i : Z) : res Z :=
  let* c := rd d i in match c with FreeNext p => Ok p | _ => UB end.

(** [m_nl.data(i).~Elem()] *)
Definition destruct_ {A} (d : list (cell A)) (i : Z) : res (list (cell A)) :=
  let* _ := elem d i in wr d i Raw.

(** [CopyStrategy::move_cons(&m_nl.data(i), m_nl.data(j))] *)
Definition move_cons {A} (d : list (cell A)) (i j : Z) : res (list (cell A)) :=
  let* e := elem d j in wr d i (Live e).

Definition verify (c : bool) : res unit := if c then Ok tt else Throw terark_die.

(** A reference to a link: [&bucket[b]] or [&m_nl.link(j)]. *)
Inductive lref := AtBucket (b : Z) | AtLink (j : Z).

Definition rd_ref {A} (t : tab A) (r : lref) : res Z :=
  match r with AtBucket b => rd_init (bucket t) b | AtLink j => rd_init (m_link t) j end.

(** [bucket] points to the constant [tail] when [nBucket == 1]. *)
Definition wr_bucket {A} (t : tab A) (b v : Z) : res (tab A) :=
  let* _ := assert_ (negb (nBucket t =? 1)) in
  let* bs := wr (bucket t) b (Some v) in Ok (set_buckets t bs (nBucket t) (maxload t)).

Definition wr_link {A} (t : tab A) (j v : Z) : res (tab A) :=
  let* l := wr (m_link t) j (Some v) in Ok (set_nodes t (m_data t) l).

Definition wr_ref {A} (t : tab A) (r : lref) (v : Z) : res (tab A) :=
  match r with AtBucket b => wr_bucket t b v | AtLink j => wr_link t j v end.

(** ** Operations *)

Section ops.
Context {K A : Type} `{HE : HashEqual K} `{KE : KeyExtractor K A}.
Implicit Types t : tab A.

Definition init : tab A :=
  Tab [] [] [Some tail] 1 0 0 0 tail 0 179 true false true.

Definition hash_of (e : A) : Z := hash (key_of e).

(** The debug loop of [relink_impl] over the free list. *)
Definition check_freelist t : res unit :=
  loop (S (S (Z.to_nat (nElem t)))) (fun i =>
    if i <? delmark then
      let* l := rd_init (m_link t) i in
      let* _ := assert_ (l =? delmark) in
      let* n := free_next (m_data t) i in Ok (inl n)
    else Ok (inr tt)) (freelist_head t).

Definition relink_one t (j : Z) (s : list (option Z) * list (option Z)) :
    res (list (option Z) * list (option Z)) :=
  let '(lk, pb) := s in
  let* e := elem (m_data t) j in
  let i := hash_of e mod nBucket t in
  let* b := rd_init pb i in
  let* lk := wr lk j (Some b) in
  let* pb := wr pb i (Some j) in
  Ok (lk, pb).

Definition relink_impl t : res (tab A) :=
  if 1 <? nBucket t then
    let pb := replicate (length (bucket t)) (Some tail) in
    let* _ := check_freelist t in
    let* s := for_ 0 (nElem t) (fun j s =>
      if freelist_size t =? 0 then relink_one t j s
      else
        let* l := rd_init (fst s) j in
        if negb (l =? delmark) then relink_one t j s else Ok s) (m_link t, pb) in
    Ok (set_buckets (set_nodes t (m_data t) (fst s)) (snd s) (nBucket t) (maxload t))
  else
    let* _ := assert_ (nBucket t =? 1) in Ok t.

Definition rehash t (newBucketSize : Z) : res (tab A * Z) :=
  let* newBucketSize := next_prime newBucketSize in
  let* _ := verify (5 <=? newBucketSize) in
  if negb (newBucketSize =? nBucket t) then
    let b := replicate (Z.to_nat newBucketSize) None in
    let* t := relink_impl (set_buckets t b newBucketSize (maxload t)) in
    let ml := u32 (u64 (newBucketSize * load_factor t) / 256) in
    Ok (set_buckets t (bucket t) (nBucket t) ml, newBucketSize)
  else Ok (t, newBucketSize).

(** [m_nl.reserve(nElem, cap)]: the first [cap] nodes are kept; when there is
    no element the old memory is released first. *)
Definition nl_resize {X} (x : X) (l : list X) (n cap : Z) : list X :=
  let l := if n =? 0 then [] else l in
  take (Z.to_nat cap) l ++ replicate (Z.to_nat cap - length l) x.

Definition reserve_nodes t (cap : Z) : res (tab A) :=
  let* _ := verify (nElem t <=? cap) in
  let* _ := verify (cap <=? delmark) in
  if negb (cap =? maxElem t) && negb (cap =? nElem t) then
    let* _ := assert_ (nElem t <? cap) in
    let d := nl_resize Raw (m_data t) (nElem t) cap in
    let l := nl_resize None (m_link t) (nElem t) cap in
    Ok (set_counts (set_nodes t d l) (nElem t) (u32 cap))
  else Ok t.

Definition reserve t (cap : Z) : res (tab A) :=
  let* t := reserve_nodes t cap in
  let* r := rehash t (u64 (u64 (cap * 256) / load_factor t + 1)) in Ok (fst r).

Definition shrink_to_fit t : res (tab A) :=
  if nElem t <? maxElem t then reserve t (nElem t) else Ok t.

Definition size t : Z := u32 (nElem t - freelist_size t).

(** The walk along a collision chain that [find_*] and [*insert*] share. *)
Definition chain_find t (k : K) (p : Z) : res (option Z) :=
  loop (S (Z.to_nat (nElem t))) (fun p =>
    if negb (tail =? p) then
      let* _ := assert_ (p <? nElem t) in
      let* e := elem (m_data t) p in
      if equal k (key_of e) then Ok (inr (Some p))
      else let* p := rd_init (m_link t) p in Ok (inl p)
    else Ok (inr None)) p.

Definition find_with_hash_i t (k : K) (h : Z) : res Z :=
  let* _ := assert_ (hash k =? h) in
  let i := h mod nBucket t in
  let* p := rd_init (bucket t) i in
  let* r := chain_find t k p in
  Ok (match r with Some p => p | None => nElem t end).

Definition find_i t (k : K) : res Z := find_with_hash_i t k (hash k).

Definition find_hint_with_hash_i t (k : K) (h : Z) : res (Z * Z) :=
  let* p := find_with_hash_i t k h in Ok (p, h mod nBucket t).

Definition exists_ t (k : K) : res bool :=
  let* i := find_i t k in Ok (negb (i =? nElem t)).

Definition alloc_no_reuse t : res (tab A * Z) :=
  let slot := nElem t in
  let* t := if nElem t =? maxElem t
            then reserve_nodes t (if 0 =? nElem t then 1 else u32 (2 * nElem t)) else Ok t in
  let* _ := assert_ (nElem t <? maxElem t) in
  Ok (set_counts t (nElem t + 1) (maxElem t), slot).

Definition risk_slot_alloc t : res (tab A * Z) :=
  let* r :=
    if 0 =? freelist_size t then
      let* _ := assert_ (freelist_head t =? tail) in alloc_no_reuse t
    else if negb (m_enable_freelist_reuse t) then alloc_no_reuse t
    else
      let* _ := assert_ (freelist_head t <? nElem t) in
      let* l := rd_init (m_link t) (freelist_head t) in
      let* _ := assert_ (l =? delmark) in
      let slot := freelist_head t in
      let* h := free_next (m_data t) slot in
      let* _ := assert_ ((h <? nElem t) || (h =? tail)) in
      Ok (set_free t h (u32 (freelist_size t - 1)), slot) in
  let '(t, slot) := r in
  let* t := wr_link t slot tail in Ok (t, slot).

(** Construct the element, then make it the head of its chain. *)
Definition link_new t (slot i : Z) (e : A) : res (tab A) :=
  let* d := wr (m_data t) slot (Live e) in
  let t := set_nodes t d (m_link t) in
  let* b := rd_init (bucket t) i in
  let* t := wr_link t slot b in
  let* t := wr_bucket t i slot in
  Ok (set_sorted t false).

Definition grow_if_needed t (h i : Z) : res (tab A * Z) :=
  if maxload t <=? u32 (nElem t - freelist_size t) then
    let* r := rehash t (u64 (nBucket t + 1)) in Ok (fst r, h mod snd r)
  else Ok (t, i).

Definition lazy_insert_elem_with_hash_i t (k : K) (h : Z) (e : A) : res (tab A * (Z * bool)) :=
  let* _ := assert_ (hash k =? h) in
  let i := h mod nBucket t in
  let* p := rd_init (bucket t) i in
  let* r := chain_find t k p in
  match r with
  | Some p => Ok (t, (p, false))
  | None =>
      let* (t, i) := grow_if_needed t h i in
      let* (t, slot) := risk_slot_alloc t in
      let* t := link_new t slot i e in
      Ok (t, (slot, true))
  end.

Definition insert_i t (e : A) : res (tab A * (Z * bool)) :=
  lazy_insert_elem_with_hash_i t (key_of e) (hash (key_of e)) e.

(** ** Erasing *)

(** The first index not below [i] and below [n] that satisfies [f]. *)
Definition first_index (f : Z -> res bool) (n i : Z) : res (option Z) :=
  loop (S (Z.to_nat (n - i))) (fun i =>
    if i <? n then
      let* b := f i in if b then Ok (inr (Some i)) else Ok (inl (i + 1))
    else Ok (inr None)) i.

Definition is_free_link t (i : Z) : res bool :=
  let* l := rd_init (m_link t) i in Ok (l =? delmark).

Definition revoke_deleted_no_relink t : res (tab A * Z) :=
  let* _ := verify (0 <? freelist_size t) in
  let n := nElem t in
  let* r := first_index (is_free_link t) n 0 in
  match r with
  | None => Throw terark_die
  | Some i =>
      let* (d, i) := for_ (i + 1) n (fun j '(d, i) =>
        let* f := is_free_link t j in
        if negb f then let* d := move_cons d i j in Ok (d, i + 1) else Ok (d, i)) (m_data t, i) in
      let t := set_nodes t d (m_link t) in
      let t := set_counts t (u32 i) (maxElem t) in
      Ok (set_free t tail 0, n - i)
  end.

Definition revoke_deleted t : res (tab A * Z) :=
  if negb (freelist_size t =? 0) then
    let* (t, erased) := revoke_deleted_no_relink t in
    let* t := relink_impl t in Ok (t, erased)
  else Ok (t, 0).

Definition fast_slot_free t (slot : Z) : res (tab A) :=
  let* t := wr_link t slot delmark in
  let* d := destruct_ (m_data t) slot in
  let* d := wr d slot (FreeNext (freelist_head t)) in
  let t := set_nodes t d (m_link t) in
  let t := set_free t slot (u32 (freelist_size t + 1)) in
  if negb (m_enable_freelist_reuse t) then Ok t
  else if m_enable_auto_gc t && (nElem t / 2 <? freelist_size t) then
    let* r := revoke_deleted t in Ok (fst r)
  else Ok t.

Definition is_deleted t (idx : Z) : res bool :=
  let* _ := assert_ (idx <? nElem t) in is_free_link t idx.

(** Walk to the reference that holds [idx], and unlink it. *)
Definition risk_unlink_with_hash_i t (idx h : Z) : res (tab A) :=
  let bucket_idx := h mod nBucket t in
  let* _ := assert_ (1 <=? nElem t) in
  let* _ := assert_ (idx <? nElem t) in
  let* b := rd_init (bucket t) bucket_idx in
  let* _ := assert_ (b <? nElem t) in
  let* f := is_deleted t idx in
  let* _ := assert_ (negb f) in
  let* curp := loop (S (Z.to_nat (nElem t))) (fun curp =>
    let* curr := rd_ref t curp in
    if negb (idx =? curr) then
      let* v := rd_init (m_link t) curr in
      let* _ := assert_ (v <? nElem t) in Ok (inl (AtLink curr))
    else Ok (inr curp)) (AtBucket bucket_idx) in
  let* l := rd_init (m_link t) idx in
  wr_ref t curp l.

Definition risk_unlink t (idx : Z) : res (tab A) :=
  let* _ := assert_ (idx <? nElem t) in
  let* e := elem (m_data t) idx in
  risk_unlink_with_hash_i t idx (hash_of e).

Definition erase_i t (idx : Z) : res (tab A) :=
  let* _ := assert_ (1 <=? nElem t) in
  let* _ := assert_ (idx <? nElem t) in
  let* f := is_free_link t idx in
  let* _ := assert_ (negb f) in
  let* t := risk_unlink t idx in
  fast_slot_free t idx.

Definition erase t (k : K) : res (tab A * Z) :=
  let i := hash k mod nBucket t in
  let* r := loop (S (Z.to_nat (nElem t))) (fun curp =>
    let* curv := rd_ref t curp in
    if negb (tail =? curv) then
      let* _ := assert_ (curv <? nElem t) in
      let* f := is_deleted t curv in
      let* _ := assert_ (negb f) in
      let* e := elem (m_data t) curv in
      if equal k (key_of e) then Ok (inr (Some (curp, curv))) else Ok (inl (AtLink curv))
    else Ok (inr None)) (AtBucket i) in
  match r with
  | Some (curp, curv) =>
      let* l := rd_init (m_link t) curv in
      let* t := wr_ref t curp l in
      let* t := fast_slot_free t curv in Ok (t, 1)
  | None => Ok (t, 0)
  end.

(** ** Erasing by predicate, erasing everything *)

(** [~gold_hash_tab] and [erase_all] destroy the elements from the last one. *)
Definition destruct_one t (k : Z) (d : list (cell A)) : res (list (cell A)) :=
  let i := nElem t - k in
  if freelist_size t =? 0 then destruct_ d (i - 1)
  else
    let* f := is_free_link t (i - 1) in
    if negb f then destruct_ d (i - 1) else Ok d.

Definition destruct_all t : res (list (cell A)) := for_ 0 (nElem t) (destruct_one t) (m_data t).

Definition clear t : res (tab A) := let* _ := destruct_all t in Ok init.

(** [erase_if_impl] for bitwise moves, once the holes are gone. *)
Definition erase_if_scan (pred : A -> bool) t : res (tab A * Z) :=
  let n := nElem t in
  let* r := first_index (fun i => let* e := elem (m_data t) i in Ok (pred e)) n 0 in
  match r with
  | None => Ok (t, 0)
  | Some i =>
      let* d := destruct_ (m_data t) i in
      let* (d, i) := for_ (i + 1) n (fun j '(d, i) =>
        let* e := elem d j in
        if pred e then let* d := destruct_ d j in Ok (d, i)
        else let* d := move_cons d i j in Ok (d, i + 1)) (d, i) in
      let t := set_counts (set_nodes t d (m_link t)) (u32 i) (maxElem t) in
      let* t := if 0 =? i then clear t else Ok t in
      Ok (t, n - i)
  end.

Definition erase_if_impl (pred : A -> bool) t : res (tab A * Z) :=
  let* t := if negb (freelist_size t =? 0)
            then let* r := revoke_deleted_no_relink t in Ok (fst r) else Ok t in
  erase_if_scan pred t.

(** [if (pred(nl.data(i))) erase_i(i), ++erased;] *)
Definition keepid_one (pred : A -> bool) (i : Z) (s : tab A * Z) : res (tab A * Z) :=
  let '(t, erased) := s in
  let* e := elem (m_data t) i in
  if pred e then let* t := erase_i t i in Ok (t, erased + 1) else Ok (t, erased).

Definition keepid_erase_if (pred : A -> bool) t : res (tab A * Z) :=
  let n := nElem t in
  if 0 =? freelist_size t then
    let* _ := verify (freelist_head t =? tail) in
    for_ 0 n (keepid_one pred) (t, 0)
  else
    let* _ := verify (freelist_head t <? n) in
    for_ 0 n (fun i s =>
      let* f := is_free_link (fst s) i in
      if negb f then keepid_one pred i s else Ok s) (t, 0).

Definition erase_if (pred : A -> bool) t : res (tab A * Z) :=
  if negb (m_enable_freelist_reuse t) then keepid_erase_if pred t
  else
    let old_nElem := nElem t in
    let* (t, nErased) := erase_if_impl pred t in
    let* t := if negb (nElem t =? old_nElem) then relink_impl t else Ok t in
    Ok (t, nErased).

Definition erase_all t : res (tab A) :=
  let* t :=
    if freelist_size t <? nElem t then
      let* d := destruct_all t in
      let* _ := assert_ (negb (nBucket t =? 1)) in
      let b := replicate (length (bucket t)) (Some tail) in
      Ok (set_buckets (set_nodes t d (m_link t)) b (nBucket t) (maxload t))
    else Ok t in
  let* t :=
    if freelist_head t <? delmark then
      let* _ := verify (freelist_head t <? nElem t) in Ok (set_free t tail 0)
    else Ok t in
  Ok (set_counts t 0 (maxElem t)).

(** ** Low-level insertion of a constructed slot *)

Definition risk_insert_on_slot t (slot : Z) : res (tab A * Z) :=
  let* _ := assert_ (slot <? nElem t) in
  let* f := is_free_link t slot in
  let* _ := assert_ (negb f) in
  let* e := elem (m_data t) slot in
  let h := hash_of e in
  let i := h mod nBucket t in
  let* p := rd_init (bucket t) i in
  let* r := chain_find t (key_of e) p in
  match r with
  | Some p => Ok (t, p)
  | None =>
      let* t :=
        if maxload t <=? u32 (nElem t - freelist_size t) then
          let* r := rehash t (u64 (nBucket t + 1)) in Ok (fst r)
        else
          let* b := rd_init (bucket t) i in
          let* t := wr_link t slot b in wr_bucket t i slot in
      Ok (set_sorted t false, slot)
  end.

(** ** Iteration *)

Definition next_i t (idx : Z) : res Z :=
  let n := nElem t in
  let* _ := assert_ (idx <? n) in
  let* r := first_index (fun i => let* f := is_free_link t i in Ok (negb f)) n (idx + 1) in
  Ok (match r with Some i => i | None => n end).

Definition beg_i t : res Z :=
  if freelist_size t =? nElem t then Ok (nElem t)
  else if negb (freelist_size t =? 0) then
    let* f := is_free_link t 0 in if f then next_i t 0 else Ok 0
  else Ok 0.

(** [for (i = beg_i(); i != end_i(); i = next_i(i)) visit(elem_at(i))] *)
Definition iterate t : res (list A) :=
  let* b := beg_i t in
  loop (S (Z.to_nat (nElem t))) (fun '(i, acc) =>
    if negb (i =? nElem t) then
      let* e := elem (m_data t) i in
      let* i := next_i t i in Ok (inl (i, acc ++ [e]))
    else Ok (inr acc)) (b, []).

(** ** Copy construction, serialisation *)

(** Copy of node [i]: an element is copy-constructed, of a free slot the
    link that is stored in it is copied. *)
Definition copy_cell y (i : Z) : res (cell A) :=
  if freelist_size y =? 0 then let* e := elem (m_data y) i in Ok (Live e)
  else
    let* f := is_free_link y i in
    if negb f then let* e := elem (m_data y) i in Ok (Live e) else rd (m_data y) i.

Definition copy y : res (tab A) :=
  if 0 =? nElem y then
    Ok (Tab [] [] [Some tail] 1 0 0 0 (freelist_head y) (freelist_size y) (load_factor y)
          (is_sorted y) (m_enable_auto_gc y) (m_enable_freelist_reuse y))
  else
    let* _ := assert_ (negb (nBucket y =? 1)) in
    let* (d, l) := for_ 0 (nElem y) (fun i '(d, l) =>
      let* c := copy_cell y i in
      let* x := rd (m_link y) i in Ok (d ++ [c], l ++ [x])) ([], []) in
    Ok (Tab d l (bucket y) (nBucket y) (nElem y) (nElem y) (maxload y) (freelist_head y)
          (freelist_size y) (load_factor y) (is_sorted y) (m_enable_auto_gc y)
          (m_enable_freelist_reuse y)).

Definition dio_save t : res (Z * list A) :=
  let n := nElem t in
  let* items := for_ 0 n (fun i acc =>
    if negb (freelist_size t =? 0) then
      let* del := is_deleted t i in
      if del then let* e := elem (m_data t) i in Ok (acc ++ [e]) else Ok acc
    else let* e := elem (m_data t) i in Ok (acc ++ [e])) [] in
  Ok (size t, items).

(** [next] elements are read from the stream. *)
Definition dio_load t (stream : Z * list A) : res (tab A) :=
  let '(n, items) := stream in
  let* t := clear t in
  let* t := reserve t n in
  let* d := for_ 0 n (fun i d => let* e := rd items i in wr d i (Live e)) (m_data t) in
  let t := set_counts (set_nodes t d (m_link t)) (u32 n) (maxElem t) in
  relink_impl t.

(** The element [elem_at(find_i(key))], as [gold_hash_map::at] and [val] use it. *)
Definition find_elem t (k : K) : res (option A) :=
  let* i := find_i t k in
  if i =? nElem t then Ok None else let* e := elem (m_data t) i in Ok (Some e).

Definition enable_auto_gc t (enable : bool) : tab A := set_flags t (is_sorted t) enable (m_enable_freelist_reuse t).
Definition enable_freelist t (e : bool) : tab A := set_flags t (is_sorted t) (m_enable_auto_gc t) e.
End ops.

(** ** Sequences of operations *)

Inductive op (K A : Type) :=
  | OInsert (e : A) | OFind (k : K) | OErase (k : K) | OEraseI (idx : Z)
  | OEraseIf (pred : A -> bool) | OKeepidEraseIf (pred : A -> bool) | ORevoke
  | OReserve (cap : Z) | OEraseAll | OClear | OEnableGc (b : bool) | OEnableFreelist (b : bool).
Arguments OInsert {K A}. Arguments OFind {K A}. Arguments OErase {K A}. Arguments OEraseI {K A}.
Arguments OEraseIf {K A}. Arguments OKeepidEraseIf {K A}. Arguments ORevoke {K A}.
Arguments OReserve {K A}. Arguments OEraseAll {K A}. Arguments OClear {K A}.
Arguments OEnableGc {K A}. Arguments OEnableFreelist {K A}.

Inductive ret := RIns (i : Z) (inserted : bool) | RNum (n : Z) | RUnit.

Definition step {K A} `{HashEqual K} `{KeyExtractor K A} (t : tab A) (o : op K A) : res (tab A * ret) :=
  match o with
  | OInsert e => let* r := insert_i t e in Ok (r.1, RIns r.2.1 r.2.2)
  | OFind k => let* i := find_i t k in Ok (t, RNum i)
  | OErase k => let* r := erase t k in Ok (r.1, RNum r.2)
  | OEraseI i => let* t := erase_i t i in Ok (t, RUnit)
  | OEraseIf p => let* r := erase_if p t in Ok (r.1, RNum r.2)
  | OKeepidEraseIf p => let* r := keepid_erase_if p t in Ok (r.1, RNum r.2)
  | ORevoke => let* r := revoke_deleted t in Ok (r.1, RNum r.2)
  | OReserve n => let* t := reserve t n in Ok (t, RUnit)
  | OEraseAll => let* t := erase_all t in Ok (t, RUnit)
  | OClear => let* t := clear t in Ok (t, RUnit)
  | OEnableGc b => Ok (enable_auto_gc t b, RUnit)
  | OEnableFreelist b => Ok (enable_freelist t b, RUnit)
  end.

Fixpoint exec {K A} `{HashEqual K} `{KeyExtractor K A} (t : tab A) (os : list (op K A)) : res (tab A * list ret) :=
  match os with
  | [] => Ok (t, [])
  | o :: os => let* (t, r) := step t o in let* (t, rs) := exec t os in Ok (t, r :: rs)
  end.

(** The abstract table: what each index holds, the freed indices (the next one
    to be reused first) and the two options. *)
Record spec (A : Type) := Spec {
  sp_slots : list (option A); sp_holes : list Z; sp_gc : bool; sp_reuse : bool }.
Arguments Spec {A}. Arguments sp_slots {A}. Arguments sp_holes {A}. Arguments sp_gc {A}. Arguments sp_reuse {A}.

Definition sp_add {A} (sl : list (option A)) (fl : list Z) (reuse : bool) (e : A) : list (option A) * list Z * Z :=
  match fl, reuse with
  | x :: rest, true => (<[Z.to_nat x := Some e]> sl, rest, x)
  | _, _ => (sl ++ [Some e], fl, Z.of_nat (length sl))
  end.

Definition sp_compact {A} (sl : list (option A)) : list (option A) := Some <$> omap id sl.

Definition sp_free {A} (sl : list (option A)) (fl : list Z) (gc reuse : bool) (x : Z) : list (option A) * list Z :=
  let sl' := <[Z.to_nat x := None]> sl in
  if reuse && (gc && (Z.of_nat (length sl) / 2 <? Z.of_nat (S (length fl)))) then (sp_compact sl', [])
  else (sl', x :: fl).

Definition unless {A} (pred : A -> bool) (o : option A) : option A :=
  match o with Some e => if pred e then None else Some e | None => None end.

(** [erase_if] that leaves nothing resets the table and with it the options. *)
Definition gc_left {A} (kept live : list A) (gc : bool) : bool :=
  match kept, live with [], _ :: _ => false | _, _ => gc end.

Definition drop_matching {A} (pred : A -> bool) (sl : list (option A)) : list Z :=
  omap (fun j => match at_ sl j with Some (Some e) => if pred e then Some j else None | _ => None end)
    (seqZ 0 (Z.of_nat (length sl))).

Section spec.
Context {K A : Type} `{HE : HashEqual K} `{KE : KeyExtractor K A}.

Definition slot_has (k : K) (o : option A) : bool :=
  match o with Some e => equal k (key_of e) | None => false end.

Definition sp_find (k : K) (sl : list (option A)) : option Z :=
  match list_find (fun o => slot_has k o = true) sl with Some (i, _) => Some (Z.of_nat i) | None => None end.

Definition sp_erase (s : spec A) (x : Z) : spec A :=
  let (sl, fl) := sp_free (sp_slots s) (sp_holes s) (sp_gc s) (sp_reuse s) x in Spec sl fl (sp_gc s) (sp_reuse s).

Definition sp_keepid (pred : A -> bool) (s : spec A) : spec A * ret :=
  let m := drop_matching pred (sp_slots s) in
  (Spec (unless pred <$> sp_slots s) (reverse m ++ sp_holes s) (sp_gc s) (sp_reuse s), RNum (Z.of_nat (length m))).

Definition spec_step (s : spec A) (o : op K A) : spec A * ret :=
  let sl := sp_slots s in
  match o with
  | OInsert e =>
      match sp_find (key_of e) sl with
      | Some i => (s, RIns i false)
      | None => let '(sl, fl, i) := sp_add sl (sp_holes s) (sp_reuse s) e in
                (Spec sl fl (sp_gc s) (sp_reuse s), RIns i true)
      end
  | OFind k => (s, RNum (match sp_find k sl with Some i => i | None => Z.of_nat (length sl) end))
  | OErase k => match sp_find k sl with Some i => (sp_erase s i, RNum 1) | None => (s, RNum 0) end
  | OEraseI i => (sp_erase s i, RUnit)
  | OEraseIf p =>
      if sp_reuse s then
        let live := omap id sl in
        let kept := filter (fun e => p e = false) live in
        (Spec (Some <$> kept) [] (gc_left kept live (sp_gc s)) true,
         RNum (Z.of_nat (length live) - Z.of_nat (length kept)))
      else sp_keepid p s
  | OKeepidEraseIf p => sp_keepid p s
  | ORevoke => (Spec (sp_compact sl) [] (sp_gc s) (sp_reuse s), RNum (Z.of_nat (length (sp_holes s))))
  | OReserve _ => (s, RUnit)
  | OEraseAll => (Spec [] [] (sp_gc s) (sp_reuse s), RUnit)
  | OClear => (Spec [] [] false true, RUnit)
  | OEnableGc b => (Spec sl (sp_holes s) b (sp_reuse s), RUnit)
  | OEnableFreelist b => (Spec sl (sp_holes s) (sp_gc s) b, RUnit)
  end.

Fixpoint spec_exec (s : spec A) (os : list (op K A)) : spec A * list ret :=
  match os with
  | [] => (s, [])
  | o :: os => let (s, r) := spec_step s o in let (s, rs) := spec_exec s os in (s, r :: rs)
  end.

(** Preconditions: [legal] is the contract of the C++ functions; [fits] is
    what keeps the node array within the 32-bit links. *)
Definition legal (s : spec A) (o : op K A) : Prop :=
  match o with
  | OEraseI i => exists e, at_ (sp_slots s) i = Some (Some e)
  | OKeepidEraseIf _ => sp_reuse s && sp_gc s = false
  | _ => True
  end.

Definition fits (s : spec A) (o : op K A) : Prop :=
  match o with
  | OInsert _ => Z.of_nat (length (sp_slots s)) < 2 ^ 31
  | OReserve n => Z.of_nat (length (sp_slots s)) <= n <= delmark
  | _ => True
  end.

Fixpoint can (s : spec A) (os : list (op K A)) : Prop :=
  match os with
  | [] => True
  | o :: os => legal s o /\ fits s o /\ can (spec_step s o).1 os
  end.
End spec.
