(* ===== verification/GoldHashInv.v ===== *)
(** * Chains, the invariant of [gold_hash_tab], and what each operation does to it

    [chain nx p l]: following [nx] from [p] visits [l] and ends in [tail]; it
    describes the collision chains (over links) and the free list (over the memory
    of destroyed elements).  [wf pend t fl] is the invariant of a table with free
    list [fl] and, while an insertion is under way, an allocated slot [pend] that
    is in no chain. *)
From S2P Require Import Prelude.
From S2P Require Import GoldHash.

(** * Lemmas on memory and chains *)

Lemma at_Some {X} (l : list X) i x : at_ l i = Some x -> 0 <= i < Z.of_nat (length l).
Proof. unfold at_. case_decide; [|done]. intros H1%lookup_lt_Some. lia. Qed.

Lemma at_is_Some {X} (l : list X) i : 0 <= i < Z.of_nat (length l) -> exists x, at_ l i = Some x.
Proof.
  intros. unfold at_. rewrite decide_True by lia.
  destruct (lookup_lt_is_Some_2 l (Z.to_nat i)) as [x ?]; [lia|]. eauto.
Qed.

Lemma rd_at {X} (l : list X) i x : at_ l i = Some x -> rd l i = Ok x.
Proof. unfold at_, rd. case_decide; [|done]. by intros ->. Qed.

Lemma at_insert {X} (l : list X) i x j : 0 <= i < Z.of_nat (length l) ->
  at_ (<[Z.to_nat i := x]> l) j = if decide (j = i) then Some x else at_ l j.
Proof.
  intros Hi. unfold at_. destruct (decide (j = i)) as [->|Hne].
  - rewrite decide_True, list_lookup_insert_eq by lia. done.
  - case_decide; [|done]. apply list_lookup_insert_ne. lia.
Qed.

Lemma at_insert_eq {X} (l : list X) i x : 0 <= i < Z.of_nat (length l) ->
  at_ (<[Z.to_nat i := x]> l) i = Some x.
Proof. intros. rewrite at_insert by done. by rewrite decide_True. Qed.

Lemma at_insert_ne {X} (l : list X) i x j : 0 <= i < Z.of_nat (length l) -> j <> i ->
  at_ (<[Z.to_nat i := x]> l) j = at_ l j.
Proof. intros. rewrite at_insert by done. by rewrite decide_False. Qed.

Lemma wr_insert {X} (l : list X) i x : 0 <= i < Z.of_nat (length l) ->
  wr l i x = Ok (<[Z.to_nat i := x]> l).
Proof. apply wr_ok. Qed.

Lemma at_replicate {X} (x : X) n i : at_ (replicate n x) i = if decide (0 <= i < Z.of_nat n) then Some x else None.
Proof.
  unfold at_. destruct (decide (0 <= i < Z.of_nat n)).
  - rewrite decide_True by lia. apply lookup_replicate_2. lia.
  - case_decide; [|done]. apply lookup_replicate_None. lia.
Qed.

Lemma at_app {X} (l m : list X) i : at_ (l ++ m) i =
  if decide (i < Z.of_nat (length l)) then at_ l i else at_ m (i - Z.of_nat (length l)).
Proof.
  unfold at_. destruct (decide (0 <= i)).
  - destruct (decide (i < Z.of_nat (length l))).
    + rewrite lookup_app_l by lia. done.
    + rewrite decide_True, lookup_app_r by lia. f_equal. lia.
  - destruct (decide (i < Z.of_nat (length l))); [done|]. rewrite decide_False by lia. done.
Qed.

Lemma at_take {X} (l : list X) n i : at_ (take n l) i = if decide (i < Z.of_nat n) then at_ l i else None.
Proof.
  unfold at_. destruct (decide (0 <= i)); [|by case_decide].
  destruct (decide (i < Z.of_nat n)).
  - apply lookup_take_lt. lia.
  - apply lookup_take_ge. lia.
Qed.

Lemma at_fmap {X Y} (f : X -> Y) l i : at_ (f <$> l) i = f <$> at_ l i.
Proof. unfold at_. case_decide; [|done]. apply list_lookup_fmap. Qed.

(** A [for] loop that runs into undefined behaviour at [c]. *)
Lemma for_loop_ub {S} (I : Z -> S -> Prop) (body : Z -> S -> res S) n i s c : I i s -> i <= c < i + Z.of_nat n ->
  (forall k t, i <= k < c -> I k t -> exists t', body k t = Ok t' /\ I (k + 1) t') ->
  (forall t, I c t -> body c t = UB) -> for_loop n i body s = UB.
Proof.
  revert i s. induction n as [|n IH]; intros i s H0 Hc Hstep Hub; [lia|]. cbn [for_loop].
  destruct (decide (i = c)) as [->|Hne]; [by rewrite Hub|].
  destruct (Hstep i s) as (t & -> & Ht); [lia|done|]. cbn [rbind]. apply IH; [done|lia| |done].
  intros k u Hk Hu. apply Hstep; [lia|done].
Qed.

(** The link and the free-list successor of a node. *)
Definition lnext (L : list (option Z)) (i : Z) : option Z := mjoin (at_ L i).
Definition fnext {A} (d : list (cell A)) (i : Z) : option Z :=
  match at_ d i with Some (FreeNext p) => Some p | _ => None end.
Definition live {A} (d : list (cell A)) (i : Z) : option A :=
  match at_ d i with Some (Live e) => Some e | _ => None end.

Lemma rd_init_ok L i v : lnext L i = Some v -> rd_init L i = Ok v.
Proof.
  unfold lnext, rd_init. destruct (at_ L i) as [o|] eqn:E; [|done].
  intros Ho. rewrite (rd_at _ _ _ E). cbn in *. by subst.
Qed.

Lemma elem_ok {A} (d : list (cell A)) i e : live d i = Some e -> elem d i = Ok e.
Proof.
  unfold live, elem. destruct (at_ d i) as [c|] eqn:E; [|done].
  rewrite (rd_at _ _ _ E). destruct c; naive_solver.
Qed.

Lemma free_next_ok {A} (d : list (cell A)) i p : fnext d i = Some p -> free_next d i = Ok p.
Proof.
  unfold fnext, free_next. destruct (at_ d i) as [c|] eqn:E; [|done].
  rewrite (rd_at _ _ _ E). destruct c; naive_solver.
Qed.

Lemma live_range {A} (d : list (cell A)) i e : live d i = Some e -> 0 <= i < Z.of_nat (length d).
Proof. unfold live. destruct (at_ d i) eqn:E; [|done]. intros _. by eapply at_Some. Qed.

Lemma lnext_range L i v : lnext L i = Some v -> 0 <= i < Z.of_nat (length L).
Proof. unfold lnext. destruct (at_ L i) eqn:E; [|done]. intros _. by eapply at_Some. Qed.

Lemma lnext_insert L i v j : 0 <= i < Z.of_nat (length L) ->
  lnext (<[Z.to_nat i := Some v]> L) j = if decide (j = i) then Some v else lnext L j.
Proof. intros. unfold lnext. rewrite at_insert by done. by case_decide. Qed.

Lemma live_insert {A} (d : list (cell A)) i c j : 0 <= i < Z.of_nat (length d) ->
  live (<[Z.to_nat i := c]> d) j = if decide (j = i) then match c with Live e => Some e | _ => None end else live d j.
Proof. intros. unfold live. rewrite at_insert by done. by case_decide. Qed.

Lemma fnext_insert {A} (d : list (cell A)) i c j : 0 <= i < Z.of_nat (length d) ->
  fnext (<[Z.to_nat i := c]> d) j = if decide (j = i) then match c with FreeNext p => Some p | _ => None end else fnext d j.
Proof. intros. unfold fnext. rewrite at_insert by done. by case_decide. Qed.

Lemma live_not_free {A} (d : list (cell A)) i e p : live d i = Some e -> fnext d i = Some p -> False.
Proof. unfold live, fnext. destruct (at_ d i) as [[]|]; congruence. Qed.

Lemma destruct_ok {A} (d : list (cell A)) i e : live d i = Some e -> destruct_ d i = Ok (<[Z.to_nat i := Raw]> d).
Proof.
  intros H. unfold destruct_. rewrite (elem_ok _ _ _ H). cbn [rbind].
  apply wr_insert. by eapply live_range.
Qed.

(** [chain nx p l]: following [nx] from [p] visits exactly [l], then [tail]. *)
Inductive chain (nx : Z -> option Z) : Z -> list Z -> Prop :=
  | chain_nil : chain nx tail []
  | chain_cons x q l : 0 <= x < delmark -> nx x = Some q -> chain nx q l -> chain nx x (x :: l).
#[export] Hint Constructors chain : core.

Lemma delmark_tail : delmark < tail.
Proof. unfold delmark. lia. Qed.

Lemma chain_nil_inv nx l : chain nx tail l -> l = [].
Proof. pose proof delmark_tail. inversion 1; subst; [done|lia]. Qed.

Lemma chain_cons_inv nx p x l : chain nx p (x :: l) -> p = x /\ 0 <= x < delmark /\ exists q, nx x = Some q /\ chain nx q l.
Proof. inversion 1; subst. eauto. Qed.

Lemma chain_end_inv nx p : chain nx p [] -> p = tail.
Proof. by inversion 1. Qed.

Lemma chain_det nx p l m : chain nx p l -> chain nx p m -> l = m.
Proof.
  intros H. revert m. induction H as [|x q l Hx Hq Hl IH]; intros m Hm.
  - symmetry. by eapply chain_nil_inv.
  - inversion Hm; subst; [pose proof delmark_tail; lia|]. f_equal. apply IH. congruence.
Qed.

Lemma chain_suffix nx p l x m : chain nx p (l ++ x :: m) -> chain nx x (x :: m).
Proof.
  revert p. induction l as [|y l IH]; intros p H; cbn [app] in H.
  - by destruct (chain_cons_inv _ _ _ _ H) as [-> _].
  - destruct (chain_cons_inv _ _ _ _ H) as (_ & _ & q & _ & H'). eauto.
Qed.

Lemma chain_NoDup nx p l : chain nx p l -> NoDup l.
Proof.
  induction 1 as [|x q l Hx Hq Hl IH]; [constructor|]. constructor; [|done].
  intros (l1 & l2 & ->)%list_elem_of_split.
  assert (x :: l2 = x :: l1 ++ x :: l2) as E.
  { eapply chain_det; [by eapply chain_suffix|]. by econstructor. }
  apply (f_equal length) in E. rewrite !length_cons, length_app, length_cons in E. lia.
Qed.

Lemma chain_range nx p l x : chain nx p l -> x ∈ l -> 0 <= x < delmark.
Proof. induction 1; [by intros ?%not_elem_of_nil|]. intros [->|]%elem_of_cons; auto. Qed.

Lemma chain_ext nx nx' p l : (forall x, x ∈ l -> nx x = nx' x) -> chain nx p l -> chain nx' p l.
Proof.
  intros Hx H. induction H as [|x q l Hr Hq Hl IH]; [constructor|].
  econstructor; [done| |].
  - rewrite <- Hx; [done|]. by left.
  - apply IH. intros. apply Hx. by right.
Qed.

(** Making [prev] point past [x] removes [x] from the chain. *)
Lemma chain_unlink nx nx' p l prev x m q : chain nx p (l ++ prev :: x :: m) -> nx x = Some q ->
  nx' prev = Some q -> (forall y, y <> prev -> nx' y = nx y) -> chain nx' p (l ++ prev :: m).
Proof.
  intros H Hq Hp Hne. pose proof (chain_NoDup _ _ _ H) as ND. revert p H ND.
  induction l as [|y l IH]; intros p H ND; cbn [app] in *.
  - destruct (chain_cons_inv _ _ _ _ H) as (-> & Hr & q1 & Hq1 & H1).
    destruct (chain_cons_inv _ _ _ _ H1) as (-> & Hr' & q2 & Hq2 & H2).
    econstructor; [done|done|]. simplify_eq.
    apply (chain_ext nx); [|congruence]. intros z Hz. symmetry. apply Hne. intros ->.
    apply list.NoDup_cons in ND as [ND _]. apply ND. by right.
  - destruct (chain_cons_inv _ _ _ _ H) as (-> & Hr & q1 & Hq1 & H1).
    apply list.NoDup_cons in ND as [ND1 ND]. econstructor; [done| |by apply IH].
    rewrite Hne; [done|]. intros ->. apply ND1. apply elem_of_app. right. by left.
Qed.

Lemma NoDup_range_length l n : NoDup l -> (forall x, x ∈ l -> 0 <= x < n) -> Z.of_nat (length l) <= Z.max 0 n.
Proof.
  intros ND H. assert (l ⊆+ seqZ 0 n) as S.
  { apply NoDup_submseteq; [done|]. intros x Hx. apply elem_of_seqZ. specialize (H x Hx). lia. }
  apply submseteq_length in S. rewrite length_seqZ in S. lia.
Qed.

(** ** The table of primes *)

(** On an ascending array, the first position whose value is not below [key]. *)
Lemma lower_bound_n_ok (a : Z -> res Z) (P : Z -> Z) n key : 0 <= n -> (forall i, 0 <= i < n -> a i = Ok (P i)) ->
  (forall i j, 0 <= i <= j -> j < n -> P i <= P j) ->
  exists p, lower_bound_n a 0 n key = Ok p /\ 0 <= p <= n /\ (p < n -> key <= P p) /\ (forall k, 0 <= k < p -> P k < key).
Proof.
  intros Hn Ha Hm. unfold lower_bound_n. rewrite (proj2 (Z.leb_le 0 n)) by lia. cbn [assert_ rbind].
  apply (loop_inv (fun '(i, j) => 0 <= i <= j /\ j <= n /\ (j < n -> key <= P j) /\ (forall k, 0 <= k < i -> P k < key)) (fun '(i, j) => j - i)); [|lia|].
  { split; [lia|]. split; [lia|]. split; [lia|intros; lia]. }
  intros [i j] (H1 & H2 & H3 & H4). split; [lia|]. destruct (Z.ltb_spec i j) as [L|L].
  - left. assert (i <= (i + j) / 2 < j) as Hmid by (split; [apply Z.div_le_lower_bound|apply Z.div_lt_upper_bound]; lia).
    set (mid := (i + j) / 2) in *. rewrite Ha by lia. cbn [rbind].
    destruct (Z.ltb_spec (P mid) key); eexists; (split; [done|]); cbv beta iota; (split; [|lia]).
    + split; [lia|]. split; [lia|]. split; [done|]. intros k Hk. pose proof (Hm k mid). lia.
    + split; [lia|]. split; [lia|]. done.
  - right. eexists. split; [done|]. split; [lia|]. split; [|done]. intros. replace i with j by lia. apply H3. lia.
Qed.

Lemma primes_ascending i j : 0 <= i <= j -> j < Z.of_nat (length primes) -> word_at primes i <= word_at primes j.
Proof.
  intros Hij Hj. assert (forallb (fun i => word_at primes i <=? word_at primes (i + 1)) (seqZ 0 63) = true) as F by (vm_compute; reflexivity).
  replace j with (i + (j - i)) in * by lia. revert Hj. assert (0 <= j - i) as Hd by lia. revert Hd. generalize (j - i). intros d Hd. pattern d.
  apply natlike_ind; [intros _; rewrite Z.add_0_r; lia| |done]. clear d Hd. unfold Z.succ. intros d Hd IH Hj.
  etrans; [apply IH; lia|]. replace (i + (d + 1)) with (i + d + 1) in * by lia. apply Z.leb_le.
  rewrite forallb_forall in F. apply F, list_elem_of_In, elem_of_seqZ. change (Z.of_nat (length primes)) with 64 in Hj. lia.
Qed.

Lemma next_prime_ok n : exists p, next_prime n = Ok p /\ 5 <= p < 2 ^ 64 /\ (n <= 18446744073709551557 -> n <= p).
Proof.
  set (len := Z.of_nat (length primes)). assert (len = 64) as El by reflexivity.
  assert (forall i, 0 <= i < len -> rd primes i = Ok (word_at primes i) /\ 5 <= word_at primes i <= 18446744073709551557) as Hp.
  { intros i Hi. split; [by apply rd_word|].
    pose proof (primes_ascending 0 i ltac:(lia) ltac:(fold len; lia)) as H1. pose proof (primes_ascending i 63 ltac:(lia) ltac:(fold len; lia)) as H2.
    change (word_at primes 0) with 5 in H1. change (word_at primes 63) with 18446744073709551557 in H2. lia. }
  unfold next_prime. fold len. destruct (lower_bound_n_ok (rd primes) (word_at primes) len n) as (p & -> & Hr & H1 & H2); [lia| | |].
  { intros i Hi. by apply Hp. }
  { intros i j Hij Hj. by apply primes_ascending. }
  cbn [rbind]. destruct (Hp (Z.min p (len - 1))) as [-> Hb]; [lia|]. eexists. split; [done|]. split; [lia|]. intros Hn.
  destruct (decide (p < len)) as [L|L].
  - rewrite Z.min_l by lia. by apply H1.
  - rewrite Z.min_r, El by lia. change (word_at primes (64 - 1)) with 18446744073709551557. done.
Qed.

(** * The invariant *)

Section inv.
Context {K A : Type} `{HE : HashEqual K} `{HL : !HashLaws K} `{KE : KeyExtractor K A}.
Implicit Types t : tab A.

(** The node array: [fl] is the free list, [pend] a slot that was allocated
    and is not in the table yet. *)
Record slots_ok (pend : option Z) t (fl : list Z) : Prop := {
  so_data : Z.of_nat (length (m_data t)) = maxElem t;
  so_link : Z.of_nat (length (m_link t)) = maxElem t;
  so_elem : 0 <= nElem t <= maxElem t;
  so_max : maxElem t <= delmark;
  so_factor : 0 < load_factor t < 256;
  so_free : chain (fnext (m_data t)) (freelist_head t) fl;
  so_fsize : freelist_size t = Z.of_nat (length fl);
  so_frange x : x ∈ fl -> 0 <= x < nElem t;
  so_live i : 0 <= i < nElem t -> i ∉ fl -> pend <> Some i -> exists e, live (m_data t) i = Some e;
  so_keys i j e e' : 0 <= i < nElem t -> 0 <= j < nElem t -> pend <> Some i -> pend <> Some j ->
    live (m_data t) i = Some e -> live (m_data t) j = Some e' ->
    equal (key_of e) (key_of e') = true -> i = j;
  so_pend s : pend = Some s -> 0 <= s < nElem t /\ s ∉ fl
}.

(** Slot [x] holds the element [e] of the table. *)
Definition in_tab (pend : option Z) t (x : Z) (e : A) : Prop :=
  0 <= x < nElem t /\ pend <> Some x /\ live (m_data t) x = Some e.

(** Every link is written, and a free slot is the one marked [delmark]. *)
Definition marks t (fl : list Z) : Prop :=
  forall i, 0 <= i < nElem t -> exists v, lnext (m_link t) i = Some v /\ (v = delmark <-> i ∈ fl).

Definition bucket_ok (pend : option Z) t (L : list (option Z)) (B : list (option Z)) (b : Z) : Prop :=
  exists p l, lnext B b = Some p /\ chain (lnext L) p l /\
    forall x, x ∈ l <-> exists e, in_tab pend t x e /\ hash_of e mod nBucket t = b.

Record linked (pend : option Z) t (fl : list Z) : Prop := {
  li_len : Z.of_nat (length (bucket t)) = nBucket t;
  li_pos : 0 < nBucket t;
  li_dummy : nBucket t = 1 -> bucket t = [Some tail] /\ maxload t = 0 /\ fl = [];
  li_marks : marks t fl;
  li_chain b : 0 <= b < nBucket t -> bucket_ok pend t (m_link t) (bucket t) b
}.

Record wf (pend : option Z) t (fl : list Z) : Prop := {
  wf_slots : slots_ok pend t fl;
  wf_linked : linked pend t fl
}.

Lemma in_tab_free pend t fl x e : slots_ok pend t fl -> in_tab pend t x e -> x ∉ fl.
Proof.
  intros SO (Hx & _ & He) Hin. pose proof (so_free _ _ _ SO) as C.
  destruct (list_elem_of_split _ _ Hin) as (l1 & l2 & ->). apply chain_suffix, chain_cons_inv in C.
  destruct C as (_ & _ & q & Hq & _). by eapply live_not_free.
Qed.

Lemma free_length pend t fl : slots_ok pend t fl -> 0 <= freelist_size t <= nElem t.
Proof.
  intros SO. rewrite (so_fsize _ _ _ SO). split; [lia|].
  pose proof (so_elem _ _ _ SO).
  pose proof (NoDup_range_length fl (nElem t) (chain_NoDup _ _ _ (so_free _ _ _ SO)) (so_frange _ _ _ SO)). lia.
Qed.

Lemma free_head pend t fl : slots_ok pend t fl ->
  match fl with
  | [] => freelist_size t = 0 /\ freelist_head t = tail
  | x :: _ => freelist_size t <> 0 /\ freelist_head t = x
  end.
Proof.
  intros SO. rewrite (so_fsize _ _ _ SO). pose proof (so_free _ _ _ SO) as C. destruct fl as [|x fl].
  - apply chain_end_inv in C. done.
  - apply chain_cons_inv in C as [-> _]. cbn. lia.
Qed.

Lemma chain_first_ne_delmark nx p l : chain nx p l -> p <> delmark.
Proof. pose proof delmark_tail. inversion 1; subst; lia. Qed.

Lemma hash_mod t (k : K) : 0 < nBucket t -> 0 <= hash k mod nBucket t < nBucket t.
Proof. intros. by apply Z.mod_pos_bound. Qed.

Lemma slots_ok_links pend t fl lk b nb ml s : slots_ok pend t fl -> length lk = length (m_link t) ->
  slots_ok pend (set_sorted (set_buckets (set_nodes t (m_data t) lk) b nb ml) s) fl.
Proof. intros [] Hl. constructor; cbn; try done. by rewrite Hl. Qed.

(** ** [relink_impl] *)

Lemma check_freelist_ok pend t fl : slots_ok pend t fl ->
  (forall x, x ∈ fl -> lnext (m_link t) x = Some delmark) -> check_freelist t = Ok tt.
Proof.
  intros SO M. unfold check_freelist. pose proof (free_length _ _ _ SO) as L. rewrite (so_fsize _ _ _ SO) in L.
  pose proof (so_free _ _ _ SO) as C.
  assert (length fl < S (S (Z.to_nat (nElem t))))%nat as F by lia. clear L SO.
  revert C F M. generalize (freelist_head t) as p. generalize (S (S (Z.to_nat (nElem t)))) as n.
  induction fl as [|x fl IH]; intros n p C F M; (destruct n as [|n]; [cbn in F; lia|]); cbn [loop].
  - rewrite (chain_end_inv _ _ C). done.
  - destruct (chain_cons_inv _ _ _ _ C) as (-> & Hx & q & Hq & C').
    rewrite (proj2 (Z.ltb_lt x delmark)) by lia.
    rewrite (rd_init_ok _ _ _ (M x (list_elem_of_here _ _))). cbn [rbind]. rewrite Z.eqb_refl. cbn [assert_ rbind].
    rewrite (free_next_ok _ _ _ Hq). cbn [rbind].
    apply IH; [done|cbn in F; lia|]. intros y Hy. apply M. by right.
Qed.

Record relink_inv t (fl : list Z) (j : Z) (s : list (option Z) * list (option Z)) : Prop := {
  ri_lk : length s.1 = length (m_link t);
  ri_pb : Z.of_nat (length s.2) = nBucket t;
  ri_later x : j <= x -> lnext s.1 x = lnext (m_link t) x;
  ri_free x : x ∈ fl -> lnext s.1 x = lnext (m_link t) x;
  ri_done x : 0 <= x < j -> x ∉ fl -> exists v, lnext s.1 x = Some v /\ v <> delmark;
  ri_chain b : 0 <= b < nBucket t -> exists p l, lnext s.2 b = Some p /\ chain (lnext s.1) p l /\
    forall x, x ∈ l <-> 0 <= x < j /\ exists e, live (m_data t) x = Some e /\ hash_of e mod nBucket t = b
}.

Lemma relink_one_ok t fl j s e : slots_ok None t fl -> 0 < nBucket t -> 0 <= j < nElem t ->
  live (m_data t) j = Some e -> relink_inv t fl j s ->
  exists s', relink_one t j s = Ok s' /\ relink_inv t fl (j + 1) s'.
Proof.
  intros SO Hnb Hj He I. destruct s as [lk pb]. unfold relink_one.
  pose proof (hash_mod t (key_of e) Hnb) as Hb. set (i := hash_of e mod nBucket t) in *. change (0 <= i < nBucket t) in Hb.
  destruct (ri_chain _ _ _ _ I i Hb) as (p & l & Hp & Hc & Hl). cbn [fst snd] in *.
  pose proof (ri_lk _ _ _ _ I) as Ll. pose proof (ri_pb _ _ _ _ I) as Lp. cbn [fst snd] in *.
  pose proof (so_link _ _ _ SO). pose proof (so_elem _ _ _ SO). pose proof (so_max _ _ _ SO).
  rewrite (elem_ok _ _ _ He). cbn [rbind]. fold i. rewrite (rd_init_ok _ _ _ Hp). cbn [rbind].
  rewrite wr_insert by lia. cbn [rbind]. rewrite wr_insert by lia. cbn [rbind].
  eexists. split; [done|].
  assert (forall p' l', chain (lnext lk) p' l' -> (forall x, x ∈ l' -> x < j) ->
    chain (lnext (<[Z.to_nat j := Some p]> lk)) p' l') as Frame.
  { intros p' l' C' Hlt. eapply chain_ext; [|done]. intros x Hx. rewrite lnext_insert by lia.
    specialize (Hlt x Hx). rewrite decide_False by lia. done. }
  constructor; cbn [fst snd].
  - by rewrite length_insert.
  - by rewrite length_insert.
  - intros x Hx. rewrite lnext_insert, decide_False by lia. apply (ri_later _ _ _ _ I). lia.
  - intros x Hx. rewrite lnext_insert by lia. case_decide as E; [|by apply (ri_free _ _ _ _ I)]. subst.
    exfalso. eapply (in_tab_free None t fl j e); [done| |done]. done.
  - intros x Hx Hf. rewrite lnext_insert by lia. case_decide as E.
    + exists p. split; [done|]. by eapply chain_first_ne_delmark.
    + apply (ri_done _ _ _ _ I); [lia|done].
  - intros b Hb'. rewrite lnext_insert by lia. case_decide as E.
    + subst b. exists j, (j :: l). split; [done|]. split.
      { econstructor; [lia| |].
        - rewrite lnext_insert, decide_True by lia. done.
        - apply Frame; [done|]. intros x Hx. apply Hl in Hx. lia. }
      intros x. rewrite elem_of_cons, Hl. split.
      * intros [->|(Hx & He')]; [split; [lia|]; exists e; done|]. split; [lia|done].
      * intros (Hx & He'). destruct (decide (x = j)); [by left|right]. split; [lia|done].
    + destruct (ri_chain _ _ _ _ I b Hb') as (p' & l' & Hp' & Hc' & Hl'). cbn [fst snd] in *.
      exists p', l'. split; [done|]. split.
      { apply Frame; [done|]. intros x Hx. apply Hl' in Hx. lia. }
      intros x. rewrite Hl'. split.
      * intros (Hx & He'). split; [lia|done].
      * intros (Hx & e' & He' & Hb2). split; [|by eauto]. destruct (decide (x = j)); [|lia]. subst.
        exfalso. apply E. assert (e' = e) by congruence. subst. done.
Qed.

Lemma relink_skip t fl j s : slots_ok None t fl -> j ∈ fl -> relink_inv t fl j s -> relink_inv t fl (j + 1) s.
Proof.
  intros SO Hj I. destruct I. constructor; try done.
  - intros x Hx. apply ri_later0. lia.
  - intros x Hx Hf. apply ri_done0; [|done]. destruct (decide (x = j)); [by subst|lia].
  - intros b Hb. destruct (ri_chain0 b Hb) as (p & l & Hp & Hc & Hl). exists p, l. split; [done|]. split; [done|].
    intros x. rewrite Hl. split; intros (Hx & e & He & Hh); (split; [|by eauto]); [lia|].
    destruct (decide (x = j)); [|lia]. subst. exfalso.
    eapply (in_tab_free None t fl j e); [done| |done]. split; [|done]. by apply (so_frange _ _ _ SO).
Qed.

(** [relink_impl] rebuilds the chains; before it the links of a table with
    an empty free list may be anything. *)
Lemma relink_ok t fl : slots_ok None t fl -> 1 < nBucket t -> Z.of_nat (length (bucket t)) = nBucket t ->
  (fl = [] \/ marks t fl) ->
  exists lk pb, relink_impl t = Ok (set_buckets (set_nodes t (m_data t) lk) pb (nBucket t) (maxload t)) /\
    wf None (set_buckets (set_nodes t (m_data t) lk) pb (nBucket t) (maxload t)) fl.
Proof.
  intros SO Hnb Hlb M. unfold relink_impl. rewrite (proj2 (Z.ltb_lt 1 (nBucket t))) by done.
  assert (forall x, x ∈ fl -> lnext (m_link t) x = Some delmark) as Hdel.
  { intros x Hx. destruct M as [->|M]; [by apply not_elem_of_nil in Hx|].
    destruct (M x (so_frange _ _ _ SO x Hx)) as (v & Hv & E). rewrite Hv. f_equal. by apply E. }
  rewrite (check_freelist_ok _ _ _ SO Hdel). cbn [rbind].
  destruct (for_inv (relink_inv t fl) (fun j s =>
      if freelist_size t =? 0 then relink_one t j s
      else let* l := rd_init (fst s) j in if negb (l =? delmark) then relink_one t j s else Ok s) 0 (nElem t)
      (m_link t, replicate (length (bucket t)) (Some tail))) as (s & -> & I).
  - apply (so_elem _ _ _ SO).
  - constructor; cbn [fst snd]; try done.
    + rewrite length_replicate. done.
    + intros x Hx. lia.
    + intros b Hb. exists tail, []. unfold lnext. rewrite at_replicate, decide_True by lia.
      split; [done|]. split; [constructor|]. intros x. split; [by intros ?%not_elem_of_nil|lia].
  - intros j s Hj I. pose proof (free_head _ _ _ SO) as FH.
    destruct (decide (j ∈ fl)) as [Hin|Hout].
    + destruct fl as [|x fl]; [by apply not_elem_of_nil in Hin|]. rewrite (proj2 (Z.eqb_neq _ _)) by apply FH.
      assert (lnext (fst s) j = Some delmark) as E by (rewrite (ri_free _ _ _ _ I) by done; auto).
      rewrite (rd_init_ok _ _ _ E). cbn [rbind]. rewrite Z.eqb_refl. exists s. split; [done|].
      by eapply relink_skip.
    + destruct (so_live _ _ _ SO j Hj Hout) as (e & He); [done|].
      destruct (relink_one_ok t fl j s e) as (s' & E' & I'); [done|lia|done|done|done|].
      destruct (Z.eqb_spec (freelist_size t) 0); [by eauto|].
      destruct M as [->|M]; [by destruct FH|]. destruct (M j Hj) as (v & Hv & Hd).
      rewrite (rd_init_ok (fst s) j v) by (rewrite (ri_later _ _ _ _ I) by lia; done). cbn [rbind].
      rewrite (proj2 (Z.eqb_neq v delmark)) by tauto. eauto.
  - cbn [rbind]. exists s.1, s.2. split; [done|]. split.
    + pose proof (slots_ok_links None t fl s.1 s.2 (nBucket t) (maxload t) (is_sorted t) SO (ri_lk _ _ _ _ I)) as HS. done.
    + constructor; cbn; try done.
      * apply (ri_pb _ _ _ _ I).
      * lia.
      * lia.
      * intros i Hi. cbn in Hi. cbn. destruct (decide (i ∈ fl)) as [Hin|Hout].
        { exists delmark. rewrite (ri_free _ _ _ _ I) by done. rewrite Hdel by done. tauto. }
        destruct (ri_done _ _ _ _ I i Hi Hout) as (v & Hv & Hne). eauto. exists v. tauto.
      * intros b Hb. destruct (ri_chain _ _ _ _ I b Hb) as (p & l & Hp & Hc & Hl). exists p, l.
        split; [done|]. split; [done|]. intros x. rewrite Hl. unfold in_tab. cbn. split.
        { intros (Hx & e & He & Hh). by exists e. } intros (e & (Hx & _ & He) & Hh). eauto.
Qed.

(** ** Growing the nodes, rehashing *)

Lemma at_resize {X} (x : X) l n cap i : 0 <= i < n -> n <= cap -> n <= Z.of_nat (length l) ->
  at_ (nl_resize x l n cap) i = at_ l i.
Proof.
  intros Hi Hn Hl. unfold nl_resize. rewrite (proj2 (Z.eqb_neq n 0)) by lia.
  rewrite at_app, length_take, decide_True, at_take, decide_True by lia. done.
Qed.

Lemma length_resize {X} (x : X) l n cap : 0 <= cap -> Z.of_nat (length (nl_resize x l n cap)) = cap.
Proof. intros. unfold nl_resize. rewrite length_app, length_take, length_replicate. destruct (n =? 0); cbn; lia. Qed.

(** The invariant only looks at the first [nElem] nodes. *)
Lemma wf_nodes pend t fl d l mx : wf pend t fl -> nElem t <= mx <= delmark ->
  Z.of_nat (length d) = mx -> Z.of_nat (length l) = mx ->
  (forall i, 0 <= i < nElem t -> at_ d i = at_ (m_data t) i) ->
  (forall i, 0 <= i < nElem t -> at_ l i = at_ (m_link t) i) ->
  wf pend (set_counts (set_nodes t d l) (nElem t) mx) fl.
Proof.
  intros [SO LI] Hmx Hd Hl Ed El.
  assert (forall i, 0 <= i < nElem t -> live d i = live (m_data t) i) as Elive by (intros; unfold live; by rewrite Ed).
  assert (forall i, 0 <= i < nElem t -> lnext l i = lnext (m_link t) i) as Elink by (intros; unfold lnext; by rewrite El).
  split.
  - destruct SO. constructor; cbn; try done; try lia.
    + eapply chain_ext; [|done]. intros x Hx. unfold fnext. rewrite Ed; [done|]. by apply so_frange0.
    + intros i Hi. rewrite Elive by done. by apply so_live0.
    + intros i j e e' Hi Hj. rewrite !Elive by done. by apply so_keys0.
  - pose proof (so_pend _ _ _ SO) as HP. destruct LI. constructor; cbn; try done.
    + intros i Hi. cbn. rewrite Elink by done. by apply li_marks0.
    + intros b Hb. destruct (li_chain0 b Hb) as (p & c & Hp & Hc & Hin). exists p, c. split; [done|]. split.
      { eapply chain_ext; [|done]. intros x Hx. apply Hin in Hx as (e & (Hx & _) & _). by rewrite Elink. }
      intros x. rewrite Hin. unfold in_tab. cbn.
      split; intros (e & (Hx & Hp' & He) & Hh); exists e; rewrite Elive in *; done.
Qed.

Lemma delmark_lt : delmark < 2 ^ 32.
Proof. unfold delmark, tail. lia. Qed.

Lemma reserve_nodes_ok pend t fl cap : wf pend t fl -> nElem t <= cap <= delmark ->
  exists d l mx, reserve_nodes t cap = Ok (set_counts (set_nodes t d l) (nElem t) mx) /\
    wf pend (set_counts (set_nodes t d l) (nElem t) mx) fl /\
    (forall i, 0 <= i < nElem t -> at_ d i = at_ (m_data t) i) /\
    mx = (if decide (cap = nElem t) then maxElem t else cap).
Proof.
  intros W Hcap. pose proof (wf_slots _ _ _ W) as SO. pose proof delmark_lt.
  pose proof (so_data _ _ _ SO). pose proof (so_link _ _ _ SO). pose proof (so_elem _ _ _ SO). pose proof (so_max _ _ _ SO).
  unfold reserve_nodes. rewrite (proj2 (Z.leb_le _ _)), (proj2 (Z.leb_le _ _)) by lia. cbn [verify rbind].
  destruct (Z.eqb_spec cap (maxElem t)) as [E|E]; cbn [negb andb].
  { exists (m_data t), (m_link t), (maxElem t).
    assert (wf pend (set_counts (set_nodes t (m_data t) (m_link t)) (nElem t) (maxElem t)) fl).
    { apply wf_nodes; (done || lia). }
    split; [by destruct t|]. split; [done|]. split; [done|]. case_decide; congruence. }
  destruct (Z.eqb_spec cap (nElem t)) as [E'|E']; cbn [negb andb].
  { exists (m_data t), (m_link t), (maxElem t).
    assert (wf pend (set_counts (set_nodes t (m_data t) (m_link t)) (nElem t) (maxElem t)) fl).
    { apply wf_nodes; (done || lia). }
    split; [by destruct t|]. split; [done|]. split; [done|]. by rewrite decide_True. }
  rewrite (proj2 (Z.ltb_lt _ _)) by lia. cbn [assert_ rbind]. rewrite (u32_small cap) by lia.
  do 3 eexists. split; [done|].
  assert (forall i, 0 <= i < nElem t -> at_ (nl_resize Raw (m_data t) (nElem t) cap) i = at_ (m_data t) i) as Ed.
  { intros. apply at_resize; lia. }
  split; [|by rewrite decide_False]. apply wf_nodes; try done.
  - apply length_resize. lia.
  - apply length_resize. lia.
  - intros. apply at_resize; lia.
Qed.

Lemma rehash_ok t fl n : wf None t fl ->
  exists lk pb nb ml, rehash t n = Ok (set_buckets (set_nodes t (m_data t) lk) pb nb ml, nb) /\
    1 < nb /\ wf None (set_buckets (set_nodes t (m_data t) lk) pb nb ml) fl.
Proof.
  intros [SO LI]. unfold rehash. destruct (next_prime_ok n) as (p & -> & Hp & _). cbn [rbind].
  rewrite (proj2 (Z.leb_le 5 p)) by lia. cbn [verify rbind].
  destruct (Z.eqb_spec p (nBucket t)) as [E|E]; cbn [negb].
  - exists (m_link t), (bucket t), p, (maxload t). subst. split; [by destruct t|]. split; [lia|]. by destruct t.
  - set (t1 := set_buckets t (replicate (Z.to_nat p) None) p (maxload t)).
    assert (slots_ok None t1 fl) as SO1.
    { pose proof (slots_ok_links None t fl (m_link t) (replicate (Z.to_nat p) None) p (maxload t) (is_sorted t) SO eq_refl) as HS.
      by destruct t. }
    destruct (relink_ok t1 fl SO1) as (lk & pb & E1 & W1); cbn.
    { lia. }
    { rewrite length_replicate. lia. }
    { right. intros i Hi. apply (li_marks _ _ _ LI). done. }
    fold t1. rewrite E1. cbn [rbind]. cbn in W1.
    exists lk, pb, p, (u32 (u64 (p * load_factor t) / 256)). split; [done|]. split; [lia|].
    destruct W1 as [SO2 LI2]. split.
    + destruct SO2. by constructor.
    + destruct LI2. constructor; try done. cbn. lia.
Qed.

(** ** Searching a chain *)

Lemma chain_find_walk t k n l p : chain (lnext (m_link t)) p l -> (length l < n)%nat ->
  (forall x, x ∈ l -> 0 <= x < nElem t /\ exists e, live (m_data t) x = Some e) ->
  exists r, loop n (fun p =>
    if negb (tail =? p) then
      let* _ := assert_ (p <? nElem t) in
      let* e := elem (m_data t) p in
      if equal k (key_of e) then Ok (inr (Some p))
      else let* p := rd_init (m_link t) p in Ok (inl p)
    else Ok (inr None)) p = Ok r /\
  match r with
  | Some x => x ∈ l /\ exists e, live (m_data t) x = Some e /\ equal k (key_of e) = true
  | None => forall x e, x ∈ l -> live (m_data t) x = Some e -> equal k (key_of e) = false
  end.
Proof.
  revert n p. induction l as [|x l IH]; intros n p C Hn Hl; (destruct n as [|n]; [cbn in Hn; lia|]); cbn [loop].
  - rewrite (chain_end_inv _ _ C), Z.eqb_refl. cbn. eexists. split; [done|]. by intros x e ?%not_elem_of_nil.
  - destruct (chain_cons_inv _ _ _ _ C) as (-> & Hx & q & Hq & C'). pose proof delmark_tail.
    rewrite (proj2 (Z.eqb_neq tail x)) by lia. cbn [negb].
    destruct (Hl x (list_elem_of_here _ _)) as (Hr & e & He).
    rewrite (proj2 (Z.ltb_lt x (nElem t))) by lia. cbn [assert_ rbind]. rewrite (elem_ok _ _ _ He). cbn [rbind].
    destruct (equal k (key_of e)) eqn:Ek; cbn [rbind].
    + eexists. split; [done|]. split; [by left|by eauto].
    + rewrite (rd_init_ok _ _ _ Hq). cbn [rbind].
      destruct (IH n q C') as (r & -> & Hr'); [cbn in Hn; lia|intros; apply Hl; by right|].
      exists r. split; [done|]. destruct r as [y|].
      * destruct Hr' as (? & ?). split; [by right|done].
      * intros y e' [->|Hy]%elem_of_cons He'; [congruence|by eauto].
Qed.

Definition has_key t (k : K) (i : Z) (e : A) : Prop := in_tab None t i e /\ equal k (key_of e) = true.

Lemma has_key_unique t fl k i j e e' : slots_ok None t fl -> has_key t k i e -> has_key t k j e' -> i = j.
Proof.
  intros SO ((Hi & _ & He) & Ei) ((Hj & _ & He') & Ej). apply (so_keys _ _ _ SO i j e e'); try done.
  apply equal_trans with k; [by rewrite equal_sym|done].
Qed.

Lemma chain_length t fl b l p : slots_ok None t fl -> chain (lnext (m_link t)) p l ->
  (forall x, x ∈ l <-> exists e, in_tab None t x e /\ hash_of e mod nBucket t = b) ->
  (length l < S (Z.to_nat (nElem t)))%nat.
Proof.
  intros SO C Hl. pose proof (so_elem _ _ _ SO).
  pose proof (NoDup_range_length l (nElem t) (chain_NoDup _ _ _ C)) as B.
  enough (forall x, x ∈ l -> 0 <= x < nElem t) by (specialize (B H0); lia).
  intros x Hx. apply Hl in Hx as (e & (? & _) & _). done.
Qed.

(** The search of [find_*] and [*insert*] for key [k] in bucket [hash k % nBucket]. *)
Lemma chain_find_ok t fl k : wf None t fl ->
  exists p r, rd_init (bucket t) (hash k mod nBucket t) = Ok p /\ chain_find t k p = Ok r /\
    match r with Some i => exists e, has_key t k i e | None => forall i e, ~ has_key t k i e end.
Proof.
  intros [SO LI]. destruct (li_chain _ _ _ LI (hash k mod nBucket t)) as (p & l & Hp & Hc & Hl).
  { apply hash_mod, (li_pos _ _ _ LI). }
  exists p. rewrite (rd_init_ok _ _ _ Hp).
  destruct (chain_find_walk t k (S (Z.to_nat (nElem t))) l p Hc) as (r & E & Hr).
  { by eapply chain_length. }
  { intros x Hx. apply Hl in Hx as (e & (? & _ & ?) & _). eauto. }
  exists r. split; [done|]. split; [done|]. destruct r as [x|].
  - destruct Hr as (Hx & e & He & Ek). exists e. split; [|done]. apply Hl in Hx as (e' & Hi & _). split; [apply Hi|done].
  - intros i e (Hi & Ek). enough (equal k (key_of e) = false) by congruence. apply (Hr i); [|apply Hi].
    apply Hl. exists e. split; [done|]. unfold hash_of. by rewrite (equal_hash k (key_of e)).
Qed.

Lemma find_i_ok t fl k : wf None t fl ->
  exists i, find_i t k = Ok i /\
    ((exists e, has_key t k i e) \/ (i = nElem t /\ forall j e, ~ has_key t k j e)).
Proof.
  intros W. unfold find_i, find_with_hash_i. rewrite Z.eqb_refl. cbn [assert_ rbind].
  destruct (chain_find_ok t fl k W) as (p & r & -> & Hr & Hk). cbn [rbind]. rewrite Hr. cbn [rbind].
  eexists. split; [done|]. destruct r; eauto.
Qed.

(** ** Insertion *)

(** [risk_slot_alloc] succeeds when a freed slot can be reused, when there is
    an allocated node, or when doubling [nElem] fits the 32-bit link type. *)
Definition room t (fl : list Z) : Prop :=
  (fl <> [] /\ m_enable_freelist_reuse t = true) \/ nElem t < maxElem t \/ nElem t < 2 ^ 31.

#[export] Instance room_dec t fl : Decision (room t fl).
Proof. unfold room. apply _. Defined.

Definition same_cfg t t' : Prop :=
  nBucket t' = nBucket t /\ maxload t' = maxload t /\ m_enable_auto_gc t' = m_enable_auto_gc t /\
  m_enable_freelist_reuse t' = m_enable_freelist_reuse t.

(** Taking the next unused node makes it the pending slot. *)
Lemma take_node_ok t fl : wf None t fl -> nElem t < maxElem t ->
  exists t', wr_link (set_counts t (nElem t + 1) (maxElem t)) (nElem t) tail = Ok t' /\
    wf (Some (nElem t)) t' fl /\ same_cfg t t' /\ nElem t' = nElem t + 1 /\ m_data t' = m_data t.
Proof.
  intros [SO LI] Hlt. pose proof (so_link _ _ _ SO). pose proof (so_elem _ _ _ SO).
  unfold wr_link. cbn. rewrite wr_insert by lia. cbn [rbind]. eexists. split; [done|].
  split; [|by repeat split]. split.
  - destruct SO. constructor; cbn; try done; try lia.
    + by rewrite length_insert.
    + intros x Hx. specialize (so_frange0 x Hx). lia.
    + intros i Hi Hf Hne. apply so_live0; [|done|done]. assert (i <> nElem t) by congruence. lia.
    + intros i j e e' Hi Hj Hni Hnj. apply so_keys0; try done.
      * assert (i <> nElem t) by congruence. lia.
      * assert (j <> nElem t) by congruence. lia.
    + intros s [= <-]. split; [lia|]. intros Hx. specialize (so_frange0 _ Hx). lia.
  - pose proof (so_frange _ _ _ SO) as FR. pose proof delmark_tail. destruct LI. constructor; cbn; try done.
    + intros i Hi. cbn in *. rewrite lnext_insert by lia. case_decide as E.
      * subst. exists tail. split; [done|]. split; [lia|]. intros Hx. specialize (FR _ Hx). lia.
      * apply li_marks0. lia.
    + intros b Hb. destruct (li_chain0 b Hb) as (p & l & Hp & Hc & Hl). exists p, l. split; [done|]. split.
      * eapply chain_ext; [|done]. intros x Hx. apply Hl in Hx as (e & (Hx & _) & _).
        rewrite lnext_insert, decide_False by lia. done.
      * intros x. rewrite Hl. unfold in_tab. cbn. split; intros (e & (Hx & Hn & He) & Hh); exists e.
        { split; [|done]. split; [lia|]. split; [assert (x <> nElem t) by lia; congruence|done]. }
        { split; [|done]. assert (x <> nElem t) by congruence. split; [lia|done]. }
Qed.

(** So does taking the head of the free list. *)
Lemma pop_free_ok t x fl : wf None t (x :: fl) ->
  exists q, fnext (m_data t) x = Some q /\ (q = tail \/ 0 <= q < nElem t) /\
  exists t', wr_link (set_free t q (u32 (freelist_size t - 1))) x tail = Ok t' /\
    wf (Some x) t' fl /\ same_cfg t t' /\ nElem t' = nElem t /\ m_data t' = m_data t.
Proof.
  intros [SO LI]. pose proof (so_free _ _ _ SO) as C. pose proof (chain_NoDup _ _ _ C) as ND.
  apply list.NoDup_cons in ND as [Hx ND]. pose proof (so_frange _ _ _ SO) as FR. pose proof (FR x) as Hxr.
  destruct (chain_cons_inv _ _ _ _ C) as (Hhd & Hxd & q & Hq & C').
  pose proof (so_link _ _ _ SO). pose proof (so_elem _ _ _ SO). pose proof (so_fsize _ _ _ SO) as Hfs. cbn in Hfs.
  pose proof (so_max _ _ _ SO). pose proof (free_length _ _ _ SO). pose proof delmark_lt. pose proof delmark_tail.
  exists q. split; [done|]. split.
  { inversion C'; subst; [by left|right]. apply FR. right. by left. }
  assert (0 <= x < nElem t) as Hxn by (apply Hxr; by left).
  unfold wr_link. cbn. rewrite wr_insert by lia. cbn [rbind]. eexists. split; [done|].
  split; [|by repeat split]. split.
  - destruct SO. constructor; cbn; try done.
    + by rewrite length_insert.
    + rewrite u32_small by lia. lia.
    + intros y Hy. apply FR. by right.
    + intros i Hi Hf Hne. apply so_live0; [done| |done]. apply not_elem_of_cons. split; [congruence|done].
    + intros i j e e' Hi Hj _ _. by apply so_keys0.
    + intros s [= <-]. done.
  - destruct LI. constructor; cbn; try done.
    + intros E. by destruct (li_dummy0 E) as (_ & _ & ?).
    + intros i Hi. cbn in *. rewrite lnext_insert by lia. case_decide as E.
      * subst. exists tail. split; [done|]. split; [lia|done].
      * destruct (li_marks0 i Hi) as (v & Hv & Ev). exists v. split; [done|]. rewrite Ev, elem_of_cons. split; [by intros [->|]|by right].
    + intros b Hb. destruct (li_chain0 b Hb) as (p & l & Hp & Hc & Hl). exists p, l. split; [done|].
      assert (forall e, ~ in_tab None t x e) as Hnx.
      { intros e He. eapply (in_tab_free None t (x :: fl)); [done|done|by left]. }
      split.
      * eapply chain_ext; [|done]. intros y Hy. apply Hl in Hy as (e & Hy & _).
        rewrite lnext_insert by lia. rewrite decide_False; [done|]. intros ->. by eapply Hnx.
      * intros y. rewrite Hl. unfold in_tab. cbn. split; intros (e & (Hy & Hn & He) & Hh); exists e.
        { split; [|done]. split; [done|]. split; [|done]. intros [= ->]. by eapply (Hnx e). }
        { done. }
Qed.

Lemma alloc_ok t fl : wf None t fl -> room t fl ->
  exists t' slot fl', risk_slot_alloc t = Ok (t', slot) /\ wf (Some slot) t' fl' /\ same_cfg t t' /\
    (forall i, 0 <= i < nElem t -> live (m_data t') i = live (m_data t) i) /\
    match fl, m_enable_freelist_reuse t with
    | x :: rest, true => slot = x /\ fl' = rest /\ nElem t' = nElem t
    | _, _ => slot = nElem t /\ fl' = fl /\ nElem t' = nElem t + 1
    end.
Proof.
  intros W R. pose proof (wf_slots _ _ _ W) as SO. pose proof (free_head _ _ _ SO) as FH.
  pose proof (so_elem _ _ _ SO). pose proof (so_max _ _ _ SO).
  assert (nElem t < maxElem t \/ nElem t < 2 ^ 31 ->
    exists t', (let* r := alloc_no_reuse t in let '(t, slot) := r in
      let* t := wr_link t slot tail in Ok (t, slot)) = Ok (t', nElem t) /\
    wf (Some (nElem t)) t' fl /\ same_cfg t t' /\ (forall i, 0 <= i < nElem t -> live (m_data t') i = live (m_data t) i) /\
    nElem t' = nElem t + 1) as New.
  { intros R'. unfold alloc_no_reuse. destruct (Z.eqb_spec (nElem t) (maxElem t)) as [E|E].
    - assert (nElem t + 1 <= (if 0 =? nElem t then 1 else u32 (2 * nElem t)) <= delmark) as Hcap.
      { unfold delmark, tail in *. destruct (Z.eqb_spec 0 (nElem t)); [lia|]. rewrite u32_small by lia. lia. }
      destruct (reserve_nodes_ok None t fl (if 0 =? nElem t then 1 else u32 (2 * nElem t)) W) as (d & l & mx & -> & W1 & Ed & Hmx).
      { lia. }
      cbn [rbind]. assert (nElem t < mx) by (rewrite Hmx; case_decide; lia).
      destruct (take_node_ok _ fl W1) as (t' & E' & W2 & C2 & N2 & D2); [done|].
      cbn [nElem set_counts maxElem]. rewrite (proj2 (Z.ltb_lt _ _)) by done. cbn [assert_ rbind].
      cbn [nElem set_counts maxElem] in E', W2, N2. rewrite E'. cbn [rbind]. exists t'. split; [done|]. split; [done|].
      split; [done|]. split; [|done]. intros i Hi. rewrite D2. cbn. unfold live. by rewrite Ed.
    - cbn [rbind]. rewrite (proj2 (Z.ltb_lt _ _)) by lia. cbn [assert_ rbind].
      destruct (take_node_ok t fl W) as (t' & -> & W2 & C2 & N2 & D2); [lia|]. cbn [rbind].
      exists t'. split; [done|]. split; [done|]. split; [done|]. split; [|done]. by rewrite D2. }
  unfold risk_slot_alloc. destruct fl as [|x fl].
  - destruct FH as [-> ->]. rewrite !Z.eqb_refl. cbn [assert_ rbind].
    destruct New as (t' & -> & W' & C' & D' & N'); [destruct R as [[? _]|]; [done|done]|].
    exists t', (nElem t), []. done.
  - rewrite (proj2 (Z.eqb_neq 0 _)) by (symmetry; apply FH).
    destruct (m_enable_freelist_reuse t) eqn:Er; cbn [negb].
    + destruct FH as [_ ->]. destruct (pop_free_ok t x fl W) as (q & Hq & Hqr & t' & E & W' & C' & N' & D').
      pose proof (so_frange _ _ _ SO x (list_elem_of_here _ _)).
      rewrite (proj2 (Z.ltb_lt x _)) by lia. cbn [assert_ rbind].
      destruct (li_marks _ _ _ (wf_linked _ _ _ W) x) as (v & Hv & Ev); [done|]. rewrite (rd_init_ok _ _ _ Hv). cbn [rbind].
      rewrite (proj2 (Z.eqb_eq v delmark)) by (apply Ev; by left). cbn [assert_ rbind].
      rewrite (free_next_ok _ _ _ Hq). cbn [rbind].
      replace ((q <? nElem t) || (q =? tail)) with true by lia. cbn [assert_ rbind]. rewrite E. cbn [rbind].
      exists t', x, fl. rewrite D'. done.
    + destruct New as (t' & -> & W' & C' & D' & N'); [destruct R as [[_ ?]|]; [congruence|done]|].
      exists t', (nElem t), (x :: fl). done.
Qed.

(** The slot array: what each index holds. *)
Definition slots t : list (option A) := live (m_data t) <$> seqZ 0 (nElem t).

Lemma length_slots pend t fl : slots_ok pend t fl -> Z.of_nat (length (slots t)) = nElem t.
Proof. intros SO. pose proof (so_elem _ _ _ SO). unfold slots. rewrite length_fmap, length_seqZ. lia. Qed.

Lemma at_slots t i : 0 <= i < nElem t -> at_ (slots t) i = Some (live (m_data t) i).
Proof.
  intros Hi. unfold slots, at_. rewrite decide_True, list_lookup_fmap, lookup_seqZ_lt by lia.
  cbn. do 2 f_equal. lia.
Qed.

Lemma slots_eq t l : 0 <= nElem t -> Z.of_nat (length l) = nElem t ->
  (forall i, 0 <= i < nElem t -> at_ l i = Some (live (m_data t) i)) -> slots t = l.
Proof.
  intros Hn Hl H. apply list_eq. intros i. destruct (decide (Z.of_nat i < nElem t)) as [Hi|Hi].
  - pose proof (at_slots t (Z.of_nat i)) as E1. pose proof (H (Z.of_nat i)) as E2. unfold at_ in E1, E2.
    rewrite decide_True, Nat2Z.id in E1, E2 by lia. rewrite E1, E2 by lia. done.
  - rewrite !lookup_ge_None_2; [done|lia|]. unfold slots. rewrite length_fmap, length_seqZ. lia.
Qed.

Definition fresh pend t (e : A) : Prop :=
  forall x e', in_tab pend t x e' -> equal (key_of e) (key_of e') = false.

(** Constructing an element in the pending slot, and admitting it. *)
Lemma promote t fl s e : slots_ok (Some s) t fl -> live (m_data t) s = Some e -> fresh (Some s) t e ->
  slots_ok None t fl.
Proof.
  intros SO He F. destruct (so_pend _ _ _ SO s eq_refl) as [Hs Hf]. destruct SO. constructor; try done.
  - intros i Hi Hfi _. destruct (decide (i = s)) as [->|]; [by eauto|]. apply so_live0; [done|done|congruence].
  - intros i j e1 e2 Hi Hj _ _ H1 H2 Eq.
    destruct (decide (i = s)) as [->|Ni], (decide (j = s)) as [->|Nj]; [done| | |].
    + assert (e1 = e) as -> by congruence. enough (equal (key_of e) (key_of e2) = false) by congruence.
      apply (F j). split; [done|]. split; [congruence|done].
    + assert (e2 = e) as -> by congruence. enough (equal (key_of e) (key_of e1) = false) by (rewrite equal_sym in Eq; congruence).
      apply (F i). split; [done|]. split; [congruence|done].
    + apply (so_keys0 i j e1 e2); (done || congruence).
Qed.

Lemma slots_pend_data t fl s c : slots_ok (Some s) t fl ->
  slots_ok (Some s) (set_nodes t (<[Z.to_nat s := c]> (m_data t)) (m_link t)) fl.
Proof.
  intros SO. destruct (so_pend _ _ _ SO s eq_refl) as [Hs Hf]. pose proof (so_data _ _ _ SO). pose proof (so_elem _ _ _ SO).
  assert (forall i, i <> s -> live (<[Z.to_nat s := c]> (m_data t)) i = live (m_data t) i) as Hl.
  { intros i Hi. rewrite live_insert, decide_False by lia. done. }
  destruct SO. constructor; cbn; try done.
  - by rewrite length_insert.
  - eapply chain_ext; [|done]. intros x Hx. rewrite fnext_insert by lia. rewrite decide_False; [done|]. by intros ->.
  - intros i Hi Hfi Hne. rewrite Hl by congruence. by apply so_live0.
  - intros i j e e' Hi Hj Hni Hnj. rewrite !Hl by congruence. by apply so_keys0.
Qed.

Lemma wf_pend_data t fl s c : wf (Some s) t fl ->
  wf (Some s) (set_nodes t (<[Z.to_nat s := c]> (m_data t)) (m_link t)) fl.
Proof.
  intros [SO LI]. split; [by apply slots_pend_data|]. destruct (so_pend _ _ _ SO s eq_refl) as [Hs _].
  pose proof (so_data _ _ _ SO). pose proof (so_elem _ _ _ SO). destruct LI. constructor; try done.
  intros b Hb. destruct (li_chain0 b Hb) as (p & l & Hp & Hc & Hl). exists p, l. split; [done|]. split; [done|].
  intros x. rewrite Hl. unfold in_tab. cbn. split; intros (e & (Hx & Hn & He) & Hh); exists e; (split; [|done]); (split; [done|]); (split; [done|]).
  - rewrite live_insert, decide_False by (lia || congruence). done.
  - rewrite live_insert, decide_False in He by (lia || congruence). done.
Qed.

Lemma link_new_ok t fl slot e : wf (Some slot) t fl -> nBucket t <> 1 -> fresh (Some slot) t e ->
  exists t', link_new t slot (hash_of e mod nBucket t) e = Ok t' /\ wf None t' fl /\ nElem t' = nElem t /\
    m_data t' = <[Z.to_nat slot := Live e]> (m_data t) /\
    m_enable_auto_gc t' = m_enable_auto_gc t /\ m_enable_freelist_reuse t' = m_enable_freelist_reuse t.
Proof.
  intros [SO LI] Hnb F. destruct (so_pend _ _ _ SO slot eq_refl) as [Hs Hf].
  pose proof (so_data _ _ _ SO). pose proof (so_elem _ _ _ SO). pose proof (so_link _ _ _ SO). pose proof (so_max _ _ _ SO).
  pose proof (hash_mod t (key_of e) (li_pos _ _ _ LI)) as Hb. set (b0 := hash_of e mod nBucket t). change (0 <= b0 < nBucket t) in Hb.
  destruct (li_chain _ _ _ LI b0 Hb) as (p & l & Hp & Hc & Hl). pose proof (li_len _ _ _ LI).
  unfold link_new. rewrite wr_insert by lia. cbn [rbind]. cbn [set_nodes bucket]. rewrite (rd_init_ok _ _ _ Hp). cbn [rbind].
  unfold wr_link. cbn. rewrite wr_insert by lia. cbn [rbind]. unfold wr_bucket. cbn. rewrite (proj2 (Z.eqb_neq _ _)) by done.
  cbn [negb assert_ rbind]. rewrite wr_insert by lia. cbn [rbind]. eexists. split; [done|].
  split; [|done]. split.
  - pose proof (slots_pend_data t fl slot (Live e) SO) as SO1. eapply promote in SO1.
    + by apply (slots_ok_links _ _ _ _ _ _ _ false SO1), length_insert.
    + cbn. rewrite live_insert, decide_True by lia. done.
    + intros x e' (Hx & Hn & He'). cbn in *. rewrite live_insert, decide_False in He' by (lia || congruence). by apply (F x).
  - assert (Frame : forall p' l', chain (lnext (m_link t)) p' l' -> (forall x, x ∈ l' -> exists e, in_tab (Some slot) t x e) ->
      chain (lnext (<[Z.to_nat slot := Some p]> (m_link t))) p' l').
    { intros p' l' C' Hin. eapply chain_ext; [|done]. intros x Hx. destruct (Hin x Hx) as (e' & _ & Hn & _).
      rewrite lnext_insert by lia. rewrite decide_False by congruence. done. }
    assert (Live' : forall x e', in_tab None (set_nodes t (<[Z.to_nat slot := Live e]> (m_data t)) (m_link t)) x e' <->
      (x = slot /\ e' = e) \/ in_tab (Some slot) t x e').
    { intros x e'. unfold in_tab. cbn. rewrite live_insert by lia. case_decide as E.
      - subst. split; [intros (_ & _ & [= ->]); by left|]. intros [[_ ->]|(_ & ? & _)]; [done|congruence].
      - split; [intros (? & _ & ?); right; split; [done|]; split; [congruence|done]|]. intros [[? _]|(? & _ & ?)]; done. }
    destruct LI. constructor; cbn; try done.
    + by rewrite length_insert.
    + intros i Hi. cbn in *. rewrite lnext_insert by lia. case_decide as E; [|by apply li_marks0].
      subst. exists p. split; [done|]. pose proof (chain_first_ne_delmark _ _ _ Hc). done.
    + intros b Hb'. unfold bucket_ok. cbn. rewrite lnext_insert by lia. case_decide as E.
      * subst b. exists slot, (slot :: l). split; [done|]. split.
        { econstructor; [lia| |].
          - rewrite lnext_insert, decide_True by lia. done.
          - apply Frame; [done|]. intros x Hx. apply Hl in Hx as (e' & ? & _). eauto. }
        intros x. rewrite elem_of_cons, Hl. split.
        { intros [->|(e' & He' & Hh)]; [exists e|exists e']; (split; [apply Live'|done]); [by left|by right]. }
        { intros (e' & He' & Hh). apply Live' in He' as [[-> ->]|He']; [by left|right]. eauto. }
      * destruct (li_chain0 b Hb') as (p' & l' & Hp' & Hc' & Hl'). exists p', l'. split; [done|]. split.
        { apply Frame; [done|]. intros x Hx. apply Hl' in Hx as (e' & ? & _). eauto. }
        intros x. rewrite Hl'. split.
        { intros (e' & He' & Hh). exists e'. split; [apply Live'; by right|done]. }
        { intros (e' & He' & Hh). apply Live' in He' as [[-> ->]|He']; [exfalso; apply E; by symmetry|]. eauto. }
Qed.

Definition same_opts t t' : Prop :=
  m_enable_auto_gc t' = m_enable_auto_gc t /\ m_enable_freelist_reuse t' = m_enable_freelist_reuse t.

Lemma same_opts_trans t t' t'' : same_opts t t' -> same_opts t' t'' -> same_opts t t''.
Proof. unfold same_opts. intros [] []. split; congruence. Qed.

Lemma gold_grow_ok t fl k : wf None t fl ->
  exists t', grow_if_needed t (hash k) (hash k mod nBucket t) = Ok (t', hash k mod nBucket t') /\ wf None t' fl /\
    nBucket t' <> 1 /\ same_opts t t' /\ nElem t' = nElem t /\ maxElem t' = maxElem t /\ m_data t' = m_data t.
Proof.
  intros W. unfold grow_if_needed. destruct (Z.leb_spec (maxload t) (u32 (nElem t - freelist_size t))) as [H|H].
  - destruct (rehash_ok t fl (u64 (nBucket t + 1)) W) as (lk & pb & nb & ml & -> & Hnb & W'). cbn [rbind fst snd].
    exists (set_buckets (set_nodes t (m_data t) lk) pb nb ml).
    split; [done|]. split; [done|]. split; [cbn; lia|]. by repeat split.
  - exists t. split; [done|]. split; [done|]. split; [|done]. intros E.
    destruct (li_dummy _ _ _ (wf_linked _ _ _ W) E) as (_ & Em & _).
    pose proof (Z.mod_pos_bound (nElem t - freelist_size t) (2 ^ 32)). unfold u32 in H. lia.
Qed.

Lemma insert_dup t fl e i e' : wf None t fl -> has_key t (key_of e) i e' -> insert_i t e = Ok (t, (i, false)).
Proof.
  intros W Hi. unfold insert_i, lazy_insert_elem_with_hash_i. rewrite Z.eqb_refl. cbn [assert_ rbind].
  destruct (chain_find_ok t fl (key_of e) W) as (p & r & -> & Hr & Hk). cbn [rbind]. rewrite Hr. cbn [rbind].
  destruct r as [j|]; [|by apply Hk in Hi]. destruct Hk as (e'' & Hk).
  by rewrite (has_key_unique t fl _ _ _ _ _ (wf_slots _ _ _ W) Hk Hi).
Qed.

Lemma gold_insert_ok t fl e : wf None t fl -> room t fl ->
  (exists i e', insert_i t e = Ok (t, (i, false)) /\ has_key t (key_of e) i e') \/
  (forall i e', ~ has_key t (key_of e) i e') /\
  exists t' i fl', insert_i t e = Ok (t', (i, true)) /\ wf None t' fl' /\ same_opts t t' /\
    sp_add (slots t) fl (m_enable_freelist_reuse t) e = (slots t', fl', i).
Proof.
  intros W R. unfold insert_i, lazy_insert_elem_with_hash_i. rewrite Z.eqb_refl. cbn [assert_ rbind].
  destruct (chain_find_ok t fl (key_of e) W) as (p & r & -> & Hr & Hk). cbn [rbind]. rewrite Hr. cbn [rbind].
  destruct r as [i|]; [left; destruct Hk as (e' & Hk); by eauto|]. right. split; [done|].
  destruct (gold_grow_ok t fl (key_of e) W) as (t1 & -> & W1 & Nb1 & O1 & N1 & M1 & D1). cbn [rbind].
  assert (room t1 fl) as R1. { destruct O1 as [_ O1]. unfold room. by rewrite O1, N1, M1. }
  destruct (alloc_ok t1 fl W1 R1) as (t2 & slot & fl2 & -> & W2 & C2 & L2 & S2). cbn [rbind].
  pose proof (wf_slots _ _ _ W2) as SO2. pose proof (so_pend _ _ _ SO2 slot eq_refl) as [Hs2 _].
  assert (nElem t1 <= nElem t2 /\ forall x, 0 <= x < nElem t2 -> x <> slot -> 0 <= x < nElem t1) as [Hle Hx].
  { destruct fl as [|y fl]; [|destruct (m_enable_freelist_reuse t1)]; destruct S2 as (-> & _ & ->); (split; [lia|]); intros; lia. }
  assert (fresh (Some slot) t2 e) as F.
  { intros x e' (Hxr & Hne & He'). destruct (equal (key_of e) (key_of e')) eqn:E; [|done]. exfalso.
    assert (0 <= x < nElem t1) by (apply Hx; [done|congruence]). apply (Hk x e'). split; [|done]. split; [by rewrite <- N1|].
    split; [done|]. by rewrite <- D1, <- L2. }
  destruct C2 as (Nb2 & _ & O2). fold (hash_of e). rewrite <- Nb2.
  destruct (link_new_ok t2 fl2 slot e W2) as (t3 & -> & W3 & N3 & D3 & O3); [by rewrite Nb2|done|]. cbn [rbind].
  exists t3, slot, fl2. split; [done|]. split; [done|].
  split. { eapply same_opts_trans; [done|]. by eapply same_opts_trans. }
  pose proof (wf_slots _ _ _ W) as SO. pose proof (wf_slots _ _ _ W3) as SO3.
  pose proof (so_elem _ _ _ SO3). pose proof (so_data _ _ _ SO3). pose proof (so_elem _ _ _ SO). pose proof (so_data _ _ _ SO).
  pose proof (so_data _ _ _ SO2). pose proof (so_elem _ _ _ SO2). pose proof (length_slots _ _ _ SO) as LS.
  assert (forall i, 0 <= i < nElem t2 -> live (m_data t3) i = if decide (i = slot) then Some e else live (m_data t) i) as L3.
  { intros i Hi. rewrite D3, live_insert by lia. case_decide; [done|]. rewrite L2, D1; [done|]. by apply Hx. }
  destruct O1 as [_ Or]. rewrite <- Or. unfold sp_add.
  assert (New : slot = nElem t1 /\ nElem t2 = nElem t1 + 1 -> slots t ++ [Some e] = slots t3 /\ Z.of_nat (length (slots t)) = slot).
  { intros [-> En]. split; [|lia]. symmetry. apply slots_eq; [lia| |].
    - rewrite length_app. cbn. lia.
    - intros i Hi. rewrite at_app. case_decide as E1; rewrite L3 by lia; case_decide; try lia.
      + rewrite at_slots by lia. done.
      + replace (i - Z.of_nat (length (slots t))) with 0 by lia. done. }
  destruct fl as [|y fl].
  { destruct S2 as (? & -> & ?). destruct New as [-> ->]; done. }
  destruct (m_enable_freelist_reuse t1).
  - destruct S2 as (-> & -> & En). repeat f_equal. symmetry. apply slots_eq; [lia| |].
    + rewrite length_insert. lia.
    + intros i Hi. rewrite at_insert, L3 by lia. case_decide; [done|]. apply at_slots; lia.
  - destruct S2 as (? & -> & ?). destruct New as [-> ->]; done.
Qed.

(** ** Unlinking and freeing *)

(** The reference that follows the nodes [l] of the chain of bucket [b]. *)
Definition ref_after (b : Z) (l : list Z) : lref := match list.last l with None => AtBucket b | Some y => AtLink y end.

Lemma chain_app_hd nx p l1 y l2 : chain nx p (l1 ++ y :: l2) -> nx y = Some (hd tail l2).
Proof.
  intros C. apply chain_suffix in C. destruct (chain_cons_inv _ _ _ _ C) as (_ & _ & q & Hq & C').
  rewrite Hq. f_equal. by inversion C'.
Qed.

Lemma rd_ref_ok t b p l1 l2 : lnext (bucket t) b = Some p -> chain (lnext (m_link t)) p (l1 ++ l2) ->
  rd_ref t (ref_after b l1) = Ok (hd tail l2).
Proof.
  intros Hp C. unfold ref_after. destruct l1 as [|y l1 _] using rev_ind.
  - cbn in *. rewrite (rd_init_ok _ _ _ Hp). f_equal. by inversion C.
  - rewrite last_snoc. cbn. apply rd_init_ok. rewrite <- app_assoc in C. by eapply chain_app_hd.
Qed.

Lemma slots_ok_pend t fl x e : slots_ok None t fl -> in_tab None t x e -> slots_ok (Some x) t fl.
Proof.
  intros SO Hx. pose proof (in_tab_free None t fl x e SO Hx) as NF. destruct Hx as (Hx & _ & _). destruct SO. constructor; try done.
  - intros i Hi Hf _. by apply so_live0.
  - intros i j e1 e2 Hi Hj _ _. by apply so_keys0.
  - intros s [= <-]. done.
Qed.

(** The members of every chain once [x] is no longer in the table. *)
Lemma unlink_members t b l1 x l2 : NoDup (l1 ++ x :: l2) ->
  (forall y, y ∈ l1 ++ x :: l2 <-> exists e, in_tab None t y e /\ hash_of e mod nBucket t = b) ->
  (forall y, y ∈ l1 ++ l2 <-> exists e, in_tab (Some x) t y e /\ hash_of e mod nBucket t = b) /\
  (forall (b' : Z) (l' : list Z), b' <> b -> (forall y, y ∈ l' <-> exists e, in_tab None t y e /\ hash_of e mod nBucket t = b') ->
    (forall y, y ∈ l' <-> exists e, in_tab (Some x) t y e /\ hash_of e mod nBucket t = b') /\
    (forall y, y ∈ l' -> y ∉ l1 ++ x :: l2)).
Proof.
  intros ND Hl. assert (Hxin : x ∈ l1 ++ x :: l2) by (apply elem_of_app; right; left).
  destruct (proj1 (Hl x) Hxin) as (ex & (Hxr & _ & Hex) & Hxh).
  assert (Hxl : forall y, y ∈ l1 ++ l2 -> y <> x).
  { intros y Hy ->. apply list.NoDup_app in ND as (_ & N1 & N2). apply list.NoDup_cons in N2 as [N2 _].
    apply elem_of_app in Hy as [Hy|Hy]; [|done]. eapply N1; [done|by left]. }
  split.
  - intros y. split.
    + intros Hy. pose proof (Hxl y Hy). assert (y ∈ l1 ++ x :: l2) as Hy' by (rewrite elem_of_app, elem_of_cons in *; tauto).
      apply Hl in Hy' as (e & (? & _ & ?) & ?). exists e. split; [|done]. split; [done|]. split; [congruence|done].
    + intros (e & (Hy & Hne & He) & Hh). assert (y ∈ l1 ++ x :: l2) as Hy' by (apply Hl; exists e; done).
      rewrite elem_of_app, elem_of_cons in *. destruct Hy' as [?|[->|?]]; [tauto|congruence|tauto].
  - intros b' l' Hne Hl'. split.
    + intros y. rewrite Hl'. split; intros (e & (Hy & ? & He) & Hh); exists e; (split; [|done]); (split; [done|]); (split; [|done]); [|done].
      intros [= <-]. apply Hne. rewrite <- Hh, <- Hxh. congruence.
    + intros y (e & (Hy & _ & He) & Hh)%Hl' (e' & (_ & _ & He') & Hh')%Hl. apply Hne. rewrite <- Hh, <- Hh'. congruence.
Qed.

Lemma chain_not_dummy t fl b p x l : linked None t fl -> 0 <= b < nBucket t -> lnext (bucket t) b = Some p ->
  chain (lnext (m_link t)) p l -> x ∈ l -> nBucket t <> 1.
Proof.
  intros LI Hb Hp C Hx E. destruct (li_dummy _ _ _ LI E) as (Eb & _). assert (b = 0) as Eb0 by lia. rewrite Eb0, Eb in Hp.
  assert (p = tail) as -> by (change (Some tail = Some p) in Hp; congruence). apply chain_nil_inv in C as ->.
  by apply not_elem_of_nil in Hx.
Qed.

(** Bypassing slot [x] in its chain makes it pending. *)
Lemma unlink_ok t fl b p l1 x l2 : wf None t fl -> 0 <= b < nBucket t -> lnext (bucket t) b = Some p ->
  chain (lnext (m_link t)) p (l1 ++ x :: l2) ->
  (forall y, y ∈ l1 ++ x :: l2 <-> exists e, in_tab None t y e /\ hash_of e mod nBucket t = b) ->
  nBucket t <> 1 /\ exists lk pb, (let* l := rd_init (m_link t) x in wr_ref t (ref_after b l1) l) =
      Ok (set_buckets (set_nodes t (m_data t) lk) pb (nBucket t) (maxload t)) /\
    wf (Some x) (set_buckets (set_nodes t (m_data t) lk) pb (nBucket t) (maxload t)) fl.
Proof.
  intros [SO LI] Hb Hp C Hl. pose proof (chain_app_hd _ _ _ _ _ C) as Hx. rewrite (rd_init_ok _ _ _ Hx). cbn [rbind].
  set (q := hd tail l2) in *. pose proof (chain_NoDup _ _ _ C) as ND. pose proof (so_link _ _ _ SO). pose proof (so_elem _ _ _ SO).
  assert (Hin : forall y, y ∈ l1 ++ x :: l2 -> 0 <= y < nElem t) by (intros y Hy; apply Hl in Hy as (e & (? & _) & _); done).
  assert (Hxin : x ∈ l1 ++ x :: l2) by (apply elem_of_app; right; left).
  destruct (proj1 (Hl x) Hxin) as (ex & Hxt & _). pose proof Hxt as (Hxr & _ & _).
  pose proof (slots_ok_pend t fl x ex SO Hxt) as SO'. destruct (unlink_members t b l1 x l2 ND Hl) as [Hmem Hoth].
  pose proof (chain_not_dummy t fl b p x _ LI Hb Hp C Hxin) as Hnb.
  split; [done|]. unfold ref_after. destruct l1 as [|y l1 _] using rev_ind; cbn [app] in *.
  - pose proof (li_len _ _ _ LI). cbn. unfold wr_bucket. rewrite (proj2 (Z.eqb_neq _ _)) by done. cbn [negb assert_ rbind].
    rewrite wr_insert by lia. cbn [rbind]. exists (m_link t), (<[Z.to_nat b := Some q]> (bucket t)).
    split; [by destruct t|]. split.
    { pose proof (slots_ok_links (Some x) t fl (m_link t) (<[Z.to_nat b := Some q]> (bucket t)) (nBucket t) (maxload t) (is_sorted t) SO' eq_refl). done. }
    destruct LI. constructor; cbn; try done.
    + by rewrite length_insert.
    + intros b' Hb'. unfold bucket_ok. cbn. rewrite lnext_insert by lia. case_decide as E.
      * subst b'. exists q, l2. split; [done|]. split; [|exact Hmem].
        destruct (chain_cons_inv _ _ _ _ C) as (-> & _ & q' & Hq' & C'). congruence.
      * destruct (li_chain0 b' Hb') as (p' & l' & Hp' & Hc' & Hl'). exists p', l'. split; [done|]. split; [done|].
        by apply (Hoth b' l').
  - rewrite last_snoc. rewrite <- app_assoc in *. cbn [app] in *.
    assert (0 <= y < nElem t) as Hy by (apply Hin, elem_of_app; right; left).
    cbn. unfold wr_link. rewrite wr_insert by lia. cbn [rbind]. exists (<[Z.to_nat y := Some q]> (m_link t)), (bucket t).
    split; [by destruct t|]. split.
    { pose proof (slots_ok_links (Some x) t fl (<[Z.to_nat y := Some q]> (m_link t)) (bucket t) (nBucket t) (maxload t) (is_sorted t) SO') as HS.
      rewrite length_insert in HS. by apply HS. }
    destruct LI. constructor; cbn; try done.
    + intros i Hi. cbn in *. rewrite lnext_insert by lia. case_decide as E; [|by apply li_marks0]. subst i.
      exists q. split; [done|]. destruct (proj1 (Hl y)) as (ey & Hey & _); [apply elem_of_app; right; left|].
      pose proof (in_tab_free _ _ _ _ _ SO Hey). split; [|done]. intros Hq. exfalso.
      destruct (chain_cons_inv _ _ _ _ (chain_suffix _ _ (l1 ++ [y]) x l2 ltac:(rewrite <- app_assoc; exact C))) as (_ & _ & q' & Hq' & C').
      rewrite Hx in Hq'. injection Hq' as <-. by eapply chain_first_ne_delmark.
    + intros b' Hb'. destruct (li_chain0 b' Hb') as (p' & l' & Hp' & Hc' & Hl').
      destruct (decide (b' = b)) as [->|Hne].
      * assert (p' = p) as -> by congruence. exists p, (l1 ++ y :: l2). split; [done|]. split.
        { apply (chain_unlink (lnext (m_link t)) _ p l1 y x l2 q C Hx).
          - rewrite lnext_insert, decide_True by lia. done.
          - intros z Hz. rewrite lnext_insert, decide_False by lia. done. }
        exact Hmem.
      * destruct (Hoth b' l' Hne Hl') as [Hm Hd]. exists p', l'. split; [done|]. split; [|done].
        eapply chain_ext; [|done]. intros z Hz. rewrite lnext_insert by lia. rewrite decide_False; [done|].
        intros ->. apply (Hd y Hz). apply elem_of_app. right. left.
Qed.

Lemma in_tab_not_dummy t fl x e : linked None t fl -> in_tab None t x e -> nBucket t <> 1.
Proof.
  intros LI Hx. pose proof (hash_mod t (key_of e) (li_pos _ _ _ LI)) as Hb.
  destruct (li_chain _ _ _ LI _ Hb) as (p & l & Hp & Hc & Hl). eapply chain_not_dummy; [done|done|done|done|].
  apply Hl. by exists e.
Qed.

(** [fast_slot_free] before the optional garbage collection. *)
Definition slot_free t (slot : Z) : tab A :=
  set_free (set_nodes t (<[Z.to_nat slot := FreeNext (freelist_head t)]> (<[Z.to_nat slot := Raw]> (m_data t)))
    (<[Z.to_nat slot := Some delmark]> (m_link t))) slot (u32 (freelist_size t + 1)).

Lemma slot_free_ok t fl x : wf (Some x) t fl -> nBucket t <> 1 -> wf None (slot_free t x) (x :: fl) /\
  slots (slot_free t x) = <[Z.to_nat x := None]> (slots t).
Proof.
  intros [SO LI] Hnb. destruct (so_pend _ _ _ SO x eq_refl) as [Hx Hf].
  pose proof (so_data _ _ _ SO). pose proof (so_elem _ _ _ SO). pose proof (so_link _ _ _ SO). pose proof (so_max _ _ _ SO).
  pose proof (free_length _ _ _ SO). pose proof delmark_lt. pose proof (so_fsize _ _ _ SO) as Hfs.
  assert (Hlive : forall i, live (m_data (slot_free t x)) i = if decide (i = x) then None else live (m_data t) i).
  { intros i. cbn. rewrite live_insert by (rewrite length_insert; lia). case_decide; [done|].
    rewrite live_insert, decide_False by lia. done. }
  assert (Hfree : forall i, fnext (m_data (slot_free t x)) i = if decide (i = x) then Some (freelist_head t) else fnext (m_data t) i).
  { intros i. cbn. rewrite fnext_insert by (rewrite length_insert; lia). case_decide; [done|].
    rewrite fnext_insert, decide_False by lia. done. }
  split; [split|].
  - destruct SO. constructor; change (nElem (slot_free t x)) with (nElem t); try done.
    + cbn. by rewrite !length_insert.
    + cbn. by rewrite length_insert.
    + econstructor; [lia| |].
      * rewrite (Hfree x), decide_True by done. done.
      * eapply chain_ext; [|done]. intros y Hy. rewrite (Hfree y), decide_False; [done|]. by intros ->.
    + cbn. rewrite u32_small by (unfold delmark, tail in *; lia). lia.
    + intros y [->|Hy]%elem_of_cons; [done|by apply so_frange0].
    + intros i Hi [Hne Hi']%not_elem_of_cons _. rewrite (Hlive i), decide_False by done. apply so_live0; [done|done|congruence].
    + intros i j e e' Hi Hj _ _. rewrite (Hlive i), (Hlive j). do 2 (case_decide; [done|]). apply so_keys0; (done || congruence).
  - destruct LI. constructor; cbn; try done.
    + intros i Hi. cbn in *. rewrite lnext_insert by lia. case_decide as E.
      * subst. exists delmark. split; [done|]. split; [left|done].
      * destruct (li_marks0 i Hi) as (v & Hv & Ev). exists v. split; [done|]. rewrite Ev, elem_of_cons. split; [by right|by intros [->|]].
    + intros b Hb. destruct (li_chain0 b Hb) as (p & l & Hp & Hc & Hl). exists p, l. split; [done|].
      split.
      * eapply chain_ext; [|done]. intros y Hy. apply Hl in Hy as (e & (Hy & Hne & _) & _).
        rewrite lnext_insert by lia. rewrite decide_False; [done|congruence].
      * intros y. rewrite Hl. unfold in_tab. change (nElem (slot_free t x)) with (nElem t). setoid_rewrite Hlive.
        split; intros (e & (Hy & Hne & He) & Hh); exists e; (split; [|done]).
        { rewrite decide_False by congruence. done. }
        { case_decide; [done|]. split; [done|]. split; [congruence|done]. }
  - apply slots_eq; [cbn; lia| |].
    + rewrite length_insert. unfold slots. rewrite length_fmap, length_seqZ. cbn. lia.
    + intros i Hi. rewrite at_insert by (unfold slots; rewrite length_fmap, length_seqZ; lia). rewrite Hlive.
      case_decide; [done|]. by apply at_slots.
Qed.

(** ** Compaction *)

Lemma first_index_ok (f : Z -> res bool) (P : Z -> bool) n i0 : 0 <= i0 ->
  (forall i, i0 <= i < n -> f i = Ok (P i)) ->
  exists r, first_index f n i0 = Ok r /\
  match r with
  | Some i => i0 <= i < n /\ P i = true /\ (forall j, i0 <= j < i -> P j = false)
  | None => forall j, i0 <= j < n -> P j = false
  end.
Proof.
  intros H0 Hf. unfold first_index.
  apply (loop_inv (fun i => i0 <= i /\ (forall j, i0 <= j < i -> P j = false)) (fun i => Z.max 0 (n - i))); [split; [lia|intros; lia]|lia|].
  intros i (Hi & Hp). split; [lia|]. destruct (Z.ltb_spec i n) as [L|L].
  - rewrite Hf by lia. cbn [rbind]. destruct (P i) eqn:E; [right|left].
    + eexists. split; [done|]. split; [lia|]. done.
    + eexists. split; [done|]. split; [|lia]. split; [lia|]. intros j Hj. destruct (decide (j = i)) as [->|]; [done|]. apply Hp. lia.
  - right. eexists. split; [done|]. intros j Hj. apply Hp. lia.
Qed.

(** The elements below index [j] that [keep] keeps, in order. *)
Definition packed {X} (keep : Z -> option X) (j : Z) : list X := omap keep (seqZ 0 j).

Lemma packed_succ {X} (keep : Z -> option X) j : 0 <= j -> packed keep (j + 1) = packed keep j ++ match keep j with Some e => [e] | None => [] end.
Proof.
  intros. unfold packed. rewrite seqZ_app by lia. by rewrite omap_app.
Qed.

Lemma packed_length {X} (keep : Z -> option X) j : 0 <= j -> Z.of_nat (length (packed keep j)) <= j.
Proof.
  intros Hj. pattern j. apply natlike_ind; [done| |done]. clear j Hj. intros j Hj IH. unfold Z.succ.
  rewrite packed_succ, length_app by done. destruct (keep j); cbn; lia.
Qed.

Lemma packed_at {X} (keep : Z -> option X) n x e : 0 <= n -> at_ (packed keep n) x = Some e ->
  exists j, 0 <= j < n /\ keep j = Some e /\ x = Z.of_nat (length (packed keep j)).
Proof.
  intros Hn. pattern n. apply natlike_ind; [|clear n Hn; intros n Hn IH|done].
  { intros Hx%at_Some. change (packed keep 0) with (@nil X) in Hx. cbn in Hx. lia. }
  unfold Z.succ. rewrite packed_succ, at_app by done. case_decide as E.
  - intros Hx. destruct (IH Hx) as (j & ? & ? & ?). exists j. split; [lia|done].
  - destruct (keep n) as [e'|] eqn:Ek; intros Hx; pose proof (at_Some _ _ _ Hx) as Hr; cbn in Hr; [|lia].
    assert (x - Z.of_nat (length (packed keep n)) = 0) as E0 by lia. rewrite E0 in Hx. injection Hx as ->.
    exists n. split; [lia|]. split; [done|lia].
Qed.

(** The loop that moves each kept element [j] to the next free index [i]. *)
Lemma compact_loop keep (body : Z -> list (cell A) * Z -> res (list (cell A) * Z)) d0 a n :
  0 <= a < n -> n <= Z.of_nat (length d0) -> keep a = None ->
  (forall j, 0 <= j < n -> keep j = live d0 j \/ keep j = None) ->
  (forall j, 0 <= j < a -> exists e, keep j = Some e) ->
  (forall j d i, a < j < n -> at_ d j = at_ d0 j -> length d = length d0 ->
    match keep j with
    | Some _ => body j (d, i) = (let* d := move_cons d i j in Ok (d, i + 1))
    | None => exists d', body j (d, i) = Ok (d', i) /\ length d' = length d /\ (forall x, x <> j -> at_ d' x = at_ d x)
    end) ->
  forall d1, length d1 = length d0 -> (forall x, x <> a -> at_ d1 x = at_ d0 x) ->
  exists d, for_ (a + 1) n body (d1, a) = Ok (d, Z.of_nat (length (packed keep n))) /\ length d = length d0 /\
    (forall x, 0 <= x < Z.of_nat (length (packed keep n)) -> live d x = at_ (packed keep n) x).
Proof.
  intros Ha Hn Ka Kl Kb Hbody d1 Hd1 E1.
  assert (Hpre : forall j, 0 <= j <= a -> Z.of_nat (length (packed keep j)) = j /\
    forall x, 0 <= x < j -> at_ (packed keep j) x = live d0 x).
  { intros j [Hj0 Hja]. revert Hja. pattern j. apply natlike_ind; [|clear j Hj0; intros j Hj0 IH Hja|done].
    { intros _. split; [done|]. intros; lia. }
    unfold Z.succ in *. destruct IH as [IH1 IH2]; [lia|]. rewrite packed_succ by done.
    destruct (Kb j) as (e & Ke); [lia|]. rewrite Ke, length_app. cbn. split; [lia|]. intros x Hx. rewrite at_app.
    case_decide; [apply IH2; lia|]. replace x with j by lia. replace (j - _) with 0 by lia.
    destruct (Kl j) as [<-|]; [lia|done|congruence]. }
  assert (I : exists s, for_ (a + 1) n body (d1, a) = Ok s /\ (s.2 = Z.of_nat (length (packed keep n)) /\ length s.1 = length d0 /\
    (forall x, 0 <= x < s.2 -> live s.1 x = at_ (packed keep n) x) /\ (forall x, n <= x -> at_ s.1 x = at_ d0 x))).
  { apply (for_inv (fun j s => s.2 = Z.of_nat (length (packed keep j)) /\ length s.1 = length d0 /\
      (forall x, 0 <= x < s.2 -> live s.1 x = at_ (packed keep j) x) /\ (forall x, j <= x -> at_ s.1 x = at_ d0 x))); [lia| |].
    - destruct (Hpre a) as [P1 P2]; [lia|]. cbn [fst snd]. rewrite packed_succ, Ka, app_nil_r by lia. split; [done|]. split; [done|]. split.
      + intros x Hx. rewrite P2 by lia. unfold live. rewrite E1 by lia. done.
      + intros x Hx. apply E1. lia.
    - intros j [d i] Hj (Ei & El & Eb & Ea). cbn [fst snd] in *. specialize (Hbody j d i ltac:(lia) (Ea j ltac:(lia)) El).
      pose proof (packed_length keep j ltac:(lia)). rewrite packed_succ by lia. destruct (keep j) as [e|] eqn:Ek.
      + rewrite Hbody. destruct (Kl j) as [Ke|]; [lia| |congruence]. rewrite Ek in Ke. symmetry in Ke.
        assert (live d j = Some e) as Hje by (unfold live in *; by rewrite Ea by lia). unfold move_cons. rewrite (elem_ok _ _ _ Hje). cbn [rbind].
        rewrite wr_insert by lia. cbn [rbind]. eexists. split; [done|]. cbn [fst snd]. rewrite length_app, length_insert. cbn.
        split; [lia|]. split; [done|]. split.
        * intros x Hx. rewrite live_insert, at_app by lia. case_decide; case_decide; try lia.
          { replace (x - _) with 0 by lia. done. }
          apply Eb. lia.
        * intros x Hx. rewrite at_insert_ne by lia. apply Ea. lia.
      + destruct Hbody as (d' & -> & Hl & Hne). eexists. split; [done|]. cbn [fst snd]. rewrite app_nil_r.
        split; [done|]. split; [lia|]. split.
        * intros x Hx. unfold live. rewrite Hne by lia. by apply Eb.
        * intros x Hx. rewrite Hne by lia. apply Ea. lia. }
  destruct I as ([d i] & -> & Ei & El & Eb & _). cbn [fst snd] in *. subst i. exists d. done.
Qed.

(** A compacted table has no hole. *)
Lemma compacted_ok t fl keep d : slots_ok None t fl -> length d = length (m_data t) ->
  (forall j, 0 <= j < nElem t -> keep j = live (m_data t) j \/ keep j = None) ->
  (forall x, 0 <= x < Z.of_nat (length (packed keep (nElem t))) -> live d x = at_ (packed keep (nElem t)) x) ->
  let t' := set_free (set_counts (set_nodes t d (m_link t)) (Z.of_nat (length (packed keep (nElem t)))) (maxElem t)) tail 0 in
  slots_ok None t' [] /\ slots t' = Some <$> packed keep (nElem t).
Proof.
  intros SO Hd Kl Hlive. pose proof (so_elem _ _ _ SO). pose proof (packed_length keep (nElem t) ltac:(lia)) as Hle.
  set (l := packed keep (nElem t)) in *. split.
  - pose proof (so_keys _ _ _ SO) as HK. destruct SO. constructor; cbn; try done; try lia.
    + intros x Hx. by apply not_elem_of_nil in Hx.
    + intros i Hi _ _. rewrite Hlive by lia. apply at_is_Some. lia.
    + intros i j e e' Hi Hj _ _. rewrite !Hlive by lia. intros Hie Hje Eq.
      apply packed_at in Hie as (i' & Hi' & Ki & ->); [|lia]. apply packed_at in Hje as (j' & Hj' & Kj & ->); [|lia].
      enough (i' = j') as -> by done. apply (HK i' j' e e'); try done.
      * destruct (Kl i'); [lia|congruence|congruence].
      * destruct (Kl j'); [lia|congruence|congruence].
  - apply slots_eq; cbn; [lia|by rewrite length_fmap|]. intros i Hi. rewrite Hlive by lia.
    rewrite at_fmap. destruct (at_is_Some l i) as (e & ->); [lia|done].
Qed.

Definition live_elems t : list A := packed (live (m_data t)) (nElem t).

Lemma omap_id_slots t : omap id (slots t) = live_elems t.
Proof.
  unfold slots, live_elems, packed. induction (seqZ 0 (nElem t)) as [|x l IH]; cbn; [done|].
  destruct (live (m_data t) x); cbn; by rewrite IH.
Qed.

Lemma mark_of t fl i : wf None t fl -> 0 <= i < nElem t -> is_free_link t i = Ok (bool_decide (i ∈ fl)).
Proof.
  intros W Hi. destruct (li_marks _ _ _ (wf_linked _ _ _ W) i Hi) as (v & Hv & E). unfold is_free_link.
  rewrite (rd_init_ok _ _ _ Hv). cbn [rbind]. f_equal. destruct (Z.eqb_spec v delmark).
  - rewrite bool_decide_true; [done|]. by apply E.
  - rewrite bool_decide_false; [done|]. by rewrite <- E.
Qed.

Lemma live_iff t fl i : slots_ok None t fl -> 0 <= i < nElem t -> i ∈ fl <-> live (m_data t) i = None.
Proof.
  intros SO Hi. split.
  - intros Hin. destruct (live (m_data t) i) eqn:E; [|done]. exfalso. by eapply (in_tab_free None t fl i).
  - intros Hn. destruct (decide (i ∈ fl)) as [|Hf]; [done|]. destruct (so_live _ _ _ SO i Hi Hf) as (e & ?); [done|congruence].
Qed.

Lemma omap_length {X Y} (f : X -> option Y) l :
  (length (omap f l) + length (filter (fun x => f x = None) l) = length l)%nat.
Proof.
  induction l as [|x l IH]; [done|]. cbn [omap list_omap]. rewrite filter_cons.
  destruct (f x); [rewrite decide_False by done|rewrite decide_True by done]; cbn in *; lia.
Qed.

Lemma live_elems_length t fl : slots_ok None t fl -> Z.of_nat (length (live_elems t)) = nElem t - freelist_size t.
Proof.
  intros SO. pose proof (so_elem _ _ _ SO) as Hn. rewrite (so_fsize _ _ _ SO).
  pose proof (omap_length (live (m_data t)) (seqZ 0 (nElem t))) as E. rewrite length_seqZ in E.
  assert (filter (fun x => live (m_data t) x = None) (seqZ 0 (nElem t)) ≡ₚ fl) as P.
  { apply list.NoDup_Permutation.
    - apply list.NoDup_filter, NoDup_seqZ.
    - eapply chain_NoDup, so_free, SO.
    - intros x. rewrite list_elem_of_filter, elem_of_seqZ. split.
      + intros [Hx Hr]. apply (live_iff t fl); [done|lia|done].
      + intros Hx. pose proof (so_frange _ _ _ SO x Hx). split; [by apply (live_iff t fl)|lia]. }
  rewrite P in E. unfold live_elems, packed. lia.
Qed.

(** ** [revoke_deleted], [fast_slot_free], [erase] *)

Lemma revoke_no_relink_ok t fl : wf None t fl -> fl <> [] ->
  exists t', revoke_deleted_no_relink t = Ok (t', freelist_size t) /\ slots_ok None t' [] /\
    slots t' = sp_compact (slots t) /\ same_opts t t' /\ bucket t' = bucket t /\ nBucket t' = nBucket t /\
    nElem t' = nElem t - freelist_size t.
Proof.
  intros W Hfl. pose proof (wf_slots _ _ _ W) as SO. pose proof (so_elem _ _ _ SO). pose proof (so_data _ _ _ SO).
  pose proof (free_length _ _ _ SO). pose proof (so_max _ _ _ SO). pose proof delmark_lt.
  unfold revoke_deleted_no_relink. destruct fl as [|x fl']; [done|]. destruct (free_head _ _ _ SO) as [Hz _].
  rewrite (proj2 (Z.ltb_lt 0 (freelist_size t))) by lia. cbn [verify rbind].
  destruct (first_index_ok (is_free_link t) (fun i => bool_decide (i ∈ x :: fl')) (nElem t) 0) as (r & -> & Hr); [lia| |].
  { intros i Hi. by apply mark_of. }
  cbn [rbind]. destruct r as [a|].
  2:{ pose proof (so_frange _ _ _ SO x (list_elem_of_here _ _)) as Hx. specialize (Hr x Hx).
      apply bool_decide_eq_false in Hr. destruct Hr. left. }
  destruct Hr as (Ha & Pa & Pb). apply bool_decide_eq_true in Pa.
  destruct (compact_loop (live (m_data t)) (fun j '(d, i) =>
        let* f := is_free_link t j in
        if negb f then let* d := move_cons d i j in Ok (d, i + 1) else Ok (d, i)) (m_data t) a (nElem t)) with (d1 := m_data t)
    as (d & -> & Hd & Hlive); [lia|lia|by apply (live_iff t (x :: fl'))|by left| | |done|done|].
  { intros j Hj. specialize (Pb j Hj). apply bool_decide_eq_false in Pb. apply (so_live _ _ _ SO); [lia|done|done]. }
  { intros j d i Hj Ej El. rewrite (mark_of _ _ _ W) by lia. cbn [rbind]. destruct (live (m_data t) j) eqn:E.
    - rewrite bool_decide_false; [done|]. rewrite (live_iff t (x :: fl')) by (done || lia). congruence.
    - rewrite bool_decide_true by (apply (live_iff t (x :: fl')); (done || lia)). eexists. split; [done|]. done. }
  cbn [rbind]. pose proof (packed_length (live (m_data t)) (nElem t) ltac:(lia)) as Hle.
  rewrite u32_small by lia. pose proof (live_elems_length t _ SO) as LL. unfold live_elems in LL.
  destruct (compacted_ok t (x :: fl') (live (m_data t)) d SO Hd) as [SO' Hs]; [by left|done|].
  eexists. split; [repeat f_equal; lia|]. split; [exact SO'|]. split; [|cbn; by repeat split].
  etrans; [exact Hs|]. unfold sp_compact. by rewrite omap_id_slots.
Qed.

Lemma slots_nohole t : slots_ok None t [] -> slots t = Some <$> live_elems t.
Proof.
  intros SO. pose proof (so_elem _ _ _ SO).
  pose proof (live_elems_length t _ SO) as LL. rewrite (so_fsize _ _ _ SO) in LL. cbn in LL.
  apply slots_eq; [lia|rewrite length_fmap; lia|].
  intros i Hi. rewrite at_fmap. destruct (at_is_Some (live_elems t) i) as (e & He); [lia|]. rewrite He. cbn. f_equal. symmetry.
  unfold live_elems in He. apply packed_at in He as (j & Hj & Hlj & ->); [|lia].
  enough (Z.of_nat (length (packed (live (m_data t)) j)) = j) as -> by done.
  clear - SO Hj. revert Hj. intros [Hj Hjn]. revert Hjn. pattern j. apply natlike_ind; [done| |done].
  clear j Hj. unfold Z.succ. intros j Hj IH Hjn. rewrite packed_succ, length_app by done.
  destruct (so_live _ _ _ SO j) as (e & ->); [lia|by apply not_elem_of_nil|done|]. cbn. specialize (IH ltac:(lia)). lia.
Qed.

Lemma revoke_ok t fl : wf None t fl ->
  exists t', revoke_deleted t = Ok (t', freelist_size t) /\ wf None t' [] /\ same_opts t t' /\
    slots t' = sp_compact (slots t).
Proof.
  intros W. pose proof (wf_slots _ _ _ W) as SO. pose proof (free_head _ _ _ SO) as FH. unfold revoke_deleted.
  destruct fl as [|x fl].
  - destruct FH as [E _]. rewrite E. cbn. exists t. split; [done|]. split; [done|]. split; [done|].
    unfold sp_compact. rewrite omap_id_slots. by apply slots_nohole.
  - rewrite (proj2 (Z.eqb_neq _ 0)) by apply FH. cbn [negb].
    destruct (revoke_no_relink_ok t _ W) as (t1 & -> & SO1 & S1 & O1 & B1 & Nb1 & N1); [done|]. cbn [rbind].
    pose proof (wf_linked _ _ _ W) as LI. pose proof (li_pos _ _ _ LI). pose proof (li_len _ _ _ LI).
    destruct (relink_ok t1 [] SO1) as (lk & pb & -> & W2).
    { rewrite Nb1. destruct (decide (nBucket t = 1)) as [E|]; [|lia]. by destruct (li_dummy _ _ _ LI E) as (_ & _ & ?). }
    { by rewrite B1, Nb1. }
    { by left. }
    cbn [rbind]. eexists. split; [done|]. split; [done|]. split; [done|]. rewrite <- S1. done.
Qed.

Lemma fast_slot_free_ok t fl x e : wf (Some x) t fl -> nBucket t <> 1 -> live (m_data t) x = Some e ->
  exists t' fl', fast_slot_free t x = Ok t' /\ wf None t' fl' /\ same_opts t t' /\
    sp_free (slots t) fl (m_enable_auto_gc t) (m_enable_freelist_reuse t) x = (slots t', fl').
Proof.
  intros W Hnb He. destruct (so_pend _ _ _ (wf_slots _ _ _ W) x eq_refl) as [Hx Hf].
  destruct (slot_free_ok t fl x W Hnb) as [W1 S1]. pose proof (wf_slots _ _ _ W) as SO.
  pose proof (so_data _ _ _ SO). pose proof (so_elem _ _ _ SO). pose proof (so_link _ _ _ SO).
  unfold fast_slot_free, wr_link. rewrite wr_insert by lia. cbn [rbind]. cbn [m_data set_nodes].
  rewrite (destruct_ok _ _ _ He). cbn [rbind]. cbn [freelist_head set_nodes].
  rewrite wr_insert by (rewrite length_insert; lia). cbn [rbind].
  change (set_free _ _ _) with (slot_free t x).
  unfold sp_free. rewrite (length_slots _ _ _ SO). pose proof (so_fsize _ _ _ (wf_slots _ _ _ W1)) as Hfs.
  change (m_enable_freelist_reuse (slot_free t x)) with (m_enable_freelist_reuse t).
  change (m_enable_auto_gc (slot_free t x)) with (m_enable_auto_gc t). change (nElem (slot_free t x)) with (nElem t).
  rewrite Hfs. change (length (x :: fl)) with (S (length fl)).
  destruct (m_enable_freelist_reuse t) eqn:Er; cbn [negb andb].
  2:{ eexists _, _. split; [done|]. split; [done|]. split; [done|]. by rewrite S1. }
  destruct (_ && _).
  - destruct (revoke_ok (slot_free t x) _ W1) as (t2 & -> & W2 & O2 & S2). cbn [rbind fst].
    eexists _, _. split; [done|]. split; [done|]. split; [done|]. by rewrite S2, S1.
  - eexists _, _. split; [done|]. split; [done|]. split; [done|]. by rewrite S1.
Qed.

(** The loop of [risk_unlink_with_hash_i]. *)
Lemma unlink_walk t n b p l1 l2 x l3 : lnext (bucket t) b = Some p -> chain (lnext (m_link t)) p (l1 ++ l2 ++ x :: l3) ->
  (forall y, y ∈ l2 ++ [x] -> y < nElem t) -> x ∉ l2 -> (length l2 < n)%nat ->
  loop n (fun curp =>
    let* curr := rd_ref t curp in
    if negb (x =? curr) then
      let* v := rd_init (m_link t) curr in
      let* _ := assert_ (v <? nElem t) in Ok (inl (AtLink curr))
    else Ok (inr curp)) (ref_after b l1) = Ok (ref_after b (l1 ++ l2)).
Proof.
  intros Hp. revert n l1. induction l2 as [|y l2 IH]; intros n l1 C Hlt Hx Hn; (destruct n as [|n]; [cbn in Hn; lia|]); cbn [loop app] in *.
  - rewrite (rd_ref_ok t b p l1 (x :: l3) Hp C). cbn [rbind hd]. rewrite Z.eqb_refl. cbn [negb rbind]. by rewrite app_nil_r.
  - rewrite (rd_ref_ok t b p l1 (y :: l2 ++ x :: l3) Hp C). cbn [rbind hd].
    apply not_elem_of_cons in Hx as [Hne Hx]. rewrite (proj2 (Z.eqb_neq x y)) by done. cbn [negb].
    pose proof (chain_app_hd _ _ _ _ _ C) as Hy. rewrite (rd_init_ok _ _ _ Hy). cbn [rbind].
    assert (hd tail (l2 ++ x :: l3) < nElem t) as Hh.
    { apply Hlt. destruct l2; cbn; right; left. }
    rewrite (proj2 (Z.ltb_lt _ _)) by done. cbn [assert_ rbind].
    assert (AtLink y = ref_after b (l1 ++ [y])) as -> by (unfold ref_after; by rewrite last_snoc).
    rewrite IH.
    + by rewrite <- app_assoc.
    + by rewrite <- app_assoc.
    + intros z Hz. apply Hlt. by right.
    + done.
    + cbn in Hn. lia.
Qed.

Lemma erase_i_ok t fl x e : wf None t fl -> in_tab None t x e ->
  exists t' fl', erase_i t x = Ok t' /\ wf None t' fl' /\ same_opts t t' /\
    sp_free (slots t) fl (m_enable_auto_gc t) (m_enable_freelist_reuse t) x = (slots t', fl').
Proof.
  intros W Hin. pose proof (wf_slots _ _ _ W) as SO. pose proof (wf_linked _ _ _ W) as LI.
  destruct Hin as (Hx & Hn0 & He). pose proof (in_tab_free _ _ _ _ _ SO (conj Hx (conj Hn0 He))) as Hf.
  pose proof (hash_mod t (key_of e) (li_pos _ _ _ LI)) as Hb. set (b := hash (key_of e) mod nBucket t) in *.
  destruct (li_chain _ _ _ LI b Hb) as (p & l & Hp & Hc & Hl).
  assert (x ∈ l) as Hxl by (apply Hl; exists e; done). destruct (list_elem_of_split _ _ Hxl) as (l1 & l2 & ->).
  assert (Hlt : forall y, y ∈ l1 ++ x :: l2 -> y < nElem t) by (intros y Hy; apply Hl in Hy as (ey & (? & _) & _); lia).
  unfold erase_i. rewrite (proj2 (Z.leb_le 1 _)), (proj2 (Z.ltb_lt x _)) by lia. cbn [assert_ rbind].
  rewrite (mark_of t fl x W Hx), bool_decide_false by done. cbn [rbind negb assert_].
  unfold risk_unlink. rewrite (proj2 (Z.ltb_lt x _)) by lia. cbn [assert_ rbind]. rewrite (elem_ok _ _ _ He). cbn [rbind].
  unfold risk_unlink_with_hash_i. change (hash_of e mod nBucket t) with b.
  rewrite (proj2 (Z.leb_le 1 _)), (proj2 (Z.ltb_lt x _)) by lia. cbn [assert_ rbind]. rewrite (rd_init_ok _ _ _ Hp). cbn [rbind].
  assert (p < nElem t) as Hpn.
  { apply Hlt. destruct l1 as [|y l1]; cbn in Hc; destruct (chain_cons_inv _ _ _ _ Hc) as [-> _]; left. }
  rewrite (proj2 (Z.ltb_lt p _)) by done. cbn [assert_ rbind]. unfold is_deleted. rewrite (proj2 (Z.ltb_lt x _)) by lia.
  cbn [assert_ rbind]. rewrite (mark_of t fl x W Hx), bool_decide_false by done. cbn [rbind negb assert_].
  pose proof (chain_NoDup _ _ _ Hc) as ND. pose proof (chain_length t fl b _ p SO Hc Hl) as Hlen. rewrite length_app in Hlen.
  change (AtBucket b) with (ref_after b []). rewrite (unlink_walk t _ b p [] l1 x l2 Hp Hc).
  2:{ intros y Hy. apply Hlt. rewrite elem_of_app, ?elem_of_cons in *. rewrite elem_of_nil in Hy. tauto. }
  2:{ apply list.NoDup_app in ND as (_ & N1 & _). intros Hin. eapply N1; [done|left]. }
  2:{ lia. }
  cbn [rbind app]. destruct (unlink_ok t fl b p l1 x l2 W Hb Hp Hc Hl) as (Hnb & lk & pb & -> & W1). cbn [rbind].
  by destruct (fast_slot_free_ok _ fl x e W1 Hnb He) as (t2 & fl2 & -> & W2 & O2 & S2); eauto 6.
Qed.
End inv.
