(* ===== verification/GoldHashProps.v ===== *)
(** * [gold_hash_tab]: erasure, refinement of the abstract table, properties

    The remaining operations, the relation [R] between a table and its abstract
    table [spec] with the step-by-step refinement, reachability from the empty
    table, the view as a finite map, serialisation and copies; then the
    properties, with a concrete table that meets their hypotheses. *)
From S2P Require Import Prelude.
From S2P Require Import GoldHash.
From S2P Require Import GoldHashInv.

Section props.
Context {K A : Type} `{HE : HashEqual K} `{HL : !HashLaws K} `{KE : KeyExtractor K A}.
Implicit Types t : tab A.

Definition erase_step t (k : K) (curp : lref) : res (lref + option (lref * Z)) :=
  let* curv := rd_ref t curp in
  if negb (tail =? curv) then
    let* _ := assert_ (curv <? nElem t) in
    let* f := is_deleted t curv in
    let* _ := assert_ (negb f) in
    let* e := elem (m_data t) curv in
    if equal k (key_of e) then Ok (inr (Some (curp, curv))) else Ok (inl (AtLink curv))
  else Ok (inr None).

Lemma erase_walk t fl k n b p l1 l2 : wf None t fl -> lnext (bucket t) b = Some p ->
  chain (lnext (m_link t)) p (l1 ++ l2) -> (forall y, y ∈ l2 -> exists e, in_tab None t y e) -> (length l2 < n)%nat ->
  (exists m1 x m2 e, l2 = m1 ++ x :: m2 /\ has_key t k x e /\
     loop n (erase_step t k) (ref_after b l1) = Ok (Some (ref_after b (l1 ++ m1), x))) \/
  ((forall x e, x ∈ l2 -> ~ has_key t k x e) /\ loop n (erase_step t k) (ref_after b l1) = Ok None).
Proof.
  intros W Hp. pose proof (wf_slots _ _ _ W) as SO. pose proof delmark_tail.
  revert n l1. induction l2 as [|y l2 IH]; intros n l1 C Hin Hn; (destruct n as [|n]; [cbn in Hn; lia|]); cbn [loop]; unfold erase_step at 1 3.
  - right. split; [by intros x e ?%not_elem_of_nil|]. rewrite (rd_ref_ok t b p l1 [] Hp C). cbn [rbind hd]. by rewrite Z.eqb_refl.
  - rewrite (rd_ref_ok t b p l1 (y :: l2) Hp C). cbn [rbind hd].
    pose proof (chain_range _ _ _ y C ltac:(apply elem_of_app; right; left)) as Hr.
    rewrite (proj2 (Z.eqb_neq tail y)) by lia. cbn [negb]. destruct (Hin y (list_elem_of_here _ _)) as (e & He).
    pose proof He as (Hy & _ & Hey). rewrite (proj2 (Z.ltb_lt y _)) by lia. cbn [assert_ rbind].
    unfold is_deleted. rewrite (proj2 (Z.ltb_lt y _)) by lia. cbn [assert_ rbind].
    rewrite (mark_of t fl y W Hy), bool_decide_false by (by eapply in_tab_free). cbn [negb assert_ rbind].
    rewrite (elem_ok _ _ _ Hey). cbn [rbind]. destruct (equal k (key_of e)) eqn:Ek; cbn [rbind].
    + left. exists [], y, l2, e. rewrite app_nil_r. done.
    + assert (AtLink y = ref_after b (l1 ++ [y])) as E by (unfold ref_after; by rewrite last_snoc). rewrite E.
      destruct (IH n (l1 ++ [y])) as [(m1 & x & m2 & e' & -> & Hk & ->)|(Hno & ->)].
      { by rewrite <- app_assoc. } { intros z Hz. apply Hin. by right. } { cbn in Hn. lia. }
      * left. exists (y :: m1), x, m2, e'. rewrite <- app_assoc. done.
      * right. split; [|done]. intros x e' [->|Hx]%elem_of_cons; [|by apply Hno].
        intros ((_ & _ & He') & Ek'). congruence.
Qed.

Lemma erase_ok t fl k : wf None t fl ->
  ((forall x e, ~ has_key t k x e) /\ erase t k = Ok (t, 0)) \/
  exists x e t' fl', has_key t k x e /\ erase t k = Ok (t', 1) /\ wf None t' fl' /\ same_opts t t' /\
    sp_free (slots t) fl (m_enable_auto_gc t) (m_enable_freelist_reuse t) x = (slots t', fl').
Proof.
  intros W. pose proof (wf_slots _ _ _ W) as SO. pose proof (wf_linked _ _ _ W) as LI.
  pose proof (hash_mod t k (li_pos _ _ _ LI)) as Hb. destruct (li_chain _ _ _ LI _ Hb) as (p & l & Hp & Hc & Hl).
  pose proof (chain_length t fl _ _ p SO Hc Hl) as Hlen. unfold erase. fold (erase_step t k).
  change (AtBucket (hash k mod nBucket t)) with (ref_after (hash k mod nBucket t) []).
  destruct (erase_walk t fl k (S (Z.to_nat (nElem t))) _ p [] l W Hp Hc) as [(m1 & x & m2 & e & -> & Hk & ->)|(Hno & ->)]; cbn [rbind].
  - intros y Hy. apply Hl in Hy as (e & ? & _). eauto.
  - done.
  - right. cbn [app]. destruct (unlink_ok t fl _ p m1 x m2 W Hb Hp Hc Hl) as (Hnb & lk & pb & E & W1).
    destruct (rd_init (m_link t) x) as [q| | |] eqn:Eq; try done. cbn [rbind] in *. rewrite E. cbn [rbind].
    destruct Hk as ((Hx & Hn & He) & Ek).
    destruct (fast_slot_free_ok _ fl x e W1 Hnb He) as (t2 & fl2 & -> & W2 & O2 & S2). cbn [rbind].
    exists x, e, t2, fl2. done.
  - left. split; [|done]. intros x e Hk. apply (Hno x e); [|done]. apply Hl. exists e. destruct Hk as (Hi & Ek).
    split; [done|]. unfold hash_of. by rewrite (equal_hash k (key_of e)).
Qed.

(** ** Initial state, [erase_all], [clear] *)

Lemma init_wf : wf None init [].
Proof.
  split; constructor; cbn; try done; try lia.
  - intros x Hx. by apply not_elem_of_nil in Hx.
  - intros i Hi. cbn in Hi. lia.
  - intros b Hb. exists tail, []. assert (b = 0) as -> by lia. split; [done|]. split; [constructor|].
    intros x. split; [by intros ?%not_elem_of_nil|]. intros (e & (Hx & _) & _). cbn in Hx. lia.
Qed.

Lemma destruct_all_ok t fl : wf None t fl -> exists d, destruct_all t = Ok d /\ length d = length (m_data t).
Proof.
  intros W. pose proof (wf_slots _ _ _ W) as SO. pose proof (so_elem _ _ _ SO). pose proof (so_data _ _ _ SO). pose proof (free_head _ _ _ SO) as FH.
  unfold destruct_all.
  destruct (for_inv (fun k d => length d = length (m_data t) /\ forall i, 0 <= i < nElem t - k -> at_ d i = at_ (m_data t) i)
    (destruct_one t) 0 (nElem t) (m_data t))
    as (d & -> & Hd & _); [lia|done| |by eauto].
  intros k d Hk (Hl & He). unfold destruct_one. cbv zeta. set (i := nElem t - k - 1).
  assert (Hdes : i ∉ fl -> exists d', destruct_ d i = Ok d' /\ length d' = length (m_data t) /\
      forall j, 0 <= j < nElem t - (k + 1) -> at_ d' j = at_ (m_data t) j).
  { intros Hi. destruct (so_live _ _ _ SO i) as (e & Hle); [lia|done|done|].
    rewrite (destruct_ok d i e) by (unfold live in *; rewrite He by lia; done).
    eexists. split; [done|]. rewrite length_insert. split; [done|]. intros j Hj. rewrite at_insert_ne by lia. apply He. lia. }
  destruct fl as [|x fl].
  - destruct FH as [-> _]. rewrite Z.eqb_refl. apply Hdes, not_elem_of_nil.
  - rewrite (proj2 (Z.eqb_neq _ 0)) by apply FH. rewrite (mark_of t (x :: fl) i W) by lia. cbn [rbind].
    destruct (decide (i ∈ x :: fl)) as [Hin|Hout].
    + rewrite bool_decide_true by done. cbn [negb]. exists d. split; [done|]. split; [done|]. intros j Hj. apply He. lia.
    + rewrite bool_decide_false by done. cbn [negb]. by apply Hdes.
Qed.

Lemma clear_ok t fl : wf None t fl -> clear t = Ok init.
Proof. intros W. unfold clear. by destruct (destruct_all_ok t fl W) as (d & -> & _). Qed.

(** What is left of [erase_all] once every bucket is empty. *)
Lemma erase_all_end t fl t1 : wf None t fl -> length (m_data t1) = length (m_data t) -> m_link t1 = m_link t -> nBucket t1 = nBucket t ->
  Z.of_nat (length (bucket t1)) = nBucket t -> (forall b, 0 <= b < nBucket t -> lnext (bucket t1) b = Some tail) ->
  (nBucket t = 1 -> bucket t1 = [Some tail] /\ maxload t1 = 0) -> nElem t1 = nElem t ->
  maxElem t1 = maxElem t -> freelist_head t1 = freelist_head t -> freelist_size t1 = freelist_size t ->
  load_factor t1 = load_factor t -> same_opts t t1 ->
  exists t', (let* t := (if freelist_head t1 <? delmark then
    let* _ := verify (freelist_head t1 <? nElem t1) in Ok (set_free t1 tail 0) else Ok t1) in Ok (set_counts t 0 (maxElem t))) = Ok t' /\
    wf None t' [] /\ same_opts t t' /\ slots t' = [] /\ maxElem t' = maxElem t.
Proof.
  intros W E1 E2 E3 E4 E5 E6 E7 E8 E9 E10 E11 O1.
  pose proof (wf_slots _ _ _ W) as SO. pose proof (wf_linked _ _ _ W) as LI.
  pose proof (so_elem _ _ _ SO). pose proof (so_data _ _ _ SO). pose proof (free_head _ _ _ SO) as FH. pose proof (li_pos _ _ _ LI).
  pose proof (li_len _ _ _ LI). pose proof delmark_tail.
  assert (exists t', (if freelist_head t1 <? delmark then
      let* _ := verify (freelist_head t1 <? nElem t1) in Ok (set_free t1 tail 0) else Ok t1) = Ok t' /\ t' = set_free t1 tail 0) as (t' & -> & ->).
  { destruct fl as [|x fl].
    - destruct FH as [F1 F2]. rewrite (proj2 (Z.ltb_ge _ _)) by lia. eexists. split; [done|]. rewrite <- F2, <- F1, <- E9, <- E10. by destruct t1.
    - destruct FH as [_ F2]. pose proof (so_frange _ _ _ SO x (list_elem_of_here _ _)). pose proof (so_max _ _ _ SO).
      rewrite (proj2 (Z.ltb_lt _ _)) by lia. rewrite (proj2 (Z.ltb_lt _ _)) by lia. eexists. done. }
  cbn [rbind]. eexists. split; [done|]. split; [|done]. split.
  - destruct SO. constructor; cbn; rewrite ?E1, ?E2, ?E8, ?E11; try done; try lia.
    + intros x Hx. by apply not_elem_of_nil in Hx.
  - constructor; cbn; try done; try lia.
    + rewrite E3. intros E. by destruct (E6 E).
    + intros i Hi. cbn in Hi. lia.
    + intros b Hb. rewrite E3 in Hb. exists tail, []. split; [by apply E5|]. split; [constructor|].
      intros x. split; [by intros ?%not_elem_of_nil|]. intros (e & (Hx & _) & _). cbn in Hx. lia.
Qed.

Lemma erase_all_ok t fl : wf None t fl ->
  exists t', erase_all t = Ok t' /\ wf None t' [] /\ same_opts t t' /\ slots t' = [] /\ maxElem t' = maxElem t.
Proof.
  intros W. pose proof (wf_slots _ _ _ W) as SO. pose proof (wf_linked _ _ _ W) as LI.
  pose proof (so_elem _ _ _ SO). pose proof (so_data _ _ _ SO). pose proof (free_head _ _ _ SO) as FH. pose proof (li_pos _ _ _ LI).
  pose proof (li_len _ _ _ LI). pose proof delmark_tail.
  unfold erase_all.
  destruct (Z.ltb_spec (freelist_size t) (nElem t)) as [L|L].
  - destruct (destruct_all_ok t fl W) as (d & -> & Hd). cbn [rbind].
    assert (nBucket t <> 1) as Hnb.
    { intros E. destruct (li_dummy _ _ _ LI E) as (_ & _ & ->).
      destruct (so_live _ _ _ SO 0) as (e & He); [lia|by apply not_elem_of_nil|done|].
      apply (in_tab_not_dummy t [] 0 e LI); [|done]. split; [lia|done]. }
    rewrite (proj2 (Z.eqb_neq _ 1)) by done. cbn [negb assert_ rbind]. apply (erase_all_end t fl); cbn; try done.
    + by rewrite length_replicate.
    + intros b Hb. unfold lnext. rewrite at_replicate, decide_True by lia. done.
  - cbn [rbind]. apply (erase_all_end t fl); try done.
    + intros b Hb. destruct (li_chain _ _ _ LI b Hb) as (p & l & Hp & Hc & Hl). rewrite Hp. f_equal.
      destruct l as [|x l]; [by apply chain_end_inv in Hc|]. exfalso. destruct (proj1 (Hl x) (list_elem_of_here _ _)) as (e & He & _).
      pose proof (in_tab_free _ _ _ _ _ SO He) as Hf. destruct He as (Hx & _).
      pose proof (NoDup_range_length (x :: fl) (nElem t)) as B.
      rewrite (so_fsize _ _ _ SO) in L. cbn [length] in B.
      enough (Z.of_nat (S (length fl)) <= Z.max 0 (nElem t)) by lia. apply B.
      * apply list.NoDup_cons. split; [done|]. eapply chain_NoDup, so_free, SO.
      * intros y [->|Hy]%elem_of_cons; [done|by apply (so_frange _ _ _ SO)].
    + intros E. destruct (li_dummy _ _ _ LI E) as (? & ? & _). done.
Qed.

(** ** Erasing by predicate *)

Lemma packed_unless pred (f : Z -> option A) n :
  packed (fun j => unless pred (f j)) n = filter (fun e => pred e = false) (packed f n).
Proof.
  unfold packed. induction (seqZ 0 n) as [|x l IH]; [done|]. cbn [omap list_omap]. destruct (f x) as [e|]; cbn [unless]; [|done].
  rewrite filter_cons. destruct (pred e); [rewrite decide_False by done|rewrite decide_True by done]; by rewrite IH.
Qed.

Lemma live_elems_compact t t' : slots t' = sp_compact (slots t) -> live_elems t' = live_elems t.
Proof.
  intros E. rewrite <- !omap_id_slots, E. unfold sp_compact. rewrite omap_id_slots.
  induction (live_elems t) as [|e l IH]; [done|]. cbn. by rewrite IH.
Qed.

(** After [erase_if_impl] on a table without holes: nothing matched, or
    everything did, or the rest was moved to the front. *)
Lemma erase_if_nohole pred t : slots_ok None t [] ->
  let kept := filter (fun e => pred e = false) (live_elems t) in
  let n := nElem t in
  exists t' r, erase_if_scan pred t = Ok (t', r) /\ r = n - Z.of_nat (length kept) /\
    (r = 0 /\ t' = t /\ kept = live_elems t \/
     0 < r /\ kept = [] /\ t' = init \/
     0 < r /\ kept <> [] /\ slots_ok None t' [] /\ slots t' = Some <$> kept /\ nElem t' = n - r /\ same_opts t t' /\
       bucket t' = bucket t /\ nBucket t' = nBucket t).
Proof.
  intros SO kept n. unfold erase_if_scan. fold n. pose proof (so_elem _ _ _ SO). pose proof (so_data _ _ _ SO). pose proof (so_max _ _ _ SO). pose proof delmark_lt.
  assert (Hl : forall i, 0 <= i < n -> exists e, live (m_data t) i = Some e).
  { intros i Hi. apply (so_live _ _ _ SO); [done|apply not_elem_of_nil|done]. }
  set (keep := fun j => unless pred (live (m_data t) j)).
  assert (Ek : packed keep n = kept) by apply packed_unless.
  pose proof (packed_length keep n ltac:(lia)) as Hle. rewrite Ek in Hle.
  destruct (first_index_ok (fun i => let* e := elem (m_data t) i in Ok (pred e))
    (fun i => match live (m_data t) i with Some e => pred e | None => false end) n 0) as (r & -> & Hr); [lia| |].
  { intros i Hi. destruct (Hl i Hi) as (e & He). by rewrite (elem_ok _ _ _ He), He. }
  cbn [rbind]. destruct r as [a|].
  2:{ assert (kept = live_elems t) as Ekl.
      { rewrite <- Ek. unfold live_elems, packed. apply list_omap_ext, Forall2_same_length_lookup_2; [done|].
        intros i x y Hx Hy. change (seqZ 0 n !! i = Some y) in Hy. assert (x = y) as <- by congruence. apply list_elem_of_lookup_2, elem_of_seqZ in Hx.
        unfold keep, unless. specialize (Hr x ltac:(lia)). destruct (live (m_data t) x); [by rewrite Hr|done]. }
      pose proof (live_elems_length t [] SO) as LL. rewrite (so_fsize _ _ _ SO) in LL. cbn in LL.
      eexists t, 0. split; [done|]. rewrite Ekl. split; [unfold n; lia|]. by left. }
  destruct Hr as (Ha & Pa & Pb). destruct (Hl a Ha) as (ea & Hea). rewrite Hea in Pa.
  rewrite (destruct_ok _ _ _ Hea). cbn [rbind].
  destruct (compact_loop keep (fun j '(d, i) =>
          let* e := elem d j in
          if pred e then let* d := destruct_ d j in Ok (d, i)
          else let* d := move_cons d i j in Ok (d, i + 1)) (m_data t) a n) with (d1 := <[Z.to_nat a := Raw]> (m_data t))
    as (d & -> & Hd & Hlive); [lia|unfold n; lia| | | | | | |].
  { unfold keep, unless. by rewrite Hea, Pa. }
  { intros j Hj. unfold keep, unless. destruct (live (m_data t) j) as [e|]; [|by left]. destruct (pred e); [by right|by left]. }
  { intros j Hj. destruct (Hl j ltac:(lia)) as (e & He). specialize (Pb j Hj). exists e. unfold keep, unless. rewrite He in *. by rewrite Pb. }
  { intros j d i Hj Ej El. destruct (Hl j ltac:(lia)) as (e & He).
    assert (live d j = Some e) as Hje by (unfold live in *; by rewrite Ej). rewrite (elem_ok _ _ _ Hje). cbn [rbind].
    unfold keep, unless. rewrite He. destruct (pred e); [|done]. rewrite (destruct_ok _ _ _ Hje). cbn [rbind].
    eexists. split; [done|]. rewrite length_insert. split; [done|]. intros x Hx. apply at_insert_ne; [lia|done]. }
  { by rewrite length_insert. }
  { intros x Hx. apply at_insert_ne; [lia|done]. }
  cbn [rbind]. rewrite Ek in *.
  destruct (compacted_ok t [] keep d SO Hd) as [SO' Hs].
  { intros j Hj. unfold keep, unless. destruct (live (m_data t) j) as [e|]; [|by left]. destruct (pred e); [by right|by left]. }
  { fold n. rewrite Ek. done. }
  fold n in SO', Hs. rewrite Ek in SO', Hs.
  assert (set_free (set_counts (set_nodes t d (m_link t)) (Z.of_nat (length kept)) (maxElem t)) tail 0 =
    set_counts (set_nodes t d (m_link t)) (Z.of_nat (length kept)) (maxElem t)) as Efr.
  { pose proof (free_head _ _ _ SO) as [F1 F2]. destruct t; cbn in *. by subst. }
  rewrite Efr in SO', Hs. rewrite u32_small by lia.
  assert (Z.of_nat (length kept) < n) as Hlt.
  { rewrite <- Ek. unfold keep. rewrite packed_unless. pose proof (live_elems_length t [] SO) as LL. rewrite (so_fsize _ _ _ SO) in LL.
    change (packed (live (m_data t)) n) with (live_elems t). cbn in LL.
    enough (length (filter (fun e => pred e = false) (live_elems t)) < length (live_elems t))%nat by (unfold n; lia).
    apply (length_filter_lt _ _ ea); [|by rewrite Pa].
    unfold live_elems, packed. apply list_elem_of_omap. exists a. split; [apply elem_of_seqZ; lia|done]. }
  destruct kept as [|e0 kept'] eqn:Ekk.
  - cbn [length Z.of_nat]. rewrite Z.eqb_refl. unfold clear, destruct_all. cbn. exists init, (n - 0). split; [done|].
    split; [done|]. right. left. split; [lia|done].
  - rewrite (proj2 (Z.eqb_neq 0 _)) by (cbn; lia). cbn [rbind]. eexists _, _. split; [done|]. split; [done|].
    right. right. split; [lia|]. split; [done|]. split; [done|]. split; [done|]. split; [cbn in *; lia|]. by repeat split.
Qed.

Lemma erase_if_ok pred t fl : wf None t fl -> m_enable_freelist_reuse t = true ->
  let kept := filter (fun e => pred e = false) (live_elems t) in
  exists t', erase_if pred t = Ok (t', Z.of_nat (length (live_elems t)) - Z.of_nat (length kept)) /\ wf None t' [] /\
    slots t' = Some <$> kept /\
    m_enable_freelist_reuse t' = true /\
    m_enable_auto_gc t' = gc_left kept (live_elems t) (m_enable_auto_gc t).
Proof.
  intros W Hre kept. pose proof (wf_slots _ _ _ W) as SO. pose proof (wf_linked _ _ _ W) as LI.
  pose proof (so_elem _ _ _ SO). unfold erase_if. rewrite Hre. cbn [negb]. unfold erase_if_impl.
  assert (exists t1, (if negb (freelist_size t =? 0) then let* r := revoke_deleted_no_relink t in Ok (fst r) else Ok t) = Ok t1 /\
    slots_ok None t1 [] /\ live_elems t1 = live_elems t /\ same_opts t t1 /\ bucket t1 = bucket t /\ nBucket t1 = nBucket t /\
    nElem t1 = nElem t - freelist_size t /\ (fl = [] -> t1 = t)) as (t1 & -> & SO1 & L1 & O1 & B1 & Nb1 & N1 & T1).
  { pose proof (free_head _ _ _ SO) as FH. destruct fl as [|x fl].
    - destruct FH as [E _]. rewrite E. cbn. exists t. do 6 (split; [done|]). split; [lia|done].
    - rewrite (proj2 (Z.eqb_neq _ 0)) by apply FH. cbn [negb].
      destruct (revoke_no_relink_ok t _ W) as (t1 & -> & SO1 & S1 & O1 & B1 & Nb1 & N1); [done|]. cbn [rbind fst].
      exists t1. split; [done|]. split; [done|]. split; [by apply live_elems_compact|]. done. }
  cbn [rbind]. pose proof (live_elems_length t fl SO) as LL.
  destruct (erase_if_nohole pred t1 SO1) as (t2 & r & -> & Er & Cases). cbn [rbind].
  cbv zeta in Er, Cases. rewrite L1 in Er, Cases. fold kept in Er, Cases. rewrite N1, <- LL in Er.
  assert (Hrel : fl <> [] \/ live_elems t <> [] -> nBucket t <> 1).
  { intros Hne E. destruct (li_dummy _ _ _ LI E) as (_ & _ & ->). destruct Hne as [|Hne]; [done|].
    destruct (live_elems t) as [|e l] eqn:El; [done|]. assert (e ∈ live_elems t) as He by (rewrite El; left).
    apply list_elem_of_omap in He as (x & Hx%elem_of_seqZ & He).
    apply (in_tab_not_dummy t [] x e LI); [|done]. split; [lia|done]. }
  assert (Hlink : forall t2, slots_ok None t2 [] -> bucket t2 = bucket t -> nBucket t2 = nBucket t -> nBucket t <> 1 ->
    exists t', relink_impl t2 = Ok t' /\ wf None t' [] /\ slots t' = slots t2 /\ same_opts t2 t').
  { intros t3 SO3 B3 Nb3 Hnb. pose proof (li_pos _ _ _ LI). pose proof (li_len _ _ _ LI).
    destruct (relink_ok t3 [] SO3) as (lk & pb & -> & W3); [lia|by rewrite B3, Nb3|by left|]. eexists. split; [done|]. split; [done|]. by repeat split. }
  pose proof (free_length _ _ _ SO) as FL. rewrite (so_fsize _ _ _ SO) in LL, FL, N1.
  destruct Cases as [(-> & -> & Ekk)|[(Hr & Ekk & ->)|(Hr & Hkne & SO2 & S2 & N2 & O2 & B2 & Nb2)]].
  - assert (Hg : gc_left kept (live_elems t) (m_enable_auto_gc t) = m_enable_auto_gc t) by (rewrite Ekk; by destruct (live_elems t)). rewrite Hg, Ekk.
    replace (Z.of_nat _ - Z.of_nat _) with 0 by lia. pose proof (omap_id_slots t1) as Ls. rewrite L1 in Ls.
    destruct fl as [|x fl].
    + rewrite (T1 eq_refl) in *. rewrite Z.eqb_refl. cbn [negb rbind]. exists t. split; [done|]. split; [done|]. split; [|done].
      by apply slots_nohole.
    + rewrite (proj2 (Z.eqb_neq _ _)) by (rewrite N1; cbn; lia). cbn [negb].
      destruct (Hlink t1 SO1 B1 Nb1) as (t' & -> & W' & S' & O'); [apply Hrel; by left|]. cbn [rbind]. exists t'.
      split; [done|]. split; [done|]. destruct O1 as [O1a O1b], O' as [Oa Ob]. split; [|by rewrite Oa, Ob, O1a, O1b].
      rewrite S', <- L1. by apply slots_nohole.
  - assert (nElem t <> 0) by lia. rewrite (proj2 (Z.eqb_neq _ _)) by (cbn; lia). cbn [negb]. cbn [relink_impl].
    change (relink_impl init) with (Ok (init : tab A)). cbn [rbind]. exists init.
    rewrite Ekk. split; [by rewrite Er, Ekk|]. split; [apply init_wf|]. split; [done|]. split; [done|].
    destruct (live_elems t); [rewrite Ekk in Er; cbn in Er; lia|done].
  - rewrite (proj2 (Z.eqb_neq _ _)) by lia. cbn [negb].
    destruct (Hlink t2 SO2) as (t' & -> & W' & S' & O'); [congruence|congruence|apply Hrel; right; intros E; rewrite E in Er; cbn in Er; lia|].
    cbn [rbind]. exists t'. split; [by rewrite Er|]. split; [done|]. split; [by rewrite S'|].
    destruct O1 as [O1a O1b], O2 as [O2a O2b], O' as [Oa Ob]. rewrite Oa, Ob, O2a, O2b, O1a, O1b. split; [done|].
    by destruct kept.
Qed.

Definition matching (pred : A -> bool) t (i : Z) : list Z :=
  packed (fun j => match live (m_data t) j with Some e => if pred e then Some j else None | None => None end) i.

Record keepid_inv (pred : A -> bool) t (fl : list Z) (i : Z) (s : tab A * Z) : Prop := {
  ki_wf : wf None s.1 (reverse (matching pred t i) ++ fl);
  ki_opts : same_opts t s.1;
  ki_elem : nElem s.1 = nElem t;
  ki_count : s.2 = Z.of_nat (length (matching pred t i));
  ki_live j : 0 <= j < nElem t ->
    live (m_data s.1) j = if decide (j < i) then unless pred (live (m_data t) j) else live (m_data t) j
}.

Lemma keepid_one_ok pred t fl i s e : wf None t fl -> m_enable_freelist_reuse t && m_enable_auto_gc t = false ->
  0 <= i < nElem t -> keepid_inv pred t fl i s -> live (m_data t) i = Some e ->
  exists s', keepid_one pred i s = Ok s' /\ keepid_inv pred t fl (i + 1) s'.
Proof.
  intros W Hgc Hi [W1 O1 N1 C1 L1] He. destruct s as [t1 c]. cbn [fst snd] in *. unfold keepid_one.
  assert (live (m_data t1) i = Some e) as He1 by (rewrite L1, decide_False by lia; done).
  rewrite (elem_ok _ _ _ He1). cbn [rbind].
  assert (matching pred t (i + 1) = matching pred t i ++ if pred e then [i] else []) as Em.
  { unfold matching. rewrite packed_succ by lia. rewrite He. by destruct (pred e). }
  destruct (pred e) eqn:Ep.
  - destruct (erase_i_ok t1 _ i e W1) as (t2 & fl2 & -> & W2 & O2 & S2).
    { split; [by rewrite N1|done]. }
    cbn [rbind]. unfold sp_free in S2. rewrite (andb_assoc (m_enable_freelist_reuse t1)) in S2.
    destruct O1 as [O1a O1b]. rewrite O1a, O1b, Hgc in S2. cbn [andb] in S2. injection S2 as S2 <-.
    pose proof (length_slots _ _ _ (wf_slots _ _ _ W1)) as Ls1. pose proof (length_slots _ _ _ (wf_slots _ _ _ W2)) as Ls2.
    assert (nElem t2 = nElem t) as N2 by (rewrite <- Ls2, <- S2, length_insert; lia).
    eexists. split; [done|]. constructor; cbn [fst snd].
    + rewrite Em, reverse_app. cbn. done.
    + eapply same_opts_trans; [|done]. by split.
    + done.
    + rewrite Em, length_app. cbn. lia.
    + intros j Hj. enough (Some (live (m_data t2) j) = Some (if decide (j < i + 1) then unless pred (live (m_data t) j) else live (m_data t) j)) by congruence.
      rewrite <- at_slots by lia. rewrite <- S2, at_insert by lia. case_decide as E.
      * subst. rewrite decide_True by lia. rewrite He. cbn. by rewrite Ep.
      * rewrite at_slots, L1 by lia. do 2 case_decide; (done || lia).
  - rewrite app_nil_r in Em. eexists. split; [done|]. constructor; cbn [fst snd]; rewrite ?Em; try done.
    intros j Hj. rewrite L1 by done. do 2 case_decide; try (done || lia). assert (j = i) as -> by lia. rewrite He. cbn. by rewrite Ep.
Qed.

Lemma keepid_ok pred t fl : wf None t fl -> m_enable_freelist_reuse t && m_enable_auto_gc t = false ->
  exists t', keepid_erase_if pred t = Ok (t', Z.of_nat (length (matching pred t (nElem t)))) /\
    wf None t' (reverse (matching pred t (nElem t)) ++ fl) /\ same_opts t t' /\
    slots t' = unless pred <$> slots t.
Proof.
  intros W Hgc. pose proof (wf_slots _ _ _ W) as SO. pose proof (so_elem _ _ _ SO). pose proof (free_head _ _ _ SO) as FH.
  assert (Hend : forall body, (forall i s, 0 <= i < nElem t -> keepid_inv pred t fl i s -> exists s', body i s = Ok s' /\ keepid_inv pred t fl (i + 1) s') ->
    exists t', for_ 0 (nElem t) body (t, 0) = Ok (t', Z.of_nat (length (matching pred t (nElem t)))) /\
    wf None t' (reverse (matching pred t (nElem t)) ++ fl) /\ same_opts t t' /\ slots t' = unless pred <$> slots t).
  { intros body Hb. destruct (for_inv (keepid_inv pred t fl) body 0 (nElem t) (t, 0)) as ([t' c] & -> & [W1 O1 N1 C1 L1]); [lia| |exact Hb|].
    - constructor; cbn; try done. intros j Hj. rewrite decide_False by lia. done.
    - cbn [fst snd] in *. subst c. exists t'. split; [done|]. split; [done|]. split; [done|].
      apply slots_eq; [lia|unfold slots; rewrite !length_fmap, length_seqZ; lia|].
      intros i Hi. rewrite at_fmap, at_slots by lia. cbn. rewrite L1, decide_True by lia. done. }
  unfold keepid_erase_if. destruct fl as [|x fl].
  - destruct FH as [-> ->]. rewrite !Z.eqb_refl. cbn [verify rbind]. apply Hend. intros i s Hi I.
    destruct (so_live _ _ _ SO i Hi) as (e & He); [apply not_elem_of_nil|done|]. by eapply keepid_one_ok.
  - destruct FH as [F1 F2]. rewrite (proj2 (Z.eqb_neq 0 _)) by congruence. pose proof (so_frange _ _ _ SO x (list_elem_of_here _ _)).
    rewrite (proj2 (Z.ltb_lt _ _)) by lia. cbn [verify rbind]. apply Hend. intros i s Hi I.
    pose proof (ki_wf _ _ _ _ _ I) as W1. pose proof (ki_elem _ _ _ _ _ I) as N1.
    rewrite (mark_of _ _ i W1) by lia. cbn [rbind].
    assert (i ∈ reverse (matching pred t i) ++ x :: fl <-> live (m_data t) i = None) as Ei.
    { rewrite (live_iff s.1 _ i (wf_slots _ _ _ W1)) by lia. rewrite (ki_live _ _ _ _ _ I) by done. by rewrite decide_False by lia. }
    destruct (live (m_data t) i) as [e|] eqn:E.
    + rewrite bool_decide_false by (rewrite Ei; done). cbn [negb]. by eapply keepid_one_ok.
    + rewrite bool_decide_true by by apply Ei. cbn [negb]. exists s. split; [done|].
      assert (matching pred t (i + 1) = matching pred t i) as Em.
      { unfold matching. rewrite packed_succ by lia. rewrite E. apply app_nil_r. }
      destruct I. constructor; rewrite ?Em; try done. intros j Hj. rewrite ki_live0 by done.
      do 2 case_decide; try (done || lia). assert (j = i) as -> by lia. by rewrite E.
Qed.

(** ** [reserve], [shrink_to_fit] *)

Lemma gold_reserve_ok t fl cap : wf None t fl -> nElem t <= cap <= delmark ->
  exists t', reserve t cap = Ok t' /\ wf None t' fl /\ same_opts t t' /\ slots t' = slots t /\
    maxElem t' = (if decide (cap = nElem t) then maxElem t else cap) /\ nElem t' = nElem t /\ 1 < nBucket t'.
Proof.
  intros W Hcap. unfold reserve. pose proof (so_elem _ _ _ (wf_slots _ _ _ W)).
  destruct (reserve_nodes_ok None t fl cap W Hcap) as (d & l & mx & -> & W1 & E1 & M1). cbn [rbind].
  destruct (rehash_ok _ fl (u64 (u64 (cap * 256) / load_factor (set_counts (set_nodes t d l) (nElem t) mx) + 1)) W1) as (lk & pb & nb & ml & -> & Hnb & W2).
  cbn [rbind fst]. eexists. split; [done|]. split; [done|]. split; [by split|]. split; [|done].
  apply slots_eq; cbn; [lia|by apply (length_slots _ _ _ (wf_slots _ _ _ W))|].
  intros i Hi. rewrite at_slots by done. unfold live. by rewrite E1.
Qed.

(** Throws: a capacity below the number of nodes or above the link type. *)
Lemma reserve_die t cap : cap < nElem t \/ delmark < cap -> reserve t cap = Throw terark_die.
Proof.
  intros H. unfold reserve, reserve_nodes. destruct (Z.leb_spec (nElem t) cap) as [L|L]; [|done]. cbn [verify rbind].
  rewrite (proj2 (Z.leb_gt _ _)) by lia. done.
Qed.

Lemma insert_die t fl e : wf None t fl -> ~ room t fl -> (forall i e', ~ has_key t (key_of e) i e') ->
  insert_i t e = Throw terark_die.
Proof.
  intros W R Hk. unfold insert_i, lazy_insert_elem_with_hash_i. rewrite Z.eqb_refl. cbn [assert_ rbind].
  destruct (chain_find_ok t fl (key_of e) W) as (p & r & -> & Hr & Hr'). cbn [rbind]. rewrite Hr. cbn [rbind].
  destruct r as [i|]; [by destruct Hr' as (e' & ?%Hk)|].
  destruct (gold_grow_ok t fl (key_of e) W) as (t1 & -> & W1 & Nb1 & O1 & N1 & M1 & D1). cbn [rbind].
  assert (~ room t1 fl) as R1. { destruct O1 as [_ O1]. unfold room in *. by rewrite O1, N1, M1. }
  clear - W1 R1. rename t1 into t. pose proof (wf_slots _ _ _ W1) as SO. pose proof (free_head _ _ _ SO) as FH.
  pose proof (so_elem _ _ _ SO). pose proof (so_max _ _ _ SO). unfold room, delmark, tail in *.
  assert (alloc_no_reuse t = Throw terark_die) as E.
  { unfold alloc_no_reuse. rewrite (proj2 (Z.eqb_eq (nElem t) (maxElem t))) by lia. rewrite (proj2 (Z.eqb_neq 0 _)) by lia.
    assert (u32 (2 * nElem t) = 2 * nElem t - 2 ^ 32) as ->.
    { unfold u32. symmetry. apply (Z.mod_unique _ _ 1); lia. }
    unfold reserve_nodes. rewrite (proj2 (Z.leb_gt _ _)) by lia. done. }
  unfold risk_slot_alloc. destruct fl as [|x fl].
  - destruct FH as [-> ->]. rewrite !Z.eqb_refl. cbn [assert_ rbind]. by rewrite E.
  - rewrite (proj2 (Z.eqb_neq 0 _)) by (symmetry; apply FH).
    destruct (m_enable_freelist_reuse t); [exfalso; apply R1; by left|]. cbn [negb]. by rewrite E.
Qed.

(** ** Refinement of the abstract table *)

Record R t (s : spec A) : Prop := {
  R_wf : wf None t (sp_holes s);
  R_slots : slots t = sp_slots s;
  R_gc : m_enable_auto_gc t = sp_gc s;
  R_reuse : m_enable_freelist_reuse t = sp_reuse s
}.

Lemma R_intro t t' fl (s : spec A) : wf None t fl -> same_opts t' t -> m_enable_auto_gc t' = sp_gc s ->
  m_enable_freelist_reuse t' = sp_reuse s -> R t (Spec (slots t) fl (sp_gc s) (sp_reuse s)).
Proof. intros W [O1 O2] G1 G2. constructor; cbn; congruence. Qed.

Lemma R_length t s : R t s -> Z.of_nat (length (sp_slots s)) = nElem t.
Proof. intros []. rewrite <- R_slots0. eapply length_slots, wf_slots, R_wf0. Qed.

Lemma at_slots_live t fl i e : slots_ok None t fl -> at_ (slots t) i = Some (Some e) <-> in_tab None t i e.
Proof.
  intros SO. split.
  - intros H. pose proof (at_Some _ _ _ H) as Hr. rewrite (length_slots _ _ _ SO) in Hr.
    rewrite at_slots in H by done. split; [done|]. split; [done|congruence].
  - intros (Hr & _ & He). rewrite at_slots by done. by rewrite He.
Qed.

Lemma sp_find_has t fl k : slots_ok None t fl ->
  match sp_find k (slots t) with
  | Some i => exists e, has_key t k i e
  | None => forall i e, ~ has_key t k i e
  end.
Proof.
  intros SO. unfold sp_find. destruct (list_find _ _) as [[i o]|] eqn:E.
  - apply list_find_Some in E as (Hi & Ho & _). destruct o as [e|]; [|done]. exists e. split; [|done].
    apply (at_slots_live _ fl); [done|]. unfold at_. by rewrite decide_True, Nat2Z.id by lia.
  - intros i e (Hi & Ek). apply (at_slots_live _ fl) in Hi; [|done]. unfold at_ in Hi. case_decide; [|done].
    apply list_find_None in E. rewrite Forall_lookup in E. by apply (E _ _ Hi).
Qed.

Lemma sp_find_eq t fl k i e : slots_ok None t fl -> has_key t k i e -> sp_find k (slots t) = Some i.
Proof.
  intros SO Hk. pose proof (sp_find_has t fl k SO) as H. destruct (sp_find k (slots t)) as [j|].
  - destruct H as (e' & Hj). f_equal. by eapply has_key_unique.
  - by destruct (H i e).
Qed.

Lemma sp_find_none t fl k : slots_ok None t fl -> (forall i e, ~ has_key t k i e) -> sp_find k (slots t) = None.
Proof.
  intros SO Hk. pose proof (sp_find_has t fl k SO) as H. destruct (sp_find k (slots t)) as [j|]; [|done].
  destruct H as (e' & Hj). by apply Hk in Hj.
Qed.

Lemma drop_matching_slots pred t fl : slots_ok None t fl -> drop_matching pred (slots t) = matching pred t (nElem t).
Proof.
  intros SO. unfold drop_matching, matching, packed. rewrite (length_slots _ _ _ SO).
  apply list_omap_ext, Forall2_same_length_lookup_2; [done|]. intros i x y Hx Hy. assert (x = y) as <- by congruence.
  apply list_elem_of_lookup_2, elem_of_seqZ in Hx. rewrite at_slots by lia. by destruct (live (m_data t) x).
Qed.

Lemma sp_free_R t t' (s : spec A) x fl' : same_opts t t' -> R t s -> wf None t' fl' ->
  sp_free (slots t) (sp_holes s) (m_enable_auto_gc t) (m_enable_freelist_reuse t) x = (slots t', fl') ->
  R t' (sp_erase s x).
Proof.
  intros O [W S G U] W' E. unfold sp_erase. rewrite S, G, U in E. rewrite E. eapply R_intro; eauto; congruence.
Qed.

Lemma keepid_R pred t (s : spec A) : R t s -> sp_reuse s && sp_gc s = false ->
  exists t' r, step t (OKeepidEraseIf (K := K) pred) = Ok (t', r) /\ (sp_keepid pred s).2 = r /\ R t' (sp_keepid pred s).1.
Proof.
  intros [W S G U] H. unfold step. destruct (keepid_ok pred t _ W) as (t' & -> & W' & O' & S'); [by rewrite G, U|].
  cbn [rbind fst snd]. eexists _, _. split; [done|]. unfold sp_keepid. rewrite <- S.
  rewrite (drop_matching_slots _ _ _ (wf_slots _ _ _ W)). split; [done|]. cbn [fst]. rewrite <- S'. by eapply R_intro.
Qed.

Lemma step_refines t (s : spec A) (o : op K A) : R t s -> legal s o -> fits s o ->
  exists t' r, step t o = Ok (t', r) /\ (spec_step s o).2 = r /\ R t' (spec_step s o).1.
Proof.
  intros HR Hleg HF. pose proof (R_length _ _ HR) as Len. pose proof HR as [W S G U]. pose proof (wf_slots _ _ _ W) as SO.
  destruct o as [e|k|k|i|p|p| |n| | |b|b]; cbn [spec_step].
  - cbn [step fits] in *. assert (room t (sp_holes s)) as Rm by (unfold room; lia).
    destruct (gold_insert_ok t _ e W Rm) as [(i & e' & -> & Hk)|(Hk & t' & i & fl' & -> & W' & O' & E)]; cbn [rbind fst snd]; rewrite <- S.
    + rewrite (sp_find_eq _ _ _ _ _ SO Hk). eexists _, _. done.
    + rewrite (sp_find_none _ _ _ SO Hk). rewrite U in E. rewrite E. eexists _, _. split; [done|]. split; [done|]. by eapply R_intro.
  - cbn [step]. destruct (find_i_ok t _ k W) as (i & -> & Hi). cbn [rbind]. rewrite <- S. eexists _, _. split; [done|]. split; [|done].
    cbn [snd]. destruct Hi as [(e & Hk)|(-> & Hk)].
    + by rewrite (sp_find_eq _ _ _ _ _ SO Hk).
    + rewrite (sp_find_none _ _ _ SO Hk). f_equal. by eapply length_slots.
  - cbn [step]. destruct (erase_ok t _ k W) as [(Hk & ->)|(x & e & t' & fl' & Hk & -> & W' & O' & E)]; cbn [rbind fst snd]; rewrite <- S.
    + rewrite (sp_find_none _ _ _ SO Hk). eexists _, _. done.
    + rewrite (sp_find_eq _ _ _ _ _ SO Hk). eexists _, _. split; [done|]. split; [done|]. by eapply sp_free_R.
  - cbn [step legal] in *. destruct Hleg as (e & He). rewrite <- S in He. apply (at_slots_live _ _ _ _ SO) in He.
    destruct (erase_i_ok t _ i e W He) as (t' & fl' & -> & W' & O' & E). cbn [rbind]. eexists _, _. split; [done|]. split; [done|].
    by eapply sp_free_R.
  - destruct (sp_reuse s) eqn:Er.
    + cbn [step]. destruct (erase_if_ok p t _ W U) as (t' & -> & W' & S' & U' & G'). cbn [rbind fst snd].
      eexists _, _. split; [done|]. rewrite <- S, omap_id_slots. split; [done|]. constructor; cbn; try done.
      by rewrite G', <- G.
    + destruct (keepid_R p t s HR) as (t' & r & E & Er' & HR'); [by rewrite Er|]. exists t', r. split; [|done].
      revert E. cbn [step]. unfold erase_if. rewrite U. cbn [negb]. done.
  - by apply keepid_R.
  - cbn [step]. destruct (revoke_ok t _ W) as (t' & -> & W' & O' & S'). cbn [rbind fst snd]. eexists _, _. split; [done|].
    split; [cbn; by rewrite (so_fsize _ _ _ SO)|]. cbn. rewrite <- S, <- S'. by eapply R_intro.
  - cbn [step fits] in *. destruct (gold_reserve_ok t _ n W) as (t' & -> & W' & [O1 O2] & S' & _); [lia|]. cbn [rbind]. eexists _, _. split; [done|].
    split; [done|]. constructor; cbn; congruence.
  - cbn [step]. destruct (erase_all_ok t _ W) as (t' & -> & W' & O' & S' & _). cbn [rbind]. eexists _, _. split; [done|].
    split; [done|]. cbn. rewrite <- S'. by eapply R_intro.
  - cbn [step]. rewrite (clear_ok t _ W). cbn [rbind]. eexists _, _. split; [done|]. split; [done|]. constructor; try done. apply init_wf.
  - cbn [step]. eexists _, _. split; [done|]. split; [done|]. constructor; cbn; try done.
    destruct W as [SO' LI']. split; [destruct SO'|destruct LI']; by constructor.
  - cbn [step]. eexists _, _. split; [done|]. split; [done|]. constructor; cbn; try done.
    destruct W as [SO' LI']. split; [destruct SO'|destruct LI']; by constructor.
Qed.

Lemma R_init : R init (Spec [] [] false true).
Proof. constructor; try done. apply init_wf. Qed.

Lemma exec_R (os : list (op K A)) t s : R t s -> can s os ->
  exists t', exec t os = Ok (t', (spec_exec s os).2) /\ R t' (spec_exec s os).1.
Proof.
  revert t s. induction os as [|o os IH]; intros t s HR Hc; cbn [exec spec_exec].
  - exists t. done.
  - destruct Hc as (Hl & Hf & Hc). destruct (step_refines t s o HR Hl Hf) as (t1 & r & -> & Er & HR1). cbn [rbind].
    destruct (spec_step s o) as [s1 r1]. cbn [fst snd] in *. subst r1. destruct (IH t1 s1 HR1 Hc) as (t2 & -> & HR2). cbn [rbind].
    destruct (spec_exec s1 os) as [s2 rs]. exists t2. done.
Qed.

(** ** Reachable tables *)

(** The contract of the C++ functions, on the concrete table. *)
Definition allowed t (o : op K A) : Prop :=
  match o with
  | OEraseI i => 0 <= i /\ is_deleted t i = Ok false
  | OKeepidEraseIf _ => m_enable_freelist_reuse t && m_enable_auto_gc t = false
  | _ => True
  end.

Inductive reachable : tab A -> Prop :=
  | reach_init : reachable init
  | reach_step t o t' r : reachable t -> allowed t o -> step t o = Ok (t', r) -> reachable t'.

Lemma reachable_exec os : Forall (fun o : op K A => match o with OEraseI _ | OKeepidEraseIf _ => False | _ => True end) os ->
  forall t t' rs, reachable t -> exec t os = Ok (t', rs) -> reachable t'.
Proof.
  induction 1 as [|o os Ho _ IH]; intros t t' rs Hr E; cbn [exec] in E; [by injection E as <- _|].
  destruct (step t o) as [[t1 r]| | |] eqn:E1; try done. cbn [rbind] in E.
  destruct (exec t1 os) as [[t2 rs2]| | |] eqn:E2; try done. injection E as <- _. eapply IH; [|done].
  eapply reach_step; [done| |done]. by destruct o.
Qed.

Lemma allowed_legal t s o : R t s -> allowed t o -> legal s o.
Proof.
  intros [W S G U] H. destruct o; cbn in *; try done.
  - destruct H as [Hi H]. unfold is_deleted in H. destruct (Z.ltb_spec idx (nElem t)) as [L|]; [|done]. cbn [assert_ rbind] in H.
    rewrite (mark_of _ _ _ W) in H by lia. injection H as H. apply bool_decide_eq_false in H.
    destruct (so_live _ _ _ (wf_slots _ _ _ W) idx) as (e & He); [lia|done|done|]. exists e. rewrite <- S.
    apply (at_slots_live _ _ _ _ (wf_slots _ _ _ W)). split; [lia|done].
  - by rewrite <- G, <- U.
Qed.

(** An operation within its contract either succeeds or dies in the two
    checks of the node count; it is then still related to its abstract table. *)
Lemma step_total t s o : R t s -> legal s o ->
  (exists t' r s', step t o = Ok (t', r) /\ R t' s') \/ step t o = Throw terark_die.
Proof.
  intros HR Hl. pose proof HR as [W S G U]. pose proof (so_elem _ _ _ (wf_slots _ _ _ W)). pose proof (R_length _ _ HR) as Len.
  assert (fits s o -> exists t' r s', step t o = Ok (t', r) /\ R t' s') as Hfit.
  { intros Hf. destruct (step_refines t s o HR Hl Hf) as (t' & r & E & _ & HR'). eauto. }
  destruct o as [e|k|k|i|p|p| |n| | |b|b]; try by left; apply Hfit.
  - cbn [step]. pose proof (sp_find_has t _ (key_of e) (wf_slots _ _ _ W)) as Hk. destruct (sp_find _ _) as [i|].
    { destruct Hk as (e' & Hk). left. rewrite (insert_dup t _ e i e' W Hk). cbn. eauto 6. }
    destruct (decide (room t (sp_holes s))) as [Rm|Rm].
    + destruct (gold_insert_ok t _ e W Rm) as [(i & e' & _ & Hk')|(_ & t' & i & fl' & E & W' & O' & Ea)]; [by apply Hk in Hk'|].
      left. rewrite E. cbn. eexists _, _, (Spec (slots t') fl' (sp_gc s) (sp_reuse s)). split; [done|]. by eapply R_intro.
    + right. by rewrite (insert_die t _ e W Rm Hk).
  - cbn [fits] in Hfit. destruct (decide (Z.of_nat (length (sp_slots s)) <= n <= delmark)) as [Hn|Hn].
    + left. by apply Hfit.
    + right. cbn [step]. rewrite reserve_die; [done|lia].
Qed.

(** ** The table as a finite map *)

Definition mem t (e : A) : Prop := exists i, in_tab None t i e.

Lemma mem_slots t fl e : slots_ok None t fl -> mem t e <-> exists i, at_ (slots t) i = Some (Some e).
Proof. intros SO. unfold mem. by setoid_rewrite (at_slots_live t fl _ e SO). Qed.

Lemma find_elem_some t fl k e : wf None t fl -> mem t e -> equal k (key_of e) = true -> find_elem t k = Ok (Some e).
Proof.
  intros W (i & Hi) Ek. pose proof (wf_slots _ _ _ W) as SO. unfold find_elem. destruct (find_i_ok t fl k W) as (j & -> & Hj). cbn [rbind].
  destruct Hj as [(e' & Hj)|(_ & Hno)]; [|by destruct (Hno i e)].
  assert (i = j) as <- by (eapply has_key_unique; [done|by split|done]). destruct Hi as (Hr & _ & He).
  rewrite (proj2 (Z.eqb_neq _ _)) by lia. by rewrite (elem_ok _ _ _ He).
Qed.

Lemma find_elem_none t fl k : wf None t fl -> (forall e, mem t e -> equal k (key_of e) = false) -> find_elem t k = Ok None.
Proof.
  intros W H. unfold find_elem. destruct (find_i_ok t fl k W) as (j & -> & Hj). cbn [rbind].
  destruct Hj as [(e & Hj & Ek)|(-> & _)]; [|by rewrite Z.eqb_refl].
  rewrite H in Ek; [done|]. by exists j.
Qed.

Lemma find_elem_cases t fl k : wf None t fl ->
  (exists e, mem t e /\ equal k (key_of e) = true /\ find_elem t k = Ok (Some e)) \/
  ((forall e, mem t e -> equal k (key_of e) = false) /\ find_elem t k = Ok None).
Proof.
  intros W. destruct (find_i_ok t fl k W) as (j & _ & [(e & Hj & Ek)|(_ & Hno)]).
  - left. exists e. assert (mem t e) by by exists j. split; [done|]. split; [done|]. by eapply find_elem_some.
  - right. assert (forall e, mem t e -> equal k (key_of e) = false) as H.
    { intros e (i & Hi). destruct (equal k (key_of e)) eqn:E; [|done]. by destruct (Hno i e). }
    split; [done|]. by eapply find_elem_none.
Qed.

Lemma mem_add t fl t' fl' b i e : slots_ok None t fl -> slots_ok None t' fl' ->
  sp_add (slots t) fl b e = (slots t', fl', i) -> forall e', mem t' e' <-> e' = e \/ mem t e'.
Proof.
  intros SO SO' E e'. rewrite (mem_slots t' fl'), (mem_slots t fl) by done. pose proof (length_slots _ _ _ SO) as LS.
  assert (New : slots t' = slots t ++ [Some e] -> (exists j, at_ (slots t') j = Some (Some e')) <-> e' = e \/ exists j, at_ (slots t) j = Some (Some e')).
  { intros ->. split.
    - intros (j & Hj). rewrite at_app in Hj. case_decide; [by eauto|]. pose proof (at_Some _ _ _ Hj) as Hr. cbn in Hr.
      replace (j - _) with 0 in Hj by lia. injection Hj as ->. by left.
    - intros [->|(j & Hj)].
      + exists (Z.of_nat (length (slots t))). rewrite at_app, decide_False by lia. by rewrite Z.sub_diag.
      + exists j. rewrite at_app, decide_True; [done|]. apply at_Some in Hj. lia. }
  unfold sp_add in E. destruct fl as [|x fl]; [|destruct b]; injection E as E _ _; [by apply New| |by apply New].
  pose proof (so_frange _ _ _ SO x (list_elem_of_here _ _)) as Hx. rewrite <- E.
  assert (at_ (slots t) x = Some None) as Hn.
  { rewrite at_slots by done. f_equal. apply (live_iff t (x :: fl)); [done|done|by left]. }
  split.
  - intros (j & Hj). rewrite at_insert in Hj by lia. case_decide; [left; congruence|right; eauto].
  - intros [->|(j & Hj)]; [exists x; by rewrite at_insert_eq by lia|]. exists j. rewrite at_insert_ne by (lia || congruence). done.
Qed.

Lemma mem_free t fl t' fl' gc b x e : slots_ok None t fl -> slots_ok None t' fl' -> in_tab None t x e ->
  sp_free (slots t) fl gc b x = (slots t', fl') -> forall e', mem t' e' <-> mem t e' /\ equal (key_of e) (key_of e') = false.
Proof.
  intros SO SO' Hx E e'. pose proof (length_slots _ _ _ SO) as LS. pose proof Hx as (Hxr & _ & Hxe).
  assert ((exists j, at_ (<[Z.to_nat x := None]> (slots t)) j = Some (Some e')) <-> mem t e' /\ equal (key_of e) (key_of e') = false) as Hset.
  { split.
    - intros (j & Hj). rewrite at_insert in Hj by lia. case_decide as Ej; [done|]. apply (at_slots_live _ fl) in Hj; [|done].
      split; [by exists j|]. destruct (equal (key_of e) (key_of e')) eqn:Ee; [|done]. destruct Ej. symmetry.
      destruct Hj as (Hjr & _ & Hje). by apply (so_keys _ _ _ SO x j e e').
    - intros ((j & Hj) & Hne). exists j. rewrite at_insert_ne; [by apply (at_slots_live _ fl)|lia|]. intros ->.
      destruct Hj as (_ & _ & Hje). rewrite Hxe in Hje. injection Hje as ->. by rewrite equal_refl in Hne. }
  rewrite (mem_slots t' fl') by done. unfold sp_free in E. rewrite <- Hset.
  destruct (b && _); injection E as E _; rewrite <- E; [|done]. unfold sp_compact.
  assert (forall sl : list (option A), (exists j, at_ (Some <$> omap id sl) j = Some (Some e')) <-> exists j, at_ sl j = Some (Some e')) as Hc; [|apply Hc].
  intros sl. assert (forall l : list (option A), (exists j, at_ l j = Some (Some e')) <-> Some e' ∈ l) as Hel.
  { intros l. rewrite list_elem_of_lookup. split; intros (j & Hj).
    - unfold at_ in Hj. case_decide; [|done]. eauto.
    - exists (Z.of_nat j). unfold at_. by rewrite decide_True, Nat2Z.id by lia. }
  rewrite !Hel, list_elem_of_fmap. split.
  - intros (y & [= <-] & Hy). apply list_elem_of_omap in Hy as (o & Ho & E'). cbn in E'. by subst.
  - intros Hy. exists e'. split; [done|]. apply list_elem_of_omap. by exists (Some e').
Qed.

(** ** Iteration *)

Lemma packed_skip {X} (keep : Z -> option X) a b : 0 <= a <= b -> (forall j, a <= j < b -> keep j = None) -> packed keep b = packed keep a.
Proof.
  intros Hab. replace b with (a + (b - a)) by lia. assert (0 <= b - a) as Hd by lia. revert Hd. generalize (b - a). intros d Hd. pattern d.
  apply natlike_ind; [by rewrite Z.add_0_r| |done]. clear d Hd. intros d Hd IH Hk. unfold Z.succ.
  replace (a + (d + 1)) with (a + d + 1) by lia. rewrite packed_succ by lia. rewrite (Hk (a + d)), app_nil_r by lia.
  apply IH. intros j Hj. apply Hk. lia.
Qed.

Lemma next_i_ok t fl i : wf None t fl -> 0 <= i < nElem t ->
  exists r, next_i t i = Ok r /\ i < r <= nElem t /\ (r = nElem t \/ exists e, live (m_data t) r = Some e) /\
    (forall j, i < j < r -> live (m_data t) j = None).
Proof.
  intros W Hi. pose proof (wf_slots _ _ _ W) as SO. unfold next_i. rewrite (proj2 (Z.ltb_lt _ _)) by lia. cbn [assert_ rbind].
  destruct (first_index_ok (fun i => let* f := is_free_link t i in Ok (negb f)) (fun i => negb (bool_decide (i ∈ fl))) (nElem t) (i + 1))
    as (r & -> & Hr); [lia| |].
  { intros j Hj. by rewrite (mark_of t fl j W) by lia. }
  cbn [rbind]. eexists. split; [done|].
  assert (forall j, 0 <= j < nElem t -> negb (bool_decide (j ∈ fl)) = false -> live (m_data t) j = None) as Hdead.
  { intros j Hj Hb. apply negb_false_iff, bool_decide_eq_true in Hb. by apply (live_iff t fl). }
  destruct r as [r|].
  - destruct Hr as (Hr & Pr & Hb). split; [lia|]. split.
    + right. apply (so_live _ _ _ SO); [lia| |done]. apply negb_true_iff, bool_decide_eq_false in Pr. done.
    + intros j Hj. apply Hdead; [lia|]. apply Hb. lia.
  - split; [lia|]. split; [by left|]. intros j Hj. apply Hdead; [lia|]. apply Hr. lia.
Qed.

Lemma beg_i_ok t fl : wf None t fl ->
  exists b, beg_i t = Ok b /\ 0 <= b <= nElem t /\ (b = nElem t \/ exists e, live (m_data t) b = Some e) /\
    (forall j, 0 <= j < b -> live (m_data t) j = None).
Proof.
  intros W. pose proof (wf_slots _ _ _ W) as SO. pose proof (so_elem _ _ _ SO). pose proof (free_length _ _ _ SO). unfold beg_i.
  pose proof (live_elems_length t fl SO) as LL. destruct (Z.eqb_spec (freelist_size t) (nElem t)) as [E|E].
  - exists (nElem t). split; [done|]. split; [lia|]. split; [by left|]. intros j Hj.
    destruct (live (m_data t) j) as [e|] eqn:Ej; [|done]. exfalso.
    assert (e ∈ live_elems t) as He. { apply list_elem_of_omap. exists j. split; [apply elem_of_seqZ; lia|done]. }
    destruct (live_elems t); [by apply not_elem_of_nil in He|cbn in LL; lia].
  - assert (0 < nElem t) as Hn by lia. pose proof (free_head _ _ _ SO) as FH. destruct (Z.eqb_spec (freelist_size t) 0) as [E0|E0]; cbn [negb].
    + destruct fl; [|by destruct FH]. exists 0. split; [done|]. split; [lia|]. split; [|intros; lia]. right.
      apply (so_live _ _ _ SO); [lia|apply not_elem_of_nil|done].
    + rewrite (mark_of t fl 0 W) by lia. cbn [rbind]. case_bool_decide as Hin.
      * destruct (next_i_ok t fl 0 W) as (r & -> & Hr & Hl & Hd); [lia|]. exists r. split; [done|]. split; [lia|]. split; [done|].
        intros j Hj. destruct (decide (j = 0)) as [->|]; [by apply (live_iff t fl)|]. apply Hd. lia.
      * exists 0. split; [done|]. split; [lia|]. split; [|intros; lia]. right. by apply (so_live _ _ _ SO).
Qed.

Lemma iterate_ok t fl : wf None t fl -> iterate t = Ok (live_elems t).
Proof.
  intros W. destruct (beg_i_ok t fl W) as (b & E & Hb & Hbl & Hbd). unfold iterate. rewrite E. cbn [rbind].
  destruct (loop_inv (fun '(i, acc) => 0 <= i <= nElem t /\ (i = nElem t \/ exists e, live (m_data t) i = Some e) /\ acc = packed (live (m_data t)) i)
    (fun '(i, _) => nElem t - i) (fun r => r = live_elems t)
    (fun '(i, acc) => if negb (i =? nElem t) then
      let* e := elem (m_data t) i in
      let* i := next_i t i in Ok (inl (i, acc ++ [e])) else Ok (inr acc)) (S (Z.to_nat (nElem t))) (b, [])) as (r & -> & ->); [|lia| |done].
  { split; [lia|]. split; [done|]. by rewrite (packed_skip _ 0 b) by (done || lia). }
  intros [i acc] (Hi & Hl & ->). split; [lia|]. destruct (Z.eqb_spec i (nElem t)) as [->|Hne]; cbn [negb].
  - right. eexists. split; [done|]. done.
  - left. destruct Hl as [|(e & He)]; [done|]. rewrite (elem_ok _ _ _ He). cbn [rbind].
    destruct (next_i_ok t fl i W) as (r & -> & Hr & Hrl & Hrd); [lia|]. cbn [rbind]. eexists. split; [done|]. cbv beta iota.
    split; [|lia]. split; [lia|]. split; [done|]. rewrite (packed_skip _ (i + 1) r) by (lia || (intros; apply Hrd; lia)).
    rewrite packed_succ by lia. by rewrite He.
Qed.

(** ** Serialisation *)

(** Load [items] into an empty table. *)
Lemma dio_load_ok t0 fl0 items : wf None t0 fl0 -> Z.of_nat (length items) <= delmark ->
  (forall i j e e', at_ items i = Some e -> at_ items j = Some e' -> equal (key_of e) (key_of e') = true -> i = j) ->
  exists t, dio_load t0 (Z.of_nat (length items), items) = Ok t /\ wf None t [] /\ slots t = Some <$> items.
Proof.
  intros W0 Hn Hk. unfold dio_load. rewrite (clear_ok _ _ W0). cbn [rbind]. set (n := Z.of_nat (length items)) in *. pose proof delmark_lt.
  destruct (gold_reserve_ok init [] n init_wf) as (t1 & -> & W1 & _ & _ & M1 & N1 & B1); [cbn; lia|]. cbn [rbind].
  pose proof (wf_slots _ _ _ W1) as SO1. pose proof (so_data _ _ _ SO1) as D1. pose proof (so_elem _ _ _ SO1).
  assert (maxElem t1 = n) as Mn. { rewrite M1. case_decide as E; [|done]. cbn in *. lia. }
  destruct (for_inv (fun i d => length d = length (m_data t1) /\ forall j, 0 <= j < i -> live d j = at_ items j)
    (fun i d => let* e := rd items i in wr d i (Live e)) 0 n (m_data t1)) as (d & -> & Ld & Hd); [lia|split; [done|intros; lia]| |].
  { intros i d Hi (Ld & Hd). destruct (at_is_Some items i) as (e & He); [lia|]. rewrite (rd_at _ _ _ He). cbn [rbind].
    rewrite wr_insert by lia. eexists. split; [done|]. rewrite length_insert. split; [done|]. intros j Hj.
    rewrite live_insert by lia. destruct (decide (j = i)) as [->|]; [done|]. apply Hd. lia. }
  cbn [rbind]. rewrite u32_small by lia. set (t2 := set_counts (set_nodes t1 d (m_link t1)) n (maxElem t1)).
  pose proof (free_head _ _ _ SO1) as [F1 F2].
  assert (slots_ok None t2 []) as SO2.
  { destruct SO1. constructor; cbn; try done; try lia.
    - rewrite F2. constructor.
    - intros x Hx. by apply not_elem_of_nil in Hx.
    - intros i Hi _ _. rewrite Hd by done. apply at_is_Some. lia.
    - intros i j e e' Hi Hj _ _. rewrite !Hd by done. apply Hk. }
  pose proof (li_len _ _ _ (wf_linked _ _ _ W1)).
  destruct (relink_ok t2 [] SO2) as (lk & pb & -> & W3); [done|done|by left|]. eexists. split; [done|]. split; [done|].
  apply slots_eq; cbn; [lia|by rewrite length_fmap|]. intros i Hi. rewrite Hd, at_fmap by done.
  destruct (at_is_Some items i) as (e & ->); [lia|done].
Qed.

Lemma at_live_elems t i : slots_ok None t [] -> 0 <= i < nElem t -> at_ (live_elems t) i = live (m_data t) i.
Proof.
  intros SO Hi. enough (Some <$> at_ (live_elems t) i = Some (live (m_data t) i)) as E.
  { destruct (at_ (live_elems t) i); cbn in E; congruence. }
  by rewrite <- at_fmap, <- slots_nohole, at_slots.
Qed.

Lemma dio_save_ok t : wf None t [] -> dio_save t = Ok (nElem t, live_elems t).
Proof.
  intros W. pose proof (wf_slots _ _ _ W) as SO. pose proof (so_elem _ _ _ SO). pose proof (so_max _ _ _ SO). pose proof delmark_lt.
  pose proof (free_head _ _ _ SO) as [F _]. unfold dio_save, size. rewrite F. rewrite Z.eqb_refl. cbn [negb].
  destruct (for_inv (fun i acc => acc = packed (live (m_data t)) i)
    (fun i acc => let* e := elem (m_data t) i in Ok (acc ++ [e])) 0 (nElem t) []) as (s & -> & ->); [lia|done| |].
  { intros i acc Hi ->. destruct (so_live _ _ _ SO i Hi) as (e & He); [apply not_elem_of_nil|done|].
    rewrite (elem_ok _ _ _ He). cbn [rbind]. eexists. split; [done|]. rewrite packed_succ by lia. by rewrite He. }
  cbn [rbind]. rewrite u32_small by lia. by rewrite Z.sub_0_r.
Qed.

Lemma dio_save_hole t fl : wf None t fl -> fl <> [] -> dio_save t = UB.
Proof.
  intros W Hfl. pose proof (wf_slots _ _ _ W) as SO. pose proof (so_elem _ _ _ SO). destruct fl as [|x fl]; [done|].
  pose proof (free_head _ _ _ SO) as [F _]. pose proof (so_frange _ _ _ SO x (list_elem_of_here _ _)) as Hx.
  destruct (first_index_ok (is_free_link t) (fun i => bool_decide (i ∈ x :: fl)) (nElem t) 0) as (r & _ & Hr); [lia|intros; by apply mark_of|].
  destruct r as [a|].
  2:{ specialize (Hr x Hx). apply bool_decide_eq_false in Hr. destruct Hr. left. }
  destruct Hr as (Ha & Pa & Pb). unfold dio_save. rewrite (proj2 (Z.eqb_neq _ 0)) by done. cbn [negb]. unfold for_.
  rewrite (for_loop_ub (fun _ _ => True) _ _ _ _ a); [done|done|lia| |].
  - intros k u Hk _. unfold is_deleted. rewrite (proj2 (Z.ltb_lt _ _)) by lia. cbn [assert_ rbind].
    rewrite (mark_of _ _ _ W), (Pb k) by lia. cbn [rbind]. eauto.
  - intros u _. unfold is_deleted. rewrite (proj2 (Z.ltb_lt _ _)) by lia. cbn [assert_ rbind].
    rewrite (mark_of _ _ _ W), Pa by lia. cbn [rbind]. apply bool_decide_eq_true in Pa.
    apply (live_iff t _ a SO Ha) in Pa. unfold live, elem in *. destruct (at_is_Some (m_data t) a) as (c & Hc); [pose proof (so_data _ _ _ SO); lia|].
    rewrite Hc in Pa. rewrite (rd_at _ _ _ Hc). cbn. by destruct c.
Qed.

(** ** Copy construction *)

Lemma copy_cell_ok y fl i : wf None y fl -> 0 <= i < nElem y -> exists c, copy_cell y i = Ok c /\ at_ (m_data y) i = Some c.
Proof.
  intros W Hi. pose proof (wf_slots _ _ _ W) as SO. pose proof (free_head _ _ _ SO) as FH. unfold copy_cell.
  destruct (at_is_Some (m_data y) i) as (c & Hc); [pose proof (so_data _ _ _ SO); pose proof (so_elem _ _ _ SO); lia|].
  assert (i ∉ fl -> (let* e := elem (m_data y) i in Ok (Live e)) = Ok c) as Hlive.
  { intros Hf. destruct (so_live _ _ _ SO i Hi Hf) as (e & He); [done|]. rewrite (elem_ok _ _ _ He). cbn. unfold live in He. rewrite Hc in He.
    destruct c; try done. congruence. }
  exists c. split; [|done]. destruct fl as [|x fl].
  - destruct FH as [-> _]. rewrite Z.eqb_refl. apply Hlive, not_elem_of_nil.
  - rewrite (proj2 (Z.eqb_neq _ 0)) by apply FH. rewrite (mark_of _ _ _ W) by done. cbn [rbind]. case_bool_decide as E; cbn [negb].
    + by apply rd_at.
    + by apply Hlive.
Qed.

Lemma copy_wf y fl : wf None y fl -> exists t, copy y = Ok t /\ wf None t fl /\ same_opts y t /\ slots t = slots y.
Proof.
  intros W. pose proof (wf_slots _ _ _ W) as SO. pose proof (so_elem _ _ _ SO). pose proof (so_max _ _ _ SO). unfold copy.
  pose proof (so_data _ _ _ SO). pose proof (so_link _ _ _ SO). pose proof (free_length _ _ _ SO) as FL. pose proof (free_head _ _ _ SO) as FH.
  destruct (Z.eqb_spec 0 (nElem y)) as [E|E].
  - destruct fl; [|lia]. destruct FH as [F1 F2]. eexists. split; [done|]. split; [|split; [done|unfold slots; by rewrite <- E]].
    rewrite F1, F2. destruct init_wf as [SO0 LI0]. pose proof (so_factor _ _ _ SO).
    split; [destruct SO0|destruct LI0]; by constructor.
  - assert (nBucket y <> 1) as Hnb.
    { intros E1. destruct (li_dummy _ _ _ (wf_linked _ _ _ W) E1) as (_ & _ & ->).
      destruct (so_live _ _ _ SO 0) as (e & He); [lia|apply not_elem_of_nil|done|].
      apply (in_tab_not_dummy y [] 0 e (wf_linked _ _ _ W)); [|done]. split; [lia|done]. }
    rewrite (proj2 (Z.eqb_neq _ 1)) by done. cbn [negb assert_ rbind].
    destruct (for_inv (fun i s => Z.of_nat (length s.1) = i /\ Z.of_nat (length s.2) = i /\
        (forall j, 0 <= j < i -> at_ s.1 j = at_ (m_data y) j /\ at_ s.2 j = at_ (m_link y) j))
      (fun i '(d, l) => let* c := copy_cell y i in let* x := rd (m_link y) i in Ok (d ++ [c], l ++ [x])) 0 (nElem y) ([], []))
      as ([d l] & -> & Ld & Ll & Heq); [lia|split; [done|]; split; [done|intros; lia]| |].
    { intros i [d l] Hi (Ld & Ll & Heq). cbn [fst snd] in *. destruct (copy_cell_ok y fl i W Hi) as (c & -> & Hc). cbn [rbind].
      destruct (at_is_Some (m_link y) i) as (x & Hx); [lia|]. rewrite (rd_at _ _ _ Hx). cbn [rbind]. eexists. split; [done|].
      cbn [fst snd]. rewrite !length_app. cbn [length]. split; [lia|]. split; [lia|]. intros j Hj. rewrite !at_app, Ld, Ll.
      case_decide; [apply Heq; lia|]. assert (j = i) as -> by lia. by rewrite Z.sub_diag, Hc, Hx. }
    cbn [rbind fst snd] in *. pose proof (wf_nodes None y fl d l (nElem y) W) as Wn.
    eexists. split; [done|]. split; [apply Wn|].
    + lia.
    + done.
    + done.
    + intros i Hi. by apply Heq.
    + intros i Hi. by apply Heq.
    + split; [done|]. unfold slots. cbn. apply list_fmap_ext. intros i x Hx. apply list_elem_of_lookup_2, elem_of_seqZ in Hx.
      unfold live. destruct (Heq x) as [-> _]; [lia|done].
Qed.

(** ** Admitting a constructed slot *)

(** [rehash] on a table whose pending slot holds an element with a new key links it. *)
Lemma rehash_pending t fl s e : wf (Some s) t fl -> live (m_data t) s = Some e -> fresh (Some s) t e ->
  nBucket t < 18446744073709551557 ->
  exists lk pb nb ml, rehash t (u64 (nBucket t + 1)) = Ok (set_buckets (set_nodes t (m_data t) lk) pb nb ml, nb) /\
    wf None (set_buckets (set_nodes t (m_data t) lk) pb nb ml) fl.
Proof.
  intros [SO LI] He F Hnb. pose proof (promote t fl s e SO He F) as SO'. pose proof (li_pos _ _ _ LI). unfold rehash.
  assert (u64 (nBucket t + 1) = nBucket t + 1) as -> by (apply Z.mod_small; lia).
  destruct (next_prime_ok (nBucket t + 1)) as (p & -> & Hp & Hge). cbn [rbind]. specialize (Hge ltac:(lia)).
  rewrite (proj2 (Z.leb_le 5 p)), (proj2 (Z.eqb_neq p _)) by lia. cbn [verify rbind negb].
  set (t1 := set_buckets t (replicate (Z.to_nat p) None) p (maxload t)).
  assert (slots_ok None t1 fl) as SO1.
  { pose proof (slots_ok_links None t fl (m_link t) (replicate (Z.to_nat p) None) p (maxload t) (is_sorted t) SO' eq_refl) as HS.
    by destruct t. }
  destruct (relink_ok t1 fl SO1) as (lk & pb & E1 & [SO2 LI2]); cbn.
  { lia. }
  { rewrite length_replicate. lia. }
  { right. intros i Hi. apply (li_marks _ _ _ LI). done. }
  fold t1. rewrite E1. cbn [rbind]. cbn in SO2, LI2. exists lk, pb, p, (u32 (u64 (p * load_factor t) / 256)). split; [done|].
  split; [destruct SO2|destruct LI2]; constructor; try done. cbn. lia.
Qed.

Lemma chain_find_pending t fl s k : wf (Some s) t fl ->
  exists p r, rd_init (bucket t) (hash k mod nBucket t) = Ok p /\ chain_find t k p = Ok r /\
    match r with
    | Some i => exists e, in_tab (Some s) t i e /\ equal k (key_of e) = true
    | None => forall i e, in_tab (Some s) t i e -> equal k (key_of e) = false
    end.
Proof.
  intros [SO LI]. destruct (li_chain _ _ _ LI (hash k mod nBucket t)) as (p & l & Hp & Hc & Hl).
  { apply hash_mod, (li_pos _ _ _ LI). }
  exists p. rewrite (rd_init_ok _ _ _ Hp). pose proof (so_elem _ _ _ SO).
  assert (forall x, x ∈ l -> 0 <= x < nElem t /\ exists e, live (m_data t) x = Some e) as Hr.
  { intros x Hx. apply Hl in Hx as (e & (? & _ & ?) & _). eauto. }
  destruct (chain_find_walk t k (S (Z.to_nat (nElem t))) l p Hc) as (r & E & Hres); [|done|].
  { pose proof (NoDup_range_length l (nElem t) (chain_NoDup _ _ _ Hc)) as B. specialize (B ltac:(intros x Hx; by apply Hr)). lia. }
  exists r. split; [done|]. split; [done|]. destruct r as [x|].
  - destruct Hres as (Hx & e & He & Ek). exists e. split; [|done]. apply Hl in Hx as (e' & Hi & _). destruct Hi as (? & ? & ?). done.
  - intros i e Hi. destruct (equal k (key_of e)) eqn:Ek; [|done]. enough (equal k (key_of e) = false) by congruence. apply (Hres i); [|apply Hi].
    apply Hl. exists e. split; [done|]. unfold hash_of. by rewrite (equal_hash k (key_of e)).
Qed.

(** * Properties *)

(** C2: From an empty table, every sequence of operations that keeps the contract
    of the functions and the size within 2^31 nodes runs to completion and
    computes the abstract table: the same results, the same element at every
    index, the same free list. *)
Theorem gold_exec_refines (os : list (op K A)) : can (Spec [] [] false true) os ->
  exists t, exec init os = Ok (t, (spec_exec (Spec [] [] false true) os).2) /\
    R t (spec_exec (Spec [] [] false true) os).1.
Proof. apply exec_R, R_init. Qed.

(** C3: Safety without a bound on the size: in every table reachable from the
    empty one the invariant holds, and an operation within its contract
    returns or stops in a [TERARK_VERIFY] (node count); no access to memory
    outside an array, no use of a destroyed element, no endless chain. *)
Theorem gold_reachable_safe t o : reachable t -> allowed t o ->
  (exists fl, wf None t fl) /\ ((exists t' r, step t o = Ok (t', r)) \/ step t o = Throw terark_die).
Proof.
  intros Hr Ha. assert (exists s, R t s) as (s & HR).
  { clear o Ha. induction Hr as [|t o t' r Hr (s & HR) Ha E]; [eexists; apply R_init|].
    destruct (step_total t s o HR) as [(t1 & r1 & s1 & E1 & HR1)|E1]; [by eapply allowed_legal| |congruence].
    rewrite E in E1. injection E1 as <- <-. by exists s1. }
  split; [exists (sp_holes s); apply HR|].
  destruct (step_total t s o HR) as [(t1 & r1 & s1 & E1 & _)|E1]; [by eapply allowed_legal|by left; eauto|by right].
Qed.

Lemma insert_find t fl e : wf None t fl -> room t fl -> exists t' r, insert_i t e = Ok (t', r) /\
  forall k, find_elem t' k =
    let* old := find_elem t k in Ok (if equal k (key_of e) then Some (default e old) else old).
Proof.
  intros W Rm. pose proof (wf_slots _ _ _ W) as SO.
  destruct (gold_insert_ok t fl e W Rm) as [(i & e0 & E & Hk)|(Hno & t' & i & fl' & E & W' & _ & Es)].
  + exists t, (i, false). split; [done|]. intros k. destruct Hk as (Hi & Ek).
    destruct (find_elem_cases t fl k W) as [(e1 & Hm & E1 & ->)|(Hn & ->)]; cbn [rbind]; [by destruct (equal k (key_of e))|].
    destruct (equal k (key_of e)) eqn:Ee; [|done]. exfalso. specialize (Hn e0 ltac:(by exists i)).
    by rewrite (equal_trans k (key_of e)) in Hn.
  + exists t', (i, true). split; [done|]. intros k. pose proof (mem_add t fl t' fl' _ i e SO (wf_slots _ _ _ W') Es) as Hm.
    destruct (find_elem_cases t fl k W) as [(e1 & Hm1 & E1 & ->)|(Hn & ->)]; cbn [rbind].
    * rewrite (find_elem_some t' fl' k e1 W') by (done || (apply Hm; by right)). by destruct (equal k (key_of e)).
    * destruct (equal k (key_of e)) eqn:Ee.
      { apply (find_elem_some t' fl'); [done|apply Hm; by left|done]. }
      { apply (find_elem_none t' fl'); [done|]. intros e' [->|He']%Hm; [done|by apply Hn]. }
Qed.

Lemma erase_find t fl k0 : wf None t fl -> exists t' n, erase t k0 = Ok (t', n) /\
  forall k, find_elem t' k = let* old := find_elem t k in Ok (if equal k k0 then None else old).
Proof.
  intros W. pose proof (wf_slots _ _ _ W) as SO.
  destruct (erase_ok t fl k0 W) as [(Hno & E)|(x & e & t' & fl' & Hk & E & W' & _ & Es)].
  + exists t, 0. split; [done|]. intros k. destruct (find_elem_cases t fl k W) as [(e1 & Hm & E1 & ->)|(Hn & ->)]; cbn [rbind].
    * destruct (equal k k0) eqn:Ek; [|done]. exfalso. destruct Hm as (i & Hi). apply (Hno i e1). split; [done|].
      apply equal_trans with k; [by rewrite equal_sym|done].
    * by destruct (equal k k0).
  + exists t', 1. split; [done|]. intros k. destruct Hk as (Hx & Ek0).
    pose proof (mem_free t fl t' fl' _ _ x e SO (wf_slots _ _ _ W') Hx Es) as Hm.
    destruct (find_elem_cases t fl k W) as [(e1 & Hm1 & E1 & ->)|(Hn & ->)]; cbn [rbind].
    * destruct (equal k k0) eqn:Ek.
      { apply (find_elem_none t' fl'); [done|]. intros e' (He' & Hne)%Hm. destruct (equal k (key_of e')) eqn:E'; [|done]. exfalso.
        enough (equal (key_of e) (key_of e') = true) by congruence.
        apply equal_trans with k0; [by rewrite equal_sym|]. apply equal_trans with k; [by rewrite equal_sym|done]. }
      { apply (find_elem_some t' fl'); [done| |done]. apply Hm. split; [done|].
        destruct (equal (key_of e) (key_of e1)) eqn:E'; [|done]. exfalso.
        enough (equal k k0 = true) by congruence. apply equal_trans with (key_of e1); [done|].
        apply equal_trans with (key_of e); [by rewrite equal_sym|by rewrite equal_sym]. }
    * replace (if equal k k0 then None else None) with (@None A) by (by destruct (equal k k0)).
      apply (find_elem_none t' fl'); [done|]. intros e' (He' & _)%Hm. by apply Hn.
Qed.

(** C4: Seen through [find_elem], insertion and erasure are those of a finite map
    (up to [equal]): insertion keeps an element that has the key already. *)
Theorem gold_map_laws t fl : wf None t fl ->
  (forall e, room t fl -> exists t' r, insert_i t e = Ok (t', r) /\
    forall k, find_elem t' k =
      let* old := find_elem t k in Ok (if equal k (key_of e) then Some (default e old) else old)) /\
  (forall k0, exists t' n, erase t k0 = Ok (t', n) /\
    forall k, find_elem t' k = let* old := find_elem t k in Ok (if equal k k0 then None else old)).
Proof.
  intros W. split; [intros e Rm; by apply (insert_find t fl)|intros k0; by apply (erase_find t fl)].
Qed.

(** C5: Iteration from [begin] to [end] ends, skips the free slots and visits
    every element once, in index order. *)
Theorem gold_iterate_correct t fl : wf None t fl ->
  iterate t = Ok (omap id (slots t)) /\ size t = Z.of_nat (length (omap id (slots t))).
Proof.
  intros W. pose proof (wf_slots _ _ _ W) as SO. rewrite omap_id_slots. split; [by eapply iterate_ok|].
  rewrite (live_elems_length t fl SO). unfold size. pose proof (free_length _ _ _ SO). pose proof (so_elem _ _ _ SO).
  pose proof (so_max _ _ _ SO). pose proof delmark_lt. apply u32_small. lia.
Qed.

(** C6: Loading what was saved from a table without free slots gives the same
    elements at the same indices. *)
Theorem gold_dio_roundtrip t t0 fl0 : wf None t [] -> wf None t0 fl0 ->
  exists s t', dio_save t = Ok s /\ dio_load t0 s = Ok t' /\ wf None t' [] /\ slots t' = slots t.
Proof.
  intros W W0. pose proof (wf_slots _ _ _ W) as SO. pose proof (so_elem _ _ _ SO). pose proof (so_max _ _ _ SO).
  pose proof (live_elems_length t [] SO) as LL. rewrite (so_fsize _ _ _ SO), Z.sub_0_r in LL.
  rewrite (dio_save_ok t W), <- LL.
  destruct (dio_load_ok t0 fl0 (live_elems t) W0) as (t' & E & W' & S'); [lia| |].
  - intros i j e e' Hi Hj. pose proof (at_Some _ _ _ Hi). pose proof (at_Some _ _ _ Hj). rewrite at_live_elems in Hi, Hj by (done || lia).
    apply (so_keys _ _ _ SO); (done || lia).
  - eexists _, t'. split; [done|]. split; [done|]. split; [done|]. rewrite S'. by rewrite slots_nohole.
Qed.

(** [dio_save] of a table with a free slot serialises the destroyed slots. *)
Theorem gold_dio_save_deleted t fl : wf None t fl -> fl <> [] -> dio_save t = UB.
Proof. apply dio_save_hole. Qed.

(** Copy construction gives a table with the same slots and free list. *)
Theorem gold_copy_correct y fl : wf None y fl ->
  exists t, copy y = Ok t /\ wf None t fl /\ slots t = slots y /\ maxElem t = nElem y.
Proof.
  intros W. destruct (copy_wf y fl W) as (t & E & W' & _ & S'). exists t. split; [done|]. split; [done|]. split; [done|].
  revert E. unfold copy. destruct (Z.eqb_spec 0 (nElem y)) as [E0|E0]; [intros [= <-]; done|].
  destruct (assert_ _); try done. cbn [rbind]. destruct (for_ _ _ _ _) as [[d l]| | |]; try done. intros [= <-]. done.
Qed.

(** [shrink_to_fit] never gives node memory back: [reserve_nodes] ignores a
    capacity equal to the number of nodes. *)
Theorem gold_shrink_keeps_nodes t fl : wf None t fl ->
  exists t', shrink_to_fit t = Ok t' /\ slots t' = slots t /\ maxElem t' = maxElem t.
Proof.
  intros W. pose proof (so_elem _ _ _ (wf_slots _ _ _ W)). pose proof (so_max _ _ _ (wf_slots _ _ _ W)).
  unfold shrink_to_fit. destruct (nElem t <? maxElem t); [|by exists t].
  destruct (gold_reserve_ok t fl (nElem t) W) as (t' & E & _ & _ & S' & M' & _); [lia|].
  exists t'. split; [done|]. split; [done|]. by rewrite M', decide_True.
Qed.

(** [risk_insert_on_slot] on an allocated slot with a constructed element: it
    reports the index that has the key already, or admits the slot. *)
Theorem gold_risk_insert_correct t fl slot e : wf (Some slot) t fl -> live (m_data t) slot = Some e ->
  nBucket t < 18446744073709551557 ->
  (exists p e', risk_insert_on_slot t slot = Ok (t, p) /\ in_tab (Some slot) t p e' /\ equal (key_of e) (key_of e') = true) \/
  (fresh (Some slot) t e /\ exists t', risk_insert_on_slot t slot = Ok (t', slot) /\ wf None t' fl /\ m_data t' = m_data t).
Proof.
  intros W He Hnb. pose proof (wf_slots _ _ _ W) as SO. pose proof (wf_linked _ _ _ W) as LI.
  destruct (so_pend _ _ _ SO slot eq_refl) as [Hs Hf]. unfold risk_insert_on_slot.
  rewrite (proj2 (Z.ltb_lt _ _)) by lia. cbn [assert_ rbind].
  destruct (li_marks _ _ _ LI slot Hs) as (v & Hv & Ev). unfold is_free_link. rewrite (rd_init_ok _ _ _ Hv). cbn [rbind].
  rewrite (proj2 (Z.eqb_neq v delmark)) by tauto. cbn [negb assert_ rbind]. rewrite (elem_ok _ _ _ He). cbn [rbind].
  destruct (chain_find_pending t fl slot (key_of e) W) as (p & r & Hp & Hr & Hk). unfold hash_of. rewrite Hp. cbn [rbind].
  rewrite Hr. cbn [rbind]. destruct r as [i|]; [left; destruct Hk as (e' & Hi & Ek); eauto 6|]. right. split; [done|].
  destruct (Z.leb_spec (maxload t) (u32 (nElem t - freelist_size t))) as [L|L].
  - destruct (rehash_pending t fl slot e W He Hk Hnb) as (lk & pb & nb & ml & -> & W'). cbn [rbind fst].
    eexists. split; [done|]. split; [|done]. destruct W' as [SO' LI']. split; [destruct SO'|destruct LI']; by constructor.
  - assert (nBucket t <> 1) as Hn1.
    { intros E. destruct (li_dummy _ _ _ LI E) as (_ & Em & _). pose proof (Z.mod_pos_bound (nElem t - freelist_size t) (2 ^ 32)).
      unfold u32 in L. lia. }
    destruct (link_new_ok t fl slot e W Hn1 Hk) as (t' & E & W' & _ & D' & _). unfold link_new in E. cbv zeta in E.
    pose proof (so_data _ _ _ SO). pose proof (so_elem _ _ _ SO). rewrite wr_insert in E by lia. cbn [rbind] in E.
    assert (<[Z.to_nat slot := Live e]> (m_data t) = m_data t) as Eid.
    { apply list_insert_id. unfold live, at_ in He. rewrite decide_True in He by lia.
      destruct (m_data t !! Z.to_nat slot) as [[]|]; try done. congruence. }
    rewrite Eid in E, D'. assert (set_nodes t (m_data t) (m_link t) = t) as Et by by destruct t. rewrite Et in E.
    change (hash (key_of e)) with (hash_of e) in *. rewrite Hp in E. cbn [rbind] in E |- *.
    destruct (wr_link t slot p) as [t1| | |]; try done. cbn [rbind] in E |- *.
    destruct (wr_bucket t1 _ slot) as [t2| | |]; try done. cbn [rbind] in E |- *. exists t'. split; [|done]. congruence.
Qed.
End props.

(** ** Concrete tables: keys and hashes are integers, elements are pairs. *)

#[export] Instance Z_hash : HashEqual Z := {| hash k := k mod 2 ^ 64; equal := Z.eqb |}.
#[export] Instance Z_first : KeyExtractor Z (Z * Z) := fst.

#[export] Instance Z_hash_laws : HashLaws Z.
Proof.
  split; cbn.
  - intros k. apply Z.mod_pos_bound. lia.
  - apply Z.eqb_refl.
  - apply Z.eqb_sym.
  - intros k k' k'' ->%Z.eqb_eq ?. done.
  - by intros k k' ->%Z.eqb_eq.
Qed.

Definition demo_inserts : list (op Z (Z * Z)) :=
  [OInsert (1, 10); OInsert (12, 20); OInsert (3, 30); OInsert (23, 40); OInsert (5, 50)].
Definition demo_ops : list (op Z (Z * Z)) := demo_inserts ++ [OErase 12; OInsert (23, 41); OErase 5].

Definition demo_tab : tab (Z * Z) := Eval vm_compute in
  match exec init demo_ops with Ok (t, _) => t | _ => init end.
Definition full_tab : tab (Z * Z) := Eval vm_compute in
  match exec init demo_inserts with Ok (t, _) => t | _ => init end.

Lemma demo_can : can (Spec [] [] false true) demo_ops.
Proof. vm_compute. repeat split; discriminate. Qed.

Lemma demo_wf : wf None demo_tab [4; 1].
Proof. destruct (exec_R demo_ops init _ R_init demo_can) as (t & E & [W _ _ _]). vm_compute in E. injection E as <-. exact W. Qed.

Lemma full_wf : wf None full_tab [].
Proof.
  assert (can (Spec [] [] false true) demo_inserts) as Hc by (vm_compute; repeat split; discriminate).
  destruct (exec_R demo_inserts init _ R_init Hc) as (t & E & [W _ _ _]). vm_compute in E. injection E as <-. exact W.
Qed.

(** [keepid_erase_if] while automatic garbage collection is on: the collection
    moves elements and shortens the table under the running loop. *)
Theorem gold_keepid_gc_ub : exec init (OEnableGc true :: demo_inserts ++ [OKeepidEraseIf (fun _ => true)]) = UB.
Proof. vm_compute. reflexivity. Qed.

Definition pend_tab : tab (Z * Z) := Eval vm_compute in
  match risk_slot_alloc demo_tab with
  | Ok (t, s) => set_nodes t (<[Z.to_nat s := Live (77, 7)]> (m_data t)) (m_link t) | _ => init end.

Lemma pend_wf : wf (Some 4) pend_tab [1].
Proof.
  assert (room demo_tab [4; 1]) as Rm by (left; done).
  destruct (alloc_ok demo_tab _ demo_wf Rm) as (t & s & fl & E & W & _ & _ & S). cbn [m_enable_freelist_reuse demo_tab] in S.
  destruct S as (-> & -> & _). vm_compute in E. injection E as <-. exact (wf_pend_data _ _ _ (Live (77, 7)) W).
Qed.

Lemma gold_exec_refines_witness : can (Spec [] [] false true) demo_ops /\
  exists t, exec init demo_ops = Ok (t, (spec_exec (Spec [] [] false true) demo_ops).2) /\
    R t (spec_exec (Spec [] [] false true) demo_ops).1.
Proof. split; [exact demo_can|]. apply (gold_exec_refines demo_ops). exact demo_can. Defined.

Lemma demo_reachable : reachable demo_tab.
Proof.
  apply (reachable_exec demo_ops) with init (match exec init demo_ops with Ok (_, rs) => rs | _ => [] end);
    [unfold demo_ops; repeat constructor|constructor|vm_compute; reflexivity].
Qed.

Lemma gold_reachable_safe_witness : reachable demo_tab /\ allowed demo_tab (OEraseI (K := Z) 3) /\
  ((exists fl, wf None demo_tab fl) /\
   ((exists t' r, step demo_tab (OEraseI (K := Z) 3) = Ok (t', r)) \/ step demo_tab (OEraseI (K := Z) 3) = Throw terark_die)).
Proof.
  assert (allowed demo_tab (OEraseI (K := Z) 3)) as Ha by (split; [lia|vm_compute; reflexivity]).
  split; [exact demo_reachable|]. split; [exact Ha|].
  apply (gold_reachable_safe demo_tab (OEraseI 3)); [exact demo_reachable|exact Ha].
Defined.

Lemma gold_map_laws_witness : wf None demo_tab [4; 1] /\ exists t' r, insert_i demo_tab (40, 4) = Ok (t', r) /\
  find_elem t' 40 = Ok (Some (40, 4)) /\ find_elem t' 23 = Ok (Some (23, 40)) /\ find_elem t' 5 = Ok None.
Proof.
  split; [exact demo_wf|].
  destruct (gold_map_laws demo_tab [4; 1] demo_wf) as [H _].
  destruct (H (40, 4)) as (t' & r & E & Hk); [right; right; vm_compute; reflexivity|].
  exists t', r. split; [exact E|]. rewrite !Hk. vm_compute. repeat split.
Defined.

Lemma gold_iterate_correct_witness : wf None demo_tab [4; 1] /\
  iterate demo_tab = Ok [(1, 10); (3, 30); (23, 40)] /\ size demo_tab = 3.
Proof.
  split; [exact demo_wf|]. destruct (gold_iterate_correct demo_tab [4; 1] demo_wf) as [H1 H2].
  split; [rewrite H1; vm_compute; reflexivity|rewrite H2; vm_compute; reflexivity].
Defined.

Lemma gold_dio_roundtrip_witness : wf None full_tab [] /\ wf None demo_tab [4; 1] /\
  exists s t', dio_save full_tab = Ok s /\ dio_load demo_tab s = Ok t' /\ wf None t' [] /\ slots t' = slots full_tab.
Proof.
  split; [exact full_wf|]. split; [exact demo_wf|]. apply (gold_dio_roundtrip full_tab demo_tab [4; 1]); [exact full_wf|exact demo_wf].
Defined.

Lemma gold_dio_save_deleted_witness : wf None demo_tab [4; 1] /\ dio_save demo_tab = UB.
Proof. split; [exact demo_wf|]. apply (gold_dio_save_deleted demo_tab [4; 1] demo_wf). discriminate. Defined.

Lemma gold_copy_correct_witness : wf None demo_tab [4; 1] /\
  exists t, copy demo_tab = Ok t /\ wf None t [4; 1] /\ slots t = slots demo_tab /\ maxElem t = nElem demo_tab.
Proof. split; [exact demo_wf|]. apply (gold_copy_correct demo_tab [4; 1] demo_wf). Defined.

Lemma gold_shrink_keeps_nodes_witness : wf None demo_tab [4; 1] /\ nElem demo_tab = 5 /\ maxElem demo_tab = 8 /\
  exists t', shrink_to_fit demo_tab = Ok t' /\ slots t' = slots demo_tab /\ maxElem t' = maxElem demo_tab.
Proof.
  split; [exact demo_wf|]. split; [reflexivity|]. split; [reflexivity|].
  apply (gold_shrink_keeps_nodes demo_tab [4; 1] demo_wf).
Defined.

Lemma gold_risk_insert_correct_witness : wf (Some 4) pend_tab [1] /\ live (m_data pend_tab) 4 = Some (77, 7) /\
  ((exists p e', risk_insert_on_slot pend_tab 4 = Ok (pend_tab, p) /\ in_tab (Some 4) pend_tab p e' /\
      equal (key_of (77, 7)) (key_of e') = true) \/
   (fresh (Some 4) pend_tab (77, 7) /\ exists t', risk_insert_on_slot pend_tab 4 = Ok (t', 4) /\ wf None t' [1] /\
      m_data t' = m_data pend_tab)).
Proof.
  split; [exact pend_wf|]. split; [reflexivity|].
  apply (gold_risk_insert_correct pend_tab [1] 4 (77, 7) pend_wf); [reflexivity|vm_compute; reflexivity].
Defined.
