(* ===== verification/RankVec.v ===== *)
(** * Rank/select vectors as a client sees them

    The templates over [RankSelect] ([GenLoudsDFA] of [fsa/louds_dfa.hpp]) first
    fill a vector bit by bit, then call [build_cache] once and from then on only
    ask.  [RankVec] names the operations they use, [raw] and [serves] are the two
    phases, and [RankVecLaws] is what a class promises.  The three classes
    [louds_dfa.cpp] instantiates the template with discharge it at the end. *)
From S2P Require Import Prelude Bits Febitvec Mem RankSpec RankSe256 RankIl256 RankSe512.
Import Febitvec RankSpec.

Module RankVec.

Class RankVec (T : Type) := {
  rv_rs :: RankSelect T;
  rv_one_seq_len : T -> Z -> res Z;
  rv_empty : T;
  rv_make : (nat -> Z) -> Z -> bool -> res T;
  rv_reserve : (nat -> Z) -> Z -> res T;
  rv_resize : (nat -> Z) -> T -> Z -> res T;
  rv_set : T -> Z -> bool -> res T;
  rv_set1_range : T -> Z -> Z -> res T;
  rv_push_back : (nat -> Z) -> T -> bool -> res T;
  rv_build_cache : (nat -> Z) -> (nat -> Z) -> bool -> bool -> T -> res T;
  (** [data()] with [mem_size()], in words; [risk_mmap_from] *)
  rv_data : T -> list Z;
  rv_mmap_from : list Z -> res T;
  (** the copy constructor, and when its result is defined; [None] for the class whose
      copies keep pointers into the block of the object they are made from *)
  rv_copy : option ((nat -> Z) -> T -> res T);
  rv_can_copy : T -> bool;
}.

(** [t] answers queries about the bits [l]. *)
Record serves {T} `{RankVec T} (t : T) (l : list bool) : Prop := {
  serves_size : rs_size t = len l;
  serves_is1 : forall p, 0 <= p < len l -> rs_is1 t p = Ok (lbit l p);
  serves_rank1 : forall p, 0 <= p < len l -> rs_rank1 t p = Ok (rank (lbit l) p);
  serves_rank0 : forall p, 0 <= p < len l -> rs_rank0 t p = Ok (p - rank (lbit l) p);
  serves_select0 : forall r p, p < len l -> is_select (fun i => negb (lbit l i)) r p -> rs_select0 t r = Ok p;
  serves_run : forall p n, 0 <= p -> 0 <= n -> p + n < len l -> (forall i, p <= i < p + n -> lbit l i = true) ->
    lbit l (p + n) = false -> rv_one_seq_len t p = Ok n;
  serves_mmap : 0 < len l -> rv_mmap_from (rv_data t) = Ok t;
  serves_copy : forall cp junk, rv_copy = Some cp -> rv_can_copy t = true -> cp junk t = Ok t;
}.

Class RankVecLaws (T : Type) `{RankVec T} := {
  raw : T -> list bool -> Prop;
  law_size : forall t l, raw t l -> rs_size t = len l;
  law_empty : raw rv_empty [];
  law_empty_serves : serves rv_empty [];
  law_make : forall junk n b, (forall j, word64 (junk j)) -> 0 <= n < 2 ^ 32 ->
    exists t, rv_make junk n b = Ok t /\ raw t (replicate (Z.to_nat n) b);
  law_reserve : forall junk n, (forall j, word64 (junk j)) -> 0 <= n < 2 ^ 32 ->
    exists t, rv_reserve junk n = Ok t /\ raw t [];
  law_resize : forall junk n, (forall j, word64 (junk j)) -> 0 <= n < 2 ^ 32 ->
    exists t, rv_resize junk rv_empty n = Ok t /\ raw t (replicate (Z.to_nat n) false);
  law_set : forall t l i b, raw t l -> 0 <= i < len l ->
    exists t', rv_set t i b = Ok t' /\ raw t' (<[Z.to_nat i := b]> l);
  law_set1_range : forall t l i n, raw t l -> 0 <= i < len l -> 0 <= n -> i + n <= len l ->
    exists t', rv_set1_range t i n = Ok t' /\
      raw t' (take (Z.to_nat i) l ++ replicate (Z.to_nat n) true ++ drop (Z.to_nat (i + n)) l);
  law_push_back : forall junk t l b, (forall j, word64 (junk j)) -> raw t l -> len l < 2 ^ 32 - 1 ->
    exists t', rv_push_back junk t b = Ok t' /\ raw t' (l ++ [b]);
  law_build_cache : forall junk1 junk2 s0 s1 t l, (forall j, word64 (junk1 j)) -> (forall j, word64 (junk2 j)) ->
    raw t l -> len l < 2 ^ 32 -> exists t', rv_build_cache junk1 junk2 s0 s1 t = Ok t' /\ serves t' l;
}.

(** ** From the laws of a built object to [serves] *)

Lemma rank_lbit v p : 0 <= p <= m_size v -> rank (lbit (bits v)) p = rank (bit_at (m_words v)) p.
Proof. intros Hp. apply rank_ext. intros i Hi. apply lbit_bits. lia. Qed.

Lemma lbit_past l p : len l <= p -> lbit l p = false.
Proof. intros H. unfold lbit, len in *. by rewrite nth_overflow by lia. Qed.

(** A run of ones that ends inside the vector is the run [one_seq_len] finds. *)
Lemma run_inside v p n : wf v -> 0 <= p -> 0 <= n -> p + n < m_size v ->
  (forall i, p <= i < p + n -> bit_at (m_words v) i = true) -> bit_at (m_words v) (p + n) = false ->
  Febitvec.one_seq_len v p = Ok n.
Proof.
  intros Hv Hp Hn Hl H1 H0. destruct (one_seq_len_ok v p Hv) as (k & -> & (K0 & K1 & K2 & K3)); [lia|]. f_equal.
  assert (m_size v <= 64 * num_words v) by (unfold num_words; pose proof (Z.div_mod (m_size v + 64 - 1) 64 ltac:(lia)); pose proof (mod64_range (m_size v + 64 - 1)); lia).
  destruct (Z.lt_trichotomy k n) as [|[|]]; [|done|].
  - assert (bit_at (m_words v) (p + k) = negb true) as E by (apply K3; lia).
    rewrite H1 in E by lia. done.
  - rewrite K2 in H0 by lia. done.
Qed.

(** The shape of the laws with ranks below the size only. *)
Lemma serves_intro {T} `{RankVec T} (t : T) (f : Z -> bool) (l : list bool) :
  rs_size t = len l -> (forall p, 0 <= p < len l -> f p = lbit l p) ->
  (forall p, 0 <= p < rs_size t -> rs_is1 t p = Ok (f p)) ->
  (forall p, 0 <= p < rs_size t -> rs_rank1 t p = Ok (rank f p)) ->
  (forall p, 0 <= p < rs_size t -> rs_rank0 t p = Ok (p - rank f p)) ->
  (forall r, 0 <= r < rs_size t - rank f (rs_size t) ->
     exists p, rs_select0 t r = Ok p /\ is_select (fun i => negb (f i)) r p) ->
  (forall p n, 0 <= p -> 0 <= n -> p + n < len l -> (forall i, p <= i < p + n -> f i = true) ->
    f (p + n) = false -> rv_one_seq_len t p = Ok n) ->
  rv_mmap_from (rv_data t) = Ok t -> (forall cp junk, rv_copy = Some cp -> rv_can_copy t = true -> cp junk t = Ok t) -> serves t l.
Proof.
  intros Hs Hf H1 R1 R0 S0 Hr Hmm Hcp. rewrite Hs in *.
  assert (HR : forall p, 0 <= p <= len l -> rank f p = rank (lbit l) p) by (intros; apply rank_ext; intros; apply Hf; lia).
  split; [done|..].
  - intros p Hp. rewrite H1 by done. by rewrite Hf.
  - intros p Hp. rewrite R1 by done. by rewrite HR by lia.
  - intros p Hp. rewrite R0 by done. by rewrite HR by lia.
  - intros r p Hp Sp. pose proof Sp as (P0 & P1 & P2). pose proof (is_select_rank_lt _ _ _ _ Sp Hp) as Hlt.
    rewrite rank_negb in Hlt, P2 by (unfold len; lia). pose proof (rank_bounds (lbit l) p P0).
    destruct (S0 r) as (q & -> & Sq); [rewrite HR by lia; lia|]. f_equal.
    eapply is_select_unique; [|exact Sp]. apply (is_select_ext (fun i => negb (f i))); [|done].
    intros i Hi. rewrite Hf; [done|].
    assert (q <= p); [|lia]. destruct (Z.le_gt_cases q p); [done|].
    destruct Sq as (Q0 & Q1 & Q2). assert (rank (fun i => negb (f i)) (p + 1) <= rank (fun i => negb (f i)) q) by (apply rank_mono; lia).
    rewrite rank_succ in H3 by lia. cbn beta in H3. rewrite Hf, P1 in H3 by lia. cbn in H3.
    assert (rank (fun i => negb (f i)) p = r); [|lia].
    rewrite rank_negb, HR by lia. lia.
  - intros p n Hp Hn Hl Ho Hz. apply Hr; [done..| |]; [intros; rewrite Hf by lia; auto|rewrite Hf by lia; auto].
  - done.
  - exact Hcp.
Qed.

(** ** Editing the bits a class inherits from [febitvec] *)

Lemma fv_make_repr junk n b : (forall j, word64 (junk j)) -> 0 <= n < 2 ^ 32 ->
  exists v, make junk n b = Ok v /\ repr v (replicate (Z.to_nat n) b).
Proof.
  intros Hj Hn. apply (exec_op_ok junk (OResize n b) empty_vec); [done| |done|].
  { split; [constructor|]. unfold m_capacity. cbn. split; [lia|done]. }
  cbn [spec_op]. rewrite decide_True by lia. f_equal. change (bits empty_vec) with (@nil bool). by rewrite resize_nil.
Qed.

Lemma fv_reserve_repr junk n : (forall j, word64 (junk j)) -> 0 <= n -> repr (reserve junk empty_vec n) [].
Proof.
  intros Hj Hn. destruct (exec_op_ok junk (OReserve n) empty_vec []) as (v & [= <-] & R); [done| |done| |done].
  { split; [constructor|]. unfold m_capacity. cbn. split; [lia|done]. }
  cbn [spec_op]. by rewrite decide_True by lia.
Qed.

Lemma fv_set_repr v l i b : repr v l -> 0 <= i < len l -> exists v', set v i b = Ok v' /\ repr v' (<[Z.to_nat i := b]> l).
Proof.
  intros [Hv <-] Hi. apply (exec_op_ok (fun _ => 0) (OSet i b) v); [unfold word64; lia|done|done|].
  cbn [spec_op]. by rewrite decide_True by lia.
Qed.

Lemma fv_push_repr junk v l b : (forall j, word64 (junk j)) -> repr v l -> len l < 2 ^ 32 - 1 ->
  exists v', push_back junk v b = Ok v' /\ repr v' (l ++ [b]).
Proof.
  intros Hj [Hv <-] Hl. apply (exec_op_ok junk (OPushBack b) v); [done|done|done|].
  cbn [spec_op]. by rewrite decide_True by lia.
Qed.

Lemma fv_set_range_repr v l i n : repr v l -> 0 <= i < len l -> 0 <= n -> i + n <= len l ->
  exists v', set_range v i n true = Ok v' /\ repr v' (take (Z.to_nat i) l ++ replicate (Z.to_nat n) true ++ drop (Z.to_nat (i + n)) l).
Proof.
  intros [Hv <-] Hi Hn Hl. rewrite len_bits in Hl, Hi by done. pose proof Hv as [_ Hc]. destruct (set_range_ok v i n true Hv) as (u & E & _ & R); [lia..|].
  eapply repr_splice; [lia|lia|done|rewrite len_replicate; lia|exact E|]. eapply view_ext; [exact R|].
  intros k Hk. cbn beta. destruct (Z.leb_spec i k), (Z.ltb_spec k (i + n)); try done.
  cbn [andb]. by rewrite lbit_replicate by lia.
Qed.

Lemma repr_size v l : repr v l -> m_size v = len l.
Proof. intros [Hv <-]. symmetry. by apply len_bits. Qed.


(** A class built on a [febitvec], once its laws are known. *)
Lemma fv_serves {T} `{RankVec T} (t : T) (b : febitvec) l : wf b -> bits b = l -> rs_laws t (bit_at (m_words b)) ->
  rs_size t = m_size b -> (forall p, rv_one_seq_len t p = Febitvec.one_seq_len b p) ->
  rv_mmap_from (rv_data t) = Ok t -> (forall cp junk, rv_copy = Some cp -> rv_can_copy t = true -> cp junk t = Ok t) -> serves t l.
Proof.
  intros Hw Hl L Hsz Hrun Hmm Hcp. assert (Hs : m_size b = len l) by (rewrite <- Hl, len_bits by done; done).
  apply (serves_intro t (bit_at (m_words b))); [by rewrite Hsz|..].
  - intros p Hp. rewrite <- Hl. symmetry. apply lbit_bits. lia.
  - apply (law_is1 _ _ L).
  - intros. apply (law_rank1 _ _ L). lia.
  - intros. apply (law_rank0 _ _ L). lia.
  - intros r Hr. destruct (law_select0 _ _ L r) as (p & ? & ? & _); [rewrite (law_max0 _ _ L); lia|eauto].
  - intros p n Hp Hn Hlt. rewrite Hrun. apply run_inside; (done || lia).
  - done.
  - exact Hcp.
Qed.

Lemma serves_nil {T} `{RankVec T} (t : T) : rs_size t = 0 -> (forall cp junk, rv_copy = Some cp -> rv_can_copy t = true -> cp junk t = Ok t) -> serves t [].
Proof. intros Hs Hcp. split; [done|..|exact Hcp]; unfold len; cbn [length]; try lia. intros r p Hp (? & _). lia. Qed.

Lemma repr_empty : repr empty_vec [].
Proof. split; [|done]. split; [constructor|]. unfold m_capacity. cbn. split; [lia|done]. Qed.

Lemma no_words v : wf v -> m_words v = [] -> m_size v = 0.
Proof. intros [_ Hc] E. unfold m_capacity in Hc. rewrite E in Hc. cbn in Hc. lia. Qed.

(** ** [rank_select_se_256] *)

Section se.
Import RankSe256.

Definition se_with (v : rank_select_se) (r : res febitvec) : res rank_select_se :=
  let* b := r in Ok (Se b (m_rank_cache v) (m_sel0_cache v) (m_sel1_cache v) (m_max_rank0 v) (m_max_rank1 v)).

#[export] Instance se_vec : RankVec rank_select_se := {|
  rv_rs := se_rs;
  rv_one_seq_len := fun v p => Febitvec.one_seq_len (fv v) p;
  rv_empty := no_cache empty_vec;
  rv_make := new_filled;
  rv_reserve := new_reserve;
  rv_resize := fun junk v n => se_with v (Febitvec.resize junk (fv v) n false);
  rv_set := fun v i b => se_with v (Febitvec.set (fv v) i b);
  rv_set1_range := fun v i n => se_with v (Febitvec.set_range (fv v) i n true);
  rv_push_back := fun junk v b => se_with v (Febitvec.push_back junk (fv v) b);
  rv_build_cache := build_cache;
  rv_data := words_of; rv_mmap_from := risk_mmap_from;
  rv_copy := Some (fun junk v => Ok (copy junk v)); rv_can_copy := fun _ => true |}.

Definition se_raw (v : rank_select_se) (l : list bool) : Prop := exists b, v = no_cache b /\ repr b l.

Lemma se_raw_with v u l r : r = Ok u -> repr u l -> se_with (no_cache v) r = Ok (no_cache u) /\ se_raw (no_cache u) l.
Proof. intros -> R. split; [done|]. by exists u. Qed.

Lemma se_build_serves j1 j2 s0 s1 v : (forall j, word64 (j1 j)) -> (forall j, word64 (j2 j)) -> wf v -> m_size v < 2 ^ 32 ->
  exists t, build_cache j1 j2 s0 s1 (no_cache v) = Ok t /\ serves t (bits v).
Proof.
  intros H1 H2 Hv Hl. destruct (decide (m_words v = [])) as [En|Hne].
  - exists (no_cache v). pose proof (no_words v Hv En) as Z0. split.
    { unfold build_cache, check_overflow, size, words_of. cbn [fv no_cache]. unfold is_null. rewrite En. destruct Hv as [_ [_ ->]]. by rewrite Z0. }
    assert (bits v = []) as -> by (unfold bits; by rewrite Z0). apply serves_nil; [done|]. intros cp junk [= <-] _. f_equal. by apply se_copy_ok.
  - destruct (se_build_cache_ok j1 j2 s0 s1 (no_cache v)) as (u & E & B & I & S & Hb); [done..|].
    exists u. split; [exact E|]. apply (fv_serves u (fv u)); [apply (built_wf u B)| |by apply se_laws|done..|by apply (se_mmap_ok u s0 s1)|intros cp junk [= <-] _; f_equal; apply se_copy_ok, (built_wf u B)].
    unfold bits. change (m_size (fv u)) with (size u). rewrite S. by apply map_seqZ_ext.
Qed.

#[export] Instance se_vec_laws : RankVecLaws rank_select_se.
Proof.
  refine {| raw := se_raw |}; cbn [rs_size rv_rs rv_empty rv_make rv_reserve rv_resize rv_set rv_set1_range rv_push_back rv_build_cache se_vec se_rs].
  - intros t l (b & -> & R). exact (repr_size b l R).
  - exists empty_vec. split; [done|]. apply repr_empty.
  - apply serves_nil; [done|]. by intros cp junk [= <-] _.
  - intros junk n b Hj Hn. destruct (fv_make_repr junk n b Hj Hn) as (v & E & R).
    exists (no_cache v). split; [|by exists v]. unfold new_filled. rewrite E. pose proof (repr_size _ _ R) as Sz. rewrite len_replicate in Sz by lia.
    unfold check_overflow. cbn [rbind]. by rewrite (proj2 (Z.ltb_ge _ _)) by lia.
  - intros junk n Hj Hn. eexists. split; [|eexists; split; [done|apply (fv_reserve_repr junk n); (done || lia)]].
    unfold new_reserve, check_overflow. by rewrite (proj2 (Z.ltb_ge _ _)) by (cbn; lia).
  - intros junk n Hj Hn. destruct (fv_make_repr junk n false Hj Hn) as (v & E & R).
    eexists. by apply (se_raw_with empty_vec v).
  - intros t l i b (v & -> & R) Hi. destruct (fv_set_repr v l i b R Hi) as (u & E & R').
    eexists. by apply (se_raw_with v u).
  - intros t l i n (v & -> & R) Hi Hn Hl. destruct (fv_set_range_repr v l i n R Hi Hn Hl) as (u & E & R').
    eexists. by apply (se_raw_with v u).
  - intros junk t l b Hj (v & -> & R) Hl. destruct (fv_push_repr junk v l b Hj R Hl) as (u & E & R').
    eexists. by apply (se_raw_with v u).
  - intros j1 j2 s0 s1 t l H1 H2 (v & -> & [Hv <-]) Hl. rewrite len_bits in Hl by done. by apply se_build_serves.
Qed.
End se.

(** ** [rank_select_se_512] *)

Section s512.
Import RankSe512.

Definition s512_with (v : rank_select_se_512) (r : res febitvec) : res rank_select_se_512 :=
  let* b := r in Ok (Se512 b (m_rank_cache v) (m_sel0_cache v) (m_sel1_cache v) (m_max_rank0 v) (m_max_rank1 v)).

#[export] Instance s512_vec : RankVec rank_select_se_512 := {|
  rv_rs := se512_rs;
  rv_one_seq_len := fun v p => Febitvec.one_seq_len (fv v) p;
  rv_empty := no_cache empty_vec;
  rv_make := new_filled;
  rv_reserve := new_reserve;
  rv_resize := fun junk v n => s512_with v (Febitvec.resize junk (fv v) n false);
  rv_set := fun v i b => s512_with v (Febitvec.set (fv v) i b);
  rv_set1_range := fun v i n => s512_with v (Febitvec.set_range (fv v) i n true);
  rv_push_back := fun junk v b => s512_with v (Febitvec.push_back junk (fv v) b);
  rv_build_cache := build_cache;
  rv_data := words_of; rv_mmap_from := risk_mmap_from;
  rv_copy := Some copy; rv_can_copy := fun v => nlines (size v) mod 3 =? 0 |}.

Definition s512_raw (v : rank_select_se_512) (l : list bool) : Prop := exists b, v = no_cache b /\ repr b l.

Lemma s512_raw_with v u l r : r = Ok u -> repr u l -> s512_with (no_cache v) r = Ok (no_cache u) /\ s512_raw (no_cache u) l.
Proof. intros -> R. split; [done|]. by exists u. Qed.

Lemma s512_build_serves j1 j2 s0 s1 v : (forall j, word64 (j1 j)) -> (forall j, word64 (j2 j)) -> wf v -> m_size v < 2 ^ 32 ->
  exists t, build_cache j1 j2 s0 s1 (no_cache v) = Ok t /\ serves t (bits v).
Proof.
  intros H1 H2 Hv Hl. destruct (decide (m_words v = [])) as [En|Hne].
  - exists (no_cache v). pose proof (no_words v Hv En) as Z0. split.
    { unfold build_cache, check_overflow, size, words_of. cbn [fv no_cache]. unfold is_null. rewrite En. destruct Hv as [_ [_ ->]]. by rewrite Z0. }
    assert (bits v = []) as -> by (unfold bits; by rewrite Z0). apply serves_nil; [done|]. intros cp junk [= <-] _. destruct v as [ws sz h]. cbn in En, Z0. subst ws sz. destruct Hv as [_ [_ Hh]]. cbn in Hh. by subst h.
  - destruct (s512_build_cache_ok j1 j2 s0 s1 v) as (u & E & B & I & S & Hb); [done..|].
    exists u. split; [exact E|]. apply (fv_serves u (fv u)); [apply (built_wf u B)| |by apply s512_laws|done..|by apply (s512_mmap_ok u s0 s1)|intros cp junk [= <-] Hc; rewrite (s512_copy_ok junk u B); cbn [rv_can_copy s512_vec] in Hc; by rewrite Hc].
    unfold bits. change (m_size (fv u)) with (size u). rewrite S. by apply map_seqZ_ext.
Qed.

#[export] Instance s512_vec_laws : RankVecLaws rank_select_se_512.
Proof.
  refine {| raw := s512_raw |}; cbn [rs_size rv_rs rv_empty rv_make rv_reserve rv_resize rv_set rv_set1_range rv_push_back rv_build_cache s512_vec se512_rs].
  - intros t l (b & -> & R). exact (repr_size b l R).
  - exists empty_vec. split; [done|]. apply repr_empty.
  - apply serves_nil; [done|]. by intros cp junk [= <-] _.
  - intros junk n b Hj Hn. destruct (fv_make_repr junk n b Hj Hn) as (v & E & R).
    exists (no_cache v). split; [|by exists v]. unfold new_filled. rewrite E. pose proof (repr_size _ _ R) as Sz. rewrite len_replicate in Sz by lia.
    unfold check_overflow. cbn [rbind]. by rewrite (proj2 (Z.ltb_ge _ _)) by lia.
  - intros junk n Hj Hn. eexists. split; [|eexists; split; [done|apply (fv_reserve_repr junk n); (done || lia)]].
    unfold new_reserve, check_overflow. by rewrite (proj2 (Z.ltb_ge _ _)) by (cbn; lia).
  - intros junk n Hj Hn. destruct (fv_make_repr junk n false Hj Hn) as (v & E & R).
    eexists. by apply (s512_raw_with empty_vec v).
  - intros t l i b (v & -> & R) Hi. destruct (fv_set_repr v l i b R Hi) as (u & E & R').
    eexists. by apply (s512_raw_with v u).
  - intros t l i n (v & -> & R) Hi Hn Hl. destruct (fv_set_range_repr v l i n R Hi Hn Hl) as (u & E & R').
    eexists. by apply (s512_raw_with v u).
  - intros junk t l b Hj (v & -> & R) Hl. destruct (fv_push_repr junk v l b Hj R Hl) as (u & E & R').
    eexists. by apply (s512_raw_with v u).
  - intros j1 j2 s0 s1 t l H1 H2 (v & -> & [Hv <-]) Hl. rewrite len_bits in Hl by done. by apply s512_build_serves.
Qed.
End s512.

(** ** [rank_select_il_256]; [cap_of] is the growth of its line array *)

Section il.
Import RankIl256.
Context (cap_of : Z -> Z) (Hcap : forall k, k <= cap_of k).

#[export] Instance il_vec : RankVec rank_select_il := {|
  rv_rs := il_rs;
  rv_one_seq_len := one_seq_len;
  rv_empty := empty_il;
  rv_make := fun junk => new_filled junk cap_of;
  rv_reserve := new_reserve;
  rv_resize := fun junk v n => resize junk cap_of v n false;
  rv_set := set;
  rv_set1_range := fun v i n => set_range v i n true;
  rv_push_back := fun junk => push_back junk cap_of;
  rv_build_cache := fun junk _ s0 s1 => build_cache junk s0 s1;
  rv_data := m_lines; rv_mmap_from := risk_mmap_from;
  rv_copy := None; rv_can_copy := fun _ => false |}.

Definition il_raw (v : rank_select_il) (l : list bool) : Prop := wf v /\ plain v /\ bits v = l.

Lemma il_raw_of v v' l n : il_repr v' l -> plain v -> m_lines v' = m_lines v' -> n_lines v' = BitsToLines n -> m_size v' = n ->
  v' = Il (m_lines v') (n_lines v') (m_fast_select0 v) (m_fast_select1 v) (m_max_rank0 v) (m_max_rank1 v) (m_size v') -> il_raw v' l.
Proof.
  intros ((W & S & N & L) & Hb) Hp _ Hn Hs Ev. split; [|split; [|done]].
  - split; [done|]. split; [done|]. split; [by rewrite Hs|done].
  - unfold plain. rewrite Hp in Ev. exact Ev.
Qed.

Lemma set_inv v i b v' : set v i b = Ok v' -> exists ws, v' = with_lines v ws.
Proof.
  unfold set, set1, set0. destruct (i <? m_size v); [|done]. cbn [assert_ rbind].
  destruct (i / LineBits <? n_lines v); [|by destruct b]. cbn [assert_ rbind].
  destruct b; [destruct (terark_bit_set1 _ _)|destruct (terark_bit_set0 _ _)]; cbn [rbind]; intros [= <-]; eauto.
Qed.

Lemma il_raw_repr v l : il_raw v l -> il_repr v l.
Proof. intros (W & _ & B). split; [by apply wf_wfe|done]. Qed.

Lemma il_raw_size v l : il_raw v l -> m_size v = len l.
Proof. intros (W & _ & <-). symmetry. apply (len_bits (as_fv v)). apply as_fv_wf. by apply wf_wfe. Qed.

Lemma il_raw_set v l i b : il_raw v l -> 0 <= i < len l -> exists v', set v i b = Ok v' /\ il_raw v' (<[Z.to_nat i := b]> l).
Proof.
  intros Hr Hi. pose proof Hr as (W & P & <-).
  destruct (il_exec_op_ok (fun _ => 0) cap_of (IlSet i b) v (<[Z.to_nat i := b]> (bits v))) as (u & E & R);
    [by unfold word64|done|by apply wf_wfe|cbn; by rewrite decide_True by lia|].
  exists u. split; [done|]. destruct (set_inv _ _ _ _ E) as (ws & ->).
  eapply (il_raw_of v _ _ (m_size v)); [exact R|done|done| |done|done]. apply W.
Qed.

Lemma il_raw_push junk v l b : (forall j, word64 (junk j)) -> il_raw v l -> len l < 2 ^ 32 - 1 ->
  exists v', push_back junk cap_of v b = Ok v' /\ il_raw v' (l ++ [b]).
Proof.
  intros Hj Hr Hl. pose proof Hr as (W & P & <-). rewrite <- (il_raw_size v (bits v) Hr) in Hl.
  destruct (il_exec_op_ok junk cap_of (IlPushBack b) v (bits v ++ [b])) as (u & E & R);
    [done|done|by apply wf_wfe|cbn; rewrite <- (il_raw_size v (bits v) Hr); by rewrite decide_True by lia|].
  exists u. split; [done|]. cbn [il_exec_op] in E. pose proof W as (_ & S & N & _). unfold push_back, push_back_slow_path, LineBits in E.
  pose proof (lines_bounds (m_size v) ltac:(lia)). pose proof (lines_bounds (m_size v + 1) ltac:(lia)).
  rewrite (proj2 (Z.leb_gt _ _)) in E by lia. cbn [rbind] in E. destruct (Z.ltb_spec (m_size v) (n_lines v * 256)).
  - destruct (set_inv _ _ _ _ E) as (ws & ->). eapply (il_raw_of v _ _ (m_size v + 1)); [exact R|done|done| |done|done].
    cbn [with_lines with_size n_lines]. lia.
  - destruct (wr_line _ _ _) as [w2| | |] eqn:Ew; cbn [rbind] in E; try done.
    destruct (set_inv _ _ _ _ E) as (ws & ->). eapply (il_raw_of v _ _ (m_size v + 1)); [exact R|done|done| |done|done].
    cbn [with_lines n_lines]. lia.
Qed.

Lemma il_raw_empty : il_raw empty_il [].
Proof. split; [|done]. split; [constructor|]. split; [cbn; lia|]. split; [done|cbn; lia]. Qed.

Lemma il_raw_resize junk n b : (forall j, word64 (junk j)) -> 0 <= n < 2 ^ 32 ->
  exists v, resize junk cap_of empty_il n b = Ok v /\ new_filled junk cap_of n b = Ok v /\ il_raw v (replicate (Z.to_nat n) b).
Proof.
  intros Hj Hn. destruct (il_resize_ok junk cap_of empty_il n b Hj Hcap) as (u & E & V); [apply wf_wfe, il_raw_empty|done|].
  exists u. split; [done|]. pose proof (lines_bounds n ltac:(lia)).
  assert (En : new_filled junk cap_of n b = Ok u).
  { rewrite <- E. unfold new_filled, resize_fill, resize. destruct (check_overflow n); [|done..]. cbn [rbind n_lines empty_il m_lines].
    destruct (Z.leb_spec (BitsToLines n) 0); [|done]. assert (BitsToLines n = 0) as -> by lia. done. }
  split; [done|]. assert (Eb : bits u = replicate (Z.to_nat n) b).
  { eapply (bits_eq (as_fv u)); [by apply as_fv_view|rewrite len_replicate; lia|]. intros p Hp. cbn [empty_il n_lines].
    destruct (Z.ltb_spec p (256 * 0)); [lia|]. by rewrite lbit_replicate. }
  unfold resize, check_overflow in E. rewrite (proj2 (Z.ltb_ge _ _)) in E by lia. cbn [rbind] in E.
  destruct (if _ <=? _ then _ else _) as [ws| | |]; cbn [rbind] in E; try done. injection E as <-.
  eapply (il_raw_of empty_il _ _ n); [|done..]. split; [apply V|done].
Qed.

Lemma il_raw_reserve junk n : (forall j, word64 (junk j)) -> 0 <= n < 2 ^ 32 ->
  exists v, new_reserve junk n = Ok v /\ il_raw v [].
Proof.
  intros Hj Hn. unfold new_reserve, check_overflow. rewrite (proj2 (Z.ltb_ge _ _)) by lia. cbn [rbind]. eexists. split; [done|].
  pose proof (lines_bounds n ltac:(lia)).
  destruct (realloc_lines_ok junk [] 0 (BitsToLines n) Hj) as (L' & W' & _ & _); [constructor|lia|cbn; lia|]. cbn zeta in *.
  split; [|split; [done|]].
  - split; [done|]. split; [cbn; lia|]. split; [done|]. cbn [n_lines]. lia.
  - unfold bits. cbn [m_size]. done.
Qed.

(** Setting a range bit by bit. *)
Lemma il_raw_set_range v l i n : il_raw v l -> 0 <= i < len l -> 0 <= n -> i + n <= len l ->
  exists v', set_range v i n true = Ok v' /\ il_raw v' (take (Z.to_nat i) l ++ replicate (Z.to_nat n) true ++ drop (Z.to_nat (i + n)) l).
Proof.
  intros Hv Hi Hn Hl. unfold set_range.
  apply (for_inv (fun k u => il_raw u (take (Z.to_nat i) l ++ replicate (Z.to_nat k) true ++ drop (Z.to_nat (i + k)) l))); [done| |].
  - rewrite Z.add_0_r. change (replicate (Z.to_nat 0) true) with (@nil bool). change ([] ++ ?x) with x. by rewrite take_drop.
  - intros k u Hk Hu. destruct (il_raw_set u _ (i + k) true Hu) as (u' & E & R).
    { rewrite !len_app, len_take, len_replicate, len_drop by lia. lia. }
    exists u'. split.
    { rewrite <- E. unfold set. rewrite (proj2 (Z.ltb_lt _ _)); [done|]. rewrite (il_raw_size _ _ Hu).
      rewrite !len_app, len_take, len_replicate, len_drop by lia. lia. }
    eapply eq_ind; [exact R|]. unfold len in *.
    rewrite insert_app_r_alt by (rewrite length_take; lia). f_equal.
    rewrite length_take, insert_app_r_alt by (rewrite length_replicate; lia). rewrite length_replicate.
    replace (Z.to_nat (k + 1)) with (Z.to_nat k + 1)%nat by lia. rewrite replicate_add. rewrite <- app_assoc. f_equal.
    replace (Z.to_nat (i + k) - _ `min` _ - _)%nat with O by lia.
    destruct (drop (Z.to_nat (i + k)) l) as [|x rest] eqn:D.
    { apply (f_equal length) in D. rewrite length_drop in D. cbn in D. lia. }
    cbn. f_equal. replace (Z.to_nat (i + (k + 1))) with (Z.to_nat (i + k) + 1)%nat by lia. by rewrite <- drop_drop, D.
Qed.

Lemma il_build_serves junk s0 s1 v l : (forall j, word64 (junk j)) -> il_raw v l ->
  exists t, build_cache junk s0 s1 v = Ok t /\ serves t l.
Proof.
  intros Hj (W & P & Hl). destruct (build_of_ok false junk s0 s1 v Hj W P) as (Q0 & Q1 & u & E & B & I & Hb & S & Eq0 & _ & H0 & H1 & Hq).
  exists u. split; [exact E|]. pose proof (il_laws Q0 Q1 (q_of false) u B I H0 Hq H1 true (or_introl eq_refl)) as L.
  pose proof (il_dims Q0 Q1 u B) as (Wu & Wf & D1 & D2 & D3 & D4 & D5). rewrite Hl in Hb.
  assert (Hs : m_size u = len l) by (rewrite S; by apply il_raw_size).
  assert (HR : forall p, 0 <= p < m_size u -> rank1 u p = Ok (rank (bitf u) p)).
  { intros p Hp. apply (il_rank1_ok Q0 Q1 u B); [lia|]. apply Z.div_lt_upper_bound; lia. }
  apply (serves_intro u (bitf u)); cbn [rs_size rs_is1 rs_rank1 rs_rank0 rs_select0 rv_rs il_vec il_rs il_ops rv_one_seq_len]; [done|..].
  - intros p Hp. rewrite <- Hb. symmetry. apply (lbit_bits (as_fv u)). cbn. lia.
  - apply (law_is1 _ _ L).
  - exact HR.
  - intros p Hp. unfold rank0. by rewrite HR.
  - intros r Hr. destruct (law_select0 _ _ L r) as (p & Ep & ? & _); [rewrite (law_max0 _ _ L); exact Hr|]. eauto.
  - intros p n Hp Hn Hlt Ho Hz. rewrite (proj1 (il_seq_len_flat u p ltac:(lia) ltac:(lia) ltac:(lia))).
    apply run_inside; [|lia|lia|cbn; lia|exact Ho|exact Hz].
    split; [done|]. unfold m_capacity. cbn. split; [lia|done].
  - apply (il_mmap_ok Q0 Q1); [done..|]. rewrite Eq0. destruct s0; [by right; left|by left].
  - done.
Qed.

#[export] Instance il_vec_laws : RankVecLaws rank_select_il.
Proof.
  refine {| raw := il_raw |}; cbn [rs_size rv_rs rv_empty rv_make rv_reserve rv_resize rv_set rv_set1_range rv_push_back rv_build_cache il_vec il_rs il_ops].
  - exact il_raw_size.
  - exact il_raw_empty.
  - by apply serves_nil.
  - intros junk n b Hj Hn. destruct (il_raw_resize junk n b Hj Hn) as (v & _ & E & R). eauto.
  - exact il_raw_reserve.
  - intros junk n Hj Hn. destruct (il_raw_resize junk n false Hj Hn) as (v & E & _ & R). eauto.
  - intros. by apply il_raw_set.
  - intros. by apply il_raw_set_range.
  - intros. by apply il_raw_push.
  - intros. by apply il_build_serves.
Qed.
End il.

End RankVec.
