(* ===== verification/Louds.v ===== *)
(** * The LOUDS automaton of [fsa/louds_dfa.hpp] and [fsa/louds_dfa.cpp]

    [GenLoudsDFA<RankSelect>] stores an acyclic automaton as a tree in
    breadth-first order: [m_louds] holds, behind a leading zero, the degree of
    every node in unary, so that [select0] finds the children of a node; an edge
    to a state that was reached before is a node of its own, marked in
    [m_is_cross_edge], whose target is in [m_cross_edge_dst]; further edges to the
    first leaf are copies of it.  Labels are bytes, or for 40 children and more a
    256-bit map with eight partial counts.

    The template parameter is the class [RankVec]; the source automaton [Au] is
    the interface the builder uses.  Modelled: [build_from] without nested tries
    (zpaths in the byte array, [conf.nestLevel = 0]), the queries, iteration over
    the moves, and [accept] of [ppi/accept.hpp].  The proofs are in [LoudsInv] to [LoudsProps]. *)
From Stdlib Require Import Sorted.
From S2P Require Import Prelude Bits Febitvec Bytes IntVec RankSpec RankVec.
Import Febitvec Bytes RankSpec RankVec.

Module Louds.

Definition nil_state : Z := 2 ^ 64 - 1.
Definition initial_state : Z := 0.
Definition mm_cmpestri_extra : Z := 15.
Definition POPCNT_BYTES : Z := 8.
Definition BITMAP_BYTES : Z := 32.
Definition MIN_FAST_SEARCH_BYTES : Z := 40.
Definition sigma : Z := 256.

(** ** Bytes and the search for a label *)

Definition rd8b (m : list Z) (o : Z) : res Z := rd m o.
Definition wr8b (m : list Z) (o x : Z) : res (list Z) := put m o 1 (fun _ => u8 x).
(** [unaligned_load<uint32_t>], [unaligned_save<uint32_t>] *)
Definition rd32b (m : list Z) (o : Z) : res Z := if inside m o 4 then Ok (le_at 4 m o) else UB.
Definition wr32b (m : list Z) (o x : Z) : res (list Z) := put m o 4 (byte_of x).
Definition memset0 (m : list Z) (o n : Z) : res (list Z) := put m o n (fun _ => 0).

Definition binary_search_byte (m : list Z) (data len key : Z) : res Z :=
  let* lo := loop (S (Z.to_nat len)) (fun '(lo, hi) =>
    if lo <? hi then
      let mid := (lo + hi) / 2 in
      let* x := rd8b m (data + mid) in
      if x <? key then Ok (inl (mid + 1, hi)) else Ok (inl (lo, mid))
    else Ok (inr lo)) (0, len) in
  if lo <? len then let* x := rd8b m (data + lo) in Ok (if x =? key then lo else len)
  else Ok len.

(** ** The source automaton: what the template parameter [Au] offers *)

Record Au := {
  au_total_states : Z;
  au_sigma : Z;
  au_is_dag : bool;
  au_total_transitions : Z;
  au_num_used_states : Z;
  au_num_zpath_states : Z;
  au_total_zpath_len : Z;
  au_is_term : Z -> bool;
  au_is_pzip : Z -> bool;
  au_zpath : Z -> list Z;
  (** [get_all_move]: labels and targets *)
  au_moves : Z -> list (Z * Z);
}.

Definition moves_len (au : Au) (s : Z) : Z := Z.of_nat (length (au_moves au s)).

(** [BaseDFA::find_first_leaf]: the first children from [root] on. *)
Definition find_first_leaf (au : Au) (root : Z) : res Z :=
  loop (S (S (Z.to_nat (au_total_states au)))) (fun stack =>
    match stack with
    | [] => Ok (inr nil_state)
    | parent :: stack =>
        match au_moves au parent with
        | (_, c) :: _ => Ok (inl (c :: stack))
        | [] => Ok (inr parent)
        end
    end) [root].

(** [the_leaf_final_state] of [build_from] and [calc_cross_edge_num] *)
Definition the_leaf (au : Au) : res Z :=
  let* leaf := find_first_leaf au initial_state in
  Ok (if negb (leaf =? nil_state) && au_is_pzip au leaf then nil_state else leaf).

(** [calc_cross_edge_num]: a depth-first walk that counts. *)
Definition calc_cross_edge_num (junk : nat -> Z) (au : Au) : res Z :=
  let* leaf := the_leaf au in
  let* color := Febitvec.make junk (au_total_states au) false in
  let* color := Febitvec.set1 color initial_state in
  let* num := loop (S (S (Z.to_nat (au_total_states au)))) (fun '(color, stack, num) =>
    match stack with
    | [] => Ok (inr num)
    | parent :: stack =>
        let* _ := assert_ (moves_len au parent <=? au_sigma au) in
        let* s := for_ 0 (moves_len au parent) (fun i '(color, stack, num) =>
          let* (_, child) := rd (au_moves au parent) i in
          let* white := Febitvec.is0 color child in
          if white then let* color := Febitvec.set1 color child in Ok (color, child :: stack, num)
          else Ok (color, stack, if negb (child =? leaf) then num + 1 else num)) (color, stack, num) in
        Ok (inl s)
    end) (color, [initial_state], 0) in
  let* _ := assert_ (num <=? u64 (au_total_transitions au - au_total_states au + 1)) in
  Ok num.

Section dfa.
Context {RS : Type} `{RankVec RS}.

Record GenLoudsDFA := Dfa {
  m_louds : RS;
  m_is_pzip : RS;
  m_is_term : febitvec;
  m_cross_edge_dst : IntVec.ZipIntVector;
  m_is_cross_edge : RS;
  m_label_data : list Z;
  m_zpath_data : Z;
  m_zpath_index : RS;
  m_cache : IntVec.ZipIntVector;
  m_zpath_states : Z;
  m_total_zpath_len : Z;
}.

(** ** The builder *)

(** What the loop over the children of a state changes. *)
Record edges := Edges {
  e_louds : RS; e_term : febitvec; e_cross : RS; e_color : febitvec;
  e_dst : list Z; e_map : list Z; e_mem : list Z; e_q2 : list Z;
  trans_idx : Z; final_leaf_num : Z }.
(** What only the loop over the states changes. *)
Record nodes := Nodes {
  n_pzip : RS; n_zindex : RS; n_cache : list Z; zpath_pos : Z; znode_idx : Z; bfs_serial_no : Z }.

Section build.
(** Contents of new memory: for the vectors (the [k]-th allocation) and the bytes. *)
Context (junk : nat -> nat -> Z) (au : Au) (leaf zpath_data : Z).

Definition put_label (n_children mylabels : Z) (mem : list Z) (trans ch : Z) : res (list Z) :=
  if n_children <? MIN_FAST_SEARCH_BYTES then wr8b mem (trans + 1) ch
  else
    let o := mylabels + POPCNT_BYTES + 4 * (ch / 32) in
    let* w := rd32b mem o in wr32b mem o (Z.lor w (Z.shiftl 1 (ch mod 32))).

Definition add_edge (n_children mylabels : Z) (e : edges) (move : Z * Z) : res edges :=
  let '(ch, child) := move in
  let k := trans_idx e + 1 in
  let* mem := put_label n_children mylabels (e_mem e) (trans_idx e) ch in
  let* white := Febitvec.is0 (e_color e) child in
  let* (term, cross, color, dst, map, q2, leafs) :=
    if white then
      let* color := Febitvec.set1 (e_color e) child in
      let* map := wr (e_map e) child (u32 k) in
      Ok (e_term e, e_cross e, color, e_dst e, map, e_q2 e ++ [child], final_leaf_num e)
    else if negb (child =? leaf) then
      let* cross := rv_set (e_cross e) k true in
      let* d := rd (e_map e) child in
      Ok (e_term e, cross, e_color e, e_dst e ++ [d], e_map e, e_q2 e ++ [nil_state], final_leaf_num e)
    else
      let* term := Febitvec.set1 (e_term e) k in
      Ok (term, e_cross e, e_color e, e_dst e, e_map e, e_q2 e ++ [nil_state], final_leaf_num e + 1) in
  let* louds := rv_push_back (junk (Z.to_nat (rs_size (e_louds e)))) (e_louds e) true in
  Ok (Edges louds term cross color dst map mem q2 k leafs).

(** The eight partial counts in front of a bitmap. *)
Definition put_popcnts (mem : list Z) (mylabels : Z) : res (list Z) :=
  let* (mem, _) := for_ 0 POPCNT_BYTES (fun i '(mem, popcnt_sum) =>
    let* mem := wr8b mem (mylabels + i) popcnt_sum in
    let* w := rd32b mem (mylabels + POPCNT_BYTES + 4 * i) in
    Ok (mem, popcnt_sum + fast_popcount w)) (mem, 0) in
  Ok mem.

(** [l_is_pzip], [m_zpath_index] and the zpath bytes of [parent] *)
Definition put_zpath (mem : list Z) (n : nodes) (parent : Z) : res (list Z * nodes) :=
  if negb (au_is_pzip au parent) then Ok (mem, n)
  else
    let zs := au_zpath au parent in
    let size := Z.of_nat (length zs) in
    let* _ := assert_ (2 <=? size) in
    let* mem := put mem (zpath_data + zpath_pos n) size (fun k => byte_at zs k) in
    let* zindex := rv_set1_range (n_zindex n) (zpath_pos n - znode_idx n) (size - 2) in
    let* zindex := rv_set zindex (zpath_pos n - znode_idx n + size - 2) false in
    let* _ := assert_ (rs_size (n_pzip n) =? au_total_transitions au + 1) in
    let* pzip := rv_set (n_pzip n) (bfs_serial_no n) true in
    Ok (mem, Nodes pzip zindex (n_cache n) (zpath_pos n + size) (znode_idx n + 1) (bfs_serial_no n)).

Definition with_mem (e : edges) (mem : list Z) : edges :=
  Edges (e_louds e) (e_term e) (e_cross e) (e_color e) (e_dst e) (e_map e) mem (e_q2 e) (trans_idx e) (final_leaf_num e).
Definition with_term (e : edges) (term : febitvec) : edges :=
  Edges (e_louds e) term (e_cross e) (e_color e) (e_dst e) (e_map e) (e_mem e) (e_q2 e) (trans_idx e) (final_leaf_num e).
Definition with_louds (e : edges) (louds : RS) : edges :=
  Edges louds (e_term e) (e_cross e) (e_color e) (e_dst e) (e_map e) (e_mem e) (e_q2 e) (trans_idx e) (final_leaf_num e).

(** A state that has not been expanded yet: its label block and its edges. *)
Definition expand (e : edges) (parent : Z) : res edges :=
  let children := au_moves au parent in
  let n_children := moves_len au parent in
  let* _ := assert_ (n_children <=? au_sigma au) in
  let mylabels := trans_idx e + 1 in
  let* mem := memset0 (e_mem e) mylabels n_children in
  let* e := for_ 0 n_children (fun j e => let* m := rd children j in add_edge n_children mylabels e m) (with_mem e mem) in
  if MIN_FAST_SEARCH_BYTES <=? n_children then
    let* mem := put_popcnts (e_mem e) mylabels in Ok (with_mem e mem)
  else Ok e.

(** The body of the loop over [q1]. *)
Definition visit (parent : Z) (s : edges * nodes) : res (edges * nodes) :=
  let '(e, n) := s in
  let* cache :=
    if bfs_serial_no n <? Z.of_nat (length (n_cache n))
    then wr (n_cache n) (bfs_serial_no n) (u32 (rs_size (e_louds e))) else Ok (n_cache n) in
  let n := Nodes (n_pzip n) (n_zindex n) cache (zpath_pos n) (znode_idx n) (bfs_serial_no n) in
  let* (e, n) :=
    if negb (parent =? nil_state) then
      let* (mem, n) := put_zpath (e_mem e) n parent in
      let* e := expand (with_mem e mem) parent in
      let* term := Febitvec.set (e_term e) (bfs_serial_no n) (au_is_term au parent) in
      Ok (with_term e term, n)
    else Ok (e, n) in
  let* louds := rv_push_back (junk (Z.to_nat (rs_size (e_louds e)))) (e_louds e) false in
  Ok (with_louds e louds, Nodes (n_pzip n) (n_zindex n) (n_cache n) (zpath_pos n) (znode_idx n) (bfs_serial_no n + 1)).

(** [while (!q1.empty()) { for (i < q1.size()) visit(q1[i]); q1.swap(q2); q2.erase_all(); }] *)
Definition with_q2 (e : edges) (q2 : list Z) : edges :=
  Edges (e_louds e) (e_term e) (e_cross e) (e_color e) (e_dst e) (e_map e) (e_mem e) q2 (trans_idx e) (final_leaf_num e).

Definition levels (s : edges * nodes) : res (edges * nodes) :=
  loop (S (S (Z.to_nat (au_total_transitions au)))) (fun '(q1, s) =>
    match q1 with
    | [] => Ok (inr s)
    | _ =>
        let* (e, n) := for_ 0 (Z.of_nat (length q1)) (fun i s => let* parent := rd q1 i in visit parent s) s in
        Ok (inl (e_q2 e, (with_q2 e [], n)))
    end) ([initial_state], s).
End build.

(** [build_from], with [cache_num = total_transitions * cache_ratio] entries in
    the cache; [junkb] is the new byte array. *)
Definition build_from (junk : nat -> nat -> Z) (junkb junkc : nat -> Z) (au : Au) (cache_num : Z) : res GenLoudsDFA :=
  if negb (au_is_dag au) then Throw invalid_argument else
  if 256 <? au_sigma au then Throw invalid_argument else
  let T := au_total_transitions au in
  let label_size := 1 + T + mm_cmpestri_extra in
  let cross_edge_upp := T - au_num_used_states au + 1 in
  let* is_cross_edge := rv_make (junk O) (T + 1) false in
  let* louds := rv_reserve (junk 1%nat) (T * 2 + 2) in
  let* l_is_pzip := rv_make (junk 2%nat) (if au_num_zpath_states au =? 0 then 0 else T + 1) false in
  let* l_is_term := Febitvec.make (junk 3%nat) (T + 1) false in
  let mem := map (fun i => junkb (Z.to_nat i)) (seqZ 0 (label_size + au_total_zpath_len au + 1)) in
  let zpath_data := label_size in
  let* leaf := the_leaf au in
  let* zindex := rv_resize (junk 4%nat) rv_empty (au_total_zpath_len au - au_num_zpath_states au + 1) in
  let* color := Febitvec.make (junk 5%nat) (au_total_states au) false in
  let* color := Febitvec.set1 color initial_state in
  let* map_ := wr (replicate (Z.to_nat (au_total_states au)) (2 ^ 32 - 1)) 0 0 in
  let* louds := rv_push_back (junk 6%nat) louds false in
  let* mem := wr8b mem 0 0 in
  let cache := map (fun i => junkc (Z.to_nat i)) (seqZ 0 cache_num) in
  let* (e, n) := levels (fun k => junk (7 + k)%nat) au leaf zpath_data
    (Edges louds l_is_term is_cross_edge color [] map_ mem [] 0 0, Nodes l_is_pzip zindex cache 1 0 0) in
  let* cross_edge_dst := IntVec.zip_build_from (junk O) (e_dst e) in
  let* mem := memset0 (e_mem e) (trans_idx e + 1) mm_cmpestri_extra in
  let* cache := IntVec.zip_build_from (junk O) (n_cache n) in
  let* mem := wr8b mem zpath_data 0 in
  let* zindex := rv_build_cache (junk O) (junk 1%nat) true false (n_zindex n) in
  let* _ := assert_ (T =? trans_idx e) in
  let* _ := assert_ (IntVec.zip_size cross_edge_dst + final_leaf_num e =? cross_edge_upp) in
  let* _ := assert_ (cross_edge_upp + au_num_used_states au - 1 =? T) in
  let* _ := assert_ (au_total_zpath_len au + 1 =? zpath_pos n) in
  let* _ := assert_ (T =? bfs_serial_no n - 1) in
  let* _ := assert_ (au_num_zpath_states au =? znode_idx n) in
  let* _ := assert_ (2 * bfs_serial_no n =? rs_size (e_louds e)) in
  let* is_cross_edge := rv_build_cache (junk O) (junk 1%nat) false false (e_cross e) in
  let* l_is_pzip := rv_build_cache (junk O) (junk 1%nat) false false (n_pzip n) in
  let* louds := rv_build_cache (junk O) (junk 1%nat) true false (e_louds e) in
  Ok (Dfa louds l_is_pzip (e_term e) cross_edge_dst is_cross_edge mem zpath_data zindex cache
        (au_num_zpath_states au) (au_total_zpath_len au)).

(** ** Queries *)

Definition total_states (d : GenLoudsDFA) : Z := m_size (m_is_term d).
Definition is_free (d : GenLoudsDFA) (s : Z) : res bool := rs_is1 (m_is_cross_edge d) s.
Definition is_pzip (d : GenLoudsDFA) (s : Z) : res bool :=
  if rs_size (m_is_pzip d) =? 0 then Ok false else rs_is1 (m_is_pzip d) s.
Definition is_term (d : GenLoudsDFA) (s : Z) : res bool := Febitvec.is1 (m_is_term d) s.

(** The first bit behind the zero of [s]: [select0], its assertions, [bitpos++]. *)
Definition children_pos_at (d : GenLoudsDFA) (s bitpos : Z) : res Z :=
  let* r := rs_rank0 (m_louds d) bitpos in
  let* _ := assert_ (r =? s) in
  let* one := rs_is1 (m_louds d) bitpos in
  let* _ := assert_ (negb one) in
  Ok (bitpos + 1).
Definition children_pos (d : GenLoudsDFA) (s : Z) : res Z :=
  let* bitpos := rs_select0 (m_louds d) s in children_pos_at d s bitpos.

(** The state a tree node stands for: itself, or the target of a cross edge. *)
Definition resolve (d : GenLoudsDFA) (child : Z) : res Z :=
  let* cross := rs_is1 (m_is_cross_edge d) child in
  if cross then
    let* cross_idx := rs_rank1 (m_is_cross_edge d) child in IntVec.zip_get (m_cross_edge_dst d) cross_idx
  else Ok child.

Definition not_cross (d : GenLoudsDFA) (s : Z) : res unit :=
  let* cross := rs_is1 (m_is_cross_edge d) s in assert_ (negb cross).

Definition state_move_fast (d : GenLoudsDFA) (ch lcount child0 : Z) : res Z :=
  let mem := m_label_data d in
  if lcount <? MIN_FAST_SEARCH_BYTES then
    let* ch_idx := binary_search_byte mem child0 lcount (u8 ch) in
    if ch_idx <? lcount then resolve d (child0 + ch_idx) else Ok nil_state
  else
    let* w := rd32b mem (child0 + POPCNT_BYTES + 4 * (ch / 32)) in
    if Z.land w (Z.shiftl 1 (ch mod 32)) =? 0 then Ok nil_state
    else
      let* b := rd8b mem (child0 + ch / 32) in
      let ch_idx := b + fast_popcount_trail w (ch mod 32) in
      let* _ := assert_ (ch_idx <? lcount) in
      resolve d (child0 + ch_idx).

(** [m_cache[curr]], or the search *)
Definition cached_pos (d : GenLoudsDFA) (curr : Z) : res Z :=
  if curr <? IntVec.zip_size (m_cache d) then IntVec.zip_get (m_cache d) curr else children_pos d curr.

Definition state_move (d : GenLoudsDFA) (curr ch : Z) : res Z :=
  let* _ := not_cross d curr in
  let* bitpos := cached_pos d curr in
  let* lcount := rv_one_seq_len (m_louds d) bitpos in
  state_move_fast d ch lcount (bitpos - curr).

(** [state_move_slow], with the [StateMoveContext] (children and first child) it fills. *)
Definition state_move_slow (d : GenLoudsDFA) (curr ch : Z) : res (Z * (Z * Z)) :=
  let* _ := not_cross d curr in
  let* bitpos := if curr <? IntVec.zip_size (m_cache d) then IntVec.zip_get (m_cache d) curr
    else
      let* p := rs_select0 (m_louds d) curr in
      let* _ := assert_ (p + 1 <? rs_size (m_louds d)) in children_pos_at d curr p in
  let* _ := assert_ (bitpos <? rs_size (m_louds d)) in
  let* lcount := rv_one_seq_len (m_louds d) bitpos in
  let* _ := assert_ (bitpos + lcount <? rs_size (m_louds d)) in
  if lcount =? 0 then Ok (nil_state, (0, nil_state))
  else
    let child0 := bitpos - curr in
    let* child := state_move_fast d ch lcount child0 in Ok (child, (lcount, child0)).

Definition v_num_children (d : GenLoudsDFA) (parent : Z) : res Z :=
  let* _ := not_cross d parent in
  let* bitpos := children_pos d parent in rv_one_seq_len (m_louds d) bitpos.

Definition v_has_children (d : GenLoudsDFA) (parent : Z) : res bool :=
  let* _ := not_cross d parent in
  let* _ := assert_ (parent <? total_states d) in
  let* bitpos := children_pos d parent in rs_is1 (m_louds d) bitpos.

Definition v_gnode_states (d : GenLoudsDFA) : Z := total_states d - IntVec.zip_size (m_cross_edge_dst d).

(** The prologue of the three iterators: the children's first node and number. *)
Definition children_of (d : GenLoudsDFA) (parent : Z) : res (Z * Z) :=
  let* _ := assert_ (parent <? total_states d) in
  let* _ := not_cross d parent in
  let* bitpos := children_pos d parent in
  let* lcount := rv_one_seq_len (m_louds d) bitpos in
  let* _ := assert_ (lcount <=? sigma) in
  let* _ := assert_ (bitpos - parent + lcount <=? total_states d) in
  Ok (bitpos - parent, lcount).

(** The calls of [op], in order: targets and labels. *)
Definition for_each_move (d : GenLoudsDFA) (parent : Z) : res (list (Z * Z)) :=
  let* (child0, lcount) := children_of d parent in
  let mem := m_label_data d in
  if lcount <? MIN_FAST_SEARCH_BYTES then
    for_ 0 lcount (fun i out =>
      let* child := resolve d (child0 + i) in
      let* ch := rd8b mem (child0 + i) in Ok (out ++ [(child, ch)])) []
  else
    let* (j, out) := for_ 0 (sigma / 32) (fun i '(j, out) =>
      let* bm := rd32b mem (child0 + POPCNT_BYTES + 4 * i) in
      loop 33 (fun '(bm, ch, j, out) =>
        if bm =? 0 then Ok (inr (j, out))
        else
          let* ctz := fast_ctz bm in
          let* child := resolve d (child0 + j) in
          let ch := ch + ctz in
          Ok (inl (Z.shiftr (Z.shiftr bm ctz) 1, ch + 1, j + 1, out ++ [(child, ch)])))
        (bm, i * 32, j, out)) (0, []) in
    let* _ := assert_ (j =? lcount) in Ok out.

Definition for_each_dest (d : GenLoudsDFA) (parent : Z) : res (list Z) :=
  let* (child0, lcount) := children_of d parent in
  for_ 0 lcount (fun i out => let* child := resolve d (child0 + i) in Ok (out ++ [child])) [].

Definition for_each_dest_rev (d : GenLoudsDFA) (parent : Z) : res (list Z) :=
  let* (child0, lcount) := children_of d parent in
  let* (_, out) := for_ 0 lcount (fun _ '(i, out) =>
    let* child := resolve d (child0 + (i - 1)) in Ok (i - 1, out ++ [child])) (lcount, []) in
  Ok out.

(** [get_zpath_data] for a byte array *)
Definition get_zpath_data (d : GenLoudsDFA) (s : Z) : res (list Z) :=
  let* _ := assert_ (s <? total_states d) in
  let* _ := assert_ (0 <? rs_size (m_is_pzip d)) in
  let* z := rs_is1 (m_is_pzip d) s in
  let* _ := assert_ z in
  let* znth := rs_rank1 (m_is_pzip d) s in
  let* bitpos := rs_select0 (m_zpath_index d) znth in
  let* r := rs_rank0 (m_zpath_index d) bitpos in
  let* _ := assert_ (r =? znth) in
  let* one := rs_is1 (m_zpath_index d) bitpos in
  let* _ := assert_ (negb one) in
  let bitpos := bitpos + 1 in
  let zbeg := bitpos + znth in
  let* run := rv_one_seq_len (m_zpath_index d) bitpos in
  let zlen := run + 2 in
  let* _ := assert_ (zbeg + zlen <=? m_total_zpath_len d + 1) in
  let o := m_zpath_data d + zbeg in
  if inside (m_label_data d) o zlen then Ok (map (fun k => byte_at (m_label_data d) (o + k)) (seqZ 0 zlen)) else UB.
End dfa.

(** ** [ppi/accept.hpp], included by every automaton class

    A template parameter of the header: the operations of the class. *)
Record automaton_ops := {
  op_is_pzip : Z -> res bool;
  op_zpath : Z -> res (list Z);
  op_is_term : Z -> res bool;
  op_state_move : Z -> Z -> res Z;
  (** [assert(next < total_states()); ASSERT_isNotFree(next)] *)
  op_check : Z -> res unit;
}.

(** The comparison of the zpath [z] with the string from [i] on. *)
Definition match_zpath (str z : list Z) (i : Z) : res bool :=
  loop (S (length z)) (fun j =>
    let* a := rd str (i + j) in
    let* b := rd z j in
    if negb (a =? b) then Ok (inr false)
    else if j + 1 <? Z.of_nat (length z) then Ok (inl (j + 1)) else Ok (inr true)) 0.

(** [accept(MatchContext(root, pos = 0, zidx = 0), str)], the identity as translation *)
Definition accept (A : automaton_ops) (str : list Z) : res bool :=
  let size := Z.of_nat (length str) in
  loop (S (length str)) (fun '(curr, i) =>
    let* pz := op_is_pzip A curr in
    let* i' :=
      if pz then
        let* z := op_zpath A curr in
        let zsize := Z.of_nat (length z) in
        let* _ := assert_ (0 <? zsize) in
        if size <? i + zsize then Ok None
        else let* eq := match_zpath str z i in Ok (if eq then Some (i + zsize) else None)
      else Ok (Some i) in
    match i' with
    | None => Ok (inr false)
    | Some i =>
        let* _ := assert_ (i <=? size) in
        if size =? i then let* t := op_is_term A curr in Ok (inr t)
        else
          let* ch := rd str i in
          let* next := op_state_move A curr ch in
          if nil_state =? next then Ok (inr false)
          else let* _ := op_check A next in Ok (inl (next, i + 1))
    end) (initial_state, 0).

(** The operations of a [GenLoudsDFA]. *)
Definition louds_ops {RS} `{RankVec RS} (d : GenLoudsDFA (RS := RS)) : automaton_ops := {|
  op_is_pzip := is_pzip d; op_zpath := get_zpath_data d; op_is_term := is_term d; op_state_move := state_move d;
  op_check := fun next => let* _ := assert_ (next <? total_states d) in not_cross d next |}.

(** The source automaton itself. *)
Definition au_state_move (au : Au) (s ch : Z) : Z :=
  match List.find (fun m => fst m =? ch) (au_moves au s) with Some (_, t) => t | None => nil_state end.
Definition au_ops (au : Au) : automaton_ops := {|
  op_is_pzip := fun s => Ok (au_is_pzip au s); op_zpath := fun s => Ok (au_zpath au s);
  op_is_term := fun s => Ok (au_is_term au s); op_state_move := fun s ch => Ok (au_state_move au s ch);
  op_check := fun _ => Ok tt |}.

(** ** The contract of the source automaton *)

Inductive reach (au : Au) : Z -> Prop :=
| reach_root : reach au initial_state
| reach_move s ch t : reach au s -> In (ch, t) (au_moves au s) -> reach au t.

Definition sum_over (g : Z -> Z) (l : list Z) : Z := foldr (fun s n => g s + n) 0 l.

(** What [build_from] relies on: states and labels in range, labels ascending,
    no cycle, a first leaf that is accepting, and totals that count the states in
    use, which are the reachable ones. *)
Record au_ok (au : Au) (used : list Z) : Prop := {
  ok_states : 0 < au_total_states au < 2 ^ 32 - 1;
  ok_moves : forall s ch t, reach au s -> In (ch, t) (au_moves au s) -> 0 <= ch < au_sigma au /\ 0 <= t < au_total_states au;
  ok_sorted : forall s, reach au s -> StronglySorted Z.lt (map fst (au_moves au s));
  ok_sigma : 0 <= au_sigma au <= 256;
  ok_dag : au_is_dag au = true /\
    exists depth : Z -> Z, forall s, reach au s -> 0 <= depth s < au_total_states au /\
      forall ch t, In (ch, t) (au_moves au s) -> depth t < depth s;
  ok_leaf : forall s, find_first_leaf au initial_state = Ok s -> au_is_pzip au s = false -> au_is_term au s = true;
  ok_used : NoDup used /\ forall s, s ∈ used <-> reach au s;
  ok_num_used : au_num_used_states au = Z.of_nat (length used);
  ok_transitions : au_total_transitions au = sum_over (moves_len au) used;
  ok_num_zpath : au_num_zpath_states au = sum_over (fun s => Z.b2z (au_is_pzip au s)) used;
  ok_zpath_len : au_total_zpath_len au =
    sum_over (fun s => if au_is_pzip au s then Z.of_nat (length (au_zpath au s)) else 0) used;
  ok_zpath : forall s, reach au s -> au_is_pzip au s = true -> 2 <= Z.of_nat (length (au_zpath au s)) /\ bytes (au_zpath au s);
}.

End Louds.
