(* ===== verification/LoudsInv.v ===== *)
(** * The builder of [GenLoudsDFA]: its invariant

    The tree nodes in breadth-first order are a list of [node]s.  Everything the
    builder writes is a function of that list: the louds bits, the marks, the
    cross-edge targets, the label blocks, the zpaths.  [einv] states this for what
    the loop over the children changes, [ninv] for the rest, and each step of the
    builder extends the list. *)
From Stdlib Require Import Sorted.
From S2P Require Import Prelude Bits Febitvec Bytes IntVec RankSpec RankVec Louds.
Import Febitvec Bytes RankSpec RankVec Louds.

Module LoudsInv.

(** ** Nodes *)

Inductive node := Tree (q : Z) | Cross (q : Z) | Leaf.

Definition tree_of (nd : node) : option Z := match nd with Tree q => Some q | _ => None end.
Definition cross_of (nd : node) : option Z := match nd with Cross q => Some q | _ => None end.
(** The state a node's edge leads to, and what the queue holds for it. *)
Definition tgt (leaf : Z) (nd : node) : Z := match nd with Tree q => q | Cross q => q | Leaf => leaf end.
Definition qentry (nd : node) : Z := match nd with Tree q => q | _ => nil_state end.
Definition mv (au : Au) (nd : node) : list (Z * Z) := match nd with Tree q => au_moves au q | _ => [] end.
Definition is_leaf (nd : node) : bool := match nd with Leaf => true | _ => false end.
Definition is_cross (nd : node) : bool := match nd with Cross _ => true | _ => false end.

Definition degs (au : Au) (l : list node) : nat := length (concat (map (mv au) l)).
Definition louds_of (au : Au) (l : list node) : list bool :=
  false :: concat (map (fun nd => replicate (length (mv au nd)) true ++ [false]) l).

(** The first child of node [i]. *)
Definition first_child (au : Au) (N : list node) (i : nat) : Z := 1 + Z.of_nat (degs au (take i N)).

Lemma louds_of_app au l nd : louds_of au (l ++ [nd]) = louds_of au l ++ replicate (length (mv au nd)) true ++ [false].
Proof. unfold louds_of. rewrite map_app, concat_app. cbn [map concat]. by rewrite app_nil_r. Qed.

Lemma degs_app au l k : degs au (l ++ k) = (degs au l + degs au k)%nat.
Proof. unfold degs. by rewrite map_app, concat_app, length_app. Qed.

Lemma degs_one au nd : degs au [nd] = length (mv au nd).
Proof. unfold degs. cbn. by rewrite app_nil_r. Qed.

Lemma louds_length au l : length (louds_of au l) = (1 + degs au l + length l)%nat.
Proof.
  induction l as [|nd l IH] using rev_ind; [done|]. rewrite louds_of_app, !length_app, length_replicate, IH, degs_app, degs_one. cbn. lia.
Qed.

Lemma degs_take au N i nd : N !! i = Some nd -> degs au (take (S i) N) = (degs au (take i N) + length (mv au nd))%nat.
Proof. intros E. by rewrite (take_S_r _ _ _ E), degs_app, degs_one. Qed.

Lemma degs_take_le au N i j : (i <= j)%nat -> (degs au (take i N) <= degs au (take j N))%nat.
Proof. intros H. replace (take j N) with (take i N ++ drop i (take j N)); [rewrite degs_app; lia|]. rewrite <- (take_drop i (take j N)) at 2. by rewrite take_take, Nat.min_l. Qed.

Lemma count_nodes (N : list node) : (length N = length (omap tree_of N) + length (omap cross_of N) + length (List.filter is_leaf N))%nat.
Proof. induction N as [|[q|q|] N IH]; [done|cbn in *; lia..]. Qed.

(** *** Bits that are a function of the nodes *)

Definition nbits (f : nat -> node -> bool) (N : list node) (n : nat) : list bool :=
  map (fun i => match N !! i with Some nd => f i nd | None => false end) (seq 0 n).

Lemma nbits_length f N n : length (nbits f N n) = n.
Proof. unfold nbits. by rewrite length_map, length_seq. Qed.

Lemma nbits_lookup f N n i : (i < n)%nat -> nbits f N n !! i = Some (match N !! i with Some nd => f i nd | None => false end).
Proof. intros Hi. unfold nbits. rewrite list_lookup_fmap, lookup_seq_lt by lia. done. Qed.

Lemma nbits_lbit f N n i : 0 <= i < Z.of_nat n -> lbit (nbits f N n) i = match N !! Z.to_nat i with Some nd => f (Z.to_nat i) nd | None => false end.
Proof. intros Hi. unfold lbit. by rewrite nth_lookup, nbits_lookup by lia. Qed.

Lemma nbits_ext f g N M n : (forall i, (i < n)%nat -> (match N !! i with Some nd => f i nd | None => false end) = (match M !! i with Some nd => g i nd | None => false end)) ->
  nbits f N n = nbits g M n.
Proof.
  intros H. apply list_eq. intros i. destruct (decide (i < n)%nat).
  - by rewrite !nbits_lookup, H.
  - by rewrite !lookup_ge_None_2 by (rewrite nbits_length; lia).
Qed.

Lemma nbits_app f N nd n : (length N < n)%nat ->
  nbits f (N ++ [nd]) n = <[length N := f (length N) nd]> (nbits f N n).
Proof.
  intros Hn. apply list_eq. intros i. destruct (decide (i < n)%nat) as [Hi|Hi].
  - rewrite nbits_lookup by done. destruct (decide (i = length N)) as [->|Hne].
    + rewrite list_lookup_insert_eq by (rewrite nbits_length; lia). by rewrite list_lookup_middle.
    + rewrite list_lookup_insert_ne, nbits_lookup by done. destruct (decide (i < length N)%nat).
      * by rewrite lookup_app_l.
      * by rewrite !lookup_ge_None_2 by (rewrite ?length_app; cbn; lia).
  - by rewrite !lookup_ge_None_2 by (rewrite ?length_insert, nbits_length; lia).
Qed.

Lemma nbits_none f N n i : (length N <= i)%nat -> <[i := false]> (nbits f N n) = nbits f N n.
Proof.
  intros Hi. destruct (decide (i < n)%nat).
  - apply list_insert_id. rewrite nbits_lookup by done. by rewrite lookup_ge_None_2.
  - apply list_insert_ge. rewrite nbits_length. lia.
Qed.

(** Changing the function at one node. *)
Lemma nbits_update f g N n i nd : (i < n)%nat -> N !! i = Some nd -> (forall j nd', j <> i -> N !! j = Some nd' -> g j nd' = f j nd') ->
  nbits g N n = <[i := g i nd]> (nbits f N n).
Proof.
  intros Hn Hi Hg. apply list_eq. intros j. destruct (decide (j < n)%nat) as [Hj|Hj].
  - rewrite nbits_lookup by done. destruct (decide (j = i)) as [->|Hne].
    + rewrite list_lookup_insert_eq by (rewrite nbits_length; lia). by rewrite Hi.
    + rewrite list_lookup_insert_ne, nbits_lookup by done. destruct (N !! j) eqn:E; [|done]. by rewrite (Hg j).
  - by rewrite !lookup_ge_None_2 by (rewrite ?length_insert, nbits_length; lia).
Qed.

(** *** Sums over states without repetition *)

Lemma sum_over_app g l k : sum_over g (l ++ k) = sum_over g l + sum_over g k.
Proof. induction l as [|s l IH]; cbn; [done|]. unfold sum_over in *. lia. Qed.

Lemma sum_over_perm g l k : l ≡ₚ k -> sum_over g l = sum_over g k.
Proof. induction 1; unfold sum_over in *; cbn in *; lia. Qed.

Lemma sum_over_nonneg g l : (forall s, s ∈ l -> 0 <= g s) -> 0 <= sum_over g l.
Proof.
  induction l as [|s l IH]; intros H; cbn; [lia|]. pose proof (H s ltac:(left)). fold (sum_over g l).
  enough (0 <= sum_over g l) by lia. apply IH. intros t Ht. apply H. by right.
Qed.

Lemma sum_over_le g l used : NoDup l -> (forall s, s ∈ l -> s ∈ used) -> (forall s, s ∈ used -> 0 <= g s) -> sum_over g l <= sum_over g used.
Proof.
  intros Hl Hin Hg. destruct (submseteq_Permutation l used) as [k Hk].
  { apply NoDup_submseteq; done. }
  rewrite (sum_over_perm g _ _ Hk), sum_over_app. pose proof (sum_over_nonneg g k).
  enough (0 <= sum_over g k) by lia. apply H. intros s Hs. apply Hg. rewrite Hk. apply elem_of_app. by right.
Qed.

Lemma degs_sum au l : Z.of_nat (degs au l) = sum_over (moves_len au) (omap tree_of l).
Proof.
  induction l as [|nd l IH]; [done|]. change (nd :: l) with ([nd] ++ l). rewrite degs_app, degs_one.
  destruct nd; cbn [omap list_omap tree_of mv length app]; cbn; unfold sum_over, moves_len in *; lia.
Qed.

(** ** Memory *)

Lemma rd8b_ok m o : 0 <= o < Z.of_nat (length m) -> rd8b m o = Ok (byte_at m o).
Proof. exact (rd_word m o). Qed.

Lemma wr8b_ok m o x : bytes m -> 0 <= o < Z.of_nat (length m) -> exists m', wr8b m o x = Ok m' /\ length m' = length m /\ bytes m' /\
  forall i, 0 <= i < Z.of_nat (length m) -> byte_at m' i = if i =? o then u8 x else byte_at m i.
Proof.
  intros Hm Ho. destruct (put_ok m o 1 (fun _ => u8 x) Hm) as (m' & E & L & B & F); [lia..|intros; apply Z.mod_pos_bound; lia|].
  exists m'. do 3 (split; [done|]). intros i Hi. rewrite F by done.
  destruct (Z.leb_spec o i), (Z.ltb_spec i (o + 1)), (Z.eqb_spec i o); (lia || done).
Qed.

Lemma rd32b_ok m o : 0 <= o -> o + 4 <= Z.of_nat (length m) -> rd32b m o = Ok (le_at 4 m o).
Proof. intros. unfold rd32b. by rewrite inside_ok. Qed.

Lemma wr32b_ok m o x : bytes m -> 0 <= o -> o + 4 <= Z.of_nat (length m) -> 0 <= x < 2 ^ 32 ->
  exists m', wr32b m o x = Ok m' /\ length m' = length m /\ bytes m' /\ le_at 4 m' o = x /\
    forall i, 0 <= i < Z.of_nat (length m) -> i < o \/ o + 4 <= i -> byte_at m' i = byte_at m i.
Proof.
  intros Hm Ho Hl Hx. destruct (put_ok m o 4 (byte_of x) Hm Ho ltac:(lia) Hl) as (m' & E & L & W & B); [intros; apply byte_of_range|].
  exists m'. do 3 (split; [done|]). split.
  - apply le_at_bytes_of; [done|]. intros k Hk. rewrite B by lia.
    rewrite (proj2 (Z.leb_le _ _)), (proj2 (Z.ltb_lt _ _)) by lia. cbn [andb]. f_equal. lia.
  - intros i Hi Hd. rewrite B by done. destruct (Z.leb_spec o i), (Z.ltb_spec i (o + 4)); (lia || done).
Qed.

Lemma memset0_ok m o n : bytes m -> 0 <= o -> 0 <= n -> o + n <= Z.of_nat (length m) ->
  exists m', memset0 m o n = Ok m' /\ length m' = length m /\ bytes m' /\
    forall i, 0 <= i < Z.of_nat (length m) -> byte_at m' i = if (o <=? i) && (i <? o + n) then 0 else byte_at m i.
Proof. intros. apply put_ok; (done || lia). Qed.

Lemma byte_at_neg_ext (m m' : list Z) : length m' = length m -> forall i, Z.of_nat (length m) <= i -> byte_at m' i = byte_at m i.
Proof. intros L i Hi. unfold byte_at. rewrite !nth_overflow by lia. done. Qed.

Lemma le32_range m o : bytes m -> 0 <= le_at 4 m o < 2 ^ 32.
Proof. intros Hm. pose proof (le_at_range 4 m o Hm). change (256 ^ Z.of_nat 4) with (2 ^ 32) in *. done. Qed.

(** ** Labels *)

Definition has_label (ms : list (Z * Z)) (ch : Z) : bool := existsb (fun m => fst m =? ch) ms.

Definition label_bytes (mem : list Z) (base : Z) (ms : list (Z * Z)) : Prop :=
  forall j ch t, ms !! j = Some (ch, t) -> byte_at mem (base + Z.of_nat j) = ch.
Definition label_map (mem : list Z) (base : Z) (ms : list (Z * Z)) : Prop :=
  forall ch, 0 <= ch < 256 -> Z.testbit (le_at 4 mem (base + 8 + 4 * (ch / 32))) (ch mod 32) = has_label ms ch.
Definition label_counts (mem : list Z) (base : Z) (ms : list (Z * Z)) (k : Z) : Prop :=
  forall i, 0 <= i < k -> byte_at mem (base + i) = rank (has_label ms) (32 * i).

(** The block of a state with [n] children, the first of them written. *)
Definition label_part (mem : list Z) (base : Z) (n : Z) (ms : list (Z * Z)) : Prop :=
  if n <? 40 then label_bytes mem base ms else label_map mem base ms.
Definition label_ok (mem : list Z) (base : Z) (ms : list (Z * Z)) : Prop :=
  label_part mem base (Z.of_nat (length ms)) ms /\ (40 <= Z.of_nat (length ms) -> label_counts mem base ms 8).

Definition frame (m m' : list Z) (a b : Z) : Prop :=
  forall i, 0 <= i < Z.of_nat (length m) -> i < a \/ b <= i -> byte_at m' i = byte_at m i.

Lemma frame_trans m m1 m2 a b : length m1 = length m -> frame m m1 a b -> frame m1 m2 a b -> frame m m2 a b.
Proof. intros L F1 F2 i Hi Hd. rewrite F2 by (rewrite ?L; done). by apply F1. Qed.

Lemma frame_weak m m' a b a' b' : a' <= a -> b <= b' -> frame m m' a b -> frame m m' a' b'.
Proof. intros ? ? F i Hi Hd. apply F; lia. Qed.

Lemma ch_div ch : 0 <= ch < 256 -> 0 <= ch / 32 < 8 /\ 0 <= ch mod 32 < 32 /\ ch = 32 * (ch / 32) + ch mod 32.
Proof. intros. pose proof (Z.div_mod ch 32). pose proof (Z.mod_pos_bound ch 32). lia. Qed.

Lemma label_part_frame m m' base n ms a b : 0 <= base -> base + n <= Z.of_nat (length m) -> bytes m -> Z.of_nat (length ms) <= n ->
  frame m m' a b -> base + n <= a \/ b <= base -> label_part m base n ms -> label_part m' base n ms.
Proof.
  intros Hb Hn Hm Hms F Hd. unfold label_part. destruct (Z.ltb_spec n 40).
  - intros P j ch t E. pose proof (lookup_lt_Some _ _ _ E). rewrite F by lia. by eapply P.
  - intros P ch Hch. destruct (ch_div ch Hch) as (? & ? & _). rewrite <- P by done. f_equal. apply le_at_frame; [done|].
    intros i Hi. apply F; lia.
Qed.

Lemma label_ok_frame m m' base ms a b : 0 <= base -> base + Z.of_nat (length ms) <= Z.of_nat (length m) -> bytes m ->
  frame m m' a b -> base + Z.of_nat (length ms) <= a \/ b <= base -> label_ok m base ms -> label_ok m' base ms.
Proof.
  intros Hb Hn Hm F Hd [P C]. split; [eapply label_part_frame; (done || lia)|].
  intros H40 i Hi. rewrite F by lia. by apply C.
Qed.

Lemma has_label_app ms ch t c : has_label (ms ++ [(ch, t)]) c = has_label ms c || (ch =? c).
Proof. unfold has_label. rewrite existsb_app. cbn. by rewrite orb_false_r. Qed.

Lemma lor_bit32 w k : 0 <= w < 2 ^ 32 -> 0 <= k < 32 -> 0 <= Z.lor w (Z.shiftl 1 k) < 2 ^ 32 /\
  forall i, 0 <= i < 32 -> Z.testbit (Z.lor w (Z.shiftl 1 k)) i = Z.testbit w i || (i =? k).
Proof.
  intros Hw Hk.
  assert (T : forall i, 0 <= i -> Z.testbit (Z.lor w (Z.shiftl 1 k)) i = Z.testbit w i || (i =? k)).
  { intros i Hi. rewrite Z.lor_spec, Z.shiftl_1_l, Z.pow2_bits_eqb, Z.eqb_sym by lia. done. }
  split; [|intros; apply T; lia].
  assert (Hn : 0 <= Z.lor w (Z.shiftl 1 k)) by (apply Z.lor_nonneg; split; [lia|]; apply Z.shiftl_nonneg; lia).
  split; [done|]. destruct (Z.eq_dec (Z.lor w (Z.shiftl 1 k)) 0) as [->|Hz]; [done|].
  apply Z.log2_lt_pow2; [lia|]. destruct (Z.lt_ge_cases (Z.log2 (Z.lor w (Z.shiftl 1 k))) 32) as [|Hge]; [done|].
  pose proof (Z.bit_log2 (Z.lor w (Z.shiftl 1 k)) ltac:(lia)) as Hb. rewrite T in Hb by lia.
  rewrite (testbit_high w _ 32) in Hb by lia. destruct (Z.eqb_spec (Z.log2 (Z.lor w (Z.shiftl 1 k))) k); [lia|done].
Qed.

Lemma put_label_ok m base n ms trans ch t : bytes m -> 0 <= base -> base + n <= Z.of_nat (length m) ->
  Z.of_nat (length ms) < n -> trans + 1 = base + Z.of_nat (length ms) -> 0 <= ch < 256 -> label_part m base n ms ->
  exists m', put_label n base m trans ch = Ok m' /\ length m' = length m /\ bytes m' /\ frame m m' base (base + n) /\
    label_part m' base n (ms ++ [(ch, t)]).
Proof.
  intros Hm Hb Hl Hn Ht Hch. unfold put_label, label_part, MIN_FAST_SEARCH_BYTES, POPCNT_BYTES. destruct (Z.ltb_spec n 40) as [H40|H40]; intros P.
  - destruct (wr8b_ok m (trans + 1) ch Hm) as (m' & E & L & B & F); [lia|]. exists m'. do 3 (split; [done|]). split.
    + intros i Hi Hd. rewrite F by done. by destruct (Z.eqb_spec i (trans + 1)); [lia|].
    + intros j c u Ej. pose proof (lookup_lt_Some _ _ _ Ej) as Hj. rewrite length_app in Hj. cbn in Hj. rewrite F by lia.
      destruct (Z.eqb_spec (base + Z.of_nat j) (trans + 1)).
      * replace j with (length ms) in Ej by lia. rewrite list_lookup_middle in Ej by done. injection Ej as <- <-.
        unfold u8. apply Z.mod_small. lia.
      * rewrite lookup_app_l in Ej by lia. by eapply P.
  - destruct (ch_div ch Hch) as (Hq & Hr & Hqr). set (o := base + 8 + 4 * (ch / 32)) in *.
    rewrite rd32b_ok by lia. cbn [rbind]. pose proof (le32_range m o Hm) as Hw.
    destruct (lor_bit32 (le_at 4 m o) (ch mod 32) Hw Hr) as [Hx Hbit].
    destruct (wr32b_ok m o (Z.lor (le_at 4 m o) (Z.shiftl 1 (ch mod 32))) Hm) as (m' & E & L & B & V & F); [lia..|].
    exists m'. do 3 (split; [done|]). split; [intros i Hi Hd; apply F; lia|].
    intros c Hc. destruct (ch_div c Hc) as (Hq' & Hr' & Hqr'). rewrite has_label_app, <- P by done.
    destruct (Z.eq_dec (c / 32) (ch / 32)) as [Eq|Ne].
    + rewrite Eq. fold o. rewrite V, Hbit by done. f_equal. destruct (Z.eqb_spec (c mod 32) (ch mod 32)), (Z.eqb_spec ch c); (lia || done).
    + rewrite (proj2 (Z.eqb_neq ch c)), orb_false_r by (intros ->; done). f_equal. apply le_at_frame; [done|].
      intros i Hi. apply F; lia.
Qed.

Lemma popcount32 w : 0 <= w < 2 ^ 32 -> fast_popcount w = cnt (Z.testbit w) 0 32.
Proof.
  intros Hw. unfold fast_popcount. change 64%nat with (32 + 32)%nat. rewrite cnt_app.
  rewrite (cnt_false _ (0 + Z.of_nat 32)); [lia|]. intros i Hi. apply (testbit_high w i 32); lia.
Qed.

Lemma rank_label_step m base ms i n : label_map m base ms -> 0 <= i < 8 -> 0 <= n <= 32 ->
  rank (has_label ms) (32 * i + n) = rank (has_label ms) (32 * i) + cnt (Z.testbit (le_at 4 m (base + 8 + 4 * i))) 0 (Z.to_nat n).
Proof.
  intros P Hi Hn. rewrite rank_add by lia. f_equal. apply cnt_ext. intros j Hj. rewrite <- (P (32 * i + j)) by lia.
  assert ((32 * i + j) / 32 = i) as -> by (symmetry; apply (Z.div_unique _ _ _ j); lia).
  assert ((32 * i + j) mod 32 = j) as -> by (symmetry; apply (Z.mod_unique _ _ i); lia). done.
Qed.

Lemma put_popcnts_ok m base n ms : bytes m -> 0 <= base -> base + n <= Z.of_nat (length m) -> 40 <= n -> label_map m base ms ->
  exists m', put_popcnts m base = Ok m' /\ length m' = length m /\ bytes m' /\ frame m m' base (base + 8) /\
    label_map m' base ms /\ label_counts m' base ms 8.
Proof.
  intros Hm Hb Hl Hn P. unfold put_popcnts, POPCNT_BYTES.
  destruct (for_inv (fun i '(m', sum) => length m' = length m /\ bytes m' /\ frame m m' base (base + 8) /\
      label_map m' base ms /\ label_counts m' base ms i /\ sum = rank (has_label ms) (32 * i))
    (fun i '(mem, sum) => let* mem := wr8b mem (base + i) sum in
      let* w := rd32b mem (base + 8 + 4 * i) in Ok (mem, sum + fast_popcount w)) 0 8 (m, 0))
    as ([m' sum] & E & L & B & F & M & C & _).
  - lia.
  - do 3 (split; [done|]). split; [done|]. split; [intros i Hi; lia|done].
  - intros i [m1 sum] Hi (L & B & F & M & C & Hs).
    destruct (wr8b_ok m1 (base + i) sum B) as (m2 & -> & L2 & B2 & F2); [lia|]. cbn [rbind].
    assert (M2 : label_map m2 base ms).
    { intros ch Hch. destruct (ch_div ch Hch) as (? & _). rewrite <- M by done. f_equal. apply le_at_frame; [done|].
      intros j Hj. rewrite F2 by lia. by destruct (Z.eqb_spec j (base + i)); [lia|]. }
    rewrite rd32b_ok by lia. cbn [rbind]. eexists. split; [done|]. split; [lia|]. split; [done|]. split; [|split; [done|split]].
    + intros j Hj Hd. rewrite F2 by lia. destruct (Z.eqb_spec j (base + i)); [lia|]. by apply F.
    + intros j Hj. rewrite F2 by lia. destruct (Z.eqb_spec (base + j) (base + i)) as [Ej|]; [|apply C; lia].
      assert (j = i) as -> by lia. rewrite Hs. unfold u8. apply Z.mod_small. pose proof (rank_bounds (has_label ms) (32 * i)). lia.
    + rewrite Hs, popcount32 by (apply le32_range; done). replace (32 * (i + 1)) with (32 * i + 32) by lia.
      by rewrite (rank_label_step m2 base ms i 32 M2) by lia.
  - rewrite E. exists m'. done.
Qed.

(** ** Single bits of a [febitvec] against its list *)

Lemma fv_is0_repr v l i : repr v l -> 0 <= i < len l -> Febitvec.is0 v i = Ok (negb (lbit l i)).
Proof. intros [Hv <-] Hi. rewrite len_bits in Hi by done. rewrite is0_ok by done. by rewrite lbit_bits. Qed.

Lemma fv_is1_repr v l i : repr v l -> 0 <= i < len l -> Febitvec.is1 v i = Ok (lbit l i).
Proof. intros [Hv <-] Hi. rewrite len_bits in Hi by done. rewrite is1_ok by done. by rewrite lbit_bits. Qed.

Lemma fv_set1_repr v l i : repr v l -> 0 <= i < len l -> exists v', Febitvec.set1 v i = Ok v' /\ repr v' (<[Z.to_nat i := true]> l).
Proof.
  intros R Hi. destruct (fv_set_repr v l i true R Hi) as (u & E & R'). exists u. split; [|done].
  unfold Febitvec.set in E. by rewrite (repr_size v l R), (proj2 (Z.ltb_lt _ _)) in E by lia.
Qed.

(** ** The invariant *)

Section build.
Context {RS : Type} `{RV : RankVecLaws RS} (au : Au) (used : list Z) (Hau : au_ok au used).
Context (leaf : Z) (Hleaf : the_leaf au = Ok leaf).
Context (junk : nat -> nat -> Z) (Hjunk : forall k j, word64 (junk k j)).
Let T : Z := au_total_transitions au.
Let Z_ : Z := au_total_zpath_len au.
Context (HT : 2 * T + 2 < 2 ^ 32) (HZ : Z_ < 2 ^ 32 - 1).

(** The bit [m_is_term] has when the nodes before [k] were visited. *)
Definition term_bit (k i : nat) (nd : node) : bool :=
  match nd with Leaf => true | Tree q => bool_decide (i < k)%nat && au_is_term au q | Cross _ => false end.

Definition T1 : nat := Z.to_nat (T + 1).

(** [N]: the nodes so far; [k]: how many were visited. *)
Record einv (N : list node) (k : nat) (e : edges (RS := RS)) : Prop := {
  I_trans : trans_idx e + 1 = Z.of_nat (length N);
  I_le : (k <= length N)%nat;
  I_head : N !! O = Some (Tree initial_state);
  I_nodup : NoDup (omap tree_of N);
  I_reach : forall q, Tree q ∈ N -> reach au q;
  I_cross_tree : forall q, Cross q ∈ N -> Tree q ∈ N;
  I_leaf : Leaf ∈ N -> Tree leaf ∈ N;
  I_color : exists l, repr (e_color e) l /\ len l = au_total_states au /\
    forall q, 0 <= q < au_total_states au -> (lbit l q = true <-> Tree q ∈ N);
  I_map : Z.of_nat (length (e_map e)) = au_total_states au /\
    forall i q, N !! i = Some (Tree q) -> e_map e !! Z.to_nat q = Some (Z.of_nat i);
  I_cross : raw (e_cross e) (nbits (fun _ => is_cross) N T1);
  I_dst : Forall2 (fun q d => exists i, N !! i = Some (Tree q) /\ d = Z.of_nat i) (omap cross_of N) (e_dst e);
  I_leafs : final_leaf_num e = Z.of_nat (length (List.filter is_leaf N));
  I_term : repr (e_term e) (nbits (term_bit k) N T1);
}.

Lemma au_range s : reach au s -> 0 <= s < au_total_states au.
Proof.
  intros Hs. destruct Hs as [|s ch t Hs Hin].
  - unfold initial_state. pose proof (ok_states _ _ Hau). lia.
  - by apply (ok_moves _ _ Hau s ch t).
Qed.

Lemma nil_out s : reach au s -> s <> nil_state.
Proof. intros Hs E. pose proof (au_range s Hs). pose proof (ok_states _ _ Hau). unfold nil_state in E. lia. Qed.

Lemma moves_nonneg (l : list Z) : forall s, s ∈ l -> 0 <= moves_len au s.
Proof. intros. unfold moves_len. lia. Qed.

(** The trees of a node list have at most [T] transitions together. *)
Lemma degs_bound N : NoDup (omap tree_of N) -> (forall q, Tree q ∈ N -> reach au q) -> Z.of_nat (degs au N) <= T.
Proof.
  intros Hnd Hr. rewrite degs_sum. unfold T. rewrite (ok_transitions _ _ Hau).
  apply sum_over_le; [done| |apply moves_nonneg]. intros s Hs. apply (ok_used _ _ Hau). apply Hr.
  apply list_elem_of_omap in Hs as (nd & Hin & Ht). destruct nd; try done. by injection Ht as ->.
Qed.

Lemma elem_tree_omap (N : list node) q : q ∈ omap tree_of N <-> Tree q ∈ N.
Proof.
  rewrite list_elem_of_omap. split.
  - intros (nd & Hin & Ht). destruct nd; try done. by injection Ht as ->.
  - intros Hin. by exists (Tree q).
Qed.

Lemma Forall2_dst_mono N nd qs ds : Forall2 (fun q d => exists i, N !! i = Some (Tree q) /\ d = Z.of_nat i) qs ds ->
  Forall2 (fun q d => exists i, (N ++ [nd]) !! i = Some (Tree q) /\ d = Z.of_nat i) qs ds.
Proof. apply Forall2_impl. intros q d (i & Hi & ->). exists i. split; [|done]. by apply lookup_app_l_Some. Qed.

(** What every kind of new node needs: indices, reachability, marks that stay. *)
Lemma nbits_app_false f N nd n : (length N < n)%nat -> f (length N) nd = false -> nbits f (N ++ [nd]) n = nbits f N n.
Proof. intros Hn Hf. rewrite nbits_app, Hf by done. by apply nbits_none. Qed.

Lemma T1_lt n : (Z.of_nat n <= T) -> (n < T1)%nat.
Proof. unfold T1. lia. Qed.

Lemma tree_snoc (N : list node) nd q : tree_of nd = None -> Tree q ∈ N ++ [nd] -> Tree q ∈ N.
Proof. intros Hnd [|E%list_elem_of_singleton]%elem_of_app; [done|]. by subst nd. Qed.

Lemma elem_snoc {A} (x : A) l y : x ∈ l -> x ∈ l ++ [y].
Proof. intros. apply elem_of_app. by left. Qed.

(** A node that is no tree: nothing about the states changes. *)
Lemma einv_old N k e nd e' : einv N k e -> tree_of nd = None -> Tree (tgt leaf nd) ∈ N ->
  trans_idx e' = trans_idx e + 1 -> e_color e' = e_color e -> e_map e' = e_map e ->
  raw (e_cross e') (nbits (fun _ => is_cross) (N ++ [nd]) T1) ->
  Forall2 (fun q d => exists i, (N ++ [nd]) !! i = Some (Tree q) /\ d = Z.of_nat i) (omap cross_of (N ++ [nd])) (e_dst e') ->
  final_leaf_num e' = final_leaf_num e + Z.b2z (is_leaf nd) ->
  repr (e_term e') (nbits (term_bit k) (N ++ [nd]) T1) -> einv (N ++ [nd]) k e'.
Proof.
  intros I Hnd Hin Ht Hc Hm Hcr Hd Hl Htm. pose proof (I_le _ _ _ I). pose proof (I_trans _ _ _ I).
  split; rewrite ?length_app; cbn [length]; try lia.
  - apply lookup_app_l_Some, (I_head _ _ _ I).
  - rewrite omap_app. cbn. rewrite Hnd, app_nil_r. apply (I_nodup _ _ _ I).
  - intros q Hq%tree_snoc; [|done]. by apply (I_reach _ _ _ I).
  - intros q [Hq|Hq%list_elem_of_singleton]%elem_of_app; apply elem_snoc; [by apply (I_cross_tree _ _ _ I)|by subst nd].
  - intros [Hq|Hq%list_elem_of_singleton]%elem_of_app; apply elem_snoc; [by apply (I_leaf _ _ _ I)|by subst nd].
  - destruct (I_color _ _ _ I) as (l & R & L & Hl'). exists l. rewrite Hc. do 2 (split; [done|]). intros q Hq. rewrite Hl' by done.
    split; [apply elem_snoc|by apply tree_snoc].
  - rewrite Hm. destruct (I_map _ _ _ I) as [L Hmap]. split; [done|]. intros i q Hi. apply Hmap.
    apply lookup_app_Some in Hi as [|[_ [_ Hi]%list_lookup_singleton_Some]]; [done|]. by subst nd.
  - done.
  - done.
  - rewrite Hl, List.filter_app, length_app, (I_leafs _ _ _ I). destruct nd; cbn; lia.
  - done.
Qed.

(** A state seen for the first time. *)
Lemma einv_new N k e c e' co : einv N k e -> Tree c ∉ N -> reach au c -> Z.of_nat (length N) <= T ->
  (forall l, repr (e_color e) l -> repr co (<[Z.to_nat c := true]> l)) ->
  trans_idx e' = trans_idx e + 1 -> e_color e' = co -> e_map e' = <[Z.to_nat c := Z.of_nat (length N)]> (e_map e) ->
  e_cross e' = e_cross e -> e_dst e' = e_dst e -> final_leaf_num e' = final_leaf_num e -> e_term e' = e_term e ->
  einv (N ++ [Tree c]) k e'.
Proof.
  intros I Hnin Hr HN Hco Ht Hc Hm Hcr Hd Hl Htm. pose proof (I_le _ _ _ I). pose proof (I_trans _ _ _ I).
  pose proof (au_range c Hr) as Rg. apply T1_lt in HN.
  split; rewrite ?length_app; cbn [length]; try lia.
  - apply lookup_app_l_Some, (I_head _ _ _ I).
  - rewrite omap_app. cbn. apply list.NoDup_app. split; [apply (I_nodup _ _ _ I)|]. split; [|apply NoDup_singleton].
    intros x Hx%elem_tree_omap ->%list_elem_of_singleton. done.
  - intros q [Hq|Hq%list_elem_of_singleton]%elem_of_app; [by apply (I_reach _ _ _ I)|by injection Hq as ->].
  - intros q [Hq|Hq%list_elem_of_singleton]%elem_of_app; [apply elem_snoc; by apply (I_cross_tree _ _ _ I)|done].
  - intros [Hq|Hq%list_elem_of_singleton]%elem_of_app; [apply elem_snoc; by apply (I_leaf _ _ _ I)|done].
  - destruct (I_color _ _ _ I) as (l & R & L & Hl'). exists (<[Z.to_nat c := true]> l). rewrite Hc. split; [by apply Hco|].
    split; [by rewrite len_insert|]. intros q Hq. rewrite lbit_insert by lia. rewrite elem_of_app, list_elem_of_singleton.
    destruct (Z.eqb_spec q c) as [->|Hne]; [split; [by right|done]|]. rewrite Hl' by done. split; [by left|].
    intros [|[= ?]]; [done|congruence].
  - destruct (I_map _ _ _ I) as [L Hmap]. rewrite Hm. split; [by rewrite length_insert|]. intros j q Hj.
    apply lookup_app_Some in Hj as [Hj|[Hge [Hj [= ->]]%list_lookup_singleton_Some]].
    + rewrite list_lookup_insert_ne; [by apply Hmap|]. intros E. apply Hnin. apply list_elem_of_lookup_2 in Hj.
      assert (c = q) as ->; [|done]. pose proof (au_range q (I_reach _ _ _ I q Hj)). lia.
    + rewrite list_lookup_insert_eq by lia. do 2 f_equal. lia.
  - rewrite Hcr, nbits_app_false by done. apply (I_cross _ _ _ I).
  - rewrite Hd, omap_app. cbn. rewrite app_nil_r. apply Forall2_dst_mono, (I_dst _ _ _ I).
  - rewrite Hl, List.filter_app, length_app, (I_leafs _ _ _ I). cbn. lia.
  - rewrite Htm, nbits_app_false; [apply (I_term _ _ _ I)|done|]. cbn [term_bit]. by rewrite bool_decide_eq_false_2 by lia.
Qed.

(** One edge, in each of its three outcomes. *)
Lemma add_edge_ok N k e ch c n base ms LB : einv N k e -> raw (e_louds e) LB -> len LB < 2 ^ 32 - 1 ->
  Z.of_nat (length N) <= T -> reach au c -> 0 <= ch < 256 ->
  bytes (e_mem e) -> 0 <= base -> base + n <= Z.of_nat (length (e_mem e)) -> Z.of_nat (length ms) < n ->
  trans_idx e + 1 = base + Z.of_nat (length ms) -> label_part (e_mem e) base n ms ->
  exists nd e', add_edge junk leaf n base e (ch, c) = Ok e' /\ tgt leaf nd = c /\ einv (N ++ [nd]) k e' /\
    raw (e_louds e') (LB ++ [true]) /\ e_q2 e' = e_q2 e ++ [qentry nd] /\
    length (e_mem e') = length (e_mem e) /\ bytes (e_mem e') /\ frame (e_mem e) (e_mem e') base (base + n) /\
    label_part (e_mem e') base n (ms ++ [(ch, c)]).
Proof.
  intros I Hraw HLB HN Hc Hch Hm Hb Hl Hms Htr Hp. unfold add_edge.
  destruct (put_label_ok (e_mem e) base n ms (trans_idx e) ch c) as (mem & -> & Lm & Bm & Fm & Pm); [done..|]. cbn [rbind].
  destruct (I_color _ _ _ I) as (col & Rc & Lc & Hc'). pose proof (au_range c Hc) as Rg.
  rewrite (fv_is0_repr _ col) by (done || lia). cbn [rbind].
  destruct (law_push_back (junk (Z.to_nat (rs_size (e_louds e)))) (e_louds e) LB true) as (lo & El & Rl); [done..|].
  pose proof (I_trans _ _ _ I) as Ht. pose proof (I_map _ _ _ I) as [Lmap Hmap]. pose proof (T1_lt _ HN) as HT1.
  assert (Hk : u32 (trans_idx e + 1) = Z.of_nat (length N)) by (rewrite Ht; unfold u32; apply Z.mod_small; unfold T in *; lia).
  destruct (lbit col c) eqn:Ec; cbn [negb].
  - assert (Hin : Tree c ∈ N) by (apply Hc'; done). destruct (Z.eqb_spec c leaf) as [->|Hne]; cbn [negb].
    + destruct (fv_set1_repr (e_term e) (nbits (term_bit k) N T1) (trans_idx e + 1) (I_term _ _ _ I)) as (tm & -> & Rt);
        [unfold len; rewrite nbits_length; lia|]. cbn [rbind]. rewrite El. cbn [rbind].
      exists Leaf. eexists. split; [done|]. split; [done|]. split; [|done]. rewrite Ht, Nat2Z.id in Rt.
      apply (einv_old N k e Leaf); try done; cbn [e_cross e_dst e_term].
      * rewrite nbits_app_false by done. apply (I_cross _ _ _ I).
      * rewrite omap_app. cbn. rewrite app_nil_r. apply Forall2_dst_mono, (I_dst _ _ _ I).
      * rewrite nbits_app by done. exact Rt.
    + destruct (law_set (e_cross e) (nbits (fun _ => is_cross) N T1) (trans_idx e + 1) true (I_cross _ _ _ I)) as (cr & -> & Rr);
        [unfold len; rewrite nbits_length; lia|]. cbn [rbind].
      destruct (proj1 (list_elem_of_lookup _ _) Hin) as [i Hi]. rewrite (rd_ok (e_map e) c (Z.of_nat i)) by (lia || by apply Hmap).
      cbn [rbind]. rewrite El. cbn [rbind]. exists (Cross c). eexists. split; [done|]. split; [done|]. split; [|done].
      rewrite Ht, Nat2Z.id in Rr. apply (einv_old N k e (Cross c)); try done; cbn [e_cross e_dst e_term final_leaf_num].
      * rewrite nbits_app by done. exact Rr.
      * rewrite omap_app. cbn. apply Forall2_app; [apply Forall2_dst_mono, (I_dst _ _ _ I)|]. constructor; [|constructor].
        exists i. split; [by apply lookup_app_l_Some|done].
      * cbn. lia.
      * rewrite nbits_app_false by done. apply (I_term _ _ _ I).
  - destruct (fv_set1_repr (e_color e) col c Rc) as (co & Eco & Ro); [lia|]. rewrite Eco. cbn [rbind].
    rewrite wr_ok by lia. cbn [rbind]. rewrite El. cbn [rbind]. rewrite Hk.
    assert (Hnin : Tree c ∉ N) by (intros H'; apply Hc' in H'; [congruence|done]).
    exists (Tree c). eexists. split; [done|]. split; [done|]. split; [|done].
    apply (einv_new N k e c _ co); try done. intros l Rl'. destruct Rl' as [_ <-]. by destruct Rc as [_ <-].
Qed.

Lemma with_mem_einv N k e mem : einv N k e -> einv N k (with_mem e mem).
Proof. by intros [? ? ? ? ? ? ? ? ? ? ? ? ?]. Qed.

Lemma with_louds_einv N k e lo : einv N k e -> einv N k (with_louds e lo).
Proof. by intros [? ? ? ? ? ? ? ? ? ? ? ? ?]. Qed.

Lemma with_q2_einv N k e q2 : einv N k e -> einv N k (with_q2 e q2).
Proof. by intros [? ? ? ? ? ? ? ? ? ? ? ? ?]. Qed.

(** The nodes are the root and the targets of the edges of the visited nodes. *)
Definition spans (N : list node) (k : nat) : Prop :=
  map (tgt leaf) (tail N) = map snd (concat (map (mv au) (take k N))).

Lemma spans_length N k : N !! O = Some (Tree initial_state) -> spans N k -> length N = S (degs au (take k N)).
Proof.
  intros H0 Hs. apply (f_equal length) in Hs. rewrite !length_map in Hs. unfold degs. rewrite <- Hs.
  destruct N as [|x N']; [done|]. done.
Qed.

Lemma visit_room N k q e : einv N k e -> spans N k -> N !! k = Some (Tree q) ->
  Z.of_nat (length N) + moves_len au q <= T + 1 /\ Z.of_nat k <= T /\ length N = S (degs au (take k N)).
Proof.
  intros I Hs Hk. pose proof (spans_length N k (I_head _ _ _ I) Hs) as L. pose proof (lookup_lt_Some _ _ _ Hk).
  assert (Hb : Z.of_nat (degs au (take (S k) N)) <= T).
  { apply degs_bound.
    - pose proof (I_nodup _ _ _ I) as Hn. rewrite <- (take_drop (S k) N), omap_app in Hn. by apply list.NoDup_app in Hn as [? _].
    - intros p Hp. apply (I_reach _ _ _ I). rewrite <- (take_drop (S k) N). apply elem_of_app. by left. }
  rewrite (degs_take _ _ _ _ Hk) in Hb. cbn [mv] in Hb. unfold moves_len. lia.
Qed.

Lemma moves_fit q : reach au q -> 0 <= moves_len au q <= au_sigma au.
Proof.
  intros Hr. unfold moves_len. pose proof (ok_sorted _ _ Hau q Hr) as Hso. pose proof (ok_sigma _ _ Hau).
  assert (Hnd : NoDup (map fst (au_moves au q))).
  { clear - Hso. induction Hso as [|a l Hso IH Hall]; constructor; [|done]. intros Hin.
    rewrite List.Forall_forall in Hall. apply list_elem_of_In in Hin. specialize (Hall a Hin). lia. }
  assert (Hsub : map fst (au_moves au q) ⊆+ seqZ 0 (au_sigma au)).
  { apply NoDup_submseteq; [done|]. intros x Hx. apply elem_of_seqZ. apply list_elem_of_In, in_map_iff in Hx as ([c t] & <- & Hin).
    apply (ok_moves _ _ Hau q c t Hr) in Hin. cbn. lia. }
  apply submseteq_length in Hsub. rewrite length_map, length_seqZ in Hsub. lia.
Qed.

(** The state of the loop over the children after [j] of them. *)
Definition emitted (N : list node) (k : nat) (q : Z) (e : edges (RS := RS)) (LB : list bool) (base j : Z) (e' : edges (RS := RS)) : Prop :=
  let ms := take (Z.to_nat j) (au_moves au q) in
  exists M, length M = Z.to_nat j /\ einv (N ++ M) k e' /\ map (tgt leaf) M = map snd ms /\
    raw (e_louds e') (LB ++ replicate (Z.to_nat j) true) /\ e_q2 e' = e_q2 e ++ map qentry M /\
    length (e_mem e') = length (e_mem e) /\ bytes (e_mem e') /\ frame (e_mem e) (e_mem e') base (base + moves_len au q) /\
    label_part (e_mem e') base (moves_len au q) ms.

(** The block is cleared first. *)
Lemma emitted_0 N k q e LB base m0 : einv N k e -> raw (e_louds e) LB -> bytes (e_mem e) -> 0 <= base -> 0 <= moves_len au q ->
  base + moves_len au q <= Z.of_nat (length (e_mem e)) -> memset0 (e_mem e) base (moves_len au q) = Ok m0 ->
  emitted N k q e LB base 0 (with_mem e m0).
Proof.
  intros I Hraw Hm Hb Hn Hl E. destruct (memset0_ok (e_mem e) base (moves_len au q) Hm) as (m1 & E1 & L0 & B0 & F0); [lia..|].
  rewrite E in E1. injection E1 as <-. exists []. cbn [with_mem e_mem e_louds e_q2 map take Z.to_nat replicate]. rewrite !app_nil_r.
  split; [done|]. split; [by apply with_mem_einv|]. do 3 (split; [done|]). do 2 (split; [done|]). split.
  { intros i Hi Hd. rewrite F0 by done. destruct (Z.leb_spec base i), (Z.ltb_spec i (base + moves_len au q)); (lia || done). }
  unfold label_part. destruct (Z.ltb_spec (moves_len au q) 40); [by intros j ch t|]. intros ch Hch. destruct (ch_div ch Hch) as (? & ? & _).
  assert (le_at 4 m0 (base + 8 + 4 * (ch / 32)) = 0) as ->; [|apply Z.bits_0].
  apply le_at_bytes_of; [done|]. intros i Hi. rewrite F0 by lia.
  rewrite (proj2 (Z.leb_le _ _)), (proj2 (Z.ltb_lt _ _)) by lia. done.
Qed.

Lemma emitted_step N k q e LB base j e1 : reach au q -> Z.of_nat (length N) + moves_len au q <= T + 1 ->
  len LB + moves_len au q < 2 ^ 32 -> base = Z.of_nat (length N) -> base + moves_len au q <= Z.of_nat (length (e_mem e)) ->
  0 <= j < moves_len au q -> emitted N k q e LB base j e1 ->
  exists e2, (let* m := rd (au_moves au q) j in add_edge junk leaf (moves_len au q) base e1 m) = Ok e2 /\ emitted N k q e LB base (j + 1) e2.
Proof.
  intros Hr Hroom HLB Hb Hl Hj (M & LM & I1 & Mt & R1 & Q1 & L1 & B1 & F1 & P1).
  destruct (lookup_lt_is_Some_2 (au_moves au q) (Z.to_nat j)) as [[ch t] Et]; [unfold moves_len in Hj; lia|].
  rewrite (rd_ok _ _ (ch, t)) by (done || lia). cbn [rbind].
  assert (Hin : In (ch, t) (au_moves au q)) by (apply list_elem_of_In; by eapply list_elem_of_lookup_2).
  pose proof (ok_moves _ _ Hau q ch t Hr Hin) as [Hch Hrt]. pose proof (ok_sigma _ _ Hau).
  pose proof (I_trans _ _ _ I1) as Ht1. rewrite length_app, LM in Ht1.
  assert (Lt : length (take (Z.to_nat j) (au_moves au q)) = Z.to_nat j) by (rewrite length_take; apply lookup_lt_Some in Et; lia).
  destruct (add_edge_ok (N ++ M) k e1 ch t (moves_len au q) base (take (Z.to_nat j) (au_moves au q)) (LB ++ replicate (Z.to_nat j) true))
    as (nd & e2 & E & Tn & I2 & R2 & Q2 & L2 & B2 & F2 & P2); try done; rewrite ?Lt, ?L1; try lia.
  - unfold len in *. rewrite length_app, length_replicate. lia.
  - rewrite length_app, LM. lia.
  - by eapply reach_move.
  - exists e2. split; [done|]. exists (M ++ [nd]). replace (Z.to_nat (j + 1)) with (S (Z.to_nat j)) by lia.
    rewrite (take_S_r _ _ _ Et), !map_app, Mt. cbn [map]. rewrite Tn, app_assoc. split; [rewrite length_app; cbn; lia|]. split; [done|].
    split; [done|]. split; [by rewrite replicate_S_end, app_assoc|]. split; [rewrite Q2, Q1; by rewrite <- app_assoc|].
    split; [lia|]. split; [done|]. split; [by eapply frame_trans|done].
Qed.

Lemma expand_ok N k q e LB : einv N k e -> spans N k -> N !! k = Some (Tree q) -> raw (e_louds e) LB ->
  len LB = 1 + Z.of_nat (degs au (take k N)) + Z.of_nat k -> bytes (e_mem e) -> 1 + T <= Z.of_nat (length (e_mem e)) ->
  let n := moves_len au q in let base := first_child au N k in
  exists M e', expand junk au leaf e q = Ok e' /\ einv (N ++ M) k e' /\ map (tgt leaf) M = map snd (au_moves au q) /\
    raw (e_louds e') (LB ++ replicate (Z.to_nat n) true) /\ e_q2 e' = e_q2 e ++ map qentry M /\
    length (e_mem e') = length (e_mem e) /\ bytes (e_mem e') /\ frame (e_mem e) (e_mem e') base (base + n) /\
    label_ok (e_mem e') base (au_moves au q).
Proof.
  intros I Hs Hk Hraw HLB Hm Hlm n base. destruct (visit_room N k q e I Hs Hk) as (Hroom & HkT & LN).
  pose proof (I_trans _ _ _ I) as Ht. assert (Hr : reach au q) by (apply (I_reach _ _ _ I); by eapply list_elem_of_lookup_2).
  assert (Eb : trans_idx e + 1 = base) by (unfold base, first_child; lia). pose proof (moves_fit q Hr) as Hn. fold n in Hroom, Hn.
  unfold expand. fold n. rewrite (proj2 (Z.leb_le _ _)) by lia. cbn [assert_ rbind]. rewrite Eb.
  destruct (memset0_ok (e_mem e) base n Hm) as (m0 & E0 & _); [lia..|]. rewrite E0. cbn [rbind].
  destruct (for_inv (emitted N k q e LB base) (fun j e => let* m := rd (au_moves au q) j in add_edge junk leaf n base e m) 0 n (with_mem e m0))
    as (e1 & -> & M & LM & I1 & Mt & R1 & Q1 & L1 & B1 & F1 & P1).
  - lia.
  - apply emitted_0; (done || lia).
  - intros j e1 Hj. apply emitted_step; (done || unfold T in *; lia).
  - rewrite (firstn_all2 (au_moves au q)) in P1, Mt by (unfold n, moves_len; lia). fold n in P1, F1. cbn [rbind].
    change (Z.of_nat (length (au_moves au q))) with n in *. unfold MIN_FAST_SEARCH_BYTES. exists M. destruct (Z.leb_spec 40 n) as [H40|H40].
    + unfold label_part in P1. rewrite (proj2 (Z.ltb_ge _ _)) in P1 by lia.
      destruct (put_popcnts_ok (e_mem e1) base n (au_moves au q) B1) as (m2 & -> & L2 & B2 & F2 & P2 & C2); [lia..|done|]. cbn [rbind].
      eexists. split; [done|]. cbn [with_mem e_louds e_q2 e_mem]. split; [by apply with_mem_einv|]. do 3 (split; [done|]).
      split; [lia|]. split; [done|]. split; [eapply frame_trans; [exact L1|done|]; eapply frame_weak; [| |exact F2]; lia|].
      split; [|done]. unfold label_part. change (Z.of_nat (length (au_moves au q))) with n. by rewrite (proj2 (Z.ltb_ge _ _)) by lia.
    + eexists. split; [done|]. do 7 (split; [done|]). split; [exact P1|]. change (Z.of_nat (length (au_moves au q))) with n. lia.
Qed.

(** ** Zpaths *)

Definition zpath_of (nd : node) : option (list Z) :=
  match nd with Tree q => if au_is_pzip au q then Some (au_zpath au q) else None | _ => None end.
Definition zs_of (l : list node) : list (list Z) := omap zpath_of l.
Definition zprefix (Zs : list (list Z)) : list bool :=
  false :: concat (map (fun z => replicate (length z - 2) true ++ [false]) Zs).
Definition zsize : Z := Z_ - au_num_zpath_states au + 1.
Definition zbits (Zs : list (list Z)) : list bool := list.resize (Z.to_nat zsize) false (zprefix Zs).
Definition pz_bit (i : nat) (nd : node) : bool := match nd with Tree q => au_is_pzip au q | _ => false end.

Definition zlen (s : Z) : Z := if au_is_pzip au s then Z.of_nat (length (au_zpath au s)) else 0.
Definition zone (s : Z) : Z := Z.b2z (au_is_pzip au s).

Lemma zs_app l k : zs_of (l ++ k) = zs_of l ++ zs_of k.
Proof. apply omap_app. Qed.

Lemma zs_counts l : Z.of_nat (length (concat (zs_of l))) = sum_over zlen (omap tree_of l) /\
  Z.of_nat (length (zs_of l)) = sum_over zone (omap tree_of l).
Proof.
  induction l as [|nd l [IH1 IH2]]; [done|]. unfold zs_of in *. destruct nd as [q|q|]; cbn; try done.
  unfold zlen at 1, zone at 1. destruct (au_is_pzip au q) eqn:E; cbn [length concat app Z.b2z]; rewrite ?E, ?length_app; unfold sum_over in *; cbn [Z.b2z]; lia.
Qed.

Lemma zprefix_app Zs z : zprefix (Zs ++ [z]) = zprefix Zs ++ replicate (length z - 2) true ++ [false].
Proof. unfold zprefix. rewrite map_app, concat_app. cbn [map concat]. by rewrite app_nil_r. Qed.

Definition zlong (Zs : list (list Z)) : Prop := Forall (fun z => 2 <= Z.of_nat (length z) /\ bytes z) Zs.

Lemma zprefix_length Zs : zlong Zs -> Z.of_nat (length (zprefix Zs)) = 1 + Z.of_nat (length (concat Zs)) - Z.of_nat (length Zs).
Proof.
  induction Zs as [|z Zs IH] using rev_ind; intros Hl; [done|]. apply Forall_app in Hl as [H1 H2]. apply Forall_singleton in H2 as [H2 _].
  rewrite zprefix_app, !length_app, length_replicate, concat_app, length_app. cbn [concat length]. rewrite app_nil_r. specialize (IH H1). lia.
Qed.

Lemma zs_long l : (forall q, Tree q ∈ l -> reach au q) -> zlong (zs_of l).
Proof.
  intros Hr. apply Forall_forall. intros z Hz%list_elem_of_In. apply list_elem_of_omap in Hz as (nd & Hin & E). destruct nd as [q| |]; try done.
  cbn in E. destruct (au_is_pzip au q) eqn:Ez; [|done]. injection E as <-. apply (ok_zpath _ _ Hau); [by apply Hr|done].
Qed.

Lemma sum_over_sub g h l : sum_over (fun s => g s - h s) l = sum_over g l - sum_over h l.
Proof. induction l as [|s l IH]; [done|]. unfold sum_over in *. cbn [foldr]. lia. Qed.

(** Room in the zpath bytes and in their index for the zpaths of any trees. *)
Lemma zs_room l : NoDup (omap tree_of l) -> (forall q, Tree q ∈ l -> reach au q) ->
  Z.of_nat (length (concat (zs_of l))) <= Z_ /\ Z.of_nat (length (zs_of l)) <= au_num_zpath_states au /\
  Z.of_nat (length (zprefix (zs_of l))) <= zsize.
Proof.
  intros Hnd Hr. destruct (zs_counts l) as [E1 E2]. rewrite (zprefix_length _ (zs_long l Hr)), E1, E2.
  assert (Hin : forall s, s ∈ omap tree_of l -> s ∈ used) by (intros s Hs%elem_tree_omap; apply (ok_used _ _ Hau); by apply Hr).
  assert (Hz : forall s, s ∈ used -> 0 <= zone s <= zlen s).
  { intros s Hs. unfold zlen, zone. destruct (au_is_pzip au s) eqn:E; cbn; [|lia].
    apply (ok_used _ _ Hau) in Hs. apply (ok_zpath _ _ Hau) in E; [lia|done]. }
  pose proof (sum_over_le zlen _ used Hnd Hin ltac:(intros s Hs; apply Hz in Hs; lia)) as L1.
  pose proof (sum_over_le zone _ used Hnd Hin ltac:(intros s Hs; apply Hz in Hs; lia)) as L2.
  pose proof (sum_over_le (fun s => zlen s - zone s) _ used Hnd Hin ltac:(intros s Hs; apply Hz in Hs; lia)) as L3.
  rewrite !sum_over_sub in L3. unfold zsize. unfold Z_. rewrite (ok_zpath_len _ _ Hau), (ok_num_zpath _ _ Hau).
  change (sum_over (fun s => Z.b2z (au_is_pzip au s)) used) with (sum_over zone used).
  change (sum_over (fun s => if au_is_pzip au s then Z.of_nat (length (au_zpath au s)) else 0) used) with (sum_over zlen used). lia.
Qed.

Lemma zbits_len Zs : 0 <= zsize -> len (zbits Zs) = zsize.
Proof. intros. unfold zbits. by apply len_resize. Qed.

(** Writing the run of the next zpath. *)
Lemma zbits_put Zs z : 2 <= Z.of_nat (length z) -> Z.of_nat (length (zprefix (Zs ++ [z]))) <= zsize ->
  let i := length (zprefix Zs) in let m := (length z - 2)%nat in
  <[(i + m)%nat := false]> (take i (zbits Zs) ++ replicate m true ++ drop (i + m) (zbits Zs)) = zbits (Zs ++ [z]).
Proof.
  intros Hz Hl i m. rewrite zprefix_app in *. rewrite !length_app, length_replicate in Hl. cbn [length] in Hl. fold i m in Hl.
  unfold zbits. rewrite zprefix_app. fold m. rewrite !resize_ge by (rewrite ?length_app, ?length_replicate; cbn [length]; fold i; lia).
  rewrite take_app_le, firstn_all2 by (fold i; lia). rewrite <- app_assoc. cbn [app].
  rewrite insert_app_r_alt by (fold i; lia). f_equal. fold i. replace (i + m - i)%nat with m by lia.
  rewrite insert_app_r_alt by (rewrite length_replicate; lia). rewrite length_replicate, Nat.sub_diag, <- app_assoc. f_equal.
  rewrite skipn_app, skipn_all2 by (fold i; lia). fold i. replace (i + m - i)%nat with m by lia. cbn [app].
  rewrite drop_replicate, !length_app, length_replicate. fold i. cbn [length].
  replace (Z.to_nat zsize - i - m)%nat with (S (Z.to_nat zsize - (i + (m + 1))))%nat by lia. done.
Qed.

(** ** The invariant between two states *)

Context (cache_num : Z).
Definition zd : Z := 1 + T + mm_cmpestri_extra.
Definition pz_bits (l : list node) : list bool :=
  if au_num_zpath_states au =? 0 then [] else nbits pz_bit l T1.

Record zinv (l : list node) (mem : list Z) (n : nodes (RS := RS)) : Prop := {
  Z_pos : zpath_pos n = 1 + Z.of_nat (length (concat (zs_of l)));
  Z_node : znode_idx n = Z.of_nat (length (zs_of l));
  Z_bytes : forall i, 0 <= i < Z.of_nat (length (concat (zs_of l))) -> byte_at mem (zd + 1 + i) = byte_at (concat (zs_of l)) i;
  Z_index : raw (n_zindex n) (zbits (zs_of l));
  Z_pzip : raw (n_pzip n) (pz_bits l);
}.

Record minv (N : list node) (k : nat) (mem : list Z) : Prop := {
  M_bytes : bytes mem;
  M_len : Z.of_nat (length mem) = zd + Z_ + 1;
  M_labels : forall i q, (i < k)%nat -> N !! i = Some (Tree q) -> label_ok mem (first_child au N i) (au_moves au q);
}.

Definition cinv (N : list node) (k : nat) (cache : list Z) : Prop :=
  Z.of_nat (length cache) = cache_num /\
  forall i, (i < k)%nat -> Z.of_nat i < cache_num -> cache !! i = Some (Z.of_nat (length (louds_of au (take i N)))).

Record ninv (N : list node) (k : nat) (e : edges (RS := RS)) (n : nodes (RS := RS)) : Prop := {
  J_serial : bfs_serial_no n = Z.of_nat k;
  J_spans : spans N k;
  J_louds : raw (e_louds e) (louds_of au (take k N));
  J_mem : minv N k (e_mem e);
  J_zpath : zinv (take k N) (e_mem e) n;
  J_cache : cinv N k (n_cache n);
}.

(** Facts about the visited part of a node list. *)
Lemma einv_prefix N k e j : einv N k e -> NoDup (omap tree_of (take j N)) /\ forall q, Tree q ∈ take j N -> reach au q.
Proof.
  intros I. split.
  - pose proof (I_nodup _ _ _ I) as Hn. rewrite <- (take_drop j N), omap_app in Hn. by apply list.NoDup_app in Hn as [? _].
  - intros q Hq. apply (I_reach _ _ _ I). rewrite <- (take_drop j N). apply elem_of_app. by left.
Qed.

Lemma first_child_le N k e i q : einv N k e -> N !! i = Some (Tree q) ->
  1 <= first_child au N i /\ first_child au N i + moves_len au q <= 1 + T.
Proof.
  intros I Hi. destruct (einv_prefix N k e (S i) I) as [Hn Hr]. pose proof (degs_bound _ Hn Hr) as Hb.
  rewrite (degs_take _ _ _ _ Hi) in Hb. cbn [mv] in Hb. unfold first_child, moves_len. lia.
Qed.

Lemma T_nonneg : 0 <= T.
Proof. unfold T. rewrite (ok_transitions _ _ Hau). apply sum_over_nonneg, moves_nonneg. Qed.

Lemma Z_nonneg : 0 <= Z_ /\ 0 <= au_num_zpath_states au.
Proof.
  unfold Z_. rewrite (ok_zpath_len _ _ Hau), (ok_num_zpath _ _ Hau).
  split; apply sum_over_nonneg; intros s _; destruct (au_is_pzip au s); cbn; lia.
Qed.

(** Bytes outside the label blocks may change. *)
Lemma minv_frame N k e mem mem' a b : einv N k e -> minv N k mem -> length mem' = length mem -> bytes mem' -> 1 + T <= a ->
  frame mem mem' a b -> minv N k mem'.
Proof.
  intros I [B L Lab] L' B' Ha F. split; [done|lia|]. intros i q Hi Hq. destruct (first_child_le N k e i q I Hq).
  eapply label_ok_frame; [| | |exact F| |by apply Lab]; unfold zd, mm_cmpestri_extra, moves_len in *; pose proof Z_nonneg; (done || lia).
Qed.

(** Bytes outside the zpaths may change. *)
Lemma zinv_frame l mem mem' n b : zinv l mem n -> NoDup (omap tree_of l) -> (forall q, Tree q ∈ l -> reach au q) ->
  Z.of_nat (length mem) = zd + Z_ + 1 -> frame mem mem' 0 b -> b <= zd + 1 -> zinv l mem' n.
Proof.
  intros [Z1 Z2 Z3 Z4 Z5] Hn Hr L F Hb. split; try done. intros i Hi. destruct (zs_room l Hn Hr) as (R1 & _).
  pose proof T_nonneg. rewrite F; [by apply Z3| |lia]. unfold zd, mm_cmpestri_extra in *. lia.
Qed.

(** A node that has no zpath. *)
Lemma zinv_plain l nd mem n : zpath_of nd = None -> (length l < T1)%nat -> zinv l mem n -> zinv (l ++ [nd]) mem n.
Proof.
  intros Hnd Hl [Z1 Z2 Z3 Z4 Z5]. assert (E : zs_of (l ++ [nd]) = zs_of l) by (rewrite zs_app; unfold zs_of at 2; cbn; by rewrite Hnd, app_nil_r).
  split; rewrite ?E; try done. unfold pz_bits in *. destruct (_ =? 0); [done|].
  rewrite nbits_app_false; [done|done|]. destruct nd as [q| |]; try done. cbn in *. by destruct (au_is_pzip au q).
Qed.

Lemma put_zpath_ok l q mem n : NoDup (omap tree_of (l ++ [Tree q])) -> (forall p, Tree p ∈ l ++ [Tree q] -> reach au p) ->
  (length l < T1)%nat -> bytes mem -> Z.of_nat (length mem) = zd + Z_ + 1 -> zinv l mem n -> bfs_serial_no n = Z.of_nat (length l) ->
  exists mem' n', put_zpath au zd mem n q = Ok (mem', n') /\ bytes mem' /\ length mem' = length mem /\
    frame mem mem' (zd + 1) (zd + 1 + Z_) /\ zinv (l ++ [Tree q]) mem' n' /\ n_cache n' = n_cache n /\ bfs_serial_no n' = bfs_serial_no n.
Proof.
  intros Hnd Hr Hl Hm Lm I Hs. unfold put_zpath. destruct (au_is_pzip au q) eqn:Ep; cbn [negb].
  2: { exists mem, n. do 3 (split; [done|]). split; [by intros i|]. split; [|done]. apply zinv_plain; [|done..]. cbn. by rewrite Ep. }
  set (z := au_zpath au q). assert (Ez : zs_of (l ++ [Tree q]) = zs_of l ++ [z]) by (rewrite zs_app; unfold zs_of at 2; cbn; by rewrite Ep).
  destruct (zs_room _ Hnd Hr) as (R1 & R2 & R3). rewrite Ez in R1, R2, R3.
  assert (Hlong : zlong (zs_of l)) by (apply zs_long; intros p Hp; apply Hr, elem_of_app; by left).
  destruct (ok_zpath _ _ Hau q) as [Hz2 Hzb]; [apply Hr, elem_of_app; right; by left|done|]. fold z in Hz2, Hzb.
  rewrite concat_app, length_app in R1. cbn [concat length] in R1. rewrite app_nil_r in R1. rewrite length_app in R2. cbn [length] in R2.
  pose proof (zprefix_length _ Hlong) as LP. destruct I as [I1 I2 I3 I4 I5]. pose proof Z_nonneg. pose proof T_nonneg.
  rewrite (proj2 (Z.leb_le _ _)) by lia. cbn [assert_ rbind].
  destruct (put_ok mem (zd + zpath_pos n) (Z.of_nat (length z)) (fun k => byte_at z k) Hm) as (m' & -> & L' & B' & F');
    [unfold zd, mm_cmpestri_extra in *; lia|lia|lia|intros; by apply byte_range|]. cbn [rbind].
  assert (Ei : zpath_pos n - znode_idx n = Z.of_nat (length (zprefix (zs_of l)))) by lia. rewrite Ei.
  pose proof R3 as R3'. rewrite zprefix_app, !length_app, length_replicate in R3'. cbn [length] in R3'.
  assert (Lb : len (zbits (zs_of l)) = zsize) by (apply zbits_len; lia).
  destruct (law_set1_range (n_zindex n) (zbits (zs_of l)) (Z.of_nat (length (zprefix (zs_of l)))) (Z.of_nat (length z) - 2) I4) as (zi1 & -> & Ri1); [lia..|].
  cbn [rbind]. replace (Z.to_nat (Z.of_nat (length z) - 2)) with (length z - 2)%nat in Ri1 by lia. rewrite Nat2Z.id in Ri1.
  replace (Z.to_nat (Z.of_nat (length (zprefix (zs_of l))) + (Z.of_nat (length z) - 2))) with (length (zprefix (zs_of l)) + (length z - 2))%nat in Ri1 by lia.
  destruct (law_set zi1 _ (Z.of_nat (length (zprefix (zs_of l))) + Z.of_nat (length z) - 2) false Ri1) as (zi2 & -> & Ri2).
  { unfold len in *. rewrite !length_app, length_take, length_replicate, length_drop. lia. }
  cbn [rbind]. replace (Z.to_nat (Z.of_nat (length (zprefix (zs_of l))) + Z.of_nat (length z) - 2)) with (length (zprefix (zs_of l)) + (length z - 2))%nat in Ri2 by lia.
  rewrite zbits_put in Ri2 by done.
  unfold pz_bits in I5. rewrite (proj2 (Z.eqb_neq (au_num_zpath_states au) 0)) in I5 by lia. rewrite (law_size _ _ I5).
  unfold len at 1. rewrite nbits_length. unfold T1 at 1. fold T. rewrite Z2Nat.id, Z.eqb_refl by lia. cbn [assert_ rbind].
  destruct (law_set (n_pzip n) _ (bfs_serial_no n) true I5) as (pz & -> & Rp); [unfold len; rewrite nbits_length; lia|]. cbn [rbind].
  eexists _, _. split; [done|]. split; [done|]. split; [done|]. split.
  { intros i Hi Hd. rewrite F' by done. destruct (Z.leb_spec (zd + zpath_pos n) i), (Z.ltb_spec i (zd + zpath_pos n + Z.of_nat (length z))); (lia || done). }
  split; [|done]. split; cbn [zpath_pos znode_idx n_zindex n_pzip].
  - rewrite Ez, concat_app, length_app. cbn [concat]. rewrite app_nil_r. lia.
  - rewrite Ez, length_app. cbn. lia.
  - rewrite Ez, concat_app. cbn [concat]. rewrite app_nil_r, length_app. intros i Hi. rewrite F' by (unfold zd, mm_cmpestri_extra in *; lia).
    destruct (Z.leb_spec (zd + zpath_pos n) (zd + 1 + i)) as [Hge|Hlt]; cbn [andb].
    + rewrite (proj2 (Z.ltb_lt _ _)) by lia. unfold byte_at. rewrite app_nth2 by lia. f_equal. lia.
    + rewrite I3 by lia. unfold byte_at. by rewrite app_nth1 by lia.
  - by rewrite Ez.
  - unfold pz_bits. rewrite (proj2 (Z.eqb_neq (au_num_zpath_states au) 0)) by lia. rewrite nbits_app by done. cbn [pz_bit]. rewrite Ep.
    rewrite Hs, Nat2Z.id in Rp. exact Rp.
Qed.

(** ** Visiting a state *)

Lemma einv_visited N k e nd term : einv N k e -> N !! k = Some nd -> (k < T1)%nat ->
  repr term (match nd with Tree q => <[k := au_is_term au q]> (nbits (term_bit k) N T1) | _ => nbits (term_bit k) N T1 end) ->
  einv N (S k) (with_term e term).
Proof.
  intros I Hk Hlt R. pose proof (lookup_lt_Some _ _ _ Hk). destruct I. split; try done. cbn [with_term e_term].
  assert (Hoth : forall j nd', j <> k -> N !! j = Some nd' -> term_bit (S k) j nd' = term_bit k j nd').
  { intros j [q'| |] Hj _; try done. cbn. f_equal. apply bool_decide_ext. lia. }
  eapply eq_ind; [exact R|]. destruct nd as [q|q|].
  - symmetry. rewrite (nbits_update (term_bit k) (term_bit (S k)) N T1 k (Tree q)) by done. cbn [term_bit]. by rewrite bool_decide_eq_true_2 by lia.
  - apply nbits_ext. intros j Hj. destruct (decide (j = k)) as [->|]; [by rewrite Hk|]. destruct (N !! j) eqn:E; [|done]. symmetry. by apply Hoth.
  - apply nbits_ext. intros j Hj. destruct (decide (j = k)) as [->|]; [by rewrite Hk|]. destruct (N !! j) eqn:E; [|done]. symmetry. by apply Hoth.
Qed.

Lemma take_app_visited (N M : list node) k nd : N !! k = Some nd -> take (S k) (N ++ M) = take k N ++ [nd] /\ take k (N ++ M) = take k N.
Proof.
  intros Hk. pose proof (lookup_lt_Some _ _ _ Hk). split; rewrite take_app_le by lia; [by apply take_S_r|done].
Qed.

Lemma first_child_app N M i : (i <= length N)%nat -> first_child au (N ++ M) i = first_child au N i.
Proof. intros Hi. unfold first_child. by rewrite take_app_le by lia. Qed.

Lemma spans_visited N M k nd : (0 < length N)%nat -> spans N k -> N !! k = Some nd -> map (tgt leaf) M = map snd (mv au nd) -> spans (N ++ M) (S k).
Proof.
  intros H0 Hs Hk HM. unfold spans in *. destruct (take_app_visited N M k nd Hk) as [-> _]. rewrite map_app, concat_app. cbn [map concat].
  rewrite app_nil_r, map_app, <- Hs, <- HM. destruct N as [|x N']; [cbn in *; lia|]. cbn. by rewrite map_app.
Qed.

Lemma cache_put N k nd cache : cinv N k cache -> N !! k = Some nd -> Z.of_nat (length (louds_of au (take k N))) < 2 ^ 32 ->
  forall M, exists cache', (if Z.of_nat k <? Z.of_nat (length cache)
    then wr cache (Z.of_nat k) (u32 (Z.of_nat (length (louds_of au (take k N))))) else Ok cache) = Ok cache' /\ cinv (N ++ M) (S k) cache'.
Proof.
  intros [L C] Hk Hlt M. pose proof (lookup_lt_Some _ _ _ Hk).
  assert (E : forall i, (i <= k)%nat -> take i (N ++ M) = take i N) by (intros; apply take_app_le; lia).
  unfold u32. rewrite Z.mod_small by lia. destruct (Z.ltb_spec (Z.of_nat k) (Z.of_nat (length cache))) as [Hc|Hc].
  - rewrite wr_ok by lia. eexists. split; [done|]. rewrite Nat2Z.id. split; [by rewrite length_insert|]. intros i Hi Hic. rewrite E by lia.
    destruct (decide (i = k)) as [->|]; [apply list_lookup_insert_eq; lia|]. rewrite list_lookup_insert_ne by done. apply C; lia.
  - eexists. split; [done|]. split; [done|]. intros i Hi Hic. rewrite E by lia. apply C; lia.
Qed.

(** The bounds a visit needs. *)
Lemma visit_bounds N k e n nd : einv N k e -> ninv N k e n -> N !! k = Some nd ->
  (k < length N)%nat /\ (k < T1)%nat /\ length N = S (degs au (take k N)) /\ length (take k N) = k /\
  len (louds_of au (take k N)) = 1 + Z.of_nat (degs au (take k N)) + Z.of_nat k /\ 1 + Z.of_nat (degs au (take k N)) + Z.of_nat k <= 2 * T + 1.
Proof.
  intros I J Hk. pose proof (lookup_lt_Some _ _ _ Hk) as Hkl.
  pose proof (spans_length N k (I_head _ _ _ I) (J_spans _ _ _ _ J)) as LN. destruct (einv_prefix N k e k I) as [Hn Hr].
  pose proof (degs_bound _ Hn Hr) as Hdeg. unfold len. rewrite louds_length, length_take_le by lia. unfold T1. lia.
Qed.

(** The first statement of the body. *)
Lemma visit_cache N k e n nd : einv N k e -> ninv N k e n -> N !! k = Some nd ->
  exists c', (if bfs_serial_no n <? Z.of_nat (length (n_cache n)) then wr (n_cache n) (bfs_serial_no n) (u32 (rs_size (e_louds e))) else Ok (n_cache n)) = Ok c' /\
    forall M, cinv (N ++ M) (S k) c'.
Proof.
  intros I J Hk. destruct (visit_bounds N k e n nd I J Hk) as (B1 & B2 & B3 & B4 & B5 & B6).
  rewrite (J_serial _ _ _ _ J), (law_size _ _ (J_louds _ _ _ _ J)). unfold len in *.
  destruct (cache_put N k nd _ (J_cache _ _ _ _ J) Hk ltac:(lia) []) as (c' & Ec & _). exists c'. split; [done|]. intros M.
  destruct (cache_put N k nd _ (J_cache _ _ _ _ J) Hk ltac:(lia) M) as (c2 & Ec2 & H2). rewrite Ec in Ec2. by injection Ec2 as <-.
Qed.

Lemma visit_none_ok N k e n nd : einv N k e -> ninv N k e n -> N !! k = Some nd -> tree_of nd = None ->
  exists M e' n', visit junk au leaf zd (qentry nd) (e, n) = Ok (e', n') /\ einv (N ++ M) (S k) e' /\ ninv (N ++ M) (S k) e' n' /\
    e_q2 e' = e_q2 e ++ map qentry M.
Proof.
  intros I J Hk Hnd. destruct (visit_bounds N k e n nd I J Hk) as (B1 & B2 & B3 & B4 & B5 & B6).
  assert (Hq : qentry nd = nil_state /\ mv au nd = [] /\ zpath_of nd = None) by (by destruct nd). destruct Hq as (Hq & Hmv & Hz).
  unfold visit. destruct (visit_cache N k e n nd I J Hk) as (c' & -> & Hc'). cbn [rbind]. rewrite Hq, Z.eqb_refl. cbn [negb rbind].
  pose proof J as [J1 J2 J3 J4 J5 J6].
  destruct (law_push_back (junk (Z.to_nat (rs_size (e_louds e)))) (e_louds e) _ false (Hjunk _) J3) as (lo & -> & Rl); [lia|].
  cbn [rbind]. exists [], (with_louds e lo). eexists. split; [done|]. destruct (take_app_visited N [] k _ Hk) as [Et _].
  split; [|split; [|cbn; by rewrite app_nil_r]].
  - rewrite app_nil_r. change (with_louds e lo) with (with_term (with_louds e lo) (e_term e)).
    eapply einv_visited; [by apply with_louds_einv|exact Hk|done|]. pose proof (I_term _ _ _ I). by destruct nd.
  - split; cbn [bfs_serial_no e_louds with_louds e_mem n_cache]; [lia| | | | |apply Hc'].
    + eapply spans_visited; [lia|done|exact Hk|]. by rewrite Hmv.
    + rewrite Et, louds_of_app, Hmv. exact Rl.
    + destruct J4 as [B L Lab]. split; [done..|]. rewrite app_nil_r. intros i q' Hi Hq'. apply Lab; [|done].
      destruct (decide (i = k)) as [->|]; [|lia]. rewrite Hk in Hq'. by injection Hq' as ->.
    + rewrite Et. destruct J5 as [Z1 Z2 Z3 Z4 Z5].
      apply (zinv_plain _ _ _ (Nodes (n_pzip n) (n_zindex n) c' (zpath_pos n) (znode_idx n) (bfs_serial_no n + 1)));
        [done|by rewrite B4|by split].
Qed.

(** The label blocks after the one of node [k] was written. *)
Lemma minv_expanded N M k q e mem mem' : einv N k e -> minv N k mem -> N !! k = Some (Tree q) -> length mem' = length mem -> bytes mem' ->
  frame mem mem' (first_child au N k) (first_child au N k + moves_len au q) -> label_ok mem' (first_child au N k) (au_moves au q) ->
  minv (N ++ M) (S k) mem'.
Proof.
  intros I [MB ML MLab] Hk L' B' F P. pose proof (lookup_lt_Some _ _ _ Hk) as Hkl. split; [done|lia|]. intros i q' Hi Hq.
  rewrite lookup_app_l in Hq by lia. rewrite first_child_app by lia. destruct (decide (i = k)) as [->|Hne].
  { rewrite Hk in Hq. by injection Hq as <-. }
  destruct (first_child_le N k e i q' I Hq) as [F0 F2]. destruct (first_child_le N k e k q I Hk) as [F3 F4].
  pose proof Z_nonneg. pose proof T_nonneg. unfold zd, mm_cmpestri_extra in ML.
  eapply label_ok_frame; [| | |exact F| |apply MLab; [lia|done]]; [lia|unfold moves_len in *; lia|done|].
  left. unfold first_child. pose proof (degs_take_le au N (S i) k ltac:(lia)) as Hd. rewrite (degs_take _ _ _ _ Hq) in Hd. cbn [mv] in Hd. lia.
Qed.

Lemma visit_tree_ok N k e n q : einv N k e -> ninv N k e n -> N !! k = Some (Tree q) ->
  exists M e' n', visit junk au leaf zd q (e, n) = Ok (e', n') /\ einv (N ++ M) (S k) e' /\ ninv (N ++ M) (S k) e' n' /\
    e_q2 e' = e_q2 e ++ map qentry M.
Proof.
  intros I J Hk. destruct (visit_bounds N k e n _ I J Hk) as (B1 & B2 & B3 & B4 & B5 & B6).
  unfold visit. destruct (visit_cache N k e n _ I J Hk) as (c' & -> & Hc'). cbn [rbind]. pose proof J as [J1 J2 J3 J4 J5 J6].
  destruct (visit_room N k q e I J2 Hk) as (Hroom & _). assert (Hrq : reach au q) by (apply (I_reach _ _ _ I); by eapply list_elem_of_lookup_2).
  rewrite (proj2 (Z.eqb_neq q nil_state)) by (by apply nil_out). cbn [negb].
  destruct (einv_prefix N k e (S k) I) as [Hn' Hr']. rewrite (take_S_r _ _ _ Hk) in Hn', Hr'.
  destruct (put_zpath_ok (take k N) q (e_mem e) (Nodes (n_pzip n) (n_zindex n) c' (zpath_pos n) (znode_idx n) (bfs_serial_no n)) Hn' Hr')
    as (mem & n1 & -> & Bm & Lm & Fm & Zi & Cn & Sn); [by rewrite B4|apply J4|apply J4|destruct J5; by split|by rewrite B4|].
  cbn [n_cache bfs_serial_no] in Cn, Sn. cbn [rbind]. pose proof Z_nonneg as HZ0. pose proof T_nonneg as HT0.
  pose proof (minv_frame N k e (e_mem e) mem (zd + 1) _ I J4 Lm Bm ltac:(unfold zd, mm_cmpestri_extra; lia) Fm) as MI.
  assert (Hzd : 1 + T <= zd) by (unfold zd, mm_cmpestri_extra; lia). pose proof (M_len _ _ _ MI) as ML.
  destruct (expand_ok N k q (with_mem e mem) (louds_of au (take k N))) as (M & e1 & -> & I1 & Mt & R1 & Q1 & L1 & B1' & F1 & P1);
    [by apply with_mem_einv|done|done|exact J3|done|apply MI|cbn [with_mem e_mem]; lia|].
  cbn [with_mem e_mem e_q2] in *. cbn [rbind]. rewrite Sn, J1.
  assert (Hk1 : (N ++ M) !! k = Some (Tree q)) by (by apply lookup_app_l_Some).
  destruct (fv_set_repr (e_term e1) _ (Z.of_nat k) (au_is_term au q) (I_term _ _ _ I1)) as (tm & -> & Rt);
    [unfold len; rewrite nbits_length; lia|]. cbn [rbind with_term e_louds]. rewrite Nat2Z.id in Rt.
  destruct (law_push_back (junk (Z.to_nat (rs_size (e_louds e1)))) (e_louds e1) _ false (Hjunk _) R1) as (lo & -> & Rl).
  { unfold len in *. rewrite length_app, length_replicate. pose proof (moves_fit q Hrq). lia. }
  cbn [rbind]. exists M. eexists _, _. split; [done|]. split; [apply with_louds_einv; by eapply einv_visited|].
  split; [|done]. destruct (take_app_visited N M k _ Hk) as [Et _].
  split; cbn [bfs_serial_no e_louds with_louds with_term e_mem n_cache]; [lia|by eapply spans_visited; [lia|..]| | | |rewrite Cn; apply Hc'].
  - rewrite Et, louds_of_app, app_assoc. cbn [mv]. unfold moves_len in Rl. by rewrite Nat2Z.id in Rl.
  - by eapply minv_expanded.
  - rewrite Et. destruct (first_child_le N k e k q I Hk) as [F3 F4]. destruct Zi as [Z1 Z2 Z3 Z4 Z5].
    apply (zinv_frame _ mem _ (Nodes (n_pzip n1) (n_zindex n1) (n_cache n1) (zpath_pos n1) (znode_idx n1) (bfs_serial_no n1 + 1)) (1 + T)); [by split|done|done|done| |lia].
    eapply frame_weak; [| |exact F1]; lia.
Qed.

Lemma visit_ok N k e n nd : einv N k e -> ninv N k e n -> N !! k = Some nd ->
  exists M e' n', visit junk au leaf zd (qentry nd) (e, n) = Ok (e', n') /\ einv (N ++ M) (S k) e' /\ ninv (N ++ M) (S k) e' n' /\
    e_q2 e' = e_q2 e ++ map qentry M.
Proof. intros I J Hk. destruct nd as [q|q|]; [by apply visit_tree_ok|by apply (visit_none_ok N k e n (Cross q))|by apply (visit_none_ok N k e n Leaf)]. Qed.

(** ** The loop over the levels *)

Lemma ninv_q2 N k e n q2 : ninv N k e n -> ninv N k (with_q2 e q2) n.
Proof. by intros [? ? ? ? ? ?]. Qed.

(** One level: the queue holds the nodes from [k] on. *)
Lemma level_ok N k e n : einv N k e -> ninv N k e n -> e_q2 e = [] -> (k <= length N)%nat ->
  let q1 := map qentry (drop k N) in
  exists M e' n', for_ 0 (Z.of_nat (length q1)) (fun i s => let* parent := rd q1 i in visit junk au leaf zd parent s) (e, n) = Ok (e', n') /\
    einv (N ++ M) (length N) e' /\ ninv (N ++ M) (length N) e' n' /\ e_q2 e' = map qentry M.
Proof.
  intros I J Hq Hk q1. assert (L1 : length q1 = (length N - k)%nat) by (unfold q1; by rewrite length_map, length_drop).
  destruct (for_inv (fun i '(e', n') => exists M, einv (N ++ M) (k + Z.to_nat i) e' /\ ninv (N ++ M) (k + Z.to_nat i) e' n' /\ e_q2 e' = map qentry M)
    (fun i s => let* parent := rd q1 i in visit junk au leaf zd parent s) 0 (Z.of_nat (length q1)) (e, n)) as ([e' n'] & E & M & I' & J' & Q').
  - lia.
  - exists []. rewrite app_nil_r, Nat.add_0_r. split; [done|]. split; done.
  - intros i [e1 n1] Hi (M & I1 & J1 & Q1). destruct (lookup_lt_is_Some_2 N (k + Z.to_nat i)) as [nd Hnd]; [lia|].
    rewrite (rd_ok q1 i (qentry nd)) by (lia || (unfold q1; by rewrite list_lookup_fmap, lookup_drop, Hnd)). cbn [rbind].
    destruct (visit_ok (N ++ M) (k + Z.to_nat i) e1 n1 nd) as (M2 & e2 & n2 & E2 & I2 & J2 & Q2); [done|done|by apply lookup_app_l_Some|].
    exists (e2, n2). split; [done|]. exists (M ++ M2). rewrite app_assoc.
    replace (k + Z.to_nat (i + 1))%nat with (S (k + Z.to_nat i)) by lia. split; [done|]. split; [done|]. by rewrite Q2, Q1, map_app.
  - exists M, e', n'. replace (k + Z.to_nat (Z.of_nat (length q1)))%nat with (length N) in * by lia. done.
Qed.

Lemma einv_length N k e n : einv N k e -> ninv N k e n -> (length N <= T1)%nat.
Proof.
  intros I J. pose proof (spans_length N k (I_head _ _ _ I) (J_spans _ _ _ _ J)) as LN. destruct (einv_prefix N k e k I) as [Hn Hr].
  pose proof (degs_bound _ Hn Hr). unfold T1. lia.
Qed.

Lemma levels_ok e n : einv [Tree initial_state] 0 e -> ninv [Tree initial_state] 0 e n -> e_q2 e = [] ->
  exists N e' n', levels junk au leaf zd (e, n) = Ok (e', n') /\ einv N (length N) e' /\ ninv N (length N) e' n'.
Proof.
  intros I J Hq. unfold levels. pose proof T_nonneg as HT0.
  destruct (loop_inv (fun '(q1, (e, n)) => exists N k, einv N k e /\ ninv N k e n /\ e_q2 e = [] /\ (k <= length N)%nat /\ q1 = map qentry (drop k N) /\
        bfs_serial_no n = Z.of_nat k)
    (fun '(_, (_, n)) => T + 1 - bfs_serial_no n)
    (fun '(e, n) => exists N, einv N (length N) e /\ ninv N (length N) e n)
    (fun '(q1, s) => match q1 with [] => Ok (inr s) | _ =>
        let* (e, n) := for_ 0 (Z.of_nat (length q1)) (fun i s => let* parent := rd q1 i in visit junk au leaf zd parent s) s in
        Ok (inl (e_q2 e, (with_q2 e [], n))) end)
    (S (S (Z.to_nat (au_total_transitions au)))) ([initial_state], (e, n))) as ([e' n'] & E & N & I' & J').
  - exists [Tree initial_state], O. split; [done|]. split; [done|]. split; [done|]. split; [cbn; lia|]. split; [done|]. apply J.
  - rewrite (J_serial _ _ _ _ J). unfold T in *. lia.
  - intros [q1 [e1 n1]] (N & k & I1 & J1 & Q1 & Hk & -> & Hs). pose proof (einv_length N k e1 n1 I1 J1) as HL. unfold T1 in HL.
    split; [lia|]. destruct (map qentry (drop k N)) as [|x rest] eqn:Eq.
    + right. exists (e1, n1). split; [done|]. exists N. apply (f_equal length) in Eq. rewrite length_map, length_drop in Eq. cbn in Eq.
      replace (length N) with k by lia. done.
    + left. destruct (level_ok N k e1 n1 I1 J1 Q1 Hk) as (M & e2 & n2 & E2 & I2 & J2 & Q2). rewrite Eq in E2. rewrite E2. cbn [rbind].
      eexists. split; [done|]. split.
      * exists (N ++ M), (length N). split; [by apply with_q2_einv|]. split; [by apply ninv_q2|]. split; [done|]. rewrite length_app. split; [lia|].
        rewrite skipn_app, skipn_all, Nat.sub_diag. split; [by rewrite Q2|]. apply J2.
      * rewrite (J_serial _ _ _ _ J2), Hs. apply (f_equal length) in Eq. rewrite length_map, length_drop in Eq. cbn in Eq. lia.
  - exists N, e', n'. done.
Qed.

(** ** The whole tree *)

Lemma tree_of_node N k e nd : einv N k e -> nd ∈ N -> Tree (tgt leaf nd) ∈ N.
Proof.
  intros I Hin. destruct nd as [q|q|]; [done|by apply (I_cross_tree _ _ _ I)|by apply (I_leaf _ _ _ I)].
Qed.

Lemma spans_tgt N k j nd : spans N k -> N !! S j = Some nd -> exists ch,
  concat (map (mv au) (take k N)) !! j = Some (ch, tgt leaf nd).
Proof.
  intros Hs Hj. assert (E : map (tgt leaf) (tail N) !! j = Some (tgt leaf nd)) by (rewrite list_lookup_fmap; destruct N as [|x N']; [done|]; change (N' !! j = Some nd) in Hj; cbn [tail]; by rewrite Hj).
  rewrite Hs, list_lookup_fmap in E. destruct (concat _ !! j) as [[ch t]|]; [|done]. injection E as ->. by exists ch.
Qed.

Lemma all_reached N e : einv N (length N) e -> spans N (length N) -> forall s, reach au s -> Tree s ∈ N.
Proof.
  intros I Hs s Hr. induction Hr as [|s ch t Hr IH Hin].
  - eapply list_elem_of_lookup_2, (I_head _ _ _ I).
  - assert (Ht : t ∈ map snd (concat (map (mv au) (take (length N) N)))).
    { rewrite firstn_all. apply list_elem_of_In, in_map_iff. exists (ch, t). split; [done|]. apply in_concat. exists (au_moves au s).
      split; [|done]. apply in_map_iff. exists (Tree s). split; [done|]. by apply list_elem_of_In. }
    rewrite <- Hs in Ht. apply list_elem_of_In, in_map_iff in Ht as (nd & <- & Hnd). apply (tree_of_node N (length N) e); [done|].
    apply list_elem_of_In. destruct N; [done|]. by right.
Qed.

Lemma trees_used N e : einv N (length N) e -> spans N (length N) -> omap tree_of N ≡ₚ used.
Proof.
  intros I Hs. apply list.NoDup_Permutation; [apply (I_nodup _ _ _ I)|apply (ok_used _ _ Hau)|]. intros s. rewrite elem_tree_omap.
  rewrite (proj2 (ok_used _ _ Hau) s). split; [apply (I_reach _ _ _ I)|by eapply all_reached].
Qed.

Lemma tree_length N e : einv N (length N) e -> spans N (length N) -> length N = T1.
Proof.
  intros I Hs. rewrite (spans_length N _ (I_head _ _ _ I) Hs), firstn_all. unfold T1, T. pose proof (degs_sum au N) as E.
  rewrite (sum_over_perm _ _ _ (trees_used N e I Hs)), <- (ok_transitions _ _ Hau) in E. pose proof T_nonneg. unfold T in *. lia.
Qed.

Lemma used_counts : Z.of_nat (length used) = au_num_used_states au /\ sum_over zlen used = Z_ /\ sum_over zone used = au_num_zpath_states au.
Proof. unfold Z_. rewrite (ok_num_used _ _ Hau), (ok_zpath_len _ _ Hau), (ok_num_zpath _ _ Hau). done. Qed.
End build. End LoudsInv.
