(* ===== verification/LoudsBuild.v ===== *)
(** * [build_from] of [GenLoudsDFA] as a whole

    The first leaf, the state before the loops, the assertions after them, and
    [image N d]: what the finished automaton [d] holds for the list of nodes [N]. *)
From Stdlib Require Import Sorted.
From S2P Require Import Prelude Bits Febitvec Bytes IntVec RankSpec RankVec Louds LoudsInv.
Import Febitvec Bytes RankSpec RankVec Louds LoudsInv.

Module LoudsBuild.

(** ** The first leaf *)

Lemma find_first_leaf_ok au used : au_ok au used ->
  exists l, find_first_leaf au initial_state = Ok l /\ reach au l /\ au_moves au l = [].
Proof.
  intros Hau. destruct (ok_dag _ _ Hau) as (_ & depth & Hd). unfold find_first_leaf.
  destruct (loop_inv (fun stack => exists s, stack = [s] /\ reach au s)
    (fun stack => match stack with s :: _ => depth s | [] => 0 end) (fun l => reach au l /\ au_moves au l = [])
    (fun stack => match stack with
      | [] => Ok (inr nil_state)
      | parent :: stack => match au_moves au parent with (_, c) :: _ => Ok (inl (c :: stack)) | [] => Ok (inr parent) end end)
    (S (S (Z.to_nat (au_total_states au)))) [initial_state]) as (l & E & H).
  - exists initial_state. split; [done|constructor].
  - destruct (Hd initial_state ltac:(constructor)). lia.
  - intros stack (s & -> & Hs). destruct (Hd s Hs) as [Hr Hm]. split; [lia|].
    destruct (au_moves au s) as [|[ch c] ms] eqn:E; [right; eauto|]. left. eexists. split; [done|].
    split; [exists c; split; [done|]; apply (reach_move au s ch c Hs); rewrite E; by left|]. apply (Hm ch). by left.
  - by exists l.
Qed.

(** [the_leaf_final_state] is an accepting state without moves and without zpath. *)
Lemma the_leaf_ok au used : au_ok au used ->
  exists l, the_leaf au = Ok l /\ (reach au l -> au_moves au l = [] /\ au_is_pzip au l = false /\ au_is_term au l = true).
Proof.
  intros Hau. destruct (find_first_leaf_ok au used Hau) as (l & E & Hr & Hm). unfold the_leaf. rewrite E. cbn [rbind].
  eexists. split; [done|]. rewrite (proj2 (Z.eqb_neq l nil_state)) by (by apply (nil_out au used Hau)). cbn [negb andb].
  destruct (au_is_pzip au l) eqn:Ez; [intros Hn; by destruct (nil_out au used Hau nil_state)|].
  intros _. split; [done|]. split; [done|]. by apply (ok_leaf _ _ Hau).
Qed.

(** ** The finished automaton *)

Section build.
Context {RS : Type} `{RV : RankVecLaws RS} (au : Au) (used : list Z) (Hau : au_ok au used).
Context (leaf : Z) (Hleaf : the_leaf au = Ok leaf).
Context (junk : nat -> nat -> Z) (Hjunk : forall k j, word64 (junk k j)).
Context (junkb junkc : nat -> Z) (Hjunkb : forall i, 0 <= junkb i < 256).
Let T : Z := au_total_transitions au.
Let Z_ : Z := au_total_zpath_len au.
Context (HT : 2 * T + 2 < 2 ^ 32) (HZ : Z_ < 2 ^ 32 - 1).
Context (cache_num : Z) (Hcache : 0 <= cache_num <= T).

(** The stored targets of the cross edges, and the cache. *)
Definition stores (z : IntVec.ZipIntVector) (l : list Z) : Prop :=
  IntVec.zip_size z = Z.of_nat (length l) /\ forall i x, l !! i = Some x -> IntVec.zip_get z (Z.of_nat i) = Ok x.
(** A built vector: its minimum, its elements without it, its shape. *)
Definition least (z : IntVec.ZipIntVector) (l : list Z) : Prop :=
  (l <> [] -> In (IntVec.m_min_val z) l) /\ (forall x, In x l -> IntVec.m_min_val z <= x) /\
  (forall i x, l !! i = Some x -> IntVec.get (IntVec.z_vec z) (Z.of_nat i) = Ok (x - IntVec.m_min_val z)) /\
  let v := IntVec.z_vec z in
  0 <= IntVec.m_bits v <= 58 /\ IntVec.m_mask v = IntVec.mask_of (IntVec.m_bits v) /\
  (l <> [] -> IntVec.mem_size v = IntVec.compute_mem_size (IntVec.m_bits v) (IntVec.m_size v)) /\ (l = [] -> z = IntVec.Zip IntVec.nullize 0).

Lemma stores_build j l : (forall i, word64 (j i)) -> Forall (fun x => 0 <= x < 2 ^ 58) l -> exists z, IntVec.zip_build_from j l = Ok z /\ stores z l /\ least z l.
Proof.
  intros Hj Hl. assert (Hw : Forall word64 l) by (eapply List.Forall_impl; [|exact Hl]; intros x Hx; cbn in *; unfold word64; lia).
  assert (Hd : forall x y, In x l -> In y l -> y - x < 2 ^ 58) by (rewrite List.Forall_forall in Hl; intros x y Hx Hy; apply Hl in Hx, Hy; cbn in *; lia).
  destruct (IntVec.zip_build_ok j l Hj Hw Hd) as (z & E & S & G & _). exists z. split; [done|]. split; [done|]. by apply (IntVec.zip_build_stored j).
Qed.

(** What the members of [d] hold when the nodes are [N].  Bytes behind the label
    data, and bits behind [m_is_term], are allowed; the zpath index is there when
    there are zpaths. *)
Record image (N : list node) (d : GenLoudsDFA (RS := RS)) : Prop := {
  im_length : length N = T1 au;
  im_head : N !! O = Some (Tree initial_state);
  im_nodup : NoDup (omap tree_of N);
  im_reach : forall q, Tree q ∈ N <-> reach au q;
  im_leaf : Leaf ∈ N -> reach au leaf;
  im_spans : map (tgt leaf) (tail N) = map snd (concat (map (mv au) N));
  im_louds : serves (m_louds d) (louds_of au N);
  im_cross : serves (m_is_cross_edge d) (nbits (fun _ => is_cross) N (T1 au));
  im_pzip : serves (m_is_pzip d) (pz_bits au N);
  im_term : exists l, repr (m_is_term d) l /\ Z.of_nat (T1 au) <= len l /\
    forall i, 0 <= i < Z.of_nat (T1 au) -> lbit l i = lbit (nbits (term_bit au (length N)) N (T1 au)) i;
  im_dst : exists ds, Forall2 (fun q t => exists i, N !! i = Some (Tree q) /\ t = Z.of_nat i) (omap cross_of N) ds /\
    stores (m_cross_edge_dst d) ds /\ least (m_cross_edge_dst d) ds;
  im_cache : exists c, stores (m_cache d) c /\ least (m_cache d) c /\ Z.of_nat (length c) = cache_num /\
    forall i, Z.of_nat i < cache_num -> c !! i = Some (Z.of_nat (length (louds_of au (take i N))));
  im_bytes : bytes (m_label_data d);
  im_room : zd au + Z_ + 1 <= Z.of_nat (length (m_label_data d));
  im_labels : forall i q, N !! i = Some (Tree q) -> label_ok (m_label_data d) (first_child au N i) (au_moves au q);
  im_zdata : m_zpath_data d = zd au;
  im_zlen : m_total_zpath_len d = Z_;
  im_zbytes : forall i, 0 <= i < Z.of_nat (length (concat (zs_of au N))) ->
    byte_at (m_label_data d) (zd au + 1 + i) = byte_at (concat (zs_of au N)) i;
  im_zindex : au_num_zpath_states au <> 0 -> serves (m_zpath_index d) (zbits au (zs_of au N));
}.

(** The sizes [build_from] gives. *)
Record fresh (d : GenLoudsDFA (RS := RS)) : Prop := {
  fr_total : total_states d = T + 1;
  fr_label : Z.of_nat (length (m_label_data d)) = zd au + Z_ + 1;
  fr_zpaths : m_zpath_states d = au_num_zpath_states au;
  fr_zindex : exists l, serves (m_zpath_index d) l;
}.

(** The state before the loop over the levels. *)
Lemma init_ok cr lo lo2 pz tm zi co co2 map_ mem mem2 :
  raw cr (replicate (Z.to_nat (T + 1)) false) -> raw lo [] -> rv_push_back (junk 6%nat) lo false = Ok lo2 -> raw lo2 [false] ->
  raw pz (replicate (Z.to_nat (if au_num_zpath_states au =? 0 then 0 else T + 1)) false) ->
  repr tm (replicate (Z.to_nat (T + 1)) false) -> raw zi (replicate (Z.to_nat (zsize au)) false) ->
  repr co (replicate (Z.to_nat (au_total_states au)) false) -> repr co2 (<[O := true]> (replicate (Z.to_nat (au_total_states au)) false)) ->
  map_ = <[O := 0]> (replicate (Z.to_nat (au_total_states au)) (2 ^ 32 - 1)) ->
  bytes mem -> Z.of_nat (length mem) = zd au + Z_ + 1 -> wr8b mem 0 0 = Ok mem2 ->
  let e := Edges lo2 tm cr co2 [] map_ mem2 [] 0 0 in
  let n := Nodes pz zi (map (fun i => junkc (Z.to_nat i)) (seqZ 0 cache_num)) 1 0 0 in
  einv au leaf [Tree initial_state] 0 e /\ ninv au leaf cache_num [Tree initial_state] 0 e n.
Proof.
  intros Rcr Rlo _ Rlo2 Rpz Rtm Rzi Rco Rco2 -> Bm Lm Em e n. pose proof (T_nonneg au used Hau) as HT0. fold T in HT0.
  pose proof (ok_states _ _ Hau) as HS. pose proof (Z_nonneg au used Hau) as [HZ0 HZ1]. fold Z_ in HZ0.
  assert (E1 : forall f, f O (Tree initial_state) = false -> nbits f [Tree initial_state] (T1 au) = replicate (Z.to_nat (T + 1)) false).
  { intros f Hf. apply list_eq. intros i. destruct (decide (i < T1 au)%nat) as [Hi|Hi].
    - rewrite nbits_lookup by done. rewrite lookup_replicate_2 by (unfold T1, T in *; lia). by destruct i as [|i]; cbn; [rewrite Hf|].
    - by rewrite !lookup_ge_None_2 by (rewrite ?nbits_length, ?length_replicate; unfold T1, T in *; lia). }
  destruct (wr8b_ok mem 0 0 Bm) as (m' & Em' & Lm' & Bm' & Fm'); [unfold zd, mm_cmpestri_extra in *; lia|]. rewrite Em in Em'. injection Em' as <-.
  split.
  - split; try done; subst e; cbn [trans_idx e_color e_map e_cross e_dst final_leaf_num e_term].
    + cbn. lia.
    + apply NoDup_singleton.
    + intros q Hq%list_elem_of_singleton. injection Hq as ->. constructor.
    + intros q Hq%list_elem_of_singleton. done.
    + intros Hq%list_elem_of_singleton. done.
    + eexists. split; [exact Rco2|]. split; [rewrite len_insert, len_replicate; lia|]. intros q Hq. rewrite (lbit_insert _ 0) by (rewrite ?len_replicate; lia).
      rewrite list_elem_of_singleton. destruct (Z.eqb_spec q 0) as [->|Hne]; [done|]. rewrite lbit_replicate by done.
      split; [done|]. intros [= ->]. done.
    + split; [rewrite length_insert, length_replicate; lia|]. intros [|i] q Hi; [|done]. injection Hi as <-.
      change (Z.to_nat initial_state) with O. apply list_lookup_insert_eq. rewrite length_replicate. lia.
    + by rewrite E1.
    + by rewrite E1.
  - split; try done; subst e n; cbn [n_cache n_zindex n_pzip e_mem e_louds].
    + split; [done|lia|]. intros i q Hi. lia.
    + split; cbn; try done; [intros i Hi; lia| |].
      * unfold zbits. eapply eq_ind; [exact Rzi|]. unfold zprefix. cbn. destruct (Z.to_nat (zsize au)) eqn:Ez; [|cbn; by rewrite resize_nil].
        exfalso. pose proof (zs_room au used Hau [] ltac:(constructor) ltac:(intros q Hq; by apply not_elem_of_nil in Hq)) as (_ & _ & R). cbn in R. lia.
      * unfold pz_bits. destruct (_ =? 0); [done|]. eapply eq_ind; [exact Rpz|].
        apply list_eq. intros i. destruct (decide (i < T1 au)%nat) as [Hi|Hi].
        -- rewrite nbits_lookup by done. by rewrite lookup_replicate_2 by (unfold T1, T in *; lia).
        -- by rewrite !lookup_ge_None_2 by (rewrite ?nbits_length, ?length_replicate; unfold T1, T in *; lia).
    + split; [rewrite length_map, length_seqZ; lia|]. intros i Hi. lia.
Qed.

(** The counters after the loops agree with the totals of the source. *)
Lemma totals_ok N e n : einv au leaf N (length N) e -> ninv au leaf cache_num N (length N) e n ->
  trans_idx e = T /\ Z.of_nat (length (e_dst e)) + final_leaf_num e = T - au_num_used_states au + 1 /\
  zpath_pos n = Z_ + 1 /\ bfs_serial_no n - 1 = T /\ znode_idx n = au_num_zpath_states au /\ len (louds_of au N) = 2 * bfs_serial_no n.
Proof.
  intros I J. pose proof (J_spans _ _ _ _ _ _ _ J) as Hs. pose proof (tree_length au used Hau leaf N e I Hs) as HL.
  pose proof (trees_used au used Hau leaf N e I Hs) as HP. pose proof (T_nonneg au used Hau) as HT0. fold T in HT0.
  destruct (used_counts au used Hau) as (U1 & U2 & U3). destruct (zs_counts au N) as [C1 C2].
  rewrite (sum_over_perm _ _ _ HP), U2 in C1. rewrite (sum_over_perm _ _ _ HP), U3 in C2.
  pose proof (J_zpath _ _ _ _ _ _ _ J) as Jz. rewrite firstn_all in Jz. pose proof (Z_pos _ _ _ _ Jz) as P1. pose proof (Z_node _ _ _ _ Jz) as P2.
  pose proof (I_trans _ _ _ _ _ I) as It. pose proof (J_serial _ _ _ _ _ _ _ J) as Js. pose proof (I_leafs _ _ _ _ _ I) as Il.
  pose proof (Forall2_length (I_dst _ _ _ _ _ I)) as Id. pose proof (count_nodes N) as Cn. rewrite HP in Cn.
  pose proof (louds_length au N) as LL. pose proof (spans_length au leaf N _ (I_head _ _ _ _ _ I) Hs) as Ls. rewrite firstn_all in Ls.
  unfold len, T1, T, Z_ in *. lia.
Qed.

Lemma stores_dst N e : einv au leaf N (length N) e -> Z.of_nat (length N) <= T + 1 -> Forall (fun x => 0 <= x < 2 ^ 58) (e_dst e).
Proof.
  intros I HN. apply List.Forall_forall. intros x Hx%list_elem_of_In. apply list_elem_of_lookup in Hx as [j Hj].
  destruct (Forall2_lookup_r _ _ _ _ _ (I_dst _ _ _ _ _ I) Hj) as (q & _ & i & Hi & ->). apply lookup_lt_Some in Hi. lia.
Qed.

Lemma cache_range N c : length N = T1 au -> cinv au cache_num N (length N) c -> (forall i, (i <= length N)%nat -> (degs au (take i N) <= Z.to_nat T)%nat) ->
  Forall (fun x => 0 <= x < 2 ^ 58) c.
Proof.
  intros HN [L C] Hd. pose proof (T_nonneg au used Hau) as HT0. fold T in HT0. apply List.Forall_forall. intros x Hx%list_elem_of_In. apply list_elem_of_lookup in Hx as [i Hi].
  pose proof (lookup_lt_Some _ _ _ Hi). unfold T1 in HN. fold T in HN. rewrite C in Hi by lia. assert (Z.of_nat (length (louds_of au (take i N))) = x) as <- by congruence.
  rewrite louds_length. specialize (Hd i ltac:(lia)). rewrite length_take. lia.
Qed.

(** The part of [build_from] after the loops. *)
Definition finish (e : edges) (n : nodes) (cross_edge_upp : Z) : res (GenLoudsDFA (RS := RS)) :=
  let* cross_edge_dst := IntVec.zip_build_from (junk O) (e_dst e) in
  let* mem := memset0 (e_mem e) (trans_idx e + 1) mm_cmpestri_extra in
  let* cache := IntVec.zip_build_from (junk O) (n_cache n) in
  let* mem := wr8b mem (zd au) 0 in
  let* zindex := rv_build_cache (junk O) (junk 1%nat) true false (n_zindex n) in
  let* _ := assert_ (T =? trans_idx e) in
  let* _ := assert_ (IntVec.zip_size cross_edge_dst + final_leaf_num e =? cross_edge_upp) in
  let* _ := assert_ (cross_edge_upp + au_num_used_states au - 1 =? T) in
  let* _ := assert_ (au_total_zpath_len au + 1 =? zpath_pos n) in
  let* _ := assert_ (T =? bfs_serial_no n - 1) in
  let* _ := assert_ (au_num_zpath_states au =? znode_idx n) in
  let* _ := assert_ (2 * bfs_serial_no n =? rs_size (e_louds e)) in
  let* is_cross_edge := rv_build_cache (junk O) (junk 1%nat) false false (e_cross e) in
  let* l_is_pzip := rv_build_cache (junk O) (junk 1%nat) false false (n_pzip n) in
  let* louds := rv_build_cache (junk O) (junk 1%nat) true false (e_louds e) in
  Ok (Dfa louds l_is_pzip (e_term e) cross_edge_dst is_cross_edge mem (zd au) zindex cache
        (au_num_zpath_states au) (au_total_zpath_len au)).

(** The two last writes touch neither labels nor zpaths. *)
Lemma finish_mem N e n : einv au leaf N (length N) e -> ninv au leaf cache_num N (length N) e n -> trans_idx e = T ->
  exists m1 m2, memset0 (e_mem e) (trans_idx e + 1) mm_cmpestri_extra = Ok m1 /\ wr8b m1 (zd au) 0 = Ok m2 /\
    minv au N (length N) m2 /\ zinv au N m2 n.
Proof.
  intros I J Ht. pose proof (J_mem _ _ _ _ _ _ _ J) as M. pose proof (M_bytes _ _ _ _ M) as B. pose proof (M_len _ _ _ _ M) as L.
  pose proof (T_nonneg au used Hau) as HT0. pose proof (Z_nonneg au used Hau) as [HZ0 _]. unfold zd, mm_cmpestri_extra, T, Z_ in *.
  destruct (memset0_ok (e_mem e) (trans_idx e + 1) 15 B) as (m1 & E1 & L1 & B1 & F1); [lia..|].
  destruct (wr8b_ok m1 (1 + au_total_transitions au + 15) 0 B1) as (m2 & E2 & L2 & B2 & F2); [lia|]. exists m1, m2. split; [done|]. split; [done|].
  assert (F : frame (e_mem e) m2 (1 + T) (1 + T + 16)).
  { intros i Hi Hd. unfold T in Hd. rewrite F2 by lia. destruct (Z.eqb_spec i (1 + au_total_transitions au + 15)); [lia|]. rewrite F1 by lia.
    destruct (Z.leb_spec (trans_idx e + 1) i), (Z.ltb_spec i (trans_idx e + 1 + 15)); (lia || done). }
  split; [eapply (minv_frame au used Hau leaf N _ e); [exact I|exact M|lia|done| |exact F]; unfold T; lia|].
  pose proof (J_zpath _ _ _ _ _ _ _ J) as Jz. rewrite firstn_all in Jz.
  destruct (einv_prefix au leaf N (length N) e (length N) I) as [Hn Hr]. rewrite firstn_all in Hn, Hr.
  eapply (zinv_frame au used Hau N (e_mem e) m2 n (1 + T + 16)); [exact Jz|done|done|unfold zd, mm_cmpestri_extra; lia| |unfold zd, mm_cmpestri_extra, T; lia].
  eapply frame_weak; [| |exact F]; unfold T; lia.
Qed.

Lemma louds_finish_ok N e n : einv au leaf N (length N) e -> ninv au leaf cache_num N (length N) e n ->
  exists d, finish e n (T - au_num_used_states au + 1) = Ok d /\ image N d /\ fresh d.
Proof.
  intros I J. destruct (totals_ok N e n I J) as (A1 & A2 & A3 & A4 & A5 & A6).
  pose proof (J_spans _ _ _ _ _ _ _ J) as Hs. pose proof (tree_length au used Hau leaf N e I Hs) as HL.
  pose proof (T_nonneg au used Hau) as HT0. pose proof (Z_nonneg au used Hau) as [HZ0 HZ1]. fold T in HT0. fold Z_ in HZ0.
  assert (HN : Z.of_nat (length N) = T + 1) by (rewrite HL; unfold T1, T in *; lia).
  unfold finish. destruct (stores_build (junk O) (e_dst e) (Hjunk O)) as (zdst & -> & Sd & Ld); [apply (stores_dst N); (done || lia)|]. cbn [rbind].
  destruct (finish_mem N e n I J A1) as (m1 & m2 & -> & Em2 & M2 & Z2). cbn [rbind].
  pose proof (J_cache _ _ _ _ _ _ _ J) as Jc.
  destruct (stores_build (junk O) (n_cache n) (Hjunk O)) as (zc & -> & Sc & Lc).
  { apply (cache_range N); [done|done|]. intros i Hi. destruct (einv_prefix au leaf N (length N) e i I) as [Hn Hr].
    pose proof (degs_bound au used Hau _ Hn Hr). fold T in H0. lia. }
  cbn [rbind]. rewrite Em2. cbn [rbind]. pose proof (J_louds _ _ _ _ _ _ _ J) as Jl. rewrite firstn_all in Jl.
  destruct Z2 as [Z1 Z2' Z3 Z4 Z5].
  destruct (law_build_cache (junk O) (junk 1%nat) true false _ _ (Hjunk _) (Hjunk _) Z4) as (zi & -> & Szi).
  { rewrite zbits_len; unfold zsize; fold Z_; [lia|]. pose proof (zs_room au used Hau [] ltac:(constructor) ltac:(intros q Hq; by apply not_elem_of_nil in Hq)) as (_ & _ & R).
    unfold zsize in R. cbn in R. lia. }
  cbn [rbind]. rewrite A1, Z.eqb_refl, (proj1 Sd), (proj2 (Z.eqb_eq _ _) A2). cbn [assert_ rbind].
  rewrite (law_size _ _ Jl), A6, A3, A5, A4. fold T. rewrite !Z.eqb_refl, (proj2 (Z.eqb_eq (T - au_num_used_states au + 1 + au_num_used_states au - 1) T)) by lia.
  cbn [assert_ rbind].
  destruct (law_build_cache (junk O) (junk 1%nat) false false _ _ (Hjunk _) (Hjunk _) (I_cross _ _ _ _ _ I)) as (cr & -> & Scr);
    [unfold len; rewrite nbits_length; lia|]. cbn [rbind].
  destruct (law_build_cache (junk O) (junk 1%nat) false false _ _ (Hjunk _) (Hjunk _) Z5) as (pz & -> & Spz).
  { unfold pz_bits, len. destruct (_ =? 0); [cbn; lia|]. rewrite nbits_length. lia. }
  cbn [rbind]. destruct (law_build_cache (junk O) (junk 1%nat) true false _ _ (Hjunk _) (Hjunk _) Jl) as (lo & -> & Slo); [lia|].
  cbn [rbind]. eexists. split; [done|].
  assert (F : repr (e_term e) (nbits (term_bit au (length N)) N (T1 au))) by apply (I_term _ _ _ _ _ I). destruct M2 as [Mb Ml Mx]. split.
  2: { split; cbn [m_zpath_states m_label_data m_zpath_index]; [|done|done|by eexists]. unfold total_states. cbn [m_is_term]. rewrite (repr_size _ _ F). unfold len. rewrite nbits_length. lia. }
  split; cbn [m_louds m_is_cross_edge m_is_pzip m_is_term m_cross_edge_dst m_cache m_label_data m_zpath_data m_total_zpath_len m_zpath_index]; try done.
  - apply (I_head _ _ _ _ _ I).
  - apply (I_nodup _ _ _ _ _ I).
  - intros q. split; [apply (I_reach _ _ _ _ _ I)|by eapply all_reached].
  - intros Hin. apply (I_reach _ _ _ _ _ I). by apply (I_leaf _ _ _ _ _ I).
  - unfold spans in Hs. by rewrite firstn_all in Hs.
  - eexists. split; [exact F|]. split; [unfold len; by rewrite nbits_length|done].
  - exists (e_dst e). split; [apply (I_dst _ _ _ _ _ I)|by split].
  - exists (n_cache n). split; [done|]. split; [done|]. destruct Jc as [L C]. split; [done|]. intros i Hi. apply C; [lia|done].
  - unfold zd, T, Z_ in *. lia.
  - intros i q Hi. apply Mx; [by eapply lookup_lt_Some|done].
Qed.

Lemma new_bytes : bytes (map (fun i => junkb (Z.to_nat i)) (seqZ 0 (zd au + Z_ + 1))) /\
  Z.of_nat (length (map (fun i => junkb (Z.to_nat i)) (seqZ 0 (zd au + Z_ + 1)))) = zd au + Z_ + 1.
Proof.
  pose proof (T_nonneg au used Hau). pose proof (Z_nonneg au used Hau) as [? _]. split.
  - apply List.Forall_forall. intros x (i & <- & _)%in_map_iff. apply Hjunkb.
  - rewrite length_map, length_seqZ. unfold zd, mm_cmpestri_extra, Z_. lia.
Qed.

Lemma louds_build_ok : exists N d, build_from junk junkb junkc au cache_num = Ok d /\ image N d /\ fresh d.
Proof.
  pose proof (T_nonneg au used Hau) as HT0. pose proof (Z_nonneg au used Hau) as [HZ0 HZ1]. fold T in HT0. fold Z_ in HZ0.
  pose proof (ok_states _ _ Hau) as HS. pose proof (ok_sigma _ _ Hau) as Hsg.
  unfold build_from. rewrite (proj1 (ok_dag _ _ Hau)). cbn [negb]. rewrite (proj2 (Z.ltb_ge 256 (au_sigma au))) by lia.
  fold T. fold Z_. change (1 + T + mm_cmpestri_extra) with (zd au).
  destruct (law_make (junk O) (T + 1) false (Hjunk _)) as (cr & -> & Rcr); [lia|]. cbn [rbind].
  destruct (law_reserve (junk 1%nat) (T * 2 + 2) (Hjunk _)) as (lo & -> & Rlo); [lia|]. cbn [rbind].
  destruct (law_make (junk 2%nat) (if au_num_zpath_states au =? 0 then 0 else T + 1) false (Hjunk _)) as (pz & -> & Rpz); [destruct (_ =? 0); lia|]. cbn [rbind].
  destruct (fv_make_repr (junk 3%nat) (T + 1) false (Hjunk _)) as (tm & -> & Rtm); [lia|]. cbn [rbind].
  rewrite Hleaf. cbn [rbind]. change (Z_ - au_num_zpath_states au + 1) with (zsize au).
  pose proof (zs_room au used Hau [] ltac:(constructor) ltac:(intros q Hq; by apply not_elem_of_nil in Hq)) as (_ & _ & R).
  destruct (law_resize (junk 4%nat) (zsize au) (Hjunk _)) as (zi & -> & Rzi); [unfold zsize, Z_ in *; cbn in R; lia|]. cbn [rbind].
  destruct (fv_make_repr (junk 5%nat) (au_total_states au) false (Hjunk _)) as (co & -> & Rco); [lia|]. cbn [rbind].
  destruct (fv_set1_repr co _ initial_state Rco) as (co2 & -> & Rco2); [rewrite len_replicate; unfold initial_state; lia|]. cbn [rbind].
  rewrite wr_ok by (rewrite length_replicate; lia). cbn [rbind].
  destruct (law_push_back (junk 6%nat) lo [] false (Hjunk _) Rlo) as (lo2 & Elo & Rlo2); [unfold len; cbn; lia|]. rewrite Elo. cbn [rbind].
  destruct new_bytes as [Bm Lm]. destruct (wr8b_ok _ 0 0 Bm) as (m2 & Em & _); [unfold zd, mm_cmpestri_extra, T, Z_ in *; lia|]. rewrite Em. cbn [rbind].
  destruct (init_ok cr lo lo2 pz tm zi co co2 _ _ m2 Rcr Rlo Elo Rlo2 Rpz Rtm Rzi Rco Rco2 eq_refl Bm Lm Em) as [I J].
  destruct (levels_ok au used Hau leaf (fun k => junk (7 + k)%nat) (fun k => Hjunk _) HT cache_num _ _ I J eq_refl) as (N & e & n & El & I' & J').
  change (Z.to_nat 0) with O. rewrite El. cbn [rbind]. destruct (louds_finish_ok N e n I' J') as (d & Ed & Im). exists N, d. split; [exact Ed|done].
Qed.
End build.

End LoudsBuild.
