(* ===== verification/LoudsQuery.v ===== *)
(** * The queries of [GenLoudsDFA] on a built automaton

    [stands i q]: the tree node [i] is the state [q] of the source.  Every query
    about a node gives what the source gives for its state, and moves lead to
    nodes that stand for the targets. *)
From Stdlib Require Import Sorted.
From S2P Require Import Prelude Bits Febitvec Bytes IntVec RankSpec RankVec Louds LoudsInv LoudsBuild.
Import Febitvec Bytes RankSpec RankVec Louds LoudsInv LoudsBuild.

Module LoudsQuery.

(** ** Ranks of lists of bits *)

Lemma rank_app_l a b p : 0 <= p <= len a -> rank (lbit (a ++ b)) p = rank (lbit a) p.
Proof. intros Hp. apply rank_ext. intros i Hi. rewrite lbit_app by lia. by rewrite (proj2 (Z.ltb_lt _ _)) by lia. Qed.

Lemma rank_app_r a b p : 0 <= p -> rank (lbit (a ++ b)) (len a + p) = rank (lbit a) (len a) + rank (lbit b) p.
Proof.
  intros Hp. assert (0 <= len a) by (unfold len; lia). rewrite rank_add by lia. rewrite rank_app_l by lia. f_equal.
  apply cnt_ext. intros i Hi. rewrite lbit_app by lia. rewrite (proj2 (Z.ltb_ge _ _)) by lia. f_equal. lia.
Qed.

Lemma rank_ones n : rank (lbit (replicate n true ++ [false])) (Z.of_nat n + 1) = Z.of_nat n.
Proof.
  assert (Ln : len (replicate n true) = Z.of_nat n) by (unfold len; by rewrite length_replicate).
  rewrite rank_succ by lia. rewrite rank_app_l by lia. rewrite lbit_app by lia. rewrite Ln, Z.ltb_irrefl, Z.sub_diag.
  change (lbit [false] 0) with false. cbn [Z.b2z].
  unfold rank. rewrite cnt_true; [lia|]. intros i Hi. rewrite <- (Nat2Z.id n). apply lbit_replicate. lia.
Qed.

(** *** Numbers in unary behind a leading zero: the louds bits and the zpath index *)

Definition unary (ds : list nat) : list bool := false :: concat (map (fun n => replicate n true ++ [false]) ds).
Definition total (ds : list nat) : nat := sum_list ds.

Lemma unary_split l k : unary (l ++ k) = unary l ++ concat (map (fun n => replicate n true ++ [false]) k).
Proof. unfold unary. by rewrite map_app, concat_app. Qed.

Lemma unary_snoc l n : unary (l ++ [n]) = (unary l ++ replicate n true) ++ [false].
Proof. rewrite unary_split. cbn [map concat]. by rewrite app_nil_r, app_assoc. Qed.

Lemma unary_last l : exists x, unary l = x ++ [false].
Proof. induction l as [|n l _] using rev_ind; [by exists []|]. rewrite unary_snoc. eauto. Qed.

Lemma unary_length l : length (unary l) = (1 + total l + length l)%nat.
Proof.
  induction l as [|n l IH] using rev_ind; [done|]. unfold total in *. rewrite unary_snoc, !length_app, length_replicate, IH, sum_list_with_app. cbn. lia.
Qed.

Lemma unary_rank l : rank (lbit (unary l)) (len (unary l)) = Z.of_nat (total l).
Proof.
  induction l as [|n l IH] using rev_ind; [done|]. rewrite unary_split. cbn [map concat]. rewrite app_nil_r, len_app, rank_app_r by (unfold len; lia).
  rewrite IH. replace (len (replicate n true ++ [false])) with (Z.of_nat n + 1) by (unfold len; rewrite length_app, length_replicate; cbn; lia).
  rewrite rank_ones. unfold total. rewrite sum_list_with_app. cbn. lia.
Qed.

(** The zero in front of number [i] and the run behind it. *)
Lemma unary_at ds i n : ds !! i = Some n ->
  let L := unary ds in let p := Z.of_nat (total (take i ds)) + Z.of_nat i in
  p + 1 + Z.of_nat n < len L /\
  is_select (fun j => negb (lbit L j)) (Z.of_nat i) p /\
  (forall j, p + 1 <= j < p + 1 + Z.of_nat n -> lbit L j = true) /\
  lbit L (p + 1 + Z.of_nat n) = false.
Proof.
  intros Hi L p. pose proof (lookup_lt_Some _ _ _ Hi) as Hlt. set (A := unary (take i ds)).
  assert (LA : len A = p + 1) by (unfold A, len; rewrite unary_length, length_take_le by lia; lia).
  assert (EL : L = A ++ (replicate n true ++ [false]) ++ concat (map (fun n => replicate n true ++ [false]) (drop (S i) ds))).
  { unfold L. rewrite <- (take_drop_middle ds i n Hi) at 1. by rewrite unary_split. }
  rewrite EL. rewrite !len_app. assert (Ld : len (replicate n true) = Z.of_nat n) by (unfold len; by rewrite length_replicate).
  set (B := concat _). assert (0 <= len B) by (unfold len; lia). split; [unfold len at 3; cbn; lia|].
  split; [|split].
  - destruct (unary_last (take i ds)) as [x Ex]. fold A in Ex. assert (Lx : len x = p) by (rewrite Ex, len_app in LA; unfold len in *; cbn in LA; lia).
    pose proof (unary_rank (take i ds)) as HR. fold A in HR. rewrite LA, rank_succ, Ex in HR by lia. rewrite lbit_app in HR by lia.
    rewrite Lx, Z.ltb_irrefl, Z.sub_diag in HR. change (lbit [false] 0) with false in HR. cbn [Z.b2z] in HR. rewrite <- Ex in HR.
    split; [lia|]. split; [rewrite lbit_app by lia; rewrite (proj2 (Z.ltb_lt _ _)) by lia; rewrite Ex, lbit_app by lia; by rewrite Lx, Z.ltb_irrefl, Z.sub_diag|].
    rewrite rank_negb by lia. rewrite rank_app_l by lia. lia.
  - intros j Hj. rewrite lbit_app by lia. rewrite (proj2 (Z.ltb_ge _ _)) by lia. rewrite <- app_assoc, lbit_app by lia. rewrite (proj2 (Z.ltb_lt _ _)) by lia.
    rewrite <- (Nat2Z.id n). apply lbit_replicate. lia.
  - rewrite lbit_app by lia. rewrite (proj2 (Z.ltb_ge _ _)) by lia. rewrite <- app_assoc, lbit_app by lia. rewrite (proj2 (Z.ltb_ge _ _)) by lia.
    replace (p + 1 + Z.of_nat n - len A - len (replicate n true)) with 0 by lia. done.
Qed.

Section shape.
Context (au : Au).

Lemma louds_unary N : louds_of au N = unary (map (fun nd => length (mv au nd)) N).
Proof. unfold louds_of, unary. by rewrite map_map. Qed.

Lemma degs_total N : degs au N = total (map (fun nd => length (mv au nd)) N).
Proof. induction N as [|nd N IH]; [done|]. change (nd :: N) with ([nd] ++ N) at 1. rewrite degs_app, degs_one, IH. done. Qed.

Lemma louds_at N i nd : N !! i = Some nd ->
  let L := louds_of au N in let p := Z.of_nat (degs au (take i N)) + Z.of_nat i in
  p + 1 + Z.of_nat (length (mv au nd)) < len L /\
  is_select (fun j => negb (lbit L j)) (Z.of_nat i) p /\
  (forall j, p + 1 <= j < p + 1 + Z.of_nat (length (mv au nd)) -> lbit L j = true) /\
  lbit L (p + 1 + Z.of_nat (length (mv au nd))) = false.
Proof.
  intros Hi. rewrite louds_unary, degs_total, <- firstn_map. apply unary_at. by rewrite list_lookup_fmap, Hi.
Qed.

(** The [j]-th edge of node [i] among all edges. *)
Lemma edge_at N i nd j m : N !! i = Some nd -> mv au nd !! j = Some m -> concat (map (mv au) N) !! (degs au (take i N) + j)%nat = Some m.
Proof.
  intros Hi Hj. assert (concat (map (mv au) N) = concat (map (mv au) (take i N)) ++ mv au nd ++ concat (map (mv au) (drop (S i) N))) as ->.
  { rewrite <- (take_drop_middle N i nd Hi) at 1. by rewrite map_app, concat_app. }
  rewrite lookup_app_r by (unfold degs; lia). unfold degs. replace (_ + j - _)%nat with j by lia. by apply lookup_app_l_Some.
Qed.
End shape.

(** The marks before a node count the marked nodes before it. *)
Lemma rank_omap {A} (f : node -> option A) (b : nat -> node -> bool) N n c : (forall i nd, b i nd = match f nd with Some _ => true | None => false end) ->
  (c <= n)%nat -> (c <= length N)%nat -> rank (lbit (nbits b N n)) (Z.of_nat c) = Z.of_nat (length (omap f (take c N))).
Proof.
  intros Hb. induction c as [|c IH]; intros Hn HN; [done|]. destruct (lookup_lt_is_Some_2 N c ltac:(lia)) as [nd Hnd].
  rewrite (take_S_r _ _ _ Hnd), omap_app, length_app. replace (Z.of_nat (S c)) with (Z.of_nat c + 1) by lia. rewrite rank_succ, IH by lia.
  rewrite nbits_lbit by lia. rewrite Nat2Z.id, Hnd, Hb. cbn. destruct (f nd); cbn; lia.
Qed.

Lemma omap_at {A} (f : node -> option A) N c nd x : N !! c = Some nd -> f nd = Some x -> omap f N !! length (omap f (take c N)) = Some x.
Proof.
  intros Hc Hf. assert (omap f N = omap f (take c N) ++ x :: omap f (drop (S c) N)) as ->.
  { rewrite <- (take_drop_middle N c nd Hc) at 1. rewrite omap_app. cbn. by rewrite Hf. }
  by rewrite list_lookup_middle.
Qed.

(** ** Searching sorted labels *)

Lemma sorted_lookup l i j x y : StronglySorted Z.lt l -> (i < j)%nat -> l !! i = Some x -> l !! j = Some y -> x < y.
Proof.
  intros Hs. revert i j. induction Hs as [|a l Hs IH Hall]; intros i j Hij Hi Hj; [done|]. rewrite List.Forall_forall in Hall.
  destruct j as [|j]; [lia|]. destruct i as [|i]; cbn in *.
  - injection Hi as ->. apply Hall, list_elem_of_In. by eapply list_elem_of_lookup_2.
  - apply (IH i j); (done || lia).
Qed.

(** Labels are strictly ascending, so the partial counts are positions. *)
Lemma rank_position ms j ch t : StronglySorted Z.lt (map fst ms) -> (forall c u, In (c, u) ms -> 0 <= c) -> ms !! j = Some (ch, t) ->
  rank (has_label ms) ch = Z.of_nat j.
Proof.
  revert j ch t. induction ms as [|[c u] ms IH]; intros j ch t Hs Hn Hj; [done|]. inversion_clear Hs as [|? ? Hs' Hall]. rewrite List.Forall_forall in Hall.
  assert (Hc : 0 <= c) by (apply (Hn c u); by left).
  assert (Hlow : forall i, i <= c -> has_label ms i = false).
  { intros i Hi. apply not_true_is_false. intros Hex. apply existsb_exists in Hex as ([c' u'] & Hin & He). cbn in He.
    specialize (Hall c' ltac:(apply in_map_iff; by exists (c', u'))). lia. }
  assert (Hlab : forall i, has_label ((c, u) :: ms) i = (c =? i) || has_label ms i) by done.
  destruct j as [|j].
  - injection Hj as -> ->. unfold rank. apply cnt_false. intros i Hi. rewrite Hlab, Hlow by lia. rewrite (proj2 (Z.eqb_neq _ _)) by lia. done.
  - assert (Hlt : c < ch) by (apply Hall, in_map_iff; exists (ch, t); split; [done|]; apply list_elem_of_In; by eapply list_elem_of_lookup_2).
    rewrite Nat2Z.inj_succ, <- (IH j ch t Hs' ltac:(intros; apply (Hn c0 u0); by right) Hj).
    replace ch with ((c + 1) + (ch - c - 1)) by lia. rewrite !(rank_add _ (c + 1)) by lia.
    rewrite !(rank_succ _ c) by lia. rewrite Hlab, Z.eqb_refl, Hlow by lia. cbn [orb Z.b2z].
    rewrite (rank_ext (has_label ((c, u) :: ms)) (has_label ms) c) by (intros i Hi; rewrite Hlab; by rewrite (proj2 (Z.eqb_neq _ _)) by lia).
    rewrite (cnt_ext (has_label ((c, u) :: ms)) (has_label ms) (c + 1) (c + 1)) by (intros i Hi; rewrite Hlab; by rewrite (proj2 (Z.eqb_neq _ _)) by lia). lia.
Qed.

Lemma find_move (ms : list (Z * Z)) j ch t : StronglySorted Z.lt (map fst ms) -> ms !! j = Some (ch, t) -> List.find (fun m => fst m =? ch) ms = Some (ch, t).
Proof.
  revert j. induction ms as [|[c u] ms IH]; intros j Hs Hj; [done|]. inversion_clear Hs as [|? ? Hs' Hall]. rewrite List.Forall_forall in Hall.
  destruct j as [|j]; cbn in *.
  - injection Hj as -> ->. by rewrite Z.eqb_refl.
  - assert (c < ch) by (apply Hall, in_map_iff; exists (ch, t); split; [done|]; apply list_elem_of_In; by eapply list_elem_of_lookup_2).
    rewrite (proj2 (Z.eqb_neq c ch)) by lia. by apply (IH j).
Qed.

Lemma has_label_find ms ch : has_label ms ch = match List.find (fun m => fst m =? ch) ms with Some _ => true | None => false end.
Proof. induction ms as [|[c u] ms IH]; [done|]. cbn. destruct (c =? ch); [done|]. exact IH. Qed.

(** [binary_search_byte]: the position of the label, or the length. *)
Lemma binary_search_ok m data (ms : list (Z * Z)) ch : 0 <= data -> data + Z.of_nat (length ms) <= Z.of_nat (length m) -> StronglySorted Z.lt (map fst ms) ->
  label_bytes m data ms -> exists i, binary_search_byte m data (Z.of_nat (length ms)) ch = Ok i /\
    ((exists t, 0 <= i < Z.of_nat (length ms) /\ ms !! Z.to_nat i = Some (ch, t)) \/
     (i = Z.of_nat (length ms) /\ forall t, ~ In (ch, t) ms)).
Proof.
  intros Hd Hl Hs Hb. set (n := Z.of_nat (length ms)) in *. unfold binary_search_byte.
  assert (Rd : forall k, 0 <= k < n -> exists c t, ms !! Z.to_nat k = Some (c, t) /\ rd8b m (data + k) = Ok c).
  { intros k Hk. destruct (lookup_lt_is_Some_2 ms (Z.to_nat k)) as [[c t] E]; [unfold n in *; lia|]. exists c, t. split; [done|].
    rewrite rd8b_ok by lia. f_equal. specialize (Hb _ _ _ E). by rewrite Z2Nat.id in Hb by lia. }
  assert (Mono : forall i j c d t u, (i < j)%nat -> ms !! i = Some (c, t) -> ms !! j = Some (d, u) -> c < d).
  { intros i j c d t u Hij Hi Hj. eapply (sorted_lookup (map fst ms) i j); [done|done|by rewrite list_lookup_fmap, Hi|by rewrite list_lookup_fmap, Hj]. }
  destruct (loop_inv (fun '(lo, hi) => 0 <= lo <= hi /\ hi <= n /\
        (forall k c t, Z.of_nat k < lo -> ms !! k = Some (c, t) -> c < ch) /\ (forall k c t, hi <= Z.of_nat k -> ms !! k = Some (c, t) -> ch <= c))
      (fun '(lo, hi) => hi - lo)
      (fun lo => 0 <= lo <= n /\ (forall k c t, Z.of_nat k < lo -> ms !! k = Some (c, t) -> c < ch) /\ (forall k c t, lo <= Z.of_nat k -> ms !! k = Some (c, t) -> ch <= c))
      (fun '(lo, hi) => if lo <? hi then let mid := (lo + hi) / 2 in let* x := rd8b m (data + mid) in
         if x <? ch then Ok (inl (mid + 1, hi)) else Ok (inl (lo, mid)) else Ok (inr lo))
      (S (Z.to_nat n)) (0, n)) as (lo & E & Hlo & Hbelow & Habove).
  - split; [lia|]. split; [lia|]. split; [lia|]. intros k c t Hk Ek. apply lookup_lt_Some in Ek. unfold n in *. lia.
  - lia.
  - intros [lo hi] (H1 & H2 & H3 & H4). split; [lia|]. destruct (Z.ltb_spec lo hi).
    + left. pose proof (IntVec.mid_bounds lo hi ltac:(lia)) as Hm. cbn zeta. set (mid := (lo + hi) / 2) in *.
      destruct (Rd mid) as (c & t & Ec & ->); [lia|]. cbn [rbind]. destruct (Z.ltb_spec c ch).
      * eexists. split; [done|]. split; [|lia]. split; [lia|]. split; [lia|]. split; [|done]. intros k c' t' Hk Ek.
        destruct (decide (k = Z.to_nat mid)) as [->|]; [rewrite Ec in Ek; by injection Ek as <- _|].
        assert (c' < c); [|lia]. eapply (Mono k (Z.to_nat mid)); [lia|done|done].
      * eexists. split; [done|]. split; [|lia]. split; [lia|]. split; [lia|]. split; [done|]. intros k c' t' Hk Ek.
        destruct (decide (k = Z.to_nat mid)) as [->|]; [rewrite Ec in Ek; by injection Ek as <- _|].
        assert (c < c'); [|lia]. eapply (Mono (Z.to_nat mid) k); [lia|done|done].
    + right. exists lo. split; [done|]. assert (lo = hi) as -> by lia. split; [lia|]. done.
  - cbv zeta in E. fold n. rewrite E. cbn [rbind].
    assert (Hout : (forall c t, ms !! Z.to_nat lo = Some (c, t) -> c <> ch) -> forall t, ~ In (ch, t) ms).
    { intros Hne t Hin. apply list_elem_of_In, list_elem_of_lookup in Hin as [k Ek]. destruct (Z.lt_trichotomy (Z.of_nat k) lo) as [Hk|[Hk|Hk]].
      - specialize (Hbelow k ch t Hk Ek). lia.
      - subst lo. rewrite Nat2Z.id in Hne. by apply (Hne ch t).
      - pose proof (lookup_lt_Some _ _ _ Ek). destruct (Rd lo) as (c & t' & Ec & _); [unfold n; lia|].
        pose proof (Habove (Z.to_nat lo) c t' ltac:(lia) Ec). pose proof (Mono (Z.to_nat lo) k c ch t' t ltac:(lia) Ec Ek). lia. }
    destruct (Z.ltb_spec lo n) as [Hn|Hn].
    + destruct (Rd lo) as (c & t & Ec & ->); [lia|]. cbn [rbind]. destruct (Z.eqb_spec c ch) as [->|Hne].
      * exists lo. split; [done|]. left. exists t. split; [lia|done].
      * exists n. split; [done|]. right. split; [done|]. apply Hout. intros c' t' E'. rewrite Ec in E'. by injection E' as <- _.
    + exists n. split; [done|]. right. split; [done|]. apply Hout. intros c' t' E'. apply lookup_lt_Some in E'. unfold n in Hn. lia.
Qed.

Lemma sum_over_elem g l s : s ∈ l -> (forall t, 0 <= g t) -> g s <= sum_over g l.
Proof.
  intros Hin Hg. induction l as [|t l IH]; [by apply not_elem_of_nil in Hin|]. cbn. fold (sum_over g l).
  pose proof (sum_over_nonneg g l ltac:(auto)). pose proof (Hg t). apply elem_of_cons in Hin as [->|Hin]; [lia|]. specialize (IH Hin). lia.
Qed.

(** ** Nodes and states *)

Section query.
Context {RS : Type} `{RV : RankVecLaws RS} (au : Au) (used : list Z) (Hau : au_ok au used).
Context (leaf : Z) (Hleaf : reach au leaf -> au_moves au leaf = [] /\ au_is_pzip au leaf = false /\ au_is_term au leaf = true).
Let T : Z := au_total_transitions au.
Context (HT : 2 * T + 2 < 2 ^ 32).
Context (cache_num : Z) (Hcache : 0 <= cache_num <= T).
Context (N : list node) (d : GenLoudsDFA (RS := RS)) (Im : image au leaf cache_num N d).

(** The node [i] stands for the state [q]. *)
Definition stands (i q : Z) : Prop :=
  0 <= i /\ exists nd, N !! Z.to_nat i = Some nd /\ is_cross nd = false /\ tgt leaf nd = q.

Lemma stands_root : stands initial_state initial_state.
Proof. split; [done|]. exists (Tree initial_state). split; [apply (im_head _ _ _ _ _ Im)|done]. Qed.

Lemma stands_reach i q : stands i q -> reach au q.
Proof.
  intros (_ & nd & Hi & Hc & <-). apply list_elem_of_lookup_2 in Hi. destruct nd as [q| |]; [|done|].
  - by apply (im_reach _ _ _ _ _ Im).
  - by apply (im_leaf _ _ _ _ _ Im).
Qed.

Lemma N_length : Z.of_nat (length N) = T + 1.
Proof. rewrite (im_length _ _ _ _ _ Im). pose proof (T_nonneg au used Hau). unfold T1, T. lia. Qed.

Lemma node_range i nd : 0 <= i -> N !! Z.to_nat i = Some nd -> i <= T.
Proof. intros Hi H'. apply lookup_lt_Some in H'. pose proof N_length. lia. Qed.

(** A node has the moves of its state. *)
Lemma stands_moves i q nd : stands i q -> N !! Z.to_nat i = Some nd -> mv au nd = au_moves au q /\ is_cross nd = false.
Proof.
  intros Hs Hn. pose proof (stands_reach i q Hs) as Hr. destruct Hs as (_ & nd' & Hi & Hc & Ht). rewrite Hn in Hi. injection Hi as <-.
  split; [|done]. destruct nd as [p| |]; [by cbn in Ht; subst p|done|]. cbn in *. subst q. symmetry. by apply Hleaf.
Qed.

Lemma cross_bit i nd : 0 <= i -> N !! Z.to_nat i = Some nd -> rs_is1 (m_is_cross_edge d) i = Ok (is_cross nd).
Proof.
  intros Hi Hn. pose proof (node_range i nd Hi Hn). pose proof N_length as HL. rewrite (im_length _ _ _ _ _ Im) in HL.
  rewrite (serves_is1 _ _ (im_cross _ _ _ _ _ Im)) by (unfold len; rewrite nbits_length; lia). f_equal.
  rewrite nbits_lbit by lia. by rewrite Hn.
Qed.

Lemma not_cross_ok i q : stands i q -> not_cross d i = Ok tt.
Proof. intros (Hi & nd & Hn & Hc & _). unfold not_cross. rewrite (cross_bit i nd Hi Hn), Hc. done. Qed.

(** ** Positions in the louds bits *)

Definition deg (i : Z) : Z := match N !! Z.to_nat i with Some nd => Z.of_nat (length (mv au nd)) | None => 0 end.

Lemma stands_deg i q : stands i q -> deg i = moves_len au q.
Proof. intros Hs. pose proof Hs as (_ & nd & Hn & _). unfold deg. rewrite Hn. by rewrite (proj1 (stands_moves i q nd Hs Hn)). Qed.

Definition pos (i : Z) : Z := first_child au N (Z.to_nat i) + i.

Lemma louds_size : len (louds_of au N) = 2 * T + 2.
Proof.
  unfold len. rewrite louds_length. pose proof N_length as HL. pose proof (f_equal length (im_spans _ _ _ _ _ Im)) as E.
  rewrite !length_map in E. unfold degs. rewrite <- E. pose proof (im_head _ _ _ _ _ Im). destruct N; [done|]. cbn in *. lia.
Qed.

Lemma children_pos_ok i nd : 0 <= i -> N !! Z.to_nat i = Some nd -> children_pos d i = Ok (pos i) /\
  rv_one_seq_len (m_louds d) (pos i) = Ok (deg i) /\ pos i + deg i < rs_size (m_louds d) /\
  rs_is1 (m_louds d) (pos i) = Ok (0 <? deg i) /\ rs_select0 (m_louds d) i = Ok (pos i - 1).
Proof.
  intros Hi Hn. destruct (louds_at au N (Z.to_nat i) nd Hn) as (P1 & P2 & P3 & P4). cbn zeta in *. rewrite Z2Nat.id in * by lia.
  pose proof (im_louds _ _ _ _ _ Im) as S. unfold pos, deg, first_child. rewrite Hn. set (p := Z.of_nat (degs au (take (Z.to_nat i) N)) + i) in *.
  replace (1 + Z.of_nat (degs au (take (Z.to_nat i) N)) + i) with (p + 1) by lia. pose proof P2 as (Q0 & Q1 & Q2).
  assert (Es : rs_select0 (m_louds d) i = Ok p) by (apply (serves_select0 _ _ S); [lia|done]).
  split; [|split; [|split; [|split]]].
  - unfold children_pos, children_pos_at. rewrite Es. cbn [rbind]. rewrite (serves_rank0 _ _ S) by lia. cbn [rbind].
    rewrite rank_negb in Q2 by lia. rewrite Q2, Z.eqb_refl. cbn [assert_ rbind]. rewrite (serves_is1 _ _ S) by lia. cbn [rbind]. by rewrite Q1.
  - apply (serves_run _ _ S); (done || lia).
  - rewrite (serves_size _ _ S). lia.
  - rewrite (serves_is1 _ _ S) by lia. f_equal. destruct (Z.ltb_spec 0 (Z.of_nat (length (mv au nd)))); [apply P3; lia|].
    replace (Z.of_nat (length (mv au nd))) with 0 in P4 by lia. by rewrite Z.add_0_r in P4.
  - rewrite Es. f_equal. lia.
Qed.

Lemma cached_pos_ok i nd : 0 <= i -> N !! Z.to_nat i = Some nd -> cached_pos d i = Ok (pos i).
Proof.
  intros Hi Hn. unfold cached_pos. destruct (im_cache _ _ _ _ _ Im) as (c & [Sz Sg] & _ & Lc & Hc). rewrite Sz, Lc.
  destruct (Z.ltb_spec i cache_num); [|by apply (children_pos_ok i nd)].
  specialize (Hc (Z.to_nat i) ltac:(lia)). apply Sg in Hc. rewrite Z2Nat.id in Hc by lia. rewrite Hc. f_equal.
  rewrite louds_length. apply lookup_lt_Some in Hn. rewrite length_take_le by lia. unfold pos, first_child. lia.
Qed.

(** ** Children *)

Lemma child_node i q j ch t : stands i q -> au_moves au q !! j = Some (ch, t) ->
  exists nd, N !! Z.to_nat (first_child au N (Z.to_nat i) + Z.of_nat j) = Some nd /\ tgt leaf nd = t.
Proof.
  intros Hs Hj. pose proof Hs as (Hi & nd & Hn & _). destruct (stands_moves i q nd Hs Hn) as [Hm _]. rewrite <- Hm in Hj.
  pose proof (edge_at au N (Z.to_nat i) nd j _ Hn Hj) as E. pose proof (im_spans _ _ _ _ _ Im) as Sp.
  assert (E2 : map (tgt leaf) (tail N) !! (degs au (take (Z.to_nat i) N) + j)%nat = Some t) by (rewrite Sp, list_lookup_fmap, E; done).
  rewrite list_lookup_fmap in E2. unfold first_child.
  replace (Z.to_nat (1 + Z.of_nat (degs au (take (Z.to_nat i) N)) + Z.of_nat j)) with (S (degs au (take (Z.to_nat i) N) + j)) by lia.
  destruct N as [|x N']; [done|]. cbn [tail] in E2. change (((x :: N') !! S (degs au (take (Z.to_nat i) (x :: N')) + j)%nat)) with (N' !! (degs au (take (Z.to_nat i) (x :: N')) + j)%nat).
  destruct (N' !! _) as [nd'|]; [|done]. exists nd'. split; [done|]. by injection E2.
Qed.

(** Following a cross edge. *)
Lemma resolve_ok c nd : 0 <= c -> N !! Z.to_nat c = Some nd -> exists m, resolve d c = Ok m /\ stands m (tgt leaf nd).
Proof.
  intros Hc Hn. unfold resolve. rewrite (cross_bit c nd Hc Hn). cbn [rbind]. destruct (is_cross nd) eqn:Ec.
  2: { exists c. split; [done|]. split; [done|]. by exists nd. }
  destruct nd as [|t|]; try done. pose proof (node_range c _ Hc Hn) as Hr. pose proof N_length as HL. pose proof (im_length _ _ _ _ _ Im) as HL1.
  rewrite (serves_rank1 _ _ (im_cross _ _ _ _ _ Im)) by (unfold len; rewrite nbits_length; lia). cbn [rbind].
  assert (rank (lbit (nbits (fun _ => is_cross) N (T1 au))) c = Z.of_nat (length (omap cross_of (take (Z.to_nat c) N)))) as ->.
  { rewrite <- (rank_omap cross_of (fun _ => is_cross) N (T1 au)) by (lia || by intros ? []). by rewrite Z2Nat.id by lia. }
  destruct (im_dst _ _ _ _ _ Im) as (ds & F & [_ Sg] & _). pose proof (omap_at cross_of N (Z.to_nat c) (Cross t) t Hn eq_refl) as Ho.
  destruct (Forall2_lookup_l _ _ _ _ _ F Ho) as (x & Hx & i & Hi & ->). apply Sg in Hx. exists (Z.of_nat i). split; [done|].
  split; [lia|]. exists (Tree t). rewrite Nat2Z.id. done.
Qed.

Lemma child_ok i q j ch t : stands i q -> au_moves au q !! j = Some (ch, t) ->
  exists m, resolve d (first_child au N (Z.to_nat i) + Z.of_nat j) = Ok m /\ stands m t.
Proof.
  intros Hs Hj. destruct (child_node i q j ch t Hs Hj) as (nd & Hn & <-). apply resolve_ok; [|done].
  unfold first_child. lia.
Qed.

(** The label block of a node that has children. *)
Lemma block_ok i q : stands i q -> 0 < moves_len au q ->
  let base := first_child au N (Z.to_nat i) in
  label_ok (m_label_data d) base (au_moves au q) /\ 0 <= base /\ base + moves_len au q <= Z.of_nat (length (m_label_data d)) /\ bytes (m_label_data d).
Proof.
  intros Hs Hm base. pose proof Hs as (Hi & nd & Hn & Hc & Ht). pose proof (im_bytes _ _ _ _ _ Im) as B. pose proof (im_room _ _ _ _ _ Im) as L. pose proof (im_labels _ _ _ _ _ Im) as Lab.
  assert (nd = Tree q) as ->.
  { destruct nd as [p| |]; [by cbn in Ht; subst p|done|]. destruct (stands_moves i q Leaf Hs Hn) as [E _]. cbn in E. unfold moves_len in Hm. rewrite <- E in Hm. cbn in Hm. lia. }
  split; [by apply Lab|]. unfold base, first_child. split; [lia|]. split; [|done].
  pose proof (degs_take_le au N (S (Z.to_nat i)) (length N) ltac:(apply lookup_lt_Some in Hn; lia)) as Hd. rewrite (degs_take _ _ _ _ Hn), firstn_all in Hd. cbn [mv] in Hd.
  pose proof louds_size as Ls. unfold len in Ls. rewrite louds_length in Ls. pose proof N_length. pose proof (Z_nonneg au used Hau).
  unfold moves_len. unfold zd, mm_cmpestri_extra in L. fold T in L. lia.
Qed.

(** ** Moves *)

(** [m] is the result of a move that leads to [t] in the source. *)
Definition moved (m t : Z) : Prop := (t = nil_state /\ m = nil_state) \/ (t <> nil_state /\ stands m t).

Lemma au_move_some q j ch t : reach au q -> au_moves au q !! j = Some (ch, t) -> au_state_move au q ch = t /\ t <> nil_state.
Proof.
  intros Hr Hj. unfold au_state_move. rewrite (find_move _ j ch t) by (done || by apply (ok_sorted _ _ Hau)). split; [done|].
  apply (nil_out au used Hau). eapply reach_move; [exact Hr|]. apply list_elem_of_In. by eapply list_elem_of_lookup_2.
Qed.

Lemma au_move_none q ch : (forall t, ~ In (ch, t) (au_moves au q)) -> au_state_move au q ch = nil_state.
Proof.
  intros Hn. unfold au_state_move. destruct (List.find _ _) as [[c t]|] eqn:E; [|done]. apply List.find_some in E as [Hin He]. cbn in He.
  apply Z.eqb_eq in He as ->. by destruct (Hn t).
Qed.

Lemma fast_trail32 w n : 0 <= w < 2 ^ 32 -> 0 <= n < 32 -> fast_popcount_trail w n = cnt (Z.testbit w) 0 (Z.to_nat n).
Proof. intros Hw Hn. apply fast_popcount_trail_spec; [unfold word64; lia|lia]. Qed.

Lemma state_move_fast_ok i q ch : stands i q -> 0 <= ch < 256 ->
  exists m, state_move_fast d ch (moves_len au q) (first_child au N (Z.to_nat i)) = Ok m /\ moved m (au_state_move au q ch).
Proof.
  intros Hs Hch. pose proof (stands_reach i q Hs) as Hr. pose proof (ok_sorted _ _ Hau q Hr) as Hso.
  set (base := first_child au N (Z.to_nat i)). unfold state_move_fast, MIN_FAST_SEARCH_BYTES, POPCNT_BYTES.
  destruct (Z.eqb_spec (moves_len au q) 0) as [E0|E0].
  { assert (En : au_moves au q = []) by (unfold moves_len in E0; destruct (au_moves au q); [done|cbn in E0; lia]).
    rewrite E0. cbn. exists nil_state. split; [done|]. left. split; [|done]. apply au_move_none. rewrite En. by intros t []. }
  destruct (block_ok i q Hs) as ([P C] & Hb & Hl & Hm); [unfold moves_len in *; lia|]. fold base in P, C, Hb, Hl.
  unfold label_part in P. change (Z.of_nat (length (au_moves au q))) with (moves_len au q) in *.
  destruct (Z.ltb_spec (moves_len au q) 40) as [H40|H40].
  - assert (u8 ch = ch) as -> by (unfold u8; apply Z.mod_small; lia).
    destruct (binary_search_ok (m_label_data d) base (au_moves au q) ch Hb Hl Hso P) as (k & Ek & Hk).
    change (Z.of_nat (length (au_moves au q))) with (moves_len au q) in *. rewrite Ek. cbn [rbind].
    destruct Hk as [(t & Hk & Et)|(-> & Hno)].
    + rewrite (proj2 (Z.ltb_lt _ _)) by lia. destruct (child_ok i q (Z.to_nat k) ch t Hs Et) as (m & Em & Sm). rewrite Z2Nat.id in Em by lia.
      exists m. split; [done|]. destruct (au_move_some q _ ch t Hr Et) as [-> Hne]. by right.
    + rewrite Z.ltb_irrefl. exists nil_state. split; [done|]. left. split; [|done]. by apply au_move_none.
  - destruct (ch_div ch Hch) as (Hq & Hrm & Hqr). set (w := le_at 4 (m_label_data d) (base + 8 + 4 * (ch / 32))) in *.
    rewrite rd32b_ok by lia. fold w. cbn [rbind]. pose proof (le32_range (m_label_data d) (base + 8 + 4 * (ch / 32)) Hm) as Hw. fold w in Hw.
    pose proof (land_shl1_testbit w (ch mod 32) ltac:(lia)) as Hbit. pose proof (P ch Hch) as Pc. fold w in Pc. rewrite Pc, has_label_find in Hbit.
    destruct (List.find _ _) as [[c t]|] eqn:Ef.
    + apply List.find_some in Ef as [Hin He]. cbn in He. apply Z.eqb_eq in He as ->. apply list_elem_of_In, list_elem_of_lookup in Hin as [j Ej].
      destruct (_ =? 0); [done|]. rewrite rd8b_ok by lia. cbn [rbind]. rewrite (C H40) by lia. rewrite fast_trail32 by lia.
      pose proof (rank_label_step (m_label_data d) base (au_moves au q) (ch / 32) (ch mod 32) P Hq ltac:(lia)) as Hst. fold w in Hst. rewrite <- Hst, <- Hqr.
      rewrite (rank_position (au_moves au q) j ch t Hso) by (done || (intros c u Hcu; apply (ok_moves _ _ Hau q c u Hr) in Hcu; lia)).
      rewrite (proj2 (Z.ltb_lt _ _)) by (apply lookup_lt_Some in Ej; unfold moves_len; lia). cbn [assert_ rbind].
      destruct (child_ok i q j ch t Hs Ej) as (m & Em & Sm). exists m. split; [done|]. destruct (au_move_some q _ ch t Hr Ej) as [-> Hne]. by right.
    + destruct (_ =? 0); [|done]. exists nil_state. split; [done|]. left. split; [|done]. apply au_move_none. intros t Hin.
      apply (List.find_none _ _ Ef) in Hin. cbn in Hin. by rewrite Z.eqb_refl in Hin.
Qed.

Lemma state_move_ok i q ch : stands i q -> 0 <= ch < 256 -> exists m, state_move d i ch = Ok m /\ moved m (au_state_move au q ch).
Proof.
  intros Hs Hch. pose proof Hs as (Hi & nd & Hn & _). unfold state_move. rewrite (not_cross_ok i q Hs). cbn [rbind].
  rewrite (cached_pos_ok i nd Hi Hn). cbn [rbind]. destruct (children_pos_ok i nd Hi Hn) as (_ & -> & _). cbn [rbind].
  rewrite (stands_deg i q Hs). unfold pos. replace (first_child au N (Z.to_nat i) + i - i) with (first_child au N (Z.to_nat i)) by lia.
  by apply state_move_fast_ok.
Qed.

Lemma state_move_slow_ok i q ch : stands i q -> 0 <= ch < 256 -> exists m, 
  state_move_slow d i ch = Ok (m, if moves_len au q =? 0 then (0, nil_state) else (moves_len au q, first_child au N (Z.to_nat i))) /\
  moved m (au_state_move au q ch).
Proof.
  intros Hs Hch. pose proof Hs as (Hi & nd & Hn & _). unfold state_move_slow. rewrite (not_cross_ok i q Hs). cbn [rbind].
  destruct (children_pos_ok i nd Hi Hn) as (C1 & C2 & C3 & C4 & C5). pose proof (cached_pos_ok i nd Hi Hn) as Cc. unfold cached_pos in Cc.
  assert (Hd : 0 <= deg i) by (rewrite (stands_deg i q Hs); unfold moves_len; lia).
  unfold children_pos in C1. rewrite C5 in C1. cbn [rbind] in C1.
  assert ((if i <? IntVec.zip_size (m_cache d) then IntVec.zip_get (m_cache d) i
    else let* p := rs_select0 (m_louds d) i in let* _ := assert_ (p + 1 <? rs_size (m_louds d)) in children_pos_at d i p) = Ok (pos i)) as ->.
  { destruct (i <? _); [done|]. rewrite C5. cbn [rbind]. rewrite (proj2 (Z.ltb_lt _ _)) by lia. done. }
  cbn [rbind]. rewrite (proj2 (Z.ltb_lt (pos i) _)) by lia. cbn [assert_ rbind]. rewrite C2. cbn [rbind]. rewrite (proj2 (Z.ltb_lt _ _)) by lia. cbn [assert_ rbind].
  rewrite (stands_deg i q Hs). destruct (state_move_fast_ok i q ch Hs Hch) as (m & Em & Hm). destruct (Z.eqb_spec (moves_len au q) 0) as [E0|E0].
  - exists nil_state. split; [done|]. left. split; [|done]. apply au_move_none. intros t Hin. unfold moves_len in E0. destruct (au_moves au q); [done|cbn in E0; lia].
  - exists m. split; [|done]. unfold pos. replace (first_child au N (Z.to_nat i) + i - i) with (first_child au N (Z.to_nat i)) by lia. by rewrite Em.
Qed.

Lemma total_states_ge : T + 1 <= total_states d.
Proof.
  destruct (im_term _ _ _ _ _ Im) as (l & R & Hl & _). unfold total_states. rewrite (repr_size _ _ R).
  unfold T1 in Hl. fold T in Hl. pose proof (T_nonneg au used Hau). fold T in H0. lia.
Qed.

Lemma v_children_ok i q : stands i q -> v_num_children d i = Ok (moves_len au q) /\ v_has_children d i = Ok (0 <? moves_len au q).
Proof.
  intros Hs. pose proof Hs as (Hi & nd & Hn & _). unfold v_num_children, v_has_children. rewrite (not_cross_ok i q Hs). cbn [rbind].
  destruct (children_pos_ok i nd Hi Hn) as (C1 & C2 & _ & C4 & _). rewrite C1. cbn [rbind]. rewrite C2, C4, (stands_deg i q Hs). split; [done|].
  pose proof (node_range i nd Hi Hn). pose proof total_states_ge. rewrite (proj2 (Z.ltb_lt i _)) by lia. done.
Qed.

Lemma is_term_ok i q : stands i q -> is_term d i = Ok (au_is_term au q).
Proof.
  intros Hs. pose proof (stands_reach i q Hs) as Hr. destruct Hs as (Hi & nd & Hn & Hc & Ht). pose proof (node_range i nd Hi Hn).
  destruct (im_term _ _ _ _ _ Im) as (l & R & Hl & Hb).
  unfold is_term. rewrite (fv_is1_repr _ _ i R) by (unfold T1 in Hl; fold T in Hl; lia). f_equal. rewrite Hb by (unfold T1; fold T; lia).
  rewrite nbits_lbit by (unfold T1; fold T; lia). rewrite Hn. apply lookup_lt_Some in Hn. destruct nd as [p| |]; cbn in *; [|done|].
  - subst p. by rewrite bool_decide_eq_true_2 by done.
  - subst q. symmetry. by apply Hleaf.
Qed.

Lemma zpaths_counted q : reach au q -> au_is_pzip au q = true -> au_num_zpath_states au <> 0.
Proof.
  intros Hr Ez E0. pose proof (ok_num_zpath _ _ Hau) as Hnz. apply (ok_used _ _ Hau) in Hr.
  pose proof (sum_over_elem (zone au) used q Hr ltac:(intros t; unfold zone; destruct (au_is_pzip au t); cbn; lia)) as Hge.
  unfold zone in Hge at 1. rewrite Ez in Hge. change (sum_over (fun s => Z.b2z (au_is_pzip au s)) used) with (sum_over (zone au) used) in Hnz. cbn in Hge. lia.
Qed.

Lemma is_pzip_ok i q : stands i q -> is_pzip d i = Ok (au_is_pzip au q).
Proof.
  intros Hs. pose proof (stands_reach i q Hs) as Hr. destruct Hs as (Hi & nd & Hn & Hc & Ht). pose proof (node_range i nd Hi Hn) as Hle.
  pose proof (im_pzip _ _ _ _ _ Im) as S. unfold is_pzip. rewrite (serves_size _ _ S). unfold pz_bits in *.
  pose proof (T_nonneg au used Hau) as HT0. fold T in HT0.
  destruct (Z.eqb_spec (au_num_zpath_states au) 0) as [E0|E0].
  - unfold len at 1. cbn. f_equal. symmetry. destruct (au_is_pzip au q) eqn:Ez; [|done]. by destruct (zpaths_counted q Hr Ez).
  - rewrite (proj2 (Z.eqb_neq (len _) 0)) by (unfold len; rewrite nbits_length; unfold T1; fold T; lia).
    rewrite (serves_is1 _ _ S) by (unfold len; rewrite nbits_length; unfold T1; fold T; lia). f_equal. rewrite nbits_lbit by (unfold T1; fold T; lia). rewrite Hn.
    destruct nd as [p| |]; cbn in *; [by subst p|done|]. subst q. symmetry. by apply Hleaf.
Qed.

(** ** Zpaths *)

Lemma stands_tree i q : stands i q -> au_is_pzip au q = true -> N !! Z.to_nat i = Some (Tree q).
Proof.
  intros Hs Hz. pose proof (stands_reach i q Hs) as Hr. destruct Hs as (Hi & nd & Hn & Hc & Ht). destruct nd as [p| |]; [by cbn in Ht; subst p|done|].
  cbn in Ht. subst q. destruct (Hleaf Hr) as (_ & E & _). congruence.
Qed.

Lemma trees_ok : NoDup (omap tree_of N) /\ forall q, Tree q ∈ N -> reach au q.
Proof. split; [apply (im_nodup _ _ _ _ _ Im)|apply (im_reach _ _ _ _ _ Im)]. Qed.

Lemma zprefix_unary Zs : zprefix Zs = unary (map (fun z => length z - 2)%nat Zs).
Proof. unfold zprefix, unary. by rewrite map_map. Qed.

Lemma zlens_total Zs : zlong Zs -> Z.of_nat (total (map (fun z => length z - 2)%nat Zs)) = Z.of_nat (length (concat Zs)) - 2 * Z.of_nat (length Zs).
Proof.
  intros Hl. induction Hl as [|z Zs [Hz _] Hl IH]; [done|]. unfold total in *. cbn in *. rewrite length_app. lia.
Qed.

(** The run of zpath [k] in the index, which ends in zeros. *)
Lemma zbits_at k z : zs_of au N !! k = Some z -> let Zs := zs_of au N in
  let p := Z.of_nat (length (concat (take k Zs))) - Z.of_nat k in
  p + 1 + (Z.of_nat (length z) - 2) < len (zbits au Zs) /\
  is_select (fun j => negb (lbit (zbits au Zs) j)) (Z.of_nat k) p /\
  (forall j, p + 1 <= j < p + 1 + (Z.of_nat (length z) - 2) -> lbit (zbits au Zs) j = true) /\
  lbit (zbits au Zs) (p + 1 + (Z.of_nat (length z) - 2)) = false.
Proof.
  intros Hk Zs p. fold Zs in Hk. destruct trees_ok as [Hn Hr]. destruct (zs_room au used Hau N Hn Hr) as (_ & _ & R). fold Zs in R.
  pose proof (zs_long au used Hau N Hr) as Hl. fold Zs in Hl. pose proof (lookup_lt_Some _ _ _ Hk).
  assert (Hz : 2 <= Z.of_nat (length z)) by (eapply List.Forall_forall in Hl; [|apply list_elem_of_In; by eapply list_elem_of_lookup_2]; apply Hl).
  destruct (unary_at (map (fun z => length z - 2)%nat Zs) k (length z - 2)) as (P1 & P2 & P3 & P4); [by rewrite list_lookup_fmap, Hk|]. cbn zeta in *.
  rewrite <- zprefix_unary, firstn_map in *. rewrite zlens_total in * by (by apply Forall_take).
  rewrite length_take_le in * by lia.
  replace (Z.of_nat (length (concat (take k Zs))) - 2 * Z.of_nat k + Z.of_nat k) with p in * by (unfold p; lia).
  replace (Z.of_nat (length z - 2)) with (Z.of_nat (length z) - 2) in * by lia.
  assert (Ez : forall j, 0 <= j < len (zprefix Zs) -> lbit (zbits au Zs) j = lbit (zprefix Zs) j).
  { intros j Hj. unfold zbits. rewrite lbit_resize by (unfold len in *; lia). by rewrite (proj2 (Z.ltb_lt _ _)) by lia. }
  destruct P2 as (Q0 & Q1 & Q2). rewrite zbits_len by (unfold len in *; lia).
  split; [unfold len in *; lia|]. split; [|split].
  - eapply (is_select_ext (fun j => negb (lbit (zprefix Zs) j))); [|by split]. intros j Hj. cbn. by rewrite Ez by lia.
  - intros j Hj. rewrite Ez by lia. by apply P3.
  - rewrite Ez by lia. done.
Qed.

Lemma get_zpath_ok i q : stands i q -> au_is_pzip au q = true -> get_zpath_data d i = Ok (au_zpath au q).
Proof.
  intros Hs Hz. pose proof (stands_tree i q Hs Hz) as Hn. pose proof Hs as (Hi & _). pose proof (node_range i _ Hi Hn) as Hle.
  pose proof (is_pzip_ok i q Hs) as Hp. rewrite Hz in Hp. unfold is_pzip in Hp. pose proof (im_pzip _ _ _ _ _ Im) as S.
  unfold get_zpath_data. pose proof total_states_ge. rewrite (proj2 (Z.ltb_lt i _)) by lia. cbn [assert_ rbind]. destruct (Z.eqb_spec (rs_size (m_is_pzip d)) 0) as [|Hsz]; [done|].
  pose proof (serves_size _ _ S) as Ssz. assert (0 <= len (pz_bits au N)) by (unfold len; lia). rewrite (proj2 (Z.ltb_lt _ _)) by lia. cbn [assert_ rbind]. rewrite Hp. cbn [assert_ rbind].
  assert (Epz : pz_bits au N = nbits (pz_bit au) N (T1 au)) by (unfold pz_bits in *; destruct (_ =? 0); [done|done]). rewrite Epz in S.
  pose proof N_length as HL. pose proof (im_length _ _ _ _ _ Im) as HL1. set (k := length (zs_of au (take (Z.to_nat i) N))).
  assert (Ez : zs_of au N !! k = Some (au_zpath au q)) by (apply (omap_at (zpath_of au) N (Z.to_nat i) (Tree q)); [done|cbn; by rewrite Hz]).
  assert (rs_rank1 (m_is_pzip d) i = Ok (Z.of_nat k)) as ->.
  { rewrite (serves_rank1 _ _ S) by (unfold len; rewrite nbits_length; lia). f_equal. unfold k, zs_of.
    rewrite <- (rank_omap (zpath_of au) (pz_bit au) N (T1 au)) by (lia || (intros ? [p| |]; [cbn; by destruct (au_is_pzip au p)|done|done])). by rewrite Z2Nat.id by lia. }
  cbn [rbind]. destruct (zbits_at k _ Ez) as (P1 & P2 & P3 & P4). cbn zeta in *. set (z := au_zpath au q) in *. set (Zs := zs_of au N) in *.
  set (p := Z.of_nat (length (concat (take k Zs))) - Z.of_nat k) in *. pose proof P2 as (Q0 & Q1 & Q2). pose proof (im_zindex _ _ _ _ _ Im (zpaths_counted q (stands_reach i q Hs) Hz)) as Sz. fold Zs in Sz.
  destruct (ok_zpath _ _ Hau q (stands_reach i q Hs) Hz) as [Hz2 Hzb]. fold z in Hz2, Hzb.
  rewrite (serves_select0 _ _ Sz (Z.of_nat k) p) by (done || lia). cbn [rbind]. rewrite (serves_rank0 _ _ Sz) by lia. cbn [rbind].
  rewrite rank_negb in Q2 by lia. rewrite Q2, Z.eqb_refl. cbn [assert_ rbind]. rewrite (serves_is1 _ _ Sz) by lia. cbn [rbind]. rewrite Q1. cbn [assert_ rbind].
  rewrite (serves_run _ _ Sz (p + 1) (Z.of_nat (length z) - 2)) by (done || lia). cbn [rbind].
  destruct trees_ok as [Hnd Hr]. destruct (zs_room au used Hau N Hnd Hr) as (R1 & _). fold Zs in R1.
  assert (Ec : concat Zs = concat (take k Zs) ++ z ++ concat (drop (Datatypes.S k) Zs)) by (rewrite <- (take_drop_middle Zs k z Ez) at 1; by rewrite concat_app).
  assert (Lc : (length (concat Zs) = length (concat (take k Zs)) + length z + length (concat (drop (Datatypes.S k) Zs)))%nat) by (rewrite Ec, !length_app; lia).
  rewrite (im_zlen _ _ _ _ _ Im), (im_zdata _ _ _ _ _ Im). pose proof (im_bytes _ _ _ _ _ Im) as B. pose proof (im_room _ _ _ _ _ Im) as L. pose proof (T_nonneg au used Hau).
  replace (p + 1 + Z.of_nat k) with (1 + Z.of_nat (length (concat (take k Zs)))) by lia.
  replace (Z.of_nat (length z) - 2 + 2) with (Z.of_nat (length z)) by lia.
  rewrite (proj2 (Z.leb_le _ _)) by lia. cbn [assert_ rbind]. rewrite inside_ok by (unfold zd, mm_cmpestri_extra in *; lia). f_equal.
  apply list_eq. intros j. rewrite list_lookup_fmap. destruct (decide (j < length z)%nat) as [Hj|Hj].
  - rewrite lookup_seqZ_lt by lia. cbn. rewrite Z.add_0_l.
    replace (zd au + (1 + Z.of_nat (length (concat (take k Zs)))) + Z.of_nat j) with (zd au + 1 + (Z.of_nat (length (concat (take k Zs))) + Z.of_nat j)) by lia.
    rewrite (im_zbytes _ _ _ _ _ Im) by (fold Zs; lia). fold Zs. rewrite Ec. unfold byte_at. rewrite app_nth2 by lia. rewrite app_nth1 by lia.
    destruct (lookup_lt_is_Some_2 z j Hj) as [x Hx]. rewrite Hx. f_equal. apply nth_lookup_Some. rewrite <- Hx. f_equal. lia.
  - rewrite lookup_seqZ_ge by lia. cbn. symmetry. apply lookup_ge_None_2. lia.
Qed.

(** ** Iteration over the moves *)

Lemma children_of_ok i q : stands i q -> children_of d i = Ok (first_child au N (Z.to_nat i), moves_len au q).
Proof.
  intros Hs. pose proof Hs as (Hi & nd & Hn & _). unfold children_of. pose proof (node_range i nd Hi Hn).
  pose proof total_states_ge. rewrite (proj2 (Z.ltb_lt i _)) by lia. cbn [assert_ rbind]. rewrite (not_cross_ok i q Hs). cbn [rbind].
  destruct (children_pos_ok i nd Hi Hn) as (-> & C2 & _). cbn [rbind]. rewrite C2. cbn [rbind]. rewrite (stands_deg i q Hs).
  pose proof (moves_fit au used Hau q (stands_reach i q Hs)). pose proof (ok_sigma _ _ Hau). unfold sigma, pos.
  rewrite (proj2 (Z.leb_le _ 256)) by lia. cbn [assert_ rbind].
  replace (first_child au N (Z.to_nat i) + i - i) with (first_child au N (Z.to_nat i)) by lia.
  rewrite (proj2 (Z.leb_le _ _)); [done|]. unfold first_child.
  pose proof (degs_take_le au N (S (Z.to_nat i)) (length N) ltac:(apply lookup_lt_Some in Hn; lia)) as Hd. rewrite (degs_take _ _ _ _ Hn), firstn_all in Hd.
  rewrite (proj1 (stands_moves i q nd Hs Hn)) in Hd. pose proof louds_size as Ls. unfold len in Ls. rewrite louds_length in Ls. pose proof N_length.
  unfold moves_len. lia.
Qed.

(** A call of [op] for a move. *)
Definition called (out m : Z * Z) : Prop := snd out = fst m /\ stands (fst out) (snd m).

Lemma called_snoc out ms j m ch t : Forall2 called out (take j ms) -> ms !! j = Some (ch, t) -> stands m t ->
  Forall2 called (out ++ [(m, ch)]) (take (S j) ms).
Proof. intros F Hj Hm. rewrite (take_S_r _ _ _ Hj). apply Forall2_app; [done|]. constructor; [by split|constructor]. Qed.

Lemma move_at_rank ms ch : StronglySorted Z.lt (map fst ms) -> (forall c u, In (c, u) ms -> 0 <= c) -> has_label ms ch = true ->
  exists t, ms !! Z.to_nat (rank (has_label ms) ch) = Some (ch, t).
Proof.
  intros Hs Hn Hl. apply existsb_exists in Hl as ([c t] & Hin & He). cbn in He. apply Z.eqb_eq in He as ->.
  apply list_elem_of_In, list_elem_of_lookup in Hin as [j Hj]. exists t. by rewrite (rank_position ms j ch t), Nat2Z.id.
Qed.

(** All labels lie below 256. *)
Lemma rank_all q : reach au q -> rank (has_label (au_moves au q)) 256 = moves_len au q.
Proof.
  intros Hr. pose proof (ok_sorted _ _ Hau q Hr) as Hso. pose proof (ok_sigma _ _ Hau) as Hsig. set (ms := au_moves au q) in *.
  assert (Hin : forall c u, In (c, u) ms -> 0 <= c < 256) by (intros c u Hc; apply (ok_moves _ _ Hau q c u Hr) in Hc; lia).
  assert (Hnn : forall c u, In (c, u) ms -> 0 <= c) by (intros c u Hc; apply Hin in Hc; lia).
  unfold moves_len. fold ms. destruct (length ms) as [|n] eqn:En.
  { apply nil_length_inv in En. rewrite En. unfold rank. by apply cnt_false. }
  destruct (lookup_lt_is_Some_2 ms n ltac:(lia)) as [[ch t] Et].
  assert (Hch : 0 <= ch < 256) by (apply (Hin ch t), list_elem_of_In; by eapply list_elem_of_lookup_2).
  assert (Ht : has_label ms ch = true).
  { apply existsb_exists. exists (ch, t). split; [|apply Z.eqb_refl]. apply list_elem_of_In. by eapply list_elem_of_lookup_2. }
  replace 256 with (ch + 1 + (255 - ch)) by lia. rewrite rank_add, rank_succ, Ht, (rank_position _ _ ch t Hso Hnn Et) by lia.
  rewrite cnt_false; [cbn; lia|]. intros c Hc. apply not_true_is_false. intros Hex.
  destruct (move_at_rank ms c Hso Hnn Hex) as (u & Eu). apply lookup_lt_Some in Eu.
  assert (rank (has_label ms) (ch + 1) <= rank (has_label ms) c) as Hm by (apply rank_mono; lia).
  rewrite rank_succ, Ht, (rank_position _ _ ch t Hso Hnn Et) in Hm by lia. cbn in Hm. lia.
Qed.

Section bitmap.
Context (i q : Z) (Hs : stands i q) (H40 : 40 <= moves_len au q).
Let ms := au_moves au q.
Let base := first_child au N (Z.to_nat i).

Definition walked (c j : Z) (out : list (Z * Z)) : Prop := j = rank (has_label ms) c /\ Forall2 called out (take (Z.to_nat j) ms).

(** The loop over the bits of word [w]. *)
Lemma word_loop_ok k j out : 0 <= k < 8 -> walked (32 * k) j out ->
  let w := le_at 4 (m_label_data d) (base + 8 + 4 * k) in
  exists r, loop 33 (fun '(bm, ch, j, out) =>
      if bm =? 0 then Ok (inr (j, out))
      else
        let* ctz := fast_ctz bm in
        let* child := resolve d (base + j) in
        let ch := ch + ctz in
        Ok (inl (Z.shiftr (Z.shiftr bm ctz) 1, ch + 1, j + 1, out ++ [(child, ch)])))
      (w, k * 32, j, out) = Ok r /\ walked (32 * (k + 1)) (fst r) (snd r).
Proof.
  intros Hk Hw w. destruct (block_ok i q Hs) as ([P _] & _ & _ & Hm); [lia|]. fold ms base in P. unfold label_part in P.
  change (Z.of_nat (length ms)) with (moves_len au q) in P. rewrite (proj2 (Z.ltb_ge _ _)) in P by lia.
  pose proof (stands_reach i q Hs) as Hr. pose proof (ok_sorted _ _ Hau q Hr) as Hso. fold ms in Hso. pose proof (le32_range (m_label_data d) (base + 8 + 4 * k) Hm) as Hwr. fold w in Hwr.
  assert (Hnn : forall c u, In (c, u) ms -> 0 <= c) by (intros c u Hin; apply (ok_moves _ _ Hau q c u Hr) in Hin; lia).
  assert (Hbit : forall b, 0 <= b < 32 -> Z.testbit w b = has_label ms (32 * k + b)).
  { intros b Hb. rewrite <- (P (32 * k + b)) by lia.
    assert ((32 * k + b) / 32 = k) as -> by (symmetry; apply (Z.div_unique _ _ _ b); lia).
    by assert ((32 * k + b) mod 32 = b) as -> by (symmetry; apply (Z.mod_unique _ _ k); lia). }
  apply (loop_inv (fun '(bm, ch, j, out) => 32 * k <= ch <= 32 * k + 32 /\ bm = Z.shiftr w (ch - 32 * k) /\ walked ch j out)
    (fun '(_, ch, _, _) => 32 * k + 32 - ch)).
  - split; [lia|]. split; [|by rewrite Z.mul_comm]. replace (k * 32 - 32 * k) with 0 by lia. done.
  - lia.
  - intros [[[bm ch] j'] out'] (Hch & -> & Hj & F). split; [lia|].
    assert (Hsb : forall b, 0 <= b -> Z.testbit (Z.shiftr w (ch - 32 * k)) b = if ch + b <? 32 * k + 32 then has_label ms (ch + b) else false).
    { intros b Hb. rewrite testbit_shr by lia. destruct (Z.ltb_spec (ch + b) (32 * k + 32)).
      - rewrite Hbit by lia. f_equal. lia.
      - apply (testbit_high w _ 32); lia. }
    destruct (Z.eqb_spec (Z.shiftr w (ch - 32 * k)) 0) as [E0|E0].
    + right. exists (j', out'). split; [done|]. cbn [fst snd]. split; [|done]. rewrite Hj. symmetry.
      replace (32 * (k + 1)) with (ch + (32 * k + 32 - ch)) by lia. rewrite rank_add by lia. rewrite cnt_false; [lia|]. intros c Hc.
      specialize (Hsb (c - ch) ltac:(lia)). rewrite E0, Z.bits_0 in Hsb. rewrite (proj2 (Z.ltb_lt _ _)) in Hsb by lia. by replace (ch + (c - ch)) with c in Hsb by lia.
    + left. assert (W : word64 (Z.shiftr w (ch - 32 * k))) by (apply word64_shr; [unfold word64; lia|lia]).
      destruct (fast_ctz_spec _ W E0) as (c & -> & Hc & H1 & H0). cbn [rbind]. rewrite Hsb in H1 by lia. destruct (Z.ltb_spec (ch + c) (32 * k + 32)); [|done].
      assert (Hrk : rank (has_label ms) (ch + c) = j').
      { rewrite rank_add by lia. rewrite cnt_false; [lia|]. intros b Hb. specialize (H0 (b - ch) ltac:(lia)). rewrite Hsb in H0 by lia.
        rewrite (proj2 (Z.ltb_lt _ _)) in H0 by lia. by replace (ch + (b - ch)) with b in H0 by lia. }
      destruct (move_at_rank ms (ch + c) Hso Hnn H1) as (t & Et). rewrite Hrk in Et. assert (0 <= j') by (rewrite <- Hrk; apply rank_bounds; lia).
      destruct (child_ok i q (Z.to_nat j') (ch + c) t Hs Et) as (m & Em & Sm). rewrite Z2Nat.id in Em by lia. fold base in Em. rewrite Em. cbn [rbind].
      eexists. split; [done|]. split; [|lia]. split; [lia|]. split; [rewrite !Z.shiftr_shiftr by lia; f_equal; lia|]. split.
      * rewrite rank_succ by lia. rewrite Hrk, H1. cbn. lia.
      * replace (Z.to_nat (j' + 1)) with (S (Z.to_nat j')) by lia. by eapply called_snoc.
Qed.
End bitmap.

Lemma for_each_move_ok i q : stands i q -> exists out, for_each_move d i = Ok out /\ Forall2 called out (au_moves au q).
Proof.
  intros Hs. unfold for_each_move. rewrite (children_of_ok i q Hs). cbn [rbind]. set (base := first_child au N (Z.to_nat i)).
  unfold MIN_FAST_SEARCH_BYTES, POPCNT_BYTES. set (n := moves_len au q). assert (Hn : 0 <= n) by (unfold n, moves_len; lia).
  destruct (Z.ltb_spec n 40) as [H40|H40].
  - destruct (for_inv (fun j out => Forall2 called out (take (Z.to_nat j) (au_moves au q)))
      (fun j out => let* child := resolve d (base + j) in let* ch := rd8b (m_label_data d) (base + j) in Ok (out ++ [(child, ch)])) 0 n []) as (out & E & F).
    + lia.
    + constructor.
    + intros j out Hj F. destruct (lookup_lt_is_Some_2 (au_moves au q) (Z.to_nat j)) as [[ch t] Et]; [unfold n, moves_len in *; lia|].
      destruct (child_ok i q (Z.to_nat j) ch t Hs Et) as (m & Em & Sm). rewrite Z2Nat.id in Em by lia. fold base in Em. rewrite Em. cbn [rbind].
      destruct (block_ok i q Hs) as ([P _] & Hb & Hl & Hm); [fold n; lia|]. fold base in P, Hb, Hl. fold n in Hl. unfold label_part in P.
      change (Z.of_nat (length (au_moves au q))) with n in P. rewrite (proj2 (Z.ltb_lt _ _)) in P by lia. specialize (P _ _ _ Et).
      rewrite Z2Nat.id in P by lia. rewrite rd8b_ok by lia. rewrite P. cbn [rbind]. eexists. split; [done|].
      replace (Z.to_nat (j + 1)) with (S (Z.to_nat j)) by lia. by eapply called_snoc.
    + rewrite E. exists out. split; [done|]. by rewrite firstn_all2 in F by (unfold n, moves_len; lia).
  - destruct (for_inv (fun k '(j, out) => walked q (32 * k) j out)
      (fun i0 '(j, out) => let* bm := rd32b (m_label_data d) (base + 8 + 4 * i0) in
        loop 33 (fun '(bm, ch, j, out) => if bm =? 0 then Ok (inr (j, out)) else
          let* ctz := fast_ctz bm in let* child := resolve d (base + j) in let ch := ch + ctz in
          Ok (inl (Z.shiftr (Z.shiftr bm ctz) 1, ch + 1, j + 1, out ++ [(child, ch)]))) (bm, i0 * 32, j, out)) 0 (sigma / 32) (0, [])) as ([j out] & E & Hj & F).
    + done.
    + split; [done|constructor].
    + intros k [j out] Hk Hw. change (sigma / 32) with 8 in Hk. destruct (block_ok i q Hs) as (_ & Hb & Hl & Hm); [fold n; lia|]. fold base n in Hb, Hl.
      rewrite rd32b_ok by lia. cbn [rbind]. destruct (word_loop_ok i q Hs H40 k j out Hk Hw) as ([j' out'] & E & Hw'). exists (j', out'). split; [exact E|done].
    + cbv zeta in E. rewrite E. cbn [rbind]. change (32 * (sigma / 32)) with 256 in Hj.
      assert (Hjn : j = n) by (rewrite Hj; by apply rank_all, (stands_reach i q)).
      rewrite Hjn, Z.eqb_refl. cbn [assert_ rbind]. exists out. split; [done|]. by rewrite firstn_all2 in F by (rewrite Hjn; unfold n, moves_len; lia).
Qed.

Lemma for_each_dest_ok i q : stands i q -> exists out, for_each_dest d i = Ok out /\ Forall2 stands out (map snd (au_moves au q)).
Proof.
  intros Hs. unfold for_each_dest. rewrite (children_of_ok i q Hs). cbn [rbind]. set (n := moves_len au q). assert (Hn : 0 <= n) by (unfold n, moves_len; lia).
  destruct (for_inv (fun j out => Forall2 stands out (take (Z.to_nat j) (map snd (au_moves au q))))
    (fun j out => let* child := resolve d (first_child au N (Z.to_nat i) + j) in Ok (out ++ [child])) 0 n []) as (out & E & F).
  - lia.
  - constructor.
  - intros j out Hj F. destruct (lookup_lt_is_Some_2 (au_moves au q) (Z.to_nat j)) as [[ch t] Et]; [unfold n, moves_len in *; lia|].
    destruct (child_ok i q (Z.to_nat j) ch t Hs Et) as (m & Em & Sm). rewrite Z2Nat.id in Em by lia. rewrite Em. cbn [rbind]. eexists. split; [done|].
    replace (Z.to_nat (j + 1)) with (S (Z.to_nat j)) by lia. rewrite (take_S_r _ _ t) by (by rewrite list_lookup_fmap, Et).
    apply Forall2_app; [done|]. constructor; [done|constructor].
  - rewrite E. exists out. split; [done|]. by rewrite firstn_all2 in F by (rewrite length_map; unfold n, moves_len; lia).
Qed.

Lemma for_each_dest_rev_ok i q : stands i q -> exists out, for_each_dest_rev d i = Ok out /\ Forall2 stands out (reverse (map snd (au_moves au q))).
Proof.
  intros Hs. unfold for_each_dest_rev. rewrite (children_of_ok i q Hs). cbn [rbind]. set (n := moves_len au q). assert (Hn : 0 <= n) by (unfold n, moves_len; lia).
  set (ts := map snd (au_moves au q)). assert (Lt : Z.of_nat (length ts) = n) by (unfold ts; by rewrite length_map).
  destruct (for_inv (fun j '(k, out) => k = n - j /\ Forall2 stands out (reverse (drop (Z.to_nat k) ts)))
    (fun _ '(k, out) => let* child := resolve d (first_child au N (Z.to_nat i) + (k - 1)) in Ok (k - 1, out ++ [child])) 0 n (n, [])) as ([k out] & E & Ek & F).
  - lia.
  - split; [lia|]. rewrite skipn_all2 by lia. constructor.
  - intros j [k out] Hj [-> F]. destruct (lookup_lt_is_Some_2 (au_moves au q) (Z.to_nat (n - j - 1))) as [[ch t] Et]; [unfold n, moves_len in *; lia|].
    destruct (child_ok i q _ ch t Hs Et) as (m & Em & Sm). rewrite Z2Nat.id in Em by lia. rewrite Em. cbn [rbind]. eexists. split; [done|]. split; [lia|].
    rewrite (drop_S ts t (Z.to_nat (n - j - 1))) by (unfold ts; by rewrite list_lookup_fmap, Et). rewrite reverse_cons.
    replace (S (Z.to_nat (n - j - 1))) with (Z.to_nat (n - j)) by lia. apply Forall2_app; [done|]. constructor; [done|constructor].
  - rewrite E. cbn [rbind]. exists out. split; [done|]. by replace (Z.to_nat k) with O in F by lia.
Qed.

(** What [accept] asserts of a node it moves to. *)
Lemma stands_checked i q : stands i q -> i <> nil_state /\ op_check (louds_ops d) i = Ok tt.
Proof.
  intros Hs. pose proof Hs as (Hi & nd & Hn & _). pose proof (node_range i nd Hi Hn). split; [unfold nil_state; lia|].
  cbn [op_check louds_ops]. pose proof total_states_ge. rewrite (proj2 (Z.ltb_lt i _)) by lia. cbn [assert_ rbind]. by apply (not_cross_ok i q).
Qed.
End query.
End LoudsQuery.
