(* ===== verification/LoudsAccept.v ===== *)
(** * Acceptance

    [ppi/accept.hpp] on any class whose operations simulate an automaton decides
    the language of that automaton. *)
From Stdlib Require Import Sorted.
From S2P Require Import Prelude Bits Febitvec Bytes RankSpec RankVec Louds LoudsInv LoudsQuery.
Import Febitvec Bytes RankSpec RankVec Louds LoudsInv LoudsQuery.

Module LoudsAccept.

(** The string in front of the moves of a state. *)
Definition path (au : Au) (q : Z) : list Z := if au_is_pzip au q then au_zpath au q else [].

(** The strings that lead from a state to an accepting one. *)
Inductive accepts (au : Au) : Z -> list Z -> Prop :=
| accepts_end q : au_is_term au q = true -> accepts au q (path au q)
| accepts_move q ch t w : In (ch, t) (au_moves au q) -> accepts au t w -> accepts au q (path au q ++ ch :: w).

Lemma match_zpath_ok str z i : 0 <= i -> 0 < Z.of_nat (length z) -> i + Z.of_nat (length z) <= Z.of_nat (length str) ->
  match_zpath str z i = Ok (bool_decide (take (length z) (drop (Z.to_nat i) str) = z)).
Proof.
  intros Hi Hz Hl. unfold match_zpath. set (w := drop (Z.to_nat i) str).
  destruct (loop_inv (fun j => 0 <= j < Z.of_nat (length z) /\ take (Z.to_nat j) w = take (Z.to_nat j) z)
    (fun j => Z.of_nat (length z) - j) (fun r => r = bool_decide (take (length z) w = z))
    (fun j => let* a := rd str (i + j) in let* b := rd z j in
      if negb (a =? b) then Ok (inr false) else if j + 1 <? Z.of_nat (length z) then Ok (inl (j + 1)) else Ok (inr true))
    (S (length z)) 0) as (r & E & ->).
  - split; [lia|done].
  - lia.
  - intros j [Hj P]. split; [lia|]. destruct (lookup_lt_is_Some_2 str (Z.to_nat (i + j))) as [a Ha]; [lia|].
    destruct (lookup_lt_is_Some_2 z (Z.to_nat j)) as [b Hb]; [lia|]. rewrite (rd_ok _ _ a), (rd_ok _ _ b) by (done || lia). cbn [rbind].
    assert (Hw : w !! Z.to_nat j = Some a) by (unfold w; rewrite lookup_drop, <- Ha; f_equal; lia).
    destruct (Z.eqb_spec a b) as [->|Hne]; cbn [negb].
    + assert (P' : take (Z.to_nat (j + 1)) w = take (Z.to_nat (j + 1)) z).
      { replace (Z.to_nat (j + 1)) with (S (Z.to_nat j)) by lia. by rewrite (take_S_r _ _ _ Hw), (take_S_r _ _ _ Hb), P. }
      destruct (Z.ltb_spec (j + 1) (Z.of_nat (length z))).
      * left. eexists. split; [done|]. split; [|lia]. split; [lia|done].
      * right. eexists. split; [done|]. symmetry. apply bool_decide_eq_true_2. replace (Z.to_nat (j + 1)) with (length z) in P' by lia. by rewrite firstn_all in P'.
    + right. eexists. split; [done|]. symmetry. apply bool_decide_eq_false_2. intros Eq.
      assert (take (length z) w !! Z.to_nat j = Some a) as Hta by (rewrite lookup_take_lt by lia; done). rewrite Eq, Hb in Hta. congruence.
  - exact E.
Qed.

Section simulation.
Context (au : Au) (A : automaton_ops) (R : Z -> Z -> Prop).
Context (sorted : forall i q, R i q -> StronglySorted Z.lt (map fst (au_moves au q))).
Context (root : R initial_state initial_state).
Context (pzip : forall i q, R i q -> op_is_pzip A i = Ok (au_is_pzip au q)).
Context (zpath : forall i q, R i q -> au_is_pzip au q = true -> op_zpath A i = Ok (au_zpath au q) /\ au_zpath au q <> []).
Context (term : forall i q, R i q -> op_is_term A i = Ok (au_is_term au q)).
Context (move : forall i q ch, R i q -> 0 <= ch < 256 -> exists m, op_state_move A i ch = Ok m /\
  ((m = nil_state /\ forall t, ~ In (ch, t) (au_moves au q)) \/
   (m <> nil_state /\ op_check A m = Ok tt /\ exists t, In (ch, t) (au_moves au q) /\ R m t))).

(** Accepting a string that goes on behind the path of a state. *)
Lemma accepts_cons q ch w : accepts au q (path au q ++ ch :: w) <-> exists t, In (ch, t) (au_moves au q) /\ accepts au t w.
Proof.
  split.
  - intros Ha. inversion Ha as [? _ E Ew|? ch' t w' Hin Hw E Ew]; subst.
    + symmetry in Ew. apply (f_equal length) in Ew. rewrite length_app in Ew. cbn in Ew. lia.
    + apply app_inv_head in Ew. injection Ew as -> ->. by exists t.
  - intros (t & Hin & Hw). by econstructor.
Qed.

Lemma accepts_prefix q w : accepts au q w -> take (length (path au q)) w = path au q.
Proof. intros Ha. inversion Ha; subst; [apply firstn_all|by rewrite take_app_length]. Qed.

Lemma accepts_here q : accepts au q (path au q) <-> au_is_term au q = true.
Proof.
  split; [|by constructor]. intros Ha. inversion Ha as [|? ch' t w' Hin Hw E Ew]; [done|].
  apply (f_equal length) in Ew. rewrite length_app in Ew. cbn in Ew. lia.
Qed.

Lemma unique_target i q ch t u : R i q -> In (ch, t) (au_moves au q) -> In (ch, u) (au_moves au q) -> t = u.
Proof.
  intros Hr Ht Hu. apply list_elem_of_In, list_elem_of_lookup in Ht as [j Ht]. apply list_elem_of_In, list_elem_of_lookup in Hu as [k Hu].
  pose proof (sorted i q Hr) as Hso. assert (F : forall n c v, au_moves au q !! n = Some (c, v) -> map fst (au_moves au q) !! n = Some c) by (intros n c v E; by rewrite list_lookup_fmap, E).
  destruct (Nat.lt_trichotomy j k) as [Hjk|[->|Hjk]].
  - pose proof (sorted_lookup _ j k _ _ Hso Hjk (F _ _ _ Ht) (F _ _ _ Hu)). lia.
  - congruence.
  - pose proof (sorted_lookup _ k j _ _ Hso Hjk (F _ _ _ Hu) (F _ _ _ Ht)). lia.
Qed.

(** The part of the loop before the move: the zpath of the state. *)
Lemma pass_zpath str i curr q : R curr q -> 0 <= i <= Z.of_nat (length str) ->
  exists r, (if au_is_pzip au q then
        let* z := op_zpath A curr in
        let* _ := assert_ (0 <? Z.of_nat (length z)) in
        if Z.of_nat (length str) <? i + Z.of_nat (length z) then Ok None
        else let* eq := match_zpath str z i in Ok (if eq then Some (i + Z.of_nat (length z)) else None)
      else Ok (Some i)) = Ok r /\
    match r with
    | None => ~ accepts au q (drop (Z.to_nat i) str)
    | Some i' => i <= i' <= Z.of_nat (length str) /\ drop (Z.to_nat i) str = path au q ++ drop (Z.to_nat i') str
    end.
Proof.
  intros Hr Hi. pose proof (accepts_prefix q (drop (Z.to_nat i) str)) as Hp. unfold path in Hp |- *.
  destruct (au_is_pzip au q) eqn:Ez; [|exists (Some i); split; [done|]; split; [lia|done]].
  destruct (zpath _ _ Hr Ez) as [-> Hne]. cbn [rbind]. set (z := au_zpath au q) in *. assert (Hz : 0 < Z.of_nat (length z)) by (destruct z; [done|cbn; lia]).
  rewrite (proj2 (Z.ltb_lt _ _) Hz). cbn [assert_ rbind]. destruct (Z.ltb_spec (Z.of_nat (length str)) (i + Z.of_nat (length z))) as [Hlt|Hge].
  - exists None. split; [done|]. intros Ha. apply Hp in Ha. apply (f_equal length) in Ha. rewrite length_take, length_drop in Ha. lia.
  - rewrite match_zpath_ok by lia. cbn [rbind]. eexists. split; [done|]. case_bool_decide as Heq; [|by intros Ha; apply Heq, Hp].
    split; [lia|]. rewrite <- (take_drop (length z) (drop (Z.to_nat i) str)), Heq, drop_drop. do 2 f_equal. lia.
Qed.

Lemma accept_ok str : bytes str -> exists b, accept A str = Ok b /\ (b = true <-> accepts au initial_state str).
Proof.
  intros Hb. unfold accept. cbv zeta.
  edestruct (loop_inv (fun '(curr, i) => 0 <= i <= Z.of_nat (length str) /\ exists q, R curr q /\
      (accepts au q (drop (Z.to_nat i) str) <-> accepts au initial_state str)) (fun '(_, i) => Z.of_nat (length str) - i)
    (fun b : bool => b = true <-> accepts au initial_state str)) as (b & E & Hq); [| | |exists b; split; [exact E|exact Hq]].
  - split; [lia|]. by exists initial_state.
  - lia.
  - intros [curr i] (Hi & q & Hr & Hacc). split; [lia|]. rewrite (pzip _ _ Hr). cbn [rbind]. destruct (pass_zpath str i curr q Hr Hi) as (r & -> & Hpass). cbn [rbind].
    destruct r as [i'|]; [|right; exists false; split; [done|]; split; [done|]; intros Ha; by apply Hacc in Ha]. destruct Hpass as [Hi' Ed].
    rewrite (proj2 (Z.leb_le _ _)) by lia. cbn [assert_ rbind]. rewrite Ed in Hacc. destruct (Z.eqb_spec (Z.of_nat (length str)) i') as [<-|Hne].
    + right. rewrite (term _ _ Hr). cbn [rbind]. eexists. split; [done|]. rewrite <- Hacc, skipn_all2 by lia. rewrite app_nil_r. by rewrite accepts_here.
    + destruct (lookup_lt_is_Some_2 str (Z.to_nat i')) as [ch Hch]; [lia|]. rewrite (rd_ok _ _ ch) by (done || lia). cbn [rbind].
      rewrite (drop_S _ _ _ Hch) in Hacc. rewrite (accepts_cons q ch) in Hacc.
      assert (Hc : 0 <= ch < 256) by (apply (proj1 (List.Forall_forall _ _) Hb), list_elem_of_In; by eapply list_elem_of_lookup_2).
      destruct (move curr q ch Hr Hc) as (m & -> & [(-> & Hno)|(Hm & Hck & t & Hin & Hrt)]); cbn [rbind].
      * right. rewrite Z.eqb_refl. exists false. split; [done|]. split; [done|]. intros Ha. apply Hacc in Ha as (t & Hin & _). by destruct (Hno t).
      * left. rewrite (proj2 (Z.eqb_neq nil_state m)) by congruence. rewrite Hck. cbn [rbind]. eexists. split; [done|]. split; [|lia]. split; [lia|].
        exists t. split; [done|]. rewrite <- Hacc. replace (Z.to_nat (i' + 1)) with (S (Z.to_nat i')) by lia. split; [by exists t|].
        intros (u & Hu & Hw). by rewrite (unique_target curr q ch t u Hr Hin Hu).
Qed.
End simulation.
End LoudsAccept.
