(* ===== verification/LoudsMmap.v ===== *)
(** * Saving, mapping and copying a [GenLoudsDFA]

    [prepare_save_mmap], [finish_load_mmap] with [fill_mmap_fmt], and the copy
    constructor, for automata without nested tries.  A file is the header's
    fields and the blocks; the bytes that follow a block in the file are an
    argument of [load], since later operations may reach them. *)
From S2P Require Import Prelude Bits Febitvec Bytes IntVec RankSpec RankVec Louds LoudsInv LoudsBuild LoudsQuery LoudsAccept.
Import Febitvec Bytes RankSpec RankVec Louds LoudsInv LoudsBuild LoudsQuery LoudsAccept.

Module LoudsMmap.

(** ** [IntVec]: mapping *)

Definition risk_set_data (data : list Z) (num bits : Z) : res IntVec.UintVecMin0 :=
  let* _ := assert_ (bits <=? 64) in
  (* [TERARK_VERIFY_EQ(Data, nullptr)] if [num] is 0; a block is no null pointer *)
  let* _ := IntVec.verify (negb (num =? 0)) in
  Ok (IntVec.UV (take (Z.to_nat (IntVec.compute_mem_size bits num / 8)) data) bits (IntVec.mask_of bits) num).

Definition zip_set_data (data : list Z) (num min_val bits : Z) : res IntVec.ZipIntVector :=
  let* v := risk_set_data data num bits in Ok (IntVec.Zip v min_val).

(** ** The file *)

Record file := File {
  h_transition_num : Z; h_total_states : Z; h_gnode_states : Z; h_zpath_states : Z; h_zpath_length : Z;
  h_numFreeStates : Z; h_min_cross_dst : Z; h_cross_dst_uintbits : Z; h_cache_ptrbit : Z; h_cache_states : Z;
  b_louds : list Z; b_is_pzip : list Z; b_is_term : list Z; b_cross_dst : list Z; b_is_cross_edge : list Z;
  b_label_data : list Z; b_zpath_index : list Z; b_cache : list Z }.

Section mmap.
Context {RS : Type} `{RankVec RS}.

(** [n] bytes at the start of an array *)
Definition read_bytes (m : list Z) (n : Z) : res (list Z) := if inside m 0 n then Ok (take (Z.to_nat n) m) else UB.

(** The fields and blocks, without the assertion about the cache. *)
Definition file_of (d : GenLoudsDFA (RS := RS)) (label : list Z) : file :=
  let dst := m_cross_edge_dst d in
  let cache := m_cache d in
  File (total_states d - 1) (total_states d) (v_gnode_states d) (m_zpath_states d) (m_total_zpath_len d)
    (IntVec.zip_size dst) (IntVec.m_min_val dst) (IntVec.m_bits (IntVec.z_vec dst))
    (IntVec.m_bits (IntVec.z_vec cache)) (IntVec.zip_size cache)
    (rv_data (m_louds d)) (rv_data (m_is_pzip d)) (take (Z.to_nat (num_words (m_is_term d))) (m_words (m_is_term d)))
    (IntVec.m_data (IntVec.z_vec dst)) (rv_data (m_is_cross_edge d)) label (rv_data (m_zpath_index d))
    (IntVec.m_data (IntVec.z_vec cache)).

Definition label_block (d : GenLoudsDFA (RS := RS)) : res (list Z) :=
  read_bytes (m_label_data d) (total_states d + mm_cmpestri_extra + (m_total_zpath_len d + 1)).

Definition save (d : GenLoudsDFA (RS := RS)) : res file :=
  let* _ := assert_ (IntVec.m_min_val (m_cache d) =? 0) in
  let* label := label_block d in
  Ok (file_of d label).

(** [finish_load_mmap]; [rest] follows the label block in the file. *)
Definition load (f : file) (rest : list Z) : res (GenLoudsDFA (RS := RS)) :=
  if 2 ^ 31 - 1 <=? h_transition_num f then Throw out_of_range else
  let* _ := assert_ (h_total_states f - 1 =? h_transition_num f) in
  let edges := h_transition_num f in
  let* louds := rv_mmap_from (b_louds f) in
  let* _ := assert_ (rs_size louds =? 2 * edges + 2) in
  let zpath_states := h_zpath_states f in
  let* is_pzip :=
    if negb (zpath_states =? 0) then
      let* v := rv_mmap_from (b_is_pzip f) in
      let* _ := assert_ (rs_size v =? edges + 1) in Ok v
    else Ok rv_empty in
  let is_term := FV (b_is_term f) (64 * Z.of_nat (length (b_is_term f))) in
  let* dst := zip_set_data (b_cross_dst f) (h_numFreeStates f) (h_min_cross_dst f) (h_cross_dst_uintbits f) in
  let* cross := rv_mmap_from (b_is_cross_edge f) in
  let* _ := assert_ (rs_size cross =? edges + 1) in
  let* _ := assert_ (Z.of_nat (length (IntVec.m_data (IntVec.z_vec dst))) <=? Z.of_nat (length (b_cross_dst f))) in
  let zpath_data := edges + mm_cmpestri_extra + 1 in
  let* zindex :=
    if negb (zpath_states =? 0) then
      let* v := rv_mmap_from (b_zpath_index f) in
      let* _ := assert_ (rs_size v =? h_zpath_length f - zpath_states + 1) in Ok v
    else Ok rv_empty in
  let* _ := assert_ (h_zpath_length f + 1 <=? Z.of_nat (length (b_label_data f)) - (edges + 1 + mm_cmpestri_extra)) in
  let* cache :=
    if negb (h_cache_ptrbit f =? 0) then
      let* v := zip_set_data (b_cache f) (h_cache_states f) 0 (h_cache_ptrbit f) in
      let* _ := assert_ (Z.of_nat (length (IntVec.m_data (IntVec.z_vec v))) <=? Z.of_nat (length (b_cache f))) in Ok v
    else Ok (IntVec.Zip IntVec.nullize 0) in
  let* _ := assert_ (rs_size cross =? h_total_states f) in
  Ok (Dfa louds is_pzip is_term dst cross (b_label_data f ++ rest) zpath_data zindex cache zpath_states (h_zpath_length f)).

(** The copy constructor; [cp] is that of the rank-select class, [rv_copy].  The cache is
    not copied. *)
Definition copy (cp : (nat -> Z) -> RS -> res RS) (junk : nat -> nat -> Z) (d : GenLoudsDFA (RS := RS)) : res (GenLoudsDFA (RS := RS)) :=
  let* louds := cp (junk 0%nat) (m_louds d) in
  let* is_pzip := cp (junk 1%nat) (m_is_pzip d) in
  let* cross := cp (junk 2%nat) (m_is_cross_edge d) in
  let* zindex := cp (junk 3%nat) (m_zpath_index d) in
  let label_size := total_states d + mm_cmpestri_extra in
  let* mem := read_bytes (m_label_data d) (label_size + (m_total_zpath_len d + 1)) in
  Ok (Dfa louds is_pzip (m_is_term d) (m_cross_edge_dst d) cross mem label_size zindex (IntVec.Zip IntVec.nullize 0)
        (m_zpath_states d) (m_total_zpath_len d)).
End mmap.

(** ** Reading back *)

Lemma zip_set_data_ok z l mn : least z l -> l <> [] -> IntVec.zip_size z = Z.of_nat (length l) ->
  zip_set_data (IntVec.m_data (IntVec.z_vec z)) (IntVec.zip_size z) mn (IntVec.m_bits (IntVec.z_vec z)) = Ok (IntVec.Zip (IntVec.z_vec z) mn).
Proof.
  intros (_ & _ & _ & Hb & Hm & Hs & _) Hne Hl. cbn zeta in *. specialize (Hs Hne). unfold zip_set_data, risk_set_data.
  rewrite (proj2 (Z.leb_le _ _)) by lia. cbn [assert_ rbind]. rewrite (proj2 (Z.eqb_neq _ _)) by (rewrite Hl; destruct l; [done|cbn; lia]). cbn [negb IntVec.verify rbind].
  destruct z as [[data bits mask size] mn']. unfold IntVec.zip_size, IntVec.mem_size in *. cbn [IntVec.z_vec IntVec.m_data IntVec.m_bits IntVec.m_mask IntVec.m_size IntVec.m_min_val] in *.
  rewrite <- Hs. rewrite Z.mul_comm, Z.div_mul by lia. rewrite Nat2Z.id, firstn_all. by rewrite Hm.
Qed.

Lemma read_bytes_all m n : n = Z.of_nat (length m) -> read_bytes m n = Ok m.
Proof. intros ->. unfold read_bytes. rewrite inside_ok by lia. by rewrite Nat2Z.id, firstn_all. Qed.

Lemma byte_at_app_l a b i : 0 <= i < Z.of_nat (length a) -> byte_at (a ++ b) i = byte_at a i.
Proof. intros Hi. unfold byte_at. by rewrite app_nth1 by lia. Qed.

(** The whole words of a bit vector. *)
Lemma whole_words v l : repr v l -> exists l',
  repr (FV (take (Z.to_nat (num_words v)) (m_words v)) (64 * Z.of_nat (length (take (Z.to_nat (num_words v)) (m_words v))))) l' /\
  len l' = align_bits (len l) /\ forall i, 0 <= i < len l -> lbit l' i = lbit l i.
Proof.
  intros [[Wv Sv] <-]. assert (Hl : len (bits v) = m_size v) by (apply len_bits; by split). rewrite Hl, align_bits_eq by lia.
  unfold num_words. replace (m_size v + 64 - 1) with (m_size v + 63) by lia. set (n := (m_size v + 63) / 64).
  pose proof (Z.div_mod (m_size v + 63) 64 ltac:(lia)). pose proof (Z.mod_pos_bound (m_size v + 63) 64 ltac:(lia)).
  unfold m_capacity in Sv. assert (Hn : 0 <= n <= Z.of_nat (length (m_words v))) by lia.
  set (ws := take (Z.to_nat n) (m_words v)). assert (Lw : Z.of_nat (length ws) = n) by (unfold ws; rewrite length_take; lia).
  assert (Hw : wf (FV ws (64 * Z.of_nat (length ws)))).
  { split; [unfold ws; by apply Forall_take|]. unfold m_capacity. cbn. split; [lia|done]. }
  exists (bits (FV ws (64 * Z.of_nat (length ws)))). split; [by split|]. split; [rewrite len_bits by done; cbn; lia|].
  intros i Hi. rewrite !lbit_bits by (cbn; lia). cbn [m_words]. unfold bit_at. f_equal.
  assert (0 <= i / 64 < n) by (split; [apply Z.div_pos; lia|apply Z.div_lt_upper_bound; lia]).
  unfold word_at. rewrite <- (take_drop (Z.to_nat n) (m_words v)). fold ws. by rewrite app_nth1 by lia.
Qed.

Section mapped.
Context {RS : Type} `{RV : RankVecLaws RS} (au : Au) (used : list Z) (Hau : au_ok au used).
Context (leaf : Z).
Let T : Z := au_total_transitions au.
Let Z_ : Z := au_total_zpath_len au.
Context (HT : 2 * T + 2 < 2 ^ 32).
Context (N : list node) (d : GenLoudsDFA (RS := RS)).

(** ** Automata that serve the same tree *)

Record alike (d d' : GenLoudsDFA (RS := RS)) : Prop := {
  al_louds : m_louds d' = m_louds d;
  al_cross : m_is_cross_edge d' = m_is_cross_edge d;
  al_dst : m_cross_edge_dst d' = m_cross_edge_dst d;
  al_pzip : au_num_zpath_states au <> 0 -> m_is_pzip d' = m_is_pzip d /\ m_zpath_index d' = m_zpath_index d;
  al_no_pzip : au_num_zpath_states au = 0 -> serves (m_is_pzip d') [];
  al_term : exists l l', repr (m_is_term d) l /\ repr (m_is_term d') l' /\ len l <= len l' /\ forall i, 0 <= i < len l -> lbit l' i = lbit l i;
  al_label : exists rest, m_label_data d' = m_label_data d ++ rest /\ bytes rest;
  al_zdata : m_zpath_data d' = m_zpath_data d;
  al_zlen : m_total_zpath_len d' = m_total_zpath_len d;
}.

Lemma repr_unique v l l' : repr v l -> repr v l' -> l = l'.
Proof. by intros [_ <-] [_ <-]. Qed.

Lemma alike_image cache_num d' : image au leaf cache_num N d -> alike d d' -> m_cache d' = IntVec.Zip IntVec.nullize 0 -> image au leaf 0 N d'.
Proof.
  intros Im [Ea Ec Ed Ep En (l1 & l2 & R1 & R2 & H12 & Hb) (rest & El & Br) Ez Ezl] Eca.
  destruct Im as [IL IH IN IR If Is Il Icr Ip It Id _ Ib Iroom Ilab Izd Izl Izb Izi]. split; try done.
  - by rewrite Ea.
  - by rewrite Ec.
  - unfold pz_bits in *. destruct (Z.eqb_spec (au_num_zpath_states au) 0) as [E0|E0]; [by apply En|]. by rewrite (proj1 (Ep E0)).
  - destruct It as (l & R & Hl & Ht). pose proof (repr_unique _ _ _ R1 R) as ->. exists l2. split; [done|]. split; [lia|].
    intros i Hi. rewrite Hb by lia. by apply Ht.
  - by rewrite Ed.
  - exists []. rewrite Eca. split; [by split|]. split; [|by split; [|intros i Hi; lia]]. repeat split; cbn; (done || lia || by intros []).
  - rewrite El. by apply Forall_app.
  - rewrite El, length_app. lia.
  - intros i q Hi. rewrite El. pose proof (Ilab i q Hi) as L. assert (Hc : 0 <= first_child au N i) by (unfold first_child; lia).
    eapply (label_ok_frame (m_label_data d) _ _ _ (first_child au N i) (first_child au N i)); [done| |done| |by right|done].
    2: { intros k Hk _. by apply byte_at_app_l. }
    pose proof (lookup_lt_Some _ _ _ Hi) as Hlt. pose proof (degs_take_le au N (S i) (length N) ltac:(lia)) as Hdg. rewrite (degs_take _ _ _ _ Hi), firstn_all in Hdg. cbn [mv] in Hdg.
    pose proof (f_equal length Is) as Esp. rewrite !length_map in Esp. unfold first_child, zd in *. unfold degs in *.
    destruct N; [done|]. cbn [tail length] in *. unfold T1 in IL. pose proof (T_nonneg au used Hau). pose proof (Z_nonneg au used Hau). unfold zd, mm_cmpestri_extra in Iroom. lia.
  - by rewrite Ez.
  - by rewrite Ezl.
  - intros i Hi. rewrite El. rewrite <- Izb by done. apply byte_at_app_l. unfold zd, mm_cmpestri_extra in *.
    pose proof (T_nonneg au used Hau).
    assert (Z.of_nat (length (concat (zs_of au N))) <= Z_); [|unfold Z_ in *; lia].
    by apply (zs_room au used Hau N IN (fun q => proj1 (IR q))).
  - intros H0. rewrite (proj2 (Ep H0)). by apply Izi.
Qed.

(** ** Save and load *)

Lemma no_cache : image au leaf 0 N d -> m_cache d = IntVec.Zip IntVec.nullize 0.
Proof. intros Im. destruct (im_cache _ _ _ _ _ Im) as (c & _ & L & Lc & _). destruct c; [|cbn in Lc; lia]. by apply L. Qed.

Lemma label_block_ok cache_num : image au leaf cache_num N d -> fresh au d -> label_block d = Ok (m_label_data d).
Proof.
  intros Im F. unfold label_block. apply read_bytes_all. rewrite (fr_total _ _ F), (fr_label _ _ F), (im_zlen _ _ _ _ _ Im). unfold zd. lia.
Qed.

Lemma save_ok : image au leaf 0 N d -> fresh au d -> save d = Ok (file_of d (m_label_data d)).
Proof. intros Im F. unfold save. rewrite (no_cache Im). cbn [IntVec.m_min_val Z.eqb assert_ rbind]. by rewrite (label_block_ok 0 Im F). Qed.

Lemma map_pzip cache_num : image au leaf cache_num N d -> fresh au d -> exists v,
  (if negb (m_zpath_states d =? 0) then
     let* v := rv_mmap_from (rv_data (m_is_pzip d)) in let* _ := assert_ (rs_size v =? T + 1) in Ok v
   else Ok rv_empty) = Ok v /\
  (au_num_zpath_states au <> 0 -> v = m_is_pzip d) /\ (au_num_zpath_states au = 0 -> serves v []).
Proof.
  intros Im F. rewrite (fr_zpaths _ _ F). pose proof (im_pzip _ _ _ _ _ Im) as S. unfold pz_bits in S. pose proof (T_nonneg au used Hau). fold T in H0.
  destruct (Z.eqb_spec (au_num_zpath_states au) 0) as [E0|E0]; cbn [negb].
  - exists rv_empty. split; [done|]. split; [done|]. intros _. apply law_empty_serves.
  - assert (Hl : len (nbits (pz_bit au) N (T1 au)) = T + 1) by (unfold len; rewrite nbits_length; unfold T1; fold T; lia).
    rewrite (serves_mmap _ _ S) by lia. cbn [rbind]. rewrite (serves_size _ _ S), Hl, Z.eqb_refl. eexists. by repeat split.
Qed.

Lemma map_zindex cache_num : image au leaf cache_num N d -> fresh au d -> exists v,
  (if negb (m_zpath_states d =? 0) then
     let* v := rv_mmap_from (rv_data (m_zpath_index d)) in let* _ := assert_ (rs_size v =? m_total_zpath_len d - m_zpath_states d + 1) in Ok v
   else Ok rv_empty) = Ok v /\ (au_num_zpath_states au <> 0 -> v = m_zpath_index d).
Proof.
  intros Im F. rewrite (fr_zpaths _ _ F). destruct (Z.eqb_spec (au_num_zpath_states au) 0) as [E0|E0]; cbn [negb]; [by exists rv_empty|].
  pose proof (im_zindex _ _ _ _ _ Im E0) as S. pose proof (zs_room au used Hau [] ltac:(constructor) ltac:(intros q Hq; by apply not_elem_of_nil in Hq)) as (_ & _ & R).
  cbn in R. assert (Hl : len (zbits au (zs_of au N)) = zsize au) by (apply zbits_len; lia).
  rewrite (serves_mmap _ _ S) by lia. cbn [rbind]. rewrite (serves_size _ _ S), Hl, (im_zlen _ _ _ _ _ Im). unfold zsize. rewrite Z.eqb_refl.
  eexists. by split.
Qed.

Lemma map_cache cache_num : image au leaf cache_num N d -> exists v,
  (let c := m_cache d in
   if negb (IntVec.m_bits (IntVec.z_vec c) =? 0) then
      let* v := zip_set_data (IntVec.m_data (IntVec.z_vec c)) (IntVec.zip_size c) 0 (IntVec.m_bits (IntVec.z_vec c)) in
      let* _ := assert_ (Z.of_nat (length (IntVec.m_data (IntVec.z_vec v))) <=? Z.of_nat (length (IntVec.m_data (IntVec.z_vec c)))) in Ok v
    else Ok (IntVec.Zip IntVec.nullize 0)) = Ok v /\
  v = if IntVec.m_bits (IntVec.z_vec (m_cache d)) =? 0 then IntVec.Zip IntVec.nullize 0 else IntVec.Zip (IntVec.z_vec (m_cache d)) 0.
Proof.
  intros Im. destruct (im_cache _ _ _ _ _ Im) as (c & [Sc _] & L & _). cbv zeta. destruct (Z.eqb_spec (IntVec.m_bits (IntVec.z_vec (m_cache d))) 0) as [E0|E0]; cbn [negb]; [eauto|].
  rewrite (zip_set_data_ok _ c _ L); [|intros ->; destruct L as (_ & _ & _ & _ & _ & _ & Hn); cbn zeta in Hn; rewrite (Hn eq_refl) in E0; done|done].
  cbn [rbind IntVec.z_vec]. rewrite Z.leb_refl. eauto.
Qed.

(** Loading what [save] stored: the verification of the empty vector fails, or
    the mapped object serves the same tree. *)
Lemma load_ok cache_num rest : image au leaf cache_num N d -> fresh au d -> bytes rest ->
  if IntVec.zip_size (m_cross_edge_dst d) =? 0 then load (RS := RS) (file_of d (m_label_data d)) rest = Throw terark_die
  else exists d', load (file_of d (m_label_data d)) rest = Ok d' /\ alike d d' /\ total_states d' = align_bits (T + 1) /\
    m_label_data d' = m_label_data d ++ rest /\
    m_cache d' = if IntVec.m_bits (IntVec.z_vec (m_cache d)) =? 0 then IntVec.Zip IntVec.nullize 0 else IntVec.Zip (IntVec.z_vec (m_cache d)) 0.
Proof.
  intros Im F Br. pose proof (T_nonneg au used Hau) as HT0. fold T in HT0.
  pose proof (im_louds _ _ _ _ _ Im) as Sl. pose proof (im_cross _ _ _ _ _ Im) as Sc.
  assert (Ll : len (louds_of au N) = 2 * T + 2) by (eapply louds_size; (done || exact Im)).
  assert (Lc : len (nbits (fun _ => is_cross) N (T1 au)) = T + 1) by (unfold len; rewrite nbits_length; unfold T1; fold T; lia).
  destruct (map_pzip cache_num Im F) as (pz & Epz & Hpz & Hpz0). destruct (map_zindex cache_num Im F) as (zi & Ezi & Hzi).
  destruct (im_dst _ _ _ _ _ Im) as (ds & _ & [Sd _] & Ld).
  unfold load, file_of. cbv zeta. cbn [h_transition_num h_total_states h_zpath_states h_zpath_length h_numFreeStates h_min_cross_dst
    h_cross_dst_uintbits h_cache_ptrbit h_cache_states b_louds b_is_pzip b_is_term b_cross_dst b_is_cross_edge b_label_data b_zpath_index b_cache].
  assert (Et : total_states d = T + 1) by apply (fr_total _ _ F). rewrite Et. replace (T + 1 - 1) with T by lia. rewrite (proj2 (Z.leb_gt _ _)) by lia. rewrite Z.eqb_refl. cbn [assert_ rbind].
  rewrite (serves_mmap _ _ Sl) by lia. cbn [rbind]. rewrite (serves_size _ _ Sl), Ll, Z.eqb_refl. cbn [assert_ rbind].
  rewrite Epz. cbn [rbind]. destruct (Z.eqb_spec (IntVec.zip_size (m_cross_edge_dst d)) 0) as [E0|E0].
  { unfold zip_set_data, risk_set_data. destruct Ld as (_ & _ & _ & Hb & _). rewrite (proj2 (Z.leb_le _ _)) by lia. cbn [assert_ rbind]. by rewrite E0. }
  rewrite (zip_set_data_ok _ ds _ Ld) by (done || (intros ->; rewrite Sd in E0; done)). cbn [rbind].
  rewrite (serves_mmap _ _ Sc) by lia. cbn [rbind]. rewrite (serves_size _ _ Sc), Lc, Z.eqb_refl, Z.leb_refl. cbn [assert_ rbind].
  rewrite Ezi. cbn [rbind]. rewrite (proj2 (Z.leb_le _ _)) by (rewrite (fr_label _ _ F), (im_zlen _ _ _ _ _ Im); unfold zd; lia). cbn [assert_ rbind].
  destruct (map_cache cache_num Im) as (vc & Evc0 & Evc). cbv zeta in Evc0. rewrite Evc0. cbn [rbind]. destruct (im_term _ _ _ _ _ Im) as (l & Rt & _ & _).
  destruct (whole_words _ _ Rt) as (l' & Rt' & Ll' & Hl'). pose proof (repr_size _ _ Rt) as St. pose proof (fr_total _ _ F) as Ft. unfold total_states in Ft. rewrite Ft in St.
  eexists. split; [done|]. split; [|split; [|split; [done|exact Evc]]].
  - split; cbn [m_louds m_is_cross_edge m_is_pzip m_is_term m_cross_edge_dst m_cache m_label_data m_zpath_data m_total_zpath_len m_zpath_index]; try done.
    + by destruct (m_cross_edge_dst d).
    + intros Hz. split; [by apply Hpz|by apply Hzi].
    + exists l, l'. split; [done|]. split; [done|]. rewrite Ll', align_bits_eq by lia. split; [|done].
      pose proof (Z.div_mod (len l + 63) 64 ltac:(lia)). pose proof (Z.mod_pos_bound (len l + 63) 64 ltac:(lia)). lia.
    + by exists rest.
    + rewrite (im_zdata _ _ _ _ _ Im). unfold zd. fold T. lia.
  - unfold total_states. cbn [m_is_term]. rewrite (repr_size _ _ Rt'), Ll', <- St. done.
Qed.

(** ** Copy *)

(** The bytes [copy] takes, and the member it sets from [total_states]. *)
Lemma louds_copy_ok (cp : (nat -> Z) -> RS -> res RS) junk d0 : (forall j t, t = m_louds d0 \/ t = m_is_pzip d0 \/ t = m_is_cross_edge d0 \/ t = m_zpath_index d0 -> cp j t = Ok t) ->
  let size := total_states d0 + mm_cmpestri_extra + (m_total_zpath_len d0 + 1) in
  copy cp junk d0 = if inside (m_label_data d0) 0 size
    then Ok (Dfa (m_louds d0) (m_is_pzip d0) (m_is_term d0) (m_cross_edge_dst d0) (m_is_cross_edge d0) (take (Z.to_nat size) (m_label_data d0))
           (total_states d0 + mm_cmpestri_extra) (m_zpath_index d0) (IntVec.Zip IntVec.nullize 0) (m_zpath_states d0) (m_total_zpath_len d0))
    else UB.
Proof. intros Hc. cbv zeta. unfold copy. rewrite !Hc by auto. cbn [rbind]. unfold read_bytes. by destruct (inside _ _ _). Qed.

(** Whether the copies of the four vectors are defined. *)
Definition can_copy (d0 : GenLoudsDFA (RS := RS)) : bool := rv_can_copy (m_louds d0) && rv_can_copy (m_is_pzip d0) && rv_can_copy (m_is_cross_edge d0) && rv_can_copy (m_zpath_index d0).

(** A copy has the bytes and the member, whatever becomes of the vectors. *)
Lemma copy_members (cp : (nat -> Z) -> RS -> res RS) junk (d0 d' : GenLoudsDFA (RS := RS)) : copy cp junk d0 = Ok d' -> let size := total_states d0 + mm_cmpestri_extra + (m_total_zpath_len d0 + 1) in
  inside (m_label_data d0) 0 size = true /\ m_label_data d' = take (Z.to_nat size) (m_label_data d0) /\ m_zpath_data d' = total_states d0 + mm_cmpestri_extra.
Proof.
  unfold copy. destruct (cp _ (m_louds d0)) as [v1| | |]; cbn [rbind]; [|done..]. destruct (cp _ (m_is_pzip d0)) as [v2| | |]; cbn [rbind]; [|done..]. destruct (cp _ (m_is_cross_edge d0)) as [v3| | |]; cbn [rbind]; [|done..]. destruct (cp _ (m_zpath_index d0)) as [v4| | |]; cbn [rbind]; [|done..].
  unfold read_bytes. destruct (inside _ _ _); [|done]. cbn [rbind]. by intros [= <-].
Qed.

Lemma can_copy_ok cp cache_num : image au leaf cache_num N d -> fresh au d -> rv_copy = Some cp -> can_copy d = true ->
  forall j t, t = m_louds d \/ t = m_is_pzip d \/ t = m_is_cross_edge d \/ t = m_zpath_index d -> cp j t = Ok t.
Proof.
  intros Im F Hcp Hc j t Ht. unfold can_copy in Hc. rewrite !andb_true_iff in Hc. destruct Hc as [[[C1 C2] C3] C4]. destruct (fr_zindex _ _ F) as [l Sz].
  destruct Ht as [->|[->|[->| ->]]]; [eapply (serves_copy _ _ (im_louds _ _ _ _ _ Im))|eapply (serves_copy _ _ (im_pzip _ _ _ _ _ Im))|eapply (serves_copy _ _ (im_cross _ _ _ _ _ Im))|eapply (serves_copy _ _ Sz)]; done.
Qed.

Lemma copy_alike cp junk cache_num : image au leaf cache_num N d -> fresh au d ->
  (forall j t, t = m_louds d \/ t = m_is_pzip d \/ t = m_is_cross_edge d \/ t = m_zpath_index d -> cp j t = Ok t) ->
  exists d', copy cp junk d = Ok d' /\ alike d d' /\ m_cache d' = IntVec.Zip IntVec.nullize 0.
Proof.
  intros Im F Hc. rewrite louds_copy_ok by done. cbv zeta. rewrite (fr_total _ _ F), (im_zlen _ _ _ _ _ Im). pose proof (fr_label _ _ F) as Ll.
  pose proof (T_nonneg au used Hau). pose proof (Z_nonneg au used Hau). unfold zd in Ll. unfold mm_cmpestri_extra in *.
  rewrite inside_ok by (unfold Z_ in *; lia). eexists. split; [done|]. split; [|done].
  split; cbn [m_louds m_is_cross_edge m_is_pzip m_is_term m_cross_edge_dst m_cache m_label_data m_zpath_data m_total_zpath_len m_zpath_index]; try done.
  - intros E0. pose proof (im_pzip _ _ _ _ _ Im) as S. unfold pz_bits in S. by rewrite E0 in S.
  - destruct (im_term _ _ _ _ _ Im) as (l & R & _). exists l, l. split; [done|]. split; [done|]. by split.
  - exists []. split; [|constructor]. rewrite app_nil_r. apply firstn_all2. unfold Z_ in *. lia.
  - rewrite (im_zdata _ _ _ _ _ Im). unfold zd, mm_cmpestri_extra. lia.
  - by rewrite (im_zlen _ _ _ _ _ Im).
Qed.

(** ** A cache that was mapped *)

Lemma cached_vec_zero v i x : 0 <= i -> IntVec.m_bits v = 0 -> IntVec.m_mask v = IntVec.mask_of (IntVec.m_bits v) -> IntVec.get v i = Ok x -> x = 0.
Proof.
  intros Hi Hb Hm. unfold IntVec.get, IntVec.fast_get, IntVec.load_get. rewrite Hm, Hb. destruct (i <? _); [|done]. cbn [assert_ rbind].
  destruct (IntVec.unaligned_load _ _) as [w| | |]; cbn [assert_ rbind]; try done. change (IntVec.mask_of 0) with 0. rewrite Z.land_0_r. by intros [= <-].
Qed.

(** The first entry is stored as 0, and with two entries the width is not 0. *)
Lemma cache_entry0 cache_num : image au leaf cache_num N d -> 1 <= cache_num -> IntVec.m_min_val (m_cache d) = 1 /\
  IntVec.get (IntVec.z_vec (m_cache d)) 0 = Ok 0 /\ 0 < IntVec.zip_size (m_cache d) /\ (2 <= cache_num -> IntVec.m_bits (IntVec.z_vec (m_cache d)) <> 0).
Proof.
  intros Im H1. destruct (im_cache _ _ _ _ _ Im) as (c & [Sz _] & (Hin & Hle & Hg & Hb & Hm & _) & Lc & Hc). cbn zeta in *.
  pose proof (Hc O ltac:(lia)) as C0. rewrite louds_length in C0. cbn in C0.
  assert (M1 : IntVec.m_min_val (m_cache d) = 1).
  { assert (IntVec.m_min_val (m_cache d) <= 1) by (apply Hle, list_elem_of_In; by eapply list_elem_of_lookup_2).
    assert (1 <= IntVec.m_min_val (m_cache d)); [|lia]. specialize (Hin ltac:(by intros ->)). apply list_elem_of_In, list_elem_of_lookup in Hin as [k Hk].
    pose proof (lookup_lt_Some _ _ _ Hk). rewrite (Hc k ltac:(lia)) in Hk. injection Hk as Hk. rewrite <- Hk. lia. }
  split; [done|]. pose proof (Hg O 1 C0) as G0. rewrite M1 in G0. split; [done|]. split; [rewrite Sz; lia|]. intros H2 Hb0.
  pose proof (Hc 1%nat ltac:(lia)) as C1. apply Hg in C1. eapply cached_vec_zero in C1; [|lia|done|done]. rewrite M1, louds_length in C1.
  pose proof (im_length _ _ _ _ _ Im) as HL. destruct N as [|n0 N']; [pose proof (im_head _ _ _ _ _ Im); done|]. cbn [take length] in C1. lia.
Qed.

(** The root of the mapped automaton has no moves. *)
Lemma mapped_cache_stuck cache_num d' ch : image au leaf cache_num N d -> 2 <= cache_num -> alike d d' ->
  m_cache d' = (if IntVec.m_bits (IntVec.z_vec (m_cache d)) =? 0 then IntVec.Zip IntVec.nullize 0 else IntVec.Zip (IntVec.z_vec (m_cache d)) 0) ->
  state_move d' initial_state ch = Ok nil_state.
Proof.
  intros Im H2 Al Ec. destruct (cache_entry0 cache_num Im ltac:(lia)) as (_ & G & Hs & Hb). rewrite (proj2 (Z.eqb_neq _ _)) in Ec by (by apply Hb).
  pose proof (T_nonneg au used Hau) as HT0. unfold state_move, not_cross. rewrite (al_cross _ _ Al). pose proof (im_cross _ _ _ _ _ Im) as Sc. pose proof (im_louds _ _ _ _ _ Im) as Sl.
  assert (Hp : 0 <= 0 < len (nbits (fun _ => is_cross) N (T1 au))) by (unfold len; rewrite nbits_length; unfold T1; lia).
  rewrite (serves_is1 _ _ Sc) by exact Hp. rewrite nbits_lbit by (unfold T1, initial_state; lia). change (Z.to_nat initial_state) with O. rewrite (im_head _ _ _ _ _ Im). cbn [is_cross negb assert_ rbind].
  unfold cached_pos. rewrite Ec. unfold IntVec.zip_size. cbn [IntVec.z_vec]. rewrite (proj2 (Z.ltb_lt _ _)) by exact Hs.
  unfold IntVec.zip_get. cbn [IntVec.z_vec IntVec.m_min_val]. unfold IntVec.zip_size. cbn [IntVec.z_vec]. rewrite (proj2 (Z.ltb_lt _ _)) by exact Hs. cbn [assert_ rbind].
  change initial_state with 0. rewrite G. cbn [rbind]. change (u64 (0 + 0)) with 0. rewrite (al_louds _ _ Al).
  rewrite (serves_run _ _ Sl 0 0); [|done|done| |intros i Hi; lia|done].
  - cbn [rbind]. unfold state_move_fast. cbn. done.
  - unfold len. rewrite louds_length. pose proof (im_length _ _ _ _ _ Im). unfold T1 in *. lia.
Qed.
End mapped.
End LoudsMmap.
