(* ===== verification/LoudsProps.v ===== *)
(** * Properties of the LOUDS automaton

    What [build_from] gives implements the source automaton: queries, iteration
    and acceptance; so do a mapped file of it and a copy.  The deviations found:
    mapping without cross edges aborts, a mapped automaton has another number of
    states, a cache is lost, and a first leaf that does not accept is taken for one
    that does. *)
From Stdlib Require Import Sorted.
From S2P Require Import Prelude Bits Febitvec Bytes IntVec RankSpec RankSe256 RankVec Louds LoudsInv LoudsBuild LoudsQuery LoudsAccept LoudsMmap.
Import Febitvec Bytes RankSpec RankVec Louds LoudsInv LoudsBuild LoudsQuery LoudsAccept LoudsMmap.

Module LoudsProps.

(** ** The contract of [GenLoudsDFA] *)

Section spec.
Context {RS : Type} `{RankVec RS}.

(** The target of a move, [nil_state] for none. *)
Definition leads (R : Z -> Z -> Prop) (m t : Z) : Prop := (t = nil_state /\ m = nil_state) \/ (t <> nil_state /\ R m t).

(** [d] implements [au]: [R i q] relates a tree node to the state it stands for. *)
Record implements (au : Au) (d : GenLoudsDFA (RS := RS)) (R : Z -> Z -> Prop) : Prop := {
  imp_root : R initial_state initial_state;
  imp_all : forall q, reach au q -> exists i, R i q;
  imp_reach : forall i q, R i q -> reach au q;
  imp_check : forall i q, R i q -> i <> nil_state /\ op_check (louds_ops d) i = Ok tt;
  imp_pzip : forall i q, R i q -> is_pzip d i = Ok (au_is_pzip au q);
  imp_term : forall i q, R i q -> is_term d i = Ok (au_is_term au q);
  imp_zpath : forall i q, R i q -> au_is_pzip au q = true -> get_zpath_data d i = Ok (au_zpath au q);
  imp_children : forall i q, R i q -> v_num_children d i = Ok (moves_len au q) /\ v_has_children d i = Ok (0 <? moves_len au q);
  imp_move : forall i q ch, R i q -> 0 <= ch < 256 -> exists m, state_move d i ch = Ok m /\ leads R m (au_state_move au q ch);
  imp_move_slow : forall i q ch, R i q -> 0 <= ch < 256 -> exists m c, state_move_slow d i ch = Ok (m, c) /\ leads R m (au_state_move au q ch);
  imp_each_move : forall i q, R i q -> exists out, for_each_move d i = Ok out /\
    Forall2 (fun o m => snd o = fst m /\ R (fst o) (snd m)) out (au_moves au q);
  imp_each_dest : forall i q, R i q -> exists out, for_each_dest d i = Ok out /\ Forall2 R out (map snd (au_moves au q));
  imp_each_dest_rev : forall i q, R i q -> exists out, for_each_dest_rev d i = Ok out /\ Forall2 R out (reverse (map snd (au_moves au q)));
}.
End spec.

Lemma image_implements {RS} `{RV : RankVecLaws RS} (au : Au) used leaf cache_num N (d : GenLoudsDFA (RS := RS)) :
  au_ok au used -> (reach au leaf -> au_moves au leaf = [] /\ au_is_pzip au leaf = false /\ au_is_term au leaf = true) ->
  2 * au_total_transitions au + 2 < 2 ^ 32 -> 0 <= cache_num <= au_total_transitions au -> image au leaf cache_num N d ->
  implements au d (stands leaf N).
Proof.
  intros Hau Hleaf HT Hc Im. split.
  - by apply (stands_root au leaf cache_num N d).
  - intros q Hq. apply (im_reach _ _ _ _ _ Im), list_elem_of_lookup in Hq as [i Hi]. exists (Z.of_nat i). split; [lia|]. exists (Tree q). by rewrite Nat2Z.id.
  - intros i q. by apply (stands_reach au leaf cache_num N d).
  - intros i q. by apply (stands_checked au used Hau leaf HT cache_num N d).
  - intros i q. by apply (is_pzip_ok au used Hau leaf Hleaf cache_num N d).
  - intros i q. by apply (is_term_ok au used Hau leaf Hleaf cache_num Hc N d).
  - intros i q. by apply (get_zpath_ok au used Hau leaf Hleaf cache_num Hc N d).
  - intros i q. by apply (v_children_ok au used Hau leaf Hleaf cache_num N d).
  - intros i q ch. by apply (state_move_ok au used Hau leaf Hleaf cache_num Hc N d).
  - intros i q ch Hs Hch. destruct (state_move_slow_ok au used Hau leaf Hleaf cache_num Hc N d Im i q ch Hs Hch) as (m & E & Hm). exists m. eauto.
  - intros i q. by apply (for_each_move_ok au used Hau leaf Hleaf cache_num Hc N d).
  - intros i q. by apply (for_each_dest_ok au used Hau leaf Hleaf cache_num Hc N d).
  - intros i q. by apply (for_each_dest_rev_ok au used Hau leaf Hleaf cache_num Hc N d).
Qed.

Lemma au_move_cases au used q ch : au_ok au used -> reach au q ->
  (au_state_move au q ch = nil_state /\ forall t, ~ In (ch, t) (au_moves au q)) \/
  (au_state_move au q ch <> nil_state /\ In (ch, au_state_move au q ch) (au_moves au q)).
Proof.
  intros Hau Hq. unfold au_state_move. destruct (List.find (fun m => fst m =? ch) (au_moves au q)) as [[c t]|] eqn:E.
  - apply List.find_some in E as [Hin He]. cbn in He. apply Z.eqb_eq in He as ->. right. split; [|done].
    apply (nil_out au used Hau). by eapply reach_move.
  - left. split; [done|]. intros t Hin. eapply List.find_none in E; [|exact Hin]. cbn in E. lia.
Qed.

Lemma implements_accepts {RS} `{RankVec RS} (au : Au) used (d : GenLoudsDFA (RS := RS)) R w : au_ok au used -> implements au d R -> bytes w ->
  exists b, accept (louds_ops d) w = Ok b /\ (b = true <-> accepts au initial_state w).
Proof.
  intros Hau I. apply (accept_ok au (louds_ops d) R); cbn [louds_ops op_is_pzip op_zpath op_is_term op_state_move].
  - intros i q Hr. by apply (ok_sorted _ _ Hau), (imp_reach _ _ _ I i).
  - apply (imp_root _ _ _ I).
  - apply (imp_pzip _ _ _ I).
  - intros i q Hr Hz. split; [by apply (imp_zpath _ _ _ I)|]. destruct (ok_zpath _ _ Hau q (imp_reach _ _ _ I i q Hr) Hz) as [Hl _]. intros E. by rewrite E in Hl.
  - apply (imp_term _ _ _ I).
  - intros i q ch Hr Hch. destruct (imp_move _ _ _ I i q ch Hr Hch) as (m & Em & Hm). exists m. split; [done|].
    destruct (au_move_cases au used q ch Hau (imp_reach _ _ _ I i q Hr)) as [[En Hno]|[En Hin]], Hm as [[Et ->]|[Et Hrm]]; try done.
    + by left.
    + right. destruct (imp_check _ _ _ I m _ Hrm) as [Hm Hck]. eauto.
Qed.

(** The source decides its own language. *)
Lemma au_accepts au used w : au_ok au used -> bytes w ->
  exists b, accept (au_ops au) w = Ok b /\ (b = true <-> accepts au initial_state w).
Proof.
  intros Hau. apply (accept_ok au (au_ops au) (fun i q => i = q /\ reach au q)); cbn [au_ops op_is_pzip op_zpath op_is_term op_state_move op_check].
  - intros i q [_ Hq]. by apply (ok_sorted _ _ Hau).
  - split; [done|constructor].
  - by intros i q [-> _].
  - intros i q [-> Hq] Hz. split; [done|]. destruct (ok_zpath _ _ Hau q Hq Hz) as [Hl _]. intros E. by rewrite E in Hl.
  - by intros i q [-> _].
  - intros i q ch [-> Hq] _. eexists. split; [done|]. destruct (au_move_cases au used q ch Hau Hq) as [[En Hno]|[En Hin]]; [by left|].
    right. split; [done|]. split; [done|]. eexists. split; [exact Hin|]. split; [done|]. by eapply reach_move.
Qed.

(** What the theorems assume of a call of [build_from]. *)
Definition in_bounds (au : Au) (cache_num : Z) : Prop :=
  2 * au_total_transitions au + 2 < 2 ^ 32 /\ au_total_zpath_len au < 2 ^ 32 - 1 /\ 0 <= cache_num <= au_total_transitions au.
Definition new_memory (junk : nat -> nat -> Z) (junkb : nat -> Z) : Prop :=
  (forall k j, word64 (junk k j)) /\ forall i, 0 <= junkb i < 256.

Lemma built {RS} `{RV : RankVecLaws RS} au used junk junkb junkc cache_num : au_ok au used -> new_memory junk junkb -> in_bounds au cache_num ->
  exists leaf N (d : GenLoudsDFA (RS := RS)), build_from junk junkb junkc au cache_num = Ok d /\
    (reach au leaf -> au_moves au leaf = [] /\ au_is_pzip au leaf = false /\ au_is_term au leaf = true) /\
    image au leaf cache_num N d /\ fresh au d.
Proof.
  intros Hau [Hj Hjb] (HT & HZ & Hc). destruct (the_leaf_ok au used Hau) as (leaf & El & Hleaf).
  destruct (louds_build_ok au used Hau leaf El junk Hj junkb junkc Hjb HT HZ cache_num Hc) as (N & d & E & Im & F). by exists leaf, N, d.
Qed.
(** The states the queries show, with the words of the first [n] bits. *)
Lemma align_ge n : 0 <= n -> n <= align_bits n /\ (n mod 64 <> 0 -> n < align_bits n) /\ align_bits n < n + 64.
Proof.
  intros Hn. rewrite align_bits_eq by done. pose proof (Z.div_mod (n + 63) 64 ltac:(lia)). pose proof (Z.mod_pos_bound (n + 63) 64 ltac:(lia)).
  pose proof (Z.div_mod n 64 ltac:(lia)). pose proof (Z.mod_pos_bound n 64 ltac:(lia)). nia.
Qed.

(** ** The properties *)

Section properties.
Context {RS : Type} `{RV : RankVecLaws RS} (au : Au) (used : list Z).
Context (junk : nat -> nat -> Z) (junkb junkc : nat -> Z).

(** C7: refinement.  For every acyclic automaton that meets the builder's
    contract, and whatever new memory contains, [build_from] terminates with an
    object, and [accept] terminates on every byte string and says what [accept] on
    the source automaton says: whether the string is in the language. *)
Theorem louds_accept_correct cache_num : au_ok au used -> new_memory junk junkb -> in_bounds au cache_num ->
  exists d : GenLoudsDFA (RS := RS), build_from junk junkb junkc au cache_num = Ok d /\
  forall w, bytes w -> exists b, accept (louds_ops d) w = Ok b /\ accept (au_ops au) w = Ok b /\ (b = true <-> accepts au initial_state w).
Proof.
  intros Hau Hm Hb. destruct (built au used junk junkb junkc cache_num Hau Hm Hb) as (leaf & N & d & E & Hleaf & Im & _). exists d. split; [done|].
  intros w Hw. destruct Hb as (HT & _ & Hc). pose proof (image_implements au used leaf cache_num N d Hau Hleaf HT Hc Im) as I.
  destruct (implements_accepts au used d _ w Hau I Hw) as (b & E1 & Hb1). destruct (au_accepts au used w Hau Hw) as (b' & E2 & Hb2).
  assert (b' = b) as -> by (destruct b, b'; intuition congruence). eauto.
Qed.

(** C8: functional.  Every query of the built object about a node gives what the
    source gives for its state, on every state and label: flags, zpath, children,
    both kinds of moves (absent labels included), and the three iterations give
    all moves in the order of the source. *)
Theorem louds_queries_correct cache_num : au_ok au used -> new_memory junk junkb -> in_bounds au cache_num ->
  exists (d : GenLoudsDFA (RS := RS)) R, build_from junk junkb junkc au cache_num = Ok d /\ implements au d R.
Proof.
  intros Hau Hm Hb. destruct (built au used junk junkb junkc cache_num Hau Hm Hb) as (leaf & N & d & E & Hleaf & Im & _).
  destruct Hb as (HT & _ & Hc). exists d, (stands leaf N). split; [done|]. by apply (image_implements au used leaf cache_num).
Qed.

(** C9: round trip.  The file of an object built without a cache of positions, mapped with
    any bytes behind its label block, gives an object that implements the source; except
    that an automaton without cross edges cannot be mapped: the empty vector's
    check of its data pointer aborts.  A copy of the object, with the vectors copied by the
    copy constructor of their class, implements the source whenever that constructor is
    defined on the four vectors: always for [rank_select_se], and for
    [rank_select_se_512] when each has a multiple of three lines ([can_copy]). *)
Theorem louds_mmap_roundtrip : au_ok au used -> new_memory junk junkb -> in_bounds au 0 ->
  exists (d : GenLoudsDFA (RS := RS)) f, build_from junk junkb junkc au 0 = Ok d /\ save d = Ok f /\
  (forall rest, bytes rest ->
     if IntVec.zip_size (m_cross_edge_dst d) =? 0 then load (RS := RS) f rest = Throw terark_die
     else exists d' R, load (RS := RS) f rest = Ok d' /\ implements au d' R) /\
  forall cp junks, rv_copy = Some cp -> can_copy d = true -> exists d' R, copy cp junks d = Ok d' /\ implements au d' R.
Proof.
  intros Hau Hm Hb. destruct (built au used junk junkb junkc 0 Hau Hm Hb) as (leaf & N & d & E & Hleaf & Im & F).
  destruct Hb as (HT & _ & Hc). exists d, (file_of d (m_label_data d)). split; [done|]. split; [by apply (save_ok au leaf N)|].
  assert (Imp : forall d', alike au d d' -> m_cache d' = IntVec.Zip IntVec.nullize 0 -> implements au d' (stands leaf N)).
  { intros d' Al Ec. apply (image_implements au used leaf 0); try done. by apply (alike_image au used Hau leaf N d 0). }
  split.
  - intros rest Br. pose proof (load_ok au used Hau leaf HT N d 0 rest Im F Br) as L. destruct (_ =? 0); [done|].
    destruct L as (d' & El & Al & _ & _ & Ec). exists d', (stands leaf N). split; [done|]. apply Imp; [done|].
    rewrite Ec. by rewrite (no_cache au leaf N d Im).
  - intros cp junks Hcp Hcan. destruct (copy_alike au used Hau leaf N d cp junks 0 Im F) as (d' & Ed & Al & Ec); [by apply (can_copy_ok au leaf N d cp 0)|]. exists d', (stands leaf N). split; [done|]. by apply Imp.
Qed.

(** error.  A mapped object counts the padding bits of [m_is_term] as states:
    [total_states] is rounded up to a multiple of 64.  Unless it was one already,
    saving the mapped object gives a file that cannot be mapped, and a copy of it
    looks for the zpaths behind their place. *)
Theorem louds_mapped_states : au_ok au used -> new_memory junk junkb -> in_bounds au 0 ->
  exists d : GenLoudsDFA (RS := RS), build_from junk junkb junkc au 0 = Ok d /\
  forall rest d', bytes rest -> load (RS := RS) (file_of d (m_label_data d)) rest = Ok d' ->
  total_states d' = align_bits (total_states d) /\
  (total_states d mod 64 <> 0 ->
    (forall f rest' d'', save d' = Ok f -> load (RS := RS) f rest' <> Ok d'') /\
    forall cp junks d'', copy cp junks d' = Ok d'' ->
      m_zpath_data d'' = m_zpath_data d' + (align_bits (total_states d) - total_states d) /\
      m_label_data d'' = take (length (m_label_data d'')) (m_label_data d')).
Proof.
  intros Hau Hm Hb. destruct (built au used junk junkb junkc 0 Hau Hm Hb) as (leaf & N & d & E & Hleaf & Im & F).
  destruct Hb as (HT & _ & Hc). exists d. split; [done|]. intros rest d' Br El. pose proof (load_ok au used Hau leaf HT N d 0 rest Im F Br) as L.
  destruct (_ =? 0); [congruence|]. destruct L as (d1 & El1 & Al & Et & Eld & _). rewrite El in El1. injection El1 as <-.
  pose proof (fr_total _ _ F) as Ft. rewrite Ft. split; [done|]. pose proof (T_nonneg au used Hau) as HT0.
  destruct (align_ge (au_total_transitions au + 1) ltac:(lia)) as (A1 & A2 & A3). intros Hmod. specialize (A2 Hmod). split.
  - intros f rest' d'' Ef El2. unfold save in Ef. destruct (assert_ _); cbn [rbind] in Ef; try done.
    destruct (label_block d') as [lab| | |]; cbn [rbind] in Ef; try done. injection Ef as <-. unfold load in El2. cbv zeta in El2.
    cbn [file_of h_transition_num h_total_states b_louds] in El2. destruct (2 ^ 31 - 1 <=? _); [done|]. rewrite Z.eqb_refl in El2. cbn [assert_ rbind] in El2.
    rewrite (al_louds _ _ _ Al) in El2. pose proof (im_louds _ _ _ _ _ Im) as Sl.
    assert (Ll : len (louds_of au N) = 2 * au_total_transitions au + 2) by (eapply louds_size; (done || exact Im)).
    rewrite (serves_mmap _ _ Sl) in El2 by lia. cbn [rbind] in El2. rewrite (serves_size _ _ Sl), Ll, Et in El2.
    rewrite (proj2 (Z.eqb_neq _ _)) in El2 by lia. done.
  - intros cp junks d'' Ec. destruct (copy_members cp junks d' d'' Ec) as (Ei & -> & ->). rewrite Et. rewrite (al_zdata _ _ _ Al), (im_zdata _ _ _ _ _ Im). unfold zd. split; [lia|].
    rewrite length_take. unfold inside in Ei. apply andb_prop in Ei as [_ Ei]. apply Z.leb_le in Ei. rewrite Et in Ei. f_equal. lia.
Qed.

(** error.  With a cache ([LOUDS_DFA_CACHE_RATIO]) the assertion of
    [prepare_save_mmap] about its minimum fails, which is 1.  Without the
    assertion the file's cache entries are one too small when mapped, and with two
    entries or more the root of the mapped automaton has no moves. *)
Theorem louds_cache_not_saved cache_num : au_ok au used -> new_memory junk junkb -> in_bounds au cache_num -> 1 <= cache_num ->
  exists d : GenLoudsDFA (RS := RS), build_from junk junkb junkc au cache_num = Ok d /\
  IntVec.m_min_val (m_cache d) = 1 /\ save d = UB /\
  forall rest d' ch, 2 <= cache_num -> bytes rest -> load (RS := RS) (file_of d (m_label_data d)) rest = Ok d' -> state_move d' initial_state ch = Ok nil_state.
Proof.
  intros Hau Hm Hb H1. destruct (built au used junk junkb junkc cache_num Hau Hm Hb) as (leaf & N & d & E & Hleaf & Im & F).
  destruct Hb as (HT & _ & Hc). exists d. split; [done|]. destruct (cache_entry0 au leaf N d cache_num Im H1) as (M1 & _). split; [done|].
  split; [unfold save; by rewrite M1|]. intros rest d' ch H2 Br El. pose proof (load_ok au used Hau leaf HT N d cache_num rest Im F Br) as L.
  destruct (_ =? 0); [congruence|]. destruct L as (d1 & El1 & Al & _ & _ & Ec). rewrite El in El1. injection El1 as <-.
  by apply (mapped_cache_stuck au used Hau leaf N d cache_num).
Qed.
End properties.

(** ** A sample: four states, a zpath, a state with 45 moves *)

Definition sample_moves (s : Z) : list (Z * Z) :=
  if s =? 0 then [(97, 1); (98, 2); (99, 1); (200, 3)]
  else if s =? 1 then [(98, 2); (100, 2)]
  else if s =? 3 then map (fun c => (5 * c + 1, if Z.even c then 2 else 1)) (seqZ 0 45)
  else [].
Definition sample_au : Au := {|
  au_total_states := 4; au_sigma := 256; au_is_dag := true; au_total_transitions := 51; au_num_used_states := 4;
  au_num_zpath_states := 1; au_total_zpath_len := 3; au_is_term := fun s => s =? 2; au_is_pzip := fun s => s =? 1;
  au_zpath := fun _ => [7; 8; 9]; au_moves := sample_moves |}.
Definition junk0 (_ _ : nat) : Z := 0xDEADBEEFDEADBEEF.

Lemma sample_states s : reach sample_au s -> s = 0 \/ s = 1 \/ s = 2 \/ s = 3.
Proof.
  intros Hr. induction Hr as [|s ch t Hr IH Hin]; [by left|]. cbn [au_moves sample_au] in Hin.
  assert (Hall : forallb (fun m => (1 <=? snd m) && (snd m <=? 3)) (sample_moves s) = true) by (destruct IH as [->|[->|[->| ->]]]; vm_compute; reflexivity).
  apply (proj1 (forallb_forall _ _) Hall) in Hin. cbn in Hin. apply andb_prop in Hin as [H1 H2]. apply Z.leb_le in H1, H2. lia.
Qed.

Lemma sample_reach : Forall (reach sample_au) [0; 1; 2; 3].
Proof.
  assert (H0 : reach sample_au 0) by constructor.
  assert (H1 : reach sample_au 1) by (apply (reach_move sample_au 0 97 1); [done|by left]).
  assert (H2 : reach sample_au 2) by (apply (reach_move sample_au 0 98 2); [done|by right; left]).
  assert (H3 : reach sample_au 3) by (apply (reach_move sample_au 0 200 3); [done|by do 3 right; left]).
  by repeat constructor.
Qed.

(** A decidable condition on the moves of every state. *)
Lemma sample_all (p : Z -> Z * Z -> bool) : forallb (fun s => forallb (p s) (sample_moves s)) [0; 1; 2; 3] = true ->
  forall s m, reach sample_au s -> In m (sample_moves s) -> p s m = true.
Proof.
  intros Hall s m Hr Hin. apply sample_states in Hr. assert (Hs : In s [0; 1; 2; 3]) by (cbn; intuition lia).
  apply (proj1 (forallb_forall _ _) Hall) in Hs. by apply (proj1 (forallb_forall _ _) Hs).
Qed.

Definition sample_depth (s : Z) : Z := if s =? 0 then 3 else if s =? 3 then 2 else if s =? 1 then 1 else 0.

Lemma sample_ok : au_ok sample_au [0; 1; 2; 3].
Proof.
  split; cbn [au_total_states au_sigma au_is_dag au_total_transitions au_num_used_states au_num_zpath_states au_total_zpath_len au_moves sample_au].
  - lia.
  - intros s ch t Hr Hin. pose proof (sample_all (fun _ m => (0 <=? fst m) && (fst m <? 256) && (0 <=? snd m) && (snd m <? 4)) eq_refl s _ Hr Hin) as H.
    cbn [fst snd] in H. repeat (apply andb_prop in H as [H ?]). lia.
  - intros s Hr. apply sample_states in Hr. destruct Hr as [->|[->|[->| ->]]]; cbn; repeat constructor; lia.
  - lia.
  - split; [done|]. exists sample_depth. intros s Hr. split.
    + apply sample_states in Hr. destruct Hr as [->|[->|[->| ->]]]; cbn; lia.
    + intros ch t Hin. pose proof (sample_all (fun s m => sample_depth (snd m) <? sample_depth s) eq_refl s _ Hr Hin). cbn [snd] in H. lia.
  - intros s E _. vm_compute in E. by injection E as <-.
  - split; [apply (NoDup_ListNoDup [0; 1; 2; 3]); repeat constructor; cbn; intuition lia|]. intros s. split.
    + intros Hs. by apply (proj1 (Forall_forall _ _) sample_reach), list_elem_of_In.
    + intros Hr. apply sample_states in Hr. apply list_elem_of_In. cbn. intuition lia.
  - done.
  - done.
  - done.
  - done.
  - intros s _ _. split; [cbn; lia|]. repeat constructor; lia.
Qed.

Lemma sample_memory : new_memory junk0 (fun _ => 77).
Proof. split; intros; unfold junk0, word64; lia. Qed.

(** Moves "a" and "b" to one leaf that does not accept. *)
Definition dead_au : Au := {|
  au_total_states := 2; au_sigma := 256; au_is_dag := true; au_total_transitions := 2; au_num_used_states := 2;
  au_num_zpath_states := 0; au_total_zpath_len := 0; au_is_term := fun _ => false; au_is_pzip := fun _ => false;
  au_zpath := fun _ => []; au_moves := fun s => if s =? 0 then [(97, 1); (98, 1)] else [] |}.

Lemma dead_leaf_rejects w : ~ accepts dead_au 1 w.
Proof. intros Ha. inversion Ha as [? Ht|? ch t w' Hin]; subst; [done|]. by cbn in Hin. Qed.

(** error.  [build_from] takes the first leaf for an accepting one without
    asking the source: the automaton of two moves to one leaf that does not accept
    has the empty language, and its LOUDS automaton accepts "b", the second move. *)
Theorem louds_dead_leaf_accepts :
  (forall w, ~ accepts dead_au initial_state w) /\
  exists d, build_from (RS := RankSe256.rank_select_se) junk0 (fun _ => 77) (fun _ => 9) dead_au 0 = Ok d /\
    accept (louds_ops d) [98] = Ok true /\ accept (louds_ops d) [97] = Ok false.
Proof.
  split.
  - intros w Ha. inversion Ha as [? Ht|? ch t w' Hin Hw]; subst; [done|]. apply (dead_leaf_rejects w').
    cbn in Hin. destruct Hin as [[= <- <-]|[[= <- <-]|[]]]; exact Hw.
  - eexists. split; [vm_compute; reflexivity|]. split; vm_compute; reflexivity.
Qed.

(** ** Witnesses *)

Lemma sample_bounds c : 0 <= c <= 51 -> in_bounds sample_au c.
Proof. unfold in_bounds. cbn. lia. Qed.

Lemma louds_accept_correct_witness : exists d : GenLoudsDFA (RS := RankSe256.rank_select_se),
  build_from junk0 (fun _ => 77) (fun _ => 9) sample_au 10 = Ok d /\
  forall w, bytes w -> exists b, accept (louds_ops d) w = Ok b /\ accept (au_ops sample_au) w = Ok b /\ (b = true <-> accepts sample_au initial_state w).
Proof.
  apply (louds_accept_correct (RS := RankSe256.rank_select_se) sample_au [0; 1; 2; 3] junk0 (fun _ => 77) (fun _ => 9) 10); [apply sample_ok|apply sample_memory|apply sample_bounds; lia].
Defined.

Lemma louds_queries_correct_witness : exists (d : GenLoudsDFA (RS := RankSe256.rank_select_se)) R,
  build_from junk0 (fun _ => 77) (fun _ => 9) sample_au 10 = Ok d /\ implements sample_au d R.
Proof.
  apply (louds_queries_correct (RS := RankSe256.rank_select_se) sample_au [0; 1; 2; 3] junk0 (fun _ => 77) (fun _ => 9) 10); [apply sample_ok|apply sample_memory|apply sample_bounds; lia].
Defined.

Lemma louds_mmap_roundtrip_witness : exists (d : GenLoudsDFA (RS := RankSe256.rank_select_se)) f,
  build_from junk0 (fun _ => 77) (fun _ => 9) sample_au 0 = Ok d /\ save d = Ok f /\
  (forall rest, bytes rest ->
     if IntVec.zip_size (m_cross_edge_dst d) =? 0 then load (RS := RankSe256.rank_select_se) f rest = Throw terark_die
     else exists d' R, load (RS := RankSe256.rank_select_se) f rest = Ok d' /\ implements sample_au d' R) /\
  exists d' R, copy (fun junk v => Ok (RankSe256.copy junk v)) junk0 d = Ok d' /\ implements sample_au d' R.
Proof.
  destruct (louds_mmap_roundtrip (RS := RankSe256.rank_select_se) sample_au [0; 1; 2; 3] junk0 (fun _ => 77) (fun _ => 9)) as (d & f & E & Ef & Hl & Hc); [apply sample_ok|apply sample_memory|apply sample_bounds; lia|].
  exists d, f. split; [exact E|]. split; [exact Ef|]. split; [exact Hl|]. apply Hc; reflexivity.
Defined.

Lemma louds_mapped_states_witness : exists d : GenLoudsDFA (RS := RankSe256.rank_select_se),
  build_from junk0 (fun _ => 77) (fun _ => 9) sample_au 0 = Ok d /\
  forall rest d', bytes rest -> load (RS := RankSe256.rank_select_se) (file_of d (m_label_data d)) rest = Ok d' ->
  total_states d' = align_bits (total_states d) /\
  (total_states d mod 64 <> 0 ->
    (forall f rest' d'', save d' = Ok f -> load (RS := RankSe256.rank_select_se) f rest' <> Ok d'') /\
    forall cp junks d'', copy cp junks d' = Ok d'' ->
      m_zpath_data d'' = m_zpath_data d' + (align_bits (total_states d) - total_states d) /\
      m_label_data d'' = take (length (m_label_data d'')) (m_label_data d')).
Proof.
  apply (louds_mapped_states (RS := RankSe256.rank_select_se) sample_au [0; 1; 2; 3] junk0 (fun _ => 77) (fun _ => 9)); [apply sample_ok|apply sample_memory|apply sample_bounds; lia].
Defined.

Lemma louds_cache_not_saved_witness : exists d : GenLoudsDFA (RS := RankSe256.rank_select_se),
  build_from junk0 (fun _ => 77) (fun _ => 9) sample_au 10 = Ok d /\
  IntVec.m_min_val (m_cache d) = 1 /\ save d = UB /\
  forall rest d' ch, 2 <= 10 -> bytes rest -> load (RS := RankSe256.rank_select_se) (file_of d (m_label_data d)) rest = Ok d' -> state_move d' initial_state ch = Ok nil_state.
Proof.
  apply (louds_cache_not_saved (RS := RankSe256.rank_select_se) sample_au [0; 1; 2; 3] junk0 (fun _ => 77) (fun _ => 9) 10); [apply sample_ok|apply sample_memory|apply sample_bounds; lia|lia].
Defined.

(** The sample's files evaluated: 23 cross edges; the mapped object has 64 states
    for 52, decides the same strings, and its copy misreads the zpath "7 8 9". *)
Example sample_file_evaluated :
  match build_from (RS := RankSe256.rank_select_se) junk0 (fun _ => 77) (fun _ => 9) sample_au 0 with
  | Ok d =>
      IntVec.zip_size (m_cross_edge_dst d) = 23 /\ calc_cross_edge_num (junk0 O) sample_au = Ok 23 /\ total_states d = 52 /\
      match save d with
      | Ok f =>
          match load (RS := RankSe256.rank_select_se) f (replicate 64 0) with
          | Ok d' =>
              total_states d' = 64 /\
              map (accept (louds_ops d')) [[98]; [97; 7; 8; 9; 98]; [97; 7; 8; 8; 98]; [200; 11]] = [Ok true; Ok true; Ok false; Ok true] /\
              match copy (fun junk v => Ok (RankSe256.copy junk v)) junk0 d' with Ok d'' => accept (louds_ops d'') [97; 7; 8; 9; 98] = Ok false | _ => False end
          | _ => False end
      | _ => False end
  | _ => False end.
Proof. vm_compute. repeat split. Qed.
End LoudsProps.
