(* ===== verification/CircularQueue.v ===== *)
(** * The circular queue

    [circular_queue.hpp]: a queue in a ring of [m_nlen] slots, one of which is
    always free.  A slot is [Some] when an element has been constructed in it,
    [None] when it is raw memory.  An iterator is the offset of its pointer from
    [m_vec].  [CapIsPower2] is the template argument of that name. *)
From S2P Require Import Prelude.

Module CircularQueue.

Section queue.
Context {A : Type} (CapIsPower2 : bool).

Record circular_queue := CQ {
  m_vec : list (option A);
  m_head : Z;
  m_tail : Z;
  m_nlen : Z
}.

Definition prev (q : circular_queue) (current : Z) : Z :=
  if CapIsPower2 then Z.land (current - 1) (m_nlen q - 1)
  else let i := current - 1 in if 0 <=? i then i else i + m_nlen q.

Definition next (q : circular_queue) (current : Z) : Z :=
  if CapIsPower2 then Z.land (current + 1) (m_nlen q - 1)
  else let i := current + 1 in if i <? m_nlen q then i else i - m_nlen q.

Definition prev_n (q : circular_queue) (current n : Z) : res Z :=
  let* _ := assert_ (n <? m_nlen q) in
  if CapIsPower2 then Ok (Z.land (current - n) (m_nlen q - 1))
  else let i := current - n in Ok (if 0 <=? i then i else i + m_nlen q).

Definition next_n (q : circular_queue) (current n : Z) : res Z :=
  let* _ := assert_ (n <? m_nlen q) in
  if CapIsPower2 then Ok (Z.land (current + n) (m_nlen q - 1))
  else let c := m_nlen q in let i := current + n in Ok (if i <? c then i else i - c).

(** The constructor with a capacity; [malloc] is whether there is memory. *)
Definition make (malloc : bool) (cap : Z) : res circular_queue :=
  let* _ := if CapIsPower2 && (negb (Z.land cap (cap - 1) =? 0) || (cap =? 0)) then Throw logic_error else Ok tt in
  if cap =? 0 then Ok (CQ [] 0 0 cap)
  else if malloc then Ok (CQ (replicate (Z.to_nat cap) None) 0 0 cap) else Throw bad_alloc.

Definition make_default : circular_queue := CQ [] 0 0 0.

Definition init (malloc : bool) (q : circular_queue) (cap : Z) : res circular_queue :=
  let* _ := assert_ (m_nlen q =? 0) in make malloc cap.

Definition empty (q : circular_queue) : bool := m_head q =? m_tail q.
Definition full (q : circular_queue) : bool := next q (m_tail q) =? m_head q.

Definition size (q : circular_queue) : Z :=
  if CapIsPower2 then Z.land (m_tail q - m_head q) (m_nlen q - 1)
  else if m_head q <=? m_tail q then m_tail q - m_head q else m_tail q + m_nlen q - m_head q.

Definition capacity (q : circular_queue) : Z := m_nlen q.

(** Reading a slot: its element has to be alive. *)
Definition slot (q : circular_queue) (i : Z) : res A :=
  let* x := rd (m_vec q) i in match x with Some v => Ok v | None => UB end.

(** [push_back] and [emplace_back]: construct in the slot, then step. *)
Definition push_back (q : circular_queue) (val : A) : res circular_queue :=
  let* _ := assert_ (negb (full q)) in
  let* vec := wr (m_vec q) (m_tail q) (Some val) in
  Ok (CQ vec (m_head q) (next q (m_tail q)) (m_nlen q)).

Definition front (q : circular_queue) : res A :=
  let* _ := assert_ (negb (empty q)) in slot q (m_head q).

(** [pop_front(val)]: what [val] gets, and the queue. *)
Definition pop_front_val (q : circular_queue) : res (A * circular_queue) :=
  let* _ := assert_ (negb (empty q)) in
  let* val := slot q (m_head q) in
  let* vec := wr (m_vec q) (m_head q) None in
  Ok (val, CQ vec (next q (m_head q)) (m_tail q) (m_nlen q)).

Definition pop_front (q : circular_queue) : res circular_queue :=
  let* _ := assert_ (negb (empty q)) in
  let* _ := slot q (m_head q) in
  let* vec := wr (m_vec q) (m_head q) None in
  Ok (CQ vec (next q (m_head q)) (m_tail q) (m_nlen q)).

Definition virtual_index (q : circular_queue) (real_index : Z) : res Z :=
  if CapIsPower2 then
    let i := Z.land (real_index - m_head q) (m_nlen q - 1) in
    let* _ := assert_ (i <=? size q) in Ok i
  else
    let i := real_index - m_head q in
    let i := if i <? 0 then i + m_nlen q else i in
    let* _ := assert_ (0 <=? i) in
    let* _ := assert_ (i <=? size q) in Ok i.

Definition real_index (q : circular_queue) (virtual_index : Z) : res Z :=
  let* _ := assert_ (0 <=? virtual_index) in
  let* _ := assert_ (virtual_index <=? size q) in
  if CapIsPower2 then Ok (Z.land (virtual_index + m_head q) (m_nlen q - 1))
  else let i := virtual_index + m_head q in Ok (if i <? m_nlen q then i else i - m_nlen q).

Definition head_real_index (q : circular_queue) : Z := m_head q.
Definition tail_real_index (q : circular_queue) : Z := m_tail q.

(** [while (count-- > 0) pop();] *)
Definition pop_times (pop : circular_queue -> res circular_queue) (count : Z) (q : circular_queue) : res circular_queue :=
  for_ 0 count (fun _ q => pop q) q.

Definition pop_lower (q : circular_queue) (ri : Z) : res circular_queue :=
  let* _ := assert_ (negb (empty q)) in
  let* v := virtual_index q ri in
  let count := v + 1 in
  let* _ := assert_ (count <=? size q) in
  pop_times pop_front count q.

Definition push_front (q : circular_queue) (val : A) : res circular_queue :=
  let* _ := assert_ (negb (full q)) in
  let head := prev q (m_head q) in
  let* vec := wr (m_vec q) head (Some val) in
  Ok (CQ vec head (m_tail q) (m_nlen q)).

Definition back (q : circular_queue) : res A :=
  let* _ := assert_ (negb (empty q)) in slot q (prev q (m_tail q)).

Definition pop_back_val (q : circular_queue) : res (A * circular_queue) :=
  let* _ := assert_ (negb (empty q)) in
  let tail := prev q (m_tail q) in
  let* val := slot q tail in
  let* vec := wr (m_vec q) tail None in
  Ok (val, CQ vec (m_head q) tail (m_nlen q)).

Definition pop_back (q : circular_queue) : res circular_queue :=
  let* _ := assert_ (negb (empty q)) in
  let tail := prev q (m_tail q) in
  let* _ := slot q tail in
  let* vec := wr (m_vec q) tail None in
  Ok (CQ vec (m_head q) tail (m_nlen q)).

Definition pop_upper (q : circular_queue) (ri : Z) : res circular_queue :=
  let* _ := assert_ (negb (empty q)) in
  let* v := virtual_index q ri in
  let count := size q - v in
  let* _ := assert_ (count <=? size q) in
  pop_times pop_back count q.

(** [while (!empty()) pop_front();] *)
Definition clear (q : circular_queue) : res circular_queue :=
  let* q' := loop (Z.to_nat (size q) + 1) (fun q => if empty q then Ok (inr q) else let* q' := pop_front q in Ok (inl q')) q in
  Ok (CQ (m_vec q') 0 0 (m_nlen q')).

(** The slot [operator[]] refers to; it can be read and assigned. *)
Definition index (q : circular_queue) (virtual_index : Z) : res Z :=
  let* _ := assert_ (0 <=? virtual_index) in
  let* _ := assert_ (virtual_index <? size q) in
  let c := m_nlen q in
  let i := m_head q + virtual_index in
  if CapIsPower2 then Ok (Z.land i (c - 1)) else Ok (if i <? c then i else i - c).

Definition get (q : circular_queue) (v : Z) : res A := let* i := index q v in slot q i.

Definition set (q : circular_queue) (v : Z) (x : A) : res circular_queue :=
  let* i := index q v in
  let* _ := slot q i in
  let* vec := wr (m_vec q) i (Some x) in Ok (CQ vec (m_head q) (m_tail q) (m_nlen q)).

(** Iterators. *)
Definition begin_ (q : circular_queue) : Z := m_head q.
Definition end_ (q : circular_queue) : Z := m_tail q.
Definition it_incr (q : circular_queue) (p : Z) : Z := next q p.
Definition it_decr (q : circular_queue) (p : Z) : Z := prev q p.
Definition it_deref (q : circular_queue) (p : Z) : res A := slot q p.
Definition it_lt (q : circular_queue) (p r : Z) : res bool :=
  let* i := virtual_index q p in let* j := virtual_index q r in Ok (i <? j).

(** [for (it = begin(); it != end(); ++it)], collecting the elements. *)
Definition elements (q : circular_queue) : res (list A) :=
  loop (Z.to_nat (size q) + 1) (fun '(p, acc) =>
    if p =? end_ q then Ok (inr (rev acc)) else
    let* x := it_deref q p in Ok (inl (it_incr q p, x :: acc))) (begin_ q, []).

End queue.
Arguments circular_queue : clear implicits.

(** ** Specification: a list of fewer than [m_nlen] elements *)

Section spec.
Context {A : Type} (CapIsPower2 : bool).
Implicit Types (q : circular_queue A) (l : list A).

(** A capacity the constructor takes, other than 0. *)
Definition cap_ok (n : Z) : Prop := if CapIsPower2 then exists k, 0 <= k /\ n = 2 ^ k else 0 < n.

(** The slots from [m_head] on hold the elements; the others hold none. *)
Record repr (q : circular_queue A) (l : list A) : Prop := {
  repr_cap : cap_ok (m_nlen q);
  repr_vec : Z.of_nat (length (m_vec q)) = m_nlen q;
  repr_head : 0 <= m_head q < m_nlen q;
  repr_len : Z.of_nat (length l) < m_nlen q;
  repr_tail : m_tail q = (m_head q + Z.of_nat (length l)) mod m_nlen q;
  repr_slot i : 0 <= i < m_nlen q -> m_vec q !! Z.to_nat ((m_head q + i) mod m_nlen q) = Some (l !! Z.to_nat i)
}.

Inductive op :=
| PushBack (x : A) | PushFront (x : A) | PopFront | PopBack | PopFrontVal | PopBackVal | Front | Back
| Get (v : Z) | Set_ (v : Z) (x : A) | PopLower (v : Z) | PopUpper (v : Z) | Clear | Size | Empty | Full | Elements.

Inductive out := ONone | OElem (x : A) | ONum (n : Z) | OBool (b : bool) | OList (l : list A).

(** The operations on the object; [PopLower] and [PopUpper] get the real index of
    the element with virtual index [v], the way a caller names an element. *)
Definition run (q : circular_queue A) (o : op) : res (circular_queue A * out) :=
  match o with
  | PushBack x => let* q' := push_back CapIsPower2 q x in Ok (q', ONone)
  | PushFront x => let* q' := push_front CapIsPower2 q x in Ok (q', ONone)
  | PopFront => let* q' := pop_front CapIsPower2 q in Ok (q', ONone)
  | PopBack => let* q' := pop_back CapIsPower2 q in Ok (q', ONone)
  | PopFrontVal => let* (x, q') := pop_front_val CapIsPower2 q in Ok (q', OElem x)
  | PopBackVal => let* (x, q') := pop_back_val CapIsPower2 q in Ok (q', OElem x)
  | Front => let* x := front q in Ok (q, OElem x)
  | Back => let* x := back CapIsPower2 q in Ok (q, OElem x)
  | Get v => let* x := get CapIsPower2 q v in Ok (q, OElem x)
  | Set_ v x => let* q' := set CapIsPower2 q v x in Ok (q', ONone)
  | PopLower v => let* ri := real_index CapIsPower2 q v in let* q' := pop_lower CapIsPower2 q ri in Ok (q', ONone)
  | PopUpper v => let* ri := real_index CapIsPower2 q v in let* q' := pop_upper CapIsPower2 q ri in Ok (q', ONone)
  | Clear => let* q' := clear CapIsPower2 q in Ok (q', ONone)
  | Size => Ok (q, ONum (size CapIsPower2 q))
  | Empty => Ok (q, OBool (empty q))
  | Full => Ok (q, OBool (full CapIsPower2 q))
  | Elements => let* l := elements CapIsPower2 q in Ok (q, OList l)
  end.

(** The same on the list, [None] where the precondition of the operation fails. *)
Definition run_spec (n : Z) (l : list A) (o : op) : option (list A * out) :=
  let len := Z.of_nat (length l) in
  match o with
  | PushBack x => if len + 1 <? n then Some (l ++ [x], ONone) else None
  | PushFront x => if len + 1 <? n then Some (x :: l, ONone) else None
  | PopFront => match l with [] => None | _ :: l' => Some (l', ONone) end
  | PopBack => match l !! (length l - 1)%nat with None => None | Some _ => Some (take (length l - 1) l, ONone) end
  | PopFrontVal => match l with [] => None | x :: l' => Some (l', OElem x) end
  | PopBackVal => match l !! (length l - 1)%nat with None => None | Some x => Some (take (length l - 1) l, OElem x) end
  | Front => match l with [] => None | x :: _ => Some (l, OElem x) end
  | Back => match l !! (length l - 1)%nat with None => None | Some x => Some (l, OElem x) end
  | Get v => if 0 <=? v then match l !! Z.to_nat v with Some x => Some (l, OElem x) | None => None end else None
  | Set_ v x => if (0 <=? v) && (v <? len) then Some (<[Z.to_nat v := x]> l, ONone) else None
  | PopLower v => if (0 <=? v) && (v <? len) then Some (drop (Z.to_nat v + 1) l, ONone) else None
  | PopUpper v => if (0 <=? v) && (v <=? len) && (0 <? len) then Some (take (Z.to_nat v) l, ONone) else None
  | Clear => Some ([], ONone)
  | Size => Some (l, ONum len)
  | Empty => Some (l, OBool (len =? 0))
  | Full => Some (l, OBool (len + 1 =? n))
  | Elements => Some (l, OList l)
  end.

Fixpoint exec (q : circular_queue A) (os : list op) : res (circular_queue A * list out) :=
  match os with
  | [] => Ok (q, [])
  | o :: os => let* (q', r) := run q o in let* (q'', rs) := exec q' os in Ok (q'', r :: rs)
  end.

Fixpoint exec_spec (n : Z) (l : list A) (os : list op) : option (list A * list out) :=
  match os with
  | [] => Some (l, [])
  | o :: os => match run_spec n l o with None => None | Some (l', r) =>
      match exec_spec n l' os with None => None | Some (l'', rs) => Some (l'', r :: rs) end end
  end.

(** ** Arithmetic of the ring *)

Lemma cap_pos n : cap_ok n -> 0 < n.
Proof. unfold cap_ok. destruct CapIsPower2; [intros (k & Hk & ->); lia|done]. Qed.

Lemma land_mod n x : CapIsPower2 = true -> cap_ok n -> Z.land x (n - 1) = x mod n.
Proof.
  unfold cap_ok. intros ->. intros (k & Hk & ->). replace (2 ^ k - 1) with (Z.ones k) by (rewrite Z.ones_equiv; lia).
  by apply Z.land_ones.
Qed.

Lemma mod_wrap x n : 0 < n -> 0 <= x < 2 * n -> x mod n = if x <? n then x else x - n.
Proof.
  intros. destruct (Z.ltb_spec x n); [apply Z.mod_small; lia|].
  replace x with (x - n + 1 * n) at 1 by ring. rewrite Z_mod_plus_full. apply Z.mod_small. lia.
Qed.

Lemma mod_wrap_neg x n : 0 < n -> - n <= x < n -> x mod n = if 0 <=? x then x else x + n.
Proof.
  intros. destruct (Z.leb_spec 0 x); [apply Z.mod_small; lia|].
  replace x with (x + n + (-1) * n) at 1 by ring. rewrite Z_mod_plus_full. apply Z.mod_small. lia.
Qed.

Lemma next_mod q c : cap_ok (m_nlen q) -> 0 <= c < m_nlen q -> next CapIsPower2 q c = (c + 1) mod m_nlen q.
Proof.
  intros H Hc. unfold next. destruct CapIsPower2 eqn:E; [by apply land_mod|].
  rewrite mod_wrap by lia. done.
Qed.

Lemma prev_mod q c : cap_ok (m_nlen q) -> 0 <= c < m_nlen q -> prev CapIsPower2 q c = (c - 1) mod m_nlen q.
Proof.
  intros H Hc. unfold prev. destruct CapIsPower2 eqn:E; [by apply land_mod|].
  rewrite mod_wrap_neg by lia. done.
Qed.

Lemma ring_inj n h i j : 0 <= i < n -> 0 <= j < n -> (h + i) mod n = (h + j) mod n -> i = j.
Proof.
  intros Hi Hj E. pose proof (Z.mod_eq (h + i) n ltac:(lia)). pose proof (Z.mod_eq (h + j) n ltac:(lia)).
  assert (i - j = n * ((h + i) / n - (h + j) / n)) as D by lia.
  destruct (Z.eq_dec ((h + i) / n - (h + j) / n) 0) as [Z|Z]; [rewrite Z in D; lia|]. nia.
Qed.

Lemma ring_shift n h i d : 0 < n -> ((h + d) mod n + i) mod n = (h + (i + d)) mod n.
Proof. intros. rewrite Zplus_mod_idemp_l. f_equal. lia. Qed.

(** ** The observers *)

Lemma repr_pos q l : repr q l -> 0 < m_nlen q.
Proof. intros H. apply cap_pos, (repr_cap _ _ H). Qed.

Lemma repr_tail_range q l : repr q l -> 0 <= m_tail q < m_nlen q.
Proof. intros H. rewrite (repr_tail _ _ H). apply Z.mod_pos_bound, (repr_pos _ _ H). Qed.

Lemma size_ok q l : repr q l -> size CapIsPower2 q = Z.of_nat (length l).
Proof.
  intros H. pose proof (repr_pos _ _ H). pose proof (repr_head _ _ H). pose proof (repr_len _ _ H). pose proof (repr_tail _ _ H) as T.
  unfold size. destruct CapIsPower2 eqn:E.
  - rewrite land_mod by (done || apply H). rewrite T, Zminus_mod_idemp_l.
    replace (m_head q + Z.of_nat (length l) - m_head q) with (Z.of_nat (length l)) by lia. apply Z.mod_small. lia.
  - rewrite mod_wrap in T by lia. destruct (Z.ltb_spec (m_head q + Z.of_nat (length l)) (m_nlen q));
      destruct (Z.leb_spec (m_head q) (m_tail q)); lia.
Qed.

Lemma empty_ok q l : repr q l -> empty q = (Z.of_nat (length l) =? 0).
Proof.
  intros H. pose proof (repr_head _ _ H). pose proof (repr_len _ _ H). unfold empty. rewrite (repr_tail _ _ H).
  destruct (Z.eqb_spec (Z.of_nat (length l)) 0) as [->|Hn]; [rewrite Z.add_0_r, Z.mod_small by lia; apply Z.eqb_refl|].
  apply Z.eqb_neq. intros E. apply Hn. apply (ring_inj (m_nlen q) (m_head q)); [lia..|].
  rewrite Z.add_0_r, <- E, Z.mod_small; lia.
Qed.

Lemma full_ok q l : repr q l -> full CapIsPower2 q = (Z.of_nat (length l) + 1 =? m_nlen q).
Proof.
  intros H. pose proof (repr_head _ _ H). pose proof (repr_len _ _ H). pose proof (repr_pos _ _ H).
  unfold full. rewrite next_mod by (apply H || by eapply repr_tail_range).
  rewrite (repr_tail _ _ H), Zplus_mod_idemp_l, <- Z.add_assoc.
  destruct (Z.eqb_spec (Z.of_nat (length l) + 1) (m_nlen q)) as [->|Hn].
  - apply Z.eqb_eq. replace (m_head q + m_nlen q) with (m_head q + 1 * m_nlen q) by ring. rewrite Z_mod_plus_full. apply Z.mod_small. lia.
  - apply Z.eqb_neq. intros E. assert (Z.of_nat (length l) + 1 = 0); [|lia].
    apply (ring_inj (m_nlen q) (m_head q)); [lia..|]. rewrite Z.add_0_r, E, Z.mod_small; lia.
Qed.

Lemma slot_ok q l i x : repr q l -> l !! Z.to_nat i = Some x -> 0 <= i -> slot q ((m_head q + i) mod m_nlen q) = Ok x.
Proof.
  intros H Hx Hi. pose proof (repr_pos _ _ H). pose proof (repr_len _ _ H). apply lookup_lt_Some in Hx as Hl.
  unfold slot. rewrite (rd_ok _ _ (Some x)); [done|apply Z.mod_pos_bound; lia|].
  rewrite (repr_slot _ _ H) by lia. by rewrite Hx.
Qed.

Lemma slot_head q x l : repr q (x :: l) -> slot q (m_head q) = Ok x.
Proof.
  intros H. rewrite <- (slot_ok q _ 0 x H) by done. f_equal. rewrite Z.add_0_r. symmetry. apply Z.mod_small, (repr_head _ _ H).
Qed.

(** Writing a slot: what every slot holds then, counted from the head. *)
Lemma wr_slot q l i y : repr q l ->
  exists vec, wr (m_vec q) ((m_head q + i) mod m_nlen q) y = Ok vec /\ Z.of_nat (length vec) = m_nlen q /\
    forall j, vec !! Z.to_nat ((m_head q + j) mod m_nlen q) =
      Some (if j mod m_nlen q =? i mod m_nlen q then y else l !! Z.to_nat (j mod m_nlen q)).
Proof.
  intros H. pose proof (repr_pos _ _ H). assert (forall k, 0 <= k mod m_nlen q < m_nlen q) as R
    by (intros; by apply Z.mod_pos_bound). pose proof (R (m_head q + i)). pose proof (repr_vec _ _ H).
  rewrite wr_ok by lia. eexists. split; [done|]. rewrite length_insert. split; [done|]. intros j. pose proof (R (m_head q + j)).
  rewrite <- (Zplus_mod_idemp_r j), <- (Zplus_mod_idemp_r i).
  destruct (Z.eqb_spec (j mod m_nlen q) (i mod m_nlen q)) as [->|Hne].
  - apply list_lookup_insert_eq. pose proof (R (m_head q + i mod m_nlen q)). lia.
  - rewrite list_lookup_insert_ne; [apply (repr_slot _ _ H), R|]. intros E. apply Hne, (ring_inj (m_nlen q) (m_head q)); [apply R..|].
    pose proof (R (m_head q + i mod m_nlen q)). pose proof (R (m_head q + j mod m_nlen q)). lia.
Qed.

(** ** The operations that change the queue *)

Ltac ring_cases := repeat match goal with
  | |- context [Z.ltb ?a ?b] => destruct (Z.ltb_spec a b)
  | |- context [Z.leb ?a ?b] => destruct (Z.leb_spec a b)
  | |- context [Z.eqb ?a ?b] => destruct (Z.eqb_spec a b) end.

Lemma cq_push_back_ok q l x : repr q l -> Z.of_nat (length l) + 1 < m_nlen q ->
  exists q', push_back CapIsPower2 q x = Ok q' /\ repr q' (l ++ [x]) /\ m_nlen q' = m_nlen q.
Proof.
  intros H Hl. pose proof (repr_pos _ _ H) as Hp. unfold push_back. rewrite (full_ok _ _ H), (proj2 (Z.eqb_neq _ _)) by lia. cbn [negb assert_ rbind].
  destruct (wr_slot q l (Z.of_nat (length l)) (Some x) H) as (vec & E & Lv & Hv).
  rewrite <- (repr_tail _ _ H) in E. rewrite E. cbn [rbind]. eexists. split; [done|]. split; [|done].
  split; cbn [m_vec m_head m_tail m_nlen]; [apply H|done|apply H|rewrite length_app; cbn; lia| |].
  - rewrite next_mod, (repr_tail _ _ H), length_app, Zplus_mod_idemp_l by (apply H || by eapply repr_tail_range). f_equal. cbn. lia.
  - intros i Hi. rewrite Hv, !Z.mod_small by lia. f_equal. destruct (Z.eqb_spec i (Z.of_nat (length l))) as [->|Hne].
    + rewrite Nat2Z.id. by rewrite list_lookup_middle.
    + destruct (decide (i < Z.of_nat (length l))); [by rewrite lookup_app_l by lia|].
      rewrite !lookup_ge_None_2; [done|rewrite ?length_app; cbn; lia..].
Qed.

Lemma push_front_ok q l x : repr q l -> Z.of_nat (length l) + 1 < m_nlen q ->
  exists q', push_front CapIsPower2 q x = Ok q' /\ repr q' (x :: l) /\ m_nlen q' = m_nlen q.
Proof.
  intros H Hl. pose proof (repr_pos _ _ H) as Hp. unfold push_front. rewrite (full_ok _ _ H), (proj2 (Z.eqb_neq _ _)) by lia. cbn [negb assert_ rbind].
  rewrite prev_mod by apply H. destruct (wr_slot q l (-1) (Some x) H) as (vec & E & Lv & Hv).
  change (m_head q - 1) with (m_head q + -1). rewrite E. cbn [rbind]. eexists. split; [done|]. split; [|done].
  split; cbn [m_vec m_head m_tail m_nlen]; [apply H|done|by apply Z.mod_pos_bound|cbn [length]; lia| |].
  - rewrite ring_shift, (repr_tail _ _ H) by lia. f_equal. cbn [length]. lia.
  - intros i Hi. rewrite ring_shift, Hv by lia. f_equal. rewrite !(mod_wrap_neg _ (m_nlen q)) by lia.
    ring_cases; try lia.
    + replace (Z.to_nat i) with (S (Z.to_nat (i + -1))) by lia. done.
    + replace i with 0 by lia. done.
Qed.

Lemma pop_front_val_ok q x l : repr q (x :: l) ->
  exists q', pop_front_val CapIsPower2 q = Ok (x, q') /\ pop_front CapIsPower2 q = Ok q' /\ repr q' l /\ m_nlen q' = m_nlen q.
Proof.
  intros H. pose proof (repr_pos _ _ H) as Hp. pose proof (repr_len _ _ H) as Hl. cbn [length] in Hl. unfold pop_front_val, pop_front.
  rewrite (empty_ok _ _ H), (proj2 (Z.eqb_neq _ _)) by (cbn [length]; lia). cbn [negb assert_ rbind].
  rewrite (slot_head _ _ _ H). cbn [rbind]. destruct (wr_slot q _ 0 None H) as (vec & E & Lv & Hv).
  rewrite Z.add_0_r, (Z.mod_small (m_head q)) in E by apply H. rewrite E. cbn [rbind].
  eexists. split; [done|]. split; [done|]. split; [|done]. rewrite next_mod by apply H.
  split; cbn [m_vec m_head m_tail m_nlen]; [apply H|done|by apply Z.mod_pos_bound|lia| |].
  - rewrite ring_shift, (repr_tail _ _ H) by lia. f_equal. cbn [length]. lia.
  - intros i Hi. rewrite ring_shift, Hv by lia. f_equal. rewrite (Z.mod_small 0), mod_wrap by lia.
    ring_cases; try lia.
    + replace (Z.to_nat (i + 1)) with (S (Z.to_nat i)) by lia. done.
    + rewrite lookup_ge_None_2 by lia. done.
Qed.

Lemma pop_back_val_ok q l x : repr q (l ++ [x]) ->
  exists q', back CapIsPower2 q = Ok x /\ pop_back_val CapIsPower2 q = Ok (x, q') /\ pop_back CapIsPower2 q = Ok q' /\ repr q' l /\ m_nlen q' = m_nlen q.
Proof.
  intros H. pose proof (repr_pos _ _ H) as Hp. pose proof (repr_len _ _ H) as Hl. rewrite length_app in Hl. cbn [length] in Hl.
  unfold back, pop_back_val, pop_back. rewrite (empty_ok _ _ H), (proj2 (Z.eqb_neq _ _)) by (rewrite length_app; cbn [length]; lia).
  cbn [negb assert_ rbind]. rewrite prev_mod by (apply H || by eapply repr_tail_range).
  assert ((m_tail q - 1) mod m_nlen q = (m_head q + Z.of_nat (length l)) mod m_nlen q) as ->.
  { rewrite (repr_tail _ _ H), Zminus_mod_idemp_l, length_app. f_equal. cbn [length]. lia. }
  rewrite (slot_ok _ _ _ x H) by (rewrite ?Nat2Z.id; lia || by apply list_lookup_middle). cbn [rbind].
  destruct (wr_slot q _ (Z.of_nat (length l)) None H) as (vec & E & Lv & Hv). rewrite E. cbn [rbind].
  eexists. split; [done|]. split; [done|]. split; [done|]. split; [|done].
  split; cbn [m_vec m_head m_tail m_nlen]; [apply H|done|apply H|lia|done|].
  intros i Hi. rewrite Hv, !Z.mod_small by lia. f_equal. ring_cases.
  - symmetry. apply lookup_ge_None_2. lia.
  - destruct (decide (i < Z.of_nat (length l))); [by rewrite lookup_app_l by lia|].
    rewrite !lookup_ge_None_2; [done|rewrite ?length_app; cbn; lia..].
Qed.

(** ** Indices and iterators *)

Lemma real_index_ok q l v : repr q l -> real_index CapIsPower2 q v =
  if (0 <=? v) && (v <=? Z.of_nat (length l)) then Ok ((m_head q + v) mod m_nlen q) else UB.
Proof.
  intros H. pose proof (repr_pos _ _ H). pose proof (repr_len _ _ H). pose proof (repr_head _ _ H).
  unfold real_index. rewrite (size_ok _ _ H). destruct (Z.leb_spec 0 v); [|done]. cbn [assert_ rbind andb].
  destruct (Z.leb_spec v (Z.of_nat (length l))); [|done]. cbn [assert_ rbind]. destruct CapIsPower2 eqn:E.
  - f_equal. rewrite (Z.add_comm v). apply land_mod; [done|apply H].
  - rewrite mod_wrap by lia. by rewrite (Z.add_comm v).
Qed.

Lemma virtual_index_ok q l v : repr q l -> 0 <= v <= Z.of_nat (length l) ->
  virtual_index CapIsPower2 q ((m_head q + v) mod m_nlen q) = Ok v.
Proof.
  intros H Hv. pose proof (repr_pos _ _ H). pose proof (repr_len _ _ H). pose proof (repr_head _ _ H).
  unfold virtual_index. rewrite (size_ok _ _ H). destruct CapIsPower2 eqn:E.
  - rewrite land_mod, Zminus_mod_idemp_l by (done || apply H).
    replace (m_head q + v - m_head q) with v by lia. rewrite Z.mod_small by lia.
    destruct (Z.leb_spec v (Z.of_nat (length l))); [done|lia].
  - rewrite mod_wrap by lia. assert ((let i := (if m_head q + v <? m_nlen q then m_head q + v else m_head q + v - m_nlen q) - m_head q in
      if i <? 0 then i + m_nlen q else i) = v) as Ev by (cbv zeta; ring_cases; lia).
    cbv zeta in *. rewrite Ev. destruct (Z.leb_spec 0 v); [|lia]. destruct (Z.leb_spec v (Z.of_nat (length l))); [done|lia].
Qed.

Lemma index_ok q l v : repr q l -> index CapIsPower2 q v =
  if (0 <=? v) && (v <? Z.of_nat (length l)) then Ok ((m_head q + v) mod m_nlen q) else UB.
Proof.
  intros H. pose proof (repr_pos _ _ H). pose proof (repr_len _ _ H). pose proof (repr_head _ _ H).
  unfold index. rewrite (size_ok _ _ H). destruct (Z.leb_spec 0 v); [|done]. cbn [assert_ rbind andb].
  destruct (Z.ltb_spec v (Z.of_nat (length l))); [|done]. cbn [assert_ rbind]. destruct CapIsPower2 eqn:E.
  - f_equal. apply land_mod; [done|apply H].
  - rewrite mod_wrap by lia. done.
Qed.

Lemma cq_get_ok q l v : repr q l -> get CapIsPower2 q v =
  if 0 <=? v then match l !! Z.to_nat v with Some x => Ok x | None => UB end else UB.
Proof.
  intros H. unfold get. rewrite (index_ok _ _ _ H). destruct (Z.leb_spec 0 v); [|done]. cbn [andb].
  destruct (l !! Z.to_nat v) as [x|] eqn:E; destruct (Z.ltb_spec v (Z.of_nat (length l))) as [L|L]; cbn [rbind]; try done.
  - by apply (slot_ok _ _ _ _ H).
  - apply lookup_lt_Some in E. lia.
  - apply lookup_ge_None_1 in E. lia.
Qed.

Lemma cq_set_ok q l v x : repr q l -> 0 <= v < Z.of_nat (length l) ->
  exists q', set CapIsPower2 q v x = Ok q' /\ repr q' (<[Z.to_nat v := x]> l) /\ m_nlen q' = m_nlen q.
Proof.
  intros H Hv. pose proof (repr_pos _ _ H). pose proof (repr_len _ _ H). unfold set.
  rewrite (index_ok _ _ _ H), (proj2 (Z.leb_le _ _)), (proj2 (Z.ltb_lt _ _)) by lia. cbn [andb rbind].
  destruct (lookup_lt_is_Some_2 l (Z.to_nat v)) as [y Hy]; [lia|]. rewrite (slot_ok _ _ _ _ H Hy) by lia. cbn [rbind].
  destruct (wr_slot q l v (Some x) H) as (vec & E & Lv & Hw). rewrite E. cbn [rbind]. eexists. split; [done|]. split; [|done].
  split; cbn [m_vec m_head m_tail m_nlen]; rewrite ?length_insert; try apply H; [done|].
  intros i Hi. rewrite Hw, !Z.mod_small by lia. f_equal. destruct (Z.eqb_spec i v) as [->|Hne].
  - by rewrite list_lookup_insert_eq by lia.
  - by rewrite list_lookup_insert_ne by lia.
Qed.

(** ** The loops *)

Lemma pop_front_times q l n : repr q l -> 0 <= n <= Z.of_nat (length l) ->
  exists q', pop_times (pop_front CapIsPower2) n q = Ok q' /\ repr q' (drop (Z.to_nat n) l) /\ m_nlen q' = m_nlen q.
Proof.
  intros H Hn. unfold pop_times.
  destruct (for_inv (fun i p => repr p (drop (Z.to_nat i) l) /\ m_nlen p = m_nlen q) (fun _ p => pop_front CapIsPower2 p) 0 n q) as (q' & E & R).
  - lia.
  - done.
  - intros i p Hi [Hp Np]. destruct (lookup_lt_is_Some_2 l (Z.to_nat i)) as [x Hx]; [lia|].
    rewrite (drop_S _ _ _ Hx) in Hp. destruct (pop_front_val_ok _ _ _ Hp) as (p' & _ & E & Hp' & N).
    exists p'. split; [done|]. rewrite Z2Nat.inj_add, Nat.add_1_r by lia. split; [done|congruence].
  - eauto.
Qed.

Lemma pop_back_times q l n : repr q l -> 0 <= n <= Z.of_nat (length l) ->
  exists q', pop_times (pop_back CapIsPower2) n q = Ok q' /\ repr q' (take (length l - Z.to_nat n) l) /\ m_nlen q' = m_nlen q.
Proof.
  intros H Hn. unfold pop_times.
  destruct (for_inv (fun i p => repr p (take (length l - Z.to_nat i) l) /\ m_nlen p = m_nlen q) (fun _ p => pop_back CapIsPower2 p) 0 n q) as (q' & E & R).
  - lia.
  - rewrite Nat.sub_0_r, firstn_all. done.
  - intros i p Hi [Hp Np]. destruct (lookup_lt_is_Some_2 l (length l - Z.to_nat (i + 1))) as [x Hx]; [lia|].
    replace (length l - Z.to_nat i)%nat with (S (length l - Z.to_nat (i + 1))) in Hp by lia.
    rewrite (take_S_r _ _ _ Hx) in Hp. destruct (pop_back_val_ok _ _ _ Hp) as (p' & _ & _ & E & Hp' & N).
    exists p'. split; [done|]. split; [done|congruence].
  - eauto.
Qed.

Lemma repr_reset q : repr q [] -> repr (CQ (m_vec q) 0 0 (m_nlen q)) [].
Proof.
  intros H. pose proof (repr_pos _ _ H) as Hp. split; cbn [m_vec m_head m_tail m_nlen length]; [apply H..|lia|apply H|by rewrite Z.mod_0_l by lia|].
  intros i Hi. pose proof (repr_slot _ _ H ((i - m_head q) mod m_nlen q) ltac:(by apply Z.mod_pos_bound)) as S.
  rewrite Zplus_mod_idemp_r in S. by replace (m_head q + (i - m_head q)) with (0 + i) in S by lia.
Qed.

Lemma cq_clear_ok q l : repr q l -> exists q', clear CapIsPower2 q = Ok q' /\ repr q' [] /\ m_nlen q' = m_nlen q.
Proof.
  intros H. unfold clear. rewrite (size_ok _ _ H).
  destruct (loop_inv (fun p => exists l', repr p l' /\ m_nlen p = m_nlen q) (fun p => size CapIsPower2 p) (fun p => repr p [] /\ m_nlen p = m_nlen q)
    (fun p => if empty p then Ok (inr p) else let* p' := pop_front CapIsPower2 p in Ok (inl p'))
    (Z.to_nat (Z.of_nat (length l)) + 1) q) as (q' & E & Hq' & N).
  - eauto.
  - rewrite (size_ok _ _ H). lia.
  - intros p (l' & Hp & N). rewrite (size_ok _ _ Hp), (empty_ok _ _ Hp). split; [lia|]. destruct l' as [|x l'].
    + right. eauto.
    + left. destruct (pop_front_val_ok _ _ _ Hp) as (p' & _ & E & Hp' & N'). cbn [length]. rewrite (proj2 (Z.eqb_neq _ _)) by lia.
      rewrite E. cbn [rbind]. eexists. split; [done|]. rewrite (size_ok _ _ Hp'). split; [|lia]. exists l'. split; [done|congruence].
  - rewrite E. cbn [rbind]. eexists. split; [done|]. split; [by apply repr_reset|done].
Qed.

Lemma elements_ok q l : repr q l -> elements CapIsPower2 q = Ok l.
Proof.
  intros H. pose proof (repr_pos _ _ H). pose proof (repr_len _ _ H). unfold elements. rewrite (size_ok _ _ H).
  edestruct (loop_inv (fun '(p, acc) => exists i, 0 <= i <= Z.of_nat (length l) /\ p = (m_head q + i) mod m_nlen q /\ acc = rev (take (Z.to_nat i) l))
    (fun '(p, acc) => Z.of_nat (length l) - Z.of_nat (length acc)) (fun r => r = l)) as (r & E & ->).
  4: exact E.
  - exists 0. split; [lia|]. split; [|done]. rewrite Z.add_0_r. symmetry. apply Z.mod_small, H.
  - cbn [length]. lia.
  - intros [p acc] (i & Hi & -> & ->). rewrite length_rev, length_take. split; [lia|]. unfold end_. rewrite (repr_tail _ _ H).
    destruct (Z.eqb_spec ((m_head q + i) mod m_nlen q) ((m_head q + Z.of_nat (length l)) mod m_nlen q)) as [Ei|Ei].
    + right. apply ring_inj in Ei; [|lia..]. eexists. split; [done|]. rewrite rev_involutive. apply firstn_all2. lia.
    + left. destruct (lookup_lt_is_Some_2 l (Z.to_nat i)) as [x Hx].
      { destruct (Z.eq_dec i (Z.of_nat (length l))); [subst; done|lia]. }
      apply lookup_lt_Some in Hx as Hl. unfold it_deref. rewrite (slot_ok _ _ _ _ H Hx) by lia. cbn [rbind]. eexists. split; [done|]. split.
      * exists (i + 1). split; [lia|]. unfold it_incr. rewrite next_mod by (apply H || by apply Z.mod_pos_bound).
        rewrite Zplus_mod_idemp_l, <- Z.add_assoc. split; [done|]. replace (Z.to_nat (i + 1)) with (S (Z.to_nat i)) by lia.
        by rewrite (take_S_r _ _ _ Hx), rev_app_distr.
      * cbn [length]. rewrite length_rev, length_take. lia.
Qed.

(** ** Refinement *)

Lemma run_refines q l o : repr q l ->
  match run_spec (m_nlen q) l o with
  | Some (l', r) => exists q', run q o = Ok (q', r) /\ repr q' l' /\ m_nlen q' = m_nlen q
  | None => run q o = UB
  end.
Proof.
  intros H. pose proof (repr_len _ _ H) as Hl. pose proof (repr_pos _ _ H).
  assert (l = [] -> empty q = true) as He by (intros ->; by rewrite (empty_ok _ _ H)).
  assert (l <> [] -> exists l' x, l = l' ++ [x]) as Hlast by (intros; destruct (exists_last H1) as (l' & x & ->); eauto).
  assert (Hful : Z.of_nat (length l) + 1 = m_nlen q -> full CapIsPower2 q = true) by (intros; rewrite (full_ok _ _ H); by apply Z.eqb_eq).
  destruct o; cbn [run run_spec].
  - destruct (Z.ltb_spec (Z.of_nat (length l) + 1) (m_nlen q)).
    + destruct (cq_push_back_ok q l x H) as (q' & -> & ?); [done|]. cbn [rbind]. eauto.
    + unfold push_back. rewrite Hful by lia. done.
  - destruct (Z.ltb_spec (Z.of_nat (length l) + 1) (m_nlen q)).
    + destruct (push_front_ok q l x H) as (q' & -> & ?); [done|]. cbn [rbind]. eauto.
    + unfold push_front. rewrite Hful by lia. done.
  - destruct l as [|x l]; [unfold pop_front; by rewrite He|].
    destruct (pop_front_val_ok q x l H) as (q' & _ & -> & ?). cbn [rbind]. eauto.
  - destruct (decide (l = [])) as [->|Hn]; [unfold pop_back; by rewrite He|]. destruct (Hlast Hn) as (l' & x & ->).
    rewrite length_app, Nat.add_sub, list_lookup_middle, take_app_length by done.
    destruct (pop_back_val_ok q l' x H) as (q' & _ & _ & -> & ?). cbn [rbind]. eauto.
  - destruct l as [|x l]; [unfold pop_front_val; by rewrite He|].
    destruct (pop_front_val_ok q x l H) as (q' & -> & _ & ?). cbn [rbind]. eauto.
  - destruct (decide (l = [])) as [->|Hn]; [unfold pop_back_val; by rewrite He|]. destruct (Hlast Hn) as (l' & x & ->).
    rewrite length_app, Nat.add_sub, list_lookup_middle, take_app_length by done.
    destruct (pop_back_val_ok q l' x H) as (q' & _ & -> & _ & ?). cbn [rbind]. eauto.
  - destruct l as [|x l]; unfold front; [by rewrite He|]. rewrite (slot_head _ _ _ H), (empty_ok _ _ H), (proj2 (Z.eqb_neq _ _)) by (cbn [length]; lia).
    cbn [negb assert_ rbind]. eauto.
  - destruct (decide (l = [])) as [->|Hn]; [unfold back; by rewrite He|]. destruct (Hlast Hn) as (l' & x & ->).
    rewrite length_app, Nat.add_sub, list_lookup_middle by done.
    destruct (pop_back_val_ok q l' x H) as (q' & -> & _). cbn [rbind]. eauto.
  - rewrite (cq_get_ok _ _ _ H). destruct (0 <=? v); [|done]. destruct (l !! Z.to_nat v); cbn [rbind]; eauto.
  - destruct (Z.leb_spec 0 v); destruct (Z.ltb_spec v (Z.of_nat (length l))) as [L|L]; cbn [andb];
      [destruct (cq_set_ok q l v x H) as (q' & -> & ?); [lia|]; cbn [rbind]; eauto|..];
      unfold set; rewrite (index_ok _ _ _ H); (rewrite (proj2 (Z.leb_gt 0 v)) by lia) || rewrite (proj2 (Z.ltb_ge v _)), andb_false_r by lia; done.
  - rewrite (real_index_ok _ _ _ H). destruct (Z.leb_spec 0 v); [|done]. cbn [andb].
    destruct (Z.ltb_spec v (Z.of_nat (length l))) as [L|L]; destruct (Z.leb_spec v (Z.of_nat (length l))) as [L'|L']; try done; try lia; cbn [rbind];
      unfold pop_lower; rewrite (virtual_index_ok _ _ _ H), (size_ok _ _ H), (empty_ok _ _ H) by lia.
    + rewrite (proj2 (Z.eqb_neq _ _)) by lia. cbn [negb assert_ rbind]. rewrite (proj2 (Z.leb_le _ _)) by lia. cbn [assert_ rbind].
      destruct (pop_front_times q l (v + 1) H) as (q' & -> & Hr & ?); [lia|]. cbn [rbind]. rewrite Z2Nat.inj_add in Hr by lia. eauto.
    + destruct (Z.of_nat (length l) =? 0); [done|]. cbn [negb assert_ rbind]. by rewrite (proj2 (Z.leb_gt _ _)) by lia.
  - rewrite (real_index_ok _ _ _ H). destruct (Z.leb_spec 0 v); [|done]. cbn [andb].
    destruct (Z.leb_spec v (Z.of_nat (length l))) as [L'|L']; [|done]. cbn [andb rbind].
    unfold pop_upper; rewrite (virtual_index_ok _ _ _ H), (size_ok _ _ H), (empty_ok _ _ H) by lia.
    destruct (Z.ltb_spec 0 (Z.of_nat (length l))) as [L|L].
    + rewrite (proj2 (Z.eqb_neq _ _)) by lia. cbn [negb assert_ rbind]. rewrite (proj2 (Z.leb_le _ _)) by lia. cbn [assert_ rbind].
      destruct (pop_back_times q l (Z.of_nat (length l) - v) H) as (q' & -> & Hr & ?); [lia|]. cbn [rbind].
      replace (length l - Z.to_nat (Z.of_nat (length l) - v))%nat with (Z.to_nat v) in Hr by lia. eauto.
    + rewrite (proj2 (Z.eqb_eq _ _)) by lia. done.
  - destruct (cq_clear_ok q l H) as (q' & -> & ?). cbn [rbind]. eauto.
  - rewrite (size_ok _ _ H). eauto.
  - rewrite (empty_ok _ _ H). eauto.
  - rewrite (full_ok _ _ H). eauto.
  - rewrite (elements_ok _ _ H). cbn [rbind]. eauto.
Qed.

Lemma exec_refines_from os : forall q l, repr q l ->
  match exec_spec (m_nlen q) l os with
  | Some (l', rs) => exists q', exec q os = Ok (q', rs) /\ repr q' l'
  | None => exec q os = UB
  end.
Proof.
  induction os as [|o os IH]; intros q l H; cbn [exec exec_spec]; [eauto|].
  pose proof (run_refines q l o H) as R. destruct (run_spec (m_nlen q) l o) as [[l1 r]|]; [|by rewrite R].
  destruct R as (q1 & -> & H1 & N1). cbn [rbind]. specialize (IH q1 l1 H1). rewrite N1 in IH.
  destruct (exec_spec (m_nlen q) l1 os) as [[l2 rs]|]; [|by rewrite IH]. destruct IH as (q2 & -> & H2). cbn [rbind]. eauto.
Qed.

Lemma land_pred_pow2 n : (negb (Z.land n (n - 1) =? 0) || (n =? 0)) = false <-> exists k, 0 <= k /\ n = 2 ^ k.
Proof.
  split.
  - intros [E1%negb_false_iff%Z.eqb_eq E2%Z.eqb_neq]%orb_false_iff. destruct (Z.lt_ge_cases n 0) as [Hn|Hn].
    { assert (Z.land n (n - 1) < 0) by (apply Z.land_neg; lia). lia. }
    exists (Z.log2 n). split; [apply Z.log2_nonneg|]. destruct (Z.log2_spec n) as [L1 L2]; [lia|].
    destruct (Z.eq_dec n (2 ^ Z.log2 n)) as [|Hne]; [done|]. exfalso.
    pose proof (Z.log2_nonneg n). assert (Z.testbit (Z.land n (n - 1)) (Z.log2 n) = true) as T; [|by rewrite E1, Z.bits_0 in T].
    assert (Z.log2 (n - 1) = Z.log2 n) as Eq by (apply Z.log2_unique; lia).
    rewrite Z.land_spec, Z.bit_log2 by lia. rewrite <- Eq. by rewrite Z.bit_log2 by lia.
  - intros (k & Hk & ->). assert (0 < 2 ^ k) by lia. rewrite (proj2 (Z.eqb_neq (2 ^ k) 0)), orb_false_r by lia.
    apply negb_false_iff, Z.eqb_eq. replace (2 ^ k - 1) with (Z.ones k) by (rewrite Z.ones_equiv; lia).
    rewrite Z.land_ones by lia. apply Z.mod_same. lia.
Qed.

Lemma make_ok n : cap_ok n -> exists q, make CapIsPower2 true n = Ok q /\ repr q [] /\ m_nlen q = n.
Proof.
  intros H. pose proof (cap_pos n H) as Hp. unfold make.
  assert (CapIsPower2 && (negb (Z.land n (n - 1) =? 0) || (n =? 0)) = false) as ->.
  { unfold cap_ok in H. destruct CapIsPower2; [|done]. by apply land_pred_pow2. }
  cbn [rbind]. rewrite (proj2 (Z.eqb_neq n 0)) by lia. eexists. split; [done|]. split; [|done].
  split; cbn [m_vec m_head m_tail m_nlen length]; rewrite ?length_replicate; try done; try lia.
  intros i Hi. rewrite lookup_replicate_2; [done|]. rewrite Z.mod_small; lia.
Qed.

Lemma make_not_pow2 malloc n : CapIsPower2 = true -> ~ cap_ok n -> @make A CapIsPower2 malloc n = Throw logic_error.
Proof.
  unfold make, cap_ok. intros ->. intros H. cbn [andb]. destruct (negb (Z.land n (n - 1) =? 0) || (n =? 0)) eqn:E; [done|].
  by apply land_pred_pow2 in E.
Qed.
End spec.
Arguments op : clear implicits.
Arguments out : clear implicits.

(** C26: The circular queue with capacity [n] (for [CapIsPower2] the constructor
    refuses any [n] that is not a power of two) behaves like a list of fewer than
    [n] elements: any sequence of operations gives the results of the list, and the
    slots then hold that list and nothing else alive; an assertion of the code fails or
    its behaviour is undefined exactly when the list has no answer: push on a full
    queue, pop or peek on an empty one, an index outside the queue.  These are the
    documented preconditions but for one case: [pop_upper] of the index right behind the
    last element of a queue that is not empty, which the documentation excludes, passes
    all assertions and changes nothing ([pop_upper_behind]). *)
Theorem circular_queue_refines {A} (p2 : bool) (n : Z) :
  (cap_ok p2 n -> exists q0, make p2 true n = Ok q0 /\ forall os : list (op A),
   match exec_spec n [] os with
   | Some (l, rs) => exists q, exec p2 q0 os = Ok (q, rs) /\ repr p2 q l
   | None => exec p2 q0 os = UB
   end) /\
  (p2 = true -> ~ cap_ok p2 n -> forall malloc, @make A p2 malloc n = Throw logic_error).
Proof.
  split; [|intros; by apply make_not_pow2]. intros Hc.
  destruct (@make_ok A p2 n Hc) as (q0 & Eq & R & N). exists q0. split; [done|]. intros os. rewrite <- N. by apply exec_refines_from.
Qed.

(** A queue of capacity 4 that wraps around, and one that is pushed to when full. *)
Definition demo_ops : list (op Z) :=
  [PushBack 1; PushBack 2; PopFront; PushBack 3; PushBack 4; Full; PopLower 0; PushFront 9; Get 2; PushBack 5].

Lemma circular_queue_refines_witness : cap_ok true 4 /\ exec_spec 4 [] demo_ops = None /\
  (exists q0, make true true 4 = Ok q0 /\ exec true q0 demo_ops = UB /\
   exists q, exec true q0 (take 9 demo_ops) = Ok (q, [ONone; ONone; ONone; ONone; ONone; OBool true; ONone; ONone; OElem 4]) /\ repr true q [9; 3; 4]).
Proof.
  assert (cap_ok true 4) as Hc by (by exists 2). split; [done|]. split; [reflexivity|].
  destruct (proj1 (circular_queue_refines (A := Z) true 4) Hc) as (q0 & Eq & R). exists q0. split; [done|].
  split; [exact (R demo_ops)|]. exact (R (take 9 demo_ops)).
Defined.

(** The documentation of [pop_upper] wants the element in the queue, and the class
    promises a failing assertion otherwise; the place right behind the last element
    is accepted. *)
Lemma pop_upper_behind :
  exec false (CQ [None; None; None; None] 2 2 4) [PushBack 7; PushBack 8; PopUpper 2; Elements] =
    Ok (CQ [None; None; Some 7; Some 8] 2 0 4, [ONone; ONone; ONone; OList [7; 8]]).
Proof. vm_compute. reflexivity. Qed.

(** A queue without storage is not "full", and pushing to it is undefined. *)
Lemma default_queue_not_full (x : Z) : full false (make_default (A := Z)) = false /\ push_back false make_default x = UB.
Proof. split; reflexivity. Qed.

(** A queue of capacity 1 is always full. *)
Lemma queue_of_one_is_full q : repr (A := Z) false q [] -> m_nlen q = 1 -> full false q = true.
Proof. intros H N. by rewrite (full_ok _ _ _ H), N. Qed.

End CircularQueue.
