(* ===== verification/ConcQueue.v ===== *)
(** * The concurrent queue

    [util/concurrent_queue.hpp] over any container that keeps the promises of the
    class [Container], with [circular_queue] and a standard list as instances.  The
    queue is a monitor: an operation takes the mutex and either runs to its end or
    goes to sleep on a condition variable, so one definition gives what happens from
    the moment the mutex is taken (or taken again after a wake-up: the loop starts
    over) until it is released.  Threads interleave at these points. *)
From S2P Require Import Prelude CircularQueue.
Import CircularQueue.

Module ConcQueue.

(** ** Containers *)

(** What [concurrent_queue] requires of [Container].  [c_full] is the member
    function [full] when the test [has_member_function_full] (of boost) finds it. *)
Class Container (C A : Type) := {
  c_empty : C -> bool;
  c_size : C -> Z;
  c_full : option (C -> bool);
  c_push_back : C -> A -> res C;
  c_push_front : C -> A -> res C;
  c_front : C -> res A;
  c_back : C -> res A;
  c_pop_front : C -> res C;
  c_pop_back : C -> res C;
  c_clear : C -> res C
}.

(** A container that holds a list of at most [cap] elements. *)
Class ContainerLaws (C A : Type) `{Container C A} (cap : Z) (holds : C -> list A -> Prop) := {
  l_empty c l : holds c l -> c_empty c = (Z.of_nat (length l) =? 0);
  l_size c l : holds c l -> c_size c = Z.of_nat (length l);
  l_full c l f : c_full = Some f -> holds c l -> f c = (Z.of_nat (length l) =? cap);
  l_bound c l : holds c l -> Z.of_nat (length l) <= cap;
  l_push_back c l x : holds c l -> Z.of_nat (length l) < cap -> exists c', c_push_back c x = Ok c' /\ holds c' (l ++ [x]);
  l_push_front c l x : holds c l -> Z.of_nat (length l) < cap -> exists c', c_push_front c x = Ok c' /\ holds c' (x :: l);
  l_pop_front c l x : holds c (x :: l) -> c_front c = Ok x /\ exists c', c_pop_front c = Ok c' /\ holds c' l;
  l_pop_back c l x : holds c (l ++ [x]) -> c_back c = Ok x /\ exists c', c_pop_back c = Ok c' /\ holds c' l;
  l_clear c l : holds c l -> exists c', c_clear c = Ok c' /\ holds c' []
}.

(** [circular_queue<A, p2>]; [found] is whether the test finds its [full]. *)
#[export] Instance circular_container (p2 found : bool) (A : Type) : Container (circular_queue A) A := {|
  c_empty := empty; c_size := size p2; c_full := if found then Some (full p2) else None;
  c_push_back := CircularQueue.push_back p2; c_push_front := CircularQueue.push_front p2;
  c_front := CircularQueue.front; c_back := CircularQueue.back p2;
  c_pop_front := CircularQueue.pop_front p2; c_pop_back := CircularQueue.pop_back p2; c_clear := CircularQueue.clear p2 |}.

(** A standard container without a limit of its own. *)
#[export] Instance list_container (A : Type) : Container (list A) A := {|
  c_empty l := match l with [] => true | _ => false end; c_size l := Z.of_nat (length l); c_full := None;
  c_push_back l x := Ok (l ++ [x]); c_push_front l x := Ok (x :: l);
  c_front l := match l with x :: _ => Ok x | [] => UB end;
  c_back l := match l !! (length l - 1)%nat with Some x => Ok x | None => UB end;
  c_pop_front l := match l with _ :: l' => Ok l' | [] => UB end;
  c_pop_back l := match l with [] => UB | _ => Ok (take (length l - 1) l) end;
  c_clear _ := Ok [] |}.

Definition circular_holds {A} (p2 : bool) (n : Z) (q : circular_queue A) (l : list A) : Prop := repr p2 q l /\ m_nlen q = n.

#[export] Instance circular_laws (p2 found : bool) (A : Type) (n : Z) :
  ContainerLaws (H := circular_container p2 found A) (circular_queue A) A (n - 1) (circular_holds p2 n).
Proof.
  split; unfold circular_holds; cbn [c_empty c_size c_full c_push_back c_push_front c_front c_back c_pop_front c_pop_back c_clear circular_container].
  - intros q l [R N]. by apply empty_ok with p2.
  - intros q l [R N]. by apply size_ok.
  - intros q l f. destruct found; [|done]. intros [= <-] [R N]. rewrite (full_ok _ _ _ R), N.
    destruct (Z.eqb_spec (Z.of_nat (length l) + 1) n); destruct (Z.eqb_spec (Z.of_nat (length l)) (n - 1)); (done || lia).
  - intros q l [R N]. pose proof (repr_len _ _ _ R). lia.
  - intros q l x [R N] Hl. destruct (cq_push_back_ok _ q l x R) as (q' & E & ? & ?); [lia|]. exists q'. split; [done|]. split; [done|congruence].
  - intros q l x [R N] Hl. destruct (push_front_ok _ q l x R) as (q' & E & ? & ?); [lia|]. exists q'. split; [done|]. split; [done|congruence].
  - intros q l x [R N]. destruct (pop_front_val_ok _ q x l R) as (q' & _ & E & ? & ?). split; [|exists q'; split; [done|split; [done|congruence]]].
    unfold CircularQueue.front. rewrite (slot_head _ _ _ _ R), (empty_ok _ _ _ R), (proj2 (Z.eqb_neq _ _)) by (cbn [length]; lia). done.
  - intros q l x [R N]. destruct (pop_back_val_ok _ q l x R) as (q' & B & _ & E & ? & ?). split; [done|]. exists q'. split; [done|]. split; [done|congruence].
  - intros q l [R N]. destruct (cq_clear_ok _ q l R) as (q' & E & ? & ?). exists q'. split; [done|]. split; [done|congruence].
Qed.

#[export] Instance list_laws (A : Type) (cap : Z) (Hcap : 0 <= cap) :
  ContainerLaws (list A) A cap (fun q l => q = l /\ Z.of_nat (length l) <= cap).
Proof.
  split; cbn [c_empty c_size c_full c_push_back c_push_front c_front c_back c_pop_front c_pop_back c_clear list_container].
  - intros q l [-> _]. by destruct l.
  - intros q l [-> _]. done.
  - done.
  - intros q l [-> ?]. done.
  - intros q l x [-> ?] Hl. eexists. split; [done|]. split; [done|]. rewrite length_app. cbn. lia.
  - intros q l x [-> ?] Hl. eexists. split; [done|]. split; [done|]. cbn. lia.
  - intros q l x [-> Hl]. split; [done|]. eexists. split; [done|]. split; [done|]. cbn in Hl. lia.
  - intros q l x [-> Hl]. rewrite length_app in Hl. rewrite length_app, Nat.add_sub, list_lookup_middle, take_app_length by done.
    split; [done|]. exists l. cbn in Hl. split; [by destruct l|]. split; [done|lia].
  - intros q l _. eexists. split; [done|]. split; [done|]. cbn. lia.
Qed.

(** ** The operations *)

Inductive cond := PopCond | PushCond.

Section ops.
Context {C A : Type} `{Container C A} (m_maxSize : Z).

Definition is_full (q : C) : bool :=
  match c_full with Some f => f q | None => m_maxSize <=? c_size q end.

Inductive ret := RUnit | RBool (b : bool) | RElem (x : A) | ROpt (x : option A) | RNum (n : Z) | RList (l : list A).

(** What an operation does between taking and releasing the mutex: it sleeps on a
    condition variable, or changes the queue, returns and notifies. *)
Inductive cs := Block (c : cond) | Return (q : C) (r : ret) (notify : option cond).

Definition push_back (value : A) (q : C) : res cs :=
  if is_full q then Ok (Block PushCond) else
  let* _ := assert_ (negb (is_full q)) in
  let* q := c_push_back q value in
  Ok (Return q RUnit (Some PopCond)).

Definition try_push_back (value : A) (q : C) : res cs :=
  if is_full q then Ok (Return q (RBool false) None) else
  let* q := c_push_back q value in
  Ok (Return q (RBool true) (Some PopCond)).

(** The functions with a timeout: [expired] is whether the time is over; then the
    test of [wait_for] is the last one. *)
Definition push_back_timed (value : A) (expired : bool) (q : C) : res cs :=
  if is_full q then Ok (if expired then Return q (RBool false) None else Block PushCond) else
  let* _ := assert_ (negb (is_full q)) in
  let* q := c_push_back q value in
  Ok (Return q (RBool true) (Some PopCond)).

(** [for (; idx < num && !is_full(); ++idx) push_back(vec[idx]);] *)
Definition push_loop (vec : list A) (num : Z) (q : C) : res (C * Z) :=
  loop (Z.to_nat num + 1) (fun '(q, idx) =>
    if (idx <? num) && negb (is_full q) then
      let* x := rd vec idx in let* q' := c_push_back q x in Ok (inl (q', idx + 1))
    else Ok (inr (q, idx))) (q, 0).

Definition push_back_n (vec : list A) (num : Z) (q : C) : res cs :=
  if is_full q then Ok (Block PushCond) else
  let* _ := assert_ (negb (is_full q)) in
  let* (q, idx) := push_loop vec num q in
  Ok (Return q (RNum idx) (Some PopCond)).

Definition push_back_n_timed (vec : list A) (num : Z) (expired : bool) (q : C) : res cs :=
  if is_full q then Ok (if expired then Return q (RNum 0) None else Block PushCond) else
  let* _ := assert_ (negb (is_full q)) in
  let* (q, idx) := push_loop vec num q in
  Ok (Return q (RNum idx) (Some PopCond)).

(** [do push_back(vec[idx]); while (++idx < num && !is_full());] *)
Definition push_back_n_nowait (vec : list A) (num : Z) (q : C) : res cs :=
  if is_full q || (num =? 0) then Ok (Return q (RNum 0) None) else
  let* (q, idx) := loop (Z.to_nat num + 1) (fun '(q, idx) =>
    let* x := rd vec idx in let* q' := c_push_back q x in
    if (idx + 1 <? num) && negb (is_full q') then Ok (inl (q', idx + 1)) else Ok (inr (q', idx + 1))) (q, 0) in
  Ok (Return q (RNum idx) (Some PopCond)).

Definition pop_front (q : C) : res cs :=
  if c_empty q then Ok (Block PopCond) else
  let* _ := assert_ (negb (c_empty q)) in
  let* result := c_front q in
  let* q := c_pop_front q in
  Ok (Return q (RElem result) (Some PushCond)).

Definition pop_front_timed (expired : bool) (q : C) : res cs :=
  if c_empty q then Ok (if expired then Return q (ROpt None) None else Block PopCond) else
  let* _ := assert_ (negb (c_empty q)) in
  let* result := c_front q in
  let* q := c_pop_front q in
  Ok (Return q (ROpt (Some result)) (Some PushCond)).

(** [pr] is the caller's predicate: it may look at the queue. *)
Definition pop_front_if (pr : C -> bool) (q : C) : res cs :=
  if negb (negb (c_empty q) && pr q) then Ok (Block PopCond) else
  let* _ := assert_ (negb (c_empty q)) in
  let* result := c_front q in
  let* q := c_pop_front q in
  Ok (Return q (RElem result) (Some PushCond)).

Definition pop_front_if_timed (pr : C -> bool) (expired : bool) (q : C) : res cs :=
  if negb (negb (c_empty q) && pr q) then Ok (if expired then Return q (ROpt None) None else Block PopCond) else
  let* _ := assert_ (negb (c_empty q)) in
  let* result := c_front q in
  let* q := c_pop_front q in
  Ok (Return q (ROpt (Some result)) (Some PushCond)).

(** [for (; idx < cap && !empty(); ++idx) { vec[idx] = front(); pop_front(); }];
    what is written to [vec] is the list returned. *)
Definition pop_loop (cap : Z) (q : C) : res (C * list A) :=
  loop (Z.to_nat cap + 1) (fun '(q, vec) =>
    if (Z.of_nat (length vec) <? cap) && negb (c_empty q) then
      let* x := c_front q in let* q' := c_pop_front q in Ok (inl (q', vec ++ [x]))
    else Ok (inr (q, vec))) (q, []).

Definition pop_front_n (cap : Z) (q : C) : res cs :=
  if c_empty q then Ok (Block PopCond) else
  let* (q, vec) := pop_loop cap q in
  Ok (Return q (RList vec) (Some PushCond)).

Definition pop_front_n_timed (cap : Z) (expired : bool) (q : C) : res cs :=
  if c_empty q then Ok (if expired then Return q (RList []) None else Block PopCond) else
  let* _ := assert_ (negb (c_empty q)) in
  let* (q, vec) := pop_loop cap q in
  Ok (Return q (RList vec) (Some PushCond)).

Definition pop_front_n_nowait (cap : Z) (q : C) : res cs :=
  if c_empty q || (cap =? 0) then Ok (Return q (RList []) None) else
  let* (q, vec) := loop (Z.to_nat cap + 1) (fun '(q, vec) =>
    let* x := c_front q in let* q' := c_pop_front q in
    let vec := vec ++ [x] in
    if (Z.of_nat (length vec) <? cap) && negb (c_empty q') then Ok (inl (q', vec)) else Ok (inr (q', vec))) (q, []) in
  Ok (Return q (RList vec) (Some PushCond)).

Definition push_front (value : A) (q : C) : res cs :=
  if is_full q then Ok (Block PushCond) else
  let* _ := assert_ (negb (is_full q)) in
  let* q := c_push_front q value in
  Ok (Return q RUnit (Some PopCond)).

Definition push_front_timed (value : A) (expired : bool) (q : C) : res cs :=
  if is_full q then Ok (if expired then Return q (RBool false) None else Block PushCond) else
  let* _ := assert_ (negb (is_full q)) in
  let* q := c_push_front q value in
  Ok (Return q (RBool true) (Some PopCond)).

Definition pop_back (q : C) : res cs :=
  if c_empty q then Ok (Block PopCond) else
  let* _ := assert_ (negb (c_empty q)) in
  let* result := c_back q in
  let* q := c_pop_back q in
  Ok (Return q (RElem result) (Some PushCond)).

Definition size (q : C) : res cs := Ok (Return q (RNum (c_size q)) None).
Definition empty (q : C) : res cs := Ok (Return q (RBool (c_empty q)) None).
Definition full (q : C) : res cs := Ok (Return q (RBool (is_full q)) None).
Definition clearQueue (q : C) : res cs := let* q := c_clear q in Ok (Return q RUnit None).

(** A call of one of them. *)
Inductive op :=
| PushBack (x : A) | TryPushBack (x : A) | PushBackT (x : A) | PushBackN (v : list A) (n : Z) | PushBackNT (v : list A) (n : Z)
| PushBackNNW (v : list A) (n : Z) | PopFront | PopFrontT | PopFrontIf (pr : C -> bool) | PopFrontIfT (pr : C -> bool)
| PopFrontN (n : Z) | PopFrontNT (n : Z) | PopFrontNNW (n : Z) | PushFront (x : A) | PushFrontT (x : A) | PopBack
| Size | Empty | Full | Clear.

Definition run (o : op) (expired : bool) (q : C) : res cs :=
  match o with
  | PushBack x => push_back x q | TryPushBack x => try_push_back x q | PushBackT x => push_back_timed x expired q
  | PushBackN v n => push_back_n v n q | PushBackNT v n => push_back_n_timed v n expired q | PushBackNNW v n => push_back_n_nowait v n q
  | PopFront => pop_front q | PopFrontT => pop_front_timed expired q
  | PopFrontIf pr => pop_front_if pr q | PopFrontIfT pr => pop_front_if_timed pr expired q
  | PopFrontN n => pop_front_n n q | PopFrontNT n => pop_front_n_timed n expired q | PopFrontNNW n => pop_front_n_nowait n q
  | PushFront x => push_front x q | PushFrontT x => push_front_timed x expired q | PopBack => pop_back q
  | Size => size q | Empty => empty q | Full => full q | Clear => clearQueue q
  end.

Definition timed (o : op) : bool :=
  match o with PushBackT _ | PushBackNT _ _ | PopFrontT | PopFrontIfT _ | PopFrontNT _ | PushFrontT _ => true | _ => false end.

(** ** Threads *)

(** A thread runs its calls in order.  [Ready] wants the mutex: it enters a call,
    or has been woken inside one (after its timeout, if [expired]). *)
Inductive status := Ready (expired : bool) | Sleeping (c : cond).
Record thread := Th { todo : list op; st : status; results : list ret }.
Record sys := Sys { queue : C; threads : list thread }.

Definition wake (t : thread) (expired : bool) : thread := Th (todo t) (Ready expired) (results t).

(** [notify_one]: some thread that sleeps on the variable wakes up, if any does. *)
Inductive notify : option cond -> list thread -> list thread -> Prop :=
| notify_not ts : notify None ts ts
| notify_nobody c ts : (forall i t, ts !! i = Some t -> st t <> Sleeping c) -> notify (Some c) ts ts
| notify_one c ts i t : ts !! i = Some t -> st t = Sleeping c -> notify (Some c) ts (<[i := wake t false]> ts).

(** A thread gets the mutex; [e] says what came of it. *)
Inductive work : sys -> option (op * bool * ret) -> sys -> Prop :=
| work_block q ts i o os e rs c : ts !! i = Some (Th (o :: os) (Ready e) rs) -> run o e q = Ok (Block c) ->
    work (Sys q ts) None (Sys q (<[i := Th (o :: os) (Sleeping c) rs]> ts))
| work_return q ts i o os e rs q' r n ts' : ts !! i = Some (Th (o :: os) (Ready e) rs) -> run o e q = Ok (Return q' r n) ->
    notify n (<[i := Th os (Ready false) (rs ++ [r])]> ts) ts' ->
    work (Sys q ts) (Some (o, e, r)) (Sys q' ts').

(** A sleeper wakes up by itself: spuriously, or because its time is over. *)
Inductive awake : sys -> sys -> Prop :=
| awake_spurious q ts i t c : ts !! i = Some t -> st t = Sleeping c -> awake (Sys q ts) (Sys q (<[i := wake t false]> ts))
| awake_expired q ts i o os c rs : ts !! i = Some (Th (o :: os) (Sleeping c) rs) -> timed o = true ->
    awake (Sys q ts) (Sys q (<[i := Th (o :: os) (Ready true) rs]> ts)).

(** Runs: how many times the mutex was taken, how many sleepers woke up by
    themselves, and the calls that returned, in the order they did. *)
Inductive path (s : sys) : nat -> nat -> list (op * bool * ret) -> sys -> Prop :=
| path_nil : path s 0 0 [] s
| path_block w k tr s1 s2 : path s w k tr s1 -> work s1 None s2 -> path s (S w) k tr s2
| path_return w k tr s1 ev s2 : path s w k tr s1 -> work s1 (Some ev) s2 -> path s (S w) k (tr ++ [ev]) s2
| path_awake w k tr s1 s2 : path s w k tr s1 -> awake s1 s2 -> path s w (S k) tr s2.

End ops.
Arguments op : clear implicits.
Arguments ret : clear implicits.
Arguments thread : clear implicits.
Arguments sys : clear implicits.
Arguments cs : clear implicits.
Arguments Block {C A} c.

(** ** What a call does to the list of elements *)

Section spec.
Context {C A : Type} `{ContainerLaws C A cap holds} (m_maxSize : Z).

(** How many elements make the queue full. *)
Definition limit : Z := match c_full (C := C) with Some _ => cap | None => m_maxSize end.

Inductive outcome := OBlock (c : cond) | OReturn (l : list A) (r : ret A) (n : option cond).

Definition room (l : list A) (n : Z) : nat := Z.to_nat (Z.min n (limit - Z.of_nat (length l))).

(** [q] only answers the caller's predicate. *)
Definition spec (q : C) (o : op C A) (expired : bool) (l : list A) : outcome :=
  let full_ := limit <=? Z.of_nat (length l) in
  match o with
  | PushBack x => if full_ then OBlock PushCond else OReturn (l ++ [x]) RUnit (Some PopCond)
  | TryPushBack x => if full_ then OReturn l (RBool false) None else OReturn (l ++ [x]) (RBool true) (Some PopCond)
  | PushBackT x => if full_ then if expired then OReturn l (RBool false) None else OBlock PushCond
      else OReturn (l ++ [x]) (RBool true) (Some PopCond)
  | PushBackN v n => if full_ then OBlock PushCond else OReturn (l ++ take (room l n) v) (RNum (Z.of_nat (room l n))) (Some PopCond)
  | PushBackNT v n => if full_ then if expired then OReturn l (RNum 0) None else OBlock PushCond
      else OReturn (l ++ take (room l n) v) (RNum (Z.of_nat (room l n))) (Some PopCond)
  | PushBackNNW v n => if full_ || (n =? 0) then OReturn l (RNum 0) None
      else OReturn (l ++ take (room l n) v) (RNum (Z.of_nat (room l n))) (Some PopCond)
  | PopFront => match l with [] => OBlock PopCond | x :: l' => OReturn l' (RElem x) (Some PushCond) end
  | PopFrontT => match l with [] => if expired then OReturn l (ROpt None) None else OBlock PopCond
      | x :: l' => OReturn l' (ROpt (Some x)) (Some PushCond) end
  | PopFrontIf pr => match l with [] => OBlock PopCond
      | x :: l' => if pr q then OReturn l' (RElem x) (Some PushCond) else OBlock PopCond end
  | PopFrontIfT pr => let no := if expired then OReturn l (ROpt None) None else OBlock PopCond in
      match l with [] => no | x :: l' => if pr q then OReturn l' (ROpt (Some x)) (Some PushCond) else no end
  | PopFrontN n => match l with [] => OBlock PopCond | _ => OReturn (drop (Z.to_nat n) l) (RList (take (Z.to_nat n) l)) (Some PushCond) end
  | PopFrontNT n => match l with [] => if expired then OReturn l (RList []) None else OBlock PopCond
      | _ => OReturn (drop (Z.to_nat n) l) (RList (take (Z.to_nat n) l)) (Some PushCond) end
  | PopFrontNNW n => match l with [] => OReturn l (RList []) None
      | _ => if n =? 0 then OReturn l (RList []) None else OReturn (drop (Z.to_nat n) l) (RList (take (Z.to_nat n) l)) (Some PushCond) end
  | PushFront x => if full_ then OBlock PushCond else OReturn (x :: l) RUnit (Some PopCond)
  | PushFrontT x => if full_ then if expired then OReturn l (RBool false) None else OBlock PushCond
      else OReturn (x :: l) (RBool true) (Some PopCond)
  | PopBack => match l !! (length l - 1)%nat with None => OBlock PopCond
      | Some x => OReturn (take (length l - 1) l) (RElem x) (Some PushCond) end
  | Size => OReturn l (RNum (Z.of_nat (length l))) None
  | Empty => OReturn l (RBool (Z.of_nat (length l) =? 0)) None
  | Full => OReturn l (RBool full_) None
  | Clear => OReturn [] RUnit None
  end.

(** The caller's obligations: counts are counts, and [vec] has [num] elements. *)
Definition call_ok (o : op C A) : Prop :=
  match o with
  | PushBackN v n | PushBackNT v n | PushBackNNW v n => 0 <= n <= Z.of_nat (length v)
  | PopFrontN n | PopFrontNT n | PopFrontNNW n => 0 <= n
  | _ => True
  end.

Context (limit_ok : 0 < limit <= cap).

Lemma is_full_ok q l : holds q l -> is_full m_maxSize q = (limit <=? Z.of_nat (length l)).
Proof.
  intros Hq. unfold is_full. pose proof (l_bound _ _ Hq). revert limit_ok. unfold limit.
  destruct c_full as [f|] eqn:E; [|by rewrite (l_size _ _ Hq)]. intros. rewrite (l_full _ _ _ E Hq).
  destruct (Z.eqb_spec (Z.of_nat (length l)) cap); destruct (Z.leb_spec cap (Z.of_nat (length l))); (done || lia).
Qed.

Lemma push_loop_ok q l v n : holds q l -> 0 <= n <= Z.of_nat (length v) -> Z.of_nat (length l) < limit ->
  exists q', push_loop m_maxSize v n q = Ok (q', Z.of_nat (room l n)) /\ holds q' (l ++ take (room l n) v).
Proof.
  intros Hq Hn Hl. unfold push_loop.
  edestruct (loop_inv (fun '(p, i) => 0 <= i <= Z.of_nat (room l n) /\ holds p (l ++ take (Z.to_nat i) v))
    (fun '(p, i) => n - i) (fun '(p, i) => i = Z.of_nat (room l n) /\ holds p (l ++ take (room l n) v))) as ([q' i] & E & -> & Hq').
  4: { exists q'. split; [exact E|done]. }
  - split; [lia|]. by rewrite app_nil_r.
  - lia.
  - unfold room in *. intros [p i] [Hi Hp]. split; [lia|]. rewrite (is_full_ok _ _ Hp), length_app, length_take.
    destruct (Z.ltb_spec i n); cbn [andb]; [destruct (Z.leb_spec limit (Z.of_nat (length l + Z.to_nat i `min` length v))); cbn [negb]|].
    + right. eexists. split; [done|]. assert (i = Z.of_nat (Z.to_nat (n `min` (limit - Z.of_nat (length l))))) as E by lia.
      split; [done|]. by rewrite <- (Nat2Z.id (Z.to_nat (n `min` _))), <- E.
    + left. destruct (lookup_lt_is_Some_2 v (Z.to_nat i)) as [x Hx]; [lia|]. rewrite (rd_ok _ _ x) by (done || lia). cbn [rbind].
      destruct (l_push_back _ _ x Hp) as (p' & -> & Hp'); [rewrite length_app, length_take; lia|]. cbn [rbind].
      eexists. split; [done|]. split; [|lia]. split; [lia|]. replace (Z.to_nat (i + 1)) with (S (Z.to_nat i)) by lia.
      by rewrite (take_S_r _ _ _ Hx), app_assoc.
    + right. eexists. split; [done|]. assert (i = Z.of_nat (Z.to_nat (n `min` (limit - Z.of_nat (length l))))) as E by lia.
      split; [done|]. by rewrite <- (Nat2Z.id (Z.to_nat (n `min` _))), <- E.
Qed.

Lemma push_nowait_ok q l v n : holds q l -> 0 < n <= Z.of_nat (length v) -> Z.of_nat (length l) < limit ->
  exists q', push_back_n_nowait m_maxSize v n q = Ok (Return q' (RNum (Z.of_nat (room l n))) (Some PopCond)) /\ holds q' (l ++ take (room l n) v).
Proof.
  intros Hq Hn Hl. unfold push_back_n_nowait. rewrite (is_full_ok _ _ Hq), (proj2 (Z.leb_gt _ _)), (proj2 (Z.eqb_neq _ _)) by lia. cbn [orb].
  edestruct (loop_inv (fun '(p, i) => 0 <= i < Z.of_nat (room l n) /\ holds p (l ++ take (Z.to_nat i) v))
    (fun '(p, i) => n - i) (fun '(p, i) => i = Z.of_nat (room l n) /\ holds p (l ++ take (room l n) v))) as ([q' i] & E & -> & Hq').
  4: { rewrite E. cbn [rbind]. eauto. }
  - unfold room. split; [lia|]. by rewrite app_nil_r.
  - lia.
  - unfold room in *. intros [p i] [Hi Hp]. split; [lia|].
    destruct (lookup_lt_is_Some_2 v (Z.to_nat i)) as [x Hx]; [lia|]. rewrite (rd_ok _ _ x) by (done || lia). cbn [rbind].
    destruct (l_push_back _ _ x Hp) as (p' & -> & Hp'); [rewrite length_app, length_take; lia|]. cbn [rbind].
    rewrite <- app_assoc, <- (take_S_r _ _ _ Hx) in Hp'. rewrite (is_full_ok _ _ Hp'), length_app, length_take.
    destruct ((i + 1 <? n) && negb (limit <=? Z.of_nat (length l + S (Z.to_nat i) `min` length v))) eqn:B.
    + left. apply andb_true_iff in B as [B1%Z.ltb_lt B2%negb_true_iff%Z.leb_gt]. eexists. split; [done|]. split; [|lia].
      split; [lia|]. by replace (Z.to_nat (i + 1)) with (S (Z.to_nat i)) by lia.
    + right. apply andb_false_iff in B. rewrite Z.ltb_ge, negb_false_iff, Z.leb_le in B. eexists. split; [done|].
      assert (Z.to_nat (n `min` (limit - Z.of_nat (length l))) = S (Z.to_nat i)) as E by lia. rewrite E. split; [lia|done].
Qed.

(** Taking one element, as the loops that pop do. *)
Lemma pop_one q x l : holds q (x :: l) -> exists q', c_empty q = false /\ c_front q = Ok x /\ c_pop_front q = Ok q' /\ holds q' l.
Proof.
  intros Hq. destruct (l_pop_front _ _ _ Hq) as (F & q' & P & Hq'). exists q'. split; [|done]. by rewrite (l_empty _ _ Hq).
Qed.

Lemma pop_loop_ok q l n : holds q l -> 0 <= n -> exists q', pop_loop n q = Ok (q', take (Z.to_nat n) l) /\ holds q' (drop (Z.to_nat n) l).
Proof.
  intros Hq Hn. unfold pop_loop.
  edestruct (loop_inv (fun '(p, v) => exists i, (i <= Z.to_nat n)%nat /\ (i <= length l)%nat /\ v = take i l /\ holds p (drop i l))
    (fun '(p, v) => n - Z.of_nat (length v)) (fun '(p, v) => v = take (Z.to_nat n) l /\ holds p (drop (Z.to_nat n) l))) as ([q' i] & E & -> & Hq').
  4: { exists q'. split; [exact E|done]. }
  - exists 0%nat. split; [lia|]. split; [lia|done].
  - cbn [length]. lia.
  - intros [p v] (i & Hi & Hl & -> & Hp). rewrite length_take. split; [lia|]. rewrite Nat.min_l by done.
    destruct (Z.ltb_spec (Z.of_nat i) n); cbn [andb]; [|right; eexists; split; [done|]; by replace (Z.to_nat n) with i by lia].
    destruct (decide (i < length l)%nat) as [L|L].
    + left. destruct (lookup_lt_is_Some_2 l i L) as [x Hx]. rewrite (drop_S _ _ _ Hx) in Hp.
      destruct (pop_one _ _ _ Hp) as (p' & -> & -> & -> & Hp'). cbn [negb rbind]. eexists. split; [done|]. split.
      * exists (S i). rewrite (take_S_r _ _ _ Hx). split; [lia|]. split; [lia|done].
      * rewrite length_app, length_take. cbn. lia.
    + right. rewrite (l_empty _ _ Hp), length_drop. replace (length l - i)%nat with 0%nat by lia. eexists. split; [done|].
      rewrite !firstn_all2 by lia. rewrite !skipn_all2 in * by lia. done.
Qed.

Lemma pop_nowait_ok q x l n : holds q (x :: l) -> 0 < n ->
  exists q', pop_front_n_nowait n q = Ok (Return q' (RList (take (Z.to_nat n) (x :: l))) (Some PushCond)) /\ holds q' (drop (Z.to_nat n) (x :: l)).
Proof.
  intros Hq Hn. unfold pop_front_n_nowait. rewrite (l_empty _ _ Hq), (proj2 (Z.eqb_neq n 0)) by lia. change (Z.of_nat (length (x :: l)) =? 0) with false. cbn [orb].
  set (xs := x :: l) in *.
  edestruct (loop_inv (fun '(p, v) => exists i, (i < Z.to_nat n)%nat /\ (i < length xs)%nat /\ v = take i xs /\ holds p (drop i xs))
    (fun '(p, v) => n - Z.of_nat (length v)) (fun '(p, v) => v = take (Z.to_nat n) xs /\ holds p (drop (Z.to_nat n) xs))) as ([q' i] & E & -> & Hq').
  4: { rewrite E. cbn [rbind]. eauto. }
  - exists 0%nat. split; [lia|]. split; [cbn; lia|done].
  - cbn [length]. lia.
  - intros [p v] (i & Hi & Hl & -> & Hp). rewrite length_take. split; [lia|]. rewrite Nat.min_l by lia.
    destruct (lookup_lt_is_Some_2 xs i Hl) as [y Hy]. rewrite (drop_S _ _ _ Hy) in Hp.
    destruct (pop_one _ _ _ Hp) as (p' & _ & -> & -> & Hp'). cbn [rbind]. rewrite <- (take_S_r _ _ _ Hy), length_take, (l_empty _ _ Hp'), length_drop.
    destruct ((Z.of_nat (S i `min` length xs) <? n) && negb (Z.of_nat (length xs - S i) =? 0)) eqn:B.
    + left. apply andb_true_iff in B as [B1%Z.ltb_lt B2%negb_true_iff%Z.eqb_neq]. eexists. split; [done|].
      split; [exists (S i); split; [lia|]; split; [lia|done]|rewrite length_take; lia].
    + right. apply andb_false_iff in B. rewrite Z.ltb_ge, negb_false_iff, Z.eqb_eq in B. eexists. split; [done|].
      destruct (decide (S i = Z.to_nat n)) as [<-|]; [done|]. rewrite !firstn_all2 by lia. rewrite !skipn_all2 in * by lia. done.
Qed.

(** A call does to the container what [spec] says it does to the list. *)
Lemma run_ok o e q l : holds q l -> call_ok o ->
  match spec q o e l with
  | OBlock c => run m_maxSize o e q = Ok (Block c)
  | OReturn l' r n => exists q', run m_maxSize o e q = Ok (Return q' r n) /\ holds q' l'
  end.
Proof.
  intros Hq Hc. pose proof (l_bound _ _ Hq) as Hb. pose proof (l_empty _ _ Hq) as He. pose proof (is_full_ok _ _ Hq) as Hf.
  assert (forall x, Z.of_nat (length l) < limit -> exists c', c_push_back q x = Ok c' /\ holds c' (l ++ [x])) as Hpb by (intros; apply l_push_back; [done|lia]).
  assert (forall x, Z.of_nat (length l) < limit -> exists c', c_push_front q x = Ok c' /\ holds c' (x :: l)) as Hpf by (intros; apply l_push_front; [done|lia]).
  destruct o; cbn [run spec call_ok] in *;
    unfold push_back, try_push_back, push_back_timed, push_back_n, push_back_n_timed, pop_front, pop_front_timed, pop_front_if, pop_front_if_timed,
      pop_front_n, pop_front_n_timed, push_front, push_front_timed, pop_back, size, empty, full, clearQueue; rewrite ?Hf, ?He.
  (* the operations that push one element *)
  1,2,3,14,15: destruct (Z.leb_spec limit (Z.of_nat (length l))); cbn [negb assert_ rbind];
    [|match goal with |- context [c_push_back ?p ?x] => destruct (Hpb x) as (q' & -> & ?) | |- context [c_push_front ?p ?x] => destruct (Hpf x) as (q' & -> & ?) end;
      [done|cbn [rbind]; eauto]]; try destruct e; eauto.
  - destruct (Z.leb_spec limit (Z.of_nat (length l))); [done|]. cbn [negb assert_ rbind].
    destruct (push_loop_ok q l v n) as (q' & -> & ?); [done..|]. cbn [rbind]. eauto.
  - destruct (Z.leb_spec limit (Z.of_nat (length l))); [destruct e; eauto|]. cbn [negb assert_ rbind].
    destruct (push_loop_ok q l v n) as (q' & -> & ?); [done..|]. cbn [rbind]. eauto.
  - destruct ((limit <=? Z.of_nat (length l)) || (n =? 0)) eqn:B; [unfold push_back_n_nowait; rewrite Hf, B; eauto|].
    apply orb_false_iff in B as [B1%Z.leb_gt B2%Z.eqb_neq]. apply push_nowait_ok; [done|lia..].
  - destruct l as [|x l]; [done|]. cbn [negb assert_ rbind]. destruct (pop_one _ _ _ Hq) as (q' & _ & -> & -> & ?). cbn. eauto.
  - destruct l as [|x l]; [destruct e; eauto|]. cbn [negb assert_ rbind]. destruct (pop_one _ _ _ Hq) as (q' & _ & -> & -> & ?). cbn. eauto.
  - destruct l as [|x l]; [done|]. change (negb (Z.of_nat (length (x :: l)) =? 0)) with true. cbn [andb].
    destruct (pr q); [|done]. cbn [negb assert_ rbind]. destruct (pop_one _ _ _ Hq) as (q' & _ & -> & -> & ?). cbn. eauto.
  - destruct l as [|x l]; [destruct e; cbn; eauto|]. change (negb (Z.of_nat (length (x :: l)) =? 0)) with true. cbn [andb].
    destruct (pr q); [|destruct e; cbn; eauto]. cbn [negb assert_ rbind]. destruct (pop_one _ _ _ Hq) as (q' & _ & -> & -> & ?). cbn. eauto.
  - destruct l as [|x l]; [done|]. change (Z.of_nat (length (x :: l)) =? 0) with false. cbn iota.
    destruct (pop_loop_ok q (x :: l) n) as (q' & -> & ?); [done..|]. cbn [rbind]. eauto.
  - destruct l as [|x l]; [destruct e; eauto|]. change (Z.of_nat (length (x :: l)) =? 0) with false. cbn [negb assert_ rbind].
    destruct (pop_loop_ok q (x :: l) n) as (q' & -> & ?); [done..|]. cbn [rbind]. eauto.
  - destruct l as [|x l]; [unfold pop_front_n_nowait; rewrite He; cbn; eauto|].
    destruct (Z.eqb_spec n 0) as [->|]; [unfold pop_front_n_nowait; rewrite He; cbn; eauto|]. apply pop_nowait_ok; [done|lia].
  - destruct (decide (l = [])) as [->|Hn]; [done|]. destruct (exists_last Hn) as (l' & x & ->).
    rewrite length_app, Nat.add_sub, list_lookup_middle, take_app_length by done. cbn [length].
    rewrite (proj2 (Z.eqb_neq _ _)) by lia. cbn [negb assert_ rbind]. destruct (l_pop_back _ _ _ Hq) as (-> & q' & -> & ?). cbn. eauto.
  - rewrite (l_size _ _ Hq). eauto.
  - eauto.
  - eauto.
  - destruct (l_clear _ _ Hq) as (q' & -> & ?). cbn. eauto.
Qed.
End spec.
End ConcQueue.
