(* ===== verification/ConcQueueProps.v ===== *)
(** * Threads on the concurrent queue

    First in, first out under every interleaving; no call sleeps for ever while it
    could go on, when every call moves one element; and the wake-ups that get lost
    when a call moves several or waits for more than an element. *)
From S2P Require Import Prelude CircularQueue ConcQueue.
Import CircularQueue ConcQueue.

Module ConcQueueProps.

#[export] Instance cond_eq_dec : EqDecision cond.
Proof. solve_decision. Defined.

#[export] Instance status_eq_dec : EqDecision status.
Proof. solve_decision. Defined.

(** ** What a trace moved *)

Section trace.
Context {C A : Type}.

Definition pushed (ev : op C A * bool * ret A) : list A :=
  match ev.1.1, ev.2 with
  | PushBack x, RUnit | TryPushBack x, RBool true | PushBackT x, RBool true => [x]
  | PushBackN v _, RNum k | PushBackNT v _, RNum k | PushBackNNW v _, RNum k => take (Z.to_nat k) v
  | _, _ => []
  end.

Definition popped (ev : op C A * bool * ret A) : list A :=
  match ev.1.1, ev.2 with
  | PopFront, RElem x | PopFrontIf _, RElem x | PopFrontT, ROpt (Some x) | PopFrontIfT _, ROpt (Some x) => [x]
  | PopFrontN _, RList v | PopFrontNT _, RList v | PopFrontNNW _, RList v => v
  | _, _ => []
  end.

(** The calls of a queue: not those that use its other ends. *)
Definition fifo (o : op C A) : bool := match o with PushFront _ | PushFrontT _ | PopBack | Clear => false | _ => true end.

(** The condition variable a call may sleep on. *)
Definition waits_on (o : op C A) : option cond :=
  match o with
  | PushBack _ | PushBackT _ | PushBackN _ _ | PushBackNT _ _ | PushFront _ | PushFrontT _ => Some PushCond
  | PopFront | PopFrontT | PopFrontIf _ | PopFrontIfT _ | PopFrontN _ | PopFrontNT _ | PopBack => Some PopCond
  | _ => None
  end.

(** The calls that move at most one element, and can go on as soon as there is one
    (or room for one). *)
Definition single (o : op C A) : bool :=
  match o with
  | PushBackN _ _ | PushBackNT _ _ | PushBackNNW _ _ | PopFrontN _ | PopFrontNT _ | PopFrontNNW _
  | PopFrontIf _ | PopFrontIfT _ | Clear => false
  | _ => true
  end.

(** Sums over the threads. *)
Fixpoint sum (f : thread C A -> Z) (ts : list (thread C A)) : Z := match ts with [] => 0 | t :: ts => f t + sum f ts end.

Definition asleep (c : cond) (t : thread C A) : Z := match st t with Sleeping c' => Z.b2z (bool_decide (c' = c)) | _ => 0 end.
Definition ready (c : cond) (t : thread C A) : Z :=
  match todo t, st t with o :: _, Ready _ => Z.b2z (bool_decide (waits_on o = Some c)) | _, _ => 0 end.
Definition weight (t : thread C A) : Z :=
  2 * Z.of_nat (length (todo t)) + match todo t, st t with _ :: _, Ready _ => 1 | _, _ => 0 end.

Lemma sum_insert f ts i t t' : ts !! i = Some t -> sum f (<[i := t']> ts) = sum f ts - f t + f t'.
Proof.
  revert i. induction ts as [|u ts IH]; intros [|i]; try done; [intros [= ->]; cbn; lia|]. intros Hi.
  change (f u + sum f (<[i := t']> ts) = f u + sum f ts - f t + f t'). rewrite (IH i Hi). lia.
Qed.

Lemma sum_nonneg f ts : (forall t, 0 <= f t) -> 0 <= sum f ts.
Proof. intros Hf. induction ts as [|t ts IH]; cbn; [lia|]. specialize (Hf t). lia. Qed.

Lemma sum_zero f ts : (forall i t, ts !! i = Some t -> f t = 0) -> sum f ts = 0.
Proof.
  induction ts as [|t ts IH]; cbn; [done|]. intros Hf. rewrite (Hf 0%nat t), IH; [done| |done]. intros i u Hu. by apply (Hf (S i)).
Qed.

Lemma sum_pos f ts i t : (forall t, 0 <= f t) -> ts !! i = Some t -> f t <= sum f ts.
Proof.
  intros Hf. revert i. induction ts as [|u ts IH]; intros [|i]; cbn; try done.
  - intros [= ->]. pose proof (sum_nonneg f ts Hf). lia.
  - intros Hi. specialize (IH i Hi). specialize (Hf u). lia.
Qed.

Lemma asleep_nonneg c t : 0 <= asleep c t.
Proof. unfold asleep. destruct (st t); [lia|]. destruct (bool_decide _); cbn; lia. Qed.
Lemma ready_nonneg c t : 0 <= ready c t.
Proof. unfold ready. destruct (todo t), (st t); try lia. destruct (bool_decide _); cbn; lia. Qed.
Lemma weight_nonneg t : 0 <= weight t.
Proof. unfold weight. destruct (todo t), (st t); lia. Qed.
End trace.

(** ** Linearization *)

Section props.
Context {C A : Type} `{HL : ContainerLaws C A cap holds} (m_maxSize : Z).
Context (limit_ok : 0 < limit (C := C) (cap := cap) m_maxSize <= cap).
#[local] Abbreviation limit := (limit (C := C) (cap := cap) m_maxSize).
#[local] Abbreviation path := (path m_maxSize).
#[local] Abbreviation work := (work m_maxSize).

(** The calls of a trace, one after the other, on a list. *)
Inductive replay (l : list A) : list (op C A * bool * ret A) -> list A -> Prop :=
| replay_nil : replay l [] l
| replay_snoc tr l1 q o e r l2 n : replay l tr l1 -> holds q l1 -> spec (cap := cap) m_maxSize q o e l1 = OReturn l2 r n ->
    replay l (tr ++ [(o, e, r)]) l2.

Definition all_todo (P : op C A -> Prop) (ts : list (thread C A)) : Prop :=
  forall i t, ts !! i = Some t -> Forall P (todo t).

Lemma all_todo_insert P ts i t t' : all_todo P ts -> ts !! i = Some t -> (Forall P (todo t) -> Forall P (todo t')) -> all_todo P (<[i := t']> ts).
Proof.
  intros Ha Hi Ht j u Hj. destruct (decide (i = j)) as [->|Hne].
  - rewrite list_lookup_insert_eq in Hj by (by eapply lookup_lt_Some). simplify_eq. eapply Ht, Ha, Hi.
  - rewrite list_lookup_insert_ne in Hj by done. eauto.
Qed.

Lemma notify_todo P n ts ts' : notify n ts ts' -> all_todo P ts -> all_todo P ts'.
Proof. intros [| |c us i t Hi Ht] Ha; [done..|]. eapply all_todo_insert; [done|exact Hi|done]. Qed.

Lemma work_todo P q ts ev q' ts' : work (Sys q ts) ev (Sys q' ts') -> all_todo P ts -> all_todo P ts'.
Proof.
  intros Hw Ha. inversion Hw; subst.
  - eapply all_todo_insert; [done..|]. done.
  - eapply notify_todo; [done|]. eapply all_todo_insert; [done..|]. cbn. intros Hf. by inversion Hf.
Qed.

Lemma awake_todo P q ts q' ts' : awake (Sys q ts) (Sys q' ts') -> all_todo P ts -> all_todo P ts'.
Proof. intros Hw Ha. inversion Hw; subst; (eapply all_todo_insert; [done..|]; done). Qed.

Lemma todo_head P ts i o os b rs : all_todo P ts -> ts !! i = Some (Th (o :: os) b rs) -> P o.
Proof. intros Ha Hi. specialize (Ha _ _ Hi). by inversion Ha. Qed.

Lemma path_replay s w k tr s' l : path s w k tr s' -> all_todo call_ok (threads s) -> holds (queue s) l ->
  all_todo call_ok (threads s') /\ exists l', holds (queue s') l' /\ replay l tr l'.
Proof.
  intros Hp Ha Hq. induction Hp as [|w k tr [q1 ts1] [q2 ts2] _ IH Hw|w k tr [q1 ts1] ev [q2 ts2] _ IH Hw|w k tr [q1 ts1] [q2 ts2] _ IH Hw].
  - split; [done|]. exists l. split; [done|constructor].
  - destruct IH as (Ha1 & l1 & Hq1 & R1). split; [eapply work_todo; done|]. inversion Hw; subst. eauto.
  - destruct IH as (Ha1 & l1 & Hq1 & R1). split; [eapply work_todo; done|]. inversion Hw as [|? ? i o os e rs q' r n ts' Hi Hr Hn]; subst.
    pose proof (run_ok m_maxSize limit_ok o e q1 l1 Hq1 (todo_head _ _ _ _ _ _ _ Ha1 Hi)) as Hs.
    destruct (spec m_maxSize q1 o e l1) as [c|l2 r' n'] eqn:E; [cbn in Hs; congruence|]. destruct Hs as (q'' & Hr' & Hq2).
    cbn in Hr. rewrite Hr' in Hr. simplify_eq. exists l2. split; [done|]. econstructor; done.
  - destruct IH as (Ha1 & l1 & Hq1 & R1). split; [eapply awake_todo; done|]. inversion Hw; subst; eauto.
Qed.

Lemma spec_moves q o e l l' r n : call_ok o -> fifo o = true -> spec (cap := cap) m_maxSize q o e l = OReturn l' r n ->
  l ++ pushed (o, e, r) = popped (o, e, r) ++ l'.
Proof.
  intros Hc Hf. destruct o; cbn [spec fifo] in *; try done;
    repeat match goal with |- context [match ?x with _ => _ end] => destruct x end; try done; intros [= <- <- <-]; cbn;
    rewrite ?app_nil_r, ?Nat2Z.id, ?take_nil, ?take_drop; try done.
Qed.

Lemma replay_moves l tr l' : replay l tr l' -> Forall (fun ev => call_ok ev.1.1 /\ fifo ev.1.1 = true) tr ->
  l ++ concat (map pushed tr) = concat (map popped tr) ++ l'.
Proof.
  induction 1 as [|tr l1 q o e r l2 n _ IH Hq Hs]; [cbn; by rewrite app_nil_r|].
  rewrite Forall_app, Forall_singleton. cbn. intros (Hf & Hc & Ho). rewrite !map_app, !concat_app. cbn. rewrite !app_nil_r.
  rewrite app_assoc, (IH Hf), <- !app_assoc. f_equal. by eapply spec_moves.
Qed.

Lemma path_trace P s w k tr s' : path s w k tr s' -> all_todo P (threads s) -> all_todo P (threads s') /\ Forall (fun ev => P ev.1.1) tr.
Proof.
  intros Hp Ha. induction Hp as [|w k tr [q1 ts1] [q2 ts2] _ IH Hw|w k tr [q1 ts1] ev [q2 ts2] _ IH Hw|w k tr [q1 ts1] [q2 ts2] _ IH Hw].
  - done.
  - destruct IH. split; [by eapply work_todo|done].
  - destruct IH as [Ha1 Ht]. split; [by eapply work_todo|]. rewrite Forall_app, Forall_singleton. split; [done|].
    inversion Hw; subst. cbn. by eapply todo_head.
  - destruct IH. split; [by eapply awake_todo|done].
Qed.

(** ** No wake-up is lost *)

(** What a call that moves one element does, as far as waiting is concerned. *)
Lemma spec_single q o e l : single o = true ->
  match spec (cap := cap) m_maxSize q o e l with
  | OBlock c => waits_on o = Some c /\ (c = PopCond -> l = []) /\ (c = PushCond -> limit <= Z.of_nat (length l))
  | OReturn l' r n => match n with
    | None => l' = l /\ (waits_on o = Some PopCond -> l = []) /\ (waits_on o = Some PushCond -> limit <= Z.of_nat (length l))
    | Some PopCond => Z.of_nat (length l') = Z.of_nat (length l) + 1 /\ waits_on o <> Some PopCond
    | Some PushCond => Z.of_nat (length l') = Z.of_nat (length l) - 1 /\ waits_on o = Some PopCond
    end end.
Proof.
  destruct o; cbn [spec single waits_on]; try done; intros _;
    repeat match goal with |- context [if ?b then _ else _] => destruct b eqn:? end;
    try (destruct l as [|x l]; cbn [length]);
    repeat match goal with |- context [match ?x with Some _ => _ | None => _ end] => destruct x eqn:? end;
    rewrite ?length_app, ?length_take; cbn [length] in *; repeat split; intros; try done; try lia.
  all: try (apply lookup_ge_None_1 in Heqo; cbn in Heqo; lia).
Qed.

(** Enough of the threads that could use what there is are awake. *)
Definition balanced (c : cond) (n : Z) (ts : list (thread C A)) : Prop := 0 < sum (asleep c) ts -> n <= sum (ready c) ts.

Definition good_thread (t : thread C A) : Prop :=
  Forall (fun o => single o = true) (todo t) /\ forall c, st t = Sleeping c -> exists o os, todo t = o :: os /\ waits_on o = Some c.

Definition good_threads (ts : list (thread C A)) : Prop := forall i t, ts !! i = Some t -> good_thread t.

Definition inv (s : sys C A) : Prop := exists l, holds (queue s) l /\
  good_threads (threads s) /\
  balanced PopCond (Z.of_nat (length l)) (threads s) /\ balanced PushCond (limit - Z.of_nat (length l)) (threads s).

Lemma single_call_ok o : single o = true -> call_ok (C := C) (A := A) o.
Proof. by destruct o. Qed.

Lemma good_insert ts i t t' : good_threads ts -> ts !! i = Some t -> good_thread t' ->
  good_threads (<[i := t']> ts).
Proof.
  intros Hg Hi Ht j u Hj. destruct (decide (i = j)) as [->|Hne].
  - rewrite list_lookup_insert_eq in Hj by (by eapply lookup_lt_Some). by simplify_eq.
  - rewrite list_lookup_insert_ne in Hj by done. eauto.
Qed.

(** Waking a sleeper: it counts as asleep before and as ready after. *)
Lemma wake_counts ts i t c e d : good_threads ts -> ts !! i = Some t -> st t = Sleeping c ->
  sum (asleep d) (<[i := wake t e]> ts) = sum (asleep d) ts - Z.b2z (bool_decide (c = d)) /\
  sum (ready d) (<[i := wake t e]> ts) = sum (ready d) ts + Z.b2z (bool_decide (c = d)).
Proof.
  intros Hg Hi Hs. rewrite !(sum_insert _ _ _ _ _ Hi). unfold asleep, ready, wake. cbn. rewrite Hs.
  destruct (proj2 (Hg _ _ Hi) c Hs) as (o & os & -> & Hw). rewrite Hw.
  assert (bool_decide (Some c = Some d) = bool_decide (c = d)) as -> by (apply bool_decide_ext; split; congruence). lia.
Qed.

Lemma wake_good t e : good_thread t -> good_thread (wake t e).
Proof. intros [H1 H2]. split; [done|]. cbn. done. Qed.

Lemma awake_inv s s' : inv s -> awake s s' -> inv s'.
Proof.
  intros (l & Hq & Hg & B1 & B2) Hw. exists l. inversion Hw as [q ts i t c Hi Hs|q ts i o os c rs Hi Ht]; subst; cbn in *.
  - split; [done|]. pose proof (wake_counts ts i t c false PopCond Hg Hi Hs) as [E1 E2]. pose proof (wake_counts ts i t c false PushCond Hg Hi Hs) as [E3 E4].
    split; [eapply good_insert; [done|exact Hi|apply wake_good; eauto]|]. unfold balanced in *. rewrite E1, E2, E3, E4. repeat case_bool_decide; cbn; lia.
  - change (Th (o :: os) (Ready true) rs) with (wake (Th (o :: os) (Sleeping c) rs) true).
    pose proof (wake_counts ts i _ c true PopCond Hg Hi eq_refl) as [E1 E2]. pose proof (wake_counts ts i _ c true PushCond Hg Hi eq_refl) as [E3 E4].
    split; [done|]. split; [eapply good_insert; [done|exact Hi|apply wake_good; eauto]|]. unfold balanced in *. rewrite E1, E2, E3, E4. repeat case_bool_decide; cbn; lia.
Qed.

(** The balance after a call has returned: [d] is the waiters' condition, [c] the one
    the call could have waited on, [n] what it notifies. *)
Lemma notify_balanced n ts ts' d k k' : good_threads ts -> notify n ts ts' -> balanced d k ts ->
  k' <= k + Z.b2z (bool_decide (n = Some d)) -> balanced d k' ts'.
Proof.
  intros Hg Hn Hb Hk. inversion Hn as [|c us Hno|c us i t Hi Ht]; subst; unfold balanced in *.
  - rewrite bool_decide_eq_false_2 in Hk by done. cbn in Hk. lia.
  - destruct (decide (c = d)) as [->|Hne]; [|rewrite bool_decide_eq_false_2 in Hk by congruence; cbn in Hk; lia].
    rewrite sum_zero; [lia|]. intros i t Hi. specialize (Hno i t Hi). unfold asleep. destruct (st t) as [|c']; [done|].
    rewrite bool_decide_eq_false_2; [done|]. congruence.
  - destruct (wake_counts ts i t c false d Hg Hi Ht) as [-> ->].
    assert (bool_decide (Some c = Some d) = bool_decide (c = d)) as E by (apply bool_decide_ext; split; congruence).
    rewrite E in Hk. destruct (bool_decide (c = d)); cbn in *; lia.
Qed.

Lemma notify_good n ts ts' : notify n ts ts' -> good_threads ts -> good_threads ts'.
Proof. intros [| |c us i t Hi Ht] Hg; [done..|]. eapply good_insert; [done|exact Hi|]. apply wake_good. eauto. Qed.

Ltac bools := repeat case_bool_decide; simplify_eq; cbn in *; try congruence; lia.

Lemma work_inv s ev s' : inv s -> work s ev s' -> inv s'.
Proof.
  intros (l & Hq & Hg & B1 & B2) Hw. inversion Hw as [q ts i o os e rs c Hi Hr|q ts i o os e rs q' r n ts' Hi Hr Hn]; subst; cbn in *;
    destruct (Hg _ _ Hi) as [Hsg _]; cbn in Hsg; inversion Hsg as [|? ? Ho Hos]; subst;
    pose proof (run_ok m_maxSize limit_ok o e q l Hq (single_call_ok o Ho)) as Hs; pose proof (spec_single q o e l Ho) as Hx;
    destruct (spec m_maxSize q o e l) as [c'|l' r' n'] eqn:E; [|by destruct Hs as (? & ? & _); congruence|congruence|].
  - assert (c' = c) as -> by congruence. destruct Hx as (Hw' & Hx1 & Hx2). exists l. split; [done|]. split.
    { eapply good_insert; [done|exact Hi|]. split; [done|]. cbn. intros c' [= <-]. eauto. }
    set (ts1 := <[i := Th (o :: os) (Sleeping c) rs]> ts). pose proof (fun d => sum_nonneg (ready d) ts1 (ready_nonneg _)) as Hr0.
    assert (forall d, sum (asleep d) ts1 = sum (asleep d) ts + Z.b2z (bool_decide (c = d)) /\
      sum (ready d) ts1 = sum (ready d) ts - Z.b2z (bool_decide (c = d))) as Hd.
    { intros d. unfold ts1. rewrite (sum_insert (asleep d) _ _ _ _ Hi), (sum_insert (ready d) _ _ _ _ Hi). unfold asleep at 2 3, ready at 2 3. cbn. rewrite Hw'. split; bools. }
    unfold balanced in *. cbn [threads]. destruct (Hd PopCond) as [-> E1], (Hd PushCond) as [-> E2].
    pose proof (Hr0 PopCond). pose proof (Hr0 PushCond). rewrite E1, E2 in *.
    destruct c; [rewrite (Hx1 eq_refl) in *; cbn [length] in *; clear Hx1 Hx2|specialize (Hx2 eq_refl)]; split; bools.
  - destruct Hs as (q'' & Hr' & Hq'). rewrite Hr' in Hr. simplify_eq. exists l'. split; [done|].
    set (t' := Th os (Ready false) (rs ++ [r])) in *. set (ts1 := <[i := t']> ts) in *.
    assert (good_thread t') as Hgt by (split; [done|]; cbn; done).
    assert (good_threads ts1) as Hg1 by (eapply good_insert; [done|exact Hi|done]).
    split; [by eapply notify_good|].
    assert (forall d, sum (asleep d) ts1 = sum (asleep d) ts) as Ea by (intros d; unfold ts1; rewrite (sum_insert _ _ _ _ _ Hi); unfold asleep; cbn; lia).
    assert (forall d, sum (ready d) ts - Z.b2z (bool_decide (waits_on o = Some d)) <= sum (ready d) ts1) as Er.
    { intros d. unfold ts1. rewrite (sum_insert _ _ _ _ _ Hi). pose proof (ready_nonneg d t'). unfold ready at 3. cbn. lia. }
    assert (forall d k, balanced d k ts -> balanced d (k - Z.b2z (bool_decide (waits_on o = Some d))) ts1) as Hb
      by (intros d k; unfold balanced; rewrite Ea; specialize (Er d); lia).
    assert (forall d, 0 <= sum (ready d) ts1) as Hr0 by (intros; apply sum_nonneg, ready_nonneg).
    destruct n as [[|]|]; split; (eapply (notify_balanced _ _ _ _ _ _ Hg1 Hn)).
    + apply (Hb _ _ B1).
    + destruct Hx as [-> Hx]. bools.
    + apply (Hb _ _ B2).
    + destruct Hx as [-> Hx]. bools.
    + apply (Hb _ _ B1).
    + destruct Hx as [-> Hx]. bools.
    + apply (Hb _ _ B2).
    + destruct Hx as [-> Hx]. bools.
    + destruct Hx as (-> & Hx1 & _). instantiate (1 := Z.of_nat (length l)). intros Hp. rewrite Ea in Hp.
      destruct (decide (waits_on o = Some PopCond)) as [Ew|Ew]; [rewrite (Hx1 Ew); apply Hr0|]. specialize (Er PopCond). specialize (B1 Hp). bools.
    + destruct Hx as (-> & _). bools.
    + destruct Hx as (-> & _ & Hx2). instantiate (1 := limit - Z.of_nat (length l)). intros Hp. rewrite Ea in Hp.
      destruct (decide (waits_on o = Some PushCond)) as [Ew|Ew]; [specialize (Hx2 Ew); specialize (Hr0 PushCond); lia|]. specialize (Er PushCond). specialize (B2 Hp). bools.
    + destruct Hx as (-> & _). bools.
Qed.

(** ** Progress *)

Lemma wake_weight (t : thread C A) e : weight (wake t e) <= weight t + 1.
Proof. unfold weight, wake. cbn. destruct (todo t), (st t); lia. Qed.

Lemma notify_weight n (ts ts' : list (thread C A)) : notify n ts ts' -> sum weight ts' <= sum weight ts + 1.
Proof.
  intros [| |c us i t Hi Ht]; [lia..|]. rewrite (sum_insert _ _ _ _ _ Hi). pose proof (wake_weight t false). lia.
Qed.

Lemma work_weight s ev s' : work s ev s' -> sum weight (threads s') < sum weight (threads s).
Proof.
  intros Hw. inversion Hw as [q ts i o os e rs c Hi Hr|q ts i o os e rs q' r n ts' Hi Hr Hn]; subst; cbn [threads].
  - rewrite (sum_insert _ _ _ _ _ Hi). unfold weight. cbn. lia.
  - pose proof (notify_weight _ _ _ Hn) as Hle. rewrite (sum_insert _ _ _ _ _ Hi) in Hle. unfold weight at 3 4 in Hle. cbn in Hle. destruct os; cbn in Hle; lia.
Qed.

Lemma awake_weight (s s' : sys C A) : awake s s' -> sum weight (threads s') <= sum weight (threads s) + 1.
Proof.
  intros Hw. inversion Hw as [q ts i t c Hi Hs|q ts i o os c rs Hi Ht]; subst; cbn [threads]; rewrite (sum_insert _ _ _ _ _ Hi).
  - pose proof (wake_weight t false). lia.
  - unfold weight. cbn. lia.
Qed.

Lemma path_weight s w k tr s' : path s w k tr s' -> Z.of_nat w + sum weight (threads s') <= sum weight (threads s) + Z.of_nat k.
Proof.
  induction 1 as [|w k tr s1 s2 _ IH Hw|w k tr s1 ev s2 _ IH Hw|w k tr s1 s2 _ IH Hw]; [lia| | |].
  1,2: pose proof (work_weight _ _ _ Hw); lia. pose proof (awake_weight _ _ Hw); lia.
Qed.

Lemma path_inv s w k tr s' : path s w k tr s' -> inv s -> inv s'.
Proof. intros Hp Hi. induction Hp; eauto using work_inv, awake_inv. Qed.

(** Somebody sleeps on the condition, or nobody does. *)
Lemma sleeper_dec c (ts : list (thread C A)) : (exists i t, ts !! i = Some t /\ st t = Sleeping c) \/ (forall i (t : thread C A), ts !! i = Some t -> st t <> Sleeping c).
Proof.
  destruct (decide (Exists (fun t : thread C A => st t = Sleeping c) ts)) as [E|E].
  - apply Exists_exists in E as (t & Hin & Hs). apply list_elem_of_In, list_elem_of_lookup in Hin as [i Hi]. left. eauto.
  - right. intros i t Hi Hs. apply E, Exists_exists. exists t. split; [apply list_elem_of_In; by eapply list_elem_of_lookup_2|done].
Qed.

Lemma notify_total n (ts : list (thread C A)) : exists ts', notify n ts ts'.
Proof.
  destruct n as [c|]; [|eexists; constructor]. destruct (sleeper_dec c ts) as [(i & t & Hi & Ht)|Hno].
  - eexists. by eapply notify_one.
  - eexists. by apply notify_nobody.
Qed.

(** A thread that is awake can go on: no call is undefined. *)
Lemma ready_works s i o os e rs : inv s -> threads s !! i = Some (Th (o :: os) (Ready e) rs) -> exists ev s', work s ev s'.
Proof.
  destruct s as [q ts]. intros (l & Hq & Hg & _) Hi. cbn in *. destruct (Hg _ _ Hi) as [Hs _]. inversion Hs as [|? ? Ho]; subst.
  pose proof (run_ok m_maxSize limit_ok o e q l Hq (single_call_ok o Ho)) as Hr. destruct (spec m_maxSize q o e l) as [c|l' r n].
  - eexists _, _. by eapply work_block.
  - destruct Hr as (q' & Hr & _). destruct (notify_total n (<[i := Th os (Ready false) (rs ++ [r])]> ts)) as [ts' Hn].
    eexists _, _. by eapply work_return.
Qed.

Definition can_go (t : thread C A) : bool := match todo t, st t with _ :: _, Ready _ => true | _, _ => false end.

(** Where no thread can take the mutex and go on, those left wait for good reason. *)
Lemma quiet s : inv s -> (exists ev s', work s ev s') \/ exists l, holds (queue s) l /\
  ((forall i t, threads s !! i = Some t -> todo t = []) \/
   (l = [] /\ forall i t, threads s !! i = Some t -> todo t = [] \/ st t = Sleeping PopCond) \/
   (limit <= Z.of_nat (length l) /\ forall i t, threads s !! i = Some t -> todo t = [] \/ st t = Sleeping PushCond)).
Proof.
  intros Hi. destruct (decide (Exists (fun t : thread C A => can_go t = true) (threads s))) as [E|E].
  { left. apply Exists_exists in E as ([[|o os] [e|c] rs] & Hin & Ht); try done.
    apply list_elem_of_In, list_elem_of_lookup in Hin as [i Hl]. eapply ready_works; [done|exact Hl]. }
  right. destruct Hi as (l & Hq & Hg & B1 & B2). exists l. split; [done|].
  assert (forall i t, threads s !! i = Some t -> todo t = [] \/ exists c, st t = Sleeping c) as Hall.
  { intros i t Ht. destruct (todo t) eqn:Et; [by left|right]. destruct (st t) as [e|c] eqn:Es; [|eauto].
    exfalso. apply E, Exists_exists. exists t. split; [apply list_elem_of_In; by eapply list_elem_of_lookup_2|]. unfold can_go. by rewrite Et, Es. }
  assert (forall c, sum (ready c) (threads s) = 0) as Hr0.
  { intros c. apply sum_zero. intros i t Ht. unfold ready. destruct (Hall i t Ht) as [->|[c' ->]]; [done|by destruct (todo t)]. }
  assert (forall c i t, threads s !! i = Some t -> st t = Sleeping c -> 0 < sum (asleep c) (threads s)) as Hs0.
  { intros c i t Ht Hs. pose proof (sum_pos (asleep c) _ _ _ (asleep_nonneg c) Ht) as P. unfold asleep at 1 in P. rewrite Hs, bool_decide_eq_true_2 in P by done. cbn in P. lia. }
  unfold balanced in *. rewrite Hr0 in *.
  destruct (sleeper_dec PopCond (threads s)) as [(i & t & Hi & Ht)|N1]; [|destruct (sleeper_dec PushCond (threads s)) as [(i & t & Hi & Ht)|N2]].
  - right. left. assert (Z.of_nat (length l) <= 0) as L by eauto. destruct l; [|cbn in L; lia]. split; [done|].
    intros j u Hj. destruct (Hall j u Hj) as [|[[|] ?]]; eauto. exfalso. assert (limit - Z.of_nat (length (@nil A)) <= 0) by eauto. cbn in *. lia.
  - right. right. assert (limit - Z.of_nat (length l) <= 0) by eauto. split; [lia|]. intros j u Hj. destruct (Hall j u Hj) as [|[[|] ?]]; eauto. exfalso. by eapply N1.
  - left. intros i t Hi. destruct (Hall i t Hi) as [|[[|] ?]]; [done|exfalso; by eapply N1|exfalso; by eapply N2].
Qed.
End props.

(** Threads with programs, before any of them runs. *)
Definition start {C A} (q : C) (progs : list (list (op C A))) : sys C A := Sys q (map (fun p => Th p (Ready false) []) progs).

Lemma start_todo {C A} (P : op C A -> Prop) (q : C) progs : Forall (Forall P) progs -> all_todo P (threads (start q progs)).
Proof.
  intros Hf i t. cbn. rewrite list_lookup_fmap. destruct (progs !! i) as [p|] eqn:E; [|done]. intros [= <-]. cbn.
  rewrite Forall_lookup in Hf. eauto.
Qed.

Lemma start_weight {C A} (q : C) (progs : list (list (op C A))) : sum weight (threads (start q progs)) <= 3 * Z.of_nat (length (concat progs)).
Proof.
  cbn. induction progs as [|p ps IH]; cbn [map sum concat]; [done|]. rewrite length_app. unfold weight at 1. cbn [todo st]. destruct p; cbn [length] in *; lia.
Qed.

Lemma start_inv {C A} `{ContainerLaws C A cap holds} m_maxSize q l progs : holds q l -> Forall (Forall (fun o => single o = true)) progs ->
  inv (cap := cap) (holds := holds) m_maxSize (start q progs).
Proof.
  intros Hq Hs. exists l. split; [done|]. split.
  - intros i t Hi. split; [by eapply (start_todo _ q)|]. intros c. cbn in Hi. rewrite list_lookup_fmap in Hi.
    destruct (progs !! i); [|done]. injection Hi as <-. cbn. done.
  - split; intros Ha; exfalso; rewrite sum_zero in Ha; try lia; intros i t Hi; cbn in Hi; rewrite list_lookup_fmap in Hi;
      (destruct (progs !! i); [|done]); injection Hi as <-; done.
Qed.

(** ** Running a schedule

    A schedule says which thread gets the mutex, and whom it wakes if it notifies. *)

Section schedule.
Context {C A : Type} `{Container C A} (m_maxSize : Z).

Definition do_notify (n : option cond) (j : option nat) (ts : list (thread C A)) : option (list (thread C A)) :=
  match n, j with
  | None, _ => Some ts
  | Some c, None => if forallb (fun t => negb (bool_decide (st t = Sleeping c))) ts then Some ts else None
  | Some c, Some j => match ts !! j with
      | Some t => if bool_decide (st t = Sleeping c) then Some (<[j := wake t false]> ts) else None
      | None => None end
  end.

Definition do_work (i : nat) (j : option nat) (s : sys C A) : option (option (op C A * bool * ret A) * sys C A) :=
  match threads s !! i with
  | Some (Th (o :: os) (Ready e) rs) => match run m_maxSize o e (queue s) with
      | Ok (Block c) => Some (None, Sys (queue s) (<[i := Th (o :: os) (Sleeping c) rs]> (threads s)))
      | Ok (Return q' r n) => match do_notify n j (<[i := Th os (Ready false) (rs ++ [r])]> (threads s)) with
          | Some ts' => Some (Some (o, e, r), Sys q' ts') | None => None end
      | _ => None end
  | _ => None
  end.

Fixpoint schedule (cs : list (nat * option nat)) (s : sys C A) (w : nat) (tr : list (op C A * bool * ret A)) :
    option (nat * list (op C A * bool * ret A) * sys C A) :=
  match cs with
  | [] => Some (w, tr, s)
  | (i, j) :: cs => match do_work i j s with
      | Some (None, s') => schedule cs s' (S w) tr
      | Some (Some ev, s') => schedule cs s' (S w) (tr ++ [ev])
      | None => None end
  end.

Lemma do_notify_ok n j ts ts' : do_notify n j ts = Some ts' -> notify n ts ts'.
Proof.
  unfold do_notify. destruct n as [c|]; [|intros [= <-]; constructor]. destruct j as [j|].
  - destruct (ts !! j) as [t|] eqn:E; [|done]. destruct (bool_decide (st t = Sleeping c)) eqn:Es; [|done]. intros [= <-].
    apply bool_decide_eq_true_1 in Es. by econstructor.
  - destruct (forallb _ ts) eqn:E; [|done]. intros [= <-]. constructor. intros i t Hi Hs.
    rewrite forallb_forall in E. specialize (E t). rewrite bool_decide_eq_true_2 in E by done.
    discriminate E. apply list_elem_of_In. by eapply list_elem_of_lookup_2.
Qed.

Lemma do_work_ok i j s ev s' : do_work i j s = Some (ev, s') -> work m_maxSize s ev s'.
Proof.
  unfold do_work. destruct s as [q ts]. cbn. destruct (ts !! i) as [[[|o os] [e|] rs]|] eqn:Hi; try done.
  destruct (run m_maxSize o e q) as [[c|q' r n]| | |] eqn:Hr; try done.
  - intros [= <- <-]. by eapply work_block.
  - destruct (do_notify n j _) as [ts'|] eqn:Hn; [|done]. intros [= <- <-]. eapply work_return; [done..|]. by eapply do_notify_ok.
Qed.

Lemma schedule_path s0 cs : forall s w k tr w' tr' s', path m_maxSize s0 w k tr s -> schedule cs s w tr = Some (w', tr', s') ->
  path m_maxSize s0 w' k tr' s'.
Proof.
  induction cs as [|[i j] cs IH]; intros s w k tr w' tr' s' Hp; cbn [schedule]; [by intros [= <- <- <-]|].
  destruct (do_work i j s) as [[[ev|] s1]|] eqn:Hw; [| |done]; intros Hs; apply do_work_ok in Hw; (eapply IH; [|exact Hs]).
  - by eapply path_return.
  - by eapply path_block.
Qed.

(** No thread can take the mutex and go on. *)
Definition stuck (s : sys C A) : bool := forallb (fun t => match todo t, st t with _ :: _, Ready _ => false | _, _ => true end) (threads s).

Lemma stuck_ok s ev s' : stuck s = true -> ~ work m_maxSize s ev s'.
Proof.
  unfold stuck. rewrite forallb_forall. intros Hs Hw. inversion Hw as [q ts i o os e rs c Hi Hr|q ts i o os e rs q' r n ts' Hi Hr Hn]; subst;
    (specialize (Hs _ (proj1 (list_elem_of_In _ _) (list_elem_of_lookup_2 _ _ _ Hi))); done).
Qed.
End schedule.

(** C27: First in, first out, whatever the threads do: over any container that keeps
    the promises of the class, in any interleaving of any calls that push at the back
    and pop at the front (one element, several at once, with a timeout, without
    waiting, with a predicate), spurious wake-ups included, the elements popped so
    far, in the order of the pops, followed by those still in the queue are the
    elements pushed, in the order of the pushes. *)
Theorem concurrent_queue_fifo {C A} `{HL : ContainerLaws C A cap holds} (m_maxSize : Z) (q0 : C) (progs : list (list (op C A))) w k tr s :
  0 < limit (C := C) (cap := cap) m_maxSize <= cap -> holds q0 [] ->
  Forall (Forall (fun o => call_ok o /\ fifo o = true)) progs ->
  path m_maxSize (start q0 progs) w k tr s ->
  exists l, holds (queue s) l /\ concat (map pushed tr) = concat (map popped tr) ++ l.
Proof.
  intros Hlim Hq Hf Hp. assert (all_todo (fun o => call_ok o /\ fifo o = true) (threads (start q0 progs))) as Ha by by apply start_todo.
  destruct (path_trace m_maxSize _ _ _ _ _ _ Hp Ha) as [_ Ht].
  destruct (path_replay m_maxSize Hlim _ _ _ _ _ [] Hp) as (_ & l & Hl & R); [|done|].
  - intros i t Hi. eapply Forall_impl; [|by apply (Ha i)]. by intros ? [? _].
  - exists l. split; [done|]. by apply (replay_moves m_maxSize _ _ _ R Ht).
Qed.

(** C28: No wake-up is lost when every call moves one element: the threads take the
    mutex at most three times per call, plus once for every wake-up that no call
    caused; and in every state they can reach, either some thread can take the mutex
    and go on (no call is undefined), or every thread has finished, or the queue is
    empty and the others all wait to pop, or it is full and they all wait to push. *)
Theorem concurrent_queue_live {C A} `{HL : ContainerLaws C A cap holds} (m_maxSize : Z) (q0 : C) (l0 : list A) (progs : list (list (op C A))) w k tr s :
  0 < limit (C := C) (cap := cap) m_maxSize <= cap -> holds q0 l0 ->
  Forall (Forall (fun o => single o = true)) progs ->
  path m_maxSize (start q0 progs) w k tr s ->
  Z.of_nat w <= 3 * Z.of_nat (length (concat progs)) + Z.of_nat k /\
  ((exists ev s', work m_maxSize s ev s') \/ exists l, holds (queue s) l /\
   ((forall i t, threads s !! i = Some t -> todo t = []) \/
    (l = [] /\ forall i t, threads s !! i = Some t -> todo t = [] \/ st t = Sleeping PopCond) \/
    (limit (C := C) (cap := cap) m_maxSize <= Z.of_nat (length l) /\ forall i t, threads s !! i = Some t -> todo t = [] \/ st t = Sleeping PushCond))).
Proof.
  intros Hlim Hq Hs Hp. split.
  - pose proof (path_weight m_maxSize _ _ _ _ _ Hp). pose proof (start_weight q0 progs).
    pose proof (sum_nonneg weight (threads s) weight_nonneg). lia.
  - apply (quiet m_maxSize Hlim). eapply (path_inv m_maxSize Hlim); [exact Hp|]. by eapply start_inv.
Qed.

(** ** A sample: one producer and one consumer on a queue of two *)

Definition demo_queue : circular_queue Z := CQ (replicate 3 None) 0 0 3.
#[export] Instance demo_container : Container (circular_queue Z) Z := circular_container false false Z.
#[export] Instance demo_laws : ContainerLaws (circular_queue Z) Z 2 (circular_holds false 3) := circular_laws false false Z 3.

Lemma demo_holds : circular_holds false 3 demo_queue [].
Proof. destruct (@make_ok Z false 3 ltac:(done)) as (q & E & R & N). injection E as <-. done. Qed.

Definition demo_progs : list (list (op (circular_queue Z) Z)) := [[PushBack 1; PushBack 2; PushBack 3]; [PopFront; PopFront]].

(** The consumer comes first and sleeps; the producer fills the queue and sleeps;
    the consumer takes two, and the producer puts the last. *)
Definition demo_schedule : list (nat * option nat) :=
  [(1, None); (0, Some 1); (0, None); (0, None); (1, Some 0); (1, None); (0, None)]%nat.

Definition demo_end : sys (circular_queue Z) Z :=
  Sys (CQ [None; None; Some 3] 2 0 3) [Th [] (Ready false) [RUnit; RUnit; RUnit]; Th [] (Ready false) [RElem 1; RElem 2]].

Definition demo_trace : list (op (circular_queue Z) Z * bool * ret Z) :=
  [(PushBack 1, false, RUnit); (PushBack 2, false, RUnit); (PopFront, false, RElem 1); (PopFront, false, RElem 2); (PushBack 3, false, RUnit)].

Lemma demo_path : path 2 (start demo_queue demo_progs) 7 0 demo_trace demo_end.
Proof. eapply (schedule_path 2 _ demo_schedule); [apply path_nil|]. vm_compute. reflexivity. Qed.

Lemma concurrent_queue_fifo_witness :
  path 2 (start demo_queue demo_progs) 7 0 demo_trace demo_end /\
  exists l, circular_holds false 3 (queue demo_end) l /\ concat (map pushed demo_trace) = concat (map popped demo_trace) ++ l.
Proof.
  split; [apply demo_path|]. apply (concurrent_queue_fifo (cap := 2) (holds := circular_holds false 3) 2 demo_queue demo_progs 7 0 demo_trace demo_end).
  - cbn. lia.
  - apply demo_holds.
  - repeat constructor.
  - apply demo_path.
Defined.

Lemma concurrent_queue_live_witness :
  path 2 (start demo_queue demo_progs) 7 0 demo_trace demo_end /\ 7 <= 3 * 5 + 0 /\
  ((exists ev s', work 2 demo_end ev s') \/ exists l, circular_holds false 3 (queue demo_end) l /\
   ((forall i t, threads demo_end !! i = Some t -> todo t = []) \/
    (l = [] /\ forall i t, threads demo_end !! i = Some t -> todo t = [] \/ st t = Sleeping PopCond) \/
    (2 <= Z.of_nat (length l) /\ forall i t, threads demo_end !! i = Some t -> todo t = [] \/ st t = Sleeping PushCond))).
Proof.
  split; [apply demo_path|]. refine (concurrent_queue_live (cap := 2) (holds := circular_holds false 3) 2 demo_queue [] demo_progs 7 0 demo_trace demo_end _ _ _ _).
  - cbn. lia.
  - apply demo_holds.
  - repeat constructor.
  - apply demo_path.
Defined.

(** What a ring of three slots holds can be seen by looking at its slots. *)
Lemma demo_repr (q : circular_queue Z) l : m_nlen q = 3 -> bool_decide (length (m_vec q) = 3%nat /\ 0 <= m_head q < 3 /\ (length l < 3)%nat /\
  m_tail q = (m_head q + Z.of_nat (length l)) mod 3 /\
  Forall (fun i => m_vec q !! Z.to_nat ((m_head q + i) mod 3) = Some (l !! Z.to_nat i)) [0; 1; 2]) = true -> repr false q l.
Proof.
  intros N (Lv & Hh & Ll & Ht & Hs)%bool_decide_eq_true_1. inversion Hs as [|? ? H0 Hs1]; subst. inversion Hs1 as [|? ? H1 Hs2]; subst. inversion Hs2 as [|? ? H2 _]; subst.
  split; rewrite ?N; try done; try lia. intros i Hi. assert (i = 0 \/ i = 1 \/ i = 2) as [->|[->| ->]] by lia; done.
Qed.

(** ** Wake-ups that are lost *)

Definition batch_progs : list (list (op (circular_queue Z) Z)) := [[PushBackN [1; 2] 2]; [PopFront]; [PopFront]].
Definition if_progs : list (list (op (circular_queue Z) Z)) := [[PushBack 1]; [PopFrontIf (fun _ => false)]; [PopFront]].

(** C29: [push_back_n] and [pop_front_if] lose wake-ups, since they notify, or are
    notified, with [notify_one].  Two consumers sleep, a batch of two elements wakes
    one of them, and the other sleeps on with an element in the queue; and a push
    that wakes a consumer whose predicate is false leaves the other consumer asleep
    with an element in the queue.  No thread can go on in either state. *)
Theorem batch_and_predicate_lose_wakeups :
  (exists tr s, path 2 (start demo_queue batch_progs) 4 0 tr s /\
    circular_holds false 3 (queue s) [2] /\ threads s !! 2%nat = Some (Th [PopFront] (Sleeping PopCond) []) /\
    forall ev s', ~ work 2 s ev s') /\
  (exists tr s, path 2 (start demo_queue if_progs) 4 0 tr s /\
    circular_holds false 3 (queue s) [1] /\ threads s !! 2%nat = Some (Th [PopFront] (Sleeping PopCond) []) /\
    forall ev s', ~ work 2 s ev s').
Proof.
  split.
  - destruct (schedule 2 [(1, None); (2, None); (0, Some 1); (1, None)]%nat (start demo_queue batch_progs) 0 []) as [[[w tr] s]|] eqn:E; [|discriminate].
    pose proof E as E'. vm_compute in E'. injection E' as <- <- <-. eexists _, _. split; [eapply schedule_path; [apply path_nil|exact E]|].
    split; [|split; [reflexivity|intros ev s'; by apply stuck_ok]]. split; [|reflexivity].
    by apply demo_repr.
  - destruct (schedule 2 [(1, None); (2, None); (0, Some 1); (1, None)]%nat (start demo_queue if_progs) 0 []) as [[[w tr] s]|] eqn:E; [|discriminate].
    pose proof E as E'. vm_compute in E'. injection E' as <- <- <-. eexists _, _. split; [eapply schedule_path; [apply path_nil|exact E]|].
    split; [|split; [reflexivity|intros ev s'; by apply stuck_ok]]. split; [|reflexivity].
    by apply demo_repr.
Qed.
End ConcQueueProps.
