(* ===== verification/SerialStep.v ===== *)
(** * The step that keeps the order

    [run_serial_step_fast] and [run_serial_step_slow] of [thread/pipeline.cpp]: a
    stage with one thread that gets tasks in any order and hands them on in the order
    of their serial numbers.  The tasks a stage receives are a list here; [recv_fast]
    and [recv_slow] are the bodies of the [while (isPrevRunning())] loops after a task
    has been popped, [flush_fast] and [flush_slow] what follows the loops. *)
From Stdlib Require Import Sorted.
From S2P Require Import Prelude.

Module SerialStep.

(** ** The part of the standard library that is used *)

(** A binary heap with the least key in front ([plserial_greater]). *)
Definition is_heap {I} (key : I -> Z) (l : list I) : Prop :=
  forall i x y, l !! i = Some x -> l !! ((i - 1) / 2)%nat = Some y -> key y <= key x.

(** [std::push_heap], [std::pop_heap] and [std::sort] as the standard specifies them:
    [push_heap] turns a heap with one more element behind it into a heap, [pop_heap]
    puts the front of a heap behind a heap of the others. *)
Class StdHeap (I : Type) (key : I -> Z) := {
  push_heap : list I -> list I;
  pop_heap : list I -> list I;
  std_sort : list I -> list I;
  push_heap_ok l x : is_heap key l -> push_heap (l ++ [x]) ≡ₚ l ++ [x] /\ is_heap key (push_heap (l ++ [x]));
  pop_heap_ok x l : is_heap key (x :: l) -> exists l', pop_heap (x :: l) = l' ++ [x] /\ l' ≡ₚ l /\ is_heap key l';
  std_sort_ok l : std_sort l ≡ₚ l /\ StronglySorted (fun a b => key a <= key b) (std_sort l)
}.

(** ** Items and what the stage does with them *)

Section step.
Context {Task : Type}.

(** [PipelineQueueItem]; the task is [None] when the pointer is null. *)
Record item := Item { plserial : Z; task : option Task }.
Definition no_item : item := Item 0 None.

Context `{StdHeap item plserial}.
(** The stage's virtual function, whether the stage is the last one, and the build. *)
Context (process : item -> res item) (is_last debug : bool).

(** [m_out_queue->push_back(item)] and [m_owner->destroyTask(task)]. *)
Inductive event := Push (x : item) | Destroy (t : Task).

Definition nlen : Z := if debug then 4 else 64.
Definition i64 (z : Z) : Z := (z + 2 ^ 63) mod 2 ^ 64 - 2 ^ 63.

(** [CHECK_SERIAL()] *)
Definition check_serial (x : item) (m_plserial : Z) : res unit :=
  if debug then assert_ (m_plserial <=? plserial x)
  else if plserial x <? m_plserial then Throw runtime_error else Ok tt.

(** [if (task) process(...)]: the item afterwards. *)
Definition run_process (x : item) : res item := match task x with Some _ => process x | None => Ok x end.

(** What is done with an item that has been processed. *)
Definition hand_on (x : item) : list event :=
  if is_last then match task x with Some t => [Destroy t] | None => [] end else [Push x].

(** *** [run_serial_step_fast] *)

Record fast := Fast {
  head : Z;
  cache : list item;
  overflow : list item;
  m_plserial : Z
}.

Definition init_fast : fast := Fast 0 (replicate (Z.to_nat nlen) no_item) [] 1.

(** Moves the front of [overflow] out: [pop_heap] and [pop_back]. *)
Definition pop_overflow (overflow : list item) : list item := removelast (pop_heap overflow).

(** [do { ... } while (!overflow.empty());] *)
Definition drain (head m_plserial : Z) (cache overflow : list item) : res (list item * list item) :=
  loop (length overflow + 1) (fun '(cache, overflow) =>
    let* x := rd overflow 0 in
    let diff := i64 (plserial x - m_plserial) in
    if diff <? nlen then
      let index := Z.rem (head + diff) nlen in
      let* cache := wr cache index x in
      let overflow := pop_overflow overflow in
      Ok (match overflow with [] => inr (cache, overflow) | _ => inl (cache, overflow) end)
    else Ok (inr (cache, overflow))) (cache, overflow).

(** Where a task that has been popped goes. *)
Definition place (st : fast) (x : item) : res fast :=
  let diff := i64 (plserial x - m_plserial st) in
  if diff <? nlen then
    let index := Z.rem (head st + diff) nlen in
    let* cache := wr (cache st) index x in
    Ok (Fast (head st) cache (overflow st) (m_plserial st))
  else
    let ov := overflow st ++ [x] in
    if 2 <=? Z.of_nat (length ov) then
      let* (c, o) := drain (head st) (m_plserial st) (cache st) (push_heap ov) in
      Ok (Fast (head st) c o (m_plserial st))
    else Ok (Fast (head st) (cache st) ov (m_plserial st)).

(** [while (cache[head].plserial == m_plserial)] *)
Definition emit_fast (st : fast) : res (fast * list event) :=
  loop (Z.to_nat nlen + length (overflow st) + 1) (fun '(st, evs) =>
    let* x := rd (cache st) (head st) in
    if negb (plserial x =? m_plserial st) then Ok (inr (st, evs)) else
    let* x := run_process x in
    let* cache := wr (cache st) (head st) no_item in
    let m_plserial := u64 (m_plserial st + 1) in
    let head := Z.rem (head st + 1) nlen in
    let evs := evs ++ hand_on x in
    match overflow st with
    | y :: _ => if plserial y =? m_plserial then
        let* cache := wr cache head y in Ok (inl (Fast head cache (pop_overflow (overflow st)) m_plserial, evs))
      else Ok (inl (Fast head cache (overflow st) m_plserial, evs))
    | [] => Ok (inl (Fast head cache [] m_plserial, evs))
    end) (st, []).

Definition recv_fast (st : fast) (x : item) : res (fast * list event) :=
  let* _ := check_serial x (m_plserial st) in
  let* st := place st x in
  emit_fast st.

(** [for (; i != end; ++i)] over the sorted rest, each item processed and then given
    to [hand]. *)
Fixpoint emit_all {E} (hand : item -> list E) (l : list item) : res (list E) :=
  match l with
  | [] => Ok []
  | x :: l => let* y := run_process x in let* evs := emit_all hand l in Ok (hand y ++ evs)
  end.

Definition flush_fast (st : fast) : res (list event) :=
  let* ov := for_ 0 nlen (fun i ov =>
    let* x := rd (cache st) i in Ok (if plserial x =? 0 then ov else ov ++ [x])) (overflow st) in
  emit_all hand_on (std_sort ov).

(** *** [run_serial_step_slow] *)

Record slow := Slow { heap : list item; s_plserial : Z }.

Definition init_slow : slow := Slow [] 1.

(** The argument [fdo] of the slow version is what it calls with each item when its
    turn has come.  The two functions declared for it, [serial_step_do_mid] and
    [serial_step_do_last], are defined nowhere, so it is a parameter: a function from
    the item to whatever it does, a list of effects of any type. *)
Section callback.
Context {E : Type} (fdo : item -> list E).

Definition recv_slow (st : slow) (x : item) : res (slow * list E) :=
  let* _ := check_serial x (s_plserial st) in
  if plserial x =? s_plserial st then
    loop (length (heap st) + 1) (fun '(x, cache, m_plserial, evs) =>
      let* y := run_process x in
      let evs := evs ++ fdo y in
      let m_plserial := u64 (m_plserial + 1) in
      match cache with
      | z :: _ => if plserial z =? m_plserial then Ok (inl (z, removelast (pop_heap cache), m_plserial, evs))
                  else Ok (inr (Slow cache m_plserial, evs))
      | [] => Ok (inr (Slow cache m_plserial, evs))
      end) (x, heap st, s_plserial st, [])
  else Ok (Slow (push_heap (heap st ++ [x])) (s_plserial st), []).

Definition flush_slow (st : slow) : res (list E) := emit_all fdo (std_sort (heap st)).
End callback.

(** *** A run of the stage: the tasks it receives, then the end of the loop *)

Fixpoint recv_all {S E} (recv : S -> item -> res (S * list E)) (st : S) (xs : list item) : res (S * list E) :=
  match xs with
  | [] => Ok (st, [])
  | x :: xs => let* (st, evs) := recv st x in let* (st, evs') := recv_all recv st xs in Ok (st, evs ++ evs')
  end.

Definition run_serial_step_fast (xs : list item) : res (list event) :=
  let* (st, evs) := recv_all recv_fast init_fast xs in
  let* evs' := flush_fast st in Ok (evs ++ evs').

Definition run_serial_step_slow {E} (fdo : item -> list E) (xs : list item) : res (list E) :=
  let* (st, evs) := recv_all (recv_slow fdo) init_slow xs in
  let* evs' := flush_slow fdo st in Ok (evs ++ evs').

End step.
Arguments item : clear implicits.
Arguments event : clear implicits.
Arguments fast : clear implicits.
Arguments slow : clear implicits.
End SerialStep.
