(* ===== verification/SerialStepProps.v ===== *)
(** * The order of the serial step

    Whatever order the tasks come in, both versions hand on the tasks in the order of
    their serial numbers, each as soon as all earlier ones have come. *)
From Stdlib Require Import Sorted.
From stdpp Require Import sorting.
From S2P Require Import Prelude SerialStep.
Import SerialStep.

Module SerialStepProps.

(** ** Heaps *)

Lemma removelast_snoc {A} (l : list A) x : removelast (l ++ [x]) = l.
Proof. apply removelast_last. Qed.

(** The front of a heap is its least element. *)
Lemma heap_min {I} (key : I -> Z) x l : is_heap key (x :: l) -> Forall (fun y => key x <= key y) (x :: l).
Proof.
  intros Hh. apply Forall_lookup. intros i. induction i as [i IH] using lt_wf_ind. intros y Hy.
  destruct i as [|i]; [by injection Hy as ->|]. pose proof (Nat.Div0.div_le_upper_bound i 2 i ltac:(lia)) as D.
  assert (((S i - 1) / 2 < S i)%nat) as L by (replace (S i - 1)%nat with i by lia; lia).
  destruct (lookup_lt_is_Some_2 (x :: l) ((S i - 1) / 2)%nat) as [z Hz]; [apply lookup_lt_Some in Hy; lia|].
  specialize (IH _ L _ Hz). cbn beta in IH. pose proof (Hh _ _ _ Hy Hz). lia.
Qed.

Lemma heap_nil {I} (key : I -> Z) : is_heap key [].
Proof. intros i x y. done. Qed.

Lemma heap_one {I} (key : I -> Z) x : is_heap key [x].
Proof. intros [|[]] y z; [|done..]. intros [= <-]. cbn. intros [= <-]. done. Qed.

(** A sorted list is a heap, so that sorting is one way to implement the functions. *)
Lemma sorted_heap {I} (key : I -> Z) l : StronglySorted (fun a b => key a <= key b) l -> is_heap key l.
Proof.
  intros Hs i x y Hx Hy. destruct i as [|i]; [cbn in *; simplify_eq; done|].
  assert (((S i - 1) / 2 < S i)%nat) as L by (pose proof (Nat.Div0.div_le_upper_bound i 2 i ltac:(lia)); replace (S i - 1)%nat with i by lia; lia).
  revert Hx Hy L. generalize ((S i - 1) / 2)%nat as j. generalize (S i) as k. clear i. induction Hs as [|z l Hs IH Hz]; intros k j Hx Hy L; [done|].
  destruct k as [|k]; [lia|]. destruct j as [|j]; cbn in *; [injection Hy as ->; rewrite Forall_lookup in Hz; by eapply Hz|]. eapply IH; [done..|lia].
Qed.

(** ** The invariant *)

Section order.
Context {Task : Type} `{StdHeap (item Task) plserial}.
Context (process : item Task -> res (item Task)) (is_last debug : bool).
Implicit Types (x y : item Task) (l xs : list (item Task)).
#[local] Abbreviation nlen := (nlen debug).

Lemma nlen_pos : 0 < nlen.
Proof. unfold SerialStep.nlen. by destruct debug. Qed.

Definition nz (x : item Task) : bool := negb (plserial x =? 0).
Definition serials (l : list (item Task)) : list Z := map plserial l.

(** What has been received and not handed on. *)
Definition pending (st : fast Task) : list (item Task) := overflow st ++ List.filter nz (cache st).

(** The slot [d] places behind the head is free, or holds the item that is due in
    [d] turns; what has overflowed is a heap of items that are not due yet. *)
Record valid (st : fast Task) : Prop := {
  v_serial : 1 <= m_plserial st < 2 ^ 63;
  v_cache : Z.of_nat (length (cache st)) = nlen;
  v_head : 0 <= head st < nlen;
  v_slot d : 0 <= d < nlen -> exists x, cache st !! Z.to_nat ((head st + d) mod nlen) = Some x /\ (x = no_item \/ plserial x = m_plserial st + d);
  v_heap : is_heap plserial (overflow st);
  v_later : Forall (fun x => m_plserial st < plserial x) (overflow st)
}.

Lemma filter_insert_nz l i x y : l !! i = Some y -> nz y = false -> nz x = true -> List.filter nz (<[i := x]> l) ≡ₚ x :: List.filter nz l.
Proof.
  intros Hi Hy Hx. pose proof (lookup_lt_Some _ _ _ Hi). rewrite insert_take_drop by done. rewrite <- (take_drop_middle l i y Hi) at 3.
  rewrite !List.filter_app. cbn. rewrite Hx, Hy. by rewrite <- Permutation_middle.
Qed.

Lemma filter_insert_free l i x : l !! i = Some x -> nz x = true -> x :: List.filter nz (<[i := no_item]> l) ≡ₚ List.filter nz l.
Proof.
  intros Hi Hx. pose proof (lookup_lt_Some _ _ _ Hi). rewrite insert_take_drop by done. rewrite <- (take_drop_middle l i x Hi) at 3.
  rewrite !List.filter_app. cbn. rewrite Hx. by rewrite <- Permutation_middle.
Qed.

Lemma in_pending_cache st i x : cache st !! i = Some x -> nz x = true -> x ∈ pending st.
Proof.
  intros Hi Hx. unfold pending. apply elem_of_app. right. apply list_elem_of_In, filter_In. split; [|done].
  apply list_elem_of_In. by eapply list_elem_of_lookup_2.
Qed.

Lemma ring_ne h i j : 0 <= i < nlen -> 0 <= j < nlen -> i <> j -> Z.to_nat ((h + i) mod nlen) <> Z.to_nat ((h + j) mod nlen).
Proof.
  intros Hi Hj Hne E. pose proof nlen_pos as Hp. pose proof (Z.mod_pos_bound (h + i) nlen Hp). pose proof (Z.mod_pos_bound (h + j) nlen Hp).
  assert ((h + i) mod nlen = (h + j) mod nlen) as E' by lia. clear E.
  pose proof (Z.mod_eq (h + i) nlen ltac:(lia)). pose proof (Z.mod_eq (h + j) nlen ltac:(lia)).
  assert (i - j = nlen * ((h + i) / nlen - (h + j) / nlen)) by lia.
  destruct (Z.eq_dec ((h + i) / nlen - (h + j) / nlen) 0) as [E0|]; [rewrite E0 in *; lia|nia].
Qed.

(** Writing an item into the slot where it is due. *)
Lemma put_cache st x : valid st -> 0 <= plserial x - m_plserial st < nlen -> ~ In (plserial x) (serials (pending st)) ->
  exists c, wr (cache st) (Z.rem (head st + (plserial x - m_plserial st)) nlen) x = Ok c /\
    List.filter nz c ≡ₚ x :: List.filter nz (cache st) /\ valid (Fast (head st) c (overflow st) (m_plserial st)).
Proof.
  intros V Hd Hx. set (d := plserial x - m_plserial st) in *. pose proof nlen_pos as Hp. pose proof (v_head _ V) as Hh. pose proof (v_cache _ V) as Hc. pose proof (v_serial _ V).
  rewrite Z.rem_mod_nonneg by lia. destruct (v_slot _ V d Hd) as (y & Hy & Sy). pose proof (Z.mod_pos_bound (head st + d) nlen Hp).
  rewrite wr_ok by lia. eexists. split; [done|].
  assert (nz y = false) as Ny.
  { destruct (nz y) eqn:Ny; [|done]. destruct Sy as [->|Sy]; [done|]. exfalso. apply Hx. replace (plserial x) with (plserial y) by lia.
    apply in_map. apply list_elem_of_In. by eapply in_pending_cache. }
  split.
  - eapply filter_insert_nz; [done..|]. unfold nz. destruct (Z.eqb_spec (plserial x) 0); [lia|done].
  - split; cbn [cache head overflow m_plserial]; [done|by rewrite length_insert|done| |apply V|apply V].
    intros e He. destruct (decide (e = d)) as [->|Hne].
    + exists x. rewrite list_lookup_insert_eq by lia. split; [done|]. right. lia.
    + destruct (v_slot _ V e He) as (z & Hz & Sz). exists z. rewrite list_lookup_insert_ne; [done|]. apply ring_ne; [done..|]. auto.
Qed.

Lemma i64_small z : 0 <= z < 2 ^ 63 -> i64 z = z.
Proof. intros. unfold i64. rewrite Z.mod_small; lia. Qed.

(** [pop_heap] and [pop_back]. *)
Lemma pop_overflow_ok x l : is_heap plserial (x :: l) -> pop_overflow (x :: l) ≡ₚ l /\ is_heap plserial (pop_overflow (x :: l)).
Proof.
  intros Hh. destruct (pop_heap_ok x l Hh) as (l' & E & P & Hl). unfold pop_overflow. rewrite E, removelast_snoc. done.
Qed.

Lemma serials_perm l l' : l ≡ₚ l' -> serials l ≡ₚ serials l'.
Proof. intros. by apply Permutation_map. Qed.

Lemma drain_ok st : valid st -> NoDup (serials (pending st)) -> Forall (fun x => plserial x < 2 ^ 63) (overflow st) -> overflow st <> [] ->
  exists c o, drain debug (head st) (m_plserial st) (cache st) (overflow st) = Ok (c, o) /\
    let st' := Fast (head st) c o (m_plserial st) in valid st' /\ pending st' ≡ₚ pending st.
Proof.
  intros V ND Hb Hne. unfold drain.
  edestruct (loop_inv (fun '(c, o) => let st' := Fast (head st) c o (m_plserial st) in valid st' /\ pending st' ≡ₚ pending st /\ o <> [] /\ Forall (fun x => plserial x < 2 ^ 63) o)
    (fun '(c, o) => Z.of_nat (length o)) (fun '(c, o) => let st' := Fast (head st) c o (m_plserial st) in valid st' /\ pending st' ≡ₚ pending st)) as ([c o] & E & Hr).
  4: { exists c, o. split; [exact E|done]. }
  - cbv zeta. split; [by destruct st|]. by destruct st.
  - lia.
  - clear Hne Hb. intros [c o] (V' & P & Hne & Hb). split; [lia|]. destruct o as [|x o]; [done|]. cbn [rd length].
    rewrite (rd_ok _ 0 x) by done. cbn [rbind]. pose proof (v_later _ V') as L. cbn in L. rewrite List.Forall_forall in L. pose proof (L x (or_introl eq_refl)) as Lx.
    pose proof (v_serial _ V') as Hs. cbn in Hs. rewrite List.Forall_forall in Hb. pose proof (Hb x (or_introl eq_refl)) as Hbx.
    rewrite i64_small by lia. destruct (Z.ltb_spec (plserial x - m_plserial st) nlen); [|right; eexists; split; [done|split; done]].
    destruct (pop_overflow_ok x o (v_heap _ V')) as [Po Ho]. set (o' := pop_overflow (x :: o)) in *. clearbody o'.
    assert (valid (Fast (head st) c o' (m_plserial st))) as V1.
    { destruct V'. cbn in *. split; cbn; try done. apply List.Forall_forall. intros z Hz. apply L. right. rewrite <- list_elem_of_In in *. by rewrite <- Po. }
    assert (x :: pending (Fast (head st) c o' (m_plserial st)) ≡ₚ pending st) as P1.
    { rewrite <- P. unfold pending. cbn. by rewrite Po. }
    pose proof (put_cache _ x V1) as Pc. cbn [head cache overflow m_plserial] in Pc. destruct Pc as (c' & -> & Fc & V2); [lia| |].
    { rewrite <- (serials_perm _ _ P1) in ND. cbn in ND. apply list.NoDup_cons in ND as [ND _]. by rewrite list_elem_of_In in ND. }
    cbn [rbind]. assert (pending (Fast (head st) c' o' (m_plserial st)) ≡ₚ pending st) as P2.
    { rewrite <- P1. unfold pending. cbn. rewrite Fc. by rewrite <- Permutation_middle. }
    assert (length o' = length o) as Lo by by apply Permutation_length.
    destruct o' as [|z o2]; [right; eexists; split; [done|split; done]|left]. eexists. split; [done|]. split; [|cbn in Lo |- *; lia].
    split; [done|]. split; [done|]. split; [done|]. apply List.Forall_forall. intros u Hu. apply Hb. right. rewrite <- list_elem_of_In in *. by rewrite <- Po.
Qed.

Lemma heap_snoc_small l x : (length l < 1)%nat -> is_heap plserial (l ++ [x]).
Proof. intros Hl. destruct l; [apply heap_one|cbn in Hl; lia]. Qed.

(** A task that has been popped joins what is pending. *)
Lemma place_ok st x : valid st -> NoDup (serials (x :: pending st)) -> Forall (fun x => plserial x < 2 ^ 63) (x :: pending st) -> m_plserial st <= plserial x ->
  exists st', place debug st x = Ok st' /\ valid st' /\ pending st' ≡ₚ x :: pending st /\ m_plserial st' = m_plserial st.
Proof.
  intros V ND Hb Hx. pose proof nlen_pos. pose proof (v_serial _ V) as Hs. inversion Hb as [|? ? Hbx Hbp]; subst. unfold place. rewrite i64_small by lia.
  assert (~ In (plserial x) (serials (pending st))) as Nx.
  { cbn in ND. apply list.NoDup_cons in ND as [ND _]. by rewrite list_elem_of_In in ND. }
  destruct (Z.ltb_spec (plserial x - m_plserial st) nlen) as [L|L].
  - destruct (put_cache st x V) as (c & -> & Fc & V'); [lia|done|]. cbn [rbind]. eexists. split; [done|]. split; [done|]. split; [|done].
    unfold pending. cbn. rewrite Fc. by rewrite <- Permutation_middle.
  - assert (Forall (fun y => m_plserial st < plserial y) (overflow st ++ [x])) as Fl.
    { apply List.Forall_app. split; [apply V|]. repeat constructor. lia. }
    assert (forall o, o ≡ₚ overflow st ++ [x] -> is_heap plserial o -> valid (Fast (head st) (cache st) o (m_plserial st))) as Vo.
    { intros o Po Ho. destruct V. split; cbn; try done. apply List.Forall_forall. intros y Hy. rewrite List.Forall_forall in Fl. apply Fl.
      rewrite <- list_elem_of_In in *. by rewrite <- Po. }
    assert (forall o, o ≡ₚ overflow st ++ [x] -> pending (Fast (head st) (cache st) o (m_plserial st)) ≡ₚ x :: pending st) as Pp.
    { intros o Po. unfold pending. cbn. rewrite Po, <- app_assoc. cbn [app]. by rewrite <- Permutation_middle. }
    destruct (Z.leb_spec 2 (Z.of_nat (length (overflow st ++ [x])))) as [L2|L2].
    + destruct (push_heap_ok (overflow st) x (v_heap _ V)) as [Po Ho].
      destruct (drain_ok (Fast (head st) (cache st) (push_heap (overflow st ++ [x])) (m_plserial st))) as (c & o & E & V' & P'); cbn [head cache overflow m_plserial] in *.
      * by apply Vo.
      * by rewrite (serials_perm _ _ (Pp _ Po)).
      * apply List.Forall_forall. intros y Hy. apply list_elem_of_In in Hy. rewrite Po in Hy. rewrite List.Forall_forall in Hb. apply Hb.
        apply list_elem_of_In. apply elem_of_app in Hy as [Hy|Hy%list_elem_of_singleton]; [right; apply elem_of_app; by left|subst; by left].
      * intros En. apply (f_equal length) in En. rewrite (Permutation_length Po), length_app in En. cbn in En. lia.
      * rewrite E. cbn [rbind]. eexists. split; [done|]. split; [done|]. split; [|done]. rewrite P'. by apply Pp.
    + eexists. split; [done|]. split; [apply Vo; [done|]|]. { apply heap_snoc_small. rewrite length_app in L2. cbn in L2. lia. } split; [by apply Pp|done].
Qed.

(** ** Handing on *)

Context (pr : item Task -> item Task).

(** An item when it has been processed, what [hand] does with it then, and what the
    stage does. *)
Definition processed (x : item Task) : item Task := match task x with Some _ => pr x | None => x end.
Definition out_of {Ev} (hand : item Task -> list Ev) (x : item Task) : list Ev := hand (processed x).
Definition evs_of (x : item Task) : list (event Task) := out_of (hand_on is_last) x.

Definition process_ok (l : list (item Task)) : Prop := Forall (fun x => task x <> None -> process x = Ok (pr x)) l.

Lemma run_process_ok x : (task x <> None -> process x = Ok (pr x)) -> run_process process x = Ok (processed x).
Proof. intros Hx. unfold run_process, processed. destruct (task x); [by apply Hx|done]. Qed.

Lemma emit_all_ok {Ev} (hand : item Task -> list Ev) l : process_ok l -> emit_all process hand l = Ok (flat_map (out_of hand) l).
Proof.
  induction 1 as [|x l Hx _ IH]; [done|]. cbn [emit_all flat_map]. rewrite (run_process_ok x Hx). cbn [rbind]. rewrite IH. done.
Qed.

Lemma process_ok_perm l l' : l ≡ₚ l' -> process_ok l -> process_ok l'.
Proof. unfold process_ok. intros P. by rewrite P. Qed.

(** One turn of the loop: the item at the head goes, and the head moves on. *)
Lemma free_head_slot st x : valid st -> NoDup (serials (pending st)) -> cache st !! Z.to_nat (head st) = Some x -> plserial x = m_plserial st ->
  m_plserial st + 1 < 2 ^ 63 ->
  exists c, wr (cache st) (head st) no_item = Ok c /\ Z.of_nat (length c) = nlen /\ x :: overflow st ++ List.filter nz c ≡ₚ pending st /\
    forall o, is_heap plserial o -> Forall (fun y => m_plserial st + 1 < plserial y) o ->
      valid (Fast (Z.rem (head st + 1) nlen) c o (m_plserial st + 1)).
Proof.
  intros V ND Hx Sx Hm. pose proof nlen_pos as Hp. pose proof (v_head _ V) as Hh. pose proof (v_cache _ V) as Hc. pose proof (v_serial _ V) as Hs.
  assert (nz x = true) as Nx by (unfold nz; destruct (Z.eqb_spec (plserial x) 0); [lia|done]).
  rewrite wr_ok by lia. eexists. split; [done|]. rewrite length_insert. split; [done|]. split.
  { rewrite Permutation_middle. unfold pending. apply Permutation_app_head. by apply filter_insert_free. }
  intros o Ho Fo. rewrite Z.rem_mod_nonneg by lia. split; cbn; try done; [lia|by rewrite length_insert|by apply Z.mod_pos_bound|].
  intros d Hd. rewrite Zplus_mod_idemp_l, <- Z.add_assoc. pose proof (Z.mod_pos_bound (head st + (1 + d)) nlen Hp).
  destruct (decide (1 + d = nlen)) as [E|Hne].
  - exists no_item. replace (head st + (1 + d)) with (head st + 1 * nlen) by lia. rewrite Z_mod_plus_full, Z.mod_small by lia.
    rewrite list_lookup_insert_eq by lia. split; [done|by left].
  - destruct (v_slot _ V (1 + d)) as (y & Hy & Sy); [lia|]. exists y. rewrite list_lookup_insert_ne.
    + split; [done|]. destruct Sy as [->|Sy]; [by left|right; lia].
    + replace (Z.to_nat (head st)) with (Z.to_nat ((head st + 0) mod nlen)) by (rewrite Z.add_0_r, Z.mod_small; lia). apply ring_ne; lia.
Qed.

Lemma head_slot st : valid st -> exists x, cache st !! Z.to_nat (head st) = Some x /\ (x = no_item \/ plserial x = m_plserial st).
Proof.
  intros V. pose proof nlen_pos as Hp. pose proof (v_head _ V). destruct (v_slot _ V 0) as (x & Hx & Sx); [lia|]. rewrite Z.add_0_r in *.
  rewrite Z.mod_small in Hx by lia. eauto.
Qed.

(** Nothing that is pending is due. *)
Lemma not_due st x : valid st -> cache st !! Z.to_nat (head st) = Some x -> plserial x <> m_plserial st -> ~ In (m_plserial st) (serials (pending st)).
Proof.
  intros V Hx Nx Hin. apply in_map_iff in Hin as (y & Ey & Hin). pose proof nlen_pos as Hp. pose proof (v_serial _ V). pose proof (v_head _ V).
  unfold pending in Hin. apply List.in_app_iff in Hin as [Hin|Hin].
  - pose proof (v_later _ V) as L. rewrite List.Forall_forall in L. specialize (L y Hin). lia.
  - apply filter_In in Hin as [Hin Ny]. apply list_elem_of_In, list_elem_of_lookup in Hin as [i Hi]. pose proof (lookup_lt_Some _ _ _ Hi). pose proof (v_cache _ V).
    set (d := (Z.of_nat i - head st) mod nlen). pose proof (Z.mod_pos_bound (Z.of_nat i - head st) nlen Hp).
    assert ((head st + d) mod nlen = Z.of_nat i) as Ed.
    { unfold d. rewrite Zplus_mod_idemp_r. replace (head st + (Z.of_nat i - head st)) with (Z.of_nat i) by lia. apply Z.mod_small. lia. }
    destruct (v_slot _ V d) as (z & Hz & Sz); [done|]. rewrite Ed, Nat2Z.id, Hi in Hz. injection Hz as <-. destruct Sz as [->|Sz]; [done|].
    assert (d = 0) as D0 by lia. rewrite D0, Z.add_0_r, Z.mod_small in Ed by lia. apply Nx. rewrite <- Ey. rewrite <- (Nat2Z.id i), <- Ed, Hx in Hi. congruence.
Qed.

Lemma nodup_perm (l l' : list (item Task)) : l ≡ₚ l' -> NoDup (serials l) -> NoDup (serials l').
Proof. intros P. by rewrite (serials_perm _ _ P). Qed.

Lemma nodup_tail x l : NoDup (serials (x :: l)) -> ~ In (plserial x) (serials l) /\ NoDup (serials l).
Proof. cbn. intros [N1 N2]%list.NoDup_cons. by rewrite list_elem_of_In in N1. Qed.

(** The overflow after the head has moved to [m + 1]: what is due there moves out. *)
Lemma refill st x c : valid st -> NoDup (serials (pending st)) -> x :: overflow st ++ List.filter nz c ≡ₚ pending st ->
  (forall o, is_heap plserial o -> Forall (fun y => m_plserial st + 1 < plserial y) o ->
      valid (Fast (Z.rem (head st + 1) nlen) c o (m_plserial st + 1))) ->
  let head' := Z.rem (head st + 1) nlen in
  exists st', match overflow st with
    | y :: _ => if plserial y =? m_plserial st + 1 then
        let* cache := wr c head' y in Ok (Fast head' cache (pop_overflow (overflow st)) (m_plserial st + 1))
      else Ok (Fast head' c (overflow st) (m_plserial st + 1))
    | [] => Ok (Fast head' c [] (m_plserial st + 1)) end = Ok st' /\
    valid st' /\ m_plserial st' = m_plserial st + 1 /\ x :: pending st' ≡ₚ pending st.
Proof.
  intros V ND P Vo head'. pose proof (v_later _ V) as L. pose proof (v_heap _ V) as Hh. destruct (overflow st) as [|y o] eqn:Eo.
  { eexists. split; [done|]. split; [apply Vo; [apply heap_nil|constructor]|]. split; [done|exact P]. }
  pose proof (heap_min _ _ _ Hh) as Hm. inversion L as [|? ? Ly Lo]; subst. inversion Hm as [|? ? _ Hmo]; subst. destruct (Z.eqb_spec (plserial y) (m_plserial st + 1)) as [Ey|Ey].
  - destruct (pop_overflow_ok y o Hh) as [Po Ho]. set (o' := pop_overflow (y :: o)) in *. clearbody o'.
    assert (x :: y :: pending (Fast head' c o' (m_plserial st + 1)) ≡ₚ pending st) as P1.
    { rewrite <- P. unfold pending. cbn. by rewrite Po. }
    assert (NoDup (serials (y :: pending (Fast head' c o' (m_plserial st + 1))))) as ND1.
    { eapply nodup_tail. eapply nodup_perm; [|exact ND]. symmetry. exact P1. }
    destruct (nodup_tail _ _ ND1) as [Ny _].
    assert (valid (Fast head' c o' (m_plserial st + 1))) as V1.
    { apply Vo; [done|]. apply List.Forall_forall. intros z Hz. rewrite List.Forall_forall in Hmo. assert (In z o) as Hzo by (rewrite <- list_elem_of_In in *; by rewrite <- Po).
      specialize (Hmo z Hzo). assert (plserial z <> plserial y); [|lia]. intros E. apply Ny. rewrite <- E. apply in_map. unfold pending. cbn. apply in_or_app. by left. }
    pose proof (put_cache _ y V1) as Pc. cbn [head cache overflow m_plserial] in Pc. rewrite Ey, Z.sub_diag, Z.add_0_r in Pc.
    pose proof nlen_pos. pose proof (v_head _ V1) as Hh1. cbn in Hh1. rewrite (Z.rem_small head') in Pc by lia.
    destruct Pc as (c' & -> & Fc & V2); [lia|by rewrite <- Ey|]. cbn [rbind]. eexists. split; [done|]. split; [done|]. split; [done|].
    rewrite <- P1. unfold pending. cbn. rewrite Fc. by rewrite <- Permutation_middle.
  - eexists. split; [done|]. split; [apply Vo; [done|]|]. { constructor; [lia|]. eapply List.Forall_impl; [|exact Hmo]. cbn. intros. lia. } split; [done|exact P].
Qed.

Lemma emit_fast_ok st : valid st -> NoDup (serials (pending st)) -> Forall (fun x => plserial x < 2 ^ 63 - 1) (pending st) -> process_ok (pending st) ->
  exists st' dn, emit_fast process is_last debug st = Ok (st', flat_map evs_of dn) /\ valid st' /\ dn ++ pending st' ≡ₚ pending st /\
    serials dn = seqZ (m_plserial st) (Z.of_nat (length dn)) /\ m_plserial st' = m_plserial st + Z.of_nat (length dn) /\
    ~ In (m_plserial st') (serials (pending st')).
Proof.
  intros V ND Hb Hp. unfold emit_fast. pose proof nlen_pos as Hn.
  edestruct (loop_inv (fun '(s, evs) => exists dn, evs = flat_map evs_of dn /\ valid s /\ dn ++ pending s ≡ₚ pending st /\
      serials dn = seqZ (m_plserial st) (Z.of_nat (length dn)) /\ m_plserial s = m_plserial st + Z.of_nat (length dn))
    (fun '(s, evs) => Z.of_nat (length (pending s)))
    (fun '(s, evs) => exists dn, evs = flat_map evs_of dn /\ valid s /\ dn ++ pending s ≡ₚ pending st /\
      serials dn = seqZ (m_plserial st) (Z.of_nat (length dn)) /\ m_plserial s = m_plserial st + Z.of_nat (length dn) /\ ~ In (m_plserial s) (serials (pending s))))
    as ([st' evs] & E & dn & -> & Hr).
  4: { exists st', dn. split; [exact E|done]. }
  - exists []. split; [done|]. split; [done|]. split; [done|]. split; [done|]. cbn. lia.
  - unfold pending. rewrite length_app. pose proof (filter_length_le nz (cache st)). pose proof (v_cache _ V). lia.
  - intros [s evs] (dn & -> & Vs & P & Sd & Ms). split; [lia|]. destruct (head_slot s Vs) as (x & Hx & Sx). pose proof (v_head _ Vs) as Hh.
    rewrite (rd_ok _ _ x) by (done || lia). cbn [rbind]. destruct (Z.eqb_spec (plserial x) (m_plserial s)) as [Ex|Ex]; cbn [negb].
    + left. pose proof (v_serial _ Vs) as Hs. assert (nz x = true) as Nx by (unfold nz; destruct (Z.eqb_spec (plserial x) 0); [lia|done]).
      pose proof (in_pending_cache s _ x Hx Nx) as Hin. assert (x ∈ pending st) as Hin' by (rewrite <- P; apply elem_of_app; by right). apply list_elem_of_In in Hin'.
      rewrite run_process_ok by (unfold process_ok in Hp; rewrite List.Forall_forall in Hp; by apply Hp). cbn [rbind].
      rewrite List.Forall_forall in Hb. specialize (Hb x Hin').
      assert (NoDup (serials (pending s))) as NDs.
      { assert (NoDup (serials (dn ++ pending s))) as N by (eapply nodup_perm; [symmetry; exact P|done]). unfold serials in N. rewrite map_app in N. by apply list.NoDup_app in N as (_ & _ & N). }
      destruct (free_head_slot s x Vs NDs Hx Ex) as (c & -> & Lc & Pc & Vc); [lia|]. cbn [rbind].
      assert (u64 (m_plserial s + 1) = m_plserial s + 1) as -> by (unfold u64; apply Z.mod_small; lia).
      destruct (refill s x c Vs NDs Pc Vc) as (s' & Er & V' & M' & P'). cbv zeta in Er.
      exists (s', flat_map evs_of (dn ++ [x])). split.
      { rewrite flat_map_app. cbn [flat_map]. rewrite app_nil_r. destruct (overflow s) as [|y o]; [by injection Er as <-|].
        destruct (plserial y =? m_plserial s + 1); [|by injection Er as <-]. destruct (wr c _ y); cbn [rbind] in *; [by injection Er as <-|done..]. }
      split; [|rewrite <- (Permutation_length P'); cbn [length]; lia].
      exists (dn ++ [x]). split; [done|]. split; [done|]. split; [by rewrite <- app_assoc, <- P, <- P'|]. rewrite length_app. cbn [length]. split.
      * unfold serials in *. rewrite map_app, Sd. rewrite Nat2Z.inj_add, seqZ_app by lia. cbn [map]. f_equal. unfold seqZ. change (Z.to_nat (Z.of_nat 1)) with 1%nat. cbn. f_equal. lia.
      * rewrite M'. lia.
    + right. eexists. split; [done|]. exists dn. split; [done|]. split; [done|]. split; [done|]. split; [done|]. split; [done|]. by eapply not_due.
Qed.

(** ** Receiving *)

Definition bounded (l : list (item Task)) : Prop := Forall (fun x => 1 <= plserial x < 2 ^ 63 - 1) l.

(** One task is received: some that are due are handed on, in order, and then none
    that is pending is due. *)
Definition step_ok {S Ev} (out : item Task -> list Ev) (recv : S -> item Task -> res (S * list Ev)) (wf : S -> Prop) (pend : S -> list (item Task)) (serial : S -> Z) : Prop :=
  forall st x, wf st -> NoDup (serials (x :: pend st)) -> bounded (x :: pend st) -> process_ok (x :: pend st) -> serial st <= plserial x ->
  ~ In (serial st) (serials (pend st)) ->
  exists st' dn, recv st x = Ok (st', flat_map out dn) /\ wf st' /\ dn ++ pend st' ≡ₚ x :: pend st /\
    serials dn = seqZ (serial st) (Z.of_nat (length dn)) /\ serial st' = serial st + Z.of_nat (length dn) /\ ~ In (serial st') (serials (pend st')).

Lemma fast_step_ok : step_ok evs_of (recv_fast process is_last debug) valid pending m_plserial.
Proof.
  intros st x V ND Hb Hp Hx _. unfold recv_fast.
  assert (check_serial debug x (m_plserial st) = Ok tt) as ->.
  { unfold check_serial. destruct debug; [rewrite (proj2 (Z.leb_le _ _)) by done; done|]. by rewrite (proj2 (Z.ltb_ge _ _)) by done. }
  cbn [rbind]. destruct (place_ok st x V ND) as (st1 & -> & V1 & P1 & M1); [|done|].
  { eapply List.Forall_impl; [|exact Hb]. cbn. intros. lia. }
  cbn [rbind]. symmetry in P1. destruct (emit_fast_ok st1 V1) as (st' & dn & E & V' & P' & Sd & M' & N').
  - by eapply nodup_perm.
  - unfold bounded in Hb. rewrite P1 in Hb. eapply List.Forall_impl; [|exact Hb]. cbn. intros. lia.
  - by eapply process_ok_perm.
  - exists st', dn. rewrite M1 in *. split; [done|]. split; [done|]. split; [by rewrite P', P1|]. done.
Qed.

(** The list of what has been handed on, and what is pending, after the tasks [xs]. *)
Record progress {S} (wf : S -> Prop) (pend : S -> list (item Task)) (serial : S -> Z) (xs : list (item Task)) (st : S) (dn : list (item Task)) : Prop := {
  p_wf : wf st;
  p_perm : dn ++ pend st ≡ₚ xs;
  p_done : serials dn = seqZ 1 (Z.of_nat (length dn));
  p_serial : serial st = 1 + Z.of_nat (length dn);
  p_not_due : ~ In (serial st) (serials (pend st))
}.

Lemma recv_one_ok {S Ev} (out : item Task -> list Ev) recv (wf : S -> Prop) pend serial : step_ok out recv wf pend serial ->
  forall x ys st dn, progress wf pend serial ys st dn -> NoDup (serials (ys ++ [x])) -> bounded (ys ++ [x]) -> process_ok (ys ++ [x]) ->
  exists st' dn', recv st x = Ok (st', flat_map out dn') /\ progress wf pend serial (ys ++ [x]) st' (dn ++ dn') /\ dn' ++ pend st' ≡ₚ x :: pend st.
Proof.
  intros Hstep x ys st dn G ND Hb Hp. pose proof (p_perm _ _ _ _ _ _ G) as P.
  assert (ys ++ [x] ≡ₚ dn ++ (x :: pend st)) as P0 by (rewrite <- P, <- app_assoc; cbn; by rewrite <- Permutation_cons_append).
  pose proof (nodup_perm _ _ P0 ND) as ND0. unfold bounded, process_ok in *. pose proof Hb as Hb0. pose proof Hp as Hp0. rewrite P0 in Hb0, Hp0.
  apply List.Forall_app in Hb0 as [_ Hb0]. apply List.Forall_app in Hp0 as [_ Hp0].
  unfold serials in ND0. rewrite map_app in ND0. apply list.NoDup_app in ND0 as (_ & Nd & N1).
  destruct (Hstep st x (p_wf _ _ _ _ _ _ G)) as (st1 & dn1 & E1 & W1 & P1 & S1 & M1 & N1'); [done..| |apply G|].
  { destruct (Z.le_gt_cases (serial st) (plserial x)) as [|Hlt]; [done|]. exfalso. apply (Nd (plserial x)).
    - change (plserial x ∈ serials dn). rewrite (p_done _ _ _ _ _ _ G). apply elem_of_seqZ. pose proof (p_serial _ _ _ _ _ _ G). inversion Hb0; subst. lia.
    - cbn. left. }
  exists st1, dn1. split; [done|]. split; [|done]. split; [done| | |rewrite M1, (p_serial _ _ _ _ _ _ G), length_app; lia|done].
  - by rewrite <- app_assoc, P1, P0.
  - pose proof (p_done _ _ _ _ _ _ G) as Sd. unfold serials in *. rewrite map_app, S1, Sd, (p_serial _ _ _ _ _ _ G), length_app, Nat2Z.inj_add, seqZ_app by lia. done.
Qed.

Lemma recv_all_ok {S Ev} (out : item Task -> list Ev) recv (wf : S -> Prop) pend serial : step_ok out recv wf pend serial ->
  forall xs ys st dn, progress wf pend serial ys st dn -> NoDup (serials (ys ++ xs)) -> bounded (ys ++ xs) -> process_ok (ys ++ xs) ->
  exists st' dn', recv_all recv st xs = Ok (st', flat_map out dn') /\ progress wf pend serial (ys ++ xs) st' (dn ++ dn').
Proof.
  intros Hstep xs. induction xs as [|x xs IH]; intros ys st dn G ND Hb Hp.
  { exists st, []. rewrite !app_nil_r. done. }
  cbn [recv_all]. change (x :: xs) with ([x] ++ xs) in *. rewrite app_assoc in ND, Hb, Hp.
  pose proof ND as ND1. unfold serials in ND1. rewrite map_app in ND1. apply list.NoDup_app in ND1 as (ND1 & _).
  pose proof (proj1 (proj1 (List.Forall_app _ _ _) Hb)) as Hb1. pose proof (proj1 (proj1 (List.Forall_app _ _ _) Hp)) as Hp1.
  destruct (recv_one_ok out recv wf pend serial Hstep x ys st dn G ND1 Hb1 Hp1) as (st1 & dn1 & -> & G1 & _). cbn [rbind].
  destruct (IH (ys ++ [x]) st1 (dn ++ dn1) G1 ND Hb Hp) as (st2 & dn2 & E2 & G2).
  exists st2, (dn1 ++ dn2). rewrite E2. cbn [rbind]. rewrite flat_map_app. split; [done|]. rewrite <- !app_assoc in G2. exact G2.
Qed.

Lemma init_fast_ok : progress valid pending m_plserial [] (init_fast debug) [].
Proof.
  pose proof nlen_pos as Hp. assert (pending (init_fast debug) = []) as Ep.
  { unfold pending, init_fast. cbn. generalize (Z.to_nat nlen). induction n; [done|]. cbn. done. }
  split; rewrite ?Ep; try done; [|by intros []]. unfold init_fast. split; cbn [cache head overflow m_plserial]; try done; [rewrite length_replicate; lia|].
  intros d Hd. exists no_item. rewrite Z.add_0_l. pose proof (Z.mod_pos_bound d nlen Hp). rewrite lookup_replicate_2 by lia. split; [done|by left].
Qed.

(** ** The slow version *)

Definition slow_wf (st : slow Task) : Prop := is_heap plserial (heap st) /\ 1 <= s_plserial st < 2 ^ 63 /\ Forall (fun x => s_plserial st < plserial x) (heap st).

Lemma slow_step_ok {Ev} (fdo : item Task -> list Ev) : step_ok (out_of fdo) (recv_slow process debug fdo) slow_wf heap s_plserial.
Proof.
  intros st x (Hh & Hm & Hl) ND Hb Hp Hx _. unfold recv_slow.
  assert (check_serial debug x (s_plserial st) = Ok tt) as ->.
  { unfold check_serial. destruct debug; [rewrite (proj2 (Z.leb_le _ _)) by done; done|]. by rewrite (proj2 (Z.ltb_ge _ _)) by done. }
  cbn [rbind]. destruct (Z.eqb_spec (plserial x) (s_plserial st)) as [Ex|Ex].
  2: { destruct (push_heap_ok (heap st) x Hh) as [Pp Hp']. exists (Slow (push_heap (heap st ++ [x])) (s_plserial st)), []. split; [done|]. cbn.
    assert (push_heap (heap st ++ [x]) ≡ₚ x :: heap st) as P by (rewrite Pp; by rewrite Permutation_app_comm).
    assert (Forall (fun y => s_plserial st < plserial y) (push_heap (heap st ++ [x]))) as Hf by (rewrite P; constructor; [lia|done]).
    split; [done|]. split; [done|]. split; [done|]. split; [lia|]. intros (y & Ey & Hy)%in_map_iff. rewrite List.Forall_forall in Hf. specialize (Hf y Hy). lia. }
  edestruct (loop_inv (fun '(y, h, m, evs) => exists dn, evs = flat_map (out_of fdo) dn /\ is_heap plserial h /\ dn ++ y :: h ≡ₚ x :: heap st /\
      serials dn = seqZ (s_plserial st) (Z.of_nat (length dn)) /\ m = s_plserial st + Z.of_nat (length dn) /\ plserial y = m)
    (fun '(y, h, m, evs) => Z.of_nat (length h))
    (fun '(s, evs) => exists dn, evs = flat_map (out_of fdo) dn /\ slow_wf s /\ dn ++ heap s ≡ₚ x :: heap st /\
      serials dn = seqZ (s_plserial st) (Z.of_nat (length dn)) /\ s_plserial s = s_plserial st + Z.of_nat (length dn) /\ ~ In (s_plserial s) (serials (heap s))))
    as ([st' evs] & E & dn & -> & Hr).
  4: { exists st', dn. split; [exact E|done]. }
  - exists []. split; [done|]. split; [done|]. split; [done|]. split; [done|]. cbn. lia.
  - lia.
  - intros [[[y h] m] evs] (dn & -> & Hhh & P & Sd & Em & Ey). split; [lia|]. unfold bounded, process_ok in *.
    pose proof (nodup_perm _ _ (symmetry P) ND) as N. rewrite <- P in Hb, Hp. apply List.Forall_app in Hb as [_ Hb]. apply List.Forall_app in Hp as [_ Hp].
    inversion Hb as [|? ? By Bh]; subst. inversion Hp as [|? ? Py Ph]; subst. rewrite (run_process_ok y Py). cbn [rbind].
    assert (u64 (s_plserial st + Z.of_nat (length dn) + 1) = s_plserial st + Z.of_nat (length dn) + 1) as -> by (unfold u64; apply Z.mod_small; lia).
    assert (exists dn', flat_map (out_of fdo) dn' = flat_map (out_of fdo) dn ++ out_of fdo y /\ dn' = dn ++ [y] /\ serials dn' = seqZ (s_plserial st) (Z.of_nat (length dn'))
      /\ Z.of_nat (length dn') = Z.of_nat (length dn) + 1) as (dn' & Ed & Ed' & Sd' & Ld).
    { exists (dn ++ [y]). rewrite flat_map_app, length_app. cbn [flat_map length]. rewrite app_nil_r. split; [done|]. split; [done|].
      rewrite Nat2Z.inj_add, seqZ_app by lia. split; [|done]. unfold serials in *. rewrite map_app, Sd. cbn [map]. f_equal. unfold seqZ.
      change (Z.to_nat (Z.of_nat 1)) with 1%nat. cbn. f_equal. lia. }
    subst dn'.
    assert (NoDup (serials (y :: h)) /\ forall z, z ∈ serials dn -> z ∉ serials (y :: h)) as [Nh Nd].
    { unfold serials in N. rewrite map_app in N. by apply list.NoDup_app in N as (_ & Nd & Nh). }
    apply nodup_tail in Nh as [Ny Nh].
    destruct h as [|z h].
    { right. eexists. split; [done|]. exists (dn ++ [y]). cbn [heap s_plserial]. split; [by rewrite Ed|].
      split; [split; [apply heap_nil|]; cbn; split; [lia|constructor]|]. rewrite app_nil_r. split; [done|]. split; [done|]. split; [lia|intros []]. }
    pose proof (heap_min _ _ _ Hhh) as Hmin. inversion Bh as [|? ? Bz Bh']; subst. destruct (Z.eqb_spec (plserial z) (s_plserial st + Z.of_nat (length dn) + 1)) as [Ez|Ez].
    + left. destruct (pop_overflow_ok z h Hhh) as [Po Ho]. unfold pop_overflow in *. eexists. split; [done|]. split.
      * exists (dn ++ [y]). split; [by rewrite Ed|]. split; [done|]. split; [rewrite Po, <- app_assoc; done|]. split; [done|]. split; [lia|done].
      * cbn [length]. rewrite (Permutation_length Po). lia.
    + right. eexists. split; [done|]. exists (dn ++ [y]). cbn [heap s_plserial]. split; [by rewrite Ed|].
      (* the front is later than what is due next *)
      assert (s_plserial st + Z.of_nat (length dn) + 1 < plserial z) as Lz.
      { assert (plserial z <> plserial y) as Nzy by (intros E; apply Ny; cbn; by left).
        destruct (Z.lt_ge_cases (plserial z) (plserial y)) as [Lt|]; [|lia]. exfalso.
        destruct (Z.le_gt_cases (s_plserial st) (plserial z)) as [Lz|Lz].
        - apply (Nd (plserial z)); [rewrite Sd; apply elem_of_seqZ; lia|]. cbn. right. left.
        - assert (z ∈ x :: heap st) as Hz by (rewrite <- P; apply elem_of_app; right; right; left). rewrite List.Forall_forall in Hl.
          apply elem_of_cons in Hz as [->|Hz%list_elem_of_In]; [lia|specialize (Hl z Hz); lia]. }
      assert (Forall (fun u => s_plserial st + Z.of_nat (length dn) + 1 < plserial u) (z :: h)) as Hlz by (eapply List.Forall_impl; [|exact Hmin]; cbn; intros; lia).
      split; [split; [done|]; cbn; split; [lia|done]|]. split; [rewrite <- app_assoc; done|]. split; [done|]. split; [lia|].
      intros (u & Eu & Hu)%in_map_iff. rewrite List.Forall_forall in Hlz. specialize (Hlz u Hu). lia.
Qed.

(** ** The whole run *)

Lemma same_serial l x y : NoDup (serials l) -> x ∈ l -> y ∈ l -> plserial x = plserial y -> x = y.
Proof.
  induction l as [|z l IH]; intros ND Hx Hy E; [by apply not_elem_of_nil in Hx|]. apply nodup_tail in ND as [Nz ND].
  apply elem_of_cons in Hx as [->|Hx]; apply elem_of_cons in Hy as [->|Hy]; [done| | |by apply IH].
  - exfalso. apply Nz. rewrite E. apply in_map. by apply list_elem_of_In.
  - exfalso. apply Nz. rewrite <- E. apply in_map. by apply list_elem_of_In.
Qed.

Lemma seqZ_sorted l m n : serials l = seqZ m n -> StronglySorted (fun a b => plserial a <= plserial b) l.
Proof.
  revert m n. induction l as [|x l IH]; intros m n E; [constructor|]. destruct (Z.le_gt_cases n 0); [rewrite seqZ_nil in E by lia; done|].
  rewrite seqZ_cons in E by lia. cbn in E. injection E as Ex El. constructor; [by eapply IH|]. apply List.Forall_forall. intros y Hy.
  assert (In (plserial y) (serials l)) as Hy' by (by apply in_map). unfold serials in Hy'; rewrite El in Hy'. apply list_elem_of_In, elem_of_seqZ in Hy'. lia.
Qed.

Lemma sorted_app (l1 l2 : list (item Task)) : StronglySorted (fun a b => plserial a <= plserial b) l1 -> StronglySorted (fun a b => plserial a <= plserial b) l2 ->
  (forall x y, x ∈ l1 -> y ∈ l2 -> plserial x <= plserial y) -> StronglySorted (fun a b => plserial a <= plserial b) (l1 ++ l2).
Proof.
  induction 1 as [|x l1 H1 IH Hx]; intros H2 Hc; [done|]. cbn. constructor; [apply IH; [done|]; intros; apply Hc; [by right|done]|].
  apply List.Forall_app. split; [done|]. apply List.Forall_forall. intros y Hy. apply Hc; [left|by apply list_elem_of_In].
Qed.

(** What has been handed on is the front of the sorted list. *)
Lemma progress_sorted {S} (wf : S -> Prop) pend serial xs st dn : progress wf pend serial xs st dn -> NoDup (serials xs) -> bounded xs ->
  dn ++ std_sort (pend st) = std_sort xs.
Proof.
  intros G ND Hb. destruct (std_sort_ok (pend st)) as [P1 S1]. destruct (std_sort_ok xs) as [P2 S2].
  pose proof (p_perm _ _ _ _ _ _ G) as P. assert (dn ++ std_sort (pend st) ≡ₚ std_sort xs) as P3 by (by rewrite P1, P, P2).
  apply (StronglySorted_unique_strong (fun a b => plserial a <= plserial b)); [| |done|done].
  - intros x y Hx Hy L1 L2. rewrite P3, P2 in Hx. rewrite P2 in Hy. by apply (same_serial xs); [..|lia].
  - apply sorted_app; [|done|].
    + eapply seqZ_sorted, (p_done _ _ _ _ _ _ G).
    + intros x y Hx Hy. assert (In (plserial x) (serials dn)) as Hx' by (by apply in_map, list_elem_of_In).
      rewrite (p_done _ _ _ _ _ _ G) in Hx'. apply list_elem_of_In, elem_of_seqZ in Hx'. rewrite P1 in Hy.
      destruct (Z.le_gt_cases (plserial x) (plserial y)) as [|Lt]; [done|]. exfalso.
      assert (y ∈ xs) as Hyx by (rewrite <- P; apply elem_of_app; by right). unfold bounded in Hb. rewrite List.Forall_forall in Hb. pose proof (Hb y (proj1 (list_elem_of_In _ _) Hyx)).
      apply (nodup_perm _ _ (symmetry P)) in ND. unfold serials in ND. rewrite map_app in ND. apply list.NoDup_app in ND as (_ & Nd & _).
      apply (Nd (plserial y)); [|apply list_elem_of_In, in_map; by apply list_elem_of_In].
      change (plserial y ∈ serials dn). rewrite (p_done _ _ _ _ _ _ G). apply elem_of_seqZ. lia.
Qed.

Lemma flush_pending_ok st : Z.of_nat (length (cache st)) = nlen -> process_ok (pending st) ->
  flush_fast process is_last debug st = Ok (flat_map evs_of (std_sort (pending st))).
Proof.
  intros Lc Hp. unfold flush_fast. pose proof nlen_pos as Hn.
  destruct (for_inv (fun i ov => ov = overflow st ++ List.filter nz (take (Z.to_nat i) (cache st)))
    (fun i ov => let* x := rd (cache st) i in Ok (if plserial x =? 0 then ov else ov ++ [x])) 0 nlen (overflow st)) as (ov & -> & ->).
  - lia.
  - cbn. by rewrite app_nil_r.
  - intros i ov Hi ->. destruct (lookup_lt_is_Some_2 (cache st) (Z.to_nat i)) as [x Hx]; [lia|]. rewrite (rd_ok _ _ x) by (done || lia). cbn [rbind].
    eexists. split; [done|]. replace (Z.to_nat (i + 1)) with (S (Z.to_nat i)) by lia. rewrite (take_S_r _ _ _ Hx), List.filter_app. cbn [List.filter]. change (nz x) with (negb (plserial x =? 0)).
    destruct (plserial x =? 0); cbn [negb]; [by rewrite !app_nil_r|by rewrite app_assoc].
  - cbn [rbind]. rewrite firstn_all2 by lia. fold (pending st). apply emit_all_ok. eapply process_ok_perm; [|exact Hp]. symmetry. apply std_sort_ok.
Qed.

Lemma process_ok_pending {S} (wf : S -> Prop) pend serial xs st dn : progress wf pend serial xs st dn -> process_ok xs -> process_ok (pend st).
Proof. intros G. unfold process_ok. rewrite <- (p_perm _ _ _ _ _ _ G). by intros [_ ?]%List.Forall_app. Qed.

Lemma fast_run_ok xs : NoDup (serials xs) -> bounded xs -> process_ok xs ->
  exists st k, recv_all (recv_fast process is_last debug) (init_fast debug) xs = Ok (st, flat_map evs_of (take k (std_sort xs))) /\
    serials (take k (std_sort xs)) = seqZ 1 (Z.of_nat k) /\ ~ In (Z.of_nat k + 1) (serials xs) /\
    flush_fast process is_last debug st = Ok (flat_map evs_of (drop k (std_sort xs))).
Proof.
  intros ND Hb Hp. destruct (recv_all_ok _ _ _ _ _ fast_step_ok xs [] _ [] init_fast_ok) as (st & dn & E & G); [done..|]. cbn [app] in G.
  pose proof (progress_sorted _ _ _ _ _ _ G ND Hb) as Es. exists st, (length dn). rewrite <- Es. rewrite take_app_length, drop_app_length.
  split; [done|]. split; [apply G|]. split; [|apply flush_pending_ok; [apply G|by eapply process_ok_pending]].
  intros Hin. assert (In (Z.of_nat (length dn) + 1) (serials (dn ++ pending st))) as Hin'.
  { apply list_elem_of_In. rewrite (serials_perm _ _ (p_perm _ _ _ _ _ _ G)). by apply list_elem_of_In. }
  unfold serials in Hin'. rewrite map_app in Hin'. apply in_app_or in Hin' as [Hin'|Hin'].
  - change (In (Z.of_nat (length dn) + 1) (serials dn)) in Hin'. rewrite (p_done _ _ _ _ _ _ G) in Hin'. apply list_elem_of_In, elem_of_seqZ in Hin'. lia.
  - apply (p_not_due _ _ _ _ _ _ G). rewrite (p_serial _ _ _ _ _ _ G), Z.add_comm. exact Hin'.
Qed.

Lemma slow_run_ok {Ev} (fdo : item Task -> list Ev) xs : NoDup (serials xs) -> bounded xs -> process_ok xs ->
  run_serial_step_slow process debug fdo xs = Ok (flat_map (out_of fdo) (std_sort xs)).
Proof.
  intros ND Hb Hp. unfold run_serial_step_slow. destruct (recv_all_ok _ _ _ _ _ (slow_step_ok fdo) xs [] init_slow []) as (st & dn & -> & G); [|done..|].
  - split; try done. by intros [].
  - cbn [app rbind] in *. pose proof (progress_sorted _ _ _ _ _ _ G ND Hb) as Es. unfold flush_slow. rewrite emit_all_ok.
    + cbn [rbind]. by rewrite <- flat_map_app, Es.
    + eapply process_ok_perm; [|by eapply process_ok_pending]. symmetry. apply std_sort_ok.
Qed.
End order.

(** C30: The serial step: whatever order tasks with different serial numbers arrive
    in, the stage processes and hands on exactly the tasks it received, in the order
    of their serial numbers.  A task waits no longer than it must: after any arrivals
    those handed on are the ones numbered 1, 2, ... up to the first number that has
    not arrived.  This holds for both sizes of the cache, with any heap and sort that
    keep the contract of the standard library. *)
Theorem serial_step_in_order {Task : Type} `{StdHeap (item Task) plserial} (process : item Task -> res (item Task)) (pr : item Task -> item Task) (is_last debug : bool) xs :
  NoDup (serials xs) -> bounded xs -> process_ok process pr xs ->
  run_serial_step_fast process is_last debug xs = Ok (flat_map (evs_of is_last pr) (std_sort xs)) /\
  exists st k, recv_all (recv_fast process is_last debug) (init_fast debug) xs = Ok (st, flat_map (evs_of is_last pr) (take k (std_sort xs))) /\
    serials (take k (std_sort xs)) = seqZ 1 (Z.of_nat k) /\ ~ In (Z.of_nat k + 1) (serials xs).
Proof.
  intros ND Hb Hp. destruct (fast_run_ok process is_last debug pr xs ND Hb Hp) as (st & k & E & Sk & Nk & Ef). split; [|eauto].
  unfold run_serial_step_fast. rewrite E. cbn [rbind]. rewrite Ef. cbn [rbind]. by rewrite <- flat_map_app, take_drop.
Qed.

(** The items in the order and the form in which a serial step hands them on. *)
Definition in_order {Task : Type} `{StdHeap (item Task) plserial} (pr : item Task -> item Task) (xs : list (item Task)) : list (item Task) :=
  map (processed pr) (std_sort xs).

Lemma flat_map_map {A B C} (f : A -> B) (g : B -> list C) l : flat_map g (map f l) = flat_map (fun x => g (f x)) l.
Proof. induction l as [|x l IH]; cbn; [done|]. by rewrite IH. Qed.

(** The two versions of the serial step, the one with the ring and the one with
    the heap alone, agree on every sequence of tasks with different serial numbers:
    both process every task and hand on the same items in the same order.  The slow
    version hands them to the function it is given, which the theorem leaves open
    (the source declares two for it and defines neither), the fast one to the queue
    behind it or to the destructor; given a function that does what the fast one does,
    the two have the same effects. *)
Theorem serial_steps_agree {Task Ev : Type} `{StdHeap (item Task) plserial} (process : item Task -> res (item Task)) (pr : item Task -> item Task) (is_last debug : bool)
    (fdo : item Task -> list Ev) xs :
  NoDup (serials xs) -> bounded xs -> process_ok process pr xs ->
  run_serial_step_slow process debug fdo xs = Ok (flat_map fdo (in_order pr xs)) /\
  run_serial_step_fast process is_last debug xs = Ok (flat_map (hand_on is_last) (in_order pr xs)) /\
  run_serial_step_slow process debug (hand_on is_last) xs = run_serial_step_fast process is_last debug xs.
Proof.
  intros ND Hb Hp. assert (run_serial_step_fast process is_last debug xs = Ok (flat_map (hand_on is_last) (in_order pr xs))) as E1.
  { destruct (fast_run_ok process is_last debug pr xs ND Hb Hp) as (st & k & Er & Sk & Nk & Ef). unfold run_serial_step_fast. rewrite Er. cbn [rbind]. rewrite Ef. cbn [rbind].
    rewrite <- flat_map_app, take_drop. unfold in_order. by rewrite flat_map_map. }
  rewrite E1, !(slow_run_ok process debug pr) by done. unfold in_order. by rewrite !flat_map_map.
Qed.

(** ** An implementation of the library's functions: a heap that is sorted *)

Fixpoint insert_sorted {T} (x : item T) (l : list (item T)) : list (item T) :=
  match l with
  | [] => [x]
  | y :: l' => if plserial x <=? plserial y then x :: l else y :: insert_sorted x l'
  end.

Lemma insert_sorted_perm {T} (x : item T) l : insert_sorted x l ≡ₚ x :: l.
Proof. induction l as [|y l IH]; cbn; [done|]. destruct (_ <=? _); [done|]. rewrite IH. constructor. Qed.

Lemma insert_sorted_sorted {T} (x : item T) l : StronglySorted (fun a b => plserial a <= plserial b) l -> StronglySorted (fun a b => plserial a <= plserial b) (insert_sorted x l).
Proof.
  induction 1 as [|y l Hl IH Hy]; cbn; [repeat constructor|]. destruct (Z.leb_spec (plserial x) (plserial y)).
  - constructor; [by constructor|]. constructor; [done|]. eapply List.Forall_impl; [|exact Hy]. cbn. intros. lia.
  - constructor; [done|]. rewrite insert_sorted_perm. constructor; [lia|done].
Qed.

Definition sort_items {T} (l : list (item T)) : list (item T) := fold_right insert_sorted [] l.

Lemma sort_items_ok {T} (l : list (item T)) : sort_items l ≡ₚ l /\ StronglySorted (fun a b => plserial a <= plserial b) (sort_items l).
Proof.
  induction l as [|x l [P S]]; cbn; [split; constructor|]. split; [by rewrite insert_sorted_perm, P|by apply insert_sorted_sorted].
Qed.

#[export] Program Instance sorted_std_heap (T : Type) : StdHeap (item T) plserial := {|
  push_heap := sort_items; pop_heap l := match l with [] => [] | x :: l => sort_items l ++ [x] end; std_sort := sort_items |}.
Next Obligation. intros T l x _. cbn. destruct (sort_items_ok (l ++ [x])) as [P S]. split; [done|]. by apply sorted_heap. Qed.
Next Obligation. intros T x l _. cbn. destruct (sort_items_ok l) as [P S]. eexists. split; [done|]. split; [done|]. by apply sorted_heap. Qed.
Next Obligation. intros T l. apply sort_items_ok. Qed.

(** ** A sample: tasks that are numbers, with a ring of four; number 9 overflows *)

Definition demo_process (x : item Z) : res (item Z) := Ok (Item (plserial x) (option_map (Z.mul 10) (task x))).
Definition demo_pr (x : item Z) : item Z := Item (plserial x) (option_map (Z.mul 10) (task x)).
Definition demo_items : list (item Z) := [Item 3 (Some 3); Item 9 (Some 9); Item 1 None; Item 8 (Some 8); Item 2 (Some 2); Item 5 (Some 5)].

Lemma demo_items_ok : NoDup (serials demo_items) /\ bounded demo_items /\ process_ok demo_process demo_pr demo_items.
Proof. split; [by apply (bool_decide_unpack _); vm_compute|]. split; repeat (constructor; [cbn; lia || done|]); constructor. Qed.

Lemma serial_step_in_order_witness :
  run_serial_step_fast demo_process false true demo_items =
    Ok [Push (Item 1 None); Push (Item 2 (Some 20)); Push (Item 3 (Some 30)); Push (Item 5 (Some 50)); Push (Item 8 (Some 80)); Push (Item 9 (Some 90))] /\
  exists st k, recv_all (recv_fast demo_process false true) (init_fast true) demo_items = Ok (st, flat_map (evs_of false demo_pr) (take k (std_sort demo_items))) /\
    serials (take k (std_sort demo_items)) = seqZ 1 (Z.of_nat k) /\ ~ In (Z.of_nat k + 1) (serials demo_items).
Proof.
  destruct demo_items_ok as (H1 & H2 & H3). exact (serial_step_in_order demo_process demo_pr false true demo_items H1 H2 H3).
Defined.

Lemma serial_steps_agree_witness :
  run_serial_step_slow demo_process true (fun x => [(plserial x, task x)]) demo_items =
    Ok [(1, None); (2, Some 20); (3, Some 30); (5, Some 50); (8, Some 80); (9, Some 90)] /\
  run_serial_step_slow demo_process true (hand_on true) demo_items = run_serial_step_fast demo_process true true demo_items.
Proof.
  destruct demo_items_ok as (H1 & H2 & H3).
  destruct (serial_steps_agree demo_process demo_pr true true (fun x => [(plserial x, task x)]) demo_items H1 H2 H3) as (S & _ & A). split; [exact S|exact A].
Defined.
End SerialStepProps.
