(* ===== verification/Pipeline.v ===== *)
(** * The thread pipeline

    [thread/pipeline.cpp]: a [PipelineProcessor] that is fed from outside
    ([compile], [enqueue], [stop], [wait]), in thread mode.  Each stage has threads
    that take tasks from the queue of the stage before ([BlockQueue], a
    [concurrent_queue]), process them and put them into their own queue.  A state
    holds what the threads share and where each thread is; [thread_step] is what a
    thread does between two accesses to what is shared. *)
From S2P Require Import Prelude ConcQueue SerialStep.
Import ConcQueue SerialStep.

Module Pipeline.

Section pipeline.
Context {Task : Type} `{StdHeap (item Task) plserial} {C : Type} `{Container C (item Task)}.
(** The size of the queues, and the build. *)
Context (queue_size : Z) (debug : bool).

(** A stage as it is configured: [ple_keep] or [ple_none], its virtual function
    [process], and the number of its threads. *)
Record stage := Stage { ple_keep : bool; process : item Task -> res (item Task); thread_count : nat }.

(** Where a thread is: in [run_wrapper], in the three tests of [isPrevRunning], at
    [pop_front], handing on what it has processed, and in the end of [run_wrapper]. *)
Inductive pc := PNotStarted | PRun | PUnits | PEmpty | PPop | PHand | PFlush | PStop | PDec | PDone.

(** [loc] is the cache of a serial step, [pend] what is still to be handed on. *)
Record th := Th { at_ : pc; loc : fast Task; pend : list (event Task) }.

(** [got] and [gave] record what the stage has taken and handed on so far. *)
Record stage_st := St { m_running_exec_units : Z; m_threads : list th; got : list (item Task); gave : list (event Task) }.

(** [queues !! 0] is [m_head->m_out_queue], [queues !! (j + 1)] is [m_out_queue] of
    stage [j]: stage [j] takes from [queues !! j].  [todo] is what the caller will
    still enqueue before it calls [stop]; [fed] records what has been enqueued. *)
Record pipe := Pipe {
  m_run : bool;
  todo : list (option Task);
  m_plserial : Z;
  queues : list C;
  stages : list stage_st;
  fed : list (item Task)
}.

Context (cfg : list stage).

Definition last_stage (j : nat) : bool := Nat.eqb (S j) (length cfg).
(** [start]: the pipeline keeps serial numbers if some stage keeps the order. *)
Definition m_keepSerial : bool := existsb ple_keep cfg.

(** [PipelineStage::isRunning] of the stage before; [m_head] runs no threads. *)
Definition prev_units (s : pipe) (j : nat) : Z :=
  match j with O => 0 | S i => match stages s !! i with Some si => m_running_exec_units si | None => 0 end end.

(** What a thread does with a task it has popped: the bodies of [run_step_last],
    [run_step_mid] and [run_serial_step_fast]. *)
Definition recv (c : stage) (is_last : bool) (loc : fast Task) (x : item Task) : res (fast Task * list (event Task)) :=
  if ple_keep c then recv_fast (process c) is_last debug loc x
  else let* y := run_process (process c) x in
    Ok (loc, if is_last then hand_on true y
             else if (match task y with Some _ => true | None => false end) || m_keepSerial then [Push y] else []).

(** What it does after the loop. *)
Definition flush (c : stage) (is_last : bool) (loc : fast Task) : res (list (event Task)) :=
  if ple_keep c then flush_fast (process c) is_last debug loc else Ok [].

Definition set_stage (s : pipe) (j : nat) (sj : stage_st) : pipe :=
  Pipe (m_run s) (todo s) (m_plserial s) (queues s) (<[j := sj]> (stages s)) (fed s).
Definition set_queue (s : pipe) (j : nat) (q : C) : pipe :=
  Pipe (m_run s) (todo s) (m_plserial s) (<[j := q]> (queues s)) (stages s) (fed s).
Definition set_thread (sj : stage_st) (t : nat) (u : th) : stage_st :=
  St (m_running_exec_units sj) (<[t := u]> (m_threads sj)) (got sj) (gave sj).
Definition add_units (sj : stage_st) (d : Z) : stage_st := St (m_running_exec_units sj + d) (m_threads sj) (got sj) (gave sj).
(** [PipelineProcessor::stop] *)
Definition stop (s : pipe) : pipe := Pipe false (todo s) (m_plserial s) (queues s) (stages s) (fed s).

(** [m_out_queue->push_back(item)] or [destroyTask]; [None] while the queue is full. *)
Definition hand (s : pipe) (j t : nat) (sj : stage_st) (u : th) (ev : event Task) (evs : list (event Task)) : res (option pipe) :=
  let sj' := St (m_running_exec_units sj) (<[t := Th (at_ u) (loc u) evs]> (m_threads sj)) (got sj) (gave sj ++ [ev]) in
  match ev with
  | Destroy _ => Ok (Some (set_stage s j sj'))
  | Push x => match queues s !! S j with
    | None => UB
    | Some q => let* r := push_back queue_size x q in match r with
      | Block _ => Ok None
      | Return q' _ _ => Ok (Some (set_queue (set_stage s j sj') (S j) q')) end end
  end.

(** [pop_front(item, m_queue_timeout)], which has timed out when it gives none. *)
Definition pop (s : pipe) (j t : nat) (c : stage) (sj : stage_st) (u : th) (q : C) : res (option pipe) :=
  let* r := pop_front_timed true q in match r with
  | Return q' (ROpt (Some x)) _ =>
      let* (loc', evs) := recv c (last_stage j) (loc u) x in
      Ok (Some (set_queue (set_stage s j (St (m_running_exec_units sj) (<[t := Th PHand loc' evs]> (m_threads sj)) (got sj ++ [x]) (gave sj))) j q'))
  | _ => Ok (Some (set_stage s j (set_thread sj t (Th PRun (loc u) []))))
  end.

(** The next thing thread [t] of stage [j] does: [None] if it has to wait. *)
Definition thread_step (s : pipe) (j t : nat) : res (option pipe) :=
  match cfg !! j, stages s !! j, queues s !! j with
  | Some c, Some sj, Some q => match m_threads sj !! t with
    | Some u =>
      let goto p := set_thread sj t (Th p (loc u) []) in
      match at_ u with
      | PNotStarted => Ok (Some (set_stage s j (add_units (goto PRun) 1)))
      | PRun => Ok (Some (set_stage s j (goto (if m_run s then PPop else PUnits))))
      | PUnits => Ok (Some (set_stage s j (goto (if prev_units s j =? 0 then PEmpty else PPop))))
      | PEmpty => if c_empty q then
          let* evs := flush c (last_stage j) (loc u) in Ok (Some (set_stage s j (set_thread sj t (Th PFlush (loc u) evs))))
          else Ok (Some (set_stage s j (goto PPop)))
      | PPop => pop s j t c sj u q
      | PHand => match pend u with [] => Ok (Some (set_stage s j (goto PRun))) | ev :: evs => hand s j t sj u ev evs end
      | PFlush => match pend u with [] => Ok (Some (set_stage s j (goto PStop))) | ev :: evs => hand s j t sj u ev evs end
      | PStop => Ok (Some (stop (set_stage s j (goto PDec))))
      | PDec => Ok (Some (set_stage s j (add_units (goto PDone) (-1))))
      | PDone => Ok None
      end
    | None => Ok None end
  | _, _, _ => Ok None
  end.

(** [enqueue(task)] of the next task. *)
Definition enqueue (s : pipe) : res (option pipe) :=
  match todo s, queues s !! 0%nat with
  | t :: ts, Some q =>
      let serial := u64 (m_plserial s + 1) in
      let x := Item serial t in
      let* r := push_back queue_size x q in match r with
      | Block _ => Ok None
      | Return q' _ _ => Ok (Some (Pipe (m_run s) ts serial (<[0%nat := q']> (queues s)) (stages s) (fed s ++ [x]))) end
  | _, _ => Ok None
  end.

Definition started (u : th) : bool := match at_ u with PNotStarted => false | _ => true end.
Definition all_started (s : pipe) : bool := forallb (fun sj => forallb started (m_threads sj)) (stages s).
Definition done_ (u : th) : bool := match at_ u with PDone => true | _ => false end.
(** [wait] returns when every thread has ended. *)
Definition all_done (s : pipe) : bool := forallb (fun sj => forallb done_ (m_threads sj)) (stages s).

(** A step of a thread, or of the caller, who enqueues all tasks and then calls
    [stop]: as soon as it likes, or, if [careful], after all threads have begun. *)
Inductive step (careful : bool) (s : pipe) : pipe -> Prop :=
| step_thread j t s' : thread_step s j t = Ok (Some s') -> step careful s s'
| step_enqueue s' : enqueue s = Ok (Some s') -> step careful s s'
| step_stop : todo s = [] -> m_run s = true -> (careful = true -> all_started s = true) -> step careful s (stop s).

(** After [compile]: [q0] is an empty queue. *)
Definition compiled (q0 : C) (tasks : list (option Task)) : pipe :=
  Pipe true tasks 0 (replicate (length cfg) q0)
    (map (fun c => St 0 (replicate (thread_count c) (Th PNotStarted (init_fast debug) [])) [] []) cfg) [].

End pipeline.
Arguments stage : clear implicits.
Arguments th : clear implicits.
Arguments stage_st : clear implicits.
Arguments pipe : clear implicits.
End Pipeline.
