(* ===== verification/PipelineInv.v ===== *)
(** * What holds in every state of the pipeline

    The invariant of the steps of [Pipeline] when [stop] comes after all threads have
    begun: nothing gets lost between the queues, a thread that leaves has seen the
    stage before it finished and its queue empty, and no step is undefined. *)
From Stdlib Require Import Sorted.
From S2P Require Import Prelude ConcQueue SerialStep SerialStepProps Pipeline.
Import ConcQueue SerialStep SerialStepProps Pipeline.

Module PipelineInv.

#[global] Arguments last_stage : simpl never.
#[global] Arguments m_keepSerial : simpl never.

(** The items among the events of a stage that go into its queue. *)
Definition pushed {Task} (evs : list (event Task)) : list (item Task) :=
  flat_map (fun ev => match ev with Push x => [x] | Destroy _ => [] end) evs.

(** What the threads of a stage have still to hand on. *)
Definition pends {Task} (us : list (th Task)) : list (event Task) := concat (map pend us).

(** How far a thread is on its way out of the loop. *)
Definition level (p : pc) : nat :=
  match p with PUnits => 1 | PEmpty => 2 | PFlush | PStop | PDec | PDone => 3 | _ => 0 end.

Definition live {Task} (u : th Task) : Z := match at_ u with PNotStarted | PDone => 0 | _ => 1 end.
Fixpoint units {Task} (us : list (th Task)) : Z := match us with [] => 0 | u :: us => live u + units us end.

Lemma units_insert {Task} (us : list (th Task)) t u u' : us !! t = Some u -> units (<[t := u']> us) = units us - live u + live u'.
Proof.
  revert t. induction us as [|v us IH]; intros [|t]; try done; [intros [= ->]; cbn; lia|]. intros Ht.
  change (live v + units (<[t := u']> us) = live v + units us - live u + live u'). rewrite (IH t Ht). lia.
Qed.

Lemma units_nonneg {Task} (us : list (th Task)) : 0 <= units us.
Proof. induction us as [|u us IH]; cbn; [lia|]. unfold live. destruct (at_ u); lia. Qed.

(** With all threads begun, none counted means that all have ended. *)
Lemma units_0_done {Task} (us : list (th Task)) : units us = 0 -> forallb started us = true -> forallb done_ us = true.
Proof.
  induction us as [|u us IH]; [done|]. cbn [units forallb]. intros E [Hs Hss]%andb_true_iff. pose proof (units_nonneg us).
  unfold live, started, done_ in *. destruct (at_ u); try done; try lia. apply IH; [lia|done].
Qed.

Lemma done_units_0 {Task} (us : list (th Task)) : forallb done_ us = true -> units us = 0.
Proof.
  induction us as [|u us IH]; [done|]. cbn [units forallb]. intros [Hs Hss]%andb_true_iff. rewrite IH by done. unfold live, done_ in *. by destruct (at_ u).
Qed.

Lemma forallb_lookup {A} (f : A -> bool) l i x : forallb f l = true -> l !! i = Some x -> f x = true.
Proof. rewrite forallb_forall. intros Hf Hi. apply Hf, list_elem_of_In. by eapply list_elem_of_lookup_2. Qed.

Lemma forallb_intro {A} (f : A -> bool) l : (forall i x, l !! i = Some x -> f x = true) -> forallb f l = true.
Proof. intros Hf. apply forallb_forall. intros x Hx. apply list_elem_of_In, list_elem_of_lookup in Hx as [i Hi]. eauto. Qed.

Lemma perm_swap_ends {A} (a b c : list A) : (a ++ b) ++ c ≡ₚ (c ++ b) ++ a.
Proof. by rewrite (Permutation_app_comm a b), <- app_assoc, (Permutation_app_comm a c), app_assoc, (Permutation_app_comm b c). Qed.

Lemma pends_insert {Task} (us : list (th Task)) t u u' : us !! t = Some u -> pends (<[t := u']> us) ++ pend u ≡ₚ pends us ++ pend u'.
Proof.
  unfold pends. revert t. induction us as [|v us IH]; intros [|t]; try done.
  - intros [= ->]. change (concat (map pend (<[0%nat := u']> (u :: us)))) with (pend u' ++ concat (map pend us)). cbn [map concat].
    apply perm_swap_ends.
  - intros Ht. change (concat (map pend (<[S t := u']> (v :: us)))) with (pend v ++ concat (map pend (<[t := u']> us))). cbn [map concat].
    rewrite <- !app_assoc. by rewrite (IH t Ht).
Qed.

Lemma insert_Some {A} (l : list A) i j (x y : A) : <[i := x]> l !! j = Some y -> (i = j /\ y = x /\ (i < length l)%nat) \/ (i <> j /\ l !! j = Some y).
Proof.
  intros Hj. destruct (decide (i = j)) as [->|Hne].
  - left. pose proof (lookup_lt_Some _ _ _ Hj) as L. rewrite length_insert in L. rewrite list_lookup_insert_eq in Hj by done. by injection Hj as <-.
  - right. by rewrite list_lookup_insert_ne in Hj.
Qed.

Section inv.
Context {Task : Type} `{HS : StdHeap (item Task) plserial} {C : Type} `{HL : ContainerLaws C (item Task) cap holds}.
Context (queue_size : Z) (debug : bool) (cfg : list (stage Task)) (tasks : list (option Task)).
Context (limit_ok : 0 < limit (C := C) (cap := cap) queue_size <= cap).

(** The configuration: every stage has a thread, a stage that keeps the order has
    just one, and [process] returns, and leaves the serial number alone. *)
Context (pr : stage Task -> item Task -> item Task).
Context (cfg_threads : Forall (fun c => (1 <= thread_count c)%nat /\ (ple_keep c = true -> thread_count c = 1%nat)) cfg).
Context (cfg_process : Forall (fun c => forall x, task x <> None -> process c x = Ok (pr c x) /\ plserial (pr c x) = plserial x) cfg).
Context (tasks_few : Z.of_nat (length tasks) < 2 ^ 62).
#[local] Abbreviation pipe := (pipe Task C).
Implicit Types (s : pipe) (sj : stage_st Task) (u : th Task) (c : stage Task) (j t : nat) (q : C).

(** What a stage makes of an item in the end. *)
Definition events (c : stage Task) (is_last : bool) (x : item Task) : list (event Task) :=
  let y := match task x with Some _ => pr c x | None => x end in
  if ple_keep c || is_last then hand_on is_last y
  else if (match task y with Some _ => true | None => false end) || m_keepSerial cfg then [Push y] else [].

Lemma events_keep c is_last : ple_keep c = true -> events c is_last = evs_of is_last (pr c).
Proof. intros E. unfold events. rewrite E. done. Qed.

(** What has been put into the queue that stage [j] takes from. *)
Definition sent (s : pipe) (j : nat) : list (item Task) :=
  match j with O => fed s | S i => match stages s !! i with Some si => pushed (gave si) | None => [] end end.

Definition prev_done (s : pipe) (j : nat) : Prop :=
  match j with O => True | S i => forall si, stages s !! i = Some si -> forallb done_ (m_threads si) = true end.

Record quit_ok (s : pipe) (j : nat) (lv : nat) : Prop := {
  q_run : (1 <= lv)%nat -> m_run s = false;
  q_prev : (2 <= lv)%nat -> prev_done s j;
  q_empty : (3 <= lv)%nat -> forall q, queues s !! j = Some q -> c_empty q = true
}.

(** What has come out of a stage, and is about to, is made of what went in. *)
Definition work_ok (c : stage Task) (is_last : bool) (sj : stage_st Task) : Prop :=
  if ple_keep c then exists u, m_threads sj = [u] /\
    ((level (at_ u) < 3)%nat -> exists dn, progress (valid debug) pending SerialStep.m_plserial (got sj) (loc u) dn /\ gave sj ++ pend u = flat_map (events c is_last) dn) /\
    ((3 <= level (at_ u))%nat -> gave sj ++ pend u = flat_map (events c is_last) (std_sort (got sj)))
  else gave sj ++ pends (m_threads sj) ≡ₚ flat_map (events c is_last) (got sj).

Record stage_ok (c : stage Task) (is_last : bool) (sj : stage_st Task) : Prop := {
  s_units : m_running_exec_units sj = units (m_threads sj);
  s_count : length (m_threads sj) = thread_count c;
  s_pend t u : m_threads sj !! t = Some u -> at_ u <> PHand -> at_ u <> PFlush -> pend u = [];
  s_work : work_ok c is_last sj
}.

Record inv (s : pipe) : Prop := {
  i_queues : length (queues s) = length cfg;
  i_stages : length (stages s) = length cfg;
  i_fed : map task (fed s) ++ todo s = tasks;
  i_serials : serials (fed s) = seqZ 1 (Z.of_nat (length (fed s)));
  i_serial : Pipeline.m_plserial s = Z.of_nat (length (fed s));
  i_queue j q sj : queues s !! j = Some q -> stages s !! j = Some sj -> exists l, holds q l /\ sent s j = got sj ++ l;
  i_stage j c sj : cfg !! j = Some c -> stages s !! j = Some sj -> stage_ok c (last_stage cfg j) sj;
  i_run : m_run s = false -> todo s = [] /\ forall j sj, stages s !! j = Some sj -> forallb started (m_threads sj) = true;
  i_quit j sj t u : stages s !! j = Some sj -> m_threads sj !! t = Some u -> quit_ok s j (level (at_ u))
}.

Lemma cfg_in j c : cfg !! j = Some c -> c ∈ cfg.
Proof. by apply list_elem_of_lookup_2. Qed.

Lemma process_ok_all j c xs : cfg !! j = Some c -> process_ok (process c) (pr c) xs.
Proof.
  intros Hc%cfg_in%list_elem_of_In. pose proof cfg_process as P. rewrite List.Forall_forall in P. specialize (P c Hc).
  apply List.Forall_forall. intros x _ Hx. by apply P.
Qed.

Lemma pr_serial j c x : cfg !! j = Some c -> task x <> None -> plserial (pr c x) = plserial x.
Proof. intros Hc%cfg_in%list_elem_of_In Hx. pose proof cfg_process as P. rewrite List.Forall_forall in P. by apply (P c Hc). Qed.

(** ** Serial numbers *)

Lemma pushed_app (e e' : list (event Task)) : pushed (e ++ e') = pushed e ++ pushed e'.
Proof. apply flat_map_app. Qed.

Lemma events_serial j c is_last x : cfg !! j = Some c -> serials (pushed (events c is_last x)) = [] \/ serials (pushed (events c is_last x)) = [plserial x].
Proof.
  intros Hc. unfold events. assert (plserial (match task x with Some _ => pr c x | None => x end) = plserial x) as E.
  { destruct (task x) eqn:Ex; [|done]. eapply pr_serial; [done|congruence]. }
  revert E. generalize (match task x with Some _ => pr c x | None => x end). intros y E.
  destruct (ple_keep c || is_last); [unfold hand_on; destruct is_last; [destruct (task y)|]; cbn; rewrite ?E; eauto|].
  destruct ((match task y with Some _ => true | None => false end) || m_keepSerial cfg); cbn; rewrite ?E; eauto.
Qed.

Lemma events_serials j c is_last xs : cfg !! j = Some c -> serials (pushed (flat_map (events c is_last) xs)) ⊆+ serials xs.
Proof.
  intros Hc. induction xs as [|x xs IH]; [done|]. cbn [flat_map]. rewrite pushed_app. unfold serials in *. rewrite map_app. cbn [map].
  destruct (events_serial j c is_last x Hc) as [E|E]; unfold serials in E; rewrite E; cbn; [by apply submseteq_cons|by apply submseteq_skip].
Qed.

Lemma serials_submseteq (l l' : list (item Task)) : l ⊆+ l' -> serials l ⊆+ serials l'.
Proof. intros (k & P)%submseteq_Permutation. unfold serials. rewrite P, map_app. apply submseteq_inserts_r. done. Qed.

Lemma pushed_perm (e e' : list (event Task)) : e ≡ₚ e' -> pushed e ≡ₚ pushed e'.
Proof. intros P. unfold pushed. by rewrite P. Qed.

Lemma gave_serials j c is_last sj : cfg !! j = Some c -> work_ok c is_last sj -> serials (pushed (gave sj)) ⊆+ serials (got sj).
Proof.
  intros Hc. unfold work_ok.
  assert (forall p xs, gave sj ++ p ≡ₚ flat_map (events c is_last) xs -> xs ⊆+ got sj -> serials (pushed (gave sj)) ⊆+ serials (got sj)) as Hg.
  { intros p xs E Hx. transitivity (serials xs); [|by apply serials_submseteq].
    transitivity (serials (pushed (gave sj ++ p))); [rewrite pushed_app; apply serials_submseteq, submseteq_inserts_r; done|].
    rewrite (serials_perm _ _ (pushed_perm _ _ E)). by eapply events_serials. }
  destruct (ple_keep c).
  - intros (u & _ & H1 & H2). destruct (decide (level (at_ u) < 3)%nat) as [L|L].
    + destruct (H1 L) as (dn & G & E). eapply (Hg (pend u) dn); [by rewrite E|]. rewrite <- (p_perm _ _ _ _ _ _ G). by apply submseteq_inserts_r.
    + eapply (Hg (pend u) (std_sort (got sj))); [by rewrite H2 by lia|]. by rewrite (proj1 (std_sort_ok (got sj))).
  - intros E. by eapply Hg.
Qed.

Lemma sent_serials s : inv s -> forall j, (j < length cfg)%nat -> serials (sent s j) ⊆+ serials (fed s).
Proof.
  intros I j. induction j as [|j IH]; intros Hj; cbn [sent]; [done|].
  destruct (lookup_lt_is_Some_2 cfg j) as [c Hc]; [lia|]. destruct (lookup_lt_is_Some_2 (stages s) j) as [sj Hsj]; [rewrite (i_stages _ I); lia|].
  destruct (lookup_lt_is_Some_2 (queues s) j) as [q Hq]; [rewrite (i_queues _ I); lia|]. rewrite Hsj.
  transitivity (serials (got sj)); [eapply gave_serials; [done|]; by eapply s_work, i_stage|].
  transitivity (serials (sent s j)); [|apply IH; lia]. destruct (i_queue _ I j q sj Hq Hsj) as (l & _ & ->). apply serials_submseteq, submseteq_inserts_r. done.
Qed.

Lemma seqZ_bounds m n : Forall (fun z => m <= z < m + n) (seqZ m n).
Proof. apply List.Forall_forall. intros z Hz%list_elem_of_In%elem_of_seqZ. lia. Qed.

(** What a stage can ever receive has different serial numbers in the range the
    serial step needs. *)
Lemma sent_ok s j : inv s -> (j < length cfg)%nat -> NoDup (serials (sent s j)) /\ bounded (sent s j).
Proof.
  intros I Hj. pose proof (sent_serials s I j Hj) as Hs. rewrite (i_serials _ I) in Hs. split.
  - apply submseteq_Permutation in Hs as (k & P). pose proof (NoDup_seqZ 1 (Z.of_nat (length (fed s)))) as N. rewrite P in N. by apply list.NoDup_app in N as (? & _).
  - apply List.Forall_forall. intros x Hx. assert (plserial x ∈ serials (sent s j)) as Hin by (apply list_elem_of_In, in_map, Hx).
    apply (elem_of_submseteq _ _ _ Hin) in Hs. apply elem_of_seqZ in Hs. pose proof (i_fed _ I) as F. apply (f_equal length) in F.
    rewrite length_app, length_map in F. lia.
Qed.

(** ** Steps of a thread *)

(** A thread that has not ended is what keeps the next stage from leaving. *)
Lemma next_stays s j t sj u sk v t' : inv s -> stages s !! j = Some sj -> m_threads sj !! t = Some u -> at_ u <> PDone ->
  stages s !! S j = Some sk -> m_threads sk !! t' = Some v -> (level (at_ v) < 2)%nat.
Proof.
  intros I Hj Ht Hu Hk Hv. destruct (decide (level (at_ v) < 2)%nat) as [|L]; [done|]. exfalso.
  pose proof (q_prev _ _ _ (i_quit _ I _ _ _ _ Hk Hv) ltac:(lia)) as P. cbn in P. specialize (P sj Hj).
  pose proof (forallb_lookup _ _ _ _ P Ht) as D. unfold done_ in D. by destruct (at_ u).
Qed.

Lemma inv_change s j t c sj u u' sj' qs' : inv s -> cfg !! j = Some c -> stages s !! j = Some sj -> m_threads sj !! t = Some u ->
  at_ u <> PDone -> m_threads sj' = <[t := u']> (m_threads sj) -> at_ u' <> PNotStarted ->
  stage_ok c (last_stage cfg j) sj' -> length qs' = length cfg ->
  let s' := Pipe (m_run s) (todo s) (Pipeline.m_plserial s) qs' (<[j := sj']> (stages s)) (fed s) in
  (forall k q sk, qs' !! k = Some q -> stages s' !! k = Some sk -> exists l, holds q l /\ sent s' k = got sk ++ l) ->
  (forall k q', k <> S j -> qs' !! k = Some q' -> exists q, queues s !! k = Some q /\ (c_empty q = true -> c_empty q' = true)) ->
  quit_ok s j (level (at_ u')) -> inv s'.
Proof.
  intros I Hc Hj Ht Hu Es Hu' Ok Lq s' Hq He Hquit.
  assert (forall k lv, quit_ok s k lv -> (k = S j -> (lv < 2)%nat) -> quit_ok s' k lv) as Tr.
  { intros k lv [Q1 Q2 Q3] Hk. split; [done| |].
    - intros L. specialize (Q2 L). destruct k as [|i]; [done|]. cbn in *. intros si Hi. apply insert_Some in Hi as [(<- & -> & _)|[_ Hi]]; [lia|by apply Q2].
    - intros L q' Hq'. destruct (He k q') as (q & Hqq & Heq); [lia|done|]. apply Heq. by apply Q3. }
  split; cbn [queues stages fed todo m_run Pipeline.m_plserial s'].
  - done.
  - rewrite length_insert. apply I.
  - apply I.
  - apply I.
  - apply I.
  - exact Hq.
  - intros k c' sk Hck Hk. apply insert_Some in Hk as [(<- & -> & _)|[_ Hk]]; [congruence|by eapply i_stage].
  - intros R. destruct (i_run _ I R) as [Td St]. split; [done|]. intros k sk Hk. apply insert_Some in Hk as [(<- & -> & _)|[_ Hk]]; [|by eapply St].
    rewrite Es. apply forallb_intro. intros t' v Hv. apply insert_Some in Hv as [(<- & -> & _)|[_ Hv]]; [unfold started; by destruct (at_ u')|].
    by eapply forallb_lookup; [eapply St|].
  - intros k sk t' v Hk Hv. apply insert_Some in Hk as [(<- & -> & _)|[Hne Hk]].
    + apply Tr; [|lia]. rewrite Es in Hv. apply insert_Some in Hv as [(<- & -> & _)|[_ Hv]]; [done|by eapply i_quit].
    + apply Tr; [by eapply i_quit|]. intros ->. by eapply (next_stays s j t).
Qed.

(** Steps that leave the queues and what has gone through the stage alone. *)
Lemma inv_local s j t c sj u u' m : inv s -> cfg !! j = Some c -> stages s !! j = Some sj -> m_threads sj !! t = Some u ->
  at_ u <> PDone -> at_ u' <> PNotStarted -> m = m_running_exec_units sj - live u + live u' ->
  (at_ u' <> PHand -> at_ u' <> PFlush -> pend u' = []) ->
  work_ok c (last_stage cfg j) (St m (<[t := u']> (m_threads sj)) (got sj) (gave sj)) ->
  quit_ok s j (level (at_ u')) -> inv (set_stage s j (St m (<[t := u']> (m_threads sj)) (got sj) (gave sj))).
Proof.
  intros I Hc Hj Ht Hu Hu' Em Hp Hw Hquit. pose proof (i_stage _ I j c sj Hc Hj) as Ok.
  eapply (inv_change s j t c sj u u'); [done..| | | | |done].
  - split; cbn [m_threads m_running_exec_units]; [rewrite (units_insert _ _ _ _ Ht), <- (s_units _ _ _ Ok); lia|rewrite length_insert; apply Ok| |done].
    intros t' v Hv. apply insert_Some in Hv as [(<- & -> & _)|[_ Hv]]; [done|by eapply s_pend].
  - apply I.
  - intros k q sk Hq Hk. cbn in Hk.
    assert (sent (set_stage s j (St m (<[t := u']> (m_threads sj)) (got sj) (gave sj))) k = sent s k) as E.
    { destruct k as [|i]; [done|]. cbn. destruct (decide (i = j)) as [->|Hne]; [rewrite list_lookup_insert_eq by exact (lookup_lt_Some _ _ _ Hj); by rewrite Hj|by rewrite list_lookup_insert_ne by done]. }
    unfold set_stage in E. cbn in E |- *. rewrite E. apply insert_Some in Hk as [(<- & -> & _)|[_ Hk]]; [exact (i_queue _ I j q sj Hq Hj)|exact (i_queue _ I k q sk Hq Hk)].
  - intros k q' _ Hq'. eauto.
Qed.

(** Changing a thread whose work stays the same. *)
Lemma work_same c is_last sj t u u' m : work_ok c is_last sj -> m_threads sj !! t = Some u -> loc u' = loc u -> pend u' = pend u ->
  (level (at_ u) < 3 <-> level (at_ u') < 3)%nat -> work_ok c is_last (St m (<[t := u']> (m_threads sj)) (got sj) (gave sj)).
Proof.
  unfold work_ok. intros W Ht El Ep Hl. cbn [m_threads got gave]. destruct (ple_keep c).
  - destruct W as (v & Ev & W1 & W2). rewrite Ev in Ht |- *. destruct t as [|t]; [|by destruct t]. injection Ht as ->. exists u'. split; [done|].
    rewrite El, Ep. split; intros L; [apply W1; lia|apply W2; lia].
  - rewrite <- W. apply Permutation_app_head. pose proof (pends_insert _ _ _ u' Ht) as P. rewrite Ep in P. by apply Permutation_app_inv_r in P.
Qed.

(** *** What the queues do *)

Lemma queue_push q l x : holds q l -> Z.of_nat (length l) < limit (C := C) (cap := cap) queue_size ->
  exists q', push_back queue_size x q = Ok (Return q' RUnit (Some PopCond)) /\ holds q' (l ++ [x]).
Proof.
  intros Hq Hl. pose proof (run_ok queue_size limit_ok (PushBack x) false q l Hq Logic.I) as R. cbn in R.
  by rewrite (proj2 (Z.leb_gt _ _) Hl) in R.
Qed.

Lemma queue_full q l x : holds q l -> limit (C := C) (cap := cap) queue_size <= Z.of_nat (length l) -> push_back queue_size x q = Ok (Block PushCond).
Proof.
  intros Hq Hl. pose proof (run_ok queue_size limit_ok (PushBack x) false q l Hq Logic.I) as R. cbn in R.
  by rewrite (proj2 (Z.leb_le _ _) Hl) in R.
Qed.

Lemma queue_pop q x l : holds q (x :: l) -> exists q', pop_front_timed true q = Ok (Return q' (ROpt (Some x)) (Some PushCond)) /\ holds q' l.
Proof. intros Hq. exact (run_ok queue_size limit_ok PopFrontT true q (x :: l) Hq Logic.I). Qed.

Lemma queue_timeout q : holds q [] -> exists q', pop_front_timed true q = Ok (Return q' (ROpt None) None) /\ holds q' [].
Proof. intros Hq. exact (run_ok queue_size limit_ok PopFrontT true q [] Hq Logic.I). Qed.

Lemma queue_empty q l : holds q l -> c_empty q = true -> l = [].
Proof. intros Hq. rewrite (l_empty _ _ Hq). destruct l; [done|]. cbn [length]. intros E%Z.eqb_eq. lia. Qed.

(** *** What a stage makes of a task *)

Lemma events_last c x ev : ev ∈ events c true x -> exists k, ev = Destroy k.
Proof.
  unfold events. rewrite orb_true_r. generalize (match task x with Some _ => pr c x | None => x end). intros y. unfold hand_on.
  destruct (task y); [intros ->%list_elem_of_singleton; eauto|by intros ?%not_elem_of_nil].
Qed.

Lemma events_short c is_last x : (length (events c is_last x) <= 1)%nat.
Proof.
  unfold events, hand_on. generalize (match task x with Some _ => pr c x | None => x end). intros y.
  destruct (ple_keep c || is_last); [destruct is_last; [destruct (task y)|]; cbn; lia|]. destruct (_ || _); cbn; lia.
Qed.

Lemma flat_map_events_short c is_last xs : (length (flat_map (events c is_last) xs) <= length xs)%nat.
Proof.
  induction xs as [|x xs IH]; [done|]. cbn [flat_map length]. rewrite length_app. pose proof (events_short c is_last x). lia.
Qed.

(** What a thread of the last stage hands on is destroyed. *)
Lemma pend_last c sj t u ev : work_ok c true sj -> m_threads sj !! t = Some u -> ev ∈ pend u -> exists x, ev = Destroy x.
Proof.
  intros W Ht Hev. assert (forall xs (e : list (event Task)), e ≡ₚ flat_map (events c true) xs -> ev ∈ e -> exists x, ev = Destroy x) as Hx.
  { intros xs e E Hin. rewrite E in Hin. apply list_elem_of_In, in_flat_map in Hin as (x & _ & Hin). eapply events_last. by apply list_elem_of_In. }
  unfold work_ok in W. destruct (ple_keep c).
  - destruct W as (v & Ev & W1 & W2). rewrite Ev in Ht. destruct t as [|t]; [|by destruct t]. injection Ht as ->.
    assert (exists xs, gave sj ++ pend u = flat_map (events c true) xs) as (xs & E).
    { destruct (decide (level (at_ u) < 3)%nat) as [L|L]; [destruct (W1 L) as (dn & _ & E); eauto|]. exists (std_sort (got sj)). apply W2. lia. }
    apply (Hx xs (gave sj ++ pend u)); [by rewrite E|]. apply elem_of_app. by right.
  - eapply Hx; [exact W|]. apply elem_of_app. right. unfold pends. apply list_elem_of_In, in_concat. exists (pend u). split; [|by apply list_elem_of_In].
    apply in_map, list_elem_of_In. by eapply list_elem_of_lookup_2.
Qed.

(** How many items wait in the cache of a serial step. *)
Definition cached (c : stage Task) (u : th Task) : nat := if ple_keep c then if (level (at_ u) <? 3)%nat then length (pending (loc u)) else 0%nat else 0%nat.

Lemma recv_ok j c sj t u x l : cfg !! j = Some c -> work_ok c (last_stage cfg j) sj -> m_threads sj !! t = Some u -> at_ u = PPop -> pend u = [] ->
  NoDup (serials ((got sj ++ [x]) ++ l)) -> bounded ((got sj ++ [x]) ++ l) ->
  exists loc' evs, recv debug cfg c (last_stage cfg j) (loc u) x = Ok (loc', evs) /\
    work_ok c (last_stage cfg j) (St (m_running_exec_units sj) (<[t := Th PHand loc' evs]> (m_threads sj)) (got sj ++ [x]) (gave sj)) /\
    (length evs + cached c (Th PHand loc' evs) <= cached c u + 1)%nat.
Proof.
  intros Hc W Ht Hu Hp ND Hb. unfold recv, work_ok, cached in *. cbn [m_threads got gave at_ loc pend]. destruct (ple_keep c) eqn:K.
  - destruct W as (v & Ev & W1 & _). rewrite Ev in Ht |- *. destruct t as [|t]; [|by destruct t]. injection Ht as ->. rewrite Hu in W1 |- *. cbn [level] in *.
    destruct (W1 ltac:(lia)) as (dn & G & E). rewrite Hp, app_nil_r in E.
    unfold serials in ND. rewrite map_app in ND. apply list.NoDup_app in ND as (ND & _). apply List.Forall_app in Hb as [Hb _].
    destruct (recv_one_ok (process c) (pr c) _ _ _ _ _ (fast_step_ok (process c) (last_stage cfg j) debug (pr c)) x (got sj) (loc u) dn G ND Hb) as (loc' & dn' & Er & G' & P').
    { by eapply process_ok_all. }
    exists loc', (flat_map (evs_of (last_stage cfg j) (pr c)) dn'). split; [done|]. split.
    + eexists. split; [done|]. cbn [at_ level loc pend]. split; [|lia]. intros _. exists (dn ++ dn'). split; [done|]. by rewrite E, flat_map_app, (events_keep c _ K).
    + cbn. apply Permutation_length in P'. rewrite length_app in P'. cbn in P'. pose proof (flat_map_events_short c (last_stage cfg j) dn') as Sh.
      rewrite (events_keep c _ K) in Sh. lia.
  - rewrite (run_process_ok (process c) (pr c) x).
    2: { intros Hx. pose proof (process_ok_all j c [x] Hc) as P. inversion P; subst. by auto. }
    cbn [rbind]. eexists _, _. split; [done|].
    match goal with |- context [Th PHand (loc u) ?e] => assert (e = events c (last_stage cfg j) x) as -> end.
    { unfold events. rewrite K. cbn [orb]. by destruct (last_stage cfg j). }
    split; [|pose proof (events_short c (last_stage cfg j) x); lia].
    pose proof (pends_insert _ _ _ (Th PHand (loc u) (events c (last_stage cfg j) x)) Ht) as P. rewrite Hp, app_nil_r in P. cbn [pend] in P.
    rewrite P, app_assoc, W, flat_map_app. cbn [flat_map]. by rewrite app_nil_r.
Qed.

Lemma flush_ok j c sj t u : cfg !! j = Some c -> work_ok c (last_stage cfg j) sj -> m_threads sj !! t = Some u -> at_ u = PEmpty -> pend u = [] ->
  NoDup (serials (got sj)) -> bounded (got sj) ->
  exists evs, flush debug c (last_stage cfg j) (loc u) = Ok evs /\
    work_ok c (last_stage cfg j) (St (m_running_exec_units sj) (<[t := Th PFlush (loc u) evs]> (m_threads sj)) (got sj) (gave sj)) /\
    (length evs <= cached c u)%nat.
Proof.
  intros Hc W Ht Hu Hp ND Hb. unfold flush, work_ok, cached in *. cbn [m_threads got gave at_ loc pend]. destruct (ple_keep c) eqn:K.
  - destruct W as (v & Ev & W1 & _). rewrite Ev in Ht |- *. destruct t as [|t]; [|by destruct t]. injection Ht as ->. rewrite Hu in W1 |- *. cbn [level] in *.
    destruct (W1 ltac:(lia)) as (dn & G & E). rewrite Hp, app_nil_r in E.
    rewrite (flush_pending_ok (process c) (last_stage cfg j) debug (pr c)); [|apply G|by eapply process_ok_all].
    eexists. split; [done|]. split.
    + eexists. split; [done|]. cbn [at_ level loc pend]. split; [lia|]. intros _. by rewrite E, (events_keep c _ K), <- flat_map_app, (progress_sorted _ _ _ _ _ _ G ND Hb).
    + cbn. rewrite <- (Permutation_length (proj1 (std_sort_ok (pending (loc u))))). rewrite <- (events_keep c _ K). apply flat_map_events_short.
  - exists []. split; [done|]. split; [|cbn; lia]. pose proof (pends_insert _ _ _ (Th PFlush (loc u) []) Ht) as P. rewrite Hp, !app_nil_r in P. by rewrite P.
Qed.
End inv.
End PipelineInv.
