(* ===== verification/PipelineSteps.v ===== *)
(** * The steps of the pipeline

    Every step keeps the invariant of [PipelineInv] and does not raise the measure of
    what is left to do; which steps lower it. *)
From Stdlib Require Import Sorted.
From S2P Require Import Prelude ConcQueue SerialStep SerialStepProps Pipeline PipelineInv.
Import ConcQueue SerialStep SerialStepProps Pipeline PipelineInv.

Module PipelineSteps.

(** Weighted sums over a list. *)
Fixpoint wsum {A} (k : nat) (f : nat -> A -> Z) (l : list A) : Z :=
  match l with [] => 0 | x :: l => f k x + wsum (S k) f l end.

Lemma wsum_insert {A} f (l : list A) k i x y : l !! i = Some x -> wsum k f (<[i := y]> l) = wsum k f l - f (k + i)%nat x + f (k + i)%nat y.
Proof.
  revert k i. induction l as [|z l IH]; intros k [|i]; try done.
  - intros [= ->]. rewrite Nat.add_0_r. cbn. lia.
  - intros Hi. change (f k z + wsum (S k) f (<[i := y]> l) = f k z + wsum (S k) f l - f (k + S i)%nat x + f (k + S i)%nat y).
    rewrite (IH (S k) i Hi). replace (S k + i)%nat with (k + S i)%nat by lia. lia.
Qed.

Lemma wsum_nonneg {A} f (l : list A) k : (forall i x, l !! i = Some x -> 0 <= f (k + i)%nat x) -> 0 <= wsum k f l.
Proof.
  revert k. induction l as [|x l IH]; intros k Hf; cbn; [done|]. pose proof (Hf 0%nat x eq_refl) as H0. rewrite Nat.add_0_r in H0.
  specialize (IH (S k)). assert (0 <= wsum (S k) f l); [|lia]. apply IH. intros i y Hi. replace (S k + i)%nat with (k + S i)%nat by lia. by apply Hf.
Qed.

Definition rank (p : pc) : Z := match p with PNotStarted => 5 | PFlush => 3 | PStop => 2 | PDec => 1 | PDone => 0 | _ => 4 end.

Section steps.
Context {Task : Type} `{HS : StdHeap (item Task) plserial} {C : Type} `{HL : ContainerLaws C (item Task) cap holds}.
Context (queue_size : Z) (debug : bool) (cfg : list (stage Task)) (tasks : list (option Task)).
Context (limit_ok : 0 < limit (C := C) (cap := cap) queue_size <= cap).
Context (pr : stage Task -> item Task -> item Task).
Context (cfg_threads : Forall (fun c => (1 <= thread_count c)%nat /\ (ple_keep c = true -> thread_count c = 1%nat)) cfg).
Context (cfg_process : Forall (fun c => forall x, task x <> None -> process c x = Ok (pr c x) /\ plserial (pr c x) = plserial x) cfg).
Context (tasks_few : Z.of_nat (length tasks) < 2 ^ 62).
#[local] Abbreviation pipe := (pipe Task C).
#[local] Abbreviation inv := (inv (holds := holds) debug cfg tasks pr).
#[local] Abbreviation thread_step := (thread_step queue_size debug cfg).
#[local] Abbreviation limit := (limit (C := C) (cap := cap) queue_size).
Implicit Types (s : pipe) (sj : stage_st Task) (u : th Task) (c : stage Task) (j t : nat) (q : C).

(** ** What is left to do

    A task that is still to be enqueued, one in the queue of stage [j], one in stage
    [j], and how far each thread is from its end. *)
Definition n : Z := Z.of_nat (length cfg).
Definition tweight (j : nat) (c : stage Task) (u : th Task) : Z :=
  (2 * (n - Z.of_nat j) - 1) * Z.of_nat (length (pend u) + cached c u) + rank (at_ u).
Definition sweight (j : nat) (sj : stage_st Task) : Z :=
  match cfg !! j with Some c => wsum 0 (fun _ => tweight j c) (m_threads sj) | None => 0 end.
Definition qweight (k : nat) (q : C) : Z := 2 * (n - Z.of_nat k) * c_size q.
Definition measure (s : pipe) : Z :=
  (2 * n + 1) * Z.of_nat (length (todo s)) + Z.b2z (m_run s) + wsum 0 qweight (queues s) + wsum 0 sweight (stages s).

Lemma measure_stage s j c sj t u u' m g h : cfg !! j = Some c -> stages s !! j = Some sj -> m_threads sj !! t = Some u ->
  measure (set_stage s j (St m (<[t := u']> (m_threads sj)) g h)) = measure s - tweight j c u + tweight j c u'.
Proof.
  intros Hc Hj Ht. unfold measure. cbn [set_stage todo m_run queues stages]. rewrite (wsum_insert _ _ _ _ _ _ Hj). cbn [Nat.add].
  unfold sweight at 2 3. rewrite Hc. cbn [m_threads]. rewrite (wsum_insert _ _ _ _ _ _ Ht). lia.
Qed.

Lemma measure_queue s k q q' : queues s !! k = Some q ->
  measure (set_queue s k q') = measure s - qweight k q + qweight k q'.
Proof. intros Hq. unfold measure. cbn [set_queue todo m_run queues stages]. rewrite (wsum_insert _ _ _ _ _ _ Hq). cbn [Nat.add]. lia. Qed.

Lemma stage_lt s j sj : inv s -> stages s !! j = Some sj -> (j < length cfg)%nat.
Proof. intros I Hj%lookup_lt_Some. by rewrite (i_stages _ _ _ _ _ I) in Hj. Qed.

Lemma stage_cfg s j sj : inv s -> stages s !! j = Some sj -> exists c q, cfg !! j = Some c /\ queues s !! j = Some q.
Proof.
  intros I Hj. pose proof (stage_lt s j sj I Hj). destruct (lookup_lt_is_Some_2 cfg j) as [c Hc]; [done|].
  destruct (lookup_lt_is_Some_2 (queues s) j) as [q Hq]; [by rewrite (i_queues _ _ _ _ _ I)|]. eauto.
Qed.

Lemma quit_0 s j : quit_ok s j 0.
Proof. clear. split; lia. Qed.

(** ** A thread moves on by itself *)

Lemma goto_ok s j t c sj u p : inv s -> cfg !! j = Some c -> stages s !! j = Some sj -> m_threads sj !! t = Some u ->
  at_ u <> PDone -> at_ u <> PNotStarted -> p <> PDone -> p <> PNotStarted -> pend u = [] -> (level (at_ u) < 3 <-> level p < 3)%nat -> quit_ok s j (level p) ->
  let s' := set_stage s j (set_thread sj t (Th p (loc u) [])) in inv s' /\ measure s' = measure s - rank (at_ u) + rank p.
Proof.
  intros I Hc Hj Ht Hu1 Hu2 Hp1 Hp2 Hpe Hl Hq s'. split.
  - apply (inv_local debug cfg tasks pr s j t c sj u (Th p (loc u) []) (m_running_exec_units sj)); try done.
    + unfold live. cbn. destruct (at_ u), p; try done; lia.
    + apply (work_same debug cfg tasks pr c _ sj t u); try done. by eapply s_work, i_stage.
  - unfold s', set_thread. rewrite (measure_stage s j c sj t u) by done. unfold tweight, cached. cbn [at_ pend loc]. rewrite Hpe.
    assert ((level (at_ u) <? 3)%nat = (level p <? 3)%nat) as ->; [|lia].
    destruct (Nat.ltb_spec (level (at_ u)) 3), (Nat.ltb_spec (level p) 3); (done || lia).
Qed.

Lemma start_ok s j t c sj u : inv s -> cfg !! j = Some c -> stages s !! j = Some sj -> m_threads sj !! t = Some u -> at_ u = PNotStarted ->
  let s' := set_stage s j (add_units (set_thread sj t (Th PRun (loc u) [])) 1) in inv s' /\ measure s' < measure s.
Proof.
  intros I Hc Hj Ht Hu s'. pose proof (s_pend _ _ _ _ _ _ (i_stage _ _ _ _ _ I j c sj Hc Hj) t u Ht) as Hpe. rewrite Hu in Hpe. specialize (Hpe ltac:(done) ltac:(done)). split.
  - apply (inv_local debug cfg tasks pr s j t c sj u (Th PRun (loc u) []) (m_running_exec_units sj + 1)); try done; [by rewrite Hu| | |apply quit_0].
    + unfold live. rewrite Hu. cbn. lia.
    + apply (work_same debug cfg tasks pr c _ sj t u); try done; [by eapply s_work, i_stage|]. rewrite Hu. cbn. lia.
  - unfold s', set_thread, add_units. cbn [m_running_exec_units m_threads got gave]. rewrite (measure_stage s j c sj t u) by done. unfold tweight, cached. cbn [at_ pend loc]. rewrite Hpe, Hu. cbn [level rank]. lia.
Qed.

Lemma dec_ok s j t c sj u : inv s -> cfg !! j = Some c -> stages s !! j = Some sj -> m_threads sj !! t = Some u -> at_ u = PDec ->
  let s' := set_stage s j (add_units (set_thread sj t (Th PDone (loc u) [])) (-1)) in inv s' /\ measure s' < measure s.
Proof.
  intros I Hc Hj Ht Hu s'. pose proof (s_pend _ _ _ _ _ _ (i_stage _ _ _ _ _ I j c sj Hc Hj) t u Ht) as Hpe. rewrite Hu in Hpe. specialize (Hpe ltac:(done) ltac:(done)). split.
  - apply (inv_local debug cfg tasks pr s j t c sj u (Th PDone (loc u) []) (m_running_exec_units sj + -1)); try done; [by rewrite Hu| | |].
    + unfold live. rewrite Hu. cbn. lia.
    + apply (work_same debug cfg tasks pr c _ sj t u); try done; [by eapply s_work, i_stage|]. rewrite Hu. cbn. lia.
    + pose proof (i_quit _ _ _ _ _ I _ _ _ _ Hj Ht) as Q. by rewrite Hu in Q.
  - unfold s', set_thread, add_units. cbn [m_running_exec_units m_threads got gave]. rewrite (measure_stage s j c sj t u) by done. unfold tweight, cached. cbn [at_ pend loc]. rewrite Hpe, Hu. cbn [level rank]. lia.
Qed.

(** What stage [j] has taken and what waits in its queue is fit for a serial step. *)
Lemma input_ok s j sj q l : inv s -> stages s !! j = Some sj -> sent s j = got sj ++ l ->
  NoDup (serials (got sj ++ l)) /\ bounded (got sj ++ l).
Proof.
  intros I Hj <-. apply (sent_ok debug cfg tasks pr cfg_process tasks_few s j I). by eapply stage_lt.
Qed.

Lemma input_ok_got s j sj : inv s -> stages s !! j = Some sj -> NoDup (serials (got sj)) /\ bounded (got sj).
Proof.
  intros I Hj. destruct (stage_cfg s j sj I Hj) as (c & q & Hc & Hq). destruct (i_queue _ _ _ _ _ I j q sj Hq Hj) as (l & _ & Es).
  destruct (input_ok s j sj q l I Hj Es) as [ND Hb]. unfold serials, bounded in *. rewrite map_app in ND. apply list.NoDup_app in ND as (ND & _).
  by apply List.Forall_app in Hb as [Hb _].
Qed.

(** ** Leaving the loop *)

Lemma flush_step_ok s j t c sj u q : inv s -> cfg !! j = Some c -> stages s !! j = Some sj -> m_threads sj !! t = Some u -> at_ u = PEmpty ->
  queues s !! j = Some q -> c_empty q = true ->
  exists evs, flush debug c (last_stage cfg j) (loc u) = Ok evs /\
  let s' := set_stage s j (set_thread sj t (Th PFlush (loc u) evs)) in inv s' /\ measure s' < measure s.
Proof.
  intros I Hc Hj Ht Hu Hq He. pose proof (s_pend _ _ _ _ _ _ (i_stage _ _ _ _ _ I j c sj Hc Hj) t u Ht) as Hpe. rewrite Hu in Hpe. specialize (Hpe ltac:(done) ltac:(done)).
  destruct (input_ok_got s j sj I Hj) as [ND Hb].
  destruct (flush_ok debug cfg tasks pr cfg_process j c sj t u Hc (s_work _ _ _ _ _ _ (i_stage _ _ _ _ _ I j c sj Hc Hj)) Ht Hu Hpe ND Hb) as (evs & E & W & L).
  exists evs. split; [done|]. intros s'. split.
  - apply (inv_local debug cfg tasks pr s j t c sj u (Th PFlush (loc u) evs) (m_running_exec_units sj)); try done; [by rewrite Hu| |].
    + unfold live. rewrite Hu. cbn. lia.
    + pose proof (i_quit _ _ _ _ _ I _ _ _ _ Hj Ht) as Q. rewrite Hu in Q. destruct Q as [Q1 Q2 _]. cbn in *. split; intros; [apply Q1; lia|apply Q2; lia|congruence].
  - unfold s', set_thread. rewrite (measure_stage s j c sj t u) by done. unfold tweight. rewrite Hpe, Hu. cbn [at_ pend loc rank length Nat.add].
    assert (cached c (Th PFlush (loc u) evs) = 0%nat) as -> by (unfold cached; by destruct (ple_keep c)).
    pose proof (stage_lt s j sj I Hj). unfold n. nia.
Qed.

(** ** Taking a task *)

Lemma set_set s j sj k q : set_queue (set_stage s j sj) k q = Pipe (m_run s) (todo s) (Pipeline.m_plserial s) (<[k := q]> (queues s)) (<[j := sj]> (stages s)) (fed s).
Proof. done. Qed.

(** [sent] reads only what a stage gave. *)
Lemma sent_change s j sj sj' (qs : list C) k : stages s !! j = Some sj -> (forall i, k = S i -> i = j -> pushed (gave sj') = pushed (gave sj)) ->
  sent (Pipe (m_run s) (todo s) (Pipeline.m_plserial s) qs (<[j := sj']> (stages s)) (fed s)) k = sent s k.
Proof.
  intros Hj Hg. destruct k as [|i]; [done|]. cbn. destruct (decide (i = j)) as [->|Hne]; [|by rewrite list_lookup_insert_ne].
  rewrite list_lookup_insert_eq by exact (lookup_lt_Some _ _ _ Hj). rewrite Hj. by apply (Hg j).
Qed.

Lemma pop_ok s j t c sj u q : inv s -> cfg !! j = Some c -> stages s !! j = Some sj -> m_threads sj !! t = Some u -> at_ u = PPop ->
  queues s !! j = Some q ->
  exists s', pop debug cfg s j t c sj u q = Ok (Some s') /\ inv s' /\ measure s' <= measure s /\ (c_empty q = false -> measure s' < measure s).
Proof.
  intros I Hc Hj Ht Hu Hq. pose proof (s_pend _ _ _ _ _ _ (i_stage _ _ _ _ _ I j c sj Hc Hj) t u Ht) as Hpe. rewrite Hu in Hpe. specialize (Hpe ltac:(done) ltac:(done)).
  destruct (i_queue _ _ _ _ _ I j q sj Hq Hj) as (l & Hl & Es). unfold pop. destruct l as [|x l].
  - destruct (queue_timeout queue_size limit_ok q Hl) as (q' & -> & _). cbn [rbind]. eexists. split; [done|].
    destruct (goto_ok s j t c sj u PRun) as [I' M']; try done; [by rewrite Hu|by rewrite Hu|by rewrite Hu|apply quit_0|]. split; [done|].
    rewrite Hu in M'. cbn [rank] in M'. split; [lia|]. by rewrite (l_empty _ _ Hl).
  - destruct (queue_pop queue_size limit_ok q x l Hl) as (q' & -> & Hl'). cbn [rbind].
    destruct (input_ok s j sj q (x :: l) I Hj Es) as [ND Hb]. change (x :: l) with ([x] ++ l) in ND, Hb. rewrite app_assoc in ND, Hb.
    destruct (recv_ok debug cfg tasks pr cfg_process j c sj t u x l Hc (s_work _ _ _ _ _ _ (i_stage _ _ _ _ _ I j c sj Hc Hj)) Ht Hu Hpe ND Hb) as (loc' & evs & -> & W & L).
    cbn [rbind]. eexists. split; [done|]. set (sj' := St (m_running_exec_units sj) (<[t := Th PHand loc' evs]> (m_threads sj)) (got sj ++ [x]) (gave sj)) in *.
    assert (measure (set_queue (set_stage s j sj') j q') < measure s) as M.
    { rewrite (measure_queue (set_stage s j sj') j q) by done. unfold sj'. rewrite (measure_stage s j c sj t u) by done. unfold tweight, qweight.
      rewrite Hu, Hpe, (l_size _ _ Hl), (l_size _ _ Hl'). cbn [at_ pend loc rank length Nat.add]. pose proof (stage_lt s j sj I Hj). unfold n. nia. }
    split; [|split; [lia|done]].
    rewrite set_set. apply (inv_change debug cfg tasks pr s j t c sj u (Th PHand loc' evs) sj'); try done; [by rewrite Hu| | | | |].
    + pose proof (i_stage _ _ _ _ _ I j c sj Hc Hj) as Ok. split; cbn [m_threads m_running_exec_units sj']; [|rewrite length_insert; apply Ok| |done].
      * rewrite (units_insert _ _ _ _ Ht), <- (s_units _ _ _ _ _ _ Ok). unfold live. rewrite Hu. cbn. lia.
      * intros t' v Hv. apply insert_Some in Hv as [(<- & -> & _)|[_ Hv]]; [done|]. by eapply s_pend.
    + rewrite length_insert. apply I.
    + intros k qk sk Hqk Hk. rewrite (sent_change s j sj) by done. cbn in Hk. apply insert_Some in Hk as [(<- & -> & _)|[Hne Hk]].
      * rewrite list_lookup_insert_eq in Hqk by exact (lookup_lt_Some _ _ _ Hq). injection Hqk as <-. exists l. split; [done|]. cbn [got sj']. by rewrite Es, <- app_assoc.
      * rewrite list_lookup_insert_ne in Hqk by done. by apply (i_queue _ _ _ _ _ I).
    + intros k qk _ Hqk. apply insert_Some in Hqk as [(<- & -> & _)|[_ Hqk]]; [|eauto]. exists q. split; [done|]. by rewrite (l_empty _ _ Hl).
    + apply quit_0.
Qed.

(** ** Handing on *)

Lemma hand_work c is_last sj t u ev evs m : work_ok debug cfg pr c is_last sj -> m_threads sj !! t = Some u -> pend u = ev :: evs ->
  work_ok debug cfg pr c is_last (St m (<[t := Th (at_ u) (loc u) evs]> (m_threads sj)) (got sj) (gave sj ++ [ev])).
Proof.
  unfold work_ok. intros W Ht Hp. cbn [m_threads got gave]. destruct (ple_keep c).
  - destruct W as (v & Ev & W1 & W2). rewrite Ev in Ht |- *. destruct t as [|t]; [|by destruct t]. injection Ht as ->. eexists. split; [done|].
    cbn [at_ loc pend]. rewrite <- app_assoc. cbn [app]. rewrite <- Hp. done.
  - rewrite <- W, <- app_assoc. apply Permutation_app_head. pose proof (pends_insert _ _ _ (Th (at_ u) (loc u) evs) Ht) as P. rewrite Hp in P. cbn [pend] in P.
    cbn [app]. change (ev :: evs) with ([ev] ++ evs) in P. rewrite app_assoc in P. apply Permutation_app_inv_r in P. rewrite <- P. by rewrite Permutation_app_comm.
Qed.

Lemma hand_ok s j t c sj u ev evs : inv s -> cfg !! j = Some c -> stages s !! j = Some sj -> m_threads sj !! t = Some u -> at_ u = PHand \/ at_ u = PFlush ->
  pend u = ev :: evs ->
  exists o, hand queue_size s j t sj u ev evs = Ok o /\ match o with
    | Some s' => inv s' /\ measure s' < measure s
    | None => exists q l, queues s !! S j = Some q /\ holds q l /\ limit <= Z.of_nat (length l) end.
Proof.
  intros I Hc Hj Ht Hu Hp. pose proof (i_stage _ _ _ _ _ I j c sj Hc Hj) as Ok. set (u' := Th (at_ u) (loc u) evs).
  pose proof (stage_lt s j sj I Hj) as Lj.
  set (sj' := St (m_running_exec_units sj) (<[t := u']> (m_threads sj)) (got sj) (gave sj ++ [ev])).
  assert (stage_ok debug cfg pr c (last_stage cfg j) sj') as Ok'.
  { split; cbn [m_threads m_running_exec_units sj']; [|rewrite length_insert; apply Ok| |].
    - rewrite (units_insert _ _ _ _ Ht), <- (s_units _ _ _ _ _ _ Ok). unfold live. cbn. lia.
    - intros t' v Hv. apply insert_Some in Hv as [(<- & -> & _)|[_ Hv]]; [cbn; by destruct Hu as [->| ->]|]. by eapply s_pend.
    - apply hand_work; [apply Ok|done|done]. }
  assert (measure (set_stage s j sj') = measure s - (2 * (n - Z.of_nat j) - 1)) as M.
  { unfold sj'. rewrite (measure_stage s j c sj t u) by done. unfold tweight, u'. rewrite Hp. cbn [at_ pend loc length].
    assert (cached c (Th (at_ u) (loc u) evs) = cached c u) as -> by done. lia. }
  assert (forall qs', length qs' = length cfg ->
    (forall k q sk, qs' !! k = Some q -> (<[j := sj']> (stages s)) !! k = Some sk -> exists l, holds q l /\
       sent (Pipe (m_run s) (todo s) (Pipeline.m_plserial s) qs' (<[j := sj']> (stages s)) (fed s)) k = got sk ++ l) ->
    (forall k q', k <> S j -> qs' !! k = Some q' -> exists q, queues s !! k = Some q /\ (c_empty q = true -> c_empty q' = true)) ->
    inv (Pipe (m_run s) (todo s) (Pipeline.m_plserial s) qs' (<[j := sj']> (stages s)) (fed s))) as HI.
  { intros qs' Lq H1 H2. apply (inv_change debug cfg tasks pr s j t c sj u u' sj'); try done; try (by destruct Hu as [->| ->]).
    - cbn. by destruct Hu as [->| ->].
    - pose proof (i_quit _ _ _ _ _ I _ _ _ _ Hj Ht) as Q. done. }
  assert (forall k sk, k <> S j -> (<[j := sj']> (stages s)) !! k = Some sk -> forall q (qs' : list C), queues s !! k = Some q -> exists l, holds q l /\
       sent (Pipe (m_run s) (todo s) (Pipeline.m_plserial s) qs' (<[j := sj']> (stages s)) (fed s)) k = got sk ++ l) as Hother.
  { intros k sk Hk Hsk q qs' Hq. rewrite (sent_change s j sj) by (done || (intros i -> ->; done)).
    apply insert_Some in Hsk as [(<- & -> & _)|[_ Hsk]]; [exact (i_queue _ _ _ _ _ I j q sj Hq Hj)|exact (i_queue _ _ _ _ _ I k q sk Hq Hsk)]. }
  unfold hand. fold u' sj'. destruct ev as [x|d].
  - destruct (lookup_lt_is_Some_2 (queues s) (S j)) as [q Hq].
    { rewrite (i_queues _ _ _ _ _ I). destruct (decide (S j = length cfg)) as [E|]; [|lia]. exfalso.
      assert (last_stage cfg j = true) as El by (unfold last_stage; apply Nat.eqb_eq; done). pose proof (s_work _ _ _ _ _ _ Ok) as W. rewrite El in W.
      destruct (pend_last debug cfg tasks pr c sj t u (Push x) W Ht) as (d & Ed); [rewrite Hp; left|done]. }
    rewrite Hq. destruct (lookup_lt_is_Some_2 (stages s) (S j)) as [sk Hsk]; [rewrite (i_stages _ _ _ _ _ I); apply lookup_lt_Some in Hq; by rewrite (i_queues _ _ _ _ _ I) in Hq|].
    destruct (i_queue _ _ _ _ _ I (S j) q sk Hq Hsk) as (l & Hl & Es).
    destruct (Z.lt_ge_cases (Z.of_nat (length l)) limit) as [Hlt|Hge].
    2: { rewrite (queue_full queue_size limit_ok q l x Hl Hge). cbn [rbind]. eexists. split; [done|]. cbn. eauto. }
    destruct (queue_push queue_size limit_ok q l x Hl Hlt) as (q' & -> & Hl'). cbn [rbind]. eexists. split; [done|]. cbn beta iota. split.
    + rewrite set_set. apply HI; [rewrite length_insert; apply I| |].
      * intros k qk sk' Hqk Hk. destruct (decide (k = S j)) as [->|Hne].
        -- rewrite list_lookup_insert_eq in Hqk by exact (lookup_lt_Some _ _ _ Hq). injection Hqk as <-. exists (l ++ [x]). split; [done|].
           rewrite list_lookup_insert_ne in Hk by lia. rewrite Hsk in Hk. injection Hk as <-. cbn [sent stages].
           rewrite list_lookup_insert_eq by exact (lookup_lt_Some _ _ _ Hj). cbn [gave sj']. rewrite pushed_app. cbn [sent] in Es. rewrite Hj in Es. by rewrite Es, <- app_assoc.
        -- rewrite list_lookup_insert_ne in Hqk by done. by eapply Hother.
      * intros k qk Hne Hqk. rewrite list_lookup_insert_ne in Hqk by done. eauto.
    + rewrite (measure_queue (set_stage s j sj') (S j) q) by done. unfold qweight. rewrite (l_size _ _ Hl), (l_size _ _ Hl'), length_app, M. cbn [length]. unfold n. nia.
  - eexists. split; [done|]. cbn beta iota. split.
    + apply HI; [apply I| |eauto]. intros k qk sk Hqk Hk. destruct (decide (k = S j)) as [->|Hne]; [|by eapply Hother].
      cbn [sent stages]. rewrite list_lookup_insert_eq by exact (lookup_lt_Some _ _ _ Hj). cbn [gave sj']. rewrite pushed_app. cbn [pushed flat_map]. rewrite app_nil_r.
      rewrite list_lookup_insert_ne in Hk by lia. pose proof (i_queue _ _ _ _ _ I (S j) qk sk Hqk Hk) as Q. cbn [sent] in Q. by rewrite Hj in Q.
    + rewrite M. unfold n. lia.
Qed.

(** ** Every step *)

Lemma prev_units_0 s j sj t u : inv s -> stages s !! j = Some sj -> m_threads sj !! t = Some u -> m_run s = false -> prev_units s j = 0 -> prev_done s j.
Proof.
  intros I Hj Ht R E. destruct j as [|i]; [done|]. cbn in *. intros si Hi. rewrite Hi in E.
  destruct (stage_cfg s i si I Hi) as (c & q & Hc & _). apply units_0_done; [by rewrite <- (s_units _ _ _ _ _ _ (i_stage _ _ _ _ _ I i c si Hc Hi))|].
  exact (proj2 (i_run _ _ _ _ _ I R) i si Hi).
Qed.

Ltac step_goto G := apply G; try first [done | apply quit_0 | cbn; lia].

(** A step of a thread is defined, keeps the invariant and does not raise the
    measure; a thread waits only when it has ended, or for room in a queue. *)
Lemma thread_step_ok s j t c sj u : inv s -> cfg !! j = Some c -> stages s !! j = Some sj -> m_threads sj !! t = Some u ->
  exists o, thread_step s j t = Ok o /\ match o with
  | Some s' => inv s' /\ measure s' <= measure s
  | None => at_ u = PDone \/ exists q l, queues s !! S j = Some q /\ holds q l /\ limit <= Z.of_nat (length l) end.
Proof.
  intros I Hc Hj Ht. destruct (stage_cfg s j sj I Hj) as (c' & q & Hc' & Hq). rewrite Hc in Hc'. injection Hc' as <-.
  unfold Pipeline.thread_step. rewrite Hc, Hj, Hq, Ht.
  assert (forall p, at_ u <> PDone -> at_ u <> PNotStarted -> p <> PDone -> p <> PNotStarted -> pend u = [] -> (level (at_ u) < 3 <-> level p < 3)%nat -> quit_ok s j (level p) ->
    rank p <= rank (at_ u) -> let s' := set_stage s j (set_thread sj t (Th p (loc u) [])) in inv s' /\ measure s' <= measure s) as G.
  { intros p H1 H2 H3 H4 H5 H6 H7 H8. destruct (goto_ok s j t c sj u p) as [Ii Mm]; [done..|]. split; [done|]. cbv zeta in Mm. lia. }
  pose proof (s_pend _ _ _ _ _ _ (i_stage _ _ _ _ _ I j c sj Hc Hj) t u Ht) as Hpe. pose proof (i_quit _ _ _ _ _ I _ _ _ _ Hj Ht) as Q.
  destruct (at_ u) eqn:Hu; try specialize (Hpe ltac:(done) ltac:(done)).
  - eexists. split; [done|]. cbn beta iota. destruct (start_ok s j t c sj u) as [Ii Mm]; [done..|]. split; [done|]. cbv zeta in Mm. lia.
  - eexists. split; [done|]. destruct (m_run s) eqn:R; step_goto G. split; [done|cbn; lia|cbn; lia].
  - eexists. split; [done|]. destruct (Z.eqb_spec (prev_units s j) 0) as [E|E]; step_goto G.
    destruct Q as [Q1 _ _]. cbn in *. specialize (Q1 ltac:(lia)). split; [done| |cbn; lia]. intros _. by eapply prev_units_0.
  - destruct (c_empty q) eqn:Eq.
    + destruct (flush_step_ok s j t c sj u q I Hc Hj Ht Hu Hq Eq) as (evs & -> & Ii & Mm). cbn [rbind]. eexists. split; [done|]. split; [done|]. cbv zeta in Mm. lia.
    + eexists. split; [done|]. step_goto G.
  - destruct (pop_ok s j t c sj u q I Hc Hj Ht Hu Hq) as (s' & E & Ii & Mm & _). exists (Some s'). split; [exact E|done].
  - destruct (pend u) as [|ev evs] eqn:Ep; [eexists; split; [done|]; step_goto G|].
    destruct (hand_ok s j t c sj u ev evs I Hc Hj Ht) as (o & E & Ho); [by left|done|]. exists o. split; [exact E|]. destruct o; [split; [apply Ho|]; destruct Ho; lia|by right].
  - destruct (pend u) as [|ev evs] eqn:Ep; [eexists; split; [done|]; step_goto G|].
    destruct (hand_ok s j t c sj u ev evs I Hc Hj Ht) as (o & E & Ho); [by right|done|]. exists o. split; [exact E|]. destruct o; [split; [apply Ho|]; destruct Ho; lia|by right].
  - eexists. split; [done|]. destruct (G PDec) as [Ii Mm]; [first [done|cbn; lia]..|].
    assert (stop (set_stage s j (set_thread sj t (Th PDec (loc u) []))) = set_stage s j (set_thread sj t (Th PDec (loc u) []))) as ->; [|done].
    unfold stop, set_stage. cbn. destruct Q as [Q1 _ _]. cbn in Q1. by rewrite Q1 by lia.
  - eexists. split; [done|]. destruct (dec_ok s j t c sj u) as [Ii Mm]; [done..|]. split; [done|]. cbv zeta in Mm. lia.
  - eexists. split; [done|]. by left.
Qed.

Lemma enqueue_ok s k ks : inv s -> cfg <> [] -> todo s = k :: ks ->
  exists o, enqueue queue_size s = Ok o /\ match o with
  | Some s' => inv s' /\ measure s' < measure s
  | None => exists q l, queues s !! 0%nat = Some q /\ holds q l /\ limit <= Z.of_nat (length l) end.
Proof.
  intros I Hne Ht. unfold enqueue. rewrite Ht. assert (0 < length cfg)%nat as L0 by (destruct cfg; [done|cbn; lia]).
  destruct (lookup_lt_is_Some_2 (queues s) 0) as [q Hq]; [by rewrite (i_queues _ _ _ _ _ I)|]. rewrite Hq.
  destruct (lookup_lt_is_Some_2 (stages s) 0) as [s0 Hs0]; [by rewrite (i_stages _ _ _ _ _ I)|].
  destruct (i_queue _ _ _ _ _ I 0%nat q s0 Hq Hs0) as (l & Hl & Es).
  pose proof (i_fed _ _ _ _ _ I) as F. pose proof (i_serial _ _ _ _ _ I) as Sn. rewrite Ht in F. pose proof (f_equal length F) as Lf. rewrite length_app, length_map in Lf. cbn [length] in Lf.
  assert (u64 (Pipeline.m_plserial s + 1) = Pipeline.m_plserial s + 1) as -> by (unfold u64; apply Z.mod_small; lia).
  destruct (Z.lt_ge_cases (Z.of_nat (length l)) limit) as [Hlt|Hge].
  2: { rewrite (queue_full queue_size limit_ok q l _ Hl Hge). cbn [rbind]. eexists. split; [done|]. cbn. eauto. }
  destruct (queue_push queue_size limit_ok q l (Item (Pipeline.m_plserial s + 1) k) Hl Hlt) as (q' & -> & Hl'). cbn [rbind]. eexists. split; [done|].
  cbn beta iota. assert (m_run s = true) as R.
  { destruct (m_run s) eqn:R; [done|]. destruct (i_run _ _ _ _ _ I R) as [E _]. congruence. }
  split.
  - split; cbn [queues stages fed todo m_run Pipeline.m_plserial].
    + rewrite length_insert. apply I.
    + apply I.
    + rewrite map_app, <- app_assoc. exact F.
    + pose proof (i_serials _ _ _ _ _ I) as Sf. unfold serials in *. rewrite map_app, Sf, length_app, Nat2Z.inj_add, seqZ_app by lia. f_equal. unfold seqZ.
      change (Z.to_nat (Z.of_nat (length [Item (Pipeline.m_plserial s + 1) k]))) with 1%nat. cbn. f_equal. lia.
    + rewrite length_app, Nat2Z.inj_add, Sn. done.
    + intros j qj sj Hqj Hsj. apply insert_Some in Hqj as [(<- & -> & _)|[Hj Hqj]].
      * rewrite Hs0 in Hsj. injection Hsj as <-. eexists. split; [done|]. cbn [sent fed]. cbn [sent] in Es. by rewrite Es, <- app_assoc.
      * destruct j as [|i]; [done|]. exact (i_queue _ _ _ _ _ I (S i) qj sj Hqj Hsj).
    + apply I.
    + rewrite R. done.
    + intros j sj t u Hj Hu. pose proof (i_quit _ _ _ _ _ I j sj t u Hj Hu) as [Q1 Q2 Q3]. split; cbn [m_run queues]; [done| |].
      * intros L. specialize (Q2 L). destruct j; done.
      * intros L. rewrite Q1 in R by lia. done.
  - unfold measure. cbn [todo m_run queues stages]. rewrite (wsum_insert _ _ _ _ _ _ Hq). cbn [Nat.add]. rewrite Ht. unfold qweight at 2 3.
    rewrite (l_size _ _ Hl), (l_size _ _ Hl'), length_app. cbn [length]. unfold n. nia.
Qed.

Lemma stop_ok s : inv s -> todo s = [] -> m_run s = true -> all_started s = true -> inv (stop s) /\ measure (stop s) < measure s.
Proof.
  intros I Ht R Hs. split.
  - split; cbn [queues stages fed todo m_run Pipeline.m_plserial stop]; try (by apply I).
    + intros _. split; [done|]. intros j sj Hj. unfold all_started in Hs. exact (forallb_lookup _ _ _ _ Hs Hj).
    + intros j sj t u Hj Hu. destruct (i_quit _ _ _ _ _ I j sj t u Hj Hu) as [Q1 Q2 Q3]. split; [done| |done]. intros L. rewrite Q1 in R by lia. done.
  - unfold measure. cbn [todo m_run queues stages stop]. rewrite R. cbn. lia.
Qed.

Lemma measure_nonneg s : inv s -> 0 <= measure s.
Proof.
  intros I. unfold measure.
  assert (0 <= wsum 0 qweight (queues s)).
  { apply wsum_nonneg. intros k q Hk. cbn. pose proof (lookup_lt_Some _ _ _ Hk) as L. rewrite (i_queues _ _ _ _ _ I) in L.
    destruct (lookup_lt_is_Some_2 (stages s) k) as [sk Hsk]; [by rewrite (i_stages _ _ _ _ _ I)|].
    destruct (i_queue _ _ _ _ _ I k q sk Hk Hsk) as (l & Hl & _). unfold qweight, n. rewrite (l_size _ _ Hl). nia. }
  assert (0 <= wsum 0 sweight (stages s)).
  { apply wsum_nonneg. intros j sj Hj. cbn. pose proof (stage_lt s j sj I Hj). unfold sweight. destruct (cfg !! j); [|lia]. apply wsum_nonneg. intros t u _. cbn.
    unfold tweight, n. assert (0 <= rank (at_ u)) by (destruct (at_ u); cbn; lia). nia. }
  unfold n. destruct (m_run s); cbn; nia.
Qed.
End steps.
End PipelineSteps.
