(* ===== verification/PipelineLive.v ===== *)
(** * The pipeline can always come to its end

    From every state the steps of [Pipeline] reach with [stop] after all threads have
    begun, more steps lead to a state in which every thread has ended: whatever is
    full can be emptied by the next stage, and whatever is finished lets the next
    stage finish. *)
From stdpp Require Import relations.
From S2P Require Import Prelude ConcQueue SerialStep SerialStepProps Pipeline PipelineInv PipelineSteps.
Import ConcQueue SerialStep SerialStepProps Pipeline PipelineInv PipelineSteps.

Module PipelineLive.

Lemma forallb_false {A} (f : A -> bool) l : forallb f l = false -> exists i x, l !! i = Some x /\ f x = false.
Proof.
  induction l as [|x l IH]; [done|]. cbn. destruct (f x) eqn:E; [|exists 0%nat, x; done]. intros Hl. destruct (IH Hl) as (i & y & ? & ?). by exists (S i), y.
Qed.

Section live.
Context {Task : Type} `{HS : StdHeap (item Task) plserial} {C : Type} `{HL : ContainerLaws C (item Task) cap holds}.
Context (queue_size : Z) (debug : bool) (cfg : list (stage Task)) (tasks : list (option Task)).
Context (limit_ok : 0 < limit (C := C) (cap := cap) queue_size <= cap).
Context (pr : stage Task -> item Task -> item Task).
Context (cfg_some : cfg <> []).
Context (cfg_threads : Forall (fun c => (1 <= thread_count c)%nat /\ (ple_keep c = true -> thread_count c = 1%nat)) cfg).
Context (cfg_process : Forall (fun c => forall x, task x <> None -> process c x = Ok (pr c x) /\ plserial (pr c x) = plserial x) cfg).
Context (tasks_few : Z.of_nat (length tasks) < 2 ^ 62).
#[local] Abbreviation pipe := (pipe Task C).
#[local] Abbreviation inv := (inv (holds := holds) debug cfg tasks pr).
#[local] Abbreviation thread_step := (thread_step queue_size debug cfg).
#[local] Abbreviation step := (step queue_size debug cfg).
#[local] Abbreviation measure := (measure cfg).
#[local] Abbreviation limit := (limit (C := C) (cap := cap) queue_size).
Implicit Types (s : pipe) (sj : stage_st Task) (u : th Task) (c : stage Task) (j t : nat) (q : C).

Lemma init_inv q0 : holds q0 [] -> inv (compiled debug cfg q0 tasks).
Proof.
  intros Hq. assert (forall j sj, stages (compiled debug cfg q0 tasks) !! j = Some sj -> exists c, cfg !! j = Some c /\
    sj = St 0 (replicate (thread_count c) (Th PNotStarted (init_fast debug) [])) [] []) as Hs.
  { intros j sj Hj. cbn in Hj. apply list_lookup_fmap_Some in Hj as (c & Hc & ->). eauto. }
  split; try done.
  - cbn. by rewrite length_replicate.
  - cbn. by rewrite length_map.
  - intros j q sj Hqj Hj. cbn in Hqj. apply lookup_replicate in Hqj as [-> _]. destruct (Hs j sj Hj) as (c & Hc & ->). exists []. split; [done|]. cbn [got].
    destruct j as [|i]; [done|]. cbn [sent]. destruct (stages (compiled debug cfg q0 tasks) !! i) as [si|] eqn:Hi; [|done]. by destruct (Hs i si Hi) as (? & _ & ->).
  - intros j c sj Hc Hj. destruct (Hs j sj Hj) as (c' & Hc' & ->). rewrite Hc in Hc'. injection Hc' as <-. split; cbn [m_running_exec_units m_threads got gave].
    + clear. induction (thread_count c) as [|k IH]; [done|]. change (replicate (S k) ?x) with (x :: replicate k x). cbn [units]. rewrite <- IH. done.
    + apply length_replicate.
    + intros t u Ht. by apply lookup_replicate in Ht as [-> _].
    + pose proof cfg_threads as T. rewrite Forall_lookup in T. destruct (T j c Hc) as [_ T1]. unfold work_ok. cbn [m_threads got gave]. destruct (ple_keep c) eqn:K.
      * rewrite T1 by done. eexists. split; [done|]. cbn [at_ level loc pend]. split; [|lia]. intros _. exists []. split; [apply init_fast_ok|done].
      * cbn. clear. unfold pends. induction (thread_count c) as [|k IH]; [done|]. exact IH.
  - intros j sj t u Hj Ht. destruct (Hs j sj Hj) as (c & Hc & ->). cbn in Ht. apply lookup_replicate in Ht as [-> _]. cbn. apply quit_0.
Qed.

Lemma step_inv s s' : inv s -> step true s s' -> inv s' /\ measure s' <= measure s.
Proof.
  intros I St. destruct St as [j t s' E|s' E|Td R As].
  - unfold Pipeline.thread_step in E. destruct (cfg !! j) as [c|] eqn:Hc; [|done]. destruct (stages s !! j) as [sj|] eqn:Hj; [|done].
    destruct (queues s !! j) as [q|] eqn:Hq; [|done]. destruct (m_threads sj !! t) as [u|] eqn:Ht; [|done].
    destruct (thread_step_ok queue_size debug cfg tasks limit_ok pr cfg_process tasks_few s j t c sj u I Hc Hj Ht) as (o & E' & Ho).
    unfold Pipeline.thread_step in E'. rewrite Hc, Hj, Hq, Ht in E'. rewrite E' in E. injection E as ->. done.
  - destruct (todo s) as [|k ks] eqn:Td; [unfold enqueue in E; by rewrite Td in E|].
    destruct (enqueue_ok queue_size debug cfg tasks limit_ok pr cfg_threads cfg_process tasks_few s k ks I cfg_some Td) as (o & E' & Ho). rewrite E' in E. injection E as ->.
    destruct Ho. split; [done|lia].
  - destruct (stop_ok debug cfg tasks pr s I Td R (As eq_refl)). split; [done|lia].
Qed.

Lemma reach_inv q0 s : holds q0 [] -> rtc (step true) (compiled debug cfg q0 tasks) s -> inv s.
Proof. intros Hq Hr. eapply rtc_ind_r with (P := inv); [by apply init_inv| |exact Hr]. intros y z _ St I. by apply (step_inv y z I St). Qed.

(** ** Steps that lower the measure *)

(** [s] can be brought to a state with less left to do. *)
Definition will (s : pipe) : Prop := exists s', rtc (step true) s s' /\ inv s' /\ measure s' < measure s.

Lemma will_now s s' : step true s s' -> inv s' -> measure s' < measure s -> will s.
Proof. intros St I M. exists s'. split; [by apply rtc_once|done]. Qed.

Lemma will_step s s' : step true s s' -> measure s' <= measure s -> will s' -> will s.
Proof. intros St M (s2 & Hr & I & M2). exists s2. split; [by eapply rtc_l|]. split; [done|lia]. Qed.

(** What holds of a thread in a state. *)
Record at_thread (s : pipe) (j t : nat) (c : stage Task) (sj : stage_st Task) (u : th Task) (q : C) : Prop := {
  a_inv : inv s; a_cfg : cfg !! j = Some c; a_stage : stages s !! j = Some sj; a_th : m_threads sj !! t = Some u; a_queue : queues s !! j = Some q
}.

Lemma at_thread_step s j t c sj u q : at_thread s j t c sj u q -> forall s', thread_step s j t = Ok (Some s') -> step true s s'.
Proof. intros _ s'. apply step_thread. Qed.

(** Every stage has a first thread. *)
Lemma first_thread s j : inv s -> (j < length cfg)%nat -> exists c sj u q, at_thread s j 0 c sj u q.
Proof.
  intros I Hj. destruct (lookup_lt_is_Some_2 (stages s) j) as [sj Hsj]; [by rewrite (i_stages _ _ _ _ _ I)|].
  destruct (stage_cfg debug cfg tasks pr s j sj I Hsj) as (c & q & Hc & Hq). pose proof cfg_threads as T. rewrite Forall_lookup in T. destruct (T j c Hc) as [T1 _].
  destruct (lookup_lt_is_Some_2 (m_threads sj) 0) as [u Hu]; [rewrite (s_count _ _ _ _ _ _ (i_stage _ _ _ _ _ I j c sj Hc Hsj)); lia|]. exists c, sj, u, q. by split.
Qed.

(** A thread moves on by itself, to a place from where less is left to do. *)
Lemma will_goto s j t c sj u q p : at_thread s j t c sj u q ->
  at_ u <> PDone -> at_ u <> PNotStarted -> p <> PDone -> p <> PNotStarted -> pend u = [] -> (level (at_ u) < 3 <-> level p < 3)%nat -> quit_ok s j (level p) ->
  rank p <= rank (at_ u) -> thread_step s j t = Ok (Some (set_stage s j (set_thread sj t (Th p (loc u) [])))) ->
  (forall s' sj', at_thread s' j t c sj' (Th p (loc u) []) q -> m_run s' = m_run s -> prev_units s' j = prev_units s j -> will s') -> will s.
Proof.
  intros [I Hc Hj Ht Hq] H1 H2 H3 H4 H5 H6 H7 H8 E Hw. destruct (goto_ok debug cfg tasks pr s j t c sj u p I) as [Ii M]; [done..|]. cbv zeta in M.
  eapply will_step; [by eapply step_thread|lia|]. apply (Hw _ (set_thread sj t (Th p (loc u) []))); [|done|].
  - split; [done|done| | |done]; cbn; apply list_lookup_insert_eq; by eapply lookup_lt_Some.
  - destruct j as [|i]; [done|]. cbn. by rewrite list_lookup_insert_ne by lia.
Qed.

Lemma thread_at s j t c sj u q : at_thread s j t c sj u q -> thread_step s j t =
  let goto p := set_thread sj t (Th p (loc u) []) in
  match at_ u with
  | PNotStarted => Ok (Some (set_stage s j (add_units (goto PRun) 1)))
  | PRun => Ok (Some (set_stage s j (goto (if m_run s then PPop else PUnits))))
  | PUnits => Ok (Some (set_stage s j (goto (if prev_units s j =? 0 then PEmpty else PPop))))
  | PEmpty => if c_empty q then
      let* evs := flush debug c (last_stage cfg j) (loc u) in Ok (Some (set_stage s j (set_thread sj t (Th PFlush (loc u) evs))))
      else Ok (Some (set_stage s j (goto PPop)))
  | PPop => pop debug cfg s j t c sj u q
  | PHand => match pend u with [] => Ok (Some (set_stage s j (goto PRun))) | ev :: evs => hand queue_size s j t sj u ev evs end
  | PFlush => match pend u with [] => Ok (Some (set_stage s j (goto PStop))) | ev :: evs => hand queue_size s j t sj u ev evs end
  | PStop => Ok (Some (stop (set_stage s j (goto PDec))))
  | PDec => Ok (Some (set_stage s j (add_units (goto PDone) (-1))))
  | PDone => Ok None
  end.
Proof. intros [I Hc Hj Ht Hq]. unfold Pipeline.thread_step. by rewrite Hc, Hj, Hq, Ht. Qed.

(** What a thread of a stage can do at once. *)
Lemma start_will s j t c sj u q : at_thread s j t c sj u q -> at_ u = PNotStarted -> will s.
Proof.
  intros A Hu. pose proof (thread_at _ _ _ _ _ _ _ A) as E. rewrite Hu in E. destruct A as [I Hc Hj Ht Hq].
  destruct (start_ok debug cfg tasks pr s j t c sj u I) as [Ii M]; [done..|]. eapply will_now; [by eapply step_thread|done|done].
Qed.

Lemma pop_will s j t c sj u q : at_thread s j t c sj u q -> at_ u = PPop -> c_empty q = false -> will s.
Proof.
  intros A Hu Hn. pose proof (thread_at _ _ _ _ _ _ _ A) as E. rewrite Hu in E. destruct A as [I Hc Hj Ht Hq].
  destruct (pop_ok queue_size debug cfg tasks limit_ok pr cfg_process tasks_few s j t c sj u q I) as (s' & E' & Ii & _ & M); [done..|].
  rewrite E' in E. eapply will_now; [by eapply step_thread|done|by apply M].
Qed.

Lemma no_pend s j t c sj u q : at_thread s j t c sj u q -> at_ u <> PHand -> at_ u <> PFlush -> pend u = [].
Proof. intros [I Hc Hj Ht Hq]. exact (s_pend _ _ _ _ _ _ (i_stage _ _ _ _ _ I j c sj Hc Hj) t u Ht). Qed.

(** A thread in the tests of the loop comes to [pop_front] when its queue is not empty. *)
Ltac go A E p Hu := eapply (will_goto _ _ _ _ _ _ _ p A);
  [first [done | rewrite Hu; done]..|by eapply no_pend; [exact A|rewrite Hu..]|rewrite Hu; cbn; lia| |rewrite Hu; cbn; lia|exact E|].

Lemma test_will s j t c sj u q : at_thread s j t c sj u q -> c_empty q = false -> at_ u = PRun \/ at_ u = PUnits \/ at_ u = PEmpty \/ at_ u = PPop -> will s.
Proof.
  intros A Hn.
  assert (forall s sj u, at_thread s j t c sj u q -> at_ u = PPop -> will s) as H1 by (intros; by eapply pop_will).
  assert (forall s sj u, at_thread s j t c sj u q -> at_ u = PEmpty -> will s) as H2.
  { intros s' sj' u' A' Hu. pose proof (thread_at _ _ _ _ _ _ _ A') as E. rewrite Hu, Hn in E. go A' E PPop Hu; [apply quit_0|]. intros s2 sj2 A2 _ _. by eapply H1. }
  assert (forall s sj u, at_thread s j t c sj u q -> at_ u = PUnits -> will s) as H3.
  { intros s' sj' u' A' Hu. pose proof (thread_at _ _ _ _ _ _ _ A') as E. rewrite Hu in E. cbn zeta in E. destruct (Z.eqb_spec (prev_units s' j) 0) as [E0|E0].
    - go A' E PEmpty Hu; [|intros s2 sj2 A2 _ _; by eapply H2].
      destruct A' as [I Hc Hj Ht Hq]. pose proof (i_quit _ _ _ _ _ I _ _ _ _ Hj Ht) as [Q1 _ _]. rewrite Hu in Q1. specialize (Q1 ltac:(cbn; lia)).
      split; [done| |cbn; lia]. intros _. by eapply (prev_units_0 debug cfg tasks pr s' j sj' t u').
    - go A' E PPop Hu; [apply quit_0|]. intros s2 sj2 A2 _ _. by eapply H1. }
  intros [Hu|[Hu|[Hu|Hu]]]; eauto.
  pose proof (thread_at _ _ _ _ _ _ _ A) as E. rewrite Hu in E. cbn zeta in E. destruct (m_run s) eqn:R.
  - go A E PPop Hu; [apply quit_0|]. intros s2 sj2 A2 _ _. by eapply H1.
  - go A E PUnits Hu; [split; [done|cbn; lia|cbn; lia]|]. intros s2 sj2 A2 _ _. by eapply H3.
Qed.

Lemma full_nonempty q l : holds q l -> limit <= Z.of_nat (length l) -> c_empty q = false.
Proof. intros Hl Hge. rewrite (l_empty _ _ Hl). apply Z.eqb_neq. lia. Qed.

(** A thread with something to hand on does so, or the next queue is full. *)
Lemma hand_will s j t c sj u q ev evs : at_thread s j t c sj u q -> pend u = ev :: evs ->
  will s \/ exists q', queues s !! S j = Some q' /\ c_empty q' = false.
Proof.
  intros A Hp. pose proof (thread_at _ _ _ _ _ _ _ A) as E.
  assert (at_ u = PHand \/ at_ u = PFlush) as Hu.
  { destruct (at_ u) eqn:Hu; eauto; rewrite (no_pend _ _ _ _ _ _ _ A) in Hp by (rewrite Hu; done); done. }
  destruct A as [I Hc Hj Ht Hq].
  destruct (hand_ok queue_size debug cfg tasks limit_ok pr s j t c sj u ev evs I Hc Hj Ht Hu Hp) as (o & Eh & Ho).
  assert (thread_step s j t = Ok o) as E' by (destruct Hu as [Hu|Hu]; rewrite Hu, Hp in E; rewrite E; exact Eh).
  destruct o as [s'|]; [left; destruct Ho; eapply will_now; [by eapply step_thread|done|done]|].
  right. destruct Ho as (q' & l & Hq' & Hl & Hge). exists q'. split; [done|]. by eapply full_nonempty.
Qed.

(** A queue with something in it is emptied by the stage behind it. *)
Lemma nonempty_will s j q : inv s -> queues s !! j = Some q -> c_empty q = false -> will s.
Proof.
  remember (length cfg - j)%nat as k eqn:Ek. revert j q Ek. induction k as [k IH] using lt_wf_ind. intros j q -> I Hq Hn.
  pose proof (lookup_lt_Some _ _ _ Hq) as Lj. rewrite (i_queues _ _ _ _ _ I) in Lj.
  destruct (first_thread s j I Lj) as (c & sj & u & q' & A). pose proof (a_queue _ _ _ _ _ _ _ A) as Hq'. rewrite Hq in Hq'. injection Hq' as <-.
  pose proof (i_quit _ _ _ _ _ I _ _ _ _ (a_stage _ _ _ _ _ _ _ A) (a_th _ _ _ _ _ _ _ A)) as [_ _ Q3].
  destruct (decide (level (at_ u) < 3)%nat) as [L|L]; [|specialize (Q3 ltac:(lia) q Hq); congruence].
  destruct (at_ u) eqn:Hu; cbn in L; try lia.
  - by eapply start_will.
  - eapply test_will; [exact A|done|eauto].
  - eapply test_will; [exact A|done|eauto].
  - eapply test_will; [exact A|done|eauto].
  - eapply test_will; [exact A|done|eauto 6].
  - destruct (pend u) as [|ev evs] eqn:Hp.
    + pose proof (thread_at _ _ _ _ _ _ _ A) as E. rewrite Hu, Hp in E. cbn zeta in E. eapply (will_goto _ _ _ _ _ _ _ PRun A); try first [done | rewrite Hu; done | apply quit_0].
      intros s2 sj2 A2 _ _. eapply test_will; [exact A2|done|by left].
    + destruct (hand_will s j 0 c sj u q ev evs A Hp) as [|(q2 & Hq2 & Hn2)]; [done|].
      pose proof (lookup_lt_Some _ _ _ Hq2) as L2. rewrite (i_queues _ _ _ _ _ I) in L2. eapply (IH (length cfg - S j)%nat); [lia|done|done|exact Hq2|done].
Qed.

Lemma pend_will s j t c sj u q ev evs : at_thread s j t c sj u q -> pend u = ev :: evs -> will s.
Proof.
  intros A Hp. destruct (hand_will s j t c sj u q ev evs A Hp) as [|(q' & Hq' & Hn)]; [done|]. eapply nonempty_will; [apply A|done|done].
Qed.

(** The caller enqueues what it has, and then stops. *)
Lemma run_will s : inv s -> m_run s = true -> will s.
Proof.
  intros I R. destruct (todo s) as [|k ks] eqn:Td.
  - destruct (all_started s) eqn:As.
    + destruct (stop_ok debug cfg tasks pr s I Td R As) as [Ii M]. eapply will_now; [by apply step_stop|done|done].
    + apply forallb_false in As as (j & sj & Hj & Hs). apply forallb_false in Hs as (t & u & Ht & Hs).
      destruct (stage_cfg debug cfg tasks pr s j sj I Hj) as (c & q & Hc & Hq). apply (start_will s j t c sj u q); [by split|]. unfold started in Hs. by destruct (at_ u).
  - destruct (enqueue_ok queue_size debug cfg tasks limit_ok pr cfg_threads cfg_process tasks_few s k ks I cfg_some Td) as (o & E & Ho). destruct o as [s'|].
    + destruct Ho. eapply will_now; [by apply step_enqueue|done|done].
    + destruct Ho as (q & l & Hq & Hl & Hge). eapply nonempty_will; [done|exact Hq|by eapply full_nonempty].
Qed.
(** ** Leaving the loop, stage after stage *)

Lemma quit_prev s j t c sj u q : at_thread s j t c sj u q -> m_run s = false -> prev_units s j = 0 -> quit_ok s j 2.
Proof.
  intros [I Hc Hj Ht Hq] R E. split; [done| |lia]. intros _. by eapply (prev_units_0 debug cfg tasks pr s j sj t u).
Qed.

(** The stage before still counts a thread, which has not ended. *)
Lemma prev_busy s j : inv s -> (j < length cfg)%nat -> prev_units s j <> 0 ->
  exists i t c sj u q, (i < j)%nat /\ at_thread s i t c sj u q /\ at_ u <> PDone.
Proof.
  intros I Lj E. destruct j as [|i]; [done|]. cbn in E. destruct (stages s !! i) as [si|] eqn:Hi; [|done].
  destruct (stage_cfg debug cfg tasks pr s i si I Hi) as (c & q & Hc & Hq).
  rewrite (s_units _ _ _ _ _ _ (i_stage _ _ _ _ _ I i c si Hc Hi)) in E. destruct (forallb done_ (m_threads si)) eqn:D; [by apply done_units_0 in D|].
  apply forallb_false in D as (t & u & Ht & D). exists i, t, c, si, u, q. split; [lia|]. split; [done|]. intros Hu. unfold done_ in D. by rewrite Hu in D.
Qed.

Lemma leave_will j : forall s t c sj u q, at_thread s j t c sj u q -> at_ u <> PDone -> will s.
Proof.
  induction j as [j IH] using lt_wf_ind.
  assert (forall s t c sj u q, at_thread s j t c sj u q -> at_ u = PEmpty -> will s) as H1.
  { intros s t c sj u q A Hu. destruct (c_empty q) eqn:Hn; [|eapply test_will; [exact A|done|eauto]]. pose proof (thread_at _ _ _ _ _ _ _ A) as E. rewrite Hu, Hn in E.
    destruct A as [I Hc Hj Ht Hq]. destruct (flush_step_ok debug cfg tasks pr cfg_process tasks_few s j t c sj u q I Hc Hj Ht Hu Hq Hn) as (evs & Ef & Ii & M).
    rewrite Ef in E. eapply will_now; [by eapply step_thread|done|done]. }
  assert (forall s t c sj u q, at_thread s j t c sj u q -> m_run s = false -> at_ u = PUnits -> will s) as H2.
  { intros s t c sj u q A R Hu. destruct (Z.eq_dec (prev_units s j) 0) as [E0|E0].
    - pose proof (thread_at _ _ _ _ _ _ _ A) as E. rewrite Hu, (proj2 (Z.eqb_eq _ _) E0) in E. go A E PEmpty Hu; [by eapply quit_prev|]. intros s2 sj2 A2 _ _. by eapply H1.
    - pose proof (lookup_lt_Some _ _ _ (a_cfg _ _ _ _ _ _ _ A)) as L. destruct (prev_busy s j (a_inv _ _ _ _ _ _ _ A) L E0) as (i & t' & c' & si & v & q' & Li & A' & Hv). by eapply (IH i Li). }
  assert (forall s t c sj u q, at_thread s j t c sj u q -> at_ u = PRun -> will s) as H3.
  { intros s t c sj u q A Hu. destruct (m_run s) eqn:R; [apply run_will; [apply A|done]|]. pose proof (thread_at _ _ _ _ _ _ _ A) as E. rewrite Hu, R in E.
    go A E PUnits Hu; [split; [done|cbn; lia|cbn; lia]|]. intros s2 sj2 A2 R2 _. eapply H2; [exact A2|congruence|done]. }
  intros s t c sj u q A Hd. pose proof (thread_at _ _ _ _ _ _ _ A) as E.
  destruct (pend u) as [|ev evs] eqn:Hp; [|by eapply pend_will]. pose proof (a_inv _ _ _ _ _ _ _ A) as I.
  pose proof (i_quit _ _ _ _ _ I _ _ _ _ (a_stage _ _ _ _ _ _ _ A) (a_th _ _ _ _ _ _ _ A)) as Q.
  destruct (at_ u) eqn:Hu; cbv zeta beta in E; try done.
  - by eapply start_will.
  - by eapply H3.
  - eapply H2; [done| |done]. apply Q. cbn. lia.
  - by eapply H1.
  - destruct (c_empty q) eqn:Hn; [|by eapply pop_will]. pose proof A as [_ Hc Hj Ht Hq].
    destruct (i_queue _ _ _ _ _ I j q sj Hq Hj) as (l & Hl & _). assert (l = []) as -> by (rewrite (l_empty _ _ Hl) in Hn; destruct l; [done|cbn [length] in Hn; apply Z.eqb_eq in Hn; lia]). unfold pop in E. destruct (queue_timeout queue_size limit_ok q Hl) as (q' & Ep & _). rewrite Ep in E. cbn [rbind] in E.
    eapply (will_goto s j t c sj u q PRun); try first [done | rewrite Hu; done | apply quit_0]. intros s2 sj2 A2 _ _. by eapply H3.
  - eapply (will_goto s j t c sj u q PRun); try first [done | rewrite Hu; done | apply quit_0]. intros s2 sj2 A2 _ _. by eapply H3.
  - destruct A as [_ Hc Hj Ht Hq]. destruct (goto_ok debug cfg tasks pr s j t c sj u PStop I Hc Hj Ht) as [Ii M]; [first [done | rewrite Hu; done]..|].
    eapply will_now; [by eapply step_thread|done|]. cbv zeta in M. rewrite Hu in M. cbn [rank] in M. lia.
  - destruct A as [_ Hc Hj Ht Hq]. destruct (goto_ok debug cfg tasks pr s j t c sj u PDec I Hc Hj Ht) as [Ii M]; [first [done | rewrite Hu; done]..|].
    assert (stop (set_stage s j (set_thread sj t (Th PDec (loc u) []))) = set_stage s j (set_thread sj t (Th PDec (loc u) []))) as Es.
    { unfold stop, set_stage. cbn. destruct Q as [Q1 _ _]. by rewrite Q1 by (cbn; lia). }
    rewrite Es in E. eapply will_now; [by eapply step_thread|done|]. cbv zeta in M. rewrite Hu in M. cbn [rank] in M. lia.
  - destruct A as [_ Hc Hj Ht Hq]. destruct (dec_ok debug cfg tasks pr s j t c sj u I Hc Hj Ht Hu) as [Ii M]. eapply will_now; [by eapply step_thread|done|done].
Qed.

(** From every state that is reached all threads can come to their end. *)
Lemma can_end s : inv s -> exists s', rtc (step true) s s' /\ inv s' /\ all_done s' = true.
Proof.
  remember (Z.to_nat (measure s)) as k eqn:Ek. revert s Ek. induction k as [k IH] using lt_wf_ind. intros s -> I.
  destruct (all_done s) eqn:D; [by exists s|]. unfold all_done in D. apply forallb_false in D as (j & sj & Hj & D). apply forallb_false in D as (t & u & Ht & D).
  destruct (stage_cfg debug cfg tasks pr s j sj I Hj) as (c & q & Hc & Hq).
  assert (will s) as (s' & Hr & I' & M). { apply (leave_will j s t c sj u q); [by split|]. intros Hu. unfold done_ in D. by rewrite Hu in D. }
  pose proof (measure_nonneg debug cfg tasks pr s' I'). destruct (IH (Z.to_nat (measure s')) ltac:(lia) s' eq_refl I') as (s2 & Hr2 & I2 & D2).
  exists s2. split; [by etransitivity|done].
Qed.
End live.
End PipelineLive.
