(* ===== verification/PipelineProps.v ===== *)
(** * What the pipeline delivers

    The theorems on [Pipeline]: every task goes through all stages and is destroyed
    once, in its order if the last stage keeps the order; the threads can always come
    to their end; no step is undefined; and what goes wrong when [stop] comes before
    all threads have begun. *)
From Stdlib Require Import Sorted.
From stdpp Require Import relations sorting.
From S2P Require Import Prelude CircularQueue ConcQueue SerialStep SerialStepProps Pipeline PipelineInv PipelineSteps PipelineLive.
Import CircularQueue ConcQueue SerialStep SerialStepProps Pipeline PipelineInv PipelineSteps PipelineLive.

Module PipelineProps.

(** ** What the pipeline is meant to do *)

(** The tasks with their serial numbers. *)
Definition numbered {Task} (tasks : list (option Task)) : list (item Task) := zip_with Item (seqZ 1 (Z.of_nat (length tasks))) tasks.

Section spec.
Context {Task : Type} (pr : stage Task -> item Task -> item Task).

(** A task goes through a stage; what has become null is left alone. *)
Definition after (c : stage Task) (x : item Task) : item Task := match task x with Some _ => pr c x | None => x end.
Definition through (cs : list (stage Task)) (x : item Task) : item Task := fold_left (fun x c => after c x) cs x.

(** What the last stage destroys of [xs]: what is not null in the end. *)
Definition results (cs : list (stage Task)) (xs : list (item Task)) : list Task := omap (fun x => task (through cs x)) xs.
End spec.

Lemma numbered_unique {Task} (l : list (item Task)) : serials l = seqZ 1 (Z.of_nat (length l)) -> l = numbered (map task l).
Proof.
  intros E. unfold numbered. rewrite length_map, <- E. clear E. unfold serials. induction l as [|[z k] l IH]; [done|]. cbn. by rewrite <- IH.
Qed.

Lemma serials_numbered {Task} (tasks : list (option Task)) : serials (numbered tasks) = seqZ 1 (Z.of_nat (length tasks)).
Proof.
  unfold numbered, serials. generalize 1. induction tasks as [|k ks IH]; intros m; [done|]. cbn [length]. rewrite seqZ_cons by lia. cbn [zip_with map plserial].
  replace (Z.pred (Z.of_nat (S (length ks)))) with (Z.of_nat (length ks)) by lia. by rewrite IH.
Qed.

Section done.
Context {Task : Type} `{HS : StdHeap (item Task) plserial} {C : Type} `{HL : ContainerLaws C (item Task) cap holds}.
Context (queue_size : Z) (debug : bool) (cfg : list (stage Task)) (tasks : list (option Task)).
Context (limit_ok : 0 < limit (C := C) (cap := cap) queue_size <= cap).
Context (pr : stage Task -> item Task -> item Task).
Context (cfg_some : cfg <> []).
Context (cfg_threads : Forall (fun c => (1 <= thread_count c)%nat /\ (ple_keep c = true -> thread_count c = 1%nat)) cfg).
Context (cfg_process : Forall (fun c => forall x, task x <> None -> process c x = Ok (pr c x) /\ plserial (pr c x) = plserial x) cfg).
Context (tasks_few : Z.of_nat (length tasks) < 2 ^ 62).
#[local] Abbreviation pipe := (pipe Task C).
#[local] Abbreviation inv := (inv (holds := holds) debug cfg tasks pr).
#[local] Abbreviation events := (events cfg pr).
#[local] Abbreviation after := (after pr).
#[local] Abbreviation through := (through pr).
#[local] Abbreviation results := (results pr).
Implicit Types (s : pipe) (sj : stage_st Task) (u : th Task) (c : stage Task) (j t : nat) (q : C) (xs : list (item Task)).

Lemma through_cons c cs x : through (c :: cs) x = through cs (after c x).
Proof. done. Qed.

Lemma through_none cs x : task x = None -> through cs x = x.
Proof. revert x. induction cs as [|c cs IH]; intros x E; [done|]. rewrite through_cons. unfold PipelineProps.after. rewrite E. by apply IH. Qed.

Lemma results_app cs xs ys : results cs (xs ++ ys) = results cs xs ++ results cs ys.
Proof. apply omap_app. Qed.

Lemma results_perm cs xs ys : xs ≡ₚ ys -> results cs xs ≡ₚ results cs ys.
Proof. intros P. unfold PipelineProps.results. by rewrite P. Qed.

(** What a stage in the middle hands on comes to the same results. *)
Lemma results_mid c cs xs : results cs (pushed (flat_map (events c false) xs)) = results (c :: cs) xs.
Proof.
  induction xs as [|x xs IH]; [done|]. cbn [flat_map]. rewrite pushed_app, results_app, IH. change (x :: xs) with ([x] ++ xs). rewrite (results_app _ [x]). f_equal.
  unfold PipelineProps.results. cbn [omap list_omap]. rewrite through_cons. unfold PipelineInv.events. fold (after c x). rewrite orb_false_r. generalize (after c x). intros y.
  destruct (ple_keep c); [done|]. destruct (task y) eqn:Ey; cbn; [done|]. destruct (m_keepSerial cfg); cbn; [done|]. by rewrite through_none, Ey.
Qed.

(** What the last stage destroys. *)
Lemma results_last c xs : flat_map (events c true) xs = map Destroy (results [c] xs).
Proof.
  induction xs as [|x xs IH]; [done|]. cbn [flat_map]. rewrite IH. unfold PipelineProps.results. cbn [omap list_omap]. rewrite through_cons. unfold PipelineInv.events. fold (after c x).
  rewrite orb_true_r. unfold hand_on. cbn. destruct (task (after c x)); done.
Qed.

(** A stage that keeps the order, or one before it, hands on everything. *)
Lemma pushed_all c xs : m_keepSerial cfg = true -> pushed (flat_map (events c false) xs) = map (after c) xs.
Proof.
  intros K. induction xs as [|x xs IH]; [done|]. cbn [flat_map]. rewrite pushed_app, IH. unfold PipelineInv.events. fold (after c x). rewrite K, !orb_true_r. by destruct (ple_keep c || false).
Qed.

(** *** When all threads have ended *)

Record finished (s : pipe) : Prop := {
  f_inv : inv s;
  f_todo : todo s = [];
  f_run : m_run s = false;
  f_got j sj : stages s !! j = Some sj -> sent s j = got sj;
  f_gave j c sj : cfg !! j = Some c -> stages s !! j = Some sj -> gave sj ≡ₚ flat_map (events c (last_stage cfg j)) (got sj);
  f_keep j c sj : cfg !! j = Some c -> stages s !! j = Some sj -> ple_keep c = true -> gave sj = flat_map (events c (last_stage cfg j)) (std_sort (got sj))
}.

Lemma all_done_at s j sj t u : all_done s = true -> stages s !! j = Some sj -> m_threads sj !! t = Some u -> at_ u = PDone.
Proof.
  intros D Hj Ht. unfold all_done in D. pose proof (forallb_lookup _ _ _ _ (forallb_lookup _ _ _ _ D Hj) Ht) as Du. unfold done_ in Du. by destruct (at_ u).
Qed.

Lemma pends_nil (us : list (th Task)) : (forall t u, us !! t = Some u -> pend u = []) -> pends us = [].
Proof.
  unfold pends. induction us as [|u us IH]; [done|]. intros Hp. cbn. rewrite (Hp 0%nat u eq_refl). apply IH. intros t v Hv. exact (Hp (S t) v Hv).
Qed.

Lemma done_finished s : inv s -> all_done s = true -> finished s.
Proof.
  intros I D. destruct (first_thread debug cfg tasks pr cfg_threads s 0 I) as (c0 & s0 & u0 & q0 & [_ Hc0 Hs0 Hu0 _]); [destruct cfg; [done|cbn; lia]|].
  pose proof (i_quit _ _ _ _ _ I _ _ _ _ Hs0 Hu0) as [Q1 _ _]. rewrite (all_done_at s 0 s0 0 u0 D Hs0 Hu0) in Q1. specialize (Q1 ltac:(cbn; lia)).
  assert (forall j c sj, cfg !! j = Some c -> stages s !! j = Some sj -> forall t u, m_threads sj !! t = Some u -> pend u = []) as Hp.
  { intros j c sj Hc Hj t u Ht. apply (s_pend _ _ _ _ _ _ (i_stage _ _ _ _ _ I j c sj Hc Hj) t u Ht); by rewrite (all_done_at s j sj t u D Hj Ht). }
  assert (forall j c sj, cfg !! j = Some c -> stages s !! j = Some sj -> ple_keep c = true -> gave sj = flat_map (events c (last_stage cfg j)) (std_sort (got sj))) as Hk.
  { intros j c sj Hc Hj K. pose proof (s_work _ _ _ _ _ _ (i_stage _ _ _ _ _ I j c sj Hc Hj)) as W. unfold work_ok in W. rewrite K in W. destruct W as (u & Eu & _ & W2).
    assert (m_threads sj !! 0%nat = Some u) as Ht by (by rewrite Eu). rewrite (all_done_at s j sj 0 u D Hj Ht) in W2. rewrite <- W2 by (cbn; lia). by rewrite (Hp j c sj Hc Hj 0%nat u Ht), app_nil_r. }
  split; [done|by apply (i_run _ _ _ _ _ I)|done| | |done].
  - intros j sj Hj. pose proof (stage_lt debug cfg tasks pr s j sj I Hj) as Lj. destruct (first_thread debug cfg tasks pr cfg_threads s j I Lj) as (c & sj' & u & q & [_ Hc Hj' Hu Hq]).
    rewrite Hj in Hj'. injection Hj' as <-. pose proof (i_quit _ _ _ _ _ I _ _ _ _ Hj Hu) as [_ _ Q3]. rewrite (all_done_at s j sj 0 u D Hj Hu) in Q3.
    specialize (Q3 ltac:(cbn; lia) q Hq). destruct (i_queue _ _ _ _ _ I j q sj Hq Hj) as (l & Hl & ->). rewrite (l_empty _ _ Hl) in Q3. apply Z.eqb_eq in Q3. destruct l; [by rewrite app_nil_r|cbn [length] in Q3; lia].
  - intros j c sj Hc Hj. destruct (ple_keep c) eqn:K; [rewrite (Hk j c sj Hc Hj K); by rewrite (proj1 (std_sort_ok (got sj)))|].
    pose proof (s_work _ _ _ _ _ _ (i_stage _ _ _ _ _ I j c sj Hc Hj)) as W. unfold work_ok in W. rewrite K, pends_nil, app_nil_r in W; [done|]. by apply (Hp j c sj).
Qed.

Lemma fed_numbered s : inv s -> todo s = [] -> fed s = numbered tasks.
Proof.
  intros I Td. rewrite (numbered_unique (fed s) (i_serials _ _ _ _ _ I)). f_equal. pose proof (i_fed _ _ _ _ _ I) as F. by rewrite Td, app_nil_r in F.
Qed.

Lemma not_last j c : cfg !! S j = Some c -> last_stage cfg j = false.
Proof. intros L%lookup_lt_Some. unfold last_stage. apply Nat.eqb_neq. lia. Qed.

Lemma drop_cfg j c : cfg !! j = Some c -> drop j cfg = c :: drop (S j) cfg.
Proof. apply drop_S. Qed.

(** What reaches stage [j] has the results of all tasks. *)
Lemma sent_results s : finished s -> forall j, (j < length cfg)%nat -> results (drop j cfg) (sent s j) ≡ₚ results cfg (numbered tasks).
Proof.
  intros F j. pose proof (f_inv _ F) as I. induction j as [|j IH]; intros Lj; [cbn; by rewrite (fed_numbered s I (f_todo _ F))|].
  destruct (lookup_lt_is_Some_2 cfg j) as [c Hc]; [lia|]. destruct (lookup_lt_is_Some_2 cfg (S j)) as [c' Hc']; [lia|].
  destruct (lookup_lt_is_Some_2 (stages s) j) as [sj Hj]; [rewrite (i_stages _ _ _ _ _ I); lia|].
  rewrite <- IH by lia. rewrite (drop_cfg j c Hc). cbn [sent]. rewrite Hj. pose proof (f_gave _ F j c sj Hc Hj) as G. rewrite (not_last j c' Hc') in G.
  rewrite (results_perm _ _ _ (pushed_perm _ _ G)), results_mid. by rewrite (f_got _ F j sj Hj).
Qed.

(** If serial numbers are kept, nothing is dropped on the way. *)
Lemma sent_all s : finished s -> m_keepSerial cfg = true -> forall j, (j < length cfg)%nat -> sent s j ≡ₚ map (through (take j cfg)) (numbered tasks).
Proof.
  intros F K j. pose proof (f_inv _ F) as I. induction j as [|j IH]; intros Lj.
  { cbn. rewrite (fed_numbered s I (f_todo _ F)). unfold PipelineProps.through. cbn. by rewrite map_id. }
  destruct (lookup_lt_is_Some_2 cfg j) as [c Hc]; [lia|]. destruct (lookup_lt_is_Some_2 cfg (S j)) as [c' Hc']; [lia|].
  destruct (lookup_lt_is_Some_2 (stages s) j) as [sj Hj]; [rewrite (i_stages _ _ _ _ _ I); lia|].
  cbn [sent]. rewrite Hj. pose proof (f_gave _ F j c sj Hc Hj) as G. rewrite (not_last j c' Hc') in G. rewrite (pushed_perm _ _ G), pushed_all by done.
  rewrite <- (f_got _ F j sj Hj), (IH ltac:(lia)), map_map. erewrite map_ext; [reflexivity|]. intros x. cbn beta.
  rewrite (take_S_r _ _ _ Hc). unfold PipelineProps.through. by rewrite fold_left_app.
Qed.

Lemma through_serial cs x : cs ⊆ cfg -> plserial (through cs x) = plserial x.
Proof.
  revert x. induction cs as [|c cs IH]; intros x Hs; [done|]. rewrite through_cons, IH by (intros ? ?; apply Hs; by right).
  unfold PipelineProps.after. destruct (task x) eqn:E; [|done]. destruct (proj1 (list_elem_of_lookup cfg c)) as [j Hj]; [apply Hs; by left|].
  eapply pr_serial; [done|exact Hj|congruence].
Qed.

Lemma sorted_numbered cs xs : cs ⊆ cfg -> xs ≡ₚ map (through cs) (numbered tasks) -> std_sort xs = map (through cs) (numbered tasks).
Proof.
  intros Hs P. assert (serials (map (through cs) (numbered tasks)) = seqZ 1 (Z.of_nat (length tasks))) as E.
  { rewrite <- serials_numbered. unfold serials. rewrite map_map. apply map_ext. intros x. by apply through_serial. }
  destruct (std_sort_ok xs) as [Ps Ss]. apply (StronglySorted_unique_strong (fun a b => plserial a <= plserial b)); [|done|by eapply seqZ_sorted|by rewrite Ps].
  intros x y Hx Hy L1 L2. rewrite Ps, P in Hx. apply (same_serial (map (through cs) (numbered tasks))); [rewrite E; apply NoDup_seqZ|done|done|lia].
Qed.

Lemma results_map cs cs' xs : results cs' (map (through cs) xs) = results (cs ++ cs') xs.
Proof.
  induction xs as [|x xs IH]; [done|]. unfold PipelineProps.results in *. cbn [map omap list_omap]. rewrite IH. unfold PipelineProps.through. by rewrite fold_left_app.
Qed.

(** The last stage, when all threads have ended. *)
Lemma finished_last s : finished s -> exists sl, list.last (stages s) = Some sl /\ gave sl ≡ₚ map Destroy (results cfg (numbered tasks)) /\
  (forall c, list.last cfg = Some c -> ple_keep c = true -> gave sl = map Destroy (results cfg (numbered tasks))).
Proof.
  intros F. pose proof (f_inv _ F) as I. assert (0 < length cfg)%nat as L0 by (destruct cfg; [done|cbn; lia]). set (j := (length cfg - 1)%nat).
  destruct (lookup_lt_is_Some_2 cfg j) as [c Hc]; [unfold j; lia|]. destruct (lookup_lt_is_Some_2 (stages s) j) as [sj Hj]; [rewrite (i_stages _ _ _ _ _ I); unfold j; lia|].
  assert (last_stage cfg j = true) as El by (unfold last_stage, j; apply Nat.eqb_eq; lia).
  assert (drop j cfg = [c]) as Ed. { rewrite (drop_cfg j c Hc), drop_ge by (unfold j; lia). done. }
  assert (cfg = take j cfg ++ [c]) as Ec by (rewrite <- Ed; symmetry; apply take_drop).
  exists sj. split; [rewrite last_lookup, (i_stages _ _ _ _ _ I); by replace (pred (length cfg)) with j by (unfold j; lia)|]. split.
  - pose proof (f_gave _ F j c sj Hc Hj) as G. rewrite El, results_last, <- (f_got _ F j sj Hj) in G. rewrite G. apply Permutation_map. rewrite <- Ed. apply sent_results; [done|unfold j; lia].
  - intros c' Hl K. rewrite Ec, last_snoc in Hl. injection Hl as <-. rewrite (f_keep _ F j c sj Hc Hj K), El, results_last. f_equal.
    assert (m_keepSerial cfg = true) as Km. { apply existsb_exists. exists c. split; [|done]. apply list_elem_of_In. by eapply list_elem_of_lookup_2. }
    rewrite (sorted_numbered (take j cfg)).
    + rewrite results_map. by rewrite <- Ec.
    + intros y Hy. rewrite Ec. apply elem_of_app. by left.
    + rewrite <- (f_got _ F j sj Hj). apply sent_all; [done|done|unfold j; lia].
Qed.
End done.

(** ** The theorems *)

(** What a pipeline needs: room in the queues, a stage, threads in each stage and one
    in a stage that keeps the order, and tasks that fit their serial numbers.  The
    functions [process] return, and leave the serial number alone. *)
Record usable {Task C : Type} `{Container C (item Task)} (cap queue_size : Z) (cfg : list (stage Task)) (pr : stage Task -> item Task -> item Task) (tasks : list (option Task)) : Prop := {
  u_limit : 0 < limit (C := C) (cap := cap) queue_size <= cap;
  u_some : cfg <> [];
  u_threads : Forall (fun c => (1 <= thread_count c)%nat /\ (ple_keep c = true -> thread_count c = 1%nat)) cfg;
  u_process : Forall (fun c => forall x, task x <> None -> process c x = Ok (pr c x) /\ plserial (pr c x) = plserial x) cfg;
  u_few : Z.of_nat (length tasks) < 2 ^ 62
}.

(** C32: What the pipeline delivers, for any number of stages and threads, and any
    interleaving in which [stop] comes after all threads have begun: when all threads
    have ended, every task has been enqueued, has gone through the functions of all
    stages in turn and has been destroyed once at the end of the last stage, unless a
    function has made it null, and nothing else has been destroyed.  If the last
    stage keeps the order, the tasks come out in the order in which they were
    enqueued. *)
Theorem pipeline_delivers {Task C : Type} `{StdHeap (item Task) plserial} `{HL : ContainerLaws C (item Task) cap holds} (queue_size : Z) (debug : bool) (cfg : list (stage Task)) pr tasks q0 (s : pipe Task C) :
  usable (C := C) cap queue_size cfg pr tasks -> holds q0 [] ->
  rtc (step queue_size debug cfg true) (compiled debug cfg q0 tasks) s -> all_done s = true ->
  todo s = [] /\ m_run s = false /\ fed s = numbered tasks /\
  exists sl, list.last (stages s) = Some sl /\ gave sl ≡ₚ map Destroy (results pr cfg (numbered tasks)) /\
    (forall c, list.last cfg = Some c -> ple_keep c = true -> gave sl = map Destroy (results pr cfg (numbered tasks))).
Proof.
  intros [U1 U2 U3 U4 U5] Hq Hr D. pose proof (reach_inv queue_size debug cfg tasks U1 pr U2 U3 U4 U5 q0 s Hq Hr) as I.
  pose proof (done_finished debug cfg tasks pr U2 U3 U4 s I D) as F. split; [exact (f_todo _ _ _ _ _ F)|]. split; [exact (f_run _ _ _ _ _ F)|]. split; [exact (fed_numbered debug cfg tasks pr s I (f_todo _ _ _ _ _ F))|].
  exact (finished_last debug cfg tasks pr U2 U3 U4 s F).
Qed.

(** C33: The pipeline never gets stuck: from every state that is reached when [stop]
    comes after all threads have begun, the threads and the caller can go on to a
    state in which every thread has ended and [wait] returns. *)
Theorem pipeline_can_end {Task C : Type} `{StdHeap (item Task) plserial} `{HL : ContainerLaws C (item Task) cap holds} (queue_size : Z) (debug : bool) (cfg : list (stage Task)) pr tasks q0 (s : pipe Task C) :
  usable (C := C) cap queue_size cfg pr tasks -> holds q0 [] ->
  rtc (step queue_size debug cfg true) (compiled debug cfg q0 tasks) s ->
  exists s', rtc (step queue_size debug cfg true) s s' /\ all_done s' = true.
Proof.
  intros [U1 U2 U3 U4 U5] Hq Hr. pose proof (reach_inv queue_size debug cfg tasks U1 pr U2 U3 U4 U5 q0 s Hq Hr) as I.
  destruct (can_end queue_size debug cfg tasks U1 pr U2 U3 U4 U5 s I) as (s' & Hr' & _ & D). by exists s'.
Qed.


(** ** Running a pipeline *)

Section run.
Context {Task : Type} `{HS : StdHeap (item Task) plserial} {C : Type} `{Container C (item Task)}.
Context (queue_size : Z) (debug : bool) (cfg : list (stage Task)) (careful : bool).

Inductive act := Do (j t : nat) | Enq | StopNow.

(** An action, if it is possible now. *)
Definition act_step (s : pipe Task C) (a : act) : option (pipe Task C) :=
  match a with
  | Do j t => match thread_step queue_size debug cfg s j t with Ok o => o | _ => None end
  | Enq => match enqueue queue_size s with Ok o => o | _ => None end
  | StopNow => match todo s with [] => if m_run s && (negb careful || all_started s) then Some (stop s) else None | _ => None end
  end.

Definition run_acts (s : pipe Task C) (l : list act) : pipe Task C := fold_left (fun s a => default s (act_step s a)) l s.

Lemma act_step_ok s a s' : act_step s a = Some s' -> step queue_size debug cfg careful s s'.
Proof.
  destruct a as [j t| |]; cbn.
  - destruct (thread_step queue_size debug cfg s j t) as [o| | |] eqn:E; intros Eo; try done. subst o. by eapply step_thread.
  - destruct (enqueue queue_size s) as [o| | |] eqn:E; intros Eo; try done. subst o. by eapply step_enqueue.
  - destruct (todo s) eqn:Td; [|done]. destruct (m_run s && _) eqn:B; [|done]. intros [= <-]. apply andb_true_iff in B as [R B].
    apply step_stop; [done|done|]. intros ->. exact B.
Qed.

Lemma run_acts_ok l s : rtc (step queue_size debug cfg careful) s (run_acts s l).
Proof.
  revert s. induction l as [|a l IH]; intros s; [done|]. cbn. destruct (act_step s a) as [s'|] eqn:E; cbn; [|apply IH].
  eapply rtc_l; [by eapply act_step_ok|apply IH].
Qed.
End run.

(** ** A sample: two threads that multiply by ten and drop a task, then one that keeps
    the order and adds one; the queues hold two *)

Definition on_task (f : Z -> option Z) (x : item Z) : item Z := Item (plserial x) (match task x with Some k => f k | None => None end).
Definition tens (k : Z) : option Z := if k =? 3 then None else Some (10 * k).
Definition plus_one (k : Z) : option Z := Some (k + 1).
Definition demo_cfg : list (stage Z) := [Stage false (fun x => Ok (on_task tens x)) 2; Stage true (fun x => Ok (on_task plus_one x)) 1].
Definition demo_fun (c : stage Z) : item Z -> item Z := on_task (if ple_keep c then plus_one else tens).
Definition demo_tasks : list (option Z) := [Some 1; Some 2; None; Some 3; Some 4].

Definition demo_items_queue : circular_queue (item Z) := CQ (replicate 3 None) 0 0 3.
#[export] Instance demo_items_container : Container (circular_queue (item Z)) (item Z) := circular_container false true (item Z).
#[export] Instance demo_items_laws : ContainerLaws (circular_queue (item Z)) (item Z) 2 (circular_holds false 3) := circular_laws false true (item Z) 3.

Lemma demo_items_holds : circular_holds false 3 demo_items_queue [].
Proof. destruct (@make_ok (item Z) false 3 ltac:(done)) as (q & E & R & N). injection E as <-. done. Qed.

Lemma demo_usable : usable (C := circular_queue (item Z)) 2 2 demo_cfg demo_fun demo_tasks.
Proof.
  split; [cbn; lia|done| | |done]; (constructor; [|constructor; [|constructor]]); try done; try (cbn; split; [lia|done]).
Qed.

(** The threads take turns; the first thread of the first stage is slow. *)
Definition demo_acts (n : nat) : list act := concat (replicate n [Enq; Do 0 1; Do 1 0; Do 0 1; Do 1 0; Enq; Do 0 1; Do 0 0; Do 1 0; StopNow]).
Definition demo_at (n : nat) : pipe Z (circular_queue (item Z)) :=
  run_acts 2 true demo_cfg true (compiled true demo_cfg demo_items_queue demo_tasks) (demo_acts n).

Lemma demo_reached n : rtc (step 2 true demo_cfg true) (compiled true demo_cfg demo_items_queue demo_tasks) (demo_at n).
Proof. apply run_acts_ok. Qed.

Definition last_gave (s : pipe Z (circular_queue (item Z))) : list (event Z) := match list.last (stages s) with Some sl => gave sl | None => [] end.

Lemma pipeline_delivers_witness : last_gave (demo_at 20) = [Destroy 11; Destroy 21; Destroy 41] /\
  todo (demo_at 20) = [] /\ m_run (demo_at 20) = false /\ fed (demo_at 20) = numbered demo_tasks /\
  exists sl, list.last (stages (demo_at 20)) = Some sl /\ gave sl ≡ₚ map Destroy (results demo_fun demo_cfg (numbered demo_tasks)) /\
    (forall c, list.last demo_cfg = Some c -> ple_keep c = true -> gave sl = map Destroy (results demo_fun demo_cfg (numbered demo_tasks))).
Proof.
  split; [vm_compute; reflexivity|].
  apply (pipeline_delivers (cap := 2) (holds := circular_holds false 3) 2 true demo_cfg demo_fun demo_tasks demo_items_queue (demo_at 20) demo_usable demo_items_holds (demo_reached 20)).
  vm_compute. reflexivity.
Defined.

Lemma pipeline_can_end_witness : all_done (demo_at 3) = false /\ exists s', rtc (step 2 true demo_cfg true) (demo_at 3) s' /\ all_done s' = true.
Proof.
  split; [vm_compute; reflexivity|].
  exact (pipeline_can_end (cap := 2) (holds := circular_holds false 3) 2 true demo_cfg demo_fun demo_tasks demo_items_queue (demo_at 3) demo_usable demo_items_holds (demo_reached 3)).
Defined.



(** ** Stopping before all threads have begun *)

(** Two stages of one thread each; the second just hands on. *)
Definition plain_cfg : list (stage Z) := [Stage false (fun x => Ok (on_task plus_one x)) 1; Stage false (fun x => Ok x) 1].
Definition plain_start : pipe Z (circular_queue (item Z)) := compiled false plain_cfg demo_items_queue [Some 1; Some 2].

(** The caller enqueues its tasks and stops; the thread of the second stage begins and
    ends; then the thread of the first stage begins. *)
Definition early_acts : list act := [Enq; Enq; StopNow] ++ replicate 10 (Do 1 0) ++ replicate 40 (Do 0 0).
Definition early_end : pipe Z (circular_queue (item Z)) := run_acts 2 false plain_cfg false plain_start early_acts.

(** When [stop] comes before the thread of the first stage has begun, the thread of
    the second stage finds [m_running_exec_units] of the first at zero and its queue
    empty, and leaves.  Then all threads end with the tasks in the queue between
    them: none reaches the second stage and none is ever destroyed.  The same
    pipeline, when [stop] waits for the threads, delivers both tasks. *)
Theorem early_stop_loses_tasks :
  rtc (step 2 false plain_cfg false) plain_start early_end /\ all_done early_end = true /\
  last_gave early_end = [] /\ (exists q, queues early_end !! 1%nat = Some q /\ c_size q = 2) /\
  let s := run_acts 2 false plain_cfg true plain_start (early_acts ++ [StopNow] ++ demo_acts 30) in
  rtc (step 2 false plain_cfg true) plain_start s /\ all_done s = true /\ last_gave s = [Destroy 2; Destroy 3].
Proof.
  split; [apply run_acts_ok|]. split; [vm_compute; reflexivity|]. split; [vm_compute; reflexivity|]. split.
  - destruct (queues early_end !! 1%nat) as [q|] eqn:E; [|vm_compute in E; discriminate]. exists q. split; [done|]. vm_compute in E. injection E as <-. vm_compute. reflexivity.
  - cbv zeta. split; [apply run_acts_ok|]. split; vm_compute; reflexivity.
Qed.

End PipelineProps.
