(* ===== verification/VarInt.v ===== *)
(** * Integers of variable length

    [io/var_int_inline.hpp], [io/var_int.hpp] and [io/var_int.cpp]: seven bits a byte
    with a mark on all bytes but the last ([var_uint32], [var_uint64]), the length in
    the low bits of the first byte ([var_uint30], [var_uint61]), and signed integers
    with the sign in the lowest bit.  Memory is a list of bytes and a pointer an
    index; [w] is the width of the integer, 32 or 64. *)
From S2P Require Import Prelude Bytes.
Import Bytes.

Module VarInt.

(** Conversion to an unsigned integer of [w] bits, and to an [unsigned char]. *)
Definition uw (w z : Z) : Z := z mod 2 ^ w.
(** Conversion to a signed integer of [w] bits. *)
Definition sw (w z : Z) : Z := (z + 2 ^ (w - 1)) mod 2 ^ w - 2 ^ (w - 1).

(** ** Seven bits a byte *)

Definition maxshift (w : Z) : Z := if w =? 32 then 28 else 63.

Definition gg_load_var_uint (w : Z) (mem : list Z) (buf : Z) : res (Z * Z) :=
  loop 11 (fun '(shift, x, p) =>
    if shift <=? maxshift w then
      let* b := rd mem p in
      let x := Z.lor x (uw w (Z.shiftl (Z.land b 127) shift)) in
      Ok (if Z.land b 128 =? 0 then inr (x, p + 1) else inl (shift + 7, x, p + 1))
    else Throw runtime_error) (0, 0, buf).

Definition gg_save_var_uint (mem : list Z) (p x : Z) : res (list Z * Z) :=
  loop 10 (fun '(mem, p, x) =>
    let b := u8 (Z.land x 127) in
    let x := Z.shiftr x 7 in
    if negb (x =? 0) then let* mem := wr mem p (Z.lor b 128) in Ok (inl (mem, p + 1, x))
    else let* mem := wr mem p b in Ok (inr (mem, p + 1))) (mem, p, x).

(** ** The length in the first byte *)

Definition gg_load_var_uint30 (mem : list Z) (buf : Z) : res (Z * Z) :=
  if inside mem buf 4 then
    let x := le_at 4 mem buf in
    let n := Z.land x 3 in
    let x := Z.land x (Z.shiftr (Z.ones 32) (24 - n * 8)) in
    Ok (Z.shiftr x 2, n + 1 + buf)
  else UB.

Definition gg_load_var_uint61 (mem : list Z) (buf : Z) : res (Z * Z) :=
  if inside mem buf 8 then
    let x := le_at 8 mem buf in
    let n := Z.land x 7 in
    let x := Z.land x (Z.shiftr (Z.ones 64) (56 - n * 8)) in
    Ok (Z.shiftr x 3, n + 1 + buf)
  else UB.

(** [p[k] = (unsigned char)(v)] *)
Definition st8 (mem : list Z) (p k v : Z) : res (list Z) := wr mem (p + k) (u8 v).

(** [debug]: whether assertions are checked. *)
Definition gg_save_var_uint30 (debug : bool) (mem : list Z) (p x : Z) : res (list Z * Z) :=
  let* _ := if debug then assert_ (x <? Z.shiftl 1 30) else Ok tt in
  let x := u32 (Z.shiftl x 2) in
  if Z.land x 0xFFFF0000 =? 0 then
    if Z.land x 0xFF00 =? 0 then
      let* mem := st8 mem p 0 x in Ok (mem, p + 1)
    else
      let* mem := st8 mem p 0 (Z.lor x 1) in
      let* mem := st8 mem p 1 (Z.shiftr x 8) in Ok (mem, p + 2)
  else
    let* mem := st8 mem p 1 (Z.shiftr x 8) in
    let* mem := st8 mem p 2 (Z.shiftr x 16) in
    if Z.land x 0xFF000000 =? 0 then
      let* mem := st8 mem p 0 (Z.lor x 2) in Ok (mem, p + 3)
    else
      let* mem := st8 mem p 0 (Z.lor x 3) in
      let* mem := st8 mem p 3 (Z.shiftr x 24) in Ok (mem, p + 4).

Definition gg_save_var_uint61 (debug : bool) (mem : list Z) (p x : Z) : res (list Z * Z) :=
  let* _ := if debug then assert_ (x <? Z.shiftl 1 30) else Ok tt in
  let x := u64 (Z.shiftl x 3) in
  if Z.land x 0xFFFFFFFF00000000 =? 0 then
    if Z.land x 0xFFFF0000 =? 0 then
      if Z.land x 0xFF00 =? 0 then
        let* mem := st8 mem p 0 x in Ok (mem, p + 1)
      else
        let* mem := st8 mem p 0 (Z.lor x 1) in
        let* mem := st8 mem p 1 (Z.shiftr x 8) in Ok (mem, p + 2)
    else
      let* mem := st8 mem p 1 (Z.shiftr x 8) in
      let* mem := st8 mem p 2 (Z.shiftr x 16) in
      if Z.land x 0xFF000000 =? 0 then
        let* mem := st8 mem p 0 (Z.lor x 2) in Ok (mem, p + 3)
      else
        let* mem := st8 mem p 0 (Z.lor x 3) in
        let* mem := st8 mem p 3 (Z.shiftr x 24) in Ok (mem, p + 4)
  else
    let* mem := st8 mem p 1 (Z.shiftr x 8) in
    let* mem := st8 mem p 2 (Z.shiftr x 16) in
    let* mem := st8 mem p 3 (Z.shiftr x 24) in
    let* mem := st8 mem p 4 (Z.shiftr x 32) in
    if Z.land x 0xFFFF000000000000 =? 0 then
      if Z.land x 0x0000FF0000000000 =? 0 then
        let* mem := st8 mem p 0 (Z.lor x 4) in Ok (mem, p + 5)
      else
        let* mem := st8 mem p 0 (Z.lor x 5) in
        let* mem := st8 mem p 5 (Z.shiftr x 40) in Ok (mem, p + 6)
    else
      let* mem := st8 mem p 5 (Z.shiftr x 40) in
      let* mem := st8 mem p 6 (Z.shiftr x 48) in
      if Z.land x 0xFF00000000000000 =? 0 then
        let* mem := st8 mem p 0 (Z.lor x 6) in Ok (mem, p + 7)
      else
        let* mem := st8 mem p 0 (Z.lor x 7) in
        let* mem := st8 mem p 7 (Z.shiftr x 56) in Ok (mem, p + 8).

(** ** The readers that take single bytes from a stream *)

Section slow.
Context {St : Type} (readByte : St -> res (Z * St)).

Definition gg_load_var_uint_slow (w : Z) (s : St) : res (Z * St) :=
  loop 11 (fun '(shift, x, s) =>
    if shift <=? maxshift w then
      let* (b, s) := readByte s in
      let x := Z.lor x (uw w (Z.shiftl (Z.land b 127) shift)) in
      Ok (if Z.land b 128 =? 0 then inr (x, s) else inl (shift + 7, x, s))
    else Throw runtime_error) (0, 0, s).

(** The cases [n], [n - 1], ..., 1 of the switch, which fall through. *)
Fixpoint read_more (w : Z) (n : nat) (y : Z) (s : St) : res (Z * St) :=
  match n with
  | O => Ok (y, s)
  | S n => let* (b, s) := readByte s in read_more w n (Z.lor (uw w (Z.shiftl y 8)) b) s
  end.

Definition gg_load_var_uint30_slow (s : St) : res (Z * St) :=
  let* (x, s) := readByte s in
  let* (y, s) := read_more 32 (Z.to_nat (Z.land x 3)) 0 s in
  let z := Z.lor x (uw 32 (Z.shiftl y 8)) in
  Ok (Z.shiftr z 2, s).

Definition gg_load_var_uint61_slow (s : St) : res (Z * St) :=
  let* (x, s) := readByte s in
  let* (y, s) := read_more 64 (Z.to_nat (Z.land x 7)) 0 s in
  let z := Z.lor x (uw 64 (Z.shiftl y 8)) in
  Ok (Z.shiftr z 3, s).
End slow.

(** ** Signed integers *)

Definition var_int_s2u (w x : Z) : Z :=
  if x <? 0 then
    if x =? - 2 ^ (w - 1) then 1 else uw w (Z.lor (Z.shiftl (- x) 1) 1)
  else uw w (Z.shiftl x 1).

Definition var_int_u2s (w u : Z) : Z :=
  if negb (Z.land u 1 =? 0) then
    if Z.shiftr u 1 =? 0 then - 2 ^ (w - 1) else - sw w (Z.shiftr u 1)
  else sw w (Z.shiftr u 1).

(** ** The functions of [var_int.cpp] *)

Definition load_var_uint32 := gg_load_var_uint 32.
Definition load_var_uint64 := gg_load_var_uint 64.
Definition load_var_int32 (mem : list Z) (buf : Z) : res (Z * Z) := let* (x, e) := load_var_uint32 mem buf in Ok (var_int_u2s 32 x, e).
Definition load_var_int64 (mem : list Z) (buf : Z) : res (Z * Z) := let* (x, e) := load_var_uint64 mem buf in Ok (var_int_u2s 64 x, e).
Definition save_var_uint32 := gg_save_var_uint.
Definition save_var_uint64 := gg_save_var_uint.
Definition save_var_int32 (mem : list Z) (p x : Z) : res (list Z * Z) := save_var_uint32 mem p (var_int_s2u 32 x).
Definition save_var_int64 (mem : list Z) (p x : Z) : res (list Z * Z) := save_var_uint64 mem p (var_int_s2u 64 x).
Definition load_var_int30 (mem : list Z) (buf : Z) : res (Z * Z) := let* (x, e) := gg_load_var_uint30 mem buf in Ok (var_int_u2s 32 x, e).
Definition load_var_int61 (mem : list Z) (buf : Z) : res (Z * Z) := let* (x, e) := gg_load_var_uint61 mem buf in Ok (var_int_u2s 64 x, e).
Definition save_var_int30 (debug : bool) (mem : list Z) (p x : Z) : res (list Z * Z) := gg_save_var_uint30 debug mem p (var_int_s2u 32 x).
Definition save_var_int61 (debug : bool) (mem : list Z) (p x : Z) : res (list Z * Z) := gg_save_var_uint61 debug mem p (var_int_s2u 64 x).

(** Backwards from the last byte of an integer, at [cur], to the one before it. *)
Definition reverse_get_var_uint32 (mem : list Z) (buf cur : Z) : res (Z * Z) :=
  let* _ := assert_ (buf <=? cur) in
  let* w := rd mem cur in
  loop (Z.to_nat (cur - buf) + 1) (fun '(x, shift, p) =>
    let last := let* _ := assert_ (shift <? 32) in Ok (inr (Z.lor x (u32 (Z.shiftl w shift)), p)) in
    if buf <=? p then
      let* b := rd mem p in
      if negb (Z.land b 128 =? 0) then Ok (inl (Z.lor (u32 (Z.shiftl x 7)) (Z.land b 127), shift + 7, p - 1)) else last
    else last) (0, 0, cur - 1).

Definition reverse_get_var_uint64 (mem : list Z) (buf cur : Z) : res (Z * Z) :=
  let* _ := assert_ (buf <=? cur) in
  let* w := rd mem cur in
  loop (Z.to_nat (cur - buf) + 1) (fun '(x, shift, p) =>
    let last := let* _ := assert_ (shift <=? 56) in Ok (inr (Z.lor x (u64 (Z.shiftl w shift)), p)) in
    if (buf <=? p) && (shift <? 56) then
      let* b := rd mem p in
      if negb (Z.land b 128 =? 0) then Ok (inl (Z.lor (u64 (Z.shiftl x 7)) (Z.land b 127), shift + 7, p - 1)) else last
    else last) (0, 0, cur - 1).

Definition reverse_get_var_int32 (mem : list Z) (buf cur : Z) : res (Z * Z) := let* (x, c) := reverse_get_var_uint32 mem buf cur in Ok (var_int_u2s 32 x, c).
Definition reverse_get_var_int64 (mem : list Z) (buf cur : Z) : res (Z * Z) := let* (x, c) := reverse_get_var_uint64 mem buf cur in Ok (var_int_u2s 64 x, c).
End VarInt.
