(* ===== verification/VarIntProps.v ===== *)
(** * What the variable-length integers encode

    The bytes the functions of [VarInt] write, how many they are, and that every reader
    gives the number back, with the readers that do not. *)
From S2P Require Import Prelude Bytes VarInt.
Import Bytes VarInt.

Module VarIntProps.

(** ** A part of memory *)

Lemma rd_mid (A l B : list Z) k v p : p = Z.of_nat (length A) + k -> 0 <= k -> l !! Z.to_nat k = Some v -> rd (A ++ l ++ B) p = Ok v.
Proof.
  intros -> Hk Hv. apply rd_ok; [lia|]. rewrite lookup_app_r by lia. replace (Z.to_nat (Z.of_nat (length A) + k) - length A)%nat with (Z.to_nat k) by lia.
  apply lookup_app_l_Some. done.
Qed.

Lemma wr_mid (A l B : list Z) k v p : p = Z.of_nat (length A) + k -> 0 <= k < Z.of_nat (length l) ->
  wr (A ++ l ++ B) p v = Ok (A ++ <[Z.to_nat k := v]> l ++ B).
Proof.
  intros -> Hk. rewrite wr_ok by (rewrite !length_app; lia). rewrite insert_app_r_alt by lia.
  replace (Z.to_nat (Z.of_nat (length A) + k) - length A)%nat with (Z.to_nat k) by lia. rewrite insert_app_l by lia. done.
Qed.

Lemma byte_at_mid (A l B : list Z) k v : 0 <= k -> l !! Z.to_nat k = Some v -> byte_at (A ++ l ++ B) (Z.of_nat (length A) + k) = v.
Proof.
  intros Hk Hv. pose proof (rd_mid A l B k v _ eq_refl Hk Hv) as E. unfold byte_at. apply rd_Ok_inv in E as [_ E]. rewrite nth_lookup, E. done.
Qed.

(** A reader of single bytes gives [bs] and goes from [s] to [s']. *)
Fixpoint reads {St} (readByte : St -> res (Z * St)) (s : St) (bs : list Z) (s' : St) : Prop :=
  match bs with [] => s = s' | b :: bs => exists s1, readByte s = Ok (b, s1) /\ reads readByte s1 bs s' end.

(** ** Seven bits a byte *)

(** The encoding of a number below [128 ^ (k + 1)]. *)
Fixpoint leb (k : nat) (x : Z) : list Z :=
  match k with
  | O => [x]
  | S k => if x / 128 =? 0 then [x] else (x mod 128 + 128) :: leb k (x / 128)
  end.

Lemma land_127 x : Z.land x 127 = x mod 128.
Proof. change 127 with (Z.ones 7). by rewrite Z.land_ones. Qed.

Lemma land_128 b : 0 <= b < 256 -> (Z.land b 128 =? 0) = (b <? 128).
Proof.
  intros Hb. assert (Z.land b 128 = Z.shiftl (Z.land (Z.shiftr b 7) 1) 7) as ->.
  { apply Z.bits_inj'. intros i Hi. rewrite Z.shiftl_spec, !Z.land_spec by lia. change 128 with (2 ^ 7). rewrite Z.pow2_bits_eqb by lia.
    destruct (Z.lt_ge_cases i 7); [rewrite (Z.testbit_neg_r 1) by lia; rewrite (proj2 (Z.eqb_neq 7 i)) by lia; by rewrite !andb_false_r|].
    rewrite Z.shiftr_spec by lia. replace (i - 7 + 7) with i by lia. f_equal. change 1 with (2 ^ 0). rewrite Z.pow2_bits_eqb by lia. destruct (Z.eqb_spec 7 i), (Z.eqb_spec 0 (i - 7)); (done || lia). }
  change 1 with (Z.ones 1). rewrite Z.land_ones, Z.shiftr_div_pow2, Z.shiftl_mul_pow2 by lia. change (2 ^ 7) with 128. change (2 ^ 1) with 2.
  destruct (Z.ltb_spec b 128); [rewrite Z.div_small by lia; done|]. assert (b / 128 = 1) as ->; [|done].
  symmetry. apply Z.div_unique with (b - 128); lia.
Qed.

Lemma lor_128 b : 0 <= b < 128 -> Z.lor b 128 = b + 128.
Proof.
  intros Hb. pose proof (Z.add_lor_land b 128) as E. assert (Z.land b 128 = 0) as E0; [|lia].
  apply Z.eqb_eq. rewrite land_128 by lia. apply Z.ltb_lt. lia.
Qed.

Lemma leb_bytes k x : 0 <= x < 128 ^ Z.of_nat (S k) -> bytes (leb k x).
Proof.
  revert x. induction k as [|k IH]; intros x Hx; cbn [leb]; [repeat constructor; cbn in Hx; lia|].
  rewrite Nat2Z.inj_succ, Z.pow_succ_r in Hx by lia. pose proof (Z.mod_pos_bound x 128). pose proof (Z.div_mod x 128).
  destruct (Z.eqb_spec (x / 128) 0); constructor; [lia|constructor|lia|]. apply IH. split; [apply Z.div_pos; lia|apply Z.div_lt_upper_bound; lia].
Qed.

(** How long the encoding is. *)
Lemma leb_length k x : 0 <= x < 128 ^ Z.of_nat (S k) -> Z.of_nat (length (leb k x)) = Z.log2 x / 7 + 1.
Proof.
  revert x. induction k as [|k IH]; intros x Hx; cbn [leb].
  - change (128 ^ Z.of_nat 1) with (2 ^ 7) in Hx. rewrite Z.div_small; [done|]. split; [apply Z.log2_nonneg|].
    destruct (Z.eq_dec x 0) as [->|]; [done|]. apply Z.log2_lt_pow2; lia.
  - rewrite Nat2Z.inj_succ, Z.pow_succ_r in Hx by lia. pose proof (Z.div_mod x 128). pose proof (Z.mod_pos_bound x 128).
    destruct (Z.eqb_spec (x / 128) 0) as [E|E].
    + assert (x < 2 ^ 7) by (cbn; lia). rewrite Z.div_small; [done|]. split; [apply Z.log2_nonneg|]. destruct (Z.eq_dec x 0) as [->|]; [done|]. apply Z.log2_lt_pow2; lia.
    + cbn [length]. rewrite Nat2Z.inj_succ, IH by (split; [apply Z.div_pos; lia|apply Z.div_lt_upper_bound; lia]).
      change 128 with (2 ^ 7). rewrite <- Z.shiftr_div_pow2, Z.log2_shiftr by (try lia; rewrite Z.shiftr_div_pow2 by lia; change (2^7) with 128; pose proof (Z.div_pos x 128); lia).
      assert (7 <= Z.log2 x). { apply Z.log2_le_pow2; [lia|]. cbn. nia. }
      rewrite Z.max_r by lia. replace (Z.log2 x) with (Z.log2 x - 7 + 1 * 7) at 2 by lia. rewrite Z.div_add by lia. lia.
Qed.

Lemma pow128 k : 128 ^ Z.of_nat k = 2 ^ (7 * Z.of_nat k).
Proof. change 128 with (2 ^ 7). rewrite <- Z.pow_mul_r by lia. done. Qed.

(** Saving writes the encoding and nothing else. *)
Lemma save_leb k fuel x A l B : 0 <= x < 128 ^ Z.of_nat (S k) -> length l = length (leb k x) -> (k < fuel)%nat ->
  loop fuel (fun '(mem, p, x) =>
    let b := u8 (Z.land x 127) in
    let x := Z.shiftr x 7 in
    if negb (x =? 0) then let* mem := wr mem p (Z.lor b 128) in Ok (inl (mem, p + 1, x))
    else let* mem := wr mem p b in Ok (inr (mem, p + 1))) (A ++ l ++ B, Z.of_nat (length A), x) =
  Ok (A ++ leb k x ++ B, Z.of_nat (length A) + Z.of_nat (length (leb k x))).
Proof.
  revert fuel x A l. induction k as [|k IH]; intros fuel x A l Hx Hl Hf; (destruct fuel as [|fuel]; [lia|]); cbn [loop].
  - destruct l as [|v [|]]; try done. change (128 ^ Z.of_nat 1) with 128 in Hx. rewrite Z.shiftr_div_pow2, (Z.div_small x) by (cbn; lia). change (negb (0 =? 0)) with false. cbv iota.
    rewrite (wr_mid A [v] B 0) by (cbn; lia). rewrite land_127, (Z.mod_small x 128) by lia. unfold u8. rewrite Z.mod_small by lia. done.
  - rewrite Nat2Z.inj_succ, Z.pow_succ_r in Hx by lia. cbn [leb] in *. rewrite Z.shiftr_div_pow2 by lia. change (2 ^ 7) with 128.
    rewrite land_127. pose proof (Z.mod_pos_bound x 128 ltac:(lia)) as Hm. unfold u8 at 1 2. rewrite (Z.mod_small (x mod 128)) by lia.
    destruct (Z.eqb_spec (x / 128) 0) as [E|E]; cbn [negb].
    + destruct l as [|v [|]]; try done. rewrite (wr_mid A [v] B 0) by (cbn; lia). cbn [rbind]. pose proof (Z.div_mod x 128). rewrite Z.mod_small by lia. done.
    + destruct l as [|v l]; [done|]. cbn in Hl. rewrite (wr_mid A (v :: l) B 0) by (cbn; lia). cbn [rbind]. rewrite lor_128 by lia.
      change (Z.to_nat 0) with 0%nat. change (<[0%nat := x mod 128 + 128]> (v :: l)) with ((x mod 128 + 128) :: l).
      specialize (IH fuel (x / 128) (A ++ [x mod 128 + 128]) l). rewrite <- !app_assoc, length_app, Nat2Z.inj_add in IH. cbn [app] in IH.
      change (Z.of_nat (length [x mod 128 + 128])) with 1 in IH. cbn [app]. rewrite IH.
      * cbn [length]. do 2 f_equal. lia.
      * split; [apply Z.div_pos; lia|apply Z.div_lt_upper_bound; lia].
      * lia.
      * lia.
Qed.

Lemma loop_ext {S R} fuel (f g : S -> res (S + R)) s : (forall t, f t = g t) -> loop fuel f s = loop fuel g s.
Proof. intros E. revert s. induction fuel as [|n IH]; intros s; [done|]. cbn [loop]. rewrite E. destruct (g s) as [[|]| | |]; cbn [rbind]; auto. Qed.

(** Reading from memory is reading from a stream whose state is the pointer. *)
Definition mem_byte (mem : list Z) (p : Z) : res (Z * Z) := let* b := rd mem p in Ok (b, p + 1).

Lemma load_is_slow w mem p : gg_load_var_uint w mem p = gg_load_var_uint_slow (mem_byte mem) w p.
Proof.
  unfold gg_load_var_uint, gg_load_var_uint_slow. apply loop_ext. intros [[shift x] q]. unfold mem_byte. destruct (shift <=? maxshift w); [|done]. by destruct (rd mem q).
Qed.

Lemma mem_reads A l B p : bytes l -> p = Z.of_nat (length A) -> reads (mem_byte (A ++ l ++ B)) p l (p + Z.of_nat (length l)).
Proof.
  intros Hl. revert A p. induction Hl as [|b l Hb Hl IH]; intros A p Ep; [cbn; lia|]. exists (p + 1). split.
  - unfold mem_byte. rewrite (rd_mid A (b :: l) B 0 b) by (done || lia). done.
  - specialize (IH (A ++ [b]) (p + 1)). rewrite <- app_assoc, length_app in IH. cbn [app] in IH. cbn [length]. replace (p + Z.of_nat (S (length l))) with (p + 1 + Z.of_nat (length l)) by lia. apply IH. cbn [length]. lia.
Qed.

Section load.
Context {St : Type} (readByte : St -> res (Z * St)).

Lemma load_leb w k fuel (s s' : St) x shift x0 : 0 < w -> 0 <= x0 < 2 ^ shift -> 0 <= shift -> shift + 7 * Z.of_nat k <= maxshift w ->
  0 <= x < 128 ^ Z.of_nat (S k) -> x * 2 ^ shift < 2 ^ w -> reads readByte s (leb k x) s' -> (k < fuel)%nat ->
  loop fuel (fun '(shift, x, s) =>
    if shift <=? maxshift w then
      let* (b, s) := readByte s in
      let x := Z.lor x (uw w (Z.shiftl (Z.land b 127) shift)) in
      Ok (if Z.land b 128 =? 0 then inr (x, s) else inl (shift + 7, x, s))
    else Throw runtime_error) (shift, x0, s) = Ok (x0 + x * 2 ^ shift, s').
Proof.
  intros Hw. revert fuel s x shift x0. induction k as [|k IH]; intros fuel s x shift x0 Hx0 Hs Hm Hx Hfit Hr Hf; (destruct fuel as [|fuel]; [lia|]); cbn [loop leb] in *.
  - destruct Hr as (s1 & Er & <-). rewrite (proj2 (Z.leb_le _ _)) by lia. rewrite Er. cbn [rbind]. change (128 ^ Z.of_nat 1) with 128 in Hx.
    rewrite land_127, land_128, (Z.mod_small x) by lia. rewrite (proj2 (Z.ltb_lt _ _)) by lia. unfold uw. rewrite (Z.mod_small _ (2 ^ w)) by (rewrite Z.shiftl_mul_pow2 by lia; nia).
    by rewrite lor_above.
  - rewrite Nat2Z.inj_succ, Z.pow_succ_r in Hx by lia. pose proof (Z.div_mod x 128 ltac:(lia)) as Dx. pose proof (Z.mod_pos_bound x 128 ltac:(lia)) as Mx.
    assert (0 <= x / 128) as Hd by (apply Z.div_pos; lia). rewrite (proj2 (Z.leb_le _ _)) by lia.
    assert (forall b, 0 <= b < 128 -> b <= x -> Z.lor x0 (uw w (Z.shiftl b shift)) = x0 + b * 2 ^ shift) as Hor.
    { intros b Hb Hbx. unfold uw. rewrite Z.mod_small by (rewrite Z.shiftl_mul_pow2 by lia; nia). by apply lor_above. }
    destruct (Z.eqb_spec (x / 128) 0) as [E|E].
    + destruct Hr as (s1 & Er & <-). rewrite Er. cbn [rbind]. assert (x = x mod 128) as Ex by lia. rewrite land_127, land_128 by lia. rewrite (proj2 (Z.ltb_lt _ _)) by lia.
      rewrite <- Ex. by rewrite Hor by lia.
    + destruct Hr as (s1 & Er & Hr). rewrite Er. cbn [rbind]. rewrite land_127, land_128 by lia. rewrite (proj2 (Z.ltb_ge _ _)) by lia.
      replace ((x mod 128 + 128) mod 128) with (x mod 128) by (apply Z.mod_unique with 1; lia).
      rewrite Hor by lia. pose proof (Z.pow_pos_nonneg 2 shift ltac:(lia) Hs) as P2.
      assert (2 ^ (shift + 7) = 2 ^ shift * 128) as E7 by (rewrite Z.pow_add_r by lia; done).
      rewrite (IH fuel s1 (x / 128) (shift + 7)); try done; try lia; try nia. rewrite E7. do 2 f_equal. nia.
Qed.
End load.

(** The widths and how many bytes they may need. *)
Definition int_width (w : Z) : Prop := w = 32 \/ w = 64.
Definition more_bytes (w : Z) : nat := if w =? 32 then 4%nat else 9%nat.

Lemma fits w x : int_width w -> 0 <= x < 2 ^ w -> 0 <= x < 128 ^ Z.of_nat (S (more_bytes w)).
Proof. intros [-> | ->]; cbn -[Z.pow]; intros Hx; (split; [lia|]); (eapply Z.lt_le_trans; [apply Hx|]); vm_compute; discriminate. Qed.

Definition var_bytes (w x : Z) : list Z := leb (more_bytes w) x.

Lemma slow_load_ok w {St} (readByte : St -> res (Z * St)) s s' x : int_width w -> 0 <= x < 2 ^ w ->
  reads readByte s (var_bytes w x) s' -> gg_load_var_uint_slow readByte w s = Ok (x, s').
Proof.
  intros Hw Hx Hr. etransitivity; [apply (load_leb readByte w (more_bytes w) 11 s s' x 0 0); try lia; try done|by rewrite Z.pow_0_r, Z.mul_1_r].
  - destruct Hw as [-> | ->]; lia.
  - destruct Hw as [-> | ->]; vm_compute; discriminate.
  - by apply fits.
  - destruct Hw as [-> | ->]; cbn; lia.
Qed.

Lemma load_uint_ok w A B x : int_width w -> 0 <= x < 2 ^ w -> 
  gg_load_var_uint w (A ++ var_bytes w x ++ B) (Z.of_nat (length A)) = Ok (x, Z.of_nat (length A) + Z.of_nat (length (var_bytes w x))).
Proof.
  intros Hw Hx. rewrite load_is_slow. apply slow_load_ok; [done..|]. apply mem_reads; [|done]. by apply leb_bytes, fits.
Qed.

Lemma save_uint_ok w x A l B : int_width w -> 0 <= x < 2 ^ w -> length l = length (var_bytes w x) ->
  gg_save_var_uint (A ++ l ++ B) (Z.of_nat (length A)) x = Ok (A ++ var_bytes w x ++ B, Z.of_nat (length A) + Z.of_nat (length (var_bytes w x))).
Proof. intros Hw Hx Hl. apply save_leb; [by apply fits|done|]. destruct Hw as [-> | ->]; cbn; lia. Qed.

Lemma var_bytes_length w x : int_width w -> 0 <= x < 2 ^ w -> Z.of_nat (length (var_bytes w x)) = Z.log2 x / 7 + 1.
Proof. intros. by apply leb_length, fits. Qed.

(** Too many bytes that are marked: the readers throw. *)
Lemma load_too_long w {St} (readByte : St -> res (Z * St)) bs s s' : int_width w -> Forall (fun b => 128 <= b < 256) bs -> length bs = S (more_bytes w) ->
  reads readByte s bs s' -> gg_load_var_uint_slow readByte w s = Throw runtime_error.
Proof.
  intros Hw Hb Hl Hr. unfold gg_load_var_uint_slow.
  assert (forall bs fuel shift x s, Forall (fun b => 128 <= b < 256) bs -> shift + 7 * Z.of_nat (length bs) = 7 + maxshift w -> reads readByte s bs s' -> (length bs < fuel)%nat ->
    loop fuel (fun '(shift, x, s) => if shift <=? maxshift w then let* (b, s) := readByte s in
      let x := Z.lor x (uw w (Z.shiftl (Z.land b 127) shift)) in Ok (if Z.land b 128 =? 0 then inr (x, s) else inl (shift + 7, x, s)) else Throw runtime_error) (shift, x, s) = Throw runtime_error) as G.
  { clear bs s Hb Hl Hr. intros bs. induction bs as [|b bs IH]; intros fuel shift x s Hb Hs Hr Hf; (destruct fuel as [|fuel]; [cbn in Hf; lia|]); cbn [loop length] in *.
    - rewrite (proj2 (Z.leb_gt _ _)) by lia. done.
    - inversion Hb as [|? ? Hb1 Hb2]; subst. destruct Hr as (s1 & Er & Hr). rewrite (proj2 (Z.leb_le _ _)) by lia. rewrite Er. cbn [rbind]. rewrite land_128 by lia.
      rewrite (proj2 (Z.ltb_ge _ _)) by lia. apply IH; [done|lia|done|lia]. }
  apply (G bs); [done| |done|]; rewrite Hl; destruct Hw as [-> | ->]; cbn; lia.
Qed.

(** ** The length in the first byte *)

(** [t] bits for the length: the bytes of [x * 2 ^ t] with the number of further
    bytes in the low bits. *)
Definition tag_more (t x : Z) : Z := Z.log2 (x * 2 ^ t) / 8.
Definition tag_bytes (t x : Z) : list Z := map (byte_of (x * 2 ^ t + tag_more t x)) (seqZ 0 (tag_more t x + 1)).

Lemma tag_more_nonneg t x : 0 <= tag_more t x.
Proof. apply Z.div_pos; [apply Z.log2_nonneg|lia]. Qed.

Lemma tag_length t x : Z.of_nat (length (tag_bytes t x)) = tag_more t x + 1.
Proof. unfold tag_bytes. rewrite length_map, length_seqZ. pose proof (tag_more_nonneg t x). lia. Qed.

Lemma tag_bytes_ok t x : bytes (tag_bytes t x).
Proof. unfold tag_bytes, bytes. apply Forall_map, List.Forall_forall. intros k _. apply byte_of_range. Qed.

Lemma tag_more_is k v : 0 <= k -> 0 <= v < 2 ^ (8 * (k + 1)) -> (k = 0 \/ 2 ^ (8 * k) <= v) -> Z.log2 v / 8 = k.
Proof.
  intros Hk Hv Hl. symmetry. apply Z.div_unique with (Z.log2 v - 8 * k); [|lia]. left. pose proof (Z.log2_nonneg v).
  destruct (Z.eq_dec v 0) as [->|Hn]; [destruct Hl as [->|Hl]; [cbn; lia|pose proof (Z.pow_pos_nonneg 2 (8 * k)); lia]|].
  assert (Z.log2 v < 8 * (k + 1)) by (apply Z.log2_lt_pow2; lia).
  destruct Hl as [->|Hl]; [lia|]. apply Z.log2_le_pow2 in Hl; lia.
Qed.

Lemma tag_value_range t x : 0 <= t <= 3 -> 0 <= x -> x * 2 ^ t < 2 ^ (8 * 2 ^ t) ->
  0 <= tag_more t x < 2 ^ t /\ x * 2 ^ t + tag_more t x < 256 ^ (tag_more t x + 1).
Proof.
  intros Ht Hx Hv. unfold tag_more. set (v := x * 2 ^ t) in *. assert (0 <= v) by (unfold v; nia). pose proof (Z.log2_nonneg v) as L0.
  pose proof (Z.pow_pos_nonneg 2 t ltac:(lia) ltac:(lia)) as P.
  assert (Z.log2 v < 8 * 2 ^ t) as L1. { destruct (Z.eq_dec v 0) as [->|]; [cbn; lia|]. apply Z.log2_lt_pow2; lia. }
  assert (0 <= Z.log2 v / 8 < 2 ^ t) as Hn. { split; [apply Z.div_pos; lia|apply Z.div_lt_upper_bound; lia]. }
  split; [done|]. change 256 with (2 ^ 8). rewrite <- Z.pow_mul_r by lia. set (n := Z.log2 v / 8) in *.
  assert (v < 2 ^ (8 * (n + 1))) as Hb.
  { destruct (Z.eq_dec v 0) as [->|]; [apply Z.pow_pos_nonneg; lia|]. apply Z.log2_lt_pow2; [lia|]. pose proof (Z.mod_pos_bound (Z.log2 v) 8). pose proof (Z.div_mod (Z.log2 v) 8). lia. }
  assert (2 ^ (8 * (n + 1)) = 2 ^ t * 2 ^ (8 * (n + 1) - t)) as E by (rewrite <- Z.pow_add_r by lia; f_equal; lia).
  rewrite E in Hb |- *. set (q := 2 ^ (8 * (n + 1) - t)) in *. unfold v in Hb |- *. assert (x < q) by nia. assert ((x + 1) * 2 ^ t <= 2 ^ t * q) by nia. lia.
Qed.

(** Reading [2 ^ t] bytes and cutting off what is not part of the number. *)
Lemma tag_load t A B x (N : nat) : 0 < t <= 3 -> Z.of_nat N = 2 ^ t -> 0 <= x -> x * 2 ^ t < 2 ^ (8 * 2 ^ t) -> bytes B ->
  let v := le_at N (A ++ tag_bytes t x ++ B) (Z.of_nat (length A)) in
  Z.land v (Z.ones t) = tag_more t x /\ Z.shiftr (Z.land v (Z.ones (8 * (tag_more t x + 1)))) t = x.
Proof.
  intros Ht HN Hx Hv HB v. destruct (tag_value_range t x ltac:(lia) Hx Hv) as [Hn Hc]. set (n := tag_more t x) in *.
  set (m := A ++ tag_bytes t x ++ B) in *. set (o := Z.of_nat (length A)) in *.
  assert (exists R, v = (x * 2 ^ t + n) + 256 ^ (n + 1) * R) as (R & Ev).
  { exists (le_at (N - Z.to_nat (n + 1)) m (o + (n + 1))). unfold v. replace N with (Z.to_nat (n + 1) + (N - Z.to_nat (n + 1)))%nat at 1 by lia.
    rewrite le_at_split, Z2Nat.id by lia. f_equal. apply le_at_bytes_of; [rewrite Z2Nat.id by lia; nia|]. intros k Hk. rewrite Z2Nat.id in Hk by lia.
    unfold m, o. apply byte_at_mid; [lia|]. unfold tag_bytes. rewrite list_lookup_fmap, lookup_seqZ_lt by lia. cbn. fold n. do 2 f_equal. lia. }
  pose proof (Z.pow_pos_nonneg 2 t ltac:(lia) ltac:(lia)) as P.
  assert (256 ^ (n + 1) = 2 ^ t * 2 ^ (8 * (n + 1) - t)) as E. { change 256 with (2 ^ 8). rewrite <- Z.pow_mul_r, <- Z.pow_add_r by lia. f_equal. lia. }
  split.
  - rewrite Z.land_ones by lia. symmetry. apply Z.mod_unique with (x + 2 ^ (8 * (n + 1) - t) * R); [lia|]. rewrite Ev, E. ring.
  - rewrite Z.land_ones by lia. replace (2 ^ (8 * (n + 1))) with (256 ^ (n + 1)) by (change 256 with (2 ^ 8); by rewrite <- Z.pow_mul_r by lia).
    replace (v mod 256 ^ (n + 1)) with (x * 2 ^ t + n) by (apply Z.mod_unique with R; [nia|lia]).
    rewrite Z.shiftr_div_pow2 by lia. symmetry. apply Z.div_unique with n; [lia|ring].
Qed.

Lemma load30_ok A B x : 0 <= x < 2 ^ 30 -> bytes B -> 4 <= Z.of_nat (length (tag_bytes 2 x ++ B)) ->
  gg_load_var_uint30 (A ++ tag_bytes 2 x ++ B) (Z.of_nat (length A)) = Ok (x, Z.of_nat (length A) + Z.of_nat (length (tag_bytes 2 x))).
Proof.
  intros Hx HB Hl. unfold gg_load_var_uint30. rewrite inside_ok by (try rewrite length_app; lia).
  destruct (tag_load 2 A B x 4 ltac:(lia) eq_refl ltac:(lia) ltac:(lia) HB) as [E1 E2]. change (Z.ones 2) with 3 in E1. rewrite E1.
  destruct (tag_value_range 2 x ltac:(lia) ltac:(lia) ltac:(lia)) as [Hn _]. change (2 ^ 2) with 4 in Hn.
  assert (Z.shiftr (Z.ones 32) (24 - tag_more 2 x * 8) = Z.ones (8 * (tag_more 2 x + 1))) as ->.
  { assert (tag_more 2 x = 0 \/ tag_more 2 x = 1 \/ tag_more 2 x = 2 \/ tag_more 2 x = 3) as [-> |[-> |[-> | ->]]] by lia; reflexivity. }
  rewrite E2, tag_length. do 2 f_equal. lia.
Qed.

Lemma load61_ok A B x : 0 <= x < 2 ^ 61 -> bytes B -> 8 <= Z.of_nat (length (tag_bytes 3 x ++ B)) ->
  gg_load_var_uint61 (A ++ tag_bytes 3 x ++ B) (Z.of_nat (length A)) = Ok (x, Z.of_nat (length A) + Z.of_nat (length (tag_bytes 3 x))).
Proof.
  intros Hx HB Hl. unfold gg_load_var_uint61. rewrite inside_ok by (try rewrite length_app; lia).
  destruct (tag_load 3 A B x 8 ltac:(lia) eq_refl ltac:(lia) ltac:(lia) HB) as [E1 E2]. change (Z.ones 3) with 7 in E1. rewrite E1.
  destruct (tag_value_range 3 x ltac:(lia) ltac:(lia) ltac:(lia)) as [Hn _]. change (2 ^ 3) with 8 in Hn.
  assert (Z.shiftr (Z.ones 64) (56 - tag_more 3 x * 8) = Z.ones (8 * (tag_more 3 x + 1))) as ->.
  { rewrite Z.shiftr_div_pow2, !Z.ones_equiv by lia. symmetry.
    assert (tag_more 3 x = 0 \/ tag_more 3 x = 1 \/ tag_more 3 x = 2 \/ tag_more 3 x = 3 \/ tag_more 3 x = 4 \/ tag_more 3 x = 5 \/ tag_more 3 x = 6 \/ tag_more 3 x = 7) as [-> |[-> |[-> |[-> |[-> |[-> |[-> | ->]]]]]]] by lia; reflexivity. }
  rewrite E2, tag_length. do 2 f_equal. lia.
Qed.

(** The tests of the writers. *)
Lemma test_high v a b : 0 <= a <= b -> 0 <= v < 2 ^ b -> (Z.land v (Z.shiftl (Z.ones (b - a)) a) =? 0) = (v <? 2 ^ a).
Proof.
  intros Hab Hv. assert (Z.land v (Z.shiftl (Z.ones (b - a)) a) = Z.shiftl (Z.shiftr v a) a) as ->.
  { apply Z.bits_inj'. intros i Hi. rewrite Z.land_spec, !Z.shiftl_spec by lia. destruct (Z.lt_ge_cases i a); [rewrite !(Z.testbit_neg_r _ (i - a)) by lia; apply andb_false_r|].
    rewrite Z.shiftr_spec, Z.testbit_ones_nonneg by lia. replace (i - a + a) with i by lia. destruct (Z.ltb_spec (i - a) (b - a)); [apply andb_true_r|].
    rewrite (testbit_high v i b) by lia. done. }
  rewrite Z.shiftl_mul_pow2, Z.shiftr_div_pow2 by lia. pose proof (Z.pow_pos_nonneg 2 a ltac:(lia) ltac:(lia)).
  destruct (Z.ltb_spec v (2 ^ a)); [rewrite Z.div_small by lia; done|]. apply Z.eqb_neq. assert (0 < v / 2 ^ a) by (apply Z.div_str_pos; lia). nia.
Qed.

Lemma tag_byte0 t x n : 0 <= t <= 3 -> 0 <= n < 2 ^ t -> 0 <= x -> u8 (Z.lor (x * 2 ^ t) n) = byte_of (x * 2 ^ t + n) 0.
Proof.
  intros Ht Hn Hx. rewrite Z.lor_comm, <- Z.shiftl_mul_pow2, lor_above by lia. unfold byte_of, u8. rewrite Z.shiftl_mul_pow2, Z.pow_0_r, Z.div_1_r by lia. f_equal. lia.
Qed.

Lemma tag_byte t x n k : 0 <= t <= 3 -> 0 <= n < 2 ^ t -> 0 <= x -> 1 <= k -> u8 (Z.shiftr (x * 2 ^ t) (8 * k)) = byte_of (x * 2 ^ t + n) k.
Proof.
  intros Ht Hn Hx Hk. unfold u8, byte_of. rewrite Z.shiftr_div_pow2 by lia. f_equal. replace (2 ^ (8 * k)) with (256 ^ k) by (change 256 with (2 ^ 8); by rewrite <- Z.pow_mul_r by lia).
  pose proof (Z.pow_pos_nonneg 2 t ltac:(lia) ltac:(lia)) as P. pose proof (Z.pow_pos_nonneg 256 k ltac:(lia) ltac:(lia)) as P2.
  assert (256 ^ k = 2 ^ t * 2 ^ (8 * k - t)) as E. { change 256 with (2 ^ 8). rewrite <- Z.pow_mul_r, <- Z.pow_add_r by lia. f_equal. lia. }
  apply Z.div_unique with ((x * 2 ^ t) mod 256 ^ k + n); [|pose proof (Z.div_mod (x * 2 ^ t) (256 ^ k)); lia].
  left. rewrite E in P2 |- *. set (q := 2 ^ (8 * k - t)) in *. rewrite (Z.mul_comm x), Z.mul_mod_distr_l by nia.
  pose proof (Z.mod_pos_bound x q ltac:(nia)). nia.
Qed.

Lemma st8_mid (k : nat) kz A l B v : kz = Z.of_nat k -> (k < length l)%nat ->
  st8 (A ++ l ++ B) (Z.of_nat (length A)) kz v = Ok (A ++ <[k := u8 v]> l ++ B).
Proof. intros -> Hk. unfold st8. rewrite (wr_mid A l B (Z.of_nat k)) by lia. by rewrite Nat2Z.id. Qed.

(** The bytes of a number that needs [k] more of them. *)
Lemma tag_bytes_are t x (k : nat) : 0 <= t <= 3 -> 0 <= x -> Z.of_nat k < 2 ^ t -> x * 2 ^ t < 2 ^ (8 * (Z.of_nat k + 1)) ->
  (k = 0%nat \/ 2 ^ (8 * Z.of_nat k) <= x * 2 ^ t) -> tag_bytes t x =
  u8 (Z.lor (x * 2 ^ t) (Z.of_nat k)) :: map (fun i => u8 (Z.shiftr (x * 2 ^ t) (8 * i))) (seqZ 1 (Z.of_nat k)).
Proof.
  intros Ht Hx Hk Hv Hl. unfold tag_bytes. assert (tag_more t x = Z.of_nat k) as ->.
  { apply tag_more_is; [lia|split; [nia|done]|]. destruct Hl as [-> |]; [by left|by right]. }
  rewrite seqZ_cons by lia. cbn [map]. rewrite (tag_byte0 t x (Z.of_nat k)) by lia. f_equal. replace (Z.pred (Z.of_nat k + 1)) with (Z.of_nat k) by lia.
  apply map_ext_in. intros i Hi%list_elem_of_In%elem_of_seqZ. rewrite (tag_byte t x (Z.of_nat k)) by lia. done.
Qed.

(** The stores of a branch write the bytes of the encoding, in whatever order. *)
Ltac stores := repeat lazymatch goal with
  | |- context [st8 (_ ++ _) _ 0 _] => rewrite (st8_mid 0) by (done || (cbn; lia)); cbn [rbind insert list_insert]
  | |- context [st8 (_ ++ _) _ 1 _] => rewrite (st8_mid 1) by (done || (cbn; lia)); cbn [rbind insert list_insert]
  | |- context [st8 (_ ++ _) _ 2 _] => rewrite (st8_mid 2) by (done || (cbn; lia)); cbn [rbind insert list_insert]
  | |- context [st8 (_ ++ _) _ 3 _] => rewrite (st8_mid 3) by (done || (cbn; lia)); cbn [rbind insert list_insert]
  | |- context [st8 (_ ++ _) _ 4 _] => rewrite (st8_mid 4) by (done || (cbn; lia)); cbn [rbind insert list_insert]
  | |- context [st8 (_ ++ _) _ 5 _] => rewrite (st8_mid 5) by (done || (cbn; lia)); cbn [rbind insert list_insert]
  | |- context [st8 (_ ++ _) _ 6 _] => rewrite (st8_mid 6) by (done || (cbn; lia)); cbn [rbind insert list_insert]
  | |- context [st8 (_ ++ _) _ 7 _] => rewrite (st8_mid 7) by (done || (cbn; lia)); cbn [rbind insert list_insert]
  end.

(** A test of a writer. *)
Lemma test_mask v a b mask : 0 <= a <= b -> mask = Z.shiftl (Z.ones (b - a)) a -> 0 <= v < 2 ^ b -> (Z.land v mask =? 0) = (v <? 2 ^ a).
Proof. intros Hab -> Hv. by apply test_high. Qed.

Lemma save30_ok debug x A l B : 0 <= x < 2 ^ 30 -> length l = length (tag_bytes 2 x) ->
  gg_save_var_uint30 debug (A ++ l ++ B) (Z.of_nat (length A)) x = Ok (A ++ tag_bytes 2 x ++ B, Z.of_nat (length A) + Z.of_nat (length (tag_bytes 2 x))).
Proof.
  intros Hx Hl. unfold gg_save_var_uint30. assert ((if debug then assert_ (x <? Z.shiftl 1 30) else Ok tt) = Ok tt) as ->.
  { destruct debug; [|done]. change (Z.shiftl 1 30) with (2 ^ 30). by rewrite (proj2 (Z.ltb_lt _ _)) by lia. }
  cbn [rbind]. assert (u32 (Z.shiftl x 2) = x * 2 ^ 2) as -> by (unfold u32; rewrite Z.shiftl_mul_pow2, Z.mod_small by lia; done).
  assert (forall k : nat, (k < 4)%nat -> x * 2 ^ 2 < 2 ^ (8 * (Z.of_nat k + 1)) -> (k = 0%nat \/ 2 ^ (8 * Z.of_nat k) <= x * 2 ^ 2) ->
    tag_bytes 2 x = u8 (Z.lor (x * 2 ^ 2) (Z.of_nat k)) :: map (fun i => u8 (Z.shiftr (x * 2 ^ 2) (8 * i))) (seqZ 1 (Z.of_nat k))) as Are.
  { intros k Hk H1 H2. apply tag_bytes_are; [lia|lia|lia|exact H1|exact H2]. }
  rewrite (test_mask _ 16 32) by (done || lia). destruct (Z.ltb_spec (x * 2 ^ 2) (2 ^ 16)) as [L|L].
  - rewrite (test_mask _ 8 16) by (done || lia). destruct (Z.ltb_spec (x * 2 ^ 2) (2 ^ 8)) as [L2|L2].
    + rewrite (Are 0%nat) in Hl |- * by (try lia; try (by left); cbn; lia). destruct l as [|v0 [|]]; try done. stores. cbn. rewrite Z.lor_0_r. done.
    + rewrite (Are 1%nat) in Hl |- * by (try lia; cbn; lia). destruct l as [|v0 [|v1 [|]]]; try done. stores. done.
  - rewrite (test_mask _ 24 32) by (done || lia). destruct (Z.ltb_spec (x * 2 ^ 2) (2 ^ 24)) as [L2|L2].
    + rewrite (Are 2%nat) in Hl |- * by (try lia; cbn; lia). destruct l as [|v0 [|v1 [|v2 [|]]]]; try done. stores. done.
    + rewrite (Are 3%nat) in Hl |- * by (try lia; cbn; lia). destruct l as [|v0 [|v1 [|v2 [|v3 [|]]]]]; try done. stores. done.
Qed.

Lemma save61_ok (debug : bool) x A l B : 0 <= x < (if debug then 2 ^ 30 else 2 ^ 61) -> length l = length (tag_bytes 3 x) ->
  gg_save_var_uint61 debug (A ++ l ++ B) (Z.of_nat (length A)) x = Ok (A ++ tag_bytes 3 x ++ B, Z.of_nat (length A) + Z.of_nat (length (tag_bytes 3 x))).
Proof.
  intros Hxd Hl. assert (0 <= x < 2 ^ 61) as Hx by (destruct debug; lia). unfold gg_save_var_uint61. assert ((if debug then assert_ (x <? Z.shiftl 1 30) else Ok tt) = Ok tt) as ->.
  { destruct debug; [|done]. change (Z.shiftl 1 30) with (2 ^ 30). by rewrite (proj2 (Z.ltb_lt _ _)) by lia. }
  cbn [rbind]. assert (u64 (Z.shiftl x 3) = x * 2 ^ 3) as -> by (unfold u64; rewrite Z.shiftl_mul_pow2, Z.mod_small by lia; done).
  assert (0 <= x * 2 ^ 3 < 2 ^ 64) as Hv by lia.
  assert (forall k : nat, (k < 8)%nat -> x * 2 ^ 3 < 2 ^ (8 * (Z.of_nat k + 1)) -> (k = 0%nat \/ 2 ^ (8 * Z.of_nat k) <= x * 2 ^ 3) ->
    tag_bytes 3 x = u8 (Z.lor (x * 2 ^ 3) (Z.of_nat k)) :: map (fun i => u8 (Z.shiftr (x * 2 ^ 3) (8 * i))) (seqZ 1 (Z.of_nat k))) as Are.
  { intros k Hk H1 H2. apply tag_bytes_are; [lia|lia|lia|exact H1|exact H2]. }
  rewrite (test_mask _ 32 64) by (done || lia).
  destruct (Z.ltb_spec (x * 2 ^ 3) (2 ^ 32)) as [L|L].
  - rewrite (test_mask _ 16 32) by (done || lia). destruct (Z.ltb_spec (x * 2 ^ 3) (2 ^ 16)) as [L2|L2].
    + rewrite (test_mask _ 8 16) by (done || lia). destruct (Z.ltb_spec (x * 2 ^ 3) (2 ^ 8)) as [L3|L3].
      * rewrite (Are 0%nat) in Hl |- * by (try lia; try (by left); cbn; lia). destruct l as [|v0 [|]]; try done. stores. cbn. rewrite Z.lor_0_r. done.
      * rewrite (Are 1%nat) in Hl |- * by (try lia; cbn; lia). destruct l as [|v0 [|v1 [|]]]; try done. stores. done.
    + rewrite (test_mask _ 24 32) by (done || lia). destruct (Z.ltb_spec (x * 2 ^ 3) (2 ^ 24)) as [L3|L3].
      * rewrite (Are 2%nat) in Hl |- * by (try lia; cbn; lia). destruct l as [|v0 [|v1 [|v2 [|]]]]; try done. stores. done.
      * rewrite (Are 3%nat) in Hl |- * by (try lia; cbn; lia). destruct l as [|v0 [|v1 [|v2 [|v3 [|]]]]]; try done. stores. done.
  - rewrite (test_mask _ 48 64) by (done || lia). destruct (Z.ltb_spec (x * 2 ^ 3) (2 ^ 48)) as [L2|L2].
    + rewrite (test_mask _ 40 48) by (done || lia). destruct (Z.ltb_spec (x * 2 ^ 3) (2 ^ 40)) as [L3|L3].
      * rewrite (Are 4%nat) in Hl |- * by (try lia; cbn; lia). destruct l as [|v0 [|v1 [|v2 [|v3 [|v4 [|]]]]]]; try done. stores. done.
      * rewrite (Are 5%nat) in Hl |- * by (try lia; cbn; lia). destruct l as [|v0 [|v1 [|v2 [|v3 [|v4 [|v5 [|]]]]]]]; try done. stores. done.
    + rewrite (test_mask _ 56 64) by (done || lia). destruct (Z.ltb_spec (x * 2 ^ 3) (2 ^ 56)) as [L3|L3].
      * rewrite (Are 6%nat) in Hl |- * by (try lia; cbn; lia). destruct l as [|v0 [|v1 [|v2 [|v3 [|v4 [|v5 [|v6 [|]]]]]]]]; try done. stores. done.
      * rewrite (Are 7%nat) in Hl |- * by (try lia; cbn; lia). destruct l as [|v0 [|v1 [|v2 [|v3 [|v4 [|v5 [|v6 [|v7 [|]]]]]]]]]; try done. stores. done.
Qed.

(** ** The reader of single bytes, for lengths of up to two bytes *)

Lemma tag_more_small t x : 0 <= x -> x * 2 ^ t < 2 ^ 16 -> 0 <= tag_more t x <= 1.
Proof.
  intros Hx Hv. split; [apply tag_more_nonneg|]. unfold tag_more. assert (Z.log2 (x * 2 ^ t) < 16); [|assert (Z.log2 (x * 2 ^ t) / 8 < 2); [apply Z.div_lt_upper_bound; lia|lia]].
  destruct (Z.le_gt_cases (x * 2 ^ t) 0); [rewrite Z.log2_nonpos by lia; lia|]. apply Z.log2_lt_pow2; lia.
Qed.

(** The two bytes put together. *)
Lemma two_bytes t x n w : 0 < t <= 3 -> 0 <= x -> 0 <= n < 2 ^ t -> x * 2 ^ t + n < 2 ^ 16 -> 16 <= w ->
  Z.shiftr (Z.lor (byte_of (x * 2 ^ t + n) 0) (uw w (Z.shiftl (byte_of (x * 2 ^ t + n) 1) 8))) t = x /\ Z.land (byte_of (x * 2 ^ t + n) 0) (Z.ones t) = n.
Proof.
  intros Ht Hx Hn Hv Hw. set (v := x * 2 ^ t + n) in *. pose proof (Z.pow_pos_nonneg 2 t ltac:(lia) ltac:(lia)) as P. assert (0 <= v) by (unfold v; nia).
  unfold byte_of. rewrite Z.pow_0_r, Z.div_1_r, Z.pow_1_r. pose proof (Z.div_mod v 256). pose proof (Z.mod_pos_bound v 256).
  assert (0 <= v / 256 < 256) by (split; [apply Z.div_pos; lia|apply Z.div_lt_upper_bound; lia]). rewrite (Z.mod_small (v / 256)) by lia. split.
  - unfold uw. pose proof (Z.pow_le_mono_r 2 16 w ltac:(lia) Hw). rewrite (Z.mod_small _ (2 ^ w)) by (rewrite Z.shiftl_mul_pow2 by lia; nia).
    rewrite lor_above by lia. change (2 ^ 8) with 256. replace (v mod 256 + v / 256 * 256) with v by lia. rewrite Z.shiftr_div_pow2 by lia. symmetry. apply Z.div_unique with n; unfold v; lia.
  - rewrite Z.land_ones by lia. assert (256 = 2 ^ t * 2 ^ (8 - t)) as E by (change 256 with (2 ^ 8); rewrite <- Z.pow_add_r by lia; f_equal; lia).
    pose proof (Z.pow_pos_nonneg 2 (8 - t) ltac:(lia) ltac:(lia)). symmetry. apply Z.mod_unique with (x - v / 256 * 2 ^ (8 - t)); [lia|]. unfold v in *. nia.
Qed.

Section slow_tag.
Context {St : Type} (readByte : St -> res (Z * St)).

Lemma tag_cases t x s s' : 0 < t <= 3 -> 0 <= x -> x * 2 ^ t < 2 ^ 16 -> reads readByte s (tag_bytes t x) s' ->
  exists n, (n = 0 \/ n = 1) /\ tag_more t x = n /\ x * 2 ^ t + n < 2 ^ 16 /\ (n = 0 -> byte_of (x * 2 ^ t + n) 1 = 0) /\
  exists s1, readByte s = Ok (byte_of (x * 2 ^ t + n) 0, s1) /\ (n = 0 -> s1 = s') /\ (n = 1 -> readByte s1 = Ok (byte_of (x * 2 ^ t + n) 1, s')).
Proof.
  intros Ht Hx Hv Hr. pose proof (tag_more_small t x Hx Hv) as Hn. pose proof (Z.pow_pos_nonneg 2 t ltac:(lia) ltac:(lia)) as P.
  assert (2 ^ 16 = 2 ^ t * 2 ^ (16 - t)) as E by (rewrite <- Z.pow_add_r by lia; f_equal; lia).
  assert (1 < 2 ^ t) by (apply Z.pow_gt_1; lia).
  assert (x * 2 ^ t + tag_more t x < 2 ^ 16) by (rewrite E in *; nia).
  exists (tag_more t x). split; [lia|]. split; [done|]. split; [done|]. split.
  - intros E0. apply (byte_of_high _ 1); [|lia]. rewrite E0, Z.add_0_r. split; [nia|].
    assert (x * 2 ^ t < 2 ^ (8 * 2 ^ t)) as Hv2 by (eapply Z.lt_le_trans; [exact Hv|]; apply Z.pow_le_mono_r; lia).
    destruct (tag_value_range t x ltac:(lia) Hx Hv2) as [_ R]. rewrite E0, Z.add_0_r in R. exact R.
  - unfold tag_bytes in Hr. destruct (Z.eq_dec (tag_more t x) 0) as [E0|E0].
    + rewrite E0 in Hr |- *. change (seqZ 0 (0 + 1)) with [0] in Hr. cbn [map reads] in Hr. destruct Hr as (s1 & -> & <-). by exists s1.
    + assert (tag_more t x = 1) as E1 by lia. rewrite E1 in Hr |- *. change (seqZ 0 (1 + 1)) with [0; 1] in Hr. cbn [map reads] in Hr. destruct Hr as (s1 & -> & s2 & E2 & <-). exists s1. split; [done|]. split; [lia|done].
Qed.

Lemma slow30_ok s s' x : 0 <= x < 2 ^ 14 -> reads readByte s (tag_bytes 2 x) s' -> gg_load_var_uint30_slow readByte s = Ok (x, s').
Proof.
  intros Hx Hr. destruct (tag_cases 2 x s s' ltac:(lia) ltac:(lia) ltac:(lia) Hr) as (n & Hn & _ & Hv & H0 & s1 & E1 & E2 & E3).
  destruct (two_bytes 2 x n 32 ltac:(lia) ltac:(lia) ltac:(cbn; lia) Hv ltac:(lia)) as [T1 T2]. change (Z.ones 2) with 3 in T2.
  unfold gg_load_var_uint30_slow. rewrite E1. cbn [rbind]. rewrite T2. destruct Hn as [-> | ->].
  - change (Z.to_nat 0) with 0%nat. cbn [read_more rbind]. cbv zeta. rewrite (H0 eq_refl) in T1. rewrite T1, (E2 eq_refl). done.
  - change (Z.to_nat 1) with 1%nat. cbn [read_more]. rewrite (E3 eq_refl). cbn [rbind]. cbv zeta. change (uw 32 (Z.shiftl 0 8)) with 0. rewrite Z.lor_0_l, T1. done.
Qed.

Lemma slow61_ok s s' x : 0 <= x < 2 ^ 13 -> reads readByte s (tag_bytes 3 x) s' -> gg_load_var_uint61_slow readByte s = Ok (x, s').
Proof.
  intros Hx Hr. destruct (tag_cases 3 x s s' ltac:(lia) ltac:(lia) ltac:(lia) Hr) as (n & Hn & _ & Hv & H0 & s1 & E1 & E2 & E3).
  destruct (two_bytes 3 x n 64 ltac:(lia) ltac:(lia) ltac:(cbn; lia) Hv ltac:(lia)) as [T1 T2]. change (Z.ones 3) with 7 in T2.
  unfold gg_load_var_uint61_slow. rewrite E1. cbn [rbind]. rewrite T2. destruct Hn as [-> | ->].
  - change (Z.to_nat 0) with 0%nat. cbn [read_more rbind]. cbv zeta. rewrite (H0 eq_refl) in T1. rewrite T1, (E2 eq_refl). done.
  - change (Z.to_nat 1) with 1%nat. cbn [read_more]. rewrite (E3 eq_refl). cbn [rbind]. cbv zeta. change (uw 64 (Z.shiftl 0 8)) with 0. rewrite Z.lor_0_l, T1. done.
Qed.
End slow_tag.

(** ** Signed integers *)

Lemma s2u_u2s w x : 1 < w -> - 2 ^ (w - 1) <= x < 2 ^ (w - 1) -> 0 <= var_int_s2u w x < 2 ^ w /\ var_int_u2s w (var_int_s2u w x) = x.
Proof.
  intros Hw Hx. assert (2 ^ w = 2 * 2 ^ (w - 1)) as E by (rewrite <- Z.pow_succ_r by lia; f_equal; lia). set (h := 2 ^ (w - 1)) in *.
  assert (2 <= h) as Hh by (unfold h; change 2 with (2 ^ 1) at 1; apply Z.pow_le_mono_r; lia).
  assert (forall y, 0 <= y < h -> sw w y = y) as Hsw. { intros y Hy. unfold sw. fold h. rewrite Z.mod_small by lia. lia. }
  assert (forall y b, 0 <= y < h -> 0 <= b <= 1 -> Z.land (2 * y + b) 1 = b /\ Z.shiftr (2 * y + b) 1 = y) as Hb.
  { intros y b Hy Hbb. change 1 with (Z.ones 1) at 1. rewrite Z.land_ones, Z.shiftr_div_pow2 by lia. change (2 ^ 1) with 2. split; symmetry; [apply Z.mod_unique with y; lia|apply Z.div_unique with b; lia]. }
  unfold var_int_s2u, var_int_u2s. fold h. destruct (Z.ltb_spec x 0) as [L|L].
  - destruct (Z.eqb_spec x (- h)) as [->|Ne]; [split; [lia|]; done|]. unfold uw. assert (Z.lor (Z.shiftl (- x) 1) 1 = 2 * (- x) + 1) as ->.
    { rewrite Z.lor_comm, lor_above by lia. lia. }
    rewrite Z.mod_small by lia. split; [lia|]. destruct (Hb (- x) 1) as [-> ->]; [lia..|]. cbn [negb Z.eqb]. rewrite (proj2 (Z.eqb_neq _ _)) by lia. rewrite Hsw by lia. lia.
  - unfold uw. rewrite Z.shiftl_mul_pow2, Z.mod_small by lia. split; [lia|]. destruct (Hb x 0) as [E1 E2]; [lia..|]. replace (x * 2 ^ 1) with (2 * x + 0) by lia.
    rewrite E1, E2. cbn. by rewrite Hsw by lia.
Qed.

Lemma u2s_s2u w u : 1 < w -> 0 <= u < 2 ^ w -> - 2 ^ (w - 1) <= var_int_u2s w u < 2 ^ (w - 1) /\ var_int_s2u w (var_int_u2s w u) = u.
Proof.
  intros Hw Hu. assert (2 ^ w = 2 * 2 ^ (w - 1)) as E by (rewrite <- Z.pow_succ_r by lia; f_equal; lia). set (h := 2 ^ (w - 1)) in *.
  assert (2 <= h) as Hh by (unfold h; change 2 with (2 ^ 1) at 1; apply Z.pow_le_mono_r; lia).
  assert (forall y, 0 <= y < h -> sw w y = y) as Hsw. { intros y Hy. unfold sw. fold h. rewrite Z.mod_small by lia. lia. }
  unfold var_int_u2s, var_int_s2u. fold h. assert (Z.land u 1 = u mod 2) as -> by (change 1 with (Z.ones 1); by rewrite Z.land_ones by lia).
  assert (Z.shiftr u 1 = u / 2) as -> by (by rewrite Z.shiftr_div_pow2 by lia).
  pose proof (Z.div_mod u 2). pose proof (Z.mod_pos_bound u 2). assert (0 <= u / 2 < h) by (split; [apply Z.div_pos; lia|apply Z.div_lt_upper_bound; lia]).
  destruct (Z.eqb_spec (u mod 2) 0) as [E0|E0]; cbn [negb].
  - rewrite Hsw by lia. split; [lia|]. rewrite (proj2 (Z.ltb_ge _ _)) by lia. unfold uw. rewrite Z.shiftl_mul_pow2, Z.mod_small by lia. lia.
  - destruct (Z.eqb_spec (u / 2) 0) as [E1|E1].
    + split; [lia|]. rewrite (proj2 (Z.ltb_lt _ _)), Z.eqb_refl by lia. lia.
    + rewrite Hsw by lia. split; [lia|]. rewrite (proj2 (Z.ltb_lt _ _)), (proj2 (Z.eqb_neq _ _)) by lia. unfold uw. rewrite Z.lor_comm, lor_above by lia. rewrite Z.mod_small by lia. lia.
Qed.

(** ** Reading backwards *)

Definition val (ds : list Z) : Z := fold_right (fun d v => d + 128 * v) 0 ds.
Definition digits (ds : list Z) : Prop := Forall (fun d => 0 <= d < 128) ds.

Lemma val_range ds : digits ds -> 0 <= val ds < 128 ^ Z.of_nat (length ds).
Proof. induction 1 as [|d ds Hd _ IH]; [done|]. cbn [val fold_right length]. fold (val ds). rewrite Nat2Z.inj_succ, Z.pow_succ_r by lia. lia. Qed.

Lemma val_app ds es : val (ds ++ es) = val ds + 128 ^ Z.of_nat (length ds) * val es.
Proof.
  induction ds as [|d ds IH]; [change (val []) with 0; change (128 ^ Z.of_nat (length [])) with 1; cbn [app]; lia|]. cbn [app val fold_right length]. fold (val (ds ++ es)) (val ds). rewrite IH, Nat2Z.inj_succ, Z.pow_succ_r by lia. ring.
Qed.

Definition mark (d : Z) : Z := d + 128.

(** An encoding is marked digits and a last one. *)
Lemma leb_digits k x : 0 <= x < 128 ^ Z.of_nat (S k) -> exists ds d, leb k x = map mark ds ++ [d] /\ digits ds /\ 0 <= d < 128 /\ x = val ds + d * 128 ^ Z.of_nat (length ds).
Proof.
  revert x. induction k as [|k IH]; intros x Hx; cbn [leb].
  - exists [], x. change (128 ^ Z.of_nat 1) with 128 in Hx. split; [done|]. split; [constructor|]. split; [done|]. change (val []) with 0. change (128 ^ Z.of_nat (length [])) with 1. lia.
  - rewrite Nat2Z.inj_succ, Z.pow_succ_r in Hx by lia. pose proof (Z.div_mod x 128). pose proof (Z.mod_pos_bound x 128).
    assert (0 <= x / 128 < 128 ^ Z.of_nat (S k)) as Hd by (split; [apply Z.div_pos; lia|apply Z.div_lt_upper_bound; lia]).
    destruct (Z.eqb_spec (x / 128) 0) as [E|E].
    + exists [], x. split; [done|]. split; [constructor|]. split; [lia|]. change (val []) with 0. change (128 ^ Z.of_nat (length [])) with 1. lia.
    + destruct (IH (x / 128) Hd) as (ds & d & -> & D & Hdd & Ex). exists (x mod 128 :: ds), d. split; [done|]. split; [constructor; [lia|done]|]. split; [done|].
      cbn [val fold_right length]. fold (val ds). rewrite Nat2Z.inj_succ, Z.pow_succ_r by lia. lia.
Qed.

(** The loop of a backward reader over marked digits. *)
Lemma rev_loop {R} w (body : Z * Z * Z -> res (Z * Z * Z + R)) P ds fuel (r : R) acc sh :
  digits ds -> 0 <= acc < 2 ^ sh -> 0 <= sh -> sh + 7 * Z.of_nat (length ds) <= w ->
  (forall x shift k d, ds !! k = Some d -> shift = sh + 7 * (Z.of_nat (length ds) - 1 - Z.of_nat k) ->
     body (x, shift, P + Z.of_nat k) = Ok (inl (Z.lor (uw w (Z.shiftl x 7)) (Z.land (mark d) 127), shift + 7, P + Z.of_nat k - 1))) ->
  body (val ds + acc * 128 ^ Z.of_nat (length ds), sh + 7 * Z.of_nat (length ds), P - 1) = Ok (inr r) ->
  (length ds < fuel)%nat ->
  loop fuel body (acc, sh, P + Z.of_nat (length ds) - 1) = Ok r.
Proof.
  revert fuel acc sh. induction ds as [|d ds IH] using rev_ind; intros fuel acc sh Hd Ha Hs Hw Hstep Hend Hf; (destruct fuel as [|fuel]; [lia|]); cbn [loop].
  - cbn [length val fold_right] in Hend |- *. change (Z.of_nat 0) with 0 in Hend |- *. replace (0 + acc * 128 ^ 0) with acc in Hend by lia.
    replace (sh + 7 * 0) with sh in Hend by lia. rewrite Z.add_0_r. by rewrite Hend.
  - rewrite length_app in *. cbn [length] in *. apply List.Forall_app in Hd as [Hd Hd1]. inversion Hd1 as [|? ? Hd2 _]; subst.
    replace (P + Z.of_nat (length ds + 1) - 1) with (P + Z.of_nat (length ds)) by lia.
    rewrite (Hstep acc sh (length ds) d) by (try lia; by apply list_lookup_middle). cbn [rbind].
    assert (Z.land (mark d) 127 = d) as ->. { unfold mark. rewrite land_127. symmetry. apply Z.mod_unique with 1; lia. }
    assert (2 ^ (sh + 7) = 2 ^ sh * 128) as E7 by (rewrite Z.pow_add_r by lia; done).
    assert (uw w (Z.shiftl acc 7) = acc * 128) as ->.
    { unfold uw. rewrite Z.shiftl_mul_pow2 by lia. change (2 ^ 7) with 128. apply Z.mod_small. assert (2 ^ (sh + 7) <= 2 ^ w) by (apply Z.pow_le_mono_r; lia). lia. }
    assert (Z.lor (acc * 128) d = d + acc * 128) as ->. { rewrite Z.lor_comm. pose proof (lor_above d acc 7 ltac:(lia) ltac:(lia)) as L. rewrite Z.shiftl_mul_pow2 in L by lia. exact L. }
    apply IH; [done|lia|lia|lia| | |lia].
    + intros x shift k e Hk Hsh. apply Hstep; [by apply lookup_app_l_Some|lia].
    + rewrite val_app in Hend. cbn [val fold_right] in Hend. fold (val ds) in Hend. rewrite Nat2Z.inj_add in Hend. change (Z.of_nat 1) with 1 in Hend.
      rewrite Z.pow_add_r, Z.pow_1_r in Hend by lia.
      replace (val ds + (d + acc * 128) * 128 ^ Z.of_nat (length ds)) with (val ds + 128 ^ Z.of_nat (length ds) * (d + 128 * 0) + acc * (128 ^ Z.of_nat (length ds) * 128)) by ring.
      replace (sh + 7 + 7 * Z.of_nat (length ds)) with (sh + 7 * (Z.of_nat (length ds) + 1)) by lia. exact Hend.
Qed.

(** What is before the integer ends another one, or is outside the buffer. *)
Definition starts (A : list Z) (buf : Z) : Prop := buf = Z.of_nat (length A) \/ (0 <= buf < Z.of_nat (length A) /\ exists A' b, A = A' ++ [b] /\ 0 <= b < 128).

Lemma rd_before (A B : list Z) b A' : A = A' ++ [b] -> rd (A ++ B) (Z.of_nat (length A) - 1) = Ok b.
Proof. intros ->. rewrite <- app_assoc. apply (rd_mid A' [b] B 0 b); [rewrite length_app; cbn; lia|done|done]. Qed.

Lemma land_mark d : 0 <= d < 128 -> negb (Z.land (mark d) 128 =? 0) = true.
Proof. intros Hd. unfold mark. rewrite land_128 by lia. by rewrite (proj2 (Z.ltb_ge _ _)) by lia. Qed.

Lemma rd_mark (A : list Z) ds d B k e : ds !! k = Some e -> rd (A ++ (map mark ds ++ [d]) ++ B) (Z.of_nat (length A) + Z.of_nat k) = Ok (mark e).
Proof.
  intros Hk. apply (rd_mid A (map mark ds ++ [d]) B (Z.of_nat k)); [done|lia|]. rewrite Nat2Z.id. apply lookup_app_l_Some. by rewrite list_lookup_fmap, Hk.
Qed.

Lemma reverse32_ok (A B : list Z) buf ds d : digits ds -> 0 <= d < 128 -> (length ds <= 4)%nat -> d * 128 ^ Z.of_nat (length ds) < 2 ^ 32 -> starts A buf ->
  reverse_get_var_uint32 (A ++ (map mark ds ++ [d]) ++ B) buf (Z.of_nat (length A) + Z.of_nat (length ds)) = Ok (val ds + d * 128 ^ Z.of_nat (length ds), Z.of_nat (length A) - 1).
Proof.
  intros Hds Hd Hl Hfit Hst. unfold reverse_get_var_uint32. assert (buf <= Z.of_nat (length A)) as Hbuf by (destruct Hst as [->|[? _]]; lia).
  rewrite (proj2 (Z.leb_le _ _)) by lia. cbn [assert_ rbind].
  assert (rd (A ++ (map mark ds ++ [d]) ++ B) (Z.of_nat (length A) + Z.of_nat (length ds)) = Ok d) as ->.
  { apply (rd_mid A (map mark ds ++ [d]) B (Z.of_nat (length ds))); [done|lia|]. rewrite Nat2Z.id. apply list_lookup_middle. by rewrite length_map. }
  cbn [rbind]. pose proof (val_range ds Hds) as Hv. rewrite pow128 in Hv, Hfit |- *.
  apply (rev_loop 32 _ (Z.of_nat (length A)) ds); [done|lia|lia|lia| | |lia].
  - intros x shift k e Hk _. pose proof (proj1 (Forall_lookup _ _) Hds k e Hk) as He. cbn in He. rewrite (proj2 (Z.leb_le _ _)) by lia.
    rewrite (rd_mark A ds d B k e Hk). cbn [rbind]. rewrite land_mark by done. done.
  - rewrite Z.mul_0_l, Z.add_0_r, Z.add_0_l. rewrite (proj2 (Z.ltb_lt _ 32)) by lia. cbn [assert_ rbind].
    assert (Z.lor (val ds) (u32 (Z.shiftl d (7 * Z.of_nat (length ds)))) = val ds + d * 2 ^ (7 * Z.of_nat (length ds))) as E.
    { unfold u32. rewrite Z.mod_small by (rewrite Z.shiftl_mul_pow2 by lia; nia). apply lor_above; lia. }
    rewrite E. destruct Hst as [->|(Hb & A' & b & EA & Hb2)]; [by rewrite (proj2 (Z.leb_gt _ _)) by lia|].
    rewrite (proj2 (Z.leb_le _ _)) by lia. rewrite (rd_before A _ b A' EA). cbn [rbind]. rewrite land_128, (proj2 (Z.ltb_lt _ _)) by lia. done.
Qed.

(** The 64-bit reader stops after eight marked bytes. *)
Lemma reverse64_ok (A B : list Z) buf ds d : digits ds -> 0 <= d < 128 -> (length ds <= 8)%nat -> d * 128 ^ Z.of_nat (length ds) < 2 ^ 64 -> 
  (starts A buf \/ (buf <= Z.of_nat (length A) /\ length ds = 8%nat)) ->
  reverse_get_var_uint64 (A ++ (map mark ds ++ [d]) ++ B) buf (Z.of_nat (length A) + Z.of_nat (length ds)) = Ok (val ds + d * 128 ^ Z.of_nat (length ds), Z.of_nat (length A) - 1).
Proof.
  intros Hds Hd Hl Hfit Hst. unfold reverse_get_var_uint64. assert (buf <= Z.of_nat (length A)) as Hbuf by (destruct Hst as [[->|[? _]]|[? _]]; lia).
  rewrite (proj2 (Z.leb_le _ _)) by lia. cbn [assert_ rbind].
  assert (rd (A ++ (map mark ds ++ [d]) ++ B) (Z.of_nat (length A) + Z.of_nat (length ds)) = Ok d) as ->.
  { apply (rd_mid A (map mark ds ++ [d]) B (Z.of_nat (length ds))); [done|lia|]. rewrite Nat2Z.id. apply list_lookup_middle. by rewrite length_map. }
  cbn [rbind]. pose proof (val_range ds Hds) as Hv. rewrite pow128 in Hv, Hfit |- *.
  apply (rev_loop 64 _ (Z.of_nat (length A)) ds); [done|lia|lia|lia| | |lia].
  - intros x shift k e Hk Hsh. pose proof (proj1 (Forall_lookup _ _) Hds k e Hk) as He. cbn in He. pose proof (lookup_lt_Some _ _ _ Hk).
    rewrite (proj2 (Z.leb_le _ _)), (proj2 (Z.ltb_lt _ _)) by lia. cbn [andb]. rewrite (rd_mark A ds d B k e Hk). cbn [rbind]. rewrite land_mark by done. done.
  - rewrite Z.mul_0_l, Z.add_0_r, Z.add_0_l. rewrite (proj2 (Z.leb_le _ 56)) by lia. cbn [assert_ rbind].
    assert (Z.lor (val ds) (u64 (Z.shiftl d (7 * Z.of_nat (length ds)))) = val ds + d * 2 ^ (7 * Z.of_nat (length ds))) as E.
    { unfold u64. rewrite Z.mod_small by (rewrite Z.shiftl_mul_pow2 by lia; nia). apply lor_above; lia. }
    rewrite E. destruct Hst as [[->|(Hb & A' & b & EA & Hb2)]|[_ E8]].
    + by rewrite (proj2 (Z.leb_gt _ _)) by lia.
    + destruct (Z.ltb_spec (7 * Z.of_nat (length ds)) 56); [|by rewrite andb_false_r]. rewrite (proj2 (Z.leb_le _ _)) by lia. cbn [andb].
      rewrite (rd_before A _ b A' EA). cbn [rbind]. rewrite land_128, (proj2 (Z.ltb_lt _ _)) by lia. done.
    + rewrite E8. by rewrite andb_false_r.
Qed.

(** ** The theorems *)

(** The number of bytes of an encoding. *)
Definition uint_size (x : Z) : Z := Z.log2 x / 7 + 1.
Definition tag_size (t x : Z) : Z := Z.log2 (x * 2 ^ t) / 8 + 1.

Lemma nat_length {A B} (l : list A) (m : list B) : Z.of_nat (length l) = Z.of_nat (length m) -> length l = length m.
Proof. lia. Qed.

Lemma tag_size_le t x n : 0 <= x -> 0 <= n -> x * 2 ^ t < 2 ^ (8 * n) -> 0 < n -> tag_size t x <= n.
Proof.
  intros Hx Hn Hv Hp. unfold tag_size. assert (Z.log2 (x * 2 ^ t) / 8 < n); [|lia]. apply Z.div_lt_upper_bound; [lia|].
  destruct (Z.le_gt_cases (x * 2 ^ t) 0); [rewrite Z.log2_nonpos by lia; lia|]. apply Z.log2_lt_pow2; lia.
Qed.

(** How much the writers write: the bytes from [p] on, seven bits of the number to
    a byte (at most 5 bytes for 32 bits and 10 for 64), or the number with its two
    or three bits of length in whole bytes (at most 4 and 8), and no byte outside.
    More than 5 or 10 marked bytes are no number: the readers throw. *)
Theorem var_int_sizes (A l B : list Z) x :
  (forall w, int_width w -> 0 <= x < 2 ^ w -> Z.of_nat (length l) = uint_size x ->
     uint_size x <= (if w =? 32 then 5 else 10) /\ exists bs, bytes bs /\ length bs = length l /\
     gg_save_var_uint (A ++ l ++ B) (Z.of_nat (length A)) x = Ok (A ++ bs ++ B, Z.of_nat (length A) + uint_size x)) /\
  (0 <= x < 2 ^ 30 -> Z.of_nat (length l) = tag_size 2 x -> tag_size 2 x <= 4 /\ exists bs, bytes bs /\ length bs = length l /\
     gg_save_var_uint30 true (A ++ l ++ B) (Z.of_nat (length A)) x = Ok (A ++ bs ++ B, Z.of_nat (length A) + tag_size 2 x)) /\
  (0 <= x < 2 ^ 61 -> Z.of_nat (length l) = tag_size 3 x -> tag_size 3 x <= 8 /\ exists bs, bytes bs /\ length bs = length l /\
     gg_save_var_uint61 false (A ++ l ++ B) (Z.of_nat (length A)) x = Ok (A ++ bs ++ B, Z.of_nat (length A) + tag_size 3 x)) /\
  (forall w, int_width w -> Forall (fun b => 128 <= b < 256) l -> Z.of_nat (length l) = (if w =? 32 then 5 else 10) ->
     gg_load_var_uint w (A ++ l ++ B) (Z.of_nat (length A)) = Throw runtime_error).
Proof.
  split; [|split; [|split]].
  - intros w Hw Hx Hl. pose proof (var_bytes_length w x Hw Hx) as Hb. split.
    + unfold uint_size. assert (Z.log2 x / 7 < (if w =? 32 then 5 else 10)); [|lia]. apply Z.div_lt_upper_bound; [lia|].
      destruct (Z.le_gt_cases x 0); [rewrite Z.log2_nonpos by lia; by destruct Hw as [-> | ->]|]. assert (Z.log2 x < w) by (apply Z.log2_lt_pow2; lia). destruct Hw as [-> | ->]; cbn; lia.
    + exists (var_bytes w x). unfold uint_size in *. split; [by apply leb_bytes, fits|]. split; [lia|]. rewrite (save_uint_ok w) by (done || lia). by rewrite Hb.
  - intros Hx Hl. pose proof (tag_length 2 x) as Hb. unfold tag_more in Hb. split; [apply tag_size_le; lia|]. exists (tag_bytes 2 x). split; [apply tag_bytes_ok|]. unfold tag_size in *.
    split; [lia|]. rewrite save30_ok by lia. by rewrite Hb.
  - intros Hx Hl. pose proof (tag_length 3 x) as Hb. unfold tag_more in Hb. split; [apply tag_size_le; lia|]. exists (tag_bytes 3 x). split; [apply tag_bytes_ok|]. unfold tag_size in *.
    split; [lia|]. rewrite (save61_ok false) by lia. by rewrite Hb.
  - intros w Hw Hm Hl. rewrite load_is_slow. apply (load_too_long w _ l _ (Z.of_nat (length A) + Z.of_nat (length l))); [done|done|destruct Hw as [-> | ->]; cbn in *; lia|].
    apply mem_reads; [|done]. eapply List.Forall_impl; [|exact Hm]. cbn. intros. lia.
Qed.

(** A number that has been written over [l] is read back. *)
Definition read_back (save : list Z -> Z -> Z -> res (list Z * Z)) (load : list Z -> Z -> res (Z * Z)) (A l B : list Z) (x : Z) : Prop :=
  exists mem, save (A ++ l ++ B) (Z.of_nat (length A)) x = Ok (mem, Z.of_nat (length A) + Z.of_nat (length l)) /\
    load mem (Z.of_nat (length A)) = Ok (x, Z.of_nat (length A) + Z.of_nat (length l)).

Lemma uint_read_back w A l B x : int_width w -> 0 <= x < 2 ^ w -> Z.of_nat (length l) = uint_size x ->
  exists mem, gg_save_var_uint (A ++ l ++ B) (Z.of_nat (length A)) x = Ok (mem, Z.of_nat (length A) + Z.of_nat (length l)) /\
    gg_load_var_uint w mem (Z.of_nat (length A)) = Ok (x, Z.of_nat (length A) + Z.of_nat (length l)).
Proof.
  intros Hw Hx Hl. pose proof (var_bytes_length w x Hw Hx) as Hb. unfold uint_size in Hl. assert (length l = length (var_bytes w x)) as El by lia.
  exists (A ++ var_bytes w x ++ B). rewrite (save_uint_ok w), El by done. split; [done|]. by apply load_uint_ok.
Qed.

Lemma tag30_read_back debug A l B x : bytes B -> 0 <= x < 2 ^ 30 -> Z.of_nat (length l) = tag_size 2 x -> 4 <= Z.of_nat (length l + length B) ->
  read_back (gg_save_var_uint30 debug) gg_load_var_uint30 A l B x.
Proof.
  intros HB Hx Hl Hr. pose proof (tag_length 2 x) as Hb. unfold tag_size, tag_more in *. assert (length l = length (tag_bytes 2 x)) as El by lia.
  exists (A ++ tag_bytes 2 x ++ B). rewrite save30_ok, El by done. split; [done|]. apply load30_ok; [done|done|]. rewrite length_app. lia.
Qed.

Lemma tag61_read_back (debug : bool) A l B x : bytes B -> 0 <= x < (if debug then 2 ^ 30 else 2 ^ 61) -> Z.of_nat (length l) = tag_size 3 x -> 8 <= Z.of_nat (length l + length B) ->
  read_back (gg_save_var_uint61 debug) gg_load_var_uint61 A l B x.
Proof.
  intros HB Hx Hl Hr. assert (0 <= x < 2 ^ 61) as Hx61 by (destruct debug; lia). pose proof (tag_length 3 x) as Hb. unfold tag_size, tag_more in *. assert (length l = length (tag_bytes 3 x)) as El by lia.
  exists (A ++ tag_bytes 3 x ++ B). rewrite save61_ok, El by done. split; [done|]. apply load61_ok; [done|done|]. rewrite length_app. lia.
Qed.

(** Going through the unsigned number. *)
Lemma signed_read_back w save load A l B x : 1 < w -> - 2 ^ (w - 1) <= x < 2 ^ (w - 1) -> read_back save load A l B (var_int_s2u w x) ->
  read_back (fun m p x => save m p (var_int_s2u w x)) (fun m p => let* (u, e) := load m p in Ok (var_int_u2s w u, e)) A l B x.
Proof.
  intros Hw Hx (mem & Es & El). exists mem. split; [done|]. rewrite El. cbn [rbind]. by rewrite (proj2 (s2u_u2s w x Hw Hx)).
Qed.

(** Small numbers of either sign are small unsigned numbers. *)
Lemma s2u_small w x k : 1 < k < w -> - 2 ^ (k - 1) < x < 2 ^ (k - 1) -> - 2 ^ (w - 1) <= x < 2 ^ (w - 1) /\ 0 <= var_int_s2u w x < 2 ^ k.
Proof.
  intros Hk Hx. assert (2 ^ (k - 1) <= 2 ^ (w - 1)) by (apply Z.pow_le_mono_r; lia). assert (2 ^ k = 2 * 2 ^ (k - 1)) as E by (rewrite <- Z.pow_succ_r by lia; f_equal; lia).
  assert (2 ^ k <= 2 ^ w) by (apply Z.pow_le_mono_r; lia). split; [lia|]. unfold var_int_s2u, uw. destruct (Z.ltb_spec x 0).
  - rewrite (proj2 (Z.eqb_neq _ _)) by lia. rewrite Z.lor_comm, lor_above, Z.mod_small by lia. lia.
  - rewrite Z.shiftl_mul_pow2, Z.mod_small by lia. lia.
Qed.

(** C35: Round trips: what the eight writers write, the readers with the same name read
    back, and stop where the writer stopped.  In the format of seven bits a byte: all
    integers of 32 and 64 bits.  In the format whose first byte tells the length,
    provided that from the first byte on four bytes (of 61-bit integers eight) can be
    read, since the readers fetch so many at once: unsigned integers below [2 ^ 30] and
    [2 ^ 61], signed ones between [- 2 ^ 29] and [2 ^ 29] and between [- 2 ^ 60] and
    [2 ^ 60].  With assertions on ([debug]) the writers of 61 bits take only numbers
    below [2 ^ 30], and between [- 2 ^ 29] and [2 ^ 29]: they assert [x < 1 << 30].
    The map of signed to unsigned integers is one to one, the least integer included. *)
Theorem var_int_roundtrip (debug : bool) (A l B : list Z) x : bytes B ->
  (0 <= x < 2 ^ 32 -> Z.of_nat (length l) = uint_size x -> read_back save_var_uint32 load_var_uint32 A l B x) /\
  (0 <= x < 2 ^ 64 -> Z.of_nat (length l) = uint_size x -> read_back save_var_uint64 load_var_uint64 A l B x) /\
  (- 2 ^ 31 <= x < 2 ^ 31 -> Z.of_nat (length l) = uint_size (var_int_s2u 32 x) -> read_back save_var_int32 load_var_int32 A l B x) /\
  (- 2 ^ 63 <= x < 2 ^ 63 -> Z.of_nat (length l) = uint_size (var_int_s2u 64 x) -> read_back save_var_int64 load_var_int64 A l B x) /\
  (0 <= x < 2 ^ 30 -> Z.of_nat (length l) = tag_size 2 x -> 4 <= Z.of_nat (length l + length B) -> read_back (gg_save_var_uint30 debug) gg_load_var_uint30 A l B x) /\
  (0 <= x < (if debug then 2 ^ 30 else 2 ^ 61) -> Z.of_nat (length l) = tag_size 3 x -> 8 <= Z.of_nat (length l + length B) -> read_back (gg_save_var_uint61 debug) gg_load_var_uint61 A l B x) /\
  (- 2 ^ 29 < x < 2 ^ 29 -> Z.of_nat (length l) = tag_size 2 (var_int_s2u 32 x) -> 4 <= Z.of_nat (length l + length B) -> read_back (save_var_int30 debug) load_var_int30 A l B x) /\
  (- (if debug then 2 ^ 29 else 2 ^ 60) < x < (if debug then 2 ^ 29 else 2 ^ 60) -> Z.of_nat (length l) = tag_size 3 (var_int_s2u 64 x) -> 8 <= Z.of_nat (length l + length B) -> read_back (save_var_int61 debug) load_var_int61 A l B x) /\
  (forall w u, int_width w -> 0 <= u < 2 ^ w -> var_int_s2u w (var_int_u2s w u) = u).
Proof.
  intros HB. split; [by apply uint_read_back; left|]. split; [by apply uint_read_back; right|].
  split. { intros Hx Hl. apply (signed_read_back 32 save_var_uint32 load_var_uint32); [lia|done|]. apply uint_read_back; [by left|by apply s2u_u2s|done]. }
  split. { intros Hx Hl. apply (signed_read_back 64 save_var_uint64 load_var_uint64); [lia|done|]. apply uint_read_back; [by right|by apply s2u_u2s|done]. }
  split; [by apply tag30_read_back|]. split; [by apply tag61_read_back|].
  split. { intros Hx Hl Hr. destruct (s2u_small 32 x 30 ltac:(lia) Hx). apply (signed_read_back 32 (gg_save_var_uint30 debug) gg_load_var_uint30); [lia|done|]. by apply tag30_read_back. }
  split. { intros Hx Hl Hr. assert (- 2 ^ 63 <= x < 2 ^ 63 /\ 0 <= var_int_s2u 64 x < (if debug then 2 ^ 30 else 2 ^ 61)) as [? ?].
    { destruct debug; [destruct (s2u_small 64 x 30 ltac:(lia) Hx)|destruct (s2u_small 64 x 61 ltac:(lia) Hx)]; done. }
    apply (signed_read_back 64 (gg_save_var_uint61 debug) gg_load_var_uint61); [lia|done|]. by apply tag61_read_back. }
  intros w u Hw Hu. apply u2s_s2u; [destruct Hw as [-> | ->]; lia|done].
Qed.

(** Reading backwards from the last byte of a number gives the number and the
    byte before it, provided this byte ends another number or lies before the
    buffer: all numbers of 32 bits, and those of 64 bits below [2 ^ 63].  From
    [2 ^ 63] on, where the writer needs ten bytes, the reader stops one byte early:
    it gives the number without its seven low bits, and a wrong place. *)
Theorem reverse_get_correct (A B : list Z) buf x :
  let e := Z.of_nat (length A) + uint_size x - 1 in
  (0 <= x < 2 ^ 32 -> starts A buf -> reverse_get_var_uint32 (A ++ var_bytes 32 x ++ B) buf e = Ok (x, Z.of_nat (length A) - 1)) /\
  (0 <= x < 2 ^ 63 -> starts A buf -> reverse_get_var_uint64 (A ++ var_bytes 64 x ++ B) buf e = Ok (x, Z.of_nat (length A) - 1)) /\
  (2 ^ 63 <= x < 2 ^ 64 -> starts A buf -> reverse_get_var_uint64 (A ++ var_bytes 64 x ++ B) buf e = Ok (x / 128, Z.of_nat (length A))).
Proof.
  cbv zeta. assert (forall w, int_width w -> 0 <= x < 2 ^ w -> exists ds d, var_bytes w x = map mark ds ++ [d] /\ digits ds /\ 0 <= d < 128 /\
    x = val ds + d * 128 ^ Z.of_nat (length ds) /\ uint_size x = Z.of_nat (length ds) + 1) as Hd.
  { intros w Hw Hx. destruct (leb_digits (more_bytes w) x (fits w x Hw Hx)) as (ds & d & E & D & Hdd & Ex). exists ds, d. split; [done|]. do 3 (split; [done|]).
    pose proof (var_bytes_length w x Hw Hx) as L. unfold uint_size. rewrite <- L. unfold var_bytes. rewrite E, length_app, length_map. cbn [length]. lia. }
  assert (forall n, 0 <= x < 2 ^ (7 * (n + 1)) -> 0 <= n -> uint_size x <= n + 1) as Hs.
  { intros n Hx Hn. unfold uint_size. assert (Z.log2 x / 7 < n + 1); [|lia]. apply Z.div_lt_upper_bound; [lia|]. destruct (Z.le_gt_cases x 0); [rewrite Z.log2_nonpos by lia; lia|]. apply Z.log2_lt_pow2; lia. }
  split; [|split]; intros Hx Hst.
  - destruct (Hd 32 (or_introl eq_refl) Hx) as (ds & d & -> & D & Hdd & Ex & Eu). pose proof (Hs 4 ltac:(lia) ltac:(lia)). destruct (val_range ds D).
    rewrite Eu in *. replace (Z.of_nat (length A) + (Z.of_nat (length ds) + 1) - 1) with (Z.of_nat (length A) + Z.of_nat (length ds)) by lia.
    rewrite Ex. apply reverse32_ok; [done|done|lia|lia|done].
  - destruct (Hd 64 (or_intror eq_refl) ltac:(lia)) as (ds & d & -> & D & Hdd & Ex & Eu). pose proof (Hs 8 ltac:(lia) ltac:(lia)). destruct (val_range ds D).
    rewrite Eu in *. replace (Z.of_nat (length A) + (Z.of_nat (length ds) + 1) - 1) with (Z.of_nat (length A) + Z.of_nat (length ds)) by lia.
    rewrite Ex. apply reverse64_ok; [done|done|lia|lia|by left].
  - destruct (Hd 64 (or_intror eq_refl) ltac:(lia)) as (ds & d & -> & D & Hdd & Ex & Eu).
    assert (uint_size x = 10) as E10. { unfold uint_size. assert (Z.log2 x = 63) as ->; [|done]. apply Z.log2_unique; [lia|]. cbn. lia. }
    rewrite E10 in *. assert (length ds = 9%nat) as L9 by lia. destruct ds as [|d0 ds]; [done|]. inversion D as [|? ? D0 D1]; subst. cbn [length] in L9.
    assert (length ds = 8%nat) as L8 by lia. cbn [val fold_right length]. fold (val ds). pose proof (val_range ds D1).
    rewrite L8 in *. change (Z.of_nat 9) with (1 + 8). rewrite Z.pow_add_r by lia. change (128 ^ 1) with 128. change (Z.of_nat 8) with 8 in *.
    assert ((d0 + 128 * val ds + d * (128 * 128 ^ 8)) / 128 = val ds + d * 128 ^ 8) as -> by (symmetry; apply Z.div_unique with d0; lia).
    cbn [map app]. pose proof (reverse64_ok (A ++ [mark d0]) B buf ds d D1 Hdd ltac:(lia)) as R. rewrite L8, length_app, <- app_assoc in R. cbn [app length] in R.
    change (Z.of_nat 8) with 8 in R. replace (Z.of_nat (length A) + 10 - 1) with (Z.of_nat (length A + 1) + 8) by lia. rewrite R; [do 2 f_equal; lia| |right; split; [|done]].
    + cbn [val fold_right length] in Hx. fold (val ds) in Hx. lia.
    + destruct Hst as [->|[? _]]; lia.
Qed.

(** ** Samples: numbers between two other bytes of a buffer *)

Lemma var_int_sizes_witness : uint_size 300 = 2 /\ tag_size 2 300 = 2 /\
  (exists bs, bytes bs /\ length bs = length [7; 7] /\ gg_save_var_uint ([9] ++ [7; 7] ++ [8]) 1 300 = Ok ([9] ++ bs ++ [8], 1 + uint_size 300)) /\
  gg_load_var_uint 32 ([] ++ [255; 255; 255; 255; 255] ++ [1]) 0 = Throw runtime_error.
Proof.
  split; [reflexivity|]. split; [reflexivity|]. destruct (var_int_sizes [9] [7; 7] [8] 300) as (S & _). split.
  - apply (S 32 (or_introl eq_refl)); [lia|reflexivity].
  - destruct (var_int_sizes [] [255; 255; 255; 255; 255] [1] 0) as (_ & _ & _ & L). apply (L 32 (or_introl eq_refl)); [repeat constructor; lia|reflexivity].
Defined.

Lemma var_int_roundtrip_witness : bytes [8] /\ read_back save_var_int32 load_var_int32 [9] [7; 7] [8] (-150) /\
  gg_save_var_uint30 true [9; 7; 7; 7; 8; 8] 1 16384 = Ok ([9; 2; 0; 1; 8; 8], 4) /\ read_back (gg_save_var_uint30 true) gg_load_var_uint30 [9] [7; 7; 7] [8] 16384 /\
  bytes [8; 8; 8] /\ read_back (gg_save_var_uint61 false) gg_load_var_uint61 [9] [7; 7; 7; 7; 7; 7] [8; 8; 8] (2 ^ 40).
Proof.
  assert (bytes [8]) as B by (repeat constructor; lia). split; [exact B|]. split.
  - destruct (var_int_roundtrip true [9] [7; 7] [8] (-150) B) as (_ & _ & R & _). apply R; [lia|reflexivity].
  - split; [reflexivity|]. destruct (var_int_roundtrip true [9] [7; 7; 7] [8] 16384 B) as (_ & _ & _ & _ & R & _). split; [apply R; [lia|reflexivity|cbn; lia]|].
    assert (bytes [8; 8; 8]) as B3 by (repeat constructor; lia). split; [exact B3|].
    destruct (var_int_roundtrip false [9] [7; 7; 7; 7; 7; 7] [8; 8; 8] (2 ^ 40) B3) as (_ & _ & _ & _ & _ & R' & _). apply R'; [lia|reflexivity|cbn; lia].
Defined.

Lemma reverse_get_correct_witness : starts [9] 0 /\ reverse_get_var_uint32 ([9] ++ var_bytes 32 300 ++ [8]) 0 2 = Ok (300, 0) /\
  reverse_get_var_uint64 ([9] ++ var_bytes 64 (2 ^ 63 + 5) ++ [8]) 0 10 = Ok (2 ^ 56, 1).
Proof.
  assert (starts [9] 0) as St by (right; split; [cbn; lia|]; exists [], 9; split; [reflexivity|lia]). split; [exact St|]. split.
  - destruct (reverse_get_correct [9] [8] 0 300) as (R & _). apply R; [lia|exact St].
  - destruct (reverse_get_correct [9] [8] 0 (2 ^ 63 + 5)) as (_ & _ & R). apply R; [lia|exact St].
Defined.
End VarIntProps.
