(* ===== verification/MemStream.v ===== *)
(** * Streams in memory

    [io/MemStream.hpp] and [io/MemStream.cpp]: [MemIO], a stream over a block of
    memory that others own, and [AutoGrownMemIO], which owns its block and lets it
    grow; with the readers and writers of [io/var_int_io.hpp], which both include. *)
From S2P Require Import Prelude Bytes VarInt.
Import Bytes VarInt.

Module MemStream.

(** Pointers are indices into the memory; for an [AutoGrownMemIO] [mem] is its block,
    [m_beg] is 0 and [m_end] the length of the block. *)
Record io := IO { mem : list Z; m_pos : Z; m_end : Z }.

Definition memcpy_out (m : list Z) (p n : Z) : res (list Z) :=
  if inside m p n then Ok (take (Z.to_nat n) (drop (Z.to_nat p) m)) else UB.
Definition memcpy_in (m : list Z) (p : Z) (data : list Z) : res (list Z) :=
  if inside m p (Z.of_nat (length data)) then Ok (take (Z.to_nat p) m ++ data ++ drop (Z.to_nat p + length data) m) else UB.

Definition at_pos (s : io) (p : Z) : io := IO (mem s) p (m_end s).

(** ** [MemIO] *)

Definition remain (s : io) : Z := m_end s - m_pos s.
Definition buf_remain_bytes (s : io) : Z := m_end s - m_pos s.
Definition eof (s : io) : res bool := let* _ := assert_ (m_pos s <=? m_end s) in Ok (m_pos s =? m_end s).

Definition readByte (s : io) : res (Z * io) :=
  if m_pos s <? m_end s then let* b := rd (mem s) (m_pos s) in Ok (b, at_pos s (m_pos s + 1)) else Throw EndOfFileException.
Definition getByte (s : io) : res (Z * io) :=
  if m_pos s <? m_end s then let* b := rd (mem s) (m_pos s) in Ok (b, at_pos s (m_pos s + 1)) else Ok (-1, s).
Definition writeByte (s : io) (b : Z) : res io :=
  if m_pos s <? m_end s then let* m := wr (mem s) (m_pos s) b in Ok (IO m (m_pos s + 1) (m_end s)) else Throw OutOfSpaceException.
Definition ensureRead (s : io) (length : Z) : res (list Z * io) :=
  if m_pos s + length <=? m_end s then let* d := memcpy_out (mem s) (m_pos s) length in Ok (d, at_pos s (m_pos s + length)) else Throw EndOfFileException.
Definition ensureWrite (s : io) (data : list Z) : res io :=
  let len := Z.of_nat (length data) in
  if m_pos s + len <=? m_end s then let* m := memcpy_in (mem s) (m_pos s) data in Ok (IO m (m_pos s + len) (m_end s)) else Throw OutOfSpaceException.

(** These give the number of bytes they have moved. *)
Definition read (s : io) (length : Z) : res (list Z * io) :=
  let n := m_end s - m_pos s in
  let n := if n <? length then n else length in
  let* d := memcpy_out (mem s) (m_pos s) n in Ok (d, at_pos s (m_pos s + n)).
Definition write (s : io) (data : list Z) : res (Z * io) :=
  let n := m_end s - m_pos s in
  let n := if n <? Z.of_nat (length data) then n else Z.of_nat (length data) in
  let* m := memcpy_in (mem s) (m_pos s) (take (Z.to_nat n) data) in Ok (n, IO m (m_pos s + n) (m_end s)).

Definition skip (debug : bool) (s : io) (diff : Z) : res (Z * io) :=
  let* _ := if debug then assert_ (m_pos s + diff <=? m_end s) else Ok tt in
  if m_pos s + diff <=? m_end s then Ok (m_pos s, at_pos s (m_pos s + diff)) else Throw out_of_range.

(** ** [AutoGrownMemIO] *)

Section grown.
(** The bytes of memory that has just been allocated. *)
Context (junk : Z -> Z).

Definition capacity (s : io) : Z := m_end s.
Definition tell (s : io) : Z := m_pos s.
Definition block (n : Z) : list Z := map junk (seqZ 0 n).

Definition make (size : Z) : io := IO (block size) 0 size.
Definition init (s : io) (newcap : Z) : io := make newcap.

Definition reserve (s : io) (request_cap : Z) : io :=
  let oldcap := capacity s in
  if request_cap <=? oldcap then s else
  let newcap := Z.max (oldcap * 103 / 64) request_cap in
  IO (mem s ++ block (newcap - oldcap)) (m_pos s) newcap.

Definition grow_capacity (s : io) (nGrow : Z) : res io :=
  let request_cap := capacity s + nGrow in
  let* newcap := loop 64 (fun newcap => Ok (if newcap <? request_cap then inl (newcap * 2) else inr newcap)) (Z.max 32 (capacity s)) in
  Ok (reserve s newcap).

Definition growCapAndWrite (s : io) (data : list Z) : res io :=
  let nSize := capacity s in
  let nGrow := Z.max (Z.of_nat (length data)) nSize in
  let s := reserve s (Z.max (nSize + nGrow) 64) in
  let* m := memcpy_in (mem s) (m_pos s) data in Ok (IO m (m_pos s + Z.of_nat (length data)) (m_end s)).

Definition growCapAndWriteByte (s : io) (b : Z) : res io :=
  let s := reserve s (Z.max (2 * capacity s) 64) in
  let* m := wr (mem s) (m_pos s) b in Ok (IO m (m_pos s + 1) (m_end s)).

Definition grown_writeByte (s : io) (b : Z) : res io :=
  let* _ := assert_ (m_pos s <=? m_end s) in
  if m_pos s <? m_end s then let* m := wr (mem s) (m_pos s) b in Ok (IO m (m_pos s + 1) (m_end s)) else growCapAndWriteByte s b.

Definition grown_ensureWrite (s : io) (data : list Z) : res io :=
  let len := Z.of_nat (length data) in
  let* _ := assert_ (m_pos s <=? m_end s) in
  if m_pos s + len <=? m_end s then let* m := memcpy_in (mem s) (m_pos s) data in Ok (IO m (m_pos s + len) (m_end s)) else growCapAndWrite s data.

Definition rewind (s : io) : io := at_pos s 0.
Definition seek (debug : bool) (s : io) (newPos : Z) : res io :=
  let* _ := if debug then assert_ (0 <=? newPos) else Ok tt in
  if (newPos <? 0) || (m_end s <? newPos) then Throw invalid_argument else Ok (at_pos s newPos).
(** [seek(offset, origin)]; [size_t] becomes [ptrdiff_t] again in the call of [seek]. *)
Definition seek_from (debug : bool) (s : io) (offset origin : Z) : res io :=
  if origin =? 0 then seek debug s offset else
  if origin =? 1 then seek debug s (tell s + offset) else
  if origin =? 2 then seek debug s (capacity s + offset) else Throw invalid_argument.

Definition grown_skip (debug : bool) (s : io) (diff : Z) : res (Z * io) :=
  let* _ := if debug then assert_ ((m_pos s + diff <=? m_end s) && (0 <=? m_pos s + diff)) else Ok tt in
  if (m_pos s + diff <=? m_end s) && (0 <=? m_pos s + diff) then Ok (m_pos s, at_pos s (m_pos s + diff)) else Throw out_of_range.

(** A part of the block as a [MemIO]. *)
Definition range (debug : bool) (s : io) (ibeg iend : Z) : res io :=
  let c := (ibeg <=? iend) && (ibeg <=? capacity s) && (iend <=? capacity s) in
  let* _ := if debug then assert_ c else Ok tt in
  if c then Ok (IO (mem s) ibeg iend) else Throw invalid_argument.
Definition written (s : io) : io := IO (mem s) 0 (m_pos s).
Definition tail (s : io) : io := IO (mem s) (m_pos s) (m_end s).
Definition whole (s : io) : io := IO (mem s) 0 (m_end s).

Definition clear (s : io) : io := IO [] 0 0.
Definition shrink_to_fit (s : io) : res io :=
  let* _ := assert_ (0 <=? m_pos s) in let* _ := assert_ (m_pos s <=? m_end s) in
  let realsize := m_pos s in
  Ok (if realsize =? 0 then IO [] 0 0 else IO (take (Z.to_nat realsize) (mem s)) realsize realsize).
(** [clone(src)] *)
Definition clone (src : io) : res io :=
  let t := make (capacity src) in
  let* d := memcpy_out (mem src) 0 (capacity src) in
  let* m := memcpy_in (mem t) 0 d in Ok (IO m (m_pos t) (m_end t)).
End grown.

(** ** Reading integers: a fast reader when enough bytes are left, one byte after the
    other if not *)

Definition fast_or_slow {A} (need : Z) (fast : list Z -> Z -> res (A * Z)) (slow : io -> res (A * io)) (s : io) : res (A * io) :=
  if need <=? buf_remain_bytes s then let* (x, p) := fast (mem s) (m_pos s) in Ok (x, at_pos s p) else slow s.

Definition read_var_uint32 : io -> res (Z * io) := fast_or_slow 5 (gg_load_var_uint 32) (gg_load_var_uint_slow readByte 32).
Definition read_var_uint64 : io -> res (Z * io) := fast_or_slow 10 (gg_load_var_uint 64) (gg_load_var_uint_slow readByte 64).
Definition read_var_uint30 : io -> res (Z * io) := fast_or_slow 4 gg_load_var_uint30 (gg_load_var_uint30_slow readByte).
Definition read_var_uint61 : io -> res (Z * io) := fast_or_slow 8 gg_load_var_uint61 (gg_load_var_uint61_slow readByte).
Definition read_signed (w : Z) (read : io -> res (Z * io)) (s : io) : res (Z * io) := let* (x, s) := read s in Ok (var_int_u2s w x, s).
Definition read_var_int32 := read_signed 32 read_var_uint32.
Definition read_var_int64 := read_signed 64 read_var_uint64.
Definition read_var_int30 := read_signed 32 read_var_uint30.
Definition read_var_int61 := read_signed 64 read_var_uint61.
Definition read_string (s : io) : res (list Z * io) :=
  let* (len, s) := read_var_uint32 s in
  if negb (len =? 0) then ensureRead s len else Ok ([], s).

(** ** Writing, with the stream's own [ensureWrite] *)

Section writers.
Context (junk : Z -> Z) (debug : bool) (ensureWrite : io -> list Z -> res io).

(** Writes to the stream when [need] bytes are left, and to [tmpbuf[need]] if not. *)
Definition write_var (need : Z) (save : list Z -> Z -> Z -> res (list Z * Z)) (s : io) (x : Z) : res io :=
  if need <=? buf_remain_bytes s then
    let* (m, endp) := save (mem s) (m_pos s) x in
    let* _ := assert_ (endp - m_pos s <=? need) in Ok (IO m endp (m_end s))
  else
    let* (tmpbuf, len) := save (block junk need) 0 x in
    let* _ := assert_ (len <=? need) in
    let* d := memcpy_out tmpbuf 0 len in ensureWrite s d.

Definition write_var_uint32 := write_var 5 gg_save_var_uint.
Definition write_var_uint64 := write_var 10 gg_save_var_uint.
Definition write_var_uint30 := write_var 4 (gg_save_var_uint30 debug).
Definition write_var_uint61 := write_var 8 (gg_save_var_uint61 debug).
Definition write_var_int32 (s : io) (x : Z) : res io := write_var_uint32 s (var_int_s2u 32 x).
Definition write_var_int64 (s : io) (x : Z) : res io := write_var_uint64 s (var_int_s2u 64 x).
Definition write_var_int30 (s : io) (x : Z) : res io := write_var_uint30 s (var_int_s2u 32 x).
Definition write_var_int61 (s : io) (x : Z) : res io := write_var_uint61 s (var_int_s2u 64 x).
Definition write_string (s : io) (str : list Z) : res io :=
  let* s := write_var_uint32 s (u32 (Z.of_nat (length str))) in ensureWrite s str.
End writers.
End MemStream.
