(* ===== verification/MemStreamProps.v ===== *)
(** * What is written to a memory stream is read from it

    Values of eleven kinds written one after the other to an [AutoGrownMemIO], of any
    initial size, are read back by a [MemIO] over the block; what a [MemIO] does at
    the end of its block; and the values the readers get wrong there. *)
From S2P Require Import Prelude Bytes VarInt VarIntProps MemStream.
Import Bytes VarInt VarIntProps MemStream.

Module MemStreamProps.

Lemma bytes_app (l l' : list Z) : bytes (l ++ l') <-> bytes l /\ bytes l'.
Proof. apply Forall_app. Qed.

Lemma memcpy_out_mid (A l B : list Z) p n : p = Z.of_nat (length A) -> n = Z.of_nat (length l) -> memcpy_out (A ++ l ++ B) p n = Ok l.
Proof.
  intros -> ->. unfold memcpy_out. rewrite inside_ok by (rewrite ?length_app; lia). rewrite !Nat2Z.id, drop_app_length, take_app_length. done.
Qed.

Lemma memcpy_in_mid (A l B d : list Z) p : p = Z.of_nat (length A) -> length l = length d -> memcpy_in (A ++ l ++ B) p d = Ok (A ++ d ++ B).
Proof.
  intros -> Hl. unfold memcpy_in. rewrite inside_ok by (rewrite ?length_app; lia). rewrite Nat2Z.id, take_app_length, <- drop_drop, drop_app_length, <- Hl, drop_app_length. done.
Qed.

Lemma split_at (l : list Z) n : (n <= length l)%nat -> exists l1 l2, l = l1 ++ l2 /\ length l1 = n.
Proof. intros Hn. exists (take n l), (drop n l). rewrite take_drop, length_take. split; [done|lia]. Qed.

Section streams.
Context (junk : Z -> Z) (junk_byte : forall i, 0 <= junk i < 256).

Lemma block_bytes n : bytes (block junk n).
Proof. unfold block, bytes. apply Forall_map, List.Forall_forall. auto. Qed.

Lemma block_length n : length (block junk n) = Z.to_nat n.
Proof. unfold block. by rewrite length_map, length_seqZ. Qed.

(** ** Writing *)

(** The bytes [bs] have been written, and the position is behind them. *)
Record wrote (s : io) (bs : list Z) : Prop := {
  w_end : m_end s = Z.of_nat (length (mem s));
  w_pos : m_pos s = Z.of_nat (length bs);
  w_mem : exists l, mem s = bs ++ l /\ bytes (bs ++ l)
}.

Lemma wrote_le s bs : wrote s bs -> m_pos s <= m_end s.
Proof. intros [E P (l & M & _)]. rewrite E, P, M, length_app. lia. Qed.

Lemma make_wrote size : 0 <= size -> wrote (make junk size) [].
Proof. intros Hs. split; cbn; [rewrite block_length; lia|done|]. exists (block junk size). split; [done|apply block_bytes]. Qed.

Lemma reserve_wrote s bs cap : wrote s bs -> wrote (reserve junk s cap) bs /\ cap <= m_end (reserve junk s cap).
Proof.
  intros [E P (l & M & Hb)]. unfold reserve, capacity. destruct (Z.leb_spec cap (m_end s)) as [L|L]; [split; [|done]; by split; [..|eauto]|].
  split; [|cbn; lia]. split; cbn [m_end m_pos mem]; [rewrite length_app, block_length; lia|done|].
  exists (l ++ block junk (Z.max (m_end s * 103 / 64) cap - m_end s)). rewrite M, <- app_assoc. split; [done|]. rewrite app_assoc. apply bytes_app. split; [done|apply block_bytes].
Qed.

(** Writing over what follows the position. *)
Lemma memcpy_wrote s bs d : wrote s bs -> bytes d -> m_pos s + Z.of_nat (length d) <= m_end s ->
  exists m, memcpy_in (mem s) (m_pos s) d = Ok m /\ wrote (IO m (m_pos s + Z.of_nat (length d)) (m_end s)) (bs ++ d).
Proof.
  intros [E P (l & M & Hb)] Hd Hr. rewrite M, length_app in E. destruct (split_at l (length d)) as (l1 & l2 & -> & L1); [lia|].
  rewrite M, (memcpy_in_mid bs l1 l2 d (m_pos s) P L1). eexists. split; [done|]. apply bytes_app in Hb as [B1 [B2 B3]%bytes_app]. split; cbn [m_end m_pos mem].
  - rewrite E, !length_app. lia.
  - rewrite length_app. lia.
  - exists l2. rewrite <- app_assoc. split; [done|]. repeat (apply bytes_app; split; try done).
Qed.

Lemma grown_write_ok s bs d : wrote s bs -> bytes d -> exists s', grown_ensureWrite junk s d = Ok s' /\ wrote s' (bs ++ d).
Proof.
  intros W Hd. pose proof (wrote_le s bs W) as Hle. unfold grown_ensureWrite. rewrite (proj2 (Z.leb_le _ _)) by done. cbn [assert_ rbind].
  destruct (Z.leb_spec (m_pos s + Z.of_nat (length d)) (m_end s)) as [L|L].
  - destruct (memcpy_wrote s bs d W Hd L) as (m & -> & W'). cbn [rbind]. eauto.
  - unfold growCapAndWrite, capacity. set (cap := Z.max (m_end s + Z.max (Z.of_nat (length d)) (m_end s)) 64).
    destruct (reserve_wrote s bs cap W) as [W1 Hc]. assert (m_pos (reserve junk s cap) = m_pos s) as Ep by (rewrite (w_pos _ _ W1), (w_pos _ _ W); done).
    destruct (memcpy_wrote _ bs d W1 Hd) as (m & -> & W'); [rewrite Ep; lia|]. cbn [rbind]. eauto.
Qed.

Lemma grown_byte_ok s bs b : wrote s bs -> 0 <= b < 256 -> exists s', grown_writeByte junk s b = Ok s' /\ wrote s' (bs ++ [b]).
Proof.
  intros W Hb. pose proof (wrote_le s bs W) as Hle.
  assert (forall s, wrote s bs -> m_pos s < m_end s -> exists m, wr (mem s) (m_pos s) b = Ok m /\ wrote (IO m (m_pos s + 1) (m_end s)) (bs ++ [b])) as G.
  { intros s1 [E P (l & M & HB)] L. rewrite M, length_app in E. destruct l as [|v l]; [cbn in E; lia|]. rewrite M. apply bytes_app in HB as [B1 B2]. inversion B2; subst.
    change (v :: l) with ([v] ++ l). rewrite (wr_mid bs [v] l 0) by (cbn [length]; lia). change (<[Z.to_nat 0 := b]> [v]) with [b].
    eexists. split; [done|]. split; cbn [m_end m_pos mem]; [rewrite E, !length_app; cbn [length]; lia|rewrite length_app; cbn [length]; lia|].
    exists l. rewrite <- app_assoc. split; [done|]. apply bytes_app. split; [done|]. by constructor. }
  unfold grown_writeByte. rewrite (proj2 (Z.leb_le _ _)) by done. cbn [assert_ rbind]. destruct (Z.ltb_spec (m_pos s) (m_end s)) as [L|L].
  - destruct (G s W L) as (m & -> & W'). cbn [rbind]. eauto.
  - unfold growCapAndWriteByte, capacity. destruct (reserve_wrote s bs (Z.max (2 * m_end s) 64) W) as [W1 Hc].
    assert (m_pos (reserve junk s (Z.max (2 * m_end s) 64)) = m_pos s) as Ep by (rewrite (w_pos _ _ W1), (w_pos _ _ W); done).
    destruct (G _ W1) as (m & -> & W'); [rewrite Ep; lia|]. cbn [rbind]. eauto.
Qed.

(** A writer of integers that writes [enc]. *)
Definition saves (save : list Z -> Z -> Z -> res (list Z * Z)) (x : Z) (enc : list Z) : Prop :=
  bytes enc /\ forall A l B, length l = length enc -> save (A ++ l ++ B) (Z.of_nat (length A)) x = Ok (A ++ enc ++ B, Z.of_nat (length A) + Z.of_nat (length enc)).

Lemma write_var_ok need save s bs x enc : wrote s bs -> saves save x enc -> Z.of_nat (length enc) <= need ->
  exists s', write_var junk (grown_ensureWrite junk) need save s x = Ok s' /\ wrote s' (bs ++ enc).
Proof.
  intros W [Hb Hs] Hn. unfold write_var, buf_remain_bytes. destruct (Z.leb_spec need (m_end s - m_pos s)) as [L|L].
  - destruct W as [E P (l & M & HB)]. rewrite M, length_app in E. destruct (split_at l (length enc)) as (l1 & l2 & -> & L1); [lia|].
    rewrite M, P, (Hs bs l1 l2 L1). cbn [rbind]. rewrite (proj2 (Z.leb_le _ _)) by lia. cbn [assert_ rbind]. eexists. split; [done|].
    apply bytes_app in HB as [B1 [B2 B3]%bytes_app]. split; cbn [m_end m_pos mem]; [rewrite E, !length_app; lia|rewrite length_app; lia|].
    exists l2. rewrite <- app_assoc. split; [done|]. repeat (apply bytes_app; split; try done).
  - destruct (split_at (block junk need) (length enc)) as (l1 & l2 & El & L1); [rewrite block_length; lia|]. rewrite El.
    pose proof (Hs [] l1 l2 L1) as E. cbn [app length] in E. change (Z.of_nat 0) with 0 in E. rewrite Z.add_0_l in E. rewrite E. cbn [rbind].
    rewrite (proj2 (Z.leb_le _ _)) by lia. cbn [assert_ rbind]. rewrite (memcpy_out_mid [] enc l2 0) by done. cbn [rbind]. by apply grown_write_ok.
Qed.

(** ** Reading *)

(** The stream is before [R], which goes to its end. *)
Definition before (s : io) (A R : list Z) : Prop :=
  m_pos s = Z.of_nat (length A) /\ m_end s = Z.of_nat (length A) + Z.of_nat (length R) /\ exists T, mem s = A ++ R ++ T /\ bytes (A ++ R ++ T).

Lemma before_step s A d R : before s A (d ++ R) -> before (at_pos s (Z.of_nat (length A) + Z.of_nat (length d))) (A ++ d) R.
Proof.
  intros (P & E & T & M & B). rewrite <- app_assoc in M, B. rewrite length_app in E. split; cbn [m_pos m_end mem at_pos]; [rewrite length_app; lia|]. split; [rewrite length_app; lia|].
  exists T. rewrite <- app_assoc. done.
Qed.

Lemma readByte_before s A b R : before s A (b :: R) -> readByte s = Ok (b, at_pos s (Z.of_nat (length A) + 1)).
Proof.
  intros (P & E & T & M & B). unfold readByte. rewrite (proj2 (Z.ltb_lt _ _)) by (cbn [length] in E; lia). rewrite P, M.
  change (A ++ (b :: R) ++ T) with (A ++ [b] ++ (R ++ T)). rewrite (rd_mid A [b] (R ++ T) 0 b) by (done || lia). done.
Qed.

Lemma readByte_reads d : forall s A R, before s A (d ++ R) -> reads readByte s d (at_pos s (Z.of_nat (length A) + Z.of_nat (length d))).
Proof.
  induction d as [|b d IH]; intros s A R Hb.
  - cbn. destruct Hb as (P & _). rewrite Z.add_0_r, <- P. by destruct s.
  - cbn [app] in Hb. exists (at_pos s (Z.of_nat (length A) + 1)). split; [by apply (readByte_before s A b (d ++ R))|].
    change (b :: d ++ R) with ([b] ++ d ++ R) in Hb. apply before_step in Hb. cbn [length] in Hb. change (Z.of_nat 1) with 1 in Hb. apply IH in Hb. rewrite length_app in Hb. cbn [length] in *.
    replace (Z.of_nat (length A) + Z.of_nat (S (length d))) with (Z.of_nat (length A + 1) + Z.of_nat (length d)) by lia. exact Hb.
Qed.

Lemma fast_or_slow_ok need fast slow s A enc R (x : Z) : before s A (enc ++ R) ->
  (need <= Z.of_nat (length (enc ++ R)) -> forall B, bytes B -> need <= Z.of_nat (length (enc ++ B)) -> fast (A ++ enc ++ B) (Z.of_nat (length A)) = Ok (x, Z.of_nat (length A) + Z.of_nat (length enc))) ->
  (Z.of_nat (length (enc ++ R)) < need -> forall s', reads readByte s enc s' -> slow s = Ok (x, s')) ->
  fast_or_slow need fast slow s = Ok (x, at_pos s (Z.of_nat (length A) + Z.of_nat (length enc))).
Proof.
  intros Hb Hf Hs. pose proof Hb as (P & E & T & M & B). unfold fast_or_slow, buf_remain_bytes. destruct (Z.leb_spec need (m_end s - m_pos s)) as [L|L].
  - rewrite M, P, <- app_assoc, Hf; [done|lia| |rewrite app_assoc, length_app; lia]. rewrite <- app_assoc in B. by apply bytes_app in B as [_ [_ B]%bytes_app].
  - apply Hs; [lia|]. by apply readByte_reads with R.
Qed.

Lemma ensureRead_ok s A d R : before s A (d ++ R) -> ensureRead s (Z.of_nat (length d)) = Ok (d, at_pos s (Z.of_nat (length A) + Z.of_nat (length d))).
Proof.
  intros (P & E & T & M & B). unfold ensureRead. rewrite length_app in E. rewrite (proj2 (Z.leb_le _ _)) by lia. rewrite M, <- app_assoc, (memcpy_out_mid A d (R ++ T)) by done. cbn [rbind]. by rewrite P.
Qed.
End streams.

(** ** Values of all kinds *)

Inductive value :=
| VByte (b : Z) | VUint32 (x : Z) | VUint64 (x : Z) | VInt32 (x : Z) | VInt64 (x : Z)
| VUint30 (x : Z) | VUint61 (x : Z) | VInt30 (x : Z) | VInt61 (x : Z) | VString (str : list Z) | VRaw (data : list Z).

Definition put (junk : Z -> Z) (debug : bool) (s : io) (v : value) : res io :=
  let ew := grown_ensureWrite junk in
  match v with
  | VByte b => grown_writeByte junk s b
  | VUint32 x => write_var_uint32 junk ew s x | VUint64 x => write_var_uint64 junk ew s x
  | VInt32 x => write_var_int32 junk ew s x | VInt64 x => write_var_int64 junk ew s x
  | VUint30 x => write_var_uint30 junk debug ew s x | VUint61 x => write_var_uint61 junk debug ew s x
  | VInt30 x => write_var_int30 junk debug ew s x | VInt61 x => write_var_int61 junk debug ew s x
  | VString str => write_string junk ew s str
  | VRaw data => ew s data
  end.

(** Reads a value of the kind of [v]. *)
Definition get (v : value) (s : io) : res (value * io) :=
  match v with
  | VByte _ => let* (b, s) := readByte s in Ok (VByte b, s)
  | VUint32 _ => let* (x, s) := read_var_uint32 s in Ok (VUint32 x, s) | VUint64 _ => let* (x, s) := read_var_uint64 s in Ok (VUint64 x, s)
  | VInt32 _ => let* (x, s) := read_var_int32 s in Ok (VInt32 x, s) | VInt64 _ => let* (x, s) := read_var_int64 s in Ok (VInt64 x, s)
  | VUint30 _ => let* (x, s) := read_var_uint30 s in Ok (VUint30 x, s) | VUint61 _ => let* (x, s) := read_var_uint61 s in Ok (VUint61 x, s)
  | VInt30 _ => let* (x, s) := read_var_int30 s in Ok (VInt30 x, s) | VInt61 _ => let* (x, s) := read_var_int61 s in Ok (VInt61 x, s)
  | VString _ => let* (str, s) := read_string s in Ok (VString str, s)
  | VRaw data => let* (d, s) := ensureRead s (Z.of_nat (length data)) in Ok (VRaw d, s)
  end.

Fixpoint put_all (junk : Z -> Z) (debug : bool) (s : io) (vs : list value) : res io :=
  match vs with [] => Ok s | v :: vs => let* s := put junk debug s v in put_all junk debug s vs end.
Fixpoint get_all (vs : list value) (s : io) : res (list value * io) :=
  match vs with [] => Ok ([], s) | v :: vs => let* (x, s) := get v s in let* (xs, s) := get_all vs s in Ok (x :: xs, s) end.

(** The values each writer takes; in a debug build [write_var_uint61] takes no more
    than [write_var_uint30]. *)
Definition valid (debug : bool) (v : value) : Prop :=
  match v with
  | VByte b => 0 <= b < 256
  | VUint32 x => 0 <= x < 2 ^ 32 | VUint64 x => 0 <= x < 2 ^ 64
  | VInt32 x => - 2 ^ 31 <= x < 2 ^ 31 | VInt64 x => - 2 ^ 63 <= x < 2 ^ 63
  | VUint30 x => 0 <= x < 2 ^ 30 | VUint61 x => 0 <= x < (if debug then 2 ^ 30 else 2 ^ 61)
  | VInt30 x => - 2 ^ 29 < x < 2 ^ 29 | VInt61 x => if debug then - 2 ^ 29 < x < 2 ^ 29 else - 2 ^ 60 < x < 2 ^ 60
  | VString str => bytes str /\ Z.of_nat (length str) < 2 ^ 32
  | VRaw data => bytes data
  end.

(** The values the readers of single bytes get right. *)
Definition short (v : value) : Prop :=
  match v with
  | VUint30 x => x < 2 ^ 14 | VUint61 x => x < 2 ^ 13 | VInt30 x => - 2 ^ 13 < x < 2 ^ 13 | VInt61 x => - 2 ^ 12 < x < 2 ^ 12
  | _ => True
  end.

Definition enc (v : value) : list Z :=
  match v with
  | VByte b => [b]
  | VUint32 x => var_bytes 32 x | VUint64 x => var_bytes 64 x
  | VInt32 x => var_bytes 32 (var_int_s2u 32 x) | VInt64 x => var_bytes 64 (var_int_s2u 64 x)
  | VUint30 x => tag_bytes 2 x | VUint61 x => tag_bytes 3 x
  | VInt30 x => tag_bytes 2 (var_int_s2u 32 x) | VInt61 x => tag_bytes 3 (var_int_s2u 64 x)
  | VString str => var_bytes 32 (Z.of_nat (length str)) ++ str
  | VRaw data => data
  end.

Lemma var_saves w x : int_width w -> 0 <= x < 2 ^ w -> saves gg_save_var_uint x (var_bytes w x) /\ Z.of_nat (length (var_bytes w x)) <= (if w =? 32 then 5 else 10).
Proof.
  intros Hw Hx. split; [split; [by apply leb_bytes, fits|]; intros A l B Hl; by apply save_uint_ok|].
  destruct (var_int_sizes [] (var_bytes w x) [] x) as [S _]. rewrite var_bytes_length by done. apply (S w Hw Hx). by apply var_bytes_length.
Qed.

Lemma tag30_saves debug x : 0 <= x < 2 ^ 30 -> saves (gg_save_var_uint30 debug) x (tag_bytes 2 x) /\ Z.of_nat (length (tag_bytes 2 x)) <= 4.
Proof.
  intros Hx. split; [split; [apply tag_bytes_ok|]; intros A l B Hl; by apply save30_ok|]. rewrite tag_length. apply (tag_size_le 2 x 4); lia.
Qed.

Lemma tag61_saves (debug : bool) x : 0 <= x < (if debug then 2 ^ 30 else 2 ^ 61) -> saves (gg_save_var_uint61 debug) x (tag_bytes 3 x) /\ Z.of_nat (length (tag_bytes 3 x)) <= 8.
Proof.
  intros Hx. split; [split; [apply tag_bytes_ok|]; intros A l B Hl; by apply save61_ok|]. rewrite tag_length. destruct debug; apply (tag_size_le 3 x 8); lia.
Qed.

(** In debug builds too small numbers of either sign stay small. *)
Lemma int61_small (debug : bool) x : valid debug (VInt61 x) -> - 2 ^ 63 <= x < 2 ^ 63 /\ 0 <= var_int_s2u 64 x < (if debug then 2 ^ 30 else 2 ^ 61).
Proof. cbn [valid]. destruct debug; intros Hx; [destruct (s2u_small 64 x 30 ltac:(lia) Hx)|destruct (s2u_small 64 x 61 ltac:(lia) Hx)]; done. Qed.

Lemma value_put_ok junk debug s bs v : (forall i, 0 <= junk i < 256) -> wrote s bs -> valid debug v -> exists s', put junk debug s v = Ok s' /\ wrote s' (bs ++ enc v).
Proof.
  intros J W V.
  assert (forall w x, int_width w -> 0 <= x < 2 ^ w -> exists s', write_var junk (grown_ensureWrite junk) (if w =? 32 then 5 else 10) gg_save_var_uint s x = Ok s' /\ wrote s' (bs ++ var_bytes w x)) as HV.
  { intros w x Hw Hx. destruct (var_saves w x Hw Hx). by apply write_var_ok. }
  assert (forall x, 0 <= x < 2 ^ 30 -> exists s', write_var_uint30 junk debug (grown_ensureWrite junk) s x = Ok s' /\ wrote s' (bs ++ tag_bytes 2 x)) as H30.
  { intros x Hx. destruct (tag30_saves debug x Hx). by apply write_var_ok. }
  assert (forall x, 0 <= x < (if debug then 2 ^ 30 else 2 ^ 61) -> exists s', write_var_uint61 junk debug (grown_ensureWrite junk) s x = Ok s' /\ wrote s' (bs ++ tag_bytes 3 x)) as H61.
  { intros x Hx. destruct (tag61_saves debug x Hx). by apply write_var_ok. }
  destruct v; cbn [put enc valid] in *.
  - by apply grown_byte_ok.
  - exact (HV 32 x (or_introl eq_refl) V).
  - exact (HV 64 x (or_intror eq_refl) V).
  - exact (HV 32 _ (or_introl eq_refl) (proj1 (s2u_u2s 32 x eq_refl V))).
  - exact (HV 64 _ (or_intror eq_refl) (proj1 (s2u_u2s 64 x eq_refl V))).
  - by apply H30.
  - by apply H61.
  - apply H30. by destruct (s2u_small 32 x 30 ltac:(lia) V).
  - apply H61. by destruct (int61_small debug x V).
  - destruct V as [Vb Vl]. unfold write_string. unfold u32 at 1. rewrite Z.mod_small by lia. destruct (HV 32 (Z.of_nat (length str))) as (s1 & E1 & W1); [by left|lia|].
    unfold write_var_uint32. change 5 with (if 32 =? 32 then 5 else 10). rewrite E1. cbn [rbind]. rewrite app_assoc. by apply grown_write_ok.
  - by apply grown_write_ok.
Qed.

(** Reading when eight bytes more follow, or the value is short. *)
Lemma value_get_ok debug s A v R : valid debug v -> before s A (enc v ++ R) -> 8 <= Z.of_nat (length R) \/ short v ->
  get v s = Ok (v, at_pos s (Z.of_nat (length A) + Z.of_nat (length (enc v)))).
Proof.
  intros V Hb Hr.
  assert (forall w x R, int_width w -> 0 <= x < 2 ^ w -> before s A (var_bytes w x ++ R) ->
    fast_or_slow (if w =? 32 then 5 else 10) (gg_load_var_uint w) (gg_load_var_uint_slow readByte w) s = Ok (x, at_pos s (Z.of_nat (length A) + Z.of_nat (length (var_bytes w x))))) as HV.
  { intros w x R' Hw Hx HB. apply (fast_or_slow_ok _ _ _ s A (var_bytes w x) R' x HB); [intros; by apply load_uint_ok|intros; by apply slow_load_ok]. }
  assert (forall x, 0 <= x < 2 ^ 30 -> before s A (tag_bytes 2 x ++ R) -> 8 <= Z.of_nat (length R) \/ x < 2 ^ 14 ->
    read_var_uint30 s = Ok (x, at_pos s (Z.of_nat (length A) + Z.of_nat (length (tag_bytes 2 x))))) as H30.
  { intros x Hx HB Hs. apply (fast_or_slow_ok 4 _ _ s A _ R x HB); [intros; by apply load30_ok|]. rewrite length_app. intros L s' Hs'. apply slow30_ok; [lia|done]. }
  assert (forall x, 0 <= x < 2 ^ 61 -> before s A (tag_bytes 3 x ++ R) -> 8 <= Z.of_nat (length R) \/ x < 2 ^ 13 ->
    read_var_uint61 s = Ok (x, at_pos s (Z.of_nat (length A) + Z.of_nat (length (tag_bytes 3 x))))) as H61.
  { intros x Hx HB Hs. apply (fast_or_slow_ok 8 _ _ s A _ R x HB); [intros; by apply load61_ok|]. rewrite length_app. intros L s' Hs'. apply slow61_ok; [lia|done]. }
  destruct v; cbn [get enc valid short] in *.
  - rewrite (readByte_before s A b R) by done. done.
  - unfold read_var_uint32. change 5 with (if 32 =? 32 then 5 else 10). rewrite (HV 32 x R) by (done || by left). done.
  - unfold read_var_uint64. change 10 with (if 64 =? 32 then 5 else 10). rewrite (HV 64 x R) by (done || by right). done.
  - destruct (s2u_u2s 32 x) as [Hu Eu]; [lia|done|]. unfold read_var_int32, read_signed, read_var_uint32. change 5 with (if 32 =? 32 then 5 else 10). rewrite (HV 32 _ R) by (done || by left). cbn [rbind]. by rewrite Eu.
  - destruct (s2u_u2s 64 x) as [Hu Eu]; [lia|done|]. unfold read_var_int64, read_signed, read_var_uint64. change 10 with (if 64 =? 32 then 5 else 10). rewrite (HV 64 _ R) by (done || by right). cbn [rbind]. by rewrite Eu.
  - by rewrite (H30 x).
  - rewrite (H61 x); [done| |done|done]. destruct debug; lia.
  - destruct (s2u_small 32 x 30 ltac:(lia) V) as [Hx Hu]. unfold read_var_int30, read_signed. rewrite (H30 (var_int_s2u 32 x)); [|done|done|destruct Hr as [|Hr]; [by left|right; pose proof (proj2 (s2u_small 32 x 14 ltac:(lia) Hr)); lia]].
    cbn [rbind]. by rewrite (proj2 (s2u_u2s 32 x ltac:(lia) Hx)).
  - destruct (int61_small debug x V) as [Hx Hu]. unfold read_var_int61, read_signed. rewrite (H61 (var_int_s2u 64 x)); [|destruct debug; lia|done|destruct Hr as [|Hr]; [by left|right; pose proof (proj2 (s2u_small 64 x 13 ltac:(lia) Hr)); lia]].
    cbn [rbind]. by rewrite (proj2 (s2u_u2s 64 x ltac:(lia) Hx)).
  - destruct V as [Vb Vl]. rewrite <- app_assoc in Hb. unfold read_string, read_var_uint32. change 5 with (if 32 =? 32 then 5 else 10).
    rewrite (HV 32 (Z.of_nat (length str)) (str ++ R)) by (try done; try lia; by left). cbn [rbind]. apply before_step in Hb. rewrite !length_app.
    destruct (Z.eqb_spec (Z.of_nat (length str)) 0) as [E|E]; cbn [negb].
    + destruct str; [|done]. cbn [rbind length]. by rewrite Nat.add_0_r.
    + rewrite (ensureRead_ok _ _ str R Hb). cbn [rbind]. rewrite length_app. do 3 f_equal. lia.
  - rewrite (ensureRead_ok s A data R Hb). done.
Qed.

Definition enc_all (vs : list value) : list Z := concat (map enc vs).

Lemma put_all_ok junk debug vs : (forall i, 0 <= junk i < 256) -> Forall (valid debug) vs ->
  forall s bs, wrote s bs -> exists s', put_all junk debug s vs = Ok s' /\ wrote s' (bs ++ enc_all vs).
Proof.
  intros J. induction 1 as [|v vs V _ IH]; intros s bs W; [exists s; cbn; rewrite app_nil_r; done|]. cbn [put_all]. destruct (value_put_ok junk debug s bs v J W V) as (s1 & -> & W1).
  cbn [rbind]. destruct (IH s1 _ W1) as (s' & E & W'). exists s'. split; [done|]. unfold enc_all. cbn [map concat]. by rewrite app_assoc.
Qed.

Lemma get_all_ok debug vs : Forall (valid debug) vs -> forall s A R, before s A (enc_all vs ++ R) -> 8 <= Z.of_nat (length R) \/ Forall short vs ->
  get_all vs s = Ok (vs, at_pos s (Z.of_nat (length A) + Z.of_nat (length (enc_all vs)))).
Proof.
  induction 1 as [|v vs V _ IH]; intros s A R Hb Hr.
  - cbn. destruct Hb as (P & _). rewrite Z.add_0_r, <- P. by destruct s.
  - unfold enc_all in *. cbn [map concat get_all] in *. rewrite <- app_assoc in Hb.
    rewrite (value_get_ok debug s A v (concat (map enc vs) ++ R) V Hb) by (rewrite length_app; destruct Hr as [|Hr]; [left; lia|right; by inversion Hr]).
    cbn [rbind]. apply before_step in Hb. rewrite (IH _ _ R Hb) by (destruct Hr as [|Hr]; [by left|right; by inversion Hr]). cbn [rbind]. rewrite !length_app.
    unfold at_pos. cbn [mem m_end]. do 3 f_equal. lia.
Qed.

(** ** The theorems *)

(** C36: A memory stream gives back what was written to it: any sequence of bytes,
    integers of the eight kinds, strings and raw blocks, written to an
    [AutoGrownMemIO] of any initial size, needs just the bytes of the values'
    encodings; a [MemIO] over the block reads the same values and ends where the
    writer stood.  There is one condition on the reader: either it may read eight more
    bytes behind the last value, or all the integers whose first byte tells the length
    are short (at the end of a block the readers of longer ones are wrong, as
    [tail_readers_wrong] shows).  Of 61 bits the writers take, with assertions on, only
    numbers below [2 ^ 30] ([valid debug]). *)
Theorem memory_stream_roundtrip junk debug size vs :
  (forall i, 0 <= junk i < 256) -> 0 <= size -> Forall (valid debug) vs ->
  exists s, put_all junk debug (make junk size) vs = Ok s /\ tell s = Z.of_nat (length (enc_all vs)) /\ tell s <= capacity s /\
    forall extra, 0 <= extra -> tell s + extra <= capacity s -> 8 <= extra \/ Forall short vs ->
      get_all vs (IO (mem s) 0 (tell s + extra)) = Ok (vs, IO (mem s) (tell s) (tell s + extra)).
Proof.
  intros J Hs V. destruct (put_all_ok junk debug vs J V _ [] (make_wrote junk J size Hs)) as (s & E & W). cbn [app] in W. exists s. split; [done|].
  destruct W as [We Wp (l & M & B)]. unfold tell, capacity. split; [done|]. rewrite M, length_app in We. split; [lia|]. intros extra He Hc Hr.
  destruct (split_at l (Z.to_nat extra)) as (R & T & -> & LR); [lia|].
  rewrite (get_all_ok debug vs V _ [] R).
  - cbn. unfold at_pos. cbn. by rewrite Wp.
  - split; [done|]. split; [cbn [m_end length]; rewrite length_app; lia|]. exists T. cbn [mem app]. rewrite <- app_assoc. done.
  - destruct Hr; [left; lia|by right].
Qed.

(** A [MemIO] keeps to its block: whatever it is asked for, it moves at most what
    is left.  [readByte], [writeByte], [ensureRead] and [ensureWrite] throw when
    something is missing and have changed nothing then; [getByte] gives -1; [read]
    and [write] move what is left and say how much; bytes outside the block are not
    written. *)
Theorem mem_io_ends (A R T : list Z) (s : io) n data : 
  m_pos s = Z.of_nat (length A) -> m_end s = Z.of_nat (length A) + Z.of_nat (length R) -> mem s = A ++ R ++ T -> 0 <= n ->
  let avail := Z.of_nat (length R) in let k := Z.min n avail in let len := Z.of_nat (length data) in let w := Z.min len avail in
  remain s = avail /\ eof s = Ok (avail =? 0) /\
  ensureRead s n = (if n <=? avail then Ok (take (Z.to_nat n) R, at_pos s (m_pos s + n)) else Throw EndOfFileException) /\
  read s n = Ok (take (Z.to_nat k) R, at_pos s (m_pos s + k)) /\
  ensureWrite s data = (if len <=? avail then Ok (IO (A ++ data ++ drop (length data) R ++ T) (m_pos s + len) (m_end s)) else Throw OutOfSpaceException) /\
  write s data = Ok (w, IO (A ++ take (Z.to_nat w) data ++ drop (Z.to_nat w) R ++ T) (m_pos s + w) (m_end s)) /\
  readByte s = match R with b :: _ => Ok (b, at_pos s (m_pos s + 1)) | [] => Throw EndOfFileException end /\
  getByte s = match R with b :: _ => Ok (b, at_pos s (m_pos s + 1)) | [] => Ok (-1, s) end.
Proof.
  intros P E M Hn. cbv zeta. 
  assert (forall k, 0 <= k <= Z.of_nat (length R) -> memcpy_out (mem s) (m_pos s) k = Ok (take (Z.to_nat k) R)) as Out.
  { intros k Hk. destruct (split_at R (Z.to_nat k)) as (R1 & R2 & -> & L1); [lia|]. rewrite M, P, <- app_assoc, (memcpy_out_mid A R1 (R2 ++ T)) by lia. by rewrite <- L1, take_app_length. }
  assert (forall d, Z.of_nat (length d) <= Z.of_nat (length R) -> memcpy_in (mem s) (m_pos s) d = Ok (A ++ d ++ drop (length d) R ++ T)) as In.
  { intros d Hd. destruct (split_at R (length d)) as (R1 & R2 & -> & L1); [lia|]. rewrite M, P, <- app_assoc, (memcpy_in_mid A R1 (R2 ++ T)) by done. by rewrite <- L1, drop_app_length. }
  assert ((m_pos s <? m_end s) = match R with [] => false | _ => true end) as EL.
  { rewrite P, E. destruct R; cbn [length]; [apply Z.ltb_ge; lia|apply Z.ltb_lt; lia]. }
  split; [unfold remain; lia|]. split.
  { unfold eof. rewrite (proj2 (Z.leb_le _ _)) by lia. cbn [assert_ rbind]. do 1 f_equal. destruct (Z.eqb_spec (m_pos s) (m_end s)), (Z.eqb_spec (Z.of_nat (length R)) 0); (done || lia). }
  split. { unfold ensureRead. destruct (Z.leb_spec n (Z.of_nat (length R))), (Z.leb_spec (m_pos s + n) (m_end s)); try lia; [|done]. rewrite Out by lia. done. }
  split. { unfold read. assert ((if m_end s - m_pos s <? n then m_end s - m_pos s else n) = Z.min n (Z.of_nat (length R))) as -> by (destruct (Z.ltb_spec (m_end s - m_pos s) n); lia).
    rewrite Out by lia. done. }
  split. { unfold ensureWrite. destruct (Z.leb_spec (Z.of_nat (length data)) (Z.of_nat (length R))), (Z.leb_spec (m_pos s + Z.of_nat (length data)) (m_end s)); try lia; [|done]. rewrite In by lia. done. }
  split. { unfold write. assert ((if m_end s - m_pos s <? Z.of_nat (length data) then m_end s - m_pos s else Z.of_nat (length data)) = Z.min (Z.of_nat (length data)) (Z.of_nat (length R))) as -> by (destruct (Z.ltb_spec (m_end s - m_pos s) (Z.of_nat (length data))); lia).
    set (w := Z.min (Z.of_nat (length data)) (Z.of_nat (length R))). assert (length (take (Z.to_nat w) data) = Z.to_nat w) as Ew by (rewrite length_take; lia). rewrite In by lia. by rewrite Ew. }
  unfold readByte, getByte. rewrite EL. destruct R as [|b R]; [done|]. rewrite M, P. change (A ++ (b :: R) ++ T) with (A ++ [b] ++ (R ++ T)). rewrite (rd_mid A [b] (R ++ T) 0 b) by (done || lia). done.
Qed.

(** Three bytes at the end of a block, read one by one. *)
Lemma tail_before A d T : bytes (A ++ d ++ T) -> before (IO (A ++ d ++ T) (Z.of_nat (length A)) (Z.of_nat (length A) + Z.of_nat (length d))) A (d ++ []).
Proof. intros B. rewrite app_nil_r. split; [done|]. split; [done|]. by exists T. Qed.

(** At the end of a block, where fewer than four or eight bytes are left, the
    readers of integers whose first byte tells the length put the other bytes
    together in the wrong order: 16384 and 8192, written there, are read as 64 and
    32; with one more byte behind it 16384 is read rightly.  And [write_var_uint61] of
    a debug build refuses numbers from [2 ^ 30] on, which have room in 61 bits. *)
Theorem tail_readers_wrong (A l T : list Z) : bytes A -> bytes T -> length l = 3%nat ->
  let p := Z.of_nat (length A) in
  (exists m, gg_save_var_uint30 true (A ++ l ++ T) p 16384 = Ok (m, p + 3) /\ read_var_uint30 (IO m p (p + 3)) = Ok (64, IO m (p + 3) (p + 3)) /\
     ((1 <= length T)%nat -> read_var_uint30 (IO m p (p + 4)) = Ok (16384, IO m (p + 3) (p + 4)))) /\
  (exists m, gg_save_var_uint61 true (A ++ l ++ T) p 8192 = Ok (m, p + 3) /\ read_var_uint61 (IO m p (p + 3)) = Ok (32, IO m (p + 3) (p + 3))) /\
  (forall mem q x, 2 ^ 30 <= x -> gg_save_var_uint61 true mem q x = UB).
Proof.
  intros HA HT Hl. cbv zeta. split; [|split].
  - assert (tag_bytes 2 16384 = [2; 0; 1]) as Et by reflexivity. pose proof (save30_ok true 16384 A l T ltac:(lia)) as S. rewrite Et in S.
    exists (A ++ [2; 0; 1] ++ T). split; [by apply S|]. assert (bytes (A ++ [2; 0; 1] ++ T)) as B by (apply bytes_app; split; [done|]; repeat constructor; lia || done).
    split.
    + pose proof (readByte_reads [2; 0; 1] _ A [] (tail_before A [2; 0; 1] T B)) as (s1 & E1 & s2 & E2 & s3 & E3 & Es). unfold read_var_uint30, fast_or_slow, buf_remain_bytes. cbn [m_end m_pos].
      rewrite (proj2 (Z.leb_gt _ _)) by lia. unfold gg_load_var_uint30_slow. change (Z.of_nat (length [2; 0; 1])) with 3 in E1. rewrite E1. cbn [rbind]. change (Z.to_nat (Z.land 2 3)) with 2%nat. cbn [read_more].
      rewrite E2. cbn [rbind]. rewrite E3. cbn [rbind]. rewrite Es. reflexivity.
    + intros LT. pose proof (load30_ok A T 16384 ltac:(lia) HT) as L. rewrite Et in L. unfold read_var_uint30, fast_or_slow, buf_remain_bytes. cbn [m_end m_pos mem].
      rewrite (proj2 (Z.leb_le _ _)) by lia. rewrite L by (rewrite length_app; cbn [length]; lia). done.
  - assert (tag_bytes 3 8192 = [2; 0; 1]) as Et by reflexivity. pose proof (save61_ok true 8192 A l T ltac:(lia)) as S. rewrite Et in S.
    exists (A ++ [2; 0; 1] ++ T). split; [by apply S|]. assert (bytes (A ++ [2; 0; 1] ++ T)) as B by (apply bytes_app; split; [done|]; repeat constructor; lia || done).
    pose proof (readByte_reads [2; 0; 1] _ A [] (tail_before A [2; 0; 1] T B)) as (s1 & E1 & s2 & E2 & s3 & E3 & Es). unfold read_var_uint61, fast_or_slow, buf_remain_bytes. cbn [m_end m_pos].
    rewrite (proj2 (Z.leb_gt _ _)) by lia. unfold gg_load_var_uint61_slow. change (Z.of_nat (length [2; 0; 1])) with 3 in E1. rewrite E1. cbn [rbind]. change (Z.to_nat (Z.land 2 7)) with 2%nat. cbn [read_more].
    rewrite E2. cbn [rbind]. rewrite E3. cbn [rbind]. rewrite Es. reflexivity.
  - intros mem q x Hx. unfold gg_save_var_uint61. change (Z.shiftl 1 30) with (2 ^ 30). rewrite (proj2 (Z.ltb_ge _ _)) by lia. done.
Qed.

(** ** Samples *)

Definition demo_junk (i : Z) : Z := 7.
Definition demo_values : list value := [VByte 255; VInt64 (- 2 ^ 63); VString [104; 105]; VUint30 300; VInt61 (-5); VRaw [1; 2; 3]; VUint32 (2 ^ 32 - 1)].

Lemma demo_values_ok : Forall (valid true) demo_values /\ Forall short demo_values.
Proof. split; repeat (constructor; [cbn; lia || (split; [repeat constructor; lia|lia]) || (repeat constructor; lia)|]); constructor. Qed.

Lemma memory_stream_roundtrip_witness : exists s, put_all demo_junk true (make demo_junk 4) demo_values = Ok s /\ tell s = 16 /\
  exists s', get_all demo_values (written s) = Ok (demo_values, s') /\ eof s' = Ok true.
Proof.
  destruct demo_values_ok as [V Sh]. destruct (memory_stream_roundtrip demo_junk true 4 demo_values) as (s & E & Ht & Hc & G); [intros; unfold demo_junk; lia|lia|exact V|].
  exists s. split; [exact E|]. split; [rewrite Ht; reflexivity|]. exists (IO (mem s) (tell s) (tell s + 0)). split.
  - replace (written s) with (IO (mem s) 0 (tell s + 0)) by (unfold written, tell; by rewrite Z.add_0_r). apply G; [lia|rewrite Z.add_0_r; exact Hc|right; exact Sh].
  - unfold eof. cbn [m_pos m_end]. rewrite Z.add_0_r, Z.leb_refl. cbn [assert_ rbind]. by rewrite Z.eqb_refl.
Defined.

Lemma mem_io_ends_witness : ensureRead (IO [9; 1; 2; 3; 8] 1 4) 4 = Throw EndOfFileException /\ read (IO [9; 1; 2; 3; 8] 1 4) 4 = Ok ([1; 2; 3], IO [9; 1; 2; 3; 8] 4 4).
Proof.
  destruct (mem_io_ends [9] [1; 2; 3] [8] (IO [9; 1; 2; 3; 8] 1 4) 4 [] eq_refl eq_refl eq_refl ltac:(lia)) as (_ & _ & R & Rd & _). split; [exact R|exact Rd].
Defined.

Lemma tail_readers_wrong_witness : exists m, gg_save_var_uint30 true ([] ++ [7; 7; 7] ++ [8]) 0 16384 = Ok (m, 3) /\ read_var_uint30 (IO m 0 3) = Ok (64, IO m 3 3) /\ read_var_uint30 (IO m 0 4) = Ok (16384, IO m 3 4).
Proof.
  destruct (tail_readers_wrong [] [7; 7; 7] [8]) as ((m & E & R & R4) & _); [constructor|repeat constructor; lia|reflexivity|]. exists m. split; [exact E|]. split; [exact R|]. apply R4. cbn; lia.
Defined.
End MemStreamProps.
