(* ===== verification/FreqHist.v ===== *)
(** * Frequencies for the entropy coders

    [freq_hist] of [entropy/entropy_base.hpp] and [entropy/entropy_base.cpp]: counting
    the bytes of records, and scaling the counts to a total that the coders can use. *)
From S2P Require Import Prelude Bytes.
Import Bytes.

Module FreqHist.

(** ** Counting *)

Record freq_hist := Hist { o0_size : Z; o0 : list Z; h1 : list Z; h2 : list Z; h3 : list Z; min_ : Z; max_ : Z }.

Definition MAGIC : Z := 8.
Definition zeros (n : Z) : list Z := replicate (Z.to_nat n) 0.

(** The constructor and [clear]. *)
Definition make (min_len max_len : Z) : freq_hist :=
  Hist 0 (zeros 256) (zeros (256 + MAGIC)) (zeros (256 + MAGIC)) (zeros (256 + MAGIC)) min_len max_len.

(** [++h[*in]] *)
Definition incr (h : list Z) (record : list Z) (i : Z) : res (list Z) :=
  let* c := rd record i in let* v := rd h c in wr h c (u64 (v + 1)).

Definition add_record (f : freq_hist) (record : list Z) : res freq_hist :=
  let size := Z.of_nat (length record) in
  if (size <? min_ f) || (max_ f <? size) then Ok f else
  let idiv4 := size / 4 in
  let in0 := size mod 4 in
  let* o := for_ 0 in0 (fun i o => incr o record i) (o0 f) in
  let* (o, a, b, c) := for_ 0 idiv4 (fun i '(o, a, b, c) =>
    let* o := incr o record (in0 + i) in
    let* a := incr a record (in0 + idiv4 * 1 + i) in
    let* b := incr b record (in0 + idiv4 * 2 + i) in
    let* c := incr c record (in0 + idiv4 * 3 + i) in Ok (o, a, b, c)) (o, h1 f, h2 f, h3 f) in
  Ok (Hist (u64 (o0_size f + size)) o a b c (min_ f) (max_ f)).

Definition finish (f : freq_hist) : res freq_hist :=
  let* o := for_ 0 256 (fun i o =>
    let* v := rd o i in let* a := rd (h1 f) i in let* b := rd (h2 f) i in let* c := rd (h3 f) i in
    wr o i (u64 (v + (a + b + c)))) (o0 f) in
  Ok (Hist (o0_size f) o (h1 f) (h2 f) (h3 f) (min_ f) (max_ f)).

(** ** Scaling *)

(** [std::partial_sort]: a permutation whose first [s] elements are sorted and not
    behind the others. *)
Class PartialSort (partial_sort : (Z -> Z -> bool) -> Z -> list Z -> list Z) : Prop := {
  ps_perm lt s l : Permutation (partial_sort lt s l) l;
  ps_sorted lt s l i j x y :
    (forall a b, lt a b = true -> lt b a = false) -> (forall a b c, lt b a = false -> lt c b = false -> lt c a = false) ->
    (Z.of_nat i < s) -> (i < j)%nat -> partial_sort lt s l !! i = Some x -> partial_sort lt s l !! j = Some y -> lt y x = false
}.

Section normalise.
(** The product [h[i] * p] in double precision, for a total and a sum. *)
Context (scale : Z -> Z -> Z -> Z) (partial_sort : (Z -> Z -> bool) -> Z -> list Z -> list Z).

(** The loops over [seq[0 .. s)], round and round, until [t] is 0. *)
Definition spread (ok : Z -> bool) (dv s : Z) (seq : list Z) (h : list Z) (t : Z) : res (list Z) :=
  loop (Z.to_nat (t * s + s)) (fun '(h, i, t) =>
    if 0 <? t then
      let* k := rd seq i in
      let* v := rd h k in
      let* (h, t) := if ok v then let* h := wr h k (v + dv) in Ok (h, t - 1) else Ok (h, t) in
      Ok (inl (h, (i + 1) mod s, t))
    else Ok (inr h)) (h, 0, t).

Definition count_at (h : list Z) (k : Z) : Z := nth (Z.to_nat k) h 0.

(** The counts and their sum. *)
Definition normalise_hist (h : list Z) (size normalise : Z) : res (list Z * Z) :=
  let* _ := assert_ (zsum h =? size) in
  if size =? 0 then Ok (h, size) else
  let* (h, t, s) := for_ 0 256 (fun i '(h, t, s) =>
    let* v := rd h i in
    if v =? 0 then Ok (h, t, s) else
    let v := scale normalise size v in
    let v := if v =? 0 then 1 else v in
    let* h := wr h i v in Ok (h, t + v, s + 1)) (h, 0, 0) in
  if s =? 0 then Ok (h, size) else
  let t := if s =? 1 then t + 1 else t in
  let seq := seqZ 0 256 in
  if t <? normalise then
    let t := normalise - t in
    let s := Z.min t 256 in
    let seq := partial_sort (fun l r => count_at h r <? count_at h l) s seq in
    let* h := spread (fun v => 0 <? v) 1 s seq h t in Ok (h, normalise)
  else if normalise <? t then
    let t := t - normalise in
    let s := Z.min t 256 in
    let key := fun k => if count_at h k <=? 1 then 2 ^ 64 - 1 else count_at h k in
    let seq := partial_sort (fun l r => key l <? key r) s seq in
    let* h := spread (fun v => 1 <? v) (-1) s seq h t in Ok (h, normalise)
  else Ok (h, normalise).

Definition normalise (f : freq_hist) (norm : Z) : res freq_hist :=
  let* _ := assert_ (256 <=? norm) in
  let* (o, size) := normalise_hist (o0 f) (o0_size f) norm in
  Ok (Hist size o (h1 f) (h2 f) (h3 f) (min_ f) (max_ f)).
End normalise.
End FreqHist.
