(* ===== verification/FreqHistProps.v ===== *)
(** * What [freq_hist] counts, and that scaling is right

    The counts of any records; scaled counts have the total asked for and are zero
    just where the counts are. *)
From Stdlib Require Import Sorting.Sorted.
From S2P Require Import Prelude Bytes FreqHist.
Import Bytes FreqHist.

Module FreqHistProps.

(** ** Counting *)

Fixpoint occ (c : Z) (l : list Z) : Z := match l with [] => 0 | b :: l => Z.b2z (b =? c) + occ c l end.

Lemma occ_app c l l' : occ c (l ++ l') = occ c l + occ c l'.
Proof. induction l as [|b l IH]; [done|]. cbn [app occ]. lia. Qed.

Lemma occ_bounds c l : 0 <= occ c l <= Z.of_nat (length l).
Proof. induction l as [|b l IH]; cbn [occ length]; [lia|]. destruct (b =? c); cbn [Z.b2z]; lia. Qed.

Lemma sum_map_add {A} (f g : A -> Z) l : zsum (map (fun k => f k + g k) l) = zsum (map f l) + zsum (map g l).
Proof. induction l as [|a l IH]; [done|]. cbn [map]. rewrite !zsum_cons. lia. Qed.

Lemma sum_map_const {A} (f : A -> Z) l : (forall a, In a l -> f a = 0) -> zsum (map f l) = 0.
Proof. induction l as [|a l IH]; intros H; [done|]. cbn [map]. rewrite zsum_cons, H by (by left). rewrite IH; [done|]. intros; apply H; by right. Qed.

Lemma sum_point b m n : m <= b < m + n -> zsum (map (fun c => Z.b2z (b =? c)) (seqZ m n)) = 1.
Proof.
  intros Hb. replace n with ((b - m) + (1 + (m + n - b - 1))) by lia. rewrite !seqZ_app by lia. rewrite !map_app.
  assert (forall l l', zsum (l ++ l') = zsum l + zsum l') as Ha. { induction l as [|a l IH]; intros; [done|]. cbn [app]. rewrite !zsum_cons, IH. lia. }
  rewrite !Ha. rewrite sum_map_const. 2:{ intros c Hc. apply list_elem_of_In, elem_of_seqZ in Hc. rewrite (proj2 (Z.eqb_neq b c)) by lia. done. }
  rewrite (sum_map_const _ (seqZ (m + (b - m) + 1) _)). 2:{ intros c Hc. apply list_elem_of_In, elem_of_seqZ in Hc. rewrite (proj2 (Z.eqb_neq b c)) by lia. done. }
  replace (m + (b - m)) with b by lia. replace (seqZ b 1) with [b] by (cbn; f_equal; lia). cbn [map]. rewrite zsum_cons, Z.eqb_refl. done.
Qed.

(** Every byte is counted once. *)
Lemma sum_occ l : bytes l -> zsum (map (fun c => occ c l) (seqZ 0 256)) = Z.of_nat (length l).
Proof.
  induction 1 as [|b l Hb _ IH]; [by apply sum_map_const|]. cbn [occ length]. rewrite sum_map_add, IH, sum_point by lia. lia.
Qed.

Definition counts (B : Z) (h : list Z) : Prop := (256 <= length h)%nat /\ forall c, 0 <= c -> 0 <= count_at h c <= B.

Lemma count_rd h c : 0 <= c < Z.of_nat (length h) -> rd h c = Ok (count_at h c).
Proof. apply rd_word. Qed.

Lemma count_insert h c k v : 0 <= c < Z.of_nat (length h) -> 0 <= k -> count_at (<[Z.to_nat c := v]> h) k = if decide (k = c) then v else count_at h k.
Proof. apply word_at_insert. Qed.

(** [h] is [h0] and the bytes of [l]. *)
Definition adds (h0 : list Z) (l : list Z) (h : list Z) : Prop := length h = length h0 /\ forall c, 0 <= c -> count_at h c = count_at h0 c + occ c l.

Lemma incr_ok B h0 h l record i b : counts B h0 -> adds h0 l h -> B + Z.of_nat (length l) + 1 < 2 ^ 64 -> rd record i = Ok b -> 0 <= b < 256 ->
  exists h', incr h record i = Ok h' /\ adds h0 (l ++ [b]) h'.
Proof.
  intros [L0 H0] [L H] HB Hr Hb. unfold incr. rewrite Hr. cbn [rbind]. rewrite count_rd by lia. cbn [rbind]. rewrite wr_ok by lia. eexists. split; [done|].
  split; [by rewrite length_insert|]. intros c Hc. rewrite count_insert by lia. rewrite occ_app. cbn [occ]. pose proof (occ_bounds b l). pose proof (H0 b ltac:(lia)).
  rewrite !H by lia. unfold u64. destruct (decide (c = b)) as [->|Hne].
  - rewrite Z.eqb_refl, Z.mod_small by lia. cbn [Z.b2z]. lia.
  - rewrite (proj2 (Z.eqb_neq b c)) by lia. cbn [Z.b2z]. lia.
Qed.

(** The bytes from [p] on, [i] of them. *)
Definition part (record : list Z) (p i : Z) : list Z := map (byte_at record) (seqZ p i).

Lemma part_next record p i : 0 <= i -> part record p (i + 1) = part record p i ++ [byte_at record (p + i)].
Proof. intros Hi. unfold part. rewrite seqZ_app, map_app by lia. done. Qed.

Lemma part_app record p i j : 0 <= i -> 0 <= j -> part record p (i + j) = part record p i ++ part record (p + i) j.
Proof. intros Hi Hj. unfold part. by rewrite seqZ_app, map_app by lia. Qed.

Lemma part_all record : part record 0 (Z.of_nat (length record)) = record.
Proof.
  unfold part. apply list_eq_same_length with (length record); [done|by rewrite length_map, length_seqZ, Nat2Z.id|]. intros i x y Hi. rewrite list_lookup_fmap, lookup_seqZ_lt by lia.
  cbn. intros [= <-] Hy. unfold byte_at. rewrite nth_lookup. replace (Z.to_nat _) with i by lia. by rewrite Hy.
Qed.

Lemma part_length record p i : length (part record p i) = Z.to_nat i.
Proof. unfold part. by rewrite length_map, length_seqZ. Qed.

Lemma incr_part B h0 h record p i : counts B h0 -> bytes record -> 0 <= p -> 0 <= i -> p + i < Z.of_nat (length record) -> B + i + 1 < 2 ^ 64 ->
  adds h0 (part record p i) h -> exists h', incr h record (p + i) = Ok h' /\ adds h0 (part record p (i + 1)) h'.
Proof.
  intros Hc Hb Hp Hi Hl HB Ha. rewrite part_next by done. apply (incr_ok B); [done|done|rewrite part_length; lia|by apply rd_word; lia|by apply byte_range].
Qed.

Lemma adds_refl h : adds h [] h.
Proof. split; [done|]. intros. cbn. lia. Qed.

Lemma adds_trans h l h' l' h'' : adds h l h' -> adds h' l' h'' -> adds h (l ++ l') h''.
Proof. intros [L H] [L' H']. split; [lia|]. intros c Hc. rewrite H', H, occ_app by done. lia. Qed.

Lemma adds_counts B h l h' : counts B h -> adds h l h' -> counts (B + Z.of_nat (length l)) h'.
Proof. intros [L H] [L' H']. split; [lia|]. intros c Hc. rewrite H' by done. pose proof (H c Hc). pose proof (occ_bounds c l). lia. Qed.

Definition good (f : freq_hist) : Prop :=
  length (o0 f) = 256%nat /\ 0 <= o0_size f /\ counts (o0_size f) (o0 f) /\ counts (o0_size f) (h1 f) /\ counts (o0_size f) (h2 f) /\ counts (o0_size f) (h3 f).
Definition total (f : freq_hist) (c : Z) : Z := count_at (o0 f) c + (count_at (h1 f) c + count_at (h2 f) c + count_at (h3 f) c).
Definition eligible (f : freq_hist) (record : list Z) : bool := (min_ f <=? Z.of_nat (length record)) && (Z.of_nat (length record) <=? max_ f).

Lemma add_record_ok f record : good f -> bytes record -> o0_size f + Z.of_nat (length record) < 2 ^ 64 -> exists f',
  add_record f record = Ok f' /\ good f' /\ min_ f' = min_ f /\ max_ f' = max_ f /\
  let l := if eligible f record then record else [] in
  o0_size f' = o0_size f + Z.of_nat (length l) /\ forall c, 0 <= c -> total f' c = total f c + occ c l.
Proof.
  intros (Lo & H0 & Co & C1 & C2 & C3) Hb HB. unfold add_record, eligible. rewrite Z.ltb_antisym, (Z.ltb_antisym (Z.of_nat _)), <- negb_andb.
  destruct (_ && _); cbn [negb].
  2:{ exists f. split; [done|]. split; [done|]. split; [done|]. split; [done|]. cbv zeta. cbn [length occ]. split; [lia|]. intros; lia. }
  set (size := Z.of_nat (length record)) in *. pose proof (Z.div_mod size 4 ltac:(lia)) as Hd. pose proof (Z.mod_pos_bound size 4 ltac:(lia)) as Hm.
  assert (0 <= size / 4) by (apply Z.div_pos; lia). set (q := size / 4) in *. set (r := size mod 4) in *. set (B := o0_size f) in *.
  destruct (for_inv (fun i o => adds (o0 f) (part record 0 i) o) (fun i o => incr o record i) 0 r (o0 f)) as (o1 & E1 & A1); [lia|apply adds_refl| |].
  { intros i o Hi Ha. destruct (incr_part B (o0 f) o record 0 i Co Hb) as (o' & E & Ha'); [lia..|done|]. exists o'. split; [exact E|exact Ha']. }
  rewrite E1. cbn [rbind]. assert (Co1 : counts (B + r) o1). { pose proof (adds_counts B (o0 f) _ o1 Co A1) as H1. rewrite part_length, Z2Nat.id in H1 by lia. exact H1. }
  destruct (for_inv (fun i '(o, a, b, c) => adds o1 (part record r i) o /\ adds (h1 f) (part record (r + q * 1) i) a /\ adds (h2 f) (part record (r + q * 2) i) b /\ adds (h3 f) (part record (r + q * 3) i) c)
    (fun i '(o, a, b, c) => let* o := incr o record (r + i) in let* a := incr a record (r + q * 1 + i) in let* b := incr b record (r + q * 2 + i) in
      let* c := incr c record (r + q * 3 + i) in Ok (o, a, b, c)) 0 q (o1, h1 f, h2 f, h3 f)) as ([[[o2 a] b] c] & E2 & A2 & Aa & Ab & Ac); [lia|split_and!; apply adds_refl| |].
  { intros i [[[o a] b] c] Hi (Ha & Hb1 & Hb2 & Hb3).
    destruct (incr_part (B + r) o1 o record r i Co1 Hb) as (o' & -> & Ha'); [lia..|done|]. cbn [rbind].
    destruct (incr_part B (h1 f) a record (r + q * 1) i C1 Hb) as (a' & -> & Hb1'); [lia..|done|]. cbn [rbind].
    destruct (incr_part B (h2 f) b record (r + q * 2) i C2 Hb) as (b' & -> & Hb2'); [lia..|done|]. cbn [rbind].
    destruct (incr_part B (h3 f) c record (r + q * 3) i C3 Hb) as (c' & -> & Hb3'); [lia..|done|]. cbn [rbind]. eexists. split; [done|]. done. }
  rewrite E2. cbn [rbind]. eexists. split; [done|]. unfold u64. cbn [o0 o0_size h1 h2 h3 min_ max_]. rewrite Z.mod_small by lia.
  pose proof (adds_trans _ _ _ _ _ A1 A2) as Ao.
  assert (Hparts : record = part record 0 r ++ part record r q ++ part record (r + q * 1) q ++ part record (r + q * 2) q ++ part record (r + q * 3) q).
  { rewrite <- (part_all record) at 1. fold size. replace size with (r + (q + (q + (q + q)))) by lia. rewrite !part_app by lia. do 2 f_equal. f_equal; [f_equal; lia|]. f_equal; [f_equal; lia|f_equal; lia]. }
  assert (Hwk : forall h l h', counts B h -> adds h l h' -> (length l <= length record)%nat -> counts (B + size) h').
  { intros h l h' Hc Ha Hl. destruct (adds_counts B h l h' Hc Ha) as [? Hcc]. split; [done|]. intros k Hk. specialize (Hcc k Hk). lia. }
  split; [|split; [done|split; [done|]]].
  - split; [cbn; destruct Ao as [Lao _]; lia|]. split; [cbn; lia|]. cbn [o0 h1 h2 h3 o0_size].
    assert (HL : forall p i, 0 <= i <= size -> (length (part record p i) <= length record)%nat) by (intros; rewrite part_length; lia).
    split; [apply (Hwk _ _ _ Co Ao); rewrite length_app, !part_length; lia|].
    split; [apply (Hwk _ _ _ C1 Aa), HL; lia|]. split; [apply (Hwk _ _ _ C2 Ab), HL; lia|apply (Hwk _ _ _ C3 Ac), HL; lia].
  - split; [done|]. intros k Hk. unfold total. cbn [o0 h1 h2 h3]. destruct Ao as [_ Ao], Aa as [_ Aa], Ab as [_ Ab], Ac as [_ Ac]. rewrite Ao, Aa, Ab, Ac by done.
    rewrite Hparts at 6. rewrite !occ_app. lia.
Qed.

(** Several records, one after the other. *)
Fixpoint add_records (f : freq_hist) (rs : list (list Z)) : res freq_hist :=
  match rs with [] => Ok f | r :: rs => let* f := add_record f r in add_records f rs end.
Definition counted (f : freq_hist) (rs : list (list Z)) : list Z := concat (filter (fun r => eligible f r = true) rs).

Lemma add_records_ok rs : forall f, good f -> Forall bytes rs -> o0_size f + Z.of_nat (length (concat rs)) < 2 ^ 64 -> exists f',
  add_records f rs = Ok f' /\ good f' /\ o0_size f' = o0_size f + Z.of_nat (length (counted f rs)) /\
  forall c, 0 <= c -> total f' c = total f c + occ c (counted f rs).
Proof.
  induction rs as [|r rs IH]; intros f Hg Hb HB.
  - exists f. cbn. split; [done|]. split; [done|]. split; [lia|]. intros; lia.
  - cbn [add_records concat] in *. rewrite length_app in HB. destruct (add_record_ok f r Hg (List.Forall_inv Hb) ltac:(lia)) as (f1 & -> & Hg1 & Hmin & Hmax & Hsz & Ht).
    cbn [rbind]. assert (Hsz1 : o0_size f1 <= o0_size f + Z.of_nat (length r)) by (rewrite Hsz; destruct (eligible f r); cbn; lia).
    destruct (IH f1 Hg1 (List.Forall_inv_tail Hb) ltac:(lia)) as (f2 & -> & Hg2 & Hsz2 & Ht2). exists f2. split; [done|]. split; [done|].
    assert (counted f1 rs = counted f rs) as Ec. { unfold counted, eligible. by rewrite Hmin, Hmax. }
    rewrite Ec in *. assert (counted f (r :: rs) = (if eligible f r then r else []) ++ counted f rs) as ->.
    { unfold counted. rewrite filter_cons. case_decide as Hd; [by rewrite Hd|]. apply not_true_is_false in Hd. by rewrite Hd. }
    rewrite length_app. split; [lia|]. intros c Hc. rewrite Ht2, Ht, occ_app by done. lia.
Qed.

Lemma make_good a b : good (make a b) /\ forall c, total (make a b) c = 0.
Proof.
  assert (forall n c, count_at (zeros n) c = 0) as Hz.
  { intros n c. unfold count_at, zeros. rewrite nth_lookup. destruct (_ !! _) as [v|] eqn:E; [|done]. by apply lookup_replicate in E as [-> _]. }
  split; [|intros c; unfold total; cbn [o0 h1 h2 h3 make]; by rewrite !Hz].
  split; [done|]. split; [cbn; lia|]. assert (forall n, 256 <= n -> counts 0 (zeros n)) as Hc.
  { intros n Hn. split; [unfold zeros; rewrite length_replicate; lia|]. intros c _. rewrite Hz. lia. }
  cbn [o0_size make o0 h1 h2 h3]. unfold MAGIC. split; [apply Hc; lia|]. split; [apply Hc; lia|]. split; apply Hc; lia.
Qed.

Lemma hist_finish_ok f : good f -> (forall c, 0 <= c -> total f c < 2 ^ 64) -> exists f', finish f = Ok f' /\ length (o0 f') = 256%nat /\ o0_size f' = o0_size f /\
  forall c, 0 <= c < 256 -> count_at (o0 f') c = total f c.
Proof.
  intros (Lo & H0 & Co & (L1 & C1) & (L2 & C2) & (L3 & C3)) HB. unfold finish.
  destruct (for_inv (fun i o => length o = 256%nat /\ forall c, 0 <= c < 256 -> count_at o c = if c <? i then total f c else count_at (o0 f) c)
    (fun i o => let* v := rd o i in let* a := rd (h1 f) i in let* b := rd (h2 f) i in let* c := rd (h3 f) i in wr o i (u64 (v + (a + b + c)))) 0 256 (o0 f)) as (o & E & Lo' & Hc); [lia| | |].
  - split; [done|]. intros c Hc. destruct (Z.ltb_spec c 0); [lia|done].
  - intros i o Hi (L & Hc). rewrite !count_rd by lia. cbn [rbind]. rewrite wr_ok by lia. eexists. split; [done|]. split; [by rewrite length_insert|].
    intros c Hcc. rewrite count_insert by lia. rewrite !Hc by lia. destruct (Z.ltb_spec i i); [lia|]. destruct (decide (c = i)) as [->|Hne].
    + rewrite (proj2 (Z.ltb_lt _ _)) by lia. destruct Co as [_ Co]. specialize (HB i ltac:(lia)). pose proof (Co i ltac:(lia)). pose proof (C1 i ltac:(lia)). pose proof (C2 i ltac:(lia)). pose proof (C3 i ltac:(lia)).
      unfold u64. unfold total in *. apply Z.mod_small. lia.
    + destruct (Z.ltb_spec c i), (Z.ltb_spec c (i + 1)); (lia || done).
  - rewrite E. cbn [rbind]. eexists. split; [done|]. cbn [o0 o0_size]. split; [done|]. split; [done|]. intros c Hcc. rewrite Hc by done. destruct (Z.ltb_spec c 256); [done|lia].
Qed.

(** ** Scaling *)

Section spread.
Context (ok : Z -> bool) (dv s : Z) (seq : list Z) (J : list Z -> Z -> Prop).
Hypothesis (Hs : 0 < s) (Hseq : forall i, 0 <= i < s -> exists k, rd seq i = Ok k /\ 0 <= k < 256)
  (HL : forall h t, J h t -> length h = 256%nat)
  (Hok : forall h t, J h t -> 0 < t -> exists i k, 0 <= i < s /\ rd seq i = Ok k /\ ok (count_at h k) = true)
  (Hstep : forall h t i k, J h t -> 0 < t -> 0 <= i < s -> rd seq i = Ok k -> ok (count_at h k) = true -> J (<[Z.to_nat k := count_at h k + dv]> h) (t - 1)).

Lemma spread_loop fuel : forall h i t, J h t -> 0 <= t -> 0 <= i < s ->
  (t = 0 /\ (0 < fuel)%nat \/ 0 < t /\ exists i0 k, 0 <= i0 < s /\ rd seq i0 = Ok k /\ ok (count_at h k) = true /\ t * s + (i0 - i) mod s < Z.of_nat fuel) ->
  exists h', loop fuel (fun '(h, i, t) => if 0 <? t then
      let* k := rd seq i in let* v := rd h k in
      let* (h, t) := if ok v then let* h := wr h k (v + dv) in Ok (h, t - 1) else Ok (h, t) in Ok (inl (h, (i + 1) mod s, t))
    else Ok (inr h)) (h, i, t) = Ok h' /\ J h' 0.
Proof.
  induction fuel as [|fuel IH]; intros h i t HJ Ht Hi Hf; [destruct Hf as [[_ Hf]|(_ & ? & ? & Hi0 & _ & _ & Hf)]; [lia|pose proof (Z.mod_pos_bound (x - i) s Hs); nia]|].
  cbn [loop]. destruct Hf as [[-> _]|(Ht0 & i0 & k0 & Hi0 & Hk0 & Hok0 & Hf)].
  - change (0 <? 0) with false. cbn [rbind]. by exists h.
  - rewrite (proj2 (Z.ltb_lt 0 t)) by done. destruct (Hseq i Hi) as (k & Ek & Hk). pose proof (HL h t HJ) as L. rewrite Ek. cbn [rbind]. rewrite count_rd by lia. cbn [rbind].
    pose proof (Z.mod_pos_bound (i0 - i) s Hs). pose proof (Z.mod_pos_bound (i + 1) s Hs). destruct (ok (count_at h k)) eqn:Eok.
    + rewrite wr_ok by lia. cbn [rbind]. apply IH; [by apply (Hstep h t i k)|lia|done|]. destruct (decide (t = 1)) as [->|]; [left; split; [done|nia]|]. right. split; [lia|].
      destruct (Hok _ _ (Hstep h t i k HJ Ht0 Hi Ek Eok) ltac:(lia)) as (i1 & k1 & Hi1 & Hk1 & Hok1). exists i1, k1. split; [done|]. split; [done|]. split; [done|].
      pose proof (Z.mod_pos_bound (i1 - (i + 1) mod s) s Hs). nia.
    + cbn [rbind]. apply IH; [done|done|done|]. right. split; [done|]. exists i0, k0. split; [done|]. split; [done|]. split; [done|].
      assert (i0 <> i) by (intros ->; congruence). rewrite Zminus_mod_idemp_r.
      assert ((i0 - (i + 1)) mod s = (i0 - i) mod s - 1); [|lia]. destruct (decide (i < i0)).
      * rewrite !Z.mod_small by lia. lia.
      * rewrite <- (Z.mod_add (i0 - (i + 1)) 1), <- (Z.mod_add (i0 - i) 1) by lia. rewrite !Z.mod_small by lia. lia.
Qed.

Lemma spread_ok h t : J h t -> 0 <= t -> exists h', spread ok dv s seq h t = Ok h' /\ J h' 0.
Proof.
  intros HJ Ht. unfold spread. apply spread_loop; [done|done|lia|]. destruct (decide (t = 0)) as [->|]; [left; split; [done|lia]|]. right. split; [lia|].
  destruct (Hok h t HJ ltac:(lia)) as (i & k & Hi & Hk & Ho). exists i, k. split; [done|]. split; [done|]. split; [done|]. pose proof (Z.mod_pos_bound (i - 0) s Hs). lia.
Qed.
End spread.

Lemma sum_perm l l' : Permutation l l' -> zsum l = zsum l'.
Proof. induction 1; rewrite ?zsum_cons; lia. Qed.

Lemma zsum_insert h k v : (k < length h)%nat -> zsum (<[k := v]> h) = zsum h - nth k h 0 + v.
Proof.
  revert k. induction h as [|a h IH]; intros [|k] Hk; cbn in Hk; try lia; cbn [nth].
  - change (<[0%nat := v]> (a :: h)) with (v :: h). rewrite !zsum_cons. lia.
  - change (<[S k := v]> (a :: h)) with (a :: <[k := v]> h). rewrite !zsum_cons, IH by lia. lia.
Qed.

(** The sum over the elements is the sum over their places. *)
Lemma sum_places (f : Z -> Z) h : zsum (map (fun k => f (count_at h k)) (seqZ 0 (Z.of_nat (length h)))) = zsum (map f h).
Proof.
  f_equal. apply list_eq_same_length with (length h); [by rewrite length_map|by rewrite length_map, length_seqZ, Nat2Z.id|]. intros i x y Hi.
  rewrite !list_lookup_fmap, lookup_seqZ_lt by lia. cbn. intros [= <-] Hy. destruct (h !! i) as [v|] eqn:E; [|done]. cbn in Hy. injection Hy as <-.
  unfold count_at. rewrite nth_lookup. replace (Z.to_nat _) with i by lia. by rewrite E.
Qed.

(** What the first [s] places of [seq] can give. *)
Definition spare (v : Z) : Z := Z.max 0 (v - 1).
Definition cap (h seq : list Z) : Z := zsum (map (fun k => spare (count_at h k)) seq).

Lemma cap_nonneg h seq : 0 <= cap h seq.
Proof. apply zsum_nonneg, Forall_map, List.Forall_forall. intros k _. unfold spare. lia. Qed.

Lemma cap_insert h k v seq : NoDup seq -> In k seq -> 0 <= k < Z.of_nat (length h) -> Forall (fun j => 0 <= j) seq ->
  cap (<[Z.to_nat k := v]> h) seq = cap h seq - spare (count_at h k) + spare v.
Proof.
  intros Hnd Hin Hk Hpos. unfold cap. induction seq as [|j seq IH]; [done|]. cbn [map]. rewrite !zsum_cons. inversion Hnd as [|? ? Hj Hnd']; subst. clear Hnd. rename Hnd' into Hnd.
  pose proof (List.Forall_inv Hpos) as Hj0. pose proof (List.Forall_inv_tail Hpos) as Hpos'. rewrite count_insert by done. destruct Hin as [->|Hin].
  - rewrite decide_True by done. assert (map (fun k0 => spare (count_at (<[Z.to_nat k := v]> h) k0)) seq = map (fun k0 => spare (count_at h k0)) seq) as ->; [|lia].
    apply map_ext_in. intros a Ha. rewrite count_insert; [|done|by apply (proj1 (List.Forall_forall _ _) Hpos' a)]. rewrite decide_False; [done|]. intros ->. apply Hj, list_elem_of_In, Ha.
  - rewrite decide_False; [rewrite IH by done; lia|]. intros ->. apply Hj, list_elem_of_In, Hin.
Qed.

Lemma cap_room h seq : 0 < cap h seq -> exists i k, (i < length seq)%nat /\ seq !! i = Some k /\ 1 < count_at h k.
Proof.
  induction seq as [|k seq IH]; [done|]. unfold cap. cbn [map]. rewrite zsum_cons. fold (cap h seq). intros H. destruct (decide (1 < count_at h k)).
  - exists 0%nat, k. cbn. split; [lia|done].
  - destruct IH as (i & k' & Hi & Hk & Hc); [unfold spare in H; lia|]. exists (S i), k'. cbn. split; [lia|done].
Qed.

Definition same_zeros (h h' : list Z) : Prop := length h = 256%nat /\ Forall (fun v => 0 <= v) h /\ forall c, 0 <= c < 256 -> (count_at h c = 0 <-> count_at h' c = 0).

Lemma count_nonneg h c : Forall (fun v => 0 <= v) h -> 0 <= count_at h c.
Proof. intros H. unfold count_at. rewrite nth_lookup. destruct (h !! _) eqn:E; cbn; [|lia]. by apply (proj1 (Forall_lookup _ _) H) in E. Qed.

Lemma same_zeros_insert h h' k v : same_zeros h h' -> 0 <= k < 256 -> 0 < count_at h k -> 0 < v -> same_zeros (<[Z.to_nat k := v]> h) h'.
Proof.
  intros (L & Hp & Hz) Hk Hc Hv. split; [by rewrite length_insert|]. split; [apply Forall_insert; [done|lia]|]. intros c Hcc. rewrite count_insert by lia.
  case_decide as E; [|by apply Hz]. subst. specialize (Hz k Hk). lia.
Qed.

Section sorted.
Context (partial_sort : (Z -> Z -> bool) -> Z -> list Z -> list Z) `{!PartialSort partial_sort} (lt : Z -> Z -> bool) (s : Z).
Hypothesis (Hasym : forall a b, lt a b = true -> lt b a = false) (Htrans : forall a b c, lt b a = false -> lt c b = false -> lt c a = false) (Hs : 0 < s <= 256).
Let seq := partial_sort lt s (seqZ 0 256).

Lemma seq_perm : Permutation seq (seqZ 0 256).
Proof. apply ps_perm. Qed.

Lemma seq_length : length seq = 256%nat.
Proof. rewrite (Permutation_length seq_perm). done. Qed.

Lemma seq_range k : In k seq -> 0 <= k < 256.
Proof. intros H. apply (Permutation_in _ seq_perm) in H. apply list_elem_of_In, elem_of_seqZ in H. lia. Qed.

Lemma seq_rd i : 0 <= i < 256 -> exists k, seq !! Z.to_nat i = Some k /\ rd seq i = Ok k /\ 0 <= k < 256.
Proof.
  intros Hi. destruct (lookup_lt_is_Some_2 seq (Z.to_nat i)) as [k Hk]; [rewrite seq_length; lia|]. exists k. split; [done|]. split; [by apply rd_ok; [lia|]|].
  apply seq_range, list_elem_of_In. by apply list_elem_of_lookup_2 in Hk.
Qed.

Lemma seq_nodup : NoDup seq.
Proof. rewrite seq_perm. apply NoDup_seqZ. Qed.

Lemma seq_has k : 0 <= k < 256 -> exists i, seq !! i = Some k /\ (i < 256)%nat.
Proof.
  intros Hk. assert (In k seq) as H by (apply (Permutation_in _ (Permutation_sym seq_perm)), list_elem_of_In, elem_of_seqZ; lia).
  apply list_elem_of_In, list_elem_of_lookup_1 in H as (i & Hi). exists i. split; [done|]. apply lookup_lt_Some in Hi. by rewrite seq_length in Hi.
Qed.

Lemma seq_sorted i j x y : Z.of_nat i < s -> (i < j)%nat -> seq !! i = Some x -> seq !! j = Some y -> lt y x = false.
Proof. intros. eapply ps_sorted; eauto. Qed.
End sorted.

(** ** The three cases of [normalise_hist] *)

Definition nz (h : list Z) : Z := zsum (map (fun v => if v =? 0 then 0 else 1) h).

Section cases.
Context (partial_sort : (Z -> Z -> bool) -> Z -> list Z -> list Z) `{!PartialSort partial_sort}.

(** Too little: the largest counts get more. *)
Lemma raise_ok h t : length h = 256%nat -> Forall (fun v => 0 <= v) h -> 0 < nz h -> 0 < t -> exists h',
  spread (fun v => 0 <? v) 1 (Z.min t 256) (partial_sort (fun l r => count_at h r <? count_at h l) (Z.min t 256) (seqZ 0 256)) h t = Ok h' /\
  same_zeros h' h /\ zsum h' = zsum h + t.
Proof.
  intros L Hp Hnz Ht. set (s := Z.min t 256). set (lt := fun l r => count_at h r <? count_at h l). assert (Hs : 0 < s <= 256) by lia.
  assert (Hasym : forall a b, lt a b = true -> lt b a = false) by (intros a b; unfold lt; intros; destruct (Z.ltb_spec (count_at h a) (count_at h b)); lia).
  assert (Htr : forall a b c, lt b a = false -> lt c b = false -> lt c a = false).
  { intros a b c. unfold lt. intros H1 H2. apply Z.ltb_ge in H1, H2. apply Z.ltb_ge. lia. }
  destruct (seq_rd partial_sort lt s 0 ltac:(lia)) as (k0 & Hk0 & Hr0 & Hb0).
  assert (Hpos0 : 0 < count_at h k0).
  { assert (exists c, 0 <= c < 256 /\ 0 < count_at h c) as (c & Hc & Hcp).
    { unfold nz in Hnz. clear - Hnz Hp L. assert (exists i v, h !! i = Some v /\ v <> 0) as (i & v & Hi & Hv).
      { clear L Hp. induction h as [|v h IH]; [done|]. cbn [map] in Hnz. rewrite zsum_cons in Hnz. destruct (Z.eqb_spec v 0); [|by exists 0%nat, v].
        destruct IH as (i & w & Hi & Hw); [lia|]. by exists (S i), w. }
      exists (Z.of_nat i). apply lookup_lt_Some in Hi as Hl. split; [lia|]. unfold count_at. rewrite nth_lookup, Nat2Z.id, Hi. cbn.
      apply (proj1 (Forall_lookup _ _) Hp) in Hi. cbv beta in Hi. lia. }
    destruct (seq_has partial_sort lt s c Hc) as (j & Hj & Hj256). destruct j as [|j]; [change (Z.to_nat 0) with 0%nat in Hk0; congruence|].
    pose proof (seq_sorted partial_sort lt s Hasym Htr 0 (S j) k0 c ltac:(lia) ltac:(lia) Hk0 Hj) as Hsd. unfold lt in Hsd. apply Z.ltb_ge in Hsd. lia. }
  destruct (spread_ok (fun v => 0 <? v) 1 s (partial_sort lt s (seqZ 0 256)) (fun h' t' => same_zeros h' h /\ zsum h' + t' = zsum h + t) ltac:(lia)) with (h := h) (t := t) as (h' & E & Hz & Hsum).
  - intros i Hi. destruct (seq_rd partial_sort lt s i ltac:(lia)) as (k & _ & Hk & Hkb). by exists k.
  - intros h' t' [(L' & _) _]. done.
  - intros h' t' [(L' & Hp' & Hz) _] _. exists 0, k0. split; [lia|]. split; [done|]. apply Z.ltb_lt. pose proof (count_nonneg h' k0 Hp'). specialize (Hz k0 Hb0). lia.
  - intros h' t' i k [Hz Hsum] Ht' Hi Hk Hv. apply Z.ltb_lt in Hv. destruct (seq_rd partial_sort lt s i ltac:(lia)) as (k' & _ & Hk' & Hkb). rewrite Hk in Hk'. injection Hk' as <-.
    split; [by apply same_zeros_insert; [| |lia|lia]|]. destruct Hz as (L' & _). rewrite zsum_insert by lia. unfold count_at. lia.
  - split; [|lia]. split; [done|]. split; [done|]. done.
  - lia.
  - exists h'. split; [exact E|]. split; [done|]. lia.
Qed.

(** Too much: the smallest counts above 1 give. *)
Definition key (h : list Z) (k : Z) : Z := if count_at h k <=? 1 then 2 ^ 64 - 1 else count_at h k.

Lemma lower_cap h t : length h = 256%nat -> Forall (fun v => 0 <= v < 2 ^ 64 - 1) h -> 0 < t -> t <= zsum (map spare h) ->
  t <= cap h (take (Z.to_nat (Z.min t 256)) (partial_sort (fun l r => key h l <? key h r) (Z.min t 256) (seqZ 0 256))).
Proof.
  intros L Hp Ht Hc. set (s := Z.min t 256). set (lt := fun l r => key h l <? key h r). set (seq := partial_sort lt s (seqZ 0 256)).
  assert (Hasym : forall a b, lt a b = true -> lt b a = false) by (intros a b; unfold lt; intros H; apply Z.ltb_lt in H; apply Z.ltb_ge; lia).
  assert (Htr : forall a b c, lt b a = false -> lt c b = false -> lt c a = false) by (intros a b c; unfold lt; intros H1 H2; apply Z.ltb_ge in H1, H2; apply Z.ltb_ge; lia).
  assert (Hfull : cap h seq = zsum (map spare h)).
  { rewrite <- sum_places, L. unfold cap. apply sum_perm. apply Permutation_map. apply (seq_perm partial_sort lt s). }
  assert (Hsplit : cap h seq = cap h (take (Z.to_nat s) seq) + cap h (drop (Z.to_nat s) seq)).
  { unfold cap. rewrite <- zsum_app, <- map_app, take_drop. done. }
  destruct (decide (cap h (drop (Z.to_nat s) seq) = 0)) as [H0|H0]; [lia|]. pose proof (cap_nonneg h (drop (Z.to_nat s) seq)).
  destruct (cap_room h (drop (Z.to_nat s) seq)) as (j & y & Hj & Hy & Hc1); [lia|]. rewrite lookup_drop in Hy.
  pose proof (seq_length partial_sort lt s) as Lseq. fold seq in Lseq. rewrite length_drop, Lseq in Hj.
  assert (Hone : forall i x, (i < Z.to_nat s)%nat -> seq !! i = Some x -> 1 < count_at h x).
  { intros i x Hi Hx. pose proof (seq_sorted partial_sort lt s Hasym Htr i (Z.to_nat s + j) x y ltac:(lia) ltac:(lia) Hx Hy) as Hsd. unfold lt in Hsd. apply Z.ltb_ge in Hsd.
    unfold key in Hsd. destruct (Z.leb_spec (count_at h x) 1) as [Hx1|]; [|lia]. rewrite (proj2 (Z.leb_gt (count_at h y) 1)) in Hsd by lia. exfalso.
    assert (count_at h y < 2 ^ 64 - 1); [|lia]. unfold count_at in *. rewrite nth_lookup in *. destruct (h !! Z.to_nat y) eqn:E; cbn in *; [|lia]. apply (proj1 (Forall_lookup _ _) Hp) in E. lia. }
  assert (Hge : forall l, (forall i x, l !! i = Some x -> 1 < count_at h x) -> Z.of_nat (length l) <= cap h l).
  { clear. induction l as [|a l IH]; intros H; [cbn; lia|]. unfold cap. cbn [map length]. rewrite zsum_cons. fold (cap h l). pose proof (H 0%nat a eq_refl). specialize (IH (fun i x Hx => H (S i) x Hx)). unfold spare at 1. lia. }
  specialize (Hge (take (Z.to_nat s) seq)). rewrite length_take, Lseq in Hge. assert (s = t) by lia. enough (Z.of_nat (Nat.min (Z.to_nat s) 256) <= cap h (take (Z.to_nat s) seq)) by lia.
  apply Hge. intros i x Hx. apply lookup_take_Some in Hx as [Hx Hi]. by apply (Hone i x).
Qed.

Lemma lower_ok h t : length h = 256%nat -> Forall (fun v => 0 <= v < 2 ^ 64 - 1) h -> 0 < t -> t <= zsum (map spare h) -> exists h',
  spread (fun v => 1 <? v) (-1) (Z.min t 256) (partial_sort (fun l r => key h l <? key h r) (Z.min t 256) (seqZ 0 256)) h t = Ok h' /\
  same_zeros h' h /\ zsum h' = zsum h - t.
Proof.
  intros L Hp Ht Hc. pose proof (lower_cap h t L Hp Ht Hc) as Hcap. set (s := Z.min t 256) in *. set (lt := fun l r => key h l <? key h r) in *. assert (Hs : 0 < s <= 256) by lia.
  set (front := take (Z.to_nat s) (partial_sort lt s (seqZ 0 256))) in *.
  assert (Hnd : NoDup front).
  { pose proof (seq_nodup partial_sort lt s) as H. rewrite <- (take_drop (Z.to_nat s) (partial_sort lt s (seqZ 0 256))) in H. by apply list.NoDup_app in H as [H _]. }
  assert (Hfr : forall i k, 0 <= i < s -> rd (partial_sort lt s (seqZ 0 256)) i = Ok k -> In k front /\ 0 <= k < 256).
  { intros i k Hi Hk. apply rd_Ok_inv in Hk as [_ Hk]. split; [|eapply (seq_range partial_sort lt s), list_elem_of_In, list_elem_of_lookup_2, Hk].
    apply list_elem_of_In. apply (list_elem_of_lookup_2 front (Z.to_nat i)). unfold front. rewrite lookup_take_lt by lia. exact Hk. }
  assert (Hfp : Forall (fun j => 0 <= j) front).
  { apply List.Forall_forall. intros k Hk. apply list_elem_of_In, elem_of_take in Hk as (i & Hk & _). apply (seq_range partial_sort lt s k), list_elem_of_In. by eapply list_elem_of_lookup_2. }
  destruct (spread_ok (fun v => 1 <? v) (-1) s (partial_sort lt s (seqZ 0 256)) (fun h' t' => same_zeros h' h /\ zsum h' - t' = zsum h - t /\ t' <= cap h' front) ltac:(lia)) with (h := h) (t := t) as (h' & E & Hz & Hsum & _).
  - intros i Hi. destruct (seq_rd partial_sort lt s i ltac:(lia)) as (k & _ & Hk & Hkb). by exists k.
  - intros h' t' [(L' & _) _]. done.
  - intros h' t' (_ & _ & Hc') Ht'. destruct (cap_room h' front ltac:(lia)) as (i & k & Hi & Hk & Hck). unfold front in Hk. apply lookup_take_Some in Hk as [Hk Hi'].
    exists (Z.of_nat i), k. split; [lia|]. split; [apply rd_ok; [lia|]; by rewrite Nat2Z.id|]. by apply Z.ltb_lt.
  - intros h' t' i k (Hz & Hsum & Hc') Ht' Hi Hk Hv. apply Z.ltb_lt in Hv. destruct (Hfr i k Hi Hk) as [Hin Hkb]. pose proof Hz as (L' & _).
    split; [by apply same_zeros_insert; [| |lia|lia]|]. split.
    + rewrite zsum_insert by lia. fold (count_at h' k). lia.
    + rewrite cap_insert by (done || lia). unfold spare. lia.
  - split; [|split; [lia|done]]. split; [done|]. split; [|done]. eapply List.Forall_impl; [|exact Hp]. cbv beta. lia.
  - lia.
  - exists h'. split; [exact E|]. split; [done|]. lia.
Qed.

Context (scale : Z -> Z -> Z -> Z).

(** A count after the first loop. *)
Definition scaled (norm size v : Z) : Z := if v =? 0 then 0 else if scale norm size v =? 0 then 1 else scale norm size v.

Lemma scale_loop norm size h : length h = 256%nat -> exists h' t s,
  for_ 0 256 (fun i '(h, t, s) =>
    let* v := rd h i in
    if v =? 0 then Ok (h, t, s) else
    let v := scale norm size v in let v := if v =? 0 then 1 else v in
    let* h := wr h i v in Ok (h, t + v, s + 1)) (h, 0, 0) = Ok (h', t, s) /\
  h' = map (scaled norm size) h /\ t = zsum (map (scaled norm size) h) /\ s = nz h.
Proof.
  intros L. set (sc := scaled norm size).
  destruct (for_inv (fun i '(h', t, s) => h' = map sc (take (Z.to_nat i) h) ++ drop (Z.to_nat i) h /\ t = zsum (map sc (take (Z.to_nat i) h)) /\ s = nz (take (Z.to_nat i) h))
    (fun i '(h, t, s) => let* v := rd h i in if v =? 0 then Ok (h, t, s) else
      let v := scale norm size v in let v := if v =? 0 then 1 else v in let* h := wr h i v in Ok (h, t + v, s + 1)) 0 256 (h, 0, 0)) as ([[h' t] s] & E & Hh & Ht & Hsn); [lia|done| |].
  - intros i [[h' t] s] Hi (-> & -> & ->). destruct (lookup_lt_is_Some_2 h (Z.to_nat i)) as [v Hv]; [lia|].
    assert (Lt : length (map sc (take (Z.to_nat i) h)) = Z.to_nat i) by (rewrite length_map, length_take; lia).
    assert (Hd : drop (Z.to_nat i) h = v :: drop (S (Z.to_nat i)) h) by (by rewrite (drop_S h v)).
    assert (Htk : take (Z.to_nat (i + 1)) h = take (Z.to_nat i) h ++ [v]). { replace (Z.to_nat (i + 1)) with (S (Z.to_nat i)) by lia. by apply take_S_r. }
    assert (Hdr : drop (Z.to_nat (i + 1)) h = drop (S (Z.to_nat i)) h) by (f_equal; lia).
    rewrite (rd_ok _ i v) by (try lia; rewrite lookup_app_r by lia; rewrite Lt, Nat.sub_diag, Hd; done). cbn [rbind]. rewrite Htk, Hdr, map_app. unfold nz. rewrite map_app, !zsum_app. cbn [map].
    destruct (Z.eqb_spec v 0) as [->|Hv0].
    + eexists. split; [done|]. cbv beta iota. rewrite Hd. change (sc 0) with 0. rewrite <- app_assoc. split; [done|]. rewrite !zsum_cons. change (zsum []) with 0. split; lia.
    + rewrite wr_ok by (rewrite length_app, length_drop; lia). cbn [rbind]. eexists. split; [done|]. cbv beta iota.
      assert (sc v = (if scale norm size v =? 0 then 1 else scale norm size v)) as -> by (unfold sc, scaled; by rewrite (proj2 (Z.eqb_neq v 0))).
      rewrite insert_app_r_alt by lia. rewrite Lt, Nat.sub_diag, Hd, <- app_assoc. split; [done|]. rewrite !zsum_cons. change (zsum []) with 0. split; lia.
  - change (Z.to_nat 256) with 256%nat in *. rewrite take_ge in * by lia. rewrite drop_ge, app_nil_r in Hh by lia. exists h', t, s. split; [exact E|done].
Qed.

Lemma nz_bounds h : 0 <= nz h <= Z.of_nat (length h).
Proof. unfold nz. induction h as [|v h IH]; [cbn; lia|]. cbn [map length]. rewrite zsum_cons. destruct (v =? 0); lia. Qed.

Lemma nz_scaled norm size h : Forall (fun v => 0 <= v <= size) h -> (forall v, 0 <= v <= size -> 0 <= scale norm size v <= norm) -> 1 <= norm ->
  nz (map (scaled norm size) h) = nz h /\ Forall (fun v => 0 <= v <= norm) (map (scaled norm size) h) /\
  (forall c, count_at (map (scaled norm size) h) c = 0 <-> count_at h c = 0).
Proof.
  intros Hp Hsc Hn. assert (H0 : forall v, 0 <= v <= size -> 0 <= scaled norm size v <= norm /\ (scaled norm size v = 0 <-> v = 0)).
  { intros v Hv. unfold scaled. specialize (Hsc v Hv). destruct (Z.eqb_spec v 0), (Z.eqb_spec (scale norm size v) 0); lia. }
  split; [|split].
  - unfold nz. induction Hp as [|v h Hv _ IH]; [done|]. cbn [map]. rewrite !zsum_cons, IH. destruct (H0 v Hv) as [_ H1]. destruct (Z.eqb_spec v 0), (Z.eqb_spec (scaled norm size v) 0); tauto.
  - apply Forall_map. eapply List.Forall_impl; [|exact Hp]. intros v Hv. by apply H0.
  - intros c. unfold count_at. rewrite !nth_lookup, list_lookup_fmap. destruct (h !! Z.to_nat c) as [v|] eqn:E; cbn; [|done].
    apply (proj1 (Forall_lookup _ _) Hp) in E. by apply H0.
Qed.

Lemma sum_spare h : Forall (fun v => 0 <= v) h -> zsum (map spare h) = zsum h - nz h.
Proof. unfold nz. induction 1 as [|v h Hv _ IH]; [done|]. cbn [map]. rewrite !zsum_cons, IH. cbv beta in Hv. unfold spare. destruct (Z.eqb_spec v 0); lia. Qed.

Lemma nz_pos h : Forall (fun v => 0 <= v) h -> 0 < zsum h -> 0 < nz h.
Proof.
  intros Hp Hs. pose proof (sum_spare h Hp). unfold nz in *. induction Hp as [|v h Hv Hp IH]; [done|]. cbn [map] in *. rewrite !zsum_cons in *.
  pose proof (nz_bounds h) as Hb. unfold nz in Hb. destruct (Z.eqb_spec v 0) as [->|]; [|lia]. unfold spare in *. pose proof (sum_spare h Hp) as Hsp. unfold nz, spare in Hsp. rewrite Z.add_0_l in *. apply IH; [lia|]. exact Hsp.
Qed.

(** Scaling ends, whatever the products in double precision give between 0 and the
    total. *)
Lemma normalise_hist_ok h size norm : length h = 256%nat -> Forall (fun v => 0 <= v) h -> zsum h = size -> 0 < size -> 256 <= norm < 2 ^ 32 ->
  (forall v, 0 <= v <= size -> 0 <= scale norm size v <= norm) -> exists h',
  normalise_hist scale partial_sort h size norm = Ok (h', norm) /\ length h' = 256%nat /\ Forall (fun v => 0 <= v) h' /\
  (forall c, 0 <= c < 256 -> (count_at h' c = 0 <-> count_at h c = 0)) /\ zsum h' = (if nz h =? 1 then norm - 1 else norm).
Proof.
  intros L Hp Hsum Hsz Hnorm Hsc. unfold normalise_hist. rewrite (proj2 (Z.eqb_eq _ _) Hsum). cbn [assert_ rbind]. rewrite (proj2 (Z.eqb_neq size 0)) by lia.
  destruct (scale_loop norm size h L) as (h1 & t & s & E & -> & -> & ->). setoid_rewrite E. cbn [rbind]. clear E.
  assert (Hps : Forall (fun v => 0 <= v <= size) h). { apply List.Forall_forall. intros v Hv. apply list_elem_of_In, list_elem_of_split in Hv as (l1 & l2 & ->).
    apply Forall_app in Hp as [H1 Hp]. pose proof (List.Forall_inv Hp) as Hv. pose proof (List.Forall_inv_tail Hp) as H2. cbv beta in Hv. rewrite zsum_app, zsum_cons in Hsum. apply zsum_nonneg in H1, H2. lia. }
  destruct (nz_scaled norm size h Hps Hsc ltac:(lia)) as (Enz & Hp1 & Hz1). set (h1 := map (scaled norm size) h) in *.
  assert (L1 : length h1 = 256%nat) by (unfold h1; by rewrite length_map). assert (Hnz : 0 < nz h) by (apply nz_pos; [done|lia]).
  assert (Hp1' : Forall (fun v => 0 <= v) h1) by (eapply List.Forall_impl; [|exact Hp1]; cbv beta; lia).
  pose proof (nz_bounds h1) as Hnb. pose proof (sum_spare h1 Hp1') as Hsp. rewrite (proj2 (Z.eqb_neq (nz h) 0)) by lia.
  set (t := if nz h =? 1 then zsum h1 + 1 else zsum h1). assert (Ht : zsum h1 = t - (if nz h =? 1 then 1 else 0)) by (unfold t; destruct (nz h =? 1); lia).
  assert (Hfin : forall h', same_zeros h' h1 -> zsum h' = zsum h1 + (norm - t) -> length h' = 256%nat /\ Forall (fun v => 0 <= v) h' /\
    (forall c, 0 <= c < 256 -> (count_at h' c = 0 <-> count_at h c = 0)) /\ zsum h' = (if nz h =? 1 then norm - 1 else norm)).
  { intros h' (L' & Hp' & Hz') Hs'. split; [done|]. split; [done|]. split; [intros c Hc; by rewrite Hz', Hz1 by done|]. destruct (nz h =? 1); lia. }
  destruct (Z.ltb_spec t norm) as [Hlt|Hge].
  - destruct (raise_ok h1 (norm - t) L1 Hp1' ltac:(lia) ltac:(lia)) as (h' & -> & Hz' & Hs'). cbn [rbind]. exists h'. split; [done|]. apply Hfin; [done|lia].
  - destruct (Z.ltb_spec norm t) as [Hgt|Heq].
    + destruct (lower_ok h1 (t - norm) L1) as (h' & E & Hz' & Hs').
      { eapply List.Forall_impl; [|exact Hp1]. cbv beta. lia. } { lia. } { rewrite Hsp, Enz. destruct (Z.eqb_spec (nz h) 1); lia. }
      unfold key in E. rewrite E. cbn [rbind]. exists h'. split; [done|]. apply Hfin; [done|lia].
    + exists h1. split; [done|]. apply Hfin; [|lia]. split; [done|]. split; [done|]. done.
Qed.

(** ** All of it *)

Lemma counts_are l o : length o = 256%nat -> bytes l -> (forall c, 0 <= c < 256 -> count_at o c = occ c l) ->
  Forall (fun v => 0 <= v) o /\ zsum o = Z.of_nat (length l).
Proof.
  intros L Hb Hc. split.
  - apply Forall_lookup. intros i v Hi. pose proof (lookup_lt_Some _ _ _ Hi). specialize (Hc (Z.of_nat i) ltac:(lia)).
    unfold count_at in Hc. rewrite Nat2Z.id, nth_lookup, Hi in Hc. cbn in Hc. pose proof (occ_bounds (Z.of_nat i) l). lia.
  - rewrite <- (map_id o), <- (sum_places (fun v => v)), L. rewrite <- (sum_occ l Hb). f_equal. apply map_ext_in. intros c Hin. apply Hc.
    apply list_elem_of_In, elem_of_seqZ in Hin. lia.
Qed.

Definition none (l : list Z) : bool := match l with [] => true | _ => false end.

Lemma counting_ok a b rs : Forall bytes rs -> Z.of_nat (length (concat rs)) < 2 ^ 64 -> let l := counted (make a b) rs in exists f g,
  bytes l /\ add_records (make a b) rs = Ok f /\ finish f = Ok g /\ o0_size g = Z.of_nat (length l) /\ length (o0 g) = 256%nat /\
  forall c, 0 <= c < 256 -> count_at (o0 g) c = occ c l.
Proof.
  intros Hb HB l. destruct (make_good a b) as [Hg H0]. destruct (add_records_ok rs _ Hg Hb HB) as (f & Ef & Hgf & Hsz & Ht). fold l in Hsz, Ht.
  assert (Hl : bytes l /\ (length l <= length (concat rs))%nat).
  { unfold l, counted. clear -Hb. induction Hb as [|r rs Hr _ [IH1 IH2]]; [by split; [constructor|]|]. rewrite filter_cons. case_decide; cbn [concat]; rewrite !length_app.
    - split; [by apply Forall_app|lia].
    - split; [done|lia]. }
  destruct Hl as [Hbl Hll]. destruct (hist_finish_ok f Hgf) as (g & Eg & Lg & Hszg & Hcg). { intros c Hc. rewrite Ht, H0 by done. pose proof (occ_bounds c l). lia. }
  exists f, g. split; [done|]. split; [done|]. split; [done|]. cbn [o0_size make] in Hsz. split; [lia|]. split; [done|]. intros c Hc. rewrite Hcg, Ht, H0 by lia. lia.
Qed.

Lemma scaling_ok l g norm : bytes l -> o0_size g = Z.of_nat (length l) -> length (o0 g) = 256%nat -> (forall c, 0 <= c < 256 -> count_at (o0 g) c = occ c l) ->
  256 <= norm < 2 ^ 32 -> (forall v, 0 <= v <= Z.of_nat (length l) -> 0 <= scale norm (Z.of_nat (length l)) v <= norm) -> exists h,
  normalise scale partial_sort g norm = Ok h /\ length (o0 h) = 256%nat /\ Forall (fun v => 0 <= v) (o0 h) /\
  (forall c, 0 <= c < 256 -> (count_at (o0 h) c = 0 <-> occ c l = 0)) /\ o0_size h = (if none l then 0 else norm) /\
  zsum (o0 h) = (if none l then 0 else if nz (o0 g) =? 1 then norm - 1 else norm).
Proof.
  intros Hbl Hsz Lg Hcl Hn Hsc. destruct (counts_are l (o0 g) Lg Hbl Hcl) as [Hp Hs].
  unfold normalise. rewrite (proj2 (Z.leb_le 256 norm)) by lia. cbn [assert_ rbind]. rewrite Hsz. destruct l as [|b0 l'] eqn:El; cbn [none].
  - unfold normalise_hist. rewrite Hs. change (Z.of_nat (length [])) with 0. cbn [Z.eqb assert_ rbind]. eexists. split; [done|]. cbn [o0 o0_size]. do 2 (split; [done|]).
    split; [|done]. intros c Hc. by rewrite Hcl.
  - destruct (normalise_hist_ok (o0 g) (Z.of_nat (length (b0 :: l'))) norm Lg Hp Hs ltac:(cbn; lia) Hn Hsc) as (h' & -> & L' & Hp' & Hz & Hs').
    cbn [rbind]. eexists. split; [done|]. cbn [o0 o0_size]. do 2 (split; [done|]). split; [|done]. intros c Hc. by rewrite Hz, Hcl.
Qed.

(** C40: A [freq_hist] counts every byte of the records whose lengths are inside its
    bounds, in every lane, and no other; [normalise] then ends, makes no count zero that
    was not, leaves zeros zero, and gives the counts the sum asked for, or one less when
    only one byte has been seen, whatever the products in double precision are between
    0 and the total. Without any byte nothing changes. *)
Theorem freq_hist_correct a b rs norm : Forall bytes rs -> Z.of_nat (length (concat rs)) < 2 ^ 64 -> 256 <= norm < 2 ^ 32 ->
  let l := counted (make a b) rs in
  (forall v, 0 <= v <= Z.of_nat (length l) -> 0 <= scale norm (Z.of_nat (length l)) v <= norm) -> exists f g h,
  add_records (make a b) rs = Ok f /\ finish f = Ok g /\ o0_size g = Z.of_nat (length l) /\ length (o0 g) = 256%nat /\
  (forall c, 0 <= c < 256 -> count_at (o0 g) c = occ c l) /\
  normalise scale partial_sort g norm = Ok h /\ length (o0 h) = 256%nat /\ Forall (fun v => 0 <= v) (o0 h) /\
  (forall c, 0 <= c < 256 -> (count_at (o0 h) c = 0 <-> occ c l = 0)) /\
  o0_size h = (if none l then 0 else norm) /\
  zsum (o0 h) = (if none l then 0 else if nz (o0 g) =? 1 then norm - 1 else norm).
Proof.
  intros Hb HB Hn l Hsc. destruct (counting_ok a b rs Hb HB) as (f & g & Hbl & Ef & Eg & Hsz & Lg & Hcl). fold l in Hbl, Hsz, Hcl.
  destruct (scaling_ok l g norm Hbl Hsz Lg Hcl Hn Hsc) as (h & H). exists f, g, h. by do 5 (split; [done|]).
Qed.
End cases.

(** ** A sorting function and products *)

Fixpoint ins (lt : Z -> Z -> bool) (k : Z) (l : list Z) : list Z :=
  match l with [] => [k] | b :: l => if lt b k then b :: ins lt k l else k :: b :: l end.
Definition ps (lt : Z -> Z -> bool) (s : Z) (l : list Z) : list Z := foldr (ins lt) [] l.
Definition times_ratio (norm size v : Z) : Z := v * norm / size.

Lemma ins_perm lt k l : Permutation (ins lt k l) (k :: l).
Proof. induction l as [|b l IH]; [done|]. cbn. destruct (lt b k); [|done]. rewrite IH. constructor. Qed.

Lemma ins_sorted lt k l : (forall a b, lt a b = true -> lt b a = false) -> (forall a b c, lt b a = false -> lt c b = false -> lt c a = false) ->
  StronglySorted (fun a b => lt b a = false) l -> StronglySorted (fun a b => lt b a = false) (ins lt k l).
Proof.
  intros Ha Ht. induction l as [|b l IH]; intros Hs; [by repeat constructor|]. apply StronglySorted_inv in Hs as [Hs Hb]. cbn. destruct (lt b k) eqn:E.
  - constructor; [by apply IH|]. rewrite ins_perm. constructor; [by apply Ha|done].
  - constructor; [by constructor|]. constructor; [done|]. eapply List.Forall_impl; [|exact Hb]. cbv beta. eauto.
Qed.

#[export] Instance ps_correct : PartialSort ps.
Proof.
  split.
  - intros lt s l. unfold ps. induction l as [|k l IH]; [done|]. cbn. by rewrite ins_perm, IH.
  - intros lt s l i j x y Ha Ht _ Hij Hx Hy. assert (Hs : StronglySorted (fun a b => lt b a = false) (ps lt s l)).
    { unfold ps. clear Hx Hy. induction l as [|k l IH]; [constructor|]. cbn. by apply ins_sorted. }
    revert i j Hij Hx Hy. induction Hs as [|k m Hm IH Hf]; intros i j Hij Hx Hy; [done|]. destruct j as [|j]; [lia|]. destruct i as [|i].
    + cbn in Hx, Hy. injection Hx as ->. by apply (proj1 (Forall_lookup _ _) Hf) in Hy.
    + cbn in Hx, Hy. apply (IH i j); (lia || done).
Qed.

Lemma freq_hist_correct_witness : exists f g h,
  add_records (make 1 5) [[7; 8; 7; 9; 7]; []; [9; 7]; [1; 2; 3; 4; 5; 6]] = Ok f /\ finish f = Ok g /\ o0_size g = 7 /\ count_at (o0 g) 7 = 4 /\ count_at (o0 g) 1 = 0 /\
  normalise times_ratio ps g 256 = Ok h /\ zsum (o0 h) = 256.
Proof.
  destruct (freq_hist_correct ps times_ratio 1 5 [[7; 8; 7; 9; 7]; []; [9; 7]; [1; 2; 3; 4; 5; 6]] 256) as (f & g & h & E1 & E2 & E3 & E4 & E5 & E6 & E7 & E8 & E9 & E10 & E11).
  - repeat constructor; lia.
  - vm_compute; reflexivity.
  - lia.
  - change (Z.of_nat (length (counted (make 1 5) [[7; 8; 7; 9; 7]; []; [9; 7]; [1; 2; 3; 4; 5; 6]]))) with 7. intros v Hv. unfold times_ratio. split; [apply Z.div_pos; lia|apply Z.div_le_upper_bound; lia].
  - exists f, g, h. split; [exact E1|]. split; [exact E2|]. split; [exact E3|]. split; [rewrite (E5 7) by lia; reflexivity|]. split; [rewrite (E5 1) by lia; reflexivity|]. split; [exact E6|].
    rewrite E11. assert (nz (o0 g) = 3) as ->; [|reflexivity]. vm_compute in E1. injection E1 as <-. vm_compute in E2. injection E2 as <-. reflexivity.
Defined.
End FreqHistProps.
