(* ===== verification/Rans.v ===== *)
(** * The rANS entropy coder

    [entropy/rans_encoding.hpp] and [entropy/rans_encoding.cpp]: the coder without
    context ([encoder], [decoder]) with its tables, in one, two, four or eight
    interleaved streams. *)
From S2P Require Import Prelude Bytes.
Import Bytes.

Module Rans.

Definition u16 (z : Z) : Z := z mod 2 ^ 16.

Definition RANS_L_BITS : Z := 16.
Definition RANS_L : Z := Z.shiftl 1 RANS_L_BITS.
Definition BLOCK_SIZE : Z := 4.
Definition HEAD_BITS : Z := 9.
Definition RECORD_MAX_SIZE : Z := Z.shiftl 1 HEAD_BITS / 7.
Definition TF_SHIFT : Z := 12.
Definition TOTFREQ : Z := Z.shiftl 1 TF_SHIFT.

(** [pow_t<a, n>::value] *)
Fixpoint pow_t (a : Z) (n : positive) : Z :=
  match n with
  | xH => a
  | xO h => 1 * pow_t a h * pow_t a h
  | xI h => a * pow_t a h * pow_t a h
  end.

Record Rans64EncSymbol := EncSym { rcp_freq : Z; freq : Z; bias : Z; cmpl_freq : Z; rcp_shift : Z }.
Record Rans64DecSymbol := DecSym { start : Z; dfreq : Z }.
Record XCheck := Check_ { enable : bool; value : bool }.

(** ** What one stream does *)

Definition Rans64MulHi (a b : Z) : Z := Z.shiftr (a * b) 64.

Definition Rans64EncSymbolInit (start freq scale_bits : Z) : res Rans64EncSymbol :=
  let* _ := assert_ (scale_bits <=? 31) in
  let* _ := assert_ (start <=? Z.shiftl 1 scale_bits) in
  let* _ := assert_ (freq <=? Z.shiftl 1 scale_bits - start) in
  let cmpl_freq := u16 (Z.shiftl 1 scale_bits - freq) in
  if freq <? 2 then Ok (EncSym (2 ^ 64 - 1) (u16 freq) (u16 (start + Z.shiftl 1 scale_bits - 1)) cmpl_freq 0) else
  let* shift := loop 32 (fun shift => Ok (if Z.shiftl 1 shift <? freq then inl (shift + 1) else inr shift)) 0 in
  let x0 := freq - 1 in
  let x1 := shl64 1 (shift + 31) in
  let t1 := x1 / freq in
  let x0 := u64 (x0 + shl64 (x1 mod freq) 32) in
  let t0 := x0 / freq in
  Ok (EncSym (u64 (t0 + shl64 t1 32)) (u16 freq) (u16 start) cmpl_freq (u16 (shift - 1))).

(** Takes bytes from the end of the record; the new end and what is left. *)
Definition Rans64EncInit (record : list Z) (endp size : Z) : res (Z * Z * Z) :=
  loop 3 (fun '(x, endp, size) =>
    if (x <? RANS_L) && (0 <? size) then
      let* b := rd record (endp - 1) in Ok (inl (Z.lor (shl64 x 8) b, endp - 1, size - 1))
    else Ok (inr (x, endp, size))) (1, endp, size).

Definition Rans64EncPutSymbol (x : Z) (sym : Rans64EncSymbol) : res Z :=
  let* _ := assert_ (negb (freq sym =? 0)) in
  let q := Z.shiftr (Rans64MulHi x (rcp_freq sym)) (rcp_shift sym) in
  Ok (u64 (x + bias sym + q * cmpl_freq sym)).

(** The buffer and the place of the first byte written; writing goes downwards. *)
Notation out := (list Z * Z)%type.

Section encoding.
(** The bytes of memory that has just been allocated. *)
Context (junk : Z -> Z).

(** [memcpy] of the first [size] bytes of [x]. *)
Definition Rans64EncWrite (x size : Z) (o : out) : res out :=
  let '(buffer, ptr) := o in
  let ptr := ptr - size in
  let* (buffer, ptr) :=
    if ptr <? 0 then
      let pos := ptr + size in
      let len := Z.of_nat (length buffer) - pos in
      let buffer := buffer ++ map junk (seqZ 0 (Z.of_nat (length buffer))) in
      let ptr := Z.of_nat (length buffer) - len in
      let* buffer := memcpy buffer ptr pos len in Ok (buffer, ptr - size)
    else Ok (buffer, ptr) in
  let* buffer := put buffer ptr size (byte_of x) in Ok (buffer, ptr).

Definition Rans64EncRenorm (x : Z) (freq scale_bits : Z) (o : out) : res (Z * out) :=
  let* _ := assert_ (0 <? freq) in
  let x_max := u64 (shl64 (Z.shiftr RANS_L scale_bits) (BLOCK_SIZE * 8) * freq) in
  if x_max <=? x then let* o := Rans64EncWrite x BLOCK_SIZE o in Ok (Z.shiftr x (BLOCK_SIZE * 8), o) else Ok (x, o).

Definition terark_bsr_u64 (x : Z) : res Z := if 0 <? x then Ok (Z.log2 x) else UB.

Definition Rans64EncFlush (x psize : Z) (check : XCheck) (o : out) : res (out * Z) :=
  let en := Z.b2z (enable check) in
  let* b := terark_bsr_u64 x in
  let c := (b + 8 + HEAD_BITS + en) / 8 in
  let* _ := assert_ ((2 <=? c) && (c <=? 8)) in
  let s := psize mod RECORD_MAX_SIZE * 7 + (c - 2) in
  let x := Z.lor (shl64 x HEAD_BITS) s in
  let x := if enable check then Z.lor (shl64 x 1) (Z.b2z (value check)) else x in
  let* o := Rans64EncWrite x c o in Ok (o, psize / RECORD_MAX_SIZE).
End encoding.

Definition Rans64DecSymbolInit (start freq : Z) : res Rans64DecSymbol :=
  let* _ := assert_ (start <=? TOTFREQ) in
  let* _ := assert_ (freq <=? TOTFREQ - start) in Ok (DecSym (u16 start) (u16 freq)).

(** The functions of the decoder give [None] where the code returns false. *)
Definition Rans64DecInit (data : list Z) (check : XCheck) (psize ptr : Z) : res (option (Z * Z * Z)) :=
  let en := Z.b2z (enable check) in
  if inside data ptr 2 then
    let s := Z.land (le_at 2 data ptr) (Z.shiftl 1 (HEAD_BITS + en) - 1) in
    if enable check && negb (Z.land s 1 =? Z.b2z (value check)) then Ok None else
    let s := if enable check then Z.shiftr s 1 else s in
    let c := s mod 7 + 2 in
    if Z.of_nat (length data) <? ptr + c then Ok None else
    if inside data ptr c then
      let x := le_at (Z.to_nat c) data ptr in
      Ok (Some (Z.shiftr x (HEAD_BITS + en), u64 (psize * RECORD_MAX_SIZE + s / 7), ptr + c))
    else UB
  else UB.

Definition Rans64DecRenorm (data : list Z) (x ptr : Z) : res (option (Z * Z)) :=
  if x <? RANS_L then
    if Z.of_nat (length data) <=? ptr then Ok None else
    if inside data ptr 4 then
      let x := Z.lor (shl64 x (BLOCK_SIZE * 8)) (le_at 4 data ptr) in
      let* _ := assert_ (RANS_L <=? x) in Ok (Some (x, ptr + BLOCK_SIZE))
    else UB
  else Ok (Some (x, ptr)).

(** The bytes go to [record], from [optr] on. *)
Definition Rans64DecTail (x : Z) (record : list Z) (optr oend : Z) : res (option (list Z * Z)) :=
  let* (x, record, optr) := loop 9 (fun '(x, record, optr) =>
    if (1 <? x) && negb (optr =? oend) then
      let* record := wr record optr (Z.land x 255) in Ok (inl (Z.shiftr x 8, record, optr + 1))
    else Ok (inr (x, record, optr))) (x, record, optr) in
  Ok (if x =? 1 then Some (record, optr) else None).

(** ** The tables *)

Definition put_byte (m : list Z) (cp v : Z) : res (list Z * Z) := let* m := wr m cp (u8 v) in Ok (m, cp + 1).

(** The length of the run of frequencies above zero from [j] on. *)
Definition run_from (freq : list Z) (j : Z) : res Z :=
  let* rle_j := loop 257 (fun rle_j =>
    if rle_j <? 256 then let* f := rd freq rle_j in Ok (if negb (f =? 0) then inl (rle_j + 1) else inr rle_j) else Ok (inr rle_j)) j in
  Ok (rle_j - j).

Definition put_symbol (freq : list Z) (j : Z) (m : list Z) (cp rle_j : Z) : res (list Z * Z * Z) :=
  if negb (rle_j =? 0) then Ok (m, cp, rle_j - 1) else
  let* (m, cp) := put_byte m cp j in
  let* c := if 0 <? j then let* p := rd freq (j - 1) in Ok (negb (p =? 0)) else Ok false in
  if c then let* rle_j := run_from freq (j + 1) in let* (m, cp) := put_byte m cp rle_j in Ok (m, cp, rle_j)
  else Ok (m, cp, rle_j).

Definition put_freq (f : Z) (m : list Z) (cp : Z) : res (list Z * Z) :=
  if f <? 128 then put_byte m cp f else
  let* (m, cp) := put_byte m cp (Z.lor 128 (Z.shiftr f 8)) in put_byte m cp (Z.land f 255).

Definition Rans64BuildCTable (m : list Z) (cp : Z) (freq : list Z) (syms : list Rans64EncSymbol) : res (list Z * Z * list Rans64EncSymbol) :=
  if forallb (fun v => negb (0 <? v)) freq then let* (m, cp) := put_byte m cp 0 in Ok (m, cp, syms) else
  let* (m, cp) := put_byte m cp 1 in
  let* (m, cp, syms, _, _) := for_ 0 256 (fun j '(m, cp, syms, rle_j, x) =>
    let* f := rd freq j in
    if f =? 0 then Ok (m, cp, syms, rle_j, x) else
    let* (m, cp, rle_j) := put_symbol freq j m cp rle_j in
    let* (m, cp) := put_freq f m cp in
    let* s := Rans64EncSymbolInit (u32 x) (u32 f) TF_SHIFT in
    let* syms := wr syms j s in Ok (m, cp, syms, rle_j, x + f)) (m, cp, syms, 0, 0) in
  let* (m, cp) := put_byte m cp 0 in Ok (m, cp, syms).

Definition get_freq (table : list Z) (cp : Z) : res (Z * Z) :=
  let* F := rd table cp in
  if 128 <=? F then let* b := rd table (cp + 1) in Ok (Z.lor (Z.shiftl (Z.land (Z.land F (Z.lnot 128)) 127) 8) b, cp + 2) else Ok (F, cp + 1).

(** The next symbol and the length of the run it begins. *)
Definition next_symbol (table : list Z) (cp j rle_j : Z) : res (Z * Z * Z) :=
  if negb (rle_j =? 0) then Ok (cp, j + 1, rle_j - 1) else
  let* b := rd table cp in
  if j + 1 =? b then let* r := rd table (cp + 1) in Ok (cp + 2, b, r) else Ok (cp + 1, b, 0).

Definition Rans64BuildDTable (table : list Z) (cp : Z) (ari : list Z) (syms : list Rans64DecSymbol) : res (Z * list Z * list Rans64DecSymbol) :=
  let* v := rd table cp in
  if v =? 0 then Ok (cp + 1, ari, syms) else
  let* j := rd table (cp + 1) in
  loop 257 (fun '(cp, ari, syms, j, rle_j, x) =>
    let* (F, cp) := get_freq table cp in
    let F := if F =? 0 then TOTFREQ else F in
    let* s := Rans64DecSymbolInit (u32 x) (u32 F) in
    let* syms := wr syms j s in
    let* ari := put ari x F (fun _ => u8 j) in
    let x := x + F in
    let* _ := assert_ (x <=? TOTFREQ) in
    let* (cp, j, rle_j) := next_symbol table cp j rle_j in
    Ok (if j =? 0 then inr (cp, ari, syms) else inl (cp, ari, syms, j, rle_j, x))) (cp + 2, ari, syms, j, 0, 0).

(** ** [encoder] *)

Record encoder := Encoder { syms_ : list Rans64EncSymbol; table_ : list Z }.

(** [init]; [syms] is what the array holds before. *)
Definition init (syms : list Rans64EncSymbol) (o0 : list Z) : res encoder :=
  let table := replicate (Z.to_nat (257 * 3)) 0 in
  let* (table, cp, syms) := Rans64BuildCTable table 0 o0 syms in
  Ok (Encoder syms (take (Z.to_nat cp) table)).

Fixpoint mapM {A B} (f : A -> res B) (l : list A) : res (list B) :=
  match l with [] => Ok [] | a :: l => let* b := f a in let* bs := mapM f l in Ok (b :: bs) end.

Fixpoint mapM2 {A B C} (f : A -> B -> res C) (l : list A) (m : list B) : res (list C) :=
  match l, m with a :: l, b :: m => let* c := f a b in let* cs := mapM2 f l m in Ok (c :: cs) | _, _ => Ok [] end.

(** [value] of stream [k] of [N]; it tells how many streams there are. *)
Definition xvalue (N k : Z) : bool :=
  if k <? 1 then 1 <? N else if k <? 2 then 2 <? N else if k <? 4 then 4 <? N else 8 <? N.

(** The lines that the code repeats for the streams [w7] to [w0], in this order. *)
Fixpoint init_down (n : nat) (record : list Z) (endp size : Z) (rans : list Z) : res (list Z * Z) :=
  match n with
  | O => Ok (rans, size)
  | S n => let* (x, endp, size) := Rans64EncInit record endp size in init_down n record endp size (x :: rans)
  end.

Fixpoint renorm_down (junk : Z -> Z) (rans : list Z) (s : list Rans64EncSymbol) (o : out) : res (list Z * out) :=
  match rans, s with
  | x :: rans, sym :: s =>
      let* (rans, o) := renorm_down junk rans s o in
      let* (x, o) := Rans64EncRenorm junk x (freq sym) TF_SHIFT o in Ok (x :: rans, o)
  | _, _ => Ok ([], o)
  end.

Fixpoint flush_down (junk : Z -> Z) (N k : Z) (check : bool) (rans : list Z) (size : Z) (o : out) : res (out * Z) :=
  match rans with
  | [] => Ok (o, size)
  | x :: rans =>
      let* (o, size) := flush_down junk N (k + 1) check rans size o in
      Rans64EncFlush junk x size (Check_ check (xvalue N k)) o
  end.

Section encode.
Context (junk : Z -> Z) (e : encoder) (record : list Z).

(** A symbol on the last stream. *)
Definition encode_last (N : nat) (i : Z) (st : list Z * out) : res (list Z * out) :=
  let '(rans, o) := st in
  let* c := rd record i in
  let* s := rd (syms_ e) c in
  let* x := rd rans (Z.of_nat N - 1) in
  let* (x, o) := Rans64EncRenorm junk x (freq s) TF_SHIFT o in
  let* x := Rans64EncPutSymbol x s in
  let* rans := wr rans (Z.of_nat N - 1) x in Ok (rans, o).

(** A symbol on every stream. *)
Definition encode_round (i : list Z) (st : list Z * out) : res (list Z * out) :=
  let '(rans, o) := st in
  let* c := mapM (rd record) i in
  let* s := mapM (rd (syms_ e)) c in
  let* (rans, o) := renorm_down junk rans s o in
  let* rans := mapM2 Rans64EncPutSymbol rans s in Ok (rans, o).

Definition encode_xN (N : nat) (check : bool) : res (list Z) :=
  let n := Z.of_nat N in
  let size := Z.of_nat (length record) in
  if pow_t RECORD_MAX_SIZE (Pos.of_nat N) <=? size then Ok [] else
  let buffer := replicate (Z.to_nat (size * 5 / 4 + 8 * n + 8)) 0 in
  let* (rans, size) := init_down N record size size [] in
  let ptr := Z.of_nat (length buffer) in
  let* st := if 1 <? n then for_ 0 (size mod n) (fun t => encode_last N (size - 1 - t)) (rans, (buffer, ptr)) else Ok (rans, (buffer, ptr)) in
  let* (rans, o) := if n <=? size then
      loop (Z.to_nat (size / n) + 1) (fun '(i, st) =>
        let* i0 := rd i 0 in
        if 0 <=? i0 then let* st := encode_round i st in Ok (inl (map (fun k => k - 1) i, st)) else Ok (inr st))
        (map (fun k => size / n * (k + 1) - 1) (seqZ 0 n), st)
    else Ok st in
  let* (o, size) := flush_down junk n 0 check rans (Z.of_nat (length record)) o in
  let* _ := assert_ (size =? 0) in
  let '(buffer, ptr) := o in Ok (drop (Z.to_nat ptr) buffer).

Definition encode : res (list Z) :=
  let size := Z.of_nat (length record) in
  if size <? pow_t RECORD_MAX_SIZE 1 then encode_xN 1 true
  else if size <? pow_t RECORD_MAX_SIZE 2 then encode_xN 2 true
  else if size <? pow_t RECORD_MAX_SIZE 4 then encode_xN 4 true
  else encode_xN 8 true.

Definition encode_x1 : res (list Z) := encode_xN 1 false.
Definition encode_x2 : res (list Z) := encode_xN 2 false.
Definition encode_x4 : res (list Z) := encode_xN 4 false.
Definition encode_x8 : res (list Z) := encode_xN 8 false.
End encode.

(** ** [decoder] *)

Record decoder := Decoder { dsyms_ : list Rans64DecSymbol; ari_ : list Z }.

(** [init]; the arrays are not initialised. *)
Definition dinit (table : list Z) (d : decoder) : res (decoder * Z) :=
  let* (cp, ari, syms) := Rans64BuildDTable table 0 (ari_ d) (dsyms_ d) in Ok (Decoder syms ari, cp).

(** [return 0] where the value is [None]. *)
Definition obind {A B} (m : res (option A)) (k : A -> res (option B)) : res (option B) :=
  let* r := m in match r with Some a => k a | None => Ok None end.
Notation "'let?' p := m 'in' k" := (obind m (fun p => k)) (at level 10, p pattern, m at level 200, k at level 200) : res_scope.

(** The lines for the streams [w0] to [w7], in this order. *)
Fixpoint init_up (n : nat) (data : list Z) (N k : Z) (check : bool) (psize ptr : Z) : res (option (list Z * Z * Z)) :=
  match n with
  | O => Ok (Some ([], psize, ptr))
  | S n =>
      let? (x, psize, ptr) := Rans64DecInit data (Check_ check (xvalue N k)) psize ptr in
      let? (rans, psize, ptr) := init_up n data N (k + 1) check psize ptr in Ok (Some (x :: rans, psize, ptr))
  end.

Fixpoint renorm_up (data : list Z) (rans : list Z) (ptr : Z) : res (option (list Z * Z)) :=
  match rans with
  | [] => Ok (Some ([], ptr))
  | x :: rans =>
      let? (x, ptr) := Rans64DecRenorm data x ptr in
      let? (rans, ptr) := renorm_up data rans ptr in Ok (Some (x :: rans, ptr))
  end.

Fixpoint write_up (record : list Z) (o c : list Z) : res (list Z) :=
  match o, c with p :: o, b :: c => let* record := wr record p b in write_up record o c | _, _ => Ok record end.

Fixpoint tail_up (rans : list Z) (record : list Z) (optr oend : Z) : res (option (list Z * Z)) :=
  match rans with
  | [] => Ok (Some (record, optr))
  | x :: rans => let? (record, optr) := Rans64DecTail x record optr oend in tail_up rans record optr oend
  end.

Section decode.
Context (junk : Z -> Z) (d : decoder) (data : list Z).

Definition get_symbol (x : Z) : res Z := rd (ari_ d) (Z.land x (TOTFREQ - 1)).
Definition advance (x c : Z) : res Z :=
  let m := Z.land x (TOTFREQ - 1) in
  let* s := rd (dsyms_ d) c in
  let x := u64 (dfreq s * Z.shiftr x TF_SHIFT) in Ok (u64 (x + u32 (m - start s))).

(** The streams, the places they write to, the record, the place read from. *)
Notation dstate := (list Z * list Z * list Z * Z)%type.

Definition decode_round (st : dstate) : res (option dstate) :=
  let '(rans, o, record, ptr) := st in
  let* c := mapM get_symbol rans in
  let* rans := mapM2 advance rans c in
  let* record := write_up record o c in
  let o := map (fun p => p + 1) o in
  let? (rans, ptr) := renorm_up data rans ptr in Ok (Some (rans, o, record, ptr)).

Definition decode_last (N : nat) (st : dstate) : res (option dstate) :=
  let '(rans, o, record, ptr) := st in
  let last := Z.of_nat N - 1 in
  let* x := rd rans last in
  let* c := get_symbol x in
  let* x := advance x c in
  let* p := rd o last in
  let* record := wr record p c in
  let* o := wr o last (p + 1) in
  let? (x, ptr) := Rans64DecRenorm data x ptr in
  let* rans := wr rans last x in Ok (Some (rans, o, record, ptr)).

(** [for (i = 0; i < e; ++i) { body; }], where the body may [return 0]. *)
Fixpoint times (e : nat) (body : dstate -> res (option dstate)) (st : dstate) : res (option dstate) :=
  match e with O => Ok (Some st) | S e => let? st := body st in times e body st end.

(** How many bytes have been read, and the record. *)
Definition decode_xN (N : nat) (check : bool) : res (option (Z * list Z)) :=
  let n := Z.of_nat N in
  if Z.of_nat (length data) <? n * 2 then Ok None else
  let? (rans, record_size, ptr) := init_up N data n 0 check 0 0 in
  let record := map junk (seqZ 0 record_size) in
  let w := n * (RANS_L_BITS / 8) in
  let size := if w <? record_size then record_size - w else 0 in
  let o := map (fun k => size / n * k) (seqZ 0 n) in
  let? st := times (Z.to_nat (size / n)) decode_round (rans, o, record, ptr) in
  let? (rans, _, record, ptr) := if 1 <? n then times (Z.to_nat (size mod n)) (decode_last N) st else Ok (Some st) in
  let? (record, _) := tail_up rans record size record_size in
  Ok (Some (ptr, record)).

(** Tries another number of streams when [read] is not above 0. *)
Definition or_else (a b : res (option (Z * list Z))) : res (option (Z * list Z)) :=
  let* r := a in match r with Some (read, record) => if 0 <? read then Ok r else b | None => b end.

Definition decode : res (option (Z * list Z)) :=
  or_else (decode_xN 8 true) (or_else (decode_xN 4 true) (or_else (decode_xN 2 true) (or_else (decode_xN 1 true) (Ok None)))).

Definition decode_x1 : res (option (Z * list Z)) := decode_xN 1 false.
Definition decode_x2 : res (option (Z * list Z)) := decode_xN 2 false.
Definition decode_x4 : res (option (Z * list Z)) := decode_xN 4 false.
Definition decode_x8 : res (option (Z * list Z)) := decode_xN 8 false.
End decode.
End Rans.
