(* ===== verification/RansStep.v ===== *)
(** * One symbol of the rANS coder

    The encoder's multiplication by a reciprocal is a division; a decoded symbol
    undoes an encoded one, and the bytes that are written are the bytes read. *)
From S2P Require Import Prelude Bytes Rans.
Import Bytes Rans.

Module RansStep.

(** ** The division *)

Lemma u16_small z : 0 <= z < 2 ^ 16 -> u16 z = z.
Proof. intros. by apply Z.mod_small. Qed.
Lemma shl64_small z n : 0 <= n -> 0 <= z * 2 ^ n < 2 ^ 64 -> shl64 z n = z * 2 ^ n.
Proof. intros. unfold shl64. rewrite Z.shiftl_mul_pow2 by done. by apply u64_small. Qed.

(** [shift] is the number of bits of [freq - 1]. *)
Lemma shift_loop f : 2 <= f <= 4096 -> exists sh,
  loop 32 (fun shift => Ok (if Z.shiftl 1 shift <? f then inl (shift + 1) else inr shift)) 0 = Ok sh /\
  1 <= sh <= 12 /\ 2 ^ (sh - 1) < f <= 2 ^ sh.
Proof.
  intros Hf. apply (loop_inv (fun sh => 0 <= sh <= 12 /\ (sh = 0 \/ 2 ^ (sh - 1) < f)) (fun sh => 12 - sh)
    (fun sh => 1 <= sh <= 12 /\ 2 ^ (sh - 1) < f <= 2 ^ sh)); [lia..|].
  intros sh (H1 & H2). split; [lia|]. rewrite Z.shiftl_1_l. destruct (Z.ltb_spec (2 ^ sh) f) as [H|H].
  - left. eexists. split; [done|]. assert (sh < 12). { destruct (Z.eq_dec sh 12) as [->|]; [change (2 ^ 12) with 4096 in H|]; lia. }
    split; [|lia]. split; [lia|]. right. by replace (sh + 1 - 1) with sh by lia.
  - right. eexists. split; [done|]. destruct H2 as [->|]; [change (2 ^ 0) with 1 in H; lia|]. split; [|lia].
    destruct (Z.eq_dec sh 0) as [->|]; [change (2 ^ 0) with 1 in H; lia|lia].
Qed.

(** The long division gives the reciprocal, rounded up. *)
Lemma reciprocal f sh : 2 <= f -> 1 <= sh <= 12 -> 2 ^ (sh - 1) < f <= 2 ^ sh ->
  let x1 := shl64 1 (sh + 31) in let t1 := x1 / f in let x0 := u64 (f - 1 + shl64 (x1 mod f) 32) in let t0 := x0 / f in
  u64 (t0 + shl64 t1 32) = (f - 1 + 2 ^ (sh + 63)) / f.
Proof.
  intros Hf Hs Hsf. assert (Hp : 2 ^ sh = 2 * 2 ^ (sh - 1)) by (rewrite <- Z.pow_succ_r by lia; f_equal; lia).
  assert (2 ^ sh <= 2 ^ 12) by (apply Z.pow_le_mono_r; lia). assert (H12 : (2 ^ 12 : Z) = 4096) by done.
  assert (H31 : 2 ^ (sh + 31) = 2 ^ sh * 2 ^ 31) by (rewrite Z.pow_add_r by lia; done).
  assert (H63 : 2 ^ (sh + 63) = 2 ^ (sh + 31) * 2 ^ 32) by (rewrite <- Z.pow_add_r by lia; f_equal; lia).
  cbv zeta. rewrite (shl64_small 1) by (rewrite ?Z.mul_1_l, ?H31; lia). rewrite Z.mul_1_l. set (D := 2 ^ (sh + 31)) in *.
  pose proof (Z.div_mod D f ltac:(lia)) as Hd. pose proof (Z.mod_pos_bound D f ltac:(lia)) as Hm.
  set (t1 := D / f) in *. set (r := D mod f) in *.
  rewrite (shl64_small r) by lia. rewrite (u64_small (f - 1 + _)) by lia.
  assert (Ht1 : 0 <= t1 < 2 ^ 32).
  { split; [apply Z.div_pos; lia|]. apply Z.div_lt_upper_bound; [lia|]. rewrite H31, Hp. change (2 ^ 32) with (2 * 2 ^ 31). nia. }
  assert (Ht0 : 0 <= (f - 1 + r * 2 ^ 32) / f < 2 ^ 32).
  { split; [apply Z.div_pos; lia|]. apply Z.div_lt_upper_bound; lia. }
  rewrite (shl64_small t1) by lia. rewrite u64_small by lia. rewrite H63, Hd.
  replace (f - 1 + (f * t1 + r) * 2 ^ 32) with (f - 1 + r * 2 ^ 32 + f * (t1 * 2 ^ 32)) by ring. by rewrite div_add_mul by lia.
Qed.

(** Multiplying by the reciprocal divides. *)
Lemma reciprocal_div f sh x : 2 <= f -> 1 <= sh -> f <= 2 ^ sh -> 0 <= x < 2 ^ 63 ->
  Z.shiftr (Z.shiftr (x * ((f - 1 + 2 ^ (sh + 63)) / f)) 64) (sh - 1) = x / f.
Proof.
  intros Hf Hs Hfs Hx. rewrite Z.shiftr_shiftr, Z.shiftr_div_pow2 by lia. replace (64 + (sh - 1)) with (sh + 63) by lia.
  rewrite Z.pow_add_r by lia. set (s := 2 ^ sh) in *. set (P := s * 2 ^ 63).
  assert (HP : 0 < P) by lia. set (rcp := (f - 1 + P) / f).
  assert (He : P <= rcp * f < P + f). { unfold rcp. pose proof (Z.div_mod (f - 1 + P) f ltac:(lia)). pose proof (Z.mod_pos_bound (f - 1 + P) f). lia. }
  pose proof (Z.div_mod x f ltac:(lia)) as Hd. pose proof (Z.mod_pos_bound x f ltac:(lia)) as Hm.
  assert (0 <= x / f) by (apply Z.div_pos; lia). set (a := x / f) in *. set (b := x mod f) in *.
  assert (0 <= rcp * f - P < f) by lia. set (e := rcp * f - P) in *. assert (Hr : rcp * f = P + e) by lia.
  assert (Hxe : x * e < P). { apply Z.le_lt_trans with (x * s); [apply Z.mul_le_mono_nonneg_l; lia|]. unfold P. rewrite Z.mul_comm. apply Z.mul_lt_mono_pos_l; lia. }
  assert (0 <= x * e) by (apply Z.mul_nonneg_nonneg; lia).
  symmetry. apply Z.div_unique with (x * rcp - P * a); [|lia]. left.
  assert (E : f * (x * rcp - P * a) = b * P + x * e).
  { transitivity (x * (rcp * f) - P * (f * a)); [ring|]. rewrite Hr. replace (f * a) with (x - b) by lia. ring. }
  split.
  - apply Z.mul_nonneg_cancel_l with f; [lia|]. rewrite E. apply Z.add_nonneg_nonneg; [apply Z.mul_nonneg_nonneg; lia|lia].
  - apply Z.mul_lt_mono_pos_l with f; [lia|]. rewrite E. assert (b * P <= (f - 1) * P) by (apply Z.mul_le_mono_nonneg_r; lia).
    replace (f * P) with ((f - 1) * P + P) by ring. lia.
Qed.

(** What the plain encoder does. *)
Definition put_plain (st f x : Z) : Z := x / f * TOTFREQ + st + x mod f.

Lemma symbol_init st f : 0 < f -> 0 <= st -> st + f <= TOTFREQ -> exists s,
  Rans64EncSymbolInit (u32 st) (u32 f) TF_SHIFT = Ok s /\ Rans.freq s = f /\
  forall x, 1 <= x < 2 ^ 51 -> Rans64EncPutSymbol x s = Ok (put_plain st f x).
Proof.
  change TOTFREQ with 4096. intros Hf Hst Hle. rewrite !u32_small by lia. unfold Rans64EncSymbolInit.
  change (Z.shiftl 1 TF_SHIFT) with 4096. change (assert_ (TF_SHIFT <=? 31)) with (Ok tt). cbn [rbind].
  unfold assert_ at 1 2. rewrite !(proj2 (Z.leb_le _ _)) by lia. cbn [rbind].
  destruct (Z.ltb_spec f 2) as [H1|H1].
  - assert (f = 1) as -> by lia. eexists. split; [done|]. cbn [Rans.freq]. split; [done|]. intros x Hx.
    unfold Rans64EncPutSymbol. cbn [Rans.freq Rans.bias Rans.cmpl_freq Rans.rcp_freq Rans.rcp_shift]. change (u16 1 =? 0) with false. cbn [negb assert_ rbind].
    f_equal. unfold Rans64MulHi. rewrite Z.shiftr_0_r, Z.shiftr_div_pow2 by lia.
    replace (x * (2 ^ 64 - 1) / 2 ^ 64) with (x - 1). 2:{ apply Z.div_unique with (2 ^ 64 - x); lia. }
    rewrite !u16_small by lia. rewrite u64_small by lia. unfold put_plain. change TOTFREQ with 4096. rewrite Z.div_1_r, Z.mod_1_r. lia.
  - destruct (shift_loop f ltac:(lia)) as (sh & -> & Hs & Hsf). cbn [rbind]. rewrite (reciprocal f sh) by done. eexists. split; [done|].
    cbn [Rans.freq]. split; [by apply u16_small; lia|]. intros x Hx. unfold Rans64EncPutSymbol, Rans64MulHi.
    cbn [Rans.freq Rans.bias Rans.cmpl_freq Rans.rcp_freq Rans.rcp_shift]. rewrite !u16_small by lia. rewrite reciprocal_div by lia.
    destruct (Z.eqb_spec f 0); [lia|]. cbn [negb assert_ rbind]. f_equal. unfold put_plain. change TOTFREQ with 4096.
    pose proof (Z.div_mod x f ltac:(lia)). pose proof (Z.mod_pos_bound x f ltac:(lia)).
    assert (0 <= x / f) by (apply Z.div_pos; lia). rewrite u64_small; nia.
Qed.

(** ** A symbol and its inverse *)

Definition state (x : Z) : Prop := RANS_L <= x < 2 ^ 48.
Definition shrink (f x : Z) : Z := if 2 ^ 36 * f <=? x then x / 2 ^ 32 else x.
Definition chunk (f x : Z) : list Z := if 2 ^ 36 * f <=? x then map (byte_of x) (seqZ 0 4) else [].

Lemma shrink_range f x : 0 < f <= TOTFREQ -> state x -> 16 * f <= shrink f x < 2 ^ 36 * f /\ (shrink f x < RANS_L <-> 2 ^ 36 * f <= x).
Proof.
  unfold state, shrink. change RANS_L with (2 ^ 16). change TOTFREQ with (2 ^ 12). intros Hf Hx.
  destruct (Z.leb_spec (2 ^ 36 * f) x) as [H|H]; [|split; [lia|lia]].
  assert (16 * f <= x / 2 ^ 32) by (apply Z.div_le_lower_bound; lia).
  assert (x / 2 ^ 32 < 2 ^ 16) by (apply Z.div_lt_upper_bound; lia). lia.
Qed.

Lemma put_inverse st f x : 0 < f -> 0 <= st -> st + f <= TOTFREQ -> 0 <= x ->
  put_plain st f x / TOTFREQ = x / f /\ put_plain st f x mod TOTFREQ = st + x mod f.
Proof.
  intros Hf Hst Hle Hx. pose proof (Z.mod_pos_bound x f Hf). unfold put_plain.
  split; [symmetry; apply Z.div_unique with (st + x mod f)|symmetry; apply Z.mod_unique with (x / f)]; lia.
Qed.

Lemma put_state st f x : 0 < f -> 0 <= st -> st + f <= TOTFREQ -> 16 * f <= x < 2 ^ 36 * f -> state (put_plain st f x).
Proof.
  unfold state. intros Hf Hst Hle Hx. pose proof (Z.mod_pos_bound x f Hf). unfold put_plain.
  assert (16 <= x / f) by (apply Z.div_le_lower_bound; lia). assert (x / f < 2 ^ 36) by (apply Z.div_lt_upper_bound; lia).
  change TOTFREQ with (2 ^ 12) in *. change RANS_L with (2 ^ 16). lia.
Qed.

(** ** What is written *)

Definition wrote (o : out) (l : list Z) : Prop :=
  exists A, fst o = A ++ l /\ snd o = Z.of_nat (length A) /\ 8 <= Z.of_nat (length (fst o)).

Lemma map_byte_at (A l B : list Z) p n : p = Z.of_nat (length A) -> n = Z.of_nat (length l) ->
  map (fun k => byte_at (A ++ l ++ B) (p + k)) (seqZ 0 n) = l.
Proof.
  intros -> ->. apply list_eq_same_length with (length l); [done|by rewrite length_map, length_seqZ, Nat2Z.id|].
  intros i x y Hi. rewrite list_lookup_fmap, lookup_seqZ_lt by lia. cbn. intros [= <-] Hy. unfold byte_at.
  rewrite app_nth2 by lia. replace (Z.to_nat _ - length A)%nat with i by lia.
  rewrite nth_lookup, lookup_app_l by lia. by rewrite Hy.
Qed.

Lemma put_mid (A l B : list Z) p n g : p = Z.of_nat (length A) -> n = Z.of_nat (length l) ->
  put (A ++ l ++ B) p n g = Ok (A ++ map g (seqZ 0 n) ++ B).
Proof.
  intros -> ->. unfold put. rewrite inside_ok by (rewrite ?length_app; lia). f_equal. f_equal; [rewrite Nat2Z.id; apply take_app_length|]. f_equal.
  replace (Z.to_nat _) with (length A + length l)%nat by lia. rewrite app_assoc. rewrite drop_app_ge by (rewrite length_app; lia).
  rewrite length_app. by rewrite Nat.sub_diag, drop_0.
Qed.

Lemma split_at_end (l : list Z) n : (n <= length l)%nat -> exists l1 l2, l = l1 ++ l2 /\ length l2 = n.
Proof. intros H. exists (take (length l - n) l), (drop (length l - n) l). rewrite take_drop, length_drop. split; [done|lia]. Qed.

Lemma write_ok junk x size o l : wrote o l -> 0 <= size <= 8 -> exists o', Rans64EncWrite junk x size o = Ok o' /\ wrote o' (map (byte_of x) (seqZ 0 size) ++ l).
Proof.
  destruct o as [b p]. intros (A & Hb & Hp & H8) Hs. cbn in Hb, Hp, H8. subst b p. rewrite length_app in H8. unfold Rans64EncWrite.
  destruct (Z.ltb_spec (Z.of_nat (length A) - size) 0) as [H|H]; cbn [rbind].
  - rewrite length_app. set (T := map junk (seqZ 0 (Z.of_nat (length A + length l)))).
    assert (LT : length T = (length A + length l)%nat) by (unfold T; rewrite length_map, length_seqZ; lia).
    rewrite !length_app, LT. replace (Z.of_nat (length A + length l) - (Z.of_nat (length A) - size + size)) with (Z.of_nat (length l)) by lia.
    unfold memcpy. rewrite inside_ok by (rewrite ?length_app; lia).
    destruct (split_at_end (A ++ l ++ T) (length l)) as (U & V & EU & LV); [rewrite !length_app; lia|].
    rewrite <- app_assoc, EU. rewrite <- (app_nil_r V). rewrite (put_mid U V []); [|apply (f_equal length) in EU; rewrite !length_app in EU; lia|lia].
    rewrite !app_nil_r, <- EU. rewrite (map_byte_at A l T) by lia. cbn [rbind].
    assert (LU : length U = (2 * length A + length l)%nat) by (apply (f_equal length) in EU; rewrite !length_app in EU; lia).
    destruct (split_at_end U (Z.to_nat size)) as (U1 & U2 & -> & LU2); [lia|]. rewrite length_app in LU.
    rewrite <- app_assoc. rewrite (put_mid U1 U2 l) by lia. cbn [rbind]. eexists. split; [done|].
    exists U1. cbn. split; [done|]. split; [lia|]. rewrite !length_app, length_map, length_seqZ. lia.
  - destruct (split_at_end A (Z.to_nat size)) as (A1 & A2 & -> & LA2); [lia|]. rewrite !length_app in *.
    rewrite <- app_assoc. rewrite (put_mid A1 A2 l) by lia. cbn [rbind]. eexists. split; [done|].
    exists A1. cbn. split; [done|]. split; [lia|]. rewrite !length_app, length_map, length_seqZ. lia.
Qed.

(** ** What is read *)

Definition rest (data : list Z) (ptr : Z) (l : list Z) : Prop := exists A, data = A ++ l /\ ptr = Z.of_nat (length A).

Lemma rest_app data ptr l l' : rest data ptr (l ++ l') -> rest data (ptr + Z.of_nat (length l)) l'.
Proof. intros (A & -> & ->). exists (A ++ l). rewrite length_app, app_assoc. split; [done|lia]. Qed.

Lemma rest_inside data ptr l n : rest data ptr l -> n <= Z.of_nat (length l) -> inside data ptr n = true.
Proof. intros (A & -> & ->) H. apply inside_ok; rewrite ?length_app; lia. Qed.

Lemma rest_end data ptr l : rest data ptr l -> Z.of_nat (length data) = ptr + Z.of_nat (length l).
Proof. intros (A & -> & ->). rewrite length_app. lia. Qed.

Lemma rest_rd data ptr b l : rest data ptr (b :: l) -> rd data ptr = Ok b.
Proof. intros (A & -> & ->). apply rd_ok; [lia|]. by rewrite Nat2Z.id, list_lookup_middle. Qed.

Lemma rest_le data ptr x k n l : rest data ptr (map (byte_of x) (seqZ 0 k) ++ l) -> Z.of_nat n <= k -> le_at n data ptr = x mod 256 ^ Z.of_nat n.
Proof.
  intros (A & -> & ->) Hn. apply le_at_bytes_of; [apply Z.mod_pos_bound; lia|]. intros i Hi. unfold byte_at.
  rewrite app_nth2 by lia. rewrite app_nth1 by (rewrite length_map, length_seqZ; lia).
  rewrite nth_lookup, list_lookup_fmap, lookup_seqZ_lt by lia. cbn. unfold byte_of.
  replace (0 + Z.of_nat (Z.to_nat (Z.of_nat (length A) + i) - length A)) with i by lia.
  replace (Z.of_nat n) with (i + (1 + (Z.of_nat n - i - 1))) by lia. rewrite (Z.pow_add_r 256 i), Z.pow_add_r by lia. change (256 ^ 1) with 256.
  set (a := 256 ^ i). set (c := 256 ^ (Z.of_nat n - i - 1)). assert (0 < a) by (apply Z.pow_pos_nonneg; lia). assert (0 < c) by (apply Z.pow_pos_nonneg; lia).
  rewrite Z.rem_mul_r by lia. rewrite Z.mul_comm, Z.add_comm, Z.div_add_l by lia. rewrite (Z.div_small (x mod a)) by (apply Z.mod_pos_bound; lia).
  rewrite Z.add_0_r, Z.rem_mul_r by lia. rewrite Z.mul_comm, Z_mod_plus_full, Z.mod_mod by lia. done.
Qed.

(** ** The two renormalisations *)

Lemma enc_renorm_ok junk x f o l : 0 < f <= TOTFREQ -> state x -> wrote o l -> exists o',
  Rans64EncRenorm junk x f TF_SHIFT o = Ok (shrink f x, o') /\ wrote o' (chunk f x ++ l).
Proof.
  change TOTFREQ with 4096. unfold state. intros Hf Hx Ho. unfold Rans64EncRenorm, assert_. rewrite (proj2 (Z.ltb_lt _ _)) by lia. cbn [rbind].
  change (Z.shiftr RANS_L TF_SHIFT) with 16. change (shl64 16 (BLOCK_SIZE * 8)) with (2 ^ 36). rewrite u64_small by lia.
  unfold shrink, chunk. destruct (Z.leb_spec (2 ^ 36 * f) x); [|by exists o].
  destruct (write_ok junk x BLOCK_SIZE o l Ho ltac:(done)) as (o' & -> & Ho'). cbn [rbind]. exists o'. split; [|done].
  change (BLOCK_SIZE * 8) with 32. by rewrite Z.shiftr_div_pow2 by lia.
Qed.

Lemma dec_renorm_ok data f x ptr l : 0 < f <= TOTFREQ -> state x -> rest data ptr (chunk f x ++ l) -> exists ptr',
  Rans64DecRenorm data (shrink f x) ptr = Ok (Some (x, ptr')) /\ rest data ptr' l.
Proof.
  intros Hf Hx Hr. destruct (shrink_range f x Hf Hx) as [_ Hi]. unfold Rans64DecRenorm. unfold state in Hx.
  destruct (Z.ltb_spec (shrink f x) RANS_L) as [H|H].
  - apply Hi in H. unfold shrink, chunk in *. destruct (Z.leb_spec (2 ^ 36 * f) x) as [H'|]; [|lia]. pose proof (rest_end _ _ _ Hr) as He.
    rewrite length_app, length_map, length_seqZ in He. destruct (Z.leb_spec (Z.of_nat (length data)) ptr); [lia|].
    rewrite (rest_inside _ _ _ 4 Hr) by (rewrite length_app, length_map, length_seqZ; lia). rewrite (rest_le _ _ x 4 4 l Hr) by done.
    change (BLOCK_SIZE * 8) with 32. change (256 ^ Z.of_nat 4) with (2 ^ 32).
    assert (x / 2 ^ 32 < 2 ^ 16) by (apply Z.div_lt_upper_bound; lia). assert (0 <= x / 2 ^ 32) by (apply Z.div_pos; change RANS_L with 65536 in *; lia).
    rewrite shl64_small; [|lia|split; [apply Z.mul_nonneg_nonneg; lia|change (2 ^ 64) with (2 ^ 32 * 2 ^ 32); lia]]. rewrite <- Z.shiftl_mul_pow2 by lia.
    assert (E : Z.lor (Z.shiftl (x / 2 ^ 32) 32) (x mod 2 ^ 32) = x).
    { rewrite <- Z.shiftr_div_pow2, <- Z.land_ones by lia. rewrite <- Z.ldiff_ones_r by lia. apply Z.bits_inj'. intros i Hi0.
      rewrite Z.lor_spec, Z.ldiff_spec, Z.land_spec. by destruct (Z.testbit x i), (Z.testbit (Z.ones 32) i). }
    rewrite E. unfold assert_. rewrite (proj2 (Z.leb_le _ _)) by lia. cbn [rbind]. eexists. split; [done|].
    apply rest_app in Hr. by rewrite length_map, length_seqZ in Hr.
  - unfold shrink, chunk in *. destruct (Z.leb_spec (2 ^ 36 * f) x); [lia|]. exists ptr. done.
Qed.
End RansStep.
