(* ===== verification/RansTable.v ===== *)
(** * The tables of the rANS coder

    What [Rans64BuildCTable] writes as a list of bytes, and that [Rans64BuildDTable]
    makes from it the table that inverts the encoder's. *)
From S2P Require Import Prelude Bytes Rans RansStep.
Import Bytes Rans RansStep.

Module RansTable.

(** ** Frequencies *)

Definition freqs (fs : list Z) : Prop := Forall (fun f => 0 <= f <= TOTFREQ) fs.

(** What a table of frequencies is: 256 of them, together at most [TOTFREQ]. *)
Definition histogram (fs : list Z) : Prop := length fs = 256%nat /\ Forall (fun f => 0 <= f) fs /\ zsum fs <= TOTFREQ.

Definition freq_of (fs : list Z) (c : Z) : Z := nth (Z.to_nat c) fs 0.
(** Where the range of a symbol starts. *)
Definition start_of (fs : list Z) (c : Z) : Z := zsum (take (Z.to_nat c) fs).

Lemma histogram_freqs fs : histogram fs -> freqs fs.
Proof.
  intros (_ & Hp & Hs). apply List.Forall_forall. intros f Hf. apply list_elem_of_In in Hf.
  apply list_elem_of_split in Hf as (l1 & l2 & ->). apply Forall_app in Hp as [H1 Hp]. pose proof (List.Forall_inv Hp) as H. pose proof (List.Forall_inv_tail Hp) as H2. cbv beta in H. clear Hp.
  rewrite zsum_app, zsum_cons in Hs. apply zsum_nonneg in H1, H2. lia.
Qed.

Lemma split_freq fs (j : nat) : (j < length fs)%nat -> exists A B, fs = A ++ freq_of fs (Z.of_nat j) :: B /\ length A = j.
Proof.
  intros Hj. exists (take j fs), (drop (S j) fs). split; [|rewrite length_take; lia].
  unfold freq_of. rewrite Nat2Z.id, nth_lookup. destruct (lookup_lt_is_Some_2 fs j Hj) as [f E]. rewrite E. cbn. by rewrite take_drop_middle.
Qed.

Lemma start_next A f B : start_of (A ++ f :: B) (Z.of_nat (S (length A))) = start_of (A ++ f :: B) (Z.of_nat (length A)) + f.
Proof.
  unfold start_of. rewrite !Nat2Z.id. rewrite take_app_length. replace (S (length A)) with (length (A ++ [f])) by (rewrite length_app; cbn; lia).
  replace (A ++ f :: B) with ((A ++ [f]) ++ B) by (by rewrite <- app_assoc). rewrite take_app_length, zsum_app. cbn. lia.
Qed.

Lemma start_bounds fs (j : nat) : histogram fs -> (j < length fs)%nat ->
  let f := freq_of fs (Z.of_nat j) in let st := start_of fs (Z.of_nat j) in 0 <= f /\ 0 <= st /\ st + f <= TOTFREQ.
Proof.
  intros (_ & Hp & Hs) Hj. cbv zeta. destruct (split_freq fs j Hj) as (A & B & E & <-). set (f := freq_of fs _) in *.
  assert (start_of fs (Z.of_nat (length A)) = zsum A) as ->. { unfold start_of. rewrite Nat2Z.id, E at 1. by rewrite take_app_length. }
  rewrite E in Hp, Hs. apply Forall_app in Hp as [H1 Hp]. pose proof (List.Forall_inv Hp) as H. pose proof (List.Forall_inv_tail Hp) as H2. cbv beta in H. clear Hp. rewrite zsum_app, zsum_cons in Hs.
  apply zsum_nonneg in H1, H2. lia.
Qed.

(** ** The bytes of the table *)

Definition freq_bytes (f : Z) : list Z := if f <? 128 then [f] else [128 + f / 256; f mod 256].

Fixpoint runlen (fs : list Z) : Z := match fs with [] => 0 | f :: fs => if f =? 0 then 0 else 1 + runlen fs end.

(** The bytes for the symbols from [j] on; [prev]: the symbol before is present. *)
Fixpoint emit (prev : bool) (j rle : Z) (fs : list Z) : list Z :=
  match fs with
  | [] => []
  | f :: fs =>
      if f =? 0 then emit false (j + 1) rle fs else
      if negb (rle =? 0) then freq_bytes f ++ emit true (j + 1) (rle - 1) fs else
      if prev then [j; runlen fs] ++ freq_bytes f ++ emit true (j + 1) (runlen fs) fs
      else [j] ++ freq_bytes f ++ emit true (j + 1) 0 fs
  end.

Definition table_bytes (fs : list Z) : list Z :=
  if forallb (fun v => negb (0 <? v)) fs then [0] else [1] ++ emit false 0 0 fs ++ [0].

Lemma runlen_bounds fs : 0 <= runlen fs <= Z.of_nat (length fs).
Proof. induction fs as [|f fs IH]; cbn [runlen length]; [lia|]. destruct (f =? 0); lia. Qed.

Lemma run_from_ok A fs : length (A ++ fs) = 256%nat -> run_from (A ++ fs) (Z.of_nat (length A)) = Ok (runlen fs).
Proof.
  intros L. unfold run_from.
  assert (H : forall gs B fuel, fs = B ++ gs -> (length gs < fuel)%nat -> loop fuel (fun rle_j => if rle_j <? 256 then
      let* f := rd (A ++ fs) rle_j in Ok (if negb (f =? 0) then inl (rle_j + 1) else inr rle_j) else Ok (inr rle_j))
      (Z.of_nat (length A + length B)) = Ok (Z.of_nat (length A + length B) + runlen gs)).
  { induction gs as [|f gs IH]; intros B fuel -> Hf; (destruct fuel; [cbn in Hf; lia|]); cbn [loop].
    - rewrite !length_app in L. cbn in L. destruct (Z.ltb_spec (Z.of_nat (length A + length B)) 256); [lia|]. cbn. f_equal. lia.
    - rewrite !length_app in L. cbn in L. destruct (Z.ltb_spec (Z.of_nat (length A + length B)) 256); [|lia].
      rewrite (rd_ok _ _ f); [|lia|]. 2:{ rewrite Nat2Z.id, app_assoc, <- length_app. by rewrite list_lookup_middle. }
      cbn [rbind runlen]. destruct (Z.eqb_spec f 0); cbn [negb]; [f_equal; lia|].
      specialize (IH (B ++ [f]) fuel). rewrite length_app in IH. cbn in IH.
      replace (Z.of_nat (length A + length B) + 1) with (Z.of_nat (length A + (length B + 1))) by lia.
      rewrite <- (app_assoc B [f] gs) in IH. cbn [app] in IH. rewrite IH; [f_equal; lia|done|cbn in Hf; lia]. }
  specialize (H fs [] 257%nat eq_refl). rewrite length_app in L. rewrite Nat.add_0_r in H. rewrite H by lia. cbn [rbind]. f_equal. lia.
Qed.

(** [m] holds [l] up to [cp]. *)
Definition filled (n : Z) (m : list Z) (cp : Z) (l : list Z) : Prop :=
  exists B, m = l ++ B /\ cp = Z.of_nat (length l) /\ Z.of_nat (length m) = n.

Lemma put_byte_ok n m cp l v : filled n m cp l -> cp < n -> 0 <= v < 256 -> exists m', put_byte m cp v = Ok (m', cp + 1) /\ filled n m' (cp + 1) (l ++ [v]).
Proof.
  intros (B & -> & -> & L) Hn Hv. rewrite length_app in L. destruct B as [|b B]; [cbn in L; lia|]. unfold put_byte.
  rewrite wr_ok by (rewrite length_app; cbn in *; lia). cbn [rbind]. eexists. split; [done|]. exists B. rewrite Nat2Z.id.
  rewrite insert_app_r_alt, Nat.sub_diag by lia. cbn. unfold u8. rewrite Z.mod_small by done. rewrite <- app_assoc. cbn. split; [done|].
  rewrite !length_app in *. cbn in *. lia.
Qed.

Lemma put_freq_ok n m cp l f : filled n m cp l -> cp + 2 <= n -> 0 <= f <= TOTFREQ -> exists m' cp',
  put_freq f m cp = Ok (m', cp') /\ filled n m' cp' (l ++ freq_bytes f) /\ cp' <= cp + 2.
Proof.
  change TOTFREQ with 4096. intros H Hn Hf. unfold put_freq, freq_bytes. destruct (Z.ltb_spec f 128).
  - destruct (put_byte_ok n m cp l f H ltac:(lia) ltac:(lia)) as (m' & -> & H'). eexists _, _. split; [done|]. split; [done|lia].
  - assert (E : Z.lor 128 (Z.shiftr f 8) = 128 + f / 256).
    { rewrite Z.shiftr_div_pow2 by lia. change (2 ^ 8) with 256. assert (0 <= f / 256 < 2 ^ 7) by (split; [apply Z.div_pos; lia|apply Z.div_lt_upper_bound; lia]).
      change 128 with (Z.shiftl 1 7) at 1. rewrite Z.lor_comm, lor_above by lia. lia. }
    rewrite E. change 255 with (Z.ones 8). rewrite Z.land_ones by lia. change (2 ^ 8) with 256.
    assert (0 <= f / 256 < 32) by (split; [apply Z.div_pos; lia|apply Z.div_lt_upper_bound; lia]). pose proof (Z.mod_pos_bound f 256 ltac:(lia)).
    destruct (put_byte_ok n m cp l (128 + f / 256) H ltac:(lia) ltac:(lia)) as (m1 & -> & Hm1). cbn [rbind].
    destruct (put_byte_ok n m1 _ _ (f mod 256) Hm1 ltac:(lia) ltac:(lia)) as (m2 & -> & Hm2). eexists _, _. split; [done|].
    rewrite <- app_assoc in Hm2. split; [done|lia].
Qed.

(** ** Writing the table *)

Definition present (fs : list Z) (j : nat) : bool := match j with O => false | S j => negb (freq_of fs (Z.of_nat j) =? 0) end.

Definition enc_sym (fs : list Z) (syms : list Rans64EncSymbol) (c : nat) : Prop := exists s,
  syms !! c = Some s /\ Rans64EncSymbolInit (u32 (start_of fs (Z.of_nat c))) (u32 (freq_of fs (Z.of_nat c))) TF_SHIFT = Ok s.

(** Before symbol [j] the bytes [l1] are written: at most three for a symbol, and
    one more after the second symbol of a run. *)
Definition written (n : Z) (l fs : list Z) (j : nat) (st : list Z * Z * list Rans64EncSymbol * Z * Z) : Prop :=
  let '(m, cp, syms, rle_j, x) := st in exists l1,
  filled n m cp (l ++ l1) /\ l1 ++ emit (present fs j) (Z.of_nat j) rle_j (drop j fs) = emit false 0 0 fs /\
  x = start_of fs (Z.of_nat j) /\ length syms = 256%nat /\ 0 <= rle_j <= runlen (drop j fs) /\
  (Z.of_nat (length l1) <= 3 * Z.of_nat j \/
   Z.of_nat (length l1) <= 3 * Z.of_nat j + 1 /\ present fs j = true /\ (0 < rle_j \/ freq_of fs (Z.of_nat j) = 0)) /\
  forall c, (c < j)%nat -> freq_of fs (Z.of_nat c) <> 0 -> enc_sym fs syms c.

Lemma freq_bytes_length f : (length (freq_bytes f) <= 2)%nat.
Proof. unfold freq_bytes. destruct (f <? 128); cbn; lia. Qed.

Lemma freq_of_mid (A : list Z) f B : freq_of (A ++ f :: B) (Z.of_nat (length A)) = f.
Proof. unfold freq_of. rewrite Nat2Z.id, app_nth2, Nat.sub_diag by lia. done. Qed.

Lemma freq_of_next (A : list Z) f g B : freq_of (A ++ f :: g :: B) (Z.of_nat (S (length A))) = g.
Proof.
  pose proof (freq_of_mid (A ++ [f]) g B) as H. rewrite length_app in H. cbn in H. rewrite <- app_assoc in H. cbn in H.
  by replace (S (length A)) with (length A + 1)%nat by lia.
Qed.

Lemma rd_freq (A : list Z) f B : rd (A ++ f :: B) (Z.of_nat (length A)) = Ok f.
Proof. apply rd_ok; [lia|]. by rewrite Nat2Z.id, list_lookup_middle. Qed.

Lemma prev_present fs (j : nat) : (j <= length fs)%nat ->
  (if 0 <? Z.of_nat j then let* p := rd fs (Z.of_nat j - 1) in Ok (negb (p =? 0)) else Ok false) = Ok (present fs j).
Proof.
  intros Hj. destruct j as [|j]; [done|]. destruct (Z.ltb_spec 0 (Z.of_nat (S j))); [|lia].
  destruct (split_freq fs j ltac:(lia)) as (A & B & E & L). replace (Z.of_nat (S j) - 1) with (Z.of_nat j) by lia.
  rewrite <- L. rewrite E at 1. rewrite rd_freq. cbn. by rewrite L.
Qed.

Lemma put_symbol_ok n fs A f B m cp l rle : fs = A ++ f :: B -> length fs = 256%nat -> f <> 0 -> 0 <= rle -> filled n m cp l -> cp + 2 <= n ->
  let p := present fs (length A) in
  let r := if 0 <? rle then rle - 1 else if p then runlen B else 0 in
  let w := if 0 <? rle then [] else if p then [Z.of_nat (length A); runlen B] else [Z.of_nat (length A)] in
  exists m', put_symbol fs (Z.of_nat (length A)) m cp rle = Ok (m', cp + Z.of_nat (length w), r) /\ filled n m' (cp + Z.of_nat (length w)) (l ++ w).
Proof.
  intros E L Hf Hr Hm Hn. cbv zeta. assert (LA : length fs = (length A + S (length B))%nat) by (rewrite E, length_app; done).
  pose proof (runlen_bounds B). unfold put_symbol. destruct (Z.eqb_spec rle 0) as [->|Hnz]; cbn [negb].
  - change (0 <? 0) with false. cbn match. destruct (put_byte_ok n m cp l (Z.of_nat (length A)) Hm ltac:(lia) ltac:(lia)) as (m1 & -> & H1). cbn [rbind].
    rewrite prev_present by lia. cbn [rbind]. destruct (present fs (length A)).
    + assert (run_from fs (Z.of_nat (length A) + 1) = Ok (runlen B)) as ->.
      { pose proof (run_from_ok (A ++ [f]) B) as R. rewrite <- app_assoc in R. cbn [app] in R. rewrite <- E in R. rewrite length_app in R. cbn in R.
        rewrite <- R by done. f_equal. lia. }
      cbn [rbind]. destruct (put_byte_ok n m1 (cp + 1) _ (runlen B) H1 ltac:(lia) ltac:(lia)) as (m2 & -> & H2). cbn [rbind length].
      exists m2. rewrite <- app_assoc in H2. replace (cp + Z.of_nat 2) with (cp + 1 + 1) by lia. done.
    + cbn [length]. exists m1. done.
  - rewrite (proj2 (Z.ltb_lt 0 rle)) by lia. cbn [length]. rewrite Z.add_0_r, app_nil_r. exists m. done.
Qed.

Lemma runlen_le fs rle : 0 <= rle <= runlen fs -> 0 < rle -> exists f B, fs = f :: B /\ f <> 0 /\ rle - 1 <= runlen B.
Proof.
  destruct fs as [|f B]; cbn [runlen]; [lia|]. destruct (Z.eqb_spec f 0); [lia|]. intros. exists f, B. split; [done|]. split; [done|lia].
Qed.

Lemma runlen_next A f B : 0 < runlen B \/ freq_of (A ++ f :: B) (Z.of_nat (S (length A))) = 0.
Proof.
  destruct B as [|g B]; cbn [runlen].
  - right. unfold freq_of. rewrite Nat2Z.id, nth_overflow; [done|]. rewrite length_app. cbn. lia.
  - rewrite freq_of_next. pose proof (runlen_bounds B). destruct (Z.eqb_spec g 0); [right; done|left; lia].
Qed.

Definition ctable_body (fs : list Z) (j : Z) (st : list Z * Z * list Rans64EncSymbol * Z * Z) : res (list Z * Z * list Rans64EncSymbol * Z * Z) :=
  let '(m, cp, syms, rle_j, x) := st in
  let* f := rd fs j in
  if f =? 0 then Ok (m, cp, syms, rle_j, x) else
  let* (m, cp, rle_j) := put_symbol fs j m cp rle_j in
  let* (m, cp) := put_freq f m cp in
  let* s := Rans64EncSymbolInit (u32 x) (u32 f) TF_SHIFT in
  let* syms := wr syms j s in Ok (m, cp, syms, rle_j, x + f).

Lemma ctable_step n l fs (j : nat) st : histogram fs -> (j < 256)%nat -> Z.of_nat (length l) + 770 <= n -> written n l fs j st ->
  exists st', ctable_body fs (Z.of_nat j) st = Ok st' /\ written n l fs (S j) st'.
Proof.
  intros Hh Hj Hn. destruct st as [[[[m cp] syms] rle] x]. intros (l1 & Hm & Hl & -> & Ls & Hr & Hb & Hs).
  pose proof Hh as (L & _). destruct (split_freq fs j ltac:(lia)) as (A & B & E & LA). set (f := freq_of fs (Z.of_nat j)) in *.
  pose proof (start_bounds fs j Hh ltac:(lia)) as (Hf0 & Hst & Hsf). fold f in Hf0, Hsf.
  assert (Hd : drop j fs = f :: B) by (rewrite E at 1; rewrite <- LA; apply drop_app_length).
  assert (HdS : drop (S j) fs = B). { rewrite E, <- LA. change (f :: B) with ([f] ++ B). rewrite app_assoc. apply drop_app_length'. rewrite length_app. cbn. lia. }
  assert (Hst1 : start_of fs (Z.of_nat (S j)) = start_of fs (Z.of_nat j) + f). { rewrite E at 1 2. rewrite <- LA. apply start_next. }
  assert (HpS : present fs (S j) = negb (f =? 0)) by done.
  unfold ctable_body. assert (rd fs (Z.of_nat j) = Ok f) as ->. { rewrite <- LA. rewrite E at 1. apply rd_freq. } cbn [rbind].
  rewrite Hd in Hl, Hr. cbn [emit runlen] in Hl, Hr. destruct (Z.eqb_spec f 0) as [Hz|Hz].
  - eexists. split; [done|]. exists l1. rewrite HdS, HpS. cbn [negb]. pose proof (runlen_bounds B). replace (Z.of_nat (S j)) with (Z.of_nat j + 1) at 1 by lia.
    split; [done|]. split; [done|]. split; [rewrite Hst1; lia|]. split; [done|]. split; [lia|]. split; [lia|].
    intros c Hc Hcf. apply Hs; [|done]. destruct (decide (c = j)) as [->|]; [done|lia].
  - assert (Hcp : cp = Z.of_nat (length l) + Z.of_nat (length l1)). { destruct Hm as (B' & _ & -> & _). rewrite length_app. lia. }
    destruct (put_symbol_ok n fs A f B m cp (l ++ l1) rle E L Hz ltac:(lia) Hm ltac:(lia)) as (m1 & Ep & Hm1). rewrite LA in Ep, Hm1. rewrite Ep. clear Ep. cbn [rbind].
    set (w := if 0 <? rle then [] else _) in *. set (r := if 0 <? rle then rle - 1 else _) in *.
    assert (Hw : Z.of_nat (length (l1 ++ w)) <= 3 * Z.of_nat j + 1 \/ Z.of_nat (length (l1 ++ w)) <= 3 * Z.of_nat j + 2 /\ (0 < r \/ freq_of fs (Z.of_nat (S j)) = 0)).
    { rewrite length_app. unfold w, r. destruct (Z.ltb_spec 0 rle); [cbn; lia|]. destruct (present fs j); [|cbn; lia]. cbn [length].
      right. split; [lia|]. rewrite E at 1. rewrite <- LA. apply runlen_next. }
    destruct (put_freq_ok n m1 _ _ f Hm1 ltac:(rewrite length_app in Hw; lia) ltac:(lia)) as (m2 & cp2 & -> & Hm2 & _). cbn [rbind].
    destruct (symbol_init (start_of fs (Z.of_nat j)) f ltac:(lia) Hst Hsf) as (s & Es & _ & _). rewrite Es. cbn [rbind].
    rewrite wr_ok by lia. cbn [rbind]. eexists. split; [done|]. exists ((l1 ++ w) ++ freq_bytes f). pose proof (freq_bytes_length f).
    rewrite HdS, HpS. cbn [negb]. replace (Z.of_nat (S j)) with (Z.of_nat j + 1) at 1 by lia.
    split; [by rewrite !app_assoc in *|]. split.
    { rewrite <- Hl. unfold w, r. destruct (Z.eqb_spec rle 0) as [->|]; [|rewrite (proj2 (Z.ltb_lt 0 rle)) by lia; cbn; by rewrite app_nil_r, <- app_assoc].
      cbn. destruct (present fs j); cbn; rewrite <- !app_assoc; done. }
    split; [done|]. split; [by rewrite length_insert|]. split.
    { unfold r. destruct (Z.ltb_spec 0 rle); [lia|]. pose proof (runlen_bounds B). destruct (present fs j); lia. }
    split.
    { rewrite length_app. destruct Hw as [Hw|[Hw1 Hw2]]; [left; lia|]. right. split; [lia|]. split; [done|]. exact Hw2. }
    intros c Hc Hcf. rewrite Nat2Z.id. destruct (decide (c = j)) as [->|Hcj].
    + exists s. rewrite list_lookup_insert_eq by lia. split; [done|exact Es].
    + destruct (Hs c ltac:(lia) Hcf) as (s' & Hs' & Es'). exists s'. rewrite list_lookup_insert_ne by lia. done.
Qed.

Lemma no_freqs fs : Forall (fun f => 0 <= f) fs -> forallb (fun v => negb (0 <? v)) fs = true -> forall c, freq_of fs c = 0.
Proof.
  intros Hp Hb c. unfold freq_of. rewrite nth_lookup. destruct (fs !! Z.to_nat c) as [f|] eqn:E; [|done]. cbn.
  apply (proj1 (Forall_lookup _ _) Hp) in E as Hf. rewrite forallb_forall in Hb. specialize (Hb f). rewrite <- list_elem_of_In in Hb.
  apply list_elem_of_lookup_2 in E. specialize (Hb E). cbv beta in Hf. destruct (Z.ltb_spec 0 f); [done|lia].
Qed.

(** The table takes no more room than [init] gives it. *)
Lemma ctable_ok n m cp l fs syms : histogram fs -> length syms = 256%nat -> filled n m cp l -> Z.of_nat (length l) + 771 <= n ->
  exists m' cp' syms', Rans64BuildCTable m cp fs syms = Ok (m', cp', syms') /\ filled n m' cp' (l ++ table_bytes fs) /\ length syms' = 256%nat /\
  forall c, (c < 256)%nat -> freq_of fs (Z.of_nat c) <> 0 -> enc_sym fs syms' c.
Proof.
  intros Hh Ls Hm Hn. assert (Hcp : cp = Z.of_nat (length l)) by (by destruct Hm as (B & _ & -> & _)). unfold Rans64BuildCTable, table_bytes.
  destruct (forallb _ fs) eqn:E0.
  - destruct (put_byte_ok n m cp l 0 Hm ltac:(lia) ltac:(lia)) as (m1 & -> & H1). cbn [rbind]. eexists _, _, _. split; [done|]. split; [done|]. split; [done|].
    intros c _ Hc. destruct Hh as (_ & Hp & _). by rewrite (no_freqs fs Hp E0) in Hc.
  - destruct (put_byte_ok n m cp l 1 Hm ltac:(lia) ltac:(lia)) as (m1 & -> & H1). cbn [rbind].
    destruct (for_inv (fun j st => written n (l ++ [1]) fs (Z.to_nat j) st) (ctable_body fs) 0 256 (m1, cp + 1, syms, 0, 0)) as ([[[[m2 cp2] syms2] rle] x] & E & H2); [lia| | |].
    + exists []. rewrite app_nil_r. split; [done|]. split; [by rewrite drop_0|]. split; [done|]. split; [done|]. split; [pose proof (runlen_bounds (drop (Z.to_nat 0) fs)); lia|]. split; [left; done|lia].
    + intros j st Hj Hw. destruct (ctable_step n (l ++ [1]) fs (Z.to_nat j) st Hh ltac:(lia) ltac:(rewrite length_app; cbn; lia) Hw) as (st' & E & Hw').
      rewrite Z2Nat.id in E by lia. exists st'. split; [exact E|]. by replace (Z.to_nat (j + 1)) with (S (Z.to_nat j)) by lia.
    + change (for_ 0 256 _ _) with (for_ 0 256 (ctable_body fs) (m1, cp + 1, syms, 0, 0)). rewrite E. cbn [rbind].
      destruct H2 as (l1 & H2 & Hl & _ & L2 & _ & Hb & Hs). change (Z.to_nat 256) with 256%nat in *. destruct Hh as (L & _).
      rewrite drop_ge in Hl by lia. cbn [emit] in Hl. rewrite app_nil_r in Hl. subst l1.
      assert (cp2 = Z.of_nat (length ((l ++ [1]) ++ emit false 0 0 fs))) as Hcp2 by (by destruct H2 as (B & _ & -> & _)). rewrite !length_app in Hcp2. cbn in Hcp2.
      destruct (put_byte_ok n m2 cp2 _ 0 H2 ltac:(lia) ltac:(lia)) as (m3 & -> & H3). cbn [rbind]. eexists _, _, _. split; [done|].
      rewrite <- !app_assoc in *. split; [done|]. split; [done|]. exact Hs.
Qed.

(** ** Reading the table *)

Lemma clear_mark k : 0 <= k <= 16 -> Z.land (Z.land (128 + k) (Z.lnot 128)) 127 = k.
Proof.
  intros Hk. assert (In k (seqZ 0 17)) as H by (apply list_elem_of_In, elem_of_seqZ; lia). cbv in H.
  repeat (destruct H as [<-|H]; [reflexivity|]). destruct H.
Qed.

Lemma get_freq_ok table cp f l : rest table cp (freq_bytes f ++ l) -> 0 < f <= TOTFREQ -> exists cp', get_freq table cp = Ok (f, cp') /\ rest table cp' l.
Proof.
  change TOTFREQ with 4096. intros Hr Hf. unfold get_freq, freq_bytes in *. destruct (Z.ltb_spec f 128).
  - rewrite (rest_rd _ _ _ _ Hr). cbn [rbind]. destruct (Z.leb_spec 128 f); [lia|]. eexists. split; [done|]. by apply rest_app in Hr.
  - cbn [app] in Hr. rewrite (rest_rd _ _ _ _ Hr). cbn [rbind].
    assert (0 <= f / 256 <= 16) by (split; [apply Z.div_pos; lia|apply Z.lt_succ_r, Z.div_lt_upper_bound; lia]).
    rewrite (proj2 (Z.leb_le 128 _)) by lia. pose proof (rest_app _ _ [_] _ Hr) as H1. change (Z.of_nat (length [128 + f / 256])) with 1 in H1.
    rewrite (rest_rd _ _ _ _ H1). cbn [rbind]. rewrite clear_mark by lia. pose proof (Z.mod_pos_bound f 256 ltac:(lia)). pose proof (Z.div_mod f 256 ltac:(lia)).
    rewrite Z.lor_comm, lor_above by lia. exists (cp + 2). split; [f_equal; f_equal; lia|]. apply (rest_app _ _ [_]) in H1. by replace (cp + 2) with (cp + 1 + Z.of_nat (length [f mod 256])) by (cbn; lia).
Qed.

(** The next symbol present, if any. *)
Inductive next_present (j : Z) (fs : list Z) : option (Z * list Z) -> Prop :=
| no_next : Forall (fun f => f = 0) fs -> next_present j fs None
| some_next z f B : fs = replicate z 0 ++ f :: B -> f <> 0 -> next_present j fs (Some (j + Z.of_nat z, f :: B)).

Lemma emit_skip fs : forall j, exists o, next_present j fs o /\
  emit false j 0 fs = match o with None => [] | Some (k, gs) => k :: freq_bytes (hd 0 gs) ++ emit true (k + 1) 0 (tl gs) end.
Proof.
  induction fs as [|f fs IH]; intros j; [exists None; split; [by constructor|done]|]. cbn [emit]. destruct (Z.eqb_spec f 0) as [->|Hf].
  - destruct (IH (j + 1)) as (o & Ho & Eo). exists o. split; [|exact Eo]. inversion Ho as [Hz|z g B -> Hg]; subst.
    + constructor. by constructor.
    + replace (j + 1 + Z.of_nat z) with (j + Z.of_nat (S z)) by lia. by econstructor.
  - exists (Some (j + Z.of_nat 0, f :: fs)). split; [by econstructor|]. cbn. by rewrite Z.add_0_r.
Qed.

(** After symbol [j], the decoder finds the next one. *)
Lemma next_symbol_ok table cp j rle fs l : 0 <= j -> j + Z.of_nat (length fs) < 256 -> rest table cp (emit true (j + 1) rle fs ++ 0 :: l) -> 0 <= rle <= runlen fs ->
  (Forall (fun f => f = 0) fs /\ exists cp', next_symbol table cp j rle = Ok (cp', 0, 0) /\ rest table cp' l) \/
  (exists z f B cp' rle', fs = replicate z 0 ++ f :: B /\ f <> 0 /\ next_symbol table cp j rle = Ok (cp', j + 1 + Z.of_nat z, rle') /\ 0 <= rle' <= runlen B /\
     rest table cp' (freq_bytes f ++ emit true (j + 1 + Z.of_nat z + 1) rle' B ++ 0 :: l)).
Proof.
  intros Hj Hl Hr Hrle. unfold next_symbol. destruct (Z.eqb_spec rle 0) as [->|Hz]; cbn [negb].
  - destruct fs as [|f B].
    + left. split; [done|]. cbn in Hr. rewrite (rest_rd _ _ _ _ Hr). cbn [rbind]. destruct (Z.eqb_spec (j + 1) 0); [lia|]. exists (cp + 1). split; [done|]. by apply (rest_app _ _ [0]) in Hr.
    + cbn [emit] in Hr. destruct (Z.eqb_spec f 0) as [->|Hf].
      * destruct (emit_skip B (j + 1 + 1)) as (o & Ho & Eo). rewrite Eo in Hr. inversion Ho as [Hz|z g B' -> Hg]; subst o.
        -- left. split; [by constructor|]. cbn in Hr. rewrite (rest_rd _ _ _ _ Hr). cbn [rbind]. destruct (Z.eqb_spec (j + 1) 0); [lia|]. exists (cp + 1). split; [done|]. by apply (rest_app _ _ [0]) in Hr.
        -- right. exists (S z), g, B'. cbn [app hd tl] in Hr. rewrite (rest_rd _ _ _ _ Hr). cbn [rbind]. destruct (Z.eqb_spec (j + 1) (j + 1 + 1 + Z.of_nat z)); [lia|].
           exists (cp + 1), 0. replace (j + 1 + Z.of_nat (S z)) with (j + 1 + 1 + Z.of_nat z) by lia. split; [done|]. split; [done|]. split; [done|]. pose proof (runlen_bounds B').
           split; [lia|]. apply (rest_app _ _ [_]) in Hr. by rewrite <- app_assoc in Hr.
      * right. exists 0%nat, f, B. cbn [negb Z.eqb app] in Hr. rewrite (rest_rd _ _ _ _ Hr). cbn [rbind]. rewrite Z.eqb_refl.
        pose proof (rest_app _ _ [_] _ Hr) as H1. change (cp + _) with (cp + 1) in H1. rewrite (rest_rd _ _ _ _ H1). cbn [rbind]. exists (cp + 2), (runlen B).
        rewrite Z.add_0_r. split; [done|]. split; [done|]. split; [done|]. pose proof (runlen_bounds B). split; [lia|].
        apply (rest_app _ _ [_]) in H1. replace (cp + 2) with (cp + 1 + Z.of_nat (length [runlen B])) by (cbn; lia). by rewrite <- app_assoc in H1.
  - right. destruct (runlen_le fs rle Hrle ltac:(lia)) as (f & B & -> & Hf & Hle). exists 0%nat, f, B, cp, (rle - 1). rewrite Z.add_0_r.
    split; [done|]. split; [done|]. split; [done|]. split; [lia|]. cbn [emit] in Hr. rewrite (proj2 (Z.eqb_neq f 0)), (proj2 (Z.eqb_neq rle 0)) in Hr by done. cbn [negb] in Hr.
    by rewrite <- app_assoc in Hr.
Qed.

(** The entries for the symbols before [j] are right. *)
Definition dec_sym (fs : list Z) (ari : list Z) (syms : list Rans64DecSymbol) (c : nat) : Prop :=
  syms !! c = Some (DecSym (start_of fs (Z.of_nat c)) (freq_of fs (Z.of_nat c))) /\
  forall p, start_of fs (Z.of_nat c) <= p < start_of fs (Z.of_nat c) + freq_of fs (Z.of_nat c) -> rd ari p = Ok (Z.of_nat c).
Definition dec_done (fs : list Z) (j : nat) (ari : list Z) (syms : list Rans64DecSymbol) : Prop :=
  Z.of_nat (length ari) = TOTFREQ /\ length syms = 256%nat /\ forall c, (c < j)%nat -> freq_of fs (Z.of_nat c) <> 0 -> dec_sym fs ari syms c.

Lemma memset_ok ari x F v : 0 <= x -> 0 <= F -> x + F <= Z.of_nat (length ari) -> exists ari', put ari x F (fun _ => v) = Ok ari' /\ length ari' = length ari /\
  (forall p, x <= p < x + F -> rd ari' p = Ok v) /\ (forall p, p < x -> rd ari' p = rd ari p).
Proof.
  intros Hx HF Hl. unfold put. rewrite inside_ok by lia. eexists. split; [done|].
  assert (Lt : length (take (Z.to_nat x) ari) = Z.to_nat x) by (rewrite length_take; lia).
  assert (Lg : length (map (fun _ : Z => v) (seqZ 0 F)) = Z.to_nat F) by (by rewrite length_map, length_seqZ).
  split; [rewrite !length_app, Lt, Lg, length_drop; lia|]. split; intros p Hp.
  - apply rd_ok; [lia|]. rewrite lookup_app_r by lia. rewrite lookup_app_l by lia. rewrite list_lookup_fmap, lookup_seqZ_lt by lia. done.
  - unfold rd. case_decide; [|done]. rewrite lookup_app_l by lia. by rewrite lookup_take_lt by lia.
Qed.

Lemma range_mono fs (c j : nat) : Forall (fun f => 0 <= f) fs -> (c < j)%nat -> start_of fs (Z.of_nat c) + freq_of fs (Z.of_nat c) <= start_of fs (Z.of_nat j).
Proof.
  intros Hp Hc. destruct (decide (c < length fs)%nat) as [Hl|Hl].
  - destruct (split_freq fs c Hl) as (A & B & E & <-). set (f := freq_of fs _) in *. unfold start_of. rewrite !Nat2Z.id.
    rewrite E, take_app_length. rewrite take_app_ge by lia. rewrite zsum_app. destruct (j - length A)%nat as [|k] eqn:Ek; [lia|].
    cbn [take]. rewrite zsum_cons. rewrite E in Hp. apply Forall_app in Hp as [_ Hp]. apply List.Forall_inv_tail in Hp.
    pose proof (zsum_nonneg (take k B) (Forall_take _ _ _ Hp)). lia.
  - unfold freq_of, start_of. rewrite Nat2Z.id, nth_overflow by lia. rewrite Nat2Z.id, !take_ge by lia. lia.
Qed.

Lemma dec_done_step fs (j : nat) ari syms : histogram fs -> (j < 256)%nat -> dec_done fs j ari syms ->
  let x := start_of fs (Z.of_nat j) in let f := freq_of fs (Z.of_nat j) in 0 < f ->
  exists s ari', Rans64DecSymbolInit (u32 x) (u32 f) = Ok s /\ put ari x f (fun _ => u8 (Z.of_nat j)) = Ok ari' /\
    dec_done fs (S j) ari' (<[j := s]> syms).
Proof.
  intros Hh Hj (La & Ls & Hd). cbv zeta. intros Hf. pose proof Hh as (L & Hp & _).
  pose proof (start_bounds fs j Hh ltac:(lia)) as (_ & Hst & Hsf). change TOTFREQ with 4096 in *. cbv zeta in *.
  destruct (memset_ok ari (start_of fs (Z.of_nat j)) (freq_of fs (Z.of_nat j)) (u8 (Z.of_nat j)) Hst ltac:(lia) ltac:(lia)) as (ari' & Ea & La' & Hin & Hout).
  exists (DecSym (start_of fs (Z.of_nat j)) (freq_of fs (Z.of_nat j))), ari'. split; [|split; [exact Ea|]].
  - unfold Rans64DecSymbolInit. rewrite !u32_small, !u16_small by lia. change TOTFREQ with 4096. unfold assert_. rewrite !(proj2 (Z.leb_le _ _)) by lia. done.
  - split; [change TOTFREQ with 4096; lia|]. split; [by rewrite length_insert|]. intros c Hc Hcf. destruct (decide (c = j)) as [->|Hcj].
    + split; [by rewrite list_lookup_insert_eq by lia|]. intros p Hpp. rewrite Hin by done. unfold u8. by rewrite Z.mod_small by lia.
    + destruct (Hd c ltac:(lia) Hcf) as [Hs Ha]. split; [by rewrite list_lookup_insert_ne by lia|]. intros p Hpp. rewrite Hout; [by apply Ha|].
      pose proof (range_mono fs c j Hp ltac:(lia)). lia.
Qed.

Lemma dec_done_skip fs (j z : nat) ari syms : (forall c, (j <= c < j + z)%nat -> freq_of fs (Z.of_nat c) = 0) -> dec_done fs j ari syms -> dec_done fs (j + z) ari syms.
Proof. intros Hz (La & Ls & Hd). split; [done|]. split; [done|]. intros c Hc Hcf. apply Hd; [|done]. destruct (decide (c < j)%nat); [done|]. exfalso. apply Hcf, Hz. lia. Qed.

Definition dtable_body (table : list Z) (st : Z * list Z * list Rans64DecSymbol * Z * Z * Z) :
    res (Z * list Z * list Rans64DecSymbol * Z * Z * Z + Z * list Z * list Rans64DecSymbol) :=
  let '(cp, ari, syms, j, rle_j, x) := st in
  let* (F, cp) := get_freq table cp in
  let F := if F =? 0 then TOTFREQ else F in
  let* s := Rans64DecSymbolInit (u32 x) (u32 F) in
  let* syms := wr syms j s in
  let* ari := put ari x F (fun _ => u8 j) in
  let x := x + F in
  let* _ := assert_ (x <=? TOTFREQ) in
  let* (cp, j, rle_j) := next_symbol table cp j rle_j in
  Ok (if j =? 0 then inr (cp, ari, syms) else inl (cp, ari, syms, j, rle_j, x)).

Lemma sum_zeros fs : Forall (fun f => f = 0) fs -> zsum fs = 0.
Proof. induction 1 as [|f fs -> _ IH]; [done|]. by rewrite zsum_cons. Qed.

Lemma start_zeros A z B : start_of (A ++ replicate z 0 ++ B) (Z.of_nat (length A + z)) = start_of (A ++ replicate z 0 ++ B) (Z.of_nat (length A)).
Proof.
  unfold start_of. rewrite !Nat2Z.id, take_app_length, take_app_ge by lia. replace (length A + z - length A)%nat with z by lia.
  rewrite take_app_length' by (by rewrite length_replicate). rewrite zsum_app, (sum_zeros (replicate z 0)) by (by apply Forall_replicate). lia.
Qed.

Lemma freq_zeros A Zs B c : Forall (fun f => f = 0) Zs -> (length A <= c < length A + length Zs)%nat -> freq_of (A ++ Zs ++ B) (Z.of_nat c) = 0.
Proof.
  intros Hz Hc. unfold freq_of. rewrite Nat2Z.id, app_nth2, app_nth1 by lia. rewrite nth_lookup.
  destruct (Zs !! (c - length A)%nat) as [f|] eqn:E; [|done]. by apply (proj1 (Forall_lookup _ _) Hz) in E.
Qed.

Lemma dtable_loop table fs l : histogram fs -> forall fuel A f B cp ari syms rle, fs = A ++ f :: B -> f <> 0 ->
  rest table cp (freq_bytes f ++ emit true (Z.of_nat (length A) + 1) rle B ++ 0 :: l) -> 0 <= rle <= runlen B ->
  dec_done fs (length A) ari syms -> (length B < fuel)%nat ->
  exists cp' ari' syms', loop fuel (dtable_body table) (cp, ari, syms, Z.of_nat (length A), rle, start_of fs (Z.of_nat (length A))) = Ok (cp', ari', syms') /\
    rest table cp' l /\ dec_done fs 256 ari' syms'.
Proof.
  intros Hh. induction fuel as [|fuel IH]; intros A f B cp ari syms rle E Hf Hr Hrle Hd Hfu; [lia|]. pose proof Hh as (L & Hp & _).
  assert (LA : length fs = (length A + S (length B))%nat) by (rewrite E, length_app; done).
  assert (Ef : freq_of fs (Z.of_nat (length A)) = f) by (rewrite E; apply freq_of_mid).
  pose proof (start_bounds fs (length A) Hh ltac:(lia)) as (H0 & Hst & Hsf). rewrite Ef in H0, Hsf.
  destruct (get_freq_ok table cp f _ Hr ltac:(lia)) as (cp1 & Eg & Hr1).
  destruct (dec_done_step fs (length A) ari syms Hh ltac:(lia) Hd ltac:(lia)) as (s & ari' & Es & Ea & Hd'). rewrite Ef in Es, Ea.
  cbn [loop]. unfold dtable_body at 1. rewrite Eg. cbn [rbind]. rewrite (proj2 (Z.eqb_neq f 0)) by done. rewrite Es. cbn [rbind].
  assert (Ls : length syms = 256%nat) by apply Hd. rewrite wr_ok by lia. cbn [rbind]. rewrite Ea. cbn [rbind].
  unfold assert_. rewrite (proj2 (Z.leb_le _ _)) by lia. cbn [rbind]. rewrite Nat2Z.id.
  destruct (next_symbol_ok table cp1 (Z.of_nat (length A)) rle B l ltac:(lia) ltac:(lia) Hr1 Hrle) as [(Hz & cp2 & En & Hr2)|(z & g & B' & cp2 & rle' & -> & Hg & En & Hrle' & Hr2)];
    rewrite En; cbn [rbind].
  - eexists _, _, _. split; [done|]. split; [done|]. replace 256%nat with (S (length A) + length B)%nat by lia. apply dec_done_skip; [|done].
    intros c Hc. rewrite E. replace (A ++ f :: B) with ((A ++ [f]) ++ B ++ []) by (by rewrite app_nil_r, <- app_assoc).
    apply freq_zeros; [done|]. rewrite length_app. cbn. lia.
  - destruct (Z.eqb_spec (Z.of_nat (length A) + 1 + Z.of_nat z) 0); [lia|].
    assert (E' : fs = ((A ++ [f]) ++ replicate z 0) ++ g :: B') by (rewrite E, <- !app_assoc; done).
    assert (L' : length ((A ++ [f]) ++ replicate z 0) = (S (length A) + z)%nat) by (rewrite !length_app, length_replicate; cbn; lia).
    assert (Hst' : start_of fs (Z.of_nat (length A)) + f = start_of fs (Z.of_nat (S (length A) + z))).
    { pose proof (start_next A f (replicate z 0 ++ g :: B')) as S1. rewrite <- E in S1. rewrite <- S1.
      pose proof (start_zeros (A ++ [f]) z (g :: B')) as S2. rewrite app_assoc, <- E', length_app in S2. cbn [length] in S2.
      replace (length A + 1)%nat with (S (length A)) in S2 by lia. symmetry. exact S2. }
    rewrite Hst'. replace (Z.of_nat (length A) + 1 + Z.of_nat z) with (Z.of_nat (S (length A) + z)) in * by lia. rewrite <- L' in *.
    apply (IH _ g B'); [exact E'|done|done|done| |].
    + rewrite L'. apply dec_done_skip; [|done]. intros c Hc. rewrite E', <- app_assoc. apply freq_zeros; [by apply Forall_replicate|].
      rewrite !length_app, length_replicate. cbn. lia.
    + rewrite length_app, length_replicate in Hfu. cbn in Hfu. lia.
Qed.

Lemma dtable_ok table cp fs l ari syms : histogram fs -> rest table cp (table_bytes fs ++ l) -> Z.of_nat (length ari) = TOTFREQ -> length syms = 256%nat ->
  exists cp' ari' syms', Rans64BuildDTable table cp ari syms = Ok (cp', ari', syms') /\ rest table cp' l /\ dec_done fs 256 ari' syms'.
Proof.
  intros Hh Hr La Ls. assert (H0 : dec_done fs 0 ari syms) by (split; [done|]; split; [done|lia]). pose proof Hh as (L & Hp & _).
  unfold Rans64BuildDTable, table_bytes in *. destruct (forallb _ fs) eqn:E0.
  - rewrite (rest_rd _ _ _ _ Hr). cbn [rbind]. eexists _, _, _. split; [done|]. split; [by apply (rest_app _ _ [0]) in Hr|].
    apply (dec_done_skip fs 0 256); [|done]. intros c _. by apply no_freqs.
  - replace (([1] ++ emit false 0 0 fs ++ [0]) ++ l) with ([1] ++ emit false 0 0 fs ++ 0 :: l) in Hr by (by rewrite <- !app_assoc).
    rewrite (rest_rd _ _ _ _ Hr). cbn [rbind]. apply (rest_app _ _ [1]) in Hr. change (cp + _) with (cp + 1) in Hr.
    destruct (emit_skip fs 0) as (o & Ho & Eo). inversion Ho as [Hz|z f B E Hf]; subst o.
    + exfalso. assert (forallb (fun v => negb (0 <? v)) fs = true); [|congruence]. apply forallb_forall. intros f Hf.
      rewrite List.Forall_forall in Hz. by rewrite (Hz f Hf).
    + rewrite Eo in Hr. cbn [hd tl] in Hr. rewrite <- app_comm_cons, <- app_assoc in Hr. rewrite (rest_rd _ _ _ _ Hr). cbn [rbind]. change (1 =? 0) with false. cbn match.
      apply (rest_app _ _ [_]) in Hr. replace (cp + 1 + Z.of_nat (length [0 + Z.of_nat z])) with (cp + 2) in Hr by (cbn; lia). rewrite Z.add_0_l in *.
      pose proof (dtable_loop table fs l Hh 257 (replicate z 0) f B (cp + 2) ari syms 0) as H. rewrite length_replicate in H.
      pose proof (runlen_bounds B).
      assert (Hs0 : start_of fs (Z.of_nat z) = 0). { pose proof (start_zeros [] z (f :: B)) as S0. cbn [app length Nat.add] in S0. rewrite <- E in S0. rewrite S0. done. }
      rewrite Hs0 in H. apply H; [exact E|exact Hf|exact Hr|lia| |].
      * apply (dec_done_skip fs 0 z); [|done]. intros c Hc. rewrite E. apply (freq_zeros []); [by apply Forall_replicate|]. rewrite length_replicate. cbn. lia.
      * rewrite E, length_app in L. cbn in L. lia.
Qed.
End RansTable.
