(* ===== verification/RansCoder.v ===== *)
(** * The streams of the rANS coder

    Every part of [encode_xN] pushes bytes onto a stack and changes the streams; the
    part of [decode_xN] at the same place takes these bytes and changes the streams
    back: the first bytes of the record, the symbols on one or on all streams, the
    headers. *)
From S2P Require Import Prelude Bytes Rans RansStep RansTable.
Import Bytes Rans RansStep RansTable.

Module RansCoder.

Lemma mapM_ok {A B} (f : A -> res B) (g : A -> B) l : (forall a, In a l -> f a = Ok (g a)) -> mapM f l = Ok (map g l).
Proof. induction l as [|a l IH]; intros H; [done|]. cbn [mapM map]. rewrite H by (by left). cbn [rbind]. rewrite IH by (intros; apply H; by right). done. Qed.

(** The step of the decoder undoes that of the encoder. *)
Lemma advance_ok d st f x c : rd (dsyms_ d) c = Ok (DecSym st f) -> 0 < f -> 0 <= st -> st + f <= TOTFREQ -> 0 <= x < 2 ^ 48 -> advance d (put_plain st f x) c = Ok x.
Proof.
  intros Hrd Hf Hst Hle Hx. destruct (put_inverse st f x Hf Hst Hle ltac:(lia)) as [E1 E2]. pose proof (Z.mod_pos_bound x f Hf) as Hm. pose proof (Z.div_mod x f ltac:(lia)) as Hdm.
  assert (0 <= x / f) by (apply Z.div_pos; lia). unfold advance. change (TOTFREQ - 1) with (Z.ones 12). rewrite Z.land_ones by lia. change (2 ^ 12) with TOTFREQ.
  rewrite E2, Hrd. cbn [rbind start dfreq]. rewrite Z.shiftr_div_pow2 by (unfold TF_SHIFT; lia). change (2 ^ TF_SHIFT) with TOTFREQ. rewrite E1.
  change TOTFREQ with 4096 in *. set (q := x / f) in *. set (m := x mod f) in *. replace (st + m - st) with m by lia.
  rewrite (u64_small (f * q)) by (split; [apply Z.mul_nonneg_nonneg; lia|lia]). rewrite u32_small, u64_small by lia. f_equal. lia.
Qed.

Section tables.
Context (fs : list Z) (e : encoder) (d : decoder).
Hypothesis (Hh : histogram fs) (He : forall c, (c < 256)%nat -> freq_of fs (Z.of_nat c) <> 0 -> enc_sym fs (syms_ e) c)
  (Hd : dec_done fs 256 (ari_ d) (dsyms_ d)).

(** The symbols that have a frequency. *)
Definition sym (c : Z) : Prop := 0 <= c < 256 /\ freq_of fs c <> 0.
Definition is_sym (c : Z) (s : Rans64EncSymbol) : Prop :=
  Rans.freq s = freq_of fs c /\ forall x, 1 <= x < 2 ^ 51 -> Rans64EncPutSymbol x s = Ok (put_plain (start_of fs c) (freq_of fs c) x).

Lemma sym_bounds c : sym c -> 0 < freq_of fs c /\ 0 <= start_of fs c /\ start_of fs c + freq_of fs c <= TOTFREQ.
Proof.
  intros [Hc Hf]. pose proof Hh as (L & _). pose proof (start_bounds fs (Z.to_nat c) Hh ltac:(lia)) as H. rewrite Z2Nat.id in H by lia. cbv zeta in H. lia.
Qed.

Lemma enc_lookup c : sym c -> exists s, rd (syms_ e) c = Ok s /\ is_sym c s.
Proof.
  intros Hc. pose proof (sym_bounds c Hc) as (H1 & H2 & H3). destruct Hc as [Hc Hf]. destruct (He (Z.to_nat c)) as (s & Hs & Es); [lia|by rewrite Z2Nat.id by lia|].
  rewrite Z2Nat.id in Es by lia. destruct (symbol_init (start_of fs c) (freq_of fs c) H1 H2 H3) as (s' & Es' & Hfr & Hp).
  rewrite Es in Es'. injection Es' as <-. exists s. split; [by apply rd_ok; [lia|]|]. by split.
Qed.

(** ** A symbol on one stream *)

Definition shr (c x : Z) : Z := shrink (freq_of fs c) x.
Definition push (c x : Z) : Z := put_plain (start_of fs c) (freq_of fs c) (shr c x).
Definition chk (c x : Z) : list Z := chunk (freq_of fs c) x.

Lemma push_state c x : sym c -> state x -> state (push c x).
Proof. intros Hc Hx. pose proof (sym_bounds c Hc). destruct (shrink_range (freq_of fs c) x ltac:(lia) Hx). apply put_state; unfold shr; lia. Qed.

Lemma symbol_put_ok c s x : sym c -> state x -> is_sym c s -> Rans64EncPutSymbol (shr c x) s = Ok (push c x).
Proof.
  intros Hc Hx [_ Hp]. pose proof (sym_bounds c Hc). destruct (shrink_range (freq_of fs c) x ltac:(lia) Hx). apply Hp. change TOTFREQ with 4096 in *. unfold shr. lia.
Qed.

Lemma symbol_get_ok c x : sym c -> state x -> get_symbol d (push c x) = Ok c /\ advance d (push c x) c = Ok (shr c x).
Proof.
  intros Hc Hx. pose proof (sym_bounds c Hc) as (Hf & Hst & Hle). destruct (shrink_range (freq_of fs c) x ltac:(lia) Hx) as [Hr _].
  destruct (put_inverse (start_of fs c) (freq_of fs c) (shr c x) Hf Hst Hle ltac:(unfold shr; lia)) as [E1 E2]. fold (push c x) in E1, E2.
  assert (Em : Z.land (push c x) (TOTFREQ - 1) = start_of fs c + shr c x mod freq_of fs c).
  { change (TOTFREQ - 1) with (Z.ones 12). rewrite Z.land_ones by lia. exact E2. }
  destruct Hd as (_ & _ & Hds). destruct Hc as [Hc Hnz]. destruct (Hds (Z.to_nat c)) as [Hs Ha]; [lia|by rewrite Z2Nat.id by lia|]. rewrite Z2Nat.id in Hs, Ha by lia.
  pose proof (Z.mod_pos_bound (shr c x) (freq_of fs c) Hf) as Hm. split.
  - unfold get_symbol. rewrite Em. apply Ha. lia.
  - apply advance_ok; [by apply rd_ok; [lia|]|done..|]. unfold shr. change TOTFREQ with 4096 in *. lia.
Qed.

(** ** A symbol on every stream *)

Definition pushes (cs xs : list Z) : list Z := zip_with push cs xs.
Definition chunks (cs xs : list Z) : list Z := concat (zip_with chk cs xs).

Lemma pushes_state cs : forall xs, Forall sym cs -> Forall state xs -> Forall state (pushes cs xs).
Proof.
  unfold pushes. induction cs as [|c cs IH]; intros [|x xs] Hc Hx; cbn; [constructor..|].
  constructor; [apply push_state; [by apply List.Forall_inv in Hc|by apply List.Forall_inv in Hx]|]. apply IH; [by apply List.Forall_inv_tail in Hc|by apply List.Forall_inv_tail in Hx].
Qed.

Lemma renorm_down_ok junk cs : forall ss xs o l, Forall sym cs -> Forall2 is_sym cs ss -> Forall state xs -> length xs = length cs -> wrote o l ->
  exists o', renorm_down junk xs ss o = Ok (zip_with shr cs xs, o') /\ wrote o' (chunks cs xs ++ l).
Proof.
  unfold chunks. induction cs as [|c cs IH]; intros ss [|x xs] o l Hc Hs Hx Hl Ho; try done; inversion Hs as [|? s ? ss' Hcs Hss]; subst; cbn [renorm_down zip_with concat].
  - exists o. done.
  - pose proof (List.Forall_inv Hc) as Hc0. pose proof (List.Forall_inv Hx) as Hx0.
    destruct (IH ss' xs o l (List.Forall_inv_tail Hc) Hss (List.Forall_inv_tail Hx) ltac:(cbn in Hl; lia) Ho) as (o1 & -> & Ho1). cbn [rbind].
    destruct Hcs as [Hf _]. rewrite Hf. pose proof (sym_bounds c Hc0).
    destruct (enc_renorm_ok junk x (freq_of fs c) o1 _ ltac:(lia) Hx0 Ho1) as (o2 & -> & Ho2). cbn [rbind]. exists o2. split; [done|].
    by rewrite <- app_assoc.
Qed.

Lemma puts_ok cs : forall ss xs, Forall sym cs -> Forall2 is_sym cs ss -> Forall state xs -> length xs = length cs ->
  mapM2 Rans64EncPutSymbol (zip_with shr cs xs) ss = Ok (pushes cs xs).
Proof.
  unfold pushes. induction cs as [|c cs IH]; intros ss [|x xs] Hc Hs Hx Hl; try done; inversion Hs as [|? s ? ss' Hcs Hss]; subst; cbn [mapM2 zip_with].
  rewrite (symbol_put_ok c s x); [|by apply List.Forall_inv in Hc|by apply List.Forall_inv in Hx|done]. cbn [rbind].
  rewrite IH; [done|by apply List.Forall_inv_tail in Hc|done|by apply List.Forall_inv_tail in Hx|cbn in Hl; lia].
Qed.

Lemma syms_lookup cs : Forall sym cs -> exists ss, mapM (rd (syms_ e)) cs = Ok ss /\ Forall2 is_sym cs ss.
Proof.
  induction 1 as [|c cs Hc _ (ss & E & Hs)]; [exists []; split; [done|constructor]|]. destruct (enc_lookup c Hc) as (s & Es & Hcs).
  exists (s :: ss). cbn [mapM]. rewrite Es. cbn [rbind]. rewrite E. split; [done|by constructor].
Qed.

Lemma encode_round_ok junk record i cs xs o l : mapM (rd record) i = Ok cs -> Forall sym cs -> Forall state xs -> length xs = length cs -> wrote o l ->
  exists o', encode_round junk e record i (xs, o) = Ok (pushes cs xs, o') /\ wrote o' (chunks cs xs ++ l).
Proof.
  intros Hi Hc Hx Hl Ho. unfold encode_round. rewrite Hi. cbn [rbind]. destruct (syms_lookup cs Hc) as (ss & -> & Hs). cbn [rbind].
  destruct (renorm_down_ok junk cs ss xs o l Hc Hs Hx Hl Ho) as (o' & -> & Ho'). cbn [rbind]. rewrite puts_ok by done. cbn [rbind]. by exists o'.
Qed.

Lemma gets_ok cs : forall xs, Forall sym cs -> Forall state xs -> length xs = length cs ->
  mapM (get_symbol d) (pushes cs xs) = Ok cs /\ mapM2 (advance d) (pushes cs xs) cs = Ok (zip_with shr cs xs).
Proof.
  unfold pushes. induction cs as [|c cs IH]; intros [|x xs] Hc Hx Hl; try done. cbn [zip_with mapM mapM2].
  destruct (symbol_get_ok c x) as [-> ->]; [by apply List.Forall_inv in Hc|by apply List.Forall_inv in Hx|]. cbn [rbind].
  destruct (IH xs) as [-> ->]; [by apply List.Forall_inv_tail in Hc|by apply List.Forall_inv_tail in Hx|cbn in Hl; lia|]. done.
Qed.

Lemma renorm_up_ok data cs : forall xs ptr l, Forall sym cs -> Forall state xs -> length xs = length cs -> rest data ptr (chunks cs xs ++ l) ->
  exists ptr', renorm_up data (zip_with shr cs xs) ptr = Ok (Some (xs, ptr')) /\ rest data ptr' l.
Proof.
  unfold chunks. induction cs as [|c cs IH]; intros [|x xs] ptr l Hc Hx Hl Hr; try done; cbn [zip_with renorm_up].
  - exists ptr. done.
  - cbn [zip_with concat] in Hr. rewrite <- app_assoc in Hr. pose proof (sym_bounds c (List.Forall_inv Hc)).
    destruct (dec_renorm_ok data (freq_of fs c) x ptr _ ltac:(lia) (List.Forall_inv Hx) Hr) as (p1 & E1 & Hr1). unfold shr at 1, obind at 1. rewrite E1. cbn [rbind].
    destruct (IH xs p1 l (List.Forall_inv_tail Hc) (List.Forall_inv_tail Hx) ltac:(cbn in Hl; lia) Hr1) as (p2 & -> & Hr2). by exists p2.
Qed.

Lemma decode_round_ok data cs xs o record record' ptr l : Forall sym cs -> Forall state xs -> length xs = length cs ->
  rest data ptr (chunks cs xs ++ l) -> write_up record o cs = Ok record' ->
  exists ptr', decode_round d data (pushes cs xs, o, record, ptr) = Ok (Some (xs, map (fun p => p + 1) o, record', ptr')) /\ rest data ptr' l.
Proof.
  intros Hc Hx Hl Hr Hw. unfold decode_round. destruct (gets_ok cs xs Hc Hx Hl) as [-> E]. cbn [rbind]. rewrite E. cbn [rbind]. rewrite Hw. cbn [rbind].
  destruct (renorm_up_ok data cs xs ptr l Hc Hx Hl Hr) as (p' & -> & Hr'). by exists p'.
Qed.

(** ** A symbol on the last stream *)

Lemma rd_last (ys : list Z) x n : n = Z.of_nat (length ys) -> rd (ys ++ [x]) n = Ok x.
Proof. intros ->. apply rd_ok; [lia|]. by rewrite Nat2Z.id, list_lookup_middle. Qed.

Lemma wr_last (ys : list Z) x v n : n = Z.of_nat (length ys) -> wr (ys ++ [x]) n v = Ok (ys ++ [v]).
Proof. intros ->. rewrite wr_ok by (rewrite length_app; cbn; lia). by rewrite Nat2Z.id, insert_app_r_alt, Nat.sub_diag by lia. Qed.

Lemma encode_last_ok junk record N i c ys x o l : rd record i = Ok c -> sym c -> state x -> N = S (length ys) -> wrote o l ->
  exists o', encode_last junk e record N i (ys ++ [x], o) = Ok (ys ++ [push c x], o') /\ wrote o' (chk c x ++ l).
Proof.
  intros Hi Hc Hx -> Ho. unfold encode_last. rewrite Hi. cbn [rbind]. destruct (enc_lookup c Hc) as (s & -> & Hs). cbn [rbind].
  rewrite rd_last by lia. cbn [rbind]. pose proof (sym_bounds c Hc). pose proof Hs as [-> _].
  destruct (enc_renorm_ok junk x (freq_of fs c) o l ltac:(lia) Hx Ho) as (o' & -> & Ho'). cbn [rbind]. fold (shr c x). rewrite (symbol_put_ok c s x) by done. cbn [rbind].
  rewrite wr_last by lia. cbn [rbind]. by exists o'.
Qed.

Lemma decode_last_ok data N c ys x os p record record' ptr l : sym c -> state x -> N = S (length ys) -> length os = length ys ->
  rest data ptr (chk c x ++ l) -> wr record p c = Ok record' ->
  exists ptr', decode_last d data N (ys ++ [push c x], os ++ [p], record, ptr) = Ok (Some (ys ++ [x], os ++ [p + 1], record', ptr')) /\ rest data ptr' l.
Proof.
  intros Hc Hx -> Ho Hr Hw. unfold decode_last. rewrite rd_last by lia. cbn [rbind]. destruct (symbol_get_ok c x Hc Hx) as [-> E]. cbn [rbind]. rewrite E. cbn [rbind].
  rewrite rd_last by lia. cbn [rbind]. rewrite Hw. cbn [rbind]. rewrite wr_last by lia. cbn [rbind]. pose proof (sym_bounds c Hc).
  destruct (dec_renorm_ok data (freq_of fs c) x ptr l ltac:(lia) Hx Hr) as (p' & E' & Hr'). unfold obind. unfold shr. rewrite E'. cbn [rbind].
  rewrite wr_last by lia. cbn [rbind]. by exists p'.
Qed.
End tables.

(** ** The first bytes of a stream *)

Definition pack (bs : list Z) : Z := foldr (fun b x => x * 256 + b) 1 bs.

Lemma pack_bounds bs : bytes bs -> 256 ^ Z.of_nat (length bs) <= pack bs < 2 * 256 ^ Z.of_nat (length bs).
Proof.
  induction 1 as [|b bs Hb _ IH]; [cbn; lia|]. cbn [pack foldr length]. fold (pack bs). rewrite Nat2Z.inj_succ, Z.pow_succ_r by lia. cbv beta in Hb. lia.
Qed.

Lemma pack_snoc x b : 0 <= x < RANS_L -> 0 <= b < 256 -> Z.lor (shl64 x 8) b = x * 256 + b.
Proof. change RANS_L with 65536. intros Hx Hb. rewrite shl64_small by lia. rewrite <- Z.shiftl_mul_pow2 by lia. rewrite Z.lor_comm, lor_above by lia. lia. Qed.

Lemma stream_init_ok (P Q : list Z) : bytes P -> let n := Z.of_nat (length P) in
  exists P' bs, P = P' ++ bs /\ length bs = Nat.min 2 (length P) /\
    Rans64EncInit (P ++ Q) n n = Ok (pack bs, Z.of_nat (length P'), Z.of_nat (length P')).
Proof.
  intros HP. cbv zeta. unfold Rans64EncInit. destruct P as [|b2 P1 _] using rev_ind.
  - exists [], []. split; [done|]. split; [done|]. done.
  - apply Forall_app in HP as [HP1 Hb2]. apply List.Forall_inv in Hb2. rewrite length_app. cbn [length].
    assert (R2 : rd ((P1 ++ [b2]) ++ Q) (Z.of_nat (length P1 + 1) - 1) = Ok b2).
    { apply rd_ok; [lia|]. rewrite lookup_app_l by (rewrite length_app; cbn; lia). replace (Z.to_nat _) with (length P1) by lia. by rewrite list_lookup_middle. }
    cbn [loop]. change (1 <? RANS_L) with true. rewrite (proj2 (Z.ltb_lt 0 _)) by lia. cbn [andb]. rewrite R2. cbn [rbind].
    change (shl64 1 8) with 256. assert (E1 : Z.lor 256 b2 = pack [b2]) by (apply (pack_snoc 1 b2); [change RANS_L with 65536; lia|done]). rewrite E1. clear E1.
    assert (Hp1 : 256 <= pack [b2] < 512) by (cbn; cbv beta in Hb2; lia). change RANS_L with 65536. rewrite (proj2 (Z.ltb_lt (pack [b2]) _)) by lia.
    replace (Z.of_nat (length P1 + 1) - 1) with (Z.of_nat (length P1)) by lia. destruct P1 as [|b1 P0 _] using rev_ind.
    + cbn [andb]. change (0 <? Z.of_nat (length [])) with false. cbn match. exists [], [b2]. done.
    + apply Forall_app in HP1 as [HP0 Hb1]. apply List.Forall_inv in Hb1. rewrite length_app. cbn [length]. rewrite (proj2 (Z.ltb_lt 0 _)) by lia. cbn [andb].
      rewrite (rd_ok _ _ b1); [|lia|]. 2:{ rewrite <- !app_assoc; cbn [app]. replace (Z.to_nat _) with (length P0) by lia. by rewrite list_lookup_middle. }
      cbn [rbind]. rewrite pack_snoc by (change RANS_L with 65536; done || lia). change (pack [b2] * 256 + b1) with (pack [b1; b2]).
      assert (65536 <= pack [b1; b2]) by (cbn; cbv beta in *; lia). destruct (Z.ltb_spec (pack [b1; b2]) 65536); [lia|]. cbn [andb].
      exists P0, [b1; b2]. rewrite <- app_assoc. split; [done|]. split; [cbn [length]; lia|]. by replace (Z.of_nat (length P0 + 1) - 1) with (Z.of_nat (length P0)) by lia.
Qed.

Lemma init_down_ok n : forall (P Q acc : list Z), bytes P -> exists P' bss, P = P' ++ concat bss /\ length bss = n /\
  Forall (fun bs => (length bs <= 2)%nat) bss /\ (P' <> [] -> Forall (fun bs => length bs = 2%nat) bss) /\
  init_down n (P ++ Q) (Z.of_nat (length P)) (Z.of_nat (length P)) acc = Ok (map pack bss ++ acc, Z.of_nat (length P')) /\ length P' = (length P - 2 * n)%nat.
Proof.
  induction n as [|n IH]; intros P Q acc HP.
  - exists P, []. cbn. rewrite app_nil_r. repeat split; auto. lia.
  - destruct (stream_init_ok P Q HP) as (P1 & bs & -> & Hbs & E). cbn [init_down]. rewrite E. cbn [rbind]. apply Forall_app in HP as [HP1 Hb].
    rewrite length_app in Hbs. rewrite <- app_assoc. destruct (IH P1 (bs ++ Q) (pack bs :: acc) HP1) as (P' & bss & -> & Hn & H2 & H2' & -> & HL).
    exists P', (bss ++ [bs]). rewrite concat_app. cbn [concat]. rewrite app_nil_r, <- !app_assoc. split; [done|]. split; [rewrite length_app; cbn; lia|].
    split; [apply Forall_app; split; [done|constructor; [lia|constructor]]|]. split.
    { intros Hne. apply Forall_app. split; [by apply H2'|]. constructor; [|constructor]. rewrite length_app in Hbs. assert (length P' <> 0)%nat by (by destruct P'). lia. }
    split; [rewrite map_app, <- app_assoc; done|]. rewrite !length_app in *. lia.
Qed.

(** ** The record that is decoded *)

(** [m] has the bytes of [record] at the places in [S]. *)
Definition agrees (record : list Z) (S : Z -> Prop) (m : list Z) : Prop :=
  length m = length record /\ forall p, 0 <= p < Z.of_nat (length record) -> S p -> byte_at m p = byte_at record p.

Lemma wr_agrees record S m p : agrees record S m -> 0 <= p < Z.of_nat (length record) ->
  exists m', wr m p (byte_at record p) = Ok m' /\ agrees record (fun q => S q \/ q = p) m'.
Proof.
  intros [L H] Hp. rewrite wr_ok by lia. eexists. split; [done|]. split; [by rewrite length_insert|]. intros q Hq HS. unfold byte_at in *. rewrite !nth_lookup.
  destruct (decide (q = p)) as [->|Hne].
  - rewrite list_lookup_insert_eq by lia. done.
  - rewrite list_lookup_insert_ne by lia. specialize (H q Hq). rewrite !nth_lookup in H. destruct HS; [auto|lia].
Qed.

Lemma agrees_weaken record (S T : Z -> Prop) m : agrees record S m -> (forall p, 0 <= p < Z.of_nat (length record) -> T p -> S p) -> agrees record T m.
Proof. intros [L H] HT. split; [done|]. intros p Hp Hq. auto. Qed.

Lemma agrees_all record m : agrees record (fun _ => True) m -> m = record.
Proof.
  intros [L H]. apply list_eq_same_length with (length record); [done|done|]. intros i x y Hi Hx Hy. specialize (H (Z.of_nat i) ltac:(lia) I).
  unfold byte_at in H. rewrite Nat2Z.id, !nth_lookup, Hx, Hy in H. done.
Qed.

Lemma write_up_ok record o : forall S m, agrees record S m -> (forall p, In p o -> 0 <= p < Z.of_nat (length record)) ->
  exists m', write_up m o (map (byte_at record) o) = Ok m' /\ agrees record (fun q => S q \/ In q o) m'.
Proof.
  induction o as [|p o IH]; intros S m Hm Ho.
  - exists m. split; [done|]. eapply agrees_weaken; [exact Hm|]. intros q _ [H|[]]. done.
  - cbn [write_up map]. destruct (wr_agrees record S m p Hm) as (m1 & -> & H1); [apply Ho; by left|]. cbn [rbind].
    destruct (IH _ m1 H1) as (m2 & E & H2); [intros; apply Ho; by right|]. exists m2. split; [exact E|]. eapply agrees_weaken; [exact H2|].
    intros q _ [H|[<-|H]]; tauto.
Qed.

(** The record begins with [P] and goes on with [bs]. *)
Lemma byte_at_app (P bs Q : list Z) i b : bs !! i = Some b -> byte_at (P ++ bs ++ Q) (Z.of_nat (length P) + Z.of_nat i) = b.
Proof.
  intros Hb. unfold byte_at. rewrite app_nth2 by lia. rewrite nth_lookup. replace (Z.to_nat _ - length P)%nat with i by lia.
  rewrite lookup_app_l by (apply lookup_lt_Some in Hb; lia). by rewrite Hb.
Qed.

Lemma pack_head b bs : 0 <= b < 256 -> bytes bs -> (1 <? pack (b :: bs)) = true /\ Z.land (pack (b :: bs)) 255 = b /\ Z.shiftr (pack (b :: bs)) 8 = pack bs.
Proof.
  intros Hb Hbs. pose proof (pack_bounds bs Hbs) as Hr. assert (0 < 256 ^ Z.of_nat (length bs)) by (apply Z.pow_pos_nonneg; lia).
  cbn [pack foldr]. fold (pack bs). split; [apply Z.ltb_lt; lia|]. change 255 with (Z.ones 8). rewrite Z.land_ones, Z.shiftr_div_pow2 by lia.
  change (2 ^ 8) with 256. rewrite Z.add_comm. split; [rewrite Z_mod_plus_full; by apply Z.mod_small|]. rewrite Z.div_add, Z.div_small by lia. done.
Qed.

Lemma tail_loop record Q fuel : forall bs P S m, record = P ++ bs ++ Q -> bytes bs -> (length bs < fuel)%nat -> agrees record S m -> exists m',
  loop fuel (fun '(x, rec, optr) => if (1 <? x) && negb (optr =? Z.of_nat (length record)) then
      let* rec := wr rec optr (Z.land x 255) in Ok (inl (Z.shiftr x 8, rec, optr + 1)) else Ok (inr (x, rec, optr)))
    (pack bs, m, Z.of_nat (length P)) = Ok (1, m', Z.of_nat (length P + length bs)) /\
  agrees record (fun q => S q \/ Z.of_nat (length P) <= q < Z.of_nat (length P + length bs)) m'.
Proof.
  induction fuel as [|fuel IH]; intros bs P S m E Hb Hf Hm; [lia|]. cbn [loop]. destruct bs as [|b bs].
  - change (1 <? pack []) with false. cbn [andb rbind length]. rewrite Nat.add_0_r. exists m. split; [done|]. eapply agrees_weaken; [exact Hm|]. intros q _ [H|H]; [done|lia].
  - destruct (pack_head b bs (List.Forall_inv Hb) (List.Forall_inv_tail Hb)) as (-> & -> & ->).
    assert (Lr : length record = (length P + (1 + length bs) + length Q)%nat) by (rewrite E, !length_app; cbn; lia).
    destruct (Z.eqb_spec (Z.of_nat (length P)) (Z.of_nat (length record))); [lia|]. cbn [andb negb].
    assert (Eb : byte_at record (Z.of_nat (length P)) = b). { rewrite E. pose proof (byte_at_app P (b :: bs) Q 0 b eq_refl) as H. by rewrite Z.add_0_r in H. }
    destruct (wr_agrees record S m (Z.of_nat (length P)) Hm ltac:(lia)) as (m1 & Ew & Hm1). rewrite Eb in Ew. rewrite Ew. cbn [rbind].
    destruct (IH bs (P ++ [b]) _ m1 ltac:(rewrite E, <- app_assoc; done) (List.Forall_inv_tail Hb) ltac:(cbn in Hf; lia) Hm1) as (m2 & E2 & Hm2).
    rewrite length_app in E2, Hm2. cbn [length] in *. replace (Z.of_nat (length P) + 1) with (Z.of_nat (length P + 1)) by lia. exists m2. rewrite E2.
    split; [f_equal; f_equal; lia|]. eapply agrees_weaken; [exact Hm2|]. intros q _ [H|H]; [tauto|]. destruct (decide (q = Z.of_nat (length P))); [tauto|right; lia].
Qed.

Lemma tail_ok record S bs P Q m : record = P ++ bs ++ Q -> bytes bs -> (length bs <= 2)%nat -> agrees record S m ->
  exists m', Rans64DecTail (pack bs) m (Z.of_nat (length P)) (Z.of_nat (length record)) = Ok (Some (m', Z.of_nat (length P + length bs))) /\
    agrees record (fun q => S q \/ Z.of_nat (length P) <= q < Z.of_nat (length P + length bs)) m'.
Proof.
  intros E Hb Hl Hm. destruct (tail_loop record Q 9 bs P S m E Hb ltac:(lia) Hm) as (m' & El & Hm'). exists m'. split; [|done].
  unfold Rans64DecTail. rewrite El. done.
Qed.

Lemma tail_up_ok record bss : forall P S m, record = P ++ concat bss -> bytes (concat bss) -> Forall (fun bs => (length bs <= 2)%nat) bss -> agrees record S m ->
  exists m', tail_up (map pack bss) m (Z.of_nat (length P)) (Z.of_nat (length record)) = Ok (Some (m', Z.of_nat (length record))) /\
    agrees record (fun q => S q \/ Z.of_nat (length P) <= q) m'.
Proof.
  induction bss as [|bs bss IH]; intros P S m E Hb Hl Hm; cbn [tail_up map concat] in *.
  - rewrite app_nil_r in E. subst P. exists m. split; [done|]. eapply agrees_weaken; [exact Hm|]. intros q Hq [H|H]; [done|lia].
  - apply Forall_app in Hb as [Hb Hbs]. destruct (tail_ok record S bs P (concat bss) m E Hb (List.Forall_inv Hl) Hm) as (m1 & E1 & Hm1).
    unfold obind. rewrite E1. cbn [rbind]. rewrite <- length_app in *.
    destruct (IH (P ++ bs) _ m1 ltac:(by rewrite <- app_assoc) Hbs (List.Forall_inv_tail Hl) Hm1) as (m2 & E2 & Hm2). exists m2. split; [exact E2|].
    eapply agrees_weaken; [exact Hm2|]. intros q Hq [H|H]; [tauto|]. destruct (decide (q < Z.of_nat (length (P ++ bs)))); [left; right; lia|right; lia].
Qed.

(** ** The headers *)

(** The number that the header of a stream is the bytes of. *)
Definition head_num (check : XCheck) (x s : Z) : Z :=
  if enable check then (x * 2 ^ 9 + s) * 2 + Z.b2z (value check) else x * 2 ^ 9 + s.

Lemma lor_shl x n s : 0 <= s < 2 ^ n -> 0 <= n -> 0 <= x -> x * 2 ^ n < 2 ^ 64 -> Z.lor (shl64 x n) s = x * 2 ^ n + s.
Proof. intros Hs Hn Hx H. rewrite shl64_small by (try apply Z.mul_nonneg_nonneg; lia || nia). rewrite <- Z.shiftl_mul_pow2 by done. rewrite Z.lor_comm, lor_above by done. rewrite Z.shiftl_mul_pow2 by done. lia. Qed.

Lemma stream_flush_ok junk check x size o l : 1 <= x < 2 ^ 48 -> 0 <= size -> wrote o l -> exists o' c,
  Rans64EncFlush junk x size check o = Ok (o', size / RECORD_MAX_SIZE) /\ 2 <= c <= 8 /\
  let s := size mod RECORD_MAX_SIZE * 7 + (c - 2) in
  wrote o' (map (byte_of (head_num check x s)) (seqZ 0 c) ++ l) /\ 0 <= head_num check x s < 256 ^ c.
Proof.
  intros Hx Hs Ho. unfold Rans64EncFlush, terark_bsr_u64. rewrite (proj2 (Z.ltb_lt 0 x)) by lia. cbn [rbind].
  pose proof (Z.log2_spec x ltac:(lia)) as [Hlo Hhi]. pose proof (Z.log2_nonneg x). assert (Z.log2 x < 48) by (apply Z.log2_lt_pow2; lia).
  set (b := Z.log2 x) in *. set (en := Z.b2z (enable check)). assert (Hen : 0 <= en <= 1) by (unfold en; destruct (enable check); cbn; lia).
  change HEAD_BITS with 9. set (c := (b + 8 + 9 + en) / 8). change RECORD_MAX_SIZE with 73.
  assert (Hc : 8 * c <= b + 17 + en < 8 * c + 8). { unfold c. pose proof (Z.div_mod (b + 8 + 9 + en) 8 ltac:(lia)). pose proof (Z.mod_pos_bound (b + 8 + 9 + en) 8 ltac:(lia)). lia. }
  assert (H2 : 2 <= c <= 8) by lia. unfold assert_. rewrite !(proj2 (Z.leb_le _ _)) by lia. cbn [andb rbind].
  pose proof (Z.mod_pos_bound size 73 ltac:(lia)) as Hm. set (s := size mod 73 * 7 + (c - 2)). assert (0 <= s < 512) by lia. cbv zeta.
  assert (E : (if enable check then Z.lor (shl64 (Z.lor (shl64 x 9) s) 1) (Z.b2z (value check)) else Z.lor (shl64 x 9) s) = head_num check x s).
  { unfold head_num. rewrite (lor_shl x 9 s) by (change (2 ^ 9) with 512; lia). destruct (enable check); [|done].
    rewrite lor_shl; [done|destruct (value check); cbn; lia|lia|lia|lia]. }
  rewrite E. destruct (write_ok junk (head_num check x s) c o l Ho ltac:(lia)) as (o' & -> & Ho'). cbn [rbind]. exists o', c. split; [done|]. split; [done|]. split; [exact Ho'|].
  assert (Hb : 2 ^ Z.succ b * 2 ^ (9 + en) <= 256 ^ c). { change 256 with (2 ^ 8). rewrite <- Z.pow_mul_r, <- Z.pow_add_r by lia. apply Z.pow_le_mono_r; lia. }
  unfold head_num, en in *. destruct (enable check); cbn [Z.b2z] in *.
  - change (2 ^ (9 + 1)) with 1024 in Hb. assert (0 <= Z.b2z (value check) <= 1) by (destruct (value check); cbn; lia). lia.
  - change (2 ^ (9 + 0)) with 512 in Hb. lia.
Qed.

Lemma head_ok data check x s c ptr psize l : 1 <= x -> 2 <= c <= 8 -> 0 <= s < 512 -> s mod 7 = c - 2 -> 0 <= head_num check x s < 256 ^ c ->
  rest data ptr (map (byte_of (head_num check x s)) (seqZ 0 c) ++ l) ->
  Rans64DecInit data check psize ptr = Ok (Some (x, u64 (psize * RECORD_MAX_SIZE + s / 7), ptr + c)) /\ rest data (ptr + c) l /\
  forall v, enable check = true -> v <> value check -> Rans64DecInit data (Check_ true v) psize ptr = Ok None.
Proof.
  intros Hx Hc Hs Hsc HX Hr. set (X := head_num check x s) in *. pose proof (rest_end _ _ _ Hr) as He. rewrite length_app, length_map, length_seqZ in He.
  assert (E2 : le_at 2 data ptr = X mod 256 ^ 2) by (apply (rest_le data ptr X c 2 l Hr); lia).
  assert (Ec : le_at (Z.to_nat c) data ptr = X). { rewrite (rest_le data ptr X c (Z.to_nat c) l Hr) by lia. rewrite Z2Nat.id by lia. by apply Z.mod_small. }
  assert (Hland : forall n, 0 <= n <= 16 -> Z.land (le_at 2 data ptr) (Z.shiftl 1 n - 1) = X mod 2 ^ n).
  { intros n Hn. rewrite E2, Z.shiftl_1_l. replace (2 ^ n - 1) with (Z.ones n) by (rewrite Z.ones_equiv; lia). rewrite Z.land_ones by lia.
    change (256 ^ 2) with (2 ^ 16). replace 16 with (n + (16 - n)) by lia. rewrite Z.pow_add_r by lia. rewrite Z.rem_mul_r by (try apply Z.pow_nonzero; try apply Z.pow_pos_nonneg; lia).
    by rewrite mod_add_mul, Z.mod_mod by (apply Z.pow_nonzero; lia). }
  assert (Hodd : enable check = true -> Z.land (X mod 2 ^ 10) 1 = Z.b2z (value check) /\ Z.shiftr (X mod 2 ^ 10) 1 = s /\ Z.shiftr X 10 = x).
  { intros Hen. unfold X, head_num. rewrite Hen. set (v := Z.b2z (value check)). assert (Hv : 0 <= v < 2) by (unfold v; destruct (value check); cbn; lia).
    replace ((x * 2 ^ 9 + s) * 2 + v) with (s * 2 + v + x * 2 ^ 10) by lia. rewrite Z_mod_plus_full, Z.mod_small by lia.
    split; [change (Z.land (s * 2 + v) (Z.ones 1) = v); rewrite Z.land_ones by lia; change (2 ^ 1) with 2; rewrite Z.add_comm, Z_mod_plus_full; apply Z.mod_small; lia|].
    rewrite !Z.shiftr_div_pow2 by lia. change (2 ^ 1) with 2. change (2 ^ 10) with 1024. rewrite Z.div_add_l, (Z.div_small v) by lia.
    rewrite Z.div_add, (Z.div_small (s * 2 + v)) by lia. lia. }
  assert (Heven : enable check = false -> X mod 2 ^ 9 = s /\ Z.shiftr X 9 = x).
  { intros Hen. unfold X, head_num. rewrite Hen. rewrite Z.add_comm, Z_mod_plus_full, Z.mod_small by lia. rewrite Z.shiftr_div_pow2, Z.div_add, Z.div_small by lia. lia. }
  split; [|split].
  - unfold Rans64DecInit. rewrite (rest_inside _ _ _ 2 Hr) by (rewrite length_app, length_map, length_seqZ; lia). change HEAD_BITS with 9.
    rewrite Hland by (destruct (enable check); cbn; lia). destruct (enable check) eqn:Hen; cbn [Z.b2z andb].
    + change (9 + 1) with 10. destruct (Hodd eq_refl) as (-> & -> & Hsx). rewrite Z.eqb_refl. cbn [negb]. rewrite Hsc. replace (c - 2 + 2) with c by lia.
      destruct (Z.ltb_spec (Z.of_nat (length data)) (ptr + c)); [lia|]. rewrite (rest_inside _ _ _ c Hr) by (rewrite length_app, length_map, length_seqZ; lia).
      by rewrite Ec, Hsx.
    + change (9 + 0) with 9. destruct (Heven eq_refl) as (Hm & Hsx). rewrite Hm, Hsc. replace (c - 2 + 2) with c by lia.
      destruct (Z.ltb_spec (Z.of_nat (length data)) (ptr + c)); [lia|]. rewrite (rest_inside _ _ _ c Hr) by (rewrite length_app, length_map, length_seqZ; lia).
      by rewrite Ec, Hsx.
  - apply rest_app in Hr. rewrite length_map, length_seqZ, Z2Nat.id in Hr by lia. done.
  - intros v Hen Hv. unfold Rans64DecInit. cbn [enable value]. rewrite (rest_inside _ _ _ 2 Hr) by (rewrite length_app, length_map, length_seqZ; lia). change HEAD_BITS with 9.
    cbn [Z.b2z]. change (9 + 1) with 10. rewrite Hland by lia. destruct (Hodd Hen) as (-> & _ & _). cbn [andb]. destruct v, (value check); done.
Qed.
End RansCoder.
