(* ===== verification/RansProps.v ===== *)
(** * The rANS coder: what is decoded is what was encoded

    The streams as a stack machine, the loops of [encode_xN] and [decode_xN] against
    it, and the round trip of [encoder] and [decoder] with their tables. *)
From S2P Require Import Prelude Bytes Rans RansStep RansTable RansCoder.
Import Bytes Rans RansStep RansTable RansCoder.

Module RansProps.

Definition streams (N : nat) : Prop := N = 1%nat \/ N = 2%nat \/ N = 4%nat \/ N = 8%nat.

(** ** All headers *)

Definition max_size (n : nat) : Z := RECORD_MAX_SIZE ^ Z.of_nat n.

Lemma max_size_S n : max_size (S n) = 73 * max_size n.
Proof. unfold max_size. by rewrite Nat2Z.inj_succ, Z.pow_succ_r by lia. Qed.
Lemma max_size_pos n : 0 < max_size n.
Proof. apply Z.pow_pos_nonneg; [done|lia]. Qed.

Lemma flush_down_ok junk N check xs : forall k size o l, Forall (fun x => 1 <= x < 2 ^ 48) xs -> 0 <= size -> wrote o l -> exists o' hs,
  flush_down junk N k check xs size o = Ok (o', size / max_size (length xs)) /\ wrote o' (hs ++ l) /\ (2 * length xs <= length hs)%nat /\
  forall data ptr, rest data ptr (hs ++ l) ->
    (forall p, 0 <= p -> p * max_size (length xs) + size mod max_size (length xs) < 2 ^ 64 -> exists ptr',
      init_up (length xs) data N k check p ptr = Ok (Some (xs, p * max_size (length xs) + size mod max_size (length xs), ptr')) /\ rest data ptr' l) /\
    (forall N' n' j p, check = true -> (j < length xs)%nat -> (j < n')%nat -> xvalue N (k + Z.of_nat j) <> xvalue N' (k + Z.of_nat j) ->
      init_up n' data N' k true p ptr = Ok None).
Proof.
  induction xs as [|x xs IH]; intros k size o l Hx Hs Ho; cbn [flush_down length].
  - exists o, []. change (max_size 0) with 1. rewrite Z.div_1_r. split; [done|]. split; [done|]. split; [lia|]. intros data ptr Hr. split; [|lia].
    intros p Hp Hb. exists ptr. rewrite Z.mod_1_r, Z.mul_1_r, Z.add_0_r. done.
  - destruct (IH (k + 1) size o l (List.Forall_inv_tail Hx) Hs Ho) as (o1 & hs & -> & Ho1 & Hl & H1). cbn [rbind]. pose proof (max_size_pos (length xs)) as HM. rewrite max_size_S.
    set (M := max_size (length xs)) in *. assert (0 <= size / M) by (apply Z.div_pos; lia).
    destruct (stream_flush_ok junk (Check_ check (xvalue N k)) x (size / M) o1 _ (List.Forall_inv Hx) ltac:(lia) Ho1) as (o2 & c & -> & Hc & Ho2 & HX).
    change RECORD_MAX_SIZE with 73 in *. set (s := size / M mod 73 * 7 + (c - 2)) in *. pose proof (Z.mod_pos_bound (size / M) 73 ltac:(lia)).
    assert (Hs7 : s mod 7 = c - 2) by (unfold s; rewrite Z.add_comm, Z_mod_plus_full; apply Z.mod_small; lia).
    assert (Hd7 : s / 7 = size / M mod 73) by (unfold s; rewrite Z.div_add_l, (Z.div_small (c - 2)) by lia; lia).
    exists o2, (map (byte_of (head_num (Check_ check (xvalue N k)) x s)) (seqZ 0 c) ++ hs). split; [by rewrite Z.div_div, (Z.mul_comm M) by lia|].
    split; [by rewrite <- app_assoc|]. split; [rewrite length_app, length_map, length_seqZ; lia|]. intros data ptr Hr. rewrite <- app_assoc in Hr.
    pose proof (List.Forall_inv Hx) as Hx0. cbv beta in Hx0.
    pose proof (fun psize => head_ok data (Check_ check (xvalue N k)) x s c ptr psize _ ltac:(lia) Hc ltac:(lia) Hs7 HX Hr) as Hhead. split.
    + intros p Hp Hb. cbn [init_up]. unfold obind at 1. destruct (Hhead p) as (-> & Hr' & _). cbn [rbind]. change RECORD_MAX_SIZE with 73. rewrite Hd7.
      assert (E : size mod (73 * M) = size mod M + M * (size / M mod 73)) by (rewrite (Z.mul_comm 73), Z.rem_mul_r by lia; done).
      pose proof (Z.mod_pos_bound size M HM). rewrite E in Hb. rewrite u64_small by nia.
      destruct (H1 data (ptr + c) Hr') as [H1a _]. destruct (H1a (p * 73 + size / M mod 73) ltac:(lia) ltac:(lia)) as (ptr' & -> & Hr2). cbn [obind rbind].
      exists ptr'. split; [|done]. rewrite E. do 4 f_equal. lia.
    + intros N' n' j p -> Hj Hn' Hv. destruct n' as [|n']; [lia|]. cbn [init_up]. unfold obind at 1. destruct (Hhead p) as (Ehd & Hr' & Hbad).
      destruct (decide (xvalue N' k = xvalue N k)) as [Ev|Ev].
      * rewrite Ev, Ehd. cbn [rbind]. destruct j as [|j]; [rewrite Z.add_0_r in Hv; by rewrite Ev in Hv|]. destruct (H1 data (ptr + c) Hr') as [_ H1b].
        rewrite (H1b N' n' j _ eq_refl); [done|lia|lia|]. by replace (k + 1 + Z.of_nat j) with (k + Z.of_nat (S j)) by lia.
      * rewrite Hbad by done. done.
Qed.

(** A reader for more streams sees that there are fewer. *)
Lemma xvalue_differs (N N' : nat) : streams N -> streams N' -> (N < N')%nat -> exists j, (j < N)%nat /\ xvalue (Z.of_nat N) (0 + Z.of_nat j) <> xvalue (Z.of_nat N') (0 + Z.of_nat j).
Proof.
  unfold streams. intros [->|[->|[->| ->]]] H' Hlt; [exists 0%nat|exists 1%nat|exists 2%nat|lia]; (split; [lia|]);
    destruct H' as [->|[->|[->| ->]]]; (lia || discriminate).
Qed.

(** ** The loops over the symbols *)

Section coder.
Context (fs : list Z) (e : encoder) (d : decoder) (record : list Z) (junkE junkD : Z -> Z).
Hypothesis (Hh : histogram fs) (He : forall c, (c < 256)%nat -> freq_of fs (Z.of_nat c) <> 0 -> enc_sym fs (syms_ e) c)
  (Hd : dec_done fs 256 (ari_ d) (dsyms_ d)) (Hrec : Forall (sym fs) record).

Let at_ (p : Z) : Z := byte_at record p.

Lemma at_sym p : 0 <= p < Z.of_nat (length record) -> sym fs (at_ p) /\ rd record p = Ok (at_ p).
Proof.
  intros Hp. destruct (lookup_lt_is_Some_2 record (Z.to_nat p)) as [c Hc]; [lia|]. unfold at_, byte_at. rewrite nth_lookup, Hc. cbn.
  split; [by apply (proj1 (Forall_lookup _ _) Hrec) in Hc|]. apply rd_ok; [lia|done].
Qed.

(** The symbols from [p] on, on the last stream. *)
Fixpoint run_last (k : nat) (p : Z) (st : Z * list Z) : Z * list Z :=
  match k with
  | O => st
  | S k => let '(x, l) := run_last k (p + 1) st in (push fs (at_ p) x, chk fs (at_ p) x ++ l)
  end.

Lemma run_last_state k : forall p st, 0 <= p -> p + Z.of_nat k <= Z.of_nat (length record) -> state (fst st) -> state (fst (run_last k p st)).
Proof.
  induction k as [|k IH]; intros p st Hp Hk Hs; [done|]. cbn [run_last]. specialize (IH (p + 1) st ltac:(lia) ltac:(lia) Hs).
  destruct (run_last k (p + 1) st) as [x l]. apply (push_state fs Hh); [|done]. apply at_sym. lia.
Qed.

Lemma encode_lasts_ok N ys x o l (m size : Z) : N = S (length ys) -> 0 <= m <= size -> size <= Z.of_nat (length record) -> (0 < m -> state x) -> wrote o l ->
  exists o', for_ 0 m (fun t => encode_last junkE e record N (size - 1 - t)) (ys ++ [x], o) = Ok (ys ++ [fst (run_last (Z.to_nat m) (size - m) (x, l))], o') /\
    wrote o' (snd (run_last (Z.to_nat m) (size - m) (x, l))).
Proof.
  intros HN Hm Hsz Hx Ho.
  destruct (for_inv (fun t st => let r := run_last (Z.to_nat t) (size - t) (x, l) in fst st = ys ++ [fst r] /\ wrote (snd st) (snd r))
    (fun t => encode_last junkE e record N (size - 1 - t)) 0 m (ys ++ [x], o)) as ([rans o'] & E & H1 & H2); [lia|done| |].
  - intros t [rans o1] Ht [E1 H1]. cbn [fst snd] in E1, H1. subst rans. replace (Z.to_nat (t + 1)) with (S (Z.to_nat t)) by lia. cbn [run_last].
    replace (size - (t + 1) + 1) with (size - t) by lia. replace (size - (t + 1)) with (size - 1 - t) by lia.
    pose proof (run_last_state (Z.to_nat t) (size - t) (x, l) ltac:(lia) ltac:(lia) (Hx ltac:(lia))) as Hst.
    destruct (run_last (Z.to_nat t) (size - t) (x, l)) as [x1 l1]. cbn [fst snd] in *. destruct (at_sym (size - 1 - t) ltac:(lia)) as [Hs Hr].
    destruct (encode_last_ok fs e Hh He junkE record N (size - 1 - t) (at_ (size - 1 - t)) ys x1 o1 l1 Hr Hs Hst HN H1) as (o2 & -> & H2). eexists. split; [done|]. done.
  - cbn [fst snd] in H1, H2. rewrite E, H1. by exists o'.
Qed.

Lemma decode_lasts_ok data N ys x l os k : forall p ptr rec S, N = Datatypes.S (length ys) -> length os = length ys -> (0 < k -> state x)%nat ->
  0 <= p -> p + Z.of_nat k <= Z.of_nat (length record) -> rest data ptr (snd (run_last k p (x, l))) -> agrees record S rec ->
  exists ptr' rec', times k (decode_last d data N) (ys ++ [fst (run_last k p (x, l))], os ++ [p], rec, ptr) = Ok (Some (ys ++ [x], os ++ [p + Z.of_nat k], rec', ptr')) /\
    rest data ptr' l /\ agrees record (fun q => S q \/ p <= q < p + Z.of_nat k) rec'.
Proof.
  induction k as [|k IH]; intros p ptr rec S HN Hos Hx Hp Hk Hr Ha.
  - exists ptr, rec. cbn [times]. rewrite Z.add_0_r. split; [done|]. split; [done|]. eapply agrees_weaken; [exact Ha|]. intros q _ [H|H]; [done|lia].
  - cbn [times run_last] in *. pose proof (run_last_state k (p + 1) (x, l) ltac:(lia) ltac:(lia) (Hx ltac:(lia))) as Hst. 
    specialize (IH (p + 1)). destruct (run_last k (p + 1) (x, l)) as [x1 l1]. cbn [fst snd] in *. destruct (at_sym p ltac:(lia)) as [Hs _].
    destruct (wr_agrees record S rec p Ha ltac:(lia)) as (rec1 & Ew & Ha1).
    destruct (decode_last_ok fs d Hh Hd data N (at_ p) ys x1 os p rec rec1 ptr l1 Hs Hst HN Hos Hr Ew) as (p1 & E1 & Hr1). unfold obind. rewrite E1. cbn [rbind].
    destruct (IH p1 rec1 _ HN Hos ltac:(intros; apply Hx; lia) ltac:(lia) ltac:(lia) Hr1 Ha1) as (p2 & rec2 & E2 & Hr2 & Ha2). exists p2, rec2.
    replace (p + 1 + Z.of_nat k) with (p + Z.of_nat (Datatypes.S k)) in * by lia. split; [exact E2|]. split; [done|].
    eapply agrees_weaken; [exact Ha2|]. intros q _ [H|H]; [tauto|]. destruct (decide (q = p)); [tauto|right; lia].
Qed.

(** Round [r]: byte [r] of each of the [n] parts, [q] bytes long each. *)
Definition places (n q r : Z) : list Z := map (fun s => q * s + r) (seqZ 0 n).
Definition round (n q r : Z) : list Z := map at_ (places n q r).

Fixpoint run_rounds (n q : Z) (k : nat) (r : Z) (st : list Z * list Z) : list Z * list Z :=
  match k with
  | O => st
  | S k => let '(xs, l) := run_rounds n q k (r + 1) st in (pushes fs (round n q r) xs, chunks fs (round n q r) xs ++ l)
  end.

Lemma places_in n q r p : 0 <= n -> 0 <= r < q -> q * n <= Z.of_nat (length record) -> In p (places n q r) -> 0 <= p < Z.of_nat (length record).
Proof. intros Hn Hr Hq Hp. unfold places in Hp. apply in_map_iff in Hp as (s & <- & Hs). apply list_elem_of_In, elem_of_seqZ in Hs. nia. Qed.

Lemma places_length n q r : 0 <= n -> length (places n q r) = Z.to_nat n.
Proof. intros. unfold places. by rewrite length_map, length_seqZ. Qed.

Lemma round_syms n q r : 0 <= n -> 0 <= r < q -> q * n <= Z.of_nat (length record) ->
  Forall (sym fs) (round n q r) /\ mapM (rd record) (places n q r) = Ok (round n q r) /\ length (round n q r) = Z.to_nat n.
Proof.
  intros Hn Hr Hq. split; [|split].
  - unfold round. apply Forall_map, List.Forall_forall. intros p Hp. apply at_sym. by apply (places_in n q r).
  - apply mapM_ok. intros p Hp. apply at_sym. by apply (places_in n q r).
  - unfold round. by rewrite length_map, places_length.
Qed.

Lemma run_rounds_ok n q k : forall r st, 0 <= n -> 0 <= r -> r + Z.of_nat k <= q -> q * n <= Z.of_nat (length record) -> length (fst st) = Z.to_nat n -> Forall state (fst st) ->
  Forall state (fst (run_rounds n q k r st)) /\ length (fst (run_rounds n q k r st)) = Z.to_nat n.
Proof.
  induction k as [|k IH]; intros r st Hn Hr Hk Hq Hl Hs; [done|]. cbn [run_rounds]. destruct (IH (r + 1) st Hn ltac:(lia) ltac:(lia) Hq Hl Hs) as [Hs' Hl'].
  destruct (run_rounds n q k (r + 1) st) as [xs l]. cbn [fst] in *. destruct (round_syms n q r Hn ltac:(lia) Hq) as (Hc & _ & Lc). split.
  - by apply (pushes_state fs Hh).
  - unfold pushes. rewrite length_zip_with. lia.
Qed.

Lemma encode_rounds_ok n q xs l (k : nat) : forall j fuel o, 0 < n -> Z.of_nat (k + j) = q -> q * n <= Z.of_nat (length record) -> length xs = Z.to_nat n -> (0 < q -> Forall state xs) ->
  (k < fuel)%nat -> wrote o (snd (run_rounds n q j (Z.of_nat k) (xs, l))) ->
  exists o', loop fuel (fun '(i, st) => let* i0 := rd i 0 in if 0 <=? i0 then let* st := encode_round junkE e record i st in Ok (inl (map (fun k => k - 1) i, st)) else Ok (inr st))
      (places n q (Z.of_nat k - 1), (fst (run_rounds n q j (Z.of_nat k) (xs, l)), o)) = Ok (fst (run_rounds n q (k + j) 0 (xs, l)), o') /\
    wrote o' (snd (run_rounds n q (k + j) 0 (xs, l))).
Proof.
  induction k as [|k IH]; intros j fuel o Hn Hq Hql Hl Hs Hf Ho; (destruct fuel as [|fuel]; [lia|]); cbn [loop].
  - assert (rd (places n q (Z.of_nat 0 - 1)) 0 = Ok (-1)) as ->. { apply rd_ok; [lia|]. unfold places. change (Z.to_nat 0) with 0%nat. rewrite list_lookup_fmap, lookup_seqZ_lt by lia. cbn. f_equal. lia. }
    cbn [rbind]. change (0 <=? -1) with false. cbn [rbind]. cbn [Nat.add] in *. by exists o.
  - assert (rd (places n q (Z.of_nat (S k) - 1)) 0 = Ok (Z.of_nat k)) as ->. { apply rd_ok; [lia|]. unfold places. change (Z.to_nat 0) with 0%nat. rewrite list_lookup_fmap, lookup_seqZ_lt by lia. cbn. f_equal. lia. }
    cbn [rbind]. rewrite (proj2 (Z.leb_le 0 _)) by lia. replace (Z.of_nat (S k) - 1) with (Z.of_nat k) by lia.
    destruct (run_rounds_ok n q j (Z.of_nat (S k)) (xs, l) ltac:(lia) ltac:(lia) ltac:(lia) Hql Hl (Hs ltac:(lia))) as [Hs1 Hl1].
    destruct (round_syms n q (Z.of_nat k) ltac:(lia) ltac:(lia) Hql) as (Hc & Em & Lc).
    specialize (IH (S j) fuel). cbn [run_rounds] in IH. replace (Z.of_nat k + 1) with (Z.of_nat (S k)) in IH by lia.
    destruct (run_rounds n q j (Z.of_nat (S k)) (xs, l)) as [xs1 l1]. cbn [fst snd] in *.
    destruct (encode_round_ok fs e Hh He junkE record _ _ xs1 o l1 Em Hc Hs1 ltac:(lia) Ho) as (o1 & -> & Ho1). cbn [rbind].
    assert (map (fun k0 => k0 - 1) (places n q (Z.of_nat k)) = places n q (Z.of_nat k - 1)) as ->. { unfold places. rewrite map_map. apply map_ext. intros; lia. }
    replace (S k + j)%nat with (k + S j)%nat in * by lia. apply IH; try done; lia.
Qed.

Lemma decode_rounds_ok data n q xs l (k : nat) : forall r ptr rec S, 0 < n -> r + Z.of_nat k = q -> 0 <= r -> q * n <= Z.of_nat (length record) -> length xs = Z.to_nat n -> (0 < q -> Forall state xs) ->
  rest data ptr (snd (run_rounds n q k r (xs, l))) -> agrees record S rec ->
  exists ptr' rec', times k (decode_round d data) (fst (run_rounds n q k r (xs, l)), places n q r, rec, ptr) = Ok (Some (xs, places n q q, rec', ptr')) /\
    rest data ptr' l /\ agrees record (fun p => S p \/ (0 <= p < q * n /\ r <= p mod q)) rec'.
Proof.
  induction k as [|k IH]; intros r ptr rec S Hn Hq Hr0 Hql Hl Hs Hr Ha.
  - exists ptr, rec. cbn [times run_rounds fst]. replace r with q by lia. split; [done|]. split; [done|]. eapply agrees_weaken; [exact Ha|].
    intros p Hp [H|[H1 H2]]; [done|]. pose proof (Z.mod_pos_bound p q). nia.
  - cbn [times run_rounds] in *. destruct (run_rounds_ok n q k (r + 1) (xs, l) ltac:(lia) ltac:(lia) ltac:(lia) Hql Hl (Hs ltac:(lia))) as [Hs1 Hl1].
    destruct (round_syms n q r ltac:(lia) ltac:(lia) Hql) as (Hc & Em & Lc). specialize (IH (r + 1)).
    destruct (run_rounds n q k (r + 1) (xs, l)) as [xs1 l1]. cbn [fst snd] in *.
    destruct (write_up_ok record (places n q r) S rec Ha) as (rec1 & Ew & Ha1); [intros p Hp; by apply (places_in n q r); [lia|lia|done|]|].
    destruct (decode_round_ok fs d Hh Hd data (round n q r) xs1 (places n q r) rec rec1 ptr l1 Hc Hs1 ltac:(lia) Hr Ew) as (p1 & E1 & Hr1). unfold obind. rewrite E1. cbn [rbind].
    assert (map (fun p => p + 1) (places n q r) = places n q (r + 1)) as ->. { unfold places. rewrite map_map. apply map_ext. intros; lia. }
    destruct (IH p1 rec1 _ Hn ltac:(lia) ltac:(lia) Hql Hl Hs Hr1 Ha1) as (p2 & rec2 & E2 & Hr2 & Ha2). exists p2, rec2. split; [exact E2|]. split; [done|].
    eapply agrees_weaken; [exact Ha2|]. intros p _ [H|[H1 H2]]; [tauto|]. destruct (decide (p mod q = r)) as [Hm|Hm]; [|right; split; [done|lia]].
    left. right. unfold places. apply in_map_iff. exists (p / q). pose proof (Z.div_mod p q ltac:(lia)). split; [lia|]. apply list_elem_of_In, elem_of_seqZ.
    split; [apply Z.div_pos; lia|]. rewrite Z.add_0_l. apply Z.div_lt_upper_bound; lia.
Qed.

(** ** The whole encoding of a record *)

Lemma pow_t_size N : streams N -> pow_t RECORD_MAX_SIZE (Pos.of_nat N) = max_size N.
Proof. intros [->|[->|[->| ->]]]; reflexivity. Qed.

(** What the loops over the symbols make of the streams and of the bytes below. *)
Definition run_all (N : nat) (size : Z) (xs : list Z) : list Z * list Z :=
  let n := Z.of_nat N in
  let '(x, l) := run_last (Z.to_nat (size mod n)) (size - size mod n) (last xs 1, []) in
  run_rounds n (size / n) (Z.to_nat (size / n)) 0 (removelast xs ++ [x], l).

Lemma run_all_states N size xs : (0 < N)%nat -> 0 <= size <= Z.of_nat (length record) -> length xs = N -> (0 < size -> Forall state xs) ->
  Forall (fun x => 1 <= x < 2 ^ 48) xs -> Forall (fun x => 1 <= x < 2 ^ 48) (fst (run_all N size xs)) /\ length (fst (run_all N size xs)) = N.
Proof.
  intros HN Hs Hl Hst H1. set (n := Z.of_nat N). assert (Hn : 0 < n) by lia. pose proof (Z.mod_pos_bound size n Hn) as Hm. pose proof (Z.div_mod size n ltac:(lia)) as Hdm.
  assert (0 <= size / n) by (apply Z.div_pos; lia). unfold run_all. fold n. destruct (decide (size = 0)) as [->|Hsz].
  - rewrite Z.mod_0_l, Z.div_0_l by lia. change (Z.to_nat 0) with 0%nat. cbn [run_last run_rounds fst]. rewrite <- app_removelast_last by (by destruct xs; cbn in *; lia || done). done.
  - destruct (exists_last (l := xs)) as (ys & x & ->); [by destruct xs; cbn in *; lia || done|]. rewrite removelast_last, last_last. rewrite length_app in Hl. cbn in Hl.
    specialize (Hst ltac:(lia)). apply Forall_app in Hst as [Hys Hx]. apply List.Forall_inv in Hx.
    pose proof (run_last_state (Z.to_nat (size mod n)) (size - size mod n) (x, []) ltac:(lia) ltac:(lia) Hx) as Hrl.
    destruct (run_last _ _ _) as [x' l]. cbn [fst] in Hrl.
    destruct (run_rounds_ok n (size / n) (Z.to_nat (size / n)) 0 (ys ++ [x'], l)) as [H2 H3]; [lia|lia|lia|lia|cbn; rewrite length_app; cbn; lia|cbn; apply Forall_app; split; [done|by constructor]|].
    split; [|lia]. eapply List.Forall_impl; [|exact H2]. intros y. unfold state. change RANS_L with 65536. lia.
Qed.

Lemma encode_all_ok N size xs o : (0 < N)%nat -> 0 <= size <= Z.of_nat (length record) -> length xs = N -> (0 < size -> Forall state xs) -> wrote o [] ->
  let n := Z.of_nat N in exists o',
  (let* st := if 1 <? n then for_ 0 (size mod n) (fun t => encode_last junkE e record N (size - 1 - t)) (xs, o) else Ok (xs, o) in
   if n <=? size then
      loop (Z.to_nat (size / n) + 1) (fun '(i, st) => let* i0 := rd i 0 in if 0 <=? i0 then let* st := encode_round junkE e record i st in Ok (inl (map (fun k => k - 1) i, st)) else Ok (inr st))
        (map (fun k => size / n * (k + 1) - 1) (seqZ 0 n), st)
    else Ok st) = Ok (fst (run_all N size xs), o') /\ wrote o' (snd (run_all N size xs)).
Proof.
  intros HN Hs Hl Hst Ho. cbv zeta. set (n := Z.of_nat N). assert (Hn : 0 < n) by lia. pose proof (Z.mod_pos_bound size n Hn) as Hm. pose proof (Z.div_mod size n ltac:(lia)) as Hdm.
  assert (0 <= size / n) by (apply Z.div_pos; lia).
  destruct (exists_last (l := xs)) as (ys & x & ->); [by destruct xs; cbn in *; lia || done|]. rewrite length_app in Hl. cbn in Hl.
  assert (Hxs : 0 < size -> state x /\ Forall state ys). { intros H0. specialize (Hst H0). apply Forall_app in Hst as [? Hx]. by apply List.Forall_inv in Hx. }
  destruct (encode_lasts_ok N ys x o [] (size mod n) size ltac:(lia) ltac:(lia) ltac:(lia) ltac:(intros; apply Hxs; lia) Ho) as (o1 & E1 & Ho1).
  assert (E1' : (if 1 <? n then for_ 0 (size mod n) (fun t => encode_last junkE e record N (size - 1 - t)) (ys ++ [x], o) else Ok (ys ++ [x], o)) =
    Ok (ys ++ [fst (run_last (Z.to_nat (size mod n)) (size - size mod n) (x, []))], o1)).
  { destruct (Z.ltb_spec 1 n) as [H1|H1]; [exact E1|]. assert (n = 1) as En by lia. rewrite En, Z.mod_1_r in *. exact E1. }
  rewrite E1'. cbn [rbind]. unfold run_all. fold n. rewrite removelast_last, last_last.
  pose proof (run_last_state (Z.to_nat (size mod n)) (size - size mod n) (x, []) ltac:(lia) ltac:(lia)) as Hrl.
  destruct (run_last _ _ _) as [x' l]. cbn [fst snd] in *. destruct (Z.leb_spec n size) as [Hle|Hle].
  - assert (1 <= size / n) by (apply Z.div_le_lower_bound; lia).
    destruct (encode_rounds_ok n (size / n) (ys ++ [x']) l (Z.to_nat (size / n)) 0 (Z.to_nat (size / n) + 1) o1 Hn) as (o2 & E2 & Ho2); [lia|lia|rewrite length_app; cbn; lia| |lia|exact Ho1|].
    { intros _. apply Forall_app. destruct (Hxs ltac:(lia)) as [Hx Hys]. split; [done|]. constructor; [by apply Hrl|constructor]. }
    rewrite Nat.add_0_r in E2, Ho2. exists o2. split; [|exact Ho2]. rewrite Z2Nat.id in E2 by lia. cbn [run_rounds fst] in E2. rewrite <- E2.
    f_equal. f_equal. unfold places. apply map_ext. intros; lia.
  - rewrite (Z.div_small size n) by lia. change (Z.to_nat 0) with 0%nat. cbn [run_rounds fst snd]. by exists o1.
Qed.

Lemma decode_all_ok data N size xs ptr l0 rec : (0 < N)%nat -> 0 <= size <= Z.of_nat (length record) -> length xs = N -> (0 < size -> Forall state xs) ->
  rest data ptr (snd (run_all N size xs) ++ l0) -> l0 = [] -> length rec = length record ->
  let n := Z.of_nat N in exists os ptr' rec',
  (let? st := times (Z.to_nat (size / n)) (decode_round d data) (fst (run_all N size xs), map (fun k => size / n * k) (seqZ 0 n), rec, ptr) in
   if 1 <? n then times (Z.to_nat (size mod n)) (decode_last d data N) st else Ok (Some st)) = Ok (Some (xs, os, rec', ptr')) /\
  rest data ptr' [] /\ agrees record (fun p => p < size) rec'.
Proof.
  intros HN Hs Hl Hst Hr -> Lr. rewrite app_nil_r in Hr. cbv zeta. set (n := Z.of_nat N). assert (Hn : 0 < n) by lia. pose proof (Z.mod_pos_bound size n Hn) as Hm.
  pose proof (Z.div_mod size n ltac:(lia)) as Hdm. assert (0 <= size / n) by (apply Z.div_pos; lia).
  destruct (exists_last (l := xs)) as (ys & x & ->); [by destruct xs; cbn in *; lia || done|]. rewrite length_app in Hl. cbn in Hl.
  assert (Hxs : 0 < size -> state x /\ Forall state ys). { intros H0. specialize (Hst H0). apply Forall_app in Hst as [? Hx]. by apply List.Forall_inv in Hx. }
  unfold run_all in *. fold n in Hr |- *. rewrite removelast_last, last_last in *.
  pose proof (run_last_state (Z.to_nat (size mod n)) (size - size mod n) (x, []) ltac:(lia) ltac:(lia)) as Hrl.
  pose proof (decode_lasts_ok data N ys x [] (places (n - 1) (size / n) (size / n)) (Z.to_nat (size mod n)) (size - size mod n)) as Hlast.
  destruct (run_last _ _ _) as [x' l]. cbn [fst snd] in *.
  destruct (decode_rounds_ok data n (size / n) (ys ++ [x']) l (Z.to_nat (size / n)) 0 ptr rec (fun _ => False) Hn) as (p1 & rec1 & E1 & Hr1 & Ha1);
    [lia|lia|lia|rewrite length_app; cbn; lia| |exact Hr|split; [done|by intros]|].
  { intros Hq. apply Forall_app. destruct (Hxs ltac:(nia)) as [Hx Hys]. split; [done|]. constructor; [by apply Hrl|constructor]. }
  assert (Hpl : map (fun k => size / n * k) (seqZ 0 n) = places n (size / n) 0) by (unfold places; apply map_ext; intros; lia).
  rewrite Hpl. unfold obind at 1. rewrite E1. cbn [rbind].
  assert (Hos : places n (size / n) (size / n) = places (n - 1) (size / n) (size / n) ++ [size - size mod n]).
  { assert (seqZ 0 n = seqZ 0 (n - 1) ++ [n - 1]) as Esq by (replace n with (n - 1 + 1) at 1 by lia; rewrite seqZ_app by lia; done).
    unfold places. rewrite Esq, map_app. f_equal. cbn. f_equal. lia. }
  rewrite Hos.
  assert (Ha1' : agrees record (fun p => p < size - size mod n) rec1).
  { eapply agrees_weaken; [exact Ha1|]. intros p Hp Hlt. right. split; [lia|]. assert (0 < size / n) by nia. pose proof (Z.mod_pos_bound p (size / n)). lia. }
  destruct (Hlast p1 rec1 _ ltac:(lia) ltac:(rewrite places_length; lia) ltac:(intros; apply Hxs; lia) ltac:(lia) ltac:(lia) Hr1 Ha1') as (p2 & rec2 & E2 & Hr2 & Ha2).
  eexists _, p2, rec2. split; [|split; [exact Hr2|]].
  - destruct (Z.ltb_spec 1 n) as [H1|H1]; [exact E2|]. assert (n = 1) as En by lia. rewrite En, Z.mod_1_r in *. exact E2.
  - eapply agrees_weaken; [exact Ha2|]. intros p Hp Hlt. cbv beta. lia.
Qed.

Lemma rbind_assoc {A B C} (m : res A) (f : A -> res B) (g : B -> res C) : rbind m (fun a => rbind (f a) g) = rbind (rbind m f) g.
Proof. by destruct m. Qed.
Lemma obind_assoc {A B C} (m : res (option A)) (f : A -> res (option B)) (g : B -> res (option C)) : obind m (fun a => obind (f a) g) = obind (obind m f) g.
Proof. unfold obind. by destruct m as [[a|]| | |]. Qed.

Lemma sym_bytes l : Forall (sym fs) l -> bytes l.
Proof. intros H. eapply List.Forall_impl; [|exact H]. intros c [Hc _]. exact Hc. Qed.

Lemma coder_ok N check : streams N -> Z.of_nat (length record) < max_size N -> max_size N < 2 ^ 64 -> exists bs,
  encode_xN junkE e record N check = Ok bs /\ (0 < length bs)%nat /\
  decode_xN junkD d bs N check = Ok (Some (Z.of_nat (length bs), record)) /\
  (check = true -> forall N', streams N' -> (N < N')%nat -> decode_xN junkD d bs N' true = Ok None).
Proof.
  intros HN Hlen H64. assert (HN0 : (0 < N)%nat) by (destruct HN as [->|[->|[->| ->]]]; lia). set (n := Z.of_nat N).
  destruct (init_down_ok N record [] [] (sym_bytes _ Hrec)) as (P & bss & Erec & Lbss & H2 & H2' & Einit & LP). rewrite app_nil_r in Einit.
  assert (Hbss : bytes (concat bss)). { pose proof (sym_bytes _ Hrec) as Hb. rewrite Erec in Hb. by apply Forall_app in Hb as [_ Hb]. }
  set (xs := map pack bss) in *. rewrite app_nil_r in Einit. set (size := Z.of_nat (length P)) in *.
  assert (Lxs : length xs = N) by (unfold xs; by rewrite length_map).
  assert (Hx1 : Forall (fun x => 1 <= x < 2 ^ 48) xs). { apply Forall_map, List.Forall_forall. intros bs Hin. rewrite List.Forall_forall in H2. specialize (H2 bs Hin).
    assert (Hbb : bytes bs) by (apply List.Forall_forall; intros b Hb; rewrite <- Forall_forall in Hbss || (unfold bytes in Hbss; rewrite List.Forall_forall in Hbss); apply Hbss, in_concat; eauto).
    pose proof (pack_bounds bs Hbb). assert (256 ^ Z.of_nat (length bs) <= 256 ^ 2) by (apply Z.pow_le_mono_r; lia). assert (0 < 256 ^ Z.of_nat (length bs)) by (apply Z.pow_pos_nonneg; lia). change (256 ^ 2) with 65536 in *. lia. }
  assert (Hst : 0 < size -> Forall state xs). { intros Hpos. assert (P <> []) as Hne by (intros ->; cbn in *; lia). specialize (H2' Hne). apply Forall_map, List.Forall_forall. intros bs Hin.
    rewrite List.Forall_forall in H2'. specialize (H2' bs Hin).
    assert (Hbb : bytes bs) by (apply List.Forall_forall; intros b Hb; unfold bytes in Hbss; rewrite List.Forall_forall in Hbss; apply Hbss, in_concat; eauto).
    pose proof (pack_bounds bs Hbb) as Hp. rewrite H2' in Hp. change (256 ^ Z.of_nat 2) with 65536 in Hp. unfold state. change RANS_L with 65536. lia. }
  assert (Hsz : 0 <= size <= Z.of_nat (length record)) by (unfold size; lia).
  set (buffer := replicate (Z.to_nat (Z.of_nat (length record) * 5 / 4 + 8 * n + 8)) 0).
  assert (Ho : wrote (buffer, Z.of_nat (length buffer)) []).
  { exists buffer. cbn. rewrite app_nil_r. split; [done|]. split; [done|]. unfold buffer. rewrite length_replicate. assert (0 <= Z.of_nat (length record) * 5 / 4) by (apply Z.div_pos; lia). lia. }
  destruct (encode_all_ok N size xs _ HN0 Hsz Lxs Hst Ho) as (o1 & E1 & Ho1). fold n in E1.
  destruct (run_all_states N size xs HN0 Hsz Lxs Hst Hx1) as [Hr1 Lr1].
  destruct (flush_down_ok junkE n check (fst (run_all N size xs)) 0 (Z.of_nat (length record)) o1 _ Hr1 ltac:(lia) Ho1) as (o2 & hs & E2 & Ho2 & Hhs & Hdec).
  rewrite Lr1 in *. rewrite Z.div_small in E2 by lia. destruct o2 as [b p]. destruct Ho2 as (A & Hb & Hp & _). cbn [fst snd] in Hb, Hp.
  exists (hs ++ snd (run_all N size xs)). set (l := snd (run_all N size xs)) in *. split; [|split; [rewrite length_app; lia|]].
  - unfold encode_xN. rewrite pow_t_size by done. fold n. destruct (Z.leb_spec (max_size N) (Z.of_nat (length record))); [lia|]. rewrite Einit. cbn [rbind]. fold buffer.
    rewrite (rbind_assoc (if 1 <? n then _ else _)), E1. cbn [rbind]. rewrite E2. cbn [rbind]. change (0 =? 0) with true. cbn [assert_ rbind]. by rewrite Hb, Hp, Nat2Z.id, drop_app_length.
  - set (data := hs ++ l). assert (Hrest : rest data 0 (hs ++ l)) by (by exists []). destruct (Hdec data 0 Hrest) as [Hok Hbad].
    assert (Ld : Z.of_nat (length data) = Z.of_nat (length hs) + Z.of_nat (length l)) by (unfold data; rewrite length_app; lia). split.
    + destruct (Hok 0 ltac:(lia)) as (ptr & Eup & Hr). { rewrite Z.mod_small by lia. lia. }
      rewrite Z.mul_0_l, Z.add_0_l, Z.mod_small in Eup by lia. unfold decode_xN. fold n. destruct (Z.ltb_spec (Z.of_nat (length data)) (n * 2)); [lia|].
      unfold obind at 1. rewrite Eup. cbn [rbind]. change (RANS_L_BITS / 8) with 2.
      assert (Esize : (if n * 2 <? Z.of_nat (length record) then Z.of_nat (length record) - n * 2 else 0) = size) by (unfold size; destruct (Z.ltb_spec (n * 2) (Z.of_nat (length record))); lia).
      rewrite Esize. destruct (decode_all_ok data N size xs ptr [] (map junkD (seqZ 0 (Z.of_nat (length record)))) HN0 Hsz Lxs Hst) as (os & ptr' & rec' & E3 & Hr3 & Ha3);
        [by rewrite app_nil_r|done|by rewrite length_map, length_seqZ, Nat2Z.id|]. fold n in E3. rewrite obind_assoc, E3. unfold obind at 1. cbn [rbind].
      destruct (tail_up_ok record bss P _ rec' Erec Hbss H2 Ha3) as (m & E4 & Ha4). fold xs size in E4. unfold obind. rewrite E4. cbn [rbind].
      assert (m = record) as ->. { apply agrees_all. eapply agrees_weaken; [exact Ha4|]. intros q Hq _. cbv beta. lia. }
      pose proof (rest_end _ _ _ Hr3) as He3. cbn in He3. do 3 f_equal. lia.
    + intros -> N' HN' Hlt. unfold decode_xN. destruct (Z.ltb_spec (Z.of_nat (length data)) (Z.of_nat N' * 2)); [done|].
      destruct (xvalue_differs N N' HN HN' Hlt) as (j & Hj & Hv). rewrite (Hbad (Z.of_nat N') N' j 0); [done|done|done|lia|exact Hv].
Qed.
End coder.

(** ** Encoder and decoder *)

Definition fresh (syms : list Rans64EncSymbol) (d : decoder) : Prop :=
  length syms = 256%nat /\ Z.of_nat (length (ari_ d)) = TOTFREQ /\ length (dsyms_ d) = 256%nat.

Lemma tables_ok fs syms d0 l : histogram fs -> fresh syms d0 -> exists e d,
  init syms fs = Ok e /\ Z.of_nat (length (table_ e)) <= 771 /\ dinit (table_ e ++ l) d0 = Ok (d, Z.of_nat (length (table_ e))) /\
  (forall c, (c < 256)%nat -> freq_of fs (Z.of_nat c) <> 0 -> enc_sym fs (syms_ e) c) /\ dec_done fs 256 (ari_ d) (dsyms_ d).
Proof.
  intros Hh (Ls & La & Ld). unfold init. destruct (ctable_ok 771 (replicate (Z.to_nat (257 * 3)) 0) 0 [] fs syms Hh Ls) as (m & cp & syms' & E & Hm & _ & He).
  { exists (replicate (Z.to_nat (257 * 3)) 0). split; [done|]. split; [done|]. by rewrite length_replicate. } { cbn. lia. }
  rewrite E. cbn [rbind]. destruct Hm as (B & -> & -> & LB). cbn [app] in *. rewrite Nat2Z.id, take_app_length. rewrite length_app in LB. eexists.
  destruct (dtable_ok (table_bytes fs ++ l) 0 fs l (ari_ d0) (dsyms_ d0) Hh ltac:(by exists []) La Ld) as (cp' & ari & ds & Ed & Hr & Hd).
  exists (Decoder ds ari). split; [done|]. cbn [table_ syms_]. split; [lia|]. split; [|done]. unfold dinit. rewrite Ed. cbn [rbind].
  pose proof (rest_end _ _ _ Hr) as H. rewrite length_app in H. do 2 f_equal. lia.
Qed.
End RansProps.
