(* ===== verification/RansCorrect.v ===== *)
(** * What the entropy coder is right about

    The step of one symbol, the table, the coder of a record, and the chain from the
    counts of many records to every one of them read back. *)
From S2P Require Import Prelude Bytes FreqHist FreqHistProps Rans RansStep RansTable RansCoder RansProps.
Import Bytes Rans RansStep RansTable RansCoder RansProps.

Module RansCorrect.

(** C39: The encoder divides by the frequency with a product and a shift: for every
    frequency and every state of 48 bits the result is that of the division, stays
    between [2^16] and [2^48], so the arithmetic of 64 bits is exact and at most one
    block of four bytes is moved out for a symbol; and the decoder goes back to the
    state before and takes the block in again just when one was written. *)
Theorem rans_step_inverse st f x : 0 < f -> 0 <= st -> st + f <= TOTFREQ -> state x -> exists s,
  Rans64EncSymbolInit (u32 st) (u32 f) TF_SHIFT = Ok s /\
  forall junk o l, wrote o l -> exists x1 o' b, let y := x1 / f * TOTFREQ + st + x1 mod f in
    Rans64EncRenorm junk x (Rans.freq s) TF_SHIFT o = Ok (x1, o') /\ wrote o' (b ++ l) /\ (b = [] \/ length b = 4%nat) /\
    Rans64EncPutSymbol x1 s = Ok y /\ state y /\
    forall d c data ptr l', rd (dsyms_ d) c = Ok (DecSym st f) -> rest data ptr (b ++ l') -> exists ptr',
      advance d y c = Ok x1 /\ Rans64DecRenorm data x1 ptr = Ok (Some (x, ptr')) /\ rest data ptr' l'.
Proof.
  intros Hf Hst Hle Hx. assert (Hft : 0 < f <= TOTFREQ) by lia. destruct (symbol_init st f Hf Hst Hle) as (s & Es & Ef & Hp). exists s. split; [done|]. intros junk o l Ho.
  destruct (enc_renorm_ok junk x f o l ltac:(lia) Hx Ho) as (o' & E & Ho'). destruct (shrink_range f x ltac:(lia) Hx) as [Hr _].
  exists (shrink f x), o', (chunk f x). cbv zeta. rewrite Ef. split; [done|]. split; [done|]. split; [unfold chunk; destruct (_ <=? _); [by right|by left]|].
  change TOTFREQ with 4096 in *. split; [apply Hp; lia|]. split; [by apply put_state|]. intros d c data ptr l' Hd Hrest.
  destruct (dec_renorm_ok data f x ptr l' Hft Hx Hrest) as (ptr' & E' & Hr'). exists ptr'. split; [apply advance_ok; [done..|lia]|done].
Qed.

Lemma rans_step_inverse_witness : exists s, Rans64EncSymbolInit 100 7 TF_SHIFT = Ok s /\ exists x1 o',
  Rans64EncRenorm (fun _ => 0) (2 ^ 47 + 12345) (Rans.freq s) TF_SHIFT (replicate 8 0, 8) = Ok (x1, o') /\
  Rans64EncPutSymbol x1 s = Ok (x1 / 7 * TOTFREQ + 100 + x1 mod 7).
Proof.
  destruct (rans_step_inverse 100 7 (2 ^ 47 + 12345)) as (s & E & H); [lia|lia|by apply Z.leb_le|split; [by apply Z.leb_le|by apply Z.ltb_lt]|].
  exists s. split; [exact E|]. destruct (H (fun _ => 0) (replicate 8 0, 8) []) as (x1 & o' & b & E1 & _ & _ & E2 & _); [by exists (replicate 8 0)|].
  exists x1, o'. split; [exact E1|exact E2].
Defined.

(** The table that the encoder writes has at most 771 bytes, the size of the array
    it is written to, and the decoder that reads it (whatever follows, and whatever its
    own arrays hold) uses all of it and knows the start and the frequency of every
    symbol and the symbol of every slot; runs of neighbouring symbols, one symbol that
    has all frequencies and no symbol at all are read back too. *)
Theorem rans_table_roundtrip fs syms d0 l : histogram fs -> fresh syms d0 -> exists e d,
  init syms fs = Ok e /\ Z.of_nat (length (table_ e)) <= 771 /\
  dinit (table_ e ++ l) d0 = Ok (d, Z.of_nat (length (table_ e))) /\
  forall c, 0 <= c < 256 -> freq_of fs c <> 0 ->
    rd (dsyms_ d) c = Ok (DecSym (start_of fs c) (freq_of fs c)) /\
    (forall x, 0 <= x -> start_of fs c <= x mod TOTFREQ < start_of fs c + freq_of fs c -> get_symbol d x = Ok c) /\
    exists s, rd (syms_ e) c = Ok s /\ Rans64EncSymbolInit (start_of fs c) (freq_of fs c) TF_SHIFT = Ok s.
Proof.
  intros Hh Hf. destruct (tables_ok fs syms d0 l Hh Hf) as (e & d & Ei & Et & Ed & He & (_ & _ & Hd)). exists e, d. split; [done|]. split; [done|].
  split; [done|]. intros c Hc Hnz. pose proof (start_bounds fs (Z.to_nat c) Hh) as Hb. rewrite Z2Nat.id in Hb by lia. cbv zeta in Hb. specialize (Hb ltac:(destruct Hh; lia)).
  destruct (Hd (Z.to_nat c)) as [Hs Hari]; [lia|by rewrite Z2Nat.id by lia|]. destruct (He (Z.to_nat c)) as (s & Hs' & Es); [lia|by rewrite Z2Nat.id by lia|].
  rewrite Z2Nat.id in Hs, Hari, Es by lia. change TOTFREQ with 4096 in Hb. rewrite !u32_small in Es by lia. split; [by apply rd_ok; [lia|]|]. split; [|exists s; split; [by apply rd_ok; [lia|]|done]].
  intros x Hx Hr. unfold get_symbol. change (TOTFREQ - 1) with (Z.ones 12). rewrite Z.land_ones by lia. by apply Hari.
Qed.

(** A histogram of three symbols, and arrays that have not been initialised. *)
Definition few : list Z := <[65%nat := 1]> (<[66%nat := 3000]> (<[67%nat := 1095]> (replicate 256 0))).
Definition syms0 : list Rans64EncSymbol := replicate 256 (EncSym 0 0 0 0 0).
Definition dec0 : decoder := Decoder (replicate 256 (DecSym 7 7)) (replicate 4096 99).

Lemma few_histogram : histogram few.
Proof. split; [done|]. split; [|by apply Z.leb_le]. apply List.Forall_forall. intros f Hf. apply Z.leb_le. revert f Hf. by apply List.forallb_forall. Qed.
Lemma fresh0 : fresh syms0 dec0.
Proof. done. Qed.

Lemma rans_table_roundtrip_witness : histogram few /\ exists e d, init syms0 few = Ok e /\ dinit (table_ e ++ [1; 2; 3]) dec0 = Ok (d, Z.of_nat (length (table_ e))) /\
  rd (dsyms_ d) 67 = Ok (DecSym 3001 1095).
Proof.
  split; [apply few_histogram|]. destruct (rans_table_roundtrip few syms0 dec0 [1; 2; 3] few_histogram fresh0) as (e & d & E1 & _ & E2 & H). exists e, d. split; [exact E1|].
  split; [exact E2|]. destruct (H 67) as [Hd _]; [lia|discriminate|]. exact Hd.
Defined.

(** ** Records *)

Lemma max_size_values : max_size 1 = 73 /\ max_size 2 = 5329 /\ max_size 4 = 28398241 /\ max_size 8 = 806460091894081.
Proof. done. Qed.

Lemma max_size_64 N : streams N -> max_size N < 2 ^ 64.
Proof. intros [->|[->|[->| ->]]]; by apply Z.ltb_lt. Qed.

Section record.
Context (fs : list Z) (e : encoder) (d : decoder) (junkE junkD : Z -> Z) (record : list Z).
Hypothesis (Hh : histogram fs) (He : forall c, (c < 256)%nat -> freq_of fs (Z.of_nat c) <> 0 -> enc_sym fs (syms_ e) c)
  (Hd : dec_done fs 256 (ari_ d) (dsyms_ d)) (Hrec : Forall (sym fs) record).

(** A record of any length below [73 ^ 8]: the number of streams the encoder chooses
    is found by the decoder. *)
Lemma encode_decode : Z.of_nat (length record) < max_size 8 -> exists bs,
  encode junkE e record = Ok bs /\ bs <> [] /\ decode junkD d bs = Ok (Some (Z.of_nat (length bs), record)).
Proof.
  intros Hlen. destruct max_size_values as (M1 & M2 & M4 & M8). set (len := Z.of_nat (length record)) in *.
  assert (Hgo : forall N, streams N -> len < max_size N -> exists bs, encode_xN junkE e record N true = Ok bs /\ bs <> [] /\
    decode_xN junkD d bs N true = Ok (Some (Z.of_nat (length bs), record)) /\ (0 <? Z.of_nat (length bs)) = true /\ forall N', streams N' -> (N < N')%nat -> decode_xN junkD d bs N' true = Ok None).
  { intros N HN Hl. destruct (coder_ok fs e d record junkE junkD Hh He Hd Hrec N true HN Hl (max_size_64 N HN)) as (bs & E & Hp & Ed & Hno).
    exists bs. split; [done|]. split; [by destruct bs; [cbn in Hp; lia|]|]. split; [done|]. split; [lia|by apply Hno]. }
  assert (S1 : streams 1) by (by left). assert (S2 : streams 2) by (by right; left). assert (S4 : streams 4) by (by do 2 right; left). assert (S8 : streams 8) by (by do 3 right).
  unfold encode, decode. fold len. change (pow_t RECORD_MAX_SIZE 1) with (max_size 1). change (pow_t RECORD_MAX_SIZE 2) with (max_size 2). change (pow_t RECORD_MAX_SIZE 4) with (max_size 4).
  destruct (Z.ltb_spec len (max_size 1)) as [H1|H1]; [|destruct (Z.ltb_spec len (max_size 2)) as [H2|H2]; [|destruct (Z.ltb_spec len (max_size 4)) as [H4|H4]]].
  - destruct (Hgo 1%nat S1 H1) as (bs & -> & Hne & Ed & Hp & Hno). exists bs. rewrite (Hno 8%nat), (Hno 4%nat), (Hno 2%nat), Ed by (done || lia). cbn [or_else rbind]. by rewrite Hp.
  - destruct (Hgo 2%nat S2 H2) as (bs & -> & Hne & Ed & Hp & Hno). exists bs. rewrite (Hno 8%nat), (Hno 4%nat), Ed by (done || lia). cbn [or_else rbind]. by rewrite Hp.
  - destruct (Hgo 4%nat S4 H4) as (bs & -> & Hne & Ed & Hp & Hno). exists bs. rewrite (Hno 8%nat), Ed by (done || lia). cbn [or_else rbind]. by rewrite Hp.
  - destruct (Hgo 8%nat S8 Hlen) as (bs & -> & Hne & Ed & Hp & Hno). exists bs. rewrite Ed. cbn [or_else rbind]. by rewrite Hp.
Qed.
End record.

(** C37: For every table of frequencies, the decoder that reads the encoder's table reads
    back every record of symbols that have a frequency, with the number of bytes that
    were written: [encode] chooses one, two, four or eight streams by the length, and
    [decode] finds out which from the bits in the headers; records must be shorter
    than 73^8.  The functions for a given number [N] of streams agree too on records
    shorter than 73^[N] (for longer ones the header has no room for the length, and
    the encoder gives nothing).  Nothing depends on what the memory held before. *)
Theorem rans_roundtrip fs syms d0 l junkE junkD : histogram fs -> fresh syms d0 -> exists e d,
  init syms fs = Ok e /\ dinit (table_ e ++ l) d0 = Ok (d, Z.of_nat (length (table_ e))) /\
  forall record, Forall (sym fs) record ->
    (Z.of_nat (length record) < max_size 8 -> exists bs,
      encode junkE e record = Ok bs /\ bs <> [] /\ decode junkD d bs = Ok (Some (Z.of_nat (length bs), record))) /\
    (forall N, streams N -> Z.of_nat (length record) < max_size N -> exists bs,
      encode_xN junkE e record N false = Ok bs /\ decode_xN junkD d bs N false = Ok (Some (Z.of_nat (length bs), record))).
Proof.
  intros Hh Hf. destruct (tables_ok fs syms d0 l Hh Hf) as (e & d & Ei & _ & Ed & He & Hd). exists e, d. split; [done|]. split; [done|]. intros record Hrec. split.
  - by apply (encode_decode fs).
  - intros N HN Hl. destruct (coder_ok fs e d record junkE junkD Hh He Hd Hrec N false HN Hl (max_size_64 N HN)) as (bs & E & _ & Ed' & _). by exists bs.
Qed.

Lemma rans_roundtrip_witness : exists e d bs, init syms0 few = Ok e /\ dinit (table_ e ++ [0]) dec0 = Ok (d, Z.of_nat (length (table_ e))) /\
  encode (fun _ => 5) e [66; 65; 67; 66; 66] = Ok bs /\ decode (fun _ => 6) d bs = Ok (Some (Z.of_nat (length bs), [66; 65; 67; 66; 66])).
Proof.
  destruct (rans_roundtrip few syms0 dec0 [0] (fun _ => 5) (fun _ => 6) few_histogram fresh0) as (e & d & E1 & E2 & H).
  destruct (H [66; 65; 67; 66; 66]) as [H1 _]; [repeat (constructor; [split; [lia|discriminate]|]); constructor|].
  destruct H1 as (bs & E3 & _ & E4); [by apply Z.ltb_lt|]. exists e, d, bs. split; [exact E1|]. split; [exact E2|]. split; [exact E3|exact E4].
Defined.

(** ** From the counts of records to the records *)

Lemma occ_in c l : In c l -> FreqHistProps.occ c l <> 0.
Proof.
  induction l as [|b l IH]; intros H; [done|]. cbn. pose proof (FreqHistProps.occ_bounds c l). destruct H as [->|H]; [rewrite Z.eqb_refl; cbn; lia|].
  specialize (IH H). destruct (b =? c); cbn; lia.
Qed.

Lemma counted_in (f : FreqHist.freq_hist) rs record c : In record rs -> FreqHistProps.eligible f record = true -> In c record -> In c (FreqHistProps.counted f rs).
Proof.
  intros Hr He Hc. unfold FreqHistProps.counted. apply in_concat. exists record. split; [|done]. apply list_elem_of_In, list_elem_of_filter. split; [done|by apply list_elem_of_In].
Qed.

(** C38: The chain from records to bytes and back: the counts of any records, scaled to
    [TOTFREQ], are a table that the encoder and the decoder can be made from, and every
    record that was counted and is shorter than [73 ^ 8] is read back from what the
    encoder writes, records without bytes and records of one byte only included. *)
Theorem rans_records_roundtrip partial_sort `{!FreqHist.PartialSort partial_sort} scale a b rs syms d0 junkE junkD :
  Forall bytes rs -> Z.of_nat (length (concat rs)) < 2 ^ 64 -> fresh syms d0 ->
  let size := Z.of_nat (length (FreqHistProps.counted (FreqHist.make a b) rs)) in
  (forall v, 0 <= v <= size -> 0 <= scale TOTFREQ size v <= TOTFREQ) -> exists f g h e d,
  FreqHistProps.add_records (FreqHist.make a b) rs = Ok f /\ FreqHist.finish f = Ok g /\ FreqHist.normalise scale partial_sort g TOTFREQ = Ok h /\
  init syms (FreqHist.o0 h) = Ok e /\ dinit (table_ e) d0 = Ok (d, Z.of_nat (length (table_ e))) /\
  forall record, In record rs -> a <= Z.of_nat (length record) <= b -> Z.of_nat (length record) < max_size 8 -> exists bs,
    encode junkE e record = Ok bs /\ bs <> [] /\ decode junkD d bs = Ok (Some (Z.of_nat (length bs), record)).
Proof.
  intros Hb HB Hf size Hsc. destruct (FreqHistProps.counting_ok a b rs Hb HB) as (f & g & Hbl & Ef & Eg & Hsz & Lg & Hcl).
  destruct (FreqHistProps.scaling_ok partial_sort scale _ g TOTFREQ Hbl Hsz Lg Hcl ltac:(by vm_compute) Hsc) as (h & Eh & Lh & Hp & Hz & _ & Hs).
  assert (Hh : histogram (FreqHist.o0 h)). { split; [done|]. split; [done|]. change (zsum (FreqHist.o0 h)) with (zsum (FreqHist.o0 h)). rewrite Hs. change TOTFREQ with 4096. destruct (FreqHistProps.none _); [lia|]. destruct (_ =? 1); lia. }
  destruct (tables_ok (FreqHist.o0 h) syms d0 [] Hh Hf) as (e & d & Ei & _ & Ed & He & Hd). rewrite app_nil_r in Ed. exists f, g, h, e, d. do 5 (split; [done|]).
  intros record Hin Hab Hlen. apply (encode_decode (FreqHist.o0 h)); [done..| |done]. apply List.Forall_forall. intros c Hc.
  assert (Hc256 : 0 <= c < 256). { unfold bytes in Hb. rewrite List.Forall_forall in Hb. specialize (Hb record Hin). rewrite List.Forall_forall in Hb. by apply Hb. }
  split; [done|]. change (freq_of (FreqHist.o0 h) c) with (FreqHist.count_at (FreqHist.o0 h) c). rewrite Hz by done. apply occ_in. eapply counted_in; [exact Hin| |exact Hc].
  unfold FreqHistProps.eligible. cbn. apply andb_true_iff. split; apply Z.leb_le; lia.
Qed.

Lemma rans_records_roundtrip_witness : exists f g h e d bs,
  FreqHistProps.add_records (FreqHist.make 0 100) [[3; 3; 9; 3; 9; 200]; []; [0; 0]] = Ok f /\ FreqHist.finish f = Ok g /\
  FreqHist.normalise FreqHistProps.times_ratio FreqHistProps.ps g TOTFREQ = Ok h /\ init syms0 (FreqHist.o0 h) = Ok e /\ dinit (table_ e) dec0 = Ok (d, Z.of_nat (length (table_ e))) /\
  encode (fun _ => 5) e [3; 3; 9; 3; 9; 200] = Ok bs /\ decode (fun _ => 6) d bs = Ok (Some (Z.of_nat (length bs), [3; 3; 9; 3; 9; 200])).
Proof.
  destruct (@rans_records_roundtrip FreqHistProps.ps FreqHistProps.ps_correct FreqHistProps.times_ratio 0 100 [[3; 3; 9; 3; 9; 200]; []; [0; 0]] syms0 dec0 (fun _ => 5) (fun _ => 6)) as (f & g & h & e & d & E1 & E2 & E3 & E4 & E5 & H).
  - repeat constructor; lia.
  - by vm_compute.
  - apply fresh0.
  - change (Z.of_nat (length _)) with 8. change TOTFREQ with 4096. intros v Hv. unfold FreqHistProps.times_ratio. split; [apply Z.div_pos; lia|apply Z.div_le_upper_bound; lia].
  - destruct (H [3; 3; 9; 3; 9; 200]) as (bs & E6 & _ & E7); [by left|cbn; lia|by vm_compute|]. exists f, g, h, e, d, bs.
    do 5 (split; [assumption|]). split; [exact E6|exact E7].
Defined.

(** ** Bytes that no encoder wrote *)

(** The decoder reads outside the bytes it is given, whatever its table: of four to
    seven bytes of which the first is odd and whose first header takes all of them,
    [decode] reads the second header, of two bytes, behind the end (the size is compared
    with the end only after that read). *)
Theorem rans_header_outside junk d data : bytes data -> 4 <= Z.of_nat (length data) < 8 ->
  let w := (byte_at data 0 + 256 * byte_at data 1) mod 1024 in
  w mod 2 = 1 -> w / 2 mod 7 + 2 = Z.of_nat (length data) -> decode junk d data = UB.
Proof.
  intros Hb Hlen w Hodd Hc. assert (Hdec : Rans64DecInit data (Check_ true true) 0 0 = Ok (Some (Z.shiftr (le_at (length data) data 0) 10, u64 (0 * RECORD_MAX_SIZE + w / 2 / 7), Z.of_nat (length data)))).
  { unfold Rans64DecInit, inside. rewrite (proj2 (Z.leb_le 0 0)), (proj2 (Z.leb_le (0 + 2) (Z.of_nat (length data)))) by lia. cbn [andb enable value Z.b2z].
    change (Z.shiftl 1 (HEAD_BITS + 1) - 1) with (Z.ones 10). rewrite Z.land_ones by lia.
    assert (le_at 2 data 0 mod 2 ^ 10 = w) as -> by (unfold w; cbn [le_at]; change (0 + 1) with 1; f_equal; lia).
    change 1 with (Z.ones 1) at 1. rewrite Z.land_ones by lia. change (2 ^ 1) with 2. rewrite Hodd. cbn [Z.eqb Pos.eqb negb].
    rewrite Z.shiftr_div_pow2 by lia. change (2 ^ 1) with 2. rewrite Hc, Z.add_0_l. rewrite Z.ltb_irrefl, Z.leb_refl. by rewrite Nat2Z.id. }
  assert (H2 : forall psize, Rans64DecInit data (Check_ true false) psize (Z.of_nat (length data)) = UB).
  { intros psize. unfold Rans64DecInit, inside. rewrite (proj2 (Z.leb_gt (Z.of_nat (length data) + 2) (Z.of_nat (length data)))) by lia. by rewrite andb_false_r. }
  unfold decode. unfold decode_xN at 1. rewrite (proj2 (Z.ltb_lt _ _)) by lia. cbn [or_else rbind].
  unfold decode_xN at 1. rewrite (proj2 (Z.ltb_lt _ _)) by lia. cbn [or_else rbind].
  unfold decode_xN at 1. rewrite (proj2 (Z.ltb_ge _ _)) by lia. cbn [init_up]. change (xvalue (Z.of_nat 2) 0) with true. change (xvalue (Z.of_nat 2) (0 + 1)) with false.
  unfold obind at 1. unfold obind at 1. rewrite Hdec. cbn [rbind]. unfold obind at 1. unfold obind at 1. rewrite H2. reflexivity.
Qed.

Lemma rans_header_outside_witness : decode (fun _ => 0) dec0 [5; 0; 0; 0] = UB.
Proof. apply rans_header_outside; [repeat constructor; lia|cbn; lia|reflexivity|reflexivity]. Defined.
End RansCorrect.
