(* ===== verification/Dfa.v ===== *)
(** * Automata as the algorithms of [fsa/] see them

    What the templates of [fsa/] ask of an automaton they read ([Dfa]) and of one they
    build ([MutDfa] with its laws), and what an automaton means: the states that words
    lead to, its language, and when states behave alike. *)
From S2P Require Import Prelude.

Module Dfa.

(** ** An automaton that is read *)

Record Dfa := Build {
  total_states : Z;
  num_free_states : Z;
  is_free : Z -> bool;
  is_term : Z -> bool;
  (** [for_each_move]: the characters and targets in the order of the visits *)
  moves : Z -> list (Z * Z)
}.

Definition initial_state : Z := 0.

Definition used (d : Dfa) (s : Z) : Prop := 0 <= s < total_states d /\ is_free d s = false.

(** ** Words *)

Fixpoint find_move (c : Z) (l : list (Z * Z)) : option Z :=
  match l with [] => None | (c', t) :: l => if c' =? c then Some t else find_move c l end.
Definition move (d : Dfa) (s c : Z) : option Z := find_move c (moves d s).

Fixpoint run (d : Dfa) (s : Z) (w : list Z) : option Z :=
  match w with [] => Some s | c :: w => match move d s c with Some t => run d t w | None => None end end.

(** Whether the word is accepted, if there is a state for it. *)
Definition trace (d : Dfa) (s : Z) (w : list Z) : option bool := is_term d <$> run d s w.
Definition accepts (d : Dfa) (s : Z) (w : list Z) : bool := match trace d s w with Some b => b | None => false end.

(** States (of two automata) that behave alike on every word. *)
Definition alike (d d' : Dfa) (s s' : Z) : Prop := forall w, trace d s w = trace d' s' w.

(** A state from which some word is accepted. *)
Definition live (d : Dfa) (s : Z) : Prop := exists w, accepts d s w = true.

(** ** What holds of an automaton *)

(** The characters of a state, in order. *)
Definition chars (l : list (Z * Z)) : list Z := map fst l.
Fixpoint ascending (l : list Z) : bool :=
  match l with a :: (b :: _) as l' => (a <? b) && ascending l' | _ => true end.
Definition sigma : Z := 512.

Definition good_moves (d : Dfa) (l : list (Z * Z)) : Prop :=
  ascending (chars l) = true /\ forall c t, In (c, t) l -> 0 <= c < sigma /\ used d t.

Record wf (d : Dfa) : Prop := {
  wf_initial : used d initial_state;
  wf_size : total_states d < 2 ^ 31;
  wf_free : num_free_states d = 0 -> forall s, 0 <= s < total_states d -> is_free d s = false;
  wf_moves : forall s, used d s -> good_moves d (moves d s)
}.

(** ** An automaton that is built *)

Class MutDfa (M : Type) := {
  view : M -> Dfa;
  erase_all : M -> res M;
  resize_states : M -> Z -> res M;
  set_term_bit : M -> Z -> res M;
  add_all_move : M -> Z -> list (Z * Z) -> res M;
}.

(** What the state [s] of [d] is changed to. *)
Definition set_state (d : Dfa) (s : Z) (term : bool) (l : list (Z * Z)) : Dfa :=
  Build (total_states d) (num_free_states d) (is_free d) (fun k => if k =? s then term else is_term d k) (fun k => if k =? s then l else moves d k).

(** Equal up to what is stored for states that do not exist. *)
Record same (d d' : Dfa) : Prop := {
  same_total : total_states d = total_states d';
  same_num_free : num_free_states d = num_free_states d';
  same_free : forall s, 0 <= s < total_states d -> is_free d s = is_free d' s;
  same_term : forall s, 0 <= s < total_states d -> is_term d s = is_term d' s;
  same_moves : forall s, 0 <= s < total_states d -> moves d s = moves d' s
}.

(** [max_size]: the number of states the class can hold; [usable]: its invariant. *)
Class MutDfaLaws (M : Type) `{MutDfa M} (max_states : Z) (usable : M -> Prop) : Prop := {
  erase_all_ok m : usable m -> exists m', erase_all m = Ok m' /\ usable m' /\
    total_states (view m') = 1 /\ num_free_states (view m') = 0 /\ is_free (view m') 0 = false /\ is_term (view m') 0 = false /\ moves (view m') 0 = [];
  resize_states_ok m n : usable m -> total_states (view m) <= n < max_states -> exists m', resize_states m n = Ok m' /\ usable m' /\
    total_states (view m') = n /\ num_free_states (view m') = num_free_states (view m) /\
    (forall s, 0 <= s < total_states (view m) -> is_free (view m') s = is_free (view m) s /\ is_term (view m') s = is_term (view m) s /\ moves (view m') s = moves (view m) s) /\
    (forall s, total_states (view m) <= s < n -> is_free (view m') s = false /\ is_term (view m') s = false /\ moves (view m') s = []);
  set_term_bit_ok m s : usable m -> used (view m) s -> exists m', set_term_bit m s = Ok m' /\ usable m' /\
    same (view m') (set_state (view m) s true (moves (view m) s));
  add_all_move_ok m s l : usable m -> used (view m) s -> moves (view m) s = [] -> good_moves (view m) l -> exists m', add_all_move m s l = Ok m' /\ usable m' /\
    same (view m') (set_state (view m) s (is_term (view m) s) l)
}.
End Dfa.
