(* ===== verification/SmallMap.v ===== *)
(** * Maps from small numbers

    [smallmap.hpp]: an array of values in the order in which their keys came, and an
    index from keys to places. *)
From S2P Require Import Prelude.

Module SmallMap.

(** What the class asks of a value: the member [ch], [resize0], the constructor. *)
Class Mapped (A : Type) := { get_ch : A -> Z; set_ch : A -> Z -> A; resize0_v : A -> res A; fresh : A }.

Definition i16 (z : Z) : Z := (z + 2 ^ 15) mod 2 ^ 16 - 2 ^ 15.

Section map.
Context {A : Type} `{!Mapped A}.

Record smallmap := SM { index : list Z; p : list A; n : Z; c : Z }.

Definition make (indexSize : Z) : smallmap := SM (replicate (Z.to_nat indexSize) (-1)) (replicate (Z.to_nat indexSize) fresh) 0 indexSize.

(** The place of the value; the caller changes it with [wr]. *)
Definition bykey (m : smallmap) (key : Z) : res (smallmap * Z) :=
  let* _ := assert_ (key <? c m) in
  let* _ := assert_ (n m <=? c m) in
  let* i := rd (index m) key in
  if i =? -1 then
    let* _ := assert_ (n m <? c m) in
    let* index := wr (index m) key (i16 (n m)) in
    let* v := rd (p m) (n m) in
    let* p := wr (p m) (n m) (set_ch v key) in
    Ok (SM index p (n m + 1) (c m), n m)
  else Ok (m, i).

Definition resize0 (m : smallmap) : res smallmap :=
  if n m <=? 16 then
    let* (index, p) := for_ 0 (n m) (fun i '(index, p) =>
      let* v := rd p i in
      let* _ := assert_ (negb (get_ch v =? -1)) in
      let* x := rd index (get_ch v) in
      let* _ := assert_ (negb (x =? -1)) in
      let* index := wr index (get_ch v) (-1) in
      let* v := resize0_v v in
      let* p := wr p i v in Ok (index, p)) (index m, p m) in
    Ok (SM index p 0 (c m))
  else
    let* p := for_ 0 (n m) (fun i p => let* v := rd p i in let* v := resize0_v v in wr p i v) (p m) in
    Ok (SM (replicate (Z.to_nat (c m)) (-1)) p 0 (c m)).

Definition exists_ (m : smallmap) (key : Z) : res bool :=
  let* _ := assert_ (key <? c m) in let* i := rd (index m) key in Ok (negb (i =? -1)).

(** The place is the index itself. *)
Definition byidx (m : smallmap) (idx : Z) : res A := let* _ := assert_ (idx <? n m) in rd (p m) idx.
Definition set_idx (m : smallmap) (idx : Z) (v : A) : res smallmap := let* p := wr (p m) idx v in Ok (SM (index m) p (n m) (c m)).
End map.
Arguments smallmap A : clear implicits.
End SmallMap.
