(* ===== verification/Hopcroft.v ===== *)
(** * Minimisation by partition refinement

    [fsa/hopcroft.hpp] and [fsa/ppi/dfa_hopcroft.hpp]: the states of an automaton in
    blocks, each a cyclic doubly linked list through the array [L]; blocks that may
    split others wait in a stack; at the end the blocks are the states of the smallest
    automaton. *)
From stdpp Require Import sorting.
From S2P Require Import Prelude GoldHash Dfa SmallMap.
Import Dfa.

Module Hopcroft.

(** ** [Hopcroft]: the arrays *)

Record Elem := MkElem { next : Z; prev : Z; blid : Z }.
Record Block := MkBlock { head : Z; blen : Z; isInW : bool }.
Record Hopcroft := MkHopcroft { L : list Elem; P : list Block }.

Definition new_block : Block := MkBlock (2 ^ 32 - 1) 0 false.
Definition max_blen : Z := 2 ^ 31 - 1.

(** [blen] has 31 bits. *)
Definition u31 (z : Z) : Z := z mod 2 ^ 31.

Definition upd {A} (l : list A) (i : Z) (f : A -> A) : res (list A) := let* a := rd l i in wr l i (f a).

Definition set_next (x : Z) (e : Elem) : Elem := MkElem x (prev e) (blid e).
Definition set_prev (x : Z) (e : Elem) : Elem := MkElem (next e) x (blid e).
Definition set_blid (x : Z) (e : Elem) : Elem := MkElem (next e) (prev e) x.
Definition set_head (x : Z) (b : Block) : Block := MkBlock x (blen b) (isInW b).
Definition add_blen (x : Z) (b : Block) : Block := MkBlock (head b) (u31 (blen b + x)) (isInW b).
Definition set_isInW (x : bool) (b : Block) : Block := MkBlock (head b) (blen b) x.

Definition add (H : Hopcroft) (g s : Z) : res Hopcroft :=
  let* b := rd (P H) g in
  let* (L, P) := if blen b =? 0 then
      let* P := upd (P H) g (set_head s) in
      let* L := upd (L H) s (set_next s) in
      let* L := upd L s (set_prev s) in Ok (L, P)
    else
      let h := head b in
      let* e := rd (L H) h in
      let t := prev e in
      let* L := upd (L H) s (set_next h) in
      let* L := upd L s (set_prev t) in
      let* L := upd L h (set_prev s) in
      let* L := upd L t (set_next s) in Ok (L, P H) in
  let* P := upd P g (add_blen 1) in
  let* L := upd L s (set_blid g) in Ok (MkHopcroft L P).

Definition del (H : Hopcroft) (g s : Z) : res Hopcroft :=
  let* e := rd (L H) s in
  let* b := rd (P H) g in
  let* _ := assert_ (blid e =? g) in
  let* _ := assert_ (1 <=? blen b) in
  let* P := if head b =? s then upd (P H) g (set_head (next e)) else Ok (P H) in
  let* P := upd P g (add_blen (-1)) in
  let* L := upd (L H) (prev e) (set_next (next e)) in
  let* e := rd L s in
  let* L := upd L (next e) (set_prev (prev e)) in Ok (MkHopcroft L P).

(** [do { body(s); s = L[s].next; } while (s != B_head)] *)
Definition ring_loop {S} (H : S -> Hopcroft) (body : Z -> S -> res S) (fuel : nat) (B_head : Z) (st : S) : res S :=
  loop fuel (fun '(s, st) =>
    let* st := body s st in
    let* e := rd (L (H st)) s in
    Ok (if next e =? B_head then inr st else inl (next e, st))) (B_head, st).

Definition fix_blid (H : Hopcroft) (g : Z) : res Hopcroft :=
  let* b := rd (P H) g in
  ring_loop id (fun s H => let* L := upd (L H) s (set_blid g) in Ok (MkHopcroft L (P H))) (S (length (L H))) (head b) H.

Definition swap_blocks (H : Hopcroft) (a b : Z) : res Hopcroft :=
  let* x := rd (P H) a in let* y := rd (P H) b in
  let* P := wr (P H) a y in let* P := wr P b x in Ok (MkHopcroft (L H) P).

(** ** The constructors *)

Definition skips (d : Dfa) (s : Z) : bool := negb (num_free_states d =? 0) && is_free d s.

(** The end of the constructors without hash. *)
Definition drop_empty (H : Hopcroft) : res Hopcroft :=
  let* b := rd (P H) 0 in
  let* H := if blen b =? 0 then let* H := swap_blocks H 0 1 in fix_blid H 0 else Ok H in
  let* b := rd (P H) 1 in
  Ok (if blen b =? 0 then MkHopcroft (L H) (removelast (P H)) else H).

Section make.
Context (junk : Z -> Elem) (d : Dfa).

Definition Hopcroft_dfa : res Hopcroft :=
  let* _ := assert_ (1 <=? total_states d) in
  let L := map junk (seqZ 0 (total_states d)) in
  let* H := for_ 0 (total_states d) (fun s H =>
    if skips d s then Ok H else
    let g := if is_term d s then 1 else 0 in
    let* b := rd (P H) g in
    if blen b =? max_blen then Throw length_error else
    add H g s) (MkHopcroft L [new_block; new_block]) in
  drop_empty H.

Definition Hopcroft_hash (hash : Z -> Z) : res Hopcroft :=
  let* _ := assert_ (1 <=? total_states d) in
  let L := map junk (seqZ 0 (total_states d)) in
  let nil := 2 ^ 32 - 1 in
  let* n_buckets := GoldHash.next_prime (total_states d / 2 + 1) in
  let bucket := replicate (Z.to_nat (n_buckets + 1)) nil in
  let* (H, _) := for_ 0 (total_states d) (fun s '(H, bucket) =>
    if skips d s then Ok (H, bucket) else
    let hidx := hash s mod n_buckets in
    let hidx := if is_term d s then Z.lor hidx 1 else Z.land hidx (not64 1) in
    let* g := rd bucket hidx in
    let* (H, bucket, g) :=
      if nil =? g then
        let g := u32 (Z.of_nat (length (P H))) in
        let* bucket := wr bucket hidx g in Ok (MkHopcroft (Hopcroft.L H) (P H ++ [new_block]), bucket, g)
      else let* b := rd (P H) g in if blen b =? max_blen then Throw length_error else Ok (H, bucket, g) in
    let* H := add H g s in Ok (H, bucket)) (MkHopcroft L [], bucket) in
  Ok H.
End make.

(** ** Splitters *)

Record Splitter := MkSplitter { elems : list Z; ch : Z }.

#[export] Instance splitter_mapped : SmallMap.Mapped Splitter := {
  SmallMap.get_ch := ch;
  SmallMap.set_ch e k := MkSplitter (elems e) k;
  SmallMap.resize0_v e := Ok (MkSplitter [] (-1));
  SmallMap.fresh := MkSplitter [] (-1)
}.

Notation splitters := (SmallMap.smallmap Splitter).

(** [mE.bykey(c).insert(s)] *)
Definition insert (mE : splitters) (c s : Z) : res splitters :=
  let* (mE, i) := SmallMap.bykey mE c in
  let* e := rd (SmallMap.p mE) i in
  SmallMap.set_idx mE i (MkSplitter (elems e ++ [s]) (ch e)).

(** [std::unique] *)
Fixpoint unique (l : list Z) : list Z :=
  match l with a :: (b :: _) as l' => if a =? b then unique l' else a :: unique l' | _ => l end.

Definition sort (l : list Z) : list Z := merge_sort Z.le l.

(** ** [refine] *)

Definition minBlock (H : Hopcroft) (b1 b2 : Z) : res Z :=
  let* x := rd (P H) b1 in let* y := rd (P H) b2 in Ok (if blen x <? blen y then b1 else b2).

(** [putW] *)
Definition putW (W : list Z) (H : Hopcroft) (b : Z) : res (list Z * Hopcroft) :=
  let* P := upd (P H) b (set_isInW true) in Ok (W ++ [b], MkHopcroft (L H) P).

(** [takeW]: the last element. *)
Definition takeW (W : list Z) (H : Hopcroft) : res (Z * list Z * Hopcroft) :=
  let* b := rd W (Z.of_nat (length W) - 1) in
  let* P := upd (P H) b (set_isInW false) in Ok (b, removelast W, MkHopcroft (L H) P).

(** [E] without the states that are alone in their blocks, and the blocks of the rest. *)
Definition candidates (H : Hopcroft) (E : list Z) : res (list Z * list Z) :=
  let* (E, iE2, bls) := for_ 0 (Z.of_nat (length E)) (fun iE1 '(E, iE2, bls) =>
    let* sE := rd E iE1 in
    let* e := rd (L H) sE in
    let* b := rd (P H) (blid e) in
    let* (E, iE2, bls) := if negb (blen b =? 1) then let* E := wr E iE2 sE in Ok (E, iE2 + 1, bls ++ [blid e]) else Ok (E, iE2, bls) in
    let* _ := assert_ (0 <? blen b) in Ok (E, iE2, bls)) (E, 0, []) in
  Ok (take (Z.to_nat iE2) E, unique bls).

(** Moves the states of [E] that are in [B_E] to the block [BxE]; the rest of [E]. *)
Definition move_states (H : Hopcroft) (E : list Z) (B_E BxE : Z) : res (Hopcroft * list Z) :=
  let* (H, E, iE2) := for_ 0 (Z.of_nat (length E)) (fun iE1 '(H, E, iE2) =>
    let* sE := rd E iE1 in
    let* e := rd (L H) sE in
    if blid e =? B_E then
      let* H := del H B_E sE in
      let* H := add H BxE sE in Ok (H, E, iE2)
    else let* E := wr E iE2 sE in Ok (H, E, iE2 + 1)) (H, E, 0) in
  Ok (H, take (Z.to_nat iE2) E).

Definition split_block (B_E : Z) (st : Hopcroft * list Z * list Z) : res (Hopcroft * list Z * list Z) :=
  let '(H, W, E) := st in
  let* _ := assert_ (negb (Z.of_nat (length E) =? 0)) in
  let BxE := u32 (Z.of_nat (length (P H))) in
  let* B := rd (P H) B_E in
  let* _ := assert_ (1 <? blen B) in
  let H := MkHopcroft (L H) (P H ++ [new_block]) in
  let* (H, E) := move_states H E B_E BxE in
  let* x := rd (P H) BxE in
  let* _ := assert_ (negb (blen x =? 0)) in
  let* y := rd (P H) B_E in
  let* _ := assert_ (blen y <? blen B) in
  if blen y =? 0 then
    let* P := wr (P H) B_E B in
    let* H := fix_blid (MkHopcroft (L H) P) B_E in
    Ok (MkHopcroft (L H) (removelast (Hopcroft.P H)), W, E)
  else
    let* b := if isInW y then Ok BxE else minBlock H B_E BxE in
    let* (W, H) := putW W H b in Ok (H, W, E).

(** One splitter; [E] is changed in its place in the map. *)
Definition split (H : Hopcroft) (W E : list Z) : res (Hopcroft * list Z * list Z) :=
  let* _ := assert_ (negb (Z.of_nat (length E) =? 0)) in
  let* (E, bls) := candidates H E in
  let n := Z.of_nat (length bls) in
  let* go := if n =? 1 then
      let* g := rd bls 0 in
      let* b := rd (P H) g in
      if Z.of_nat (length E) =? blen b then Ok false else let* _ := assert_ (Z.of_nat (length E) <? blen b) in Ok true
    else Ok true in
  if negb go then Ok (H, W, E) else
  let bls := if n =? 1 then bls else unique (sort bls) in
  for_ 0 (Z.of_nat (length bls)) (fun i st => let* B_E := rd bls i in split_block B_E st) (H, W, E).

Section refine.
(** Puts the states with moves to the first argument into the map, by character. *)
Context (egen : Z -> splitters -> res splitters).

(** What one block of the waiting set does. *)
Definition refine_step (st : Hopcroft * list Z * splitters) : res (Hopcroft * list Z * splitters) :=
  let '(H, W, C_1) := st in
  let* (C, W, H) := takeW W H in
  let* C_1 := SmallMap.resize0 C_1 in
  let* b := rd (P H) C in
  let* C_1 := ring_loop (fun _ => H) egen (S (length (L H))) (head b) C_1 in
  for_ 0 (SmallMap.n C_1) (fun j '(H, W, C_1) =>
    let* E := SmallMap.byidx C_1 j in
    let* (H, W, es) := split H W (elems E) in
    let* C_1 := SmallMap.set_idx C_1 j (MkSplitter es (ch E)) in Ok (H, W, C_1)) (H, W, C_1).

Definition refine (H : Hopcroft) : res Hopcroft :=
  let* _ := assert_ (1 <=? Z.of_nat (length (P H))) in
  let* (W, H) := for_ 0 (Z.of_nat (length (P H))) (fun b '(W, H) => putW W H b) ([], H) in
  let* H := loop (S (2 * length (L H))) (fun '(H, W, C_1) =>
    match W with [] => Ok (inr H) | _ => let* st := refine_step (H, W, C_1) in Ok (inl st) end) (H, W, SmallMap.make sigma) in
  let* b := rd (P H) 0 in
  if negb (head b =? 0) then
    let* e := rd (L H) 0 in
    let initial_block := blid e in
    let* H := swap_blocks H 0 initial_block in
    let* H := fix_blid H 0 in fix_blid H initial_block
  else Ok H.
End refine.

(** ** The moves backwards *)

Record CompactReverseNFA := Nfa { index : list Z; data : list (Z * Z) }.

Definition for_states {S} (d : Dfa) (body : Z -> S -> res S) (st : S) : res S :=
  for_ 0 (total_states d) (fun s st => if skips d s then Ok st else body s st) st.

(** [for_each_move] *)
Fixpoint for_moves {S} (l : list (Z * Z)) (body : Z -> Z -> S -> res S) (st : S) : res S :=
  match l with [] => Ok st | (c, t) :: l => let* st := body t c st in for_moves l body st end.

Definition graph_reverse_nfa (junk : Z -> Z * Z) (d : Dfa) : res CompactReverseNFA :=
  let index := replicate (Z.to_nat (total_states d + 1)) 0 in
  let* index := for_states d (fun s index => for_moves (moves d s) (fun t c index => upd index (t + 1) (fun x => u32 (x + 1))) index) index in
  let* index := for_ 1 (Z.of_nat (length index)) (fun i index => let* x := rd index (i - 1) in upd index i (fun y => u32 (y + x))) index in
  let* n := rd index (Z.of_nat (length index) - 1) in
  let data := map junk (seqZ 0 n) in
  let* (data, _) := for_states d (fun s st => for_moves (moves d s) (fun t c '(data, ii) =>
    let* i := rd ii t in
    let* ii := wr ii t (u32 (i + 1)) in
    let* data := wr data i (c, s) in Ok (data, ii)) st) (data, index) in
  Ok (Nfa index data).

(** The function that [hopcroft_graph_dfa_no_collapse] gives to [refine]. *)
Definition egen_graph (inv : CompactReverseNFA) (curr : Z) (mE : splitters) : res splitters :=
  let* low := rd (index inv) curr in
  let* upp := rd (index inv) (curr + 1) in
  for_ low upp (fun i mE => let* (c, s) := rd (data inv) i in insert mE c s) mE.

(** The only move to each state of a tree; [color] is there to check that. *)
Definition trie_reverse_dfa (d : Dfa) : res (list (Z * Z)) :=
  let color := replicate (Z.to_nat (total_states d)) false in
  let* color := wr color initial_state true in
  let inv := replicate (Z.to_nat (total_states d)) (0, 0) in
  let* (inv, _) := for_states d (fun s st => for_moves (moves d s) (fun t c '(inv, color) =>
    let* b := rd color t in
    let* _ := assert_ (negb b) in
    let* color := wr color t true in
    let* inv := wr inv t (c, s) in Ok (inv, color)) st) (inv, color) in
  Ok inv.

Definition egen_trie (inv : list (Z * Z)) (curr : Z) (mE : splitters) : res splitters :=
  if negb (curr =? initial_state) then let* (c, s) := rd inv curr in insert mE c s else Ok mE.

(** ** The smallest automaton *)

Section collapse.
Context {M : Type} `{!MutDfa M} (d : Dfa).

(** [collapse3]: the moves of a block are those of the head of its list. *)
Definition collapse (H : Hopcroft) (minimized : M) : res M :=
  let* _ := assert_ (Z.of_nat (length (L H)) =? total_states d) in
  let min_size := Z.of_nat (length (P H)) in
  let X := map head (P H) in
  let M := map blid (L H) in
  let* minimized := resize_states minimized min_size in
  for_ 0 min_size (fun s2 minimized =>
    let* s1 := rd X s2 in
    let* m := rd M s1 in
    let* _ := assert_ (m =? s2) in
    let* children := for_moves (moves d s1) (fun t c children =>
      let* m := rd M t in
      let* _ := assert_ (m <? min_size) in Ok (children ++ [(c, m)])) [] in
    let* minimized := add_all_move minimized s2 children in
    if is_term d s1 then set_term_bit minimized s2 else Ok minimized) minimized.

Section minimize.
Context (junk : Z -> Elem) (junk2 : Z -> Z * Z).
(** [HopcroftUseHash()] chooses; [hopcroft_hash] of the class. *)
Context (use_hash : option (Z -> Z)).

Definition new_Hopcroft : res Hopcroft :=
  match use_hash with Some hash => Hopcroft_hash junk d hash | None => Hopcroft_dfa junk d end.

Definition hopcroft_graph_dfa_no_collapse (H : Hopcroft) : res Hopcroft :=
  let* _ := assert_ (total_states d <? 2 ^ 32 - 1) in
  let* inv := graph_reverse_nfa junk2 d in refine (egen_graph inv) H.

Definition graph_dfa_minimize (minimized : M) : res M :=
  let* minimized := erase_all minimized in
  let* _ := assert_ (total_states d <? 2 ^ 32 - 1) in
  let* H := new_Hopcroft in
  let* H := hopcroft_graph_dfa_no_collapse H in collapse H minimized.

Definition trie_dfa_minimize (minimized : M) : res M :=
  let* minimized := erase_all minimized in
  let* _ := assert_ (total_states d <? 2 ^ 32 - 1) in
  let* H := new_Hopcroft in
  let* inv := trie_reverse_dfa d in
  let* H := refine (egen_trie inv) H in collapse H minimized.
End minimize.
End collapse.
End Hopcroft.
