(* ===== verification/HopcroftList.v ===== *)
(** * The lists of [Hopcroft]

    A block is a cyclic doubly linked list through the array [L]; [del] and [add] take a
    state out of one and put it into another. *)
From S2P Require Import Prelude Dfa SmallMap Hopcroft.
Import Dfa Hopcroft.

Module HopcroftList.

(** ** Changes of the array *)

Definition el (L : list Elem) (s : Z) : Elem := nth (Z.to_nat s) L (MkElem 0 0 0).
Definition nxt L s := next (el L s).
Definition prv L s := prev (el L s).
Definition bld L s := blid (el L s).

Lemma rd_el L s : 0 <= s < Z.of_nat (length L) -> rd L s = Ok (el L s).
Proof.
  intros Hs. apply rd_ok; [lia|]. destruct (lookup_lt_is_Some_2 L (Z.to_nat s)) as [e He]; [lia|]. unfold el. by rewrite nth_lookup, He.
Qed.

Lemma upd_rd {A} (l : list A) i f a : rd l i = Ok a -> upd l i f = Ok (<[Z.to_nat i := f a]> l).
Proof.
  intros Hr. unfold upd. rewrite Hr. cbn [rbind]. apply rd_Ok_inv in Hr as [Hi Hl]. apply wr_ok. apply lookup_lt_Some in Hl. lia.
Qed.

Lemma upd_el L s f : 0 <= s < Z.of_nat (length L) -> exists L', upd L s f = Ok L' /\ length L' = length L /\
  forall x, 0 <= x -> el L' x = if x =? s then f (el L x) else el L x.
Proof.
  intros Hs. eexists. split; [apply upd_rd, rd_el, Hs|]. split; [apply length_insert|]. intros x Hx. unfold el. rewrite !nth_lookup.
  destruct (Z.eqb_spec x s) as [->|Hne]; [by rewrite list_lookup_insert_eq by lia|by rewrite list_lookup_insert_ne by lia].
Qed.

(** ** Cycles *)

Definition lnk (L : list Elem) (a b : Z) : Prop := nxt L a = b /\ prv L b = a.
Fixpoint path (L : list Elem) (l : list Z) : Prop :=
  match l with a :: (b :: _) as l' => lnk L a b /\ path L l' | _ => True end.
Definition cyc (L : list Elem) (l : list Z) : Prop := match l with [] => True | x :: _ => path L (l ++ [x]) end.

Lemma path_app L l1 a l2 : path L (l1 ++ a :: l2) <-> path L (l1 ++ [a]) /\ path L (a :: l2).
Proof.
  induction l1 as [|x l1 IH]; [cbn; tauto|]. destruct l1 as [|y l1]; cbn [app] in *; cbn [path]; [tauto|]. cbn [app] in IH. cbn [path] in IH. tauto.
Qed.

Lemma cyc_rotate L l1 l2 : cyc L (l1 ++ l2) -> cyc L (l2 ++ l1).
Proof.
  destruct l1 as [|x l1]; [by rewrite app_nil_r|]. destruct l2 as [|y l2]; [by rewrite app_nil_r|].
  pose proof (path_app L (x :: l1) y (l2 ++ [x])) as H1. pose proof (path_app L (y :: l2) x (l1 ++ [y])) as H2. cbn [cyc app] in *.
  rewrite <- !app_assoc. cbn [app]. tauto.
Qed.

Lemma path_frame L L' l : (forall a, In a (removelast l) -> nxt L' a = nxt L a) -> (forall b, In b (tail l) -> prv L' b = prv L b) -> path L l -> path L' l.
Proof.
  induction l as [|a l IH]; intros Hn Hp Hl; [done|]. destruct l as [|b l]; [done|]. cbn [path] in *. destruct Hl as [[H1 H2] Hl]. split.
  - split; [rewrite Hn by (by left); done|rewrite Hp by (by left); done].
  - apply IH; [|intros c Hc; apply Hp; by right|done]. intros c Hc. apply Hn. by right.
Qed.

Lemma path_snoc L l a : path L (l ++ [a]) -> path L l.
Proof.
  induction l as [|x l IH]; [done|]. destruct l as [|y l]; [done|]. cbn [app path]. intros [H1 H2]. split; [done|]. by apply IH.
Qed.

(** The last element, or the first when there is no other. *)
Lemma cyc_last L h l : cyc L (h :: l) -> exists l0 t, h :: l = l0 ++ [t] /\ lnk L t h /\ (l = [] -> t = h).
Proof.
  intros Hc. destruct (exists_last (l := h :: l)) as (l0 & t & E); [done|]. exists l0, t. split; [done|]. cbn [cyc app] in Hc.
  change (h :: l ++ [h]) with ((h :: l) ++ [h]) in Hc. rewrite E in Hc. rewrite <- app_assoc in Hc. cbn [app] in Hc. apply path_app in Hc as [_ [Hc _]].
  split; [done|]. intros ->. destruct l0 as [|x [|? ?]]; cbn in E; congruence.
Qed.

(** ** Blocks *)

(** The states of [U] lie in the blocks that [beta] tells; every block's list holds its
    states. *)
Definition ring (H : Hopcroft) (g : Z) (r : list Z) : Prop := exists b,
  rd (P H) g = Ok b /\ blen b = Z.of_nat (length r) /\ (r <> [] -> In (head b) r) /\ cyc (L H) r.

Section blocks.
Context (n : Z).
Hypothesis (Hn : n < 2 ^ 31).

Record blocks (U : Z -> Prop) (H : Hopcroft) (beta : Z -> Z) (k : Z) : Prop := {
  b_length : Z.of_nat (length (L H)) = n;
  b_count : Z.of_nat (length (P H)) = k;
  b_range : forall s, U s -> 0 <= s < n /\ 0 <= beta s < k /\ bld (L H) s = beta s;
  b_rings : forall g, 0 <= g < k -> exists r, NoDup r /\ (forall s, In s r <-> U s /\ beta s = g) /\ ring H g r
}.

Definition flags (H : Hopcroft) : list bool := map isInW (P H).

Lemma nodup_length r : NoDup r -> (forall s, In s r -> 0 <= s < n) -> Z.of_nat (length r) <= Z.max 0 n.
Proof.
  intros Hnd Hr. assert (H : (length r <= length (seqZ 0 n))%nat).
  { apply NoDup_incl_length; [by apply NoDup_ListNoDup|]. intros s Hs. apply list_elem_of_In, elem_of_seqZ. specialize (Hr s Hs). lia. }
  rewrite length_seqZ in H. lia.
Qed.

Lemma blocks_ext U U' H beta beta' k : (forall s, U s <-> U' s) -> (forall s, U s -> beta s = beta' s) -> blocks U H beta k -> blocks U' H beta' k.
Proof.
  intros HU Hb [B1 B2 B3 B4]. split; [done|done| |].
  - intros s Hs. apply HU in Hs. rewrite <- Hb by done. by apply B3.
  - intros g Hg. destruct (B4 g Hg) as (r & Hnd & Hr & Hring). exists r. split; [done|]. split; [|done]. intros s. rewrite Hr, <- HU. split; intros [H1 H2]; (split; [done|]).
    + by rewrite <- Hb.
    + by rewrite Hb.
Qed.

(** [s] at the front of a list that holds it. *)
Lemma rotate_to L r s : In s r -> cyc L r -> NoDup r -> exists l, cyc L (s :: l) /\ Permutation r (s :: l).
Proof.
  intros Hin Hc Hnd. apply in_split in Hin as (l1 & l2 & ->). exists (l2 ++ l1). apply cyc_rotate in Hc. split; [exact Hc|].
  rewrite (Permutation_app_comm l1). done.
Qed.

Lemma flags_insert P g b b' : rd P g = Ok b -> isInW b' = isInW b -> map isInW (<[Z.to_nat g := b']> P) = map isInW P.
Proof.
  intros Hr Hb. apply rd_Ok_inv in Hr as [Hg Hl]. rewrite list_fmap_insert. apply list_insert_id. rewrite list_lookup_fmap, Hl. cbn. by rewrite Hb.
Qed.

Lemma cyc_frame L L' r : (forall a, In a r -> nxt L' a = nxt L a /\ prv L' a = prv L a) -> cyc L r -> cyc L' r.
Proof.
  intros Hf Hc. destruct r as [|x r]; [done|]. cbn [cyc] in *. eapply path_frame; [| |exact Hc].
  - intros a Ha. rewrite removelast_last in Ha. by apply Hf.
  - intros b Hb. cbn [tail app] in Hb. apply Hf. apply in_app_or in Hb as [Hb|[<-|[]]]; [by right|by left].
Qed.

(** *** Taking a state out *)

Lemma del_links L s : 0 <= s < Z.of_nat (length L) -> 0 <= nxt L s < Z.of_nat (length L) -> 0 <= prv L s < Z.of_nat (length L) ->
  exists L1 L2, upd L (prev (el L s)) (set_next (next (el L s))) = Ok L1 /\ rd L1 s = Ok (el L1 s) /\
  upd L1 (next (el L1 s)) (set_prev (prev (el L1 s))) = Ok L2 /\ length L2 = length L /\
  (forall x, 0 <= x -> bld L2 x = bld L x /\ nxt L2 x = (if x =? prv L s then nxt L s else nxt L x) /\ prv L2 x = (if x =? nxt L s then prv L s else prv L x)).
Proof.
  intros Hs Hns Hps. fold (nxt L s) (prv L s). destruct (upd_el L (prv L s) (set_next (nxt L s)) Hps) as (L1 & E1 & Len1 & H1).
  assert (Hes : next (el L1 s) = nxt L s /\ prev (el L1 s) = prv L s). { rewrite H1 by lia. by destruct (Z.eqb_spec s (prv L s)). }
  destruct Hes as [En Ep]. destruct (upd_el L1 (next (el L1 s)) (set_prev (prev (el L1 s)))) as (L2 & E2 & Len2 & H2); [rewrite En; lia|].
  exists L1, L2. split; [done|]. split; [apply rd_el; lia|]. split; [done|]. split; [lia|]. intros x Hx. unfold bld. change (nxt L2 x) with (next (el L2 x)). change (prv L2 x) with (prev (el L2 x)). rewrite H2, En, Ep, H1 by done.
  by destruct (x =? nxt L s), (x =? prv L s).
Qed.

Lemma cyc_del L L2 s l : NoDup (s :: l) -> cyc L (s :: l) -> (forall x, In x l -> 0 <= x) ->
  (forall x, 0 <= x -> nxt L2 x = (if x =? prv L s then nxt L s else nxt L x) /\ prv L2 x = (if x =? nxt L s then prv L s else prv L x)) -> cyc L2 l.
Proof.
  intros Hnd Hc Hpos HL. destruct l as [|x l]; [done|]. destruct (cyc_last L s (x :: l) Hc) as (l0 & t & E & [Hts1 Hts2] & _).
  destruct l0 as [|s' l0]; [cbn in E; congruence|]. cbn [app] in E. injection E as <- E. cbn [cyc app path] in Hc. destruct Hc as [[Hsx1 Hsx2] Hc].
  cbn [cyc]. rewrite E. rewrite <- app_assoc. cbn [app]. apply list.NoDup_cons in Hnd as [Hsn Hnd]. rewrite E in Hnd. apply path_app. split.
  - rewrite <- E. eapply path_frame; [| |exact (path_snoc L (x :: l) s Hc)].
    + intros a Ha. rewrite E, removelast_last in Ha. assert (In a (x :: l)) by (rewrite E; apply in_or_app; by left).
      destruct (HL a) as [-> _]; [by apply Hpos|]. rewrite Hts2. destruct (Z.eqb_spec a t) as [->|]; [|done]. apply list.NoDup_app in Hnd as (_ & Hd & _). exfalso. eapply Hd; [by apply list_elem_of_In|by left].
    + intros b Hb. cbn [tail] in Hb. destruct (HL b) as [_ ->]; [apply Hpos; by right|]. rewrite Hsx1. destruct (Z.eqb_spec b x) as [->|]; [|done].
      rewrite <- E in Hnd. apply list.NoDup_cons in Hnd as [Hd _]. by apply list_elem_of_In in Hb.
  - cbn [path]. split; [|done]. assert (In t (x :: l)) by (rewrite E; apply in_or_app; right; by left). split.
    + destruct (HL t) as [-> _]; [by apply Hpos|]. by rewrite Hts2, Z.eqb_refl, Hsx1.
    + destruct (HL x) as [_ ->]; [apply Hpos; by left|]. by rewrite Hsx1, Z.eqb_refl, Hts2.
Qed.

Lemma cyc_in L r a : cyc L r -> In a r -> In (nxt L a) r /\ In (prv L a) r.
Proof.
  intros Hc Ha. apply in_split in Ha as (l1 & l2 & ->). assert (Hc' := cyc_rotate L l1 (a :: l2) Hc). cbn [app] in Hc'.
  assert (HP : forall x, In x (a :: l2 ++ l1) -> In x (l1 ++ a :: l2)). { intros x [->|Hx]; apply in_or_app; [right; by left|]. apply in_app_or in Hx as [Hx|Hx]; [right; by right|by left]. }
  split; apply HP.
  - cbn [cyc] in Hc'. destruct (l2 ++ l1) as [|y l]; cbn [app path] in Hc'; destruct Hc' as [[-> _] _]; [by left|right; by left].
  - destruct (cyc_last L a _ Hc') as (l0 & t & E & [_ ->] & _). rewrite E. apply in_or_app. right. by left.
Qed.

Lemma head_change (P : list Block) g b f (c : bool) : rd P g = Ok b -> exists P', (if c then upd P g f else Ok P) = Ok P' /\ rd P' g = Ok (if c then f b else b) /\
  length P' = length P /\ forall b', <[Z.to_nat g := b']> P' = <[Z.to_nat g := b']> P.
Proof.
  intros Hb. pose proof (rd_range _ _ _ Hb) as Hg. destruct c; [|by exists P]. rewrite (upd_rd _ _ _ _ Hb). eexists. split; [done|].
  split; [rewrite insert_rd by lia; by rewrite Z.eqb_refl|]. split; [apply length_insert|]. intros b'. apply list_insert_insert_eq.
Qed.

(** The other blocks do not change. *)
Lemma ring_other H H' g g' r b : ring H g' r -> g' <> g -> 0 <= g < Z.of_nat (length (P H)) -> 0 <= g' -> P H' = <[Z.to_nat g := b]> (P H) ->
  (forall a, In a r -> nxt (L H') a = nxt (L H) a /\ prv (L H') a = prv (L H) a) -> ring H' g' r.
Proof.
  intros (b0 & Hb & Hl & Hh & Hc) Hne Hg Hg' HP Hf. exists b0. rewrite HP, insert_rd by lia. rewrite (proj2 (Z.eqb_neq g' g)) by done. split; [done|]. split; [done|]. split; [done|].
  by apply (cyc_frame (L H)).
Qed.

Lemma del_ok U H beta k g s : blocks U H beta k -> U s -> beta s = g -> exists H',
  del H g s = Ok H' /\ blocks (fun x => U x /\ x <> s) H' beta k /\ flags H' = flags H.
Proof.
  intros [B1 B2 B3 B4] Hs Hg. destruct (B3 s Hs) as (Hsn & Hgk & Hbs). rewrite Hg in Hgk, Hbs. destruct (B4 g Hgk) as (r & Hnd & Hr & b & Hb & Hlen & Hhd & Hc).
  assert (Hsr : In s r) by (by apply Hr). destruct (rotate_to (L H) r s Hsr Hc Hnd) as (l & Hcl & Hperm).
  assert (Hrange : forall x, In x r -> 0 <= x < n) by (intros x Hx; apply Hr in Hx as [Hx _]; by apply B3).
  destruct (cyc_in (L H) r s Hc Hsr) as [Hnin Hpin]. pose proof (Hrange _ Hnin) as Hnr. pose proof (Hrange _ Hpin) as Hpr.
  destruct (del_links (L H) s) as (L1 & L2 & E1 & E2 & E3 & Len2 & HL); [lia..|]. rewrite Hperm in Hlen. cbn [length] in Hlen.
  assert (Hrn : Z.of_nat (length r) <= Z.max 0 n) by (by apply nodup_length). rewrite Hperm in Hrn. cbn [length] in Hrn.
  assert (Hnd' : NoDup (s :: l)) by (by rewrite <- Hperm). assert (Hin : forall x, In x r <-> x = s \/ In x l). { intros x. rewrite <- !list_elem_of_In, Hperm, elem_of_cons. done. }
  destruct (head_change (P H) g b (set_head (next (el (L H) s))) (head b =? s) Hb) as (P1 & EP & Hb1 & LenP & HP1).
  set (b1 := if head b =? s then _ else b) in *. assert (Hb1' : blen b1 = blen b /\ isInW b1 = isInW b) by (unfold b1; by destruct (_ =? _)). destruct Hb1' as [Hbl Hbw].
  exists (MkHopcroft L2 (<[Z.to_nat g := add_blen (-1) b1]> (P H))). pose proof (rd_range _ _ _ Hb) as Hgl. split; [|split].
  - unfold del. rewrite rd_el by lia. cbn [rbind]. rewrite Hb. cbn [rbind]. unfold bld in Hbs. rewrite Hbs, Z.eqb_refl. cbn [assert_ rbind]. rewrite (proj2 (Z.leb_le 1 _)) by lia. cbn [assert_ rbind].
    rewrite EP. cbn [rbind]. rewrite (upd_rd _ _ _ _ Hb1). cbn [rbind]. rewrite E1. cbn [rbind]. rewrite E2. cbn [rbind]. rewrite E3. cbn [rbind]. by rewrite HP1.
  - split; cbn [L P]; [lia|by rewrite length_insert|intros x [Hx _]; destruct (B3 x Hx) as (? & ? & Hxb); split; [done|]; split; [done|]; destruct (HL x ltac:(lia)) as [-> _]; done|].
    intros g' Hg'. destruct (decide (g' = g)) as [->|Hne].
    + exists l. apply list.NoDup_cons in Hnd' as [Hnin' Hndl]. split; [done|]. split.
      * intros x. split; [intros Hx; assert (In x r) as Hxr by (apply Hin; by right); apply Hr in Hxr as [? ?]; split; [split; [done|]|done]; intros ->; by apply list_elem_of_In in Hx|].
        intros [[Hx1 Hx2] Hx3]. assert (In x r) as Hxr by (by apply Hr). apply Hin in Hxr as [->|]; done.
      * exists (add_blen (-1) b1). cbn [P L]. rewrite insert_rd, Z.eqb_refl by lia. split; [done|]. cbn [blen add_blen]. split; [rewrite Hbl, Hlen; unfold u31; rewrite Z.mod_small by lia; lia|]. split.
        -- intros Hne. cbn [head add_blen]. unfold b1. destruct (Z.eqb_spec (head b) s) as [Heq|Hneq].
           ++ cbn [set_head head]. fold (nxt (L H) s). apply Hin in Hnin as [Heq'|]; [|done]. destruct l as [|y l]; [done|]. cbn [cyc app path] in Hcl. destruct Hcl as [[Hy _] _]. rewrite Hy. by left.
           ++ assert (In (head b) r) as Hh by (apply Hhd; intros ->; done). by apply Hin in Hh as [|].
        -- apply (cyc_del (L H) L2 s l); [by apply list.NoDup_cons|done| |intros x Hx; apply HL; lia]. intros x Hx. apply Hrange, Hin. by right.
    + destruct (B4 g' Hg') as (r' & Hnd2 & Hr' & Hring). exists r'. split; [done|]. split.
      * intros x. rewrite Hr'. split; [intros [? ?]; split; [|done]; split; [done|congruence]|tauto].
      * eapply ring_other; [exact Hring|exact Hne|lia|lia|done|]. cbn [L]. intros a Ha. apply Hr' in Ha as [Ha1 Ha2]. destruct (B3 a Ha1) as (Han & _). destruct (HL a ltac:(lia)) as (_ & -> & ->).
        assert (forall y, In y r -> a <> y) as Hay by (intros y Hy ->; apply Hr in Hy as [_ Hy]; congruence).
        rewrite (proj2 (Z.eqb_neq a _)) by (by apply Hay). by rewrite (proj2 (Z.eqb_neq a _)) by (by apply Hay).
  - unfold flags. cbn [P]. apply (flags_insert _ _ b); [done|]. cbn. done.
Qed.

(** *** Putting a state in *)

Definition becomes (beta : Z -> Z) (s g x : Z) : Z := if x =? s then g else beta x.

(** The links after [add]; [h] is the first, [t] the last element. *)
Lemma add_links L s h t g : 0 <= s < Z.of_nat (length L) -> 0 <= h < Z.of_nat (length L) -> 0 <= t < Z.of_nat (length L) -> s <> h -> s <> t ->
  exists L1 L2 L3 L4 L5, upd L s (set_next h) = Ok L1 /\ upd L1 s (set_prev t) = Ok L2 /\ upd L2 h (set_prev s) = Ok L3 /\ upd L3 t (set_next s) = Ok L4 /\
  upd L4 s (set_blid g) = Ok L5 /\ length L5 = length L /\
  forall x, 0 <= x -> bld L5 x = (if x =? s then g else bld L x) /\
    nxt L5 x = (if x =? s then h else if x =? t then s else nxt L x) /\ prv L5 x = (if x =? s then t else if x =? h then s else prv L x).
Proof.
  intros Hs Hh Ht Hsh Hst. destruct (upd_el L s (set_next h) Hs) as (L1 & E1 & N1 & H1). destruct (upd_el L1 s (set_prev t)) as (L2 & E2 & N2 & H2); [lia|].
  destruct (upd_el L2 h (set_prev s)) as (L3 & E3 & N3 & H3); [lia|]. destruct (upd_el L3 t (set_next s)) as (L4 & E4 & N4 & H4); [lia|].
  destruct (upd_el L4 s (set_blid g)) as (L5 & E5 & N5 & H5); [lia|]. exists L1, L2, L3, L4, L5. do 5 (split; [done|]). split; [lia|].
  intros x Hx. unfold bld, nxt, prv. rewrite H5, H4, H3, H2, H1 by done.
  destruct (Z.eqb_spec x s) as [->|]; [rewrite (proj2 (Z.eqb_neq s t)), (proj2 (Z.eqb_neq s h)) by done; done|]. by destruct (x =? t), (x =? h).
Qed.

Lemma add_single L s g : 0 <= s < Z.of_nat (length L) -> exists L1 L2 L3, upd L s (set_next s) = Ok L1 /\ upd L1 s (set_prev s) = Ok L2 /\
  upd L2 s (set_blid g) = Ok L3 /\ length L3 = length L /\
  forall x, 0 <= x -> bld L3 x = (if x =? s then g else bld L x) /\ nxt L3 x = (if x =? s then s else nxt L x) /\ prv L3 x = (if x =? s then s else prv L x).
Proof.
  intros Hs. destruct (upd_el L s (set_next s) Hs) as (L1 & E1 & N1 & H1). destruct (upd_el L1 s (set_prev s)) as (L2 & E2 & N2 & H2); [lia|].
  destruct (upd_el L2 s (set_blid g)) as (L3 & E3 & N3 & H3); [lia|]. exists L1, L2, L3. do 3 (split; [done|]). split; [lia|].
  intros x Hx. unfold bld, nxt, prv. rewrite H3, H2, H1 by done. by destruct (x =? s).
Qed.

Lemma cyc_add L L5 s h l : NoDup (h :: l) -> ~ In s (h :: l) -> cyc L (h :: l) -> (forall x, In x (h :: l) -> 0 <= x) -> 0 <= s ->
  (forall x, 0 <= x -> nxt L5 x = (if x =? s then h else if x =? prv L h then s else nxt L x) /\ prv L5 x = (if x =? s then prv L h else if x =? h then s else prv L x)) ->
  cyc L5 (h :: l ++ [s]).
Proof.
  intros Hnd Hsn Hc Hpos Hs HL. destruct (cyc_last L h l Hc) as (l0 & t & E & [Ht1 Ht2] & _). rewrite Ht2 in HL.
  assert (Ht : In t (h :: l)) by (rewrite E; apply in_or_app; right; by left).
  assert (Hns : forall x, In x (h :: l) -> (x =? s) = false) by (intros x Hx; apply Z.eqb_neq; by intros ->).
  cbn [cyc]. change (path L5 (((h :: l) ++ [s]) ++ [h])). rewrite E, <- !app_assoc. cbn [app]. apply path_app. split.
  - rewrite <- E. eapply path_frame; [| |exact (path_snoc L (h :: l) h Hc)].
    + intros a Ha. assert (In a (h :: l)) as Hin by (rewrite E in Ha |- *; rewrite removelast_last in Ha; apply in_or_app; by left). destruct (HL a (Hpos a Hin)) as [-> _]. rewrite Hns by done.
      destruct (Z.eqb_spec a t) as [->|]; [|done]. rewrite E, removelast_last in Ha. rewrite E in Hnd. apply list.NoDup_app in Hnd as (_ & Hd & _). exfalso. eapply Hd; [by apply list_elem_of_In|by left].
    + intros b Hb. cbn [tail] in Hb. destruct (HL b (Hpos b (or_intror Hb))) as [_ ->]. rewrite Hns by (by right). destruct (Z.eqb_spec b h) as [->|]; [|done].
      apply list.NoDup_cons in Hnd as [Hd _]. by apply list_elem_of_In in Hb.
  - cbn [path]. split; [|split; [|done]].
    + split; [destruct (HL t (Hpos t Ht)) as [-> _]; by rewrite Hns, Z.eqb_refl|destruct (HL s Hs) as [_ ->]; by rewrite Z.eqb_refl].
    + split; [destruct (HL s Hs) as [-> _]; by rewrite Z.eqb_refl|destruct (HL h (Hpos h (or_introl eq_refl))) as [_ ->]; rewrite Hns by (by left); by rewrite Z.eqb_refl].
Qed.

Lemma add_ok U H beta k g s : blocks U H beta k -> ~ U s -> 0 <= s < n -> 0 <= g < k -> exists H',
  add H g s = Ok H' /\ blocks (fun x => U x \/ x = s) H' (becomes beta s g) k /\ flags H' = flags H.
Proof.
  intros [B1 B2 B3 B4] Hs Hsn Hg. destruct (B4 g Hg) as (r & Hnd & Hr & b & Hb & Hlen & Hhd & Hc). pose proof (rd_range _ _ _ Hb) as Hgl.
  assert (Hsr : ~ In s r) by (intros Hx; by apply Hr in Hx as [? _]). assert (Hrange : forall x, In x r -> 0 <= x < n) by (intros x Hx; apply Hr in Hx as [Hx _]; by apply B3).
  assert (Hrn : Z.of_nat (length (s :: r)) <= Z.max 0 n). { apply nodup_length; [apply list.NoDup_cons; split; [by rewrite list_elem_of_In|done]|]. intros x [<-|Hx]; [done|by apply Hrange]. }
  cbn [length] in Hrn.
  assert (Hmain : exists L5 b1 r', (let* b := rd (P H) g in let* (L, P) := (if blen b =? 0 then let* P := upd (P H) g (set_head s) in let* L := upd (L H) s (set_next s) in let* L := upd L s (set_prev s) in Ok (L, P)
      else let h := head b in let* e := rd (L H) h in let t := prev e in let* L := upd (L H) s (set_next h) in let* L := upd L s (set_prev t) in let* L := upd L h (set_prev s) in
        let* L := upd L t (set_next s) in Ok (L, Hopcroft.P H)) in let* P := upd P g (add_blen 1) in let* L := upd L s (set_blid g) in Ok (MkHopcroft L P)) =
      Ok (MkHopcroft L5 (<[Z.to_nat g := b1]> (P H))) /\ length L5 = length (L H) /\ (forall x, 0 <= x -> bld L5 x = if x =? s then g else bld (L H) x) /\
      (forall x, 0 <= x -> x <> s -> ~ In x r -> nxt L5 x = nxt (L H) x /\ prv L5 x = prv (L H) x) /\
      NoDup r' /\ (forall x, In x r' <-> x = s \/ In x r) /\ blen b1 = Z.of_nat (length r') /\ isInW b1 = isInW b /\ In (head b1) r' /\ cyc L5 r').
  { rewrite Hb. cbn [rbind]. destruct (Z.eqb_spec (blen b) 0) as [E0|E0].
    - assert (r = []) as -> by (destruct r; cbn in *; lia || done). destruct (add_single (L H) s g) as (L1 & L2 & L3 & E1 & E2 & E3 & N3 & HL); [lia|].
      destruct (head_change (P H) g b (set_head s) true Hb) as (P1 & EP & Hb1 & LenP & HP1). exists L3, (add_blen 1 (set_head s b)), [s].
      rewrite EP. cbn [rbind]. rewrite E1. cbn [rbind]. rewrite E2. cbn [rbind]. rewrite (upd_rd _ _ _ _ Hb1). cbn [rbind]. rewrite E3. cbn [rbind]. rewrite HP1. split; [done|]. split; [done|].
      split; [intros x Hx; by destruct (HL x Hx) as [-> _]|]. split; [intros x Hx Hne _; destruct (HL x Hx) as (_ & -> & ->); by rewrite (proj2 (Z.eqb_neq x s))|].
      split; [apply NoDup_singleton|]. split; [intros x; cbn; intuition|]. cbn [blen isInW head add_blen set_head length]. rewrite E0. split; [done|]. split; [done|]. split; [by left|].
      cbn [cyc app path]. split; [|done]. destruct (HL s ltac:(lia)) as (_ & HL1 & HL2). rewrite Z.eqb_refl in *. done.
    - assert (Hh : In (head b) r) by (apply Hhd; intros ->; cbn in *; lia). destruct (rotate_to (L H) r (head b) Hh Hc Hnd) as (l & Hcl & Hperm).
      destruct (cyc_in (L H) r (head b) Hc Hh) as [_ Ht]. pose proof (Hrange _ Hh) as Hhr. pose proof (Hrange _ Ht) as Htr.
      assert (Hin : forall x, In x r <-> In x (head b :: l)). { intros x. by rewrite <- !list_elem_of_In, Hperm. }
      destruct (add_links (L H) s (head b) (prv (L H) (head b)) g) as (L1 & L2 & L3 & L4 & L5 & E1 & E2 & E3 & E4 & E5 & N5 & HL); [lia..|by intros ->|by intros ->|].
      exists L5, (add_blen 1 b), (head b :: l ++ [s]). cbv zeta. rewrite rd_el by lia. cbn [rbind]. fold (prv (L H) (head b)). rewrite E1. cbn [rbind]. rewrite E2. cbn [rbind]. rewrite E3. cbn [rbind]. rewrite E4. cbn [rbind].
      rewrite (upd_rd _ _ _ _ Hb). cbn [rbind]. rewrite E5. cbn [rbind]. split; [done|]. split; [done|]. split; [intros x Hx; by destruct (HL x Hx) as [-> _]|].
      split. { intros x Hx Hne Hnr. destruct (HL x Hx) as (_ & -> & ->). rewrite (proj2 (Z.eqb_neq x s)) by done. rewrite (proj2 (Z.eqb_neq x (head b))) by (by intros ->). by rewrite (proj2 (Z.eqb_neq x _)) by (by intros ->). }
      split. { change (head b :: l ++ [s]) with ((head b :: l) ++ [s]). apply list.NoDup_app. split; [by rewrite <- Hperm|]. split; [|apply NoDup_singleton]. intros x Hx. rewrite <- Hperm, list_elem_of_In in Hx. intros ->%list_elem_of_singleton. done. }
      split. { intros x. rewrite Hin. change (head b :: l ++ [s]) with ((head b :: l) ++ [s]). rewrite in_app_iff. cbn [In]. intuition. }
      rewrite Hperm in Hlen, Hrn. cbn [length] in *. cbn [blen add_blen isInW head]. rewrite length_app. cbn [length]. split; [unfold u31; rewrite Z.mod_small by lia; lia|]. split; [done|]. split; [by left|].
      apply (cyc_add (L H)); [by rewrite <- Hperm|by rewrite <- Hin|done|intros x Hx; apply Hin in Hx; by apply Hrange|lia|]. intros x Hx. by destruct (HL x Hx) as [_ ?]. }
  destruct Hmain as (L5 & b1 & r' & E & N5 & Hbl & Hfr & Hnd' & Hin & Hlen1 & Hw1 & Hhd1 & Hc1). eexists. split; [exact E|]. split.
  - split; cbn [L P]; [lia|by rewrite length_insert| |].
    + intros x Hx. unfold becomes. assert (Hxn : 0 <= x < n) by (destruct Hx as [Hx|Hx]; [by apply B3|lia]). split; [done|]. rewrite Hbl by lia. destruct (Z.eqb_spec x s) as [->|Hne]; [done|].
      destruct Hx as [Hx|]; [|done]. by apply B3.
    + intros g' Hg'. destruct (decide (g' = g)) as [->|Hne].
      * exists r'. split; [done|]. split.
        -- intros x. rewrite Hin, Hr. unfold becomes. destruct (Z.eqb_spec x s) as [->|]; [tauto|]. intuition congruence.
        -- exists b1. cbn [P L]. rewrite insert_rd, Z.eqb_refl by lia. done.
      * destruct (B4 g' Hg') as (r2 & Hnd2 & Hr2 & Hring). exists r2. split; [done|]. assert (Hsr2 : ~ In s r2) by (intros Hx; by apply Hr2 in Hx as [? _]). split.
        -- intros x. rewrite Hr2. unfold becomes. destruct (Z.eqb_spec x s) as [->|]; [intuition congruence|]. intuition congruence.
        -- eapply ring_other; [exact Hring|exact Hne|lia|lia|done|]. cbn [L]. intros a Ha. pose proof Ha as Ha'. apply Hr2 in Ha as [Ha1 Ha2]. destruct (B3 a Ha1) as (Han & _). apply Hfr; [lia|by intros ->|].
           intros Har. apply Hr in Har as [_ Har]. congruence.
  - unfold flags. cbn [P]. by apply (flags_insert _ _ b).
Qed.

(** A state goes from one block to another. *)
Lemma move_ok U H beta k g g' s : blocks U H beta k -> U s -> beta s = g -> 0 <= g' < k -> exists H1 H2,
  del H g s = Ok H1 /\ add H1 g' s = Ok H2 /\ blocks U H2 (becomes beta s g') k /\ flags H2 = flags H.
Proof.
  intros Hb Hs Hg Hg'. destruct (del_ok U H beta k g s Hb Hs Hg) as (H1 & E1 & Hb1 & F1). destruct (b_range _ _ _ _ Hb s Hs) as (Hsn & _).
  destruct (add_ok _ H1 beta k g' s Hb1) as (H2 & E2 & Hb2 & F2); [tauto|done|done|]. exists H1, H2. split; [done|]. split; [done|]. split; [|congruence].
  eapply blocks_ext; [| |exact Hb2]; [|done]. intros x. destruct (decide (x = s)) as [->|]; tauto.
Qed.

(** ** Going round a block *)

Lemma ring_loop_ok {S} (Hof : S -> Hopcroft) body (I : list Z -> S -> Prop) L0 h l fuel st : cyc L0 (h :: l) -> NoDup (h :: l) ->
  (forall x, In x (h :: l) -> 0 <= x < Z.of_nat (length L0)) -> (length (h :: l) < fuel)%nat -> I [] st ->
  (forall v x st, In x (h :: l) -> I v st -> exists st', body x st = Ok st' /\ I (v ++ [x]) st' /\ length (L (Hof st')) = length L0 /\ nxt (L (Hof st')) x = nxt L0 x) ->
  exists st', ring_loop Hof body fuel h st = Ok st' /\ I (h :: l) st'.
Proof.
  intros Hc Hnd Hr Hf H0 Hstep. unfold ring_loop.
  assert (G : forall rest v x st fuel, h :: l = v ++ x :: rest -> I v st -> (length rest < fuel)%nat -> exists st',
    loop fuel (fun '(s, st) => let* st := body s st in let* e := rd (L (Hof st)) s in Ok (if next e =? h then inr st else inl (next e, st))) (x, st) = Ok st' /\ I (h :: l) st').
  { clear st fuel Hf H0. induction rest as [|y rest IH]; intros v x st fuel E HI Hf; (destruct fuel as [|fuel]; [lia|]); cbn [loop].
    - assert (Hx : In x (h :: l)) by (rewrite E; apply in_or_app; right; by left). destruct (Hstep v x st Hx HI) as (st' & -> & HI' & Hlen & Hnx). cbn [rbind].
      rewrite rd_el by (rewrite Hlen; by apply Hr). cbn [rbind]. fold (nxt (L (Hof st')) x). rewrite Hnx.
      assert (nxt L0 x = h) as ->. { assert (Hp : path L0 ((h :: l) ++ [h])) by exact Hc. rewrite E, <- app_assoc in Hp. cbn [app] in Hp. by apply path_app in Hp as [_ [[Hp _] _]]. }
      rewrite Z.eqb_refl. exists st'. by rewrite E.
    - assert (Hx : In x (h :: l)) by (rewrite E; apply in_or_app; right; by left). destruct (Hstep v x st Hx HI) as (st' & -> & HI' & Hlen & Hnx). cbn [rbind].
      rewrite rd_el by (rewrite Hlen; by apply Hr). cbn [rbind]. fold (nxt (L (Hof st')) x). rewrite Hnx.
      assert (nxt L0 x = y) as ->. { assert (Hp : path L0 ((h :: l) ++ [h])) by exact Hc. rewrite E, <- app_assoc in Hp. cbn [app] in Hp. by apply path_app in Hp as [_ [[Hp _] _]]. }
      assert (Hyh : y <> h). { intros ->. destruct v as [|z v]; cbn [app] in E; injection E as E1 E2.
        - rewrite E2 in Hnd. apply list.NoDup_cons in Hnd as [Hd _]. apply Hd. by left.
        - rewrite E2 in Hnd. apply list.NoDup_cons in Hnd as [Hd _]. apply Hd, elem_of_app. right. right. by left. }
      rewrite (proj2 (Z.eqb_neq y h)) by done. apply (IH (v ++ [x]) y st' fuel); [by rewrite <- app_assoc|done|cbn in Hf; lia]. }
  apply (G l [] h st fuel); [done|done|cbn in Hf; lia].
Qed.

Lemma fix_blid_ok H g r : ring H g r -> r <> [] -> NoDup r -> (forall x, In x r -> 0 <= x < Z.of_nat (length (L H))) -> exists L',
  fix_blid H g = Ok (MkHopcroft L' (P H)) /\ length L' = length (L H) /\
  forall x, 0 <= x -> nxt L' x = nxt (L H) x /\ prv L' x = prv (L H) x /\ (In x r -> bld L' x = g) /\ (~ In x r -> bld L' x = bld (L H) x).
Proof.
  intros (b & Hb & Hlen & Hh & Hc) Hne Hnd Hr. destruct (rotate_to (L H) r (head b) (Hh Hne) Hc Hnd) as (l & Hcl & Hperm).
  assert (Hin : forall x, In x r <-> In x (head b :: l)). { intros x. by rewrite <- !list_elem_of_In, Hperm. }
  unfold fix_blid. rewrite Hb. cbn [rbind].
  destruct (ring_loop_ok id (fun s H => let* L := upd (L H) s (set_blid g) in Ok (MkHopcroft L (P H)))
    (fun v H' => P H' = P H /\ length (L H') = length (L H) /\ forall x, 0 <= x -> nxt (L H') x = nxt (L H) x /\ prv (L H') x = prv (L H) x /\
      (In x v -> bld (L H') x = g) /\ (~ In x v -> bld (L H') x = bld (L H) x)) (L H) (head b) l (S (length (L H))) H) as ([L' P'] & E & HP & HL & HI).
  - done.
  - by rewrite <- Hperm.
  - intros x Hx. apply Hr. by apply Hin.
  - assert (H1 : Z.of_nat (length r) <= Z.max 0 (Z.of_nat (length (L H)))).
    { assert (H1 : (length r <= length (seqZ 0 (Z.of_nat (length (L H)))))%nat). { apply NoDup_incl_length; [by apply NoDup_ListNoDup|]. intros x Hx. apply list_elem_of_In, elem_of_seqZ. specialize (Hr x Hx). lia. }
      rewrite length_seqZ in H1. lia. }
    rewrite Hperm in H1. lia.
  - split; [done|]. split; [done|]. intros x Hx. split; [done|]. split; [done|]. split; [by intros []|done].
  - intros v x [L1 P1] Hx (HP1 & HL1 & HI1). cbn [P L] in *. destruct (upd_el L1 x (set_blid g)) as (L2 & E2 & N2 & H2); [rewrite HL1; by apply Hr, Hin|].
    rewrite E2. cbn [rbind]. eexists. split; [done|]. cbn [P L id]. assert (0 <= x) by (apply Hin, Hr in Hx; lia). split; [|split; [lia|]].
    + split; [done|]. split; [lia|]. intros y Hy. destruct (HI1 y Hy) as (I1 & I2 & I3 & I4). unfold nxt, prv, bld in *. rewrite H2 by done. destruct (Z.eqb_spec y x) as [->|Hne'].
      * split; [done|]. split; [done|]. split; [done|]. intros Hn'. exfalso. apply Hn', in_or_app. right. by left.
      * split; [done|]. split; [done|]. split; [intros [Hi|[->|[]]]%in_app_or; [by apply I3|done]|]. intros Hn'. apply I4. intros Hi. apply Hn', in_or_app. by left.
    + unfold nxt in *. rewrite H2, Z.eqb_refl by done. by destruct (HI1 x ltac:(done)) as (? & _).
  - cbn [P L] in *. subst P'. exists L'. split; [exact E|]. split; [done|]. intros x Hx. rewrite !Hin. by apply HI.
Qed.
(** ** Exchanging two blocks *)

Lemma swap_ok H a b : 0 <= a < Z.of_nat (length (P H)) -> 0 <= b < Z.of_nat (length (P H)) -> exists P',
  swap_blocks H a b = Ok (MkHopcroft (L H) P') /\ length P' = length (P H) /\ (forall g, 0 <= g -> rd P' g = if g =? b then rd (P H) a else if g =? a then rd (P H) b else rd (P H) g).
Proof.
  intros Ha Hb. destruct (lookup_lt_is_Some_2 (P H) (Z.to_nat a)) as [x Hx]; [lia|]. destruct (lookup_lt_is_Some_2 (P H) (Z.to_nat b)) as [y Hy]; [lia|].
  unfold swap_blocks. rewrite (rd_ok _ a x), (rd_ok _ b y) by (lia || done). cbn [rbind]. rewrite wr_ok by lia. cbn [rbind]. rewrite wr_ok by (rewrite length_insert; lia). cbn [rbind].
  eexists. split; [done|]. split; [by rewrite !length_insert|]. intros g Hg. rewrite !insert_rd by (rewrite ?length_insert; lia). done.
Qed.

Lemma ring_swap H H' g g' r : ring H g r -> rd (P H') g' = rd (P H) g -> (forall a, In a r -> nxt (L H') a = nxt (L H) a /\ prv (L H') a = prv (L H) a) -> ring H' g' r.
Proof. intros (b & Hb & Hl & Hh & Hc) HP Hf. exists b. rewrite HP. split; [done|]. split; [done|]. split; [done|]. by apply (cyc_frame (L H)). Qed.

End blocks.
End HopcroftList.
