(* ===== verification/SplitterMap.v ===== *)
(** * The splitters of [Hopcroft] as an association list

    The map from characters to splitters, in the order in which the characters came. *)
From S2P Require Import Prelude Dfa SmallMap Hopcroft.
Import Dfa Hopcroft.

Module SplitterMap.

Definition nothing : Splitter := MkSplitter [] (-1).

Record holds (m : splitters) (l : list (Z * list Z)) : Prop := {
  h_c : SmallMap.c m = sigma;
  h_index : Z.of_nat (length (SmallMap.index m)) = sigma;
  h_p : Z.of_nat (length (SmallMap.p m)) = sigma;
  h_n : SmallMap.n m = Z.of_nat (length l);
  h_keys : NoDup (map fst l);
  h_range : forall k, In k (map fst l) -> 0 <= k < sigma;
  h_in : forall i k es, l !! i = Some (k, es) -> SmallMap.p m !! i = Some (MkSplitter es k) /\ rd (SmallMap.index m) k = Ok (Z.of_nat i);
  h_out : forall k, 0 <= k < sigma -> ~ In k (map fst l) -> rd (SmallMap.index m) k = Ok (-1);
  h_rest : forall i, (length l <= i)%nat -> (i < length (SmallMap.p m))%nat -> SmallMap.p m !! i = Some nothing
}.

(** What [insert] does to the list. *)
Fixpoint ins (c s : Z) (l : list (Z * list Z)) : list (Z * list Z) :=
  match l with [] => [(c, [s])] | (c', es) :: l => if c' =? c then (c', es ++ [s]) :: l else (c', es) :: ins c s l end.

Lemma ins_fresh c s l : ~ In c (map fst l) -> ins c s l = l ++ [(c, [s])].
Proof.
  induction l as [|[c' es] l IH]; intros Hn; [done|]. cbn [ins map fst In app] in *. destruct (Z.eqb_spec c' c) as [->|]; [tauto|]. rewrite IH by tauto. done.
Qed.

Lemma ins_found c s l i es : NoDup (map fst l) -> l !! i = Some (c, es) -> ins c s l = <[i := (c, es ++ [s])]> l.
Proof.
  revert i. induction l as [|[c' es'] l IH]; intros i Hnd Hi; [done|]. cbn [map fst] in Hnd. apply list.NoDup_cons in Hnd as [Hn Hnd]. destruct i as [|i]; cbn [lookup list_lookup] in Hi.
  - injection Hi as -> ->. cbn. by rewrite Z.eqb_refl.
  - cbn [ins]. destruct (Z.eqb_spec c' c) as [->|]; [|rewrite (IH i) by done; done]. exfalso. apply Hn. apply list_elem_of_fmap. exists (c, es). split; [done|]. by eapply list_elem_of_lookup_2.
Qed.

Lemma key_found c (l : list (Z * list Z)) : In c (map fst l) -> exists (i : nat) es, l !! i = Some (c, es).
Proof. intros Hc. apply list_elem_of_In, list_elem_of_fmap in Hc as ([c' es] & -> & Hin). apply list_elem_of_lookup_1 in Hin as [i Hi]. eauto. Qed.

Lemma keys_bound (ks : list Z) : NoDup ks -> (forall k, In k ks -> 0 <= k < sigma) -> (length ks <= 512)%nat.
Proof.
  intros Hnd Hr. change 512%nat with (length (seqZ 0 sigma)). apply NoDup_incl_length; [by apply NoDup_ListNoDup|]. intros k Hk. apply list_elem_of_In, elem_of_seqZ. specialize (Hr k Hk). lia.
Qed.

Lemma make_holds : holds (SmallMap.make sigma) [].
Proof.
  split; try done.
  - constructor.
  - intros k Hk _. cbn [SmallMap.make SmallMap.index]. apply rd_ok; [lia|]. apply lookup_replicate. split; [done|]. lia.
  - intros i _ Hi. cbn [SmallMap.make SmallMap.p] in *. rewrite length_replicate in Hi. by apply lookup_replicate.
Qed.

Lemma set_holds m l i k es es' : holds m l -> l !! i = Some (k, es) -> exists m', SmallMap.set_idx m (Z.of_nat i) (MkSplitter es' k) = Ok m' /\ holds m' (<[i := (k, es')]> l) /\ SmallMap.n m' = SmallMap.n m.
Proof.
  intros [C1 C2 C3 C4 C5 C6 C7 C8 C9] Hi. pose proof (lookup_lt_Some _ _ _ Hi) as Hil. destruct (C7 i k es Hi) as [Hp Hx]. pose proof (lookup_lt_Some _ _ _ Hp) as Hip.
  unfold SmallMap.set_idx. rewrite wr_ok by lia. cbn [rbind]. eexists. split; [done|].
  assert (Hk : map fst (<[i:=(k, es')]> l) = map fst l). { rewrite list_fmap_insert. cbn. apply list_insert_id. by rewrite list_lookup_fmap, Hi. }
  split; [|done]. split; cbn [SmallMap.c SmallMap.index SmallMap.p SmallMap.n]; try done.
  - by rewrite length_insert.
  - by rewrite length_insert.
  - by rewrite Hk.
  - by rewrite Hk.
  - intros j k' e' Hj. rewrite Nat2Z.id. destruct (decide (j = i)) as [->|Hne].
    + rewrite list_lookup_insert_eq in Hj by lia. injection Hj as <- <-. split; [by rewrite list_lookup_insert_eq|done].
    + rewrite list_lookup_insert_ne in Hj by done. destruct (C7 j k' e' Hj) as [H1 H2]. split; [by rewrite list_lookup_insert_ne|done].
  - by rewrite Hk.
  - intros j Hj1 Hj2. rewrite length_insert in Hj1. rewrite ?length_insert in Hj2. rewrite Nat2Z.id, list_lookup_insert_ne by lia. by apply C9.
Qed.

Lemma insert_holds m l c s : holds m l -> 0 <= c < sigma -> exists m', insert m c s = Ok m' /\ holds m' (ins c s l).
Proof.
  intros Hm Hc. pose proof Hm as [C1 C2 C3 C4 C5 C6 C7 C8 C9]. unfold insert, SmallMap.bykey.
  assert (Hl : (length l <= 512)%nat) by (rewrite <- (length_map fst); by apply keys_bound).
  rewrite (proj2 (Z.ltb_lt c (SmallMap.c m))) by lia. cbn [assert_ rbind]. rewrite (proj2 (Z.leb_le (SmallMap.n m) (SmallMap.c m))) by (rewrite C1, C4; unfold sigma; lia). cbn [assert_ rbind].
  destruct (in_dec Z.eq_dec c (map fst l)) as [Hin|Hnin].
  - destruct (key_found c l Hin) as (i & es & Hi). destruct (C7 i c es Hi) as [Hp Hx]. rewrite Hx. cbn [rbind]. destruct (Z.eqb_spec (Z.of_nat i) (-1)); [lia|]. cbn [rbind].
    rewrite (rd_ok _ (Z.of_nat i) (MkSplitter es c)) by (rewrite ?Nat2Z.id; lia || done). cbn [rbind elems ch].
    destruct (set_holds m l i c es (es ++ [s]) Hm Hi) as (m' & E & Hm' & _). exists m'. rewrite E. split; [done|]. by rewrite (ins_found c s l i es).
  - rewrite (C8 c Hc Hnin). cbn [rbind]. rewrite Z.eqb_refl. assert (Hlt : (length l < 512)%nat).
    { assert (H : (length (c :: map fst l) <= 512)%nat). { apply keys_bound; [apply list.NoDup_cons; split; [by rewrite list_elem_of_In|done]|]. intros k [<-|Hk]; [done|by apply C6]. } cbn [length] in H. rewrite length_map in H. lia. }
    rewrite (proj2 (Z.ltb_lt (SmallMap.n m) (SmallMap.c m))) by (rewrite C1, C4; unfold sigma; lia). cbn [assert_ rbind]. rewrite wr_ok by lia. cbn [rbind]. rewrite C4.
    assert (Hp : SmallMap.p m !! length l = Some nothing) by (apply C9; unfold sigma in C3; lia).
    rewrite (rd_ok _ _ nothing) by (rewrite ?Nat2Z.id; lia || done). cbn [rbind]. rewrite wr_ok by (unfold sigma in C3; lia). cbn [rbind SmallMap.p].
    rewrite Nat2Z.id. rewrite (rd_ok _ _ (MkSplitter [] c)) by (rewrite ?Nat2Z.id, ?list_lookup_insert_eq by (unfold sigma in C3; lia); lia || done). cbn [rbind elems ch app].
    unfold SmallMap.set_idx. cbn [SmallMap.p SmallMap.index SmallMap.n SmallMap.c]. rewrite wr_ok by (rewrite length_insert; unfold sigma in C3; lia). cbn [rbind]. rewrite Nat2Z.id, list_insert_insert_eq.
    assert (Hi16 : SmallMap.i16 (Z.of_nat (length l)) = Z.of_nat (length l)) by (unfold SmallMap.i16; rewrite Z.mod_small by lia; lia). rewrite Hi16.
    eexists. split; [done|]. rewrite ins_fresh by done. split; cbn [SmallMap.c SmallMap.index SmallMap.p SmallMap.n]; rewrite ?length_insert, ?length_app, ?map_app; cbn [length map fst]; try done.
    + lia.
    + apply list.NoDup_app. split; [done|]. split; [|apply NoDup_singleton]. intros k Hk ->%list_elem_of_singleton. by apply Hnin, list_elem_of_In.
    + intros k [Hk|[<-|[]]]%in_app_or; [by apply C6|done].
    + intros i k es Hi. destruct (decide (i = length l)) as [->|Hne].
      * rewrite lookup_app_r, Nat.sub_diag in Hi by lia. injection Hi as <- <-. split; [by rewrite list_lookup_insert_eq by (unfold sigma in C3; lia)|]. rewrite insert_rd, Z.eqb_refl by lia. done.
      * assert (Hil : (i < length l)%nat). { apply lookup_lt_Some in Hi. rewrite length_app in Hi. cbn in Hi. lia. }
        rewrite lookup_app_l in Hi by done. destruct (C7 i k es Hi) as [H1 H2]. split; [by rewrite list_lookup_insert_ne by done|].
        assert (k <> c). { intros ->. apply Hnin. apply list_elem_of_In, list_elem_of_fmap. exists (c, es). split; [done|]. by eapply list_elem_of_lookup_2. }
        assert (0 <= k < sigma). { apply C6, list_elem_of_In, list_elem_of_fmap. exists (k, es). split; [done|]. by eapply list_elem_of_lookup_2. }
        rewrite insert_rd by lia. by rewrite (proj2 (Z.eqb_neq k c)).
    + intros k Hk Hn. rewrite in_app_iff in Hn. cbn [In] in Hn. rewrite insert_rd by lia. rewrite (proj2 (Z.eqb_neq k c)) by (intros ->; tauto). apply C8; tauto.
    + intros i Hi1 Hi2. rewrite list_lookup_insert_ne by lia. apply C9; lia.
Qed.

(** Places before [i] have been cleared. *)
Definition cleared (l : list (Z * list Z)) (p : list Splitter) (i : Z) : Prop :=
  Z.of_nat (length p) = sigma /\ forall j, (j < length p)%nat -> Z.of_nat j < i \/ (length l <= j)%nat -> p !! j = Some nothing.

Lemma cleared_step l p i p' : cleared l p i -> 0 <= i < sigma -> p' = <[Z.to_nat i := nothing]> p -> cleared l p' (i + 1).
Proof.
  intros [H1 H2] Hi ->. split; [by rewrite length_insert|]. intros j Hj Hc. rewrite length_insert in Hj. destruct (decide (j = Z.to_nat i)) as [->|Hne]; [by rewrite list_lookup_insert_eq|].
  rewrite list_lookup_insert_ne by done. apply H2; [done|]. lia.
Qed.

Lemma cleared_holds l index p : Z.of_nat (length index) = sigma -> (forall k, 0 <= k < sigma -> rd index k = Ok (-1)) -> cleared l p (Z.of_nat (length l)) -> holds (SmallMap.SM index p 0 sigma) [].
Proof.
  intros Hi Hx [Hp Hc]. split; try done; [constructor| |].
  - intros k Hk _. by apply Hx.
  - intros i _ Hlt. cbn [SmallMap.p] in *. apply Hc; [done|]. lia.
Qed.

Lemma resize0_holds m l : holds m l -> exists m', SmallMap.resize0 m = Ok m' /\ holds m' [].
Proof.
  intros [C1 C2 C3 C4 C5 C6 C7 C8 C9]. assert (Hl : (length l <= 512)%nat) by (rewrite <- (length_map fst); by apply keys_bound).
  unfold SmallMap.resize0. rewrite C1, C4. assert (Hent : forall i, 0 <= i < Z.of_nat (length l) -> exists k es, l !! Z.to_nat i = Some (k, es) /\ 0 <= k < sigma).
  { intros i Hi. destruct (lookup_lt_is_Some_2 l (Z.to_nat i)) as [[k es] Hk]; [lia|]. exists k, es. split; [done|]. apply C6, list_elem_of_In, list_elem_of_fmap. exists (k, es). split; [done|]. by eapply list_elem_of_lookup_2. }
  assert (H0 : cleared l (SmallMap.p m) 0) by (split; [done|]; intros j Hj [?|?]; [lia|by apply C9]).
  destruct (Z.leb_spec (Z.of_nat (length l)) 16) as [H16|H16].
  - edestruct (for_inv (fun i '(index, p) => Z.of_nat (length index) = sigma /\ cleared l p i /\ (forall j k es, i <= Z.of_nat j -> l !! j = Some (k, es) -> rd index k = Ok (Z.of_nat j) /\ p !! j = Some (MkSplitter es k)) /\
      (forall k, 0 <= k < sigma -> (forall j es, i <= Z.of_nat j -> l !! j <> Some (k, es)) -> rd index k = Ok (-1)))) as ([index p] & E & I1 & I2 & _ & I4); [| | |setoid_rewrite E]; [lia| | |].
    + split; [done|]. split; [done|]. split; [intros j k es _ Hj; destruct (C7 j k es Hj); done|]. intros k Hk Hn. apply C8; [done|]. intros Hin. destruct (key_found k l Hin) as (j & es & Hj). by apply (Hn j es ltac:(lia)).
    + intros i [index p] Hi (I1 & I2 & I3 & I4). destruct (Hent i Hi) as (k & es & Hk & Hkr). destruct (I3 (Z.to_nat i) k es) as [Hx Hp]; [lia|done|]. rewrite Z2Nat.id in Hx by lia.
      rewrite (rd_ok p i _ ltac:(lia) Hp). cbn [rbind SmallMap.get_ch splitter_mapped ch]. rewrite (proj2 (Z.eqb_neq k (-1))) by lia. cbn [negb assert_ rbind]. rewrite Hx. cbn [rbind].
      rewrite (proj2 (Z.eqb_neq i (-1))) by lia. cbn [negb assert_ rbind]. rewrite wr_ok by lia. cbn [rbind SmallMap.resize0_v splitter_mapped]. rewrite wr_ok by (apply lookup_lt_Some in Hp; lia). cbn [rbind].
      eexists. split; [done|]. cbv beta iota. split; [by rewrite length_insert|]. split; [eapply cleared_step; [exact I2|unfold sigma in *; lia|done]|]. split.
      * intros j k' es' Hj Hj'. destruct (I3 j k' es') as [H1 H2]; [lia|done|]. split; [|by rewrite list_lookup_insert_ne by lia].
        assert (k' <> k). { intros ->. assert (j = Z.to_nat i); [|lia]. eapply (NoDup_lookup (map fst l)); [done| |]; rewrite list_lookup_fmap; [by rewrite Hj'|by rewrite Hk]. }
        apply rd_range in H1 as Hk'. rewrite insert_rd by lia. by rewrite (proj2 (Z.eqb_neq k' k)).
      * intros k' Hk' Hn. rewrite insert_rd by lia. destruct (Z.eqb_spec k' k) as [->|Hne]; [done|]. apply I4; [done|]. intros j es' Hj Hj'. destruct (decide (Z.of_nat j = i)) as [<-|]; [|by apply (Hn j es'); [lia|]].
        rewrite Nat2Z.id in Hk. congruence.
    + cbn [rbind]. eexists. split; [done|]. apply (cleared_holds l); [done| |done]. intros k Hk. apply I4; [done|]. intros j es Hj Hj'. apply lookup_lt_Some in Hj'. lia.
  - edestruct (for_inv (fun i p => cleared l p i)) as (p & E & I1); [| |
      |setoid_rewrite E]; [lia|exact H0| |].
    + intros i p Hi HI. destruct (lookup_lt_is_Some_2 p (Z.to_nat i)) as [v Hv]; [destruct HI as [HI _]; unfold sigma in HI; lia|]. rewrite (rd_ok p i v) by (lia || done). cbn [rbind SmallMap.resize0_v splitter_mapped].
      rewrite wr_ok by (apply lookup_lt_Some in Hv; lia). eexists. split; [done|]. eapply cleared_step; [exact HI|unfold sigma; lia|done].
    + cbn [rbind]. eexists. split; [done|]. apply (cleared_holds l); [done| |done]. intros k Hk. apply rd_ok; [lia|]. apply lookup_replicate. split; [done|]. unfold sigma in *. lia.
Qed.
(** ** What is collected *)

(** The lists of [l] are the second components of [ps], by the first. *)
Record grouped (l : list (Z * list Z)) (ps : list (Z * Z)) : Prop := {
  g_keys : NoDup (map fst l);
  g_lists : forall i c es, l !! i = Some (c, es) -> es <> [] /\ es = map snd (filter (fun p => fst p = c) ps);
  g_all : forall c s, In (c, s) ps -> In c (map fst l)
}.

Lemma grouped_nil : grouped [] [].
Proof. split; [constructor|done|by intros c s []]. Qed.

Lemma ins_keys c s l x : In x (map fst (ins c s l)) <-> x = c \/ In x (map fst l).
Proof.
  induction l as [|[c' es] l IH]; cbn [ins map fst In]; [intuition|]. destruct (Z.eqb_spec c' c) as [->|]; cbn [map fst In]; [intuition|]. rewrite IH. tauto.
Qed.

Lemma ins_grouped c s l ps : grouped l ps -> grouped (ins c s l) (ps ++ [(c, s)]).
Proof.
  intros [G1 G2 G3]. assert (Hfilt : forall c', filter (fun p : Z * Z => fst p = c') (ps ++ [(c, s)]) = filter (fun p => fst p = c') ps ++ if c =? c' then [(c, s)] else []).
  { intros c'. rewrite list.filter_app. f_equal. destruct (Z.eqb_spec c c'); [by rewrite filter_cons_True|by rewrite filter_cons_False]. }
  destruct (in_dec Z.eq_dec c (map fst l)) as [Hin|Hin].
  - destruct (key_found c l Hin) as (i & es & Hi). rewrite (ins_found c s l i es) by done. pose proof (lookup_lt_Some _ _ _ Hi) as Hil.
    assert (Hk : map fst (<[i:=(c, es ++ [s])]> l) = map fst l). { rewrite (list_fmap_insert fst l i (c, es ++ [s]) : map fst (<[i:=(c, es ++ [s])]> l) = <[i := c]> (map fst l)). apply list_insert_id. change (map fst l) with (fst <$> l). by rewrite list_lookup_fmap, Hi. }
    split; rewrite ?Hk; [done| |intros c' s' [H|[[= <- <-]|[]]]%in_app_or; [by eapply G3|done]]. intros j c' es' Hj. rewrite Hfilt. destruct (decide (j = i)) as [->|Hne].
    + rewrite list_lookup_insert_eq in Hj by done. injection Hj as <- <-. rewrite Z.eqb_refl, map_app. destruct (G2 i c es Hi) as [_ <-]. split; [by destruct es|done].
    + rewrite list_lookup_insert_ne in Hj by done. destruct (G2 j c' es' Hj) as [He Hes]. split; [done|]. destruct (Z.eqb_spec c c') as [<-|]; [|by rewrite app_nil_r].
      exfalso. apply Hne. eapply (NoDup_lookup (map fst l)); [done| |]; change (map fst l) with (fst <$> l); rewrite list_lookup_fmap; [by rewrite Hj|by rewrite Hi].
  - rewrite ins_fresh by done. split.
    + rewrite map_app. apply list.NoDup_app. split; [done|]. split; [|apply NoDup_singleton]. intros x Hx ->%list_elem_of_singleton. by apply Hin, list_elem_of_In.
    + intros j c' es' Hj. rewrite Hfilt. destruct (decide (j < length l)%nat) as [Hlt|Hge].
      * rewrite lookup_app_l in Hj by done. destruct (G2 j c' es' Hj) as [He Hes]. split; [done|]. destruct (Z.eqb_spec c c') as [<-|]; [|by rewrite app_nil_r].
        exfalso. apply Hin, list_elem_of_In, list_elem_of_fmap. exists (c, es'). split; [done|]. by eapply list_elem_of_lookup_2.
      * rewrite lookup_app_r in Hj by lia. destruct (j - length l)%nat eqn:Ej; [|done]. injection Hj as <- <-. rewrite Z.eqb_refl. split; [done|]. rewrite map_app.
        enough (filter (fun p => fst p = c) ps = []) as -> by done. destruct (filter (fun p => fst p = c) ps) as [|[c' s'] f] eqn:Ef; [done|]. exfalso.
        assert (Hf : (c', s') ∈ filter (fun p => fst p = c) ps) by (rewrite Ef; by left). apply list_elem_of_filter in Hf as [H1 H2]. cbn in H1. subst c'. apply Hin. eapply G3. by apply list_elem_of_In.
    + intros c' s' H. rewrite map_app, in_app_iff. cbn. apply in_app_or in H as [H|[[= <- <-]|[]]]; [left; by eapply G3|auto].
Qed.

Lemma foldl_grouped ps l ps0 : grouped l ps0 -> grouped (foldl (fun l '(c, s) => ins c s l) l ps) (ps0 ++ ps).
Proof.
  revert l ps0. induction ps as [|[c s] ps IH]; intros l ps0 Hg; [by rewrite app_nil_r|]. cbn [foldl]. replace (ps0 ++ (c, s) :: ps) with ((ps0 ++ [(c, s)]) ++ ps) by (by rewrite <- app_assoc). by apply IH, ins_grouped.
Qed.

Lemma grouped_in l ps i c es s : grouped l ps -> l !! i = Some (c, es) -> In s es <-> In (c, s) ps.
Proof.
  intros Hg Hi. destruct (g_lists _ _ Hg i c es Hi) as [_ ->]. rewrite in_map_iff. split.
  - intros ([c' s'] & <- & Hin). apply list_elem_of_In, list_elem_of_filter in Hin as [H1 H2]. cbn in H1. subst c'. by apply list_elem_of_In.
  - intros Hin. exists (c, s). split; [done|]. by apply list_elem_of_In, list_elem_of_filter; rewrite list_elem_of_In.
Qed.

Lemma grouped_nodup l ps i c es : grouped l ps -> NoDup ps -> l !! i = Some (c, es) -> NoDup es.
Proof.
  intros Hg Hnd Hi. destruct (g_lists _ _ Hg i c es Hi) as [_ ->]. apply (list.NoDup_filter (fun p : Z * Z => fst p = c)) in Hnd.
  assert (Hc : forall p, p ∈ filter (fun p : Z * Z => fst p = c) ps -> fst p = c) by (intros p Hp; by apply list_elem_of_filter in Hp as [Hp _]).
  revert Hnd Hc. generalize (filter (fun p : Z * Z => fst p = c) ps). intros f Hnd Hc. induction Hnd as [|[c1 s1] f Hn Hf IH]; [constructor|]. cbn [map snd]. apply list.NoDup_cons. split; [|apply IH; intros p Hp; apply Hc; by right].
  intros Hin. apply list_elem_of_In, in_map_iff in Hin as ([c2 s2] & E & Hin). cbn in E. subst s2. apply list_elem_of_In in Hin. apply Hn.
  pose proof (Hc (c1, s1) ltac:(by left)) as E1. pose proof (Hc (c2, s1) ltac:(by right)) as E2. cbn in *. congruence.
Qed.
End SplitterMap.
