(* ===== verification/HopcroftSplit.v ===== *)
(** * Splitting blocks

    What [split_block] and [split] do to the partition and to the waiting set, and the
    invariant that makes the waiting set enough: two states of one block whose moves
    lead to different blocks are told apart by a block that waits. *)
From stdpp Require Import sorting sets.
From S2P Require Import Prelude Dfa SmallMap Hopcroft HopcroftList.
Import Dfa Hopcroft HopcroftList.

Module HopcroftSplit.

(** ** Compaction in place *)

Lemma keep_step {A} (F mid : list A) x D : exists mid', length mid' = length mid /\ wr (F ++ mid ++ x :: D) (Z.of_nat (length F)) x = Ok ((F ++ [x]) ++ mid' ++ D).
Proof.
  destruct mid as [|m mid].
  - exists []. split; [done|]. cbn [app]. rewrite wr_ok by (rewrite length_app; cbn; lia). rewrite Nat2Z.id, insert_app_r_alt, Nat.sub_diag by lia. cbn. by rewrite <- app_assoc.
  - exists (mid ++ [x]). split; [rewrite length_app; cbn; lia|]. rewrite wr_ok by (rewrite length_app; cbn; lia). rewrite Nat2Z.id, insert_app_r_alt, Nat.sub_diag by lia. cbn. by rewrite <- !app_assoc.
Qed.

Lemma rd_compact {A} (F mid : list A) x D i : i = Z.of_nat (length F + length mid) -> rd (F ++ mid ++ x :: D) i = Ok x.
Proof. intros ->. apply rd_ok; [lia|]. rewrite Nat2Z.id, app_assoc, lookup_app_r by (rewrite length_app; lia). by rewrite length_app, Nat.sub_diag. Qed.

(** ** [unique] and [sort] *)

Lemma unique_in l : forall x, In x (unique l) <-> In x l.
Proof.
  induction l as [|a l IH]; intros x; [done|]. destruct l as [|b l]; [done|]. cbn [unique] in *. destruct (Z.eqb_spec a b) as [->|].
  - rewrite IH. cbn. tauto.
  - cbn [In] in *. rewrite (IH x). tauto.
Qed.

Lemma unique_sorted l : Sorted Z.le l -> NoDup (unique l).
Proof.
  intros Hs. apply Sorted_StronglySorted in Hs; [|intros x y z; lia]. induction Hs as [|a l Hs IH Ha]; [constructor|]. destruct l as [|b l]; [apply NoDup_singleton|].
  cbn [unique] in *. destruct (Z.eqb_spec a b) as [->|Hne]; [done|]. constructor; [|done]. rewrite list_elem_of_In. change (match l with [] => b :: l | _ => _ end) with (unique (b :: l)). rewrite unique_in.
  intros Hin. rewrite List.Forall_forall in Ha. pose proof (Ha b (or_introl eq_refl)). apply StronglySorted_inv in Hs as [_ Hs]. rewrite List.Forall_forall in Hs. destruct Hin as [->|Hin]; [done|]. specialize (Hs a Hin). lia.
Qed.

Lemma sort_in l x : In x (sort l) <-> In x l.
Proof. unfold sort. by rewrite <- !list_elem_of_In, merge_sort_Permutation. Qed.

Lemma unique_sort_nodup l : NoDup (unique (sort l)).
Proof. apply unique_sorted. apply Sorted_merge_sort. intros x y. lia. Qed.

(** ** Counting *)

Lemma finite_choice k (R : Z -> Z -> Prop) : (forall g, 0 <= g < k -> exists s, R g s) -> exists f : Z -> Z, forall g, 0 <= g < k -> R g (f g).
Proof.
  intros Hex. assert (Hl : forall l, (forall g, In g l -> 0 <= g < k) -> exists f : Z -> Z, forall g, In g l -> R g (f g)).
  { induction l as [|g l IH]; intros Hl; [by exists id|]. destruct IH as [f Hf]; [intros; apply Hl; by right|]. destruct (Hex g (Hl g (or_introl eq_refl))) as (s & Hs).
    exists (fun x => if x =? g then s else f x). intros x Hx. destruct (Z.eqb_spec x g) as [->|]; [done|]. destruct Hx as [->|Hx]; [done|]. by apply Hf. }
  destruct (Hl (seqZ 0 k)) as [f Hf]; [intros g Hg; apply list_elem_of_In, elem_of_seqZ in Hg; lia|]. exists f. intros g Hg. apply Hf, list_elem_of_In, elem_of_seqZ. lia.
Qed.

Lemma injective_le k n (f : Z -> Z) : 0 <= n -> (forall g, 0 <= g < k -> 0 <= f g < n) -> (forall g h, 0 <= g < k -> 0 <= h < k -> f g = f h -> g = h) -> k <= n.
Proof.
  intros Hn Hf Hinj. assert (Hinc : (length (map f (seqZ 0 k)) <= length (seqZ 0 n))%nat).
  { apply NoDup_incl_length.
    - apply (List.NoDup_map_NoDup_ForallPairs f); [|apply NoDup_ListNoDup, NoDup_seqZ]. intros g h Hg Hh. apply list_elem_of_In, elem_of_seqZ in Hg, Hh. apply Hinj; lia.
    - intros x Hx. apply in_map_iff in Hx as (g & <- & Hg). apply list_elem_of_In, elem_of_seqZ in Hg. apply list_elem_of_In, elem_of_seqZ. specialize (Hf g ltac:(lia)). lia. }
  rewrite length_map, !length_seqZ in Hinc. lia.
Qed.

(** ** The partition *)

Section partition.
Context (d : Dfa).
Hypothesis (Hwf : wf d).
Notation n := (total_states d).
Notation U := (used d).

Definition onto (beta : Z -> Z) (k : Z) : Prop := forall g, 0 <= g < k -> exists s, U s /\ beta s = g.

(** The members of [W] are blocks, and the flags say which. *)
Definition waiting (H : Hopcroft) (W : list Z) (k : Z) : Prop :=
  NoDup W /\ (forall g, In g W -> 0 <= g < k) /\ forall g, 0 <= g < k -> flags H !! Z.to_nat g = Some (bool_decide (g ∈ W)).

Record inv (H : Hopcroft) (W : list Z) (beta : Z -> Z) (k : Z) : Prop := {
  i_blocks : blocks n U H beta k;
  i_onto : onto beta k;
  i_waiting : waiting H W k;
  i_term : forall s t, U s -> U t -> beta s = beta t -> is_term d s = is_term d t;
  i_alike : forall s t, U s -> U t -> alike d d s t -> beta s = beta t
}.

Lemma size_bound : n < 2 ^ 31.
Proof. apply Hwf. Qed.
Lemma size_pos : 0 < n.
Proof. destruct (wf_initial d Hwf). lia. Qed.

Lemma count_bound H beta k : blocks n U H beta k -> onto beta k -> 0 <= k <= n.
Proof.
  intros Hb Ho. split; [destruct Hb as [_ <- _ _]; lia|]. pose proof size_pos.
  destruct (finite_choice k (fun g s => U s /\ beta s = g) Ho) as [f Hf]. apply (injective_le k n f); [lia| |].
  - intros g Hg. destruct (Hf g Hg) as [[? _] _]. lia.
  - intros g h Hg Hh E. destruct (Hf g Hg) as [_ <-]. destruct (Hf h Hh) as [_ <-]. by rewrite E.
Qed.

(** Among the states of [E] those of block [g] go to block [k]. *)
Definition cut (beta : Z -> Z) (E : list Z) (g k x : Z) : Z := if bool_decide (x ∈ E) && (beta x =? g) then k else beta x.

Lemma move_states_ok H beta k g E : blocks n U H beta (k + 1) -> NoDup E -> (forall s, In s E -> U s) -> (forall s, U s -> beta s <> k) -> 0 <= k -> 0 <= g < k -> exists H' E',
  move_states H E g k = Ok (H', E') /\ blocks n U H' (cut beta E g k) (k + 1) /\ flags H' = flags H /\ NoDup E' /\ forall s, In s E' <-> In s E /\ beta s <> g.
Proof.
  intros Hb Hnd HE Hk Hk0 Hg. unfold move_states.
  destruct (for_inv (fun i '(H', E', j) => exists V D F mid, E = V ++ D /\ Z.of_nat (length V) = i /\ E' = F ++ mid ++ D /\ Z.of_nat (length F + length mid) = i /\ j = Z.of_nat (length F) /\
      blocks n U H' (cut beta V g k) (k + 1) /\ flags H' = flags H /\ F = filter (fun s => beta s <> g) V)
    (fun iE1 '(H, E, iE2) => let* sE := rd E iE1 in let* e := rd (L H) sE in
      if blid e =? g then let* H := del H g sE in let* H := add H k sE in Ok (H, E, iE2) else let* E := wr E iE2 sE in Ok (H, E, iE2 + 1)) 0 (Z.of_nat (length E)) (H, E, 0))
    as ([[H' E'] j] & EQ & V & D & F & mid & HE' & HV & -> & Hlen & -> & Hb' & Hfl & HF); [lia| | |].
  - exists [], E, [], []. do 5 (split; [done|]). split; [|done]. eapply blocks_ext; [| |exact Hb]; [done|]. intros s _. unfold cut. by rewrite bool_decide_eq_false_2 by apply not_elem_of_nil.
  - intros i [[H' E'] j] Hi (V & D & F & mid & HE' & HV & -> & Hlen & -> & Hb' & Hfl & HF). destruct D as [|s D]; [rewrite app_nil_r in HE'; subst V; lia|].
    rewrite rd_compact by lia. cbn [rbind]. assert (Hs : U s) by (apply HE; rewrite HE'; apply in_or_app; right; by left). destruct (b_range _ _ _ _ _ Hb' s Hs) as (Hsn & _ & Hbld).
    assert (HsV : s ∉ V). { rewrite HE' in Hnd. apply list.NoDup_app in Hnd as (_ & Hd & _). intros Hin. apply (Hd s Hin). by left. }
    assert (Hcs : cut beta V g k s = beta s) by (unfold cut; by rewrite bool_decide_eq_false_2). rewrite Hcs in Hbld. rewrite rd_el by (pose proof (b_length _ _ _ _ _ Hb'); lia). cbn [rbind]. unfold bld in Hbld. rewrite Hbld.
    assert (Hnext : forall x, U x -> (if beta s =? g then becomes (cut beta V g k) s k x else cut beta V g k x) = cut beta (V ++ [s]) g k x).
    { intros x Hx. unfold becomes, cut. destruct (decide (x = s)) as [->|Hne].
      - rewrite Z.eqb_refl, bool_decide_eq_false_2 by done. rewrite bool_decide_eq_true_2 by set_solver. cbn. by destruct (beta s =? g).
      - rewrite (proj2 (Z.eqb_neq x s)) by done. assert (bool_decide (x ∈ V ++ [s]) = bool_decide (x ∈ V)) as -> by (apply bool_decide_ext; rewrite elem_of_app, list_elem_of_singleton; tauto). by destruct (beta s =? g). }
    destruct (Z.eqb_spec (beta s) g) as [Hsg|Hsg].
    + destruct (move_ok n size_bound U H' (cut beta V g k) (k + 1) g k s Hb' Hs) as (H1 & H2 & -> & E2 & Hb2 & F2); [congruence|lia|]. cbn [rbind]. rewrite E2. cbn [rbind]. eexists. split; [done|].
      exists (V ++ [s]), D, F, (mid ++ [s]). split; [by rewrite <- app_assoc|]. split; [rewrite length_app; cbn; lia|]. split; [by rewrite <- !app_assoc|]. split; [rewrite length_app; cbn; lia|]. split; [done|].
      split; [eapply blocks_ext; [| |exact Hb2]; [done|done]|]. split; [congruence|]. rewrite list.filter_app, filter_cons_False, filter_nil, app_nil_r by tauto. done.
    + destruct (keep_step F mid s D) as (mid' & Hm' & ->). cbn [rbind]. eexists. split; [done|]. exists (V ++ [s]), D, (F ++ [s]), mid'. split; [by rewrite <- app_assoc|]. split; [rewrite length_app; cbn; lia|]. split; [done|].
      split; [rewrite length_app; cbn; lia|]. split; [rewrite length_app; cbn; lia|]. split; [eapply blocks_ext; [| |exact Hb']; [done|done]|]. split; [done|].
      rewrite list.filter_app, filter_cons_True, filter_nil by done. by rewrite HF.
  - assert (D = []) as ->. { assert (length D = 0%nat); [|by destruct D]. rewrite HE', length_app in HV. lia. } rewrite app_nil_r in HE'. subst V.
    exists H', (take (Z.to_nat (Z.of_nat (length F))) (F ++ mid ++ [])). rewrite EQ. cbn [rbind]. split; [done|]. rewrite Nat2Z.id, take_app_length. split; [done|]. split; [done|]. rewrite HF. split; [by apply list.NoDup_filter|].
    intros s. rewrite <- !list_elem_of_In, list_elem_of_filter. tauto.
Qed.
(** *** One block *)

Lemma push_block U' H beta k : blocks n U' H beta k -> blocks n U' (MkHopcroft (L H) (P H ++ [new_block])) beta (k + 1).
Proof.
  intros [B1 B2 B3 B4]. split; cbn [L P]; [done|rewrite length_app; cbn; lia|intros s Hs; specialize (B3 s Hs); lia|]. intros g Hg. destruct (decide (g = k)) as [->|Hne].
  - exists []. split; [constructor|]. split; [intros s; split; [intros []|intros [Hs Hsk]; specialize (B3 s Hs); lia]|]. exists new_block. cbn [P L]. split; [|done].
    apply rd_ok; [lia|]. rewrite lookup_app_r by lia. by replace (Z.to_nat k - length (P H))%nat with 0%nat by lia.
  - destruct (B4 g ltac:(lia)) as (r & Hnd & Hr & b & Hb & Hrest). exists r. split; [done|]. split; [done|]. exists b. split; [|done]. cbn [P]. apply rd_Ok_inv in Hb as [Hg0 Hb]. apply rd_ok; [done|]. by apply lookup_app_l_Some.
Qed.

(** The ring of a block, with its length. *)
Lemma block_at H beta k g : blocks n U H beta k -> 0 <= g < k -> exists b r, rd (P H) g = Ok b /\ NoDup r /\ (forall s, In s r <-> U s /\ beta s = g) /\ ring H g r /\ blen b = Z.of_nat (length r).
Proof. intros Hb Hg. destruct (b_rings _ _ _ _ _ Hb g Hg) as (r & Hnd & Hr & b & Hrb & Hlen & Hrest). exists b, r. split; [done|]. split; [done|]. split; [done|]. split; [by exists b|done]. Qed.

Lemma subset_length (r r' : list Z) : NoDup r' -> (forall s, In s r' -> In s r) -> (length r' <= length r)%nat.
Proof. intros Hnd Hs. apply NoDup_incl_length; [by apply NoDup_ListNoDup|]. exact Hs. Qed.

Lemma strict_length (r r' : list Z) s : NoDup r' -> (forall x, In x r' -> In x r) -> In s r -> ~ In s r' -> (length r' < length r)%nat.
Proof.
  intros Hnd Hs Hsr Hsr'. apply (subset_length r (s :: r')); [apply list.NoDup_cons; split; [by rewrite list_elem_of_In|done]|]. intros x [<-|Hx]; [done|by apply Hs].
Qed.

Lemma cut_in beta E g k s : In s E -> beta s = g -> cut beta E g k s = k.
Proof. intros Hs <-. unfold cut. by rewrite bool_decide_eq_true_2, Z.eqb_refl by by apply list_elem_of_In. Qed.

Lemma cut_out beta E g k s : ~ (In s E /\ beta s = g) -> cut beta E g k s = beta s.
Proof.
  intros Hn. unfold cut. destruct (Z.eqb_spec (beta s) g) as [Hg|]; [|by rewrite andb_false_r]. rewrite bool_decide_eq_false_2; [done|]. rewrite list_elem_of_In. tauto.
Qed.

Lemma cut_cases beta E g k s : (In s E /\ beta s = g /\ cut beta E g k s = k) \/ (~ (In s E /\ beta s = g) /\ cut beta E g k s = beta s).
Proof.
  destruct (in_dec Z.eq_dec s E), (Z.eq_dec (beta s) g); (left; by rewrite cut_in) || (right; rewrite cut_out; tauto).
Qed.

(** The old numbers and the old block come back when all states of [g] were moved. *)
Lemma restore_ok H H' B beta k g E : blocks n U H beta k -> rd (P H) g = Ok B -> 0 <= g < k -> blocks n U H' (cut beta E g k) (k + 1) -> flags H' = flags H ++ [false] ->
  (forall s, U s -> beta s = g -> In s E) -> (exists s, U s /\ beta s = g) -> exists H2,
  (let* P := wr (P H') g B in fix_blid (MkHopcroft (L H') P) g) = Ok H2 /\ let H3 := MkHopcroft (L H2) (removelast (P H2)) in blocks n U H3 beta k /\ flags H3 = flags H.
Proof.
  intros Hb HB Hg Hb' Hfl Hall (s0 & Hs0 & Hs0g). destruct (b_rings _ _ _ _ _ Hb g Hg) as (r & Hnd & Hr & b & HB' & Hlen & Hh & Hc). rewrite HB in HB'. injection HB' as <-.
  destruct (b_rings _ _ _ _ _ Hb' k ltac:(lia)) as (r' & Hnd' & Hr' & b' & Hb2 & Hlen' & Hh' & Hc').
  assert (Hrr : forall s, In s r' <-> In s r). { intros s. rewrite Hr, Hr'. destruct (cut_cases beta E g k s) as [(H1 & H2 & ->)|[Hn ->]]; [tauto|]. split; intros [Hs Hs2]; (split; [done|]).
    - destruct (b_range _ _ _ _ _ Hb s Hs) as (_ & ? & _). lia.
    - destruct Hn. split; [by apply Hall|done]. }
  assert (Hlr : length r' = length r). { apply Nat.le_antisymm; apply subset_length; try done; intros s Hs; by apply Hrr. }
  assert (Hs0r : In s0 r') by (apply Hrr, Hr; done). pose proof (b_count _ _ _ _ _ Hb') as HP'. pose proof (b_count _ _ _ _ _ Hb) as HP.
  rewrite wr_ok by lia. cbn [rbind]. destruct (fix_blid_ok (MkHopcroft (L H') (<[Z.to_nat g := B]> (P H'))) g r') as (L2 & E2 & N2 & H2).
  - exists B. cbn [P L]. rewrite insert_rd, Z.eqb_refl by lia. split; [done|]. split; [lia|]. split; [|done]. intros _. apply Hrr, Hh. intros ->. by apply Hrr in Hs0r.
  - intros ->. done.
  - done.
  - intros x Hx. cbn [L]. rewrite (b_length _ _ _ _ _ Hb'). apply Hrr, Hr in Hx as [Hx _]. by apply (b_range _ _ _ _ _ Hb).
  - cbn [L P] in *. eexists. split; [exact E2|]. cbv zeta. cbn [L P].
    assert (HPlen : length (removelast (<[Z.to_nat g:=B]> (P H'))) = length (P H)) by (rewrite removelast_firstn_len, length_firstn, length_insert; lia).
    assert (HPg : forall g', 0 <= g' < k -> rd (removelast (<[Z.to_nat g:=B]> (P H'))) g' = if g' =? g then Ok B else rd (P H') g').
    { intros g' Hg'. rewrite <- insert_rd by lia. unfold rd. rewrite !decide_True by lia. rewrite removelast_firstn_len, length_insert. by rewrite lookup_take_lt by lia. }
    split; [split; cbn [L P]|].
    + rewrite N2. apply (b_length _ _ _ _ _ Hb').
    + lia.
    + intros s Hs. destruct (b_range _ _ _ _ _ Hb s Hs) as (Hsn & Hsk & _). destruct (b_range _ _ _ _ _ Hb' s Hs) as (_ & _ & Hbl). split; [done|]. split; [done|]. destruct (H2 s ltac:(lia)) as (_ & _ & Hi & Ho).
      destruct (in_dec Z.eq_dec s r') as [Hin|Hin]; [rewrite Hi by done; symmetry; apply Hr; by apply Hrr|]. rewrite Ho, Hbl by done. apply cut_out. intros [_ Hsg]. apply Hin, Hrr, Hr. done.
    + intros g' Hg'. destruct (decide (g' = g)) as [->|Hne].
      * exists r'. split; [done|]. split; [intros s; by rewrite Hrr, Hr|]. exists B. cbn [L P]. rewrite HPg, Z.eqb_refl by lia. split; [done|]. split; [lia|].
        split; [intros _; apply Hrr, Hh; intros ->; by apply Hrr in Hs0r|]. eapply cyc_frame; [|exact Hc']. intros a Ha. assert (Ha' : In a r) by (by apply Hrr). apply Hr in Ha' as [Ha' _].
        destruct (b_range _ _ _ _ _ Hb a Ha') as (Han & _). destruct (H2 a ltac:(lia)) as (-> & -> & _). done.
      * destruct (block_at H' _ _ g' Hb' ltac:(lia)) as (b2 & r2 & Hb3 & Hnd2 & Hr2 & Hring2 & Hlen2). exists r2. split; [done|]. assert (Hr2' : forall s, In s r2 <-> U s /\ beta s = g').
        { intros s. rewrite Hr2. destruct (cut_cases beta E g k s) as [(_ & Hsg & ->)|[_ ->]]; [|done]. split; [lia|]. intros [_ Hs]. congruence. }
        split; [done|]. destruct Hring2 as (b3 & Hb4 & Hl3 & Hh3 & Hc3). exists b3. cbn [L P]. rewrite HPg by lia. rewrite (proj2 (Z.eqb_neq g' g)) by done. split; [done|]. split; [done|]. split; [done|].
        eapply cyc_frame; [|exact Hc3]. intros a Ha. apply Hr2' in Ha as [Ha _]. destruct (b_range _ _ _ _ _ Hb a Ha) as (Han & _). destruct (H2 a ltac:(lia)) as (-> & -> & _). done.
    + unfold flags in *. cbn [P]. rewrite removelast_firstn_len, length_insert. rewrite <- firstn_map. rewrite (list_fmap_insert isInW (P H') (Z.to_nat g) B : map isInW (<[Z.to_nat g:=B]> (P H')) = <[Z.to_nat g := isInW B]> (map isInW (P H'))). rewrite Hfl.
      apply rd_Ok_inv in HB as [_ HB]. rewrite list_insert_id.
      * replace (pred (length (P H'))) with (length (map isInW (P H))) by (rewrite length_map; clear - HP HP'; lia). apply take_app_length.
      * apply lookup_app_l_Some. by rewrite list_lookup_fmap, HB.
Qed.

Lemma wait_ok H W beta k b : blocks n U H beta k -> (forall g, 0 <= g < k -> flags H !! Z.to_nat g = Some (bool_decide (g ∈ W))) -> 0 <= b < k -> exists H',
  putW W H b = Ok (W ++ [b], H') /\ blocks n U H' beta k /\ L H' = L H /\ forall g, 0 <= g < k -> flags H' !! Z.to_nat g = Some (bool_decide (g ∈ W ++ [b])).
Proof.
  intros Hb Hf Hg. destruct (block_at H beta k b Hb Hg) as (x & _ & Hx & _). unfold putW. rewrite (upd_rd _ _ _ _ Hx). cbn [rbind]. eexists. split; [done|]. pose proof (rd_range _ _ _ Hx) as Hbr. split; [|split; [done|]].
  - destruct Hb as [B1 B2 B3 B4]. split; cbn [L P]; [done|by rewrite length_insert|done|]. intros g Hg'. destruct (B4 g Hg') as (r & Hnd & Hr & y & Hy & Hrest). exists r. split; [done|]. split; [done|].
    destruct (decide (g = b)) as [->|Hne].
    + exists (set_isInW true y). cbn [P L]. rewrite insert_rd, Z.eqb_refl by lia. rewrite Hx in Hy. injection Hy as <-. done.
    + exists y. cbn [P L]. rewrite insert_rd by lia. by rewrite (proj2 (Z.eqb_neq g b)).
  - intros g Hg'. unfold flags. cbn [P]. rewrite (list_fmap_insert isInW (P H) (Z.to_nat b) _ : map isInW (<[Z.to_nat b:=_]> (P H)) = <[Z.to_nat b := _]> (map isInW (P H))). cbn [set_isInW isInW].
    destruct (decide (g = b)) as [->|Hne].
    + rewrite list_lookup_insert_eq by (rewrite length_map; lia). by rewrite bool_decide_eq_true_2 by (apply elem_of_app; right; by left).
    + rewrite list_lookup_insert_ne by lia. fold (flags H). rewrite Hf by done. f_equal. apply bool_decide_ext. rewrite elem_of_app, list_elem_of_singleton. tauto.
Qed.

(** What [split_block] leaves when it divides the block. *)
Definition divided (beta : Z -> Z) (E : list Z) (W W' : list Z) (g k : Z) : Prop :=
  exists b, W' = W ++ [b] /\ (b = g \/ b = k) /\ (In g W -> b = k).

Lemma cut_inv H H' W b beta k g E : inv H W beta k -> blocks n U H' (cut beta E g k) (k + 1) ->
  (forall x, 0 <= x < k + 1 -> flags H' !! Z.to_nat x = Some (bool_decide (x ∈ W ++ [b]))) -> 0 <= g < k -> (b = g \/ b = k) -> (In g W -> b = k) ->
  (forall s t, U s -> U t -> alike d d s t -> beta s = g -> beta t = g -> In s E <-> In t E) ->
  (exists s, U s /\ beta s = g /\ In s E) -> (exists s, U s /\ beta s = g /\ ~ In s E) -> inv H' (W ++ [b]) (cut beta E g k) (k + 1).
Proof.
  intros [I1 I2 I3 I4 I5] Hb Hf Hg Hbk Hgw Hal (s1 & Hs1 & Hs1g & Hs1E) (s2 & Hs2 & Hs2g & Hs2E). destruct I3 as (W1 & W2 & _).
  assert (Hcut : forall s, U s -> cut beta E g k s = k <-> In s E /\ beta s = g).
  { intros s Hs. destruct (b_range _ _ _ _ _ I1 s Hs) as (_ & Hsk & _). destruct (cut_cases beta E g k s) as [(H1 & H2 & ->)|[Hn ->]]; [tauto|]. split; [lia|tauto]. }
  split; [done| | | |].
  - intros x Hx. destruct (decide (x = k)) as [->|]; [exists s1; by rewrite cut_in|]. destruct (decide (x = g)) as [->|]; [exists s2; rewrite cut_out by tauto; done|].
    destruct (I2 x ltac:(lia)) as (s & Hs & <-). exists s. by rewrite cut_out by tauto.
  - split; [|split; [|done]].
    + apply list.NoDup_app. split; [done|]. split; [|apply NoDup_singleton]. intros x Hx ->%list_elem_of_singleton. apply list_elem_of_In in Hx. destruct Hbk as [->| ->]; [specialize (Hgw Hx); lia|]. specialize (W2 k Hx). lia.
    + intros x [Hx|[<-|[]]]%in_app_or; [specialize (W2 x Hx); lia|]. destruct Hbk; lia.
  - intros s t Hs Ht E0. apply I4; [done|done|]. destruct (b_range _ _ _ _ _ I1 s Hs) as (_ & Hsk & _). destruct (b_range _ _ _ _ _ I1 t Ht) as (_ & Htk & _).
    destruct (cut_cases beta E g k s) as [(_ & -> & Hc)|[_ Hc]]; rewrite Hc in E0; destruct (cut_cases beta E g k t) as [(_ & -> & Hc')|[_ Hc']]; rewrite Hc' in E0; lia.
  - intros s t Hs Ht Hst. pose proof (I5 s t Hs Ht Hst) as Heq. destruct (cut_cases beta E g k s) as [(H1 & H2 & ->)|[Hn ->]].
    + symmetry. apply Hcut; [done|]. split; [|congruence]. apply (Hal s t); congruence.
    + rewrite cut_out; [done|]. intros [H1 H2]. apply Hn. split; [|congruence]. apply (Hal s t); congruence.
Qed.

Lemma split_block_ok H W E beta k g : inv H W beta k -> NoDup E -> (forall s, In s E -> U s) -> 0 <= g < k ->
  (exists s, In s E /\ beta s = g) -> (exists s t, U s /\ U t /\ s <> t /\ beta s = g /\ beta t = g) ->
  (forall s t, U s -> U t -> alike d d s t -> beta s = g -> beta t = g -> In s E <-> In t E) -> exists H' W' E',
  split_block g (H, W, E) = Ok (H', W', E') /\ NoDup E' /\ (forall s, In s E' <-> In s E /\ beta s <> g) /\
  ((inv H' W beta k /\ W' = W /\ forall s, U s -> beta s = g -> In s E) \/ (inv H' W' (cut beta E g k) (k + 1) /\ divided beta E W W' g k)).
Proof.
  intros HI Hnd HE Hg (s0 & Hs0 & Hs0g) (s1 & s2 & Hs1 & Hs2 & Hne & Hs1g & Hs2g) Hal. pose proof HI as [I1 I2 (W1 & W2 & W3) I4 I5]. destruct (count_bound _ _ _ I1 I2) as [_ Hkn]. pose proof size_bound as Hn.
  assert (Hk : u32 (Z.of_nat (length (P H))) = k) by (rewrite (b_count _ _ _ _ _ I1); apply u32_small; lia).
  destruct (block_at H beta k g I1 Hg) as (B & r & HB & Hndr & Hr & Hring & Hlen).
  assert (Hr2 : 1 < Z.of_nat (length r)). { enough (length [s2] < length r)%nat by (cbn in *; lia). apply (strict_length r [s2] s1); [apply NoDup_singleton| |by apply Hr|intros [->|[]]; done]. intros x [<-|[]]. by apply Hr. }
  destruct (move_states_ok (MkHopcroft (L H) (P H ++ [new_block])) beta k g E (push_block _ _ _ _ I1) Hnd HE) as (H' & E' & EM & Hb' & Hfl & HndE & HE'); [|lia|done|].
  { intros s Hs. destruct (b_range _ _ _ _ _ I1 s Hs) as (_ & ? & _). lia. }
  assert (Hfl' : flags H' = flags H ++ [false]) by (rewrite Hfl; unfold flags; cbn [P]; by rewrite map_app).
  destruct (block_at H' _ _ k Hb' ltac:(lia)) as (x & rx & Hx & Hndx & Hrx & _ & Hlx). destruct (block_at H' _ _ g Hb' ltac:(lia)) as (y & ry & Hy & Hndy & Hry & Hringy & Hly).
  assert (Hs0x : In s0 rx) by (apply Hrx; split; [by apply HE|by apply cut_in]).
  assert (Hyr : forall s, In s ry <-> U s /\ beta s = g /\ ~ In s E). { intros s. rewrite Hry. destruct (cut_cases beta E g k s) as [(H1 & H2 & ->)|[Hn' ->]]; [split; [intros [_ ?]; lia|tauto]|]. tauto. }
  unfold split_block. rewrite Hk. assert (Z.of_nat (length E) =? 0 = false) as -> by (destruct E; [done|apply Z.eqb_neq; cbn; lia]). cbn [negb assert_ rbind].
  rewrite HB. cbn [rbind]. rewrite Hlen, (proj2 (Z.ltb_lt 1 _)) by lia. cbn [assert_ rbind]. rewrite EM. cbn [rbind]. rewrite Hx. cbn [rbind].
  assert (blen x =? 0 = false) as -> by (rewrite Hlx; destruct rx; [done|apply Z.eqb_neq; cbn; lia]). cbn [negb assert_ rbind]. rewrite Hy. cbn [rbind].
  assert (blen y <? Z.of_nat (length r) = true) as ->. { apply Z.ltb_lt. rewrite Hly. apply Nat2Z.inj_lt. apply (strict_length r ry s0); [done| |apply Hr; split; [by apply HE|done]|rewrite Hyr; tauto]. intros s Hs. apply Hr. apply Hyr in Hs. tauto. }
  cbn [assert_ rbind]. destruct (Z.eqb_spec (blen y) 0) as [Ey|Ey].
  - assert (ry = []) as -> by (destruct ry; [done|cbn in *; lia]). assert (Hall : forall s, U s -> beta s = g -> In s E). { intros s Hs Hsg. destruct (in_dec Z.eq_dec s E); [done|]. exfalso. by apply (proj2 (Hyr s)). }
    destruct (restore_ok H H' B beta k g E I1 HB Hg Hb' Hfl' Hall) as (H2 & E2 & Hb2 & Hf2); [eauto|].
    eexists _, W, E'. split; [|split; [done|split; [done|left; split; [|done]]]].
    + destruct (wr (P H') g B) as [P2|e| |]; cbn [rbind] in *; [|done..]. rewrite E2. done.
    + split; [exact Hb2|done| |done|done]. split; [done|]. split; [done|]. intros g' Hg'. rewrite Hf2. by apply W3.
  - assert (Hfl2 : forall g', 0 <= g' < k + 1 -> flags H' !! Z.to_nat g' = Some (bool_decide (g' ∈ W))).
    { intros g' Hg'. rewrite Hfl'. pose proof (b_count _ _ _ _ _ I1) as Hc. assert (Hlf : length (flags H) = Z.to_nat k) by (unfold flags; rewrite length_map; lia). destruct (decide (g' = k)) as [->|].
      - rewrite lookup_app_r by lia. rewrite Hlf, Nat.sub_diag. cbn. symmetry. f_equal. apply bool_decide_eq_false_2. rewrite list_elem_of_In. intros Hin. specialize (W2 k Hin). lia.
      - apply lookup_app_l_Some. apply W3. lia. }
    assert (Hiw : isInW y = bool_decide (g ∈ W)). { apply rd_Ok_inv in Hy as [_ Hy]. specialize (Hfl2 g ltac:(lia)). unfold flags in Hfl2. change (map isInW (P H')) with (fmap isInW (P H')) in Hfl2. rewrite list_lookup_fmap, Hy in Hfl2. cbn in Hfl2. congruence. }
    assert (Hb0 : exists b, (if isInW y then Ok k else minBlock H' g k) = Ok b /\ (b = g \/ b = k) /\ (In g W -> b = k)).
    { rewrite Hiw. case_bool_decide as Hin; [by exists k; auto|]. rewrite list_elem_of_In in Hin. unfold minBlock. rewrite Hy. cbn [rbind]. rewrite Hx. cbn [rbind]. destruct (_ <? _); [exists g|exists k]; (split; [done|]; split; [auto|done]). }
    destruct Hb0 as (b & -> & Hbk & Hgw). cbn [rbind]. destruct (wait_ok H' W _ (k + 1) b Hb' Hfl2) as (H2 & E2 & Hb2 & _ & Hf2); [destruct Hbk; lia|]. rewrite E2. cbn [rbind].
    eexists H2, _, E'. split; [done|]. split; [done|]. split; [done|]. right. split; [|by exists b]. assert (exists s, In s ry) as [s3 Hs3] by (destruct ry as [|s3 ?]; [cbn in *; lia|exists s3; by left]). apply Hyr in Hs3.
    eapply cut_inv; try done; eauto.
Qed.

End partition.
End HopcroftSplit.
