(* ===== verification/HopcroftRefine.v ===== *)
(** * Refining the partition

    [split] makes the blocks agree on one splitter; the invariant of the waiting set goes
    through it, so that the loop of [refine] ends with the blocks of states that behave
    alike. *)
From stdpp Require Import sorting sets.
From S2P Require Import Prelude Dfa SmallMap Hopcroft HopcroftList SplitterMap HopcroftSplit.
Import Dfa Hopcroft HopcroftList SplitterMap HopcroftSplit.

Module HopcroftRefine.

Section refine.
Context (d : Dfa).
Hypothesis (Hwf : wf d).
Notation n := (total_states d).
Notation U := (used d).
Notation inv := (inv d).

(** ** What the waiting set is for *)

(** The block that a move leads to. *)
Definition cls (beta : Z -> Z) (o : option Z) : Z := match o with Some t => beta t | None => -1 end.

(** Two states of a block that a move takes to different blocks are known: one of these
    blocks waits, or [D] holds. *)
Definition covered (W : list Z) (beta : Z -> Z) (D : Z -> Z -> Z -> Prop) : Prop :=
  forall s t a, U s -> U t -> beta s = beta t -> cls beta (move d s a) <> cls beta (move d t a) ->
  In (cls beta (move d s a)) W \/ In (cls beta (move d t a)) W \/ D s t a.

Record refines (W : list Z) (beta : Z -> Z) (k : Z) (W' : list Z) (beta' : Z -> Z) (k' : Z) : Prop := {
  r_finer : forall s t, U s -> U t -> beta' s = beta' t -> beta s = beta t;
  r_covered : forall D, covered W beta D -> covered W' beta' D;
  r_length : Z.of_nat (length W') - k' = Z.of_nat (length W) - k;
  r_count : k <= k'
}.

Lemma refines_refl W beta k : refines W beta k W beta k.
Proof. by split. Qed.

Lemma refines_trans W beta k W1 beta1 k1 W2 beta2 k2 : refines W beta k W1 beta1 k1 -> refines W1 beta1 k1 W2 beta2 k2 -> refines W beta k W2 beta2 k2.
Proof. intros [F1 C1 L1 K1] [F2 C2 L2 K2]. split; [auto|auto|lia|lia]. Qed.

Lemma move_used s a t : U s -> move d s a = Some t -> U t /\ 0 <= a < sigma.
Proof.
  intros Hs Hm. destruct (wf_moves d Hwf s Hs) as [_ Hg]. unfold move in Hm. assert (Hin : In (a, t) (moves d s)); [clear - Hm|by destruct (Hg _ _ Hin)].
  induction (moves d s) as [|[c t'] l IH]; [done|]. cbn [find_move] in Hm. destruct (Z.eqb_spec c a) as [->|]; [injection Hm as ->; by left|right]. by apply IH.
Qed.

(** Dividing a block keeps what is covered. *)
Lemma cut_refines H W W' beta k E g : inv H W beta k -> 0 <= g < k -> divided beta E W W' g k -> refines W beta k W' (cut beta E g k) (k + 1).
Proof.
  intros [I1 _ _ _ _] Hg (b & -> & Hbk & Hgw).
  assert (Hfin : forall s t, U s -> U t -> cut beta E g k s = cut beta E g k t -> beta s = beta t).
  { intros s t Hs Ht E0. destruct (b_range _ _ _ _ _ I1 s Hs) as (_ & Hsk & _). destruct (b_range _ _ _ _ _ I1 t Ht) as (_ & Htk & _).
    destruct (cut_cases beta E g k s) as [(_ & Hs1 & Hc)|[_ Hc]]; rewrite Hc in E0; destruct (cut_cases beta E g k t) as [(_ & Ht1 & Hc')|[_ Hc']]; rewrite Hc' in E0; lia. }
  split; [done| |rewrite length_app; cbn; lia|lia].
  intros D HD s t a Hs Ht Hst Hne. set (cls' := cls (cut beta E g k)) in *.
  (* a class that does not change, or [g] that is divided *)
  assert (Hcl : forall u, U u -> cls' (move d u a) = cls beta (move d u a) \/ (cls beta (move d u a) = g /\ cls' (move d u a) = k)).
  { intros u Hu. unfold cls', cls. destruct (move d u a) as [v|]; [|by left]. destruct (cut_cases beta E g k v) as [(_ & H1 & H2)|[_ H2]]; auto. }
  assert (Hput : cls beta (move d s a) = g -> cls beta (move d t a) = g -> In (cls' (move d s a)) (W ++ [b]) \/ In (cls' (move d t a)) (W ++ [b])).
  { intros E1 E2. rewrite !in_app_iff. cbn [In]. destruct (Hcl s Hs) as [C1|[_ C1]], (Hcl t Ht) as [C2|[_ C2]]; rewrite C1, C2 in *; rewrite ?E1, ?E2 in *; [done| | |done]; intuition. }
  assert (Hkeep : forall u, U u -> In (cls beta (move d u a)) W -> In (cls' (move d u a)) (W ++ [b])).
  { intros u Hu Hin. rewrite in_app_iff. cbn [In]. destruct (Hcl u Hu) as [->|[E1 ->]]; [by left|]. rewrite E1 in Hin. right. left. by apply Hgw. }
  destruct (Z.eq_dec (cls beta (move d s a)) (cls beta (move d t a))) as [Heq|Hneq].
  - assert (cls beta (move d s a) = g) as Eg; [|destruct (Hput Eg) as [?|?]; [congruence|auto|auto]].
    destruct (Hcl s Hs) as [C1|[C1 _]]; [|done]. destruct (Hcl t Ht) as [C2|[C2 _]]; [congruence|congruence].
  - destruct (HD s t a Hs Ht (Hfin s t Hs Ht Hst) Hneq) as [Hin|[Hin|HDs]]; [left; by apply Hkeep|right; left; by apply Hkeep|by right; right].
Qed.

(** ** The candidates *)

(** The number of states in the block of [s]. *)
Definition size (H : Hopcroft) (beta : Z -> Z) (s : Z) : Z := match rd (P H) (beta s) with Ok b => blen b | _ => 0 end.

Lemma size_spec H beta k s : blocks n U H beta k -> U s -> exists b r, rd (P H) (beta s) = Ok b /\ blen b = size H beta s /\ NoDup r /\ (forall t, In t r <-> U t /\ beta t = beta s) /\
  size H beta s = Z.of_nat (length r) /\ 0 < size H beta s.
Proof.
  intros Hb Hs. destruct (b_range _ _ _ _ _ Hb s Hs) as (_ & Hk & _). destruct (block_at d H beta k (beta s) Hb Hk) as (b & r & E & Hnd & Hr & _ & Hl). exists b, r. unfold size. rewrite E.
  do 5 (split; [done|]). rewrite Hl. assert (In s r) by (by apply Hr). destruct r; [done|cbn; lia].
Qed.

Lemma size_one H beta k s : blocks n U H beta k -> U s -> size H beta s = 1 -> forall t, U t -> beta t = beta s -> t = s.
Proof.
  intros Hb Hs H1 t Ht Hts. destruct (size_spec H beta k s Hb Hs) as (b & r & _ & _ & _ & Hr & Hl & _). destruct r as [|x [|y r]]; cbn in Hl; [lia| |lia].
  assert (In t [x]) as [<-|[]] by (by apply Hr). assert (In s [x]) as [<-|[]] by (by apply Hr). done.
Qed.

Lemma size_more H beta k s : blocks n U H beta k -> U s -> size H beta s <> 1 -> exists t, U t /\ t <> s /\ beta t = beta s.
Proof.
  intros Hb Hs H1. destruct (size_spec H beta k s Hb Hs) as (b & r & _ & _ & Hnd & Hr & Hl & Hpos). destruct r as [|x [|y r]]; cbn in Hl; [lia|lia|].
  apply list.NoDup_cons in Hnd as [Hxy _]. destruct (Z.eq_dec x s) as [->|Hne].
  - exists y. assert (In y (s :: y :: r)) as Hy by (right; by left). apply Hr in Hy as [? ?]. split; [done|]. split; [|done]. intros ->. apply Hxy. by left.
  - exists x. assert (In x (x :: y :: r)) as Hx by (by left). apply Hr in Hx as [? ?]. done.
Qed.

Lemma candidates_ok H beta k E : blocks n U H beta k -> (forall s, In s E -> U s) -> exists bls,
  candidates H E = Ok (filter (fun s => size H beta s <> 1) E, bls) /\ (forall g, In g bls <-> exists s, In s E /\ size H beta s <> 1 /\ beta s = g).
Proof.
  intros Hb HE. unfold candidates.
  destruct (for_inv (fun i '(E', j, bls) => exists V D F mid, E = V ++ D /\ Z.of_nat (length V) = i /\ E' = F ++ mid ++ D /\ Z.of_nat (length F + length mid) = i /\ j = Z.of_nat (length F) /\
      F = filter (fun s => size H beta s <> 1) V /\ bls = map beta F)
    (fun iE1 '(E, iE2, bls) => let* sE := rd E iE1 in let* e := rd (L H) sE in let* b := rd (P H) (blid e) in
      let* (E, iE2, bls) := if negb (blen b =? 1) then let* E := wr E iE2 sE in Ok (E, iE2 + 1, bls ++ [blid e]) else Ok (E, iE2, bls) in
      let* _ := assert_ (0 <? blen b) in Ok (E, iE2, bls)) 0 (Z.of_nat (length E)) (E, 0, [])) as ([[E' j] bls] & EQ & V & D & F & mid & HE' & HV & -> & Hlen & -> & HF & ->); [lia| | |].
  - exists [], E, [], []. done.
  - intros i [[E' j] bls] Hi (V & D & F & mid & HE' & HV & -> & Hlen & -> & HF & ->). destruct D as [|s D]; [rewrite app_nil_r in HE'; subst V; lia|].
    rewrite rd_compact by lia. cbn [rbind]. assert (Hs : U s) by (apply HE; rewrite HE'; apply in_or_app; right; by left). destruct (b_range _ _ _ _ _ Hb s Hs) as (Hsn & _ & Hbld).
    rewrite rd_el by (rewrite (b_length _ _ _ _ _ Hb); lia). cbn [rbind]. unfold bld in Hbld. rewrite Hbld. destruct (size_spec H beta k s Hb Hs) as (b & r & -> & Hbl & _ & _ & _ & Hpos). cbn [rbind]. rewrite Hbl.
    rewrite (proj2 (Z.ltb_lt 0 _) Hpos). destruct (Z.eqb_spec (size H beta s) 1) as [E1|E1]; cbn [negb].
    + cbn [rbind assert_]. eexists. split; [done|]. exists (V ++ [s]), D, F, (mid ++ [s]). split; [by rewrite <- app_assoc|]. split; [rewrite length_app; cbn; lia|]. split; [by rewrite <- !app_assoc|].
      split; [rewrite length_app; cbn; lia|]. split; [done|]. split; [|done]. rewrite list.filter_app, filter_cons_False, filter_nil, app_nil_r by tauto. done.
    + destruct (keep_step F mid s D) as (mid' & Hm' & ->). cbn [rbind assert_]. eexists. split; [done|]. exists (V ++ [s]), D, (F ++ [s]), mid'. split; [by rewrite <- app_assoc|]. split; [rewrite length_app; cbn; lia|]. split; [done|].
      split; [rewrite length_app; cbn; lia|]. split; [rewrite length_app; cbn; lia|]. split; [|by rewrite map_app]. rewrite list.filter_app, filter_cons_True, filter_nil by done. by rewrite HF.
  - assert (D = []) as ->. { assert (length D = 0%nat); [|by destruct D]. rewrite HE', length_app in HV. lia. } rewrite app_nil_r in HE'. subst V.
    exists (unique (map beta F)). rewrite EQ. cbn [rbind]. rewrite Nat2Z.id, take_app_length. rewrite <- HF. split; [done|]. intros g. rewrite unique_in, in_map_iff, HF. split.
    + intros (s & <- & Hs). apply list_elem_of_In, list_elem_of_filter in Hs as [H1 H2]. exists s. rewrite <- list_elem_of_In. done.
    + intros (s & Hs & H1 & <-). exists s. split; [done|]. apply list_elem_of_In, list_elem_of_filter. by rewrite list_elem_of_In.
Qed.
(** ** One splitter *)

Definition uniform (E : list Z) : Prop := forall s t, U s -> U t -> alike d d s t -> In s E <-> In t E.

(** What [split] has reached when the first [i] of the blocks [bls] are done; [F] are the
    candidates. *)
Record halfway (beta : Z -> Z) (k : Z) (W F bls : list Z) (i : Z) (H' : Hopcroft) (W' E' : list Z) (beta' : Z -> Z) (k' : Z) : Prop := {
  hw_inv : inv H' W' beta' k';
  hw_refines : refines W beta k W' beta' k';
  hw_nodup : NoDup E';
  hw_rest : forall s, In s E' <-> In s F /\ ~ In (beta s) (take (Z.to_nat i) bls);
  hw_same : forall s, U s -> ~ In (beta s) (take (Z.to_nat i) bls) -> beta' s = beta s;
  hw_done : forall s t, U s -> U t -> In (beta s) (take (Z.to_nat i) bls) -> beta' s = beta' t -> In s F <-> In t F
}.

Lemma in_take_step (l : list Z) i g x : 0 <= i -> l !! Z.to_nat i = Some g -> In x (take (Z.to_nat (i + 1)) l) <-> In x (take (Z.to_nat i) l) \/ x = g.
Proof.
  intros Hi Hg. replace (Z.to_nat (i + 1)) with (S (Z.to_nat i)) by lia. rewrite (take_S_r _ _ _ Hg), in_app_iff. cbn. intuition.
Qed.

Lemma nodup_take (l : list Z) i g : NoDup l -> l !! i = Some g -> ~ In g (take i l).
Proof.
  intros Hnd Hg Hin. apply list_elem_of_In, list_elem_of_lookup_1 in Hin as [j Hj]. apply lookup_take_Some in Hj as [Hj Hlt]. pose proof (NoDup_lookup l i j g Hnd Hg Hj). lia.
Qed.

Lemma split_step_ok H W E beta k F bls i g H' W' E' beta' k' : inv H W beta k -> uniform E -> (forall s, In s E -> U s) -> F = filter (fun s => size H beta s <> 1) E ->
  NoDup bls -> (forall g, In g bls <-> exists s, In s F /\ beta s = g) -> 0 <= i -> bls !! Z.to_nat i = Some g -> halfway beta k W F bls i H' W' E' beta' k' ->
  exists H2 W2 E2 beta2 k2, split_block g (H', W', E') = Ok (H2, W2, E2) /\ halfway beta k W F bls (i + 1) H2 W2 E2 beta2 k2.
Proof.
  intros HI Hu HE -> Hnd Hbls Hi Hg [HI' HR HndE HE' Hsame Hdone]. set (F := filter (fun s => size H beta s <> 1) E) in *.
  assert (HF : forall s, In s F <-> In s E /\ size H beta s <> 1) by (intros s; unfold F; rewrite <- !list_elem_of_In, list_elem_of_filter; tauto).
  pose proof (i_blocks _ _ _ _ _ HI) as Hb. assert (Hgb : In g bls) by (apply list_elem_of_In; by eapply list_elem_of_lookup_2). apply Hbls in Hgb as (s0 & Hs0F & Hs0g).
  assert (HgT : ~ In g (take (Z.to_nat i) bls)) by (by apply nodup_take). apply HF in Hs0F as Hs0'. destruct Hs0' as [Hs0E Hs0s]. pose proof (HE s0 Hs0E) as Hs0.
  assert (Hblk : forall s, U s -> beta' s = g <-> beta s = g).
  { intros s Hs. split; [|intros Hsg; rewrite Hsame, Hsg; [done|done|by rewrite Hsg]]. intros Hsg. rewrite <- Hs0g. apply (r_finer _ _ _ _ _ _ HR); [done|done|]. rewrite (Hsame s0), Hsg, Hs0g; [done|done|by rewrite Hs0g]. }
  assert (HFE : forall s, beta s = g -> In s E' <-> In s F) by (intros s Hsg; rewrite HE', Hsg; tauto).
  destruct (size_more H beta k s0 Hb Hs0 Hs0s) as (s1 & Hs1 & Hne & Hs1g).
  assert (Hgk : 0 <= g < k'). { destruct (b_range _ _ _ _ _ (i_blocks _ _ _ _ _ HI') s0 Hs0) as (_ & Hr & _). by rewrite (proj2 (Hblk s0 Hs0) Hs0g) in Hr. }
  destruct (split_block_ok d Hwf H' W' E' beta' k' g HI' HndE) as (H2 & W2 & E2 & EQ & Hnd2 & HE2 & Hcase); [intros s Hs; apply HE, HF, HE', Hs|done| | | |].
  { exists s0. split; [by apply HFE|by apply Hblk]. }
  { exists s0, s1. split; [done|]. split; [done|]. split; [congruence|]. split; apply Hblk; congruence. }
  { intros s t Hs Ht Hst Hsg Htg. apply Hblk in Hsg, Htg; [|done..]. rewrite !HFE, !HF, (Hu s t) by done. unfold size. by rewrite Hsg, Htg. }
  assert (HTi : forall x, In x (take (Z.to_nat (i + 1)) bls) <-> In x (take (Z.to_nat i) bls) \/ x = g) by (intros x; by apply in_take_step).
  assert (HE2' : forall s, In s E2 <-> In s F /\ ~ In (beta s) (take (Z.to_nat (i + 1)) bls)).
  { intros s. rewrite HE2, HE', HTi. split; [intros [[H1 H3] H4]; split; [done|]; intros [?|Hsg]; [done|]; apply H4, Hblk; [by apply HE, HF|done]|].
    intros [H1 H3]. split; [tauto|]. intros Hsg. apply H3. right. apply Hblk; [by apply HE, HF|done]. }
  destruct Hcase as [(HI2 & -> & Hall)|(HI2 & Hdiv)].
  - eexists H2, W', E2, beta', k'. split; [exact EQ|]. split; try done.
    + intros s Hs Hn. apply Hsame; [done|]. intros Hin. apply Hn, HTi. by left.
    + intros s t Hs Ht Hin Hst. apply HTi in Hin as [Hin|Hsg]; [by apply Hdone|]. pose proof (proj2 (Hblk s Hs) Hsg) as Hsg'. assert (Htg : beta t = g) by (apply Hblk; congruence).
      rewrite <- (HFE s Hsg), <- (HFE t Htg). split; intros _; apply Hall; congruence.
  - eexists H2, W2, E2, _, (k' + 1). split; [exact EQ|]. pose proof (cut_refines H' W' W2 beta' k' E' g HI' Hgk Hdiv) as HR2. split; [done|by eapply refines_trans|done|done| |].
    + intros s Hs Hn. rewrite HTi in Hn. rewrite cut_out, Hsame; [done|done|tauto|]. intros [_ Hsg]. apply Hblk in Hsg; [|done]. tauto.
    + intros s t Hs Ht Hin Hst. pose proof (r_finer _ _ _ _ _ _ HR2 s t Hs Ht Hst) as Hst'. apply HTi in Hin as [Hin|Hsg]; [by apply Hdone|].
      pose proof (proj2 (Hblk s Hs) Hsg) as Hsg'. assert (Htg : beta t = g) by (apply Hblk; congruence). rewrite <- (HFE s Hsg), <- (HFE t Htg).
      destruct (b_range _ _ _ _ _ (i_blocks _ _ _ _ _ HI') s Hs) as (_ & Hr & _). assert (Htg' : beta' t = g) by congruence.
      destruct (cut_cases beta' E' g k' s) as [(H1 & _ & Hc)|[H1 Hc]]; rewrite Hc in Hst; destruct (cut_cases beta' E' g k' t) as [(H3 & _ & Hc')|[H3 Hc']]; rewrite Hc' in Hst; [tauto|lia|lia|tauto].
Qed.

Lemma split_ok H W E beta k : inv H W beta k -> NoDup E -> E <> [] -> (forall s, In s E -> U s) -> uniform E -> exists H' W' E' beta' k',
  split H W E = Ok (H', W', E') /\ inv H' W' beta' k' /\ refines W beta k W' beta' k' /\ forall s t, U s -> U t -> beta' s = beta' t -> In s E <-> In t E.
Proof.
  intros HI Hnd Hne HE Hu. pose proof (i_blocks _ _ _ _ _ HI) as Hb. destruct (candidates_ok H beta k E Hb HE) as (bls & EC & Hbls). set (F := filter (fun s => size H beta s <> 1) E) in *.
  assert (HF : forall s, In s F <-> In s E /\ size H beta s <> 1) by (intros s; unfold F; rewrite <- !list_elem_of_In, list_elem_of_filter; tauto).
  assert (HndF : NoDup F) by (by apply list.NoDup_filter). assert (HbF : forall g, In g bls <-> exists s, In s F /\ beta s = g) by (intros g; rewrite Hbls; split; intros (s & Hs); exists s; rewrite HF in *; tauto).
  (* agreeing on [F] is agreeing on [E] *)
  assert (HFE : forall s t, U s -> U t -> beta s = beta t -> (In s F <-> In t F) -> In s E <-> In t E).
  { intros s t Hs Ht Hst Hiff. destruct (Z.eq_dec (size H beta s) 1) as [E1|E1].
    - by rewrite (size_one H beta k s Hb Hs E1 t Ht).
    - rewrite !HF in Hiff. assert (size H beta t = size H beta s) as Es by (unfold size; by rewrite Hst). rewrite Es in Hiff. tauto. }
  unfold split. assert (Z.of_nat (length E) =? 0 = false) as -> by (destruct E; [done|apply Z.eqb_neq; cbn; lia]). cbn [negb assert_ rbind]. rewrite EC. cbn [rbind].
  assert (Hloop : exists H' W' E' beta' k', (let bls := (if Z.of_nat (length bls) =? 1 then bls else unique (sort bls)) in for_ 0 (Z.of_nat (length bls)) (fun i st => let* B_E := rd bls i in split_block B_E st) (H, W, F)) = Ok (H', W', E') /\
    inv H' W' beta' k' /\ refines W beta k W' beta' k' /\ forall s t, U s -> U t -> beta' s = beta' t -> In s E <-> In t E).
  { set (b2 := if Z.of_nat (length bls) =? 1 then bls else unique (sort bls)). cbv zeta.
    assert (Hb2 : NoDup b2 /\ forall g, In g b2 <-> In g bls).
    { unfold b2. destruct (Z.eqb_spec (Z.of_nat (length bls)) 1) as [E1|E1]; [split; [|done]; destruct bls as [|x [|y l]]; cbn in E1; [lia|apply NoDup_singleton|lia]|].
      split; [apply unique_sort_nodup|]. intros g. by rewrite unique_in, sort_in. }
    destruct Hb2 as [Hb2 Hb2in]. assert (HbF2 : forall g, In g b2 <-> exists s, In s F /\ beta s = g) by (intros g; by rewrite Hb2in, HbF).
    destruct (for_inv (fun i '(H', W', E') => exists beta' k', halfway beta k W F b2 i H' W' E' beta' k') (fun i st => let* B_E := rd b2 i in split_block B_E st) 0 (Z.of_nat (length b2)) (H, W, F))
      as ([[H' W'] E'] & EQ & beta' & k' & HH); [lia| | |].
    - exists beta, k. split; [done|apply refines_refl|done|intros s; cbn; tauto|done|by intros s t _ _ []].
    - intros i [[H1 W1] E1] Hi (beta1 & k1 & HH). destruct (lookup_lt_is_Some_2 b2 (Z.to_nat i)) as [g Hg]; [lia|]. rewrite (rd_ok b2 i g) by (lia || done). cbn [rbind].
      destruct (split_step_ok H W E beta k F b2 i g H1 W1 E1 beta1 k1) as (H2 & W2 & E2 & beta2 & k2 & -> & HH2); try done; [lia|]. eexists. split; [done|]. by exists beta2, k2.
    - exists H', W', E', beta', k'. destruct HH as [A1 A2 _ _ _ A6]. split; [exact EQ|]. split; [done|]. split; [done|]. intros s t Hs Ht Hst.
      pose proof (r_finer _ _ _ _ _ _ A2 s t Hs Ht Hst) as Hst'. apply HFE; [done..|]. rewrite Nat2Z.id, firstn_all in A6.
      destruct (in_dec Z.eq_dec (beta s) b2) as [Hin|Hin]; [by apply A6|]. assert (Hn : forall u, beta u = beta s -> ~ In u F) by (intros u Hu' HuF; apply Hin, HbF2; eauto).
      split; intros Hx; exfalso; [by apply (Hn s)|by apply (Hn t)]. }
  destruct (Z.eqb_spec (Z.of_nat (length bls)) 1) as [E1|E1]; [|cbn [rbind negb]; exact Hloop].
  assert (exists g, bls = [g]) as [g ->] by (destruct bls as [|g [|]]; cbn in E1; [lia|by exists g|lia]). assert (Hg : In g [g]) by (by left). apply HbF in Hg as (s0 & Hs0F & Hs0g). pose proof (HE s0 (proj1 (proj1 (HF s0) Hs0F))) as Hs0.
  destruct (size_spec H beta k s0 Hb Hs0) as (b & r & Hbr & Hbl & Hndr & Hr & Hlr & _). rewrite Hs0g in Hbr. change (rd [g] 0) with (Ok g). cbn [rbind]. rewrite Hbr. cbn [rbind].
  assert (HFr : forall s, In s F -> In s r). { intros s Hs. apply Hr. split; [by apply HE, HF|]. assert (In (beta s) [g]) as [<-|[]] by (apply HbF; eauto). done. }
  pose proof (subset_length r F HndF HFr) as Hle. destruct (Z.eqb_spec (Z.of_nat (length F)) (blen b)) as [El|El].
  - cbn [rbind negb]. eexists H, W, F, beta, k. split; [done|]. split; [done|]. split; [apply refines_refl|]. intros s t Hs Ht Hst. apply HFE; [done..|].
    assert (HrF : forall x, In x r -> In x F). { apply (NoDup_length_incl (l := F) (l' := r)); [by apply NoDup_ListNoDup|lia|exact HFr]. }
    assert (Hiff : forall x, U x -> In x F <-> beta x = beta s0). { intros x Hx. split; [intros Hin; by apply Hr, HFr|]. intros Hxs. by apply HrF, Hr. } rewrite (Hiff s Hs), (Hiff t Ht). by rewrite Hst.
  - rewrite (proj2 (Z.ltb_lt _ _)) by lia. cbn [assert_ rbind negb]. exact Hloop.
Qed.

End refine.
End HopcroftRefine.
