(* ===== verification/HopcroftLoop.v ===== *)
(** * The loop of [refine]

    A block that waits gives the splitters of every character; when nothing waits, two
    states are in one block exactly when they behave alike. *)
From stdpp Require Import sorting sets.
From S2P Require Import Prelude Dfa SmallMap Hopcroft HopcroftList SplitterMap HopcroftSplit HopcroftRefine.
Import Dfa Hopcroft HopcroftList SplitterMap HopcroftSplit HopcroftRefine.

Module HopcroftLoop.

(** ** States that behave alike *)

Lemma alike_refl d s : alike d d s s.
Proof. by intros w. Qed.
Lemma alike_sym d s t : alike d d s t -> alike d d t s.
Proof. intros H w. by rewrite H. Qed.

Lemma trace_cons d s c w : trace d s (c :: w) = match move d s c with Some t => trace d t w | None => None end.
Proof. unfold trace. cbn [run]. by destruct (move d s c). Qed.

Lemma alike_term d s t : alike d d s t -> is_term d s = is_term d t.
Proof. intros H. specialize (H []). cbn in H. congruence. Qed.

Lemma alike_move d s t a u : alike d d s t -> move d s a = Some u -> exists v, move d t a = Some v /\ alike d d u v.
Proof.
  intros H Hm. destruct (move d t a) as [v|] eqn:Hv.
  - exists v. split; [done|]. intros w. specialize (H (a :: w)). by rewrite !trace_cons, Hm, Hv in H.
  - specialize (H [a]). rewrite !trace_cons, Hm, Hv in H. done.
Qed.

Section loop.
Context (d : Dfa).
Hypothesis (Hwf : wf d).
Notation n := (total_states d).
Notation U := (used d).
Notation inv := (inv d).
Notation covered := (covered d).
Notation refines := (refines d).

(** [egen] puts the moves to [u] into the map. *)
Context (egen : Z -> splitters -> res splitters) (rev : Z -> list (Z * Z)).
Hypothesis (Hegen : forall u m l, U u -> holds m l -> exists m', egen u m = Ok m' /\ holds m' (foldl (fun l '(c, s) => ins c s l) l (rev u))).
Hypothesis (Hrev : forall u c s, U u -> In (c, s) (rev u) <-> U s /\ move d s c = Some u).
Hypothesis (Hrev_nodup : forall u, U u -> NoDup (rev u)).

Lemma take_ok H W C beta k : inv H (W ++ [C]) beta k -> exists H', takeW (W ++ [C]) H = Ok (C, W, H') /\ inv H' W beta k /\ L H' = L H.
Proof.
  intros [I1 I2 (W1 & W2 & W3) I4 I5]. assert (HC : 0 <= C < k) by (apply W2, in_or_app; right; by left). destruct (block_at d H beta k C I1 HC) as (x & _ & Hx & _). pose proof (rd_range _ _ _ Hx) as Hr.
  unfold takeW. assert (rd (W ++ [C]) (Z.of_nat (length (W ++ [C])) - 1) = Ok C) as ->.
  { apply rd_ok; rewrite length_app; cbn; [lia|]. rewrite lookup_app_r by lia. by replace (Z.to_nat (Z.of_nat (length W + 1) - 1) - length W)%nat with 0%nat by lia. }
  cbn [rbind]. rewrite (upd_rd _ _ _ _ Hx). cbn [rbind]. rewrite removelast_last. eexists. split; [done|]. split; [|done]. apply list.NoDup_app in W1 as (W1 & W4 & _).
  assert (HCW : C ∉ W) by (intros Hin; apply (W4 C Hin); by left). split; [|done| |done|done].
  - destruct I1 as [B1 B2 B3 B4]. split; cbn [L P]; [done|by rewrite length_insert|done|]. intros g Hg. destruct (B4 g Hg) as (r & Hnd & Hrr & y & Hy & Hrest). exists r. split; [done|]. split; [done|].
    destruct (decide (g = C)) as [->|Hne].
    + exists (set_isInW false y). cbn [P L]. rewrite insert_rd, Z.eqb_refl by lia. rewrite Hx in Hy. injection Hy as <-. done.
    + exists y. cbn [P L]. rewrite insert_rd by lia. by rewrite (proj2 (Z.eqb_neq g C)).
  - split; [done|]. split; [intros g Hg; apply W2, in_or_app; by left|]. intros g Hg. unfold flags. cbn [P].
    rewrite (list_fmap_insert isInW (P H) (Z.to_nat C) _ : map isInW (<[Z.to_nat C:=_]> (P H)) = <[Z.to_nat C := _]> (map isInW (P H))). cbn [set_isInW isInW]. destruct (decide (g = C)) as [->|Hne].
    + rewrite list_lookup_insert_eq by (rewrite length_map; lia). by rewrite bool_decide_eq_false_2.
    + rewrite list_lookup_insert_ne by lia. fold (flags H). rewrite W3 by done. f_equal. apply bool_decide_ext. rewrite elem_of_app, list_elem_of_singleton. tauto.
Qed.

(** *** The splitters of a block *)

Lemma rev_nodup us : NoDup us -> (forall u, In u us -> U u) -> NoDup (concat (map rev us)).
Proof.
  intros Hnd. induction Hnd as [|u us Hn Hnd IH]; intros Hus; [constructor|]. cbn [map concat]. apply list.NoDup_app. split; [apply Hrev_nodup, Hus; by left|]. split; [|apply IH; intros v Hv; apply Hus; by right].
  intros [c s] Hx Hx'. apply list_elem_of_In in Hx, Hx'. apply in_concat in Hx' as (ps & Hps & Hx'). apply in_map_iff in Hps as (v & <- & Hv).
  apply Hrev in Hx as [_ Hx]; [|apply Hus; by left]. apply Hrev in Hx' as [_ Hx']; [|apply Hus; by right]. assert (u = v) as -> by congruence. by apply Hn, list_elem_of_In.
Qed.

Lemma gather_ok H beta k C m0 : blocks n U H beta k -> 0 <= C < k -> (exists s, U s /\ beta s = C) -> holds m0 [] -> exists b m l ps, rd (P H) C = Ok b /\
  ring_loop (fun _ => H) egen (S (length (L H))) (head b) m0 = Ok m /\ holds m l /\ grouped l ps /\ NoDup ps /\
  forall c s, In (c, s) ps <-> U s /\ cls beta (move d s c) = C.
Proof.
  intros Hb HC (s0 & Hs0 & Hs0C) Hm0. destruct (b_rings _ _ _ _ _ Hb C HC) as (r & Hnd & Hr & b & Hrb & Hlen & Hh & Hc).
  assert (Hrne : r <> []) by (intros ->; by apply (Hr s0)). destruct (rotate_to (L H) r (head b) (Hh Hrne) Hc Hnd) as (l0 & Hcl & Hperm).
  assert (Hin : forall x, In x (head b :: l0) <-> U x /\ beta x = C). { intros x. rewrite <- Hr, <- !list_elem_of_In, Hperm. done. }
  assert (Hnd' : NoDup (head b :: l0)) by (by rewrite <- Hperm). assert (HU : forall x, In x (head b :: l0) -> U x) by (intros x Hx; by apply Hin in Hx as [? _]).
  assert (Hln : (length (head b :: l0) <= length (L H))%nat).
  { apply Nat2Z.inj_le. rewrite (b_length _ _ _ _ _ Hb). pose proof (nodup_length n (head b :: l0) Hnd') as Hnl. pose proof (size_pos d Hwf). rewrite Z.max_r in Hnl by lia. apply Hnl. intros x Hx. by apply (b_range _ _ _ _ _ Hb), HU. }
  destruct (ring_loop_ok (fun _ => H) egen (fun v m => exists l, holds m l /\ grouped l (concat (map rev v))) (L H) (head b) l0 (S (length (L H))) m0) as (m & E & l & Hml & Hgr).
  - done.
  - done.
  - intros x Hx. rewrite (b_length _ _ _ _ _ Hb). by apply (b_range _ _ _ _ _ Hb), HU.
  - lia.
  - exists []. split; [done|apply grouped_nil].
  - intros v x m Hx (l & Hml & Hgr). destruct (Hegen x m l (HU x Hx) Hml) as (m' & E & Hm'). exists m'. split; [done|]. split; [|done]. eexists. split; [exact Hm'|].
    rewrite map_app, concat_app. cbn [map concat]. rewrite app_nil_r. by apply foldl_grouped.
  - exists b, m, l, (concat (map rev (head b :: l0))). split; [done|]. split; [done|]. split; [done|]. split; [done|]. split; [by apply rev_nodup|]. intros c s. rewrite in_concat. split.
    + intros (ps & Hps & Hx). apply in_map_iff in Hps as (u & <- & Hu). apply Hin in Hu as [Hu <-]. apply Hrev in Hx as [Hs Hm]; [|done]. by rewrite Hm.
    + intros [Hs Hm]. destruct (move d s c) as [u|] eqn:Hu; cbn [cls] in Hm; [|lia]. destruct (move_used d Hwf s c u Hs Hu) as [HUu _]. exists (rev u). split; [|by apply Hrev].
      apply in_map. by apply Hin.
Qed.

Lemma uniform_splitter H W beta k C l ps i c es : inv H W beta k -> 0 <= C -> grouped l ps -> (forall c s, In (c, s) ps <-> U s /\ cls beta (move d s c) = C) -> l !! i = Some (c, es) -> uniform d es.
Proof.
  intros HI HC Hg Hps Hi s t Hs Ht Hst. rewrite !(grouped_in l ps i c es) by done. rewrite !Hps.
  assert (Hone : forall s t, U s -> U t -> alike d d s t -> cls beta (move d s c) = C -> cls beta (move d t c) = C).
  { clear s t Hs Ht Hst. intros s t Hs Ht Hst Hc. destruct (move d s c) as [u|] eqn:Hu; cbn [cls] in Hc; [|lia]. destruct (alike_move d s t c u Hst Hu) as (v & Hv & Huv). rewrite Hv. cbn [cls]. rewrite <- Hc.
    symmetry. apply (i_alike _ _ _ _ _ HI); [| |done]; [apply (move_used d Hwf s c u)|apply (move_used d Hwf t c v)]; done. }
  split; intros [_ Hc]; (split; [done|]); [by apply (Hone s)|apply (Hone t); [done|done|by apply alike_sym|done]].
Qed.
(** *** One block that waits *)

(** After the splitters before [j] of [l]. *)
Record stepped (W : list Z) (beta : Z -> Z) (k : Z) (l : list (Z * list Z)) (j : Z) (H' : Hopcroft) (W' : list Z) (m' : splitters) (beta' : Z -> Z) (k' : Z) (l' : list (Z * list Z)) : Prop := {
  st_inv : inv H' W' beta' k';
  st_refines : refines W beta k W' beta' k';
  st_holds : holds m' l';
  st_length : length l' = length l;
  st_rest : forall i, j <= Z.of_nat i -> l' !! i = l !! i;
  st_done : forall i c es, Z.of_nat i < j -> l !! i = Some (c, es) -> forall s t, U s -> U t -> beta' s = beta' t -> In s es <-> In t es
}.

Lemma splitter_step_ok W beta k l j H' W' m' beta' k' l' : 0 <= j < Z.of_nat (length l) -> stepped W beta k l j H' W' m' beta' k' l' ->
  (forall i c es, l !! i = Some (c, es) -> NoDup es /\ es <> [] /\ (forall s, In s es -> U s) /\ uniform d es) -> exists st,
  (let* E := SmallMap.byidx m' j in let* (H, W, es) := split H' W' (elems E) in let* C_1 := SmallMap.set_idx m' j (MkSplitter es (ch E)) in Ok (H, W, C_1)) = Ok st /\
  exists beta2 k2 l2, let '(H2, W2, m2) := st in stepped W beta k l (j + 1) H2 W2 m2 beta2 k2 l2.
Proof.
  intros Hj [S1 S2 S3 S4 S5 S6] Hl. destruct (lookup_lt_is_Some_2 l (Z.to_nat j)) as [[c es] Hc]; [lia|]. assert (Hc' : l' !! Z.to_nat j = Some (c, es)) by (rewrite S5 by lia; done).
  destruct (h_in _ _ S3 _ _ _ Hc') as [Hp _]. unfold SmallMap.byidx. rewrite (h_n _ _ S3), S4, (proj2 (Z.ltb_lt _ _)) by lia. cbn [assert_ rbind]. rewrite (rd_ok _ j _ ltac:(lia) Hp). cbn [rbind elems ch].
  destruct (Hl _ _ _ Hc) as (E1 & E2 & E3 & E4). destruct (split_ok d Hwf H' W' es beta' k' S1 E1 E2 E3 E4) as (H2 & W2 & es2 & beta2 & k2 & -> & I2 & R2 & U2). cbn [rbind].
  destruct (set_holds m' l' (Z.to_nat j) c es es2 S3 Hc') as (m2 & Em & Hm2 & _). rewrite Z2Nat.id in Em by lia. rewrite Em. cbn [rbind]. eexists. split; [done|]. exists beta2, k2, (<[Z.to_nat j := (c, es2)]> l').
  split; [done|by eapply refines_trans|done|by rewrite length_insert| |].
  - intros i Hi. rewrite list_lookup_insert_ne by lia. apply S5. lia.
  - intros i c' es' Hi Hi' s t Hs Ht Hst. destruct (decide (i = Z.to_nat j)) as [->|Hne].
    + rewrite Hc in Hi'. injection Hi' as <- <-. by apply U2.
    + apply (S6 i c' es'); [lia|done|done|done|]. by apply (r_finer _ _ _ _ _ _ _ R2).
Qed.

Lemma refine_step_ok H W C beta k m l0 : inv H (W ++ [C]) beta k -> covered (W ++ [C]) beta (fun _ _ _ => False) -> holds m l0 -> exists H' W' m' beta' k' l',
  refine_step egen (H, W ++ [C], m) = Ok (H', W', m') /\ inv H' W' beta' k' /\ covered W' beta' (fun _ _ _ => False) /\ holds m' l' /\ Z.of_nat (length W') - k' = Z.of_nat (length W) - k.
Proof.
  intros HI HJ Hm. assert (HC : 0 <= C < k) by (apply (i_waiting _ _ _ _ _ HI), in_or_app; right; by left). destruct (i_onto _ _ _ _ _ HI C HC) as (s0 & Hs0 & Hs0C).
  destruct (take_ok H W C beta k HI) as (H1 & ET & HI1 & HL1). destruct (resize0_holds m l0 Hm) as (m1 & EZ & Hm1). pose proof (i_blocks _ _ _ _ _ HI1) as Hb1.
  destruct (gather_ok H1 beta k C m1 Hb1 HC) as (b & m2 & l & ps & EB & EG & Hm2 & Hgr & Hndp & Hps); [by exists s0|done|].
  unfold refine_step. rewrite ET. cbn [rbind]. rewrite EZ. cbn [rbind]. rewrite EB. cbn [rbind]. rewrite EG. cbn [rbind].
  assert (Hes : forall i c es, l !! i = Some (c, es) -> NoDup es /\ es <> [] /\ (forall s, In s es -> U s) /\ uniform d es).
  { intros i c es Hi. split; [by eapply grouped_nodup|]. split; [by destruct (g_lists _ _ Hgr i c es Hi)|]. split; [|apply (uniform_splitter H1 W beta k C l ps i c es); (done || lia)].
    intros s Hs. rewrite (grouped_in l ps i c es) in Hs by done. by apply Hps in Hs as [? _]. }
  destruct (for_inv (fun j '(H', W', m') => exists beta' k' l', stepped W beta k l j H' W' m' beta' k' l')
    (fun j '(H, W, C_1) => let* E := SmallMap.byidx C_1 j in let* (H, W, es) := split H W (elems E) in let* C_1 := SmallMap.set_idx C_1 j (MkSplitter es (ch E)) in Ok (H, W, C_1))
    0 (SmallMap.n m2) (H1, W, m2)) as ([[H' W'] m'] & EQ & beta' & k' & l' & [S1 S2 S3 S4 S5 S6]).
  - rewrite (h_n _ _ Hm2). lia.
  - exists beta, k, l. split; [done|apply refines_refl|done|done|done|]. intros i c es Hi. lia.
  - intros j [[H' W'] m'] Hj (beta' & k' & l' & HS). rewrite (h_n _ _ Hm2) in Hj. destruct (splitter_step_ok W beta k l j H' W' m' beta' k' l' Hj HS Hes) as ([[H3 W3] m3] & E3 & HS3). eauto.
  - exists H', W', m', beta', k', l'. split; [exact EQ|]. split; [done|]. split; [|split; [done|apply (r_length _ _ _ _ _ _ _ S2)]]. rewrite (h_n _ _ Hm2) in S6.
    (* the pairs that only [C] told apart are now in different blocks *)
    assert (HD : covered W beta (fun s t a => ~ (In (a, s) ps <-> In (a, t) ps))).
    { intros s t a Hs Ht Hst Hne. specialize (HJ s t a Hs Ht Hst Hne). rewrite !in_app_iff in HJ. cbn [In] in HJ. rewrite !Hps. destruct HJ as [[?|[Hc|[]]]|[[?|[Hc|[]]]|[]]]; auto; right; right; intros [A1 A2]; apply Hne; [destruct A1 as [_ ?]|destruct A2 as [_ ?]]; try split; congruence. }
    apply (r_covered _ _ _ _ _ _ _ S2) in HD. intros s t a Hs Ht Hst Hne. destruct (HD s t a Hs Ht Hst Hne) as [?|[?|Hn]]; [auto|auto|exfalso]. apply Hn. clear Hn.
    destruct (in_dec Z.eq_dec a (map fst l)) as [Hin|Hin].
    + destruct (key_found a l Hin) as (i & es & Hi). rewrite <- !(grouped_in l ps i a es) by done. apply (S6 i a es); try done. apply lookup_lt_Some in Hi. lia.
    + split; intros Hx; exfalso; apply Hin; by eapply (g_all _ _ Hgr).
Qed.

(** *** The whole loop *)

Lemma covered_alike beta : covered [] beta (fun _ _ _ => False) -> (forall s t, U s -> U t -> beta s = beta t -> is_term d s = is_term d t) -> (forall s, U s -> 0 <= beta s) ->
  forall s t, U s -> U t -> beta s = beta t -> alike d d s t.
Proof.
  intros HJ Hterm Hpos s t Hs Ht Hst w. revert s t Hs Ht Hst. induction w as [|a w IH]; intros s t Hs Ht Hst; [cbn; by rewrite (Hterm s t)|]. rewrite !trace_cons.
  assert (Heq : cls beta (move d s a) = cls beta (move d t a)). { destruct (Z.eq_dec (cls beta (move d s a)) (cls beta (move d t a))) as [|Hne]; [done|]. destruct (HJ s t a Hs Ht Hst Hne) as [[]|[[]|[]]]. }
  destruct (move d s a) as [u|] eqn:Hu, (move d t a) as [v|] eqn:Hv; cbn [cls] in Heq; [| | |done].
  - apply IH; [apply (move_used d Hwf s a u); done|apply (move_used d Hwf t a v); done|done].
  - destruct (move_used d Hwf s a u Hs Hu) as [Hu' _]. specialize (Hpos u Hu'). lia.
  - destruct (move_used d Hwf t a v Ht Hv) as [Hv' _]. specialize (Hpos v Hv'). lia.
Qed.

(** The result: a block for every class of states that behave alike. *)
Record minimal (H : Hopcroft) (beta : Z -> Z) (k : Z) : Prop := {
  m_blocks : blocks n U H beta k;
  m_onto : onto d beta k;
  m_alike : forall s t, U s -> U t -> beta s = beta t <-> alike d d s t
}.

Lemma refine_loop_ok H W beta k m : inv H W beta k -> covered W beta (fun _ _ _ => False) -> holds m [] -> Z.of_nat (length W) <= k -> exists H' beta' k',
  loop (S (2 * length (L H))) (fun '(H, W, C_1) => match W with [] => Ok (inr H) | _ => let* st := refine_step egen (H, W, C_1) in Ok (inl st) end) (H, W, m) = Ok H' /\ minimal H' beta' k'.
Proof.
  intros HI HJ Hm HWk. set (I := fun st : Hopcroft * list Z * splitters => let '(H, W, m) := st in exists beta k l, inv H W beta k /\ covered W beta (fun _ _ _ => False) /\ holds m l).
  edestruct (loop_inv I (fun '(H, W, _) => Z.of_nat (length W) + n - Z.of_nat (length (P H))) (fun H' => exists beta' k', minimal H' beta' k')) as (H' & E & beta' & k' & HM); [| | |exists H', beta', k'; split; [exact E|exact HM]].
  - exists beta, k, []. done.
  - cbv beta iota. rewrite (b_count _ _ _ _ _ (i_blocks _ _ _ _ _ HI)). pose proof (b_length _ _ _ _ _ (i_blocks _ _ _ _ _ HI)). lia.
  - clear H W beta k m HI HJ Hm HWk. intros [[H W] m] (beta & k & l & HI & HJ & Hm). pose proof (i_blocks _ _ _ _ _ HI) as Hb. pose proof (count_bound d Hwf H beta k Hb (i_onto _ _ _ _ _ HI)) as Hkn.
    rewrite (b_count _ _ _ _ _ Hb). split; [lia|]. destruct W as [|w W0].
    + right. exists H. split; [done|]. exists beta, k. split; [done|apply HI|]. intros s t Hs Ht. split; [|by apply (i_alike _ _ _ _ _ HI)].
      apply (covered_alike beta HJ (i_term _ _ _ _ _ HI)); [|done|done]. intros x Hx. by apply (b_range _ _ _ _ _ Hb).
    + left. destruct (exists_last (l := w :: W0)) as (W & C & EW); [done|]. rewrite EW in *. destruct (refine_step_ok H W C beta k m l HI HJ Hm) as (H2 & W2 & m2 & beta2 & k2 & l2 & E2 & I2 & J2 & M2 & Hlen).
      exists (H2, W2, m2). split; [|split].
      * rewrite <- EW in E2 |- *. rewrite E2. done.
      * exists beta2, k2, l2. done.
      * rewrite (b_count _ _ _ _ _ (i_blocks _ _ _ _ _ I2)), length_app. cbn [length]. lia.
Qed.
(** *** [refine] *)

Lemma all_wait H beta k : inv H [] beta k -> exists H', for_ 0 (Z.of_nat (length (P H))) (fun b '(W, H) => putW W H b) ([], H) = Ok (seqZ 0 k, H') /\ inv H' (seqZ 0 k) beta k.
Proof.
  intros HI. pose proof (i_blocks _ _ _ _ _ HI) as Hb0. rewrite (b_count _ _ _ _ _ Hb0). pose proof (count_bound d Hwf H beta k Hb0 (i_onto _ _ _ _ _ HI)) as Hk.
  destruct (for_inv (fun b '(W, H') => W = seqZ 0 b /\ inv H' W beta k) (fun b '(W, H) => putW W H b) 0 k ([], H)) as ([W H'] & E & -> & HI'); [lia|done| |by exists H'].
  intros b [W H'] Hbk [-> [I1 I2 (W1 & W2 & W3) I4 I5]]. destruct (wait_ok d H' (seqZ 0 b) beta k b I1 W3 Hbk) as (H2 & -> & Hb2 & _ & Hf2). eexists. split; [done|].
  assert (seqZ 0 b ++ [b] = seqZ 0 (b + 1)) as E by (rewrite seqZ_app by lia; done). rewrite E in *. split; [done|]. split; [done|done| |done|done]. split; [apply NoDup_seqZ|]. split; [|done].
  intros g Hg. apply list_elem_of_In, elem_of_seqZ in Hg. lia.
Qed.

(** The numbers after the blocks 0 and [g] are exchanged. *)
Definition exchange (beta : Z -> Z) (g s : Z) : Z := if beta s =? g then 0 else if beta s =? 0 then g else beta s.

Lemma exchange_minimal H beta k g : minimal H beta k -> 0 <= g < k -> exists H',
  (let* H := swap_blocks H 0 g in let* H := fix_blid H 0 in fix_blid H g) = Ok H' /\ minimal H' (exchange beta g) k.
Proof.
  intros [M1 M2 M3] Hg. pose proof (size_bound d Hwf) as Hn. pose proof (b_count _ _ _ _ _ M1) as HP. pose proof (b_length _ _ _ _ _ M1) as HL. assert (H0 : 0 <= 0 < k) by lia.
  destruct (swap_ok H 0 g) as (P' & ES & LP & HP'); [lia..|]. rewrite ES. cbn [rbind].
  destruct (b_rings _ _ _ _ _ M1 g Hg) as (rg & Hndg & Hrg & Hringg). destruct (b_rings _ _ _ _ _ M1 0 H0) as (r0 & Hnd0 & Hr0 & Hring0).
  assert (Hne : forall x r, 0 <= x < k -> (forall s, In s r <-> U s /\ beta s = x) -> r <> []). { intros x r Hx Hr ->. destruct (M2 x Hx) as (s & Hs & Hsx). by apply (Hr s). }
  assert (Hrng : forall x r s, (forall s, In s r <-> U s /\ beta s = x) -> In s r -> 0 <= s < n). { intros x r s Hr Hs. apply Hr in Hs as [Hs _]. by apply (b_range _ _ _ _ _ M1). }
  destruct (fix_blid_ok (MkHopcroft (L H) P') 0 rg) as (L1 & E1 & N1 & H1); [|by apply (Hne g)|done|intros x Hx; cbn [L]; rewrite HL; by eapply (Hrng g)|].
  { eapply ring_swap; [exact Hringg| |done]. cbn [P]. rewrite HP' by lia. destruct (Z.eqb_spec 0 g) as [<-|]; done. }
  cbn [L P] in *. rewrite E1. cbn [rbind].
  destruct (fix_blid_ok (MkHopcroft L1 P') g r0) as (L2 & E2 & N2 & H2); [|by apply (Hne 0)|done|intros x Hx; cbn [L]; rewrite N1, HL; by eapply (Hrng 0)|].
  { eapply ring_swap; [exact Hring0| |]; cbn [L P]; [rewrite HP' by lia; by rewrite Z.eqb_refl|]. intros a Ha. pose proof (Hrng 0 r0 a Hr0 Ha). by destruct (H1 a ltac:(lia)) as (-> & -> & _). }
  cbn [L P] in *. rewrite E2. eexists. split; [done|].
  assert (Hlinks : forall a, 0 <= a -> nxt L2 a = nxt (L H) a /\ prv L2 a = prv (L H) a). { intros a Ha. destruct (H1 a Ha) as (<- & <- & _). by destruct (H2 a Ha) as (-> & -> & _). }
  assert (Hex : forall s x, 0 <= x < k -> exchange beta g s = x <-> beta s = (if x =? 0 then g else if x =? g then 0 else x)).
  { intros s x Hx. unfold exchange. destruct (Z.eqb_spec (beta s) g), (Z.eqb_spec (beta s) 0), (Z.eqb_spec x 0), (Z.eqb_spec x g); lia. }
  split; [split; cbn [L P]; [lia|lia| |]| |].
  - intros s Hs. destruct (b_range _ _ _ _ _ M1 s Hs) as (Hsn & Hsk & Hsb). split; [done|]. destruct (H1 s ltac:(lia)) as (_ & _ & I1 & O1). destruct (H2 s ltac:(lia)) as (_ & _ & I2 & O2). unfold exchange.
    destruct (Z.eqb_spec (beta s) 0) as [Es|Es].
    + rewrite I2 by (by apply Hr0). destruct (Z.eqb_spec (beta s) g); split; lia.
    + rewrite O2 by (rewrite Hr0; tauto). destruct (Z.eqb_spec (beta s) g) as [Eg|Eg]; [rewrite I1 by (by apply Hrg); split; lia|]. rewrite O1 by (rewrite Hrg; tauto). split; [lia|done].
  - intros x Hx. set (y := if x =? 0 then g else if x =? g then 0 else x). assert (Hy : 0 <= y < k) by (unfold y; destruct (x =? 0), (x =? g); lia).
    destruct (b_rings _ _ _ _ _ M1 y Hy) as (r & Hnd & Hr & Hring). exists r. split; [done|]. split; [intros s; by rewrite Hr, Hex|]. eapply ring_swap; [exact Hring| |]; cbn [L P].
    + rewrite HP' by lia. unfold y. destruct (Z.eqb_spec x 0), (Z.eqb_spec x g); subst; done.
    + intros a Ha. apply Hlinks. pose proof (Hrng y r a Hr Ha). lia.
  - intros x Hx. destruct (M2 (if x =? 0 then g else if x =? g then 0 else x)) as (s & Hs & Hsx); [destruct (x =? 0), (x =? g); lia|]. exists s. split; [done|]. by apply Hex.
  - intros s t Hs Ht. rewrite <- M3 by done. destruct (b_range _ _ _ _ _ M1 s Hs) as (_ & Hsk & _). destruct (b_range _ _ _ _ _ M1 t Ht) as (_ & Htk & _). unfold exchange.
    destruct (Z.eqb_spec (beta s) g), (Z.eqb_spec (beta s) 0), (Z.eqb_spec (beta t) g), (Z.eqb_spec (beta t) 0); lia.
Qed.

Lemma refine_ok H beta k : inv H [] beta k -> exists H' beta' k', refine egen H = Ok H' /\ minimal H' beta' k' /\ beta' 0 = 0.
Proof.
  intros HI. pose proof (i_blocks _ _ _ _ _ HI) as Hb0. pose proof (wf_initial d Hwf) as HU0. destruct (b_range _ _ _ _ _ Hb0 _ HU0) as (_ & H0k & _).
  destruct (all_wait H beta k HI) as (H1 & EA & HI1). unfold refine. rewrite (b_count _ _ _ _ _ Hb0) in *. rewrite (proj2 (Z.leb_le 1 k)) by lia. cbn [assert_ rbind]. rewrite EA. cbn [rbind].
  destruct (refine_loop_ok H1 (seqZ 0 k) beta k (SmallMap.make sigma) HI1) as (H2 & beta2 & k2 & EL & HM); [|apply make_holds|rewrite length_seqZ; lia|].
  { intros s t a Hs Ht Hst Hne. assert (Hin : forall u, U u -> cls beta (move d u a) <> -1 -> In (cls beta (move d u a)) (seqZ 0 k)).
    { intros u Hu Hc. apply list_elem_of_In, elem_of_seqZ. destruct (move d u a) as [v|] eqn:Hv; cbn [cls] in *; [|done]. destruct (move_used d Hwf u a v Hu Hv) as [Hv' _]. destruct (b_range _ _ _ _ _ Hb0 v Hv') as (_ & ? & _). lia. }
    destruct (Z.eq_dec (cls beta (move d s a)) (-1)) as [Es|Es]; [right; left; apply Hin; [done|congruence]|left; by apply Hin]. }
  setoid_rewrite EL. cbn [rbind]. pose proof (m_blocks _ _ _ HM) as Hb2. destruct (b_range _ _ _ _ _ Hb2 _ HU0) as (_ & H0k2 & Hbl0). change initial_state with 0 in *.
  destruct (b_rings _ _ _ _ _ Hb2 0 ltac:(lia)) as (r & Hnd & Hr & b & Hrb & _ & Hh & _). rewrite Hrb. cbn [rbind]. destruct (Z.eqb_spec (head b) 0) as [E0|E0]; cbn [negb].
  - exists H2, beta2, k2. split; [done|]. split; [done|]. assert (Hin : In (head b) r); [|rewrite E0 in Hin; by apply Hr in Hin as [_ ?]]. apply Hh. intros ->. destruct (m_onto _ _ _ HM 0 ltac:(lia)) as (s & Hs). by apply (Hr s).
  - rewrite rd_el by (rewrite (b_length _ _ _ _ _ Hb2); pose proof (size_pos d Hwf); lia). cbn [rbind]. unfold bld in Hbl0. rewrite Hbl0. cbv zeta.
    destruct (exchange_minimal H2 beta2 k2 (beta2 0) HM H0k2) as (H3 & -> & HM3). exists H3, (exchange beta2 (beta2 0)), k2. split; [done|]. split; [done|]. unfold exchange. by rewrite Z.eqb_refl.
Qed.
End loop.
End HopcroftLoop.
