(* ===== verification/HopcroftStart.v ===== *)
(** * The first partition

    The constructors of [Hopcroft]: the final states and the others, or the states by a
    hash of their characters. *)
From stdpp Require Import sorting sets.
From S2P Require Import Prelude GoldHash GoldHashInv Dfa SmallMap Hopcroft HopcroftList HopcroftSplit HopcroftLoop.
Import Dfa Hopcroft HopcroftList HopcroftSplit HopcroftLoop.

Module HopcroftStart.

(** ** The characters of a state *)

Lemma ascending_sorted l : ascending l = true -> StronglySorted Z.lt l.
Proof.
  intros Ha. apply Sorted_StronglySorted; [intros x y z; lia|]. induction l as [|a l IH]; [constructor|]. destruct l as [|b l]; [by repeat constructor|].
  cbn [ascending] in *. apply andb_true_iff in Ha as [Hab Ha]. constructor; [by apply IH|]. constructor. by apply Z.ltb_lt.
Qed.

Lemma ascending_nodup l : ascending l = true -> NoDup l.
Proof.
  intros Ha%ascending_sorted. induction Ha as [|a l Hs IH Hl]; constructor; [|done]. intros Hin. rewrite List.Forall_forall in Hl. apply list_elem_of_In in Hin. specialize (Hl a Hin). lia.
Qed.

Lemma ascending_eq l l' : ascending l = true -> ascending l' = true -> (forall c, In c l <-> In c l') -> l = l'.
Proof.
  intros H1 H2 Hin. assert (Hle : forall l, ascending l = true -> Sorted Z.le l). { intros k Hk%ascending_sorted. apply StronglySorted_Sorted. induction Hk as [|a k Hs IH Hl]; constructor; [done|]. eapply List.Forall_impl; [|exact Hl]. intros x Hx. cbn in Hx. lia. }
  apply (Sorted_unique Z.le); [by apply Hle|by apply Hle|]. apply NoDup_Permutation; [by apply ascending_nodup|by apply ascending_nodup|]. intros c. by rewrite !list_elem_of_In.
Qed.

Lemma find_move_in l c t : NoDup (map fst l) -> find_move c l = Some t <-> In (c, t) l.
Proof.
  induction l as [|[c' t'] l IH]; intros Hnd; [done|]. cbn [map fst] in Hnd. apply list.NoDup_cons in Hnd as [Hn Hnd]. cbn [find_move In]. destruct (Z.eqb_spec c' c) as [->|Hne].
  - split; [intros [= ->]; by left|]. intros [[= ->]|Hin]; [done|]. exfalso. apply Hn, list_elem_of_In, in_map_iff. by exists (c, t).
  - rewrite IH by done. split; [by right|]. intros [[= ? ?]|?]; done.
Qed.

Section start.
Context (d : Dfa).
Hypothesis (Hwf : wf d).
Notation n := (total_states d).
Notation U := (used d).
Notation inv := (inv d).
Notation blocks := (blocks n).

Lemma move_in s c t : U s -> move d s c = Some t <-> In (c, t) (moves d s).
Proof. intros Hs. apply find_move_in. apply ascending_nodup. by apply (wf_moves d Hwf s Hs). Qed.

Lemma alike_chars s t : U s -> U t -> alike d d s t -> chars (moves d s) = chars (moves d t).
Proof.
  intros Hs Ht Hst. apply ascending_eq; [by apply (wf_moves d Hwf)..|].
  assert (Hone : forall s t, U s -> U t -> alike d d s t -> forall c, In c (chars (moves d s)) -> In c (chars (moves d t))).
  { clear s t Hs Ht Hst. intros s t Hs Ht Hst c Hc. apply in_map_iff in Hc as ([c' u] & <- & Hin). apply move_in in Hin; [|done]. destruct (alike_move d s t _ u Hst Hin) as (v & Hv & _). apply move_in in Hv; [|done].
    apply in_map_iff. by exists (c', v). }
  intros c. split; [by apply Hone|apply Hone; [done|done|by apply alike_sym]].
Qed.

Lemma skips_used s : 0 <= s < n -> skips d s = false <-> U s.
Proof.
  intros Hs. unfold skips, used. destruct (Z.eqb_spec (num_free_states d) 0) as [E|E]; cbn [negb andb].
  - split; [|done]. intros _. split; [done|]. by apply (wf_free d Hwf E).
  - split; [done|]. by intros [_ ?].
Qed.

(** ** Filling the blocks *)

(** The used states before [i]. *)
Definition before (i x : Z) : Prop := U x /\ x < i.

Lemma before_skip i x : 0 <= i < n -> skips d i = true -> before (i + 1) x <-> before i x.
Proof. intros Hi Hs. unfold before. split; [|intros [? ?]; split; [done|lia]]. intros [Hx Hlt]. split; [done|]. destruct (Z.eq_dec x i) as [->|]; [|lia]. apply skips_used in Hx; [congruence|done]. Qed.

Lemma before_next i x : U i -> before i x \/ x = i <-> before (i + 1) x.
Proof. intros Hi. unfold before. split; [intros [[? ?]| ->]; (split; [done|lia])|]. intros [Hx Hlt]. destruct (Z.eq_dec x i); [by right|left; split; [done|lia]]. Qed.

Lemma before_length i r : 0 <= i -> NoDup r -> (forall x, In x r -> before i x) -> Z.of_nat (length r) <= i.
Proof. intros Hi Hnd Hr. pose proof (nodup_length i r Hnd) as H. rewrite Z.max_r in H by lia. apply H. intros x Hx. destruct (Hr x Hx) as [[? _] ?]. lia. Qed.

Lemma before_n x : before n x <-> U x.
Proof. unfold before, used. intuition lia. Qed.

(** A block is not too long for one more state, and takes it. *)
Lemma fill_state i H beta k g : blocks (before i) H beta k -> U i -> 0 <= g < k -> exists b H', rd (P H) g = Ok b /\ (blen b =? max_blen) = false /\ add H g i = Ok H' /\
  blocks (before (i + 1)) H' (becomes beta i g) k /\ flags H' = flags H.
Proof.
  intros Hb Hi Hg. pose proof (size_bound d Hwf) as Hn. assert (Hin : 0 <= i < n) by apply Hi. destruct (b_rings _ _ _ _ _ Hb g Hg) as (r & Hnd & Hr & b & Hrb & Hlen & _).
  assert (Hrl : Z.of_nat (length r) <= i) by (apply before_length; [lia|done|]; intros x Hx; by apply Hr in Hx as [? _]).
  destruct (add_ok n Hn (before i) H beta k g i Hb) as (H' & E & Hb' & F); [intros [_ ?]; lia|done|done|]. exists b, H'. split; [done|]. split; [apply Z.eqb_neq; unfold max_blen; lia|]. split; [done|]. split; [|done].
  eapply blocks_ext; [| |exact Hb']; [intros x; by apply before_next|done].
Qed.

Lemma blocks_count U' H beta k : blocks U' H beta k -> Z.of_nat (length (P H)) = k.
Proof. by intros [_ ? _ _]. Qed.

(** *** The last block is empty *)

Lemma drop_last H beta k : blocks U H beta (k + 1) -> (forall s, U s -> beta s <> k) -> blocks U (MkHopcroft (L H) (removelast (P H))) beta k.
Proof.
  intros [B1 B2 B3 B4] Hk. destruct (B3 _ (wf_initial d Hwf)) as (_ & Hk0 & _). assert (HP : forall g, 0 <= g < k -> rd (removelast (P H)) g = rd (P H) g). { intros g Hg. unfold rd. rewrite !decide_True by lia. rewrite removelast_firstn_len. by rewrite lookup_take_lt by lia. }
  split; cbn [L P]; [done|rewrite removelast_firstn_len, length_firstn; lia| |].
  - intros s Hs. destruct (B3 s Hs) as (? & ? & ?). specialize (Hk s Hs). split; [done|]. split; [lia|done].
  - intros g Hg. destruct (B4 g ltac:(lia)) as (r & Hnd & Hr & Hring). exists r. split; [done|]. split; [done|]. by eapply ring_swap; [exact Hring|apply HP|].
Qed.

Lemma flags_last H k b : flags H = replicate (Z.to_nat (k + 1)) b -> 0 <= k -> map isInW (removelast (P H)) = replicate (Z.to_nat k) b.
Proof.
  intros Hf Hk. rewrite removelast_firstn_len, <- firstn_map. fold (flags H). rewrite Hf. assert (length (P H) = Z.to_nat (k + 1)) as -> by (rewrite <- (length_map isInW); fold (flags H); rewrite Hf; apply length_replicate).
  rewrite take_replicate. f_equal. lia.
Qed.

Lemma none_waits H k : flags H = replicate (Z.to_nat k) false -> waiting H [] k.
Proof. intros Hf. split; [constructor|]. split; [by intros g []|]. intros g Hg. rewrite Hf. apply lookup_replicate. split; [by rewrite bool_decide_eq_false_2 by apply not_elem_of_nil|lia]. Qed.
Lemma first_inv H beta k : blocks U H beta k -> flags H = replicate (Z.to_nat k) false -> onto d beta k -> (forall s t, U s -> U t -> beta s = beta t -> is_term d s = is_term d t) ->
  (forall s t, U s -> U t -> alike d d s t -> beta s = beta t) -> inv H [] beta k.
Proof. intros Hb Hf Ho Ht Ha. split; [done|done|by apply none_waits|done|done]. Qed.

(** *** Without a hash *)

Definition by_term (s : Z) : Z := if is_term d s then 1 else 0.

Lemma drop_empty_ok H : blocks U H by_term 2 -> flags H = [false; false] -> exists H' beta k, drop_empty H = Ok H' /\ inv H' [] beta k.
Proof.
  intros Hb Hf. pose proof (b_count _ _ _ _ _ Hb) as HP. pose proof (wf_initial d Hwf) as HU0. destruct H as [L0 P0]. cbn [P L] in *. destruct P0 as [|x [|y [|z P0]]]; cbn [length] in HP; [lia|lia| |lia].
  cbn in Hf. injection Hf as Fx Fy. destruct (b_rings _ _ _ _ _ Hb 0 ltac:(lia)) as (r0 & Hnd0 & Hr0 & b0 & Hb0 & Hl0 & _). destruct (b_rings _ _ _ _ _ Hb 1 ltac:(lia)) as (r1 & Hnd1 & Hr1 & b1 & Hb1 & Hl1 & Hh1 & Hc1).
  cbn in Hb0, Hb1. injection Hb0 as ->. injection Hb1 as ->. cbn [L] in *. unfold drop_empty. cbn [P]. change (rd [b0; b1] 0) with (Ok b0). cbn [rbind].
  assert (Hone : forall H', blocks U H' (fun _ => 0) 2 -> flags H' = [false; false] -> (forall s t, U s -> U t -> is_term d s = is_term d t) -> inv (MkHopcroft (L H') (removelast (P H'))) [] (fun _ => 0) 1).
  { intros H' Hb' Hf' Ht. apply first_inv; [by apply drop_last|by apply (flags_last H' 1)|intros g Hg; exists initial_state; split; [done|lia]|by auto|done]. }
  destruct (Z.eqb_spec (blen b0) 0) as [E0|E0].
  - assert (r0 = []) as -> by (destruct r0; [done|cbn in *; lia]). assert (Hall : forall s, U s -> by_term s = 1). { intros s Hs. unfold by_term. destruct (is_term d s) eqn:Et; [done|]. exfalso. apply (Hr0 s). split; [done|]. unfold by_term. by rewrite Et. }
    assert (Hall' : forall s, In s r1 <-> U s) by (intros s; rewrite Hr1; split; [tauto|auto]).
    change (swap_blocks (MkHopcroft L0 [b0; b1]) 0 1) with (Ok (MkHopcroft L0 [b1; b0])). cbn [rbind].
    destruct (fix_blid_ok (MkHopcroft L0 [b1; b0]) 0 r1) as (L1 & E1 & N1 & H1); [by exists b1|intros ->; by apply (Hall' 0)|done|intros s Hs; cbn [L]; rewrite (b_length _ _ _ _ _ Hb : Z.of_nat (length L0) = n); by apply (b_range _ _ _ _ _ Hb), Hall'|].
    cbn [L P] in *. rewrite E1. cbn [rbind P]. change (rd [b1; b0] 1) with (Ok b0). cbn [rbind]. rewrite E0, Z.eqb_refl. eexists _, _, 1. split; [done|]. apply (Hone (MkHopcroft L1 [b1; b0])).
    + split; cbn [L P]; [rewrite N1; apply (b_length _ _ _ _ _ Hb)|done| |].
      * intros s Hs. destruct (b_range _ _ _ _ _ Hb s Hs) as (Hsn & _). split; [done|]. split; [lia|]. apply H1; [lia|by apply Hall'].
      * intros g Hg. destruct (decide (g = 0)) as [->|Hne].
        -- exists r1. split; [done|]. split; [intros s; rewrite Hall'; tauto|]. exists b1. split; [done|]. split; [done|]. split; [done|]. cbn [L]. eapply cyc_frame; [|exact Hc1]. intros a Ha. apply Hall' in Ha. destruct (b_range _ _ _ _ _ Hb a Ha) as (Han & _).
           destruct (H1 a ltac:(lia)) as (-> & -> & _). done.
        -- exists []. split; [constructor|]. split; [intros s; split; [intros []|lia]|]. exists b0. assert (g = 1) as -> by lia. split; [done|]. split; [done|]. by split.
    + unfold flags. cbn [P map]. congruence.
    + intros s t Hs Ht. apply Hall in Hs, Ht. unfold by_term in *. by destruct (is_term d s), (is_term d t).
  - cbn [rbind P]. change (rd [b0; b1] 1) with (Ok b1). cbn [rbind]. assert (Hterm : forall s t, by_term s = by_term t -> is_term d s = is_term d t) by (intros s t; unfold by_term; by destruct (is_term d s), (is_term d t)).
    destruct (Z.eqb_spec (blen b1) 0) as [E1|E1].
    + assert (r1 = []) as -> by (destruct r1; [done|cbn in *; lia]). assert (Hall : forall s, U s -> by_term s = 0). { intros s Hs. unfold by_term. destruct (is_term d s) eqn:Et; [|done]. exfalso. apply (Hr1 s). split; [done|]. unfold by_term. by rewrite Et. }
      eexists _, _, 1. split; [done|]. apply (Hone (MkHopcroft L0 [b0; b1])); [eapply blocks_ext; [| |exact Hb]; done|unfold flags; cbn; congruence|]. intros s t Hs Ht. apply Hterm. by rewrite !Hall.
    + eexists _, _, 2. split; [done|]. apply first_inv; [exact Hb|unfold flags; cbn [P map]; change (replicate (Z.to_nat 2) false) with [false; false]; congruence| |by intros s t _ _; apply Hterm|].
      * intros g Hg. assert (Hmem : forall r x, (forall s, In s r <-> U s /\ by_term s = x) -> Z.of_nat (length r) <> 0 -> exists s, U s /\ by_term s = x).
        { intros r v Hr Hne. destruct r as [|s r]; [done|]. exists s. apply Hr. by left. }
        destruct (decide (g = 0)) as [->|]; [apply (Hmem r0); [done|lia]|]. assert (g = 1) as -> by lia. apply (Hmem r1); [done|lia].
      * intros s t _ _ Hst. unfold by_term. by rewrite (alike_term d s t Hst).
Qed.

Context (junk : Z -> Elem).

Lemma start_length : 0 <= n -> Z.of_nat (length (map junk (seqZ 0 n))) = n.
Proof. intros Hn. rewrite length_map, length_seqZ. lia. Qed.

Lemma Hopcroft_dfa_ok : exists H beta k, Hopcroft_dfa junk d = Ok H /\ inv H [] beta k.
Proof.
  pose proof (size_pos d Hwf) as Hpos. unfold Hopcroft_dfa. rewrite (proj2 (Z.leb_le 1 n)) by lia. cbn [assert_ rbind].
  destruct (for_inv (fun i H => blocks (before i) H by_term 2 /\ flags H = [false; false])
    (fun s H => if skips d s then Ok H else let g := if is_term d s then 1 else 0 in let* b := rd (P H) g in if blen b =? max_blen then Throw length_error else add H g s)
    0 n (MkHopcroft (map junk (seqZ 0 n)) [new_block; new_block])) as (H & E & Hb & Hf); [lia| | |].
  - split; [|done]. split; cbn [L P]; [apply start_length; lia|done|intros s [Hs ?]; destruct Hs; lia|]. intros g Hg. exists []. split; [constructor|]. split; [intros s; split; [intros []|intros [[[? _] ?] _]; lia]|].
    exists new_block. cbn [P]. assert (g = 0 \/ g = 1) as [-> | ->] by lia; done.
  - intros i H Hi [Hb Hf]. destruct (skips d i) eqn:Es.
    + eexists. split; [done|]. split; [|done]. eapply blocks_ext; [| |exact Hb]; [|done]. intros x. symmetry. by apply before_skip.
    + apply skips_used in Es; [|done]. cbv zeta. fold (by_term i). destruct (fill_state i H by_term 2 (by_term i) Hb Es) as (b & H' & -> & Eb & Ea & Hb' & Hf'); [unfold by_term; destruct (is_term d i); lia|].
      cbn [rbind]. rewrite Eb, Ea. eexists. split; [done|]. split; [|congruence]. eapply blocks_ext; [| |exact Hb']; [done|]. intros x _. unfold becomes. by destruct (Z.eqb_spec x i) as [->|].
  - setoid_rewrite E. cbn [rbind]. apply drop_empty_ok; [|done]. eapply blocks_ext; [| |exact Hb]; [|done]. intros x. by apply before_n.
Qed.
(** *** With a hash *)

Section hash.
Context (hash : Z -> Z).
Hypothesis (Hhash : forall s t, U s -> U t -> chars (moves d s) = chars (moves d t) -> hash s = hash t).
Notation nil := (2 ^ 32 - 1).

(** The bucket of a state: the last bit is that it is final. *)
Definition slot (n_buckets s : Z) : Z := if is_term d s then Z.lor (hash s mod n_buckets) 1 else Z.land (hash s mod n_buckets) (not64 1).

Lemma slot_bits nb s : 0 < nb < 2 ^ 64 -> 0 <= slot nb s <= nb /\ Z.testbit (slot nb s) 0 = is_term d s.
Proof.
  intros Hnb. unfold slot. pose proof (Z.mod_pos_bound (hash s) nb ltac:(lia)) as Hh. set (h := hash s mod nb) in *. assert (Hdiv : forall x, 0 <= x -> x = 2 * (x / 2) + Z.b2z (Z.testbit x 0)).
  { intros x Hx. rewrite Z.bit0_mod. apply Z.div_mod. lia. }
  assert (Hhalf : forall x y, 0 <= x -> 0 <= y -> (forall i, 1 <= i -> Z.testbit x i = Z.testbit y i) -> x / 2 = y / 2).
  { intros x y Hx Hy Hb. apply Z.bits_inj'. intros i Hi. change 2 with (2 ^ 1). rewrite !Z.div_pow2_bits by lia. apply Hb. lia. }
  destruct (is_term d s).
  - assert (Ht : Z.testbit (Z.lor h 1) 0 = true) by (rewrite Z.lor_spec; apply orb_true_r). assert (H0 : 0 <= Z.lor h 1) by (apply Z.lor_nonneg; lia).
    split; [|done]. assert (Hq : Z.lor h 1 / 2 = h / 2). { apply Hhalf; [done|lia|]. intros i Hi. rewrite Z.lor_spec. rewrite (testbit_high 1 i 1) by lia. apply orb_false_r. }
    pose proof (Hdiv (Z.lor h 1) H0) as D1. pose proof (Hdiv h ltac:(lia)) as D2. rewrite Hq, Ht in D1. destruct (Z.testbit h 0); cbn [Z.b2z] in *; lia.
  - assert (Ht : Z.testbit (Z.land h (not64 1)) 0 = false) by (rewrite Z.land_spec; apply andb_false_r). assert (H0 : 0 <= Z.land h (not64 1)) by (apply Z.land_nonneg; lia).
    split; [|done]. assert (Hq : Z.land h (not64 1) / 2 = h / 2). { apply Hhalf; [done|lia|]. intros i Hi. rewrite Z.land_spec, testbit_not64 by lia. rewrite (testbit_high 1 i 1) by lia.
      destruct (Z.ltb_spec i 64); [apply andb_true_r|]. rewrite (testbit_high h i 64) by lia. done. }
    pose proof (Hdiv (Z.land h (not64 1)) H0) as D1. pose proof (Hdiv h ltac:(lia)) as D2. rewrite Hq, Ht in D1. destruct (Z.testbit h 0); cbn [Z.b2z] in *; lia.
Qed.

Record hashed (nb i : Z) (H : Hopcroft) (bucket : list Z) (beta : Z -> Z) (k : Z) : Prop := {
  hs_blocks : blocks (before i) H beta k;
  hs_flags : flags H = replicate (Z.to_nat k) false;
  hs_count : 0 <= k <= i;
  hs_onto : forall g, 0 <= g < k -> exists s, before i s /\ beta s = g;
  hs_length : Z.of_nat (length bucket) = nb + 1;
  hs_bucket : forall h v, rd bucket h = Ok v -> v = nil \/ 0 <= v < k;
  hs_inj : forall h h' v, rd bucket h = Ok v -> rd bucket h' = Ok v -> v <> nil -> h = h';
  hs_slot : forall s, before i s -> rd bucket (slot nb s) = Ok (beta s)
}.

Lemma hash_step_ok nb i H bucket beta k : 0 < nb < 2 ^ 64 -> hashed nb i H bucket beta k -> U i -> exists H' bucket' beta' k',
  (let* g := rd bucket (slot nb i) in
    let* (H, bucket, g) :=
      if nil =? g then
        let g := u32 (Z.of_nat (length (P H))) in
        let* bucket := wr bucket (slot nb i) g in Ok (MkHopcroft (Hopcroft.L H) (P H ++ [new_block]), bucket, g)
      else let* b := rd (P H) g in if blen b =? max_blen then Throw length_error else Ok (H, bucket, g) in
    let* H := add H g i in Ok (H, bucket)) = Ok (H', bucket') /\ hashed nb (i + 1) H' bucket' beta' k'.
Proof.
  intros Hnb [B1 B2 B3 B4 B5 B6 B7 B8] Hi. pose proof (size_bound d Hwf) as Hn. assert (Hin : 0 <= i < n) by apply Hi. destruct (slot_bits nb i Hnb) as [Hsl _].
  assert (Hnew : forall s, before (i + 1) s -> before i s \/ s = i) by (intros s Hs; by apply before_next).
  destruct (lookup_lt_is_Some_2 bucket (Z.to_nat (slot nb i))) as [v Hv]; [lia|]. apply (rd_ok bucket (slot nb i) v ltac:(lia)) in Hv. rewrite Hv. cbn [rbind]. destruct (Z.eqb_spec nil v) as [<-|Hnil].
  - rewrite (blocks_count _ _ _ _ B1), u32_small by lia. cbv zeta. rewrite wr_ok by lia. cbn [rbind].
    destruct (fill_state i _ beta (k + 1) k (push_block d _ _ _ _ B1) Hi) as (b & H' & _ & _ & -> & Hb' & Hf'); [lia|]. cbn [rbind]. eexists H', _, (becomes beta i k), (k + 1). split; [done|].
    assert (Hold : forall s, before i s -> becomes beta i k s = beta s) by (intros s [_ Hs]; unfold becomes; by rewrite (proj2 (Z.eqb_neq s i)) by lia).
    assert (Hrd : forall h, rd (<[Z.to_nat (slot nb i):=k]> bucket) h = if h =? slot nb i then Ok k else rd bucket h). { intros h. destruct (Z.le_gt_cases 0 h); [by apply insert_rd; lia|]. unfold rd. rewrite !decide_False by lia. by rewrite (proj2 (Z.eqb_neq _ _)) by lia. }
    assert (Hself : becomes beta i k i = k) by (unfold becomes; by rewrite Z.eqb_refl).
    split; [done| |lia| |by rewrite length_insert| | |].
    + rewrite Hf'. unfold flags. cbn [P]. rewrite map_app. fold (flags H). rewrite B2. cbn. replace (Z.to_nat (k + 1)) with (Z.to_nat k + 1)%nat by lia. by rewrite replicate_add.
    + intros g Hg. destruct (decide (g = k)) as [->|]; [exists i; split; [apply before_next; auto|done]|]. destruct (B4 g ltac:(lia)) as (s & Hs & <-). exists s. split; [apply before_next; auto|by apply Hold].
    + intros h v. rewrite Hrd. destruct (h =? slot nb i); [intros [= <-]; right; lia|]. intros Hr. destruct (B6 h v Hr) as [?|?]; [by left|right; lia].
    + intros h h' v. rewrite !Hrd. destruct (Z.eqb_spec h (slot nb i)) as [->|], (Z.eqb_spec h' (slot nb i)) as [->|]; [done| | |by apply B7].
      * intros [= <-] Hr _. destruct (B6 _ _ Hr); lia.
      * intros Hr [= <-] _. destruct (B6 _ _ Hr); lia.
    + intros s Hs. rewrite Hrd. destruct (Hnew s Hs) as [Hs'| ->]; [|by rewrite Z.eqb_refl, Hself]. rewrite (Hold s Hs'). destruct (Z.eqb_spec (slot nb s) (slot nb i)) as [E|]; [|by apply B8].
      exfalso. pose proof (B8 s Hs') as Hr. rewrite E, Hv in Hr. injection Hr as Hr. destruct (b_range _ _ _ _ _ B1 s Hs') as (_ & ? & _). lia.
  - destruct (B6 _ _ Hv) as [?|Hvk]; [congruence|]. destruct (fill_state i H beta k v B1 Hi Hvk) as (b & H' & -> & Eb & Ea & Hb' & Hf'). cbn [rbind]. rewrite Eb. cbn [rbind]. rewrite Ea. cbn [rbind].
    eexists H', bucket, (becomes beta i v), k. split; [done|]. assert (Hold : forall s, before i s -> becomes beta i v s = beta s) by (intros s [_ Hs]; unfold becomes; by rewrite (proj2 (Z.eqb_neq s i)) by lia).
    split; [done|congruence|lia| |done|done|done|].
    + intros g Hg. destruct (B4 g Hg) as (s & Hs & <-). exists s. split; [apply before_next; auto|by apply Hold].
    + intros s Hs. destruct (Hnew s Hs) as [Hs'| ->]; [rewrite Hold by done; by apply B8|]. unfold becomes. by rewrite Z.eqb_refl.
Qed.

Lemma Hopcroft_hash_ok : exists H beta k, Hopcroft_hash junk d hash = Ok H /\ inv H [] beta k.
Proof.
  pose proof (size_pos d Hwf) as Hpos. unfold Hopcroft_hash. rewrite (proj2 (Z.leb_le 1 n)) by lia. cbn [assert_ rbind]. cbv zeta.
  destruct (next_prime_ok (n / 2 + 1)) as (nb & -> & Hnb & _). cbn [rbind].
  destruct (for_inv (fun i '(H, bucket) => exists beta k, hashed nb i H bucket beta k)
    (fun s '(H, bucket) => if skips d s then Ok (H, bucket) else let* g := rd bucket (slot nb s) in
      let* (H, bucket, g) := if nil =? g then let g := u32 (Z.of_nat (length (P H))) in let* bucket := wr bucket (slot nb s) g in Ok (MkHopcroft (L H) (P H ++ [new_block]), bucket, g)
        else let* b := rd (P H) g in if blen b =? max_blen then Throw length_error else Ok (H, bucket, g) in
      let* H := add H g s in Ok (H, bucket)) 0 n (MkHopcroft (map junk (seqZ 0 n)) [], replicate (Z.to_nat (nb + 1)) nil)) as ([H bucket] & E & beta & k & [B1 B2 B3 B4 B5 B6 B7 B8]); [lia| | |].
  - exists (fun _ => 0), 0. split; [|done|lia|lia|rewrite length_replicate; lia| | |intros s [[? _] ?]; lia].
    + split; cbn [L P]; [apply start_length; lia|done|intros s [[? _] ?]; lia|lia].
    + intros h v Hr. apply rd_Ok_inv in Hr as [_ Hr]. apply lookup_replicate in Hr as [-> _]. by left.
    + intros h h' v Hr _ Hv. apply rd_Ok_inv in Hr as [_ Hr]. apply lookup_replicate in Hr as [-> _]. done.
  - intros i [H bucket] Hi (beta & k & HI). destruct (skips d i) eqn:Es.
    + eexists. split; [done|]. exists beta, k. destruct HI as [B1 B2 B3 B4 B5 B6 B7 B8]. split; [|done|lia| |done|done|done|].
      * eapply blocks_ext; [| |exact B1]; [|done]. intros x. symmetry. by apply before_skip.
      * intros g Hg. destruct (B4 g Hg) as (s & Hs & Hsg). exists s. split; [by apply before_skip|done].
      * intros s Hs. apply B8. by apply before_skip.
    + apply skips_used in Es; [|done]. destruct (hash_step_ok nb i H bucket beta k ltac:(lia) HI Es) as (H' & bucket' & beta' & k' & E & HI'). eexists. split; [exact E|]. by exists beta', k'.
  - setoid_rewrite E. cbn [rbind]. exists H, beta, k. split; [done|]. assert (Hall : forall s, U s -> before n s) by (intros s Hs; by apply before_n). apply first_inv.
    + eapply blocks_ext; [| |exact B1]; [|done]. intros x. by apply before_n.
    + done.
    + intros g Hg. destruct (B4 g Hg) as (s & Hs & Hsg). exists s. split; [by destruct Hs|done].
    + intros s t Hs Ht Hst. pose proof (B8 s (Hall s Hs)) as R1. pose proof (B8 t (Hall t Ht)) as R2. rewrite Hst in R1. assert (Hslot : slot nb s = slot nb t).
      { apply (B7 _ _ _ R1 R2). destruct (b_range _ _ _ _ _ B1 t (Hall t Ht)) as (_ & ? & _). pose proof (size_bound d Hwf). lia. }
      destruct (slot_bits nb s ltac:(lia)) as [_ <-]. destruct (slot_bits nb t ltac:(lia)) as [_ <-]. by rewrite Hslot.
    + intros s t Hs Ht Hst. pose proof (B8 s (Hall s Hs)) as R1. pose proof (B8 t (Hall t Ht)) as R2. assert (Hslot : slot nb s = slot nb t).
      { unfold slot. rewrite (alike_term d s t Hst). by rewrite (Hhash s t Hs Ht (alike_chars s t Hs Ht Hst)). } rewrite Hslot, R2 in R1. congruence.
Qed.
End hash.
End start.
End HopcroftStart.
