(* ===== verification/HopcroftMoves.v ===== *)
(** * The moves backwards

    [graph_reverse_nfa] sorts the moves by their targets; [trie_reverse_dfa] keeps the
    one move to each state of a tree. *)
From stdpp Require Import sorting sets.
From S2P Require Import Prelude Dfa SmallMap Hopcroft HopcroftList HopcroftSplit SplitterMap HopcroftStart.
Import Dfa Hopcroft HopcroftList HopcroftSplit SplitterMap HopcroftStart.

Module HopcroftMoves.

(** A move: from, character, to. *)
Record edge := Edge { e_from : Z; e_ch : Z; e_to : Z }.
Definition to_pair (e : edge) : Z * Z := (e_ch e, e_from e).

(** The moves of [v] to [u], backwards. *)
Definition into (u : Z) (v : list edge) : list (Z * Z) := map to_pair (filter (fun e => e_to e = u) v).
(** How many of [v] lead to states before [u]. *)
Definition starts (v : list edge) (u : Z) : Z := Z.of_nat (length (filter (fun e => e_to e < u) v)).

Lemma into_app u v w : into u (v ++ w) = into u v ++ into u w.
Proof. unfold into. by rewrite list.filter_app, map_app. Qed.

Lemma into_one u e : into u [e] = if e_to e =? u then [to_pair e] else [].
Proof. unfold into. destruct (Z.eqb_spec (e_to e) u); [by rewrite filter_cons_True|by rewrite filter_cons_False]. Qed.

Lemma starts_app v w u : starts (v ++ w) u = starts v u + starts w u.
Proof. unfold starts. rewrite list.filter_app, length_app. lia. Qed.

Lemma starts_one e u : starts [e] u = if e_to e <? u then 1 else 0.
Proof. unfold starts. destruct (Z.ltb_spec (e_to e) u); [by rewrite filter_cons_True|by rewrite filter_cons_False by lia]. Qed.

Lemma starts_succ v u : starts v (u + 1) = starts v u + Z.of_nat (length (into u v)).
Proof.
  induction v as [|e v IH]; [done|]. change (e :: v) with ([e] ++ v). rewrite !starts_app, into_app, length_app, !starts_one, into_one, IH.
  destruct (Z.ltb_spec (e_to e) (u + 1)), (Z.ltb_spec (e_to e) u), (Z.eqb_spec (e_to e) u); cbn [length]; lia.
Qed.

Lemma starts_mono v u w : u <= w -> starts v u <= starts v w.
Proof.
  intros Huw. induction v as [|e v IH]; [done|]. change (e :: v) with ([e] ++ v). rewrite !starts_app, !starts_one. destruct (Z.ltb_spec (e_to e) u), (Z.ltb_spec (e_to e) w); lia.
Qed.

Lemma starts_bounds v u : 0 <= starts v u <= Z.of_nat (length v).
Proof. unfold starts. pose proof (length_filter (fun e => e_to e < u) v). lia. Qed.

Lemma starts_all v n : (forall e, In e v -> e_to e < n) -> starts v n = Z.of_nat (length v).
Proof.
  induction v as [|e v IH]; intros Hv; [done|]. change (e :: v) with ([e] ++ v). rewrite starts_app, starts_one, IH by (intros e' He; apply Hv; by right).
  rewrite (proj2 (Z.ltb_lt _ _)) by (apply Hv; by left). cbn [length app]. lia.
Qed.

Lemma starts_none v n : (forall e, In e v -> n <= e_to e) -> starts v n = 0.
Proof.
  induction v as [|e v IH]; intros Hv; [done|]. change (e :: v) with ([e] ++ v). rewrite starts_app, starts_one, IH by (intros e' He; apply Hv; by right).
  rewrite (proj2 (Z.ltb_ge _ _)) by (apply Hv; by left). done.
Qed.

Lemma into_in u v c s : In (c, s) (into u v) <-> In (Edge s c u) v.
Proof.
  unfold into. rewrite in_map_iff. split.
  - intros ([s' c' t] & [= <- <-] & Hin). apply list_elem_of_In, list_elem_of_filter in Hin as [Ht Hin]. cbn in Ht. subst t. by apply list_elem_of_In.
  - intros Hin. exists (Edge s c u). split; [done|]. apply list_elem_of_In, list_elem_of_filter. split; [done|]. by apply list_elem_of_In.
Qed.

Lemma into_nodup u v : NoDup v -> NoDup (into u v).
Proof.
  intros Hnd. induction Hnd as [|e v Hn Hnd IH]; [constructor|]. change (e :: v) with ([e] ++ v). rewrite into_app, into_one. destruct (Z.eqb_spec (e_to e) u) as [He|]; [|done].
  cbn [app]. apply list.NoDup_cons. split; [|done]. intros Hin. apply list_elem_of_In in Hin. unfold to_pair in Hin. apply into_in in Hin. apply Hn, list_elem_of_In. destruct e; cbn in *; by subst.
Qed.

Section moves.
Context (d : Dfa).
Hypothesis (Hwf : wf d).
Notation n := (total_states d).
Notation U := (used d).

Definition edges_of (s : Z) : list edge := map (fun '(c, t) => Edge s c t) (moves d s).
(** All moves in the order of the visits. *)
Definition edges_before (i : Z) : list edge := concat (map edges_of (filter (fun s => skips d s = false) (seqZ 0 i))).
Definition edges : list edge := edges_before n.

Lemma edges_of_in e s : In e (edges_of s) <-> e_from e = s /\ In (e_ch e, e_to e) (moves d s).
Proof.
  unfold edges_of. rewrite in_map_iff. split; [by intros ([c t] & <- & Hin)|]. intros [<- Hin]. exists (e_ch e, e_to e). by destruct e.
Qed.

Lemma edges_in e : In e edges <-> U (e_from e) /\ In (e_ch e, e_to e) (moves d (e_from e)).
Proof.
  unfold edges, edges_before. rewrite in_concat. split.
  - intros (l & Hl & He). apply in_map_iff in Hl as (s & <- & Hs). apply list_elem_of_In, list_elem_of_filter in Hs as [Hs Hr]. apply elem_of_seqZ in Hr. apply edges_of_in in He as [-> He].
    split; [|done]. apply skips_used; [done|lia|done].
  - intros [Hu Hin]. exists (edges_of (e_from e)). split; [|by apply edges_of_in]. apply in_map, list_elem_of_In, list_elem_of_filter. split; [apply skips_used; [done|apply Hu|done]|].
    apply elem_of_seqZ. destruct Hu. lia.
Qed.

Lemma edges_nodup : NoDup edges.
Proof.
  unfold edges, edges_before. assert (Hs : NoDup (filter (fun s => skips d s = false) (seqZ 0 n))) by (apply list.NoDup_filter, NoDup_seqZ).
  assert (Hu : forall s, s ∈ filter (fun s => skips d s = false) (seqZ 0 n) -> U s). { intros s Hin. apply list_elem_of_filter in Hin as [H1 H2]. apply elem_of_seqZ in H2. apply skips_used; [done|lia|done]. }
  induction Hs as [|s l Hn Hs IH]; [constructor|]. cbn [map concat]. apply list.NoDup_app. split; [|split; [|apply IH; intros x Hx; apply Hu; by right]].
  - destruct (wf_moves d Hwf s (Hu s ltac:(by left))) as [Ha _]. apply ascending_nodup in Ha. unfold edges_of, chars in *. clear - Ha. induction (moves d s) as [|[c t] m IHm]; [constructor|]. cbn [map fst] in *. apply list.NoDup_cons in Ha as [Hc Ha].
    constructor; [|by apply IHm]. intros Hin. apply list_elem_of_In, in_map_iff in Hin as ([c' t'] & [= -> ->] & Hin). apply Hc, list_elem_of_In, in_map_iff. by exists (c, t).
  - intros e He He'. apply list_elem_of_In in He, He'. apply edges_of_in in He as [He _]. apply in_concat in He' as (m & Hm & He'). apply in_map_iff in Hm as (s' & <- & Hs'). apply edges_of_in in He' as [He' _].
    apply Hn. rewrite <- He, He'. by apply list_elem_of_In.
Qed.

Lemma edge_targets e : In e edges -> U (e_to e) /\ 0 <= e_ch e < sigma.
Proof. intros He. apply edges_in in He as [Hu Hin]. destruct (wf_moves d Hwf _ Hu) as [_ Hg]. by destruct (Hg _ _ Hin). Qed.

Lemma into_edges u c s : In (c, s) (into u edges) <-> U s /\ move d s c = Some u.
Proof. rewrite into_in, edges_in. cbn [e_from e_ch e_to]. split; intros [Hs H]; (split; [done|]); by apply (move_in d Hwf s c u Hs). Qed.

(** *** Visiting all moves *)

Lemma for_moves_inv {S} (I : list (Z * Z) -> S -> Prop) l body (st : S) : I [] st ->
  (forall v c t w st, l = v ++ (c, t) :: w -> I v st -> exists st', body t c st = Ok st' /\ I (v ++ [(c, t)]) st') -> exists st', for_moves l body st = Ok st' /\ I l st'.
Proof.
  intros H0 Hstep. assert (G : forall w v st, l = v ++ w -> I v st -> exists st', for_moves w body st = Ok st' /\ I l st').
  { clear st H0. induction w as [|[c t] w IH]; intros v st E HI; [rewrite app_nil_r in E; subst v; by exists st|]. cbn [for_moves]. destruct (Hstep v c t w st E HI) as (st' & -> & HI'). cbn [rbind].
    apply (IH (v ++ [(c, t)])); [by rewrite <- app_assoc|done]. }
  by apply (G l []).
Qed.

Lemma for_edges_inv {S} (I : list edge -> S -> Prop) (body : Z -> Z -> Z -> S -> res S) st : 0 <= n -> I [] st ->
  (forall v e w st, edges = v ++ e :: w -> I v st -> exists st', body (e_from e) (e_to e) (e_ch e) st = Ok st' /\ I (v ++ [e]) st') ->
  exists st', for_states d (fun s st => for_moves (moves d s) (body s) st) st = Ok st' /\ I edges st'.
Proof.
  intros Hn H0 Hstep. unfold for_states. assert (Hpre : forall i, 0 <= i <= n -> exists w, edges = edges_before i ++ w).
  { intros i Hi. unfold edges, edges_before. replace n with (i + (n - i)) by lia. rewrite seqZ_app by lia. rewrite list.filter_app, map_app, concat_app. eauto. }
  apply (for_inv (fun i st => I (edges_before i) st)); [done|done|]. intros i st' Hi HI.
  assert (Hnext : edges_before (i + 1) = edges_before i ++ if skips d i then [] else edges_of i).
  { unfold edges_before. rewrite seqZ_app by lia. rewrite list.filter_app, map_app, concat_app. f_equal. change (seqZ (0 + i) 1) with [0 + (0 + i)]. rewrite !Z.add_0_l.
    destruct (skips d i) eqn:Es; [by rewrite filter_cons_False by congruence|]. rewrite filter_cons_True by done. cbn. apply app_nil_r. }
  rewrite Hnext. destruct (skips d i) eqn:Es; [exists st'; by rewrite app_nil_r|]. destruct (Hpre (i + 1) ltac:(lia)) as [w Hw]. rewrite Hnext in Hw.
  destruct (for_moves_inv (fun v st => I (edges_before i ++ map (fun '(c, t) => Edge i c t) v) st) (moves d i) (body i) st') as (st2 & E & HI2).
  - by rewrite app_nil_r.
  - intros v c t w' st1 E HI1. destruct (Hstep (edges_before i ++ map (fun '(c, t) => Edge i c t) v) (Edge i c t) (map (fun '(c, t) => Edge i c t) w' ++ w) st1) as (st2 & E2 & HI2); [|done|].
    + rewrite Hw. unfold edges_of. rewrite E, map_app. cbn [map]. by rewrite <- !app_assoc.
    + exists st2. split; [done|]. rewrite map_app. cbn [map]. by rewrite app_assoc.
  - by exists st2.
Qed.
(** ** Sorting the moves by target *)

Section graph.
Hypothesis (Hsize : Z.of_nat (length edges) < 2 ^ 32).
Context (junk2 : Z -> Z * Z).

Lemma edges_small v w : edges = v ++ w -> 0 <= Z.of_nat (length v) < 2 ^ 32.
Proof. intros E. rewrite E, length_app in Hsize. lia. Qed.

Lemma count_ok : exists index, for_states d (fun s index => for_moves (moves d s) (fun t c index => upd index (t + 1) (fun x => u32 (x + 1))) index) (replicate (Z.to_nat (n + 1)) 0) = Ok index /\
  Z.of_nat (length index) = n + 1 /\ rd index 0 = Ok 0 /\ forall t, 0 <= t < n -> rd index (t + 1) = Ok (Z.of_nat (length (into t edges))).
Proof.
  pose proof (size_pos d Hwf) as Hpos. destruct (for_edges_inv (fun v index => Z.of_nat (length index) = n + 1 /\ rd index 0 = Ok 0 /\ forall t, 0 <= t < n -> rd index (t + 1) = Ok (Z.of_nat (length (into t v))))
    (fun s t c index => upd index (t + 1) (fun x => u32 (x + 1))) (replicate (Z.to_nat (n + 1)) 0)) as (index & E & HI); [lia| | |by exists index].
  - split; [rewrite length_replicate; lia|]. assert (Hr : forall i, 0 <= i <= n -> rd (replicate (Z.to_nat (n + 1)) 0) i = Ok 0) by (intros i Hi; apply rd_ok; [lia|]; apply lookup_replicate; split; [done|lia]).
    split; [apply Hr; lia|]. intros t Ht. apply Hr. lia.
  - intros v e w index Ev (I1 & I2 & I3). destruct (edge_targets e) as [[Ht _] _]; [rewrite Ev; apply in_or_app; right; by left|]. rewrite (upd_rd _ _ _ _ (I3 _ Ht)). eexists. split; [done|].
    pose proof (edges_small (v ++ [e]) w ltac:(by rewrite <- app_assoc)) as Hs. rewrite length_app in Hs. cbn [length] in Hs.
    split; [by rewrite length_insert|]. split; [rewrite insert_rd by lia; by rewrite (proj2 (Z.eqb_neq 0 _)) by lia|]. intros t Htn. rewrite insert_rd by lia. rewrite into_app, into_one, length_app.
    destruct (Z.eqb_spec (t + 1) (e_to e + 1)) as [Et|Et].
    + assert (e_to e = t) as -> by lia. rewrite Z.eqb_refl. cbn [length]. rewrite u32_small; [f_equal; lia|]. assert (length (into t v) <= length v)%nat by (unfold into; rewrite length_map; apply length_filter). lia.
    + rewrite (proj2 (Z.eqb_neq (e_to e) t)) by lia. cbn [length]. rewrite I3 by done. f_equal. lia.
Qed.

Lemma sum_ok index : Z.of_nat (length index) = n + 1 -> rd index 0 = Ok 0 -> (forall t, 0 <= t < n -> rd index (t + 1) = Ok (Z.of_nat (length (into t edges)))) -> exists index',
  for_ 1 (Z.of_nat (length index)) (fun i index => let* x := rd index (i - 1) in upd index i (fun y => u32 (y + x))) index = Ok index' /\ Z.of_nat (length index') = n + 1 /\
  forall t, 0 <= t <= n -> rd index' t = Ok (starts edges t).
Proof.
  intros Hl H0 Hc. pose proof (size_pos d Hwf) as Hpos. rewrite Hl.
  assert (Hs0 : starts edges 0 = 0) by (apply starts_none; intros e He; apply edge_targets in He as [[? _] _]; lia).
  destruct (for_inv (fun i index' => Z.of_nat (length index') = n + 1 /\ (forall t, 0 <= t < i -> rd index' t = Ok (starts edges t)) /\ forall t, i <= t <= n -> rd index' t = rd index t)
    (fun i index => let* x := rd index (i - 1) in upd index i (fun y => u32 (y + x))) 1 (n + 1) index) as (index' & E & I1 & I2 & _); [lia| | |exists index'; split; [done|]; split; [done|]; intros t Ht; apply I2; lia].
  - split; [done|]. split; [|done]. intros t Ht. assert (t = 0) as -> by lia. by rewrite H0, Hs0.
  - intros i index' Hi (I1 & I2 & I3). rewrite I2 by lia. cbn [rbind]. assert (Hri : rd index' i = Ok (Z.of_nat (length (into (i - 1) edges)))) by (rewrite I3 by lia; rewrite <- Hc by lia; f_equal; lia).
    rewrite (upd_rd _ _ _ _ Hri). eexists. split; [done|]. split; [by rewrite length_insert|].
    assert (Hst : starts edges i = starts edges (i - 1) + Z.of_nat (length (into (i - 1) edges))) by (rewrite <- starts_succ; f_equal; lia). pose proof (starts_bounds edges i) as Hb.
    assert (Hu : u32 (Z.of_nat (length (into (i - 1) edges)) + starts edges (i - 1)) = starts edges i) by (rewrite u32_small; lia).
    split; intros t Ht; rewrite insert_rd by lia; destruct (Z.eqb_spec t i) as [->|Hne]; [by rewrite Hu|apply I2; lia|lia|apply I3; lia].
Qed.

(** The places of the moves to [u]. *)
Definition placed (v : list edge) (data : list (Z * Z)) : Prop := forall u j p, 0 <= u < n -> into u v !! j = Some p -> rd data (starts edges u + Z.of_nat j) = Ok p.

Lemma fill_step v e w data ii : edges = v ++ e :: w -> Z.of_nat (length data) = Z.of_nat (length edges) -> placed v data ->
  (forall u, 0 <= u < n -> rd ii u = Ok (starts edges u + Z.of_nat (length (into u v)))) -> Z.of_nat (length ii) = n + 1 -> exists ii' data',
  (let* i := rd ii (e_to e) in let* ii := wr ii (e_to e) (u32 (i + 1)) in let* data := wr data i (e_ch e, e_from e) in Ok (data, ii)) = Ok (data', ii') /\
  Z.of_nat (length data') = Z.of_nat (length edges) /\ placed (v ++ [e]) data' /\ (forall u, 0 <= u < n -> rd ii' u = Ok (starts edges u + Z.of_nat (length (into u (v ++ [e]))))) /\ Z.of_nat (length ii') = n + 1.
Proof.
  intros Ev Hd Hp Hi Hl. destruct (edge_targets e) as [[Ht _] _]; [rewrite Ev; apply in_or_app; right; by left|]. set (t := e_to e) in *. set (pos := starts edges t + Z.of_nat (length (into t v))).
  assert (Hpos : forall u j p, 0 <= u < n -> into u v !! j = Some p -> starts edges u + Z.of_nat j <> pos).
  { intros u j p Hu Hj. apply lookup_lt_Some in Hj. unfold pos. assert (Hlen : Z.of_nat (length (into u v)) <= Z.of_nat (length (into u edges)) /\ Z.of_nat (length (into t v)) < Z.of_nat (length (into t edges))).
    { rewrite Ev. change (e :: w) with ([e] ++ w). rewrite !into_app, !length_app, (into_one t). unfold t. rewrite Z.eqb_refl. cbn [length]. lia. }
    pose proof (starts_succ edges u) as Su. pose proof (starts_succ edges t) as St. destruct (Z.lt_trichotomy u t) as [Hlt|[->|Hlt]]; [|lia|].
    - pose proof (starts_mono edges (u + 1) t ltac:(lia)). lia.
    - pose proof (starts_mono edges (t + 1) u ltac:(lia)). lia. }
  assert (Hlt : (length (into t v) < length (into t edges))%nat). { rewrite Ev. change (e :: w) with ([e] ++ w). rewrite !into_app, !length_app, (into_one t). unfold t. rewrite Z.eqb_refl. cbn [length]. lia. }
  assert (Hposr : 0 <= pos < Z.of_nat (length data)). { pose proof (starts_bounds edges t) as Hb. pose proof (starts_bounds edges (t + 1)) as Hb'. rewrite starts_succ in Hb'. unfold pos. lia. }
  pose proof (edges_small edges [] ltac:(by rewrite app_nil_r)) as Hes. rewrite Hi by done. cbn [rbind]. fold pos. rewrite wr_ok by lia. cbn [rbind]. rewrite wr_ok by lia. cbn [rbind]. eexists _, _. split; [done|]. split; [by rewrite length_insert|]. split; [|split; [|by rewrite length_insert]].
  - intros u j p Hu Hj. rewrite into_app, into_one in Hj. fold t in Hj. pose proof (starts_bounds edges u) as Hbu. rewrite insert_rd by lia. destruct (Z.eqb_spec t u) as [<-|Hne].
    + apply lookup_app_Some in Hj as [Hj|[Hge Hj]]; [rewrite (proj2 (Z.eqb_neq _ _)) by (by eapply (Hpos t)); by apply Hp|]. destruct (j - length (into t v))%nat eqn:Ej; [|done]. injection Hj as <-.
      unfold pos. replace j with (length (into t v)) by lia. by rewrite Z.eqb_refl.
    + rewrite app_nil_r in Hj. rewrite (proj2 (Z.eqb_neq _ _)) by (by eapply (Hpos u)). by apply Hp.
  - intros u Hu. rewrite insert_rd by lia. rewrite into_app, into_one, length_app. fold t. destruct (Z.eqb_spec u t) as [->|Hne].
    + rewrite Z.eqb_refl. cbn [length]. rewrite u32_small by lia. unfold pos. f_equal. lia.
    + rewrite (proj2 (Z.eqb_neq t u)) by done. cbn [length]. rewrite Hi by done. f_equal. lia.
Qed.

Lemma graph_reverse_nfa_ok : exists inv, graph_reverse_nfa junk2 d = Ok inv /\ placed edges (data inv) /\ forall u, 0 <= u <= n -> rd (index inv) u = Ok (starts edges u).
Proof.
  pose proof (size_pos d Hwf) as Hpos. destruct count_ok as (index0 & E0 & L0 & R0 & C0). destruct (sum_ok index0 L0 R0 C0) as (index & E1 & L1 & R1). unfold graph_reverse_nfa. rewrite E0. cbn [rbind]. rewrite E1. cbn [rbind].
  replace (Z.of_nat (length index) - 1) with n by lia. rewrite R1 by lia. cbn [rbind]. assert (Hall : starts edges n = Z.of_nat (length edges)) by (apply starts_all; intros e He; apply edge_targets in He as [[? _] _]; lia). rewrite Hall.
  destruct (for_edges_inv (fun v '(data, ii) => Z.of_nat (length data) = Z.of_nat (length edges) /\ placed v data /\ (forall u, 0 <= u < n -> rd ii u = Ok (starts edges u + Z.of_nat (length (into u v)))) /\ Z.of_nat (length ii) = n + 1)
    (fun s t c '(data, ii) => let* i := rd ii t in let* ii := wr ii t (u32 (i + 1)) in let* data := wr data i (c, s) in Ok (data, ii)) (map junk2 (seqZ 0 (Z.of_nat (length edges))), index)) as ([data ii] & E2 & I1 & I2 & _); [lia| | |].
  - split; [rewrite length_map, length_seqZ; lia|]. split; [by intros u j p _|]. split; [|done]. intros u Hu. rewrite R1 by lia. f_equal. cbn. lia.
  - intros v e w [data ii] Ev (I1 & I2 & I3 & I4). destruct (fill_step v e w data ii Ev I1 I2 I3 I4) as (ii' & data' & E & HI). eexists. split; [exact E|]. exact HI.
  - setoid_rewrite E2. cbn [rbind]. eexists. split; [done|]. split; [exact I2|exact R1].
Qed.

Lemma egen_graph_ok inv u m l : placed edges (data inv) -> (forall u, 0 <= u <= n -> rd (index inv) u = Ok (starts edges u)) -> U u -> holds m l -> exists m',
  egen_graph inv u m = Ok m' /\ holds m' (foldl (fun l '(c, s) => ins c s l) l (into u edges)).
Proof.
  intros Hp Hi [Hu _] Hm. unfold egen_graph. rewrite Hi by lia. cbn [rbind]. rewrite Hi by lia. cbn [rbind]. rewrite starts_succ. set (a := starts edges u) in *.
  destruct (for_inv (fun i m => holds m (foldl (fun l '(c, s) => ins c s l) l (take (Z.to_nat (i - a)) (into u edges)))) (fun i mE => let* (c, s) := rd (data inv) i in insert mE c s) a (a + Z.of_nat (length (into u edges))) m) as (m' & E & HI); [lia| | |].
  - by rewrite Z.sub_diag.
  - intros i m1 Hr Hm1. destruct (lookup_lt_is_Some_2 (into u edges) (Z.to_nat (i - a))) as [[c s] Hc]; [lia|]. pose proof (Hp u _ _ ltac:(lia) Hc) as Hd. fold a in Hd. replace (a + Z.of_nat (Z.to_nat (i - a))) with i in Hd by lia. rewrite Hd. cbn [rbind].
    assert (Hc' : 0 <= c < sigma). { assert (Hin : In (c, s) (into u edges)) by (apply list_elem_of_In; by eapply list_elem_of_lookup_2). apply into_in, edge_targets in Hin as [_ Hin]. done. }
    destruct (insert_holds m1 _ c s Hm1 Hc') as (m2 & -> & Hm2). exists m2. split; [done|]. replace (Z.to_nat (i + 1 - a)) with (S (Z.to_nat (i - a))) by lia. rewrite (take_S_r _ _ _ Hc), foldl_app. done.
  - exists m'. split; [done|]. replace (Z.to_nat (a + Z.of_nat (length (into u edges)) - a)) with (length (into u edges)) in HI by lia. by rewrite firstn_all in HI.
Qed.
End graph.
(** ** Trees *)

(** Every state but the first has one move to it. *)
Definition tree : Prop := (forall s c, U s -> move d s c <> Some initial_state) /\
  forall u, U u -> u <> initial_state -> exists s c, U s /\ move d s c = Some u /\ forall s' c', U s' -> move d s' c' = Some u -> s' = s /\ c' = c.

Lemma tree_into u : tree -> U u -> (u = initial_state /\ into u edges = []) \/ (u <> initial_state /\ exists p, into u edges = [p]).
Proof.
  intros [T1 T2] Hu. pose proof (into_nodup u edges edges_nodup) as Hnd. destruct (Z.eq_dec u initial_state) as [->|Hne]; [left|right]; (split; [done|]).
  - destruct (into initial_state edges) as [|[c s] l] eqn:E; [done|]. exfalso. assert (Hin : In (c, s) (into initial_state edges)) by (rewrite E; by left). apply into_edges in Hin as [Hs Hm]. by apply (T1 s c).
  - destruct (T2 u Hu Hne) as (s & c & Hs & Hm & Huniq). assert (Hin : In (c, s) (into u edges)) by (by apply into_edges). assert (Hall : forall p, In p (into u edges) -> p = (c, s)).
    { intros [c' s'] Hp. apply into_edges in Hp as [Hs' Hm']. by destruct (Huniq s' c' Hs' Hm') as [-> ->]. }
    exists (c, s). destruct (into u edges) as [|p l]; [done|]. rewrite (Hall p) by (by left). destruct l as [|q l]; [done|]. exfalso. apply list.NoDup_cons in Hnd as [Hn _]. apply Hn. rewrite (Hall p), (Hall q) by ((left; done) || (right; left; done)). by left.
Qed.

Lemma trie_reverse_ok : tree -> exists inv, trie_reverse_dfa d = Ok inv /\ forall u p, 0 <= u < n -> into u edges = [p] -> rd inv u = Ok p.
Proof.
  intros Ht. pose proof (size_pos d Hwf) as Hpos. unfold trie_reverse_dfa. rewrite wr_ok by (rewrite length_replicate; unfold initial_state; lia). cbn [rbind].
  destruct (for_edges_inv (fun v '(inv, color) => Z.of_nat (length inv) = n /\ (forall u p, 0 <= u < n -> into u v = [p] -> rd inv u = Ok p) /\
      forall u, 0 <= u < n -> rd color u = Ok (bool_decide (u = initial_state \/ into u v <> [])))
    (fun s t c '(inv, color) => let* b := rd color t in let* _ := assert_ (negb b) in let* color := wr color t true in let* inv := wr inv t (c, s) in Ok (inv, color))
    (replicate (Z.to_nat n) (0, 0), <[Z.to_nat initial_state := true]> (replicate (Z.to_nat n) false))) as ([inv color] & E & I1 & I2 & _); [lia| | |].
  - split; [rewrite length_replicate; lia|]. split; [done|]. intros u Hu. rewrite insert_rd by (rewrite ?length_replicate; unfold initial_state; lia).
    destruct (Z.eqb_spec u initial_state) as [->|Hne]; [by rewrite bool_decide_eq_true_2 by (by left)|]. rewrite bool_decide_eq_false_2 by (intros [?|[]]; done). apply rd_ok; [lia|]. apply lookup_replicate. split; [done|lia].
  - intros v e w [inv color] Ev (I1 & I2 & I3). destruct (edge_targets e) as [Hu _]; [rewrite Ev; apply in_or_app; right; by left|]. set (t := e_to e) in *. assert (Hin : into t edges = into t v ++ to_pair e :: into t w).
    { rewrite Ev. change (e :: w) with ([e] ++ w). rewrite !into_app, (into_one t). unfold t. by rewrite Z.eqb_refl. }
    destruct (tree_into t Ht Hu) as [[_ En]|[Hne [p Ep]]]; [rewrite En in Hin; by destruct (into t v)|]. rewrite Ep in Hin. assert (into t v = []) as Etv by (destruct (into t v) as [|q [|? ?]]; [done|discriminate|discriminate]).
    assert (Hone : forall u, into u (v ++ [e]) = into u v ++ if t =? u then [to_pair e] else []) by (intros u; by rewrite into_app, into_one).
    destruct Hu as [Htn _]. pose proof (rd_range _ _ _ (I3 t Htn)) as Hcl. rewrite I3 by done. cbn [rbind]. rewrite Etv. rewrite bool_decide_eq_false_2 by (intros [?|[]]; done). cbn [negb assert_ rbind]. rewrite wr_ok by lia. cbn [rbind].
    rewrite wr_ok by lia. cbn [rbind]. eexists. split; [done|]. split; [by rewrite length_insert|].
    split; intros u; [intros q Hun Hq|intros Hun]; rewrite insert_rd by lia; rewrite Hone in *; destruct (Z.eqb_spec t u) as [<-|Htu].
    + rewrite Z.eqb_refl. rewrite Etv in Hq. by injection Hq as <-.
    + rewrite (proj2 (Z.eqb_neq u t)) by done. rewrite app_nil_r in Hq. by apply I2.
    + rewrite Z.eqb_refl. by rewrite bool_decide_eq_true_2 by (right; by destruct (into t v)).
    + rewrite (proj2 (Z.eqb_neq u t)) by done. rewrite app_nil_r. by apply I3.
  - setoid_rewrite E. cbn [rbind]. exists inv. by split.
Qed.

Lemma egen_trie_ok inv u m l : tree -> (forall u p, 0 <= u < n -> into u edges = [p] -> rd inv u = Ok p) -> U u -> holds m l -> exists m',
  egen_trie inv u m = Ok m' /\ holds m' (foldl (fun l '(c, s) => ins c s l) l (into u edges)).
Proof.
  intros Ht Hi Hu Hm. unfold egen_trie. destruct (tree_into u Ht Hu) as [[-> ->]|[Hne [[c s] Ep]]]; [by exists m|]. rewrite (proj2 (Z.eqb_neq _ _)) by done. cbn [negb]. rewrite (Hi u (c, s)) by (apply Hu || done). cbn [rbind]. rewrite Ep. cbn [foldl].
  apply insert_holds; [done|]. assert (Hin : In (c, s) (into u edges)) by (rewrite Ep; by left). apply into_in, edge_targets in Hin as [_ Hin]. done.
Qed.
End moves.
End HopcroftMoves.
