(* ===== verification/HopcroftCollapse.v ===== *)
(** * The automaton of the blocks

    [collapse] makes a state of every block; each state of the automaton behaves like
    the state of its block. *)
From stdpp Require Import sorting sets.
From S2P Require Import Prelude Dfa SmallMap Hopcroft HopcroftList HopcroftSplit HopcroftRefine HopcroftLoop HopcroftStart HopcroftMoves.
Import Dfa Hopcroft HopcroftList HopcroftSplit HopcroftRefine HopcroftLoop HopcroftStart HopcroftMoves.

Module HopcroftCollapse.

Lemma same_set_term d0 d1 d2 s l a b : same d1 (set_state d0 s a l) -> same d2 (set_state d1 s b (moves d1 s)) -> 0 <= s < total_states d0 -> same d2 (set_state d0 s b l).
Proof.
  intros [S1 S2 S3 S4 S5] [T1 T2 T3 T4 T5] Hs. cbn [set_state total_states num_free_states is_free is_term moves] in *.
  split; cbn [set_state total_states num_free_states is_free is_term moves]; [congruence|congruence|intros x Hx..].
  - rewrite T3, S3 by lia. done.
  - rewrite T4 by lia. destruct (Z.eqb_spec x s) as [->|]; [done|]. rewrite S4 by lia. by rewrite (proj2 (Z.eqb_neq x s)).
  - rewrite T5 by lia. rewrite !S5 by lia. destruct (Z.eqb_spec x s) as [->|]; [by rewrite Z.eqb_refl|done].
Qed.

Section collapse.
Context {M : Type} {max_states : Z} {usable : M -> Prop} `{Hmut : MutDfa M} `{Hlaws : !MutDfaLaws M max_states usable}.
Context (d : Dfa).
Hypothesis (Hwf : wf d) (Hmax : total_states d < max_states).
Notation n := (total_states d).
Notation U := (used d).
Notation minimal := (minimal d).

(** The moves between blocks. *)
Definition children (beta : Z -> Z) (l : list (Z * Z)) : list (Z * Z) := map (fun '(c, t) => (c, beta t)) l.

Lemma children_chars beta l : chars (children beta l) = chars l.
Proof. unfold chars, children. rewrite map_map. apply map_ext. by intros [c t]. Qed.

Lemma find_children beta c l : find_move c (children beta l) = beta <$> find_move c l.
Proof. induction l as [|[c' t] l IH]; [done|]. cbn [children map find_move]. destruct (c' =? c); [done|]. exact IH. Qed.

(** The states before [i] are made from the states [rep]. *)
Record built (beta rep : Z -> Z) (k i : Z) (m : M) : Prop := {
  bu_usable : usable m;
  bu_total : total_states (view m) = k;
  bu_num_free : num_free_states (view m) = 0;
  bu_free : forall s, 0 <= s < k -> is_free (view m) s = false;
  bu_done : forall s, 0 <= s < i -> is_term (view m) s = is_term d (rep s) /\ moves (view m) s = children beta (moves d (rep s));
  bu_rest : forall s, i <= s < k -> is_term (view m) s = false /\ moves (view m) s = []
}.

Lemma built_used beta rep k i m s : built beta rep k i m -> used (view m) s <-> 0 <= s < k.
Proof. intros [B1 B2 B3 B4 B5 B6]. unfold used. rewrite B2. split; [tauto|]. intros Hs. split; [done|by apply B4]. Qed.

Lemma children_good beta rep k i m s H : minimal H beta k -> built beta rep k i m -> U s -> good_moves (view m) (children beta (moves d s)).
Proof.
  intros HM HB Hs. destruct (wf_moves d Hwf s Hs) as [Ha Hg]. split; [by rewrite children_chars|]. intros c t Hin. apply in_map_iff in Hin as ([c' t'] & [= -> <-] & Hin). destruct (Hg c t' Hin) as [Hc Ht]. split; [done|].
  apply (built_used beta rep k i); [done|]. by apply (b_range _ _ _ _ _ (m_blocks _ _ _ _ HM)).
Qed.

Lemma for_children beta H k l : blocks n U H beta k -> (forall c t, In (c, t) l -> U t) ->
  for_moves l (fun t c children => let* m := rd (map blid (L H)) t in let* _ := assert_ (m <? k) in Ok (children ++ [(c, m)])) [] = Ok (children beta l).
Proof.
  intros Hb Hl. destruct (for_moves_inv (fun v ch => ch = children beta v) l (fun t c children => let* m := rd (map blid (L H)) t in let* _ := assert_ (m <? k) in Ok (children ++ [(c, m)])) []) as (ch & -> & ->); [done| |done].
  intros v c t w ch E ->. destruct (b_range _ _ _ _ _ Hb t) as (Htn & Htk & Htb); [apply (Hl c); rewrite E; apply in_or_app; right; by left|]. assert (rd (map blid (L H)) t = Ok (beta t)) as ->.
  { apply rd_ok; [lia|]. change (map blid (L H)) with (blid <$> L H). rewrite list_lookup_fmap. pose proof (rd_el (L H) t) as Hr. rewrite (b_length _ _ _ _ _ Hb) in Hr. specialize (Hr Htn). apply rd_Ok_inv in Hr as [_ ->]. cbn. by f_equal. }
  cbn [rbind]. rewrite (proj2 (Z.ltb_lt _ _)) by lia. cbn [assert_ rbind]. eexists. split; [done|]. unfold children. by rewrite map_app.
Qed.

(** The head of a block. *)
Lemma head_of H beta k g : minimal H beta k -> 0 <= g < k -> exists s, rd (map head (P H)) g = Ok s /\ U s /\ beta s = g.
Proof.
  intros [M1 M2 M3] Hg. destruct (b_rings _ _ _ _ _ M1 g Hg) as (r & Hnd & Hr & b & Hb & _ & Hh & _). exists (head b). apply rd_Ok_inv in Hb as [Hg0 Hb]. split; [|].
  - apply rd_ok; [done|]. change (map head (P H)) with (head <$> P H). by rewrite list_lookup_fmap, Hb.
  - apply Hr, Hh. intros ->. destruct (M2 g Hg) as (s & Hs). by apply (Hr s).
Qed.

Lemma built_set beta rep k i m m' s term l : built beta rep k i m -> i = s -> 0 <= s < k -> usable m' -> same (view m') (set_state (view m) s term l) ->
  term = is_term d (rep s) -> l = children beta (moves d (rep s)) -> built beta rep k (i + 1) m'.
Proof.
  intros [B1 B2 B3 B4 B5 B6] -> Hs Hu [S1 S2 S3 S4 S5] -> ->. cbn [set_state total_states num_free_states is_free is_term moves] in *. rewrite S1, B2 in S3, S4, S5. split; [done|congruence|congruence| | |].
  - intros x Hx. rewrite S3 by done. by apply B4.
  - intros x Hx. rewrite S4, S5 by lia. destruct (Z.eqb_spec x s) as [->|]; [done|]. apply B5. lia.
  - intros x Hx. rewrite S4, S5 by lia. rewrite (proj2 (Z.eqb_neq x s)) by lia. apply B6. lia.
Qed.

Lemma collapse_ok H beta k m : minimal H beta k -> beta 0 = 0 -> usable m -> total_states (view m) = 1 -> num_free_states (view m) = 0 ->
  is_free (view m) 0 = false -> is_term (view m) 0 = false -> moves (view m) 0 = [] -> exists m' rep, collapse d H m = Ok m' /\ built beta rep k k m' /\ forall g, 0 <= g < k -> U (rep g) /\ beta (rep g) = g.
Proof.
  intros HM H0 Hu Ht Hf Hf0 Ht0 Hm0. pose proof (m_blocks _ _ _ _ HM) as Hb. pose proof (count_bound d Hwf H beta k Hb (m_onto _ _ _ _ HM)) as Hk. destruct (b_range _ _ _ _ _ Hb 0 (wf_initial d Hwf)) as (_ & H0k & _).
  unfold collapse. rewrite (b_length _ _ _ _ _ Hb), Z.eqb_refl. cbn [assert_ rbind]. rewrite (b_count _ _ _ _ _ Hb). destruct (resize_states_ok m k Hu) as (m1 & -> & Hu1 & Ht1 & Hf1 & Hold & Hnew); [lia|]. cbn [rbind].
  set (rep := fun g => match rd (map head (P H)) g with Ok s => s | _ => 0 end). assert (Hrep : forall g, 0 <= g < k -> rd (map head (P H)) g = Ok (rep g) /\ U (rep g) /\ beta (rep g) = g).
  { intros g Hg. unfold rep. destruct (head_of H beta k g HM Hg) as (s & -> & Hs & Hsg). done. }
  match goal with |- exists m' rep, for_ 0 k ?body _ = _ /\ _ => destruct (for_inv (built beta rep k) body 0 k m1) as (m' & E & HB); [lia| | |] end.
  - split; [done|done|congruence| |lia|]; intros s Hs; (destruct (Z.eq_dec s 0) as [->|]; [destruct (Hold 0 ltac:(lia)) as (E1 & E2 & E3)|destruct (Hnew s ltac:(lia)) as (E1 & E2 & E3)]); rewrite ?E1, ?E2, ?E3; done.
  - intros i m2 Hi HB. destruct (Hrep i Hi) as (-> & HUr & Hbr). cbn [rbind]. destruct (b_range _ _ _ _ _ Hb (rep i) HUr) as (Hrn & _ & Hrb). assert (rd (map blid (L H)) (rep i) = Ok i) as ->.
    { apply rd_ok; [lia|]. change (map blid (L H)) with (blid <$> L H). rewrite list_lookup_fmap. pose proof (rd_el (L H) (rep i)) as Hr. rewrite (b_length _ _ _ _ _ Hb) in Hr. specialize (Hr Hrn). apply rd_Ok_inv in Hr as [_ ->]. cbn. f_equal. unfold bld in Hrb. lia. }
    cbn [rbind]. rewrite Z.eqb_refl. cbn [assert_ rbind]. rewrite (for_children beta H k) by (done || (intros c t Hin; by apply (wf_moves d Hwf (rep i) HUr) in Hin as [_ ?])). cbn [rbind].
    assert (Hui : used (view m2) i) by (by apply (built_used beta rep k i)). pose proof (children_good beta rep k i m2 (rep i) H HM HB HUr) as Hgood. destruct (bu_rest _ _ _ _ _ HB i ltac:(lia)) as [Hti Hmi].
    destruct (add_all_move_ok m2 i (children beta (moves d (rep i))) (bu_usable _ _ _ _ _ HB) Hui Hmi Hgood) as (m3 & -> & Hu3 & Hs3). cbn [rbind]. rewrite Hti in Hs3. destruct (is_term d (rep i)) eqn:Et.
    + assert (Hui3 : used (view m3) i). { destruct Hs3 as [S1 _ S3 _ _]. cbn [set_state total_states is_free] in *. destruct Hui as [Hr Hfr]. split; [lia|]. by rewrite S3 by lia. }
      destruct (set_term_bit_ok m3 i Hu3 Hui3) as (m4 & -> & Hu4 & Hs4). exists m4. split; [done|]. eapply (built_set beta rep k i m2 m4 i true); try done.
      apply (same_set_term (view m2) (view m3) (view m4) i (children beta (moves d (rep i))) false true Hs3 Hs4). rewrite (bu_total _ _ _ _ _ HB). lia.
    + exists m3. split; [done|]. by eapply (built_set beta rep k i m2 m3 i false).
  - exists m', rep. split; [exact E|]. split; [done|]. intros g Hg. by destruct (Hrep g Hg) as (_ & ? & ?).
Qed.

(** ** What the result means *)

Lemma built_move H beta rep k m s c : minimal H beta k -> (forall g, 0 <= g < k -> U (rep g) /\ beta (rep g) = g) -> built beta rep k k m -> U s -> move (view m) (beta s) c = beta <$> move d s c.
Proof.
  intros HM Hrep HB Hs. destruct (b_range _ _ _ _ _ (m_blocks _ _ _ _ HM) s Hs) as (_ & Hk & _). destruct (Hrep _ Hk) as [Hr Hrs]. unfold move at 1. destruct (bu_done _ _ _ _ _ HB (beta s) Hk) as [_ ->]. rewrite find_children. fold (move d (rep (beta s)) c).
  apply (m_alike _ _ _ _ HM) in Hrs; [|done..]. assert (Hmove : forall s t u, U s -> U t -> alike d d s t -> move d s c = Some u -> exists v, move d t c = Some v /\ beta u = beta v).
  { clear s Hs Hk Hr Hrs. intros s t u Hs Ht Hst Hu. destruct (alike_move d s t c u Hst Hu) as (v & Hv & Huv). exists v. split; [done|]. apply (m_alike _ _ _ _ HM); [apply (move_used d Hwf s c u)|apply (move_used d Hwf t c v)|]; done. }
  destruct (move d (rep (beta s)) c) as [u|] eqn:E.
  - destruct (Hmove _ s u Hr Hs Hrs E) as (v & -> & Huv). cbn. by rewrite Huv.
  - destruct (move d s c) as [v|] eqn:E'; [|done]. destruct (Hmove s _ v Hs Hr (alike_sym _ _ _ Hrs) E') as (u & Hu & _). congruence.
Qed.

Lemma built_alike H beta rep k m s : minimal H beta k -> (forall g, 0 <= g < k -> U (rep g) /\ beta (rep g) = g) -> built beta rep k k m -> U s -> alike d (view m) s (beta s).
Proof.
  intros HM Hrep HB Hs w. revert s Hs. induction w as [|c w IH]; intros s Hs.
  - cbn. destruct (b_range _ _ _ _ _ (m_blocks _ _ _ _ HM) s Hs) as (_ & Hk & _). destruct (Hrep _ Hk) as [Hr Hrs]. destruct (bu_done _ _ _ _ _ HB (beta s) Hk) as [-> _]. apply (m_alike _ _ _ _ HM) in Hrs; [|done..]. by rewrite (alike_term d _ _ Hrs).
  - rewrite !trace_cons, (built_move H beta rep k) by done. destruct (move d s c) as [u|] eqn:E; [|done]. cbn. apply IH. by destruct (move_used d Hwf s c u Hs E).
Qed.
End collapse.
End HopcroftCollapse.
