(* ===== verification/HopcroftProps.v ===== *)
(** * What minimisation promises

    The automaton that [graph_dfa_minimize] and [trie_dfa_minimize] build behaves like the
    one they read and has no two states that behave alike. *)
From stdpp Require Import sorting sets.
From S2P Require Import Prelude GoldHash Dfa SmallMap SplitterMap Hopcroft HopcroftList HopcroftSplit HopcroftRefine HopcroftLoop HopcroftStart HopcroftMoves HopcroftCollapse.
Import Dfa Hopcroft HopcroftList HopcroftSplit HopcroftRefine HopcroftLoop HopcroftStart HopcroftMoves HopcroftCollapse.

Module HopcroftProps.

(** ** The contract *)

(** [q] is [d] with the states that behave alike made one: [beta] tells what becomes of a
    state. *)
Record smallest (d q : Dfa) (beta : Z -> Z) : Prop := {
  sm_wf : wf q;
  sm_free : num_free_states q = 0;
  sm_initial : beta initial_state = initial_state;
  sm_alike : forall s, used d s -> used q (beta s) /\ alike d q s (beta s);
  sm_onto : forall g, used q g -> exists s, used d s /\ beta s = g;
  sm_distinct : forall g h, used q g -> used q h -> alike q q g h -> g = h
}.

(** What the theorems ask of a hash: the characters decide.  The default of the source
    is to use none; the [hopcroft_hash] of the automata looks at more and does not fit. *)
Definition hash_of_chars (d : Dfa) (use_hash : option (Z -> Z)) : Prop :=
  forall hash, use_hash = Some hash -> forall s t, used d s -> used d t -> chars (moves d s) = chars (moves d t) -> hash s = hash t.

Section facts.
Context {M : Type} {max_states : Z} {usable : M -> Prop} `{Hmut : MutDfa M} `{Hlaws : !MutDfaLaws M max_states usable}.
Context (d : Dfa).
Hypothesis (Hwf : wf d) (Hmax : total_states d < max_states).

Lemma new_Hopcroft_ok junk use_hash : hash_of_chars d use_hash -> exists H beta k, new_Hopcroft d junk use_hash = Ok H /\ inv d H [] beta k.
Proof.
  intros Hh. unfold new_Hopcroft. destruct use_hash as [hash|]; [|by apply Hopcroft_dfa_ok]. apply Hopcroft_hash_ok; [done|]. by apply Hh.
Qed.

Lemma built_smallest H beta k m rep : minimal d H beta k -> beta 0 = 0 -> built (usable:=usable) d beta rep k k m -> (forall g, 0 <= g < k -> used d (rep g) /\ beta (rep g) = g) -> smallest d (view m) beta.
Proof.
  intros HM H0 HB Hrep. pose proof (m_blocks _ _ _ _ HM) as Hb. pose proof (count_bound d Hwf H beta k Hb (m_onto _ _ _ _ HM)) as Hk. assert (Hused : forall g, used (view m) g <-> 0 <= g < k) by (intros g; by eapply (built_used d beta rep k k)).
  assert (Hin : forall s, used d s -> used (view m) (beta s)) by (intros s Hs; apply Hused; by apply (b_range _ _ _ _ _ Hb)).
  assert (Hal : forall s, used d s -> alike d (view m) s (beta s)) by (intros s Hs; by eapply (built_alike d Hwf H beta rep k)).
  split.
  - split; [change initial_state with 0; rewrite <- H0 at 1; apply Hin, (wf_initial d Hwf)|rewrite (bu_total _ _ _ _ _ _ HB); pose proof (wf_size d Hwf); lia| |].
    + intros _ s Hs. apply (bu_free _ _ _ _ _ _ HB). by rewrite (bu_total _ _ _ _ _ _ HB) in Hs.
    + intros g Hg%Hused. destruct (bu_done _ _ _ _ _ _ HB g Hg) as [_ ->]. destruct (Hrep g Hg) as [Hr _]. eapply (children_good d Hwf); done.
  - apply (bu_num_free _ _ _ _ _ _ HB).
  - done.
  - intros s Hs. split; [by apply Hin|by apply Hal].
  - intros g Hg%Hused. by apply (m_onto _ _ _ _ HM).
  - intros g h Hg%Hused Hh%Hused Hgh. destruct (Hrep g Hg) as [Hrg Eg]. destruct (Hrep h Hh) as [Hrh Eh]. rewrite <- Eg, <- Eh. apply (m_alike _ _ _ _ HM); [done|done|].
    intros w. rewrite (Hal _ Hrg w), (Hal _ Hrh w), Eg, Eh. apply Hgh.
Qed.

(** What is common to the two ways to minimise. *)
Lemma minimize_ok junk use_hash egen (m : M) : usable m -> hash_of_chars d use_hash ->
  (forall u m l, used d u -> SplitterMap.holds m l -> exists m', egen u m = Ok m' /\ SplitterMap.holds m' (foldl (fun l '(c, s) => SplitterMap.ins c s l) l (into u (edges d)))) ->
  exists m0 H m' beta, erase_all m = Ok m0 /\ new_Hopcroft d junk use_hash = Ok H /\ (let* H := refine egen H in collapse d H m0) = Ok m' /\ usable m' /\ smallest d (view m') beta.
Proof.
  intros Hu Hh Hegen. destruct (erase_all_ok m Hu) as (m0 & E0 & Hu0 & T1 & T2 & T3 & T4 & T5). destruct (new_Hopcroft_ok junk use_hash Hh) as (H & beta0 & k0 & EH & HI).
  destruct (refine_ok d Hwf egen (fun u => into u (edges d)) Hegen) with (H := H) (beta := beta0) (k := k0) as (H' & beta & k & ER & HM & HB0); [intros u c s Hu'; by apply into_edges|intros u _; by apply into_nodup, edges_nodup|done|].
  destruct (collapse_ok d Hwf Hmax H' beta k m0 HM HB0 Hu0 T1 T2 T3 T4 T5) as (m' & rep & EC & HB & Hrep). exists m0, H, m', beta. split; [done|]. split; [done|]. rewrite ER. cbn [rbind].
  split; [done|]. split; [apply (bu_usable _ _ _ _ _ _ HB)|]. by eapply built_smallest.
Qed.

Lemma size_assert : (total_states d <? 2 ^ 32 - 1) = true.
Proof. apply Z.ltb_lt. pose proof (wf_size d Hwf). lia. Qed.

Lemma graph_minimize_ok junk junk2 use_hash (m : M) : usable m -> hash_of_chars d use_hash -> Z.of_nat (length (edges d)) < 2 ^ 32 -> exists m' beta,
  graph_dfa_minimize d junk junk2 use_hash m = Ok m' /\ usable m' /\ smallest d (view m') beta.
Proof.
  intros Hu Hh Hs. destruct (graph_reverse_nfa_ok d Hwf Hs junk2) as (inv & EI & Hp & Hx).
  destruct (minimize_ok junk use_hash (egen_graph inv) m Hu Hh) as (m0 & H & m' & beta & E0 & EH & EM & Hu' & Hsm); [intros u m1 l Hu1 Hm1; by apply egen_graph_ok|].
  exists m', beta. split; [|done]. unfold graph_dfa_minimize, hopcroft_graph_dfa_no_collapse. rewrite E0. cbn [rbind]. rewrite size_assert. cbn [assert_ rbind]. rewrite EH. cbn [rbind]. rewrite EI. cbn [rbind]. exact EM.
Qed.

Lemma trie_minimize_ok junk use_hash (m : M) : usable m -> hash_of_chars d use_hash -> tree d -> exists m' beta,
  trie_dfa_minimize d junk use_hash m = Ok m' /\ usable m' /\ smallest d (view m') beta.
Proof.
  intros Hu Hh Ht. destruct (trie_reverse_ok d Hwf Ht) as (inv & EI & Hx).
  destruct (minimize_ok junk use_hash (egen_trie inv) m Hu Hh) as (m0 & H & m' & beta & E0 & EH & EM & Hu' & Hsm); [intros u m1 l Hu1 Hm1; by apply egen_trie_ok|].
  exists m', beta. split; [|done]. unfold trie_dfa_minimize. rewrite E0. cbn [rbind]. rewrite size_assert. cbn [assert_ rbind]. rewrite EH. cbn [rbind]. rewrite EI. cbn [rbind]. exact EM.
Qed.
End facts.
(** ** Languages *)




Section results.
Context {M : Type} {max_states : Z} {usable : M -> Prop} `{Hmut : MutDfa M} `{Hlaws : !MutDfaLaws M max_states usable}.
Context (d : Dfa) (junk : Z -> Elem) (junk2 : Z -> Z * Z) (use_hash : option (Z -> Z)) (m : M).

(** C10: [graph_dfa_minimize] of an automaton with fewer than 2^32 moves ends without an
    exception and out of no bounds.  The first partition is that into final and other
    states ([use_hash = None], the default of the source), or one by a hash that is the
    same for states that have moves on the same characters; the functions
    [hopcroft_hash] of the automata are not of this kind, and with them the theorem says
    nothing.  The automaton it builds has a state for every class of states that
    behave alike on all words (so the initial states behave alike), no two of its
    states behave alike, and it is again well formed. *)
Theorem hopcroft_graph_minimize : wf d -> total_states d < max_states -> usable m -> hash_of_chars d use_hash -> Z.of_nat (length (edges d)) < 2 ^ 32 -> exists m' beta,
  graph_dfa_minimize d junk junk2 use_hash m = Ok m' /\ usable m' /\ smallest d (view m') beta.
Proof. intros Hwf Hmax Hu Hh Hs. by apply graph_minimize_ok. Qed.

(** C11: [trie_dfa_minimize] does the same for an automaton that is a tree, from the one
    move to each state; likewise without a hash, or with one that depends on the
    characters of the moves alone. *)
Theorem hopcroft_trie_minimize : wf d -> total_states d < max_states -> usable m -> hash_of_chars d use_hash -> tree d -> exists m' beta,
  trie_dfa_minimize d junk use_hash m = Ok m' /\ usable m' /\ smallest d (view m') beta.
Proof. intros Hwf Hmax Hu Hh Ht. by apply trie_minimize_ok. Qed.


End results.
(** ** Examples *)

(** Automata as lists of states, to have the results built. *)
Module ListDfa.
Definition t := list (bool * list (Z * Z)).
Definition state (m : t) (s : Z) : bool * list (Z * Z) := nth (Z.to_nat s) m (false, []).

#[global] Instance mut : MutDfa t := {
  view m := Build (Z.of_nat (length m)) 0 (fun _ => false) (fun s => fst (state m s)) (fun s => snd (state m s));
  erase_all _ := Ok [(false, [])];
  resize_states m n := Ok (m ++ replicate (Z.to_nat n - length m) (false, []));
  set_term_bit m s := upd m s (fun x => (true, snd x));
  add_all_move m s l := upd m s (fun x => (fst x, l))
}.

Lemma state_rd m s : 0 <= s < Z.of_nat (length m) -> rd m s = Ok (state m s).
Proof. intros Hs. apply rd_ok; [lia|]. destruct (lookup_lt_is_Some_2 m (Z.to_nat s)) as [x Hx]; [lia|]. unfold state. by rewrite nth_lookup, Hx. Qed.

Lemma state_insert m s x k : 0 <= s < Z.of_nat (length m) -> 0 <= k -> state (<[Z.to_nat s := x]> m) k = if k =? s then x else state m k.
Proof. intros Hs Hk. unfold state. rewrite !nth_lookup. destruct (Z.eqb_spec k s) as [->|]; [by rewrite list_lookup_insert_eq by lia|by rewrite list_lookup_insert_ne by lia]. Qed.

#[global] Instance laws : MutDfaLaws t (2 ^ 31) (fun _ => True).
Proof.
  split; intros m.
  - intros _. eexists. split; [done|]. done.
  - intros n _ Hn. cbn [view mut total_states resize_states] in *. eexists. split; [done|]. split; [done|]. cbn [total_states num_free_states is_free is_term moves]. rewrite length_app, length_replicate. split; [lia|]. split; [done|].
    unfold state. split; intros s Hs; [rewrite !nth_lookup, lookup_app_l by lia; done|]. rewrite !nth_lookup, lookup_app_r by lia. split; [done|].
    destruct (lookup_lt_is_Some_2 (replicate (Z.to_nat n - length m) (false, @nil (Z * Z))) (Z.to_nat s - length m)) as [x Hx]; [rewrite length_replicate; lia|]. rewrite Hx. apply lookup_replicate in Hx as [-> _]. done.
  - intros s _ [Hs _]. cbn [view mut total_states] in Hs. cbn [set_term_bit mut]. rewrite (upd_rd _ _ _ _ (state_rd m s Hs)). eexists. split; [done|]. split; [done|].
    split; cbn [view mut set_state total_states num_free_states is_free is_term moves]; rewrite ?length_insert; try done; intros x Hx; rewrite state_insert by lia; destruct (Z.eqb_spec x s) as [->|]; done.
  - intros s l _ [Hs _] _ _. cbn [view mut total_states] in Hs. cbn [add_all_move mut]. rewrite (upd_rd _ _ _ _ (state_rd m s Hs)). eexists. split; [done|]. split; [done|].
    split; cbn [view mut set_state total_states num_free_states is_free is_term moves]; rewrite ?length_insert; try done; intros x Hx; rewrite state_insert by lia; destruct (Z.eqb_spec x s) as [->|]; done.
Qed.
End ListDfa.

(** Seven states, the last one free; 1 and 2 behave alike, 3 and 4 and 5 too. *)
Definition sample : Dfa := Build 7 1 (fun s => s =? 6) (fun s => 3 <=? s)
  (fun s => if s =? 0 then [(97, 1); (98, 2)] else if s =? 1 then [(99, 3)] else if s =? 2 then [(99, 4)] else []).

(** A tree. *)
Definition sample_tree : Dfa := Build 5 0 (fun _ => false) (fun s => 3 <=? s)
  (fun s => if s =? 0 then [(97, 1); (98, 2)] else if s =? 1 then [(99, 3)] else if s =? 2 then [(99, 4)] else []).

Definition no_elem (_ : Z) : Elem := MkElem 0 0 0.
Definition no_pair (_ : Z) : Z * Z := (0, 0).

Lemma sample_moves d s : (d = sample \/ d = sample_tree) -> good_moves d (moves d s).
Proof.
  intros Hd. assert (Hm : moves d s = [(97, 1); (98, 2)] \/ moves d s = [(99, 3)] \/ moves d s = [(99, 4)] \/ moves d s = []).
  { destruct Hd as [-> | ->]; cbn [moves sample sample_tree]; destruct (s =? 0), (s =? 1), (s =? 2); auto. }
  assert (Hu : forall t, 0 <= t < 5 -> used d t). { intros t Ht. unfold used. destruct Hd as [-> | ->]; cbn [total_states is_free sample sample_tree]; (split; [lia|]); [apply Z.eqb_neq; lia|done]. }
  unfold good_moves. destruct Hm as [-> |[-> |[-> | ->]]]; (split; [done|]); intros c t Hin; cbn in Hin; intuition (subst; try (unfold sigma; lia); try (apply Hu; lia)); simplify_eq; try (unfold sigma; lia); apply Hu; lia.
Qed.

Lemma samples_wf d : d = sample \/ d = sample_tree -> wf d.
Proof.
  intros Hd. split; [by destruct Hd as [-> | ->]|by destruct Hd as [-> | ->]|by destruct Hd as [-> | ->]|intros s _; by apply sample_moves].
Qed.

Lemma no_hash_ok d : hash_of_chars d None.
Proof. by intros hash. Qed.

Lemma hopcroft_graph_minimize_witness :
  graph_dfa_minimize (M := ListDfa.t) sample no_elem no_pair None [] = Ok [(false, [(97, 2); (98, 2)]); (true, []); (false, [(99, 1)])] /\
  exists m' beta, graph_dfa_minimize (M := ListDfa.t) sample no_elem no_pair None [] = Ok m' /\ True /\ smallest sample (view m') beta.
Proof.
  split; [vm_compute; reflexivity|]. apply (hopcroft_graph_minimize (max_states := 2 ^ 31) (usable := fun _ => True)); [apply samples_wf; by left|done|done|apply no_hash_ok|vm_compute; reflexivity].
Defined.

Lemma sample_is_tree : tree sample_tree.
Proof.
  assert (Hm : forall s c u, used sample_tree s -> move sample_tree s c = Some u -> (s = 0 /\ c = 97 /\ u = 1) \/ (s = 0 /\ c = 98 /\ u = 2) \/ (s = 1 /\ c = 99 /\ u = 3) \/ (s = 2 /\ c = 99 /\ u = 4)).
  { intros s c u _. unfold move. cbn [moves sample_tree]. destruct (Z.eqb_spec s 0) as [->|]; [|destruct (Z.eqb_spec s 1) as [->|]; [|destruct (Z.eqb_spec s 2) as [->|]]]; cbn [find_move]; [| | |done].
    - destruct (Z.eqb_spec 97 c) as [<-|]; [intros [= <-]; lia|]. destruct (Z.eqb_spec 98 c) as [<-|]; [intros [= <-]; lia|done].
    - destruct (Z.eqb_spec 99 c) as [<-|]; [intros [= <-]; lia|done].
    - destruct (Z.eqb_spec 99 c) as [<-|]; [intros [= <-]; lia|done]. }
  split.
  - intros s c Hs E. apply Hm in E; [|done]. unfold initial_state in E. lia.
  - intros u [Hu _] Hne. cbn [total_states sample_tree] in Hu. unfold initial_state in Hne. assert (Hc : u = 1 \/ u = 2 \/ u = 3 \/ u = 4) by lia.
    destruct Hc as [->|[->|[->| ->]]]; [exists 0, 97|exists 0, 98|exists 1, 99|exists 2, 99]; (split; [by split|]; split; [done|]; intros s' c' Hs' E; apply Hm in E; [lia|done]).
Qed.

Lemma hopcroft_trie_minimize_witness :
  trie_dfa_minimize (M := ListDfa.t) sample_tree no_elem None [] = Ok [(false, [(97, 2); (98, 2)]); (true, []); (false, [(99, 1)])] /\
  exists m' beta, trie_dfa_minimize (M := ListDfa.t) sample_tree no_elem None [] = Ok m' /\ True /\ smallest sample_tree (view m') beta.
Proof.
  split; [vm_compute; reflexivity|]. apply (hopcroft_trie_minimize (max_states := 2 ^ 31) (usable := fun _ => True)); [apply samples_wf; by right|done|done|apply no_hash_ok|apply sample_is_tree].
Defined.



End HopcroftProps.
