(* ===== verification/MemPool.v ===== *)
(** * The memory pool

    [mempool_lock_none.hpp] for blocks aligned at four bytes: one array from which
    blocks are cut; a block that is given back is linked into a list of blocks of its
    size, or into a skip list when it is large.  The links are kept in the free blocks
    themselves.

    The array is a list of 32-bit words; positions and lengths are in bytes, as in the
    code. *)
From S2P Require Import Prelude.

Module MemPool.

Definition align_size : Z := 4.
Definition skip_list_level_max : Z := 8.
Definition list_tail : Z := 2 ^ 32 - 1.
Definition offset_shift : Z := 2.
Definition sizeof_huge_link_t : Z := 36.

(** [head_t] *)
Record head_t := MkHead { head : Z; cnt : Z }.
Definition empty_head : head_t := MkHead list_tail 0.

Record MemPool := Pool {
  mem : list Z;
  fragment_size : Z;
  huge_size_sum : Z;
  huge_node_cnt : Z;
  (** [huge_list] *)
  huge_size : Z;
  huge_next : list Z;
  free_list : list head_t;
  m_rand_seed : Z
}.

Definition n (p : MemPool) : Z := align_size * Z.of_nat (length (mem p)).
Definition free_list_len (p : MemPool) : Z := Z.of_nat (length (free_list p)).

Definition set_mem (p : MemPool) (m : list Z) : MemPool := Pool m (fragment_size p) (huge_size_sum p) (huge_node_cnt p) (huge_size p) (huge_next p) (free_list p) (m_rand_seed p).
Definition set_lists (p : MemPool) (l : list head_t) : MemPool := Pool (mem p) (fragment_size p) (huge_size_sum p) (huge_node_cnt p) (huge_size p) (huge_next p) l (m_rand_seed p).
Definition set_huge (p : MemPool) (k : Z) (nx : list Z) : MemPool := Pool (mem p) (fragment_size p) (huge_size_sum p) (huge_node_cnt p) k nx (free_list p) (m_rand_seed p).
Definition set_seed (p : MemPool) (s : Z) : MemPool := Pool (mem p) (fragment_size p) (huge_size_sum p) (huge_node_cnt p) (huge_size p) (huge_next p) (free_list p) s.
Definition add_sums (p : MemPool) (f s c : Z) : MemPool := Pool (mem p) (fragment_size p + f) (huge_size_sum p + s) (huge_node_cnt p + c) (huge_size p) (huge_next p) (free_list p) (m_rand_seed p).

Definition align_up (size : Z) : Z := let size := size + align_size - 1 in size - size mod align_size.
Definition align_to (len : Z) : Z := Z.land (len + align_size - 1) (not64 (align_size - 1)).

Definition no_next : list Z := replicate (Z.to_nat skip_list_level_max) list_tail.

(** The constructor. *)
Definition make (maxBlockSize : Z) : res MemPool :=
  let* _ := assert_ (align_size <=? maxBlockSize) in
  let* _ := assert_ (sizeof_huge_link_t <=? maxBlockSize) in
  let maxBlockSize := align_to maxBlockSize in
  let free_list_len := maxBlockSize / align_size in
  Ok (Pool [] 0 0 0 0 no_next (replicate (Z.to_nat free_list_len) empty_head) 1).

Definition erase_all (p : MemPool) : MemPool :=
  Pool [] 0 0 0 0 no_next (replicate (length (free_list p)) empty_head) (m_rand_seed p).

Definition clear (p : MemPool) : MemPool :=
  Pool [] 0 0 0 0 no_next (replicate (length (free_list p)) empty_head) (m_rand_seed p).
Definition clear_free_list (p : MemPool) : MemPool := Pool (mem p) 0 0 0 0 no_next [] (m_rand_seed p).
Definition destroy_and_clean (p : MemPool) : MemPool := clear_free_list (set_mem p []).

Definition get_fastbin (p : MemPool) : list Z := map cnt (free_list p).
Definition get_huge_stat (p : MemPool) : Z * Z := (huge_node_cnt p, huge_size_sum p).
Definition frag_size (p : MemPool) : Z := fragment_size p.

(** ** Memory *)

(** [at<uint32_t>(pos)] *)
Definition at_ (p : MemPool) (pos : Z) : res Z :=
  let* _ := assert_ (pos <? n p) in
  let* _ := assert_ (pos mod align_size =? 0) in rd (mem p) (pos / align_size).
Definition set_at (p : MemPool) (pos v : Z) : res MemPool :=
  let* _ := assert_ (pos <? n p) in
  let* _ := assert_ (pos mod align_size =? 0) in
  let* m := wr (mem p) (pos / align_size) v in Ok (set_mem p m).

Definition byte_at (p : MemPool) (pos : Z) : res Z :=
  let* _ := assert_ (pos <? n p) in
  let* w := rd (mem p) (pos / align_size) in Ok (u8 (Z.shiftr w (8 * (pos mod align_size)))).

(** A [huge_link_t*]: [None] is the address of [huge_list]. *)
Definition link_size (p : MemPool) (x : option Z) : res Z := match x with None => Ok (huge_size p) | Some pos => at_ p pos end.
Definition link_next (p : MemPool) (x : option Z) (k : Z) : res Z :=
  match x with
  | None => rd (huge_next p) k
  | Some pos => let* _ := assert_ ((0 <=? k) && (k <? skip_list_level_max)) in at_ p (pos + 4 + 4 * k)
  end.
Definition set_link_next (p : MemPool) (x : option Z) (k v : Z) : res MemPool :=
  match x with
  | None => let* nx := wr (huge_next p) k v in Ok (set_huge p (huge_size p) nx)
  | Some pos => let* _ := assert_ ((0 <=? k) && (k <? skip_list_level_max)) in set_at p (pos + 4 + 4 * k) v
  end.

(** [n = pos + ...]: the bytes of the array that are new are those that were there. *)
Definition set_n (junk : Z -> Z) (p : MemPool) (End : Z) : MemPool :=
  set_mem p (take (Z.to_nat (End / align_size)) (mem p ++ map junk (seqZ (n p / align_size) (End / align_size - n p / align_size)))).

(** ** The skip list *)

(** For each level the last node that is smaller than [request], and the node looked at
    last. *)
Definition search (p : MemPool) (request : Z) : res (list (option Z) * option Z) :=
  let* (update, _, n2) := for_ 0 (huge_size p) (fun i '(update, n1, n2) =>
    let k := huge_size p - 1 - i in
    let* (n1, n2) := loop (S (length (mem p))) (fun '(n1, n2) =>
      let* x := link_next p n1 k in
      if x =? list_tail then Ok (inr (n1, n2)) else
      let n2 := Z.shiftl x offset_shift in
      let* size := link_size p (Some n2) in
      Ok (if size <? request then inl (Some n2, Some n2) else inr (n1, Some n2))) (n1, n2) in
    let* update := wr update k n1 in Ok (update, n1, n2))
    (replicate (Z.to_nat skip_list_level_max) None, None, None) in
  Ok (update, n2).

Section random.
(** [rand_r] of the C library: the number and the new seed. *)
Context (rand_r : Z -> Z * Z).

Definition rand (p : MemPool) : Z * MemPool := let '(r, s) := rand_r (m_rand_seed p) in (r, set_seed p s).

Definition random_level (p : MemPool) : res (Z * MemPool) :=
  let* (level, p) := loop (S (Z.to_nat skip_list_level_max)) (fun '(level, p) =>
    let '(r, p) := rand p in
    Ok (if (r mod 4 =? 0) && (level <? skip_list_level_max) then inl (level + 1, p) else inr (level, p))) (1, p) in
  Ok (level - 1, p).

(** A debug build also overwrites the block behind its first word with 0xDD when it goes
    into a list of small blocks; here it keeps what it held, as in a release build. *)
Definition sfree (p : MemPool) (pos len : Z) : res MemPool :=
  let* _ := assert_ (0 <? len) in
  let* _ := assert_ (pos <? n p) in
  let* _ := assert_ (pos mod align_size =? 0) in
  let len := align_up len in
  let* _ := assert_ (pos + len <=? n p) in
  if pos + len =? n p then Ok (set_mem p (take (Z.to_nat (pos / align_size)) (mem p))) else
  let* p := if len <=? free_list_len p * align_size then
      let idx := len / align_size - 1 in
      let* list := rd (free_list p) idx in
      let* p := set_at p pos (head list) in
      let* l := wr (free_list p) idx (MkHead (u32 (Z.shiftr pos offset_shift)) (u32 (cnt list + 1))) in Ok (set_lists p l)
    else
      let* _ := assert_ (sizeof_huge_link_t <=? len) in
      let* (update, _) := search p len in
      let* (k, p) := random_level p in
      let* (k, p, update) := if huge_size p <=? k then
          let k := huge_size p in
          let* update := wr update k None in Ok (k, set_huge p (huge_size p + 1) (huge_next p), update)
        else Ok (k, p, update) in
      let pos_shift := Z.shiftr pos offset_shift in
      let* p := for_ 0 (k + 1) (fun i p =>
        let k := k - i in
        let* n1 := rd update k in
        let* x := link_next p n1 k in
        let* p := set_link_next p (Some pos) k x in
        set_link_next p n1 k (u32 pos_shift)) p in
      let* p := set_at p pos (u32 len) in
      Ok (add_sums p 0 len 1) in
  Ok (add_sums p len 0 0).

(** Takes the node [n2] out of every level. *)
Definition unlink (p : MemPool) (update : list (option Z)) (n2 : Z) : res MemPool :=
  let res_shift := Z.shiftr n2 offset_shift in
  let* p := for_ 0 (huge_size p) (fun k p =>
    let* n1 := rd update k in
    let* x := link_next p n1 k in
    if x =? res_shift then let* y := link_next p (Some n2) k in set_link_next p n1 k y else Ok p) p in
  loop (S (Z.to_nat skip_list_level_max)) (fun p =>
    let* x := rd (huge_next p) (huge_size p - 1) in
    if x =? list_tail then
      let p := set_huge p (huge_size p - 1) (huge_next p) in
      Ok (if 0 <? huge_size p then inl p else inr p)
    else Ok (inr p)) p.

Section junk.
Context (junk : Z -> Z).

Definition alloc (p : MemPool) (request : Z) : res (Z * MemPool) :=
  let* _ := assert_ (0 <? request) in
  let request := align_up request in
  let grow (p : MemPool) := let pos := n p in Ok (pos, set_n junk p (pos + request)) in
  if request <=? free_list_len p * align_size then
    let idx := request / align_size - 1 in
    let* list := rd (free_list p) idx in
    if negb (list_tail =? head list) then
      let* _ := assert_ (request <=? fragment_size p) in
      let pos := Z.shiftl (head list) offset_shift in
      let* _ := assert_ (pos + request <=? n p) in
      let* h := at_ p pos in
      let* l := wr (free_list p) idx (MkHead h (u32 (cnt list - 1))) in
      Ok (pos, add_sums (set_lists p l) (- request) 0 0)
    else grow p
  else
    let* _ := assert_ (sizeof_huge_link_t <=? request) in
    let* (update, n2) := search p request in
    let* found := match n2 with None => Ok None | Some x => let* size := link_size p (Some x) in Ok (if request <=? size then Some (x, size) else None) end in
    match found with
    | Some (res, size) =>
        let remain := size - request in
        let* p := unlink p update res in
        let* p := if negb (remain =? 0) then sfree p (res + request) remain else Ok p in
        Ok (res, add_sums p (- request) (- request) (-1))
    | None => grow p
    end.

(** [memcpy] of whole words. *)
Definition copy_words (p : MemPool) (dst src len : Z) : res MemPool :=
  for_ 0 (len / align_size) (fun i p => let* w := at_ p (src + 4 * i) in set_at p (dst + 4 * i) w) p.

Definition alloc3 (p : MemPool) (pos oldlen newlen : Z) : res (Z * MemPool) :=
  let* _ := assert_ (0 <? newlen) in let newlen := align_up newlen in
  let* _ := assert_ (0 <? oldlen) in let oldlen := align_up oldlen in
  let* _ := assert_ (pos <? n p) in
  let* _ := assert_ (pos + oldlen <=? n p) in
  if pos + oldlen =? n p then Ok (pos, set_n junk p (pos + newlen))
  else if newlen <? oldlen then
    let* _ := assert_ (4 <=? oldlen - newlen) in
    let* _ := assert_ (align_size <=? oldlen - newlen) in
    let* p := sfree p (pos + newlen) (oldlen - newlen) in Ok (pos, p)
  else if newlen =? oldlen then Ok (pos, p)
  else
    let* (newpos, p) := alloc p newlen in
    let* p := copy_words p newpos pos (Z.min oldlen newlen) in
    let* p := sfree p pos oldlen in Ok (newpos, p).
End junk.
End random.
End MemPool.
