(* ===== verification/MemPoolInv.v ===== *)
(** * The blocks of the memory pool

    Every word of the array belongs to one block at most: a block that is in use, or a
    free one that hangs in the list of its size or in the skip list. *)
From stdpp Require Import sorting.
From S2P Require Import Prelude MemPool.
Import MemPool.

Module MemPoolInv.

(** ** Chains of pointers *)

(** From the pointer [h] through the blocks [l] to the pointer [h']; [nx] reads the
    pointer of a block. *)
Fixpoint seg (nx : Z -> Z) (h : Z) (l : list Z) (h' : Z) : Prop :=
  match l with [] => h = h' | a :: l => h = a /\ seg nx (nx a) l h' end.

Lemma seg_ext nx nx' h l h' : (forall a, a ∈ l -> nx a = nx' a) -> seg nx h l h' -> seg nx' h l h'.
Proof.
  revert h. induction l as [|a l IH]; intros h Hnx; [done|]. cbn [seg]. intros [-> Hs]. split; [done|]. rewrite <- Hnx by (by left). apply IH; [|done]. intros b Hb. apply Hnx. by right.
Qed.

Lemma seg_app nx h l l' h' : seg nx h (l ++ l') h' <-> exists m, seg nx h l m /\ seg nx m l' h'.
Proof.
  revert h. induction l as [|a l IH]; intros h; cbn [app seg]; [split; [by exists h|by intros (m & -> & ?)]|]. rewrite IH. split; [intros (-> & m & ? & ?); by exists m|intros (m & [-> ?] & ?); eauto].
Qed.

(** The pointers of a level: [None] is the head of the list. *)
Definition chain (F : option Z -> Z) (l : list Z) : Prop := seg (fun a => F (Some a)) (F None) l list_tail.

Definition pred (A : list Z) : option Z := list.last A.

Lemma chain_split F A B : chain F (A ++ B) <-> seg (fun a => F (Some a)) (F None) A (F (pred A)) /\ seg (fun a => F (Some a)) (F (pred A)) B list_tail.
Proof.
  unfold chain. rewrite seg_app. assert (Hm : forall h m, seg (fun a => F (Some a)) h A m -> m = match list.last A with Some a => F (Some a) | None => h end).
  { induction A as [|a A IH]; intros h m Hs; [by cbn in Hs|]. cbn [seg] in Hs. destruct Hs as [_ Hs]. apply IH in Hs. rewrite Hs. rewrite last_cons. by destruct (list.last A). }
  split.
  - intros (m & H1 & H2). pose proof (Hm _ _ H1) as E. assert (m = F (pred A)) as -> by (rewrite E; unfold pred; by destruct (list.last A)). done.
  - intros [H1 H2]. eauto.
Qed.

Lemma pred_in A a : pred A = Some a -> a ∈ A.
Proof. intros Hp. unfold pred in Hp. rewrite last_lookup in Hp. by eapply list_elem_of_lookup_2. Qed.

(** The head, or a block of [l]. *)
Definition on (l : list Z) (x : option Z) : Prop := match x with None => True | Some b => b ∈ l end.

(** A block comes in behind [A]. *)
Lemma chain_insert F F' A B a : chain F (A ++ B) -> a ∉ A ++ B -> NoDup (A ++ B) -> F' (Some a) = F (pred A) -> F' (pred A) = a ->
  (forall x, on (A ++ B) x -> x <> pred A -> F' x = F x) -> chain F' (A ++ a :: B).
Proof.
  intros Hc Ha Hnd Ha' Hp Ho. apply chain_split in Hc as [H1 H2]. apply chain_split. rewrite elem_of_app in Ha. apply list.NoDup_app in Hnd as (HA & HAB & _).
  assert (HB : forall b, b ∈ B -> F' (Some b) = F (Some b)). { intros b Hb. apply Ho; [apply elem_of_app; by right|]. intros E. apply (HAB b); [by apply pred_in|done]. }
  split.
  - rewrite Hp. destruct A as [|x A0] using rev_ind; [cbn in *; done|]. clear IHA0. unfold pred in *. rewrite last_snoc in *. apply seg_app in H1 as (m & S1 & S2). cbn [seg] in S2. destruct S2 as [-> S2]. apply seg_app. exists x.
    split; [|cbn [seg]; by split]. assert (F' None = F None) as -> by (by apply Ho). eapply seg_ext; [|exact S1]. intros b Hb. cbn. symmetry. apply Ho; [apply elem_of_app; left; apply elem_of_app; by left|].
    intros [= ->]. apply list.NoDup_app in HA as (_ & HA & _). apply (HA x Hb). by left.
  - rewrite Hp. cbn [seg]. split; [done|]. rewrite Ha'. eapply seg_ext; [|exact H2]. intros b Hb. by rewrite HB.
Qed.

(** The block behind [A] goes. *)
Lemma chain_delete F F' A B b : chain F (A ++ b :: B) -> NoDup (A ++ b :: B) -> F' (pred A) = F (Some b) -> (forall x, on (A ++ B) x -> x <> pred A -> F' x = F x) -> chain F' (A ++ B).
Proof.
  intros Hc Hnd Hp Ho. apply chain_split in Hc as [H1 H2]. cbn [seg] in H2. destruct H2 as [E2 H2]. apply chain_split. apply list.NoDup_app in Hnd as (HA & HAB & HB). apply list.NoDup_cons in HB as [HbB HB]. split.
  - destruct A as [|x A0] using rev_ind; [done|]. clear IHA0. unfold pred in *. rewrite last_snoc in *. apply seg_app in H1 as (m & S1 & S2). cbn [seg] in S2. destruct S2 as [-> S2]. apply seg_app. exists x. split; [|by cbn].
    assert (F' None = F None) as -> by (by apply Ho). eapply seg_ext; [|exact S1]. intros c Hc. cbn. symmetry. apply Ho; [apply elem_of_app; left; apply elem_of_app; by left|].
    intros [= ->]. apply list.NoDup_app in HA as (_ & HA & _). apply (HA x Hc). by left.
  - rewrite Hp. eapply seg_ext; [|exact H2]. intros c Hc. cbn. symmetry. apply Ho; [apply elem_of_app; by right|]. intros E. apply (HAB c); [by apply pred_in|by right].
Qed.

(** ** Blocks and their words *)

Definition cells (bs : list (Z * Z)) : list Z := concat (map (fun '(a, w) => seqZ a w) bs).

Lemma cells_app bs bs' : cells (bs ++ bs') = cells bs ++ cells bs'.
Proof. unfold cells. by rewrite map_app, concat_app. Qed.

Lemma cells_cons a w bs : cells ((a, w) :: bs) = seqZ a w ++ cells bs.
Proof. done. Qed.

Lemma elem_of_cells x bs : x ∈ cells bs <-> exists a w, (a, w) ∈ bs /\ a <= x < a + w.
Proof.
  unfold cells. rewrite list_elem_of_In, in_concat. split.
  - intros (l & Hl & Hx). apply in_map_iff in Hl as ([a w] & <- & Hin). exists a, w. split; [by apply list_elem_of_In|]. by apply list_elem_of_In, elem_of_seqZ in Hx.
  - intros (a & w & Hin & Hx). exists (seqZ a w). split; [|by apply list_elem_of_In, elem_of_seqZ]. apply in_map_iff. exists (a, w). split; [done|]. by apply list_elem_of_In.
Qed.

#[export] Instance cells_perm : Proper ((≡ₚ) ==> (≡ₚ)) cells.
Proof.
  intros bs bs' Hp. induction Hp as [|[a w] bs bs' Hp IH|[a w] [a' w'] bs|bs1 bs2 bs3 H1 IH1 H2 IH2]; [done| | |by etrans].
  - rewrite !cells_cons. by rewrite IH.
  - rewrite !cells_cons, !app_assoc. by rewrite (Permutation_app_comm (seqZ a w)).
Qed.

Lemma cells_split a w v bs : 0 <= w -> 0 <= v -> cells ((a, w + v) :: bs) = cells ((a, w) :: (a + w, v) :: bs).
Proof. intros Hw Hv. rewrite !cells_cons, seqZ_app by done. by rewrite <- app_assoc. Qed.

(** A node of the skip list. *)
Record node := Node { addr : Z; words : Z; height : Z }.

(** The free blocks: of [i + 1] words in the list [i], and the nodes. *)
Definition fast_blocks (fast : list (list Z)) : list (Z * Z) := concat (imap (fun i l => map (fun a => (a, Z.of_nat i + 1)) l) fast).
Definition huge_blocks (huge : list node) : list (Z * Z) := map (fun x => (addr x, words x)) huge.
Definition free_blocks (fast : list (list Z)) (huge : list node) : list (Z * Z) := fast_blocks fast ++ huge_blocks huge.
Definition total (bs : list (Z * Z)) : Z := zsum (map snd bs).
Definition free_words (fast : list (list Z)) (huge : list node) : Z := total (free_blocks fast huge).

(** The nodes that are in level [k]. *)
Definition level (k : Z) (huge : list node) : list Z := map addr (filter (fun x => k < height x) huge).

(** The pointer that a node has in level [k]. *)
Definition next_of (p : MemPool) (k : Z) (x : option Z) : Z :=
  match x with None => word_at (huge_next p) k | Some a => word_at (mem p) (a + 1 + k) end.

Definition smaller (x y : node) : Prop := words x <= words y.

Record rep (p : MemPool) (live : list (Z * Z)) (fast : list (list Z)) (huge : list node) : Prop := {
  r_size : 4 * Z.of_nat (length (mem p)) < 2 ^ 32;
  r_cells : NoDup (cells (live ++ free_blocks fast huge));
  r_bounds : forall x, x ∈ cells (live ++ free_blocks fast huge) -> 0 <= x < Z.of_nat (length (mem p));
  (** No word is lost. *)
  r_total : total (live ++ free_blocks fast huge) = Z.of_nat (length (mem p));
  r_live : forall a w, (a, w) ∈ live -> 0 < w;
  r_lists : length fast = length (free_list p);
  r_enough : 9 <= free_list_len p;
  r_fast : forall i l hd, fast !! i = Some l -> free_list p !! i = Some hd -> seg (word_at (mem p)) (head hd) l list_tail /\ cnt hd = Z.of_nat (length l);
  r_sorted : StronglySorted smaller huge;
  r_node : forall x, x ∈ huge -> free_list_len p < words x /\ 1 <= height x <= huge_size p /\ word_at (mem p) (addr x) = 4 * words x;
  r_levels : forall k, 0 <= k < skip_list_level_max -> chain (next_of p k) (level k huge);
  r_next : length (huge_next p) = Z.to_nat skip_list_level_max;
  r_height : 0 <= huge_size p <= skip_list_level_max;
  r_frag : 4 * free_words fast huge <= fragment_size p
}.
(** ** Reading and writing words *)

Notation N p := (Z.of_nat (length (mem p))).

Lemma word_read_ok p a : 0 <= a < N p -> at_ p (4 * a) = Ok (word_at (mem p) a).
Proof.
  intros Ha. unfold at_, n, align_size. rewrite (proj2 (Z.ltb_lt _ _)) by lia. cbn [assert_ rbind]. rewrite Z.mul_comm, Z.mod_mul, Z.eqb_refl by lia. cbn [assert_ rbind]. rewrite Z.div_mul by lia. by apply rd_word.
Qed.

Lemma set_at_ok p a v : 0 <= a < N p -> set_at p (4 * a) v = Ok (set_mem p (<[Z.to_nat a := v]> (mem p))).
Proof.
  intros Ha. unfold set_at, n, align_size. rewrite (proj2 (Z.ltb_lt _ _)) by lia. cbn [assert_ rbind]. rewrite Z.mul_comm, Z.mod_mul, Z.eqb_refl by lia. cbn [assert_ rbind]. rewrite Z.div_mul by lia. by rewrite wr_ok.
Qed.

Lemma shl_words x : Z.shiftl x offset_shift = 4 * x.
Proof. unfold offset_shift. rewrite Z.shiftl_mul_pow2 by lia. lia. Qed.

Lemma shr_words a : Z.shiftr (4 * a) offset_shift = a.
Proof. unfold offset_shift. rewrite Z.shiftr_div_pow2 by lia. change (2 ^ 2) with 4. rewrite Z.mul_comm. by apply Z.div_mul. Qed.

Lemma align_up_words len w : 4 * (w - 1) < len <= 4 * w -> align_up len = 4 * w.
Proof. intros Hl. unfold align_up, align_size. pose proof (Z.div_mod (len + 4 - 1) 4 ltac:(lia)). pose proof (Z.mod_pos_bound (len + 4 - 1) 4 ltac:(lia)). lia. Qed.

(** ** What free blocks say *)

Lemma fast_blocks_in fast a w : (a, w) ∈ fast_blocks fast <-> exists i l, fast !! i = Some l /\ a ∈ l /\ w = Z.of_nat i + 1.
Proof.
  unfold fast_blocks. rewrite list_elem_of_In, in_concat. split.
  - intros (x & Hx & Hin). apply list_elem_of_In in Hx. apply elem_of_lookup_imap in Hx as (i & l & -> & Hl). apply in_map_iff in Hin as (b & [= -> <-] & Hb). exists i, l. split; [done|]. split; [by apply list_elem_of_In|done].
  - intros (i & l & Hl & Ha & ->). exists (map (fun a => (a, Z.of_nat i + 1)) l). split; [|apply in_map_iff; exists a; split; [done|by apply list_elem_of_In]]. apply list_elem_of_In, elem_of_lookup_imap. by exists i, l.
Qed.

Lemma huge_blocks_in huge x : x ∈ huge -> (addr x, words x) ∈ huge_blocks huge.
Proof. intros Hx. apply list_elem_of_In, in_map_iff. exists x. split; [done|]. by apply list_elem_of_In. Qed.

Lemma fast_blocks_insert_aux (fast : list (list Z)) (i : nat) (a : Z) (l : list Z) (o : nat) : fast !! i = Some l ->
  concat (imap (fun j l => map (fun a => (a, Z.of_nat (o + j) + 1)) l) (<[i := a :: l]> fast)) ≡ₚ (a, Z.of_nat (o + i) + 1) :: concat (imap (fun j l => map (fun a => (a, Z.of_nat (o + j) + 1)) l) fast).
Proof.
  revert i o. induction fast as [|l0 fast IH]; intros i o Hi; [done|]. destruct i as [|i]; cbn [lookup list_lookup insert list_insert] in *.
  - injection Hi as ->. cbn. done.
  - rewrite !imap_cons. cbn [concat]. pose proof (IH i (S o) Hi) as Hp. rewrite Permutation_middle. f_equiv.
    replace (Z.of_nat (o + S i)) with (Z.of_nat (S o + i)) by lia. etrans; [|etrans; [exact Hp|]].
    + apply reflexive_eq. f_equal. apply imap_ext. intros j x _. cbn. apply map_ext. intros b. do 2 f_equal. lia.
    + f_equiv. apply reflexive_eq. f_equal. apply imap_ext. intros j x _. cbn. apply map_ext. intros b. do 2 f_equal. lia.
Qed.

Lemma fast_blocks_insert fast (i : nat) a l : fast !! i = Some l -> fast_blocks (<[i := a :: l]> fast) ≡ₚ (a, Z.of_nat i + 1) :: fast_blocks fast.
Proof. intros Hi. exact (fast_blocks_insert_aux fast i a l 0 Hi). Qed.

Lemma fast_blocks_pop fast (i : nat) a l : fast !! i = Some (a :: l) -> fast_blocks fast ≡ₚ (a, Z.of_nat i + 1) :: fast_blocks (<[i := l]> fast).
Proof.
  intros Hi. pose proof (lookup_lt_Some _ _ _ Hi) as Hl. rewrite <- (fast_blocks_insert (<[i := l]> fast) i a l) by (by apply list_lookup_insert_eq). rewrite list_insert_insert_eq. by rewrite list_insert_id.
Qed.

Lemma zsum_perm l l' : l ≡ₚ l' -> zsum l = zsum l'.
Proof. intros Hp. induction Hp; rewrite ?zsum_cons; lia. Qed.

#[export] Instance total_perm : Proper ((≡ₚ) ==> eq) total.
Proof. intros bs bs' Hp. unfold total. change (map snd) with (fmap (M := list) (@snd Z Z)). by apply zsum_perm, fmap_Permutation. Qed.

Lemma total_cons a w bs : total ((a, w) :: bs) = w + total bs.
Proof. done. Qed.

Lemma total_app bs bs' : total (bs ++ bs') = total bs + total bs'.
Proof. unfold total. by rewrite map_app, zsum_app. Qed.

Lemma free_words_perm fast huge fast' huge' b : free_blocks fast huge ≡ₚ b :: free_blocks fast' huge' -> free_words fast huge = snd b + free_words fast' huge'.
Proof. intros Hp. unfold free_words. rewrite Hp. done. Qed.

(** ** Changes outside the free blocks *)

Lemma rep_apart p live fast huge x : rep p live fast huge -> x ∈ cells live -> x ∉ cells (free_blocks fast huge).
Proof. intros Hr Hx Hf. pose proof (r_cells _ _ _ _ Hr) as Hnd. rewrite cells_app in Hnd. apply list.NoDup_app in Hnd as (_ & Hd & _). by apply (Hd x). Qed.

Lemma fast_cell fast i l a huge : fast !! i = Some l -> a ∈ l -> a ∈ cells (free_blocks fast huge).
Proof.
  intros Hl Ha. apply elem_of_cells. exists a, (Z.of_nat i + 1). split; [|lia]. unfold free_blocks. apply elem_of_app. left. apply fast_blocks_in. by exists i, l.
Qed.

Lemma node_cell fast huge x k : x ∈ huge -> 0 <= k < words x -> addr x + k ∈ cells (free_blocks fast huge).
Proof.
  intros Hx Hk. apply elem_of_cells. exists (addr x), (words x). split; [|lia]. unfold free_blocks. apply elem_of_app. right. by apply huge_blocks_in.
Qed.

Lemma level_in k huge a : a ∈ level k huge <-> exists x, x ∈ huge /\ addr x = a /\ k < height x.
Proof.
  unfold level. rewrite list_elem_of_In, in_map_iff. split.
  - intros (x & <- & Hx). apply list_elem_of_In, list_elem_of_filter in Hx as [Hk Hx]. by exists x.
  - intros (x & Hx & <- & Hk). exists x. split; [done|]. apply list_elem_of_In, list_elem_of_filter. done.
Qed.

Lemma node_words p live fast huge x : rep p live fast huge -> x ∈ huge -> 10 <= words x.
Proof. intros Hr Hx. destruct (r_node _ _ _ _ Hr x Hx) as [Hw _]. pose proof (r_enough _ _ _ _ Hr). lia. Qed.

Lemma rep_frame p p' live live' fast huge : rep p live fast huge -> 4 * N p' < 2 ^ 32 -> (forall x, x ∈ cells (free_blocks fast huge) -> word_at (mem p') x = word_at (mem p) x) ->
  free_list p' = free_list p -> huge_next p' = huge_next p -> huge_size p' = huge_size p -> fragment_size p <= fragment_size p' ->
  NoDup (cells (live' ++ free_blocks fast huge)) -> (forall x, x ∈ cells (live' ++ free_blocks fast huge) -> 0 <= x < N p') -> total (live' ++ free_blocks fast huge) = N p' -> (forall a w, (a, w) ∈ live' -> 0 < w) -> rep p' live' fast huge.
Proof.
  intros Hr Hs Hw Hfl Hnx Hsz Hfr Hnd Hb Ht Hl. pose proof Hr as [R1 R2 R3 RT R4 R5 R6 R7 R8 R9 R10 R11 R12 R13]. unfold free_list_len in *. split; try rewrite Hfl; try rewrite Hnx; try rewrite Hsz; try done; [unfold free_list_len; by rewrite Hfl| | | |lia].
  - intros i l hd Hi Hhd. destruct (R7 i l hd Hi Hhd) as [H1 H2]. split; [|done]. eapply seg_ext; [|exact H1]. intros a Ha. symmetry. apply Hw. by eapply fast_cell.
  - unfold free_list_len. rewrite Hfl. intros x Hx. destruct (R9 x Hx) as (H1 & H2 & H3). split; [done|]. split; [done|]. rewrite <- H3. replace (addr x) with (addr x + 0) by lia. apply Hw, node_cell; [done|]. lia.
  - intros k Hk. specialize (R10 k Hk). unfold chain in *. cbn [next_of] in *. rewrite Hnx. eapply seg_ext; [|exact R10]. intros a Ha. apply level_in in Ha as (x & Hx & <- & Hkx). symmetry. replace (addr x + 1 + k) with (addr x + (1 + k)) by lia.
    apply Hw, node_cell; [done|]. pose proof (node_words _ _ _ _ x Hr Hx). unfold skip_list_level_max in Hk. lia.
Qed.

Lemma rep_live_perm p live live' fast huge : rep p live fast huge -> live ≡ₚ live' -> rep p live' fast huge.
Proof.
  intros Hr Hp. apply (rep_frame p p live live' fast huge Hr); [apply Hr|done|done|done|done|done|rewrite <- Hp; apply Hr|intros x; rewrite <- Hp; apply Hr|rewrite <- Hp; apply Hr|intros a w; rewrite <- Hp; apply Hr].
Qed.
(** ** The lists of small blocks *)

Definition slack (p : MemPool) (fast : list (list Z)) (huge : list node) : Z := fragment_size p - 4 * free_words fast huge.

Lemma push_perm live fast huge (i : nat) a (l : list Z) : fast !! i = Some l -> live ++ free_blocks (<[i := a :: l]> fast) huge ≡ₚ (a, Z.of_nat i + 1) :: live ++ free_blocks fast huge.
Proof. intros Hi. unfold free_blocks. rewrite (fast_blocks_insert fast i a l Hi). cbn [app]. symmetry. apply Permutation_middle. Qed.

Lemma push_fast p p' live fast huge (i : nat) (a w : Z) l hd : rep p ((a, w) :: live) fast huge -> fast !! i = Some l -> free_list p !! i = Some hd -> w = Z.of_nat i + 1 ->
  length (mem p') = length (mem p) -> (forall x, 0 <= x -> word_at (mem p') x = if x =? a then head hd else word_at (mem p) x) ->
  free_list p' = <[i := MkHead a (cnt hd + 1)]> (free_list p) -> huge_next p' = huge_next p -> huge_size p' = huge_size p -> fragment_size p' = fragment_size p + 4 * w ->
  rep p' live (<[i := a :: l]> fast) huge /\ slack p' (<[i := a :: l]> fast) huge = slack p fast huge.
Proof.
  intros Hr Hi Hhd -> Hlen Hw Hfl Hnx Hsz Hfr. pose proof Hr as [R1 R2 R3 RT R4 R5 R6 R7 R8 R9 R10 R11 R12 R13]. pose proof (push_perm live fast huge i a l Hi) as Hperm. cbn [app] in R2, R3.
  assert (Hsum : free_words (<[i := a :: l]> fast) huge = Z.of_nat i + 1 + free_words fast huge). { apply (free_words_perm _ _ _ _ (a, Z.of_nat i + 1)). exact (push_perm [] fast huge i a l Hi). }
  assert (Ha : a ∉ cells (free_blocks fast huge)). { apply (rep_apart _ _ _ _ a Hr). apply elem_of_cells. exists a, (Z.of_nat i + 1). split; [by left|lia]. }
  assert (Hsame : forall x, x ∈ cells (free_blocks fast huge) -> word_at (mem p') x = word_at (mem p) x).
  { intros x Hx. assert (0 <= x). { apply R3. change ((a, Z.of_nat i + 1) :: live ++ free_blocks fast huge) with (((a, Z.of_nat i + 1) :: live) ++ free_blocks fast huge). rewrite cells_app, elem_of_app. by right. }
    rewrite Hw by done. destruct (Z.eqb_spec x a) as [->|]; done. }
  assert (Ha0 : 0 <= a). { apply R3. rewrite cells_cons, elem_of_app. left. apply elem_of_seqZ. lia. }
  split; [|unfold slack; rewrite Hfr, Hsum; lia]. split; rewrite ?Hlen, ?Hnx, ?Hsz; try done.
  - rewrite Hperm. done.
  - intros x. rewrite Hperm. apply R3.
  - rewrite Hperm. exact RT.
  - intros b v Hb. apply R4 with b. by right.
  - rewrite Hfl, !length_insert. done.
  - unfold free_list_len. rewrite Hfl, length_insert. done.
  - intros j l' hd' Hj Hj'. rewrite Hfl in Hj'. destruct (decide (j = i)) as [->|Hne].
    + rewrite list_lookup_insert_eq in Hj by (by eapply lookup_lt_Some). rewrite list_lookup_insert_eq in Hj' by (by eapply lookup_lt_Some). injection Hj as <-. injection Hj' as <-. destruct (R7 i l hd Hi Hhd) as [S1 S2]. cbn [head cnt length]. split; [|lia].
      split; [done|]. rewrite Hw, Z.eqb_refl by done. eapply seg_ext; [|exact S1]. intros b Hb. symmetry. apply Hsame. by eapply fast_cell.
    + rewrite list_lookup_insert_ne in Hj by done. rewrite list_lookup_insert_ne in Hj' by done. destruct (R7 j l' hd' Hj Hj') as [S1 S2]. split; [|done]. eapply seg_ext; [|exact S1]. intros b Hb. symmetry. apply Hsame. by eapply fast_cell.
  - unfold free_list_len. rewrite Hfl, length_insert. intros x Hx. destruct (R9 x Hx) as (H1 & H2 & H3). split; [done|]. split; [done|]. rewrite <- H3. replace (addr x) with (addr x + 0) by lia. apply Hsame, node_cell; [done|]. pose proof (node_words _ _ _ _ x Hr Hx). lia.
  - intros k Hk. specialize (R10 k Hk). unfold chain in *. cbn [next_of] in *. rewrite Hnx. eapply seg_ext; [|exact R10]. intros b Hb. apply level_in in Hb as (x & Hx & <- & Hkx). symmetry. replace (addr x + 1 + k) with (addr x + (1 + k)) by lia.
    apply Hsame, node_cell; [done|]. pose proof (node_words _ _ _ _ x Hr Hx). unfold skip_list_level_max in Hk. lia.
  - rewrite Hfr, Hsum. lia.
Qed.

Lemma pop_fast p p' live fast huge (i : nat) (a : Z) l hd : rep p live fast huge -> fast !! i = Some (a :: l) -> free_list p !! i = Some hd ->
  mem p' = mem p -> free_list p' = <[i := MkHead (word_at (mem p) a) (cnt hd - 1)]> (free_list p) -> huge_next p' = huge_next p -> huge_size p' = huge_size p -> fragment_size p' = fragment_size p - 4 * (Z.of_nat i + 1) ->
  rep p' ((a, Z.of_nat i + 1) :: live) (<[i := l]> fast) huge /\ slack p' (<[i := l]> fast) huge = slack p fast huge.
Proof.
  intros Hr Hi Hhd Hm Hfl Hnx Hsz Hfr. pose proof Hr as [R1 R2 R3 RT R4 R5 R6 R7 R8 R9 R10 R11 R12 R13]. pose proof (lookup_lt_Some _ _ _ Hi) as Hil.
  assert (Hback : <[i := a :: l]> (<[i := l]> fast) = fast) by (rewrite list_insert_insert_eq; by apply list_insert_id). assert (Hil' : <[i := l]> fast !! i = Some l) by (by apply list_lookup_insert_eq).
  pose proof (push_perm live (<[i := l]> fast) huge i a l Hil') as Hperm. rewrite Hback in Hperm.
  assert (Hsum : free_words fast huge = Z.of_nat i + 1 + free_words (<[i := l]> fast) huge). { apply (free_words_perm _ _ _ _ (a, Z.of_nat i + 1)). pose proof (push_perm [] (<[i := l]> fast) huge i a l Hil') as Hp. by rewrite Hback in Hp. }
  split; [|unfold slack; rewrite Hfr, Hsum; lia]. split; rewrite ?Hm, ?Hnx, ?Hsz; try done.
  - cbn [app]. by rewrite <- Hperm.
  - cbn [app]. intros x. rewrite <- Hperm. apply R3.
  - cbn [app]. rewrite <- Hperm. exact RT.
  - intros b v [[= -> ->]|Hb]%elem_of_cons; [lia|by apply R4 in Hb].
  - rewrite Hfl, !length_insert. done.
  - unfold free_list_len. rewrite Hfl, length_insert. done.
  - intros j l' hd' Hj Hj'. rewrite Hfl in Hj'. destruct (decide (j = i)) as [->|Hne].
    + rewrite list_lookup_insert_eq in Hj by done. rewrite list_lookup_insert_eq in Hj' by (by eapply lookup_lt_Some). injection Hj as <-. injection Hj' as <-. destruct (R7 i (a :: l) hd Hi Hhd) as [[_ S1] S2]. cbn [head cnt length] in *. split; [done|lia].
    + rewrite list_lookup_insert_ne in Hj by done. rewrite list_lookup_insert_ne in Hj' by done. by apply (R7 j l' hd').
  - unfold free_list_len. rewrite Hfl, length_insert. exact R9.
  - intros k Hk. specialize (R10 k Hk). unfold chain in *. cbn [next_of] in *. rewrite Hnx, Hm. done.
  - rewrite Hfr. lia.
Qed.
End MemPoolInv.
