(* ===== verification/MemPoolHuge.v ===== *)
(** * The skip list of the memory pool

    [search] finds in every level the last node that is smaller; a node is put behind
    these, or taken out from behind them. *)
From stdpp Require Import sorting.
From S2P Require Import Prelude MemPool MemPoolInv.
Import MemPool MemPoolInv.

Module MemPoolHuge.

Notation N p := (Z.of_nat (length (mem p))).

(** The position of a node. *)
Definition blk (x : option Z) : option Z := Z.mul 4 <$> x.

Lemma sorted_split w huge : StronglySorted smaller huge -> exists HA HB, huge = HA ++ HB /\ Forall (fun x => words x < w) HA /\ Forall (fun x => w <= words x) HB.
Proof.
  intros Hs. induction Hs as [|x l Hs IH Hx]; [by exists [], []|]. destruct (Z.lt_ge_cases (words x) w) as [Hlt|Hge].
  - destruct IH as (HA & HB & -> & H1 & H2). exists (x :: HA), HB. split; [done|]. split; [by constructor|done].
  - exists [], (x :: l). split; [done|]. split; [constructor|]. constructor; [done|]. eapply List.Forall_impl; [|exact Hx]. intros y Hy. unfold smaller in Hy. lia.
Qed.

Lemma level_app k l l' : level k (l ++ l') = level k l ++ level k l'.
Proof. unfold level. by rewrite list.filter_app, map_app. Qed.

Lemma level_cons k x l : level k (x :: l) = (if k <? height x then [addr x] else []) ++ level k l.
Proof. unfold level. destruct (Z.ltb_spec k (height x)); [by rewrite filter_cons_True|by rewrite filter_cons_False by lia]. Qed.

Lemma level_zero l : (forall x, x ∈ l -> 1 <= height x) -> level 0 l = map addr l.
Proof.
  induction l as [|x l IH]; intros Hh; [done|]. rewrite level_cons. rewrite (proj2 (Z.ltb_lt _ _)) by (specialize (Hh x ltac:(by left)); lia). cbn [app map]. f_equal. apply IH. intros y Hy. apply Hh. by right.
Qed.

Lemma level_mono k k' l a : k <= k' -> a ∈ level k' l -> a ∈ level k l.
Proof. intros Hk Ha. apply level_in in Ha as (x & Hx & <- & Hxk). apply level_in. exists x. split; [done|]. split; [done|lia]. Qed.

Section skip.
Context (p : MemPool) (live : list (Z * Z)) (fast : list (list Z)) (huge : list node).
Hypothesis (Hrep : rep p live fast huge).

Lemma node_words_range x k : x ∈ huge -> 0 <= k < words x -> 0 <= addr x + k < N p.
Proof. intros Hx Hk. apply (r_bounds _ _ _ _ Hrep). rewrite cells_app, elem_of_app. right. by apply node_cell. Qed.

Lemma addr_range x : x ∈ huge -> 0 <= addr x < 2 ^ 30.
Proof. intros Hx. pose proof (node_words_range x 0 Hx). pose proof (node_words _ _ _ _ x Hrep Hx). pose proof (r_size _ _ _ _ Hrep). lia. Qed.

Lemma huge_apart x y : NoDup (cells (huge_blocks huge)) -> x ∈ huge -> y ∈ huge -> addr x = addr y -> x = y.
Proof.
  intros Hnd Hx Hy E. assert (Hw : forall z, z ∈ huge -> 10 <= words z) by (intros z Hz; by apply (node_words _ _ _ _ z Hrep)). clear Hrep. induction huge as [|z l IH]; [by apply elem_of_nil in Hx|].
  cbn [huge_blocks map] in Hnd. rewrite cells_cons in Hnd. apply list.NoDup_app in Hnd as (_ & Hd & Hnd). assert (Hz : forall y, y ∈ l -> addr z <> addr y).
  { intros u Hu Eu. apply (Hd (addr z)); [apply elem_of_seqZ; specialize (Hw z ltac:(by left)); lia|]. apply elem_of_cells. exists (addr u), (words u). split; [by apply huge_blocks_in|]. specialize (Hw u ltac:(by right)). lia. }
  apply elem_of_cons in Hx as [->|Hx], Hy as [->|Hy]; [done|by destruct (Hz y)|by destruct (Hz x)|]. apply IH; [done|done|done|]. intros u Hu. apply Hw. by right.
Qed.

Lemma huge_nodup_cells : NoDup (cells (huge_blocks huge)).
Proof. pose proof (r_cells _ _ _ _ Hrep) as Hnd. unfold free_blocks in Hnd. rewrite !cells_app in Hnd. apply list.NoDup_app in Hnd as (_ & _ & Hnd). by apply list.NoDup_app in Hnd as (_ & _ & Hnd). Qed.

Lemma nodes_nodup : NoDup (map addr huge).
Proof.
  pose proof huge_nodup_cells as Hnd. assert (Hw : forall z, z ∈ huge -> 10 <= words z) by (intros z Hz; by apply (node_words _ _ _ _ z Hrep)). clear Hrep. induction huge as [|z l IH]; [constructor|].
  cbn [huge_blocks map] in *. rewrite cells_cons in Hnd. apply list.NoDup_app in Hnd as (_ & Hd & Hnd). constructor; [|apply IH; [done|intros u Hu; apply Hw; by right]].
  intros Hin. apply list_elem_of_In, in_map_iff in Hin as (u & Eu & Hu). apply list_elem_of_In in Hu. apply (Hd (addr z)); [apply elem_of_seqZ; specialize (Hw z ltac:(by left)); lia|]. apply elem_of_cells. exists (addr u), (words u). split; [by apply huge_blocks_in|]. specialize (Hw u ltac:(by right)). lia.
Qed.

Lemma level_nodup k l : NoDup (map addr l) -> NoDup (level k l).
Proof.
  intros Hnd. unfold level. induction l as [|x l IH]; [constructor|]. cbn [map] in Hnd. apply list.NoDup_cons in Hnd as [Hx Hnd]. rewrite (filter_cons (fun x => k < height x)). case_decide; [|by apply IH]. cbn [map]. constructor; [|by apply IH].
  intros Hin. apply Hx. apply list_elem_of_In, in_map_iff in Hin as (y & Ey & Hy). apply list_elem_of_In, list_elem_of_filter in Hy as [_ Hy]. apply list_elem_of_In, in_map_iff. exists y. split; [done|]. by apply list_elem_of_In.
Qed.

(** A pointer to the head or to a node. *)
Definition pointer (x : option Z) : Prop := x = None \/ exists u, u ∈ huge /\ x = Some (addr u).

Lemma pred_pointer k l : (forall x, x ∈ l -> x ∈ huge) -> pointer (pred (level k l)).
Proof.
  intros Hl. destruct (pred (level k l)) as [a|] eqn:E; [|by left]. right. apply pred_in in E. apply level_in in E as (x & Hx & <- & _). exists x. split; [by apply Hl|done].
Qed.

Lemma link_next_ok k x : pointer x -> 0 <= k < skip_list_level_max -> link_next p (blk x) k = Ok (next_of p k x).
Proof.
  intros [->|(u & Hu & ->)] Hk; cbn [blk fmap option_fmap option_map link_next next_of].
  - apply rd_word. rewrite (r_next _ _ _ _ Hrep). unfold skip_list_level_max in *. lia.
  - rewrite (proj2 (Z.leb_le 0 k)), (proj2 (Z.ltb_lt k _)) by lia. cbn [andb assert_ rbind]. replace (4 * addr u + 4 + 4 * k) with (4 * (addr u + 1 + k)) by lia. apply word_read_ok.
    pose proof (node_words _ _ _ _ u Hrep Hu). unfold skip_list_level_max in Hk. pose proof (node_words_range u (1 + k) Hu). lia.
Qed.

(** *** [search] *)

Context (w : Z) (HA HB : list node).
Hypothesis (Hsplit : huge = HA ++ HB) (HAw : Forall (fun x => words x < w) HA) (HBw : Forall (fun x => w <= words x) HB).

Lemma in_HA x : x ∈ HA -> x ∈ huge.
Proof. intros Hx. rewrite Hsplit. apply elem_of_app. by left. Qed.
Lemma in_HB x : x ∈ HB -> x ∈ huge.
Proof. intros Hx. rewrite Hsplit. apply elem_of_app. by right. Qed.

Definition walk_body (k : Z) := fun '(n1, n2) =>
  let* x := link_next p n1 k in
  if x =? list_tail then Ok (inr (n1, n2)) else
  let n2 := Z.shiftl x offset_shift in
  let* size := link_size p (Some n2) in
  Ok (if size <? 4 * w then inl (Some n2, Some n2) else inr (n1, Some n2)).

Definition seen (n2 n2' : option Z) : Prop := n2' = n2 \/ exists x, x ∈ HA /\ n2' = Some (4 * addr x).

Lemma walk_step k X u Y l2 : 0 <= k < skip_list_level_max -> pointer (pred X) -> chain (next_of p k) (X ++ u :: Y) -> u = addr l2 -> l2 ∈ huge -> forall n2,
  walk_body k (blk (pred X), n2) = Ok (if words l2 <? w then inl (Some (4 * u), Some (4 * u)) else inr (blk (pred X), Some (4 * u))).
Proof.
  intros Hk Hp Hc -> Hin n2. unfold walk_body. rewrite link_next_ok by done. cbn [rbind]. apply chain_split in Hc as [_ [-> _]]. pose proof (addr_range l2 Hin) as Ha. unfold list_tail. rewrite (proj2 (Z.eqb_neq _ _)) by lia.
  rewrite shl_words. cbn [link_size]. destruct (r_node _ _ _ _ Hrep l2 Hin) as (_ & _ & Hw). pose proof (node_words _ _ _ _ l2 Hrep Hin). rewrite word_read_ok by (pose proof (node_words_range l2 0 Hin); lia). cbn [rbind]. rewrite Hw.
  destruct (Z.ltb_spec (4 * words l2) (4 * w)), (Z.ltb_spec (words l2) w); (done || lia).
Qed.

Lemma walk_ok k : 0 <= k < skip_list_level_max -> forall Y X n2 fuel, level k HA = X ++ Y -> (length Y < fuel)%nat -> exists n2',
  loop fuel (walk_body k) (blk (pred X), n2) = Ok (blk (pred (level k HA)), n2') /\ match level k HB with b :: _ => n2' = Some (4 * b) | [] => seen n2 n2' end.
Proof.
  intros Hk. pose proof (r_levels _ _ _ _ Hrep k Hk) as Hc. rewrite Hsplit, level_app in Hc. induction Y as [|y Y IH]; intros X n2 fuel HX Hf; (destruct fuel as [|fuel]; [lia|]); cbn [loop].
  - rewrite app_nil_r in HX. rewrite HX in Hc. assert (Hp : pointer (pred X)) by (rewrite <- HX; apply pred_pointer, in_HA). destruct (level k HB) as [|b B] eqn:EB.
    + unfold walk_body at 1. rewrite link_next_ok by done. cbn [rbind]. apply chain_split in Hc as [_ Hc]. cbn [seg] in Hc. rewrite Hc, Z.eqb_refl. exists n2. cbn [rbind]. rewrite HX. split; [done|by left].
    + assert (Hb : b ∈ level k HB) by (rewrite EB; by left). apply level_in in Hb as (x & Hx & <- & _). rewrite (walk_step k X (addr x) B x) by (done || by apply in_HB). rewrite List.Forall_forall in HBw. rewrite (proj2 (Z.ltb_ge _ _)) by (by apply HBw, list_elem_of_In).
      cbn [rbind]. eexists. rewrite HX. done.
  - assert (Hy : y ∈ level k HA) by (rewrite HX; apply elem_of_app; right; by left). apply level_in in Hy as (x & Hx & Ey & _). subst y. assert (Hp : pointer (pred X)).
    { destruct (pred X) as [a|] eqn:E; [|by left]. apply pred_in in E. assert (Ha : a ∈ level k HA) by (rewrite HX; apply elem_of_app; by left). apply level_in in Ha as (u & Hu & <- & _). right. exists u. split; [by apply in_HA|done]. }
    rewrite HX in Hc. rewrite <- app_assoc in Hc. rewrite (walk_step k X (addr x) (Y ++ level k HB) x) by (done || by apply in_HA). rewrite List.Forall_forall in HAw. rewrite (proj2 (Z.ltb_lt _ _)) by (by apply HAw, list_elem_of_In). cbn [rbind].
    assert (Hpx : Some (4 * addr x) = blk (pred (X ++ [addr x]))) by (unfold pred; by rewrite list.last_snoc). cbn [length] in Hf. destruct (IH (X ++ [addr x]) (Some (4 * addr x)) fuel) as (n2' & E & HB'); [by rewrite <- app_assoc|lia|].
    rewrite <- Hpx in E. exists n2'. split; [exact E|]. destruct (level k HB); [|done]. destruct HB' as [->|?]; [right; by exists x|by right].
Qed.

Lemma level_length k : (length (level k HA) <= length (mem p))%nat.
Proof.
  assert (Hl : (length (level k huge) <= length (seqZ 0 (N p)))%nat).
  { apply NoDup_incl_length; [apply NoDup_ListNoDup, level_nodup, nodes_nodup|]. intros a Ha. apply list_elem_of_In in Ha. apply level_in in Ha as (x & Hx & <- & _). apply list_elem_of_In, elem_of_seqZ. pose proof (node_words _ _ _ _ x Hrep Hx). pose proof (node_words_range x 0 Hx). lia. }
  rewrite length_seqZ, Hsplit, level_app, length_app in Hl. lia.
Qed.

Lemma level_top : level (huge_size p) HA = [].
Proof.
  destruct (level (huge_size p) HA) as [|a l] eqn:E; [done|]. exfalso. assert (Ha : a ∈ level (huge_size p) HA) by (rewrite E; by left). apply level_in in Ha as (x & Hx & _ & Hh). destruct (r_node _ _ _ _ Hrep x (in_HA x Hx)) as (_ & ? & _). lia.
Qed.

Lemma search_ok : exists update n2, search p (4 * w) = Ok (update, n2) /\ length update = Z.to_nat skip_list_level_max /\
  (forall k, 0 <= k < huge_size p -> rd update k = Ok (blk (pred (level k HA)))) /\
  match HB with b :: _ => n2 = Some (4 * addr b) | [] => seen None n2 end.
Proof.
  pose proof (r_height _ _ _ _ Hrep) as Hsz. unfold search.
  destruct (for_inv (fun i '(update, n1, n2) => length update = Z.to_nat skip_list_level_max /\ n1 = blk (pred (level (huge_size p - i) HA)) /\
      (forall k, huge_size p - i <= k < huge_size p -> rd update k = Ok (blk (pred (level k HA)))) /\ (HB = [] -> seen None n2) /\
      (0 < i -> match level (huge_size p - i) HB with b :: _ => n2 = Some (4 * b) | [] => True end))
    (fun i '(update, n1, n2) => let k := huge_size p - 1 - i in let* (n1, n2) := loop (S (length (mem p))) (walk_body k) (n1, n2) in let* update := wr update k n1 in Ok (update, n1, n2))
    0 (huge_size p) (replicate (Z.to_nat skip_list_level_max) None, None, None)) as ([[update n1] n2] & E & I1 & I2 & I3 & I4 & I5); [lia| | |].
  - split; [apply length_replicate|]. rewrite Z.sub_0_r, level_top. split; [done|]. split; [intros k Hk; lia|]. split; [by left|lia].
  - intros i [[update n1] n2] Hi (I1 & -> & I3 & I4 & I5). cbv zeta. assert (Hk : 0 <= huge_size p - 1 - i < skip_list_level_max) by lia.
    assert (HX : exists X Y, level (huge_size p - 1 - i) HA = X ++ Y /\ pred X = pred (level (huge_size p - i) HA)).
    { destruct (pred (level (huge_size p - i) HA)) as [a|] eqn:Ep; [|by exists [], (level (huge_size p - 1 - i) HA)]. apply pred_in in Ep. apply (level_mono (huge_size p - 1 - i)) in Ep; [|lia].
      apply list_elem_of_split in Ep as (X & Y & ->). exists (X ++ [a]), Y. rewrite <- app_assoc. split; [done|]. unfold pred. by rewrite list.last_snoc. }
    destruct HX as (X & Y & HX & <-). destruct (walk_ok (huge_size p - 1 - i) Hk Y X n2 (S (length (mem p))) HX) as (n2' & EW & HW). { pose proof (level_length (huge_size p - 1 - i)) as Hl. rewrite HX, length_app in Hl. lia. }
    rewrite EW. cbn [rbind]. rewrite wr_ok by lia. cbn [rbind]. eexists. split; [done|]. cbv beta iota. replace (huge_size p - (i + 1)) with (huge_size p - 1 - i) by lia. split; [by rewrite length_insert|]. split; [done|]. split; [|split].
    + intros k Hk'. rewrite insert_rd by lia. destruct (Z.eqb_spec k (huge_size p - 1 - i)) as [->|]; [done|]. apply I3. lia.
    + intros E0. rewrite E0 in HW. cbn in HW. destruct HW as [->|?]; [by apply I4|by right].
    + intros _. by destruct (level (huge_size p - 1 - i) HB).
  - exists update, n2. setoid_rewrite E. cbn [rbind]. split; [done|]. split; [done|]. rewrite Z.sub_diag in I3, I5. split; [done|].
    pose proof in_HB as Hin. destruct HB as [|b B] eqn:EB; [by apply I4|]. assert (Hb : b ∈ huge) by (apply Hin; by left). destruct (r_node _ _ _ _ Hrep b Hb) as (_ & Hh & _). specialize (I5 ltac:(lia)). rewrite level_zero in I5; [done|].
    intros x Hx. by apply (r_node _ _ _ _ Hrep x), Hin.
Qed.
End skip.
End MemPoolHuge.
