(* ===== verification/MemPoolLinks.v ===== *)
(** * Changing the skip list of the memory pool *)
From stdpp Require Import sorting.
From S2P Require Import Prelude MemPool MemPoolInv MemPoolHuge.
Import MemPool MemPoolInv MemPoolHuge.

Module MemPoolLinks.

Notation N p := (Z.of_nat (length (mem p))).

Lemma cells_inj bs b v c u x : NoDup (cells bs) -> (b, v) ∈ bs -> (c, u) ∈ bs -> b <= x < b + v -> c <= x < c + u -> b = c /\ v = u.
Proof.
  intros Hnd Hb Hc Hxb Hxc. induction bs as [|[d t] bs IH]; [by apply elem_of_nil in Hb|]. rewrite cells_cons in Hnd. apply list.NoDup_app in Hnd as (_ & Hd & Hnd).
  assert (Hno : forall e r, (e, r) ∈ bs -> d <= x < d + t -> e <= x < e + r -> False). { intros e r He H1 H2. apply (Hd x); [by apply elem_of_seqZ|]. apply elem_of_cells. by exists e, r. }
  apply elem_of_cons in Hb as [[= -> ->]|Hb], Hc as [[= -> ->]|Hc]; [done|by destruct (Hno c u Hc)|by destruct (Hno b v Hb)|by apply IH].
Qed.

(** ** Pointers that change *)

Section links.
(** The blocks whose pointers may change. *)
Context (starts : list Z) (p : MemPool).
Hypothesis (Hin : forall b j, b ∈ starts -> 0 <= j < skip_list_level_max -> 0 <= b + 1 + j < N p).
Hypothesis (Hapart : forall b c j k, b ∈ starts -> c ∈ starts -> 0 <= j < skip_list_level_max -> 0 <= k < skip_list_level_max -> b + 1 + j = c + 1 + k -> b = c).

(** [p'] is [p] but for these pointers, which are [G]. *)
Record relinked (p' : MemPool) (G : Z -> option Z -> Z) : Prop := {
  l_length : length (mem p') = length (mem p);
  l_next : length (huge_next p') = Z.to_nat skip_list_level_max;
  l_free : free_list p' = free_list p;
  l_size : huge_size p' = huge_size p;
  l_frag : fragment_size p' = fragment_size p;
  l_ptr : forall j y, 0 <= j < skip_list_level_max -> on starts y -> next_of p' j y = G j y;
  l_words : forall x, 0 <= x -> (forall c j, c ∈ starts -> 0 <= j < skip_list_level_max -> x <> c + 1 + j) -> word_at (mem p') x = word_at (mem p) x
}.

Lemma relinked_ext p' G G' : (forall j y, 0 <= j < skip_list_level_max -> on starts y -> G j y = G' j y) -> relinked p' G -> relinked p' G'.
Proof. intros HG [R1 R2 R3 R4 R5 R6 R7]. split; try done. intros j y Hj Hy. rewrite <- HG by done. by apply R6. Qed.

Lemma link_get p' G k y : relinked p' G -> on starts y -> 0 <= k < skip_list_level_max -> link_next p' (blk y) k = Ok (G k y).
Proof.
  intros [R1 R2 R3 R4 R5 R6 R7] Hy Hk. rewrite <- R6 by done. destruct y as [b|]; cbn [blk fmap option_fmap option_map link_next next_of].
  - rewrite (proj2 (Z.leb_le 0 k)), (proj2 (Z.ltb_lt k _)) by lia. cbn [andb assert_ rbind]. replace (4 * b + 4 + 4 * k) with (4 * (b + 1 + k)) by lia. apply word_read_ok. specialize (Hin b k Hy Hk). lia.
  - apply rd_word. unfold skip_list_level_max in *. lia.
Qed.

Lemma link_set p' G k y v : relinked p' G -> on starts y -> 0 <= k < skip_list_level_max -> exists p2, set_link_next p' (blk y) k v = Ok p2 /\
  relinked p2 (fun j z => if (j =? k) && bool_decide (z = y) then v else G j z).
Proof.
  intros [R1 R2 R3 R4 R5 R6 R7] Hy Hk. destruct y as [b|]; cbn [blk fmap option_fmap option_map set_link_next].
  - rewrite (proj2 (Z.leb_le 0 k)), (proj2 (Z.ltb_lt k _)) by lia. cbn [andb assert_ rbind]. replace (4 * b + 4 + 4 * k) with (4 * (b + 1 + k)) by lia. pose proof (Hin b k Hy Hk) as Hb. rewrite set_at_ok by lia. eexists. split; [done|].
    split; cbn [mem set_mem huge_next free_list huge_size fragment_size]; [by rewrite length_insert|done|done|done|done| |].
    + intros j z Hj Hz. destruct z as [c|]; cbn [next_of mem set_mem huge_next].
      * pose proof (Hin c j Hz Hj) as Hc. rewrite word_at_insert by lia. destruct (decide (c + 1 + j = b + 1 + k)) as [E|E].
        -- assert (c = b) as -> by (by apply (Hapart c b j k)). assert (j = k) as -> by lia. by rewrite Z.eqb_refl, bool_decide_eq_true_2.
        -- rewrite (R6 j (Some c) Hj Hz : word_at (mem p') (c + 1 + j) = G j (Some c)). destruct (Z.eqb_spec j k) as [->|]; [|done]. rewrite bool_decide_eq_false_2; [done|]. intros [= ->]. done.
      * rewrite bool_decide_eq_false_2, andb_false_r by done. exact (R6 j None Hj Hz).
    + intros x Hx Hno. rewrite word_at_insert by lia. rewrite decide_False by (by apply Hno). by apply R7.
  - rewrite wr_ok by (unfold skip_list_level_max in *; lia). cbn [rbind]. eexists. split; [done|]. split; cbn [mem set_huge huge_next free_list huge_size fragment_size]; [done|by rewrite length_insert|done|done|done| |done].
    intros j z Hj Hz. destruct z as [c|]; cbn [next_of mem set_huge huge_next].
    + rewrite bool_decide_eq_false_2, andb_false_r by done. exact (R6 j (Some c) Hj Hz).
    + rewrite bool_decide_eq_true_2, andb_true_r by done. rewrite word_at_insert by (unfold skip_list_level_max in *; lia). destruct (Z.eqb_spec j k) as [->|]; [by rewrite decide_True|]. rewrite decide_False by done. exact (R6 j None Hj Hz).
Qed.

Lemma relinked_refl : length (huge_next p) = Z.to_nat skip_list_level_max -> relinked p (next_of p).
Proof. intros Hl. by split. Qed.

(** *** Putting [a] behind the nodes of [update], from level [k] down *)

Context (update : list (option Z)) (prd : Z -> option Z).

Lemma insert_links a k : a ∈ starts -> 0 <= a < 2 ^ 32 -> 0 <= k < skip_list_level_max -> (forall j, 0 <= j <= k -> rd update j = Ok (blk (prd j)) /\ on starts (prd j) /\ prd j <> Some a) ->
  length (huge_next p) = Z.to_nat skip_list_level_max -> exists p',
  for_ 0 (k + 1) (fun i p =>
    let k := k - i in
    let* n1 := rd update k in
    let* x := link_next p n1 k in
    let* p := set_link_next p (Some (4 * a)) k x in
    set_link_next p n1 k (u32 a)) p = Ok p' /\
  relinked p' (fun j z => if j <=? k then (if bool_decide (z = Some a) then next_of p j (prd j) else if bool_decide (z = prd j) then a else next_of p j z) else next_of p j z).
Proof.
  intros Ha Ha32 Hk Hup Hnx. match goal with |- exists p', for_ 0 (k + 1) ?b p = _ /\ _ => destruct (for_inv (fun i p' => relinked p' (fun j z =>
    if (k - i <? j) && (j <=? k) then (if bool_decide (z = Some a) then next_of p j (prd j) else if bool_decide (z = prd j) then a else next_of p j z) else next_of p j z)) b 0 (k + 1) p) as (p' & E & HI); [lia| | |] end.
  - eapply relinked_ext; [|by apply relinked_refl]. intros j z Hj Hz. destruct (Z.ltb_spec (k - 0) j), (Z.leb_spec j k); (done || lia).
  - intros i p' Hi HI. cbv zeta. destruct (Hup (k - i) ltac:(lia)) as (-> & Hon & Hne). cbn [rbind]. rewrite (link_get _ _ _ _ HI Hon) by lia. cbn [rbind]. rewrite (proj2 (Z.ltb_ge (k - i) (k - i))) by lia. cbn [andb].
    destruct (link_set p' _ (k - i) (Some a) (next_of p (k - i) (prd (k - i))) HI) as (p2 & E2 & H2); [done|lia|]. cbn [blk fmap option_fmap option_map] in E2. rewrite E2. cbn [rbind].
    destruct (link_set p2 _ (k - i) (prd (k - i)) (u32 a) H2) as (p3 & E3 & H3); [done|lia|]. rewrite E3. exists p3. split; [done|]. eapply relinked_ext; [|exact H3]. intros j z Hj Hz. cbv beta. rewrite u32_small by lia.
    destruct (Z.eqb_spec j (k - i)) as [->|Hj'].
    + rewrite (proj2 (Z.ltb_lt (k - (i + 1)) _)), (proj2 (Z.leb_le (k - i) k)), (proj2 (Z.ltb_ge (k - i) (k - i))) by lia. cbn [andb]. case_bool_decide as E; [|by case_bool_decide]. subst z. rewrite bool_decide_eq_false_2 by done. done.
    + cbn [andb]. replace (k - (i + 1) <? j) with (k - i <? j); [done|]. destruct (Z.ltb_spec (k - i) j), (Z.ltb_spec (k - (i + 1)) j); (done || lia).
  - exists p'. split; [exact E|]. eapply relinked_ext; [|exact HI]. intros j z Hj Hz. cbv beta. rewrite (proj2 (Z.ltb_lt (k - (k + 1)) j)) by lia. done.
Qed.

(** *** Taking [b] out from behind them *)

Lemma delete_links b K : b ∈ starts -> 0 <= b < 2 ^ 30 -> 0 <= K <= skip_list_level_max -> (forall j, 0 <= j < K -> rd update j = Ok (blk (prd j)) /\ on starts (prd j)) ->
  length (huge_next p) = Z.to_nat skip_list_level_max -> exists p',
  for_ 0 K (fun k p =>
    let* n1 := rd update k in
    let* x := link_next p n1 k in
    if x =? b then let* y := link_next p (Some (4 * b)) k in set_link_next p n1 k y else Ok p) p = Ok p' /\
  relinked p' (fun j z => if (j <? K) && (next_of p j (prd j) =? b) && bool_decide (z = prd j) then next_of p j (Some b) else next_of p j z).
Proof.
  intros Hb Hb30 HK Hup Hnx. match goal with |- exists p', for_ 0 K ?bd p = _ /\ _ => destruct (for_inv (fun i p' => relinked p' (fun j z =>
    if (j <? i) && (next_of p j (prd j) =? b) && bool_decide (z = prd j) then next_of p j (Some b) else next_of p j z)) bd 0 K p) as (p' & E & HI); [lia| |  |by exists p'] end.
  - eapply relinked_ext; [|by apply relinked_refl]. intros j z Hj Hz. cbv beta. rewrite (proj2 (Z.ltb_ge j 0)) by lia. done.
  - intros i p' Hi HI. destruct (Hup i Hi) as (-> & Hon). cbn [rbind]. rewrite (link_get _ _ _ _ HI Hon) by lia. cbn [rbind]. rewrite (proj2 (Z.ltb_ge i i)) by lia. cbn [andb].
    destruct (Z.eqb_spec (next_of p i (prd i)) b) as [Eb|Eb].
    + change (Some (4 * b)) with (blk (Some b)). rewrite (link_get p' _ i (Some b) HI Hb) by lia. cbn [rbind]. rewrite (proj2 (Z.ltb_ge i i)) by lia. cbn [andb].
      destruct (link_set p' _ i (prd i) (next_of p i (Some b)) HI Hon) as (p2 & E2 & H2); [lia|]. rewrite E2. exists p2. split; [done|]. eapply relinked_ext; [|exact H2]. intros j z Hj Hz. cbv beta. destruct (Z.eqb_spec j i) as [->|Hj'].
      * rewrite (proj2 (Z.ltb_lt i (i + 1))) by lia. rewrite Eb, Z.eqb_refl. cbn [andb]. rewrite (proj2 (Z.ltb_ge i i)) by lia. cbn [andb]. done.
      * cbn [andb]. replace (j <? i + 1) with (j <? i); [done|]. destruct (Z.ltb_spec j i), (Z.ltb_spec j (i + 1)); (done || lia).
    + exists p'. split; [done|]. eapply relinked_ext; [|exact HI]. intros j z Hj Hz. cbv beta. destruct (Z.eq_dec j i) as [->|Hj'].
      * rewrite (proj2 (Z.eqb_neq _ b)) by done. by rewrite !andb_false_r.
      * replace (j <? i + 1) with (j <? i); [done|]. destruct (Z.ltb_spec j i), (Z.ltb_spec j (i + 1)); (done || lia).
Qed.
End links.
End MemPoolLinks.
