(* ===== verification/MemPoolOps.v ===== *)
(** * The operations of the memory pool

    [sfree], [alloc] and [alloc3] keep the blocks apart and what the blocks in use hold. *)
From stdpp Require Import sorting.
From S2P Require Import Prelude MemPool MemPoolInv MemPoolHuge MemPoolLinks.
Import MemPool MemPoolInv MemPoolHuge MemPoolLinks.

Module MemPoolOps.

Notation N p := (Z.of_nat (length (mem p))).

(** What blocks in use hold does not change. *)
Definition kept (live : list (Z * Z)) (p p' : MemPool) : Prop := forall x, x ∈ cells live -> word_at (mem p') x = word_at (mem p) x.

Lemma kept_trans live p p1 p2 : kept live p p1 -> kept live p1 p2 -> kept live p p2.
Proof. intros H1 H2 x Hx. by rewrite H2, H1. Qed.

(** ** Fields that do not matter *)

Lemma rep_same p p' live fast huge : rep p live fast huge -> mem p' = mem p -> free_list p' = free_list p -> huge_next p' = huge_next p -> huge_size p' = huge_size p -> fragment_size p <= fragment_size p' -> rep p' live fast huge.
Proof.
  intros Hr Hm Hf Hn Hs Hfr. apply (rep_frame p p' live live fast huge Hr); rewrite ?Hm; try done; apply Hr.
Qed.

Lemma rep_seed p s live fast huge : rep p live fast huge -> rep (set_seed p s) live fast huge.
Proof. intros Hr. by apply (rep_same p). Qed.

Lemma rep_height p k live fast huge : rep p live fast huge -> (forall x, x ∈ huge -> height x <= k) -> 0 <= k <= skip_list_level_max -> rep (set_huge p k (huge_next p)) live fast huge.
Proof.
  intros [R1 R2 R3 RT R4 R5 R6 R7 R8 R9 R10 R11 R12 R13] Hh Hk. split; try done. intros x Hx. destruct (R9 x Hx) as (H1 & H2 & H3). split; [done|]. split; [|done]. cbn [huge_size set_huge]. specialize (Hh x Hx). lia.
Qed.

(** ** A block becomes a node *)

Section insert.
Context (p : MemPool) (live : list (Z * Z)) (fast : list (list Z)) (HA HB : list node) (a w k : Z).
Notation huge := (HA ++ HB).
Hypothesis (Hrep : rep p ((a, w) :: live) fast huge) (Hw : free_list_len p < w) (Hk : 0 <= k < huge_size p).
Hypothesis (HAw : Forall (fun x => words x < w) HA) (HBw : Forall (fun x => w <= words x) HB).

Definition spots : list Z := a :: map addr huge.

(** The block that a spot starts. *)
Lemma spot_block b : b ∈ spots -> exists v, (b, v) ∈ ((a, w) :: live) ++ free_blocks fast huge /\ 10 <= v /\ ((b = a /\ v = w) \/ exists x, x ∈ huge /\ b = addr x /\ v = words x).
Proof.
  pose proof (r_enough _ _ _ _ Hrep) as HL. intros [->|Hb]%elem_of_cons; [exists w; split; [by left|]; split; [lia|by left]|]. apply list_elem_of_In, in_map_iff in Hb as (x & <- & Hx). apply list_elem_of_In in Hx. exists (words x).
  split; [|split; [by apply (node_words _ _ _ _ x Hrep)|right; by exists x]]. unfold free_blocks. rewrite !elem_of_app. right. right. by apply huge_blocks_in.
Qed.

Lemma spot_in b j : b ∈ spots -> 0 <= j < skip_list_level_max -> 0 <= b + 1 + j < N p.
Proof.
  intros Hb Hj. destruct (spot_block b Hb) as (v & Hv & Hv10 & _). unfold skip_list_level_max in Hj. apply (r_bounds _ _ _ _ Hrep), elem_of_cells. exists b, v. split; [done|lia].
Qed.

Lemma spot_apart b c j k0 : b ∈ spots -> c ∈ spots -> 0 <= j < skip_list_level_max -> 0 <= k0 < skip_list_level_max -> b + 1 + j = c + 1 + k0 -> b = c.
Proof.
  intros Hb Hc Hj Hk0 E. destruct (spot_block b Hb) as (v & Hv & Hv10 & _). destruct (spot_block c Hc) as (u & Hu & Hu10 & _). unfold skip_list_level_max in *.
  destruct (cells_inj _ b v c u (b + 1 + j) (r_cells _ _ _ _ Hrep) Hv Hu); [lia|lia|done].
Qed.

(** A word that is not in the block of a spot, or is the first one of it. *)
Lemma spot_first b v c j : b ∈ spots -> (c, v) ∈ ((a, w) :: live) ++ free_blocks fast huge -> 0 < v -> 0 <= j < skip_list_level_max -> c <> b + 1 + j.
Proof.
  intros Hb Hc Hv Hj E. destruct (spot_block b Hb) as (u & Hu & Hu10 & _). unfold skip_list_level_max in *. destruct (cells_inj _ b u c v c (r_cells _ _ _ _ Hrep) Hu Hc); lia.
Qed.

Lemma spot_other x c j : c ∈ spots -> 0 <= j < skip_list_level_max -> x ∈ cells (live ++ fast_blocks fast) -> x <> c + 1 + j.
Proof.
  intros Hc Hj Hx E. destruct (spot_block c Hc) as (v & Hv & Hv10 & Hcase). unfold skip_list_level_max in Hj. pose proof (r_cells _ _ _ _ Hrep) as Hnd. unfold free_blocks in Hnd.
  assert (Hp : ((a, w) :: live) ++ fast_blocks fast ++ huge_blocks huge ≡ₚ (live ++ fast_blocks fast) ++ (a, w) :: huge_blocks huge). { cbn [app]. rewrite <- Permutation_middle. by rewrite app_assoc. }
  rewrite Hp, cells_app in Hnd. apply list.NoDup_app in Hnd as (_ & Hd & _). apply (Hd x Hx). apply elem_of_cells. exists c, v. split; [|lia].
  destruct Hcase as [[-> ->]|(y & Hy & -> & ->)]; [by left|right; by apply huge_blocks_in].
Qed.

Lemma node_insert_blocks : free_blocks fast (HA ++ Node a w (k + 1) :: HB) ≡ₚ (a, w) :: free_blocks fast huge.
Proof.
  unfold free_blocks, huge_blocks. rewrite !map_app. cbn [map addr words]. rewrite (Permutation_middle (fast_blocks fast)). f_equiv. symmetry. apply Permutation_middle.
Qed.

Lemma sorted_insert : StronglySorted smaller (HA ++ Node a w (k + 1) :: HB).
Proof.
  pose proof (r_sorted _ _ _ _ Hrep) as Hs. clear Hrep. induction HA as [|x l IH]; cbn [app] in *.
  - constructor; [done|]. eapply List.Forall_impl; [|exact HBw]. intros y Hy. exact Hy.
  - apply StronglySorted_inv in Hs as [Hs Hx]. apply List.Forall_cons_iff in HAw as [Hxw HAw']. constructor; [by apply IH|]. apply List.Forall_app in Hx as [Hx1 Hx2]. apply List.Forall_app. split; [done|]. constructor; [|done]. unfold smaller. cbn. lia.
Qed.

Notation prd := (fun j => pred (level j HA)).

Lemma prd_on j : on spots (prd j).
Proof. destruct (pred (level j HA)) as [b|] eqn:E; [|done]. apply pred_in in E. apply level_in in E as (x & Hx & <- & _). cbn [on]. right. apply list_elem_of_In, in_map, list_elem_of_In, elem_of_app. by left. Qed.

Lemma a_not_node x : x ∈ huge -> addr x <> a.
Proof.
  intros Hx E. pose proof (r_enough _ _ _ _ Hrep). apply (rep_apart _ _ _ _ a Hrep); [apply elem_of_cells; exists a, w; split; [by left|lia]|]. replace a with (addr x + 0) by lia. apply node_cell; [done|]. pose proof (node_words _ _ _ _ x Hrep Hx). lia.
Qed.

Lemma level_spots j b : b ∈ level j HA ++ level j HB -> b ∈ spots.
Proof. rewrite <- level_app. intros Hb. apply level_in in Hb as (x & Hx & <- & _). right. by apply list_elem_of_In, in_map, list_elem_of_In. Qed.

Lemma rep_insert p' p2 : relinked spots p p' (fun j z => if j <=? k then (if bool_decide (z = Some a) then next_of p j (prd j) else if bool_decide (z = prd j) then a else next_of p j z) else next_of p j z) ->
  mem p2 = <[Z.to_nat a := 4 * w]> (mem p') -> huge_next p2 = huge_next p' -> free_list p2 = free_list p' -> huge_size p2 = huge_size p' -> fragment_size p2 = fragment_size p' + 4 * w ->
  rep p2 live fast (HA ++ Node a w (k + 1) :: HB) /\ kept live p p2 /\ slack p2 fast (HA ++ Node a w (k + 1) :: HB) = slack p fast huge.
Proof.
  intros [L1 L2 L3 L4 L5 L6 L7] Hm Hn Hf Hs Hfr. pose proof Hrep as [R1 R2 R3 RT R4 R5 R6 R7 R8 R9 R10 R11 R12 R13]. pose proof node_insert_blocks as Hperm. pose proof (free_words_perm _ _ _ _ _ Hperm) as Hsum. cbn [snd] in Hsum.
  assert (Ha : 0 <= a < N p). { apply R3. cbn [app]. rewrite cells_cons, elem_of_app. left. apply elem_of_seqZ. lia. }
  assert (Hperm2 : live ++ free_blocks fast (HA ++ Node a w (k + 1) :: HB) ≡ₚ ((a, w) :: live) ++ free_blocks fast huge) by (rewrite Hperm; cbn [app]; symmetry; apply Permutation_middle).
  assert (Hword : forall x, 0 <= x -> x <> a -> (forall c j, c ∈ spots -> 0 <= j < skip_list_level_max -> x <> c + 1 + j) -> word_at (mem p2) x = word_at (mem p) x).
  { intros x Hx Hxa Hno. rewrite Hm, word_at_insert by lia. rewrite decide_False by done. by apply L7. }
  assert (Hother : forall x, x ∈ cells (live ++ fast_blocks fast) -> word_at (mem p2) x = word_at (mem p) x).
  { intros x Hx. assert (Hx' : x ∈ cells (((a, w) :: live) ++ free_blocks fast huge)). { unfold free_blocks. revert Hx. rewrite !cells_app, !elem_of_app. cbn [app]. rewrite cells_cons, elem_of_app. tauto. }
    apply Hword; [by apply R3| |intros c j Hc Hj; by apply spot_other]. intros ->. revert Hx. rewrite cells_app, elem_of_app. intros Hx. pose proof (r_cells _ _ _ _ Hrep) as Hnd. cbn [app] in Hnd. unfold free_blocks in Hnd. rewrite cells_cons, !cells_app in Hnd.
    apply list.NoDup_app in Hnd as (_ & Hd & _). apply (Hd a); [apply elem_of_seqZ; lia|]. rewrite !elem_of_app. tauto. }
  assert (Hptr : forall j y, 0 <= j < skip_list_level_max -> on spots y -> next_of p2 j y = next_of p' j y).
  { intros j y Hj Hy. destruct y as [b|]; cbn [next_of]; [|by rewrite Hn]. pose proof (spot_in b j Hy Hj). rewrite Hm, word_at_insert by lia. rewrite decide_False; [done|]. intros E. apply (spot_first b w a j Hy) in Hj; [done|by left|lia]. }
  split; [|split; [intros x Hx; apply Hother; rewrite cells_app, elem_of_app; by left|unfold slack; rewrite Hfr, L5, Hsum; lia]].
  split; rewrite ?Hm, ?length_insert, ?L1; try done.
  - by rewrite Hperm2.
  - intros x. rewrite Hperm2. apply R3.
  - by rewrite Hperm2.
  - intros b v Hb. apply R4 with b. by right.
  - by rewrite Hf, L3.
  - unfold free_list_len in *. by rewrite Hf, L3.
  - intros i l hd Hi Hhd. rewrite Hf, L3 in Hhd. destruct (R7 i l hd Hi Hhd) as [S1 S2]. split; [|done]. rewrite <- Hm. eapply seg_ext; [|exact S1]. intros b Hb. symmetry. apply Hother. rewrite cells_app, elem_of_app. right. apply elem_of_cells. exists b, (Z.of_nat i + 1). split; [|lia]. apply fast_blocks_in. by exists i, l.
  - apply sorted_insert.
  - unfold free_list_len in *. rewrite Hf, L3, Hs, L4, <- Hm. intros x [Hx|[->|Hx]%elem_of_cons]%elem_of_app.
    + destruct (R9 x) as (H1 & H2 & H3); [apply elem_of_app; by left|]. split; [done|]. split; [done|]. rewrite <- H3. assert (Hxh : x ∈ huge) by (apply elem_of_app; by left). assert (Hxs : addr x ∈ spots) by (right; by apply list_elem_of_In, in_map, list_elem_of_In).
      apply Hword; [pose proof (spot_in (addr x) 0 Hxs ltac:(done)) as Hr0; pose proof (addr_range p _ fast huge Hrep x Hxh); lia|by apply a_not_node|]. intros c j Hc Hj. apply (spot_first c (words x) (addr x) j Hc); [|lia|done]. unfold free_blocks. rewrite !elem_of_app. right. right. by apply huge_blocks_in.
    + cbn [words height addr]. split; [done|]. split; [lia|]. rewrite Hm, word_at_insert by lia. by rewrite decide_True.
    + destruct (R9 x) as (H1 & H2 & H3); [apply elem_of_app; by right|]. split; [done|]. split; [done|]. rewrite <- H3. assert (Hxh : x ∈ huge) by (apply elem_of_app; by right).
      apply Hword; [pose proof (addr_range p _ fast huge Hrep x Hxh); lia|by apply a_not_node|]. intros c j Hc Hj. apply (spot_first c (words x) (addr x) j Hc); [|lia|done]. unfold free_blocks. rewrite !elem_of_app. right. right. by apply huge_blocks_in.
  - intros j Hj. specialize (R10 j Hj). rewrite level_app in R10. rewrite level_app, level_cons. cbn [height addr].
    assert (Hoth : forall y, on (level j HA ++ level j HB) y -> on spots y) by (intros [b|] Hy; [by apply (level_spots j)|done]).
    assert (Hval : forall y, on spots y -> next_of p2 j y = if j <=? k then (if bool_decide (y = Some a) then next_of p j (prd j) else if bool_decide (y = prd j) then a else next_of p j y) else next_of p j y) by (intros y Hy; rewrite Hptr by done; by apply L6).
    assert (Hna : forall y, on (level j HA ++ level j HB) y -> y <> Some a). { intros y Hy ->. cbn [on] in Hy. rewrite <- level_app in Hy. apply level_in in Hy as (x & Hx & Ex & _). by apply (a_not_node x). }
    destruct (Z.ltb_spec j (k + 1)) as [Hjk|Hjk].
    + rewrite (proj2 (Z.leb_le j k)) in Hval by lia. cbn [app]. apply (chain_insert (next_of p j)); [done| | | | |].
      * intros Hin. by apply (Hna (Some a)).
      * rewrite <- level_app. apply level_nodup, (nodes_nodup p _ fast _ Hrep).
      * rewrite Hval by (by left). by rewrite bool_decide_eq_true_2.
      * assert (Hpn : prd j <> Some a). { intros E. apply pred_in in E. apply (Hna (Some a)); [apply elem_of_app; by left|done]. } rewrite Hval by apply prd_on. rewrite bool_decide_eq_false_2 by done. by rewrite bool_decide_eq_true_2.
      * intros y Hy Hyp. rewrite Hval by (by apply Hoth). rewrite bool_decide_eq_false_2 by (by apply Hna). by rewrite bool_decide_eq_false_2.
    + rewrite (proj2 (Z.leb_gt j k)) in Hval by lia. cbn [app]. unfold chain in *. rewrite (Hval None) by done. eapply seg_ext; [|exact R10]. intros b Hb. symmetry. apply Hval. by apply Hoth.
  - by rewrite Hn.
  - by rewrite Hs, L4.
  - rewrite Hfr, L5, Hsum. lia.
Qed.
End insert.
(** ** [sfree] *)

Section random.
Context (rand_r : Z -> Z * Z).

Lemma random_level_ok p : exists k s, random_level rand_r p = Ok (k, set_seed p s) /\ 0 <= k < skip_list_level_max.
Proof.
  unfold random_level. edestruct (loop_inv (fun '(level, p') => 1 <= level <= skip_list_level_max /\ exists s, p' = set_seed p s) (fun '(level, p') => skip_list_level_max - level) (fun '(level, p') => 1 <= level <= skip_list_level_max /\ exists s, p' = set_seed p s))
    as ([level p'] & E & Hl & s & ->); [| | |setoid_rewrite E; cbn [rbind]; exists (level - 1), s; split; [done|lia]].
  - split; [unfold skip_list_level_max; lia|]. exists (m_rand_seed p). by destruct p.
  - unfold skip_list_level_max. lia.
  - intros [level p'] [Hl (s & ->)]. split; [lia|]. unfold rand. destruct (rand_r _) as [r s']. destruct (Z.ltb_spec level skip_list_level_max) as [Hlt|Hge]; rewrite ?andb_true_r, ?andb_false_r; cbn [rbind].
    + destruct (r mod 4 =? 0); [left|right]; eexists; (split; [done|]); [split; [split; [lia|by exists s']|lia]|split; [lia|by exists s']].
    + right. eexists. split; [done|]. split; [lia|by exists s'].
Qed.

(** The result of giving back a block. *)
Definition freed (p p' : MemPool) (live : list (Z * Z)) (fast : list (list Z)) (huge : list node) : Prop := exists fast' huge',
  rep p' live fast' huge' /\ slack p' fast' huge' = slack p fast huge /\ kept live p p' /\ N p' <= N p /\ free_list_len p' = free_list_len p.

Lemma fast_length p live fast huge i l : rep p live fast huge -> fast !! i = Some l -> Z.of_nat (length l) <= N p.
Proof.
  intros Hr Hl. assert (Hi : (length l <= length (seqZ 0 (N p)))%nat); [|rewrite length_seqZ in Hi; lia]. apply NoDup_incl_length.
  - apply NoDup_ListNoDup. pose proof (r_cells _ _ _ _ Hr) as Hnd. apply list_elem_of_split_length in Hl as (f1 & f2 & Hf & Hf1).
    unfold free_blocks, fast_blocks in Hnd. rewrite Hf, imap_app in Hnd. cbn [imap] in Hnd. rewrite concat_app in Hnd. cbn [concat] in Hnd. rewrite !cells_app in Hnd. apply list.NoDup_app in Hnd as (_ & _ & Hnd). apply list.NoDup_app in Hnd as (Hnd & _ & _). apply list.NoDup_app in Hnd as (_ & _ & Hnd).
    apply list.NoDup_app in Hnd as (Hnd & _ & _). clear - Hnd. induction l as [|b l IH]; [constructor|]. cbn [map] in Hnd. rewrite cells_cons in Hnd. apply list.NoDup_app in Hnd as (_ & Hd & Hnd). constructor; [|by apply IH].
    intros Hb. apply (Hd b); [apply elem_of_seqZ; lia|]. apply elem_of_cells. eexists b, _. split; [apply list_elem_of_In, in_map_iff; exists b; split; [done|by apply list_elem_of_In]|lia].
  - intros b Hb. apply list_elem_of_In in Hb. apply list_elem_of_In, elem_of_seqZ. pose proof (fast_cell fast _ l b huge Hl Hb) as Hc. pose proof (r_bounds _ _ _ _ Hr b) as Hbd. rewrite cells_app, elem_of_app in Hbd. specialize (Hbd (or_intror Hc)). lia.
Qed.

Lemma sfree_fast_ok p live fast huge a w : rep p ((a, w) :: live) fast huge -> 0 <= a < N p -> 0 < w <= free_list_len p -> exists p',
  (let* list := rd (free_list p) (4 * w / align_size - 1) in let* p := set_at p (4 * a) (head list) in
   let* l := wr (free_list p) (4 * w / align_size - 1) (MkHead (u32 (Z.shiftr (4 * a) offset_shift)) (u32 (cnt list + 1))) in Ok (set_lists p l)) = Ok p' /\ freed p (add_sums p' (4 * w) 0 0) live fast huge.
Proof.
  intros Hr Ha Hw. pose proof (r_size _ _ _ _ Hr) as Hsize. unfold align_size. replace (4 * w / 4) with w by (rewrite Z.mul_comm, Z.div_mul; lia). unfold free_list_len in Hw. destruct (lookup_lt_is_Some_2 (free_list p) (Z.to_nat (w - 1))) as [hd Hhd]; [lia|].
  destruct (lookup_lt_is_Some_2 fast (Z.to_nat (w - 1))) as [l Hl]; [rewrite (r_lists _ _ _ _ Hr); lia|]. rewrite (rd_ok _ _ hd) by (lia || done). cbn [rbind]. rewrite set_at_ok by done. cbn [rbind]. rewrite wr_ok by (cbn; lia). cbn [rbind]. eexists. split; [done|].
  destruct (r_fast _ _ _ _ Hr _ _ _ Hl Hhd) as [_ Hcnt]. pose proof (fast_length _ _ _ _ _ _ Hr Hl) as Hcl.
  rewrite !u32_small by (rewrite ?shr_words; lia). rewrite shr_words. exists (<[Z.to_nat (w - 1) := a :: l]> fast), huge.
  destruct (push_fast p (add_sums (set_lists (set_mem p (<[Z.to_nat a := head hd]> (mem p))) (<[Z.to_nat (w - 1) := MkHead a (cnt hd + 1)]> (free_list p))) (4 * w) 0 0) live fast huge (Z.to_nat (w - 1)) a w l hd Hr Hl Hhd) as [H1 H2]; try done; [lia|cbn; apply length_insert| |].
  - intros x Hx. cbn [mem add_sums set_lists set_mem]. rewrite word_at_insert by lia. destruct (Z.eqb_spec x a) as [->|]; [by rewrite decide_True|by rewrite decide_False].
  - split; [exact H1|]. split; [exact H2|]. split; [|split; [cbn; rewrite length_insert; lia|unfold free_list_len; cbn; by rewrite length_insert]].
    intros x Hx. cbn [mem add_sums set_lists set_mem]. assert (Hxr : 0 <= x < N p). { apply (r_bounds _ _ _ _ Hr). cbn [app]. rewrite cells_cons, cells_app, !elem_of_app. tauto. }
    rewrite word_at_insert by lia. rewrite decide_False; [done|]. intros ->. pose proof (r_cells _ _ _ _ Hr) as Hnd. cbn [app] in Hnd. rewrite cells_cons, cells_app in Hnd. apply list.NoDup_app in Hnd as (_ & Hd & _). apply (Hd a); [apply elem_of_seqZ; lia|]. rewrite elem_of_app. by left.
Qed.
Lemma level_empty p live fast huge k : rep p live fast huge -> huge_size p <= k -> level k huge = [].
Proof.
  intros Hr Hk. destruct (level k huge) as [|a l] eqn:E; [done|]. exfalso. assert (Ha : a ∈ level k huge) by (rewrite E; by left). apply level_in in Ha as (x & Hx & _ & Hh). destruct (r_node _ _ _ _ Hr x Hx) as (_ & ? & _). lia.
Qed.

(** The links of the new node, from level [k]; [p0] has [k + 1] levels at least. *)
Lemma link_node_ok p0 live fast HA HB a w k update : rep p0 ((a, w) :: live) fast (HA ++ HB) -> free_list_len p0 < w -> 0 <= k < huge_size p0 ->
  Forall (fun x => words x < w) HA -> Forall (fun x => w <= words x) HB -> (forall j, 0 <= j <= k -> rd update j = Ok (blk (pred (level j HA)))) -> exists p',
  (let* p := for_ 0 (k + 1) (fun i p =>
      let k := k - i in let* n1 := rd update k in let* x := link_next p n1 k in let* p := set_link_next p (Some (4 * a)) k x in set_link_next p n1 k (u32 (Z.shiftr (4 * a) offset_shift))) p0 in
    let* p := set_at p (4 * a) (u32 (4 * w)) in Ok (add_sums p 0 (4 * w) 1)) = Ok p' /\ freed p0 (add_sums p' (4 * w) 0 0) live fast (HA ++ HB).
Proof.
  intros Hr Hw Hk HAw HBw Hup. pose proof (r_size _ _ _ _ Hr) as Hsize. pose proof (r_height _ _ _ _ Hr) as Hh. pose proof (r_enough _ _ _ _ Hr) as HL.
  assert (Ha : 0 <= a /\ a + w <= N p0). { assert (Hx : forall x, a <= x < a + w -> 0 <= x < N p0). { intros x Hx. apply (r_bounds _ _ _ _ Hr). cbn [app]. rewrite cells_cons, elem_of_app. left. by apply elem_of_seqZ. } pose proof (Hx a ltac:(lia)). pose proof (Hx (a + w - 1) ltac:(lia)). lia. }
  rewrite shr_words. destruct (insert_links (spots HA HB a) p0 (spot_in p0 live fast HA HB a w Hr Hw) (spot_apart p0 live fast HA HB a w Hr Hw) update (fun j => pred (level j HA)) a k) as (p' & E & HR).
  - by left.
  - lia.
  - lia.
  - intros j Hj. split; [by apply Hup|]. split; [apply prd_on|]. intros Ep. apply pred_in in Ep. apply level_in in Ep as (x & Hx & Ex & _). apply (a_not_node p0 live fast HA HB a w Hr Hw x); [apply elem_of_app; by left|done].
  - apply (r_next _ _ _ _ Hr).
  - rewrite E. cbn [rbind]. rewrite set_at_ok by (rewrite (l_length _ _ _ _ HR); lia). cbn [rbind]. rewrite u32_small by lia. eexists. split; [done|].
    destruct (rep_insert p0 live fast HA HB a w k Hr Hw Hk HAw HBw p' (add_sums (add_sums (set_mem p' (<[Z.to_nat a := 4 * w]> (mem p'))) 0 (4 * w) 1) (4 * w) 0 0) HR) as (H1 & H2 & H3); try done; [cbn; lia|].
    exists fast, (HA ++ Node a w (k + 1) :: HB). split; [exact H1|]. split; [exact H3|]. split; [exact H2|]. split; [cbn; rewrite length_insert, (l_length _ _ _ _ HR); lia|]. unfold free_list_len. cbn. by rewrite (l_free _ _ _ _ HR).
Qed.

Lemma sfree_huge_ok p live fast huge a w : rep p ((a, w) :: live) fast huge -> free_list_len p < w -> exists p',
  (let* _ := assert_ (sizeof_huge_link_t <=? 4 * w) in
   let* (update, _) := search p (4 * w) in
   let* (k, p) := random_level rand_r p in
   let* (k, p, update) := if huge_size p <=? k then let k := huge_size p in let* update := wr update k None in Ok (k, set_huge p (huge_size p + 1) (huge_next p), update) else Ok (k, p, update) in
   let pos_shift := Z.shiftr (4 * a) offset_shift in
   let* p := for_ 0 (k + 1) (fun i p => let k := k - i in let* n1 := rd update k in let* x := link_next p n1 k in let* p := set_link_next p (Some (4 * a)) k x in set_link_next p n1 k (u32 pos_shift)) p in
   let* p := set_at p (4 * a) (u32 (4 * w)) in Ok (add_sums p 0 (4 * w) 1)) = Ok p' /\ freed p (add_sums p' (4 * w) 0 0) live fast huge.
Proof.
  intros Hr Hw. pose proof (r_height _ _ _ _ Hr) as Hh. pose proof (r_enough _ _ _ _ Hr) as HL. destruct (sorted_split w huge (r_sorted _ _ _ _ Hr)) as (HA & HB & -> & HAw & HBw).
  unfold sizeof_huge_link_t. rewrite (proj2 (Z.leb_le 36 _)) by lia. cbn [assert_ rbind]. destruct (search_ok p _ fast (HA ++ HB) Hr w HA HB eq_refl HAw HBw) as (update & n2 & -> & Hlu & Hup & _). cbn [rbind].
  destruct (random_level_ok p) as (k & s & -> & Hk). cbn [rbind]. pose proof (rep_seed p s _ _ _ Hr) as Hrs. cbn [huge_size set_seed].
  destruct (Z.leb_spec (huge_size p) k) as [Hle|Hgt].
  - rewrite wr_ok by (unfold skip_list_level_max in *; lia). cbn [rbind]. assert (Hr1 : rep (set_huge (set_seed p s) (huge_size p + 1) (huge_next p)) ((a, w) :: live) fast (HA ++ HB)).
    { apply (rep_height (set_seed p s)); [done| |lia]. intros x Hx. destruct (r_node _ _ _ _ Hr x Hx) as (_ & ? & _). lia. }
    apply (link_node_ok _ live fast HA HB a w (huge_size p) _ Hr1 Hw); [cbn; lia|done|done|]. intros j Hj. rewrite insert_rd by (unfold skip_list_level_max in *; lia). destruct (Z.eqb_spec j (huge_size p)) as [->|]; [|apply Hup; lia].
    pose proof (level_empty p _ fast _ (huge_size p) Hr ltac:(lia)) as He. rewrite level_app in He. apply app_eq_nil in He as [-> _]. done.
  - cbn [rbind]. apply (link_node_ok _ live fast HA HB a w k _ Hrs Hw); [cbn; lia|done|done|]. intros j Hj. apply Hup. lia.
Qed.

Lemma sfree_ok p live fast huge a w len : rep p ((a, w) :: live) fast huge -> 4 * (w - 1) < len <= 4 * w -> exists p', sfree rand_r p (4 * a) len = Ok p' /\ freed p p' live fast huge.
Proof.
  intros Hr Hlen. assert (Hw : 0 < w) by (apply (r_live _ _ _ _ Hr a w); by left).
  assert (Ha : 0 <= a /\ a + w <= N p). { assert (Hx : forall x, a <= x < a + w -> 0 <= x < N p). { intros x Hx. apply (r_bounds _ _ _ _ Hr). cbn [app]. rewrite cells_cons, elem_of_app. left. by apply elem_of_seqZ. } pose proof (Hx a ltac:(lia)). pose proof (Hx (a + w - 1) ltac:(lia)). lia. }
  unfold sfree. rewrite (proj2 (Z.ltb_lt 0 len)) by lia. cbn [assert_ rbind]. unfold n at 1. rewrite (proj2 (Z.ltb_lt _ _)) by (unfold align_size; lia). cbn [assert_ rbind].
  assert (((4 * a) mod align_size =? 0) = true) as -> by (unfold align_size; by rewrite Z.mul_comm, Z.mod_mul). cbn [assert_ rbind]. rewrite (align_up_words len w Hlen). unfold n at 1. rewrite (proj2 (Z.leb_le _ _)) by (unfold align_size; lia). cbn [assert_ rbind].
  unfold n at 1. destruct (Z.eqb_spec (4 * a + 4 * w) (align_size * N p)) as [Et|Et].
  - eexists. split; [done|]. unfold align_size in *. replace (4 * a / 4) with a by (rewrite Z.mul_comm, Z.div_mul; lia). assert (Htl : Z.of_nat (length (take (Z.to_nat a) (mem p))) = a) by (rewrite length_take; lia).
    assert (Hin : forall x, x ∈ cells (live ++ free_blocks fast huge) -> 0 <= x < a). { intros x Hx. pose proof (r_bounds _ _ _ _ Hr x) as Hb. cbn [app] in Hb. rewrite cells_cons, elem_of_app in Hb. specialize (Hb (or_intror Hx)).
      pose proof (r_cells _ _ _ _ Hr) as Hnd. cbn [app] in Hnd. rewrite cells_cons in Hnd. apply list.NoDup_app in Hnd as (_ & Hd & _). destruct (Z.lt_ge_cases x a); [lia|]. exfalso. apply (Hd x); [apply elem_of_seqZ; lia|done]. }
    exists fast, huge. split; [|split; [done|split; [|split; [cbn; rewrite length_take; lia|done]]]].
    + apply (rep_frame p _ ((a, w) :: live) live fast huge Hr); try done; cbn [mem set_mem]; rewrite ?Htl.
      * pose proof (r_size _ _ _ _ Hr). lia.
      * intros x Hx. apply word_at_take. rewrite Z2Nat.id by lia. apply Hin. rewrite cells_app, elem_of_app. by right.
      * pose proof (r_cells _ _ _ _ Hr) as Hnd. cbn [app] in Hnd. rewrite cells_cons in Hnd. by apply list.NoDup_app in Hnd as (_ & _ & Hnd).
      * exact Hin.
      * pose proof (r_total _ _ _ _ Hr) as Ht. cbn [app] in Ht. rewrite total_cons in Ht. lia.
      * intros b v Hb. apply (r_live _ _ _ _ Hr b). by right.
    + intros x Hx. cbn [mem set_mem]. apply word_at_take. rewrite Z2Nat.id by lia. apply Hin. rewrite cells_app, elem_of_app. by left.
  - destruct (Z.leb_spec (4 * w) (free_list_len p * align_size)) as [Hf|Hf]; unfold align_size in Hf at 1.
    + destruct (sfree_fast_ok p live fast huge a w Hr) as (p' & E & HF); [lia|lia|]. cbv zeta. rewrite E. cbn [rbind]. by eexists.
    + destruct (sfree_huge_ok p live fast huge a w Hr) as (p' & E & HF); [lia|]. cbv zeta in E |- *. rewrite E. cbn [rbind]. by eexists.
Qed.
End random.
End MemPoolOps.
