(* ===== verification/MemPoolTake.v ===== *)
(** * Taking blocks out of the memory pool

    [unlink], [alloc] and [alloc3] keep the blocks apart and what the blocks in use
    hold. *)
From stdpp Require Import sorting.
From S2P Require Import Prelude MemPool MemPoolInv MemPoolHuge MemPoolLinks MemPoolOps.
Import MemPool MemPoolInv MemPoolHuge MemPoolLinks MemPoolOps.

Module MemPoolTake.

Notation N p := (Z.of_nat (length (mem p))).

(** ** A node becomes a block *)

Section delete.
Context (p : MemPool) (live : list (Z * Z)) (fast : list (list Z)) (HA HB : list node) (b : node).
Notation huge := (HA ++ b :: HB).
Hypothesis (Hrep : rep p live fast huge).

Notation heads := (map addr huge).
Notation prd := (fun j => pred (level j HA)).

Lemma heads_node c : c ∈ heads <-> exists x, x ∈ huge /\ addr x = c.
Proof. rewrite list_elem_of_In, in_map_iff. split; intros (x & H1 & H2); exists x; by rewrite list_elem_of_In in *. Qed.

Lemma node_block x : x ∈ huge -> (addr x, words x) ∈ live ++ free_blocks fast huge.
Proof. intros Hx. unfold free_blocks. rewrite !elem_of_app. right. right. by apply huge_blocks_in. Qed.

Lemma heads_in c j : c ∈ heads -> 0 <= j < skip_list_level_max -> 0 <= c + 1 + j < N p.
Proof.
  intros (x & Hx & <-)%heads_node Hj. pose proof (node_words _ _ _ _ x Hrep Hx). unfold skip_list_level_max in Hj. pose proof (node_words_range p live fast huge Hrep x (1 + j) Hx). lia.
Qed.

(** A word of a node is in no other block. *)
Lemma head_words c j d v x : c ∈ heads -> 0 <= j < skip_list_level_max -> (d, v) ∈ live ++ free_blocks fast huge -> d <= x < d + v -> x = c + 1 + j -> d = c.
Proof.
  intros (y & Hy & <-)%heads_node Hj Hd Hx E. pose proof (node_words _ _ _ _ y Hrep Hy). unfold skip_list_level_max in Hj.
  destruct (cells_inj _ d v (addr y) (words y) x (r_cells _ _ _ _ Hrep) Hd (node_block y Hy)); (done || lia).
Qed.

Lemma heads_apart c d j k : c ∈ heads -> d ∈ heads -> 0 <= j < skip_list_level_max -> 0 <= k < skip_list_level_max -> c + 1 + j = d + 1 + k -> c = d.
Proof.
  intros Hc (y & Hy & <-)%heads_node Hj Hk E. symmetry. apply (head_words c j (addr y) (words y) (addr y + 1 + k) Hc Hj (node_block y Hy)); [|lia]. pose proof (node_words _ _ _ _ y Hrep Hy). unfold skip_list_level_max in *. lia.
Qed.

Lemma prd_heads j : on heads (prd j).
Proof. destruct (pred (level j HA)) as [c|] eqn:E; [|done]. apply pred_in in E. apply level_in in E as (x & Hx & <- & _). apply heads_node. exists x. split; [apply elem_of_app; by left|done]. Qed.

Lemma node_delete_blocks : free_blocks fast huge ≡ₚ (addr b, words b) :: free_blocks fast (HA ++ HB).
Proof.
  unfold free_blocks, huge_blocks. rewrite !map_app. cbn [map]. rewrite (Permutation_middle (fast_blocks fast)). f_equiv. symmetry. apply Permutation_middle.
Qed.

Lemma sorted_delete (A B : list node) c : StronglySorted smaller (A ++ c :: B) -> StronglySorted smaller (A ++ B).
Proof.
  induction A as [|x A IH]; cbn [app]; intros Hs; apply StronglySorted_inv in Hs as [Hs Hx]; [done|]. constructor; [by apply IH|]. apply List.Forall_app in Hx as [H1 H2]. apply List.Forall_app. split; [done|by inversion H2].
Qed.

Definition bypassed (j : Z) (z : option Z) : Z :=
  if (j <? huge_size p) && (next_of p j (prd j) =? addr b) && bool_decide (z = prd j) then next_of p j (Some (addr b)) else next_of p j z.

Lemma b_in : b ∈ huge.
Proof. apply elem_of_app. right. by left. Qed.

Lemma still_in x : x ∈ HA ++ HB -> x ∈ huge.
Proof. rewrite !elem_of_app, elem_of_cons. tauto. Qed.

Lemma bypassed_chain j : 0 <= j < skip_list_level_max -> chain (bypassed j) (level j (HA ++ HB)).
Proof.
  intros Hj. pose proof (r_levels _ _ _ _ Hrep j Hj) as Hc. rewrite level_app, level_cons in Hc. rewrite level_app. destruct (r_node _ _ _ _ Hrep b b_in) as (_ & Hh & _). pose proof (addr_range p _ fast _ Hrep b b_in) as Hb30.
  pose proof (level_nodup j huge (nodes_nodup p _ fast _ Hrep)) as Hnd. rewrite level_app, level_cons in Hnd. pose proof (nodes_nodup p _ fast _ Hrep) as Hnn. destruct (Z.ltb_spec j (height b)) as [Hjb|Hjb]; cbn [app] in Hc, Hnd.
  - assert (Hpb : next_of p j (prd j) = addr b) by (apply chain_split in Hc as [_ Hc]; cbn [seg] in Hc; tauto). apply (chain_delete (next_of p j) _ _ _ (addr b)); [done|done| |].
    + unfold bypassed. rewrite (proj2 (Z.ltb_lt j _)), Hpb, Z.eqb_refl by lia. by rewrite bool_decide_eq_true_2.
    + intros y _ Hyp. unfold bypassed. by rewrite (bool_decide_eq_false_2 _ Hyp), andb_false_r.
  - assert (Hpb : next_of p j (prd j) <> addr b).
    { apply chain_split in Hc as [_ Hc]. destruct (level j HB) as [|c l] eqn:EB; cbn [seg] in Hc; [rewrite Hc; unfold list_tail; lia|]. destruct Hc as [-> _]. assert (Hin : c ∈ level j HB) by (rewrite EB; by left). apply level_in in Hin as (x & Hx & <- & _).
      rewrite map_app in Hnn. cbn [map] in Hnn. apply list.NoDup_app in Hnn as (_ & _ & Hnn). apply list.NoDup_cons in Hnn as [Hnn _]. intros E. apply Hnn. rewrite <- E. by apply list_elem_of_In, in_map, list_elem_of_In. }
    assert (Hg : forall z, bypassed j z = next_of p j z) by (intros z; unfold bypassed; by rewrite (proj2 (Z.eqb_neq _ _) Hpb), andb_false_r). unfold chain in *. rewrite Hg. eapply seg_ext; [|exact Hc]. intros c _. by rewrite Hg.
Qed.

Lemma rep_delete p2 : relinked heads p p2 bypassed -> rep p2 ((addr b, words b) :: live) fast (HA ++ HB) /\ kept live p p2 /\ slack p2 fast (HA ++ HB) = slack p fast huge + 4 * words b.
Proof.
  intros [L1 L2 L3 L4 L5 L6 L7]. pose proof Hrep as [R1 R2 R3 RT R4 R5 R6 R7 R8 R9 R10 R11 R12 R13]. pose proof node_delete_blocks as Hperm. pose proof (free_words_perm _ _ _ _ _ Hperm) as Hsum. cbn [snd] in Hsum. pose proof (node_words _ _ _ _ b Hrep b_in) as Hbw.
  assert (Hperm2 : live ++ free_blocks fast huge ≡ₚ ((addr b, words b) :: live) ++ free_blocks fast (HA ++ HB)) by (rewrite Hperm; cbn [app]; symmetry; apply Permutation_middle).
  assert (Hother : forall d v x, (d, v) ∈ live ++ free_blocks fast huge -> d <= x < d + v -> (d ∉ heads \/ x = d) -> word_at (mem p2) x = word_at (mem p) x).
  { intros d v x Hd Hx Hdh. apply L7; [apply R3, elem_of_cells; by exists d, v|]. intros c j Hc Hj E. pose proof (head_words c j d v x Hc Hj Hd Hx E) as ->. destruct Hdh as [?| ->]; [done|lia]. }
  assert (Hnot : forall d v, 0 < v -> (d, v) ∈ live ++ fast_blocks fast -> d ∉ heads).
  { intros d v Hv Hd (x & Hx & <-)%heads_node. pose proof R2 as Hnd. unfold free_blocks in Hnd. rewrite app_assoc, cells_app in Hnd. apply list.NoDup_app in Hnd as (_ & Hdis & _). pose proof (node_words _ _ _ _ x Hrep Hx).
    apply (Hdis (addr x)); apply elem_of_cells; [exists (addr x), v; split; [done|lia]|exists (addr x), (words x); split; [by apply huge_blocks_in|lia]]. }
  split; [|split; [|unfold slack; rewrite L5, Hsum; lia]].
  - split; rewrite ?L1; try done.
    + by rewrite <- Hperm2.
    + intros x. rewrite <- Hperm2. apply R3.
    + by rewrite <- Hperm2.
    + intros d v [[= -> ->]|Hd]%elem_of_cons; [lia|by apply R4 in Hd].
    + by rewrite L3.
    + unfold free_list_len in *. by rewrite L3.
    + intros i l hd Hi Hhd. rewrite L3 in Hhd. destruct (R7 i l hd Hi Hhd) as [S1 S2]. split; [|done]. eapply seg_ext; [|exact S1]. intros c Hc. symmetry. assert (Hcb : (c, Z.of_nat i + 1) ∈ fast_blocks fast) by (apply fast_blocks_in; by exists i, l).
      apply (Hother c (Z.of_nat i + 1)); [unfold free_blocks; rewrite !elem_of_app; tauto|lia|by right].
    + by eapply sorted_delete.
    + unfold free_list_len in *. rewrite L3, L4. intros x Hx%still_in. destruct (R9 x Hx) as (H1 & H2 & H3). split; [done|]. split; [done|]. rewrite <- H3. pose proof (node_words _ _ _ _ x Hrep Hx). apply (Hother (addr x) (words x)); [by apply node_block|lia|by right].
    + intros j Hj. pose proof (bypassed_chain j Hj) as Hc. unfold chain in *. rewrite (L6 j None Hj) by done. eapply seg_ext; [|exact Hc]. intros c Hc'. symmetry. apply L6; [done|]. apply level_in in Hc' as (x & Hx & <- & _). apply heads_node. exists x. split; [by apply still_in|done].
    + by rewrite L4.
    + rewrite L5. lia.
  - intros x Hx. apply elem_of_cells in Hx as (d & v & Hd & Hx). pose proof (R4 d v Hd). apply (Hother d v); [apply elem_of_app; by left|done|]. left. apply (Hnot d v); [lia|apply elem_of_app; by left].
Qed.
End delete.

(** ** Levels that are empty go *)

Definition same_blocks (p p' : MemPool) : Prop := mem p' = mem p /\ free_list p' = free_list p /\ fragment_size p' = fragment_size p.

Lemma shrink_ok p live fast huge : rep p live fast huge -> 1 <= huge_size p -> exists p',
  loop (S (Z.to_nat skip_list_level_max)) (fun p =>
    let* x := rd (huge_next p) (huge_size p - 1) in
    if x =? list_tail then
      let p := set_huge p (huge_size p - 1) (huge_next p) in
      Ok (if 0 <? huge_size p then inl p else inr p)
    else Ok (inr p)) p = Ok p' /\ rep p' live fast huge /\ same_blocks p p'.
Proof.
  intros Hr H1. pose proof (r_height _ _ _ _ Hr) as Hh. unfold skip_list_level_max in Hh. match goal with |- exists p', loop ?f ?bd p = _ /\ _ =>
    destruct (loop_inv (fun q => rep q live fast huge /\ 1 <= huge_size q /\ same_blocks p q) (fun q => huge_size q) (fun q => rep q live fast huge /\ same_blocks p q) bd f p) as (p' & E & HI); [done|unfold skip_list_level_max; lia| |by exists p'] end.
  intros q (Hq & Hq1 & Hs). pose proof (r_height _ _ _ _ Hq) as Hqh. split; [lia|]. pose proof (r_levels _ _ _ _ Hq (huge_size q - 1) ltac:(lia)) as Hc. unfold chain in Hc. cbn [next_of] in Hc.
  rewrite rd_word by (rewrite (r_next _ _ _ _ Hq); lia). cbn [rbind]. destruct (Z.eqb_spec (word_at (huge_next q) (huge_size q - 1)) list_tail) as [Et|Et]; [|right; by exists q].
  assert (He : forall x, x ∈ huge -> height x <= huge_size q - 1).
  { intros x Hx. destruct (Z.le_gt_cases (height x) (huge_size q - 1)) as [|Hgt]; [done|]. exfalso. destruct (level (huge_size q - 1) huge) as [|c l] eqn:EL.
    - assert (Hin : addr x ∈ level (huge_size q - 1) huge) by (apply level_in; exists x; split; [done|]; split; [done|lia]). rewrite EL in Hin. by apply elem_of_nil in Hin.
    - cbn [seg] in Hc. destruct Hc as [Ec _]. assert (Hin : c ∈ level (huge_size q - 1) huge) by (rewrite EL; by left). apply level_in in Hin as (y & Hy & Ey & _). pose proof (addr_range q _ fast _ Hq y Hy). pose proof (eq_refl : list_tail = 4294967295). lia. }
  assert (Hr' : rep (set_huge q (huge_size q - 1) (huge_next q)) live fast huge) by (apply rep_height; [done|done|lia]). cbn [huge_size set_huge]. destruct (Z.ltb_spec 0 (huge_size q - 1)); [left|right]; (eexists; split; [done|]); [split; [|cbn; lia]; split; [done|]; split; [cbn; lia|]|split; [done|]]; exact Hs.
Qed.

Lemma pool_unlink_ok p live fast HA b HB update : rep p live fast (HA ++ b :: HB) -> (forall k, 0 <= k < huge_size p -> rd update k = Ok (blk (pred (level k HA)))) -> exists p',
  unlink p update (4 * addr b) = Ok p' /\ rep p' ((addr b, words b) :: live) fast (HA ++ HB) /\ kept live p p' /\ slack p' fast (HA ++ HB) = slack p fast (HA ++ b :: HB) + 4 * words b /\ N p' = N p /\ free_list_len p' = free_list_len p.
Proof.
  intros Hr Hup. unfold unlink. rewrite shr_words. pose proof (b_in HA HB b) as Hb. destruct (r_node _ _ _ _ Hr b Hb) as (_ & Hbh & _).
  destruct (delete_links (map addr (HA ++ b :: HB)) p (heads_in p live fast HA HB b Hr) (heads_apart p live fast HA HB b Hr) update (fun j => pred (level j HA)) (addr b) (huge_size p)) as (p2 & E & HR).
  - by apply list_elem_of_In, in_map, list_elem_of_In.
  - by apply (addr_range p live fast _ Hr).
  - apply (r_height _ _ _ _ Hr).
  - intros j Hj. split; [by apply Hup|]. apply prd_heads.
  - apply (r_next _ _ _ _ Hr).
  - rewrite E. cbn [rbind]. destruct (rep_delete p live fast HA HB b Hr p2 HR) as (H1 & H2 & H3). destruct (shrink_ok p2 _ _ _ H1) as (p3 & E3 & H4 & Hm & Hf & Hg); [rewrite (l_size _ _ _ _ HR); lia|]. exists p3. split; [exact E3|]. split; [done|]. unfold slack, free_list_len, kept in *. rewrite Hm, Hg, Hf, (l_length _ _ _ _ HR), (l_free _ _ _ _ HR).
    split; [done|]. split; [exact H3|done].
Qed.
End MemPoolTake.
