(* ===== verification/MemPoolAlloc.v ===== *)
(** * [alloc] and [alloc3] of the memory pool *)
From stdpp Require Import sorting.
From S2P Require Import Prelude MemPool MemPoolInv MemPoolHuge MemPoolLinks MemPoolOps MemPoolTake.
Import MemPool MemPoolInv MemPoolHuge MemPoolOps MemPoolTake.

Module MemPoolAlloc.

Notation N p := (Z.of_nat (length (mem p))).

(** ** Blocks in use *)

Lemma live_block_range p live fast huge a w : rep p live fast huge -> (a, w) ∈ live -> 0 <= a /\ 0 < w /\ a + w <= N p.
Proof.
  intros Hr Hin. pose proof (r_live _ _ _ _ Hr a w Hin) as Hw. assert (Hx : forall x, a <= x < a + w -> 0 <= x < N p). { intros x Hx. apply (r_bounds _ _ _ _ Hr). rewrite cells_app, elem_of_app. left. apply elem_of_cells. by exists a, w. }
  pose proof (Hx a ltac:(lia)). pose proof (Hx (a + w - 1) ltac:(lia)). lia.
Qed.

Lemma rep_split p live fast huge a w v : rep p ((a, w + v) :: live) fast huge -> 0 < w -> 0 < v -> rep p ((a + w, v) :: (a, w) :: live) fast huge.
Proof.
  intros Hr Hw Hv. assert (Hc : cells (((a + w, v) :: (a, w) :: live) ++ free_blocks fast huge) ≡ₚ cells (((a, w + v) :: live) ++ free_blocks fast huge)).
  { cbn [app]. rewrite (cells_split a w v) by lia. apply cells_perm. constructor. }
  apply (rep_frame p p ((a, w + v) :: live) _ fast huge Hr); try done; [apply Hr|rewrite Hc; apply Hr|intros x; rewrite Hc; apply Hr|pose proof (r_total _ _ _ _ Hr) as Ht; cbn [app] in *; rewrite !total_cons in *; lia|].
  intros b u [[= -> ->]|[[= -> ->]|Hb]%elem_of_cons]%elem_of_cons; [done|done|]. apply (r_live _ _ _ _ Hr b). by right.
Qed.

Lemma rep_spend p live fast huge f s c : rep p live fast huge -> 4 * free_words fast huge <= fragment_size p + f -> rep (add_sums p f s c) live fast huge.
Proof. intros [R1 R2 R3 RT R4 R5 R6 R7 R8 R9 R10 R11 R12 R13] Hf. by split. Qed.

Lemma kept_sub live live' p p' : (forall x, x ∈ cells live' -> x ∈ cells live) -> kept live p p' -> kept live' p p'.
Proof. intros Hs Hk x Hx. by apply Hk, Hs. Qed.

Lemma kept_tail b live p p' : kept (b :: live) p p' -> kept live p p'.
Proof. destruct b as [a w]. apply kept_sub. intros x Hx. rewrite cells_cons, elem_of_app. by right. Qed.

(** ** The end of the array *)

Section junk.
Context (junk : Z -> Z).

Lemma set_n_length p m : 0 <= m -> N (set_n junk p (4 * m)) = m.
Proof.
  intros Hm. unfold set_n, n, align_size. cbn [mem set_mem]. rewrite (Z.mul_comm 4 m), (Z.mul_comm 4 (N p)), !Z.div_mul by lia. rewrite length_take, length_app, length_map, length_seqZ. lia.
Qed.

Lemma set_n_word p m x : 0 <= x < m -> x < N p -> word_at (mem (set_n junk p (4 * m))) x = word_at (mem p) x.
Proof.
  intros Hx HxN. unfold set_n, n, align_size. cbn [mem set_mem]. rewrite (Z.mul_comm 4 m), (Z.mul_comm 4 (N p)), !Z.div_mul by lia. rewrite word_at_take by lia. apply word_at_app_l. lia.
Qed.

(** The last block in use, from [a] on, gets the length [v]. *)
Lemma set_n_rep p live live0 fast huge a v : rep p live0 fast huge -> 0 <= a -> 0 < v -> 4 * (a + v) < 2 ^ 32 ->
  (forall x, x ∈ cells (live ++ free_blocks fast huge) -> x < a /\ x ∈ cells (live0 ++ free_blocks fast huge)) -> NoDup (cells (live ++ free_blocks fast huge)) -> total (live ++ free_blocks fast huge) = a -> (forall b u, (b, u) ∈ live -> 0 < u) ->
  rep (set_n junk p (4 * (a + v))) ((a, v) :: live) fast huge /\ kept live p (set_n junk p (4 * (a + v))).
Proof.
  intros Hr Ha Hv Hs Hin Hnd Ht Hl. pose proof (set_n_length p (a + v) ltac:(lia)) as Hlen. assert (Hsame : forall x, x ∈ cells (live ++ free_blocks fast huge) -> word_at (mem (set_n junk p (4 * (a + v)))) x = word_at (mem p) x).
  { intros x Hx. destruct (Hin x Hx) as [H1 H2]. pose proof (r_bounds _ _ _ _ Hr x H2). apply set_n_word; lia. }
  split; [|intros x Hx; apply Hsame; rewrite cells_app, elem_of_app; by left]. apply (rep_frame p _ live0 _ fast huge Hr); try done.
  - lia.
  - intros x Hx. apply Hsame. rewrite cells_app, elem_of_app. by right.
  - cbn [app]. rewrite cells_cons. apply list.NoDup_app. split; [apply NoDup_seqZ|]. split; [|done]. intros x Hx Hx'. apply elem_of_seqZ in Hx. destruct (Hin x Hx'). lia.
  - cbn [app]. intros x. rewrite cells_cons, elem_of_app, elem_of_seqZ, Hlen. intros [Hx|Hx]; [lia|]. destruct (Hin x Hx) as [H1 H2]. pose proof (r_bounds _ _ _ _ Hr x H2). lia.
  - cbn [app]. rewrite total_cons, Hlen, Ht. lia.
  - intros b u [[= -> ->]|Hb]%elem_of_cons; [done|by eapply Hl].
Qed.

Lemma pool_grow_ok p live fast huge w : rep p live fast huge -> 0 < w -> 4 * (N p + w) < 2 ^ 32 -> rep (set_n junk p (n p + 4 * w)) ((N p, w) :: live) fast huge /\ kept live p (set_n junk p (n p + 4 * w)).
Proof.
  intros Hr Hw Hs. unfold n, align_size. replace (4 * N p + 4 * w) with (4 * (N p + w)) by lia. apply (set_n_rep p live live fast huge); try done; [lia| |apply Hr|apply Hr|apply Hr].
  intros x Hx. pose proof (r_bounds _ _ _ _ Hr x Hx). split; [lia|done].
Qed.

(** ** [alloc] *)

Context (rand_r : Z -> Z * Z).

(** The result of taking the block [a] of [w] words. *)
Definition got (p p' : MemPool) (a w : Z) (live : list (Z * Z)) (fast : list (list Z)) (huge : list node) : Prop := exists fast' huge',
  rep p' ((a, w) :: live) fast' huge' /\ slack p fast huge <= slack p' fast' huge' /\ (w <= free_list_len p -> slack p' fast' huge' = slack p fast huge) /\ kept live p p' /\ N p' <= N p + w /\ free_list_len p' = free_list_len p.

Lemma grow_got p live fast huge w : rep p live fast huge -> 0 < w -> 4 * (N p + w) < 2 ^ 32 -> got p (set_n junk p (n p + 4 * w)) (N p) w live fast huge.
Proof.
  intros Hr Hw Hs. destruct (pool_grow_ok p live fast huge w Hr Hw Hs) as [H1 H2]. exists fast, huge. split; [done|]. split; [unfold slack; cbn; lia|]. split; [done|]. split; [done|]. split; [|done].
  unfold n, align_size. replace (4 * N p + 4 * w) with (4 * (N p + w)) by lia. rewrite set_n_length; lia.
Qed.

Lemma free_words_nonneg p live fast huge : rep p live fast huge -> 0 <= free_words fast huge.
Proof.
  intros Hr. unfold free_words. apply zsum_nonneg, List.Forall_forall. intros x Hx. apply in_map_iff in Hx as ([a v] & <- & Hin). apply list_elem_of_In in Hin. unfold free_blocks in Hin. apply elem_of_app in Hin as [Hin|Hin].
  - apply fast_blocks_in in Hin as (i & l & _ & _ & ->). cbn. lia.
  - apply list_elem_of_In, in_map_iff in Hin as (y & [= <- <-] & Hy). apply list_elem_of_In in Hy. cbn. pose proof (node_words _ _ _ _ y Hr Hy). lia.
Qed.

Lemma alloc_fast_ok p live fast huge w : rep p live fast huge -> 0 < w <= free_list_len p -> 4 * (N p + w) < 2 ^ 32 -> exists a p',
  (let* list := rd (free_list p) (4 * w / align_size - 1) in
    if negb (list_tail =? head list) then
      let* _ := assert_ (4 * w <=? fragment_size p) in
      let pos := Z.shiftl (head list) offset_shift in
      let* _ := assert_ (pos + 4 * w <=? n p) in
      let* h := at_ p pos in
      let* l := wr (free_list p) (4 * w / align_size - 1) (MkHead h (u32 (cnt list - 1))) in
      Ok (pos, add_sums (set_lists p l) (- (4 * w)) 0 0)
    else Ok (n p, set_n junk p (n p + 4 * w))) = Ok (4 * a, p') /\ got p p' a w live fast huge.
Proof.
  intros Hr Hw Hs. pose proof (r_size _ _ _ _ Hr) as Hsize. unfold align_size. replace (4 * w / 4) with w by (rewrite Z.mul_comm, Z.div_mul; lia). unfold free_list_len in Hw. destruct (lookup_lt_is_Some_2 (free_list p) (Z.to_nat (w - 1))) as [hd Hhd]; [lia|].
  destruct (lookup_lt_is_Some_2 fast (Z.to_nat (w - 1))) as [l Hl]; [rewrite (r_lists _ _ _ _ Hr); lia|]. rewrite (rd_ok _ _ hd) by (lia || done). cbn [rbind]. destruct (r_fast _ _ _ _ Hr _ _ _ Hl Hhd) as [Hseg Hcnt]. pose proof (fast_length _ _ _ _ _ _ Hr Hl) as Hcl.
  destruct l as [|a l]; cbn [seg] in Hseg.
  - rewrite Hseg, Z.eqb_refl. cbn [negb]. exists (N p). eexists. split; [done|]. apply grow_got; [done|lia|done].
  - destruct Hseg as [Eh Hseg]. assert (Ha : 0 <= a /\ a + w <= N p).
    { assert (Hx : forall x, a <= x < a + w -> 0 <= x < N p). { intros x Hx. apply (r_bounds _ _ _ _ Hr). rewrite cells_app, elem_of_app. right. apply elem_of_cells. exists a, w. split; [|done]. unfold free_blocks. apply elem_of_app. left. apply fast_blocks_in. exists (Z.to_nat (w - 1)), (a :: l). split; [done|]. split; [by left|lia]. }
      pose proof (Hx a ltac:(lia)). pose proof (Hx (a + w - 1) ltac:(lia)). lia. }
    pose proof (eq_refl : list_tail = 4294967295). rewrite (proj2 (Z.eqb_neq _ _)) by lia. cbn [negb]. rewrite Eh, shl_words.
    destruct (pop_fast p (add_sums (set_lists p (<[Z.to_nat (w - 1) := MkHead (word_at (mem p) a) (cnt hd - 1)]> (free_list p))) (- (4 * w)) 0 0) live fast huge (Z.to_nat (w - 1)) a l hd Hr Hl Hhd) as [H1 H2]; try done; [cbn; lia|].
    pose proof (r_frag _ _ _ _ H1) as Hfr. pose proof (free_words_nonneg _ _ _ _ H1) as Hnn. cbn [fragment_size add_sums set_lists] in Hfr. rewrite (proj2 (Z.leb_le (4 * w) _)) by lia. cbn [assert_ rbind]. unfold n at 1. rewrite (proj2 (Z.leb_le _ _)) by (unfold align_size; lia). cbn [assert_ rbind].
    rewrite word_read_ok by lia. cbn [rbind]. rewrite wr_ok by lia. cbn [rbind]. cbn [length] in Hcnt, Hcl. rewrite u32_small by lia. exists a. eexists. split; [done|]. replace (Z.of_nat (Z.to_nat (w - 1)) + 1) with w in H1 by lia.
    eexists _, _. split; [exact H1|]. split; [lia|]. split; [done|]. split; [done|]. split; [cbn; lia|]. unfold free_list_len. cbn. by rewrite length_insert.
Qed.

(** [alloc] takes the smallest node that is large enough, or makes the array longer when
    there is none. *)
Definition best_fit (p p' : MemPool) (a w : Z) (huge : list node) : Prop :=
  (Forall (fun x => words x < w) huge /\ a = N p /\ N p' = N p + w) \/
  (exists b, b ∈ huge /\ a = addr b /\ w <= words b /\ Forall (fun x => w <= words x -> words b <= words x) huge /\ N p' <= N p).

Lemma smallest_first w HA b HB : StronglySorted smaller (HA ++ b :: HB) -> Forall (fun x => words x < w) HA -> Forall (fun x => w <= words x -> words b <= words x) (HA ++ b :: HB).
Proof.
  intros Hs HAw. apply List.Forall_app. split; [eapply List.Forall_impl; [|exact HAw]; intros x Hx Hwx; cbn in Hx; lia|]. clear HAw. induction HA as [|x HA IH]; cbn [app] in Hs; apply StronglySorted_inv in Hs as [Hs Hx]; [|by apply IH].
  constructor; [done|]. eapply List.Forall_impl; [|exact Hx]. intros y Hy _. exact Hy.
Qed.

Lemma alloc_huge_ok p live fast huge w : rep p live fast huge -> free_list_len p < w -> 4 * (N p + w) < 2 ^ 32 -> exists a p',
  (let* _ := assert_ (sizeof_huge_link_t <=? 4 * w) in
    let* (update, n2) := search p (4 * w) in
    let* found := match n2 with None => Ok None | Some x => let* size := link_size p (Some x) in Ok (if 4 * w <=? size then Some (x, size) else None) end in
    match found with
    | Some (res, size) =>
        let remain := size - 4 * w in
        let* p := unlink p update res in
        let* p := if negb (remain =? 0) then sfree rand_r p (res + 4 * w) remain else Ok p in
        Ok (res, add_sums p (- (4 * w)) (- (4 * w)) (-1))
    | None => Ok (n p, set_n junk p (n p + 4 * w))
    end) = Ok (4 * a, p') /\ got p p' a w live fast huge /\ best_fit p p' a w huge.
Proof.
  intros Hr Hw Hs. pose proof (r_enough _ _ _ _ Hr) as HL. destruct (sorted_split w huge (r_sorted _ _ _ _ Hr)) as (HA & HB & -> & HAw & HBw).
  unfold sizeof_huge_link_t. rewrite (proj2 (Z.leb_le 36 _)) by lia. cbn [assert_ rbind]. destruct (search_ok p _ fast (HA ++ HB) Hr w HA HB eq_refl HAw HBw) as (update & n2 & -> & _ & Hup & Hn2). cbn [rbind].
  assert (Hsize : forall x, x ∈ HA ++ HB -> link_size p (Some (4 * addr x)) = Ok (4 * words x)).
  { intros x Hx. destruct (r_node _ _ _ _ Hr x Hx) as (_ & _ & <-). apply word_read_ok. pose proof (node_words _ _ _ _ x Hr Hx). pose proof (node_words_range p _ fast _ Hr x 0 Hx). lia. }
  assert (Hgrow : Forall (fun x => words x < w) (HA ++ HB) -> exists a p', Ok (n p, set_n junk p (n p + 4 * w)) = Ok (4 * a, p') /\ got p p' a w live fast (HA ++ HB) /\ best_fit p p' a w (HA ++ HB)).
  { intros Hall. exists (N p). eexists. split; [done|]. split; [apply grow_got; [done|lia|done]|]. left. split; [done|]. split; [done|]. unfold n, align_size. replace (4 * N p + 4 * w) with (4 * (N p + w)) by lia. rewrite set_n_length; lia. }
  destruct HB as [|b HB'].
  - rewrite app_nil_r in *. specialize (Hgrow HAw). destruct Hn2 as [->|(x & Hx & ->)]; [exact Hgrow|]. rewrite Hsize by done. rewrite List.Forall_forall in HAw. specialize (HAw x (proj1 (list_elem_of_In _ _) Hx)). cbn [rbind]. rewrite (proj2 (Z.leb_gt _ _)) by lia. exact Hgrow.
  - rewrite Hn2, Hsize by (apply elem_of_app; right; by left). apply List.Forall_inv in HBw as Hbw. cbn [rbind]. rewrite (proj2 (Z.leb_le _ _)) by lia. destruct (pool_unlink_ok p live fast HA b HB' update Hr Hup) as (p2 & -> & H2 & K2 & S2 & N2 & F2). cbn [rbind].
    pose proof (r_frag _ _ _ _ Hr) as Hfr. unfold slack in S2. assert (Hbest : forall q, N q <= N p -> best_fit p q (addr b) w (HA ++ b :: HB')).
    { intros q Hq. right. exists b. split; [apply elem_of_app; right; by left|]. split; [done|]. split; [done|]. split; [|done]. apply smallest_first; [apply (r_sorted _ _ _ _ Hr)|done]. }
    destruct (Z.eqb_spec (4 * words b - 4 * w) 0) as [E|E]; cbn [negb].
    + cbn [rbind]. assert (words b = w) as Ew by lia. exists (addr b). eexists. split; [done|]. split; [|apply Hbest; cbn [mem add_sums]; lia]. rewrite Ew in H2, S2. exists fast, (HA ++ HB'). split; [apply (rep_spend _ _ _ _ _ _ _ H2); lia|]. split; [unfold slack; cbn [add_sums fragment_size]; lia|]. split; [lia|]. split; [done|]. split; [cbn [mem add_sums]; lia|done].
    + replace (4 * addr b + 4 * w) with (4 * (addr b + w)) by lia. replace (words b) with (w + (words b - w)) in H2 by lia. apply rep_split in H2; [|lia|lia].
      destruct (sfree_ok rand_r p2 _ fast (HA ++ HB') (addr b + w) (words b - w) (4 * words b - 4 * w) H2) as (p3 & -> & fast' & huge' & H3 & S3 & K3 & N3 & F3); [lia|]. cbn [rbind]. exists (addr b). eexists. split; [done|]. split; [|apply Hbest; cbn [mem add_sums]; lia].
      unfold slack in S3. exists fast', huge'. split; [apply (rep_spend _ _ _ _ _ _ _ H3); lia|]. split; [unfold slack; cbn [add_sums fragment_size]; lia|]. split; [lia|]. split; [|split; [cbn [mem add_sums]; lia|unfold free_list_len in *; cbn [free_list add_sums]; lia]].
      apply (kept_trans live p p2); [done|]. by apply kept_tail in K3.
Qed.

Lemma pool_alloc_ok p live fast huge w req : rep p live fast huge -> 0 < w -> 4 * (w - 1) < req <= 4 * w -> 4 * (N p + w) < 2 ^ 32 -> exists a p', alloc rand_r junk p req = Ok (4 * a, p') /\ got p p' a w live fast huge.
Proof.
  intros Hr Hw Hq Hs. unfold alloc. rewrite (proj2 (Z.ltb_lt 0 req)) by lia. cbn [assert_ rbind]. rewrite (align_up_words req w Hq). cbv zeta. destruct (Z.leb_spec (4 * w) (free_list_len p * align_size)) as [Hf|Hf]; unfold align_size in Hf at 1.
  - apply (alloc_fast_ok p live fast huge w Hr); lia.
  - destruct (alloc_huge_ok p live fast huge w Hr) as (a & p' & E & HG & _); [lia|done|]. by exists a, p'.
Qed.

(** ** [alloc3] *)

Lemma copy_words_ok p dst src m : 0 <= m -> 0 <= src -> src + m <= N p -> 0 <= dst -> dst + m <= N p -> (forall i j, 0 <= i < m -> 0 <= j < m -> dst + i <> src + j) -> exists ws,
  copy_words p (4 * dst) (4 * src) (4 * m) = Ok (set_mem p ws) /\ length ws = length (mem p) /\ (forall x, 0 <= x -> word_at ws x = if (dst <=? x) && (x <? dst + m) then word_at (mem p) (src + (x - dst)) else word_at (mem p) x).
Proof.
  intros Hm Hs Hsm Hd Hdm Hno. unfold copy_words, align_size. replace (4 * m / 4) with m by (rewrite Z.mul_comm, Z.div_mul; lia).
  match goal with |- exists ws, for_ 0 m ?bd p = _ /\ _ => destruct (for_inv (fun i q => exists ws, q = set_mem p ws /\ length ws = length (mem p) /\ forall x, 0 <= x -> word_at ws x = if (dst <=? x) && (x <? dst + i) then word_at (mem p) (src + (x - dst)) else word_at (mem p) x) bd 0 m p) as (q & -> & ws & -> & HI); [done| | |by exists ws] end.
  - exists (mem p). split; [by destruct p|]. split; [done|]. intros x Hx. destruct (Z.leb_spec dst x), (Z.ltb_spec x (dst + 0)); (done || lia).
  - intros i q Hi (ws & -> & Hl & Hws). replace (4 * src + 4 * i) with (4 * (src + i)) by lia. replace (4 * dst + 4 * i) with (4 * (dst + i)) by lia. rewrite word_read_ok by (cbn [mem set_mem]; lia). cbn [rbind]. rewrite set_at_ok by (cbn [mem set_mem]; lia).
    eexists. split; [done|]. cbn [mem set_mem]. eexists. split; [done|]. split; [by rewrite length_insert|]. intros x Hx. rewrite word_at_insert by lia. destruct (decide (x = dst + i)) as [->|Hne].
    + rewrite (proj2 (Z.leb_le dst _)), (proj2 (Z.ltb_lt (dst + i) _)) by lia. cbn [andb]. rewrite Hws by lia. replace (src + (dst + i - dst)) with (src + i) by lia. destruct (Z.leb_spec dst (src + i)), (Z.ltb_spec (src + i) (dst + i)); try done. cbn [andb].
      exfalso. apply (Hno (src + i - dst) i); lia.
    + rewrite Hws by lia. destruct (Z.leb_spec dst x); [|done]. cbn [andb]. destruct (Z.ltb_spec x (dst + i)), (Z.ltb_spec x (dst + (i + 1))); (done || lia).
Qed.

(** The block [(a, w)] has become [(b, v)]: what both have is the same, and a shorter
    block needs no memory. *)
Definition moved (p p' : MemPool) (a w b v : Z) (live : list (Z * Z)) (fast : list (list Z)) (huge : list node) : Prop :=
  got p p' b v live fast huge /\ (v <= w -> N p' <= N p) /\ forall i, 0 <= i < Z.min w v -> word_at (mem p') (b + i) = word_at (mem p) (a + i).

Lemma alloc3_move_ok p live fast huge a w v old : rep p ((a, w) :: live) fast huge -> 4 * (w - 1) < old <= 4 * w -> w < v -> 4 * (N p + v) < 2 ^ 32 -> exists b p',
  (let* (newpos, p) := alloc rand_r junk p (4 * v) in
   let* p := copy_words p newpos (4 * a) (Z.min (4 * w) (4 * v)) in
   let* p := sfree rand_r p (4 * a) (4 * w) in Ok (newpos, p)) = Ok (4 * b, p') /\ moved p p' a w b v live fast huge.
Proof.
  intros Hr Ho Hwv Hs. destruct (live_block_range p _ _ _ a w Hr ltac:(by left)) as (Ha & Hw & Haw). destruct (pool_alloc_ok p _ fast huge v (4 * v) Hr) as (b & p1 & -> & fast1 & huge1 & H1 & S1 & T1 & K1 & N1 & F1); [lia|lia|done|]. cbn [rbind].
  destruct (live_block_range p1 _ _ _ b v H1 ltac:(by left)) as (Hb & Hv & Hbv). destruct (live_block_range p1 _ _ _ a w H1 ltac:(right; by left)) as (_ & _ & Haw1). pose proof (r_cells _ _ _ _ H1) as Hnd. cbn [app] in Hnd. rewrite !cells_cons in Hnd. apply list.NoDup_app in Hnd as (_ & Hdb & Hnd).
  rewrite Z.min_l by lia. destruct (copy_words_ok p1 b a w) as (ws & -> & Hl & Hws); [lia|lia|lia|lia|lia| |].
  { intros i j Hi Hj E. apply (Hdb (b + i)); [apply elem_of_seqZ; lia|]. rewrite elem_of_app. left. apply elem_of_seqZ. lia. }
  cbn [rbind]. assert (Hout : forall x, x ∈ seqZ a w ++ cells (live ++ free_blocks fast1 huge1) -> word_at ws x = word_at (mem p1) x).
  { intros x Hx. rewrite Hws. - destruct (Z.leb_spec b x), (Z.ltb_spec x (b + w)); try done. exfalso. apply (Hdb x); [apply elem_of_seqZ; lia|done].
    - apply (r_bounds _ _ _ _ H1). cbn [app]. rewrite cells_cons, elem_of_app. by right. }
  assert (H2 : rep (set_mem p1 ws) ((b, v) :: (a, w) :: live) fast1 huge1).
  { apply (rep_frame p1 _ ((b, v) :: (a, w) :: live) _ fast1 huge1 H1); try done; cbn [mem set_mem]; rewrite ?Hl; try apply H1. intros x Hx. apply Hout. rewrite elem_of_app, cells_app, elem_of_app. tauto. }
  apply (rep_live_perm _ _ ((a, w) :: (b, v) :: live)) in H2; [|constructor]. destruct (sfree_ok rand_r _ _ fast1 huge1 a w (4 * w) H2) as (p3 & -> & fast3 & huge3 & H3 & S3 & K3 & N3 & F3); [lia|]. cbn [rbind]. exists b, p3. split; [done|]. cbn [mem set_mem] in N3. rewrite Hl in N3. split; [|split; [lia|]].
  - exists fast3, huge3. split; [done|]. change (slack (set_mem p1 ws) fast1 huge1) with (slack p1 fast1 huge1) in S3. split; [lia|]. split; [intros Hvs; rewrite S3; by apply T1|]. split; [|split; [lia|unfold free_list_len in *; cbn [free_list set_mem] in F3; lia]].
    apply kept_tail in K1. intros x Hx. rewrite K3 by (rewrite cells_cons, elem_of_app; by right). cbn [mem set_mem]. rewrite Hout by (rewrite cells_app, !elem_of_app; tauto). by apply K1.
  - intros i Hi. rewrite K3 by (rewrite cells_cons, elem_of_app; left; apply elem_of_seqZ; lia). cbn [mem set_mem]. rewrite Hws by lia. rewrite (proj2 (Z.leb_le b _)), (proj2 (Z.ltb_lt (b + i) _)) by lia. cbn [andb]. replace (a + (b + i - b)) with (a + i) by lia.
    apply K1. rewrite cells_cons, elem_of_app. left. apply elem_of_seqZ. lia.
Qed.

Lemma alloc3_ok p live fast huge a w v old new : rep p ((a, w) :: live) fast huge -> 4 * (w - 1) < old <= 4 * w -> 0 < v -> 4 * (v - 1) < new <= 4 * v -> (w < v -> 4 * (N p + v) < 2 ^ 32) -> exists b p',
  alloc3 rand_r junk p (4 * a) old new = Ok (4 * b, p') /\ moved p p' a w b v live fast huge.
Proof.
  intros Hr Ho Hv Hn Hs. destruct (live_block_range p _ _ _ a w Hr ltac:(by left)) as (Ha & Hw & Haw). unfold alloc3. rewrite (proj2 (Z.ltb_lt 0 new)), (proj2 (Z.ltb_lt 0 old)) by lia. cbn [assert_ rbind]. rewrite (align_up_words old w Ho), (align_up_words new v Hn). cbv zeta.
  unfold n at 1 2. rewrite (proj2 (Z.ltb_lt _ _)), (proj2 (Z.leb_le _ _)) by (unfold align_size; lia). cbn [assert_ rbind]. unfold n at 1. destruct (Z.eqb_spec (4 * a + 4 * w) (align_size * N p)) as [Et|Et]; [unfold align_size in Et|].
  - exists a. eexists. split; [done|]. replace (4 * a + 4 * v) with (4 * (a + v)) by lia. pose proof (r_cells _ _ _ _ Hr) as Hnd. cbn [app] in Hnd. rewrite cells_cons in Hnd. apply list.NoDup_app in Hnd as (_ & Hd & Hnd).
    destruct (set_n_rep p live ((a, w) :: live) fast huge a v Hr Ha Hv) as [H1 K1]; [pose proof (r_size _ _ _ _ Hr); unfold align_size in Et; destruct (Z.lt_ge_cases w v); lia| |done|pose proof (r_total _ _ _ _ Hr) as Ht; cbn [app] in Ht; rewrite total_cons in Ht; lia|intros b u Hb; apply (r_live _ _ _ _ Hr b); by right|].
    + intros x Hx. assert (Hx' : x ∈ cells (((a, w) :: live) ++ free_blocks fast huge)) by (cbn [app]; rewrite cells_cons, elem_of_app; by right). split; [|done]. pose proof (r_bounds _ _ _ _ Hr x Hx'). destruct (Z.lt_ge_cases x a); [done|]. exfalso. apply (Hd x); [apply elem_of_seqZ; lia|done].
    + split; [|split; [rewrite set_n_length by lia; unfold align_size in Et; lia|intros i Hi; apply set_n_word; lia]]. exists fast, huge. split; [done|]. split; [unfold slack; cbn; lia|]. split; [done|]. split; [done|]. rewrite set_n_length by lia. split; [lia|done].
  - destruct (Z.ltb_spec (4 * v) (4 * w)) as [Hlt|Hge].
    + unfold align_size. rewrite !(proj2 (Z.leb_le 4 _)) by lia. cbn [assert_ rbind]. replace (4 * a + 4 * v) with (4 * (a + v)) by lia. replace w with (v + (w - v)) in Hr by lia. apply rep_split in Hr; [|lia|lia].
      destruct (sfree_ok rand_r p _ fast huge (a + v) (w - v) (4 * w - 4 * v) Hr) as (p2 & -> & fast2 & huge2 & H2 & S2 & K2 & N2 & F2); [lia|]. cbn [rbind]. exists a, p2. split; [done|]. split; [|split; [lia|intros i Hi; apply K2; rewrite cells_cons, elem_of_app; left; apply elem_of_seqZ; lia]].
      exists fast2, huge2. split; [done|]. split; [lia|]. split; [done|]. split; [by apply kept_tail in K2|]. split; [lia|done].
    + destruct (Z.eqb_spec (4 * v) (4 * w)) as [E|E]; [|apply (alloc3_move_ok p live fast huge a w v old Hr Ho); lia]. assert (v = w) as -> by lia. exists a, p. split; [done|]. split; [|done]. exists fast, huge. split; [done|]. split; [lia|]. split; [done|]. split; [done|]. split; [lia|done].
Qed.
End junk.
End MemPoolAlloc.
