(* ===== verification/MemPoolProps.v ===== *)
(** * What the memory pool promises

    A caller that takes, gives back, resizes, reads and writes blocks sees a heap of
    separate blocks that hold what was written last. *)
From stdpp Require Import sorting.
From S2P Require Import Prelude MemPool MemPoolInv MemPoolHuge MemPoolOps MemPoolTake MemPoolAlloc.
Import MemPool MemPoolInv MemPoolHuge MemPoolOps MemPoolTake MemPoolAlloc.

Module MemPoolProps.

Notation N p := (Z.of_nat (length (mem p))).

(** ** A caller

    It keeps the position and the length of every block it has; an operation names a
    block by its index. *)

Inductive op := Alloc (len : Z) | Free (i : nat) | Realloc (i : nat) (len : Z) | Write (i j : nat) (v : Z) | Read (i j : nat).

Notation handles := (list (Z * Z)).

Section exec.
Context (rand_r : Z -> Z * Z) (junk : Z -> Z).

(** The pool, the blocks and what was read. *)
Definition exec (o : op) (p : MemPool) (hs : handles) : res (MemPool * handles * list Z) :=
  match o with
  | Alloc len => let* (pos, p) := alloc rand_r junk p len in Ok (p, (pos, len) :: hs, [])
  | Free i => let* (pos, len) := rd hs (Z.of_nat i) in let* p := sfree rand_r p pos len in Ok (p, delete i hs, [])
  | Realloc i len => let* (pos, old) := rd hs (Z.of_nat i) in let* (pos, p) := alloc3 rand_r junk p pos old len in Ok (p, <[i := (pos, len)]> hs, [])
  | Write i j v => let* (pos, _) := rd hs (Z.of_nat i) in let* p := set_at p (pos + 4 * Z.of_nat j) (u32 v) in Ok (p, hs, [])
  | Read i j => let* (pos, _) := rd hs (Z.of_nat i) in let* v := at_ p (pos + 4 * Z.of_nat j) in Ok (p, hs, [v])
  end.

Fixpoint exec_all (os : list op) (p : MemPool) (hs : handles) : res (MemPool * handles * list Z) :=
  match os with
  | [] => Ok (p, hs, [])
  | o :: os => let* (p, hs, out) := exec o p hs in let* (p, hs, out') := exec_all os p hs in Ok (p, hs, out ++ out')
  end.
End exec.

(** ** The heap it sees *)

Definition words_of (len : Z) : Z := (len + 3) / 4.

(** What the blocks hold. *)
Notation heap := (list (list Z)).

(** A new block holds anything; a block that is resized holds what it held as far as it
    reaches. *)
Inductive heap_step : heap -> op -> heap -> list Z -> Prop :=
  | heap_alloc h len ws : Z.of_nat (length ws) = words_of len -> heap_step h (Alloc len) (ws :: h) []
  | heap_free h i : heap_step h (Free i) (delete i h) []
  | heap_realloc h i len ws ws' : h !! i = Some ws -> Z.of_nat (length ws') = words_of len -> (forall k, (k < length ws)%nat -> (k < length ws')%nat -> ws' !! k = ws !! k) -> heap_step h (Realloc i len) (<[i := ws']> h) []
  | heap_write h i j v ws : h !! i = Some ws -> (j < length ws)%nat -> heap_step h (Write i j v) (<[i := <[j := u32 v]> ws]> h) []
  | heap_read h i j v ws : h !! i = Some ws -> ws !! j = Some v -> heap_step h (Read i j) h [v].

Inductive heap_steps : heap -> list op -> heap -> list Z -> Prop :=
  | steps_nil h : heap_steps h [] h []
  | steps_cons h o h' out os h'' out' : heap_step h o h' out -> heap_steps h' os h'' out' -> heap_steps h (o :: os) h'' (out ++ out').

(** What the caller may do: the words of its blocks after the operation. *)
Definition shape (ls : list Z) (o : op) : option (list Z) :=
  match o with
  | Alloc len => if 0 <? len then Some (words_of len :: ls) else None
  | Free i => if (i <? length ls)%nat then Some (delete i ls) else None
  | Realloc i len => if (i <? length ls)%nat && (0 <? len) then Some (<[i := words_of len]> ls) else None
  | Write i j _ | Read i j => match ls !! i with Some w => if Z.of_nat j <? w then Some ls else None | None => None end
  end.

(** The words an operation may ask for. *)
Definition want (o : op) : Z := match o with Alloc len | Realloc _ len => words_of len | _ => 0 end.

(** No operation is wrong, and all requests together, of which [b] words were made
    before, fit into 32 bits. *)
Fixpoint legal (ls : list Z) (b : Z) (os : list op) : bool :=
  match os with
  | [] => true
  | o :: os => match shape ls o with Some ls' => (4 * (b + want o) <? 2 ^ 32) && legal ls' (b + want o) os | None => false end
  end.

(** ** The pool and the heap *)

Definition block (x : Z * Z) : Z * Z := (fst x / 4, words_of (snd x)).
Definition sizes (hs : handles) : list Z := map (fun x => words_of (snd x)) hs.

(** Every block is where its handle says and holds the words [ws]. *)
Definition holds (p : MemPool) (x : Z * Z) (ws : list Z) : Prop :=
  fst x = 4 * (fst x / 4) /\ Z.of_nat (length ws) = words_of (snd x) /\ forall k v, ws !! k = Some v -> word_at (mem p) (fst x / 4 + Z.of_nat k) = v.

(** The pool is well formed when every word belongs to one block at most, free or with a
    handle, and all free blocks are linked. *)
Definition well_formed (p : MemPool) (hs : handles) : Prop := Forall (fun x => fst x mod 4 = 0) hs /\ exists fast huge, rep p (map block hs) fast huge.

Definition view (p : MemPool) (hs : handles) (h : heap) : Prop := (exists fast huge, rep p (map block hs) fast huge) /\ Forall2 (holds p) hs h.

Lemma words_of_range len : 4 * (words_of len - 1) < len <= 4 * words_of len.
Proof. unfold words_of. pose proof (Z.div_mod (len + 3) 4 ltac:(lia)). pose proof (Z.mod_pos_bound (len + 3) 4 ltac:(lia)). lia. Qed.

Lemma words_of_pos len : 0 < len -> 0 < words_of len.
Proof. intros Hl. pose proof (words_of_range len). lia. Qed.

Lemma holds_kept live p p' x ws : kept live p p' -> block x ∈ live -> holds p x ws -> holds p' x ws.
Proof.
  intros Hk Hx (H1 & H2 & H3). split; [done|]. split; [done|]. intros k v Hv. rewrite Hk; [by apply H3|]. apply elem_of_cells. exists (fst x / 4), (words_of (snd x)). split; [exact Hx|]. apply lookup_lt_Some in Hv. lia.
Qed.

(** What the words of a block are. *)
Definition contents (p : MemPool) (a w : Z) : list Z := map (word_at (mem p)) (seqZ a w).

Lemma contents_lookup p a w k : (Z.of_nat k < w) -> contents p a w !! k = Some (word_at (mem p) (a + Z.of_nat k)).
Proof. intros Hk. unfold contents. change (map (word_at (mem p)) (seqZ a w)) with (word_at (mem p) <$> seqZ a w). rewrite list_lookup_fmap. rewrite (proj2 (lookup_seqZ _ _ _ _) (conj eq_refl Hk)). done. Qed.

Lemma contents_length p a w : 0 <= w -> Z.of_nat (length (contents p a w)) = w.
Proof. intros Hw. unfold contents. rewrite length_map, length_seqZ. lia. Qed.

Lemma contents_hold p a len : 0 < len -> holds p (4 * a, len) (contents p a (words_of len)).
Proof.
  intros Hl. pose proof (words_of_pos len Hl). unfold holds. cbn [fst snd]. rewrite (Z.mul_comm 4 a), Z.div_mul by lia. split; [lia|]. split; [apply contents_length; lia|].
  intros k v Hv. pose proof (lookup_lt_Some _ _ _ Hv) as Hk. rewrite <- (Nat2Z.id (length _)), contents_length in Hk by lia. rewrite contents_lookup in Hv by lia. by injection Hv.
Qed.

Lemma block_words a len : block (4 * a, len) = (a, words_of len).
Proof. unfold block. cbn [fst snd]. by rewrite (Z.mul_comm 4 a), Z.div_mul. Qed.

Lemma handle_perm (hs : handles) i x : hs !! i = Some x -> map block hs ≡ₚ block x :: map block (delete i hs).
Proof. intros Hi. change (map block) with (fmap (M := list) block). rewrite (delete_Permutation hs i x Hi) at 1. done. Qed.

Lemma delete_insert_same {A} (l : list A) i x : delete i (<[i := x]> l) = delete i l.
Proof. revert i. induction l as [|y l IH]; intros [|i]; [done|done|done|]. cbn. f_equal. apply IH. Qed.

Lemma handle_insert_perm (hs : handles) i x : (i < length hs)%nat -> map block (<[i := x]> hs) ≡ₚ block x :: map block (delete i hs).
Proof.
  intros Hi. rewrite (handle_perm (<[i := x]> hs) i x) by (by apply list_lookup_insert_eq). by rewrite delete_insert_same.
Qed.

Lemma sizes_lookup hs i : sizes hs !! i = (fun x => words_of (snd x)) <$> hs !! i.
Proof. unfold sizes. apply list_lookup_fmap. Qed.

(** *** What is free *)

(** The difference between [frag_size] and the bytes that are in no block of the
    caller. *)
Definition surplus (p : MemPool) (hs : handles) : Z := frag_size p - (n p - 4 * zsum (sizes hs)).

Lemma slack_surplus p hs fast huge : rep p (map block hs) fast huge -> slack p fast huge = surplus p hs.
Proof.
  intros Hr. pose proof (r_total _ _ _ _ Hr) as Ht. rewrite total_app in Ht. assert (Hs : total (map block hs) = zsum (sizes hs)) by (unfold total, sizes; by rewrite map_map). unfold slack, surplus, n, frag_size, align_size, free_words. lia.
Qed.

(** An operation that asks for [w] words. *)
Definition charged (p : MemPool) (hs : handles) (p' : MemPool) (hs' : handles) (w : Z) : Prop :=
  N p' <= N p + w /\ free_list_len p' = free_list_len p /\ surplus p hs <= surplus p' hs' /\ (w <= free_list_len p -> surplus p' hs' = surplus p hs).

Lemma rep_charged p hs fast huge p' hs' fast' huge' w : rep p (map block hs) fast huge -> rep p' (map block hs') fast' huge' -> N p' <= N p + w -> free_list_len p' = free_list_len p ->
  slack p fast huge <= slack p' fast' huge' -> (w <= free_list_len p -> slack p' fast' huge' = slack p fast huge) -> charged p hs p' hs' w.
Proof. intros Hr Hr' HN HF HS HT. unfold charged. rewrite <- (slack_surplus _ _ _ _ Hr), <- (slack_surplus _ _ _ _ Hr'). done. Qed.

Lemma charged_refl p hs : charged p hs p hs 0.
Proof. unfold charged. split; [lia|]. split; [done|]. split; [lia|done]. Qed.

Section steps.
Context (rand_r : Z -> Z * Z) (junk : Z -> Z).

(** The result of a legal operation. *)
Definition simulated (o : op) (p : MemPool) (hs : handles) (h : heap) (ls' : list Z) : Prop := exists p' hs' h' out,
  exec rand_r junk o p hs = Ok (p', hs', out) /\ heap_step h o h' out /\ view p' hs' h' /\ sizes hs' = ls' /\ charged p hs p' hs' (want o).

Lemma sim_alloc p hs h len ls' : view p hs h -> shape (sizes hs) (Alloc len) = Some ls' -> 4 * (N p + words_of len) < 2 ^ 32 -> simulated (Alloc len) p hs h ls'.
Proof.
  intros [(fast & huge & Hr) Hh] Hs Hb. cbn [shape] in Hs. destruct (Z.ltb_spec 0 len) as [Hl|]; [|done]. injection Hs as <-. destruct (pool_alloc_ok junk rand_r p _ fast huge (words_of len) len Hr (words_of_pos len Hl) (words_of_range len) Hb) as (a & p' & E & fast' & huge' & Hr' & S & T & K & HN & F). rewrite <- block_words in Hr'.
  exists p', ((4 * a, len) :: hs), (contents p' a (words_of len) :: h), []. cbn [exec]. rewrite E. cbn [rbind]. split; [done|]. split; [constructor; apply contents_length; pose proof (words_of_pos len Hl); lia|]. split; [|split; [done|by apply (rep_charged p hs fast huge p' ((4 * a, len) :: hs) fast' huge')]].
  split; [by exists fast', huge'|]. constructor; [by apply contents_hold|]. clear - Hh K. apply Forall2_same_length_lookup. split; [by eapply Forall2_length|]. intros i x ws Hx Hws. eapply holds_kept; [exact K| |by eapply Forall2_lookup_lr].
  apply list_elem_of_In, in_map, list_elem_of_In. by eapply list_elem_of_lookup_2.
Qed.

(** The other blocks. *)
Lemma others_hold p p' hs h i : Forall2 (holds p) hs h -> kept (map block (delete i hs)) p p' -> Forall2 (holds p') (delete i hs) (delete i h).
Proof.
  intros Hh K. apply (Forall2_delete _ _ _ i) in Hh. apply Forall2_same_length_lookup. split; [by eapply Forall2_length|]. intros j x ws Hx Hws. eapply holds_kept; [exact K| |by eapply Forall2_lookup_lr].
  apply list_elem_of_In, in_map, list_elem_of_In. by eapply list_elem_of_lookup_2.
Qed.

Lemma one_holds p p' hs h i x ws : (i < length hs)%nat -> Forall2 (holds p) hs h -> kept (map block (delete i hs)) p p' -> holds p' x ws -> Forall2 (holds p') (<[i := x]> hs) (<[i := ws]> h).
Proof.
  intros Hi Hh K Hx. pose proof (Forall2_length Hh) as Hlen. pose proof (others_hold p p' hs h i Hh K) as Ho. rewrite !delete_take_drop in Ho. rewrite !insert_take_drop by lia. apply Forall2_app_inv in Ho as [H1 H2]; [|rewrite !length_take; lia]. apply Forall2_app; [done|]. by constructor.
Qed.

Lemma handle_of hs h p i ls w : Forall2 (holds p) hs h -> ls = sizes hs -> ls !! i = Some w -> exists x ws, hs !! i = Some x /\ h !! i = Some ws /\ holds p x ws /\ w = words_of (snd x).
Proof.
  intros Hh -> Hw. rewrite sizes_lookup in Hw. destruct (hs !! i) as [x|] eqn:Ex; [|done]. injection Hw as <-. destruct (Forall2_lookup_l _ _ _ _ _ Hh Ex) as (ws & Ews & Hx). by exists x, ws.
Qed.

Lemma sim_free p hs h i ls' : view p hs h -> shape (sizes hs) (Free i) = Some ls' -> simulated (Free i) p hs h ls'.
Proof.
  intros [(fast & huge & Hr) Hh] Hs. cbn [shape] in Hs. destruct (Nat.ltb_spec i (length (sizes hs))) as [Hl|]; [|done]. injection Hs as <-. destruct (lookup_lt_is_Some_2 _ _ Hl) as [w Hw]. destruct (handle_of hs h p i _ w Hh eq_refl Hw) as ([pos len] & ws & Ex & Ews & (Hp & _ & _) & ->). cbn [fst snd] in *.
  pose proof (rep_live_perm _ _ _ _ _ Hr (handle_perm hs i _ Ex)) as Hr2. unfold block at 1 in Hr2. cbn [fst snd] in Hr2. destruct (sfree_ok rand_r p _ fast huge (pos / 4) (words_of len) len Hr2 (words_of_range len)) as (p' & E & fast' & huge' & Hr' & S & K & HN & F).
  exists p', (delete i hs), (delete i h), []. cbn [exec]. rewrite (rd_ok _ _ (pos, len)) by (rewrite ?Nat2Z.id; (lia || done)). cbn [rbind]. rewrite <- Hp in E. rewrite E. cbn [rbind]. split; [done|]. split; [constructor|]. split; [|split; [|apply (rep_charged p hs fast huge p' _ fast' huge'); (done || cbn [want]; lia)]].
  - split; [by exists fast', huge'|]. by eapply others_hold.
  - unfold sizes. change (map (fun x : Z * Z => words_of (snd x))) with (fmap (M := list) (fun x : Z * Z => words_of (snd x))). apply list_fmap_delete.
Qed.

Lemma sim_realloc p hs h i len ls' : view p hs h -> shape (sizes hs) (Realloc i len) = Some ls' -> 4 * (N p + words_of len) < 2 ^ 32 -> simulated (Realloc i len) p hs h ls'.
Proof.
  intros [(fast & huge & Hr) Hh] Hs Hb. cbn [shape] in Hs. destruct (Nat.ltb_spec i (length (sizes hs))) as [Hl|]; [|done]. cbn [andb] in Hs. destruct (Z.ltb_spec 0 len) as [Hpos|]; [|done]. injection Hs as <-. destruct (lookup_lt_is_Some_2 _ _ Hl) as [w Hw].
  destruct (handle_of hs h p i _ w Hh eq_refl Hw) as ([pos old] & ws & Ex & Ews & (Hp & Hlw & Hv) & ->). cbn [fst snd] in *. pose proof (rep_live_perm _ _ _ _ _ Hr (handle_perm hs i _ Ex)) as Hr2. unfold block at 1 in Hr2. cbn [fst snd] in Hr2. pose proof (words_of_pos len Hpos) as Hwp.
  destruct (alloc3_ok junk rand_r p _ fast huge (pos / 4) (words_of old) (words_of len) old len Hr2 (words_of_range old) Hwp (words_of_range len) (fun _ => Hb)) as (b & p' & E & (fast' & huge' & Hr' & S & T & K & HN & F) & _ & Hm).
  apply (rep_live_perm _ _ (map block (<[i := (4 * b, len)]> hs))) in Hr'; [|rewrite handle_insert_perm by (by eapply lookup_lt_Some); by rewrite block_words].
  exists p', (<[i := (4 * b, len)]> hs), (<[i := contents p' b (words_of len)]> h), []. cbn [exec]. rewrite (rd_ok _ _ (pos, old)) by (rewrite ?Nat2Z.id; (lia || done)). cbn [rbind]. rewrite <- Hp in E. rewrite E. cbn [rbind]. split; [done|]. split; [|split; [|split; [|by apply (rep_charged p hs fast huge p' _ fast' huge')]]].
  - econstructor; [exact Ews|apply contents_length; lia|]. intros k Hk Hk'. pose proof (contents_length p' b (words_of len)). rewrite contents_lookup by lia. rewrite Hm by lia. destruct (lookup_lt_is_Some_2 _ _ Hk) as [v Ev]. rewrite Ev. f_equal. by apply Hv.
  - split; [|by eapply one_holds; [by eapply lookup_lt_Some|exact Hh|exact K|apply contents_hold]]. by exists fast', huge'.
  - unfold sizes. change (map (fun x : Z * Z => words_of (snd x))) with (fmap (M := list) (fun x : Z * Z => words_of (snd x))). by rewrite list_fmap_insert.
Qed.

(** The word [j] of a block. *)
Lemma handle_word p hs h i j w : view p hs h -> sizes hs !! i = Some w -> Z.of_nat j < w -> exists pos len ws, hs !! i = Some (pos, len) /\ h !! i = Some ws /\ holds p (pos, len) ws /\ (j < length ws)%nat /\
  pos + 4 * Z.of_nat j = 4 * (pos / 4 + Z.of_nat j) /\ 0 <= pos / 4 + Z.of_nat j < N p.
Proof.
  intros [(fast & huge & Hr) Hh] Hw Hj. destruct (handle_of hs h p i _ w Hh eq_refl Hw) as ([pos len] & ws & Ex & Ews & Hx & ->). pose proof Hx as (Hp & Hlw & _). cbn [fst snd] in *. exists pos, len, ws. split; [done|]. split; [done|]. split; [done|]. split; [lia|]. split; [lia|].
  destruct (live_block_range p _ _ _ (pos / 4) (words_of len) Hr) as (? & ? & ?); [|lia]. change (pos / 4, words_of len) with (block (pos, len)). apply list_elem_of_In, in_map, list_elem_of_In. by eapply list_elem_of_lookup_2.
Qed.

Lemma sim_read p hs h i j ls' : view p hs h -> shape (sizes hs) (Read i j) = Some ls' -> simulated (Read i j) p hs h ls'.
Proof.
  intros Hv Hs. cbn [shape] in Hs. destruct (sizes hs !! i) as [w|] eqn:Ew; [|done]. destruct (Z.ltb_spec (Z.of_nat j) w) as [Hj|]; [|done]. injection Hs as <-. destruct (handle_word p hs h i j w Hv Ew Hj) as (pos & len & ws & Ex & Ews & (_ & _ & Hws) & Hjl & Ep & Hr).
  destruct (lookup_lt_is_Some_2 _ _ Hjl) as [v Ev]. exists p, hs, h, [v]. cbn [exec]. rewrite (rd_ok _ _ (pos, len)) by (rewrite ?Nat2Z.id; (lia || done)). cbn [rbind]. rewrite Ep, word_read_ok by done. cbn [rbind]. specialize (Hws j v Ev). cbn [fst] in Hws. rewrite Hws. split; [done|]. split; [by econstructor|]. split; [done|]. split; [done|]. apply charged_refl.
Qed.

Lemma sim_write p hs h i j v ls' : view p hs h -> shape (sizes hs) (Write i j v) = Some ls' -> simulated (Write i j v) p hs h ls'.
Proof.
  intros Hv Hs. cbn [shape] in Hs. destruct (sizes hs !! i) as [w|] eqn:Ew; [|done]. destruct (Z.ltb_spec (Z.of_nat j) w) as [Hj|]; [|done]. injection Hs as <-. destruct (handle_word p hs h i j w Hv Ew Hj) as (pos & len & ws & Ex & Ews & Hx & Hjl & Ep & Hr). destruct Hv as [(fast & huge & Hrep) Hh].
  set (a := pos / 4 + Z.of_nat j) in *. pose proof (handle_perm hs i _ Ex) as Hperm. pose proof Hx as (Hp & Hlw & Hws). cbn [fst snd] in *. pose proof (rep_live_perm _ _ _ _ _ Hrep Hperm) as Hr2. pose proof (r_cells _ _ _ _ Hr2) as Hnd. cbn [app] in Hnd.
  change (block (pos, len)) with (pos / 4, words_of len) in Hnd. rewrite cells_cons in Hnd. apply list.NoDup_app in Hnd as (_ & Hd & _). assert (Ha : a ∈ seqZ (pos / 4) (words_of len)) by (apply elem_of_seqZ; lia). specialize (Hd a Ha).
  assert (Hsame : forall x, 0 <= x -> x <> a -> word_at (<[Z.to_nat a := u32 v]> (mem p)) x = word_at (mem p) x) by (intros x Hx0 Hxa; rewrite word_at_insert by lia; by rewrite decide_False).
  assert (Hoth : forall x, x ∈ cells (map block (delete i hs) ++ free_blocks fast huge) -> word_at (<[Z.to_nat a := u32 v]> (mem p)) x = word_at (mem p) x).
  { intros x Hxc. apply Hsame; [|by intros ->]. apply (r_bounds _ _ _ _ Hr2). cbn [app]. change (block (pos, len)) with (pos / 4, words_of len). rewrite cells_cons, elem_of_app. by right. }
  exists (set_mem p (<[Z.to_nat a := u32 v]> (mem p))), hs, (<[i := <[j := u32 v]> ws]> h), []. cbn [exec]. rewrite (rd_ok _ _ (pos, len)) by (rewrite ?Nat2Z.id; (lia || done)). cbn [rbind]. rewrite Ep, set_at_ok by done. cbn [rbind]. split; [done|]. split; [by econstructor|]. split; [|split; [done|]].
  2:{ unfold charged, surplus, n, frag_size. cbn. rewrite length_insert. split; [lia|]. split; [done|]. split; [lia|done]. }
  split.
  - exists fast, huge. apply (rep_frame p _ (map block hs) _ fast huge Hrep); try done; cbn [mem set_mem]; rewrite ?length_insert; try apply Hrep. intros x Hxc. apply Hoth. rewrite cells_app, elem_of_app. by right.
  - rewrite <- (list_insert_id hs i _ Ex). apply (one_holds p); [by eapply lookup_lt_Some|by rewrite ?(list_insert_id hs i _ Ex)| |].
    + intros x Hxc. rewrite ?(list_insert_id hs i _ Ex) in Hxc. apply Hoth. rewrite cells_app, elem_of_app. by left.
    + split; [done|]. cbn [fst snd mem set_mem]. rewrite length_insert. split; [done|]. intros k u Hk. destruct (decide (k = j)) as [->|Hne].
      * rewrite list_lookup_insert_eq in Hk by done. injection Hk as <-. fold a. rewrite word_at_insert by lia. by rewrite decide_True.
      * rewrite list_lookup_insert_ne in Hk by done. destruct (live_block_range p _ _ _ (pos / 4) (words_of len) Hr2 ltac:(by left)) as (Hp0 & _ & _). rewrite Hsame by (subst a; lia). by apply Hws.
Qed.

Lemma sim_step o p hs h ls' : view p hs h -> shape (sizes hs) o = Some ls' -> 4 * (N p + want o) < 2 ^ 32 -> simulated o p hs h ls'.
Proof. intros Hv Hs Hb. destruct o; [by apply sim_alloc|by apply sim_free|by apply sim_realloc|by apply sim_write|by apply sim_read]. Qed.

Lemma sim_steps os : forall p hs h b, view p hs h -> legal (sizes hs) b os = true -> N p <= b -> exists p' hs' h' out,
  exec_all rand_r junk os p hs = Ok (p', hs', out) /\ heap_steps h os h' out /\ view p' hs' h' /\ N p' <= N p + zsum (map want os) /\ free_list_len p' = free_list_len p /\
  surplus p hs <= surplus p' hs' /\ (Forall (fun o => want o <= free_list_len p) os -> surplus p' hs' = surplus p hs).
Proof.
  induction os as [|o os IH]; intros p hs h b Hv Hl Hb; cbn [exec_all legal map] in *; [exists p, hs, h, []; split; [done|]; split; [constructor|]; split; [done|]; split; [cbn; lia|]; split; [done|]; split; [lia|done]|].
  destruct (shape (sizes hs) o) as [ls'|] eqn:Es; [|done]. apply andb_true_iff in Hl as [Hq Hl]. apply Z.ltb_lt in Hq.
  destruct (sim_step o p hs h ls' Hv Es) as (p1 & hs1 & h1 & out1 & E1 & Hs1 & Hv1 & <- & HN1 & F1 & S1 & T1); [lia|]. destruct (IH p1 hs1 h1 (b + want o) Hv1 Hl) as (p2 & hs2 & h2 & out2 & E2 & Hs2 & Hv2 & HN2 & F2 & S2 & T2); [lia|]. rewrite F1 in *.
  rewrite E1. cbn [rbind]. rewrite E2. cbn [rbind]. exists p2, hs2, h2, (out1 ++ out2). rewrite zsum_cons. split; [done|]. split; [by econstructor|]. split; [done|]. split; [lia|]. split; [done|]. split; [lia|].
  intros Hall. apply List.Forall_cons_iff in Hall as [Ho Hall]. rewrite T2 by done. by apply T1.
Qed.
End steps.

Lemma fast_none (n : nat) : fast_blocks (replicate n []) = [].
Proof. unfold fast_blocks. generalize 0%nat as o. assert (H : forall o, concat (imap (fun i (l : list Z) => map (fun a => (a, Z.of_nat (o + i) + 1)) l) (replicate n [])) = []); [|intros _; exact (H 0%nat)].
  induction n as [|n IH]; intros o; [done|]. cbn [replicate]. rewrite imap_cons. cbn [concat map app]. rewrite <- (IH (S o)). f_equal. apply imap_ext. intros i l _. cbn. apply map_ext. intros a. do 2 f_equal. lia.
Qed.

(** An empty pool. *)
Lemma empty_rep (k : nat) seed : 9 <= Z.of_nat k -> rep (Pool [] 0 0 0 0 no_next (replicate k empty_head) seed) [] (replicate k []) [].
Proof.
  intros Hk9. split; cbn [mem free_list huge_next huge_size fragment_size length]; rewrite ?length_replicate; unfold free_blocks; rewrite ?fast_none; try done; try lia.
  - constructor.
  - intros x Hx. by apply elem_of_nil in Hx.
  - intros a w Hx. by apply elem_of_nil in Hx.
  - unfold free_list_len. cbn [free_list]. by rewrite length_replicate.
  - intros i l hd Hi Hhd. apply lookup_replicate in Hi as [-> _]. apply lookup_replicate in Hhd as [-> _]. done.
  - constructor.
  - intros x Hx. by apply elem_of_nil in Hx.
  - intros k' Hk. unfold chain. cbn [seg next_of huge_next]. unfold skip_list_level_max in Hk. assert (k' = 0 \/ k' = 1 \/ k' = 2 \/ k' = 3 \/ k' = 4 \/ k' = 5 \/ k' = 6 \/ k' = 7) as Hc by lia. by repeat destruct Hc as [-> | Hc]; try subst k'.
  - unfold free_words, free_blocks. rewrite fast_none. cbn. lia.
Qed.

Lemma align_to_words m : 0 <= m < 2 ^ 62 -> align_to m = 4 * words_of m.
Proof.
  intros Hm. unfold align_to, align_size, words_of. replace (m + 4 - 1) with (m + 3) by lia. apply Z.bits_inj'. intros k Hk. rewrite Z.land_spec, testbit_not64 by done. replace (4 * ((m + 3) / 4)) with (Z.shiftl (Z.shiftr (m + 3) 2) 2) by (rewrite Z.shiftl_mul_pow2, Z.shiftr_div_pow2 by lia; change (2 ^ 2) with 4; lia).
  rewrite Z.shiftl_spec by done. destruct (Z.lt_ge_cases k 2) as [Hk2|Hk2].
  - rewrite (Z.testbit_neg_r _ (k - 2)) by lia. assert (k = 0 \/ k = 1) as [-> | ->] by lia; change (4 - 1) with 3; cbn; by rewrite ?andb_false_r.
  - rewrite Z.shiftr_spec by lia. replace (k - 2 + 2) with k by lia. change (4 - 1) with 3. rewrite (testbit_high 3 k 2) by lia. cbn [negb]. rewrite andb_true_r. destruct (Z.ltb_spec k 64) as [|Hge]; [by rewrite andb_true_r|]. rewrite (testbit_high (m + 3) k 64) by lia. done.
Qed.

Lemma make_rep m : 36 <= m < 2 ^ 62 -> exists p, make m = Ok p /\ rep p [] (replicate (length (free_list p)) []) [] /\ mem p = [].
Proof.
  intros Hm. unfold make. unfold align_size at 1. unfold sizeof_huge_link_t. rewrite (proj2 (Z.leb_le 4 m)), (proj2 (Z.leb_le 36 m)) by lia. cbn [assert_ rbind]. eexists. split; [done|]. split; [|done]. cbn [free_list]. rewrite length_replicate. apply empty_rep.
  rewrite align_to_words by lia. unfold align_size. rewrite (Z.mul_comm 4), Z.div_mul by lia. pose proof (words_of_range m). lia.
Qed.

(** A legal program runs, from a new pool, in a view of the heap. *)
Lemma pool_run_ok rand_r junk m os : 36 <= m < 2 ^ 62 -> legal [] 0 os = true -> exists p0 p hs h out, make m = Ok p0 /\ exec_all rand_r junk os p0 [] = Ok (p, hs, out) /\ heap_steps [] os h out /\ view p hs h /\
  N p <= zsum (map want os) /\ 0 <= surplus p hs /\ (Forall (fun o => want o <= free_list_len p0) os -> surplus p hs = 0).
Proof.
  intros Hm Hl. destruct (make_rep m Hm) as (p0 & E0 & Hr & Hm0). assert (Hs0 : surplus p0 [] = 0). { rewrite <- (slack_surplus _ [] _ _ Hr). unfold slack. pose proof (r_frag _ _ _ _ Hr) as Hf. revert E0 Hf. unfold make. repeat (destruct (assert_ _); [cbn [rbind]|done..]). intros [= <-]. unfold free_words, free_blocks. by rewrite fast_none. }
  destruct (sim_steps rand_r junk os p0 [] [] 0) as (p & hs & h & out & E & Hs & Hv & HN & HF & HS & HT); [split; [by eexists _, _|constructor]|done|by rewrite Hm0|].
  exists p0, p, hs, h, out. rewrite Hm0, Hs0 in *. split; [done|]. split; [done|]. split; [done|]. split; [done|]. split; [exact HN|]. split; [done|exact HT].
Qed.

Lemma block_range p hs h i pos len : view p hs h -> hs !! i = Some (pos, len) -> pos = 4 * (pos / 4) /\ 0 <= pos / 4 /\ 0 < words_of len /\ pos / 4 + words_of len <= N p.
Proof.
  intros [(fast & huge & Hr) Hh] Hi. destruct (Forall2_lookup_l _ _ _ _ _ Hh Hi) as (ws & _ & Hp & _). split; [exact Hp|]. apply (live_block_range p _ _ _ (pos / 4) (words_of len) Hr). change (pos / 4, words_of len) with (block (pos, len)). apply list_elem_of_In, in_map, list_elem_of_In. by eapply list_elem_of_lookup_2.
Qed.

Lemma blocks_apart p hs h i j pos len pos' len' : view p hs h -> i <> j -> hs !! i = Some (pos, len) -> hs !! j = Some (pos', len') -> pos + 4 * words_of len <= pos' \/ pos' + 4 * words_of len' <= pos.
Proof.
  intros Hv Hij Hi Hj. destruct (block_range p hs h i pos len Hv Hi) as (E & ? & Hw & _). destruct (block_range p hs h j pos' len' Hv Hj) as (E' & ? & Hw' & _). destruct Hv as [(fast & huge & Hr) _]. pose proof (r_cells _ _ _ _ Hr) as Hnd. rewrite cells_app in Hnd. apply list.NoDup_app in Hnd as (Hnd & _ & _).
  rewrite (handle_perm hs i _ Hi) in Hnd. change (block (pos, len)) with (pos / 4, words_of len) in Hnd. rewrite cells_cons in Hnd. apply list.NoDup_app in Hnd as (_ & Hd & _). assert (Hin : (pos' / 4, words_of len') ∈ map block (delete i hs)).
  { change (pos' / 4, words_of len') with (block (pos', len')). apply list_elem_of_In, in_map, list_elem_of_In. destruct (decide (j < i)%nat).
    - apply (list_elem_of_lookup_2 _ j). by rewrite list_lookup_delete_lt.
    - apply (list_elem_of_lookup_2 _ (j - 1)). rewrite list_lookup_delete_ge by lia. by replace (S (j - 1)) with j by lia. }
  destruct (Z.le_gt_cases (pos / 4 + words_of len) (pos' / 4)); [lia|]. destruct (Z.le_gt_cases (pos' / 4 + words_of len') (pos / 4)); [lia|]. exfalso. apply (Hd (Z.max (pos / 4) (pos' / 4))); [apply elem_of_seqZ; lia|]. apply elem_of_cells. eexists _, _. split; [exact Hin|lia].
Qed.

Lemma align_up_eq len : align_up len = 4 * words_of len.
Proof. apply align_up_words, words_of_range. Qed.

(** ** The theorems *)

(** C14: the pool is a heap of separate blocks.  Whatever a caller does with a new pool, as
    long as it names blocks it has and asks for no more than 2^32 bytes in all, every call
    of [alloc], [sfree] and [alloc3] returns, what is read from a block is what was written
    to it last - before or after it was resized - and in the end every block still holds
    its words where its handle says. *)
Theorem mempool_refines_heap rand_r junk m os : 36 <= m < 2 ^ 62 -> legal [] 0 os = true -> exists p0 p hs h out,
  make m = Ok p0 /\ exec_all rand_r junk os p0 [] = Ok (p, hs, out) /\ heap_steps [] os h out /\ Forall2 (holds p) hs h.
Proof.
  intros Hm Hl. destruct (pool_run_ok rand_r junk m os Hm Hl) as (p0 & p & hs & h & out & E0 & E & Hs & [_ Hh] & _). by exists p0, p, hs, h, out.
Qed.

(** Small blocks, large blocks, a block that moves, and one that is split. *)
Definition busy : list op := [Alloc 80; Alloc 10; Write 1 3 7; Write 0 0 5; Alloc 8; Realloc 2 100; Read 2 3; Alloc 44; Write 0 10 9; Free 2; Read 2 3; Alloc 12; Read 1 10].

Lemma mempool_refines_heap_witness : legal [] 0 busy = true /\ exists p0 p hs h out, make 36 = Ok p0 /\ exec_all (fun s => (s * 5, s + 1)) (fun _ => 0) busy p0 [] = Ok (p, hs, out) /\ heap_steps [] busy h out /\ Forall2 (holds p) hs h.
Proof. split; [by vm_compute|]. apply (mempool_refines_heap (fun s => (s * 5, s + 1)) (fun _ => 0) 36 busy); [lia|by vm_compute]. Defined.

(** C15: blocks never overlap.  After any legal calls every block of the caller starts at a
    multiple of four and lies in the array, two blocks have no byte in common - lengths
    rounded up -, and the array has at most as many bytes as were asked for. *)
Theorem mempool_blocks_apart rand_r junk m os : 36 <= m < 2 ^ 62 -> legal [] 0 os = true -> exists p0 p hs out, make m = Ok p0 /\ exec_all rand_r junk os p0 [] = Ok (p, hs, out) /\ n p <= 4 * zsum (map want os) /\
  (forall i a len, hs !! i = Some (a, len) -> a mod 4 = 0 /\ 0 <= a /\ a + align_up len <= n p) /\
  (forall i j a len b len', i <> j -> hs !! i = Some (a, len) -> hs !! j = Some (b, len') -> a + align_up len <= b \/ b + align_up len' <= a).
Proof.
  intros Hm Hl. destruct (pool_run_ok rand_r junk m os Hm Hl) as (p0 & p & hs & h & out & E0 & E & _ & Hv & HN & _). exists p0, p, hs, out. split; [done|]. split; [done|]. split; [unfold n, align_size; lia|]. split.
  - intros i a len Hi. destruct (block_range p hs h i a len Hv Hi) as (Ep & ? & ? & ?). rewrite align_up_eq. unfold n, align_size. split; [rewrite Ep, Z.mul_comm; by apply Z.mod_mul|lia].
  - intros i j a len b len' Hij Hi Hj. rewrite !align_up_eq. by apply (blocks_apart p hs h i j).
Qed.

Lemma mempool_blocks_apart_witness : exists p0 p hs out, make 36 = Ok p0 /\ exec_all (fun s => (s * 5, s + 1)) (fun _ => 0) busy p0 [] = Ok (p, hs, out) /\ n p <= 4 * zsum (map want busy) /\
  (forall i a len, hs !! i = Some (a, len) -> a mod 4 = 0 /\ 0 <= a /\ a + align_up len <= n p) /\
  (forall i j a len b len', i <> j -> hs !! i = Some (a, len) -> hs !! j = Some (b, len') -> a + align_up len <= b \/ b + align_up len' <= a).
Proof. apply (mempool_blocks_apart (fun s => (s * 5, s + 1)) (fun _ => 0) 36 busy); [lia|by vm_compute]. Defined.

(** C17: no byte is lost.  After any legal calls the bytes of the array that are in no block
    of the caller are all counted in [frag_size], so the check in [alloc] never fails; and
    [frag_size] counts nothing else as long as only small blocks were asked for. *)
Theorem mempool_accounts rand_r junk m os : 36 <= m < 2 ^ 62 -> legal [] 0 os = true -> exists p0 p hs out, make m = Ok p0 /\ exec_all rand_r junk os p0 [] = Ok (p, hs, out) /\
  n p - zsum (map (fun x => align_up (snd x)) hs) <= frag_size p /\
  (Forall (fun o => want o <= free_list_len p0) os -> frag_size p = n p - zsum (map (fun x => align_up (snd x)) hs)).
Proof.
  intros Hm Hl. destruct (pool_run_ok rand_r junk m os Hm Hl) as (p0 & p & hs & h & out & E0 & E & _ & _ & _ & HS & HT). exists p0, p, hs, out. split; [done|]. split; [done|].
  assert (Ez : zsum (map (fun x => align_up (snd x)) hs) = 4 * zsum (sizes hs)). { clear. unfold sizes. induction hs as [|x hs IH]; [done|]. cbn [map]. rewrite !zsum_cons, align_up_eq. lia. }
  rewrite Ez. unfold surplus in *. split; [lia|]. intros Ho. specialize (HT Ho). lia.
Qed.

Definition small_ones : list op := [Alloc 30; Alloc 10; Alloc 36; Free 2; Alloc 30; Free 1; Realloc 0 5].

Lemma mempool_accounts_witness : Forall (fun o => want o <= 9) small_ones /\ exists p0 p hs out, make 36 = Ok p0 /\ exec_all (fun s => (s * 5, s + 1)) (fun _ => 0) small_ones p0 [] = Ok (p, hs, out) /\
  n p - zsum (map (fun x => align_up (snd x)) hs) <= frag_size p /\
  (Forall (fun o => want o <= free_list_len p0) small_ones -> frag_size p = n p - zsum (map (fun x => align_up (snd x)) hs)).
Proof.
  split; [repeat constructor; vm_compute; done|]. apply (mempool_accounts (fun s => (s * 5, s + 1)) (fun _ => 0) 36 small_ones); [lia|by vm_compute].
Defined.

(** After a large block was split the rest of it is counted twice: 40 bytes are free here,
    and [frag_size] is 80. *)
Lemma mempool_split_counts : exists p0 p hs, make 36 = Ok p0 /\ exec_all (fun s => (1, s)) (fun _ => 0) [Alloc 80; Alloc 4; Free 1; Alloc 40] p0 [] = Ok (p, hs, []) /\
  n p - zsum (map (fun x => align_up (snd x)) hs) = 40 /\ frag_size p = 80 /\ get_huge_stat p = (1, 80).
Proof. eexists _, _, _. split; [by vm_compute|]. split; [by vm_compute|]. by vm_compute. Qed.

(** C18: a large block is the smallest that fits.  When [alloc] is asked for more than the
    lists of small blocks hold, it takes the smallest free block that is large enough, and
    the array becomes no longer; only when all free blocks are too small is the new block
    put at the end. *)
Theorem mempool_best_fit rand_r junk p live fast huge w req : rep p live fast huge -> free_list_len p < w -> 4 * (w - 1) < req <= 4 * w -> n p + 4 * w < 2 ^ 32 -> exists a p',
  alloc rand_r junk p req = Ok (4 * a, p') /\
  ((Forall (fun x => words x < w) huge /\ 4 * a = n p /\ n p' = n p + 4 * w) \/
   (exists b, b ∈ huge /\ a = addr b /\ w <= words b /\ Forall (fun x => w <= words x -> words b <= words x) huge /\ n p' <= n p)).
Proof.
  intros Hr Hw Hq Hs. pose proof (r_enough _ _ _ _ Hr) as HL. destruct (alloc_huge_ok junk rand_r p live fast huge w Hr Hw) as (a & p' & E & _ & HB); [unfold n, align_size in Hs; lia|]. exists a, p'. split.
  - unfold alloc. rewrite (proj2 (Z.ltb_lt 0 req)) by lia. cbn [assert_ rbind]. rewrite (align_up_words req w Hq). cbv zeta. rewrite (proj2 (Z.leb_gt _ _)) by (unfold align_size; lia). exact E.
  - unfold n, align_size. destruct HB as [(H1 & H2 & H3)|(b & H1 & H2 & H3 & H4 & H5)]; [left; split; [done|lia]|right; exists b; do 4 (split; [done|]); lia].
Qed.

(** Two free blocks, of 12 and of 20 words. *)
Definition two_free : MemPool := match exec_all (fun s => (1, s)) (fun _ => 0) [Alloc 48; Alloc 4; Alloc 80; Alloc 4; Free 3; Free 1] (Pool [] 0 0 0 0 no_next (replicate 9 empty_head) 1) [] with Ok (p, _, _) => p | _ => Pool [] 0 0 0 0 no_next [] 1 end.

Lemma two_free_rep : rep two_free [(12, 1); (33, 1)] (replicate 9 []) [Node 0 12 1; Node 13 20 1].
Proof.
  split; try by vm_compute.
  - apply (bool_decide_unpack _). by vm_compute.
  - assert (Hf : Forall (fun x => 0 <= x < Z.of_nat (length (mem two_free))) (cells ([(12, 1); (33, 1)] ++ free_blocks (replicate 9 []) [Node 0 12 1; Node 13 20 1]))) by (apply (bool_decide_unpack _); by vm_compute).
    intros x Hx. rewrite List.Forall_forall in Hf. by apply Hf, list_elem_of_In.
  - intros a w [[= -> ->]|[[= -> ->]|Hx]%elem_of_cons]%elem_of_cons; [lia|lia|by apply elem_of_nil in Hx].
  - intros i l hd Hi Hhd. apply lookup_replicate in Hi as [-> Hi]. change (free_list two_free) with (replicate 9 empty_head) in Hhd. by apply lookup_replicate in Hhd as [-> _].
  - repeat constructor; by vm_compute.
  - intros x [->|[->|Hx]%elem_of_cons]%elem_of_cons; [by vm_compute|by vm_compute|by apply elem_of_nil in Hx].
  - intros k Hk. unfold skip_list_level_max in Hk. assert (k = 0 \/ k = 1 \/ k = 2 \/ k = 3 \/ k = 4 \/ k = 5 \/ k = 6 \/ k = 7) as Hc by lia. by repeat destruct Hc as [-> | Hc]; try subst k.
Qed.

Lemma mempool_best_fit_witness : free_list_len two_free < 13 /\ exists a p', alloc (fun s => (1, s)) (fun _ => 0) two_free 50 = Ok (4 * a, p') /\
  ((Forall (fun x => words x < 13) [Node 0 12 1; Node 13 20 1] /\ 4 * a = n two_free /\ n p' = n two_free + 4 * 13) \/
   (exists b, b ∈ [Node 0 12 1; Node 13 20 1] /\ a = addr b /\ 13 <= words b /\ Forall (fun x => 13 <= words x -> words b <= words x) [Node 0 12 1; Node 13 20 1] /\ n p' <= n two_free)).
Proof. split; [by vm_compute|]. apply (mempool_best_fit (fun s => (1, s)) (fun _ => 0) two_free _ _ _ 13 50 two_free_rep); [by vm_compute|lia|by vm_compute]. Defined.

(** C16: every operation keeps the pool well formed.  When each word of the array belongs to
    exactly one block - of the caller, of a list of small blocks or of the skip list - and
    the free blocks are linked by their size, then [alloc], [sfree], [alloc3] and the
    accesses to words run without an error and it is so again. *)
Theorem mempool_well_formed rand_r junk p hs o ls : well_formed p hs -> shape (sizes hs) o = Some ls -> n p + 4 * want o < 2 ^ 32 -> exists p' hs' out,
  exec rand_r junk o p hs = Ok (p', hs', out) /\ well_formed p' hs' /\ sizes hs' = ls.
Proof.
  intros [Hal (fast & huge & Hr)] Hs Hb. assert (Hv : view p hs (map (fun x => contents p (fst x / 4) (words_of (snd x))) hs)).
  { split; [by eexists _, _|]. change (map ?f hs) with (f <$> hs). apply Forall2_fmap_r, Forall2_same_length_lookup. split; [done|]. intros i x y Hx Hy. rewrite Hx in Hy. injection Hy as <-. destruct x as [pos len]. cbn [fst snd].
    assert (Hl : 0 < words_of len). { apply (r_live _ _ _ _ Hr (pos / 4)). change (pos / 4, words_of len) with (block (pos, len)). apply list_elem_of_In, in_map, list_elem_of_In. by eapply list_elem_of_lookup_2. }
    rewrite List.Forall_forall in Hal. specialize (Hal (pos, len) (proj1 (list_elem_of_In _ _) (list_elem_of_lookup_2 _ _ _ Hx))). cbn [fst] in Hal. assert (Ep : pos = 4 * (pos / 4)) by (pose proof (Z.div_mod pos 4 ltac:(lia)); lia).
    assert (0 < len) by (pose proof (words_of_range len); lia). rewrite Ep at 1. by apply contents_hold. }
  destruct (sim_step rand_r junk o p hs _ ls Hv Hs) as (p' & hs' & h' & out & E & _ & [Hr' Hh'] & Hls & _); [unfold n, align_size in Hb; lia|]. exists p', hs', out. split; [done|]. split; [|done]. split; [|done].
  apply List.Forall_forall. intros x Hx. apply list_elem_of_In, list_elem_of_lookup in Hx as [i Hi]. destruct (Forall2_lookup_l _ _ _ _ _ Hh' Hi) as (ws & _ & Hp & _). rewrite Hp, Z.mul_comm. by apply Z.mod_mul.
Qed.

Lemma mempool_well_formed_witness : well_formed two_free [(48, 4); (132, 4)] /\ exists p' hs' out,
  exec (fun s => (1, s)) (fun _ => 0) (Realloc 0 44) two_free [(48, 4); (132, 4)] = Ok (p', hs', out) /\ well_formed p' hs' /\ sizes hs' = [11; 1].
Proof.
  assert (Hw : well_formed two_free [(48, 4); (132, 4)]) by (split; [repeat constructor|eexists _, _; exact two_free_rep]). split; [exact Hw|]. apply (mempool_well_formed (fun s => (1, s)) (fun _ => 0) two_free _ (Realloc 0 44) _ Hw); by vm_compute.
Defined.
End MemPoolProps.
