(* ===== verification/DenseDfa.v ===== *)
(** * Automata with bitmaps

    [fsa/dense_dfa.hpp]: a state has two bitmaps over the characters and up to two targets
    that many of its moves share; the other targets lie in a memory pool, in the order of
    their characters.

    [StateID] has 32 bits; the number of characters is a multiple of 64, the parameter
    [BlockN] being the number of words in a bitmap. *)
From stdpp Require Import sorting.
From S2P Require Import Prelude Bits MemPool.

Module DenseDfa.

Definition nil_state : Z := 2 ^ 32 - 1.
Definition max_state : Z := 2 ^ 32 - 2.
Definition initial_state : Z := 0.
Definition PoolAlign : Z := 4.

Section sigma.
Context (BlockN : Z).
Definition sigma : Z := 64 * BlockN.

(** ** [static_bitmap] *)

Definition no_bits : list Z := replicate (Z.to_nat BlockN) 0.
Definition is1 (bm : list Z) (n : Z) : res bool := let* _ := assert_ ((0 <=? n) && (n <? sigma)) in terark_bit_test bm n.
Definition set1 (bm : list Z) (n : Z) : res (list Z) := let* _ := assert_ ((0 <=? n) && (n <? sigma)) in terark_bit_set1 bm n.
Definition set0 (bm : list Z) (n : Z) : res (list Z) := let* _ := assert_ ((0 <=? n) && (n <? sigma)) in terark_bit_set0 bm n.
Definition is_all0 (bm : list Z) : bool := forallb (fun w => w =? 0) bm.
Definition popcnt (bm : list Z) : Z := zsum (map fast_popcount bm).

(** ** [DenseState] *)

Record DenseState := State {
  is_pzip_ : bool;
  is_term_ : bool;
  is_free_ : bool;
  dense_target1 : Z;
  dense_target2 : Z;
  m_pos : Z;
  dense : list Z;
  sparse : list Z
}.

Definition new_DenseState : DenseState := State false false false nil_state nil_state nil_state no_bits no_bits.

Definition set_target1 (s : DenseState) (t : Z) : DenseState := State (is_pzip_ s) (is_term_ s) (is_free_ s) t (dense_target2 s) (m_pos s) (dense s) (sparse s).
Definition set_target2 (s : DenseState) (t : Z) : DenseState := State (is_pzip_ s) (is_term_ s) (is_free_ s) (dense_target1 s) t (m_pos s) (dense s) (sparse s).
Definition set_m_pos (s : DenseState) (x : Z) : DenseState := State (is_pzip_ s) (is_term_ s) (is_free_ s) (dense_target1 s) (dense_target2 s) x (dense s) (sparse s).
Definition set_bits (s : DenseState) (d x : list Z) : DenseState := State (is_pzip_ s) (is_term_ s) (is_free_ s) (dense_target1 s) (dense_target2 s) (m_pos s) d x.
Definition set_term (s : DenseState) (b : bool) : DenseState := State (is_pzip_ s) b (is_free_ s) (dense_target1 s) (dense_target2 s) (m_pos s) (dense s) (sparse s).
Definition set_free (s : DenseState) : DenseState := State (is_pzip_ s) (is_term_ s) true (dense_target1 s) (dense_target2 s) (m_pos s) (dense s) (sparse s).

Definition setpos (s : DenseState) (x : Z) : res DenseState := let* _ := assert_ (x / PoolAlign <? max_state) in Ok (set_m_pos s (u32 (x / PoolAlign))).
Definition getpos (s : DenseState) : Z := m_pos s * PoolAlign.

(** The words of both bitmaps, side by side. *)
Definition blocks (s : DenseState) : list (Z * Z) := zip (dense s) (sparse s).

Definition num_children (s : DenseState) : res Z :=
  let n := zsum (map (fun '(d, x) => fast_popcount (Z.lor d x)) (blocks s)) in
  let* _ := assert_ (n <=? sigma) in Ok n.
Definition only_sparse : Z * Z -> Z := fun '(d, x) => Z.land (Z.lxor d x) x.
Definition num_sparse (s : DenseState) : Z := zsum (map (fun b => fast_popcount (only_sparse b)) (blocks s)).
Definition idx_sparse (s : DenseState) (c : Z) : res Z :=
  let* _ := assert_ ((0 <=? c) && (c <? sigma)) in
  let n := c / 64 in
  let idx := zsum (map (fun b => fast_popcount (only_sparse b)) (take (Z.to_nat n) (blocks s))) in
  let shift := c mod 64 in
  if negb (shift =? 0) then let* b := rd (blocks s) n in Ok (idx + fast_popcount_trail (only_sparse b) shift) else Ok idx.
Definition num_dense1 (s : DenseState) : Z := zsum (map (fun '(d, x) => fast_popcount (Z.land (Z.lxor d x) d)) (blocks s)).
Definition num_dense2 (s : DenseState) : Z := zsum (map (fun '(d, x) => fast_popcount (Z.land x d)) (blocks s)).

(** ** [DenseDFA] *)

Record DenseDFA := Dense {
  pool : MemPool.MemPool;
  states : list DenseState;
  firstFreeState : Z;
  numFreeStates : Z;
  transition_num : Z;
  m_zpath_states : Z
}.

Definition set_pool (D : DenseDFA) (p : MemPool.MemPool) : DenseDFA := Dense p (states D) (firstFreeState D) (numFreeStates D) (transition_num D) (m_zpath_states D).
Definition set_states (D : DenseDFA) (l : list DenseState) : DenseDFA := Dense (pool D) l (firstFreeState D) (numFreeStates D) (transition_num D) (m_zpath_states D).
Definition set_free_list (D : DenseDFA) (f k : Z) : DenseDFA := Dense (pool D) (states D) f k (transition_num D) (m_zpath_states D).
Definition add_num (D : DenseDFA) (k : Z) : DenseDFA := Dense (pool D) (states D) (firstFreeState D) (numFreeStates D) (transition_num D + k) (m_zpath_states D).

Definition size (D : DenseDFA) : Z := Z.of_nat (length (states D)).
Definition state (D : DenseDFA) (s : Z) : res DenseState := let* _ := assert_ (s <? size D) in rd (states D) s.
Definition put_state (D : DenseDFA) (s : Z) (x : DenseState) : res DenseDFA := let* l := wr (states D) s x in Ok (set_states D l).

(** [init()] after [states] is emptied. *)
Definition init (p : MemPool.MemPool) : DenseDFA := Dense p [new_DenseState] nil_state 0 0 0.
Definition make : res DenseDFA := let* p := MemPool.make (PoolAlign * sigma) in Ok (init p).
Definition clear (D : DenseDFA) : DenseDFA := init (MemPool.clear (pool D)).
Definition erase_all (D : DenseDFA) : DenseDFA := init (MemPool.erase_all (pool D)).

Definition total_states (D : DenseDFA) : Z := size D.
Definition total_transitions (D : DenseDFA) : Z := transition_num D.
Definition num_free_states (D : DenseDFA) : Z := numFreeStates D.
Definition num_used_states (D : DenseDFA) : Z := size D - numFreeStates D.

Definition is_free (D : DenseDFA) (s : Z) : res bool := let* x := state D s in Ok (is_free_ x).
Definition is_term (D : DenseDFA) (s : Z) : res bool := let* x := state D s in Ok (is_term_ x).
Definition set_term_bit (D : DenseDFA) (s : Z) : res DenseDFA := let* x := state D s in put_state D s (set_term x true).
Definition clear_term_bit (D : DenseDFA) (s : Z) : res DenseDFA := let* x := state D s in put_state D s (set_term x false).
Definition has_children (D : DenseDFA) (s : Z) : res bool := let* x := state D s in Ok (negb (is_all0 (dense x)) || negb (is_all0 (sparse x))).
Definition more_than_one_child (D : DenseDFA) (s : Z) : res bool := let* x := state D s in Ok (1 <? popcnt (dense x) + popcnt (sparse x)).

Definition new_state (D : DenseDFA) : res (Z * DenseDFA) :=
  if nil_state =? firstFreeState D then
    let* _ := assert_ (numFreeStates D =? 0) in
    let s := size D in
    if max_state <=? s then Throw runtime_error else Ok (s, set_states D (states D ++ [new_DenseState]))
  else
    let* _ := assert_ (0 <? numFreeStates D) in
    let s := firstFreeState D in
    let* x := rd (states D) s in
    let* D := put_state (set_free_list D (dense_target1 x) (numFreeStates D - 1)) s new_DenseState in Ok (s, D).

Definition min_free_state (D : DenseDFA) : res Z :=
  let* (_, m) := loop (S (length (states D))) (fun '(s, s_min) =>
    if nil_state =? s then Ok (inr (s, s_min)) else
    let* x := rd (states D) s in Ok (inl (dense_target1 x, Z.min s s_min))) (firstFreeState D, u32 (size D - 1)) in Ok m.

(** [trans[i]] *)
Definition trans_get (p : MemPool.MemPool) (pos i : Z) : res Z := let* _ := assert_ (pos <? MemPool.n p) in MemPool.at_ p (pos + 4 * i).
Definition trans_set (p : MemPool.MemPool) (pos i v : Z) : res MemPool.MemPool := let* _ := assert_ (pos <? MemPool.n p) in MemPool.set_at p (pos + 4 * i) v.

Definition del_all_move (D : DenseDFA) (s : Z) (rand_r : Z -> Z * Z) : res DenseDFA :=
  let* _ := assert_ (0 =? m_zpath_states D) in
  let* x := state D s in
  let* _ := assert_ (negb (is_pzip_ x)) in
  let D := if negb (nil_state =? dense_target1 x) then add_num D (- popcnt (dense x)) else D in
  let* D := if negb (nil_state =? m_pos x) then
      let n_sparse := num_sparse x in
      let* _ := assert_ (0 <? n_sparse) in
      let* p := MemPool.sfree rand_r (pool D) (getpos x) (4 * n_sparse) in
      Ok (add_num (set_pool D p) (- n_sparse))
    else Ok D in
  put_state D s (State (is_pzip_ x) (is_term_ x) (is_free_ x) nil_state nil_state nil_state no_bits no_bits).

(** The function begins with [assert(0)]. *)
Definition del_state (D : DenseDFA) (s : Z) (rand_r : Z -> Z * Z) : res DenseDFA :=
  let* _ := assert_ false in
  let* _ := assert_ (0 =? m_zpath_states D) in
  let* x := state D s in
  let* _ := assert_ (negb (s =? initial_state)) in
  let* _ := assert_ (negb (is_pzip_ x)) in
  let* D := del_all_move D s rand_r in
  let* x := rd (states D) s in
  let* D := put_state D s (set_free (set_target1 x (firstFreeState D))) in
  Ok (set_free_list D s (numFreeStates D + 1)).

Definition set_single_child (D : DenseDFA) (parent child : Z) : res DenseDFA :=
  let* _ := assert_ (0 =? m_zpath_states D) in
  let* x := state D parent in
  let* _ := assert_ (child <? size D) in
  let* _ := assert_ ((popcnt (dense x) =? 1) && (popcnt (sparse x) =? 0) && (dense_target2 x =? nil_state)) in
  put_state D parent (set_target1 x child).
Definition get_single_child (D : DenseDFA) (parent : Z) : res Z :=
  let* _ := assert_ (0 =? m_zpath_states D) in
  let* x := state D parent in
  let* _ := assert_ ((popcnt (dense x) =? 1) && (popcnt (sparse x) =? 0) && (dense_target2 x =? nil_state)) in Ok (dense_target1 x).

Definition state_move_of (D : DenseDFA) (s : DenseState) (ch : Z) : res Z :=
  let* d := is1 (dense s) ch in
  let* x := is1 (sparse s) ch in
  if d then Ok (if x then dense_target2 s else dense_target1 s) else
  if x then
    let* idx := idx_sparse s ch in
    let* _ := assert_ (idx <? sigma) in trans_get (pool D) (getpos s) idx
  else Ok nil_state.
Definition state_move (D : DenseDFA) (curr ch : Z) : res Z :=
  let* s := state D curr in let* _ := assert_ (negb (is_free_ s)) in state_move_of D s ch.

(** The moves in the order in which [for_each_move] visits them. *)
Definition for_each_move (D : DenseDFA) (curr : Z) : res (list (Z * Z)) :=
  let* s := state D curr in
  let* _ := assert_ (negb (is_free_ s)) in
  let n_sparse := num_sparse s in
  let* _ := assert_ (if negb (nil_state =? m_pos s) then (0 <? n_sparse) || is_pzip_ s else (0 =? n_sparse) && negb (is_pzip_ s)) in
  let* (pos, out) := for_ 0 BlockN (fun i '(pos, out) =>
    let* d := rd (dense s) i in
    let* x := rd (sparse s) i in
    let* (_, ch, pos, out) := loop 65 (fun '(bm, ch, pos, out) =>
      if bm =? 0 then Ok (inr (bm, ch, pos, out)) else
      let* ctz := fast_ctz bm in
      let ch := ch + ctz in
      let* (target, pos) := if negb (Z.land d (shl64 1 (Z.land ch 63)) =? 0) then
          Ok (if negb (Z.land x (shl64 1 (Z.land ch 63)) =? 0) then dense_target2 s else dense_target1 s, pos)
        else
          let* _ := assert_ (negb (nil_state =? m_pos s)) in
          let* _ := assert_ (pos <? n_sparse) in
          let* _ := assert_ (negb (Z.land x (shl64 1 (Z.land ch 63)) =? 0)) in
          let* t := trans_get (pool D) (getpos s) pos in Ok (t, pos + 1) in
      Ok (inl (Z.shiftr (Z.shiftr bm ctz) 1, ch + 1, pos, out ++ [(ch, target)]))) (Z.lor d x, 64 * i, pos, out) in
    let* _ := assert_ (ch <=? (i + 1) * 64) in Ok (pos, out)) (0, []) in
  let* _ := assert_ (pos =? n_sparse) in Ok out.

Definition resize_states (D : DenseDFA) (new_states_num : Z) : res DenseDFA :=
  if max_state <=? new_states_num then Throw logic_error else
  Ok (set_states D (take (Z.to_nat new_states_num) (states D) ++ replicate (Z.to_nat new_states_num - length (states D)) new_DenseState)).

(** ** Operations that may take memory *)

Section junk.
Context (rand_r : Z -> Z * Z) (junk : Z -> Z).

Definition clone_state (D : DenseDFA) (source : Z) : res (Z * DenseDFA) :=
  let* _ := assert_ (source <? size D) in
  let* (y, D) := new_state D in
  let* s := rd (states D) source in
  let* D := put_state D y s in
  let n_sparse := num_sparse s in
  let* D := if negb (n_sparse =? 0) then
      let* _ := assert_ (negb (nil_state =? m_pos s)) in
      let* (pos, p) := MemPool.alloc rand_r junk (pool D) (4 * n_sparse) in
      let* s' := setpos s pos in
      let* D := put_state (set_pool D p) y s' in
      let* _ := assert_ (getpos s <? MemPool.n p) in
      let* p := MemPool.copy_words p pos (getpos s) (4 * n_sparse) in Ok (set_pool D p)
    else Ok D in
  Ok (y, add_num D (n_sparse + popcnt (dense s))).

(** [for (i = a; i < b; ++i) trans[i-1] = trans[i]] *)
Definition copy_forward (p : MemPool.MemPool) (pos a b : Z) : res MemPool.MemPool :=
  for_ a b (fun i p => let* v := trans_get p pos i in trans_set p pos (i - 1) v) p.
(** [for (j = b; j > a; --j) trans[j] = trans[j-1]] *)
Definition copy_backward (p : MemPool.MemPool) (pos a b : Z) : res MemPool.MemPool :=
  for_ 0 (b - a) (fun i p => let j := b - i in let* v := trans_get p pos (j - 1) in trans_set p pos j v) p.

Definition del_move (D : DenseDFA) (s ch : Z) : res DenseDFA :=
  let* _ := assert_ (ch <? sigma) in
  let* x := state D s in
  let* _ := assert_ (negb (is_free_ x)) in
  let* d := is1 (dense x) ch in
  let* b := is1 (sparse x) ch in
  let* _ := assert_ (d || b) in
  if d then
    let* bits := set0 (dense x) ch in
    let x := set_bits x bits (sparse x) in
    let x := if is_all0 (dense x) then set_target2 (set_target1 x nil_state) nil_state else x in
    let* bits := set0 (sparse x) ch in
    let* D := put_state D s (set_bits x (dense x) bits) in Ok (add_num D (-1))
  else
    let* _ := assert_ b in
    if negb b then Ok D else
    let n_sparse := num_sparse x in
    let oldsize := 4 * n_sparse in
    let oldpos := getpos x in
    let* _ := assert_ (0 <? n_sparse) in
    let* (x', p) := if 1 =? n_sparse then
        let* p := MemPool.sfree rand_r (pool D) oldpos oldsize in Ok (set_m_pos x nil_state, p)
      else
        let* idx := idx_sparse x ch in
        let* p := copy_forward (pool D) oldpos (idx + 1) n_sparse in
        let* (newpos, p) := MemPool.alloc3 rand_r junk p oldpos oldsize (4 * (n_sparse - 1)) in
        let* x := setpos x newpos in Ok (x, p) in
    let* bits := set0 (sparse x') ch in
    let* D := put_state (set_pool D p) s (set_bits x' (dense x') bits) in Ok (add_num D (-1)).

(** The two targets that occur most often, with how often; [children] is sorted. *)
Fixpoint same_run (c : Z) (l : list Z) : nat := match l with a :: l => if a =? c then S (same_run c l) else O | [] => O end.
Definition max_freqs (children : list Z) : res (Z * Z * Z * Z) :=
  let* (_, f1, d1, f2, d2) := loop (S (length children)) (fun '(l, f1, d1, f2, d2) =>
    match l with
    | [] => Ok (inr (l, f1, d1, f2, d2))
    | c :: l' =>
        let k := 1 + Z.of_nat (same_run c l') in
        let rest := drop (same_run c l') l' in
        if f1 <? k then Ok (inl (rest, k, c, if f2 <? f1 then f1 else f2, if f2 <? f1 then d1 else d2))
        else if f2 <? k then Ok (inl (rest, f1, d1, k, c))
        else Ok (inl (rest, f1, d1, f2, d2))
    end) (children, 0, nil_state, 0, nil_state) in Ok (f1, d1, f2, d2).

Definition add_all_move (D : DenseDFA) (s : Z) (trans : list (Z * Z)) : res DenseDFA :=
  let n := Z.of_nat (length trans) in
  let* x := rd (states D) s in
  let* _ := assert_ (is_all0 (dense x) && is_all0 (sparse x) && negb (is_free_ x) && negb (is_pzip_ x)) in
  let* _ := assert_ ((nil_state =? m_pos x) && (nil_state =? dense_target1 x) && (nil_state =? dense_target2 x)) in
  let* _ := assert_ (n <=? sigma) in
  if 0 =? n then Ok D else
  let* (max_freq1, max_dest1, max_freq2, max_dest2) := max_freqs (merge_sort Z.le (map (fun ct => u32 (snd ct)) trans)) in
  let* _ := assert_ (max_freq1 + max_freq2 <=? n) in
  let n_sparse := n - max_freq1 - max_freq2 in
  let* (x, p, pos) := if 0 <? n_sparse then
      let* (pos, p) := MemPool.alloc rand_r junk (pool D) (MemPool.align_to (4 * n_sparse)) in
      let* x := setpos x pos in Ok (x, p, pos)
    else Ok (x, pool D, 0) in
  let* (d, b, p, j) := foldl (fun r ct => let* (d, b, p, j) := r in let '(ch, target) := ct in
    if target =? max_dest1 then let* d := set1 d ch in Ok (d, b, p, j)
    else if target =? max_dest2 then let* d := set1 d ch in let* b := set1 b ch in Ok (d, b, p, j)
    else let* b := set1 b ch in let* p := trans_set p pos j (u32 target) in Ok (d, b, p, j + 1)) (Ok (dense x, sparse x, p, 0)) trans in
  let x := set_target2 (set_target1 (set_bits x d b) max_dest1) max_dest2 in
  let* _ := assert_ (j =? n_sparse) in
  let* _ := assert_ ((num_sparse x =? n_sparse) && (num_dense1 x =? max_freq1) && (num_dense2 x =? max_freq2)) in
  let* D := put_state (set_pool D p) s x in Ok (add_num D n).

(** The end of [add_move_imp]: [ch] gets an entry in the pool. *)
Definition insert_sparse (D : DenseDFA) (source : Z) (s : DenseState) (target ch idx n_sparse : Z) : res DenseDFA :=
  let* (pos, p) := if nil_state =? m_pos s then
      let* _ := assert_ (0 =? n_sparse) in
      let* _ := assert_ (0 =? idx) in
      let* (pos, p) := MemPool.alloc rand_r junk (pool D) 4 in
      let* p := MemPool.set_at p pos (u32 target) in Ok (pos, p)
    else
      let* _ := assert_ (negb (0 =? n_sparse)) in
      let* (pos, p) := MemPool.alloc3 rand_r junk (pool D) (getpos s) (4 * n_sparse) (4 * (n_sparse + 1)) in
      let* p := copy_backward p pos idx n_sparse in
      let* p := trans_set p pos idx (u32 target) in Ok (pos, p) in
  let* bits := set1 (sparse s) ch in
  let* s := setpos (set_bits s (dense s) bits) pos in
  let* D := put_state (set_pool D p) source s in Ok (add_num D 1).

Definition add_move_imp (D : DenseDFA) (source target ch : Z) (OverwriteExisted : bool) : res (Z * DenseDFA) :=
  let* s := state D source in
  let* _ := assert_ (negb (is_free_ s)) in
  let* _ := assert_ (negb (is_pzip_ s)) in
  let* idx := idx_sparse s ch in
  let n_sparse := num_sparse s in
  let* d := is1 (dense s) ch in
  let* x := is1 (sparse s) ch in
  if d then
    let* _ := assert_ (negb (dense_target1 s =? nil_state)) in
    if negb x && (target =? dense_target1 s) then Ok (target, D) else
    if x && (target =? dense_target2 s) then Ok (target, D) else
    if OverwriteExisted then
      if x && (target =? dense_target1 s) then
        let* bits := set0 (sparse s) ch in
        let* D := put_state D source (set_bits s (dense s) bits) in Ok (dense_target2 s, D)
      else if negb x && (target =? dense_target2 s) then
        let* bits := set1 (sparse s) ch in
        let* D := put_state D source (set_bits s (dense s) bits) in Ok (dense_target1 s, D)
      else
        let old_target := if x then dense_target2 s else dense_target1 s in
        let* bits1 := set0 (dense s) ch in
        let* bits2 := set0 (sparse s) ch in
        let* D := insert_sparse (add_num D (-1)) source (set_bits s bits1 bits2) target ch idx n_sparse in Ok (old_target, D)
    else Ok (dense_target1 s, D)
  else if (target =? dense_target1 s) || (nil_state =? dense_target1 s) || (target =? dense_target2 s) || (nil_state =? dense_target2 s) then
    if x then
      let* _ := assert_ (0 <? n_sparse) in
      let* old_target := trans_get (pool D) (getpos s) idx in
      let* _ := assert_ (negb (old_target =? target)) in
      if OverwriteExisted then
        let* (s, p) := if 1 =? n_sparse then
            let* p := MemPool.sfree rand_r (pool D) (getpos s) (4 * n_sparse) in Ok (set_m_pos s nil_state, p)
          else
            let* p := copy_forward (pool D) (getpos s) (idx + 1) n_sparse in
            let* (newpos, p) := MemPool.alloc3 rand_r junk p (getpos s) (4 * n_sparse) (4 * (n_sparse - 1)) in
            let* s := setpos s newpos in Ok (s, p) in
        let* s := if target =? dense_target1 s then let* bits := set0 (sparse s) ch in Ok (set_bits s (dense s) bits)
          else if nil_state =? dense_target1 s then let* bits := set0 (sparse s) ch in Ok (set_target1 (set_bits s (dense s) bits) (u32 target))
          else if nil_state =? dense_target2 s then Ok (set_target2 s (u32 target)) else Ok s in
        let* bits := set1 (dense s) ch in
        let* D := put_state (set_pool D p) source (set_bits s bits (sparse s)) in Ok (old_target, D)
      else Ok (old_target, D)
    else
      let* bits := set1 (dense s) ch in
      let s := set_bits s bits (sparse s) in
      let* s := if target =? dense_target1 s then Ok s
        else if nil_state =? dense_target1 s then Ok (set_target1 s (u32 target))
        else let* bits := set1 (sparse s) ch in Ok (set_target2 (set_bits s (dense s) bits) (u32 target)) in
      let* D := put_state D source s in Ok (nil_state, add_num D 1)
  else if x then
    let* old_target := trans_get (pool D) (getpos s) idx in
    if OverwriteExisted then let* p := trans_set (pool D) (getpos s) idx (u32 target) in Ok (old_target, set_pool D p) else Ok (old_target, D)
  else let* D := insert_sparse D source s target ch idx n_sparse in Ok (nil_state, D).

Definition add_move (D : DenseDFA) (source target ch : Z) : res (Z * DenseDFA) := let* _ := assert_ (ch <? sigma) in add_move_imp D source target ch false.
Definition set_move (D : DenseDFA) (source target ch : Z) : res (Z * DenseDFA) := let* _ := assert_ (ch <? sigma) in add_move_imp D source target ch true.
Definition add_move_checked (D : DenseDFA) (source target ch : Z) : res DenseDFA :=
  let* _ := assert_ (ch <? sigma) in
  let* (old, D) := add_move_imp D source target ch false in
  let* _ := assert_ (nil_state =? old) in
  if negb (nil_state =? old) then Throw logic_error else Ok D.
End junk.

(** ** Hashes *)

Definition BitsRotateLeft5 (h : Z) : Z := Z.lor (shl64 h 5) (Z.shiftr h 59).
Definition FaboHashCombine (h0 val : Z) : Z := u64 (BitsRotateLeft5 h0 + val).

Definition hash_blocks (h : Z) (s : DenseState) : Z := foldl (fun h '(d, x) => FaboHashCombine (FaboHashCombine h d) x) h (blocks s).
Definition hopcroft_hash (D : DenseDFA) (x_id : Z) : res Z :=
  let* x := state D x_id in
  let* _ := assert_ (negb (is_pzip_ x)) in Ok (hash_blocks 123 x).

Definition onfly_hash_hash (D : DenseDFA) (x_id : Z) : res Z :=
  let* x := state D x_id in
  let* _ := assert_ (negb (is_pzip_ x)) in
  let h := hash_blocks (Z.b2z (is_term_ x)) x in
  let n_sparse := num_sparse x in
  let h := FaboHashCombine (FaboHashCombine h (dense_target1 x)) (dense_target2 x) in
  if negb (n_sparse =? 0) then
    let* _ := assert_ (negb (nil_state =? m_pos x)) in
    let* h := for_ 0 n_sparse (fun i h => let* t := trans_get (pool D) (getpos x) i in Ok (FaboHashCombine h t)) h in
    Ok (FaboHashCombine h n_sparse)
  else Ok h.

Definition onfly_hash_equal (D : DenseDFA) (x_id y_id : Z) : res bool :=
  let* x := state D x_id in
  let* y := state D y_id in
  if negb (dense_target1 x =? dense_target1 y) then Ok false else
  if negb (dense_target2 x =? dense_target2 y) then Ok false else
  if negb (eqb (is_term_ x) (is_term_ y)) then Ok false else
  if negb (forallb (fun '((dx, sx), (dy, sy)) => (dx =? dy) && (sx =? sy)) (zip (blocks x) (blocks y))) then Ok false else
  let n_sparse := num_sparse x in
  if negb (n_sparse =? 0) then
    let* _ := assert_ (negb (nil_state =? m_pos x)) in
    let* _ := assert_ (negb (nil_state =? m_pos y)) in
    let* (eq, _) := loop (S (Z.to_nat n_sparse)) (fun '(eq, i) =>
      if i <? n_sparse then
        let* px := trans_get (pool D) (getpos x) i in
        let* py := trans_get (pool D) (getpos y) i in
        if negb (px =? py) then Ok (inr (false, i)) else Ok (inl (eq, i + 1))
      else Ok (inr (eq, i))) (true, 0) in Ok eq
  else Ok true.
End sigma.
End DenseDfa.
