(* ===== verification/DenseBits.v ===== *)
(** * Bitmaps and tables of moves

    The bits of a state as functions of a character, ranks in them, and the moves of a
    state as the table of a function. *)
From S2P Require Import Prelude Bits Dfa DenseDfa.
Import DenseDfa.

Module DenseBits.

(** ** Tables *)

(** The moves that [g] gives, in the order of the characters. *)
Fixpoint table (g : Z -> option Z) (n : nat) : list (Z * Z) :=
  match n with O => [] | S n => table g n ++ match g (Z.of_nat n) with Some t => [(Z.of_nat n, t)] | None => [] end end.

Lemma table_ext g h n : (forall c, 0 <= c < Z.of_nat n -> g c = h c) -> table g n = table h n.
Proof. induction n as [|n IH]; intros Hg; [done|]. cbn [table]. rewrite IH by (intros c Hc; apply Hg; lia). by rewrite Hg by lia. Qed.

Lemma table_none g m n : (m <= n)%nat -> (forall c, Z.of_nat m <= c < Z.of_nat n -> g c = None) -> table g n = table g m.
Proof.
  intros Hm. induction Hm as [|n Hm IH]; intros Hg; [done|]. cbn [table]. rewrite (Hg (Z.of_nat n)) by lia. rewrite app_nil_r. apply IH. intros c Hc. apply Hg. lia.
Qed.

Lemma table_in g n c t : In (c, t) (table g n) <-> 0 <= c < Z.of_nat n /\ g c = Some t.
Proof.
  induction n as [|n IH]; [cbn; split; [done|lia]|]. cbn [table]. rewrite in_app_iff, IH. destruct (g (Z.of_nat n)) as [u|] eqn:E; cbn [In].
  - split; [intros [[? ?]|[[= <- <-]|[]]]; split; (done || lia)|]. intros [Hc Hg]. destruct (Z.eq_dec c (Z.of_nat n)) as [->|]; [right; left; congruence|left; split; [lia|done]].
  - split; [intros [[? ?]|[]]; split; (done || lia)|]. intros [Hc Hg]. destruct (Z.eq_dec c (Z.of_nat n)) as [->|]; [congruence|left; split; [lia|done]].
Qed.

Lemma ascending_snoc l a : Dfa.ascending l = true -> (forall b, In b l -> b < a) -> Dfa.ascending (l ++ [a]) = true.
Proof.
  induction l as [|b l IH]; intros Ha Hl; [done|]. destruct l as [|c l]; [cbn; rewrite (proj2 (Z.ltb_lt b a)) by (apply Hl; by left); done|]. cbn [app Dfa.ascending] in *. apply andb_true_iff in Ha as [H1 H2]. rewrite H1. cbn [andb]. apply IH; [done|]. intros d Hd. apply Hl. by right.
Qed.

Lemma table_ascending g n : Dfa.ascending (Dfa.chars (table g n)) = true.
Proof.
  induction n as [|n IH]; [done|]. cbn [table]. destruct (g (Z.of_nat n)) as [t|]; [|by rewrite app_nil_r]. unfold Dfa.chars in *. rewrite map_app. cbn [map fst]. apply ascending_snoc; [done|].
  intros b Hb. apply in_map_iff in Hb as ([c u] & <- & Hin). apply table_in in Hin as [? _]. cbn. lia.
Qed.

Lemma ascending_head a l b : Dfa.ascending (a :: l) = true -> In b l -> a < b.
Proof.
  revert a. induction l as [|c l IH]; intros a Ha Hb; [done|]. cbn [Dfa.ascending] in Ha. apply andb_true_iff in Ha as [H1 H2]. apply Z.ltb_lt in H1. destruct Hb as [->|Hb]; [done|]. specialize (IH c H2 Hb). lia.
Qed.

Lemma ascending_tail a l : Dfa.ascending (a :: l) = true -> Dfa.ascending l = true.
Proof. destruct l as [|c l]; [done|]. cbn [Dfa.ascending]. intros H. by apply andb_true_iff in H as [_ ?]. Qed.

Lemma find_in l c t : Dfa.ascending (Dfa.chars l) = true -> In (c, t) l <-> Dfa.find_move c l = Some t.
Proof.
  induction l as [|[d u] l IH]; intros Ha; [done|]. cbn [Dfa.find_move In]. cbn [Dfa.chars map fst] in Ha. pose proof (IH (ascending_tail _ _ Ha)) as IH'. destruct (Z.eqb_spec d c) as [->|Hne].
  - split; [|intros [= ->]; by left]. intros [[= ->]|Hin]; [done|]. exfalso. pose proof (ascending_head c _ c Ha (in_map fst l (c, t) Hin)). lia.
  - rewrite <- IH'. split; [intros [[= -> ->]|?]; done|by right].
Qed.

Lemma find_table g n c : 0 <= c < Z.of_nat n -> Dfa.find_move c (table g n) = g c.
Proof.
  intros Hc. destruct (g c) as [t|] eqn:E; [apply (find_in _ _ _ (table_ascending g n)), table_in; done|]. destruct (Dfa.find_move c (table g n)) as [u|] eqn:E'; [|done]. apply (find_in _ _ _ (table_ascending g n)), table_in in E' as [_ E']. congruence.
Qed.

(** A list of moves is determined by what it says of each character. *)
Lemma dense_ascending_eq l l' : Dfa.ascending (Dfa.chars l) = true -> Dfa.ascending (Dfa.chars l') = true -> (forall c t, In (c, t) l <-> In (c, t) l') -> l = l'.
Proof.
  revert l'. induction l as [|[c t] l IH]; intros [|[c' t'] l'] Ha Ha' Hin; [done|by destruct (proj2 (Hin c' t')); left|by destruct (proj1 (Hin c t)); left|].
  assert ((c, t) = (c', t')) as [= <- <-].
  { pose proof (proj1 (Hin c t) (or_introl eq_refl)) as H1. pose proof (proj2 (Hin c' t') (or_introl eq_refl)) as H2. destruct H1 as [->|H1]; [done|]. destruct H2 as [->|H2]; [done|].
    pose proof (ascending_head _ _ _ Ha (in_map fst l _ H2)). pose proof (ascending_head _ _ _ Ha' (in_map fst l' _ H1)). cbn in *. lia. }
  f_equal. apply IH; [by apply ascending_tail in Ha|by apply ascending_tail in Ha'|]. intros d u. split; intros Hd.
  - destruct (proj1 (Hin d u) (or_intror Hd)) as [[= <- <-]|?]; [|done]. pose proof (ascending_head _ _ _ Ha (in_map fst l _ Hd)). cbn in *. lia.
  - destruct (proj2 (Hin d u) (or_intror Hd)) as [[= <- <-]|?]; [|done]. pose proof (ascending_head _ _ _ Ha' (in_map fst l' _ Hd)). cbn in *. lia.
Qed.

Lemma table_find l n : Dfa.ascending (Dfa.chars l) = true -> (forall c t, In (c, t) l -> 0 <= c < Z.of_nat n) -> table (fun c => Dfa.find_move c l) n = l.
Proof.
  intros Ha Hr. apply dense_ascending_eq; [apply table_ascending|done|]. intros c t. rewrite table_in, <- (find_in l c t Ha). split; [tauto|]. intros Hin. split; [by apply (Hr c t)|done].
Qed.

Lemma table_length g n : Z.of_nat (length (table g n)) = rank (fun c => bool_decide (is_Some (g c))) (Z.of_nat n).
Proof.
  induction n as [|n IH]; [done|]. cbn [table]. rewrite length_app. replace (Z.of_nat (S n)) with (Z.of_nat n + 1) by lia. rewrite rank_succ, <- IH by lia. destruct (g (Z.of_nat n)) eqn:E; cbn [length].
  - rewrite bool_decide_eq_true_2 by (by eexists). cbn. lia.
  - rewrite bool_decide_eq_false_2 by (by intros [? ?]). cbn. lia.
Qed.

(** ** Ranks of functions that differ in one place *)

Lemma rank_change f g a c : 0 <= a -> 0 <= c -> (forall i, 0 <= i -> i <> a -> g i = f i) -> rank g c = rank f c + (if a <? c then Z.b2z (g a) - Z.b2z (f a) else 0).
Proof.
  intros Ha Hc Hfg. destruct (Z.ltb_spec a c) as [Hac|Hac].
  - replace c with (a + 1 + (c - (a + 1))) by lia. rewrite !(rank_add _ (a + 1)), !rank_succ by lia. rewrite (rank_ext g f a) by (intros i Hi; apply Hfg; lia). rewrite (cnt_ext g f (a + 1) (a + 1)) by (intros i Hi; apply Hfg; lia). lia.
  - rewrite (rank_ext g f c) by (intros i Hi; apply Hfg; lia). lia.
Qed.

Lemma rank_lt f c n : 0 <= c < n -> f c = true -> rank f c < rank f n.
Proof. intros Hc Hf. pose proof (rank_mono f (c + 1) n ltac:(lia)) as Hm. rewrite rank_succ, Hf in Hm by lia. cbn in Hm. lia. Qed.

Lemma rank_inj f c d : 0 <= c -> 0 <= d -> f c = true -> f d = true -> rank f c = rank f d -> c = d.
Proof. intros Hc Hd Fc Fd E. destruct (Z.lt_total c d) as [H|[->|H]]; [|done|]; [pose proof (rank_lt f c d ltac:(lia) Fc)|pose proof (rank_lt f d c ltac:(lia) Fd)]; lia. Qed.

Lemma rank_zero f n c : rank f n = 0 -> 0 <= c < n -> f c = false.
Proof. intros H Hc. destruct (f c) eqn:E; [|done]. pose proof (rank_lt f c n Hc E). pose proof (rank_bounds f c). lia. Qed.

(** ** Words *)

Lemma popcount_take ws j : (j <= length ws)%nat -> zsum (map fast_popcount (take j ws)) = rank (bit_at ws) (64 * Z.of_nat j).
Proof.
  induction j as [|j IH]; intros Hj; [done|]. destruct (lookup_lt_is_Some_2 ws j) as [w Hw]; [lia|]. rewrite (take_S_r _ _ w) by done. rewrite map_app, zsum_app, IH by lia. replace (64 * Z.of_nat (S j)) with (64 * (Z.of_nat j + 1)) by lia. rewrite rank_words by lia.
  assert (word_at ws (Z.of_nat j) = w) as -> by (unfold word_at; rewrite Nat2Z.id; by apply nth_lookup_Some). cbn. lia.
Qed.

Lemma popcount_all ws : zsum (map fast_popcount ws) = rank (bit_at ws) (64 * Z.of_nat (length ws)).
Proof. rewrite <- popcount_take by lia. by rewrite firstn_all. Qed.

(** Words combined bit by bit. *)
Definition combine_bits (f : Z * Z -> Z) (d x : list Z) : list Z := map f (zip d x).

Lemma combine_length f d x : length d = length x -> length (combine_bits f d x) = length d.
Proof. intros Hl. unfold combine_bits. rewrite length_map, length_zip. lia. Qed.

Lemma combine_word f d x j : length d = length x -> 0 <= j < Z.of_nat (length d) -> word_at (combine_bits f d x) j = f (word_at d j, word_at x j).
Proof.
  intros Hl Hj. unfold word_at, combine_bits. destruct (lookup_lt_is_Some_2 d (Z.to_nat j)) as [a Ha]; [lia|]. destruct (lookup_lt_is_Some_2 x (Z.to_nat j)) as [b Hb]; [lia|].
  rewrite (nth_lookup_Some d _ _ _ Ha), (nth_lookup_Some x _ _ _ Hb). apply nth_lookup_Some. change (map f (zip d x)) with (f <$> zip d x). rewrite list_lookup_fmap. assert (zip d x !! Z.to_nat j = Some (a, b)) as -> by (apply lookup_zip_Some; done). done.
Qed.

Lemma combine_bit f g d x c : length d = length x -> 0 <= c < 64 * Z.of_nat (length d) -> (forall a b i, 0 <= i -> Z.testbit (f (a, b)) i = g (Z.testbit a i) (Z.testbit b i)) -> bit_at (combine_bits f d x) c = g (bit_at d c) (bit_at x c).
Proof.
  intros Hl Hc Hf. unfold bit_at. rewrite combine_word by (done || apply div64_lt; lia). apply Hf. apply mod64_range.
Qed.

Lemma only_sparse_bit a b i : 0 <= i -> Z.testbit (only_sparse (a, b)) i = negb (Z.testbit a i) && Z.testbit b i.
Proof. intros Hi. unfold only_sparse. rewrite Z.land_spec, Z.lxor_spec. by destruct (Z.testbit a i), (Z.testbit b i). Qed.

Lemma only_sparse_word64 a b : word64 a -> word64 b -> word64 (only_sparse (a, b)).
Proof. intros Ha Hb. unfold only_sparse. apply word64_land; [by apply word64_lxor|apply Hb]. Qed.
End DenseBits.
