(* ===== verification/DenseMoves.v ===== *)
(** * The moves of a state

    What the bitmaps, the two targets and the words in the pool say of every character,
    and that [state_move] and [for_each_move] read just that. *)
From S2P Require Import Prelude Bits Dfa MemPool MemPoolInv DenseDfa DenseBits.
Import MemPool MemPoolInv DenseDfa DenseBits.

Module DenseMoves.

Notation N p := (Z.of_nat (length (mem p))).

Section sigma.
Context (BlockN : Z).
Hypothesis (HBlockN : 0 < BlockN).
Notation sigma := (DenseDfa.sigma BlockN).

(** ** Bitmaps *)

Definition bitmap (bm : list Z) : Prop := Z.of_nat (length bm) = BlockN /\ Forall word64 bm.

Lemma no_bits_bitmap : bitmap (no_bits BlockN).
Proof. split; [unfold no_bits; rewrite length_replicate; lia|]. apply Forall_replicate. done. Qed.

Lemma no_bits_bit c : bit_at (no_bits BlockN) c = false.
Proof.
  unfold bit_at, word_at, no_bits. destruct (decide (Z.to_nat (c / 64) < Z.to_nat BlockN)%nat) as [H|H]; [|rewrite nth_overflow by (rewrite length_replicate; lia); apply Z.bits_0].
  rewrite (nth_lookup_Some _ _ _ 0); [apply Z.bits_0|]. by apply lookup_replicate.
Qed.

Lemma dense_is1_ok bm c : bitmap bm -> 0 <= c < sigma -> is1 BlockN bm c = Ok (bit_at bm c).
Proof.
  intros [Hl Hw] Hc. unfold is1, DenseDfa.sigma in *. rewrite (proj2 (Z.leb_le 0 c)), (proj2 (Z.ltb_lt c _)) by lia. cbn [andb assert_ rbind]. apply terark_bit_test_ok; [done|lia].
Qed.

Lemma dense_set_ok bm c val : bitmap bm -> 0 <= c < sigma -> exists bm', (if val : bool then set1 BlockN bm c else set0 BlockN bm c) = Ok bm' /\ bitmap bm' /\ forall i, 0 <= i -> bit_at bm' i = if i =? c then val else bit_at bm i.
Proof.
  intros [Hl Hw] Hc. unfold DenseDfa.sigma in Hc. destruct (terark_bit_set_val_ok bm c val Hw) as (bm' & E & Hl' & Hw' & Hb); [lia|]. exists bm'. split; [|split; [split; [lia|done]|done]].
  unfold set1, set0, DenseDfa.sigma. rewrite (proj2 (Z.leb_le 0 c)), (proj2 (Z.ltb_lt c _)) by lia. cbn [andb assert_ rbind]. destruct val; exact E.
Qed.

Lemma set1_ok bm c : bitmap bm -> 0 <= c < sigma -> exists bm', set1 BlockN bm c = Ok bm' /\ bitmap bm' /\ forall i, 0 <= i -> bit_at bm' i = if i =? c then true else bit_at bm i.
Proof. apply (dense_set_ok bm c true). Qed.
Lemma set0_ok bm c : bitmap bm -> 0 <= c < sigma -> exists bm', set0 BlockN bm c = Ok bm' /\ bitmap bm' /\ forall i, 0 <= i -> bit_at bm' i = if i =? c then false else bit_at bm i.
Proof. apply (dense_set_ok bm c false). Qed.

Lemma dense_popcnt_ok bm : bitmap bm -> popcnt bm = rank (bit_at bm) sigma.
Proof. intros [Hl _]. unfold popcnt, DenseDfa.sigma. by rewrite popcount_all, Hl. Qed.

Lemma all0_ok bm : bitmap bm -> is_all0 bm = true <-> forall c, 0 <= c < sigma -> bit_at bm c = false.
Proof.
  intros [Hl Hw]. unfold is_all0, DenseDfa.sigma. rewrite forallb_forall. split.
  - intros Hall c Hc. unfold bit_at. assert (word_at bm (c / 64) = 0) as ->; [|apply Z.bits_0]. apply Z.eqb_eq, Hall. pose proof (div64_lt c (Z.of_nat (length bm)) ltac:(lia)). unfold word_at. apply nth_In. lia.
  - intros Hall w Hin. apply Z.eqb_eq. apply list_elem_of_In, list_elem_of_lookup in Hin as [j Hj]. apply word64_zero; [rewrite Forall_lookup in Hw; by apply (Hw j)|]. intros i Hi. pose proof (lookup_lt_Some _ _ _ Hj) as Hjl. specialize (Hall (64 * Z.of_nat j + i) ltac:(lia)). unfold bit_at in Hall.
    replace (64 * Z.of_nat j + i) with (i + 64 * Z.of_nat j) in Hall by lia. rewrite div_add_mul, mod_add_mul in Hall by lia. rewrite Z.div_small, Z.mod_small, Z.add_0_l in Hall by lia. unfold word_at in Hall. rewrite Nat2Z.id, (nth_lookup_Some _ _ _ _ Hj) in Hall. done.
Qed.

(** ** States *)

Definition bitmaps (x : DenseState) : Prop := bitmap (dense x) /\ bitmap (sparse x).

(** Whether the target of [c] lies in the pool. *)
Definition in_pool (x : DenseState) (c : Z) : bool := negb (bit_at (dense x) c) && bit_at (sparse x) c.

Lemma lengths x : bitmaps x -> length (dense x) = length (sparse x) /\ Z.of_nat (length (dense x)) = BlockN.
Proof. intros [[H1 _] [H2 _]]. lia. Qed.

Lemma dense_count_ok x f g c : bitmaps x -> 0 <= c <= BlockN -> (forall a b i, 0 <= i -> Z.testbit (f (a, b)) i = g (Z.testbit a i) (Z.testbit b i)) ->
  zsum (map (fun b => fast_popcount (f b)) (take (Z.to_nat c) (blocks x))) = rank (fun i => g (bit_at (dense x) i) (bit_at (sparse x) i)) (64 * c).
Proof.
  intros Hx Hc Hf. destruct (lengths x Hx) as [Hl HB]. transitivity (zsum (map fast_popcount (take (Z.to_nat c) (combine_bits f (dense x) (sparse x))))).
  - unfold combine_bits. change (map f ?l) with (f <$> l). rewrite <- fmap_take. change (f <$> ?l) with (map f l). by rewrite map_map.
  - rewrite popcount_take by (rewrite combine_length; lia). rewrite Z2Nat.id by lia. apply rank_ext. intros i Hi. apply combine_bit; [done|lia|done].
Qed.

Lemma count_all_ok x f g : bitmaps x -> (forall a b i, 0 <= i -> Z.testbit (f (a, b)) i = g (Z.testbit a i) (Z.testbit b i)) ->
  zsum (map (fun b => fast_popcount (f b)) (blocks x)) = rank (fun i => g (bit_at (dense x) i) (bit_at (sparse x) i)) sigma.
Proof.
  intros Hx Hf. unfold DenseDfa.sigma. rewrite <- (dense_count_ok x f g BlockN Hx) by (lia || done). rewrite firstn_all2; [done|]. unfold blocks. destruct (lengths x Hx). rewrite length_zip. lia.
Qed.

Lemma num_sparse_rank x : bitmaps x -> num_sparse x = rank (in_pool x) sigma.
Proof. intros Hx. exact (count_all_ok x only_sparse (fun d x => negb d && x) Hx only_sparse_bit). Qed.

Lemma num_sparse_range x : bitmaps x -> 0 <= num_sparse x <= sigma.
Proof. intros Hx. rewrite num_sparse_rank by done. apply rank_bounds. unfold DenseDfa.sigma. lia. Qed.

Lemma num_children_ok x : bitmaps x -> num_children BlockN x = Ok (rank (fun c => bit_at (dense x) c || bit_at (sparse x) c) sigma).
Proof.
  intros Hx. unfold num_children. assert (E : zsum (map (fun '(d, x) => fast_popcount (Z.lor d x)) (blocks x)) = rank (fun c => bit_at (dense x) c || bit_at (sparse x) c) sigma).
  { rewrite <- (count_all_ok x (fun '(d, x) => Z.lor d x) orb Hx) by (intros; apply Z.lor_spec). f_equal. apply map_ext. by intros []. }
  rewrite E. rewrite (proj2 (Z.leb_le _ _)); [done|]. apply rank_bounds. unfold DenseDfa.sigma. lia.
Qed.

Lemma num_dense1_rank x : bitmaps x -> num_dense1 x = rank (fun c => bit_at (dense x) c && negb (bit_at (sparse x) c)) sigma.
Proof.
  intros Hx. unfold num_dense1. rewrite <- (count_all_ok x (fun '(d, x) => Z.land (Z.lxor d x) d) (fun d x => d && negb x) Hx).
  - f_equal. apply map_ext. by intros [].
  - intros a b i Hi. rewrite Z.land_spec, Z.lxor_spec. by destruct (Z.testbit a i), (Z.testbit b i).
Qed.

Lemma num_dense2_rank x : bitmaps x -> num_dense2 x = rank (fun c => bit_at (dense x) c && bit_at (sparse x) c) sigma.
Proof.
  intros Hx. unfold num_dense2. rewrite <- (count_all_ok x (fun '(d, x) => Z.land x d) andb Hx).
  - f_equal. apply map_ext. by intros [].
  - intros a b i Hi. rewrite Z.land_spec. apply andb_comm.
Qed.

Lemma idx_sparse_ok x c : bitmaps x -> 0 <= c < sigma -> idx_sparse BlockN x c = Ok (rank (in_pool x) c).
Proof.
  intros Hx Hc. pose proof Hc as Hc'. unfold idx_sparse. rewrite (proj2 (Z.leb_le 0 c)), (proj2 (Z.ltb_lt c _)) by lia. cbn [andb assert_ rbind]. unfold DenseDfa.sigma in Hc'. pose proof (div64_lt c BlockN ltac:(lia)) as Hd. pose proof (mod64_range c) as Hm.
  rewrite (dense_count_ok x only_sparse (fun d x => negb d && x) (c / 64) Hx) by (lia || apply only_sparse_bit). fold (in_pool x). pose proof (Z.div_mod c 64 ltac:(lia)) as Hcd.
  destruct (Z.eqb_spec (c mod 64) 0) as [E|E]; cbn [negb]; [do 2 f_equal; lia|]. destruct (lengths x Hx) as [Hl HB]. destruct Hx as [[_ Hw1] [_ Hw2]].
  assert (Hb : rd (blocks x) (c / 64) = Ok (word_at (dense x) (c / 64), word_at (sparse x) (c / 64))). { apply rd_ok; [lia|]. unfold blocks. apply lookup_zip_Some. split; apply wlen_lookup; lia. }
  rewrite Hb. cbn [rbind]. f_equal. rewrite fast_popcount_trail_spec by (lia || (apply only_sparse_word64; by apply word_at_word64)). assert (E2 : rank (in_pool x) c = rank (in_pool x) (64 * (c / 64)) + Prelude.cnt (in_pool x) (64 * (c / 64)) (Z.to_nat (c mod 64))) by (rewrite <- rank_add by lia; f_equal; lia). rewrite E2. f_equal. apply cnt_ext. intros i Hi.
  rewrite only_sparse_bit by lia. unfold in_pool, bit_at. replace (64 * (c / 64) + i) with (i + 64 * (c / 64)) by lia. rewrite div_add_mul, mod_add_mul by lia. rewrite (Z.div_small i 64), (Z.mod_small i 64) by lia. by rewrite !Z.add_0_l.
Qed.

(** ** The target of a character *)

Definition target (p : MemPool) (x : DenseState) (c : Z) : option Z :=
  if bit_at (dense x) c then Some (if bit_at (sparse x) c then dense_target2 x else dense_target1 x)
  else if bit_at (sparse x) c then Some (word_at (mem p) (m_pos x + rank (in_pool x) c)) else None.

Definition moves_of (p : MemPool) (x : DenseState) : list (Z * Z) := table (target p x) (Z.to_nat sigma).

(** The words of the state lie in the pool. *)
Definition placed (p : MemPool) (x : DenseState) : Prop := (m_pos x = nil_state <-> num_sparse x = 0) /\ (0 < num_sparse x -> 0 <= m_pos x /\ m_pos x + num_sparse x <= N p).

Lemma trans_get_ok p b i : 0 <= i -> 0 <= b -> b + i < N p -> trans_get p (4 * b) i = Ok (word_at (mem p) (b + i)).
Proof. intros Hi Hb Hn. unfold trans_get, MemPool.n, align_size. rewrite (proj2 (Z.ltb_lt _ _)) by lia. cbn [assert_ rbind]. replace (4 * b + 4 * i) with (4 * (b + i)) by lia. apply word_read_ok. lia. Qed.

Lemma trans_set_ok p b i v : 0 <= i -> 0 <= b -> b + i < N p -> trans_set p (4 * b) i v = Ok (set_mem p (<[Z.to_nat (b + i) := v]> (mem p))).
Proof. intros Hi Hb Hn. unfold trans_set, MemPool.n, align_size. rewrite (proj2 (Z.ltb_lt _ _)) by lia. cbn [assert_ rbind]. replace (4 * b + 4 * i) with (4 * (b + i)) by lia. apply set_at_ok. lia. Qed.

Lemma getpos_words x : getpos x = 4 * m_pos x.
Proof. unfold getpos, PoolAlign. lia. Qed.

Lemma in_pool_idx x c : bitmaps x -> 0 <= c < sigma -> in_pool x c = true -> 0 <= rank (in_pool x) c < num_sparse x.
Proof. intros Hx Hc Hp. rewrite num_sparse_rank by done. pose proof (rank_bounds (in_pool x) c ltac:(lia)). pose proof (rank_lt (in_pool x) c sigma Hc Hp). lia. Qed.

Lemma state_move_of_ok D x c : bitmaps x -> placed (pool D) x -> 0 <= c < sigma -> state_move_of BlockN D x c = Ok (match target (pool D) x c with Some t => t | None => nil_state end).
Proof.
  intros Hx [_ Hp] Hc. pose proof Hx as [Hd Hs]. unfold state_move_of, target. rewrite !dense_is1_ok by done. cbn [rbind]. destruct (bit_at (dense x) c) eqn:Ed; [done|]. destruct (bit_at (sparse x) c) eqn:Es; [|done].
  rewrite idx_sparse_ok by done. cbn [rbind]. destruct (in_pool_idx x c Hx Hc) as [H1 H2]; [unfold in_pool; by rewrite Ed, Es|]. pose proof (num_sparse_range x Hx). rewrite (proj2 (Z.ltb_lt _ _)) by lia. cbn [assert_ rbind]. rewrite getpos_words. apply trans_get_ok; lia.
Qed.

(** ** [for_each_move] *)

Lemma test_bit w k : 0 <= k < 64 -> negb (Z.land w (shl64 1 k) =? 0) = Z.testbit w k.
Proof.
  intros Hk. rewrite <- (land_shl1_testbit w k) by lia. unfold shl64. rewrite u64_small; [done|]. apply word64_bits; [apply Z.shiftl_nonneg; lia|]. intros i Hi. rewrite Z.shiftl_spec by lia. apply (testbit_high 1 _ 1); lia.
Qed.

Lemma low_bits i k : 0 <= k < 64 -> Z.land (64 * i + k) 63 = k.
Proof. intros Hk. change 63 with (Z.ones 6). rewrite Z.land_ones by lia. change (2 ^ 6) with 64. replace (64 * i + k) with (k + i * 64) by lia. rewrite Z.mod_add by lia. apply Z.mod_small. lia. Qed.

Lemma bit_word ws i k : 0 <= k < 64 -> bit_at ws (64 * i + k) = Z.testbit (word_at ws i) k.
Proof. intros Hk. unfold bit_at. replace (64 * i + k) with (k + 64 * i) by lia. rewrite div_add_mul, mod_add_mul by lia. rewrite (Z.div_small k 64), (Z.mod_small k 64) by lia. by rewrite Z.add_0_l. Qed.

(** Characters without a move. *)
Lemma skip_ok p x a b : 0 <= a <= b -> (forall c, a <= c < b -> bit_at (dense x) c = false /\ bit_at (sparse x) c = false) ->
  table (target p x) (Z.to_nat b) = table (target p x) (Z.to_nat a) /\ rank (in_pool x) b = rank (in_pool x) a.
Proof.
  intros Hab Hn. split.
  - apply table_none; [lia|]. intros c Hc. unfold target. destruct (Hn c ltac:(lia)) as [-> ->]. done.
  - replace b with (a + (b - a)) by lia. rewrite rank_add by lia. rewrite cnt_false; [lia|]. intros c Hc. unfold in_pool. destruct (Hn c ltac:(lia)) as [-> ->]. done.
Qed.

Lemma dense_visit_ok p x a : 0 <= a -> forall t, target p x a = Some t -> table (target p x) (Z.to_nat (a + 1)) = table (target p x) (Z.to_nat a) ++ [(a, t)].
Proof. intros Ha t Ht. replace (Z.to_nat (a + 1)) with (S (Z.to_nat a)) by lia. cbn [table]. by rewrite Z2Nat.id, Ht by lia. Qed.

Section each.
Context (D : DenseDFA) (x : DenseState).
Hypothesis (Hx : bitmaps x) (Hp : placed (pool D) x) (Hz : is_pzip_ x = false) (Hf : is_free_ x = false).
Notation g := (target (pool D) x).

Definition walk (d b : Z) := fun '(bm, ch, pos, out) =>
  if bm =? 0 then Ok (inr (bm, ch, pos, out)) else
  let* ctz := fast_ctz bm in
  let ch := ch + ctz in
  let* (target, pos) := if negb (Z.land d (shl64 1 (Z.land ch 63)) =? 0) then
      Ok (if negb (Z.land b (shl64 1 (Z.land ch 63)) =? 0) then dense_target2 x else dense_target1 x, pos)
    else
      let* _ := assert_ (negb (nil_state =? m_pos x)) in
      let* _ := assert_ (pos <? num_sparse x) in
      let* _ := assert_ (negb (Z.land b (shl64 1 (Z.land ch 63)) =? 0)) in
      let* t := trans_get (pool D) (getpos x) pos in Ok (t, pos + 1) in
  Ok (@inl _ (Z * Z * Z * list (Z * Z)) (Z.shiftr (Z.shiftr bm ctz) 1, ch + 1, pos, out ++ [(ch, target)])).

Definition walked (i : Z) (s : Z * Z * Z * list (Z * Z)) : Prop := let '(bm, ch, pos, out) := s in
  64 * i <= ch <= 64 * (i + 1) /\ bm = Z.shiftr (Z.lor (word_at (dense x) i) (word_at (sparse x) i)) (ch - 64 * i) /\ pos = rank (in_pool x) ch /\ out = table g (Z.to_nat ch).

(** One move. *)
Lemma walk_move i k : 0 <= i < BlockN -> 0 <= k < 64 -> Z.testbit (Z.lor (word_at (dense x) i) (word_at (sparse x) i)) k = true -> exists t,
  (if negb (Z.land (word_at (dense x) i) (shl64 1 (Z.land (64 * i + k) 63)) =? 0) then
      Ok (if negb (Z.land (word_at (sparse x) i) (shl64 1 (Z.land (64 * i + k) 63)) =? 0) then dense_target2 x else dense_target1 x, rank (in_pool x) (64 * i + k))
    else
      let* _ := assert_ (negb (nil_state =? m_pos x)) in
      let* _ := assert_ (rank (in_pool x) (64 * i + k) <? num_sparse x) in
      let* _ := assert_ (negb (Z.land (word_at (sparse x) i) (shl64 1 (Z.land (64 * i + k) 63)) =? 0)) in
      let* t := trans_get (pool D) (getpos x) (rank (in_pool x) (64 * i + k)) in Ok (t, rank (in_pool x) (64 * i + k) + 1)) = Ok (t, rank (in_pool x) (64 * i + k + 1)) /\ g (64 * i + k) = Some t.
Proof.
  intros Hi Hk Hb. rewrite low_bits, !test_bit by lia. rewrite Z.lor_spec in Hb. rewrite (rank_succ (in_pool x) (64 * i + k)) by lia.
  assert (in_pool x (64 * i + k) = negb (Z.testbit (word_at (dense x) i) k) && Z.testbit (word_at (sparse x) i) k) as -> by (unfold in_pool; by rewrite !bit_word by lia). unfold target. rewrite !bit_word by lia. destruct (Z.testbit (word_at (dense x) i) k) eqn:Ed.
  - eexists. split; [|done]. cbn [negb andb Z.b2z]. by rewrite Z.add_0_r.
  - cbn [orb] in Hb. rewrite Hb. cbn [negb andb Z.b2z]. assert (Hc : 0 <= 64 * i + k < sigma) by (unfold DenseDfa.sigma; lia). destruct (in_pool_idx x (64 * i + k) Hx Hc) as [H1 H2]; [unfold in_pool; rewrite !bit_word by lia; by rewrite Ed, Hb|].
    destruct Hp as [Hn Hr]. rewrite (proj2 (Z.eqb_neq nil_state _)) by (intros E; symmetry in E; apply Hn in E; lia). cbn [negb assert_ rbind]. rewrite (proj2 (Z.ltb_lt _ _)) by lia. cbn [assert_ rbind]. rewrite getpos_words, trans_get_ok by lia. cbn [rbind]. by eexists.
Qed.

Lemma dense_walk_ok i : 0 <= i < BlockN -> forall s, walked i s -> 0 <= 64 * (i + 1) - snd (fst (fst s)) /\
  ((exists s', walk (word_at (dense x) i) (word_at (sparse x) i) s = Ok (inl s') /\ walked i s' /\ 64 * (i + 1) - snd (fst (fst s')) < 64 * (i + 1) - snd (fst (fst s))) \/
   (exists r, walk (word_at (dense x) i) (word_at (sparse x) i) s = Ok (inr r) /\ snd (fst (fst r)) <= (i + 1) * 64 /\ snd (fst r) = rank (in_pool x) (64 * (i + 1)) /\ snd r = table g (Z.to_nat (64 * (i + 1))))).
Proof.
  intros Hi [[[bm ch] pos] out] (Hch & -> & -> & ->). cbn [fst snd]. split; [lia|]. destruct Hx as [[Hl1 Hw1] [Hl2 Hw2]]. set (w := Z.lor (word_at (dense x) i) (word_at (sparse x) i)).
  assert (Hw : word64 w) by (apply word64_lor; by apply word_at_word64). assert (Hnone : forall b, ch <= b <= 64 * (i + 1) -> (forall k, ch - 64 * i <= k < b - 64 * i -> Z.testbit w k = false) -> table g (Z.to_nat b) = table g (Z.to_nat ch) /\ rank (in_pool x) b = rank (in_pool x) ch).
  { intros b Hb Hk. apply skip_ok; [lia|]. intros c Hc. specialize (Hk (c - 64 * i) ltac:(lia)). unfold w in Hk. rewrite Z.lor_spec in Hk. apply orb_false_iff in Hk as [K1 K2]. replace c with (64 * i + (c - 64 * i)) by lia. rewrite !bit_word by lia. done. }
  unfold walk. destruct (Z.eqb_spec (Z.shiftr w (ch - 64 * i)) 0) as [E|E].
  - right. eexists. split; [done|]. cbn [fst snd]. destruct (Hnone (64 * (i + 1))) as [-> ->]; [lia| |split; [lia|done]]. intros k Hk. replace k with (k - (ch - 64 * i) + (ch - 64 * i)) by lia. rewrite <- testbit_shr by lia. rewrite E. apply Z.bits_0.
  - left. destruct (fast_ctz_spec (Z.shiftr w (ch - 64 * i)) ltac:(apply word64_shr; [done|lia]) E) as (c & -> & Hc & Hbit & Hlow). cbn [rbind]. rewrite testbit_shr in Hbit by lia.
    assert (Hk : 0 <= c + (ch - 64 * i) < 64). { split; [lia|]. destruct (Z.lt_ge_cases (c + (ch - 64 * i)) 64); [done|]. rewrite (testbit_word64_high w) in Hbit by (done || lia). done. }
    destruct (Hnone (ch + c)) as [Ht Hr]; [lia| |]. { intros k Hk'. replace k with (k - (ch - 64 * i) + (ch - 64 * i)) by lia. rewrite <- testbit_shr by lia. apply Hlow. lia. }
    rewrite <- Hr, <- Ht. assert (Hsum : ch + c = 64 * i + (c + (ch - 64 * i))) by lia. destruct (walk_move i (c + (ch - 64 * i)) Hi Hk Hbit) as (t & Em & Eg). rewrite <- Hsum in Em, Eg. setoid_rewrite Em. cbn [rbind]. eexists. split; [done|]. cbn [fst snd walked]. split; [|lia].
    split; [lia|]. split; [rewrite !Z.shiftr_shiftr by lia; f_equal; lia|]. split; [done|]. symmetry. by apply dense_visit_ok; [lia|].
Qed.

Lemma dense_for_each_move_ok curr : rd (states D) curr = Ok x -> for_each_move BlockN D curr = Ok (moves_of (pool D) x).
Proof.
  intros Hrd. pose proof (rd_range _ _ _ Hrd) as Hr. unfold for_each_move, state. rewrite (proj2 (Z.ltb_lt curr _)) by (unfold size; lia). cbn [assert_ rbind]. rewrite Hrd. cbn [rbind]. rewrite Hf. cbn [negb assert_ rbind]. pose proof (num_sparse_range x Hx) as Hns. pose proof Hp as [Hn _]. destruct (lengths x Hx) as [Hl HB].
  assert (Ha : (if negb (nil_state =? m_pos x) then (0 <? num_sparse x) || is_pzip_ x else (0 =? num_sparse x) && negb (is_pzip_ x)) = true).
  { rewrite Hz. cbn [negb]. rewrite andb_true_r, orb_false_r. destruct (Z.eqb_spec nil_state (m_pos x)) as [E|E]; cbn [negb]; [symmetry in E; apply Hn in E; rewrite E; done|]. apply Z.ltb_lt. destruct (Z.eq_dec (num_sparse x) 0) as [E'|]; [|lia]. apply Hn in E'. congruence. }
  rewrite Ha. cbn [assert_ rbind]. match goal with |- rbind (for_ 0 BlockN ?bd _) _ = _ => destruct (for_inv (fun i '(pos, out) => pos = rank (in_pool x) (64 * i) /\ out = table g (Z.to_nat (64 * i))) bd 0 BlockN (0, [])) as ([pos out] & -> & -> & ->); [lia|done| |] end.
  - intros i [pos out] Hi [-> ->]. rewrite !rd_word by lia. cbn [rbind]. match goal with |- context [loop 65 ?b _] => change b with (walk (word_at (dense x) i) (word_at (sparse x) i)) end.
    destruct (loop_inv (walked i) (fun s => 64 * (i + 1) - snd (fst (fst s))) (fun r => snd (fst (fst r)) <= (i + 1) * 64 /\ snd (fst r) = rank (in_pool x) (64 * (i + 1)) /\ snd r = table g (Z.to_nat (64 * (i + 1))))
      (walk (word_at (dense x) i) (word_at (sparse x) i)) 65 (Z.lor (word_at (dense x) i) (word_at (sparse x) i), 64 * i, rank (in_pool x) (64 * i), table g (Z.to_nat (64 * i)))) as ([[[bm ch] pos] out] & E & H1 & H2 & H3); [|cbn [fst snd]; lia|by apply dense_walk_ok|].
    + split; [lia|]. rewrite Z.sub_diag, Z.shiftr_0_r. done.
    + cbn [fst snd] in *. setoid_rewrite E. cbn [rbind]. rewrite (proj2 (Z.leb_le _ _)) by lia. cbn [assert_ rbind]. eexists. split; [done|]. by subst.
  - cbn [rbind]. change (64 * BlockN) with sigma. rewrite <- num_sparse_rank, Z.eqb_refl by done. done.
Qed.
End each.
End sigma.
End DenseMoves.
