(* ===== verification/DensePool.v ===== *)
(** * Targets in the pool

    A block of the pool as a list of targets: a target comes in, or goes. *)
From S2P Require Import Prelude MemPool MemPoolInv MemPoolOps MemPoolAlloc DenseDfa DenseMoves.
Import MemPool MemPoolInv MemPoolOps MemPoolAlloc DenseDfa.

Module DensePool.

Notation N p := (Z.of_nat (length (mem p))).

(** [p'] is a pool with the blocks [live]; those of [rest] hold what they held in [p]. *)
Record pool_ok (p p' : MemPool) (live rest : list (Z * Z)) : Prop := {
  p_rep : exists fast huge, rep p' live fast huge;
  p_kept : kept rest p p'
}.

Lemma pool_ok_trans p p1 p2 live1 live2 rest : pool_ok p p1 live1 rest -> pool_ok p1 p2 live2 rest -> pool_ok p p2 live2 rest.
Proof. intros [_ K1] [R2 K2]. split; [done|]. by apply (kept_trans rest p p1). Qed.

(** The words of a block change. *)
Lemma rewrite_block p ws b m rest fast huge : rep p ((b, m) :: rest) fast huge -> length ws = length (mem p) -> (forall y, 0 <= y -> ~ b <= y < b + m -> word_at ws y = word_at (mem p) y) -> pool_ok p (set_mem p ws) ((b, m) :: rest) rest.
Proof.
  intros Hr Hl Hw. pose proof (r_cells _ _ _ _ Hr) as Hnd. cbn [app] in Hnd. rewrite cells_cons in Hnd. apply list.NoDup_app in Hnd as (_ & Hd & _).
  assert (Hout : forall x, x ∈ cells (rest ++ free_blocks fast huge) -> word_at ws x = word_at (mem p) x).
  { intros x Hx. apply Hw; [apply (r_bounds _ _ _ _ Hr); cbn [app]; rewrite cells_cons, elem_of_app; by right|]. intros Hb. apply (Hd x); [by apply elem_of_seqZ|done]. }
  split; [|intros x Hx; apply Hout; rewrite cells_app, elem_of_app; by left]. exists fast, huge. apply (rep_frame p _ ((b, m) :: rest) _ fast huge Hr); try done; cbn [mem set_mem]; rewrite ?Hl; try apply Hr. intros x Hx. apply Hout. rewrite cells_app, elem_of_app. by right.
Qed.

Lemma copy_forward_ok p b i m : 0 <= b -> 1 <= i <= m -> b + m <= N p -> exists ws, copy_forward p (4 * b) i m = Ok (set_mem p ws) /\ length ws = length (mem p) /\
  forall y, 0 <= y -> word_at ws y = if (b + i - 1 <=? y) && (y <? b + m - 1) then word_at (mem p) (y + 1) else word_at (mem p) y.
Proof.
  intros Hb Hi Hm. unfold copy_forward. match goal with |- exists ws, for_ i m ?bd p = _ /\ _ => destruct (for_inv (fun j q => exists ws, q = set_mem p ws /\ length ws = length (mem p) /\
    forall y, 0 <= y -> word_at ws y = if (b + i - 1 <=? y) && (y <? b + j - 1) then word_at (mem p) (y + 1) else word_at (mem p) y) bd i m p) as (q & E & ws & -> & Hl & Hw); [lia| | |by exists ws] end.
  - exists (mem p). split; [by destruct p|]. split; [done|]. intros y Hy. destruct (Z.leb_spec (b + i - 1) y), (Z.ltb_spec y (b + i - 1)); (done || lia).
  - intros j q Hj (ws & -> & Hl & Hw). rewrite DenseMoves.trans_get_ok by (cbn [mem set_mem]; lia). cbn [rbind]. rewrite DenseMoves.trans_set_ok by (cbn [mem set_mem]; lia). eexists. split; [done|]. cbn [mem set_mem]. eexists. split; [done|]. split; [by rewrite length_insert|].
    intros y Hy. rewrite word_at_insert by lia. destruct (decide (y = b + (j - 1))) as [->|Hne].
    + rewrite (proj2 (Z.leb_le _ _)), (proj2 (Z.ltb_lt _ _)) by lia. cbn [andb]. rewrite Hw by lia. rewrite (proj2 (Z.ltb_ge (b + j) _)) by lia. rewrite andb_false_r. f_equal. lia.
    + rewrite Hw by done. replace (y <? b + (j + 1) - 1) with (y <? b + j - 1); [done|]. destruct (Z.ltb_spec y (b + j - 1)), (Z.ltb_spec y (b + (j + 1) - 1)); (done || lia).
Qed.

Lemma copy_backward_ok p b i m : 0 <= b -> 0 <= i <= m -> b + m < N p -> exists ws, copy_backward p (4 * b) i m = Ok (set_mem p ws) /\ length ws = length (mem p) /\
  forall y, 0 <= y -> word_at ws y = if (b + i <? y) && (y <=? b + m) then word_at (mem p) (y - 1) else word_at (mem p) y.
Proof.
  intros Hb Hi Hm. unfold copy_backward. match goal with |- exists ws, for_ 0 ?k ?bd p = _ /\ _ => destruct (for_inv (fun j q => exists ws, q = set_mem p ws /\ length ws = length (mem p) /\
    forall y, 0 <= y -> word_at ws y = if (b + m - j <? y) && (y <=? b + m) then word_at (mem p) (y - 1) else word_at (mem p) y) bd 0 k p) as (q & E & ws & -> & Hl & Hw); [lia| | |] end.
  - exists (mem p). split; [by destruct p|]. split; [done|]. intros y Hy. destruct (Z.ltb_spec (b + m - 0) y), (Z.leb_spec y (b + m)); (done || lia).
  - intros j q Hj (ws & -> & Hl & Hw). cbv zeta. rewrite DenseMoves.trans_get_ok by (cbn [mem set_mem]; lia). cbn [rbind]. rewrite DenseMoves.trans_set_ok by (cbn [mem set_mem]; lia). eexists. split; [done|]. cbn [mem set_mem]. eexists. split; [done|]. split; [by rewrite length_insert|].
    intros y Hy. rewrite word_at_insert by lia. destruct (decide (y = b + (m - j))) as [->|Hne].
    + rewrite (proj2 (Z.leb_le _ _)), (proj2 (Z.ltb_lt _ _)) by lia. cbn [andb]. rewrite Hw by lia. rewrite (proj2 (Z.ltb_ge (b + m - j) _)) by lia. cbn [andb]. f_equal. lia.
    + rewrite Hw by done. replace (b + m - (j + 1) <? y) with (b + m - j <? y); [done|]. destruct (Z.ltb_spec (b + m - j) y), (Z.ltb_spec (b + m - (j + 1)) y); (done || lia).
  - exists ws. split; [exact E|]. split; [done|]. intros y Hy. rewrite Hw by done. by replace (b + m - (m - i)) with (b + i) by lia.
Qed.

Section junk.
Context (rand_r : Z -> Z * Z) (junk : Z -> Z).
Context (p : MemPool) (rest : list (Z * Z)).

(** A block of one target. *)
Lemma first_target fast huge v : rep p rest fast huge -> 4 * (N p + 1) < 2 ^ 32 -> exists b p1 p', alloc rand_r junk p 4 = Ok (4 * b, p1) /\ set_at p1 (4 * b) v = Ok p' /\
  pool_ok p p' ((b, 1) :: rest) rest /\ N p' <= N p + 1 /\ word_at (mem p') b = v /\ 0 <= b < N p'.
Proof.
  intros Hr Hs. destruct (pool_alloc_ok junk rand_r p rest fast huge 1 4 Hr) as (b & p1 & E & fast1 & huge1 & H1 & _ & _ & K1 & N1 & _); [lia|lia|done|]. destruct (live_block_range p1 _ _ _ b 1 H1 ltac:(by left)) as (Hb & _ & Hb1).
  eexists b, p1, _. split; [done|]. split; [apply set_at_ok; lia|]. cbn [mem set_mem]. rewrite length_insert. split; [|split; [lia|split; [rewrite word_at_insert by lia; by rewrite decide_True|lia]]].
  apply (pool_ok_trans p p1 _ ((b, 1) :: rest)); [split; [by eexists _, _|done]|]. apply (rewrite_block p1 _ b 1 rest fast1 huge1 H1); [by rewrite length_insert|]. intros y Hy Hn. rewrite word_at_insert by lia. rewrite decide_False; [done|]. lia.
Qed.

Context (b m : Z) (fast : list (list Z)) (huge : list node).
Hypothesis (Hr : rep p ((b, m) :: rest) fast huge).

Lemma block_in : 0 <= b /\ 0 < m /\ b + m <= N p.
Proof. apply (live_block_range p _ _ _ b m Hr). by left. Qed.

Lemma write_target i v : 0 <= i < m -> exists p', trans_set p (4 * b) i v = Ok p' /\ pool_ok p p' ((b, m) :: rest) rest /\ N p' = N p /\ forall k, 0 <= k < m -> word_at (mem p') (b + k) = if k =? i then v else word_at (mem p) (b + k).
Proof.
  intros Hi. destruct block_in as (Hb & Hm & Hbm). rewrite DenseMoves.trans_set_ok by lia. eexists. split; [done|]. cbn [mem set_mem]. rewrite length_insert. split; [|split; [done|]].
  - apply (rewrite_block p _ b m rest fast huge Hr); [by rewrite length_insert|]. intros y Hy Hn. rewrite word_at_insert by lia. rewrite decide_False; [done|]. lia.
  - intros k Hk. rewrite word_at_insert by lia. destruct (Z.eqb_spec k i) as [->|]; [by rewrite decide_True|]. rewrite decide_False; [done|]. lia.
Qed.

(** The last target of the block goes. *)
Lemma drop_block : exists p', sfree rand_r p (4 * b) (4 * m) = Ok p' /\ pool_ok p p' rest rest /\ N p' <= N p.
Proof.
  destruct (sfree_ok rand_r p rest fast huge b m (4 * m) Hr) as (p' & E & fast' & huge' & H1 & _ & K1 & N1 & _); [lia|]. exists p'. split; [done|]. split; [|done]. split; [by eexists _, _|done].
Qed.

(** The target [i] goes. *)
Lemma remove_target i : 2 <= m -> 0 <= i < m -> exists p1 c p', copy_forward p (4 * b) (i + 1) m = Ok p1 /\ alloc3 rand_r junk p1 (4 * b) (4 * m) (4 * (m - 1)) = Ok (4 * c, p') /\
  pool_ok p p' ((c, m - 1) :: rest) rest /\ N p' <= N p /\ 0 <= c /\ c + (m - 1) <= N p' /\ forall k, 0 <= k < m - 1 -> word_at (mem p') (c + k) = word_at (mem p) (b + (if k <? i then k else k + 1)).
Proof.
  intros Hm Hi. destruct block_in as (Hb & _ & Hbm). destruct (copy_forward_ok p b (i + 1) m) as (ws & E & Hl & Hw); [lia|lia|lia|].
  assert (H1 : pool_ok p (set_mem p ws) ((b, m) :: rest) rest). { apply (rewrite_block p ws b m rest fast huge Hr Hl). intros y Hy Hn. rewrite Hw by done. destruct (Z.leb_spec (b + (i + 1) - 1) y), (Z.ltb_spec y (b + m - 1)); (done || lia). }
  pose proof (p_rep _ _ _ _ H1) as (fast1 & huge1 & Hr1). destruct (alloc3_ok junk rand_r (set_mem p ws) rest fast1 huge1 b m (m - 1) (4 * m) (4 * (m - 1)) Hr1) as (c & p' & E' & (fast2 & huge2 & Hr2 & _ & _ & K2 & _) & N2 & Hmv); [lia|lia|lia|lia|].
  destruct (live_block_range p' _ _ _ c (m - 1) Hr2 ltac:(by left)) as (Hc & _ & Hcm). eexists _, c, p'. split; [done|]. split; [done|]. cbn [mem set_mem] in *. rewrite Hl in N2. split; [|split; [apply N2; lia|split; [done|split; [done|]]]].
  - apply (pool_ok_trans p (set_mem p ws) p' ((b, m) :: rest)); [done|]. split; [by eexists _, _|done].
  - intros k Hk. rewrite Hmv, Hw by lia. destruct (Z.leb_spec (b + (i + 1) - 1) (b + k)), (Z.ltb_spec (b + k) (b + m - 1)), (Z.ltb_spec k i); try lia; cbn [andb]; (done || (f_equal; lia)).
Qed.

(** A target comes in at [i]. *)
Lemma insert_target i v : 0 <= i <= m -> 4 * (N p + (m + 1)) < 2 ^ 32 -> exists c p1 p2 p', alloc3 rand_r junk p (4 * b) (4 * m) (4 * (m + 1)) = Ok (4 * c, p1) /\ copy_backward p1 (4 * c) i m = Ok p2 /\ trans_set p2 (4 * c) i v = Ok p' /\
  pool_ok p p' ((c, m + 1) :: rest) rest /\ N p' <= N p + (m + 1) /\ 0 <= c /\ c + (m + 1) <= N p' /\ forall k, 0 <= k < m + 1 -> word_at (mem p') (c + k) = if k =? i then v else word_at (mem p) (b + (if k <? i then k else k - 1)).
Proof.
  intros Hi Hs. destruct block_in as (Hb & Hm & Hbm). destruct (alloc3_ok junk rand_r p rest fast huge b m (m + 1) (4 * m) (4 * (m + 1)) Hr) as (c & p1 & E1 & (fast1 & huge1 & Hr1 & _ & _ & K1 & N1 & _) & _ & Hmv); [lia|lia|lia|lia|].
  destruct (live_block_range p1 _ _ _ c (m + 1) Hr1 ltac:(by left)) as (Hc & _ & Hcm). destruct (copy_backward_ok p1 c i m) as (ws & E2 & Hl & Hw); [lia|lia|lia|]. set (ws' := <[Z.to_nat (c + i) := v]> ws).
  exists c, p1, (set_mem p1 ws), (set_mem p1 ws'). split; [done|]. split; [done|]. split; [apply DenseMoves.trans_set_ok; cbn [mem set_mem]; lia|]. cbn [mem set_mem]. assert (Hl' : length ws' = length (mem p1)) by (unfold ws'; by rewrite length_insert). rewrite Hl'.
  assert (Hw' : forall y, 0 <= y -> word_at ws' y = if y =? c + i then v else word_at ws y). { intros y Hy. unfold ws'. rewrite word_at_insert by lia. destruct (Z.eqb_spec y (c + i)) as [->|]; [by rewrite decide_True|by rewrite decide_False]. }
  split; [|split; [lia|split; [done|split; [lia|]]]].
  - apply (pool_ok_trans p p1 _ ((c, m + 1) :: rest)); [split; [by eexists _, _|done]|]. apply (rewrite_block p1 ws' c (m + 1) rest fast1 huge1 Hr1 Hl'). intros y Hy Hn. rewrite Hw' by done. rewrite (proj2 (Z.eqb_neq y _)) by lia. rewrite Hw by done. destruct (Z.ltb_spec (c + i) y), (Z.leb_spec y (c + m)); (done || lia).
  - intros k Hk. rewrite Hw' by lia. destruct (Z.eqb_spec (c + k) (c + i)), (Z.eqb_spec k i); try lia. rewrite Hw by lia. destruct (Z.ltb_spec (c + i) (c + k)), (Z.leb_spec (c + k) (c + m)), (Z.ltb_spec k i); try lia; cbn [andb].
    + replace (c + k - 1) with (c + (k - 1)) by lia. apply Hmv. lia.
    + apply Hmv. lia.
Qed.
End junk.
End DensePool.
