(* ===== verification/DenseOps.v ===== *)
(** * Operations on one state *)
From S2P Require Import Prelude Bits Dfa MemPool MemPoolInv MemPoolOps MemPoolAlloc DenseDfa DenseBits DenseMoves DensePool.
Import MemPool MemPoolInv MemPoolOps MemPoolAlloc DenseDfa DenseBits DenseMoves DensePool.

Module DenseOps.

Notation N p := (Z.of_nat (length (mem p))).

(** The block of a state. *)
Definition own (x : DenseState) : list (Z * Z) := if num_sparse x =? 0 then [] else [(m_pos x, num_sparse x)].

Lemma own_in x b : b ∈ own x <-> num_sparse x <> 0 /\ b = (m_pos x, num_sparse x).
Proof. unfold own. destruct (Z.eqb_spec (num_sparse x) 0); [split; [by intros ?%elem_of_nil|by intros [? _]]|]. rewrite list_elem_of_singleton. tauto. Qed.

Section sigma.
Context (BlockN : Z).
Hypothesis (HBlockN : 0 < BlockN < 2 ^ 20).
Notation sigma := (DenseDfa.sigma BlockN).
Notation bitmaps := (bitmaps BlockN).

Lemma sigma_range : 0 < sigma < 2 ^ 26.
Proof using HBlockN. unfold DenseDfa.sigma. lia. Qed.

(** What the operations keep for every state. *)
Record good_state (p : MemPool) (x : DenseState) : Prop := {
  g_bits : bitmaps x;
  g_placed : placed p x;
  g_nil : dense_target1 x = nil_state -> dense_target2 x = nil_state /\ forall c, 0 <= c < sigma -> bit_at (dense x) c = false;
  g_nil2 : dense_target2 x = nil_state -> forall c, 0 <= c < sigma -> bit_at (dense x) c = true -> bit_at (sparse x) c = false;
  g_targets : forall c t, 0 <= c < sigma -> target p x c = Some t -> 0 <= t < nil_state;
  g_pzip : is_pzip_ x = false;
  g_free : is_free_ x = false
}.

(** A state whose words are kept. *)
Lemma good_kept p p' x live rest : good_state p x -> pool_ok p p' live rest -> (forall b, b ∈ own x -> b ∈ rest) -> (forall b, b ∈ rest -> b ∈ live) -> good_state p' x /\ forall c, 0 <= c < sigma -> target p' x c = target p x c.
Proof.
  intros [G1 G2 G3 G4 G5 G6 G7] [(fast & huge & Hr) K] Hown Hrest. pose proof (num_sparse_range BlockN ltac:(lia) x G1) as Hns. assert (Hblk : num_sparse x <> 0 -> 0 <= m_pos x /\ m_pos x + num_sparse x <= N p').
  { intros Hn. destruct (live_block_range p' live fast huge (m_pos x) (num_sparse x) Hr) as (? & _ & ?); [|done]. apply Hrest, Hown, own_in. done. }
  assert (Ht : forall c, 0 <= c < sigma -> target p' x c = target p x c).
  { intros c Hc. unfold target. destruct (bit_at (dense x) c) eqn:Ed; [done|]. destruct (bit_at (sparse x) c) eqn:Es; [|done]. f_equal. destruct (in_pool_idx BlockN ltac:(lia) x c G1 Hc) as [H1 H2]; [unfold in_pool; by rewrite Ed, Es|].
    apply K. apply elem_of_cells. exists (m_pos x), (num_sparse x). split; [apply Hown, own_in; split; [lia|done]|lia]. }
  split; [|done]. split; try done.
  - destruct G2 as [P1 P2]. split; [done|]. intros Hn. apply Hblk. lia.
  - intros c t Hc. rewrite Ht by done. by apply G5.
Qed.

(** ** A target comes into the pool *)

(** The result of changing the state [x] to [x'] with the moves [f]. *)
Record becomes (p : MemPool) (rest : list (Z * Z)) (x : DenseState) (p' : MemPool) (x' : DenseState) (f : Z -> option Z) : Prop := {
  be_pool : pool_ok p p' (own x' ++ rest) rest;
  be_bits : bitmaps x';
  be_placed : placed p' x';
  be_target : forall c, 0 <= c < sigma -> target p' x' c = f c;
  be_flags : is_pzip_ x' = is_pzip_ x /\ is_term_ x' = is_term_ x /\ is_free_ x' = is_free_ x
}.

Lemma in_pool_count x x' c : bitmaps x -> bitmaps x' -> 0 <= c < sigma -> in_pool x c = false -> in_pool x' c = true -> (forall i, 0 <= i -> i <> c -> in_pool x' i = in_pool x i) -> num_sparse x' = num_sparse x + 1.
Proof.
  intros Hx Hx' Hc H1 H2 Ho. rewrite !num_sparse_rank with (BlockN := BlockN) by (done || lia). rewrite (rank_change (in_pool x) (in_pool x') c) by (done || lia). rewrite (proj2 (Z.ltb_lt c _)) by lia. rewrite H1, H2. cbn. lia.
Qed.

Lemma insert_sparse_ok rand_r junk D (i : nat) x target0 ch rest fast huge : bitmaps x -> placed (pool D) x -> rep (pool D) (own x ++ rest) fast huge -> (i < length (states D))%nat ->
  0 <= ch < sigma -> bit_at (dense x) ch = false -> bit_at (sparse x) ch = false -> 0 <= target0 < nil_state -> 4 * (N (pool D) + sigma) < 2 ^ 32 -> exists p' x',
  insert_sparse BlockN rand_r junk D (Z.of_nat i) x target0 ch (rank (in_pool x) ch) (num_sparse x) = Ok (add_num (set_states (set_pool D p') (<[i := x']> (states D))) 1) /\
  becomes (pool D) rest x p' x' (fun c => if c =? ch then Some target0 else target (pool D) x c) /\ N p' <= N (pool D) + sigma /\
  dense x' = dense x /\ (forall c, 0 <= c -> bit_at (sparse x') c = if c =? ch then true else bit_at (sparse x) c) /\ dense_target1 x' = dense_target1 x /\ dense_target2 x' = dense_target2 x.
Proof.
  intros Hx Hp Hr Hi Hch Hd Hs Ht Hsize. pose proof sigma_range as Hsg. pose proof Hx as [Hbd Hbs]. destruct (set1_ok BlockN (sparse x) ch Hbs Hch) as (bits & Ebits & Hbits & Hbit). pose proof (num_sparse_range BlockN ltac:(lia) x Hx) as Hns.
  assert (H0 : in_pool x ch = false) by (unfold in_pool; by rewrite Hs, andb_false_r).
  set (x1 := fun b => set_m_pos (set_bits x (dense x) bits) b). assert (Hx1 : forall b, bitmaps (x1 b)) by (by split).
  assert (Hpool1 : forall b c, 0 <= c -> in_pool (x1 b) c = if c =? ch then true else in_pool x c). { intros b c Hc. unfold in_pool. cbn [x1 dense sparse set_m_pos set_bits]. rewrite Hbit by done. destruct (Z.eqb_spec c ch) as [->|]; [by rewrite Hd|done]. }
  assert (Hcount : forall b, num_sparse (x1 b) = num_sparse x + 1). { intros b. apply (in_pool_count x (x1 b) ch); try done; [by rewrite Hpool1, Z.eqb_refl by lia|]. intros c Hc Hne. rewrite Hpool1 by done. by rewrite (proj2 (Z.eqb_neq c ch)). }
  assert (Hns1 : num_sparse x + 1 <= sigma). { rewrite <- (Hcount 0). by apply (num_sparse_range BlockN); [lia|]. }
  assert (Hidx : 0 <= rank (in_pool x) ch <= num_sparse x). { rewrite (num_sparse_rank BlockN) by (done || lia). pose proof (rank_mono (in_pool x) ch sigma ltac:(lia)). pose proof (rank_bounds (in_pool x) ch). lia. }
  (* what remains when the pool has the new block [b] *)
  assert (Hfin : forall b p', 0 <= b -> b + (num_sparse x + 1) <= N p' -> N p' <= N (pool D) + sigma -> pool_ok (pool D) p' ((b, num_sparse x + 1) :: rest) rest ->
    (forall k, 0 <= k < num_sparse x + 1 -> word_at (mem p') (b + k) = if k =? rank (in_pool x) ch then target0 else word_at (mem (pool D)) (m_pos x + (if k <? rank (in_pool x) ch then k else k - 1))) ->
    (let* bits := set1 BlockN (sparse x) ch in let* s := setpos (set_bits x (dense x) bits) (4 * b) in let* D' := put_state (set_pool D p') (Z.of_nat i) s in Ok (add_num D' 1)) = Ok (add_num (set_states (set_pool D p') (<[i := x1 b]> (states D))) 1) /\
    becomes (pool D) rest x p' (x1 b) (fun c => if c =? ch then Some target0 else target (pool D) x c)).
  { intros b p' Hb Hbm HN Hok Hw. assert (Hb32 : b < 2 ^ 30) by lia. split.
    - rewrite Ebits. cbn [rbind]. unfold setpos, PoolAlign, max_state. replace (4 * b / 4) with b by (rewrite Z.mul_comm, Z.div_mul; lia). rewrite (proj2 (Z.ltb_lt b _)) by lia. cbn [assert_ rbind]. rewrite u32_small by lia. unfold put_state. cbn [states set_pool]. rewrite wr_ok by lia. cbn [rbind]. by rewrite Nat2Z.id.
    - split; try done.
      + unfold own. rewrite Hcount. rewrite (proj2 (Z.eqb_neq _ 0)) by lia. exact Hok.
      + unfold placed. rewrite Hcount. cbn [x1 m_pos set_m_pos]. unfold nil_state. split; [split; lia|done].
      + intros c Hc. unfold target. cbn [x1 dense sparse set_m_pos set_bits dense_target1 dense_target2 m_pos]. fold (x1 b). rewrite Hbit by lia.
        assert (Hrank : rank (in_pool (x1 b)) c = rank (in_pool x) c + if ch <? c then 1 else 0).
        { rewrite (rank_change (in_pool x) (in_pool (x1 b)) ch) by (lia || (intros k Hk Hne; rewrite Hpool1 by done; by rewrite (proj2 (Z.eqb_neq k ch)))). rewrite Hpool1, Z.eqb_refl, H0 by lia. done. }
        rewrite Hrank. destruct (Z.eqb_spec c ch) as [->|Hne].
        * rewrite Hd, Z.ltb_irrefl, Z.add_0_r. f_equal. rewrite Hw by lia. by rewrite Z.eqb_refl.
        * destruct (bit_at (dense x) c) eqn:Ed; [done|]. destruct (bit_at (sparse x) c) eqn:Es; [|done]. f_equal. assert (Hcp : in_pool x c = true) by (unfold in_pool; by rewrite Ed, Es). destruct (in_pool_idx BlockN ltac:(lia) x c Hx Hc Hcp) as [K1 K2].
          destruct (Z.ltb_spec ch c) as [Hlt|Hge].
          -- pose proof (rank_mono (in_pool x) ch c ltac:(lia)). rewrite Hw by lia. rewrite (proj2 (Z.eqb_neq _ _)) by lia. rewrite (proj2 (Z.ltb_ge _ _)) by lia. f_equal. lia.
          -- pose proof (rank_lt (in_pool x) c ch ltac:(lia) Hcp). rewrite Hw by lia. rewrite Z.add_0_r. rewrite (proj2 (Z.eqb_neq _ _)) by lia. rewrite (proj2 (Z.ltb_lt _ _)) by lia. done. }
  unfold insert_sparse. rewrite u32_small by (unfold nil_state in Ht; lia). destruct Hp as [Hpn Hpr]. destruct (Z.eqb_spec nil_state (m_pos x)) as [En|En].
  - symmetry in En. apply Hpn in En as En0. unfold own in Hr. rewrite En0 in Hr. cbn [Z.eqb app] in Hr. rewrite En0 in Hidx. assert (rank (in_pool x) ch = 0) as Eidx by lia. rewrite En0, Eidx. cbn [assert_ rbind Z.eqb].
    destruct (first_target rand_r junk (pool D) rest fast huge target0 Hr) as (b & p1 & p' & E1 & E2 & Hok & HN & Hw & Hb); [lia|]. rewrite E1. cbn [rbind]. rewrite E2. cbn [rbind]. destruct (Hfin b p') as [E3 HB]; [lia|lia|lia|by rewrite En0|intros k Hk; rewrite En0 in Hk; assert (k = 0) as -> by lia; rewrite Eidx, Z.eqb_refl, Z.add_0_r; done|].
    exists p', (x1 b). rewrite E3. split; [done|]. split; [done|]. split; [lia|]. split; [done|]. split; [|done]. intros c Hc. cbn [x1 sparse set_m_pos set_bits]. by apply Hbit.
  - assert (Hn0 : num_sparse x <> 0) by (intros E; apply Hpn in E; congruence). rewrite (proj2 (Z.eqb_neq 0 _)) by lia. cbn [negb assert_ rbind]. unfold own in Hr. rewrite (proj2 (Z.eqb_neq _ _) Hn0) in Hr. cbn [app] in Hr.
    destruct (insert_target rand_r junk (pool D) rest (m_pos x) (num_sparse x) fast huge Hr (rank (in_pool x) ch) target0) as (c & p1 & p2 & p' & E1 & E2 & E3 & Hok & HN & Hc & Hcm & Hw); [lia|lia|]. rewrite getpos_words, E1. cbn [rbind]. rewrite E2. cbn [rbind]. rewrite E3. cbn [rbind].
    destruct (Hfin c p') as [E4 HB]; [lia|lia|lia|done|done|]. exists p', (x1 c). rewrite E4. split; [done|]. split; [done|]. split; [lia|]. split; [done|]. split; [|done]. intros c' Hc'. cbn [x1 sparse set_m_pos set_bits]. by apply Hbit.
Qed.

(** ** A target leaves the pool *)

Definition removing rand_r junk (p : MemPool) (x : DenseState) (idx : Z) : res (DenseState * MemPool) :=
  if 1 =? num_sparse x then let* p := sfree rand_r p (getpos x) (4 * num_sparse x) in Ok (set_m_pos x nil_state, p)
  else let* p := copy_forward p (getpos x) (idx + 1) (num_sparse x) in
    let* (newpos, p) := alloc3 rand_r junk p (getpos x) (4 * num_sparse x) (4 * (num_sparse x - 1)) in
    let* x := setpos x newpos in Ok (x, p).

Lemma remove_sparse_ok rand_r junk p x ch rest fast huge : bitmaps x -> placed p x -> rep p (own x ++ rest) fast huge -> 0 <= ch < sigma -> in_pool x ch = true -> exists p' b,
  removing rand_r junk p x (rank (in_pool x) ch) = Ok (set_m_pos x b, p') /\ N p' <= N p /\
  forall x2, bitmaps x2 -> m_pos x2 = b -> (forall c, 0 <= c -> in_pool x2 c = if c =? ch then false else in_pool x c) ->
    pool_ok p p' (own x2 ++ rest) rest /\ placed p' x2 /\ forall c, 0 <= c < sigma -> c <> ch -> in_pool x c = true -> word_at (mem p') (m_pos x2 + rank (in_pool x2) c) = word_at (mem p) (m_pos x + rank (in_pool x) c).
Proof.
  intros Hx Hp Hr Hch Hin. pose proof sigma_range as Hsg. destruct (in_pool_idx BlockN ltac:(lia) x ch Hx Hch Hin) as [Hi1 Hi2]. destruct Hp as [Hpn Hpr]. unfold own in Hr. rewrite (proj2 (Z.eqb_neq (num_sparse x) 0)) in Hr by lia. cbn [app] in Hr.
  assert (Hcount : forall x2, bitmaps x2 -> (forall c, 0 <= c -> in_pool x2 c = if c =? ch then false else in_pool x c) -> num_sparse x = num_sparse x2 + 1).
  { intros x2 Hx2 H2. apply (in_pool_count x2 x ch); try done; [by rewrite H2, Z.eqb_refl by lia|]. intros c Hc Hne. rewrite H2 by done. by rewrite (proj2 (Z.eqb_neq c ch)). }
  assert (Hrank : forall x2 c, (forall c, 0 <= c -> in_pool x2 c = if c =? ch then false else in_pool x c) -> 0 <= c -> rank (in_pool x2) c = rank (in_pool x) c - if ch <? c then 1 else 0).
  { intros x2 c H2 Hc. rewrite (rank_change (in_pool x) (in_pool x2) ch) by (lia || (intros k Hk Hne; rewrite H2 by done; by rewrite (proj2 (Z.eqb_neq k ch)))). rewrite H2, Z.eqb_refl, Hin by lia. destruct (ch <? c); cbn; lia. }
  unfold removing. destruct (Z.eqb_spec 1 (num_sparse x)) as [E1|E1].
  - destruct (drop_block rand_r p rest (m_pos x) (num_sparse x) fast huge Hr) as (p' & E & Hok & HN). rewrite getpos_words, E. cbn [rbind]. exists p', nil_state. split; [done|]. split; [done|]. intros x2 Hx2 Hm H2. pose proof (Hcount x2 Hx2 H2) as Hc2. assert (num_sparse x2 = 0) as E2 by lia.
    split; [unfold own; by rewrite E2|]. split; [split; [by rewrite Hm|lia]|]. intros c Hc Hne Hcin. exfalso. destruct (in_pool_idx BlockN ltac:(lia) x c Hx Hc Hcin) as [K1 K2]. apply Hne. apply (rank_inj (in_pool x)); (done || lia).
  - destruct (remove_target rand_r junk p rest (m_pos x) (num_sparse x) fast huge Hr (rank (in_pool x) ch)) as (p1 & b & p' & E2 & E3 & Hok & HN & Hb & Hbm & Hw); [lia|lia|]. rewrite getpos_words, E2. cbn [rbind]. rewrite E3. cbn [rbind].
    pose proof (p_rep _ _ _ _ Hok) as (f' & h' & Hr'). pose proof (r_size _ _ _ _ Hr') as Hsz. unfold setpos, PoolAlign, max_state. replace (4 * b / 4) with b by (rewrite Z.mul_comm, Z.div_mul; lia). rewrite (proj2 (Z.ltb_lt b _)) by lia. cbn [assert_ rbind]. rewrite u32_small by lia.
    exists p', b. split; [done|]. split; [done|]. intros x2 Hx2 Hm H2. pose proof (Hcount x2 Hx2 H2) as Hc2. split; [unfold own; rewrite (proj2 (Z.eqb_neq _ 0)) by lia; rewrite Hm; by replace (num_sparse x2) with (num_sparse x - 1) by lia|].
    split; [split; [rewrite Hm; unfold nil_state; split; lia|rewrite Hm; lia]|]. intros c Hc Hne Hcin. destruct (in_pool_idx BlockN ltac:(lia) x c Hx Hc Hcin) as [K1 K2]. rewrite Hm, Hrank by (done || lia). destruct (Z.ltb_spec ch c) as [Hlt|Hge].
    + pose proof (rank_lt (in_pool x) ch c ltac:(lia) Hin). rewrite Hw by lia. rewrite (proj2 (Z.ltb_ge _ _)) by lia. do 2 f_equal. lia.
    + pose proof (rank_lt (in_pool x) c ch ltac:(lia) Hcin). rewrite Hw by lia. rewrite (proj2 (Z.ltb_lt _ _)) by lia. do 2 f_equal. lia.
Qed.
End sigma.
End DenseOps.
