(* ===== verification/DenseInv.v ===== *)
(** * The invariant of an automaton with bitmaps *)
From S2P Require Import Prelude Bits Dfa MemPool MemPoolInv MemPoolOps MemPoolAlloc DenseDfa DenseBits DenseMoves DensePool DenseOps.
Import MemPool MemPoolInv MemPoolOps MemPoolAlloc DenseDfa DenseBits DenseMoves DensePool DenseOps.

Module DenseInv.

Notation N p := (Z.of_nat (length (mem p))).

(** The blocks of all states. *)
Definition owned (l : list DenseState) : list (Z * Z) := concat (map own l).

Lemma owned_in l b : b ∈ owned l <-> exists x, x ∈ l /\ b ∈ own x.
Proof.
  unfold owned. rewrite list_elem_of_In, in_concat. split.
  - intros (y & Hy & Hb). apply in_map_iff in Hy as (x & <- & Hx). exists x. split; by apply list_elem_of_In.
  - intros (x & Hx & Hb). exists (own x). apply list_elem_of_In in Hx. apply list_elem_of_In in Hb. split; [by apply in_map|done].
Qed.

Lemma owned_perm l i x : l !! i = Some x -> owned l ≡ₚ own x ++ owned (delete i l).
Proof.
  revert i. induction l as [|y l IH]; intros [|i] Hi; [done|done|by injection Hi as ->|]. change (owned (y :: l)) with (own y ++ owned l). change (owned (delete (S i) (y :: l))) with (own y ++ owned (delete i l)).
  rewrite (IH i Hi), !app_assoc. by rewrite (Permutation_app_comm (own y)).
Qed.

Lemma delete_insert_id {A} (l : list A) i x : delete i (<[i := x]> l) = delete i l.
Proof. revert i. induction l as [|y l IH]; intros [|i]; [done|done|done|]. cbn. f_equal. apply IH. Qed.

Lemma owned_insert l i x : (i < length l)%nat -> owned (<[i := x]> l) ≡ₚ own x ++ owned (delete i l).
Proof. intros Hi. rewrite (owned_perm (<[i := x]> l) i x) by (by apply list_lookup_insert_eq). by rewrite delete_insert_id. Qed.

Section sigma.
Context (BlockN : Z).
Hypothesis (HBlockN : 0 < BlockN < 2 ^ 20).
Notation sigma := (DenseDfa.sigma BlockN).
Notation bitmaps := (bitmaps BlockN).
Notation good_state := (good_state BlockN).
Notation becomes := (becomes BlockN).

(** How many moves a state has. *)
Definition num_moves (x : DenseState) : Z := rank (fun c => bit_at (dense x) c || bit_at (sparse x) c) sigma.

Definition count_moves (f : Z -> option Z) : Z := rank (fun c => bool_decide (is_Some (f c))) sigma.

Lemma target_some p x c : bool_decide (is_Some (target p x c)) = bit_at (dense x) c || bit_at (sparse x) c.
Proof. unfold target. destruct (bit_at (dense x) c), (bit_at (sparse x) c); cbn [orb]; try (apply bool_decide_eq_true; by eexists). apply bool_decide_eq_false. by intros [? ?]. Qed.

Lemma num_moves_target p x : num_moves x = count_moves (target p x).
Proof. apply rank_ext. intros c Hc. by rewrite target_some. Qed.

Lemma count_ext f g : (forall c, 0 <= c < sigma -> f c = g c) -> count_moves f = count_moves g.
Proof. intros Hf. apply rank_ext. intros c Hc. by rewrite Hf. Qed.

Lemma count_change f c v : 0 <= c < sigma -> count_moves (fun i => if i =? c then v else f i) = count_moves f + (match v with Some _ => 1 | None => 0 end - match f c with Some _ => 1 | None => 0 end).
Proof.
  intros Hc. unfold count_moves. rewrite (rank_change (fun i => bool_decide (is_Some (f i))) _ c) by (lia || (intros i Hi Hne; by rewrite (proj2 (Z.eqb_neq i c)))). rewrite (proj2 (Z.ltb_lt c _)), Z.eqb_refl by lia.
  destruct v, (f c); rewrite ?bool_decide_eq_true_2, ?bool_decide_eq_false_2 by (by eexists || by intros [? ?]); cbn; lia.
Qed.

(** ** The invariant *)

Record inv (D : DenseDFA) : Prop := {
  i_rep : exists fast huge, rep (pool D) (owned (states D)) fast huge;
  i_good : forall i x, states D !! i = Some x -> good_state (pool D) x;
  i_size : 1 <= size D <= max_state;
  i_free : firstFreeState D = nil_state /\ numFreeStates D = 0;
  i_zpath : m_zpath_states D = 0;
  i_count : transition_num D = zsum (map num_moves (states D))
}.

Definition term_of (D : DenseDFA) (s : Z) : bool := match rd (states D) s with Ok x => is_term_ x | _ => false end.
Definition move_of (D : DenseDFA) (s c : Z) : option Z := match rd (states D) s with Ok x => target (pool D) x c | _ => None end.

(** [D'] is [D] but for the state [s], which is final or not as [t] says and has the moves
    [f]. *)
Record changed (D D' : DenseDFA) (s : Z) (t : bool) (f : Z -> option Z) : Prop := {
  c_size : size D' = size D;
  c_other : forall j, j <> Z.to_nat s -> states D' !! j = states D !! j;
  c_term : forall j, 0 <= j < size D -> term_of D' j = if j =? s then t else term_of D j;
  c_move : forall j c, 0 <= j < size D -> 0 <= c < sigma -> move_of D' j c = if j =? s then f c else move_of D j c
}.

Lemma dense_state_rd D s : 0 <= s < size D -> exists x, rd (states D) s = Ok x /\ states D !! Z.to_nat s = Some x.
Proof. intros Hs. unfold size in Hs. destruct (lookup_lt_is_Some_2 (states D) (Z.to_nat s)) as [x Hx]; [lia|]. exists x. split; [|done]. apply rd_ok; [lia|done]. Qed.

Lemma state_ok D s x : 0 <= s < size D -> states D !! Z.to_nat s = Some x -> state D s = Ok x.
Proof. intros Hs Hx. unfold state. rewrite (proj2 (Z.ltb_lt _ _)) by lia. cbn [assert_ rbind]. apply rd_ok; [lia|done]. Qed.

Lemma dense_sum_insert {A} (f : A -> Z) l i x y : l !! i = Some x -> zsum (map f (<[i := y]> l)) = zsum (map f l) + (f y - f x).
Proof.
  revert i. induction l as [|z l IH]; intros [|i] Hi; [done|done| |].
  - injection Hi as ->. change (<[0%nat := y]> (x :: l)) with (y :: l). cbn [map]. rewrite !zsum_cons. lia.
  - change (<[S i := y]> (z :: l)) with (z :: <[i := y]> l). cbn [map]. rewrite !zsum_cons, (IH i Hi). lia.
Qed.

Lemma inv_rep D s x : inv D -> states D !! Z.to_nat s = Some x -> exists fast huge, rep (pool D) (own x ++ owned (delete (Z.to_nat s) (states D))) fast huge.
Proof. intros HI Hx. destruct (i_rep D HI) as (fast & huge & Hr). exists fast, huge. apply (rep_live_perm _ _ _ _ _ Hr). by apply owned_perm. Qed.

(** A state changes. *)
Lemma update_ok D s x p' x' f k : inv D -> 0 <= s < size D -> states D !! Z.to_nat s = Some x -> becomes (pool D) (owned (delete (Z.to_nat s) (states D))) x p' x' f ->
  (dense_target1 x' = nil_state -> dense_target2 x' = nil_state /\ forall c, 0 <= c < sigma -> bit_at (dense x') c = false) ->
  (dense_target2 x' = nil_state -> forall c, 0 <= c < sigma -> bit_at (dense x') c = true -> bit_at (sparse x') c = false) ->
  (forall c t, 0 <= c < sigma -> f c = Some t -> 0 <= t < nil_state) -> k = count_moves f - num_moves x ->
  inv (add_num (set_states (set_pool D p') (<[Z.to_nat s := x']> (states D))) k) /\ changed D (add_num (set_states (set_pool D p') (<[Z.to_nat s := x']> (states D))) k) s (is_term_ x) f.
Proof.
  intros HI Hs Hx [B1 B2 B3 B4 (B5 & B6 & B7)] Hn1 Hn2 Hf ->. set (rest := owned (delete (Z.to_nat s) (states D))) in *. set (D' := add_num _ _). pose proof (i_good D HI _ x Hx) as Gx.
  assert (Hlen : (Z.to_nat s < length (states D))%nat) by (by eapply lookup_lt_Some). assert (Hsz : size D' = size D) by (unfold size; cbn; by rewrite length_insert).
  assert (Hother : forall j y, j <> Z.to_nat s -> states D !! j = Some y -> good_state p' y /\ forall c, 0 <= c < sigma -> target p' y c = target (pool D) y c).
  { intros j y Hj Hy. apply (good_kept BlockN HBlockN (pool D) p' y (own x' ++ rest) rest); [by apply (i_good D HI j)|done| |].
    - intros b Hb. unfold rest. apply owned_in. exists y. split; [|done]. destruct (decide (j < Z.to_nat s)%nat).
      + apply (list_elem_of_lookup_2 _ j). by rewrite list_lookup_delete_lt.
      + apply (list_elem_of_lookup_2 _ (j - 1)). rewrite list_lookup_delete_ge by lia. by replace (S (j - 1)) with j by lia.
    - intros b Hb. apply elem_of_app. by right. }
  split.
  - split; cbn [pool states set_pool set_states add_num D' firstFreeState numFreeStates m_zpath_states transition_num].
    + destruct (p_rep _ _ _ _ B1) as (fast & huge & Hr). exists fast, huge. apply (rep_live_perm _ _ _ _ _ Hr). symmetry. by apply owned_insert.
    + intros j y Hy. destruct (decide (j = Z.to_nat s)) as [->|Hne]; [|rewrite list_lookup_insert_ne in Hy by done; by apply (Hother j)]. rewrite list_lookup_insert_eq in Hy by done. injection Hy as <-.
      split; try done; [|by rewrite B5; apply Gx|by rewrite B7; apply Gx]. intros c t Hc. rewrite B4 by done. by apply Hf.
    + change (1 <= size D' <= max_state). rewrite Hsz. apply (i_size D HI).
    + apply (i_free D HI).
    + apply (i_zpath D HI).
    + rewrite (dense_sum_insert num_moves _ _ x) by done. rewrite (i_count D HI). rewrite (num_moves_target p' x'), (count_ext _ f B4). done.
  - split; [done|intros j Hj; cbn [states set_pool set_states add_num D']; by apply list_lookup_insert_ne| |].
    + intros j Hj. unfold term_of. cbn [states set_pool set_states add_num D']. rewrite insert_rd by (unfold size in *; lia). destruct (j =? s); [done|reflexivity].
    + intros j c Hj Hc. unfold move_of. cbn [states set_pool set_states add_num D' pool]. rewrite insert_rd by (unfold size in *; lia). destruct (Z.eqb_spec j s) as [->|Hne]; [by apply B4|]. destruct (dense_state_rd D j Hj) as (y & -> & Hy). destruct (Hother (Z.to_nat j) y) as [_ Ht]; [lia|done|]. by apply Ht.
Qed.

(** ** Changes of bits alone *)

Lemma bits_becomes p rest x x' f fast huge : bitmaps x -> placed p x -> rep p (own x ++ rest) fast huge -> bitmaps x' -> m_pos x' = m_pos x -> (forall c, 0 <= c -> in_pool x' c = in_pool x c) ->
  is_pzip_ x' = is_pzip_ x /\ is_term_ x' = is_term_ x /\ is_free_ x' = is_free_ x -> (forall c, 0 <= c < sigma -> target p x' c = f c) -> becomes p rest x p x' f.
Proof.
  intros Hx Hp Hr Hx' Hm Hin Hfl Hf. assert (Hns : num_sparse x' = num_sparse x). { rewrite !(num_sparse_rank BlockN) by (done || lia). apply rank_ext. intros c Hc. apply Hin. lia. }
  split; try done.
  - split; [|done]. unfold own. rewrite Hns, Hm. fold (own x). by eexists _, _.
  - unfold placed. by rewrite Hns, Hm.
Qed.

(** Characters other than the one that changes. *)
Lemma target_same p p' x x' c : bit_at (dense x') c = bit_at (dense x) c -> bit_at (sparse x') c = bit_at (sparse x) c ->
  (bit_at (dense x) c = true -> (if bit_at (sparse x) c then dense_target2 x' else dense_target1 x') = (if bit_at (sparse x) c then dense_target2 x else dense_target1 x)) ->
  (in_pool x c = true -> word_at (mem p') (m_pos x' + rank (in_pool x') c) = word_at (mem p) (m_pos x + rank (in_pool x) c)) -> target p' x' c = target p x c.
Proof.
  intros Hd Hs Ht Hw. unfold target. rewrite Hd, Hs. unfold in_pool in Hw at 1. destruct (bit_at (dense x) c); [by rewrite Ht|]. destruct (bit_at (sparse x) c); [by rewrite Hw|done].
Qed.
End sigma.
End DenseInv.
