(* ===== verification/DenseSteps.v ===== *)
(** * The operations of an automaton with bitmaps *)
From S2P Require Import Prelude Bits Dfa MemPool MemPoolInv MemPoolOps MemPoolAlloc DenseDfa DenseBits DenseMoves DensePool DenseOps DenseInv.
Import MemPool MemPoolInv MemPoolOps MemPoolAlloc DenseDfa DenseBits DenseMoves DensePool DenseOps DenseInv.

Module DenseSteps.

Notation N p := (Z.of_nat (length (mem p))).

Lemma put_state_ok D s x : 0 <= s < size D -> put_state D s x = Ok (set_states D (<[Z.to_nat s := x]> (states D))).
Proof. intros Hs. unfold put_state. by rewrite wr_ok by (unfold size in Hs; lia). Qed.

Lemma dense_eq0 D l : set_states D l = add_num (set_states (set_pool D (pool D)) l) 0.
Proof. destruct D. unfold set_states, add_num, set_pool. cbn. by rewrite Z.add_0_r. Qed.

Lemma dense_eq D l k : add_num (set_states D l) k = add_num (set_states (set_pool D (pool D)) l) k.
Proof. by destruct D. Qed.

Lemma dense_eq1 D l p k m : add_num (set_states (set_pool (add_num D k) p) l) m = add_num (set_states (set_pool D p) l) (k + m).
Proof. destruct D. unfold set_states, add_num, set_pool. cbn. by rewrite Z.add_assoc. Qed.

(** A function changed in one place. *)
Definition upd_move (f : Z -> option Z) (c : Z) (v : option Z) (i : Z) : option Z := if i =? c then v else f i.

Section sigma.
Context (BlockN : Z).
Hypothesis (HBlockN : 0 < BlockN < 2 ^ 20).
Notation sigma := (DenseDfa.sigma BlockN).
Notation bitmaps := (bitmaps BlockN).
Notation good_state := (good_state BlockN).
Notation becomes := (becomes BlockN).
Notation inv := (inv BlockN).
Notation changed := (changed BlockN).

Lemma HB : 0 < BlockN.
Proof using HBlockN. lia. Qed.
Hint Resolve HB : core.

Lemma upd_targets p x c v : good_state p x -> (forall t, v = Some t -> 0 <= t < nil_state) -> forall i t, 0 <= i < sigma -> upd_move (target p x) c v i = Some t -> 0 <= t < nil_state.
Proof. intros G Hv i t Hi. unfold upd_move. destruct (i =? c); [apply Hv|by apply (g_targets _ _ _ G)]. Qed.

(** ** Reading *)

Lemma dense_state_move_ok D s c : inv D -> 0 <= s < size D -> 0 <= c < sigma -> state_move BlockN D s c = Ok (match move_of D s c with Some t => t | None => nil_state end).
Proof.
  intros HI Hs Hc. destruct (dense_state_rd D s Hs) as (x & Hrd & Hx). pose proof (i_good _ D HI _ x Hx) as G. unfold state_move, move_of. rewrite (state_ok D s x Hs Hx), Hrd. cbn [rbind]. rewrite (g_free _ _ _ G). cbn [negb assert_ rbind].
  apply state_move_of_ok; [done|apply G|apply G|done].
Qed.

Lemma each_move_ok D s : inv D -> 0 <= s < size D -> for_each_move BlockN D s = Ok (table (move_of D s) (Z.to_nat sigma)).
Proof.
  intros HI Hs. destruct (dense_state_rd D s Hs) as (x & Hrd & Hx). pose proof (i_good _ D HI _ x Hx) as G. rewrite (dense_for_each_move_ok BlockN HB D x (g_bits _ _ _ G) (g_placed _ _ _ G) (g_pzip _ _ _ G) (g_free _ _ _ G) s Hrd).
  unfold moves_of, move_of. rewrite Hrd. done.
Qed.

(** ** Final states *)

Lemma set_term_ok D s x b : inv D -> 0 <= s < size D -> states D !! Z.to_nat s = Some x -> inv (set_states D (<[Z.to_nat s := set_term x b]> (states D))) /\ changed D (set_states D (<[Z.to_nat s := set_term x b]> (states D))) s b (move_of D s).
Proof.
  intros HI Hs Hx. pose proof (i_good _ D HI _ x Hx) as G. assert (Hlen : (Z.to_nat s < length (states D))%nat) by (by eapply lookup_lt_Some). split.
  - destruct HI as [(fast & huge & R) I2 I3 I4 I5 I6]. split; cbn [pool states set_states firstFreeState numFreeStates m_zpath_states transition_num]; try done.
    + exists fast, huge. apply (rep_live_perm _ _ _ _ _ R). rewrite (owned_perm _ _ _ Hx), owned_insert by done. done.
    + intros j y Hy. destruct (decide (j = Z.to_nat s)) as [->|Hne]; [|rewrite list_lookup_insert_ne in Hy by done; by apply (I2 j)]. rewrite list_lookup_insert_eq in Hy by done. injection Hy as <-. destruct G as [G1 G2 G3 G4 G5 G6 G7]. by split.
    + unfold size. cbn. rewrite length_insert. exact I3.
    + rewrite (dense_sum_insert (num_moves BlockN) _ _ x) by done. rewrite I6. change (num_moves BlockN (set_term x b)) with (num_moves BlockN x). lia.
  - assert (Hin : 0 <= s < Z.of_nat (length (states D))) by (unfold size in Hs; lia). split; [unfold size; cbn; by rewrite length_insert|intros j Hj; by apply list_lookup_insert_ne| |].
    + intros j Hj. unfold term_of. cbn [states set_states]. rewrite insert_rd by (unfold size in *; lia). by destruct (j =? s).
    + intros j c Hj Hc. unfold move_of. cbn [states set_states pool]. rewrite insert_rd by (unfold size in *; lia). destruct (Z.eqb_spec j s) as [->|]; [|done]. rewrite (rd_ok _ _ x) by (lia || done). done.
Qed.

(** ** [del_move] *)

Section junk.
Context (rand_r : Z -> Z * Z) (junk : Z -> Z).

(** A move that is not in the pool goes. *)
Lemma del_dense_ok D s x ch d b : inv D -> 0 <= s < size D -> states D !! Z.to_nat s = Some x -> 0 <= ch < sigma -> bit_at (dense x) ch = true ->
  bitmap BlockN d -> (forall i, 0 <= i -> bit_at d i = if i =? ch then false else bit_at (dense x) i) -> bitmap BlockN b -> (forall i, 0 <= i -> bit_at b i = if i =? ch then false else bit_at (sparse x) i) ->
  let y := set_bits x d (sparse x) in let y := if is_all0 d then set_target2 (set_target1 y nil_state) nil_state else y in
  let D' := add_num (set_states D (<[Z.to_nat s := set_bits y (dense y) b]> (states D))) (-1) in inv D' /\ changed D D' s (is_term_ x) (upd_move (target (pool D) x) ch None).
Proof.
  intros HI Hs Hx Hch Hd Bd Hdb Bb Hbb y0 y D'. pose proof (i_good _ D HI _ x Hx) as G. destruct (inv_rep _ D s x HI Hx) as (fast & huge & Hr). pose proof (g_bits _ _ _ G) as Hbm.
  set (x' := set_bits y (dense y) b) in *. assert (Edense : dense x' = d) by (unfold x', y; by destruct (is_all0 d)). assert (Esparse : sparse x' = b) by (unfold x', y; by destruct (is_all0 d)).
  assert (Em : m_pos x' = m_pos x) by (unfold x', y; by destruct (is_all0 d)). assert (Hkeep : is_all0 d = false -> dense_target1 x' = dense_target1 x /\ dense_target2 x' = dense_target2 x) by (unfold x', y; by intros ->).
  assert (Hall : is_all0 d = true -> forall c, 0 <= c < sigma -> bit_at d c = false) by (apply all0_ok; done).
  assert (Ht1 : dense_target1 x <> nil_state) by (intros E; apply (g_nil _ _ _ G) in E as [_ E]; rewrite E in Hd by done; done).
  unfold D'. rewrite dense_eq. apply (update_ok BlockN HBlockN D s x (pool D) x'); try done.
  - eapply (bits_becomes BlockN HBlockN); [done|apply G|exact Hr| |done| | |].
    + split; [by rewrite Edense|by rewrite Esparse].
    + intros c Hc. unfold in_pool. rewrite Edense, Esparse, Hdb, Hbb by done. destruct (Z.eqb_spec c ch) as [->|]; [by rewrite Hd|done].
    + unfold x', y. by destruct (is_all0 d).
    + intros c Hc. unfold upd_move. destruct (Z.eqb_spec c ch) as [->|Hne]; [unfold target; by rewrite Edense, Esparse, Hdb, Hbb, Z.eqb_refl by lia|]. apply target_same.
      * rewrite Edense, Hdb by lia. by rewrite (proj2 (Z.eqb_neq c ch)).
      * rewrite Esparse, Hbb by lia. by rewrite (proj2 (Z.eqb_neq c ch)).
      * intros Hdc. destruct (is_all0 d) eqn:Ea; [|by destruct (Hkeep eq_refl) as [-> ->]]. exfalso. specialize (Hall eq_refl c Hc). rewrite Hdb, (proj2 (Z.eqb_neq c ch)) in Hall by (done || lia). congruence.
      * intros _. do 2 f_equal. rewrite Em. f_equal. apply rank_ext. intros i Hi. unfold in_pool. rewrite Edense, Esparse, Hdb, Hbb by lia. destruct (Z.eqb_spec i ch) as [->|]; [by rewrite Hd|done].
  - intros E. destruct (is_all0 d) eqn:Ea; [|destruct (Hkeep eq_refl) as [E1 _]; congruence]. split; [unfold x', y; done|]. intros c Hc. rewrite Edense. by apply Hall.
  - intros E c Hc. rewrite Edense, Esparse, Hdb, Hbb by lia. destruct (Z.eqb_spec c ch) as [->|Hne]; [done|]. intros Hdc. destruct (is_all0 d) eqn:Ea.
    + specialize (Hall eq_refl c Hc). rewrite Hdb, (proj2 (Z.eqb_neq c ch)) in Hall by (done || lia). congruence.
    + destruct (Hkeep eq_refl) as [_ E2]. rewrite E2 in E. by apply (g_nil2 _ _ _ G E c Hc).
  - by apply upd_targets.
  - unfold upd_move. rewrite count_change by done. rewrite <- num_moves_target. unfold target at 1. rewrite Hd. lia.
Qed.

Lemma del_move_ok D s ch : inv D -> 0 <= s < size D -> 0 <= ch < sigma -> move_of D s ch <> None -> exists D', del_move BlockN rand_r junk D s ch = Ok D' /\ inv D' /\ N (pool D') <= N (pool D) /\
  changed D D' s (term_of D s) (upd_move (move_of D s) ch None).
Proof.
  intros HI Hs Hch Hm. destruct (dense_state_rd D s Hs) as (x & Hrd & Hx). pose proof (i_good _ D HI _ x Hx) as G. unfold move_of, term_of in *. rewrite Hrd in *. destruct (inv_rep _ D s x HI Hx) as (fast & huge & Hr). pose proof (g_bits _ _ _ G) as Hbm. pose proof Hbm as [Hbd Hbs].
  unfold del_move. rewrite (proj2 (Z.ltb_lt ch _)) by lia. cbn [assert_ rbind]. rewrite (state_ok D s x Hs Hx). cbn [rbind]. rewrite (g_free _ _ _ G). cbn [negb assert_ rbind]. rewrite !dense_is1_ok by done. cbn [rbind].
  assert (Hdb : bit_at (dense x) ch || bit_at (sparse x) ch = true). { unfold target in Hm. by destruct (bit_at (dense x) ch), (bit_at (sparse x) ch). } rewrite Hdb. cbn [assert_ rbind].
  destruct (set0_ok BlockN (sparse x) ch Hbs Hch) as (b & Eb & Bb & Hbb). destruct (bit_at (dense x) ch) eqn:Ed.
  - destruct (set0_ok BlockN (dense x) ch Hbd Hch) as (d & Edd & Bd & Hdd). rewrite Edd. cbn [rbind dense set_bits]. assert (Es : sparse (if is_all0 d then set_target2 (set_target1 (set_bits x d (sparse x)) nil_state) nil_state else set_bits x d (sparse x)) = sparse x) by (by destruct (is_all0 d)). rewrite Es, Eb. cbn [rbind].
    rewrite put_state_ok by done. cbn [rbind]. eexists. split; [done|]. destruct (del_dense_ok D s x ch d b HI Hs Hx Hch Ed Bd Hdd Bb Hbb) as [H1 H2]. split; [exact H1|]. split; [cbn; lia|exact H2].
  - cbn [orb] in Hdb. rewrite Hdb. cbn [assert_ rbind negb]. assert (Hin : in_pool x ch = true) by (unfold in_pool; by rewrite Ed, Hdb). destruct (in_pool_idx BlockN HB x ch Hbm Hch Hin) as [K1 K2]. rewrite (proj2 (Z.ltb_lt 0 _)) by lia. cbn [assert_ rbind].
    rewrite (idx_sparse_ok BlockN) by done. cbn [rbind]. destruct (remove_sparse_ok BlockN HBlockN rand_r junk (pool D) x ch _ fast huge Hbm (g_placed _ _ _ G) Hr Hch Hin) as (p' & c & E & HN & Hafter). unfold removing in E. rewrite E. cbn [rbind sparse dense set_m_pos]. rewrite Eb. cbn [rbind].
    rewrite put_state_ok by done. cbn [rbind]. eexists. split; [done|]. set (x2 := set_bits (set_m_pos x c) (dense x) b). cbn [states set_pool]. destruct (Hafter x2) as (A1 & A2 & A3); [by split|done| |].
    { intros i Hi. unfold in_pool. cbn [x2 dense sparse set_bits]. rewrite Hbb by done. destruct (Z.eqb_spec i ch) as [->|]; [by rewrite andb_false_r|done]. }
    destruct (update_ok BlockN HBlockN D s x p' x2 (upd_move (target (pool D) x) ch None) (-1) HI Hs Hx) as [H1 H2].
    + split; [exact A1|by split|exact A2| |done]. intros i Hi. unfold upd_move. destruct (Z.eqb_spec i ch) as [->|Hne]; [unfold target; cbn [x2 dense sparse set_bits]; by rewrite Ed, Hbb, Z.eqb_refl by lia|].
      apply target_same; [done|cbn [x2 sparse set_bits]; rewrite Hbb by lia; by rewrite (proj2 (Z.eqb_neq i ch))|done|]. intros Hii. by apply A3.
    + apply (g_nil _ _ _ G).
    + intros E2 i Hi Hdi. cbn [x2 sparse dense set_bits] in *. rewrite Hbb by lia. destruct (i =? ch); [done|]. by apply (g_nil2 _ _ _ G E2 i Hi).
    + by apply upd_targets.
    + unfold upd_move. rewrite count_change by done. rewrite <- num_moves_target. unfold target at 1. rewrite Ed, Hdb. lia.
    + split; [exact H1|]. split; [exact HN|exact H2].
Qed.

(** ** [add_move_imp] *)

(** The bits of one character change, outside the pool. *)
Lemma bits_move_ok D s x x' ch t k : inv D -> 0 <= s < size D -> states D !! Z.to_nat s = Some x -> 0 <= ch < sigma -> 0 <= t < nil_state -> bitmaps x' -> m_pos x' = m_pos x ->
  is_pzip_ x' = is_pzip_ x /\ is_term_ x' = is_term_ x /\ is_free_ x' = is_free_ x ->
  in_pool x ch = false -> bit_at (dense x') ch = true -> (if bit_at (sparse x') ch then dense_target2 x' else dense_target1 x') = t -> dense_target1 x' <> nil_state ->
  (forall c, 0 <= c -> c <> ch -> bit_at (dense x') c = bit_at (dense x) c /\ bit_at (sparse x') c = bit_at (sparse x) c) ->
  (dense_target1 x' = dense_target1 x \/ dense_target1 x = nil_state) -> (dense_target2 x' = dense_target2 x \/ (dense_target2 x = nil_state /\ dense_target2 x' <> nil_state)) ->
  k = (match target (pool D) x ch with Some _ => 0 | None => 1 end) ->
  inv (add_num (set_states D (<[Z.to_nat s := x']> (states D))) k) /\ changed D (add_num (set_states D (<[Z.to_nat s := x']> (states D))) k) s (is_term_ x) (upd_move (target (pool D) x) ch (Some t)).
Proof.
  intros HI Hs Hx Hch Ht Hx' Hm Hfl H0 Hd Htt Hn1 Ho H1 H2 ->. pose proof (i_good _ D HI _ x Hx) as G. destruct (inv_rep _ D s x HI Hx) as (fast & huge & Hr).
  assert (Hin : forall c, 0 <= c -> in_pool x' c = in_pool x c). { intros c Hc. destruct (Z.eq_dec c ch) as [->|Hne]; [rewrite H0; unfold in_pool; by rewrite Hd|]. unfold in_pool. destruct (Ho c Hc Hne) as [-> ->]. done. }
  rewrite dense_eq. apply (update_ok BlockN HBlockN D s x (pool D) x'); try done.
  - eapply (bits_becomes BlockN HBlockN); [apply G|apply G|exact Hr|done|done|done|done|]. intros c Hc. unfold upd_move. destruct (Z.eqb_spec c ch) as [->|Hne]; [unfold target; by rewrite Hd, Htt|]. destruct (Ho c ltac:(lia) Hne) as [E1 E2]. apply target_same; [done|done| |].
    + intros Hdc. destruct (bit_at (sparse x) c) eqn:Es.
      * destruct H2 as [->|[E _]]; [done|]. pose proof (g_nil2 _ _ _ G E c Hc Hdc). congruence.
      * destruct H1 as [->|E]; [done|]. apply (g_nil _ _ _ G) in E as [_ E]. rewrite E in Hdc by done. done.
    + intros _. rewrite Hm. do 2 f_equal. apply rank_ext. intros i Hi. apply Hin. lia.
  - intros E c Hc Hdc. destruct H2 as [E2|[_ E2]]; [|done]. destruct (Z.eq_dec c ch) as [->|Hne].
    + destruct (bit_at (sparse x') ch); [|done]. unfold nil_state in *. lia.
    + destruct (Ho c ltac:(lia) Hne) as [E3 E4]. rewrite E3 in Hdc. rewrite E4. apply (g_nil2 _ _ _ G); [congruence|done|done].
  - apply (upd_targets _ x); [done|]. intros u [= <-]. done.
  - unfold upd_move. rewrite count_change by done. rewrite <- num_moves_target. destruct (target (pool D) x ch); lia.
Qed.

(** The result of [add_move_imp] for a character with the target [old]. *)
Definition move_added (D : DenseDFA) (s t ch : Z) (overwrite : bool) (r : Z) (D' : DenseDFA) : Prop :=
  match move_of D s ch with
  | None => r = nil_state /\ changed D D' s (term_of D s) (upd_move (move_of D s) ch (Some t))
  | Some u => if overwrite then r = u /\ changed D D' s (term_of D s) (upd_move (move_of D s) ch (Some t)) else D' = D /\ r <> nil_state
  end.

(** A character without a target outside the pool gets one in the pool. *)
Lemma insert_step D s x x1 ch t k : inv D -> 0 <= s < size D -> states D !! Z.to_nat s = Some x -> 0 <= ch < sigma -> 0 <= t < nil_state -> 4 * (N (pool D) + sigma) < 2 ^ 32 ->
  bitmaps x1 -> m_pos x1 = m_pos x -> dense_target1 x1 = dense_target1 x -> dense_target2 x1 = dense_target2 x -> is_pzip_ x1 = is_pzip_ x /\ is_term_ x1 = is_term_ x /\ is_free_ x1 = is_free_ x ->
  in_pool x ch = false -> bit_at (dense x1) ch = false -> bit_at (sparse x1) ch = false -> (forall c, 0 <= c -> c <> ch -> bit_at (dense x1) c = bit_at (dense x) c /\ bit_at (sparse x1) c = bit_at (sparse x) c) ->
  k = (match target (pool D) x ch with Some _ => -1 | None => 0 end) -> exists D',
  insert_sparse BlockN rand_r junk (add_num D k) s x1 t ch (rank (in_pool x) ch) (num_sparse x) = Ok D' /\ inv D' /\ N (pool D') <= N (pool D) + sigma /\ changed D D' s (is_term_ x) (upd_move (target (pool D) x) ch (Some t)).
Proof.
  intros HI Hs Hx Hch Ht Hb Hx1 Hm H1 H2 Hfl H0 Hd1 Hs1 Ho ->. pose proof (i_good _ D HI _ x Hx) as G. destruct (inv_rep _ D s x HI Hx) as (fast & huge & Hr). pose proof (g_bits _ _ _ G) as Hbm.
  assert (Hin : forall c, 0 <= c -> in_pool x1 c = in_pool x c). { intros c Hc. destruct (Z.eq_dec c ch) as [->|Hne]; [rewrite H0; unfold in_pool; by rewrite Hd1, Hs1|]. unfold in_pool. destruct (Ho c Hc Hne) as [-> ->]. done. }
  assert (Hns : num_sparse x1 = num_sparse x). { rewrite !(num_sparse_rank BlockN) by done. apply rank_ext. intros c Hc. apply Hin. lia. }
  assert (Hrk : forall c, rank (in_pool x1) c = rank (in_pool x) c) by (intros c; apply rank_ext; intros i Hi; apply Hin; lia).
  assert (Hown : own x1 = own x) by (unfold own; by rewrite Hns, Hm).
  assert (Ht1 : forall c, 0 <= c < sigma -> c <> ch -> target (pool D) x1 c = target (pool D) x c). { intros c Hc Hne. destruct (Ho c ltac:(lia) Hne) as [E1 E2]. apply target_same; [done|done|by rewrite H1, H2|intros _; by rewrite Hm, Hrk]. }
  set (D1 := add_num D _). destruct (insert_sparse_ok BlockN HBlockN rand_r junk D1 (Z.to_nat s) x1 t ch (owned (delete (Z.to_nat s) (states D))) fast huge) as (p' & x' & E & [B1 B2 B3 B4 B5] & HN & Ed & Es & E1 & E2); try done.
  - unfold placed. rewrite Hns, Hm. apply G.
  - by rewrite Hown.
  - by eapply lookup_lt_Some.
  - rewrite Z2Nat.id, Hrk, Hns in E by lia. rewrite E. eexists. split; [done|]. assert (ED : add_num (set_states (set_pool D1 p') (<[Z.to_nat s := x']> (states D1))) 1 = add_num (set_states (set_pool D p') (<[Z.to_nat s := x']> (states D))) (match target (pool D) x ch with Some _ => -1 | None => 0 end + 1)) by (apply dense_eq1). rewrite ED.
    destruct (update_ok BlockN HBlockN D s x p' x' (upd_move (target (pool D) x) ch (Some t)) (match target (pool D) x ch with Some _ => -1 | None => 0 end + 1) HI Hs Hx) as [U1 U2].
    + split; [exact B1|done|done| |destruct B5 as (-> & -> & ->); done]. intros c Hc. rewrite B4 by done. unfold upd_move. destruct (Z.eqb_spec c ch); [done|]. by apply Ht1.
    + rewrite E1, E2, H1, H2, Ed. intros En. apply (g_nil _ _ _ G) in En as [En1 En2]. split; [done|]. intros c Hc. destruct (Z.eq_dec c ch) as [->|Hne]; [done|]. destruct (Ho c ltac:(lia) Hne) as [-> _]. by apply En2.
    + rewrite E2, H2, Ed. intros En c Hc Hdc. rewrite Es by lia. destruct (Z.eqb_spec c ch) as [->|Hne]; [congruence|]. destruct (Ho c ltac:(lia) Hne) as [E3 E4]. rewrite E3 in Hdc. rewrite E4. by apply (g_nil2 _ _ _ G).
    + apply (upd_targets _ x); [done|]. intros u [= <-]. done.
    + unfold upd_move. rewrite count_change by done. rewrite <- num_moves_target. destruct (target (pool D) x ch); lia.
    + split; [exact U1|]. split; [exact HN|exact U2].
Qed.

(** A target leaves the pool for one of the two that are shared. *)
Lemma share_step D s x ch t (old : Z) : inv D -> 0 <= s < size D -> states D !! Z.to_nat s = Some x -> 0 <= ch < sigma -> 0 <= t < nil_state -> in_pool x ch = true -> bit_at (dense x) ch = false -> bit_at (sparse x) ch = true ->
  (t =? dense_target1 x) || (nil_state =? dense_target1 x) || (t =? dense_target2 x) || (nil_state =? dense_target2 x) = true -> exists D',
  (let* (s', p) := removing rand_r junk (pool D) x (rank (in_pool x) ch) in
   let* s' := if t =? dense_target1 s' then let* bits := set0 BlockN (sparse s') ch in Ok (set_bits s' (dense s') bits)
     else if nil_state =? dense_target1 s' then let* bits := set0 BlockN (sparse s') ch in Ok (set_target1 (set_bits s' (dense s') bits) (u32 t))
     else if nil_state =? dense_target2 s' then Ok (set_target2 s' (u32 t)) else Ok s' in
   let* bits := set1 BlockN (dense s') ch in
   let* D := put_state (set_pool D p) s (set_bits s' bits (sparse s')) in Ok (old, D)) = Ok (old, D') /\ inv D' /\ N (pool D') <= N (pool D) /\ changed D D' s (is_term_ x) (upd_move (target (pool D) x) ch (Some t)).
Proof.
  intros HI Hs Hx Hch Ht Hin Hd Hsp Hc. pose proof (i_good _ D HI _ x Hx) as G. destruct (inv_rep _ D s x HI Hx) as (fast & huge & Hr). pose proof (g_bits _ _ _ G) as Hbm. pose proof Hbm as [Hbd Hbs].
  destruct (remove_sparse_ok BlockN HBlockN rand_r junk (pool D) x ch _ fast huge Hbm (g_placed _ _ _ G) Hr Hch Hin) as (p' & c & -> & HN & Hafter). cbn [rbind dense_target1 dense_target2 sparse dense set_m_pos].
  destruct (set0_ok BlockN (sparse x) ch Hbs Hch) as (b & Eb & Bb & Hbb). destruct (set1_ok BlockN (dense x) ch Hbd Hch) as (d & Edd & Bd & Hdd). rewrite Eb. cbn [rbind].
  (* the new state: its sparse bits and targets *)
  assert (Hfin : forall b' t1 t2, bitmap BlockN b' -> (forall i, 0 <= i -> i <> ch -> bit_at b' i = bit_at (sparse x) i) -> (if bit_at b' ch then t2 else t1) = t -> t1 <> nil_state ->
    (t1 = dense_target1 x \/ dense_target1 x = nil_state) -> (t2 = dense_target2 x \/ (dense_target2 x = nil_state /\ t2 <> nil_state)) ->
    exists D', (let* D := put_state (set_pool D p') s (set_bits (set_target2 (set_target1 (set_m_pos x c) t1) t2) d b') in Ok (old, D)) = Ok (old, D') /\ inv D' /\ N (pool D') <= N (pool D) /\ changed D D' s (is_term_ x) (upd_move (target (pool D) x) ch (Some t))).
  { intros b' t1 t2 Bb' Hb' Htt Hn1 H1 H2. rewrite put_state_ok by done. cbn [rbind]. eexists. split; [done|]. set (x2 := set_bits _ d b'). cbn [states set_pool]. assert (Hd2 : forall i, 0 <= i -> bit_at (dense x2) i = if i =? ch then true else bit_at (dense x) i) by exact Hdd.
    destruct (Hafter x2) as (A1 & A2 & A3); [by split|done| |].
    { intros i Hi. unfold in_pool. rewrite Hd2 by done. destruct (Z.eqb_spec i ch) as [->|Hne]; [done|]. cbn [x2 sparse set_bits]. by rewrite Hb'. }
    rewrite dense_eq0. cbn [set_pool pool]. change (set_pool (set_pool D p') p') with (set_pool D p').
    destruct (update_ok BlockN HBlockN D s x p' x2 (upd_move (target (pool D) x) ch (Some t)) 0 HI Hs Hx) as [U1 U2].
    - split; [exact A1|by split|exact A2| |done]. intros i Hi. unfold upd_move. destruct (Z.eqb_spec i ch) as [->|Hne].
      + unfold target. rewrite Hd2, Z.eqb_refl by lia. cbn [x2 sparse set_bits dense_target1 dense_target2 set_target1 set_target2]. by rewrite Htt.
      + apply target_same; [rewrite Hd2 by lia; by rewrite (proj2 (Z.eqb_neq i ch))|cbn [x2 sparse set_bits]; apply Hb'; (done || lia)| |intros Hii; by apply A3].
        intros Hdi. cbn [x2 set_bits dense_target1 dense_target2 set_target1 set_target2]. destruct (bit_at (sparse x) i) eqn:Es.
        * destruct H2 as [->|[E _]]; [done|]. pose proof (g_nil2 _ _ _ G E i Hi Hdi). congruence.
        * destruct H1 as [->|E]; [done|]. apply (g_nil _ _ _ G) in E as [_ E]. rewrite E in Hdi by done. done.
    - intros E. done.
    - intros E i Hi Hdi. cbn [x2 set_bits dense_target2 set_target1 set_target2] in E. destruct H2 as [E2|[_ E2]]; [|done]. destruct (Z.eq_dec i ch) as [->|Hne].
      + cbn [x2 sparse set_bits]. destruct (bit_at b' ch); [|done]. rewrite E in Htt. unfold nil_state in *. lia.
      + rewrite Hd2, (proj2 (Z.eqb_neq i ch)) in Hdi by (done || lia). cbn [x2 sparse set_bits]. rewrite Hb' by (done || lia). apply (g_nil2 _ _ _ G); [congruence|done|done].
    - apply (upd_targets _ x); [done|]. intros u [= <-]. done.
    - unfold upd_move. rewrite count_change by done. rewrite <- num_moves_target. unfold target at 1. rewrite Hd, Hsp. lia.
    - split; [exact U1|]. split; [exact HN|exact U2]. }
  assert (Ht32 : u32 t = t) by (apply u32_small; unfold nil_state in Ht; lia). destruct (Z.eqb_spec t (dense_target1 x)) as [E1|E1]; [|destruct (Z.eqb_spec nil_state (dense_target1 x)) as [E2|E2]; [|destruct (Z.eqb_spec nil_state (dense_target2 x)) as [E3|E3]]];
    cbn [rbind sparse dense set_bits set_target1 set_target2 set_m_pos]; rewrite Edd; cbn [rbind].
  - destruct (Hfin b (dense_target1 x) (dense_target2 x)) as (D' & E & HD); [done| | | | | |by exists D'].
    + intros i Hi Hne. rewrite Hbb by done. by rewrite (proj2 (Z.eqb_neq i ch)).
    + by rewrite Hbb, Z.eqb_refl by lia.
    + unfold nil_state in *. lia.
    + by left.
    + by left.
  - rewrite Ht32. destruct (Hfin b t (dense_target2 x)) as (D' & E & HD); [done| | | | | |by exists D'].
    + intros i Hi Hne. rewrite Hbb by done. by rewrite (proj2 (Z.eqb_neq i ch)).
    + by rewrite Hbb, Z.eqb_refl by lia.
    + unfold nil_state in *. lia.
    + by right.
    + by left.
  - rewrite Ht32. destruct (Hfin (sparse x) (dense_target1 x) t) as (D' & E & HD); [done|done|by rewrite Hsp|by apply not_eq_sym|by left| |by exists D']. right. split; [done|]. unfold nil_state in *. lia.
  - destruct (Hfin (sparse x) (dense_target1 x) (dense_target2 x)) as (D' & E & HD); [done|done| |by apply not_eq_sym|by left|by left|by exists D']. rewrite Hsp. cbn [orb] in Hc. rewrite orb_false_r in Hc. apply Z.eqb_eq in Hc. congruence.
Qed.

(** A target in the pool is overwritten. *)
Lemma overwrite_step D s x ch t : inv D -> 0 <= s < size D -> states D !! Z.to_nat s = Some x -> 0 <= ch < sigma -> 0 <= t < nil_state -> in_pool x ch = true -> bit_at (dense x) ch = false -> bit_at (sparse x) ch = true -> exists p',
  trans_set (pool D) (getpos x) (rank (in_pool x) ch) (u32 t) = Ok p' /\ inv (set_pool D p') /\ N p' = N (pool D) /\ changed D (set_pool D p') s (is_term_ x) (upd_move (target (pool D) x) ch (Some t)).
Proof.
  intros HI Hs Hx Hch Ht Hin Hd Hsp. pose proof (i_good _ D HI _ x Hx) as G. destruct (inv_rep _ D s x HI Hx) as (fast & huge & Hr). pose proof (g_bits _ _ _ G) as Hbm. destruct (in_pool_idx BlockN HB x ch Hbm Hch Hin) as [K1 K2].
  assert (Hown : own x = [(m_pos x, num_sparse x)]) by (unfold own; by rewrite (proj2 (Z.eqb_neq _ 0)) by lia). rewrite Hown in Hr. cbn [app] in Hr. rewrite u32_small by (unfold nil_state in Ht; lia).
  destruct (write_target (pool D) (owned (delete (Z.to_nat s) (states D))) (m_pos x) (num_sparse x) fast huge Hr (rank (in_pool x) ch) t) as (p' & E & Hok & HN & Hw); [lia|]. exists p'. rewrite getpos_words. split; [exact E|].
  assert (ED : set_pool D p' = add_num (set_states (set_pool D p') (<[Z.to_nat s := x]> (states D))) 0). { rewrite list_insert_id by done. destruct D. unfold set_pool, set_states, add_num. cbn. by rewrite Z.add_0_r. }
  rewrite ED. destruct (update_ok BlockN HBlockN D s x p' x (upd_move (target (pool D) x) ch (Some t)) 0 HI Hs Hx) as [U1 U2].
  - split; [by rewrite Hown|done|split; [apply G|rewrite HN; apply G]| |done]. intros c Hc. unfold upd_move. destruct (Z.eqb_spec c ch) as [->|Hne].
    + unfold target. rewrite Hd, Hsp. f_equal. rewrite Hw by lia. by rewrite Z.eqb_refl.
    + apply target_same; [done|done|done|]. intros Hci. destruct (in_pool_idx BlockN HB x c Hbm Hc Hci) as [J1 J2]. rewrite Hw by lia. rewrite (proj2 (Z.eqb_neq _ _)); [done|]. intros Eq. apply Hne. apply (rank_inj (in_pool x)); (done || lia).
  - apply (g_nil _ _ _ G).
  - apply (g_nil2 _ _ _ G).
  - apply (upd_targets _ x); [done|]. intros u [= <-]. done.
  - unfold upd_move. rewrite count_change by done. rewrite <- num_moves_target. unfold target at 1. rewrite Hd, Hsp. lia.
  - split; [exact U1|]. split; [exact HN|exact U2].
Qed.

Lemma add_move_imp_ok D s t ch ow : inv D -> 0 <= s < size D -> 0 <= ch < sigma -> 0 <= t < nil_state -> move_of D s ch <> Some t -> 4 * (N (pool D) + sigma) < 2 ^ 32 -> exists r D',
  add_move_imp BlockN rand_r junk D s t ch ow = Ok (r, D') /\ inv D' /\ N (pool D') <= N (pool D) + sigma /\ move_added D s t ch ow r D'.
Proof.
  intros HI Hs Hch Ht Hne Hb. pose proof (sigma_range BlockN HBlockN) as Hsg. destruct (dense_state_rd D s Hs) as (x & Hrd & Hx). pose proof (i_good _ D HI _ x Hx) as G. pose proof (g_bits _ _ _ G) as Hbm. pose proof Hbm as [Hbd Hbs].
  unfold move_added, move_of, term_of in *. rewrite Hrd in *. unfold add_move_imp. rewrite (state_ok D s x Hs Hx). cbn [rbind]. rewrite (g_free _ _ _ G), (g_pzip _ _ _ G). cbn [negb assert_ rbind]. rewrite (idx_sparse_ok BlockN) by done. cbn [rbind]. rewrite !dense_is1_ok by done. cbn [rbind].
  destruct (set0_ok BlockN (sparse x) ch Hbs Hch) as (b0 & Eb0 & Bb0 & Hb0). destruct (set1_ok BlockN (sparse x) ch Hbs Hch) as (b1 & Eb1 & Bb1 & Hb1). destruct (set0_ok BlockN (dense x) ch Hbd Hch) as (d0 & Ed0 & Bd0 & Hd0). destruct (set1_ok BlockN (dense x) ch Hbd Hch) as (d1 & Ed1 & Bd1 & Hd1).
  assert (Hoth : forall i, i <> ch -> (i =? ch) = false) by (intros i; apply Z.eqb_neq). assert (Hu : u32 t = t) by (apply u32_small; unfold nil_state in Ht; lia).
  destruct (bit_at (dense x) ch) eqn:Ed.
  - assert (Hn1 : dense_target1 x <> nil_state) by (intros E; apply (g_nil _ _ _ G) in E as [_ E]; rewrite E in Ed by done; done). rewrite (proj2 (Z.eqb_neq _ _) Hn1). cbn [negb assert_ rbind].
    assert (Etg : target (pool D) x ch = Some (if bit_at (sparse x) ch then dense_target2 x else dense_target1 x)) by (unfold target; by rewrite Ed). rewrite Etg in *. assert (Hip : in_pool x ch = false) by (unfold in_pool; by rewrite Ed).
    destruct (bit_at (sparse x) ch) eqn:Es; cbn [negb andb].
    + destruct (Z.eqb_spec t (dense_target2 x)) as [E|_]; [congruence|]. destruct ow; [|exists (dense_target1 x), D; split; [done|]; split; [done|]; split; [lia|done]]. destruct (Z.eqb_spec t (dense_target1 x)) as [E1|E1].
      * rewrite Eb0. cbn [rbind]. rewrite put_state_ok by done. cbn [rbind]. eexists _, _. split; [done|]. rewrite dense_eq0, <- dense_eq.
        destruct (bits_move_ok D s x (set_bits x (dense x) b0) ch t 0 HI Hs Hx Hch Ht) as [U1 U2]; try done; [by cbn; rewrite Hb0, Z.eqb_refl by lia| |by left|by left|by rewrite Etg|split; [exact U1|split; [cbn; lia|split; [done|exact U2]]]].
        intros c Hc Hcne. cbn [dense sparse set_bits]. by rewrite Hb0, Hoth by done.
      * rewrite Ed0. cbn [rbind]. rewrite Eb0. cbn [rbind].
        destruct (insert_step D s x (set_bits x d0 b0) ch t (-1) HI Hs Hx Hch Ht Hb) as (D' & -> & U1 & U2 & U3); try done; [by cbn; rewrite Hd0, Z.eqb_refl by lia|by cbn; rewrite Hb0, Z.eqb_refl by lia| |by rewrite Etg|cbn [rbind]; by eexists _, D'].
        intros c Hc Hcne. cbn [dense sparse set_bits]. by rewrite Hb0, Hd0, Hoth by done.
    + destruct (Z.eqb_spec t (dense_target1 x)) as [E|_]; [congruence|]. destruct ow; [|exists (dense_target1 x), D; split; [done|]; split; [done|]; split; [lia|done]]. destruct (Z.eqb_spec t (dense_target2 x)) as [E1|E1].
      * rewrite Eb1. cbn [rbind]. rewrite put_state_ok by done. cbn [rbind]. eexists _, _. split; [done|]. rewrite dense_eq0, <- dense_eq.
        destruct (bits_move_ok D s x (set_bits x (dense x) b1) ch t 0 HI Hs Hx Hch Ht) as [U1 U2]; try done; [by cbn; rewrite Hb1, Z.eqb_refl by lia| |by left|by left|by rewrite Etg|split; [exact U1|split; [cbn; lia|split; [done|exact U2]]]].
        intros c Hc Hcne. cbn [dense sparse set_bits]. by rewrite Hb1, Hoth by done.
      * rewrite Ed0. cbn [rbind]. rewrite Eb0. cbn [rbind].
        destruct (insert_step D s x (set_bits x d0 b0) ch t (-1) HI Hs Hx Hch Ht Hb) as (D' & -> & U1 & U2 & U3); try done; [by cbn; rewrite Hd0, Z.eqb_refl by lia|by cbn; rewrite Hb0, Z.eqb_refl by lia| |by rewrite Etg|cbn [rbind]; by eexists _, D'].
        intros c Hc Hcne. cbn [dense sparse set_bits]. by rewrite Hb0, Hd0, Hoth by done.
  - destruct (bit_at (sparse x) ch) eqn:Es.
    + assert (Hip : in_pool x ch = true) by (unfold in_pool; by rewrite Ed, Es). destruct (in_pool_idx BlockN HB x ch Hbm Hch Hip) as [K1 K2]. destruct (g_placed _ _ _ G) as [_ Hpl]. assert (Etg : target (pool D) x ch = Some (word_at (mem (pool D)) (m_pos x + rank (in_pool x) ch))) by (unfold target; by rewrite Ed, Es).
      rewrite Etg in *. assert (Hrng : 0 <= word_at (mem (pool D)) (m_pos x + rank (in_pool x) ch) < nil_state) by (by apply (g_targets _ _ _ G ch)). rewrite (trans_get_ok (pool D) (m_pos x)) || rewrite getpos_words.
      rewrite !trans_get_ok by lia. cbn [rbind]. destruct (_ || _) eqn:Hc.
      * rewrite (proj2 (Z.ltb_lt 0 _)) by lia. cbn [assert_ rbind]. rewrite (proj2 (Z.eqb_neq _ t)) by congruence. cbn [negb assert_ rbind]. destruct ow; [|eexists _, D; split; [done|]; split; [done|]; split; [lia|split; [done|lia]]].
        destruct (share_step D s x ch t (word_at (mem (pool D)) (m_pos x + rank (in_pool x) ch)) HI Hs Hx Hch Ht Hip Ed Es Hc) as (D' & E & U1 & U2 & U3). unfold removing in E. rewrite getpos_words in E. eexists _, D'. split; [exact E|split; [exact U1|split; [lia|split; [done|exact U3]]]].
      * destruct ow; [|eexists _, D; split; [done|]; split; [done|]; split; [lia|split; [done|lia]]]. destruct (overwrite_step D s x ch t HI Hs Hx Hch Ht Hip Ed Es) as (p' & E & U1 & U2 & U3). rewrite getpos_words in E. rewrite E. cbn [rbind]. eexists _, _. split; [done|]. split; [exact U1|]. split; [cbn; lia|]. split; [done|exact U3].
    + assert (Hip : in_pool x ch = false) by (unfold in_pool; by rewrite Es, andb_false_r). assert (Etg : target (pool D) x ch = None) by (unfold target; by rewrite Ed, Es). rewrite Etg in *. destruct (_ || _) eqn:Hc.
      * rewrite Ed1. cbn [rbind]. destruct (Z.eqb_spec t (dense_target1 x)) as [E1|E1]; cbn [set_bits dense_target1 dense_target2]; [|destruct (Z.eqb_spec nil_state (dense_target1 x)) as [E2|E2]].
        -- rewrite (proj2 (Z.eqb_eq t (dense_target1 x)) E1). cbn [rbind]. rewrite put_state_ok by done. cbn [rbind]. eexists _, _. split; [done|]. destruct (bits_move_ok D s x (set_bits x d1 (sparse x)) ch t 1 HI Hs Hx Hch Ht) as [U1 U2]; try done; [by cbn; rewrite Hd1, Z.eqb_refl by lia|by cbn; rewrite Es| | |by left|by left|by rewrite Etg|].
           ++ cbn. unfold nil_state in *. lia.
           ++ intros c Hcc Hcne. cbn [dense sparse set_bits]. by rewrite Hd1, Hoth by done.
           ++ split; [exact U1|]. split; [cbn; lia|]. split; [done|exact U2].
        -- rewrite (proj2 (Z.eqb_neq t (dense_target1 x)) E1), Hu. cbn [rbind]. rewrite put_state_ok by done. cbn [rbind]. eexists _, _. split; [done|].
           destruct (bits_move_ok D s x (set_target1 (set_bits x d1 (sparse x)) t) ch t 1 HI Hs Hx Hch Ht) as [U1 U2]; try done; [by cbn; rewrite Hd1, Z.eqb_refl by lia|by cbn; rewrite Es| | |by right|by left|by rewrite Etg|].
           ++ cbn. unfold nil_state in *. lia.
           ++ intros c Hcc Hcne. cbn [dense sparse set_bits set_target1]. by rewrite Hd1, Hoth by done.
           ++ split; [exact U1|]. split; [cbn; lia|]. split; [done|exact U2].
        -- rewrite (proj2 (Z.eqb_neq t (dense_target1 x)) E1), Hu. cbn [sparse set_bits dense]. rewrite Eb1. cbn [rbind]. rewrite put_state_ok by done. cbn [rbind]. eexists _, _. split; [done|].
           assert (Hc2 : t = dense_target2 x \/ nil_state = dense_target2 x) by (cbn [orb] in Hc; apply orb_true_iff in Hc as [Hc|Hc]; apply Z.eqb_eq in Hc; tauto).
           destruct (bits_move_ok D s x (set_target2 (set_bits (set_bits x d1 (sparse x)) d1 b1) t) ch t 1 HI Hs Hx Hch Ht) as [U1 U2]; try done; [by cbn; rewrite Hd1, Z.eqb_refl by lia|by cbn; rewrite Hb1, Z.eqb_refl by lia| |by left| |by rewrite Etg|].
           ++ intros c Hcc Hcne. cbn [dense sparse set_bits set_target2]. by rewrite Hd1, Hb1, Hoth by done.
           ++ cbn. destruct Hc2 as [E|E]; [by left|right]. split; [done|]. unfold nil_state in *. lia.
           ++ split; [exact U1|]. split; [cbn; lia|]. split; [done|exact U2].
      * destruct (insert_step D s x x ch t 0 HI Hs Hx Hch Ht Hb) as (D' & E & U1 & U2 & U3); try done; [by rewrite Etg|]. assert (add_num D 0 = D) as E0 by (destruct D; unfold add_num; cbn; by rewrite Z.add_0_r). rewrite E0 in E. rewrite E. cbn [rbind]. by eexists _, D'.
Qed.
End junk.
End sigma.
End DenseSteps.
