(* ===== verification/DenseFreq.v ===== *)
(** * The targets that occur most often

    [max_freqs] returns two targets with the number of moves to each; how many moves go
    where, as ranks. *)
From stdpp Require Import sorting.
From S2P Require Import Prelude Dfa DenseDfa DenseBits.
Import DenseDfa DenseBits.

Module DenseFreq.

Fixpoint occ (c : Z) (l : list Z) : Z := match l with [] => 0 | a :: l => (if a =? c then 1 else 0) + occ c l end.

Lemma dense_occ_app c l l' : occ c (l ++ l') = occ c l + occ c l'.
Proof. induction l as [|a l IH]; [done|]. cbn [app occ]. lia. Qed.

Lemma occ_perm c l l' : l ≡ₚ l' -> occ c l = occ c l'.
Proof. intros Hp. induction Hp; cbn [occ]; lia. Qed.

Lemma occ_none c l : c ∉ l -> occ c l = 0.
Proof. induction l as [|a l IH]; intros Hc; [done|]. cbn [occ]. rewrite not_elem_of_cons in Hc. destruct Hc as [Hne Hc]. rewrite (proj2 (Z.eqb_neq a c)) by congruence. rewrite IH; [done|exact Hc]. Qed.

Lemma occ_some c l : c ∈ l -> 1 <= occ c l.
Proof.
  induction l as [|a l IH]; [by intros ?%elem_of_nil|]. assert (Hpos : forall l, 0 <= occ c l) by (clear; induction l as [|a l IH]; [done|]; cbn [occ]; destruct (a =? c); lia). cbn [occ]. intros [->|Hc]%elem_of_cons; [rewrite Z.eqb_refl; specialize (Hpos l); lia|]. specialize (IH Hc). destruct (a =? c); lia.
Qed.

Lemma occ_replicate c a n : occ c (replicate n a) = if a =? c then Z.of_nat n else 0.
Proof. induction n as [|n IH]; cbn [replicate occ]; [by destruct (a =? c)|]. rewrite IH. destruct (a =? c); lia. Qed.

Lemma run_split c l : l = replicate (same_run c l) c ++ drop (same_run c l) l.
Proof. induction l as [|a l IH]; [done|]. cbn [same_run]. destruct (Z.eqb_spec a c) as [->|]; [|done]. cbn [replicate app drop]. by f_equal. Qed.

(** Behind the run in a sorted list all is larger. *)
Lemma run_rest c l : StronglySorted Z.le (c :: l) -> forall b, b ∈ drop (same_run c l) l -> c < b.
Proof.
  induction l as [|a l IH]; intros Hs b Hb; [by apply elem_of_nil in Hb|]. cbn [same_run] in Hb. apply StronglySorted_inv in Hs as [Hs Hc]. destruct (Z.eqb_spec a c) as [->|Hne]; [cbn [drop] in Hb; by apply IH|]. cbn [drop] in Hb.
  apply StronglySorted_inv in Hs as [_ Ha]. apply List.Forall_cons_iff in Hc as [Hca Hc]. rewrite List.Forall_forall in Ha. apply elem_of_cons in Hb as [->|Hb]; [lia|]. specialize (Ha b (proj1 (list_elem_of_In _ _) Hb)). lia.
Qed.

Lemma sorted_drop {A} (R : A -> A -> Prop) k l : StronglySorted R l -> StronglySorted R (drop k l).
Proof. revert k. induction l as [|a l IH]; intros [|k] Hs; [done|done|done|]. apply StronglySorted_inv in Hs as [Hs _]. by apply IH. Qed.

(** What is known when the targets [P] are counted. *)
Record counted (P : list Z) (f1 d1 f2 d2 : Z) : Prop := {
  k_1 : f1 = occ d1 P;
  k_2 : f2 = occ d2 P;
  k_in1 : P <> [] -> d1 ∈ P;
  k_none : P = [] -> d1 = nil_state /\ d2 = nil_state;
  k_in2 : d2 = nil_state \/ (d2 ∈ P /\ d2 <> d1)
}.

Lemma max_freqs_ok l : StronglySorted Z.le l -> (forall a, a ∈ l -> 0 <= a < nil_state) -> exists f1 d1 f2 d2, max_freqs l = Ok (f1, d1, f2, d2) /\ counted l f1 d1 f2 d2.
Proof.
  intros Hsort Hr. unfold max_freqs. match goal with |- context [loop _ ?bd _] => destruct (loop_inv
    (fun '(rest, f1, d1, f2, d2) => exists P, l = P ++ rest /\ StronglySorted Z.le rest /\ (forall a b, a ∈ P -> b ∈ rest -> a < b) /\ counted P f1 d1 f2 d2)
    (fun '(rest, _, _, _, _) => Z.of_nat (length rest)) (fun '(_, f1, d1, f2, d2) => counted l f1 d1 f2 d2) bd (S (length l)) (l, 0, nil_state, 0, nil_state)) as ([[[[rest f1] d1] f2] d2] & E & HQ); [| | |setoid_rewrite E; cbn [rbind]; by exists f1, d1, f2, d2] end.
  - exists []. split; [done|]. split; [done|]. split; [by intros a b ?%elem_of_nil|]. split; try done. by left.
  - cbv beta iota. lia.
  - intros [[[[rest f1] d1] f2] d2] (P & El & Hsr & Hlt & [K1 K2 K3 K4 K5]). split; [lia|]. destruct rest as [|c rest]; [right; eexists; split; [done|]; rewrite app_nil_r in El; subst P; by split|].
    left. set (r := same_run c rest). pose proof (run_split c rest) as Hrun. fold r in Hrun. set (P' := P ++ replicate (S r) c). assert (El' : l = P' ++ drop r rest). { unfold P'. rewrite El, <- app_assoc. f_equal. cbn [replicate app]. by f_equal. }
    assert (Hc : c ∈ l) by (rewrite El; apply elem_of_app; right; by left). assert (HcP : c ∉ P) by (intros Hin; specialize (Hlt c c Hin ltac:(by left)); lia).
    assert (Hocc : forall a, a ∈ P -> occ a P' = occ a P). { intros a Ha. unfold P'. rewrite dense_occ_app, occ_replicate. destruct (Z.eqb_spec c a) as [<-|]; [done|lia]. }
    assert (Hocc_nil : occ nil_state P' = 0). { apply occ_none. intros Hin. specialize (Hr nil_state). rewrite El' in Hr. specialize (Hr (proj2 (elem_of_app _ _ _) (or_introl Hin))). lia. }
    assert (Hocc_c : occ c P' = 1 + Z.of_nat r). { unfold P'. rewrite dense_occ_app, occ_replicate, Z.eqb_refl, (occ_none c P) by done. lia. }
    assert (HcP' : c ∈ P') by (unfold P'; apply elem_of_app; right; by left). assert (HP' : P' <> []) by (unfold P'; by destruct P).
    assert (HinP' : forall a, a ∈ P -> a ∈ P') by (intros a Ha; unfold P'; apply elem_of_app; by left).
    assert (Hlt' : forall a b, a ∈ P' -> b ∈ drop r rest -> a < b). { intros a b Ha Hb. unfold P' in Ha. apply elem_of_app in Ha as [Ha|Ha]; [apply Hlt; [done|]; right; rewrite Hrun; apply elem_of_app; by right|]. apply elem_of_replicate in Ha as [-> _]. by apply (run_rest c rest). }
    assert (Hsort' : StronglySorted Z.le (drop r rest)) by (apply sorted_drop; by apply StronglySorted_inv in Hsr as [? _]). assert (Hlen : Z.of_nat (length (drop r rest)) < Z.of_nat (length (c :: rest))) by (rewrite length_drop; cbn [length]; lia).
    assert (Hdone : forall g1 e1 g2 e2, counted P' g1 e1 g2 e2 -> exists P, l = P ++ drop r rest /\ StronglySorted Z.le (drop r rest) /\ (forall a b, a ∈ P -> b ∈ drop r rest -> a < b) /\ counted P g1 e1 g2 e2) by (intros; by exists P').
    assert (H2' : occ d2 P' = f2). { destruct K5 as [->|[H5 _]]; [rewrite Hocc_nil, K2; symmetry; apply occ_none; intros Hin; specialize (Hr nil_state); rewrite El in Hr; specialize (Hr (proj2 (elem_of_app _ _ _) (or_introl Hin))); lia|by rewrite Hocc]. }
    assert (Hd2 : d2 = nil_state \/ (d2 ∈ P /\ d2 <> c)) by (destruct K5 as [?|[? ?]]; [by left|right; split; [done|intros ->; done]]).
    destruct (Z.ltb_spec f1 (1 + Z.of_nat r)) as [H1|H1]; [|destruct (Z.ltb_spec f2 (1 + Z.of_nat r)) as [H2|H2]]; (eexists; split; [done|]; split; [apply Hdone|exact Hlen]).
    + destruct (Z.ltb_spec f2 f1) as [H21|H21].
      * assert (Hd1 : d1 ∈ P). { apply K3. intros ->. cbn in K1, K2. lia. } split; [done|by rewrite Hocc|done|done|right; split; [by apply HinP'|intros ->; done]].
      * split; [done|done|done|done|]. destruct Hd2 as [?|[? ?]]; [by left|right; split; [by apply HinP'|done]].
    + assert (HP : P <> []) by (intros ->; cbn in K1; lia). specialize (K3 HP). split; [by rewrite Hocc|done|by intros _; apply HinP'|done|right; split; [done|intros ->; done]].
    + assert (HP : P <> []) by (intros ->; cbn in K1; lia). specialize (K3 HP). split; [by rewrite Hocc|done|by intros _; apply HinP'|done|]. destruct K5 as [?|[? ?]]; [by left|right; split; [by apply HinP'|done]].
Qed.

(** ** Moves by their targets *)

(** The characters whose target satisfies [q]. *)
Definition going (q : Z -> bool) (l : list (Z * Z)) (c : Z) : bool := match Dfa.find_move c l with Some t => q t | None => false end.

Lemma find_app c l l' : Dfa.find_move c (l ++ l') = match Dfa.find_move c l with Some t => Some t | None => Dfa.find_move c l' end.
Proof. induction l as [|[d t] l IH]; [done|]. cbn [app Dfa.find_move]. destruct (d =? c); [done|exact IH]. Qed.

Lemma find_none c l : (forall t, ~ In (c, t) l) -> Dfa.find_move c l = None.
Proof. induction l as [|[d t] l IH]; intros Hn; [done|]. cbn [Dfa.find_move]. destruct (Z.eqb_spec d c) as [->|]; [by destruct (Hn t); left|]. apply IH. intros u Hu. by apply (Hn u); right. Qed.

(** A move at the end of a list in order. *)
Lemma snoc_below V ch t b : Dfa.ascending (Dfa.chars (V ++ [(ch, t)])) = true -> In b (Dfa.chars V) -> b < ch.
Proof.
  induction V as [|[d u] V IH]; intros Ha Hb; [done|]. cbn [app Dfa.chars map fst] in Ha. destruct Hb as [<-|Hb]; [|apply IH; [by apply ascending_tail in Ha|done]].
  apply (ascending_head _ _ _ Ha). unfold Dfa.chars. rewrite map_app. apply in_or_app. right. by left.
Qed.

Lemma snoc_last V ch t c : Dfa.ascending (Dfa.chars (V ++ [(ch, t)])) = true -> ch <= c -> Dfa.find_move c V = None.
Proof. intros Ha Hc. apply find_none. intros u Hin. pose proof (snoc_below V ch t c Ha (in_map fst V _ Hin)). lia. Qed.

Lemma find_snoc V ch t c : Dfa.ascending (Dfa.chars (V ++ [(ch, t)])) = true -> Dfa.find_move c (V ++ [(ch, t)]) = if c =? ch then Some t else Dfa.find_move c V.
Proof.
  intros Ha. rewrite find_app. cbn [Dfa.find_move]. destruct (Z.eqb_spec c ch) as [->|Hne]; [by rewrite (snoc_last V ch t ch Ha), Z.eqb_refl|].
  rewrite (proj2 (Z.eqb_neq ch c)) by congruence. by destruct (Dfa.find_move c V).
Qed.

Lemma ascending_prefix (V W : list (Z * Z)) : Dfa.ascending (Dfa.chars (V ++ W)) = true -> Dfa.ascending (Dfa.chars V) = true.
Proof.
  induction V as [|[d u] V IH]; intros Ha; [done|]. cbn [app Dfa.chars map fst] in *. pose proof (IH (ascending_tail _ _ Ha)) as IH'. destruct V as [|[e w] V]; [done|]. cbn [app map fst Dfa.chars Dfa.ascending] in *. apply andb_true_iff in Ha as [H1 _]. by rewrite H1.
Qed.

Lemma rank_going q l n : Dfa.ascending (Dfa.chars l) = true -> (forall c t, In (c, t) l -> 0 <= c < n) -> rank (going q l) n = Z.of_nat (length (List.filter (fun ct => q (snd ct)) l)).
Proof.
  revert n. induction l as [|[ch t] V IH] using rev_ind; intros n Ha Hr.
  - destruct (Z.le_gt_cases n 0) as [|]; [unfold rank; by replace (Z.to_nat n) with 0%nat by lia|]. apply cnt_false. done.
  - pose proof (Hr ch t ltac:(apply in_or_app; right; by left)) as Hch. rewrite List.filter_app, length_app. cbn [List.filter snd]. rewrite (rank_change (going q V) (going q (V ++ [(ch, t)])) ch) by (lia || (intros i Hi Hne; unfold going; rewrite find_snoc by done; by rewrite (proj2 (Z.eqb_neq i ch)))).
    rewrite (proj2 (Z.ltb_lt ch n)) by lia. rewrite IH; [|by apply ascending_prefix in Ha|intros c u Hin; apply (Hr c u), in_or_app; by left].
    assert (going q (V ++ [(ch, t)]) ch = q t) as -> by (unfold going; by rewrite find_snoc, Z.eqb_refl by done). assert (going q V ch = false) as -> by (unfold going; by rewrite (snoc_last V ch t ch Ha)).
    destruct (q t); cbn; lia.
Qed.

Lemma occ_filter c l : occ c (map snd l) = Z.of_nat (length (List.filter (fun ct : Z * Z => snd ct =? c) l)).
Proof. induction l as [|[d t] l IH]; [done|]. cbn [map snd occ List.filter]. destruct (t =? c); cbn [length]; lia. Qed.

Lemma rank_occ l n c : Dfa.ascending (Dfa.chars l) = true -> (forall c t, In (c, t) l -> 0 <= c < n) -> rank (going (fun t => t =? c) l) n = occ c (map snd l).
Proof. intros Ha Hr. by rewrite rank_going, occ_filter. Qed.

Lemma dense_rank_all l n : Dfa.ascending (Dfa.chars l) = true -> (forall c t, In (c, t) l -> 0 <= c < n) -> rank (going (fun _ => true) l) n = Z.of_nat (length l).
Proof. intros Ha Hr. rewrite rank_going by done. f_equal. clear. induction l as [|a l IH]; [done|]. cbn [List.filter length]. by f_equal. Qed.

(** All moves: to [d1], to [d2], and to others. *)
Lemma rank_three d1 d2 l n : d1 <> d2 -> rank (going (fun _ => true) l) n = rank (going (fun t => t =? d1) l) n + rank (going (fun t => t =? d2) l) n + rank (going (fun t => negb (t =? d1) && negb (t =? d2)) l) n.
Proof.
  intros Hne. destruct (Z.le_gt_cases n 0) as [Hn|Hn]; [unfold rank; by replace (Z.to_nat n) with 0%nat by lia|]. rewrite <- (Z2Nat.id n) by lia. induction (Z.to_nat n) as [|k IH]; [done|]. replace (Z.of_nat (S k)) with (Z.of_nat k + 1) by lia. rewrite !rank_succ, IH by lia. unfold going. destruct (Dfa.find_move (Z.of_nat k) l) as [t|]; [|cbn; lia].
  destruct (Z.eqb_spec t d1), (Z.eqb_spec t d2); cbn; (lia || congruence).
Qed.
End DenseFreq.
