(* ===== verification/DenseBuild.v ===== *)
(** * New states, copies of states, and states without moves *)
From S2P Require Import Prelude Bits Dfa MemPool MemPoolInv MemPoolOps MemPoolAlloc DenseDfa DenseBits DenseMoves DensePool DenseOps DenseInv DenseSteps.
Import MemPool MemPoolInv MemPoolOps MemPoolAlloc DenseDfa DenseBits DenseMoves DensePool DenseOps DenseInv DenseSteps.

Module DenseBuild.

Notation N p := (Z.of_nat (length (mem p))).

Section sigma.
Context (BlockN : Z).
Hypothesis (HBlockN : 0 < BlockN < 2 ^ 20).
Notation sigma := (DenseDfa.sigma BlockN).
Notation bitmaps := (bitmaps BlockN).
Notation good_state := (good_state BlockN).
Notation becomes := (becomes BlockN).
Notation inv := (inv BlockN).
Notation changed := (changed BlockN).
Notation blank := (new_DenseState BlockN).

Lemma HB0 : 0 < BlockN.
Proof using HBlockN. lia. Qed.
Hint Resolve HB0 : core.

(** ** A state without moves *)

Definition no_moves (x : DenseState) : Prop := dense x = no_bits BlockN /\ sparse x = no_bits BlockN /\ m_pos x = nil_state /\ dense_target1 x = nil_state /\ dense_target2 x = nil_state /\ is_pzip_ x = false /\ is_free_ x = false.

Lemma blank_none : no_moves blank.
Proof. done. Qed.

Lemma none_bit x c : no_moves x -> bit_at (dense x) c = false /\ bit_at (sparse x) c = false.
Proof using HBlockN. intros (-> & -> & _). by rewrite no_bits_bit by done. Qed.

Lemma none_bitmaps x : no_moves x -> bitmaps x.
Proof using HBlockN. intros (E1 & E2 & _). split; rewrite ?E1, ?E2; by apply no_bits_bitmap. Qed.

Lemma none_sparse x : no_moves x -> num_sparse x = 0.
Proof using HBlockN. intros Hx. rewrite (num_sparse_rank BlockN) by (done || by apply none_bitmaps). apply cnt_false. intros c Hc. unfold in_pool. by rewrite (proj2 (none_bit x c Hx)), andb_false_r. Qed.

Lemma none_own x : no_moves x -> own x = [].
Proof using HBlockN. intros Hx. unfold own. by rewrite none_sparse. Qed.

Lemma none_target p x c : no_moves x -> target p x c = None.
Proof using HBlockN. intros Hx. unfold target. by destruct (none_bit x c Hx) as [-> ->]. Qed.

Lemma none_moves x : no_moves x -> num_moves BlockN x = 0.
Proof using HBlockN. intros Hx. apply cnt_false. intros c Hc. by destruct (none_bit x c Hx) as [-> ->]. Qed.

Lemma none_good p x : no_moves x -> good_state p x.
Proof using HBlockN.
  intros Hx. pose proof Hx as (E1 & E2 & E3 & E4 & E5 & E6 & E7). split; try done; [by apply none_bitmaps|split; [by rewrite none_sparse, E3|by rewrite none_sparse]|intros _; split; [done|intros c Hc; apply (none_bit x c Hx)]|intros _ c Hc _; apply (none_bit x c Hx)|].
  intros c t Hc. by rewrite none_target.
Qed.

(** ** More states *)

Lemma owned_app l l' : owned (l ++ l') = owned l ++ owned l'.
Proof. unfold owned. by rewrite map_app, concat_app. Qed.

Lemma owned_none l : Forall no_moves l -> owned l = [].
Proof using HBlockN. induction 1 as [|x l Hx Hl IH]; [done|]. change (owned (x :: l)) with (own x ++ owned l). by rewrite IH, none_own. Qed.

(** [D'] is [D] with more states, which have no moves and are not final. *)
Record extended (D D' : DenseDFA) (k : Z) : Prop := {
  e_size : size D' = size D + k;
  e_states : states D' = states D ++ replicate (Z.to_nat k) blank;
  e_term : forall j, 0 <= j < size D' -> term_of D' j = if j <? size D then term_of D j else false;
  e_move : forall j c, 0 <= j < size D' -> 0 <= c < sigma -> move_of D' j c = if j <? size D then move_of D j c else None
}.

Lemma dense_append_ok D k : inv D -> size D + Z.of_nat k <= max_state -> inv (set_states D (states D ++ replicate k blank)) /\ extended D (set_states D (states D ++ replicate k blank)) (Z.of_nat k).
Proof using HBlockN.
  intros HI Hk. assert (Hall : Forall no_moves (replicate k blank)) by (by apply Forall_replicate). assert (Hsz : size (set_states D (states D ++ replicate k blank)) = size D + Z.of_nat k) by (unfold size; cbn; rewrite length_app, length_replicate; lia).
  assert (Hrd : forall j, 0 <= j < size D + Z.of_nat k -> rd (states D ++ replicate k blank) j = if j <? size D then rd (states D) j else Ok blank).
  { intros j Hj. destruct (Z.ltb_spec j (size D)) as [Hlt|Hge].
    - destruct (dense_state_rd D j ltac:(lia)) as (x & -> & Hx). apply rd_ok; [lia|]. by apply lookup_app_l_Some.
    - apply rd_ok; [lia|]. unfold size in *. rewrite lookup_app_r by lia. apply lookup_replicate. split; [done|lia]. }
  destruct HI as [(fast & huge & R) I2 I3 I4 I5 I6]. split; [split|split]; cbn [pool states set_states firstFreeState numFreeStates m_zpath_states transition_num]; try done.
  - exists fast, huge. rewrite owned_app, (owned_none (replicate k blank)), app_nil_r by done. exact R.
  - intros i x [Hx|[_ Hx]]%lookup_app_Some; [by apply (I2 i)|]. apply lookup_replicate in Hx as [-> _]. apply none_good, blank_none.
  - rewrite Hsz. lia.
  - rewrite map_app, zsum_app, I6. assert (zsum (map (num_moves BlockN) (replicate k blank)) = 0) as ->; [|lia]. clear -HBlockN. induction k as [|k IH]; [done|]. cbn [replicate map]. by rewrite zsum_cons, IH, none_moves by apply blank_none.
  - by rewrite Nat2Z.id.
  - intros j Hj. unfold term_of. cbn [states set_states]. rewrite Hsz in Hj. rewrite Hrd by done. by destruct (j <? size D).
  - intros j c Hj Hc. unfold move_of. cbn [states set_states pool]. rewrite Hsz in Hj. rewrite Hrd by done. destruct (j <? size D); [done|]. by rewrite none_target by apply blank_none.
Qed.

Lemma new_state_ok D : inv D -> size D < max_state -> exists D', new_state BlockN D = Ok (size D, D') /\ inv D' /\ extended D D' 1 /\ pool D' = pool D.
Proof using HBlockN.
  intros HI Hs. unfold new_state. destruct (i_free _ D HI) as [-> ->]. rewrite Z.eqb_refl. cbn [Z.eqb assert_ rbind]. rewrite (proj2 (Z.leb_gt _ _)) by lia. eexists. split; [done|]. destruct (dense_append_ok D 1 HI) as [H1 H2]; [lia|]. by split.
Qed.

Lemma new_state_full D : inv D -> size D = max_state -> new_state BlockN D = Throw runtime_error.
Proof. intros HI Hs. unfold new_state. destruct (i_free _ D HI) as [-> ->]. rewrite Z.eqb_refl. cbn [Z.eqb assert_ rbind]. by rewrite (proj2 (Z.leb_le _ _)) by lia. Qed.

Lemma dense_resize_ok D n : inv D -> size D <= n < max_state -> exists D', resize_states BlockN D n = Ok D' /\ inv D' /\ extended D D' (n - size D) /\ pool D' = pool D.
Proof using HBlockN.
  intros HI Hn. unfold resize_states. rewrite (proj2 (Z.leb_gt _ _)) by lia. eexists. split; [done|]. unfold size in *. rewrite take_ge by lia. destruct (dense_append_ok D (Z.to_nat n - length (states D)) HI) as [H1 H2]; [unfold size; lia|].
  replace (n - Z.of_nat (length (states D))) with (Z.of_nat (Z.to_nat n - length (states D))) by lia. by split.
Qed.

(** The automaton with one state. *)
Lemma fresh_inv p fast huge : rep p [] fast huge -> inv (init BlockN p) /\ size (init BlockN p) = 1 /\ term_of (init BlockN p) 0 = false /\ forall c, move_of (init BlockN p) 0 c = None.
Proof using HBlockN.
  intros Hr. split; [split|]; cbn [pool states init firstFreeState numFreeStates m_zpath_states transition_num]; try done.
  - exists fast, huge. by rewrite (owned_none [blank]) by (by constructor).
  - intros [|i] x Hx; [|done]. injection Hx as <-. apply none_good, blank_none.
  - cbn [map]. rewrite zsum_cons, none_moves by apply blank_none. done.
  - split; [done|]. split; [done|]. intros c. unfold move_of. cbn. apply none_target, blank_none.
Qed.
(** ** Copies *)

Lemma num_moves_parts x : bitmaps x -> num_moves BlockN x = num_sparse x + popcnt (dense x).
Proof using HBlockN.
  intros Hx. pose proof Hx as [Hd _]. rewrite (num_sparse_rank BlockN), (dense_popcnt_ok BlockN) by done. unfold num_moves. pose proof (sigma_range BlockN HBlockN) as Hsg. rewrite <- (Z2Nat.id sigma) by lia. induction (Z.to_nat sigma) as [|n IH]; [done|].
  replace (Z.of_nat (S n)) with (Z.of_nat n + 1) by lia. rewrite !rank_succ, IH by lia. unfold in_pool. destruct (bit_at (dense x) _), (bit_at (sparse x) _); cbn; lia.
Qed.

Lemma setpos_words x b : 0 <= b < 2 ^ 30 -> setpos x (4 * b) = Ok (set_m_pos x b).
Proof. intros Hb. unfold setpos, PoolAlign, max_state. replace (4 * b / 4) with b by (rewrite Z.mul_comm, Z.div_mul; lia). rewrite (proj2 (Z.ltb_lt b _)) by lia. cbn [assert_ rbind]. by rewrite u32_small by lia. Qed.

(** A block is copied to a new one. *)
Lemma copy_block rand_r junk p live a w fast huge : rep p live fast huge -> (a, w) ∈ live -> 4 * (N p + w) < 2 ^ 32 -> exists b p1 p', alloc rand_r junk p (4 * w) = Ok (4 * b, p1) /\ copy_words p1 (4 * b) (4 * a) (4 * w) = Ok p' /\ pool_ok p p' ((b, w) :: live) live /\ N p' <= N p + w /\ 0 <= b /\ b + w <= N p' /\ 0 <= a < N p1 /\ forall k, 0 <= k < w -> word_at (mem p') (b + k) = word_at (mem p) (a + k).
Proof.
  intros Hr Hin Hs. destruct (live_block_range p _ _ _ a w Hr Hin) as (Ha & Hw & Haw). destruct (pool_alloc_ok junk rand_r p live fast huge w (4 * w) Hr) as (b & p1 & E1 & fast1 & huge1 & H1 & _ & _ & K1 & N1 & _); [done|lia|done|].
  destruct (live_block_range p1 _ _ _ b w H1 ltac:(by left)) as (Hb & _ & Hbw). destruct (live_block_range p1 _ _ _ a w H1 ltac:(by right)) as (_ & _ & Haw1). pose proof (r_cells _ _ _ _ H1) as Hnd. cbn [app] in Hnd. rewrite cells_cons in Hnd. apply list.NoDup_app in Hnd as (_ & Hd & _).
  assert (Hcell : forall k, 0 <= k < w -> a + k ∈ cells live) by (intros k Hk; apply elem_of_cells; exists a, w; split; [done|lia]).
  destruct (copy_words_ok p1 b a w) as (ws & E2 & Hl & Hws); [lia|lia|lia|lia|lia| |]. { intros i j Hi Hj E. apply (Hd (b + i)); [apply elem_of_seqZ; lia|]. rewrite cells_app, elem_of_app, E. left. by apply Hcell. }
  exists b, p1, (set_mem p1 ws). split; [done|]. split; [done|]. cbn [mem set_mem]. rewrite Hl. split; [|split; [done|split; [done|split; [done|split; [lia|]]]]].
  - apply (pool_ok_trans p p1 _ ((b, w) :: live)); [split; [by eexists _, _|done]|]. apply (rewrite_block p1 ws b w live fast1 huge1 H1 Hl). intros y Hy Hn. rewrite Hws by done. destruct (Z.leb_spec b y), (Z.ltb_spec y (b + w)); (done || lia).
  - intros k Hk. rewrite Hws by lia. rewrite (proj2 (Z.leb_le b _)), (proj2 (Z.ltb_lt (b + k) _)) by lia. cbn [andb]. replace (a + (b + k - b)) with (a + k) by lia. by apply K1, Hcell.
Qed.

(** [D'] is [D] and a copy of the state [s]. *)
Record copied (D D' : DenseDFA) (s : Z) : Prop := {
  cp_size : size D' = size D + 1;
  cp_states : exists x x', states D !! Z.to_nat s = Some x /\ states D' = states D ++ [x'] /\ (num_sparse x = 0 -> x' = x);
  cp_term : forall j, 0 <= j <= size D -> term_of D' j = term_of D (if j =? size D then s else j);
  cp_move : forall j c, 0 <= j <= size D -> 0 <= c < sigma -> move_of D' j c = move_of D (if j =? size D then s else j) c
}.

(** The new state gets the bits and targets of [x]. *)
Lemma dense_copy_ok D s x p' x' : inv D -> 0 <= s < size D -> size D < max_state -> states D !! Z.to_nat s = Some x -> pool_ok (pool D) p' (own x' ++ owned (states D)) (owned (states D)) -> placed p' x' -> (exists b, x' = set_m_pos x b) -> (num_sparse x = 0 -> x' = x) ->
  (forall c, 0 <= c < sigma -> target p' x' c = target (pool D) x c) ->
  let D' := add_num (set_states (set_pool D p') (states D ++ [x'])) (num_sparse x + popcnt (dense x)) in inv D' /\ copied D D' s.
Proof using HBlockN.
  intros HI Hs Hfull Hx Hpool Hpl (b & ->) Hsame Ht D'. pose proof (i_good _ D HI _ x Hx) as G. destruct (dense_append_ok D 1 HI) as [H1 H2]; [lia|]. change (replicate 1 blank) with [blank] in *. set (D1 := set_states D (states D ++ [blank])) in *. pose proof (e_size _ _ _ H2) as Hsz.
  set (y0 := set_term blank (is_term_ x)). assert (Hlk : forall z, (states D ++ [z]) !! Z.to_nat (size D) = Some z) by (intros z; unfold size; by rewrite Nat2Z.id, list_lookup_middle). assert (Hin : forall z z', <[Z.to_nat (size D) := z']> (states D ++ [z]) = states D ++ [z']) by (intros z z'; unfold size; rewrite Nat2Z.id; rewrite insert_app_r_alt by done; by rewrite Nat.sub_diag).
  pose proof (i_size _ D HI) as HsD. destruct (set_term_ok BlockN D1 (size D) blank (is_term_ x) H1) as [H3 H4]; [lia|apply Hlk|]. fold y0 in H3, H4. cbn [states set_states D1] in H3, H4. rewrite Hin in H3, H4. set (D2 := set_states D1 (states D ++ [y0])) in *.
  assert (Hy0 : no_moves y0) by done. assert (Hdel : delete (Z.to_nat (size D)) (states D2) = states D) by (unfold size; rewrite Nat2Z.id; cbn [states set_states D2]; by rewrite delete_middle, app_nil_r).
  assert (Hnm : num_moves BlockN x = count_moves BlockN (target (pool D) x)) by (by rewrite (num_moves_target BlockN (pool D))).
  destruct (update_ok BlockN HBlockN D2 (size D) y0 p' (set_m_pos x b) (target (pool D) x) (num_sparse x + popcnt (dense x)) H3) as [U1 U2].
  - rewrite (c_size _ _ _ _ _ _ H4). lia.
  - apply Hlk.
  - rewrite Hdel. split; [done|apply G|done|done|]. cbn. by rewrite (g_pzip _ _ _ G), (g_free _ _ _ G).
  - apply (g_nil _ _ _ G).
  - apply (g_nil2 _ _ _ G).
  - intros c t Hc. by apply (g_targets _ _ _ G).
  - rewrite (none_moves y0) by done. rewrite <- num_moves_parts by apply G. lia.
  - cbn [states set_states D2] in U1, U2. rewrite Hin in U1, U2. change (add_num _ _) with D' in U1, U2. destruct U2 as [U2 _ U3 U4], H4 as [V2 _ V3 V4], H2 as [_ W1 W3 W4]. split; [exact U1|]. split; [lia|by exists x, (set_m_pos x b)| |].
    + intros j Hj. rewrite U3 by lia. destruct (Z.eqb_spec j (size D)) as [->|Hne]; [cbn; unfold term_of; by rewrite (rd_ok _ _ x) by (lia || done)|]. rewrite V3, (proj2 (Z.eqb_neq j _)), W3 by lia. by rewrite (proj2 (Z.ltb_lt j _)) by lia.
    + intros j c Hj Hc. rewrite U4 by lia. destruct (Z.eqb_spec j (size D)) as [->|Hne]; [unfold move_of; by rewrite (rd_ok _ _ x) by (lia || done)|]. rewrite V4, (proj2 (Z.eqb_neq j _)), W4 by lia. by rewrite (proj2 (Z.ltb_lt j _)) by lia.
Qed.

Lemma clone_state_ok rand_r junk D s : inv D -> 0 <= s < size D -> size D < max_state -> 4 * (N (pool D) + sigma) < 2 ^ 32 -> exists D',
  clone_state BlockN rand_r junk D s = Ok (size D, D') /\ inv D' /\ copied D D' s /\ N (pool D') <= N (pool D) + sigma.
Proof using HBlockN.
  intros HI Hs Hfull Hb. destruct (dense_state_rd D s Hs) as (x & Hrd & Hx). pose proof (i_good _ D HI _ x Hx) as G. pose proof (num_sparse_range BlockN HB0 x (g_bits _ _ _ G)) as Hns. destruct (g_placed _ _ _ G) as [Hpn Hpr]. pose proof (i_size _ D HI) as HsD.
  unfold clone_state. rewrite (proj2 (Z.ltb_lt s _)) by lia. cbn [assert_ rbind]. unfold new_state. destruct (i_free _ D HI) as [Ef1 Ef2]. rewrite Ef1, Ef2, Z.eqb_refl. cbn [Z.eqb assert_ rbind]. rewrite (proj2 (Z.leb_gt _ _)) by lia. cbn [rbind].
  assert (Hlk : forall z, (states D ++ [z]) !! Z.to_nat s = Some x) by (intros z; by apply lookup_app_l_Some). assert (Hput : forall D1 z z', states D1 = states D ++ [z] -> put_state D1 (size D) z' = Ok (set_states D1 (states D ++ [z']))).
  { intros D1 z z' E. rewrite put_state_ok by (unfold size; rewrite E, length_app; cbn [length]; lia). do 2 f_equal. rewrite E. unfold size. rewrite Nat2Z.id, insert_app_r_alt by done. by rewrite Nat.sub_diag. }
  assert (Hrd1 : rd (states (set_states D (states D ++ [blank]))) s = Ok x) by (apply rd_ok; [lia|apply Hlk]). rewrite Hrd1. cbn [rbind]. rewrite (Hput _ blank x) by done. cbn [rbind].
  destruct (i_rep _ D HI) as (fast & huge & Hr). destruct (Z.eqb_spec (num_sparse x) 0) as [E0|E0]; cbn [negb].
  - cbn [rbind]. destruct (dense_copy_ok D s x (pool D) x HI Hs Hfull Hx) as [U1 U2]; [unfold own; rewrite E0; split; [by eexists _, _|done]|apply G|by exists (m_pos x); destruct x|done|done|].
    eexists. split; [done|]. split; [exact U1|]. split; [exact U2|]. cbn. lia.
  - rewrite (proj2 (Z.eqb_neq nil_state _)) by (intros E; apply E0, Hpn; congruence). cbn [negb assert_ rbind pool set_states]. assert (Hblk : (m_pos x, num_sparse x) ∈ owned (states D)). { apply owned_in. exists x. split; [by apply list_elem_of_lookup_2 in Hx|by apply own_in]. }
    destruct (copy_block rand_r junk (pool D) (owned (states D)) (m_pos x) (num_sparse x) fast huge Hr Hblk) as (b & p1 & p' & -> & E2 & Hok & HN & Hb0 & Hbm & Ha & Hw); [lia|]. cbn [rbind]. rewrite setpos_words by lia. cbn [rbind]. rewrite (Hput _ x) by done. cbn [rbind pool set_states set_pool].
    rewrite getpos_words. unfold MemPool.n, align_size. rewrite (proj2 (Z.ltb_lt _ _)) by lia. cbn [assert_ rbind]. rewrite E2. cbn [rbind]. destruct (dense_copy_ok D s x p' (set_m_pos x b) HI Hs Hfull Hx) as [U1 U2].
    + unfold own. change (num_sparse (set_m_pos x b)) with (num_sparse x). by rewrite (proj2 (Z.eqb_neq _ 0)).
    + unfold placed. change (num_sparse (set_m_pos x b)) with (num_sparse x). cbn [m_pos set_m_pos]. split; [|lia]. unfold nil_state. split; [lia|done].
    + by exists b.
    + done.
    + intros c Hc. apply target_same; [done|done|done|]. intros Hin. destruct (in_pool_idx BlockN HB0 x c (g_bits _ _ _ G) Hc Hin) as [J1 J2]. apply Hw. done.
    + eexists. split; [done|]. split; [exact U1|]. split; [exact U2|]. cbn. lia.
Qed.
End sigma.
End DenseBuild.
