(* ===== verification/DenseFill.v ===== *)
(** * All moves of a state at once *)
From stdpp Require Import sorting.
From S2P Require Import Prelude Bits Dfa MemPool MemPoolInv MemPoolOps MemPoolAlloc MemPoolProps DenseDfa DenseBits DenseMoves DensePool DenseOps DenseInv DenseSteps DenseFreq DenseBuild.
Import MemPool MemPoolInv MemPoolOps MemPoolAlloc DenseDfa DenseBits DenseMoves DensePool DenseOps DenseInv DenseSteps DenseFreq DenseBuild.

Module DenseFill.

Notation N p := (Z.of_nat (length (mem p))).

Section sigma.
Context (BlockN : Z).
Hypothesis (HBlockN : 0 < BlockN < 2 ^ 20).
Notation sigma := (DenseDfa.sigma BlockN).
Notation bitmap := (bitmap BlockN).
Notation bitmaps := (bitmaps BlockN).
Notation good_state := (good_state BlockN).
Notation becomes := (becomes BlockN).
Notation inv := (inv BlockN).
Notation changed := (changed BlockN).
Notation no_moves := (no_moves BlockN).

Lemma HB1 : 0 < BlockN.
Proof using HBlockN. lia. Qed.
Hint Resolve HB1 : core.

(** ** [del_all_move] *)

Lemma del_all_ok rand_r D s x : inv D -> 0 <= s < size D -> states D !! Z.to_nat s = Some x -> exists D' x',
  del_all_move BlockN D s rand_r = Ok D' /\ inv D' /\ N (pool D') <= N (pool D) /\ changed D D' s (is_term_ x) (fun _ => None) /\ states D' !! Z.to_nat s = Some x' /\ no_moves x'.
Proof using HBlockN.
  intros HI Hs Hx. pose proof (i_good _ D HI _ x Hx) as G. pose proof (num_sparse_range BlockN HB1 x (g_bits _ _ _ G)) as Hns. destruct (g_placed _ _ _ G) as [Hpn Hpr]. destruct (inv_rep _ D s x HI Hx) as (fast & huge & Hr). assert (Hlen : (Z.to_nat s < length (states D))%nat) by (by eapply lookup_lt_Some).
  unfold del_all_move. rewrite (i_zpath _ D HI). cbn [Z.eqb assert_ rbind]. rewrite (state_ok D s x Hs Hx). cbn [rbind]. rewrite (g_pzip _ _ _ G). cbn [negb assert_ rbind]. set (x' := State false (is_term_ x) (is_free_ x) nil_state nil_state nil_state (no_bits BlockN) (no_bits BlockN)).
  assert (Hx' : no_moves x') by (unfold no_moves; cbn; by rewrite (g_free _ _ _ G)). set (k1 := if negb (nil_state =? dense_target1 x) then - popcnt (dense x) else 0).
  assert (Ek1 : k1 = - popcnt (dense x)). { unfold k1. destruct (Z.eqb_spec nil_state (dense_target1 x)) as [E|]; [|done]. cbn [negb]. symmetry in E. apply (g_nil _ _ _ G) in E as [_ E]. rewrite (dense_popcnt_ok BlockN) by (done || apply G). assert (rank (bit_at (dense x)) sigma = 0) as ->; [|done]. apply cnt_false. intros c Hc. apply E. lia. }
  assert (Hfin : forall p' k, pool_ok (pool D) p' (owned (delete (Z.to_nat s) (states D))) (owned (delete (Z.to_nat s) (states D))) -> N p' <= N (pool D) -> k = - num_moves BlockN x ->
    let D' := add_num (set_states (set_pool D p') (<[Z.to_nat s := x']> (states D))) k in inv D' /\ N (pool D') <= N (pool D) /\ changed D D' s (is_term_ x) (fun _ => None) /\ states D' !! Z.to_nat s = Some x' /\ no_moves x').
  { intros p' k Hok HN ->. cbv zeta. destruct (update_ok BlockN HBlockN D s x p' x' (fun _ => None) (- num_moves BlockN x) HI Hs Hx) as [U1 U2].
    - split; [by rewrite (none_own BlockN HBlockN x')|by apply (none_bitmaps BlockN HBlockN)|apply (none_good BlockN HBlockN p' x' Hx')|intros c Hc; by apply (none_target BlockN HBlockN)|]. cbn. by rewrite (g_pzip _ _ _ G), (g_free _ _ _ G).
    - intros _. split; [done|]. intros c Hc. apply (none_bit BlockN HBlockN x' c Hx').
    - intros _ c Hc _. apply (none_bit BlockN HBlockN x' c Hx').
    - done.
    - assert (count_moves BlockN (fun _ => None) = 0) as ->; [by apply cnt_false|lia].
    - split; [exact U1|]. split; [done|]. split; [exact U2|]. split; [|done]. cbn. by apply list_lookup_insert_eq. }
  assert (Eadd : (if negb (nil_state =? dense_target1 x) then add_num D (- popcnt (dense x)) else D) = add_num D k1). { unfold k1. destruct (negb _); [done|]. destruct D. unfold add_num. cbn. by rewrite Z.add_0_r. }
  rewrite Eadd. rewrite (num_moves_parts BlockN HBlockN) in Hfin by apply G. destruct (Z.eqb_spec nil_state (m_pos x)) as [E|E]; cbn [negb].
  - assert (num_sparse x = 0) as E0 by (apply Hpn; congruence). unfold own in Hr. rewrite E0 in Hr. cbn [rbind]. rewrite put_state_ok by done. eexists _, x'. split; [done|].
    destruct (Hfin (pool D) k1) as (U1 & U2 & U3 & U4); [split; [by exists fast, huge|done]|lia|lia|]. split; [exact U1|]. split; [exact U2|]. split; [exact U3|exact U4].
  - assert (Hn0 : num_sparse x <> 0) by (intros E0; apply Hpn in E0; congruence). rewrite (proj2 (Z.ltb_lt 0 _)) by lia. cbn [assert_ rbind]. unfold own in Hr. rewrite (proj2 (Z.eqb_neq _ _) Hn0) in Hr. cbn [app] in Hr.
    destruct (drop_block rand_r (pool D) _ (m_pos x) (num_sparse x) fast huge Hr) as (p' & Ep & Hok & HN). rewrite getpos_words. cbn [pool add_num]. rewrite Ep. cbn [rbind]. rewrite put_state_ok by done. eexists _, x'. split; [done|].
    destruct (Hfin p' (k1 + - num_sparse x)) as (U1 & U2 & U3 & U4); [done|done|lia|].
    assert (ED : set_states (add_num (set_pool (add_num D k1) p') (- num_sparse x)) (<[Z.to_nat s:=x']> (states (add_num (set_pool (add_num D k1) p') (- num_sparse x)))) = add_num (set_states (set_pool D p') (<[Z.to_nat s:=x']> (states D))) (k1 + - num_sparse x)).
    { destruct D. unfold set_states, add_num, set_pool. cbn. by rewrite Z.add_assoc. }
    fold x'. rewrite ED. split; [exact U1|]. split; [exact U2|]. split; [exact U3|exact U4].
Qed.
(** ** [add_all_move] *)

Section fill.
Context (l : list (Z * Z)) (d1 d2 : Z).
Hypothesis (Hasc : Dfa.ascending (Dfa.chars l) = true).
Hypothesis (Hrange : forall c t, In (c, t) l -> 0 <= c < sigma /\ 0 <= t < nil_state).
Hypothesis (Hne : d1 <> d2).

Definition other (t : Z) : bool := negb (t =? d1) && negb (t =? d2).
Notation ns := (rank (going other l) sigma).

Context (p0 : MemPool) (rest : list (Z * Z)) (b0 : Z).
Notation live := ((if ns =? 0 then [] else [(b0, ns)]) ++ rest).

Definition fill_step (r : res (list Z * list Z * MemPool * Z)) (ct : Z * Z) : res (list Z * list Z * MemPool * Z) :=
  let* (d, b, p, j) := r in let '(ch, target) := ct in
  if target =? d1 then let* d := set1 BlockN d ch in Ok (d, b, p, j)
  else if target =? d2 then let* d := set1 BlockN d ch in let* b := set1 BlockN b ch in Ok (d, b, p, j)
  else let* b := set1 BlockN b ch in let* p := trans_set p (4 * b0) j (u32 target) in Ok (d, b, p, j + 1).

(** The moves [V] are done. *)
Record filled (V : list (Z * Z)) (d b : list Z) (p : MemPool) (j : Z) : Prop := {
  fi_d : bitmap d;
  fi_b : bitmap b;
  fi_dbit : forall c, 0 <= c -> bit_at d c = going (fun t => (t =? d1) || (t =? d2)) V c;
  fi_bbit : forall c, 0 <= c -> bit_at b c = going (fun t => negb (t =? d1)) V c;
  fi_pool : pool_ok p0 p live rest;
  fi_at : 0 < ns -> 0 <= b0 /\ b0 + ns <= N p;
  fi_j : j = rank (going other V) sigma;
  fi_word : forall c t, 0 <= c -> Dfa.find_move c V = Some t -> other t = true -> word_at (mem p) (b0 + rank (going other V) c) = t
}.

Lemma going_snoc q V ch t c : Dfa.ascending (Dfa.chars (V ++ [(ch, t)])) = true -> going q (V ++ [(ch, t)]) c = if c =? ch then q t else going q V c.
Proof. intros Ha. unfold going. rewrite find_snoc by done. by destruct (c =? ch). Qed.

(** Bits after one more move. *)
Lemma bits_snoc q V ch t bm bm' : Dfa.ascending (Dfa.chars (V ++ [(ch, t)])) = true -> (forall c, 0 <= c -> bit_at bm c = going q V c) ->
  (forall c, 0 <= c -> bit_at bm' c = if c =? ch then q t else bit_at bm c) -> forall c, 0 <= c -> bit_at bm' c = going q (V ++ [(ch, t)]) c.
Proof. intros Ha Hb Hb' c Hc. rewrite Hb', going_snoc by done. destruct (c =? ch); [done|by apply Hb]. Qed.

Lemma bits_keep q V ch t bm : Dfa.ascending (Dfa.chars (V ++ [(ch, t)])) = true -> q t = false -> (forall c, 0 <= c -> bit_at bm c = going q V c) -> forall c, 0 <= c -> bit_at bm c = going q (V ++ [(ch, t)]) c.
Proof. intros Ha Hq Hb c Hc. rewrite going_snoc, Hb by done. destruct (Z.eqb_spec c ch) as [->|]; [|done]. unfold going. by rewrite (snoc_last V ch t ch Ha), Hq. Qed.

Lemma other_rank V W ch t : l = V ++ (ch, t) :: W -> Dfa.ascending (Dfa.chars (V ++ [(ch, t)])) = true ->
  rank (going other (V ++ [(ch, t)])) sigma = rank (going other V) sigma + Z.b2z (other t) /\ (forall c, 0 <= c <= ch -> rank (going other (V ++ [(ch, t)])) c = rank (going other V) c) /\
  rank (going other V) ch = rank (going other V) sigma /\ (other t = true -> rank (going other V) sigma < ns).
Proof using Hasc Hrange.
  intros El Ha. destruct (Hrange ch t) as [Hch _]; [rewrite El; apply in_or_app; right; by left|]. assert (Hchg : forall c, 0 <= c -> rank (going other (V ++ [(ch, t)])) c = rank (going other V) c + if ch <? c then Z.b2z (other t) else 0).
  { intros c Hc. rewrite (rank_change (going other V) (going other (V ++ [(ch, t)])) ch) by (lia || (intros i Hi Hn; rewrite going_snoc by done; by rewrite (proj2 (Z.eqb_neq i ch)))). rewrite going_snoc, Z.eqb_refl by done. assert (going other V ch = false) as -> by (unfold going; by rewrite (snoc_last V ch t ch Ha)). cbn. by rewrite Z.sub_0_r. }
  split; [rewrite Hchg by lia; by rewrite (proj2 (Z.ltb_lt ch _)) by lia|]. split; [intros c Hc; rewrite Hchg by lia; rewrite (proj2 (Z.ltb_ge ch c)) by lia; lia|]. split.
  - replace sigma with (ch + (sigma - ch)) at 1 by lia. rewrite rank_add by lia. rewrite cnt_false; [lia|]. intros i Hi. unfold going. by rewrite (snoc_last V ch t i Ha) by lia.
  - intros Ho. rewrite !rank_going; [|done|intros c u Hin; by apply (Hrange c u)|by apply ascending_prefix in Ha|intros c u Hin; apply (Hrange c u); rewrite El; apply in_or_app; by left].
    rewrite El, List.filter_app, length_app. cbn [List.filter snd]. rewrite Ho. cbn [length]. lia.
Qed.

Lemma fill_step_ok V W ch t d b p j : l = V ++ (ch, t) :: W -> filled V d b p j -> exists d' b' p' j', fill_step (Ok (d, b, p, j)) (ch, t) = Ok (d', b', p', j') /\ filled (V ++ [(ch, t)]) d' b' p' j' /\ N p' = N p.
Proof using HBlockN Hasc Hrange Hne.
  intros El [F1 F2 F3 F4 F5 F6 F7 F8]. destruct (Hrange ch t) as [Hch Ht]; [rewrite El; apply in_or_app; right; by left|]. assert (Ha : Dfa.ascending (Dfa.chars (V ++ [(ch, t)])) = true) by (apply (ascending_prefix _ W); by rewrite <- app_assoc; cbn [app]; rewrite <- El).
  destruct (other_rank V W ch t El Ha) as (R1 & R2 & R3 & R4). destruct (set1_ok BlockN d ch F1 Hch) as (d' & Ed & Bd & Hd). destruct (set1_ok BlockN b ch F2 Hch) as (b' & Eb & Bb & Hb).
  (* the words of the moves before *)
  assert (Hold : forall p', (forall c, 0 <= c < ch -> going other V c = true -> word_at (mem p') (b0 + rank (going other V) c) = word_at (mem p) (b0 + rank (going other V) c)) -> (other t = true -> word_at (mem p') (b0 + rank (going other V) ch) = t) ->
    forall c u, 0 <= c -> Dfa.find_move c (V ++ [(ch, t)]) = Some u -> other u = true -> word_at (mem p') (b0 + rank (going other (V ++ [(ch, t)])) c) = u).
  { intros p' H1 H2 c u Hc Hf Ho. rewrite find_snoc in Hf by done. destruct (Z.eqb_spec c ch) as [->|Hn]; [injection Hf as <-; rewrite R2 by lia; by apply H2|]. assert (c < ch) as Hlt.
    { destruct (Z.lt_ge_cases c ch); [done|]. exfalso. by rewrite (snoc_last V ch t c Ha) in Hf by lia. }
    rewrite R2 by lia. rewrite H1; [by apply F8|lia|unfold going; by rewrite Hf]. }
  unfold fill_step. cbn [rbind]. destruct (Z.eqb_spec t d1) as [E1|E1]; [|destruct (Z.eqb_spec t d2) as [E2|E2]].
  - assert (Eo : other t = false) by (unfold other; by rewrite (proj2 (Z.eqb_eq t d1) E1)). rewrite Ed. cbn [rbind]. exists d', b, p, j. split; [done|]. split; [|done]. split; try done.
    + apply (bits_snoc _ V ch t d); [done|done|]. intros c Hc. by rewrite Hd, (proj2 (Z.eqb_eq t d1) E1) by done.
    + apply bits_keep; [done|by rewrite (proj2 (Z.eqb_eq t d1) E1)|done].
    + rewrite R1, Eo, F7. cbn. lia.
    + apply Hold; [done|by rewrite Eo].
  - assert (Eo : other t = false) by (unfold other; by rewrite (proj2 (Z.eqb_eq t d2) E2), andb_false_r). rewrite Ed. cbn [rbind]. rewrite Eb. cbn [rbind]. exists d', b', p, j. split; [done|]. split; [|done]. split; try done.
    + apply (bits_snoc _ V ch t d); [done|done|]. intros c Hc. by rewrite Hd, (proj2 (Z.eqb_eq t d2) E2), orb_true_r by done.
    + apply (bits_snoc _ V ch t b); [done|done|]. intros c Hc. by rewrite Hb, (proj2 (Z.eqb_neq t d1) E1) by done.
    + rewrite R1, Eo, F7. cbn. lia.
    + apply Hold; [done|by rewrite Eo].
  - assert (Eo : other t = true) by (unfold other; by rewrite (proj2 (Z.eqb_neq t d1) E1), (proj2 (Z.eqb_neq t d2) E2)). specialize (R4 Eo). rewrite <- F7 in R3, R4. assert (Hj : 0 <= j) by (rewrite F7; apply rank_bounds; pose proof (sigma_range BlockN HBlockN); lia). rewrite Eb. cbn [rbind]. rewrite u32_small by (unfold nil_state in Ht; lia).
    pose proof F5 as [(fast & huge & Hr) K]. rewrite (proj2 (Z.eqb_neq ns 0)) in Hr by lia. destruct (write_target p rest b0 ns fast huge Hr j t) as (p' & -> & Hok & HN & Hw); [lia|]. cbn [rbind]. exists d, b', p', (j + 1). split; [done|]. split; [|done]. split; try done.
    + apply bits_keep; [done|by rewrite (proj2 (Z.eqb_neq t d1) E1), (proj2 (Z.eqb_neq t d2) E2)|done].
    + apply (bits_snoc _ V ch t b); [done|done|]. intros c Hc. by rewrite Hb, (proj2 (Z.eqb_neq t d1) E1) by done.
    + rewrite (proj2 (Z.eqb_neq ns 0)) by lia. cbn [app]. rewrite (proj2 (Z.eqb_neq ns 0)) in F5 by lia. by apply (pool_ok_trans p0 p p' ((b0, ns) :: rest)).
    + by rewrite HN.
    + rewrite R1, Eo, F7. done.
    + apply Hold; [|intros _; rewrite R3, Hw by lia; by rewrite Z.eqb_refl]. intros c Hc Hg. pose proof (rank_lt (going other V) c ch Hc Hg) as Hlt. assert (0 <= rank (going other V) c) by (apply rank_bounds; lia). rewrite Hw by lia. by rewrite (proj2 (Z.eqb_neq _ j)) by lia.
Qed.

Lemma dense_fill_ok d b p : filled [] d b p 0 -> exists d' b' p' j', foldl fill_step (Ok (d, b, p, 0)) l = Ok (d', b', p', j') /\ filled l d' b' p' j' /\ N p' = N p.
Proof using HBlockN Hasc Hrange Hne.
  intros H0. assert (Hall : forall V W, l = V ++ W -> exists d' b' p' j', foldl fill_step (Ok (d, b, p, 0)) V = Ok (d', b', p', j') /\ filled V d' b' p' j' /\ N p' = N p); [|apply (Hall l []); by rewrite app_nil_r].
  induction V as [|[ch t] V IH] using rev_ind; intros W El; [by exists d, b, p, 0|]. rewrite <- app_assoc in El. destruct (IH _ El) as (d1' & b1' & p1 & j1 & E & F & HN). destruct (fill_step_ok V W ch t d1' b1' p1 j1 El F) as (d2' & b2' & p2 & j2 & E2 & F2 & HN2).
  exists d2', b2', p2, j2. rewrite foldl_app, E. split; [exact E2|]. split; [done|]. by rewrite HN2.
Qed.
End fill.
(** The counts that the last assertions compare. *)
Lemma filled_counts l d1 d2 p0 rest b0 d b p j x : Dfa.ascending (Dfa.chars l) = true -> (forall c t, In (c, t) l -> 0 <= c < sigma /\ 0 <= t < nil_state) -> d1 <> d2 -> filled l d1 d2 p0 rest b0 l d b p j -> dense x = d -> sparse x = b ->
  (forall c, 0 <= c -> in_pool x c = going (other d1 d2) l c) /\ num_sparse x = rank (going (other d1 d2) l) sigma /\ num_dense1 x = occ d1 (map snd l) /\ num_dense2 x = occ d2 (map snd l).
Proof using HBlockN.
  intros Ha Hr Hne [F1 F2 F3 F4 _ _ _ _] E1 E2. assert (Hx : bitmaps x) by (split; by rewrite ?E1, ?E2). assert (Hr' : forall c t, In (c, t) l -> 0 <= c < sigma) by (intros c t Hin; by apply (Hr c t)).
  assert (Hin : forall c, 0 <= c -> in_pool x c = going (other d1 d2) l c). { intros c Hc. unfold in_pool, going, other. rewrite E1, E2, F3, F4 by done. unfold going. destruct (Dfa.find_move c l) as [t|]; [|done]. by destruct (Z.eqb_spec t d1), (Z.eqb_spec t d2). }
  split; [done|]. split; [rewrite (num_sparse_rank BlockN) by done; apply rank_ext; intros c Hc; apply Hin; lia|]. rewrite <- !(rank_occ l sigma) by done. rewrite (num_dense1_rank BlockN), (num_dense2_rank BlockN) by done.
  split; apply rank_ext; intros c Hc; rewrite E1, E2, F3, F4 by lia; unfold going; (destruct (Dfa.find_move c l) as [t|]; [|done]); by destruct (Z.eqb_spec t d1), (Z.eqb_spec t d2); subst.
Qed.

(** Where the moves go. *)
Lemma filled_target l d1 d2 p0 rest b0 d b p j x c : filled l d1 d2 p0 rest b0 l d b p j -> dense x = d -> sparse x = b -> dense_target1 x = d1 -> dense_target2 x = d2 -> (rank (going (other d1 d2) l) sigma <> 0 -> m_pos x = b0) ->
  (forall c, 0 <= c -> in_pool x c = going (other d1 d2) l c) -> 0 <= c < sigma -> target p x c = Dfa.find_move c l.
Proof using HBlockN.
  intros [F1 F2 F3 F4 _ _ _ F8] E1 E2 E3 E4 E5 Hin Hc. unfold target. rewrite E1, E2, F3, F4 by lia. unfold going. destruct (Dfa.find_move c l) as [t|] eqn:Ef; [|done]. destruct (Z.eqb_spec t d1) as [->|H1]; [cbn; by rewrite E3|]. destruct (Z.eqb_spec t d2) as [->|H2]; [cbn; by rewrite E4|]. cbn [orb negb]. f_equal.
  assert (Ho : other d1 d2 t = true) by (unfold other; by rewrite (proj2 (Z.eqb_neq t d1) H1), (proj2 (Z.eqb_neq t d2) H2)). assert (Hg : going (other d1 d2) l c = true) by (unfold going; by rewrite Ef).
  assert (rank (going (other d1 d2) l) c < rank (going (other d1 d2) l) sigma) by (by apply rank_lt). pose proof (rank_bounds (going (other d1 d2) l) c ltac:(lia)). rewrite E5 by lia. rewrite (rank_ext _ (going (other d1 d2) l)) by (intros i Hi; apply Hin; lia). by apply F8; [lia|..].
Qed.

Lemma add_all_ok rand_r junk D s x l : inv D -> 0 <= s < size D -> states D !! Z.to_nat s = Some x -> no_moves x -> Dfa.ascending (Dfa.chars l) = true -> (forall c t, In (c, t) l -> 0 <= c < sigma /\ 0 <= t < nil_state) ->
  4 * (N (pool D) + Z.of_nat (length l)) < 2 ^ 32 -> exists D', add_all_move BlockN rand_r junk D s l = Ok D' /\ inv D' /\ N (pool D') <= N (pool D) + Z.of_nat (length l) /\ changed D D' s (is_term_ x) (fun c => Dfa.find_move c l).
Proof using HBlockN.
  intros HI Hs Hx Hno Ha Hrange Hb. destruct (dense_state_rd D s Hs) as (x' & Hrd & Hx'). assert (x' = x) as -> by congruence. pose proof Hno as (N1 & N2 & N3 & N4 & N5 & N6 & N7). pose proof (sigma_range BlockN HBlockN) as Hsg. assert (Hr' : forall c t, In (c, t) l -> 0 <= c < sigma) by (intros c t Hin; by apply (Hrange c t)).
  assert (Hlen : Z.of_nat (length l) <= sigma) by (rewrite <- (dense_rank_all l sigma) by done; apply rank_bounds; lia). assert (Hz : is_all0 (no_bits BlockN) = true) by (apply (all0_ok BlockN HB1 (no_bits BlockN)); [by apply no_bits_bitmap|intros c Hc; by apply no_bits_bit]).
  unfold add_all_move. rewrite Hrd. cbn [rbind]. rewrite N1, N2, N3, N4, N5, N6, N7, Hz, Z.eqb_refl. cbn [andb negb assert_ rbind]. rewrite (proj2 (Z.leb_le _ _) Hlen). cbn [assert_ rbind]. destruct (Z.eqb_spec 0 (Z.of_nat (length l))) as [E0|E0].
  { exists D. split; [done|]. split; [done|]. split; [lia|]. destruct l; [|done]. split; [done|done| |].
    - intros j Hj. destruct (Z.eqb_spec j s) as [->|]; [|done]. unfold term_of. by rewrite Hrd.
    - intros j c Hj Hc. destruct (Z.eqb_spec j s) as [->|]; [|done]. unfold move_of. rewrite Hrd. by apply (none_target BlockN HBlockN). }
  assert (map (fun ct => u32 (snd ct)) l = map snd l) as ->. { apply map_ext_in. intros [c t] Hin. destruct (Hrange c t Hin) as [_ Ht]. cbn [snd]. apply u32_small. unfold nil_state in Ht. lia. }
  set (L := merge_sort Z.le (map snd l)). assert (HL : L ≡ₚ map snd l) by apply merge_sort_Permutation. destruct (max_freqs_ok L) as (f1 & d1 & f2 & d2 & -> & [K1 K2 K3 _ K5]).
  { apply StronglySorted_merge_sort; [intros a b c; lia|intros a b; lia]. }
  { intros a Hin. rewrite HL in Hin. apply list_elem_of_In, in_map_iff in Hin as ([c t] & <- & Hin). by apply (Hrange c t). }
  assert (HL0 : L <> []) by (intros E; rewrite E in HL; apply Permutation_nil in HL; destruct l; done). specialize (K3 HL0). rewrite HL in K3. apply list_elem_of_In, in_map_iff in K3 as ([c1 t1] & E1 & Hin1). cbn [snd] in E1. subst t1. destruct (Hrange _ _ Hin1) as [_ Hd1].
  assert (Hne : d1 <> d2) by (destruct K5 as [->|[_ ?]]; [lia|congruence]). rewrite (occ_perm d1 _ _ HL) in K1. rewrite (occ_perm d2 _ _ HL) in K2. pose proof (rank_three d1 d2 l sigma Hne) as H3. rewrite dense_rank_all, !rank_occ, <- K1, <- K2 in H3 by done. change (rank (going (fun t => negb (t =? d1) && negb (t =? d2)) l) sigma) with (rank (going (other d1 d2) l) sigma) in H3.
  set (ns := rank (going (other d1 d2) l) sigma) in *. assert (Hns : 0 <= ns <= Z.of_nat (length l)) by (unfold ns; rewrite rank_going by done; clear; split; [lia|]; induction l as [|a l IH]; [done|]; cbn [List.filter length] in *; destruct (other d1 d2 (snd a)); cbn [length]; lia). cbn [rbind]. rewrite (proj2 (Z.leb_le _ _)) by lia. cbn [assert_ rbind]. replace (Z.of_nat (length l) - f1 - f2) with ns by lia.
  destruct (inv_rep _ D s x HI Hx) as (fast & huge & Hr). rewrite (none_own BlockN HBlockN x Hno) in Hr. cbn [app] in Hr. set (rest := owned (delete (Z.to_nat s) (states D))) in *.
  (* the block *)
  assert (Hblk : exists b0 pos p1, (if 0 <? ns then let* (pos, p) := alloc rand_r junk (pool D) (align_to (4 * ns)) in let* x := setpos x pos in Ok (x, p, pos) else Ok (x, pool D, 0)) = Ok (set_m_pos x pos, p1, 4 * b0) /\ N p1 <= N (pool D) + ns /\
    filled l d1 d2 (pool D) rest b0 [] (no_bits BlockN) (no_bits BlockN) p1 0 /\ (ns = 0 -> pos = nil_state) /\ (ns <> 0 -> pos = b0)).
  { assert (Hfd : forall b0 p1, pool_ok (pool D) p1 ((if ns =? 0 then [] else [(b0, ns)]) ++ rest) rest -> (0 < ns -> 0 <= b0 /\ b0 + ns <= N p1) -> filled l d1 d2 (pool D) rest b0 [] (no_bits BlockN) (no_bits BlockN) p1 0).
    { intros b0 p1 Hok Hat. split; try done; [by apply no_bits_bitmap|by apply no_bits_bitmap|intros c _; by rewrite no_bits_bit|intros c _; by rewrite no_bits_bit|]. symmetry. by apply cnt_false. }
    destruct (Z.ltb_spec 0 ns) as [Hpos|Hzero].
    - destruct (pool_alloc_ok junk rand_r (pool D) rest fast huge ns (align_to (4 * ns)) Hr) as (b0 & p1 & E & fast1 & huge1 & H1 & _ & _ & HK & HN & _); [done|rewrite MemPoolProps.align_to_words by lia; pose proof (MemPoolProps.words_of_range (4 * ns)); lia|lia|]. destruct (live_block_range p1 _ _ _ b0 ns H1 ltac:(by left)) as (Hb0 & _ & Hb1).
      exists b0, b0, p1. rewrite E. cbn [rbind]. rewrite setpos_words by lia. cbn [rbind]. split; [done|]. split; [lia|]. split; [|split; [lia|done]]. apply Hfd; [|done]. rewrite (proj2 (Z.eqb_neq ns 0)) by lia. split; [by exists fast1, huge1|done].
    - exists 0, nil_state, (pool D). split; [rewrite <- N3; by destruct x|]. split; [lia|]. split; [|split; [done|lia]]. apply Hfd; [|lia]. rewrite (proj2 (Z.eqb_eq ns 0)) by lia. split; [by exists fast, huge|done]. }
  destruct Hblk as (b0 & pos & p1 & -> & HN1 & HF & Hp0 & Hp1). cbn [rbind dense sparse set_m_pos]. rewrite N1, N2.
  destruct (dense_fill_ok l d1 d2 Ha Hrange Hne (pool D) rest b0 _ _ p1 HF) as (d & b & p' & j & Efold & HF' & HN'). unfold fill_step in Efold. rewrite Efold. cbn [rbind]. set (x1 := set_target2 (set_target1 (set_bits (set_m_pos x pos) d b) d1) d2). rewrite (fi_j _ _ _ _ _ _ _ _ _ _ _ HF'). fold ns. rewrite Z.eqb_refl. cbn [assert_ rbind].
  destruct (filled_counts l d1 d2 _ _ _ _ _ _ _ x1 Ha Hrange Hne HF') as (Hin & C1 & C2 & C3); [done|done|]. fold ns in C1. rewrite C1, C2, C3, K1, K2, !Z.eqb_refl. cbn [andb assert_ rbind]. rewrite put_state_ok by done. cbn [rbind]. eexists. split; [done|].
  destruct (update_ok BlockN HBlockN D s x p' x1 (fun c => Dfa.find_move c l) (Z.of_nat (length l)) HI Hs Hx) as [U1 U2].
  - split.
    + unfold own. rewrite C1. fold rest. pose proof (fi_pool _ _ _ _ _ _ _ _ _ _ _ HF') as Hok. fold ns in Hok. destruct (Z.eqb_spec ns 0); [done|]. cbn [x1 m_pos set_m_pos set_bits set_target1 set_target2]. by rewrite Hp1.
    + split; apply HF'.
    + unfold placed. rewrite C1. cbn [x1 m_pos set_m_pos set_bits set_target1 set_target2]. pose proof (fi_at _ _ _ _ _ _ _ _ _ _ _ HF') as Hat. fold ns in Hat. destruct (Z.eq_dec ns 0) as [E|E]; [rewrite E; split; [split; [done|by intros _; apply Hp0]|lia]|]. rewrite Hp1 by done. split; [|exact Hat]. unfold nil_state. split; [lia|done].
    + intros c Hc. by apply (filled_target l d1 d2 (pool D) rest b0 d b p' j x1).
    + done.
  - intros E. cbn in E. lia.
  - intros E c Hc Hd. cbn [x1 dense_target2 set_target2] in E. cbn [x1 dense sparse set_bits set_target1 set_target2] in *. rewrite (fi_dbit _ _ _ _ _ _ _ _ _ _ _ HF') in Hd by lia. rewrite (fi_bbit _ _ _ _ _ _ _ _ _ _ _ HF') by lia. unfold going in *. destruct (Dfa.find_move c l) as [t|] eqn:Ef; [|done].
    apply find_in in Ef; [|done]. destruct (Hrange c t Ef) as [_ Ht]. apply orb_true_iff in Hd as [Hd|Hd]; apply Z.eqb_eq in Hd; [by rewrite (proj2 (Z.eqb_eq t d1) Hd)|lia].
  - intros c t Hc Hf. apply find_in in Hf; [|done]. by apply (Hrange c t).
  - rewrite (none_moves BlockN HBlockN x Hno), Z.sub_0_r, <- (dense_rank_all l sigma) by done. apply rank_ext. intros c Hc. unfold going. destruct (Dfa.find_move c l); [by rewrite bool_decide_eq_true_2 by (by eexists)|by rewrite bool_decide_eq_false_2 by (by intros [? ?])].
  - split; [exact U1|]. split; [cbn; lia|exact U2].
Qed.
End sigma.
End DenseFill.
