(* ===== verification/DenseSpec.v ===== *)
(** * What an automaton with bitmaps promises

    A list of states, each with a map from characters to targets; the operations of
    [DenseDFA] do to it what they say. *)
From stdpp Require Import gmap sorting.
From S2P Require Import Prelude Bits Dfa MemPool DenseDfa DenseBits DenseMoves DenseOps DenseInv DenseSteps DenseFreq DenseBuild DenseFill.
Import DenseDfa DenseBits DenseMoves DenseOps DenseInv DenseSteps DenseFreq DenseBuild DenseFill.

Module DenseSpec.

Notation N p := (Z.of_nat (length (MemPool.mem p))).

(** [e_fresh]: whether the state may be given all its moves at once. *)
Record entry := Entry { e_term : bool; e_fresh : bool; e_moves : gmap Z Z }.

Inductive op :=
  | NewState | Resize (n : Z) | CloneState (s : Z) | SetTerm (s : Z) | ClearTerm (s : Z)
  | AddMove (s t ch : Z) | AddMoveChecked (s t ch : Z) | SetMove (s t ch : Z) | DelMove (s ch : Z) | DelAll (s : Z) | AddAll (s : Z) (l : list (Z * Z))
  | StateMove (s ch : Z) | EachMove (s : Z) | IsTerm (s : Z) | HasChildren (s : Z) | Transitions.

Inductive ans := Done | Num (n : Z) | Flag (b : bool) | Moves (l : list (Z * Z)).

Definition entry_at (A : list entry) (s : Z) : option entry := if 0 <=? s then A !! Z.to_nat s else None.
Definition put (A : list entry) (s : Z) (a : entry) : list entry := <[Z.to_nat s := a]> A.
Definition new_entry : entry := Entry false true ∅.
Definition with_moves (a : entry) (m : gmap Z Z) : entry := Entry (e_term a) false m.
Definition num_entries (A : list entry) : Z := Z.of_nat (length A).

Section sigma.
Context (BlockN : Z).
Notation sigma := (DenseDfa.sigma BlockN).

Definition good_move (ch t : Z) : bool := (0 <=? ch) && (ch <? sigma) && (0 <=? t) && (t <? nil_state).

(** ** The contract *)

Definition spec (o : op) (A : list entry) : option (ans * list entry) :=
  match o with
  | NewState => if num_entries A <? max_state then Some (Num (num_entries A), A ++ [new_entry]) else None
  | Resize n => if (num_entries A <=? n) && (n <? max_state) then Some (Done, A ++ replicate (Z.to_nat n - length A) new_entry) else None
  | CloneState s => a ← entry_at A s; if num_entries A <? max_state then Some (Num (num_entries A), A ++ [a]) else None
  | SetTerm s => a ← entry_at A s; Some (Done, put A s (Entry true (e_fresh a) (e_moves a)))
  | ClearTerm s => a ← entry_at A s; Some (Done, put A s (Entry false (e_fresh a) (e_moves a)))
  | AddMove s t ch => a ← entry_at A s; if good_move ch t && bool_decide (e_moves a !! ch = None) then Some (Num nil_state, put A s (with_moves a (<[ch := t]> (e_moves a)))) else None
  | AddMoveChecked s t ch => a ← entry_at A s; if good_move ch t && bool_decide (e_moves a !! ch = None) then Some (Done, put A s (with_moves a (<[ch := t]> (e_moves a)))) else None
  | SetMove s t ch => a ← entry_at A s; if good_move ch t && negb (bool_decide (e_moves a !! ch = Some t)) then Some (Num (default nil_state (e_moves a !! ch)), put A s (with_moves a (<[ch := t]> (e_moves a)))) else None
  | DelMove s ch => a ← entry_at A s; if negb (bool_decide (e_moves a !! ch = None)) then Some (Done, put A s (with_moves a (delete ch (e_moves a)))) else None
  | DelAll s => a ← entry_at A s; Some (Done, put A s (Entry (e_term a) true ∅))
  | AddAll s l => a ← entry_at A s; if e_fresh a && bool_decide (e_moves a = ∅) && Dfa.ascending (Dfa.chars l) && forallb (fun ct => good_move (fst ct) (snd ct)) l then Some (Done, put A s (Entry (e_term a) (match l with [] => true | _ => false end) (list_to_map l))) else None
  | StateMove s ch => a ← entry_at A s; if (0 <=? ch) && (ch <? sigma) then Some (Num (default nil_state (e_moves a !! ch)), A) else None
  | EachMove s => a ← entry_at A s; Some (Moves (table (fun c => e_moves a !! c) (Z.to_nat sigma)), A)
  | IsTerm s => a ← entry_at A s; Some (Flag (e_term a), A)
  | HasChildren s => a ← entry_at A s; Some (Flag (negb (bool_decide (e_moves a = ∅))), A)
  | Transitions => Some (Num (zsum (map (fun a => Z.of_nat (base.size (e_moves a))) A)), A)
  end.

Fixpoint spec_all (os : list op) (A : list entry) : option (list ans * list entry) :=
  match os with [] => Some ([], A) | o :: os => '(r, A) ← spec o A; '(rs, A) ← spec_all os A; Some (r :: rs, A) end.

(** ** The code *)

Section junk.
Context (rand_r : Z -> Z * Z) (junk : Z -> Z).

Definition exec (o : op) (D : DenseDFA) : res (ans * DenseDFA) :=
  match o with
  | NewState => let* (s, D) := new_state BlockN D in Ok (Num s, D)
  | Resize n => let* D := resize_states BlockN D n in Ok (Done, D)
  | CloneState s => let* (t, D) := clone_state BlockN rand_r junk D s in Ok (Num t, D)
  | SetTerm s => let* D := set_term_bit D s in Ok (Done, D)
  | ClearTerm s => let* D := clear_term_bit D s in Ok (Done, D)
  | AddMove s t ch => let* (r, D) := add_move BlockN rand_r junk D s t ch in Ok (Num r, D)
  | AddMoveChecked s t ch => let* D := add_move_checked BlockN rand_r junk D s t ch in Ok (Done, D)
  | SetMove s t ch => let* (r, D) := set_move BlockN rand_r junk D s t ch in Ok (Num r, D)
  | DelMove s ch => let* D := del_move BlockN rand_r junk D s ch in Ok (Done, D)
  | DelAll s => let* D := del_all_move BlockN D s rand_r in Ok (Done, D)
  | AddAll s l => let* D := add_all_move BlockN rand_r junk D s l in Ok (Done, D)
  | StateMove s ch => let* t := state_move BlockN D s ch in Ok (Num t, D)
  | EachMove s => let* l := for_each_move BlockN D s in Ok (Moves l, D)
  | IsTerm s => let* b := is_term D s in Ok (Flag b, D)
  | HasChildren s => let* b := has_children D s in Ok (Flag b, D)
  | Transitions => Ok (Num (total_transitions D), D)
  end.

Fixpoint exec_all (os : list op) (D : DenseDFA) : res (list ans * DenseDFA) :=
  match os with [] => Ok ([], D) | o :: os => let* (r, D) := exec o D in let* (rs, D) := exec_all os D in Ok (r :: rs, D) end.
End junk.

(** ** The relation *)

Definition shows (D : DenseDFA) (s : Z) (a : entry) : Prop :=
  term_of D s = e_term a /\ (forall c, 0 <= c < sigma -> move_of D s c = e_moves a !! c) /\ (forall c t, e_moves a !! c = Some t -> 0 <= c < sigma) /\
  (e_fresh a = true -> exists x, states D !! Z.to_nat s = Some x /\ no_moves BlockN x).

Record models (D : DenseDFA) (A : list entry) : Prop := {
  mo_inv : inv BlockN D;
  mo_size : size D = num_entries A;
  mo_shows : forall s a, 0 <= s -> A !! Z.to_nat s = Some a -> shows D s a
}.
End sigma.
End DenseSpec.
