(* ===== verification/DenseRefine.v ===== *)
(** * The code does what the contract says *)
From stdpp Require Import gmap sorting.
From S2P Require Import Prelude Bits Dfa MemPool DenseDfa DenseBits DenseMoves DenseOps DenseInv DenseSteps DenseFreq DenseBuild DenseFill DenseSpec.
Import DenseDfa DenseBits DenseMoves DenseOps DenseInv DenseSteps DenseFreq DenseBuild DenseFill DenseSpec.

Module DenseRefine.

Notation N p := (Z.of_nat (length (MemPool.mem p))).

Section sigma.
Context (BlockN : Z).
Hypothesis (HBlockN : 0 < BlockN < 2 ^ 20).
Notation sigma := (DenseDfa.sigma BlockN).
Notation inv := (inv BlockN).
Notation changed := (changed BlockN).
Notation shows := (shows BlockN).
Notation models := (models BlockN).
Notation no_moves := (no_moves BlockN).
Notation blank := (new_DenseState BlockN).

Lemma entry_range D A s a : models D A -> entry_at A s = Some a -> 0 <= s < size D /\ A !! Z.to_nat s = Some a /\ shows D s a.
Proof.
  intros [M1 M2 M3] Ha. unfold entry_at in Ha. destruct (Z.leb_spec 0 s) as [Hs|]; [|done]. split; [|split; [done|by apply M3]]. apply lookup_lt_Some in Ha as Hl. unfold num_entries in M2. lia.
Qed.

(** One state changes. *)
Lemma models_put D A D' s a a' f : models D A -> entry_at A s = Some a -> inv D' -> changed D D' s (e_term a') f -> (forall c, 0 <= c < sigma -> f c = e_moves a' !! c) -> (forall c t, e_moves a' !! c = Some t -> 0 <= c < sigma) ->
  (e_fresh a' = true -> exists x, states D' !! Z.to_nat s = Some x /\ no_moves x) -> models D' (put A s a').
Proof.
  intros HM Ha HI [C1 C2 C3 C4] Hf Hr Hfr. destruct (entry_range D A s a HM Ha) as (Hs & _ & _). destruct HM as [M1 M2 M3]. split; [done|unfold num_entries, put in *; rewrite length_insert; lia|].
  intros j b Hj Hb. unfold put in Hb. destruct (Z.eq_dec j s) as [->|Hne].
  - rewrite list_lookup_insert_eq in Hb by (unfold num_entries in M2; lia). injection Hb as <-. split; [by rewrite C3, Z.eqb_refl by lia|]. split; [|done]. intros c Hc. rewrite C4, Z.eqb_refl by lia. by apply Hf.
  - rewrite list_lookup_insert_ne in Hb by lia. apply lookup_lt_Some in Hb as Hlt. unfold num_entries in M2. destruct (M3 j b Hj Hb) as (S1 & S2 & S3 & S4). split; [by rewrite C3, (proj2 (Z.eqb_neq j s)) by lia|]. split; [|split; [done|by rewrite C2 by lia]].
    intros c Hc. rewrite C4, (proj2 (Z.eqb_neq j s)) by lia. by apply S2.
Qed.

Lemma models_extend D A D' k : models D A -> inv D' -> extended BlockN D D' (Z.of_nat k) -> models D' (A ++ replicate k new_entry).
Proof.
  intros [M1 M2 M3] HI [E1 E2 E3 E4]. unfold num_entries in M2. split; [done|unfold num_entries; rewrite length_app, length_replicate; lia|]. intros j b Hj Hb. assert (Hlt : (Z.to_nat j < length A + k)%nat) by (apply lookup_lt_Some in Hb; by rewrite length_app, length_replicate in Hb).
  apply lookup_app_Some in Hb as [Hb|[Hge Hb]].
  - apply lookup_lt_Some in Hb as Hl. destruct (M3 j b Hj Hb) as (S1 & S2 & S3 & S4). split; [by rewrite E3, (proj2 (Z.ltb_lt j _)) by lia|]. split; [intros c Hc; rewrite E4, (proj2 (Z.ltb_lt j _)) by lia; by apply S2|]. split; [done|].
    intros Hfr. destruct (S4 Hfr) as (x & Hx & Hno). exists x. split; [|done]. rewrite E2. by apply lookup_app_l_Some.
  - apply lookup_replicate in Hb as [-> Hlt']. split; [by rewrite E3, (proj2 (Z.ltb_ge j _)) by lia|]. split; [intros c Hc; rewrite E4, (proj2 (Z.ltb_ge j _)) by lia; symmetry; apply (lookup_empty (M:=gmap Z))|]. split; [intros c t E; cbn [e_moves new_entry] in E; by rewrite lookup_empty in E|].
    intros _. exists blank. split; [|apply blank_none]. rewrite E2. unfold size in M2. rewrite lookup_app_r by lia. apply lookup_replicate. split; [done|lia].
Qed.

Lemma models_copy D A D' s a : models D A -> entry_at A s = Some a -> inv D' -> copied BlockN D D' s -> models D' (A ++ [a]).
Proof using HBlockN.
  intros HM Ha HI [C1 (x & x' & Hx & Hst & Hsame) C3 C4]. destruct (entry_range D A s a HM Ha) as (Hs & Ha' & Sa). destruct HM as [M1 M2 M3]. unfold num_entries in M2. split; [done|unfold num_entries; rewrite length_app; cbn [length]; lia|]. intros j b Hj Hb. apply lookup_app_Some in Hb as [Hb|[Hge Hb]].
  - apply lookup_lt_Some in Hb as Hl. destruct (M3 j b Hj Hb) as (S1 & S2 & S3 & S4). split; [by rewrite C3, (proj2 (Z.eqb_neq j _)) by lia|]. split; [intros c Hc; rewrite C4, (proj2 (Z.eqb_neq j _)) by lia; by apply S2|]. split; [done|].
    intros Hfr. destruct (S4 Hfr) as (y & Hy & Hno). exists y. split; [|done]. rewrite Hst. by apply lookup_app_l_Some.
  - assert (j = size D) as ->. { apply list_lookup_singleton_Some in Hb as [Hz _]. lia. } assert (b = a) as -> by (apply list_lookup_singleton_Some in Hb as [_ ?]; done). destruct Sa as (S1 & S2 & S3 & S4).
    split; [by rewrite C3, Z.eqb_refl by lia|]. split; [intros c Hc; rewrite C4, Z.eqb_refl by lia; by apply S2|]. split; [done|]. intros Hfr. destruct (S4 Hfr) as (y & Hy & Hno). assert (y = x) as -> by congruence. exists x. split; [|done].
    rewrite Hst, (Hsame (none_sparse BlockN HBlockN x Hno)). unfold size. rewrite Nat2Z.id. by apply list_lookup_middle.
Qed.

(** ** What is read *)

Lemma no_moves_empty D A s a : models D A -> entry_at A s = Some a -> bool_decide (e_moves a = ∅) = true <-> forall c, 0 <= c < sigma -> move_of D s c = None.
Proof.
  intros HM Ha. destruct (entry_range D A s a HM Ha) as (_ & _ & _ & S2 & S3 & _). rewrite bool_decide_eq_true. split.
  - intros E c Hc. by rewrite S2, E, lookup_empty by done.
  - intros Hn. apply map_eq. intros c. rewrite lookup_empty. destruct (e_moves a !! c) as [t|] eqn:E; [|done]. pose proof (S3 c t E) as Hc. rewrite <- S2, Hn in E by done. done.
Qed.

Lemma has_children_ok D A s a : models D A -> entry_at A s = Some a -> has_children D s = Ok (negb (bool_decide (e_moves a = ∅))).
Proof using HBlockN.
  intros HM Ha. destruct (entry_range D A s a HM Ha) as (Hs & _ & _). pose proof (mo_inv _ _ _ HM) as HI. destruct (dense_state_rd D s Hs) as (x & Hrd & Hx). pose proof (i_good _ D HI _ x Hx) as G. destruct (g_bits _ _ _ G) as [Hd Hb]. unfold has_children. rewrite (state_ok D s x Hs Hx). cbn [rbind]. f_equal.
  rewrite <- negb_andb. f_equal. apply eq_true_iff_eq. rewrite andb_true_iff, (all0_ok BlockN) by (lia || done). rewrite (all0_ok BlockN) by (lia || done). rewrite (no_moves_empty D A s a HM Ha). unfold move_of. rewrite Hrd. unfold target. split.
  - intros [H1 H2] c Hc. by rewrite H1, H2.
  - intros Hn. split; intros c Hc; specialize (Hn c Hc); by destruct (bit_at (dense x) c), (bit_at (sparse x) c).
Qed.

(** The number of moves of a state. *)
Lemma count_map (m : gmap Z Z) f : (forall c, 0 <= c < sigma -> f c = m !! c) -> (forall c t, m !! c = Some t -> 0 <= c < sigma) -> count_moves BlockN f = Z.of_nat (base.size m).
Proof using HBlockN.
  intros Hf Hr. pose proof (sigma_range BlockN HBlockN) as Hs. rewrite (count_ext BlockN f (fun c => m !! c) Hf). unfold count_moves. rewrite <- (Z2Nat.id sigma) by lia. rewrite <- table_length. f_equal. rewrite <- length_map_to_list. apply Permutation_length, NoDup_Permutation; [|apply NoDup_map_to_list|].
  - pose proof (table_ascending (fun c => m !! c) (Z.to_nat sigma)) as Ha. assert (Hl : forall l, Dfa.ascending (Dfa.chars l) = true -> NoDup l); [|by apply Hl]. clear. induction l as [|[c t] l IH]; intros Ha; [constructor|]. cbn [Dfa.chars map fst] in Ha. constructor; [|apply IH; by apply ascending_tail in Ha].
    intros Hin. apply list_elem_of_In in Hin. pose proof (ascending_head c _ c Ha (in_map fst l _ Hin)). lia.
  - intros [c t]. rewrite list_elem_of_In, table_in, elem_of_map_to_list. rewrite Z2Nat.id by lia. split; [tauto|]. intros E. split; [by apply (Hr c t)|done].
Qed.

Lemma transitions_ok D A : models D A -> total_transitions D = zsum (map (fun a => Z.of_nat (base.size (e_moves a))) A).
Proof using HBlockN.
  intros [M1 M2 M3]. unfold total_transitions. rewrite (i_count _ D M1). unfold num_entries, size in M2. f_equal.
  change (map (num_moves BlockN) (states D)) with (num_moves BlockN <$> states D). change (map (fun a => Z.of_nat (base.size (e_moves a))) A) with ((fun a => Z.of_nat (base.size (e_moves a))) <$> A). apply list_eq. intros i. rewrite !list_lookup_fmap.
  destruct (states D !! i) as [x|] eqn:Hx; [|apply lookup_ge_None in Hx; by rewrite (lookup_ge_None_2 A) by lia]. apply lookup_lt_Some in Hx as Hi. destruct (lookup_lt_is_Some_2 A i) as [a Ha]; [lia|]. rewrite Ha. cbn [fmap option_fmap option_map]. f_equal.
  destruct (M3 (Z.of_nat i) a) as (_ & S2 & S3 & _); [lia|by rewrite Nat2Z.id|]. rewrite (num_moves_target BlockN (pool D)). apply count_map; [|done]. intros c Hc. rewrite <- S2 by done. unfold move_of. by rewrite (rd_ok _ _ x) by (lia || by rewrite Nat2Z.id).
Qed.
(** ** One operation *)

Context (rand_r : Z -> Z * Z) (junk : Z -> Z).
Notation exec := (exec BlockN rand_r junk).
Notation spec := (spec BlockN).

Definition simulated (o : op) (D : DenseDFA) (r : ans) (A : list entry) : Prop := exists D', exec o D = Ok (r, D') /\ models D' A /\ N (pool D') <= N (pool D) + sigma.

Lemma sigma_pos : 0 < sigma.
Proof using HBlockN. pose proof (sigma_range BlockN HBlockN). lia. Qed.

Lemma good_move_range ch t : good_move BlockN ch t = true -> 0 <= ch < sigma /\ 0 <= t < nil_state.
Proof. unfold good_move. rewrite !andb_true_iff, !Z.leb_le, !Z.ltb_lt. lia. Qed.

Lemma term_entry D A s a : models D A -> entry_at A s = Some a -> term_of D s = e_term a.
Proof. intros HM Ha. by destruct (entry_range D A s a HM Ha) as (_ & _ & ? & _). Qed.

Lemma move_entry D A s a c : models D A -> entry_at A s = Some a -> 0 <= c < sigma -> move_of D s c = e_moves a !! c.
Proof. intros HM Ha Hc. destruct (entry_range D A s a HM Ha) as (_ & _ & _ & S2 & _). by apply S2. Qed.

Lemma range_entry D A s a c t : models D A -> entry_at A s = Some a -> e_moves a !! c = Some t -> 0 <= c < sigma.
Proof. intros HM Ha Hc. destruct (entry_range D A s a HM Ha) as (_ & _ & _ & _ & S3 & _). by apply (S3 c t). Qed.

Lemma models_moves D A D' s a m ch v : models D A -> entry_at A s = Some a -> inv D' -> changed D D' s (term_of D s) (upd_move (move_of D s) ch v) -> (forall c, m !! c = if c =? ch then v else e_moves a !! c) -> 0 <= ch < sigma -> models D' (put A s (with_moves a m)).
Proof.
  intros HM Ha HI HC Hm Hch. rewrite (term_entry D A s a HM Ha) in HC. apply (models_put D A D' s a (with_moves a m) _ HM Ha HI HC).
  - intros c Hc. cbn [e_moves with_moves]. rewrite Hm. unfold upd_move. destruct (c =? ch); [done|by apply (move_entry D A)].
  - intros c t. cbn [e_moves with_moves]. rewrite Hm. destruct (Z.eqb_spec c ch) as [->|]; [done|exact (range_entry D A s a c t HM Ha)].
  - done.
Qed.

Lemma add_imp_sim D A s a t ch ow : models D A -> entry_at A s = Some a -> good_move BlockN ch t = true -> e_moves a !! ch <> Some t -> ow = true \/ e_moves a !! ch = None -> 4 * (N (pool D) + sigma) < 2 ^ 32 -> exists D',
  add_move_imp BlockN rand_r junk D s t ch ow = Ok (default nil_state (e_moves a !! ch), D') /\ models D' (put A s (with_moves a (<[ch := t]> (e_moves a)))) /\ N (pool D') <= N (pool D) + sigma.
Proof using HBlockN.
  intros HM Ha Hg Hne How Hb. destruct (entry_range D A s a HM Ha) as (Hs & _ & _). destruct (good_move_range ch t Hg) as [Hch Ht]. pose proof (move_entry D A s a ch HM Ha Hch) as Em.
  destruct (add_move_imp_ok BlockN HBlockN rand_r junk D s t ch ow (mo_inv _ _ _ HM) Hs Hch Ht) as (r & D' & E & HI & HN & Hadd); [by rewrite Em|done|]. exists D'. rewrite E. unfold move_added in Hadd. rewrite Em in Hadd.
  assert (Hmap : forall c, <[ch:=t]> (e_moves a) !! c = if c =? ch then Some t else e_moves a !! c). { intros c. destruct (Z.eqb_spec c ch) as [->|Hn]; [by rewrite lookup_insert_eq|by rewrite lookup_insert_ne]. }
  destruct (e_moves a !! ch) as [u|] eqn:Eu; [destruct How as [->|]; [|done]|]; destruct Hadd as [-> HC]; (split; [done|]); (split; [|done]); by apply (models_moves D A D' s a _ ch (Some t)).
Qed.

Lemma sim_new D A r A' : models D A -> spec NewState A = Some (r, A') -> simulated NewState D r A'.
Proof using HBlockN.
  intros HM Hs. cbn [DenseSpec.spec] in Hs. rewrite <- (mo_size _ _ _ HM) in Hs. destruct (Z.ltb_spec (size D) max_state) as [Hlt|]; [|done]. injection Hs as <- <-. destruct (new_state_ok BlockN HBlockN D (mo_inv _ _ _ HM) Hlt) as (D' & E & HI & HE & HP).
  exists D'. cbn [DenseSpec.exec]. rewrite E. split; [done|]. split; [by apply (models_extend D A D' 1)|]. rewrite HP. pose proof sigma_pos. lia.
Qed.

Lemma sim_resize D A n r A' : models D A -> spec (Resize n) A = Some (r, A') -> simulated (Resize n) D r A'.
Proof using HBlockN.
  intros HM Hs. cbn [DenseSpec.spec] in Hs. pose proof (mo_size _ _ _ HM) as Hsz. destruct (_ && _) eqn:Hc; [|done]. apply andb_true_iff in Hc as [H1 H2]. apply Z.leb_le in H1. apply Z.ltb_lt in H2. injection Hs as <- <-.
  destruct (dense_resize_ok BlockN HBlockN D n (mo_inv _ _ _ HM)) as (D' & E & HI & HE & HP); [lia|]. exists D'. cbn [DenseSpec.exec]. rewrite E. split; [done|]. split; [|rewrite HP; pose proof sigma_pos; lia]. apply models_extend with (D := D); [done|done|].
  unfold num_entries in *. by replace (Z.of_nat (Z.to_nat n - length A)) with (n - size D) by lia.
Qed.

Lemma sim_clone D A s r A' : models D A -> spec (CloneState s) A = Some (r, A') -> 4 * (N (pool D) + sigma) < 2 ^ 32 -> simulated (CloneState s) D r A'.
Proof using HBlockN.
  intros HM Hs Hb. cbn [DenseSpec.spec] in Hs. destruct (entry_at A s) as [a|] eqn:Ha; [|done]. cbn [mbind option_bind] in Hs. rewrite <- (mo_size _ _ _ HM) in Hs. destruct (Z.ltb_spec (size D) max_state) as [Hlt|]; [|done]. injection Hs as <- <-. destruct (entry_range D A s a HM Ha) as (Hr & _ & _).
  destruct (clone_state_ok BlockN HBlockN rand_r junk D s (mo_inv _ _ _ HM) Hr Hlt Hb) as (D' & E & HI & HC & HN). exists D'. cbn [DenseSpec.exec]. rewrite E. split; [done|]. split; [by apply (models_copy D A D' s)|done].
Qed.

Lemma sim_term D A s a b : models D A -> entry_at A s = Some a -> exists D', (let* x := state D s in put_state D s (set_term x b)) = Ok D' /\ models D' (put A s (Entry b (e_fresh a) (e_moves a))) /\ N (pool D') <= N (pool D) + sigma.
Proof using HBlockN.
  intros HM Ha. destruct (entry_range D A s a HM Ha) as (Hs & _ & _ & _ & _ & S4). destruct (dense_state_rd D s Hs) as (x & Hrd & Hx). rewrite (state_ok D s x Hs Hx). cbn [rbind]. rewrite put_state_ok by done. eexists. split; [done|].
  destruct (set_term_ok BlockN D s x b (mo_inv _ _ _ HM) Hs Hx) as [HI HC]. split; [|cbn; pose proof sigma_pos; lia]. apply (models_put D A _ s a (Entry b (e_fresh a) (e_moves a)) (move_of D s) HM Ha HI HC).
  - intros c Hc. exact (move_entry D A s a c HM Ha Hc).
  - intros c t. exact (range_entry D A s a c t HM Ha).
  - intros Hfr. destruct (S4 Hfr) as (y & Hy & Hno). assert (y = x) as -> by congruence. exists (set_term x b). split; [|done]. cbn [states set_states]. apply list_lookup_insert_eq. by eapply lookup_lt_Some.
Qed.

Lemma find_list_to_map (l : list (Z * Z)) c : (list_to_map l : gmap Z Z) !! c = Dfa.find_move c l.
Proof. induction l as [|[d t] l IH]; [done|]. cbn [list_to_map foldr Dfa.find_move]. destruct (Z.eqb_spec d c) as [->|Hn]; [apply lookup_insert_eq|]. cbn [fst snd uncurry]. rewrite lookup_insert_ne by done. exact IH. Qed.

Lemma add_all_nil D s D' : add_all_move BlockN rand_r junk D s [] = Ok D' -> D' = D.
Proof.
  unfold add_all_move. destruct (rd (states D) s) as [y| | |]; [|done..]. cbn [rbind].
  repeat match goal with |- context [assert_ ?b] => destruct b; cbn [assert_ rbind]; [|done] end. by intros [= ->].
Qed.

Lemma sim_add_all D A s l r A' : models D A -> spec (AddAll s l) A = Some (r, A') -> 4 * (N (pool D) + sigma) < 2 ^ 32 -> simulated (AddAll s l) D r A'.
Proof using HBlockN.
  intros HM Hs Hb. cbn [DenseSpec.spec] in Hs. destruct (entry_at A s) as [a|] eqn:Ha; [|done]. cbn [mbind option_bind] in Hs. destruct (_ && _) eqn:Hc; [|done]. injection Hs as <- <-. rewrite !andb_true_iff, forallb_forall in Hc. destruct Hc as [[[H1 H2] H3] H4].
  destruct (entry_range D A s a HM Ha) as (Hr & _ & S1 & _ & _ & S4). destruct (S4 H1) as (x & Hx & Hno). assert (Hg : forall c t, In (c, t) l -> 0 <= c < sigma /\ 0 <= t < nil_state) by (intros c t Hin; apply good_move_range; apply (H4 _ Hin)).
  assert (Hlen : Z.of_nat (length l) <= sigma) by (rewrite <- (dense_rank_all l sigma) by (done || (intros c t Hin; by apply (Hg c t))); apply rank_bounds; pose proof sigma_pos; lia).
  destruct (add_all_ok BlockN HBlockN rand_r junk D s x l (mo_inv _ _ _ HM) Hr Hx Hno H3 Hg) as (D' & E & HI & HN & HC); [lia|]. exists D'. cbn [DenseSpec.exec]. rewrite E. split; [done|]. split; [|lia].
  assert (is_term_ x = e_term a) as Et by (rewrite <- S1; unfold term_of; by rewrite (rd_ok _ _ x) by (lia || done)). rewrite Et in HC. apply (models_put D A D' s a (Entry (e_term a) (match l with [] => true | _ => false end) (list_to_map l)) _ HM Ha HI HC).
  - intros c Hc. cbn [e_moves]. by rewrite find_list_to_map.
  - intros c t. cbn [e_moves]. rewrite find_list_to_map. intros Hf. apply find_in in Hf; [|done]. by apply (Hg c t).
  - cbn [e_fresh]. destruct l; [|done]. intros _. exists x. split; [|done]. apply add_all_nil in E as ->. exact Hx.
Qed.

Lemma dense_sim_step o D A r A' : models D A -> spec o A = Some (r, A') -> 4 * (N (pool D) + sigma) < 2 ^ 32 -> simulated o D r A'.
Proof using HBlockN.
  intros HM Hs Hb. pose proof sigma_pos as Hsg. pose proof (mo_inv _ _ _ HM) as HI. destruct o as [|n|s|s|s|s t ch|s t ch|s t ch|s ch|s|s l|s ch|s|s|s|]; [by apply (sim_new D A)|by apply (sim_resize D A)|by apply (sim_clone D A)|..|cbn [DenseSpec.spec] in Hs; injection Hs as <- <-; exists D; cbn [DenseSpec.exec]; rewrite (transitions_ok D A HM); split; [done|split; [done|lia]]];
    try (by apply (sim_add_all D A)); cbn [DenseSpec.spec] in Hs; (destruct (entry_at A s) as [a|] eqn:Ha; [|done]); cbn [mbind option_bind] in Hs; destruct (entry_range D A s a HM Ha) as (Hr & _ & S1 & S2 & S3 & S4).
  - injection Hs as <- <-. destruct (sim_term D A s a true HM Ha) as (D' & E & HD). exists D'. cbn [DenseSpec.exec]. unfold set_term_bit. rewrite E. by split.
  - injection Hs as <- <-. destruct (sim_term D A s a false HM Ha) as (D' & E & HD). exists D'. cbn [DenseSpec.exec]. unfold clear_term_bit. rewrite E. by split.
  - destruct (_ && _) eqn:Hc; [|done]. injection Hs as <- <-. apply andb_true_iff in Hc as [Hg Hn]. apply bool_decide_eq_true in Hn. destruct (good_move_range ch t Hg) as [Hch _].
    destruct (add_imp_sim D A s a t ch false HM Ha Hg) as (D' & E & HD); [congruence|by right|done|]. exists D'. cbn [DenseSpec.exec]. unfold add_move. rewrite (proj2 (Z.ltb_lt ch _)) by lia. cbn [assert_ rbind]. rewrite E, Hn. by split.
  - destruct (_ && _) eqn:Hc; [|done]. injection Hs as <- <-. apply andb_true_iff in Hc as [Hg Hn]. apply bool_decide_eq_true in Hn. destruct (good_move_range ch t Hg) as [Hch _].
    destruct (add_imp_sim D A s a t ch false HM Ha Hg) as (D' & E & HD); [congruence|by right|done|]. exists D'. cbn [DenseSpec.exec]. unfold add_move_checked. rewrite (proj2 (Z.ltb_lt ch _)) by lia. cbn [assert_ rbind]. rewrite E, Hn. by split.
  - destruct (_ && _) eqn:Hc; [|done]. injection Hs as <- <-. apply andb_true_iff in Hc as [Hg Hn]. apply negb_true_iff, bool_decide_eq_false in Hn. destruct (good_move_range ch t Hg) as [Hch _].
    destruct (add_imp_sim D A s a t ch true HM Ha Hg) as (D' & E & HD); [done|by left|done|]. exists D'. cbn [DenseSpec.exec]. unfold set_move. rewrite (proj2 (Z.ltb_lt ch _)) by lia. cbn [assert_ rbind]. rewrite E. by split.
  - destruct (negb _) eqn:Hn; [|done]. injection Hs as <- <-. apply negb_true_iff, bool_decide_eq_false in Hn. assert (Hch : 0 <= ch < sigma). { destruct (e_moves a !! ch) as [t|] eqn:Et; [by apply (S3 ch t)|done]. }
    destruct (del_move_ok BlockN HBlockN rand_r junk D s ch HI Hr Hch) as (D' & E & HI' & HN & HC); [by rewrite S2|]. exists D'. cbn [DenseSpec.exec]. rewrite E. split; [done|]. split; [|lia]. apply (models_moves D A D' s a _ ch None HM Ha HI' HC); [|done].
    intros c. destruct (Z.eqb_spec c ch) as [->|Hne]; [by rewrite lookup_delete_eq|by rewrite lookup_delete_ne].
  - injection Hs as <- <-. destruct (dense_state_rd D s Hr) as (x & Hrd & Hx). destruct (del_all_ok BlockN HBlockN rand_r D s x HI Hr Hx) as (D' & x' & E & HI' & HN & HC & Hx' & Hno). exists D'. cbn [DenseSpec.exec]. rewrite E. split; [done|]. split; [|lia].
    assert (is_term_ x = e_term a) as Et by (rewrite <- S1; unfold term_of; by rewrite Hrd). rewrite Et in HC. apply (models_put D A D' s a (Entry (e_term a) true ∅) _ HM Ha HI' HC); [intros c Hc; symmetry; apply (lookup_empty (M:=gmap Z))|intros c t Hl; cbn [e_moves] in Hl; by rewrite lookup_empty in Hl|by intros _; exists x'].
  - destruct (_ && _) eqn:Hc; [|done]. injection Hs as <- <-. apply andb_true_iff in Hc as [H1 H2]. apply Z.leb_le in H1. apply Z.ltb_lt in H2. exists D. cbn [DenseSpec.exec]. rewrite (dense_state_move_ok BlockN HBlockN) by (done || lia). rewrite S2 by lia. split; [by destruct (e_moves a !! ch)|]. split; [done|lia].
  - injection Hs as <- <-. exists D. cbn [DenseSpec.exec]. rewrite (each_move_ok BlockN HBlockN) by done. cbn [rbind]. split; [|split; [done|lia]]. do 3 f_equal. apply table_ext. intros c Hc. apply S2. lia.
  - injection Hs as <- <-. exists D. cbn [DenseSpec.exec]. unfold is_term. destruct (dense_state_rd D s Hr) as (x & Hrd & Hx). rewrite (state_ok D s x Hr Hx). cbn [rbind]. split; [|split; [done|lia]]. do 3 f_equal. rewrite <- S1. unfold term_of. by rewrite Hrd.
  - injection Hs as <- <-. exists D. cbn [DenseSpec.exec]. rewrite (has_children_ok D A s a HM Ha). split; [done|]. split; [done|lia].
Qed.

Lemma sim_all os : forall D A rs A', models D A -> spec_all BlockN os A = Some (rs, A') -> 4 * (N (pool D) + sigma * Z.of_nat (length os)) < 2 ^ 32 -> exists D', exec_all BlockN rand_r junk os D = Ok (rs, D') /\ models D' A'.
Proof using HBlockN.
  pose proof sigma_pos as Hsg. induction os as [|o os IH]; intros D A rs A' HM Hs Hb; cbn [spec_all] in Hs; [injection Hs as <- <-; by exists D|]. destruct (spec o A) as [[r A1]|] eqn:E1; [|done]. cbn [mbind option_bind] in Hs. destruct (spec_all BlockN os A1) as [[rs1 A2]|] eqn:E2; [|done]. injection Hs as <- <-.
  cbn [length] in Hb. destruct (dense_sim_step o D A r A1 HM E1) as (D1 & X1 & HM1 & HN1); [nia|]. destruct (IH D1 A1 rs1 A2 HM1 E2) as (D2 & X2 & HM2); [nia|]. exists D2. cbn [exec_all]. rewrite X1. cbn [rbind]. rewrite X2. cbn [rbind]. by split.
Qed.
End sigma.
End DenseRefine.
