(* ===== verification/DenseProps.v ===== *)
(** * Automata with bitmaps: the theorems

    From a new automaton every sequence of operations within the contract of [DenseSpec]
    does what it says.  Then samples, and what the code does wrong. *)
From stdpp Require Import gmap sorting.
From S2P Require Import Prelude Bits Dfa MemPool MemPoolProps DenseDfa DenseBits DenseMoves DenseOps DenseInv DenseSteps DenseFreq DenseBuild DenseFill DenseSpec DenseRefine.
Import DenseDfa DenseBits DenseMoves DenseOps DenseInv DenseSteps DenseFreq DenseBuild DenseFill DenseSpec DenseRefine.

Module DenseProps.

Section sigma.
Context (BlockN : Z).
Hypothesis (HBlockN : 0 < BlockN < 2 ^ 20).

(** A new automaton has one state and no moves. *)
Lemma make_models : exists D, make BlockN = Ok D /\ models BlockN D [new_entry] /\ MemPool.mem (pool D) = [].
Proof using HBlockN.
  pose proof (sigma_range BlockN HBlockN) as Hs. unfold make, PoolAlign. assert (64 <= sigma BlockN) by (unfold sigma; lia).
  destruct (MemPoolProps.make_rep (4 * sigma BlockN)) as (p & -> & Hr & Hm); [lia|]. cbn [rbind]. eexists. split; [done|]. split; [|done].
  destruct (fresh_inv BlockN HBlockN p _ _ Hr) as (HI & Hsz & Ht & Hmv). split; [done|done|]. intros s a H0 Ha. apply list_lookup_singleton_Some in Ha as [Hz <-]. assert (s = 0) as -> by lia.
  split; [done|]. split; [intros c _; by rewrite Hmv|]. split; [intros c t; cbn [e_moves new_entry]; by rewrite lookup_empty|]. intros _. eexists. split; [done|]. apply blank_none.
Qed.

(** C31: refinement.  A new [DenseDFA] with any number of characters that is a multiple of
    64: every sequence of operations within the contract (new and copied states, adding,
    setting and deleting moves one by one or all at once, final states, and the queries)
    runs without a failing assertion, an access outside the pool or an exception, and
    every operation gives what it gives on a list of maps from characters to targets;
    at the end each state has the moves of its map, and the invariant holds ([models]).
    The bound: the number of operations times that of characters is below 2^30, so that
    the pool stays below 2^32 bytes.  The contract asks [add_move] for a character without
    a move, [set_move] for a target that is not the present one, [del_move] for a
    character with a move, [resize_states] for at least the present number of states, and
    [add_all_move] for a state that has had no moves since it was made or cleared, with
    characters in ascending order; [del_state] is not in it, as it begins with
    [assert(0)]. *)
Theorem dense_dfa_refines rand_r junk os : 4 * (sigma BlockN * Z.of_nat (length os)) < 2 ^ 32 -> exists D0, make BlockN = Ok D0 /\
  forall rs A, spec_all BlockN os [new_entry] = Some (rs, A) -> exists D, exec_all BlockN rand_r junk os D0 = Ok (rs, D) /\ models BlockN D A.
Proof using HBlockN.
  intros Hb. destruct make_models as (D0 & E & HM & Hp). exists D0. split; [done|]. intros rs A Hs. apply (sim_all BlockN HBlockN rand_r junk os D0 [new_entry]); [done|done|].
  by rewrite Hp.
Qed.
End sigma.

(** ** Samples: 320 characters, the number of [DenseDFA_uint32_320] *)

Definition rnd (s : Z) : Z * Z := ((s * 5 + 3) mod 16, s + 1).
Definition held (i : Z) : Z := i.

Definition sample_ops : list op :=
  [NewState; Resize 5; AddMove 0 1 3; AddMoveChecked 0 2 300; AddMove 0 3 7; AddMove 0 4 5; SetMove 0 2 3; StateMove 0 3; CloneState 0; DelMove 0 300; EachMove 0; EachMove 5;
   SetTerm 5; IsTerm 5; AddAll 1 [(1, 4); (2, 4); (3, 2); (4, 3); (9, 4)]; EachMove 1; Transitions; DelAll 1; HasChildren 1; Transitions].

Definition sample_answers : list ans :=
  [Num 1; Done; Num nil_state; Done; Num nil_state; Num nil_state; Num 1; Num 2; Num 5; Done; Moves [(3, 2); (5, 4); (7, 3)]; Moves [(3, 2); (5, 4); (7, 3); (300, 2)];
   Done; Flag true; Done; Moves [(1, 4); (2, 4); (3, 2); (4, 3); (9, 4)]; Num 12; Done; Flag false; Num 7].

Lemma dense_dfa_refines_witness : exists D0 D, make 5 = Ok D0 /\ exec_all 5 rnd held sample_ops D0 = Ok (sample_answers, D) /\ size D = 6.
Proof.
  destruct (dense_dfa_refines 5 ltac:(lia) rnd held sample_ops ltac:(vm_compute; reflexivity)) as (D0 & E & H).
  destruct (spec_all 5 sample_ops [new_entry]) as [[rs A]|] eqn:Es; [|vm_compute in Es; discriminate]. assert (rs = sample_answers /\ length A = 6%nat) as [-> HA].
  { assert (option_map (fun x => (fst x, length (snd x))) (spec_all 5 sample_ops [new_entry]) = Some (sample_answers, 6%nat)) as Ec by (vm_compute; reflexivity). rewrite Es in Ec. cbn in Ec. by injection Ec as -> ->. }
  destruct (H sample_answers A eq_refl) as (D & Ex & [_ Hsz _]). exists D0, D. split; [exact E|]. split; [exact Ex|]. rewrite Hsz. unfold num_entries. by rewrite HA.
Defined.

(** ** What the code does wrong *)

Definition after (os : list op) : res DenseDFA := let* D := make 5 in let* (_, D) := exec_all 5 rnd held os D in Ok D.
Definition two_shared : list op := [Resize 4; AddMove 0 1 10; AddMove 0 2 11].

(** [add_move] for a character with the second shared target gives the first one. *)
Lemma dense_add_move_wrong_old : (let* D := after two_shared in let* (r, _) := add_move 5 rnd held D 0 3 11 in Ok r) = Ok 1 /\ (let* D := after two_shared in state_move 5 D 0 11) = Ok 2.
Proof. split; vm_compute; reflexivity. Qed.

(** [set_move] with the present target returns it when the target is shared; when it lies
    in the pool and a shared target is free the assertion fails. *)
Lemma dense_set_move_same_aborts : (let* D := after two_shared in let* (r, _) := set_move 5 rnd held D 0 2 11 in Ok r) = Ok 2 /\
  (let* D := after (two_shared ++ [AddMove 0 3 12; DelMove 0 10; DelMove 0 11]) in set_move 5 rnd held D 0 3 12) = UB.
Proof. split; vm_compute; reflexivity. Qed.

(** A move to the second shared target is counted twice. *)
Lemma dense_more_than_one_wrong : (let* D := after (two_shared ++ [DelMove 0 10]) in let* l := for_each_move 5 D 0 in let* b := more_than_one_child D 0 in Ok (l, b)) = Ok ([(11, 2)], true).
Proof. vm_compute. reflexivity. Qed.

(** States with the same moves, made in another order, have different hashes and are
    not equal. *)
Lemma dense_hash_by_history : let other := [AddMove 1 3 12; AddMove 1 2 11; AddMove 1 1 10] in
  (let* D := after (two_shared ++ [AddMove 0 3 12] ++ other) in let* l0 := for_each_move 5 D 0 in let* l1 := for_each_move 5 D 1 in
   let* h0 := hopcroft_hash D 0 in let* h1 := hopcroft_hash D 1 in let* e := onfly_hash_equal D 0 1 in
   Ok (bool_decide (l0 = l1), h0 =? h1, e)) = Ok (true, false, false).
Proof. vm_compute. reflexivity. Qed.

(** No state can be deleted in a debug build. *)
Lemma dense_del_state_asserts D s : del_state 5 D s rnd = UB.
Proof. done. Qed.
End DenseProps.
